(* ===== verification/_CoqProject ===== *)
-Q . S2P
Prelude.v
PmmRange.v
PmmSection.v
Pmm.v
PmmRef.v
PmmInit.v
Vma.v
Frames.v
Vmm.v
VmmWf.v
VmmInv.v
VmmOps.v
VmmFault.v
VmSpace.v
VmWalk.v
VmCreate.v
VmFork.v
VmDestroy.v
VmSafe.v
VmReach.v
MmSyscall.v
MmRange.v
MmRegions.v
MmProc.v
MmMmap.v
MmSystem.v
VmProps.v
ShaMd.v
Sha256.v
Sha512.v
Sha1.v
Ed25519.v
EdLimbs.v
EdField.v
EdScalar.v
EdVerify.v
Elf.v
ElfLoad.v
ElfSign.v
ProcImage.v
Cap.v
Cred.v
Priv.v
Ring.v
UserCopy.v
Pipe.v
PipeWake.v
Ipc.v
Signal.v
SignalProps.v
SignalKill.v
Heap.v
HeapMem.v
HeapInv.v
HeapAlloc.v
HeapMalloc.v
HeapFree.v
HeapCheck.v
HeapProps.v
NetBase.v
Net.v
Tcp.v
TcpSeg.v
TcpGhost.v
TcpEnd.v
TcpRecv.v
TcpStream.v
NetProps.v
TcpTable.v
TcpOps.v
TcpHeap.v
TcpProps.v
Socket.v
SocketInv.v
SocketOps.v
SocketProps.v
UdpProps.v
PageCache.v
