(* ===== verification/Prelude.v ===== *)
(** * SECoS: a verification library for the kernel

    SECoS is an x86-64 kernel whose aim is that only signed code runs and that
    what runs is confined.  This library models the parts of it that carry that
    promise and proves them correct: the memory of processes from the firmware
    map to the page tables, the code-signing gate with its cryptography, the
    privileges a program gets, the ways processes act on each other, and the
    network stack up to the sockets.

    ** Conventions

    C unsigned integers are [Z] with the wrap-around written out ([u8] to [u64]
    in this file), signed ones [s32] and [s64]; arrays are lists read with
    [a.[i]] and updated with [a.[i <- x]]; memory is a function of the address.
    A [for] loop is [zfor]; a loop that is not bounded by a count has fuel, and
    a theorem says the fuel is enough.  Every definition keeps the name of the
    function, type or constant it translates; a definition that translates a
    part of a function has a name of its own.  Each operation of a component
    that takes a lock is one step.

    ** Parts

    - Physical memory, [src/mm/pmm.c].  [PmmRange]: the tables of address ranges
      and the early allocator.  [PmmSection]: one bitmap section.  [Pmm]: the
      sections together, single and contiguous allocation.  [PmmRef]: reference
      counts of shared frames.  [PmmInit]: the firmware parsers and the switch
      from the early allocator.  [Frames]: the interface [FrameOps] the page
      tables use, its laws, and that the allocator refines counts per frame.
    - Kernel heap, [src/mm/heap.c].  [Heap]: headers, canaries, allocation,
      release and the consistency check, over any page source of class
      [PageOps].  [HeapMem]: byte-level lemmas.  [HeapInv]: what a well-formed
      heap is.  [HeapAlloc], [HeapMalloc], [HeapFree], [HeapCheck]: each
      operation.  [HeapProps]: the heap over the frame allocator.
    - Regions, [src/mm/vma.c].  [Vma]: the set of regions of a process and the
      contents of a demand-filled page.
    - Page tables, [src/mm/vmm.c].  [Vmm]: definitions.  [VmmWf], [VmmInv]: what
      a well-formed tree is and that frames are counted.  [VmmOps], [VmmFault]:
      mapping, protection, faults.  [VmSpace], [VmWalk], [VmCreate], [VmFork],
      [VmDestroy]: whole address spaces.  [VmSafe], [VmReach]: isolation.
    - Memory system calls, [src/kernel/syscall.c].  [MmSyscall]: definitions.
      [MmRange], [MmRegions], [MmProc], [MmMmap]: each call.  [MmSystem]: the
      transition system of all processes.  [VmProps]: the theorems about memory.
    - Page cache, [src/mm/pagecache.c].  [PageCache]: file pages in frames of any
      [FrameOps], over any file systems of class [Files]; what [read] and the
      fault handler see through it.
    - Cryptography, [src/crypto].  [ShaMd], [Sha256], [Sha512], [Sha1]: the hash
      functions.  [Ed25519], [EdLimbs], [EdField], [EdScalar], [EdVerify]:
      signature verification.
    - Programs, [src/mm/elf.c], [elf_sign.c], [elf_manifest.c],
      [src/kernel/process.c].  [Elf]: definitions.  [ElfLoad]: the loader.
      [ElfSign]: signatures and notes.  [ProcImage]: from a file to a process.
    - Privileges, [src/kernel/cap.c], [cred.c].  [Cap]: capabilities and the
      audit ring.  [Cred]: credentials over any file system of class [Vfs].
      [Priv]: what execve, spawn, fork and the id calls do to both.
    - Communication.  [UserCopy]: [src/mm/user_copy.c], access to user memory.
      [Ring]: ring buffers.  [Pipe]: [src/kernel/pipe.c] and pipe writes of
      [ksys_write].  [PipeWake]: sleeping and waking ([src/kernel/sched.c],
      [syscall_trap.c], poll of [kiface.c]).  [Ipc]: [src/kernel/ipc.c].
      [Signal], [SignalProps], [SignalKill]: [src/kernel/signal.c].
    - Network, [src/net].  [NetBase]: tables, byte order, the checksum.  [Net]:
      [eth.c], [arp.c], [ipv4.c], [icmp.c], [udp.c].  [NetProps]: what these
      layers promise.  [Tcp]: [tcp.c] over any network layer of class [IpOps]
      and any heap of class [BufOps].  [TcpSeg]: segments on the wire.
      [TcpGhost], [TcpEnd], [TcpRecv], [TcpStream]: a connection as two byte
      streams.  [TcpTable], [TcpOps]: the table of connections.  [TcpHeap]: its
      buffers on the kernel heap.  [TcpProps]: the theorems about TCP.  [Socket]:
      [socket.c] and the receive path and tick of [net_core.c] over all of them.
      [SocketInv], [SocketOps], [SocketProps], [UdpProps]: the whole stack.

    ** What is shown

    - Memory.  In every state reachable by system calls, faults, forks, process
      creation, exits and stores, a store of one program changes nothing another
      one reads, no page is writable and executable, the kernel half is out of
      reach ([VmProps.processes_isolated], [processes_protected]); each call has
      its exact effect.  Frames are handed out once and come back
      ([Frames.pmm_refines_counts], [PmmInit.pmm_boot_uefi_safe]).
    - Kernel heap.  Every run of [kmalloc], [kmalloc_aligned], [kfree] and writes
      of the owners to their payloads is a run of an abstract heap of disjoint
      live blocks that keep their bytes ([HeapProps.heap_refines]); a double
      free, an overrun into the canary and a smashed header stop the kernel.
    - Page cache.  Whatever is evicted, written or mounted in between, a read or
      a fault of a mapped file sees the bytes the file has now, and no frame
      leaks ([PageCache.cache_transparent]).
    - Signed code.  The hash functions compute the standard's functions and the
      verifier the reference Ed25519 verification; the gate accepts exactly the
      properly signed images, only those become processes, and creation is a
      sequence of steps of the memory system ([ProcImage]).
    - Privileges.  A confined program has its manifest's capabilities and no
      others; [no_new_privs] is a one-way door; root is reached only through a
      signed set-user-id program.
    - Communication.  The kernel touches only the user window on a caller's
      behalf.  Pipes and channels lose and reorder nothing, a blocked write ends,
      and no wake-up is lost in any interleaving.  Signal delivery ends, a
      handler's return restores the interrupted context, SIGKILL is final and
      kill follows the credential rules.
    - Network.  Over a network that loses, repeats and reorders, each end of a TCP
      connection reads a prefix of what the other wrote, and end of file after
      all of it ([TcpProps.tcp_streams]).  In every state reached by socket calls,
      frames and ticks no socket, connection or datagram leads to something
      freed, segments have one receiver, backlogs hold, and the heap holds exactly
      the buffers of open connections ([SocketProps]).  A datagram arrives as it
      was sent ([UdpProps.datagram_delivered]), over frames that are well formed
      ([NetProps.ipv4_roundtrip]).

    Where the code does something else than it means to, a lemma shows the
    input: [munmap_front_shifts_file], [munmap_hole_drops_tail],
    [elf_lazy_end_unchecked], [manifest_reads_past_end],
    [qsig_offset_underflow], [sigreturn_forged_iopl], [half_built_child_wakes],
    [kmalloc_wraps], [repeated_unanswered], [tcp_parse_ignores_checksum],
    [input_frees_orphan].

    ** Bounds and fuel

    The early allocator's placement loop runs at most once per reserved range;
    the note search advances by at least twelve bytes a turn
    ([ElfSign.note_loop_terminates]); [write_chunks] moves at least a byte a
    turn; [dispatch_loop] clears a pending signal a turn, so [NSIG] turns are
    enough ([signal_dispatch_total]).  The heap's list walks have a fuel of one
    turn per aligned address of the heap's span.  The sending loop of TCP sends at
    least a byte a turn ([TcpProps.out_loop_enough]), the page cache's read loop
    copies one ([PageCache.read_loop_ok]).  The stream theorem is
    for connections that carry fewer than 2^31 - 2 bytes in a direction, half the
    sequence space, and start with no segment of an earlier connection between
    the same ports about.  The wake protocol is shown for runs of fewer than
    2^64 - 1 events, the range of the sequence counter.  The signature theorems
    ask that an image and its notes lie below 2^62, which keeps pointer sums from
    wrapping; images that violate it are the findings.

    ** Not modelled

    Interrupt entry, context switches, the choice of the next task, other
    processors except in [PipeWake], TLB contents (flushes are recorded), device
    drivers (a network driver's answer is the class [Nic]), file systems (the
    classes [Vfs] and [Files]), terminals, the clients of the network stack
    that configure it (DHCP, DNS, WPA2: arbitrary clients) and its blocking shell
    helpers, the heap's debug options (poison, periodic checks), boot code, the
    console shell, user programs.  They are hardware access, on-disk formats or
    output; the properties above do not depend on them beyond the named
    hypotheses. *)

From Stdlib Require Export ZArith Lia Bool.
From stdpp Require Export base numbers list option gmap.

#[global] Open Scope Z_scope.

(** ** Machine integers

    A [w]-bit unsigned C integer is a [Z] in [[0, 2^w)].  Arithmetic that the
    source performs at width [w] is written with the wrap-around spelled out. *)

Definition u8 (x : Z) : Z := x mod 256.
Definition u16 (x : Z) : Z := x mod 65536.
Definition u32 (x : Z) : Z := x mod 4294967296.
Definition u64 (x : Z) : Z := x mod 18446744073709551616.

(** Conversion of a 32/64-bit pattern to the signed C types [int] and
    [int64_t] (two's complement). *)
Definition s32 (x : Z) : Z :=
  let y := u32 x in if y <? 2147483648 then y else y - 4294967296.
Definition s64 (x : Z) : Z :=
  let y := u64 x in if y <? 9223372036854775808 then y else y - 18446744073709551616.

(** [~x] at 64 and 32 bits. *)
Definition not64 (x : Z) : Z := u64 (Z.lnot x).
Definition not32 (x : Z) : Z := u32 (Z.lnot x).

(** [~0ULL] *)
Definition ALL_ONES : Z := 18446744073709551615.

Definition is_u8 (x : Z) : Prop := 0 ≤ x < 256.
Definition is_u16 (x : Z) : Prop := 0 ≤ x < 65536.
Definition is_u32 (x : Z) : Prop := 0 ≤ x < 4294967296.
Definition is_u64 (x : Z) : Prop := 0 ≤ x < 18446744073709551616.

(** C truth values: [b2z] is the [int] a comparison yields, [ztrue] the test
    of an integer in a condition. *)
Definition b2z (b : bool) : Z := if b then 1 else 0.
Definition ztrue (x : Z) : bool := negb (x =? 0).

(** ** Arrays

    A C array is a list; an index is a [Z].  Reads and writes out of range
    are undefined behaviour in C: [aget] then gives the inhabitant and [aset]
    does nothing, and the theorems carry the range of every index they use. *)

Definition aget {A} `{Inhabited A} (a : list A) (i : Z) : A := a !!! Z.to_nat i.
Definition aset {A} (a : list A) (i : Z) (x : A) : list A := <[Z.to_nat i := x]> a.

Declare Scope secos_scope.
Delimit Scope secos_scope with secos.
Notation "a .[ i ]" := (aget a i)
  (at level 1, i at level 200, left associativity, format "a .[ i ]") : secos_scope.
Notation "a .[ i <- x ]" := (aset a i x)
  (at level 1, i at level 200, x at level 200, left associativity,
   format "a .[ i  <-  x ]") : secos_scope.
Abbreviation zlen l := (Z.of_nat (length l)).
#[global] Open Scope secos_scope.

(** ** Automation *)

Create HintDb secos discriminated.
Create Rewrite HintDb secos_arr.
Create Rewrite HintDb secos_bits.
Create Rewrite HintDb secos_ref.

(** [zbool] turns the boolean tests of the code into propositions. *)
Ltac zbool :=
  unfold is_true, ztrue, b2z in *;
  repeat match goal with
  | H : (_ =? _) = true |- _ => apply Z.eqb_eq in H
  | H : (_ =? _) = false |- _ => apply Z.eqb_neq in H
  | H : (_ <? _) = true |- _ => apply Z.ltb_lt in H
  | H : (_ <? _) = false |- _ => apply Z.ltb_ge in H
  | H : (_ <=? _) = true |- _ => apply Z.leb_le in H
  | H : (_ <=? _) = false |- _ => apply Z.leb_gt in H
  | H : (_ && _) = true |- _ => apply andb_true_iff in H as [? ?]
  | H : (_ || _) = false |- _ => apply orb_false_iff in H as [? ?]
  | H : negb _ = true |- _ => apply negb_true_iff in H
  | H : negb _ = false |- _ => apply negb_false_iff in H
  | H : (_ || _) = true |- _ => apply orb_true_iff in H
  | H : (_ && _) = false |- _ => apply andb_false_iff in H
  end.

(** Case analysis on the innermost test of the goal or of a hypothesis. *)
Ltac split_if :=
  match goal with
  | |- context [if ?b then _ else _] =>
      lazymatch b with context [if _ then _ else _] => fail | _ => destruct b eqn:? end
  | H : context [if ?b then _ else _] |- _ =>
      lazymatch b with context [if _ then _ else _] => fail | _ => destruct b eqn:? end
  end.

Ltac unfold_uint := unfold is_u8, is_u16, is_u32, is_u64, u8, u16, u32, u64, s32, s64 in *.

(** Linear arithmetic over wrapped values. *)
Ltac uint_lia := unfold_uint; Z.to_euclidean_division_equations; lia.

(** ** Wrap-around *)

Lemma u64_small x : is_u64 x → u64 x = x.
Proof. unfold_uint. intros. by apply Z.mod_small. Qed.
Lemma u32_small x : is_u32 x → u32 x = x.
Proof. unfold_uint. intros. by apply Z.mod_small. Qed.
Lemma u16_small x : is_u16 x → u16 x = x.
Proof. unfold_uint. intros. by apply Z.mod_small. Qed.
Lemma u8_small x : is_u8 x → u8 x = x.
Proof. unfold_uint. intros. by apply Z.mod_small. Qed.

Lemma u64_range x : is_u64 (u64 x).
Proof. unfold_uint. apply Z.mod_pos_bound. lia. Qed.
Lemma u32_range x : is_u32 (u32 x).
Proof. unfold_uint. apply Z.mod_pos_bound. lia. Qed.
Lemma u16_range x : is_u16 (u16 x).
Proof. unfold_uint. apply Z.mod_pos_bound. lia. Qed.
Lemma u8_range x : is_u8 (u8 x).
Proof. unfold_uint. apply Z.mod_pos_bound. lia. Qed.
#[export] Hint Resolve u64_range u32_range u16_range u8_range : secos.

(** ** Arrays *)

Lemma aset_length {A} (a : list A) i x : length (aset a i x) = length a.
Proof. apply length_insert. Qed.

Lemma aget_aset_eq {A} `{Inhabited A} (a : list A) i x :
  0 ≤ i < zlen a → aget (aset a i x) i = x.
Proof. intros. unfold aget, aset. apply list_lookup_total_insert_eq. lia. Qed.

Lemma aget_aset_ne {A} `{Inhabited A} (a : list A) i j x :
  0 ≤ i → 0 ≤ j → i ≠ j → aget (aset a i x) j = aget a j.
Proof. intros. unfold aget, aset. apply list_lookup_total_insert_ne. lia. Qed.

Lemma aget_aset {A} `{Inhabited A} (a : list A) i j x :
  0 ≤ i < zlen a → 0 ≤ j → aget (aset a i x) j = if i =? j then x else aget a j.
Proof.
  intros. destruct (Z.eqb_spec i j) as [->|].
  - by apply aget_aset_eq.
  - apply aget_aset_ne; lia.
Qed.

Lemma aget_lookup {A} `{Inhabited A} (a : list A) i :
  0 ≤ i < zlen a → a !! Z.to_nat i = Some (aget a i).
Proof. intros. unfold aget. apply list_lookup_lookup_total_lt. lia. Qed.

Lemma lookup_aget {A} `{Inhabited A} (a : list A) i x :
  a !! Z.to_nat i = Some x → aget a i = x.
Proof. apply list_lookup_total_correct. Qed.

Lemma list_eq_aget {A} `{Inhabited A} (a b : list A) :
  length a = length b → (∀ i, 0 ≤ i < zlen a → aget a i = aget b i) → a = b.
Proof.
  intros Hl Hg. apply list_eq. intros n.
  destruct (decide (n < length a)%nat) as [Hn|Hn].
  - specialize (Hg (Z.of_nat n) ltac:(lia)). unfold aget in Hg. rewrite Nat2Z.id in Hg.
    rewrite !list_lookup_lookup_total_lt by lia. by f_equal.
  - rewrite !lookup_ge_None_2 by lia. done.
Qed.

Lemma aget_replicate {A} `{Inhabited A} n (x : A) i :
  0 ≤ i < Z.of_nat n → aget (replicate n x) i = x.
Proof. intros. unfold aget. apply lookup_total_replicate_2. lia. Qed.

Lemma aset_same {A} `{Inhabited A} (a : list A) i :
  0 ≤ i < zlen a → aset a i (aget a i) = a.
Proof. intros. unfold aset. apply list_insert_id. by apply aget_lookup. Qed.

#[export] Hint Rewrite @aset_length @length_replicate : secos_arr.
#[export] Hint Rewrite @aget_aset_eq using (autorewrite with secos_arr in *; lia) : secos_arr.
#[export] Hint Rewrite @aget_aset_ne using lia : secos_arr.

(** ** Bits *)

Lemma testbit_high n x i : 0 ≤ x < 2 ^ n → 0 ≤ n → n ≤ i → Z.testbit x i = false.
Proof.
  intros Hx Hn Hi. rewrite <- (Z.mod_small x (2 ^ n)) by done.
  by apply Z.mod_pow2_bits_high.
Qed.

Lemma u64_testbit_high x i : is_u64 x → 64 ≤ i → Z.testbit x i = false.
Proof. intros. apply (testbit_high 64); unfold_uint; lia. Qed.

Lemma u64_testbit x i : Z.testbit (u64 x) i = (i <? 64) && Z.testbit x i.
Proof.
  unfold u64. change 18446744073709551616 with (2 ^ 64).
  destruct (Z.ltb_spec i 64); simpl.
  - by apply Z.mod_pow2_bits_low.
  - by apply Z.mod_pow2_bits_high.
Qed.

Lemma u32_testbit x i : Z.testbit (u32 x) i = (i <? 32) && Z.testbit x i.
Proof.
  unfold u32. change 4294967296 with (2 ^ 32).
  destruct (Z.ltb_spec i 32); simpl.
  - by apply Z.mod_pow2_bits_low.
  - by apply Z.mod_pow2_bits_high.
Qed.

Lemma not64_testbit x i : 0 ≤ i → Z.testbit (not64 x) i = (i <? 64) && negb (Z.testbit x i).
Proof. intros. unfold not64. by rewrite u64_testbit, Z.lnot_spec. Qed.

Lemma not32_testbit x i : 0 ≤ i → Z.testbit (not32 x) i = (i <? 32) && negb (Z.testbit x i).
Proof. intros. unfold not32. by rewrite u32_testbit, Z.lnot_spec. Qed.

Lemma ALL_ONES_testbit i : 0 ≤ i → Z.testbit ALL_ONES i = (i <? 64).
Proof.
  intros. change ALL_ONES with (Z.ones 64). rewrite Z.testbit_ones by lia.
  destruct (Z.leb_spec 0 i); [done | lia].
Qed.

Lemma pow2_testbit n i : 0 ≤ n → 0 ≤ i → Z.testbit (2 ^ n) i = (n =? i).
Proof.
  intros. destruct (Z.eqb_spec n i) as [->|].
  - by apply Z.pow2_bits_true.
  - apply Z.pow2_bits_false. lia.
Qed.

(** A nonnegative number is below [2^n] when its bits from [n] up are clear. *)
Lemma bits_bound n x : 0 ≤ n → 0 ≤ x → (∀ i, n ≤ i → Z.testbit x i = false) → x < 2 ^ n.
Proof.
  intros Hn Hx Hb. destruct (Z.lt_ge_cases x (2 ^ n)) as [|Hge]; [done|].
  destruct (decide (x = 0)) as [->|]; [pose proof (Z.pow_pos_nonneg 2 n); lia|].
  assert (Hl : n ≤ Z.log2 x).
  { rewrite <- (Z.log2_pow2 n) by done. by apply Z.log2_le_mono. }
  specialize (Hb _ Hl). rewrite Z.bit_log2 in Hb by lia. done.
Qed.

Lemma is_u64_bits x : 0 ≤ x → (∀ i, 64 ≤ i → Z.testbit x i = false) → is_u64 x.
Proof. intros. split; [done|]. by apply (bits_bound 64). Qed.

Lemma is_u64_land_l x y : is_u64 x → is_u64 (Z.land x y).
Proof.
  intros Hx. apply is_u64_bits.
  - apply Z.land_nonneg. left. apply Hx.
  - intros. by rewrite Z.land_spec, u64_testbit_high.
Qed.
Lemma is_u64_lor x y : is_u64 x → is_u64 y → is_u64 (Z.lor x y).
Proof.
  intros Hx Hy. apply is_u64_bits.
  - apply Z.lor_nonneg. split; [apply Hx | apply Hy].
  - intros. by rewrite Z.lor_spec, !u64_testbit_high.
Qed.
Lemma is_u64_lxor x y : is_u64 x → is_u64 y → is_u64 (Z.lxor x y).
Proof.
  intros Hx Hy. apply is_u64_bits.
  - apply Z.lxor_nonneg. destruct Hx, Hy. lia.
  - intros. by rewrite Z.lxor_spec, !u64_testbit_high.
Qed.
#[export] Hint Resolve is_u64_land_l is_u64_lor is_u64_lxor : secos.

(** Two 64-bit words with the same 64 low bits are equal. *)
Lemma u64_ext x y : is_u64 x → is_u64 y →
  (∀ i, 0 ≤ i < 64 → Z.testbit x i = Z.testbit y i) → x = y.
Proof.
  intros Hx Hy H. apply Z.bits_inj'. intros i Hi.
  destruct (Z.lt_ge_cases i 64).
  - by apply H.
  - by rewrite !u64_testbit_high.
Qed.

(** Masking with [~m] clears the bits of [m]. *)
Lemma land_not64 v m : is_u64 v → Z.land v (not64 m) = Z.ldiff v m.
Proof.
  intros Hv. apply Z.bits_inj'. intros i Hi.
  rewrite Z.land_spec, Z.ldiff_spec, not64_testbit by done.
  destruct (Z.ltb_spec i 64); simpl; [done|].
  by rewrite u64_testbit_high.
Qed.

(** Rounding down to a power of two: [v & ~(2^k - 1)]. *)
Lemma land_not64_ones k v : 0 ≤ k → is_u64 v →
  Z.land v (not64 (2 ^ k - 1)) = v / 2 ^ k * 2 ^ k.
Proof.
  intros Hk Hv. rewrite land_not64 by done.
  replace (2 ^ k - 1) with (Z.ones k) by (rewrite Z.ones_equiv; lia).
  rewrite Z.ldiff_ones_r, Z.shiftl_mul_pow2, Z.shiftr_div_pow2 by done. done.
Qed.

Lemma land_ones_mod k v : 0 ≤ k → Z.land v (2 ^ k - 1) = v mod 2 ^ k.
Proof.
  intros. replace (2 ^ k - 1) with (Z.ones k) by (rewrite Z.ones_equiv; lia).
  by apply Z.land_ones.
Qed.

#[export] Hint Rewrite Z.land_spec Z.lor_spec Z.lxor_spec Z.ldiff_spec : secos_bits.
#[export] Hint Rewrite not64_testbit not32_testbit ALL_ONES_testbit using lia : secos_bits.
#[export] Hint Rewrite u64_testbit u32_testbit : secos_bits.

(** Bits of [d + 2^k * y] with [d] below [2^k]: those of [d], then those of [y]. *)
Lemma testbit_concat k d y i : 0 ≤ k → 0 ≤ d < 2 ^ k → 0 ≤ i →
  Z.testbit (d + 2 ^ k * y) i = if i <? k then Z.testbit d i else Z.testbit y (i - k).
Proof.
  intros Hk Hd Hi. destruct (Z.ltb_spec i k).
  - rewrite <- (Z.mod_pow2_bits_low (d + 2 ^ k * y) k i) by done.
    rewrite (Z.mul_comm (2 ^ k)), Z.mod_add by lia. by rewrite Z.mod_small.
  - replace i with ((i - k) + k) at 1 by lia. rewrite <- Z.div_pow2_bits by lia.
    rewrite (Z.mul_comm (2 ^ k)), Z.div_add by lia. by rewrite Z.div_small.
Qed.

Lemma land_concat k d y m M : 0 ≤ k → 0 ≤ d < 2 ^ k → 0 ≤ m < 2 ^ k →
  Z.land (d + 2 ^ k * y) (m + 2 ^ k * M) = Z.land d m + 2 ^ k * Z.land y M.
Proof.
  intros Hk Hd Hm.
  assert (Hl : 0 ≤ Z.land d m < 2 ^ k).
  { split; [apply Z.land_nonneg; lia|]. apply bits_bound; [lia | apply Z.land_nonneg; lia |].
    intros i Hi. by rewrite Z.land_spec, (testbit_high k d). }
  apply Z.bits_inj'. intros i Hi.
  rewrite Z.land_spec, !testbit_concat by done.
  destruct (i <? k); by rewrite Z.land_spec.
Qed.

(** ** Counting

    [zcount P n] is the number of indices in [[0, n)] that satisfy [P]. *)

Fixpoint zcount (P : Z → bool) (n : nat) : Z :=
  match n with
  | O => 0
  | S n => zcount P n + b2z (P (Z.of_nat n))
  end.

Lemma zcount_bound P n : 0 ≤ zcount P n ≤ Z.of_nat n.
Proof. induction n as [|n IH]; simpl zcount; unfold b2z in *; [|destruct (P _)]; lia. Qed.

Lemma zcount_ext P Q n : (∀ i, 0 ≤ i < Z.of_nat n → P i = Q i) → zcount P n = zcount Q n.
Proof.
  induction n as [|n IH]; intros H; [done|]. simpl. rewrite IH by (intros; apply H; lia).
  by rewrite H by lia.
Qed.

Lemma zcount_add P m n :
  zcount P (m + n) = zcount P m + zcount (λ i, P (Z.of_nat m + i)) n.
Proof.
  induction n as [|n IH].
  - rewrite Nat.add_0_r. simpl. lia.
  - rewrite Nat.add_succ_r. simpl. rewrite IH. rewrite Nat2Z.inj_add. lia.
Qed.

Lemma zcount_all P n : (∀ i, 0 ≤ i < Z.of_nat n → P i = true) → zcount P n = Z.of_nat n.
Proof.
  induction n as [|n IH]; intros H; [done|]. simpl zcount.
  rewrite IH, H by (intros; try apply H; lia). simpl. lia.
Qed.

Lemma zcount_none P n : (∀ i, 0 ≤ i < Z.of_nat n → P i = false) → zcount P n = 0.
Proof.
  induction n as [|n IH]; intros H; [done|]. simpl zcount.
  rewrite IH, H by (intros; try apply H; lia). done.
Qed.

Lemma zcount_pos P n i : 0 ≤ i < Z.of_nat n → P i = true → 0 < zcount P n.
Proof.
  induction n as [|n IH]; intros Hi HP; [lia|]. simpl zcount.
  pose proof (zcount_bound P n). destruct (decide (i = Z.of_nat n)) as [->|].
  - rewrite HP. simpl. lia.
  - specialize (IH ltac:(lia) HP). destruct (P (Z.of_nat n)); simpl; lia.
Qed.

Lemma zcount_zero P n : zcount P n = 0 → ∀ i, 0 ≤ i < Z.of_nat n → P i = false.
Proof.
  intros Hz i Hi. destruct (P i) eqn:E; [|done].
  pose proof (zcount_pos P n i Hi E). lia.
Qed.

(** Two predicates that differ on a set where the first is false throughout
    and the second is true: the counts differ by the size of that set. *)
Lemma zcount_diff P Q n :
  zcount Q n - zcount P n =
  zcount (λ i, negb (P i) && Q i) n - zcount (λ i, P i && negb (Q i)) n.
Proof.
  induction n as [|n IH]; [done|]. simpl zcount.
  destruct (P (Z.of_nat n)), (Q (Z.of_nat n)); simpl; lia.
Qed.

Lemma land_le_r a b : 0 ≤ a → 0 ≤ b → 0 ≤ Z.land a b ≤ b.
Proof.
  intros Ha Hb. split; [apply Z.land_nonneg; lia|].
  assert (Hd : Z.ldiff (Z.land a b) b = 0).
  { apply Z.bits_inj'. intros i Hi. rewrite Z.ldiff_spec, Z.land_spec, Z.bits_0.
    by destruct (Z.testbit a i), (Z.testbit b i). }
  apply Z.sub_nocarry_ldiff in Hd.
  assert (0 ≤ Z.ldiff b (Z.land a b)) by (apply Z.ldiff_nonneg; lia). lia.
Qed.

(** A boolean property of a byte is checked by enumeration. *)
Lemma forall_below (n : nat) (P : Z → bool) :
  forallb P (Z.of_nat <$> seq 0 n) = true → ∀ d, 0 ≤ d < Z.of_nat n → P d = true.
Proof.
  intros H d Hd. rewrite forallb_forall in H. apply H. apply list_elem_of_In.
  apply list_elem_of_fmap. exists (Z.to_nat d). split; [lia|]. apply elem_of_seq. lia.
Qed.

Lemma zcount_or P Q n :
  zcount P n + zcount Q n = zcount (λ i, P i || Q i) n + zcount (λ i, P i && Q i) n.
Proof.
  induction n as [|n IH]; [done|]. cbn [zcount].
  destruct (P (Z.of_nat n)), (Q (Z.of_nat n)); simpl; lia.
Qed.

(** A predicate that only holds inside a window is counted inside it. *)
Lemma zcount_window P n a (k : nat) :
  0 ≤ a → a + Z.of_nat k ≤ Z.of_nat n →
  (∀ i, 0 ≤ i < Z.of_nat n → P i = true → a ≤ i < a + Z.of_nat k) →
  zcount P n = zcount (λ i, P (a + i)) k.
Proof.
  intros Ha Hk Hw.
  replace n with (Z.to_nat a + (k + (n - Z.to_nat a - k)))%nat by lia.
  rewrite !zcount_add.
  rewrite (zcount_none P); [|intros i Hi; destruct (P i) eqn:E; [|done];
    apply Hw in E; lia].
  rewrite (zcount_none (λ i, P (_ + (_ + i)))); [|intros i Hi;
    destruct (P _) eqn:E; [|done]; apply Hw in E; lia].
  rewrite Z.add_0_r. simpl. apply zcount_ext. intros i Hi. f_equal. lia.
Qed.

(** Removing one index from a predicate removes one from its count. *)
Lemma zcount_remove P Q n q :
  0 ≤ q < Z.of_nat n → P q = true → (∀ i, 0 ≤ i < Z.of_nat n → Q i = P i && negb (i =? q)) →
  zcount Q n = zcount P n - 1.
Proof.
  intros Hq HP HQ. pose proof (zcount_diff Q P n) as Hd.
  rewrite (zcount_none (λ i, Q i && negb (P i))) in Hd.
  2: { intros i Hi. rewrite HQ by done. destruct (P i); simpl; by rewrite ?andb_false_r. }
  rewrite (zcount_window (λ i, negb (Q i) && P i) n q 1) in Hd; [| lia | lia |].
  2: { intros i Hi H. rewrite HQ in H by done. destruct (Z.eqb_spec i q); [lia|].
       destruct (P i); simpl in H; done. }
  simpl in Hd. rewrite Z.add_0_r, HP, HQ, Z.eqb_refl, andb_false_r in Hd by done. simpl in Hd. lia.
Qed.

Lemma shiftr6 x : Z.shiftr x 6 = x / 64.
Proof. by rewrite Z.shiftr_div_pow2. Qed.
Lemma land63 x : Z.land x 63 = x mod 64.
Proof. apply (land_ones_mod 6). lia. Qed.

Lemma zcount_exists P n : zcount P n ≠ 0 → ∃ i, 0 ≤ i < Z.of_nat n ∧ P i = true.
Proof.
  induction n as [|n IH]; cbn [zcount]; [done|]. intros H.
  destruct (P (Z.of_nat n)) eqn:E; [exists (Z.of_nat n); split; [lia | done]|].
  destruct IH as (i & Hi & HP); [simpl in H; lia|]. exists i. split; [lia | done].
Qed.

(** [x & (1 << b)] tests bit [b]. *)
Lemma land_shiftl1 x b : 0 ≤ b → (Z.land x (Z.shiftl 1 b) =? 0) = negb (Z.testbit x b).
Proof.
  intros Hb. rewrite Z.shiftl_mul_pow2, Z.mul_1_l by done.
  destruct (Z.testbit x b) eqn:E; simpl.
  - apply Z.eqb_neq. intros H. assert (Hc : Z.testbit (Z.land x (2 ^ b)) b = true).
    { by rewrite Z.land_spec, E, Z.pow2_bits_true. }
    by rewrite H, Z.bits_0 in Hc.
  - apply Z.eqb_eq. apply Z.bits_inj'. intros i Hi.
    rewrite Z.land_spec, pow2_testbit, Z.bits_0 by done.
    destruct (Z.eqb_spec b i) as [<-|]; [by rewrite E | by rewrite andb_false_r].
Qed.

(** ** Byte memories

    Memory the code reads through a pointer is a function from addresses to
    bytes; multi-byte fields are little endian unless a name says otherwise. *)

Definition mem := Z → Z.

Definition rd8 (m : mem) (a : Z) : Z := u8 (m a).
Definition rd16 (m : mem) (a : Z) : Z := rd8 m a + 256 * rd8 m (a + 1).
Definition rd32 (m : mem) (a : Z) : Z := rd16 m a + 65536 * rd16 m (a + 2).
Definition rd64 (m : mem) (a : Z) : Z := rd32 m a + 4294967296 * rd32 m (a + 4).

Lemma rd8_range m a : is_u8 (rd8 m a).
Proof. apply u8_range. Qed.
Lemma rd16_range m a : is_u16 (rd16 m a).
Proof.
  pose proof (rd8_range m a). pose proof (rd8_range m (a + 1)). unfold rd16. unfold_uint. lia.
Qed.
Lemma rd32_range m a : is_u32 (rd32 m a).
Proof.
  pose proof (rd16_range m a). pose proof (rd16_range m (a + 2)). unfold rd32. unfold_uint. lia.
Qed.
Lemma rd64_range m a : is_u64 (rd64 m a).
Proof.
  pose proof (rd32_range m a). pose proof (rd32_range m (a + 4)). unfold rd64. unfold_uint. lia.
Qed.
#[export] Hint Resolve rd8_range rd16_range rd32_range rd64_range : secos.

(** Page alignment tests. *)
Lemma land_page a : Z.land a 0xFFF = a mod 4096.
Proof. apply (land_ones_mod 12). lia. Qed.

Lemma page_aligned a : (Z.land a 0xFFF =? 0) = true ↔ (4096 | a).
Proof.
  rewrite land_page, Z.eqb_eq. split.
  - intros H. exists (a / 4096). rewrite (Z.div_mod a 4096) at 1 by lia. lia.
  - intros [x ->]. by rewrite Z.mod_mul.
Qed.

Lemma land_not_page a : is_u64 a → Z.land a (not64 0xFFF) = a / 4096 * 4096.
Proof. intros. by apply (land_not64_ones 12). Qed.

(** ** Loops

    [zfor n i body s] runs [body i], [body (i + 1)], ... [n] times. *)

Fixpoint zfor {S : Type} (n : nat) (i : Z) (body : Z → S → S) (s : S) : S :=
  match n with
  | O => s
  | Datatypes.S n => zfor n (i + 1) body (body i s)
  end.

Lemma zfor_inv {S : Type} (Inv : Z → S → Prop) n i (body : Z → S → S) s :
  Inv i s → (∀ j s, i ≤ j < i + Z.of_nat n → Inv j s → Inv (j + 1) (body j s)) →
  Inv (i + Z.of_nat n) (zfor n i body s).
Proof.
  revert i s. induction n as [|n IH]; intros i s Hi Hstep; cbn [zfor].
  - by replace (i + Z.of_nat 0) with i by lia.
  - replace (i + Z.of_nat (Datatypes.S n)) with (i + 1 + Z.of_nat n) by lia. apply IH.
    + apply Hstep; [lia | done].
    + intros j s' Hj. apply Hstep. lia.
Qed.

(** ** Array slices *)

Lemma aget_app_l {A} `{Inhabited A} (a b : list A) i : 0 ≤ i < zlen a → (a ++ b).[i] = a.[i].
Proof. intros. unfold aget. apply lookup_total_app_l. lia. Qed.

Lemma aget_app_r {A} `{Inhabited A} (a b : list A) i : zlen a ≤ i → (a ++ b).[i] = b.[i - zlen a].
Proof. intros. unfold aget. rewrite lookup_total_app_r by lia. f_equal. lia. Qed.

Lemma aget_take {A} `{Inhabited A} (a : list A) n i : 0 ≤ i < Z.of_nat n → (take n a).[i] = a.[i].
Proof. intros. unfold aget. apply lookup_total_take_lt. lia. Qed.

Lemma aget_drop {A} `{Inhabited A} (a : list A) n i : 0 ≤ i → (drop n a).[i] = a.[Z.of_nat n + i].
Proof. intros. unfold aget. rewrite lookup_total_drop. f_equal. lia. Qed.

(** A loop that copies [k] elements of [p] to position [n]. *)
Lemma copy_loop {A} `{Inhabited A} (buf p : list A) n k : 0 ≤ n → 0 ≤ k ≤ zlen p → n + k ≤ zlen buf →
  zfor (Z.to_nat k) 0 (λ i b, b.[n + i <- p.[i]]) buf = take (Z.to_nat n) buf ++ take (Z.to_nat k) p ++ drop (Z.to_nat (n + k)) buf.
Proof.
  intros Hn Hk Hb. set (body := λ (i : Z) (b : list A), b.[n + i <- p.[i]]).
  destruct (zfor_inv (λ i b, zlen b = zlen buf ∧ ∀ j, 0 ≤ j < zlen buf → b.[j] = if (n <=? j) && (j <? n + i) then p.[j - n] else buf.[j])
    (Z.to_nat k) 0 body buf) as [Hl Hv].
  - split; [done|]. intros j Hj. destruct (_ && _) eqn:E; [lia|done].
  - intros i b Hi [Hl Hv]. unfold body. split; [by rewrite aset_length|]. intros j Hj. rewrite aget_aset by lia. rewrite Hv by done.
    repeat case_match; try lia; try done. f_equal. lia.
  - rewrite Z.add_0_l, Z2Nat.id in Hv by lia. apply list_eq_aget.
    { rewrite !length_app, !length_take, length_drop. lia. }
    intros j Hj. rewrite Hv by lia. destruct (decide (j < n)).
    { rewrite aget_app_l, aget_take by (rewrite ?length_take; lia). destruct (_ && _) eqn:E; [lia|done]. }
    rewrite aget_app_r by (rewrite length_take; lia). rewrite length_take. destruct (decide (j < n + k)).
    { rewrite aget_app_l, aget_take by (rewrite ?length_take; lia). destruct (_ && _) eqn:E; [f_equal; lia|lia]. }
    rewrite aget_app_r by (rewrite length_take; lia). rewrite length_take, aget_drop by lia. destruct (_ && _) eqn:E; [lia|]. f_equal. lia.
Qed.

Lemma aget_fmap {A B} `{Inhabited A, Inhabited B} (g : A → B) (l : list A) i :
  0 ≤ i < zlen l → (g <$> l).[i] = g l.[i].
Proof. intros. apply lookup_aget. rewrite list_lookup_fmap, aget_lookup by done. done. Qed.

(** Two loops in step. *)
Lemma zfor_rel {S T : Type} (R : S → T → Prop) n i (f : Z → S → S) (g : Z → T → T) s t :
  R s t → (∀ j s t, i ≤ j < i + Z.of_nat n → R s t → R (f j s) (g j t)) → R (zfor n i f s) (zfor n i g t).
Proof.
  revert i s t. induction n as [|n IH]; intros i s t H0 Hs; cbn [zfor]; [done|]. apply IH; [apply Hs; [lia|done]|]. intros j s' t' Hj. apply Hs. lia.
Qed.

Lemma s32_small x : - 2147483648 ≤ x < 2147483648 → s32 x = x.
Proof.
  intros Hx. unfold s32, u32. destruct (decide (0 ≤ x)).
  - rewrite Z.mod_small by lia. case_match; lia.
  - assert (x mod 4294967296 = x + 4294967296) as -> by (symmetry; apply (Z.mod_unique _ _ (-1)); lia). case_match; lia.
Qed.

Lemma s64_small x : - 9223372036854775808 ≤ x < 9223372036854775808 → s64 x = x.
Proof.
  intros Hx. unfold s64, u64. destruct (decide (0 ≤ x)).
  - rewrite Z.mod_small by lia. case_match; lia.
  - assert (x mod 18446744073709551616 = x + 18446744073709551616) as -> by (symmetry; apply (Z.mod_unique _ _ (-1)); lia). case_match; lia.
Qed.
