(* ===== verification/PmmRange.v ===== *)
(** * Physical memory map: range tables and the early allocator

    Models the first half of [src/mm/pmm.c]: the sorted, merged range tables
    built from the firmware memory map ([range_add], [pmm_add_ram],
    [pmm_add_avail], [pmm_reserve]) and the bump allocator that hands out
    frames before the sectioned allocator exists ([early_alloc],
    [early_alloc_top]).

    A C table [(list, n)] is the list of its [n] valid entries. *)

From Stdlib Require Import Sorted.
From S2P Require Import Prelude.

Definition PMM_FRAME_SIZE : Z := 4096.
Definition PMM_MAX_RANGES : Z := 256.
Definition PMM_MAX_RESERVED : Z := 16.
Definition PMM_EARLY_LIMIT : Z := 0x20000000.

Record pmm_range := mk_range { r_start : Z; r_end : Z }.
#[export] Instance pmm_range_inhabited : Inhabited pmm_range := populate (mk_range 0 0).
#[export] Instance pmm_range_eq_dec : EqDecision pmm_range.
Proof. solve_decision. Defined.

Definition align_up (v a : Z) : Z := Z.land (u64 (v + a - 1)) (not64 (a - 1)).
Definition align_down (v a : Z) : Z := Z.land v (not64 (a - 1)).

(** ** Range tables *)

(** [while (i < *n && list[i].end < start) i++]: the entries before index [i]
    and those from [i] on. *)
Fixpoint range_skip (start : Z) (l : list pmm_range) : list pmm_range * list pmm_range :=
  match l with
  | r :: l' =>
      if r_end r <? start
      then let '(pre, rest) := range_skip start l' in (r :: pre, rest)
      else ([], l)
  | [] => ([], [])
  end.

(** The loop over [j] that absorbs the followers of the grown entry, and the
    shift that removes them. *)
Fixpoint range_absorb (r : pmm_range) (l : list pmm_range) : list pmm_range :=
  match l with
  | x :: l' =>
      if r_start x <=? r_end r
      then range_absorb
             (if r_end r <? r_end x then mk_range (r_start r) (r_end x) else r) l'
      else r :: l
  | [] => [r]
  end.

Definition range_add (l : list pmm_range) (max start end_ : Z) : list pmm_range :=
  if end_ <=? start then l
  else
    let '(pre, rest) := range_skip start l in
    match rest with
    | r :: rest' =>
        if r_start r <=? end_
        then
          let r1 := mk_range (if start <? r_start r then start else r_start r)
                             (if r_end r <? end_ then end_ else r_end r) in
          pre ++ range_absorb r1 rest'
        else if max <=? zlen l then l
        else pre ++ mk_range start end_ :: rest
    | [] => if max <=? zlen l then l else pre ++ [mk_range start end_]
    end.

(** The addresses a table describes. *)
Definition covers (l : list pmm_range) (a : Z) : Prop :=
  ∃ r, r ∈ l ∧ r_start r ≤ a < r_end r.

(** Sorted, non-empty, pairwise neither overlapping nor touching. *)
Definition range_lt (a b : pmm_range) : Prop := r_end a < r_start b.
Definition ranges_ok (l : list pmm_range) : Prop :=
  StronglySorted range_lt l ∧ Forall (λ r, r_start r < r_end r) l.

(** The insertion needs a new slot: no entry overlaps or touches the range. *)
Definition range_isolated (l : list pmm_range) (start end_ : Z) : Prop :=
  Forall (λ r, r_end r < start ∨ end_ < r_start r) l.

Lemma covers_nil a : covers [] a ↔ False.
Proof. unfold covers. set_solver. Qed.
Lemma covers_cons r l a : covers (r :: l) a ↔ r_start r ≤ a < r_end r ∨ covers l a.
Proof. unfold covers. set_solver. Qed.
Lemma covers_app l1 l2 a : covers (l1 ++ l2) a ↔ covers l1 a ∨ covers l2 a.
Proof. unfold covers. set_solver. Qed.
#[export] Hint Rewrite covers_nil covers_cons covers_app : secos_arr.

Lemma ranges_ok_cons r l :
  ranges_ok (r :: l) ↔ r_start r < r_end r ∧ Forall (range_lt r) l ∧ ranges_ok l.
Proof.
  unfold ranges_ok. split.
  - intros [Hs Hf]. inversion Hs; inversion Hf; subst. done.
  - intros (H1 & H2 & H3 & H4). split; by constructor.
Qed.

Lemma ranges_ok_app l1 l2 :
  ranges_ok l1 → ranges_ok l2 →
  (∀ a b, a ∈ l1 → b ∈ l2 → range_lt a b) → ranges_ok (l1 ++ l2).
Proof.
  intros H1 H2 H12. induction l1 as [|r l1 IH]; [done|].
  apply ranges_ok_cons in H1 as (Hr & Hf & Hok). simpl. apply ranges_ok_cons.
  split; [done|]. split.
  - apply Forall_app. split; [done|]. apply Forall_forall. intros b Hb. apply H12; set_solver.
  - apply IH; [done|]. intros. apply H12; set_solver.
Qed.

Lemma ranges_ok_app_inv l1 l2 :
  ranges_ok (l1 ++ l2) → ranges_ok l1 ∧ ranges_ok l2 ∧ (∀ a b, a ∈ l1 → b ∈ l2 → range_lt a b).
Proof.
  induction l1 as [|r l1 IH]; simpl.
  - intros. split; [repeat constructor|]. split; [done|]. set_solver.
  - intros (Hr & Hf & Hok)%ranges_ok_cons. destruct (IH Hok) as (H1 & H2 & H12).
    apply Forall_app in Hf as [Hf1 Hf2]. rewrite Forall_forall in Hf2.
    split; [by apply ranges_ok_cons|]. split; [done|].
    intros a b [->|Ha]%elem_of_cons Hb; auto.
Qed.

Lemma range_skip_spec start l pre rest :
  range_skip start l = (pre, rest) →
  l = pre ++ rest ∧ Forall (λ r, r_end r < start) pre ∧
  (∀ r, head rest = Some r → start ≤ r_end r).
Proof.
  revert pre rest. induction l as [|r l IH]; simpl; intros pre rest H.
  - simplify_eq. split; [done|]. split; [constructor | done].
  - destruct (r_end r <? start) eqn:E; zbool.
    + destruct (range_skip start l) as [p q]. simplify_eq.
      destruct (IH p rest eq_refl) as (-> & Hp & Hr).
      split; [done|]. split; [by constructor | done].
    + simplify_eq. split; [done|]. split; [constructor|]. intros ? [= <-]. lia.
Qed.

Lemma range_absorb_spec l r :
  r_start r < r_end r → ranges_ok l → Forall (λ x, r_start r < r_start x) l →
  ranges_ok (range_absorb r l) ∧
  (∀ a, covers (range_absorb r l) a ↔ covers (r :: l) a) ∧
  Forall (λ x, r_start r ≤ r_start x) (range_absorb r l).
Proof.
  revert r. induction l as [|x l IH]; intros r Hr Hok Hlt; simpl.
  - split; [repeat constructor; done|]. split; [done|]. repeat constructor. lia.
  - apply ranges_ok_cons in Hok as (Hx & Hxl & Hok).
    inversion Hlt as [|? ? Hrx Hrl]; subst.
    destruct (r_start x <=? r_end r) eqn:E; zbool.
    + set (r' := if r_end r <? r_end x then _ else _).
      assert (Hr' : r_start r' = r_start r ∧ r_end r' = Z.max (r_end r) (r_end x)).
      { unfold r'. split_if; zbool; simpl; lia. }
      destruct Hr' as [Hs He].
      destruct (IH r') as (H1 & H2 & H3); [lia | done | by rewrite Hs |].
      rewrite Hs in H3. split; [done|]. split; [|done].
      intros a. rewrite H2, !covers_cons, Hs, He.
      split; [intros [|] | intros [|[|]]]; intuition lia.
    + split.
      * apply ranges_ok_cons. split; [done|]. split.
        -- constructor; [unfold range_lt; lia|].
           eapply Forall_impl; [exact Hxl|]. unfold range_lt. intros y Hy. lia.
        -- by apply ranges_ok_cons.
      * split; [done|]. constructor; [lia|].
        constructor; [lia|]. eapply Forall_impl; [exact Hrl|]. intros y Hy. simpl in *. lia.
Qed.

Section range_add.
Context (l : list pmm_range) (max start end_ : Z).
Hypothesis Hok : ranges_ok l.

(** Growing the entry that overlaps or touches the new range. *)
Lemma range_add_merge pre r rest :
  start < end_ → l = pre ++ r :: rest → Forall (λ x, r_end x < start) pre →
  start ≤ r_end r → r_start r ≤ end_ →
  let r1 := mk_range (if start <? r_start r then start else r_start r)
                     (if r_end r <? end_ then end_ else r_end r) in
  ranges_ok (pre ++ range_absorb r1 rest) ∧
  ∀ a, covers (pre ++ range_absorb r1 rest) a ↔ covers l a ∨ start ≤ a < end_.
Proof.
  intros Hlt -> Hpre Hse Hsr r1.
  destruct (ranges_ok_app_inv _ _ Hok) as (Hp & (Hr & Hrr & Hrest)%ranges_ok_cons & Hpr).
  assert (Hs : r_start r1 = Z.min start (r_start r)) by (simpl; split_if; zbool; lia).
  assert (He : r_end r1 = Z.max end_ (r_end r)) by (simpl; split_if; zbool; lia).
  destruct (range_absorb_spec rest r1) as (H1 & H2 & H3); [lia | done | |].
  { eapply Forall_impl; [exact Hrr|]. unfold range_lt. intros x Hx. lia. }
  rewrite Forall_forall in Hpre, H3. split.
  - apply ranges_ok_app; [done..|]. intros x y Hx Hy. unfold range_lt in *.
    specialize (Hpre x Hx). specialize (H3 y Hy).
    specialize (Hpr x r Hx ltac:(set_solver)). simpl in *. lia.
  - intros a. rewrite !covers_app, H2, !covers_cons, Hs, He.
    intuition lia.
Qed.

(** Inserting a range no entry touches. *)
Lemma range_add_insert pre rest :
  start < end_ → l = pre ++ rest → Forall (λ x, r_end x < start) pre →
  Forall (λ x, end_ < r_start x) rest →
  ranges_ok (pre ++ mk_range start end_ :: rest) ∧
  ∀ a, covers (pre ++ mk_range start end_ :: rest) a ↔ covers l a ∨ start ≤ a < end_.
Proof.
  intros Hlt -> Hpre Hrest.
  destruct (ranges_ok_app_inv _ _ Hok) as (Hp & Hr & Hpr).
  rewrite Forall_forall in Hpre. split.
  - apply ranges_ok_app; [done | by apply ranges_ok_cons |].
    intros x y Hx [->|Hy]%elem_of_cons; [by apply Hpre | by apply Hpr].
  - intros a. rewrite !covers_app, covers_cons. simpl. tauto.
Qed.

Lemma range_rest_after pre r rest :
  l = pre ++ r :: rest → end_ < r_start r → Forall (λ x, end_ < r_start x) (r :: rest).
Proof.
  intros -> Hr.
  destruct (ranges_ok_app_inv _ _ Hok) as (_ & (Hr' & Hrr & _)%ranges_ok_cons & _).
  constructor; [done|]. eapply Forall_impl; [exact Hrr|]. unfold range_lt. intros x Hx. lia.
Qed.

Lemma range_add_spec :
  zlen l < max ∨ ¬ range_isolated l start end_ →
  ranges_ok (range_add l max start end_) ∧
  ∀ a, covers (range_add l max start end_) a ↔ covers l a ∨ start ≤ a < end_.
Proof.
  intros Hroom. unfold range_add. destruct (end_ <=? start) eqn:Ese; zbool.
  { split; [done|]. intros a. intuition lia. }
  destruct (range_skip start l) as [pre rest] eqn:Esk.
  apply range_skip_spec in Esk as (Hl & Hpre & Hhd).
  destruct rest as [|r rest].
  - destruct (range_add_insert pre [] Ese Hl Hpre) as [H1 H2]; [constructor|].
    destruct (max <=? zlen l) eqn:Em; zbool; [|done]. destruct Hroom as [|Hi]; [lia|].
    destruct Hi. unfold range_isolated. rewrite Hl, app_nil_r.
    eapply Forall_impl; [exact Hpre|]. simpl. auto.
  - specialize (Hhd r eq_refl). destruct (r_start r <=? end_) eqn:Er; zbool.
    + by apply range_add_merge.
    + pose proof (range_rest_after _ _ _ Hl Er) as Hrest.
      destruct (max <=? zlen l) eqn:Em; zbool; [|by apply range_add_insert].
      destruct Hroom as [|Hi]; [lia|]. destruct Hi. unfold range_isolated. rewrite Hl.
      apply Forall_app. split.
      * eapply Forall_impl; [exact Hpre|]. simpl. auto.
      * eapply Forall_impl; [exact Hrest|]. simpl. auto.
Qed.

(** [range_add] keeps the table sorted, merged and non-overlapping, and
    the table then describes exactly the old addresses plus the new range,
    whenever the table has a free slot or the range merges into an entry. *)
Theorem range_add_correct :
  zlen l < max ∨ ¬ range_isolated l start end_ →
  ranges_ok (range_add l max start end_) ∧
  ∀ a, covers (range_add l max start end_) a ↔ covers l a ∨ start ≤ a < end_.
Proof. apply range_add_spec. Qed.
End range_add.

(** The same at a table of two entries that the new range bridges. *)
Lemma range_add_correct_witness :
  range_add [mk_range 0 100; mk_range 200 300] 4 90 250 = [mk_range 0 300] ∧
  ranges_ok (range_add [mk_range 0 100; mk_range 200 300] 4 90 250) ∧
  ∀ a, covers (range_add [mk_range 0 100; mk_range 200 300] 4 90 250) a ↔
       covers [mk_range 0 100; mk_range 200 300] a ∨ 90 ≤ a < 250.
Proof.
  split; [reflexivity|]. apply range_add_correct.
  - split; repeat constructor; unfold range_lt; simpl; lia.
  - left. simpl. lia.
Defined.

(** The table never outgrows its array. *)
Lemma range_absorb_length r l : (length (range_absorb r l) ≤ S (length l))%nat.
Proof.
  revert r. induction l as [|x l IH]; intros r; simpl; [lia|].
  destruct (_ <=? _); simpl; [|lia]. etrans; [apply IH|]. lia.
Qed.

Lemma range_add_length l max start end_ :
  zlen l ≤ max → zlen (range_add l max start end_) ≤ max.
Proof.
  intros Hl. unfold range_add. destruct (_ <=? start); [done|].
  destruct (range_skip start l) as [pre rest] eqn:E.
  apply range_skip_spec in E as (-> & _ & _). rewrite length_app in Hl.
  destruct rest as [|r rest].
  - rewrite app_nil_r. destruct (max <=? zlen pre) eqn:Em; zbool.
    + simpl in Hl. lia.
    + rewrite length_app. simpl in *. lia.
  - destruct (_ <=? _).
    + rewrite length_app. pose proof (range_absorb_length
        (mk_range (if start <? r_start r then start else r_start r)
                  (if r_end r <? end_ then end_ else r_end r)) rest). simpl in *. lia.
    + rewrite length_app. simpl in Hl |- *.
      destruct (max <=? _) eqn:Em; zbool; rewrite length_app; simpl in *; lia.
Qed.

(** ** Alignment *)

Lemma align_up_spec k v : 0 ≤ k → 0 ≤ v → v + 2 ^ k ≤ 2 ^ 64 →
  v ≤ align_up v (2 ^ k) < v + 2 ^ k ∧ (2 ^ k | align_up v (2 ^ k)).
Proof.
  intros Hk Hv Hb. pose proof (Z.pow_pos_nonneg 2 k ltac:(lia) Hk) as Hp.
  unfold align_up. rewrite u64_small by (unfold_uint; lia).
  rewrite land_not64_ones by (unfold_uint; lia). split.
  - pose proof (Z.div_mod (v + 2 ^ k - 1) (2 ^ k) ltac:(lia)).
    pose proof (Z.mod_pos_bound (v + 2 ^ k - 1) (2 ^ k) ltac:(lia)). lia.
  - apply Z.divide_factor_r.
Qed.

Lemma align_down_spec k v : 0 ≤ k → is_u64 v →
  align_down v (2 ^ k) ≤ v < align_down v (2 ^ k) + 2 ^ k ∧
  (2 ^ k | align_down v (2 ^ k)) ∧ 0 ≤ align_down v (2 ^ k).
Proof.
  intros Hk Hv. pose proof (Z.pow_pos_nonneg 2 k ltac:(lia) Hk) as Hp.
  unfold align_down. rewrite land_not64_ones by done.
  pose proof (Z.div_mod v (2 ^ k) ltac:(lia)).
  pose proof (Z.mod_pos_bound v (2 ^ k) ltac:(lia)). split; [lia|].
  split; [apply Z.divide_factor_r|].
  apply Z.mul_nonneg_nonneg; [apply Z.div_pos; unfold_uint; lia | lia].
Qed.

(** No aligned address lies between [v] and [align_up v a]. *)
Lemma align_up_least k v p : 0 ≤ k → 0 ≤ v → v + 2 ^ k ≤ 2 ^ 64 →
  (2 ^ k | p) → v ≤ p → align_up v (2 ^ k) ≤ p.
Proof.
  intros Hk Hv Hb Hp Hvp. destruct (align_up_spec k v Hk Hv Hb) as [Hr Hd].
  pose proof (Z.pow_pos_nonneg 2 k ltac:(lia) Hk).
  destruct Hp as [x ->], Hd as [y Hy]. rewrite Hy in *.
  assert (y - 1 < x) by nia. nia.
Qed.

(** ** The memory map and the early allocator *)

(** The static tables of [pmm.c] that describe the memory map, with the
    early allocator's cursors. *)
Record memmap := mk_memmap {
  g_avail : list pmm_range;      (* usable RAM *)
  g_early_cur : list Z;          (* bottom-up cursor per usable range *)
  g_early_top : list Z;          (* top-down cursor per usable range *)
  g_ram : list pmm_range;        (* RAM-like memory the physmap covers *)
  g_resv : list pmm_range;       (* never handed out *)
  g_early_used : Z
}.

Definition set_avail (m : memmap) l := mk_memmap l (g_early_cur m) (g_early_top m) (g_ram m) (g_resv m) (g_early_used m).
Definition set_ram (m : memmap) l := mk_memmap (g_avail m) (g_early_cur m) (g_early_top m) l (g_resv m) (g_early_used m).
Definition set_resv (m : memmap) l := mk_memmap (g_avail m) (g_early_cur m) (g_early_top m) (g_ram m) l (g_early_used m).
Definition set_early (m : memmap) c t u := mk_memmap (g_avail m) c t (g_ram m) (g_resv m) u.

Definition pmm_add_ram (m : memmap) (addr len : Z) : memmap :=
  if len =? 0 then m
  else set_ram m (range_add (g_ram m) PMM_MAX_RANGES (align_down addr PMM_FRAME_SIZE)
                    (align_up (u64 (addr + len)) PMM_FRAME_SIZE)).

Definition pmm_add_avail (m : memmap) (addr len : Z) : memmap :=
  if len =? 0 then m
  else
    let s := align_up addr PMM_FRAME_SIZE in
    let e := align_down (u64 (addr + len)) PMM_FRAME_SIZE in
    if e <=? s then m
    else pmm_add_ram (set_avail m (range_add (g_avail m) PMM_MAX_RANGES s e)) s (e - s).

Definition pmm_reserve (m : memmap) (addr len : Z) : memmap :=
  if len =? 0 then m
  else if PMM_MAX_RESERVED <=? zlen (g_resv m) then m
  else set_resv m (g_resv m ++ [mk_range (align_down addr PMM_FRAME_SIZE)
                                         (align_up (u64 (addr + len)) PMM_FRAME_SIZE)]).

Fixpoint resv_overlap (l : list pmm_range) (s e : Z) : option pmm_range :=
  match l with
  | r :: l' => if (r_start r <? e) && (s <? r_end r) then Some r else resv_overlap l' s e
  | [] => None
  end.

(** The inner [for (;;)] of [early_alloc] on one usable range: the first
    address at or above [cur] where the block fits. *)
Fixpoint early_fit (fuel : nat) (resv : list pmm_range) (size align top limit cur : Z)
    : option Z :=
  match fuel with
  | O => None
  | S fuel =>
      let e := u64 (cur + size) in
      if (top <? e) || (limit <? e) then None
      else match resv_overlap resv cur e with
           | Some r => early_fit fuel resv size align top limit (align_up (r_end r) align)
           | None => Some cur
           end
  end.

(** One more iteration than there are reserved ranges: every iteration moves
    past one of them for good ([early_fit_spec]). *)
Definition early_fuel (m : memmap) : nat := S (length (g_resv m)).

(** The loop over the usable ranges, lowest first. *)
Fixpoint early_scan (n : nat) (i : Z) (m : memmap) (size align limit : Z) : option (Z * Z) :=
  match n with
  | O => None
  | S n =>
      match early_fit (early_fuel m) (g_resv m) size align (g_early_top m).[i] limit
              (align_up (g_early_cur m).[i] align) with
      | Some cur => Some (i, cur)
      | None => early_scan n (i + 1) m size align limit
      end
  end.

Definition early_alloc (m : memmap) (size align limit : Z) : memmap * Z :=
  match early_scan (length (g_avail m)) 0 m size align limit with
  | Some (i, cur) =>
      let e := u64 (cur + size) in
      let from0 := align_up (g_early_cur m).[i] PMM_FRAME_SIZE in
      let from := if from0 <? align_down cur PMM_FRAME_SIZE
                  then align_down cur PMM_FRAME_SIZE else from0 in
      let used := u64 (g_early_used m + u64 (align_up e PMM_FRAME_SIZE - from) / PMM_FRAME_SIZE) in
      (set_early m (g_early_cur m).[i <- e] (g_early_top m) used, cur)
  | None => (m, 0)
  end.

(** The inner [for (;;)] of [early_alloc_top] on one usable range. *)
Fixpoint early_fit_top (fuel : nat) (resv : list pmm_range) (size align cur start top : Z)
    : option Z :=
  match fuel with
  | O => None
  | S fuel =>
      if top <? size then None
      else
        let s := align_down (top - size) align in
        if (s <? cur) || (s <? start) then None
        else match resv_overlap resv s (u64 (s + size)) with
             | Some r => early_fit_top fuel resv size align cur start (r_start r)
             | None => Some s
             end
  end.

(** The loop over the usable ranges, highest first. *)
Fixpoint early_scan_top (n : nat) (m : memmap) (size align : Z) : option (Z * Z) :=
  match n with
  | O => None
  | S n =>
      let i := Z.of_nat n in
      match early_fit_top (early_fuel m) (g_resv m) size align (g_early_cur m).[i]
              (r_start (g_avail m).[i]) (g_early_top m).[i] with
      | Some s => Some (i, s)
      | None => early_scan_top n m size align
      end
  end.

Definition early_alloc_top (m : memmap) (size align : Z) : memmap * Z :=
  match early_scan_top (length (g_avail m)) m size align with
  | Some (i, s) =>
      let to0 := align_down (g_early_top m).[i] PMM_FRAME_SIZE in
      let e := align_up (u64 (s + size)) PMM_FRAME_SIZE in
      let to := if e <? to0 then e else to0 in
      let used := u64 (g_early_used m + u64 (to - align_down s PMM_FRAME_SIZE) / PMM_FRAME_SIZE) in
      (set_early m (g_early_cur m) (g_early_top m).[i <- s] used, s)
  | None => (m, 0)
  end.

(** *** Specification *)

(** No reserved range meets [[p, p + size)]. *)
Definition unreserved (resv : list pmm_range) (p e : Z) : Prop :=
  Forall (λ r, e ≤ r_start r ∨ r_end r ≤ p) resv.

(** Addresses stay far enough from [2^64] for the alignment arithmetic. *)
Definition ADDR_BOUND : Z := 2 ^ 60.
Definition resv_bounded (resv : list pmm_range) : Prop :=
  Forall (λ r, 0 ≤ r_start r ∧ r_start r < r_end r ∧ r_end r ≤ ADDR_BOUND) resv.

(** The reserved ranges that can still stand in the way of a block at [cur]. *)
Definition resv_ahead (resv : list pmm_range) (cur : Z) : nat :=
  length (filter (λ r, cur < r_end r) resv).

Lemma resv_overlap_Some l s e r :
  resv_overlap l s e = Some r → r ∈ l ∧ r_start r < e ∧ s < r_end r.
Proof.
  induction l as [|x l IH]; simpl; [done|].
  destruct (_ && _) eqn:E; zbool.
  - intros [= ->]. set_solver.
  - intros H. destruct (IH H) as [? ?]. set_solver.
Qed.

Lemma resv_overlap_None l s e : resv_overlap l s e = None → unreserved l s e.
Proof.
  induction l as [|x l IH]; simpl; [constructor|].
  destruct (_ && _) eqn:E; [done|]. intros H. constructor; [|by apply IH].
  zbool. destruct E; zbool; lia.
Qed.

Lemma resv_ahead_le l a b : a ≤ b → (resv_ahead l b ≤ resv_ahead l a)%nat.
Proof.
  intros Hab. unfold resv_ahead. induction l as [|r l IH]; [done|].
  rewrite !filter_cons. repeat case_decide; simpl; lia.
Qed.

Lemma resv_ahead_drop l a b r :
  r ∈ l → a < r_end r → r_end r ≤ b → (resv_ahead l b < resv_ahead l a)%nat.
Proof.
  intros Hr Ha Hb. induction l as [|x l IH]; [set_solver|].
  assert (Hle := resv_ahead_le l a b ltac:(lia)).
  unfold resv_ahead in *. rewrite !filter_cons.
  apply elem_of_cons in Hr as [->|Hr].
  - rewrite decide_False by lia. rewrite decide_True by lia. simpl. lia.
  - specialize (IH Hr). repeat case_decide; simpl; lia.
Qed.

Lemma resv_ahead_fuel m cur : (resv_ahead (g_resv m) cur < early_fuel m)%nat.
Proof. unfold resv_ahead, early_fuel. pose proof (length_filter (λ r, cur < r_end r) (g_resv m)). lia. Qed.

Section early_fit.
Context (resv : list pmm_range) (size k top limit : Z).
Hypothesis Hresv : resv_bounded resv.
Hypothesis Hsize : 0 < size ≤ ADDR_BOUND.
Hypothesis Hk : 0 ≤ k ≤ 60.

(** A place where the block may go. *)
Definition block_ok (p : Z) : Prop :=
  (2 ^ k | p) ∧ p + size ≤ top ∧ p + size ≤ limit ∧ unreserved resv p (p + size).

Lemma pow2_k_bound : 0 < 2 ^ k ≤ ADDR_BOUND.
Proof.
  split; [apply Z.pow_pos_nonneg; lia|]. unfold ADDR_BOUND. apply Z.pow_le_mono_r; lia.
Qed.

(** A block that starts above a reserved range it would otherwise meet
    starts at or above the aligned end of that range. *)
Lemma block_skip cur r q :
  r ∈ resv → r_start r < cur + size → cur < r_end r → cur ≤ q → block_ok q →
  align_up (r_end r) (2 ^ k) ≤ q.
Proof.
  intros Hr H1 H2 Hq (Hd & _ & _ & Hu). unfold unreserved in Hu.
  rewrite Forall_forall in Hu. specialize (Hu r Hr).
  unfold resv_bounded in Hresv. rewrite Forall_forall in Hresv. specialize (Hresv r Hr).
  pose proof pow2_k_bound. unfold ADDR_BOUND in *. apply align_up_least; (done || lia).
Qed.

Lemma early_fit_spec fuel cur :
  (resv_ahead resv cur < fuel)%nat → 0 ≤ cur ≤ 2 * ADDR_BOUND → (2 ^ k | cur) →
  match early_fit fuel resv size (2 ^ k) top limit cur with
  | Some p => cur ≤ p ∧ block_ok p ∧ ∀ q, cur ≤ q → block_ok q → p ≤ q
  | None => ∀ q, cur ≤ q → ¬ block_ok q
  end.
Proof.
  revert cur. induction fuel as [|fuel IH]; intros cur Hf Hc Hd; [lia|]. simpl.
  rewrite u64_small by (unfold_uint; unfold ADDR_BOUND in *; lia).
  destruct (_ || _) eqn:E; zbool.
  { intros q Hq (_ & ? & ? & _). destruct E; zbool; lia. }
  destruct (resv_overlap resv cur (cur + size)) as [r|] eqn:Er.
  - apply resv_overlap_Some in Er as (Hr & Hr1 & Hr2).
    pose proof Hresv as Hb. unfold resv_bounded in Hb. rewrite Forall_forall in Hb.
    specialize (Hb r Hr). pose proof pow2_k_bound.
    destruct (align_up_spec k (r_end r)) as [Hal Hdv]; [lia..|unfold ADDR_BOUND in *; lia|].
    specialize (IH (align_up (r_end r) (2 ^ k))).
    assert (Hdrop := resv_ahead_drop resv cur _ r Hr Hr2 (proj1 Hal)).
    specialize (IH ltac:(lia) ltac:(unfold ADDR_BOUND in *; lia) Hdv).
    destruct (early_fit _ _ _ _ _ _ _) as [p|].
    + destruct IH as (Hp & Hok & Hmin). split; [lia|]. split; [done|].
      intros q Hq Hq'. apply Hmin; [|done]. by eapply block_skip.
    + intros q Hq Hq'. apply (IH q); [|done]. by eapply block_skip.
  - apply resv_overlap_None in Er. split; [lia|]. split; [done|]. intros; lia.
Qed.

(** The early allocator's placement loop terminates and is first fit:
    with one iteration more than there are reserved ranges ahead, it yields
    the lowest aligned address at or above [cur] where the block lies below
    the limits and clear of every reserved range, and [None] only when no
    such address exists. *)
Theorem early_fit_first_fit fuel cur :
  (resv_ahead resv cur < fuel)%nat → 0 ≤ cur ≤ 2 * ADDR_BOUND → (2 ^ k | cur) →
  match early_fit fuel resv size (2 ^ k) top limit cur with
  | Some p => cur ≤ p ∧ block_ok p ∧ ∀ q, cur ≤ q → block_ok q → p ≤ q
  | None => ∀ q, cur ≤ q → ¬ block_ok q
  end.
Proof. apply early_fit_spec. Qed.

(** The top-down loop only yields addresses where the block fits. *)
Lemma early_fit_top_sound fuel cur start t s :
  0 ≤ cur → t ≤ ADDR_BOUND → t ≤ top → top ≤ limit →
  early_fit_top fuel resv size (2 ^ k) cur start t = Some s →
  cur ≤ s ∧ start ≤ s ∧ s + size ≤ t ∧ block_ok s.
Proof.
  revert t. induction fuel as [|fuel IH]; intros t Hc Ht Htop Hlim; [done|]. simpl.
  destruct (t <? size) eqn:Ets; [done|]. zbool.
  destruct (align_down_spec k (t - size)) as (Ha & Hd & H0);
    [lia | unfold_uint; unfold ADDR_BOUND in *; lia |].
  destruct (_ || _) eqn:E; [done|]. zbool.
  rewrite u64_small by (unfold_uint; unfold ADDR_BOUND in *; lia).
  destruct (resv_overlap _ _ _) as [r|] eqn:Er.
  - intros Hs. apply resv_overlap_Some in Er as (Hr & Hr1 & Hr2).
    pose proof Hresv as Hb. unfold resv_bounded in Hb. rewrite Forall_forall in Hb.
    specialize (Hb r Hr).
    destruct (IH (r_start r)) as (?&?&?&?); [lia..|done|]. split_and!; try done; lia.
  - intros [= <-]. apply resv_overlap_None in Er.
    split_and!; try lia. split_and!; [done|lia|lia|done].
Qed.
End early_fit.

(** The same at a map with one reserved range: the block lands just above it. *)
Lemma early_fit_first_fit_witness :
  early_fit 2 [mk_range 0x100000 0x200000] 4096 (2 ^ 12) 0x8000000 0x20000000 0x100000
    = Some 0x200000 ∧
  match early_fit 2 [mk_range 0x100000 0x200000] 4096 (2 ^ 12) 0x8000000 0x20000000 0x100000 with
  | Some p => 0x100000 ≤ p ∧
      block_ok [mk_range 0x100000 0x200000] 4096 12 0x8000000 0x20000000 p ∧
      ∀ q, 0x100000 ≤ q →
        block_ok [mk_range 0x100000 0x200000] 4096 12 0x8000000 0x20000000 q → p ≤ q
  | None => ∀ q, 0x100000 ≤ q →
      ¬ block_ok [mk_range 0x100000 0x200000] 4096 12 0x8000000 0x20000000 q
  end.
Proof.
  split; [vm_compute; reflexivity|].
  apply early_fit_first_fit.
  - unfold resv_bounded, ADDR_BOUND. repeat constructor; simpl; lia.
  - unfold ADDR_BOUND. lia.
  - lia.
  - vm_compute. lia.
  - unfold ADDR_BOUND. lia.
  - exists 256. lia.
Defined.

(** *** Soundness of the early allocator *)

(** The address is between the two cursors of a usable range. *)
Definition early_window (m : memmap) (a : Z) : Prop :=
  ∃ i, 0 ≤ i < zlen (g_avail m) ∧ (g_early_cur m).[i] ≤ a < (g_early_top m).[i].

(** The address can still be handed out. *)
Definition early_free (m : memmap) (a : Z) : Prop :=
  early_window m a ∧ ¬ covers (g_resv m) a.

Record early_ok (m : memmap) : Prop := {
  eo_avail : ranges_ok (g_avail m);
  eo_resv : resv_bounded (g_resv m);
  eo_cur_len : length (g_early_cur m) = length (g_avail m);
  eo_top_len : length (g_early_top m) = length (g_avail m);
  eo_range : ∀ i, 0 ≤ i < zlen (g_avail m) →
    0 ≤ r_start (g_avail m).[i] ≤ (g_early_cur m).[i] ∧
    (g_early_cur m).[i] ≤ (g_early_top m).[i] ≤ r_end (g_avail m).[i] ∧
    r_end (g_avail m).[i] ≤ ADDR_BOUND
}.

Lemma ranges_ok_aget l i j :
  ranges_ok l → 0 ≤ i → i < j < zlen l → r_end l.[i] < r_start l.[j].
Proof.
  revert i j. induction l as [|r l IH]; intros i j Hok Hi Hj; simpl in Hj; [lia|].
  apply ranges_ok_cons in Hok as (_ & Hf & Hok). unfold aget.
  replace (Z.to_nat j) with (S (Z.to_nat (j - 1))) by lia. simpl.
  destruct (decide (i = 0)) as [->|].
  - simpl. rewrite Forall_forall in Hf. apply Hf.
    apply list_elem_of_lookup_total_2. lia.
  - replace (Z.to_nat i) with (S (Z.to_nat (i - 1))) by lia. simpl.
    apply (IH (i - 1) (j - 1)); [done|lia|lia].
Qed.

(** The usable range an early window belongs to is unique. *)
Lemma early_window_inj m a i j :
  early_ok m → 0 ≤ i < zlen (g_avail m) → 0 ≤ j < zlen (g_avail m) →
  (g_early_cur m).[i] ≤ a < (g_early_top m).[i] →
  r_start (g_avail m).[j] ≤ a < r_end (g_avail m).[j] → i = j.
Proof.
  intros Hm Hi Hj Ha Hb. pose proof (eo_range m Hm i Hi) as Hri.
  destruct (Z.lt_trichotomy i j) as [Hij|[|Hij]]; [|done|].
  - pose proof (ranges_ok_aget _ i j (eo_avail m Hm) ltac:(lia) ltac:(lia)). lia.
  - pose proof (ranges_ok_aget _ j i (eo_avail m Hm) ltac:(lia) ltac:(lia)). lia.
Qed.

(** Moving a cursor inwards: the windows shrink, the invariant stays. *)
Lemma early_shrink m i c t u :
  early_ok m → 0 ≤ i < zlen (g_avail m) →
  (g_early_cur m).[i] ≤ c → c ≤ t → t ≤ (g_early_top m).[i] →
  let m' := set_early m (g_early_cur m).[i <- c] (g_early_top m).[i <- t] u in
  early_ok m' ∧ (∀ a, early_free m' a → early_free m a) ∧
  (∀ a, (g_early_cur m).[i] ≤ a < (g_early_top m).[i] → ¬ (c ≤ a < t) → ¬ early_free m' a).
Proof.
  intros Hm Hi Hc Hct Ht m'. destruct Hm as [H1 H2 H3 H4 H5].
  assert (Hcur : ∀ j, 0 ≤ j → (g_early_cur m').[j] = if i =? j then c else (g_early_cur m).[j]).
  { intros. apply aget_aset; lia. }
  assert (Htop : ∀ j, 0 ≤ j → (g_early_top m').[j] = if i =? j then t else (g_early_top m).[j]).
  { intros. apply aget_aset; lia. }
  split_and!.
  - constructor; try done.
    + simpl. by rewrite aset_length.
    + simpl. by rewrite aset_length.
    + intros j Hj. simpl in Hj. rewrite Hcur, Htop by lia. specialize (H5 j Hj). simpl.
      destruct (Z.eqb_spec i j); subst; lia.
  - intros a [(j & Hj & Ha) Hr]. split; [|done]. exists j. split; [done|].
    rewrite Hcur, Htop in Ha by lia. destruct (Z.eqb_spec i j); subst; lia.
  - intros a Ha Hn [(j & Hj & Hw) _]. simpl in Hj.
    pose proof Hw as Hw'. rewrite Hcur, Htop in Hw' by lia.
    destruct (Z.eqb_spec i j) as [->|Hij]; [lia|].
    apply Hij. eapply (early_window_inj m a); try done.
    specialize (H5 j Hj). lia.
Qed.

Lemma early_scan_spec n i m size align limit j cur :
  early_scan n i m size align limit = Some (j, cur) →
  i ≤ j < i + Z.of_nat n ∧
  early_fit (early_fuel m) (g_resv m) size align (g_early_top m).[j] limit
    (align_up (g_early_cur m).[j] align) = Some cur.
Proof.
  revert i. induction n as [|n IH]; intros i; cbn [early_scan]; [done|].
  destruct (early_fit _ _ _ _ (g_early_top m).[i] _ _) eqn:E.
  - intros H. simplify_eq. split; [lia | done].
  - intros H. apply IH in H as [H1 H2]. split; [lia | done].
Qed.

Lemma early_scan_top_spec n m size align j s :
  early_scan_top n m size align = Some (j, s) →
  0 ≤ j < Z.of_nat n ∧
  early_fit_top (early_fuel m) (g_resv m) size align (g_early_cur m).[j]
    (r_start (g_avail m).[j]) (g_early_top m).[j] = Some s.
Proof.
  induction n as [|n IH]; cbn [early_scan_top]; [done|].
  destruct (early_fit_top _ _ _ _ (g_early_cur m).[Z.of_nat n] _ _) eqn:E.
  - intros H. simplify_eq. split; [lia | done].
  - intros H. apply IH in H as [H1 H2]. split; [lia | done].
Qed.

Lemma unreserved_covers resv p e a : unreserved resv p e → p ≤ a < e → ¬ covers resv a.
Proof.
  intros Hu Ha (r & Hr & Hra). unfold unreserved in Hu. rewrite Forall_forall in Hu.
  specialize (Hu r Hr). lia.
Qed.

(** What a successful early allocation of [[p, p + size)] guarantees. *)
Definition early_taken (m m' : memmap) (p size align limit : Z) : Prop :=
  early_ok m' ∧ (align | p) ∧ p + size ≤ limit ∧
  (∀ a, p ≤ a < p + size → early_free m a ∧ ¬ early_free m' a) ∧
  (∀ a, early_free m' a → early_free m a).

(** A block handed out by the early allocator is aligned, ends at or
    below the limit, consists of usable addresses that were neither reserved
    nor handed out before, and is never handed out again; the allocator's
    invariant is preserved. *)
Theorem early_alloc_sound m size k limit m' p :
  early_ok m → 0 < size ≤ ADDR_BOUND → 0 ≤ k ≤ 60 →
  early_alloc m size (2 ^ k) limit = (m', p) → p ≠ 0 →
  early_taken m m' p size (2 ^ k) limit.
Proof.
  intros Hm Hs Hk. unfold early_alloc.
  destruct (early_scan _ _ _ _ _ _) as [[i cur]|] eqn:E; [|intros [= <- <-]; done].
  intros [= <- <-] _. apply early_scan_spec in E as [Hi Hfit].
  pose proof (eo_range m Hm i ltac:(lia)) as Hri.
  pose proof (pow2_k_bound k Hk) as Hpk.
  destruct (align_up_spec k (g_early_cur m).[i]) as [Ha Hd];
    [lia | lia | unfold ADDR_BOUND in *; lia |].
  set (c0 := align_up (g_early_cur m).[i] (2 ^ k)) in *.
  assert (Hc0 : 0 ≤ c0 ≤ 2 * ADDR_BOUND) by lia.
  pose proof (early_fit_spec (g_resv m) size k (g_early_top m).[i] limit (eo_resv m Hm)
    Hs Hk (early_fuel m) c0 (resv_ahead_fuel m _) Hc0 Hd) as Hf.
  rewrite Hfit in Hf. destruct Hf as (Hge & (Hdv & Ht & Hl & Hu) & _).
  rewrite (u64_small (cur + size)) by (unfold_uint; unfold ADDR_BOUND in *; lia).
  rewrite <- (aset_same (g_early_top m) i) by (rewrite (eo_top_len m Hm); lia).
  match goal with |- early_taken _ (set_early _ _ _ ?u) _ _ _ _ =>
    destruct (early_shrink m i (cur + size) (g_early_top m).[i] u Hm)
      as (Hok & Hsub & Hout); [lia..|] end.
  split_and!; try done. intros a Hin. split.
  - split; [exists i; lia | by eapply unreserved_covers].
  - apply Hout; lia.
Qed.

(** One usable range of 16 MiB, the kernel image reserved at its bottom. *)
Definition early_demo : memmap :=
  mk_memmap [mk_range 0x100000 0x1000000] [0x100000] [0x1000000]
            [mk_range 0x100000 0x1000000] [mk_range 0 0x400000] 0.

Lemma early_demo_ok : early_ok early_demo.
Proof.
  constructor; try done.
  - split; repeat constructor; simpl; lia.
  - unfold resv_bounded, ADDR_BOUND. repeat constructor; simpl; lia.
  - intros i Hi. simpl in Hi. assert (i = 0) as -> by lia. vm_compute. intuition congruence.
Qed.

(** On that map: the first frame is the one above the reserved range. *)
Lemma early_alloc_sound_witness :
  ∃ m', early_alloc early_demo 4096 (2 ^ 12) PMM_EARLY_LIMIT = (m', 0x400000) ∧
        early_taken early_demo m' 0x400000 4096 (2 ^ 12) PMM_EARLY_LIMIT.
Proof.
  eexists. split; [vm_compute; reflexivity|].
  apply early_alloc_sound; [apply early_demo_ok | vm_compute; split; congruence | lia
    | vm_compute; reflexivity | lia].
Defined.

(** The top-down allocator: the block, or nothing, is taken from the map. *)
Lemma early_alloc_top_cases m size k m' p :
  early_ok m → 0 < size ≤ ADDR_BOUND → 0 ≤ k ≤ 60 →
  early_alloc_top m size (2 ^ k) = (m', p) →
  (m' = m ∧ p = 0) ∨ early_taken m m' p size (2 ^ k) ADDR_BOUND.
Proof.
  intros Hm Hs Hk. unfold early_alloc_top.
  destruct (early_scan_top _ _ _ _) as [[i s]|] eqn:E; [|intros [= <- <-]; by left].
  intros [= <- <-]. right. apply early_scan_top_spec in E as [Hi Hfit].
  pose proof (eo_range m Hm i ltac:(lia)) as Hri.
  apply (early_fit_top_sound (g_resv m) size k (g_early_top m).[i] ADDR_BOUND (eo_resv m Hm) Hs Hk)
    in Hfit as (H1 & H2 & H3 & Hdv & _ & Hl & Hu); [|lia..].
  rewrite <- (aset_same (g_early_cur m) i) by (rewrite (eo_cur_len m Hm); lia).
  match goal with |- early_taken _ (set_early _ _ _ ?u) _ _ _ _ =>
    destruct (early_shrink m i (g_early_cur m).[i] s u Hm) as (Hok & Hsub & Hout); [lia..|] end.
  split_and!; try done. intros a Hin. split.
  - split; [exists i; lia | by eapply unreserved_covers].
  - apply Hout; lia.
Qed.

Lemma early_alloc_top_step_ok m size k m' p :
  early_ok m → 0 < size ≤ ADDR_BOUND → 0 ≤ k ≤ 60 →
  early_alloc_top m size (2 ^ k) = (m', p) →
  early_ok m' ∧ (∀ a, early_free m' a → early_free m a) ∧
  (p ≠ 0 → early_taken m m' p size (2 ^ k) ADDR_BOUND).
Proof.
  intros Hm Hs Hk E. destruct (early_alloc_top_cases m size k m' p Hm Hs Hk E) as [[-> ->]|Ht]; [done|].
  pose proof Ht as (H1 & _ & _ & _ & H2). done.
Qed.
