(* ===== verification/PmmSection.v ===== *)
(** * Physical memory: one section of the frame bitmap

    Models the section bitmap of [src/mm/pmm.c]: a 1 GiB section holds one
    bit per 4 KiB frame ([bitmap]), a second-level bitmap of the full words
    ([summary]), a free count and a scan hint; [popcount64],
    [sec_summary_update], [sec_mark] and [sec_find]. *)

From S2P Require Import Prelude.

Definition PMM_SECTION_SHIFT : Z := 18.
Definition PMM_SECTION_FRAMES : Z := 262144.
Definition PMM_SECTION_WORDS : Z := 4096.
Definition PMM_SUMMARY_WORDS : Z := 64.
Definition PMM_REF_CHUNK_FRAMES : Z := 4096.
Definition PMM_REF_CHUNKS : Z := 64.
Definition PMM_SECTION_BYTES : Z := 1073741824.

Record pmm_section := mk_section {
  sec_free : Z;
  sec_hint : Z;
  sec_refs : list Z;         (* physical address of each refcount chunk, 0 = none *)
  sec_refs_used : list Z;
  sec_summary : list Z;
  sec_bitmap : list Z
}.
#[export] Instance pmm_section_inhabited : Inhabited pmm_section :=
  populate (mk_section 0 0 [] [] [] []).

Definition set_free (s : pmm_section) x := mk_section x (sec_hint s) (sec_refs s) (sec_refs_used s) (sec_summary s) (sec_bitmap s).
Definition set_hint (s : pmm_section) x := mk_section (sec_free s) x (sec_refs s) (sec_refs_used s) (sec_summary s) (sec_bitmap s).
Definition set_refs (s : pmm_section) x y := mk_section (sec_free s) (sec_hint s) x y (sec_summary s) (sec_bitmap s).
Definition set_maps (s : pmm_section) sm bm := mk_section (sec_free s) (sec_hint s) (sec_refs s) (sec_refs_used s) sm bm.

(** ** Population count *)

Definition popcount64 (x : Z) : Z :=
  let x := u64 (x - Z.land (Z.shiftr x 1) 0x5555555555555555) in
  let x := u64 (Z.land x 0x3333333333333333 + Z.land (Z.shiftr x 2) 0x3333333333333333) in
  let x := Z.land (u64 (x + Z.shiftr x 4)) 0x0F0F0F0F0F0F0F0F in
  Z.shiftr (u64 (x * 0x0101010101010101)) 56.

(** The three folding steps on [n] bytes, and the byte-wise population count. *)
Fixpoint rep_byte (b : Z) (n : nat) : Z :=
  match n with O => 0 | S n => b + 256 * rep_byte b n end.

Definition fold1 (n : nat) (x : Z) : Z := x - Z.land (x / 2) (rep_byte 0x55 n).
Definition fold2 (n : nat) (x : Z) : Z :=
  Z.land x (rep_byte 0x33 n) + Z.land (x / 4) (rep_byte 0x33 n).
Definition fold3 (n : nat) (x : Z) : Z := Z.land (x + x / 16) (rep_byte 0x0F n).

Fixpoint byte_counts (n : nat) (x : Z) : Z :=
  match n with
  | O => 0
  | S n => zcount (Z.testbit x) 8 + 256 * byte_counts n (x / 256)
  end.

(** What a byte contributes to each step. *)
Definition byte_ok (d : Z) : bool :=
  let d1 := fold1 1 d in
  let d2 := fold2 1 d1 in
  (0 <=? d1) && (d1 <? 256) && (d2 mod 16 <=? 4) && (0 <=? d2) && (d2 / 16 <=? 4) &&
  (fold3 1 d2 =? zcount (Z.testbit d) 8) &&
  (Z.land (d / 2 + 128) 0x55 =? Z.land (d / 2) 0x55) &&
  (Z.land (d / 4 + 64) 0x33 =? Z.land (d / 4) 0x33) &&
  (Z.land (d / 4 + 128) 0x33 =? Z.land (d / 4) 0x33) &&
  (Z.land (d / 4 + 192) 0x33 =? Z.land (d / 4) 0x33) &&
  forallb (λ r, Z.land (d2 + d2 / 16 + 16 * r) 0x0F =? fold3 1 d2) [0; 1; 2; 3; 4].

Lemma byte_ok_all d : 0 ≤ d < 256 → byte_ok d = true.
Proof. apply (forall_below 256). vm_compute. reflexivity. Qed.

Lemma rep_byte_S b n : rep_byte b (S n) = b + 2 ^ 8 * rep_byte b n.
Proof. reflexivity. Qed.

Lemma fold1_step n d y : 0 ≤ d < 256 → fold1 (S n) (d + 256 * y) = fold1 1 d + 256 * fold1 n y.
Proof.
  intros Hd. pose proof (byte_ok_all d Hd) as Hb. unfold byte_ok in Hb. zbool.
  unfold fold1. rewrite !rep_byte_S.
  replace ((d + 256 * y) / 2) with (d / 2 + 128 * (y mod 2) + 2 ^ 8 * (y / 2))
    by (Z.to_euclidean_division_equations; lia).
  rewrite land_concat by (Z.to_euclidean_division_equations; lia).
  change (rep_byte 85 0) with 0. rewrite Z.mul_0_r, Z.add_0_r.
  assert (y mod 2 = 0 ∨ y mod 2 = 1) as [-> | ->] by (Z.to_euclidean_division_equations; lia).
  - rewrite Z.mul_0_r, Z.add_0_r. lia.
  - change (128 * 1) with 128. lia.
Qed.

Lemma fold2_step n d y : 0 ≤ d < 256 → fold2 (S n) (d + 256 * y) = fold2 1 d + 256 * fold2 n y.
Proof.
  intros Hd. pose proof (byte_ok_all d Hd) as Hb. unfold byte_ok in Hb. zbool.
  unfold fold2. rewrite !rep_byte_S. change 256 with (2 ^ 8) at 1.
  rewrite land_concat by lia.
  replace ((d + 256 * y) / 4) with (d / 4 + 64 * (y mod 4) + 2 ^ 8 * (y / 4))
    by (Z.to_euclidean_division_equations; lia).
  rewrite land_concat by (Z.to_euclidean_division_equations; lia).
  change (rep_byte 51 0) with 0. rewrite Z.mul_0_r, Z.add_0_r.
  assert (y mod 4 = 0 ∨ y mod 4 = 1 ∨ y mod 4 = 2 ∨ y mod 4 = 3) as [-> |[-> |[-> | ->]]]
    by (Z.to_euclidean_division_equations; lia).
  - rewrite Z.mul_0_r, Z.add_0_r. lia.
  - change (64 * 1) with 64. lia.
  - change (64 * 2) with 128. lia.
  - change (64 * 3) with 192. lia.
Qed.

Lemma fold3_step n d y : 0 ≤ d < 256 → 0 ≤ y mod 16 ≤ 4 →
  fold3 (S n) (fold2 1 (fold1 1 d) + 256 * y) = zcount (Z.testbit d) 8 + 256 * fold3 n y.
Proof.
  intros Hd Hy. pose proof (byte_ok_all d Hd) as Hb. unfold byte_ok in Hb. zbool.
  set (d2 := fold2 1 (fold1 1 d)) in *.
  unfold fold3 at 1. rewrite rep_byte_S.
  replace (d2 + 256 * y + (d2 + 256 * y) / 16)
    with (d2 + d2 / 16 + 16 * (y mod 16) + 2 ^ 8 * (y + y / 16))
    by (Z.to_euclidean_division_equations; lia).
  rewrite land_concat by (Z.to_euclidean_division_equations; lia).
  assert (Hr : Z.land (d2 + d2 / 16 + 16 * (y mod 16)) 15 = fold3 1 d2).
  { match goal with H : forallb _ _ = true |- _ => rewrite forallb_forall in H;
      specialize (H (y mod 16)) end.
    apply Z.eqb_eq. match goal with H : In _ _ → _ |- _ => apply H end.
    assert (y mod 16 = 0 ∨ y mod 16 = 1 ∨ y mod 16 = 2 ∨ y mod 16 = 3 ∨ y mod 16 = 4)
      as [-> |[-> |[-> |[-> | ->]]]] by lia; simpl; tauto. }
  rewrite Hr. fold (fold3 n y). lia.
Qed.

Lemma fold2_nibble n x : 0 ≤ x < 256 ^ Z.of_nat n → 0 ≤ fold2 n (fold1 n x) mod 16 ≤ 4.
Proof.
  intros Hx. split; [apply Z.mod_pos_bound; lia|]. destruct n as [|n].
  - unfold fold2, fold1. simpl. rewrite !Z.land_0_r. done.
  - assert (Hd : 0 ≤ x mod 256 < 256) by (apply Z.mod_pos_bound; lia).
    pose proof (byte_ok_all _ Hd) as Hb. unfold byte_ok in Hb. zbool.
    rewrite (Z.div_mod x 256), (Z.add_comm (256 * _)) by lia.
    rewrite fold1_step, fold2_step by lia.
    rewrite <- Zplus_mod_idemp_r, (Z.mul_comm 256), <- Zmult_mod_idemp_r.
    change (256 mod 16) with 0. rewrite Z.mul_0_r. simpl. by rewrite Z.add_0_r.
Qed.

Lemma fold_byte_counts n x : 0 ≤ x < 256 ^ Z.of_nat n →
  fold3 n (fold2 n (fold1 n x)) = byte_counts n x.
Proof.
  revert x. induction n as [|n IH]; intros x Hx.
  - unfold fold3. simpl. by rewrite Z.land_0_r.
  - assert (Hd : 0 ≤ x mod 256 < 256) by (apply Z.mod_pos_bound; lia).
    assert (Hy : 0 ≤ x / 256 < 256 ^ Z.of_nat n).
    { rewrite Nat2Z.inj_succ, Z.pow_succ_r in Hx by lia.
      split; [apply Z.div_pos; lia | apply Z.div_lt_upper_bound; lia]. }
    pose proof (byte_ok_all _ Hd) as Hb. unfold byte_ok in Hb. zbool.
    rewrite (Z.div_mod x 256) at 1 by lia. rewrite (Z.add_comm (256 * _)).
    rewrite fold1_step, fold2_step, fold3_step by (try apply fold2_nibble; lia).
    rewrite IH by done. cbn [byte_counts]. f_equal.
    apply zcount_ext. intros i Hi. rewrite <- (Z.mod_pow2_bits_low x 8) by lia. done.
Qed.

Lemma zcount_testbit_split x n :
  0 ≤ x → zcount (Z.testbit x) (8 + n) = zcount (Z.testbit x) 8 + zcount (Z.testbit (x / 256)) n.
Proof.
  intros Hx. rewrite zcount_add. f_equal. apply zcount_ext. intros i Hi.
  change 256 with (2 ^ 8). rewrite Z.div_pow2_bits by lia. f_equal. lia.
Qed.

Lemma byte_count_range x : 0 ≤ zcount (Z.testbit x) 8 ≤ 8.
Proof. apply (zcount_bound _ 8). Qed.

(** Multiplying by [0x0101...] puts the sum of the bytes in the top byte. *)
Lemma byte_sum_mul c0 c1 c2 c3 c4 c5 c6 c7 :
  0 ≤ c0 ≤ 8 → 0 ≤ c1 ≤ 8 → 0 ≤ c2 ≤ 8 → 0 ≤ c3 ≤ 8 →
  0 ≤ c4 ≤ 8 → 0 ≤ c5 ≤ 8 → 0 ≤ c6 ≤ 8 → 0 ≤ c7 ≤ 8 →
  let x := c0 + 256 * (c1 + 256 * (c2 + 256 * (c3 + 256 * (c4 + 256 * (c5 + 256 *
           (c6 + 256 * (c7 + 256 * 0))))))) in
  Z.shiftr (u64 (x * 0x0101010101010101)) 56 = c0 + c1 + c2 + c3 + c4 + c5 + c6 + c7.
Proof.
  intros. rewrite Z.shiftr_div_pow2 by lia.
  assert (Hm : u64 (x * 0x0101010101010101) =
    (c0 + c1 + c2 + c3 + c4 + c5 + c6 + c7) * 2 ^ 56 + (c0 + c1 + c2 + c3 + c4 + c5 + c6) * 2 ^ 48
    + (c0 + c1 + c2 + c3 + c4 + c5) * 2 ^ 40 + (c0 + c1 + c2 + c3 + c4) * 2 ^ 32
    + (c0 + c1 + c2 + c3) * 2 ^ 24 + (c0 + c1 + c2) * 2 ^ 16 + (c0 + c1) * 2 ^ 8 + c0).
  { symmetry. unfold u64. apply (Z.mod_unique _ _
      (c7 * 2 ^ 48 + (c6 + c7) * 2 ^ 40 + (c5 + c6 + c7) * 2 ^ 32 + (c4 + c5 + c6 + c7) * 2 ^ 24
       + (c3 + c4 + c5 + c6 + c7) * 2 ^ 16 + (c2 + c3 + c4 + c5 + c6 + c7) * 2 ^ 8
       + (c1 + c2 + c3 + c4 + c5 + c6 + c7))); [left; lia|]. unfold x. lia. }
  rewrite Hm. symmetry. apply (Z.div_unique _ _ _
    ((c0 + c1 + c2 + c3 + c4 + c5 + c6) * 2 ^ 48
    + (c0 + c1 + c2 + c3 + c4 + c5) * 2 ^ 40 + (c0 + c1 + c2 + c3 + c4) * 2 ^ 32
    + (c0 + c1 + c2 + c3) * 2 ^ 24 + (c0 + c1 + c2) * 2 ^ 16 + (c0 + c1) * 2 ^ 8 + c0));
    [left; lia | lia].
Qed.

Lemma popcount64_count x : is_u64 x → popcount64 x = zcount (Z.testbit x) 64.
Proof.
  intros Hx. unfold popcount64.
  rewrite !(Z.shiftr_div_pow2 _ 1), !(Z.shiftr_div_pow2 _ 2), !(Z.shiftr_div_pow2 _ 4) by lia.
  change 0x5555555555555555 with (rep_byte 0x55 8). change 0x3333333333333333 with (rep_byte 0x33 8).
  change 0x0F0F0F0F0F0F0F0F with (rep_byte 0x0F 8).
  change (x - Z.land (x / 2 ^ 1) (rep_byte 0x55 8)) with (fold1 8 x).
  assert (H1 : 0 ≤ fold1 8 x ≤ x).
  { unfold fold1. destruct Hx. assert (0 ≤ x / 2 ≤ x) by (Z.to_euclidean_division_equations; lia).
    pose proof (land_le_r (rep_byte 0x55 8) (x / 2)) as Hl. rewrite Z.land_comm in Hl.
    specialize (Hl ltac:(vm_compute; congruence) ltac:(lia)). lia. }
  rewrite (u64_small (fold1 8 x)) by (unfold_uint; lia).
  change (Z.land (fold1 8 x) (rep_byte 0x33 8) + Z.land (fold1 8 x / 2 ^ 2) (rep_byte 0x33 8))
    with (fold2 8 (fold1 8 x)).
  assert (H2 : 0 ≤ fold2 8 (fold1 8 x) ≤ 2 * 0x3333333333333333).
  { unfold fold2. change (rep_byte 0x33 8) with 0x3333333333333333.
    pose proof (land_le_r (fold1 8 x) 0x3333333333333333).
    pose proof (land_le_r (fold1 8 x / 4) 0x3333333333333333).
    assert (0 ≤ fold1 8 x / 4) by (apply Z.div_pos; lia). lia. }
  rewrite (u64_small (fold2 8 _)) by (unfold_uint; lia).
  rewrite (u64_small (_ + _ / 2 ^ 4)) by (unfold_uint; Z.to_euclidean_division_equations; lia).
  change (Z.land (fold2 8 (fold1 8 x) + fold2 8 (fold1 8 x) / 2 ^ 4) (rep_byte 0x0F 8))
    with (fold3 8 (fold2 8 (fold1 8 x))).
  rewrite fold_byte_counts by apply Hx. cbn [byte_counts].
  rewrite byte_sum_mul by apply byte_count_range.
  change 64%nat with (8 + (8 + (8 + (8 + (8 + (8 + (8 + (8 + 0))))))))%nat.
  rewrite !zcount_testbit_split by (repeat (apply Z.div_pos; [|lia]); apply Hx).
  cbn [zcount]. lia.
Qed.

(** The branch-free [popcount64] of the allocator (no libgcc, no POPCNT)
    returns the number of set bits of every 64-bit word. *)
Theorem popcount64_correct x : is_u64 x → popcount64 x = zcount (Z.testbit x) 64.
Proof. apply popcount64_count. Qed.

Lemma popcount64_correct_witness :
  popcount64 0xF00000000000FFFF = 20 ∧ popcount64 0xF00000000000FFFF = zcount (Z.testbit 0xF00000000000FFFF) 64.
Proof. split; [vm_compute; reflexivity|]. apply popcount64_correct. vm_compute. split; congruence. Defined.

(** ** Marking frames *)

Definition sec_summary_update (s : pmm_section) (w : Z) : pmm_section :=
  let bit := Z.shiftl 1 (Z.land w 63) in
  let sw := (sec_summary s).[Z.shiftr w 6] in
  if (sec_bitmap s).[w] =? ALL_ONES
  then set_maps s (sec_summary s).[Z.shiftr w 6 <- Z.lor sw bit] (sec_bitmap s)
  else set_maps s (sec_summary s).[Z.shiftr w 6 <- Z.land sw (not64 bit)] (sec_bitmap s).

(** The body of the loop of [sec_mark] at [lo]: the section with the word
    updated, the number of bits that changed, and the next [lo]. *)
Definition sec_mark_word (s : pmm_section) (lo hi : Z) (set : bool) : pmm_section * Z * Z :=
  let w := Z.shiftr lo 6 in
  let b := Z.land lo 63 in
  let n := if hi - lo <? 64 - b then hi - lo else 64 - b in
  let mask := if n =? 64 then ALL_ONES else u64 (Z.shiftl (Z.shiftl 1 n - 1) b) in
  let old := (sec_bitmap s).[w] in
  let nw := if set then Z.lor old mask else Z.land old (not64 mask) in
  let s' := sec_summary_update (set_maps s (sec_summary s) (sec_bitmap s).[w <- nw]) w in
  (s', popcount64 (Z.lxor old nw), lo + n).

Fixpoint sec_mark_loop (fuel : nat) (s : pmm_section) (lo hi : Z) (set : bool) (changed : Z)
    : pmm_section * Z :=
  match fuel with
  | O => (s, changed)
  | S fuel =>
      if lo <? hi then
        let '(s', c, lo') := sec_mark_word s lo hi set in
        sec_mark_loop fuel s' lo' hi set (u64 (changed + c))
      else (s, changed)
  end.

(** Every iteration advances [lo], so [hi - lo] of them are enough. *)
Definition sec_mark (s : pmm_section) (lo hi : Z) (set : bool) : pmm_section * Z :=
  let '(s', changed) := sec_mark_loop (Z.to_nat (hi - lo)) s lo hi set 0 in
  if set then (set_free s' (u32 (sec_free s' - u32 changed)), changed)
  else (set_free s' (u32 (sec_free s' + u32 changed)), changed).

(** *** Invariant *)

(** [PMM_SECTION_FRAMES] as a [nat], sealed so that no tactic unfolds it. *)
Lemma SECTION_N_sig : { n : nat | Z.of_nat n = PMM_SECTION_FRAMES }.
Proof. exists (Z.to_nat PMM_SECTION_FRAMES). unfold PMM_SECTION_FRAMES. lia. Qed.
Definition SECTION_N : nat := proj1_sig SECTION_N_sig.

Definition frame_used (s : pmm_section) (f : Z) : bool :=
  Z.testbit (sec_bitmap s).[Z.shiftr f 6] (Z.land f 63).

(** Array sizes, word widths, and the summary marks exactly the full words. *)
Record sec_wf (s : pmm_section) : Prop := {
  wf_bitmap_len : zlen (sec_bitmap s) = PMM_SECTION_WORDS;
  wf_summary_len : zlen (sec_summary s) = PMM_SUMMARY_WORDS;
  wf_bitmap : ∀ w, 0 ≤ w < PMM_SECTION_WORDS → is_u64 (sec_bitmap s).[w];
  wf_summary : ∀ w, 0 ≤ w < PMM_SUMMARY_WORDS → is_u64 (sec_summary s).[w];
  wf_full : ∀ w, 0 ≤ w < PMM_SECTION_WORDS →
    Z.testbit (sec_summary s).[Z.shiftr w 6] (Z.land w 63) = ((sec_bitmap s).[w] =? ALL_ONES);
  wf_hint : 0 ≤ sec_hint s;
  wf_refs_len : zlen (sec_refs s) = PMM_REF_CHUNKS;
  wf_refs_used_len : zlen (sec_refs_used s) = PMM_REF_CHUNKS
}.

Definition free_count (s : pmm_section) : Z := zcount (λ f, negb (frame_used s f)) SECTION_N.

Definition sec_inv (s : pmm_section) : Prop := sec_wf s ∧ sec_free s = free_count s.

(** The frames of [[lo, hi)] that are not yet in state [set]. *)
Definition to_change (s : pmm_section) (lo hi : Z) (set : bool) (f : Z) : bool :=
  (lo <=? f) && (f <? hi) && xorb (frame_used s f) set.

Lemma SECTION_N_Z : Z.of_nat SECTION_N = 262144.
Proof. apply (proj2_sig SECTION_N_sig). Qed.

Lemma free_count_range s : 0 ≤ free_count s ≤ 262144.
Proof. rewrite <- SECTION_N_Z. unfold free_count. apply zcount_bound. Qed.

Lemma bit_range w : 0 ≤ Z.land w 63 < 64.
Proof. rewrite land63. apply Z.mod_pos_bound. lia. Qed.

Lemma word_range f : 0 ≤ f < 262144 → 0 ≤ Z.shiftr f 6 < 4096.
Proof. intros. rewrite shiftr6. Z.to_euclidean_division_equations; lia. Qed.

Lemma shiftl_1 n : 0 ≤ n → Z.shiftl 1 n = 2 ^ n.
Proof. intros. rewrite Z.shiftl_mul_pow2 by done. lia. Qed.

(** Recomputing one summary bit restores the summary invariant at that word
    and touches no other. *)
Lemma sec_summary_update_wf s w :
  0 ≤ w < PMM_SECTION_WORDS →
  zlen (sec_summary s) = PMM_SUMMARY_WORDS →
  (∀ v, 0 ≤ v < PMM_SUMMARY_WORDS → is_u64 (sec_summary s).[v]) →
  let s' := sec_summary_update s w in
  zlen (sec_summary s') = PMM_SUMMARY_WORDS ∧
  (∀ v, 0 ≤ v < PMM_SUMMARY_WORDS → is_u64 (sec_summary s').[v]) ∧
  (∀ v, 0 ≤ v < PMM_SECTION_WORDS →
     Z.testbit (sec_summary s').[Z.shiftr v 6] (Z.land v 63) =
     if v =? w then (sec_bitmap s).[w] =? ALL_ONES
     else Z.testbit (sec_summary s).[Z.shiftr v 6] (Z.land v 63)).
Proof.
  intros Hw Hlen Hu s'. unfold PMM_SECTION_WORDS, PMM_SUMMARY_WORDS in *.
  pose proof (bit_range w) as Hb.
  assert (Hwi : 0 ≤ Z.shiftr w 6 < 64) by (rewrite shiftr6; Z.to_euclidean_division_equations; lia).
  set (full := (sec_bitmap s).[w] =? ALL_ONES).
  set (sw := (sec_summary s).[Z.shiftr w 6]).
  set (nw := if full then Z.lor sw (Z.shiftl 1 (Z.land w 63))
             else Z.land sw (not64 (Z.shiftl 1 (Z.land w 63)))).
  assert (Hs' : sec_summary s' = (sec_summary s).[Z.shiftr w 6 <- nw]).
  { unfold s', sec_summary_update, nw, full, sw. by destruct (_ =? _). }
  assert (Hsw : is_u64 sw) by (apply Hu; lia).
  assert (Hbit : is_u64 (Z.shiftl 1 (Z.land w 63))).
  { rewrite shiftl_1 by lia. split; [apply Z.pow_nonneg; lia|].
    apply (Z.pow_lt_mono_r 2 _ 64); lia. }
  rewrite Hs'. split_and!.
  - by rewrite aset_length.
  - intros v Hv. rewrite aget_aset by lia. destruct (Z.eqb_spec (Z.shiftr w 6) v); [|by apply Hu].
    unfold nw. destruct full; auto with secos.
  - intros v Hv.
    assert (Hvi : 0 ≤ Z.shiftr v 6) by (rewrite shiftr6; apply Z.div_pos; lia).
    rewrite aget_aset by lia. pose proof (bit_range v) as Hbv.
    destruct (Z.eqb_spec v w) as [->|Hne].
    + rewrite Z.eqb_refl. unfold nw. rewrite shiftl_1 by lia. destruct full.
      * rewrite Z.lor_spec, pow2_testbit, Z.eqb_refl, orb_true_r by lia. done.
      * rewrite Z.land_spec, not64_testbit, pow2_testbit, Z.eqb_refl, !andb_false_r by lia. done.
    + destruct (Z.eqb_spec (Z.shiftr w 6) (Z.shiftr v 6)) as [He|]; [|done].
      assert (Hbne : Z.land w 63 ≠ Z.land v 63).
      { rewrite !shiftr6 in He. rewrite !land63. intros Hm. apply Hne.
        rewrite (Z.div_mod v 64), (Z.div_mod w 64) by lia. congruence. }
      rewrite <- He. fold sw. unfold nw. rewrite shiftl_1 by lia. destruct full.
      * rewrite Z.lor_spec, pow2_testbit by lia.
        destruct (Z.eqb_spec (Z.land w 63) (Z.land v 63)); [done|]. by rewrite orb_false_r.
      * rewrite Z.land_spec, not64_testbit, pow2_testbit by lia.
        destruct (Z.eqb_spec (Z.land w 63) (Z.land v 63)); [done|].
        destruct (Z.ltb_spec (Z.land v 63) 64); [|lia]. by rewrite andb_true_r.
Qed.

Lemma mark_mask_spec b n :
  0 ≤ b → 0 < n → b + n ≤ 64 →
  let mask := if n =? 64 then ALL_ONES else u64 (Z.shiftl (Z.shiftl 1 n - 1) b) in
  is_u64 mask ∧ ∀ i, 0 ≤ i < 64 → Z.testbit mask i = (b <=? i) && (i <? b + n).
Proof.
  intros Hb Hn Hbn mask. unfold mask. destruct (Z.eqb_spec n 64) as [->|].
  - replace b with 0 by lia. split; [unfold_uint; unfold ALL_ONES; lia|].
    intros i Hi. rewrite ALL_ONES_testbit by lia.
    destruct (Z.leb_spec 0 i), (Z.ltb_spec i 64), (Z.ltb_spec i (0 + 64)); simpl; lia || done.
  - split; [apply u64_range|]. intros i Hi.
    rewrite u64_testbit, Z.shiftl_spec by lia. rewrite shiftl_1 by lia.
    replace (2 ^ n - 1) with (Z.ones n) by (rewrite Z.ones_equiv; lia).
    rewrite Z.testbit_ones by lia.
    destruct (Z.ltb_spec i 64), (Z.leb_spec 0 (i - b)), (Z.ltb_spec (i - b) n),
      (Z.leb_spec b i), (Z.ltb_spec i (b + n)); simpl; lia || done.
Qed.

Lemma frame_used_word s w i :
  0 ≤ w → 0 ≤ i < 64 → frame_used s (64 * w + i) = Z.testbit (sec_bitmap s).[w] i.
Proof.
  intros Hw Hi. unfold frame_used. rewrite shiftr6, land63.
  f_equal; [f_equal|]; Z.to_euclidean_division_equations; lia.
Qed.

Lemma frame_split f : 0 ≤ f < 262144 → ∃ w i, f = 64 * w + i ∧ 0 ≤ w < 4096 ∧ 0 ≤ i < 64.
Proof.
  intros. exists (f / 64), (f mod 64). Z.to_euclidean_division_equations; lia.
Qed.

(** The fields [sec_mark] leaves alone. *)
Definition same_meta (s s' : pmm_section) : Prop :=
  sec_hint s' = sec_hint s ∧ sec_refs s' = sec_refs s ∧ sec_refs_used s' = sec_refs_used s.

Lemma sec_summary_update_meta s w :
  let s' := sec_summary_update s w in
  same_meta s s' ∧ sec_free s' = sec_free s ∧ sec_bitmap s' = sec_bitmap s.
Proof. unfold sec_summary_update. by destruct (_ =? _). Qed.

(** Replacing one bitmap word and refreshing its summary bit. *)
Lemma sec_set_word_wf s w nw :
  sec_wf s → 0 ≤ w < PMM_SECTION_WORDS → is_u64 nw →
  let s' := sec_summary_update (set_maps s (sec_summary s) (sec_bitmap s).[w <- nw]) w in
  sec_wf s' ∧ same_meta s s' ∧ sec_free s' = sec_free s ∧
  (∀ v, 0 ≤ v < PMM_SECTION_WORDS →
     (sec_bitmap s').[v] = if w =? v then nw else (sec_bitmap s).[v]).
Proof.
  intros [H1 H2 H3 H4 H5 H6 H7 H8] Hw Hnw.
  set (s0 := set_maps s (sec_summary s) _). intros s'.
  destruct (sec_summary_update_meta s0 w) as ((Hh & Hr & Hu) & Hf & Hb).
  destruct (sec_summary_update_wf s0 w Hw H2 H4) as (Hl & Hsu & Hsum).
  fold s' in Hh, Hr, Hu, Hf, Hb, Hl, Hsu, Hsum.
  assert (Hbm : ∀ v, 0 ≤ v < PMM_SECTION_WORDS →
     (sec_bitmap s').[v] = if w =? v then nw else (sec_bitmap s).[v]).
  { intros v Hv. rewrite Hb. simpl. apply aget_aset; lia. }
  split; [|done]. constructor; try done.
  - rewrite Hb. simpl. by rewrite aset_length.
  - intros v Hv. rewrite Hbm by done. destruct (w =? v); [done | by apply H3].
  - intros v Hv. rewrite Hsum, Hbm by done. simpl.
    destruct (Z.eqb_spec v w) as [->|].
    + rewrite Z.eqb_refl, aget_aset_eq by lia. done.
    + destruct (Z.eqb_spec w v); [congruence|]. by apply H5.
  - rewrite Hh. done.
  - rewrite Hr. done.
  - rewrite Hu. done.
Qed.

Lemma sec_mark_word_spec s lo hi set s' c lo' :
  sec_wf s → 0 ≤ lo < hi → hi ≤ 262144 → sec_mark_word s lo hi set = (s', c, lo') →
  sec_wf s' ∧ same_meta s s' ∧ sec_free s' = sec_free s ∧ lo < lo' ≤ hi ∧
  (∀ f, 0 ≤ f < 262144 →
     frame_used s' f = if (lo <=? f) && (f <? lo') then set else frame_used s f) ∧
  c = zcount (to_change s lo lo' set) SECTION_N.
Proof.
  intros Hs Hlo Hhi Hw. unfold sec_mark_word in Hw.
  set (w := Z.shiftr lo 6) in Hw. set (b := Z.land lo 63) in Hw.
  set (n := if hi - lo <? 64 - b then hi - lo else 64 - b) in Hw.
  assert (Hb : 0 ≤ b < 64) by apply bit_range.
  assert (Hwr : 0 ≤ w < PMM_SECTION_WORDS) by (apply word_range; lia).
  assert (Hlw : lo = 64 * w + b).
  { unfold w, b. rewrite shiftr6, land63. apply Z.div_mod. lia. }
  assert (Hn : 0 < n ∧ b + n ≤ 64 ∧ lo + n ≤ hi) by (unfold n; split_if; zbool; lia).
  destruct (mark_mask_spec b n ltac:(lia) ltac:(lia) ltac:(lia)) as [Hmu Hmb].
  set (mask := if n =? 64 then ALL_ONES else _) in *.
  set (old := (sec_bitmap s).[w]) in Hw.
  assert (Hold : is_u64 old) by (by apply wf_bitmap).
  set (nw := if set then Z.lor old mask else Z.land old (not64 mask)) in Hw.
  assert (Hnw : is_u64 nw) by (unfold nw; destruct set; auto with secos).
  assert (Hbits : ∀ i, 0 ≤ i < 64 → Z.testbit nw i =
    if (b <=? i) && (i <? b + n) then set else Z.testbit old i).
  { intros i Hi. unfold nw. destruct set.
    - rewrite Z.lor_spec, Hmb by lia. by destruct ((b <=? i) && (i <? b + n)), (Z.testbit old i).
    - rewrite Z.land_spec, not64_testbit, Hmb by lia.
      destruct (Z.ltb_spec i 64); [|lia]. by destruct ((b <=? i) && (i <? b + n)), (Z.testbit old i). }
  destruct (sec_set_word_wf s w nw Hs Hwr Hnw) as (Hwf & Hmeta & Hfree & Hbm).
  injection Hw as <- <- <-. split_and!; try done; try lia.
  - intros f Hf. destruct (frame_split f Hf) as (v & i & -> & Hv & Hi).
    rewrite !frame_used_word by lia. rewrite Hbm by done.
    destruct (Z.eqb_spec w v) as [<-|Hne].
    + rewrite Hbits by done. fold old. rewrite Hlw.
      destruct (Z.leb_spec b i), (Z.ltb_spec i (b + n)), (Z.leb_spec (64 * w + b) (64 * w + i)),
        (Z.ltb_spec (64 * w + i) (64 * w + b + n)); simpl; lia || done.
    + destruct (Z.leb_spec lo (64 * v + i)), (Z.ltb_spec (64 * v + i) (lo + n)); simpl; lia || done.
  - rewrite popcount64_count by auto with secos.
    rewrite (zcount_window (to_change s lo (lo + n) set) _ (64 * w) 64); [|lia|rewrite SECTION_N_Z; lia|].
    2: { intros f Hf. unfold to_change. intros Ht. zbool. change (Z.of_nat 64) with 64. lia. }
    apply zcount_ext. intros i Hi. unfold to_change.
    rewrite frame_used_word by lia. fold old. rewrite Z.lxor_spec, Hbits by lia.
    rewrite Hlw. destruct (Z.leb_spec b i), (Z.ltb_spec i (b + n)),
      (Z.leb_spec (64 * w + b) (64 * w + i)), (Z.ltb_spec (64 * w + i) (64 * w + b + n));
      simpl; try lia; by destruct (Z.testbit old i), set.
Qed.

Lemma to_change_split s lo m hi set :
  lo ≤ m ≤ hi →
  zcount (to_change s lo m set) SECTION_N + zcount (to_change s m hi set) SECTION_N =
  zcount (to_change s lo hi set) SECTION_N.
Proof.
  intros Hm. rewrite zcount_or.
  rewrite (zcount_none (λ f, to_change s lo m set f && to_change s m hi set f)).
  - rewrite Z.add_0_r. apply zcount_ext. intros f Hf. unfold to_change.
    destruct (Z.leb_spec lo f), (Z.leb_spec m f), (Z.ltb_spec f m), (Z.ltb_spec f hi);
      simpl; try lia; by rewrite ?orb_false_r, ?orb_false_l.
  - intros f Hf. unfold to_change.
    destruct (Z.leb_spec m f), (Z.ltb_spec f m); simpl; try lia;
      by rewrite ?andb_false_r, ?andb_false_l.
Qed.

Lemma same_meta_trans s1 s2 s3 : same_meta s1 s2 → same_meta s2 s3 → same_meta s1 s3.
Proof. intros (?&?&?) (?&?&?). split_and!; congruence. Qed.

Lemma sec_mark_loop_spec fuel s lo hi set ch s' c :
  sec_wf s → 0 ≤ lo ≤ hi → hi ≤ 262144 → hi - lo ≤ Z.of_nat fuel →
  0 ≤ ch ≤ lo → sec_mark_loop fuel s lo hi set ch = (s', c) →
  sec_wf s' ∧ same_meta s s' ∧ sec_free s' = sec_free s ∧
  (∀ f, 0 ≤ f < 262144 →
     frame_used s' f = if (lo <=? f) && (f <? hi) then set else frame_used s f) ∧
  c = ch + zcount (to_change s lo hi set) SECTION_N.
Proof.
  revert s lo ch. induction fuel as [|fuel IH]; intros s lo ch Hs Hlo Hhi Hf Hch; cbn [sec_mark_loop].
  { intros [= <- <-]. assert (lo = hi) as <- by lia. split_and!; try done.
    - intros f _. destruct (Z.leb_spec lo f), (Z.ltb_spec f lo); simpl; lia || done.
    - rewrite zcount_none; [lia|]. intros f _. unfold to_change.
      destruct (Z.leb_spec lo f), (Z.ltb_spec f lo); simpl; lia || done. }
  destruct (lo <? hi) eqn:E; zbool.
  2: { intros [= <- <-]. assert (lo = hi) as <- by lia. split_and!; try done.
    - intros f _. destruct (Z.leb_spec lo f), (Z.ltb_spec f lo); simpl; lia || done.
    - rewrite zcount_none; [lia|]. intros f _. unfold to_change.
      destruct (Z.leb_spec lo f), (Z.ltb_spec f lo); simpl; lia || done. }
  destruct (sec_mark_word s lo hi set) as [[s1 c1] lo1] eqn:Ew.
  apply sec_mark_word_spec in Ew as (Hwf & Hmeta & Hfr & Hlo1 & Hbits & Hc1); [|done|lia|lia].
  assert (Hcb : 0 ≤ c1 ≤ lo1 - lo).
  { rewrite Hc1, (zcount_window _ _ lo (Z.to_nat (lo1 - lo)));
      [| lia | rewrite SECTION_N_Z; lia | intros f _; unfold to_change; intros; zbool; lia].
    pose proof (zcount_bound (λ i, to_change s lo lo1 set (lo + i)) (Z.to_nat (lo1 - lo))). lia. }
  rewrite u64_small by (unfold_uint; lia). intros Hl.
  apply IH in Hl as (Hwf' & Hmeta' & Hfr' & Hbits' & Hc'); [|done|lia..].
  split_and!; [done | by eapply same_meta_trans | congruence | |].
  - intros f Hff. rewrite Hbits', Hbits by done.
    destruct (Z.leb_spec lo1 f), (Z.ltb_spec f hi), (Z.leb_spec lo f), (Z.ltb_spec f lo1);
      simpl; lia || done.
  - assert (Heq : zcount (to_change s1 lo1 hi set) SECTION_N =
                  zcount (to_change s lo1 hi set) SECTION_N).
    { apply zcount_ext. intros f Hff. rewrite SECTION_N_Z in Hff. unfold to_change.
      rewrite Hbits by done. destruct (Z.leb_spec lo1 f), (Z.ltb_spec f lo1);
        simpl; try lia; by rewrite ?andb_false_r. }
    rewrite Hc', Hc1, Heq. rewrite <- (to_change_split s lo lo1 hi) by lia. lia.
Qed.

Lemma free_count_mark s s' lo hi set :
  (∀ f, 0 ≤ f < 262144 →
     frame_used s' f = if (lo <=? f) && (f <? hi) then set else frame_used s f) →
  free_count s' = free_count s + (if set then -1 else 1) * zcount (to_change s lo hi set) SECTION_N.
Proof.
  intros Hb.
  pose proof (zcount_diff (λ f, negb (frame_used s f)) (λ f, negb (frame_used s' f)) SECTION_N) as Hd.
  cbn beta in Hd. fold (free_count s) (free_count s') in Hd.
  assert (H1 : zcount (λ f, negb (negb (frame_used s f)) && negb (frame_used s' f)) SECTION_N =
    if set then 0 else zcount (to_change s lo hi set) SECTION_N).
  { destruct set.
    - apply zcount_none. intros f Hf. rewrite SECTION_N_Z in Hf. rewrite Hb by done.
      by destruct ((lo <=? f) && (f <? hi)), (frame_used s f).
    - apply zcount_ext. intros f Hf. rewrite SECTION_N_Z in Hf. rewrite Hb by done.
      unfold to_change. by destruct ((lo <=? f) && (f <? hi)), (frame_used s f). }
  assert (H2 : zcount (λ f, negb (frame_used s f) && negb (negb (frame_used s' f))) SECTION_N =
    if set then zcount (to_change s lo hi set) SECTION_N else 0).
  { destruct set.
    - apply zcount_ext. intros f Hf. rewrite SECTION_N_Z in Hf. rewrite Hb by done.
      unfold to_change. by destruct ((lo <=? f) && (f <? hi)), (frame_used s f).
    - apply zcount_none. intros f Hf. rewrite SECTION_N_Z in Hf. rewrite Hb by done.
      by destruct ((lo <=? f) && (f <? hi)), (frame_used s f). }
  rewrite H1, H2 in Hd. destruct set; lia.
Qed.

Lemma sec_mark_spec s lo hi set s' c :
  sec_inv s → 0 ≤ lo ≤ hi → hi ≤ PMM_SECTION_FRAMES → sec_mark s lo hi set = (s', c) →
  sec_inv s' ∧ same_meta s s' ∧
  (∀ f, 0 ≤ f < PMM_SECTION_FRAMES →
     frame_used s' f = if (lo <=? f) && (f <? hi) then set else frame_used s f) ∧
  c = zcount (to_change s lo hi set) SECTION_N.
Proof.
  unfold PMM_SECTION_FRAMES. intros [Hwf Hfree] Hlo Hhi. unfold sec_mark.
  destruct (sec_mark_loop _ _ _ _ _ _) as [s1 c1] eqn:E.
  apply sec_mark_loop_spec in E as (Hwf1 & Hm1 & Hf1 & Hb1 & Hc1); [|done|lia..].
  pose proof (free_count_mark s s1 lo hi set Hb1) as Hcount.
  pose proof (free_count_range s1). pose proof (free_count_range s).
  pose proof (zcount_bound (to_change s lo hi set) SECTION_N) as Hz. rewrite SECTION_N_Z in Hz.
  assert (Hwf' : ∀ x, sec_wf (set_free s1 x)) by (intros x; destruct Hwf1; by constructor).
  rewrite (u32_small c1) by (unfold_uint; lia).
  destruct set; intros [= <- <-]; (split_and!; [split; [apply Hwf'|] | done | done | lia]);
    simpl; change (free_count (set_free s1 _)) with (free_count s1);
    rewrite u32_small by (unfold_uint; lia); lia.
Qed.

(** The free count moves by the number of frames that changed. *)
Lemma sec_mark_free s lo hi set s' c :
  sec_inv s → 0 ≤ lo ≤ hi → hi ≤ PMM_SECTION_FRAMES → sec_mark s lo hi set = (s', c) →
  sec_free s' = if set then sec_free s - c else sec_free s + c.
Proof.
  intros Hs Hlo Hhi E. destruct (sec_mark_spec _ _ _ _ _ _ Hs Hlo Hhi E) as ([_ Hf'] & _ & Hb & ->).
  destruct Hs as [_ Hf]. rewrite Hf, Hf', (free_count_mark s s' lo hi set Hb).
  destruct set; lia.
Qed.

(** All of the range changes when all of it is in the other state. *)
Lemma to_change_all s lo hi set :
  0 ≤ lo ≤ hi → hi ≤ PMM_SECTION_FRAMES →
  (∀ f, lo ≤ f < hi → frame_used s f = negb set) →
  zcount (to_change s lo hi set) SECTION_N = hi - lo.
Proof.
  unfold PMM_SECTION_FRAMES. intros Hlo Hhi Hall. pose proof SECTION_N_Z.
  rewrite (zcount_window _ SECTION_N lo (Z.to_nat (hi - lo))) by
    (rewrite ?SECTION_N_Z; try lia; unfold to_change; intros i Hi Ht; zbool; lia).
  rewrite zcount_all; [lia|]. intros i Hi. unfold to_change. rewrite Hall by lia.
  destruct set; simpl; rewrite andb_true_r; apply andb_true_iff; split; lia.
Qed.

(** [sec_mark] puts exactly the frames of [[lo, hi)] into the requested
    state, reports how many of them changed, and keeps the section invariant:
    the summary bitmap marks exactly the full words and the free count is the
    number of clear bits. *)
Theorem sec_mark_correct s lo hi set s' c :
  sec_inv s → 0 ≤ lo ≤ hi → hi ≤ PMM_SECTION_FRAMES → sec_mark s lo hi set = (s', c) →
  sec_inv s' ∧ same_meta s s' ∧
  (∀ f, 0 ≤ f < PMM_SECTION_FRAMES →
     frame_used s' f = if (lo <=? f) && (f <? hi) then set else frame_used s f) ∧
  c = zcount (to_change s lo hi set) SECTION_N.
Proof. apply sec_mark_spec. Qed.

(** ** Finding a free frame *)

(** [__builtin_ctzll]: index of the lowest set bit (of a non-zero word). *)
Fixpoint ctz_from (fuel : nat) (x i : Z) : Z :=
  match fuel with
  | O => i
  | S fuel => if Z.testbit x i then i else ctz_from fuel x (i + 1)
  end.
Definition ctzll (x : Z) : Z := ctz_from 64 x 0.

(** The [while] loop of one pass of [sec_find]: the word and the frame found.
    Every iteration that continues moves [w] to the next group of 64 words. *)
Fixpoint sec_scan (fuel : nat) (s : pmm_section) (max w w_end : Z) : option (Z * Z) :=
  match fuel with
  | O => None
  | S fuel =>
      if w <? w_end then
        let sw := Z.lor (sec_summary s).[Z.shiftr w 6] (Z.shiftl 1 (Z.land w 63) - 1) in
        if sw =? ALL_ONES then sec_scan fuel s max (Z.lor w 63 + 1) w_end
        else
          let w' := Z.land w (not64 63) + ctzll (not64 sw) in
          if w_end <=? w' then None
          else
            let f := Z.shiftl w' 6 + ctzll (not64 (sec_bitmap s).[w']) in
            if f <? max then Some (w', f) else None
      else None
  end.

Definition sec_find (s : pmm_section) (max : Z) : pmm_section * option Z :=
  if sec_free s =? 0 then (s, None)
  else
    let max_w := Z.shiftr (max + 63) 6 in
    let start := if sec_hint s <? max_w then sec_hint s else 0 in
    match sec_scan (Z.to_nat (max_w - start)) s max start max_w with
    | Some (w, f) => (set_hint s (u32 w), Some f)
    | None =>
        match sec_scan (Z.to_nat start) s max 0 start with
        | Some (w, f) => (set_hint s (u32 w), Some f)
        | None => (s, None)
        end
    end.

Lemma ctz_from_spec fuel x i :
  0 ≤ i → (∃ j, i ≤ j < i + Z.of_nat fuel ∧ Z.testbit x j = true) →
  i ≤ ctz_from fuel x i < i + Z.of_nat fuel ∧ Z.testbit x (ctz_from fuel x i) = true ∧
  ∀ j, i ≤ j < ctz_from fuel x i → Z.testbit x j = false.
Proof.
  revert i. induction fuel as [|fuel IH]; intros i Hi (j & Hj & Hb); [lia|].
  cbn [ctz_from]. destruct (Z.testbit x i) eqn:E.
  - split_and!; [lia | lia | done | intros; lia].
  - assert (j ≠ i) by congruence.
    destruct (IH (i + 1)) as (H1 & H2 & H3); [lia | exists j; split; [lia | done] |].
    split_and!; [lia | lia | done |]. intros k Hk.
    destruct (decide (k = i)) as [->|]; [done|]. apply H3. lia.
Qed.

(** A word that is not all ones has a first clear bit, which [ctzll (~x)] finds. *)
Lemma ctzll_not x : is_u64 x → x ≠ ALL_ONES →
  0 ≤ ctzll (not64 x) < 64 ∧ Z.testbit x (ctzll (not64 x)) = false ∧
  ∀ j, 0 ≤ j < ctzll (not64 x) → Z.testbit x j = true.
Proof.
  intros Hx Hne.
  destruct (ctz_from_spec 64 (not64 x) 0) as (H1 & H2 & H3); [lia| |].
  - apply (zcount_exists (Z.testbit (not64 x)) 64). intros Hz. apply Hne.
    apply u64_ext; [done | unfold_uint; unfold ALL_ONES; lia |].
    intros i Hi. pose proof (zcount_zero _ _ Hz i Hi) as Hn.
    rewrite not64_testbit in Hn by lia. rewrite ALL_ONES_testbit by lia.
    destruct (Z.ltb_spec i 64); [|lia]. by apply negb_false_iff in Hn.
  - fold (ctzll (not64 x)) in *. change (0 + Z.of_nat 64) with 64 in H1.
    rewrite not64_testbit in H2 by lia. split; [done|]. split.
    + by apply andb_true_iff in H2 as [_ H2%negb_true_iff].
    + intros j Hj. specialize (H3 j Hj). rewrite not64_testbit in H3 by lia.
      destruct (Z.ltb_spec j 64); [|lia]. by apply negb_false_iff in H3.
Qed.

Lemma word_full_used s w i :
  sec_wf s → 0 ≤ w < 4096 → 0 ≤ i < 64 → (sec_bitmap s).[w] = ALL_ONES →
  frame_used s (64 * w + i) = true.
Proof.
  intros Hs Hw Hi Hf. rewrite frame_used_word, Hf, ALL_ONES_testbit by lia.
  destruct (Z.ltb_spec i 64); [done | lia].
Qed.

Section scan.
Context (s : pmm_section) (max : Z).
Hypothesis Hs : sec_wf s.

(** The summary word with the bits below [w] set: bit [i] says that the
    [i]-th word of the group is full or lies before [w]. *)
Lemma summary_word_spec w :
  0 ≤ w < 4096 →
  let sw := Z.lor (sec_summary s).[Z.shiftr w 6] (Z.shiftl 1 (Z.land w 63) - 1) in
  is_u64 sw ∧ ∀ i, 0 ≤ i < 64 →
    Z.testbit sw i = (i <? w mod 64) || ((sec_bitmap s).[64 * (w / 64) + i] =? ALL_ONES).
Proof.
  intros Hw sw. pose proof (bit_range w) as Hb.
  assert (Hwi : 0 ≤ Z.shiftr w 6 < 64) by (rewrite shiftr6; Z.to_euclidean_division_equations; lia).
  assert (Hones : Z.shiftl 1 (Z.land w 63) - 1 = Z.ones (w mod 64)).
  { rewrite shiftl_1, land63, Z.ones_equiv by lia. lia. }
  assert (Hou : is_u64 (Z.ones (w mod 64))).
  { rewrite land63 in Hb. rewrite Z.ones_equiv. unfold_uint.
    pose proof (Z.pow_pos_nonneg 2 (w mod 64)). pose proof (Z.pow_le_mono_r 2 (w mod 64) 63). lia. }
  assert (Hsu : is_u64 (sec_summary s).[Z.shiftr w 6]) by (apply (wf_summary s Hs); done).
  unfold sw. rewrite Hones. split; [auto with secos|].
  intros i Hi. rewrite Z.lor_spec, Z.testbit_ones by (rewrite land63 in Hb; lia).
  pose proof (wf_full s Hs (64 * (w / 64) + i)) as Hf.
  rewrite shiftr6, land63 in Hf.
  replace ((64 * (w / 64) + i) / 64) with (w / 64) in Hf by (Z.to_euclidean_division_equations; lia).
  replace ((64 * (w / 64) + i) mod 64) with i in Hf by (Z.to_euclidean_division_equations; lia).
  rewrite shiftr6, Hf by (unfold PMM_SECTION_WORDS; Z.to_euclidean_division_equations; lia).
  destruct (Z.leb_spec 0 i); [|lia]. simpl. apply orb_comm.
Qed.

(** One step: either the rest of the group is full, or the next word that is
    not full is found. *)
Lemma scan_group w :
  0 ≤ w < 4096 →
  let sw := Z.lor (sec_summary s).[Z.shiftr w 6] (Z.shiftl 1 (Z.land w 63) - 1) in
  if sw =? ALL_ONES
  then w < Z.lor w 63 + 1 ∧ ∀ v, w ≤ v < Z.lor w 63 + 1 → v < 4096 ∧ (sec_bitmap s).[v] = ALL_ONES
  else let w' := Z.land w (not64 63) + ctzll (not64 sw) in
       w ≤ w' < 4096 ∧ (sec_bitmap s).[w'] ≠ ALL_ONES ∧
       ∀ v, w ≤ v < w' → (sec_bitmap s).[v] = ALL_ONES.
Proof.
  intros Hw sw. destruct (summary_word_spec w Hw) as [Hsu Hbits]. fold sw in Hsu, Hbits.
  assert (Hlor : Z.lor w 63 = 64 * (w / 64) + 63).
  { apply Z.bits_inj'. intros i Hi. rewrite Z.lor_spec.
    replace (64 * (w / 64) + 63) with (63 + 2 ^ 6 * (w / 64)) by lia.
    rewrite testbit_concat by lia.
    assert (H63 : Z.testbit 63 i = (i <? 6)).
    { change 63 with (Z.ones 6). rewrite Z.testbit_ones by lia.
      by destruct (Z.leb_spec 0 i); [|lia]. }
    rewrite H63. destruct (Z.ltb_spec i 6); [apply orb_true_r|].
    rewrite orb_false_r. change 64 with (2 ^ 6). rewrite Z.div_pow2_bits by lia. f_equal. lia. }
  assert (Hdn : Z.land w (not64 63) = 64 * (w / 64)).
  { change 63 with (2 ^ 6 - 1). rewrite land_not64_ones by (unfold_uint; lia). change (2 ^ 6) with 64. lia. }
  assert (Hdm : w = 64 * (w / 64) + w mod 64 ∧ 0 ≤ w mod 64 < 64 ∧ 0 ≤ w / 64 < 64)
    by (Z.to_euclidean_division_equations; lia).
  destruct (Z.eqb_spec sw ALL_ONES) as [Hall|Hne].
  - split; [lia|]. intros v Hv.
    assert (Hvi : v = 64 * (w / 64) + (v - 64 * (w / 64))) by lia. split; [lia|].
    specialize (Hbits (v - 64 * (w / 64)) ltac:(lia)). rewrite Hall, ALL_ONES_testbit in Hbits by lia.
    rewrite <- Hvi in Hbits. apply Z.eqb_eq.
    destruct (Z.ltb_spec (v - 64 * (w / 64)) (w mod 64)); [lia|].
    destruct (Z.ltb_spec (v - 64 * (w / 64)) 64); [done | lia].
  - destruct (ctzll_not sw Hsu Hne) as (Hc & Hcb & Hcl). rewrite Hdn.
    rewrite Hbits in Hcb by lia. apply orb_false_iff in Hcb as [Hc1 Hc2]. zbool.
    split; [lia|]. split; [done|]. intros v Hv.
    specialize (Hcl (v - 64 * (w / 64)) ltac:(lia)). rewrite Hbits in Hcl by lia.
    apply orb_true_iff in Hcl as [Hcl|Hcl]; zbool; [lia|].
    by replace (64 * (w / 64) + (v - 64 * (w / 64))) with v in Hcl by lia.
Qed.
Lemma sec_scan_Some fuel w w_end w' f :
  0 ≤ w → w_end ≤ 4096 → sec_scan fuel s max w w_end = Some (w', f) →
  w ≤ w' < w_end ∧ 64 * w' ≤ f < 64 * w' + 64 ∧ f < max ∧ frame_used s f = false.
Proof.
  revert w. induction fuel as [|fuel IH]; intros w Hw He; cbn [sec_scan]; [done|].
  destruct (w <? w_end) eqn:E; [|done]. zbool.
  pose proof (scan_group w ltac:(lia)) as Hg. cbn zeta in Hg.
  destruct (_ =? ALL_ONES).
  - intros H. apply IH in H as (H1 & H2); [|lia|lia]. split; [lia | done].
  - destruct Hg as (Hwr & Hne & _). destruct (w_end <=? _) eqn:E2; [done|]. zbool.
    destruct (_ <? max) eqn:E3; [|done]. zbool. intros [= <- <-].
    set (v := Z.land w (not64 63) + _) in *.
    assert (Hv : is_u64 (sec_bitmap s).[v]) by (apply (wf_bitmap s Hs); unfold PMM_SECTION_WORDS; lia).
    destruct (ctzll_not _ Hv Hne) as (Hc & Hcb & _).
    rewrite (Z.shiftl_mul_pow2 v 6) in * by lia. change (2 ^ 6) with 64 in *.
    split_and!; try lia. rewrite (Z.mul_comm v). by rewrite frame_used_word by lia.
Qed.

Lemma sec_scan_None fuel w w_end f :
  0 ≤ w → w_end ≤ 4096 → w_end - w ≤ Z.of_nat fuel →
  sec_scan fuel s max w w_end = None →
  64 * w ≤ f < 64 * w_end → f < max → frame_used s f = true.
Proof.
  revert w. induction fuel as [|fuel IH]; intros w Hw He Hfuel; cbn [sec_scan]; [lia|].
  destruct (w <? w_end) eqn:E; zbool; [|lia].
  pose proof (scan_group w ltac:(lia)) as Hg. cbn zeta in Hg.
  intros Hsc Hf Hmax. destruct (frame_split f) as (v & i & -> & Hv & Hi); [lia|].
  destruct (_ =? ALL_ONES) eqn:Eall.
  - destruct Hg as [Hlt Hfull]. destruct (Z.lt_ge_cases v (Z.lor w 63 + 1)).
    + apply word_full_used; try done. by apply Hfull; lia.
    + eapply IH; [..| exact Hsc | |]; lia.
  - destruct Hg as (Hwr & Hne & Hlow).
    set (u := Z.land w (not64 63) + _) in *.
    destruct (Z.lt_ge_cases v u); [apply word_full_used; try done; apply Hlow; lia|].
    destruct (w_end <=? u) eqn:E2; zbool; [lia|].
    assert (Hu : is_u64 (sec_bitmap s).[u]) by (apply (wf_bitmap s Hs); unfold PMM_SECTION_WORDS; lia).
    destruct (ctzll_not _ Hu Hne) as (Hc & Hcb & Hcl).
    rewrite (Z.shiftl_mul_pow2 u 6) in * by lia. change (2 ^ 6) with 64 in *.
    destruct (_ <? max) eqn:E3; [done|]. zbool.
    assert (v = u) as -> by lia.
    rewrite frame_used_word by lia. apply Hcl. lia.
Qed.
End scan.

Lemma sec_find_spec s max :
  sec_inv s → 0 ≤ max ≤ PMM_SECTION_FRAMES →
  let '(s', r) := sec_find s max in
  sec_inv s' ∧ sec_bitmap s' = sec_bitmap s ∧ sec_free s' = sec_free s ∧
  match r with
  | Some f => 0 ≤ f < max ∧ frame_used s f = false
  | None => ∀ f, 0 ≤ f < max → frame_used s f = true
  end.
Proof.
  unfold PMM_SECTION_FRAMES. intros [Hwf Hfree] Hmax. unfold sec_find.
  destruct (Z.eqb_spec (sec_free s) 0) as [Hz|Hnz].
  { split_and!; try done. intros f Hf. rewrite Hz in Hfree. symmetry in Hfree.
    pose proof (zcount_zero _ _ Hfree f) as Hu. rewrite SECTION_N_Z in Hu.
    apply negb_false_iff. apply Hu. lia. }
  rewrite shiftr6.
  set (max_w := (max + 63) / 64). set (start := if sec_hint s <? max_w then _ else 0).
  pose proof (wf_hint s Hwf) as Hh.
  assert (Hmw : 0 ≤ max_w ≤ 4096 ∧ max ≤ 64 * max_w)
    by (unfold max_w; Z.to_euclidean_division_equations; lia).
  assert (Hst : 0 ≤ start ∧ (start ≤ max_w)) by (unfold start; split_if; zbool; lia).
  assert (Hinv : ∀ w, 0 ≤ w < 4096 → sec_inv (set_hint s (u32 w))).
  { intros w Hw. split; [|done]. destruct Hwf; constructor; try done. simpl.
    apply u32_range. }
  destruct (sec_scan _ s max start max_w) as [[w f]|] eqn:E1.
  { apply sec_scan_Some in E1 as (H1 & H2 & H3 & H4); [|done|lia|lia].
    split_and!; try done; [apply Hinv; lia | lia]. }
  destruct (sec_scan _ s max 0 start) as [[w f]|] eqn:E2.
  { apply sec_scan_Some in E2 as (H1 & H2 & H3 & H4); [|done|lia|lia].
    split_and!; try done; [apply Hinv; lia | lia]. }
  split_and!; try done. intros f Hf. destruct (Z.lt_ge_cases f (64 * start)).
  - eapply sec_scan_None; [done|..|exact E2| |]; lia.
  - eapply sec_scan_None; [done|..|exact E1| |]; lia.
Qed.

(** [sec_find] is exact: with the section invariant, for any bound
    [max <= 262144] it returns a free frame below [max] whenever one exists
    and nothing otherwise, although it only looks at the summary, the hint and
    one bitmap word; apart from the hint the section is unchanged. *)
Theorem sec_find_correct s max :
  sec_inv s → 0 ≤ max ≤ PMM_SECTION_FRAMES →
  let '(s', r) := sec_find s max in
  sec_inv s' ∧ sec_bitmap s' = sec_bitmap s ∧ sec_free s' = sec_free s ∧
  match r with
  | Some f => 0 ≤ f < max ∧ frame_used s f = false
  | None => ∀ f, 0 ≤ f < max → frame_used s f = true
  end.
Proof. apply sec_find_spec. Qed.

(** *** A fresh section, as [pmm_late_init] writes it: every frame used. *)

Definition sec_fresh : pmm_section :=
  mk_section 0 0 (replicate 64 0) (replicate 64 0) (replicate 64 ALL_ONES) (replicate 4096 ALL_ONES).

Lemma sec_fresh_word w : 0 ≤ w < 4096 → (sec_bitmap sec_fresh).[w] = ALL_ONES.
Proof. intros. apply (aget_replicate 4096). lia. Qed.

Lemma sec_fresh_used f : 0 ≤ f < PMM_SECTION_FRAMES → frame_used sec_fresh f = true.
Proof.
  unfold PMM_SECTION_FRAMES. intros. unfold frame_used.
  rewrite sec_fresh_word by (apply word_range; lia).
  pose proof (bit_range f). rewrite ALL_ONES_testbit by lia. lia.
Qed.

Lemma sec_fresh_inv : sec_inv sec_fresh.
Proof.
  assert (Hs : ∀ w, 0 ≤ w < 64 → (sec_summary sec_fresh).[w] = ALL_ONES)
    by (intros; apply (aget_replicate 64); lia).
  split.
  - constructor.
    + cbn [sec_bitmap sec_fresh]. rewrite length_replicate. reflexivity.
    + cbn [sec_summary sec_fresh]. rewrite length_replicate. reflexivity.
    + intros w Hw. rewrite sec_fresh_word by exact Hw. vm_compute. split; congruence.
    + intros w Hw. rewrite Hs by exact Hw. vm_compute. split; congruence.
    + unfold PMM_SECTION_WORDS. intros w Hw. pose proof (bit_range w).
      rewrite Hs, sec_fresh_word, Z.eqb_refl, ALL_ONES_testbit
        by (rewrite ?shiftr6; Z.to_euclidean_division_equations; lia). lia.
    + simpl. lia.
    + reflexivity.
    + reflexivity.
  - symmetry. apply zcount_none. rewrite SECTION_N_Z. intros i Hi.
    by rewrite sec_fresh_used.
Qed.

(** On a fresh section, freeing the frames 60 to 130. *)
Lemma sec_mark_correct_witness :
  ∃ s' c, sec_mark sec_fresh 60 130 false = (s', c) ∧ c = 70 ∧
    sec_inv s' ∧ same_meta sec_fresh s' ∧
    (∀ f, 0 ≤ f < PMM_SECTION_FRAMES →
       frame_used s' f = if (60 <=? f) && (f <? 130) then false else frame_used sec_fresh f) ∧
    c = zcount (to_change sec_fresh 60 130 false) SECTION_N.
Proof.
  do 2 eexists. split; [vm_compute; reflexivity|]. split; [reflexivity|].
  apply sec_mark_correct; [apply sec_fresh_inv | lia | unfold PMM_SECTION_FRAMES; lia
    | vm_compute; reflexivity].
Defined.

(** A section whose frames 60 to 129 are free. *)
Definition sec_demo : pmm_section := (sec_mark sec_fresh 60 130 false).1.

Lemma sec_demo_inv : sec_inv sec_demo.
Proof.
  unfold sec_demo. destruct (sec_mark sec_fresh 60 130 false) as [s' c] eqn:E.
  eapply sec_mark_spec; [apply sec_fresh_inv| |unfold PMM_SECTION_FRAMES|exact E]; lia.
Qed.

(** On it: the lowest free frame is found, and none below it. *)
Lemma sec_find_correct_witness :
  (sec_find sec_demo 262144).2 = Some 60 ∧ (sec_find sec_demo 60).2 = None ∧
  let '(s', r) := sec_find sec_demo 262144 in
  sec_inv s' ∧ sec_bitmap s' = sec_bitmap sec_demo ∧ sec_free s' = sec_free sec_demo ∧
  match r with
  | Some f => 0 ≤ f < 262144 ∧ frame_used sec_demo f = false
  | None => ∀ f, 0 ≤ f < 262144 → frame_used sec_demo f = true
  end.
Proof.
  split; [vm_compute; reflexivity|]. split; [vm_compute; reflexivity|].
  apply sec_find_correct; [apply sec_demo_inv | unfold PMM_SECTION_FRAMES; lia].
Defined.
