(* ===== verification/Pmm.v ===== *)
(** * Physical memory: the sectioned allocator

    Models the second phase of [src/mm/pmm.c]: the array of 1 GiB sections
    ([g_sec]) with its global free count and rolling hints, the marking of
    frame ranges ([frames_mark]), single-frame and contiguous allocation with
    zones ([alloc_in], [alloc_frame_nolock_below], [run_in],
    [alloc_run_nolock_below]), freeing ([pmm_free_contiguous]) and the public
    entry points.  The allocator lock serialises the entry points, so each is
    one atomic state transformer. *)

From S2P Require Import Prelude PmmRange PmmSection.

Definition PMM_DMA32_LIMIT : Z := 0x100000000.

(** The static variables of [pmm.c].  [g_chunks] is the contents of the
    frames that hold reference counts, by physical address. *)
Record pmm := mk_pmm {
  g_map : memmap;
  g_sec : list (option pmm_section);
  g_nsec : Z;
  g_sectioned : bool;
  g_hint_normal : Z;
  g_hint_dma32 : Z;
  total_memory : Z;
  g_managed_frames : Z;
  g_free_frames : Z;
  max_phys_addr_seen : Z;
  g_meta_bytes : Z;
  g_ref_chunks : Z;
  g_chunks : gmap Z (list Z)
}.

Definition set_map (st : pmm) x := mk_pmm x (g_sec st) (g_nsec st) (g_sectioned st)
  (g_hint_normal st) (g_hint_dma32 st) (total_memory st) (g_managed_frames st)
  (g_free_frames st) (max_phys_addr_seen st) (g_meta_bytes st) (g_ref_chunks st) (g_chunks st).
Definition set_sec (st : pmm) l n := mk_pmm (g_map st) l n (g_sectioned st)
  (g_hint_normal st) (g_hint_dma32 st) (total_memory st) (g_managed_frames st)
  (g_free_frames st) (max_phys_addr_seen st) (g_meta_bytes st) (g_ref_chunks st) (g_chunks st).
Definition set_free_frames (st : pmm) x := mk_pmm (g_map st) (g_sec st) (g_nsec st) (g_sectioned st)
  (g_hint_normal st) (g_hint_dma32 st) (total_memory st) (g_managed_frames st)
  x (max_phys_addr_seen st) (g_meta_bytes st) (g_ref_chunks st) (g_chunks st).
Definition set_hints (st : pmm) hn hd := mk_pmm (g_map st) (g_sec st) (g_nsec st) (g_sectioned st)
  hn hd (total_memory st) (g_managed_frames st)
  (g_free_frames st) (max_phys_addr_seen st) (g_meta_bytes st) (g_ref_chunks st) (g_chunks st).
Definition set_chunks (st : pmm) n c := mk_pmm (g_map st) (g_sec st) (g_nsec st) (g_sectioned st)
  (g_hint_normal st) (g_hint_dma32 st) (total_memory st) (g_managed_frames st)
  (g_free_frames st) (max_phys_addr_seen st) (g_meta_bytes st) n c.

(** A write through the section pointer [g_sec[si]]. *)
Definition put_sec (st : pmm) (si : Z) (s : pmm_section) : pmm :=
  set_sec st (g_sec st).[si <- Some s] (g_nsec st).

Definition sec_of (st : pmm) (frame : Z) : option pmm_section :=
  let s := Z.shiftr frame PMM_SECTION_SHIFT in
  if s <? g_nsec st then (g_sec st).[s] else None.

(** [sec_mark] on section [si] with the global count kept in sync, as
    [frames_mark] does it. *)
Definition frames_mark_sec (st : pmm) (si lo hi : Z) (set : bool) : pmm :=
  match if si <? g_nsec st then (g_sec st).[si] else None with
  | Some s =>
      let '(s', c) := sec_mark s lo hi set in
      set_free_frames (put_sec st si s')
        (u64 (if set then g_free_frames st - c else g_free_frames st + c))
  | None => st
  end.

Fixpoint frames_mark_loop (fuel : nat) (st : pmm) (f_lo f_hi : Z) (set : bool) : pmm :=
  match fuel with
  | O => st
  | S fuel =>
      if f_lo <? f_hi then
        let si := Z.shiftr f_lo PMM_SECTION_SHIFT in
        let sec_end := Z.shiftl (si + 1) PMM_SECTION_SHIFT in
        let e := if f_hi <? sec_end then f_hi else sec_end in
        let base := Z.shiftl si PMM_SECTION_SHIFT in
        frames_mark_loop fuel (frames_mark_sec st si (f_lo - base) (e - base) set) e f_hi set
      else st
  end.

(** Every iteration finishes a section or the range. *)
Definition frames_mark (st : pmm) (f_lo f_hi : Z) (set : bool) : pmm :=
  frames_mark_loop (Z.to_nat (f_hi / PMM_SECTION_FRAMES - f_lo / PMM_SECTION_FRAMES + 1))
    st f_lo f_hi set.

(** ** One frame *)

(** The [uint64_t* hint] argument of [alloc_in]. *)
Inductive hint_ptr := HintNormal | HintDma32 | HintNull.

Definition hint_get (st : pmm) (h : hint_ptr) : option Z :=
  match h with
  | HintNormal => Some (g_hint_normal st)
  | HintDma32 => Some (g_hint_dma32 st)
  | HintNull => None
  end.
Definition hint_put (st : pmm) (h : hint_ptr) (x : Z) : pmm :=
  match h with
  | HintNormal => set_hints st x (g_hint_dma32 st)
  | HintDma32 => set_hints st (g_hint_normal st) x
  | HintNull => st
  end.

Fixpoint alloc_in_loop (n : nat) (st : pmm) (k h s_lo s_hi f_max : Z) (hint : hint_ptr)
    : pmm * option Z :=
  match n with
  | O => (st, None)
  | S n =>
      let si := h + k in
      let si := if s_hi <=? si then si - (s_hi - s_lo) else si in
      match (g_sec st).[si] with
      | None => alloc_in_loop n st (k + 1) h s_lo s_hi f_max hint
      | Some s =>
          if sec_free s =? 0 then alloc_in_loop n st (k + 1) h s_lo s_hi f_max hint
          else
            let base := Z.shiftl si PMM_SECTION_SHIFT in
            if f_max <=? base then alloc_in_loop n st (k + 1) h s_lo s_hi f_max hint
            else
              let max := if f_max - base <? PMM_SECTION_FRAMES then f_max - base
                         else PMM_SECTION_FRAMES in
              match sec_find s max with
              | (s1, None) =>
                  alloc_in_loop n (put_sec st si s1) (k + 1) h s_lo s_hi f_max hint
              | (s1, Some f) =>
                  let '(s2, _) := sec_mark s1 f (f + 1) true in
                  let st1 := set_free_frames (put_sec st si s2) (u64 (g_free_frames st - 1)) in
                  (hint_put st1 hint si, Some (base + f))
              end
      end
  end.

Definition alloc_in (st : pmm) (s_lo s_hi f_max : Z) (hint : hint_ptr) : pmm * option Z :=
  let s_hi := if g_nsec st <? s_hi then g_nsec st else s_hi in
  if s_hi <=? s_lo then (st, None)
  else
    let h := match hint_get st hint with
             | Some x => if (s_lo <=? x) && (x <? s_hi) then x else s_lo
             | None => s_lo
             end in
    alloc_in_loop (Z.to_nat (s_hi - s_lo)) st 0 h s_lo s_hi f_max hint.

Definition sec_count_below (limit : Z) : Z :=
  Z.shiftr (u64 (limit + PMM_SECTION_BYTES - 1)) 30.

Definition alloc_frame_nolock_below (st : pmm) (limit : Z) : pmm * Z :=
  if negb (g_sectioned st) then
    let lim := if limit <? PMM_EARLY_LIMIT then limit else PMM_EARLY_LIMIT in
    let '(m, p) := early_alloc (g_map st) PMM_FRAME_SIZE PMM_FRAME_SIZE lim in
    (set_map st m, p)
  else
    let f_max := if limit =? ALL_ONES then ALL_ONES else limit / PMM_FRAME_SIZE in
    let dma_secs := Z.shiftr PMM_DMA32_LIMIT 30 in
    let '(st1, f) :=
      if PMM_DMA32_LIMIT <? limit
      then alloc_in st dma_secs
             (sec_count_below (if limit =? ALL_ONES then Z.shiftr ALL_ONES 1 else limit))
             f_max HintNormal
      else (st, None) in
    let '(st2, f) :=
      match f with
      | Some _ => (st1, f)
      | None =>
          let lim := if limit <? PMM_DMA32_LIMIT then limit else PMM_DMA32_LIMIT in
          alloc_in st1 0 (sec_count_below lim) (lim / PMM_FRAME_SIZE) HintDma32
      end in
    match f with
    | Some f => (st2, u64 (f * PMM_FRAME_SIZE))
    | None => (st2, 0)
    end.

Definition alloc_frame_nolock (st : pmm) : pmm * Z := alloc_frame_nolock_below st ALL_ONES.

(** ** Contiguous runs *)

(** The inner loop of [run_in] over the frames of one section, with the
    current run; the first frame of the run that reaches [count]. *)
Fixpoint run_scan (fuel : nat) (s : pmm_section) (max count f run run_start : Z) : option Z :=
  match fuel with
  | O => None
  | S fuel =>
      if f <? max then
        let w := Z.shiftr f 6 in
        let word := (sec_bitmap s).[w] in
        let whole := (Z.land f 63 =? 0) && (f + 64 <=? max) in
        if whole && (word =? ALL_ONES) then run_scan fuel s max count (f + 64) 0 run_start
        else if whole && (word =? 0) then
          let run_start := if run =? 0 then f else run_start in
          let run := run + 64 in
          if count <=? run then Some run_start
          else run_scan fuel s max count (f + 64) run run_start
        else if Z.land word (Z.shiftl 1 (Z.land f 63)) =? 0 then
          let run_start := if run =? 0 then f else run_start in
          let run := run + 1 in
          if count <=? run then Some run_start
          else run_scan fuel s max count (f + 1) run run_start
        else run_scan fuel s max count (f + 1) 0 run_start
      else None
  end.

Fixpoint run_in_loop (n : nat) (st : pmm) (si f_max count : Z) : pmm * option Z :=
  match n with
  | O => (st, None)
  | S n =>
      match (g_sec st).[si] with
      | None => run_in_loop n st (si + 1) f_max count
      | Some s =>
          if sec_free s <? count then run_in_loop n st (si + 1) f_max count
          else
            let base := Z.shiftl si PMM_SECTION_SHIFT in
            if f_max <=? base then (st, None)
            else
              let max := if f_max - base <? PMM_SECTION_FRAMES then f_max - base
                         else PMM_SECTION_FRAMES in
              match run_scan (Z.to_nat max) s max count 0 0 0 with
              | Some run_start =>
                  let '(s', _) := sec_mark s run_start (run_start + count) true in
                  (set_free_frames (put_sec st si s') (u64 (g_free_frames st - count)),
                   Some (base + run_start))
              | None => run_in_loop n st (si + 1) f_max count
              end
      end
  end.

Definition run_in (st : pmm) (s_lo s_hi f_max count : Z) : pmm * option Z :=
  let s_hi := if g_nsec st <? s_hi then g_nsec st else s_hi in
  run_in_loop (Z.to_nat (s_hi - s_lo)) st s_lo f_max count.

Definition alloc_run_nolock_below (st : pmm) (count limit : Z) : pmm * Z :=
  if (count =? 0) || (PMM_SECTION_FRAMES <? count) then (st, 0)
  else if negb (g_sectioned st) then
    let lim := if limit <? PMM_EARLY_LIMIT then limit else PMM_EARLY_LIMIT in
    let '(m, p) := early_alloc (g_map st) (u64 (count * PMM_FRAME_SIZE)) PMM_FRAME_SIZE lim in
    (set_map st m, p)
  else
    let f_max := if limit =? ALL_ONES then ALL_ONES else limit / PMM_FRAME_SIZE in
    let dma_secs := Z.shiftr PMM_DMA32_LIMIT 30 in
    let '(st1, f) :=
      if PMM_DMA32_LIMIT <? limit then run_in st dma_secs (g_nsec st) f_max count
      else (st, None) in
    let '(st2, f) :=
      match f with
      | Some _ => (st1, f)
      | None =>
          let lim := if limit <? PMM_DMA32_LIMIT then limit else PMM_DMA32_LIMIT in
          run_in st1 0 (sec_count_below lim) (lim / PMM_FRAME_SIZE) count
      end in
    match f with
    | Some f => (st2, u64 (f * PMM_FRAME_SIZE))
    | None => (st2, 0)
    end.

(** ** Entry points *)

Definition pmm_alloc_frame (st : pmm) : pmm * Z := alloc_frame_nolock st.
Definition pmm_alloc_below (st : pmm) (limit : Z) : pmm * Z := alloc_frame_nolock_below st limit.

Definition pmm_alloc_contiguous_below (st : pmm) (count limit : Z) : pmm * Z :=
  if count =? 0 then (st, 0)
  else if count =? 1 then alloc_frame_nolock_below st limit
  else alloc_run_nolock_below st count limit.

Definition pmm_alloc_contiguous (st : pmm) (count : Z) : pmm * Z :=
  pmm_alloc_contiguous_below st count ALL_ONES.

(** The body of the loop of [pmm_free_contiguous]. *)
Definition free_one (st : pmm) (f : Z) : pmm :=
  match sec_of st f with
  | Some s =>
      let i := Z.land f (PMM_SECTION_FRAMES - 1) in
      if Z.land (sec_bitmap s).[Z.shiftr i 6] (Z.shiftl 1 (Z.land i 63)) =? 0 then st
      else
        let '(s', _) := sec_mark s i (i + 1) false in
        let s' := if Z.shiftr i 6 <? sec_hint s' then set_hint s' (u32 (Z.shiftr i 6)) else s' in
        set_free_frames (put_sec st (Z.shiftr f PMM_SECTION_SHIFT) s') (u64 (g_free_frames st + 1))
  | None => st
  end.

Fixpoint free_loop (n : nat) (st : pmm) (f : Z) : pmm :=
  match n with
  | O => st
  | S n => free_loop n (free_one st f) (f + 1)
  end.

Definition pmm_free_contiguous (st : pmm) (addr count : Z) : pmm :=
  let base := addr / PMM_FRAME_SIZE in
  if g_sectioned st then free_loop (Z.to_nat (u64 (base + count) - base)) st base else st.

Definition pmm_free_frame (st : pmm) (addr : Z) : pmm := pmm_free_contiguous st addr 1.

Definition pmm_get_free_memory (st : pmm) : Z :=
  if g_sectioned st then u64 (g_free_frames st * PMM_FRAME_SIZE)
  else u64 ((if g_early_used (g_map st) <? g_managed_frames st
             then g_managed_frames st - g_early_used (g_map st) else 0) * PMM_FRAME_SIZE).

Definition pmm_get_used_memory (st : pmm) : Z :=
  let fr := pmm_get_free_memory st / PMM_FRAME_SIZE in
  u64 ((if fr <? g_managed_frames st then g_managed_frames st - fr else 0) * PMM_FRAME_SIZE).

Fixpoint free_frames_sum (n : nat) (st : pmm) (si acc : Z) : Z :=
  match n with
  | O => acc
  | S n =>
      free_frames_sum n st (si + 1)
        (match (g_sec st).[si] with Some s => u64 (acc + sec_free s) | None => acc end)
  end.

Definition pmm_free_frames_below (st : pmm) (limit : Z) : Z :=
  if g_sectioned st then
    let hi := sec_count_below limit in
    let hi := if g_nsec st <? hi then g_nsec st else hi in
    free_frames_sum (Z.to_nat hi) st 0 0
  else 0.

(** ** Specification *)

Lemma shiftr18 f : Z.shiftr f PMM_SECTION_SHIFT = f / 262144.
Proof. unfold PMM_SECTION_SHIFT. by rewrite Z.shiftr_div_pow2. Qed.
Lemma shiftl18 s : Z.shiftl s PMM_SECTION_SHIFT = s * 262144.
Proof. unfold PMM_SECTION_SHIFT. by rewrite Z.shiftl_mul_pow2. Qed.
Lemma land_frames f : Z.land f (PMM_SECTION_FRAMES - 1) = f mod 262144.
Proof. apply (land_ones_mod 18). lia. Qed.

(** The sum of the per-section free counts. *)
Fixpoint sum_free (l : list (option pmm_section)) : Z :=
  match l with
  | [] => 0
  | Some s :: l => sec_free s + sum_free l
  | None :: l => sum_free l
  end.

(** The frame lies in a section with RAM and is not in use. *)
Definition frame_free (st : pmm) (f : Z) : bool :=
  match sec_of st f with
  | Some s => negb (frame_used s (Z.land f (PMM_SECTION_FRAMES - 1)))
  | None => false
  end.

(** Sections, and so frames, that the state can describe: [2^60] bytes. *)
Definition MAX_SECTIONS : Z := 2 ^ 30.

Record pmm_wf (st : pmm) : Prop := {
  pw_nsec : g_nsec st = zlen (g_sec st);
  pw_bound : g_nsec st ≤ MAX_SECTIONS;
  pw_sec : ∀ si s, 0 ≤ si < g_nsec st → (g_sec st).[si] = Some s → sec_inv s;
  pw_free : g_free_frames st = sum_free (g_sec st);
  pw_hints : 0 ≤ g_hint_normal st ∧ 0 ≤ g_hint_dma32 st
}.

Lemma sum_free_set l i s s' :
  0 ≤ i < zlen l → l.[i] = Some s →
  sum_free l.[i <- Some s'] = sum_free l - sec_free s + sec_free s'.
Proof.
  unfold aget, aset. intros Hi. set (n := Z.to_nat i).
  assert (Hn : (n < length l)%nat) by lia. clearbody n. clear Hi.
  revert n Hn. induction l as [|o l IH]; intros [|n] Hn; simpl in *; [lia..| |].
  - intros ->. lia.
  - intros H. specialize (IH n ltac:(lia) H). destruct o; lia.
Qed.

Lemma sum_free_bound l :
  (∀ i s, 0 ≤ i < zlen l → l.[i] = Some s → sec_inv s) → 0 ≤ sum_free l ≤ zlen l * 262144.
Proof.
  induction l as [|o l IH]; intros H; [simpl; lia|].
  assert (Hl : 0 ≤ sum_free l ≤ zlen l * 262144).
  { apply IH. intros i s Hi Hs. apply (H (i + 1)); [simpl; lia|].
    unfold aget in *. by replace (Z.to_nat (i + 1)) with (S (Z.to_nat i)) by lia. }
  destruct o as [s|]; simpl; [|lia].
  destruct (H 0 s) as [_ Hf]; [simpl; lia | done |]. pose proof (free_count_range s). lia.
Qed.

Lemma pmm_free_bound st : pmm_wf st → 0 ≤ g_free_frames st ≤ 2 ^ 48.
Proof.
  intros [Hn Hb Hs Hf _]. rewrite Hf. rewrite Hn in Hs.
  pose proof (sum_free_bound _ Hs). unfold MAX_SECTIONS in Hb. lia.
Qed.

(** One section's free count is part of the sum. *)
Lemma sum_free_ge l i s :
  (∀ i s, 0 ≤ i < zlen l → l.[i] = Some s → sec_inv s) →
  0 ≤ i < zlen l → l.[i] = Some s → sec_free s ≤ sum_free l.
Proof.
  intros H Hi Hs. pose proof (sum_free_set l i s (set_free s 0) Hi Hs) as Hd.
  assert (0 ≤ sum_free l.[i <- Some (set_free s 0)]) as Hp; [|simpl in Hd; lia].
  clear Hd. assert (Hnn : Forall (λ o, match o with Some s => 0 ≤ sec_free s | None => True end)
    l.[i <- Some (set_free s 0)]).
  { apply Forall_forall. intros o (n & Ho)%list_elem_of_lookup. unfold aset in Ho.
    apply list_lookup_insert_Some in Ho as [(<- & <- & _)|(Hne & Ho)]; [simpl; lia|].
    destruct o as [s'|]; [|done].
    destruct (H (Z.of_nat n) s') as [_ ->]; [apply lookup_lt_Some in Ho; lia| |].
    - apply lookup_aget. by rewrite Nat2Z.id.
    - apply free_count_range. }
  revert Hnn. generalize l.[i <- Some (set_free s 0)] as l'. clear.
  induction l' as [|o l' IH]; intros Hf; [simpl; lia|].
  inversion Hf; subst. specialize (IH ltac:(done)). destruct o; simpl; lia.
Qed.

Lemma frame_free_sec st f s :
  sec_of st f = Some s → frame_free st f = negb (frame_used s (f mod 262144)).
Proof. intros H. unfold frame_free. by rewrite H, land_frames. Qed.

Lemma sec_of_put st si s f :
  g_nsec st = zlen (g_sec st) → 0 ≤ si < g_nsec st → 0 ≤ f →
  sec_of (put_sec st si s) f = if f / 262144 =? si then Some s else sec_of st f.
Proof.
  intros Hn Hsi Hf. unfold sec_of. cbn [put_sec set_sec g_nsec g_sec].
  rewrite shiftr18. assert (0 ≤ f / 262144) by (apply Z.div_pos; lia).
  destruct (Z.eqb_spec (f / 262144) si) as [->|Hne].
  - rewrite aget_aset_eq by lia. by destruct (Z.ltb_spec si (g_nsec st)); [|lia].
  - by rewrite aget_aset_ne by lia.
Qed.

(** Replacing a section, with the global count moved accordingly. *)
Lemma put_sec_wf st si s s' x :
  pmm_wf st → 0 ≤ si < g_nsec st → (g_sec st).[si] = Some s → sec_inv s' →
  x = g_free_frames st - sec_free s + sec_free s' →
  pmm_wf (set_free_frames (put_sec st si s') x).
Proof.
  intros [Hn Hb Hs Hf Hh] Hsi Hsec Hinv ->. constructor; simpl; try done.
  - by rewrite aset_length.
  - intros sj sx Hsj. rewrite aget_aset by lia. destruct (Z.eqb_spec si sj); [by intros [= <-]|].
    by apply Hs.
  - rewrite (sum_free_set _ _ s) by (try done; lia). lia.
Qed.

Lemma frame_free_put st si s' x f :
  pmm_wf st → 0 ≤ si < g_nsec st → 0 ≤ f →
  frame_free (set_free_frames (put_sec st si s') x) f =
  if f / 262144 =? si then negb (frame_used s' (f mod 262144)) else frame_free st f.
Proof.
  intros Hst Hsi Hf. unfold frame_free.
  change (sec_of (set_free_frames (put_sec st si s') x) f) with (sec_of (put_sec st si s') f).
  rewrite sec_of_put by (try done; apply Hst). by destruct (_ =? _); [rewrite land_frames|].
Qed.

(** The frames [[lo, hi)] as a test. *)
Definition in_range (lo hi f : Z) : bool := (lo <=? f) && (f <? hi).

(** The section [s0] of the state differs from [s] in its scan hint only. *)
Definition same_frames (s s0 : pmm_section) : Prop :=
  sec_bitmap s0 = sec_bitmap s ∧ sec_free s0 = sec_free s.

Lemma same_frames_used s s0 f : same_frames s s0 → frame_used s0 f = frame_used s f.
Proof. intros [H _]. unfold frame_used. by rewrite H. Qed.

(** What marking [[lo, hi)] of section [si] does to the whole state: the
    invariant stays and exactly those frames change. *)
Lemma mark_section st si s s0 lo hi set s1 c s2 :
  pmm_wf st → 0 ≤ si < g_nsec st → (g_sec st).[si] = Some s →
  sec_inv s0 → same_frames s s0 →
  0 ≤ lo ≤ hi → hi ≤ PMM_SECTION_FRAMES → sec_mark s0 lo hi set = (s1, c) →
  same_frames s1 s2 → sec_inv s2 →
  let st' := set_free_frames (put_sec st si s2)
               (u64 (if set then g_free_frames st - c else g_free_frames st + c)) in
  pmm_wf st' ∧
  ∀ f, 0 ≤ f → frame_free st' f =
    if in_range (si * 262144 + lo) (si * 262144 + hi) f then negb set else frame_free st f.
Proof.
  intros Hst Hsi Hsec Hinv0 Hsame Hlo Hhi Hmark Hsame2 Hinv2 st'.
  destruct (sec_mark_spec _ _ _ _ _ _ Hinv0 Hlo Hhi Hmark) as (Hinv1 & _ & Hb & Hc).
  pose proof (sec_mark_free _ _ _ _ _ _ Hinv0 Hlo Hhi Hmark) as Hfree.
  destruct Hsame as [Hbm Hfr], Hsame2 as [Hbm2 Hfr2].
  unfold PMM_SECTION_FRAMES in *.
  set (x := if set then _ else _) in st'.
  assert (Hx : x = g_free_frames st - sec_free s + sec_free s2) by (unfold x; destruct set; lia).
  assert (Hwf : pmm_wf (set_free_frames (put_sec st si s2) x)) by (by eapply put_sec_wf).
  pose proof (pmm_free_bound _ Hwf) as Hbd. simpl in Hbd.
  unfold st'. rewrite u64_small by (unfold_uint; lia). split; [done|].
  intros f Hf. rewrite frame_free_put by done. unfold in_range.
  destruct (Z.eqb_spec (f / 262144) si) as [Hfs|Hfs].
  - rewrite (same_frames_used s1 s2) by done. rewrite Hb by (apply Z.mod_pos_bound; lia).
    rewrite (same_frames_used s s0) by done.
    replace ((si * 262144 + lo <=? f) && (f <? si * 262144 + hi))
      with ((lo <=? f mod 262144) && (f mod 262144 <? hi))
      by (Z.to_euclidean_division_equations; lia).
    destruct ((lo <=? f mod 262144) && _); [done|].
    rewrite (frame_free_sec st f s); [done|]. unfold sec_of. rewrite shiftr18, Hfs.
    by destruct (Z.ltb_spec si (g_nsec st)); [|lia].
  - replace ((si * 262144 + lo <=? f) && (f <? si * 262144 + hi)) with false; [done|].
    symmetry. apply andb_false_iff. Z.to_euclidean_division_equations; lia.
Qed.

(** *** Marking a range of frames *)

Definition has_section (st : pmm) (f : Z) : bool :=
  match sec_of st f with Some _ => true | None => false end.

Lemma frame_free_has_section st f : frame_free st f = true → has_section st f = true.
Proof. unfold frame_free, has_section. by destruct (sec_of st f). Qed.

Lemma has_section_put st si s s' x f :
  pmm_wf st → 0 ≤ si < g_nsec st → (g_sec st).[si] = Some s → 0 ≤ f →
  has_section (set_free_frames (put_sec st si s') x) f = has_section st f.
Proof.
  intros Hst Hsi Hsec Hf. unfold has_section.
  change (sec_of (set_free_frames (put_sec st si s') x) f) with (sec_of (put_sec st si s') f).
  rewrite sec_of_put by (try done; apply Hst). destruct (Z.eqb_spec (f / 262144) si) as [Hs|]; [|done].
  unfold sec_of. rewrite shiftr18, Hs, Hsec. by destruct (Z.ltb_spec si (g_nsec st)); [|lia].
Qed.

(** The state after marking [[lo, hi)]: exactly those frames that have a
    section change. *)
Definition marked (st st' : pmm) (lo hi : Z) (set : bool) : Prop :=
  pmm_wf st' ∧ (∀ f, 0 ≤ f → has_section st' f = has_section st f) ∧
  ∀ f, 0 ≤ f → frame_free st' f =
    if in_range lo hi f then negb set && has_section st f else frame_free st f.

Lemma frames_mark_sec_spec st si lo hi set :
  pmm_wf st → 0 ≤ si → 0 ≤ lo ≤ hi → hi ≤ PMM_SECTION_FRAMES →
  marked st (frames_mark_sec st si lo hi set) (si * 262144 + lo) (si * 262144 + hi) set.
Proof.
  intros Hst Hsi Hlo Hhi. unfold frames_mark_sec, marked.
  assert (Hin : ∀ f, in_range (si * 262144 + lo) (si * 262144 + hi) f = true → f / 262144 = si).
  { unfold in_range, PMM_SECTION_FRAMES in *. intros f Hf. zbool.
    Z.to_euclidean_division_equations; lia. }
  destruct (if si <? g_nsec st then (g_sec st).[si] else None) as [s|] eqn:Hs.
  - destruct (Z.ltb_spec si (g_nsec st)) as [Hlt|]; [|done].
    destruct (sec_mark s lo hi set) as [s' c] eqn:Em.
    pose proof (pw_sec st Hst si s ltac:(lia) Hs) as Hinv.
    destruct (sec_mark_spec _ _ _ _ _ _ Hinv Hlo Hhi Em) as (Hinv' & _).
    destruct (mark_section st si s s lo hi set s' c s') as [Hwf Hfree]; try done.
    split; [done|]. split; [intros; by eapply has_section_put|].
    intros f Hf. rewrite Hfree by done. destruct (in_range _ _ f) eqn:Ef; [|done].
    unfold has_section, sec_of. rewrite shiftr18, (Hin f Ef), Hs.
    destruct (Z.ltb_spec si (g_nsec st)); [|lia]. by rewrite andb_true_r.
  - split; [done|]. split; [done|]. intros f Hf. destruct (in_range _ _ f) eqn:Ef; [|done].
    unfold frame_free, has_section, sec_of. rewrite shiftr18, (Hin f Ef), Hs.
    by rewrite andb_false_r.
Qed.

Lemma marked_compose st st1 st2 lo mid hi set :
  lo ≤ mid ≤ hi → marked st st1 lo mid set → marked st1 st2 mid hi set →
  marked st st2 lo hi set.
Proof.
  intros Hm (_ & Hs1 & Hf1) (Hwf & Hs2 & Hf2). split; [done|].
  split; [intros; by rewrite Hs2, Hs1|].
  intros f Hf. rewrite Hf2, Hs1, Hf1 by done. unfold in_range.
  destruct (Z.leb_spec mid f), (Z.ltb_spec f hi), (Z.leb_spec lo f), (Z.ltb_spec f mid);
    simpl; (done || lia).
Qed.

Lemma frames_mark_spec st lo hi set :
  pmm_wf st → 0 ≤ lo ≤ hi → marked st (frames_mark st lo hi set) lo hi set.
Proof.
  unfold frames_mark, PMM_SECTION_FRAMES.
  set (fuel := Z.to_nat _). assert (Hfuel : hi / 262144 - lo / 262144 < Z.of_nat fuel) by lia.
  clearbody fuel. revert st lo Hfuel. induction fuel as [|fuel IH]; intros st lo Hfuel Hst Hlo.
  - exfalso. assert (lo / 262144 ≤ hi / 262144) by (apply Z.div_le_mono; lia). lia.
  - cbn [frames_mark_loop]. destruct (Z.ltb_spec lo hi) as [Hlt|Hge].
    + rewrite !shiftl18, !shiftr18. set (si := lo / 262144) in *.
      set (e := if hi <? (si + 1) * 262144 then hi else (si + 1) * 262144).
      assert (He : lo < e ≤ hi ∧ e ≤ (si + 1) * 262144 ∧ (e < hi → e / 262144 = si + 1)).
      { unfold e, si. destruct (Z.ltb_spec hi ((lo / 262144 + 1) * 262144));
          Z.to_euclidean_division_equations; lia. }
      assert (Hsi : 0 ≤ si ∧ si * 262144 ≤ lo) by (unfold si; Z.to_euclidean_division_equations; lia).
      assert (Hm := frames_mark_sec_spec st si (lo - si * 262144) (e - si * 262144) set Hst
        ltac:(lia) ltac:(lia) ltac:(unfold PMM_SECTION_FRAMES; lia)).
      replace (si * 262144 + (lo - si * 262144)) with lo in Hm by lia.
      replace (si * 262144 + (e - si * 262144)) with e in Hm by lia.
      destruct (decide (e < hi)) as [Hlt'|Hge'].
      * eapply marked_compose; [|exact Hm|apply IH; [lia|apply Hm|lia]]. lia.
      * replace e with hi in Hm |- * by lia.
        destruct fuel; cbn [frames_mark_loop]; [done|]. by rewrite Z.ltb_irrefl.
    + split; [done|]. split; [done|]. intros f Hf. unfold in_range.
      destruct (Z.leb_spec lo f), (Z.ltb_spec f hi); (done || lia).
Qed.

(** *** One frame *)

(** The reference-count bookkeeping of section [si]. *)
Definition refs_of (st : pmm) (si : Z) : option (list Z * list Z) :=
  match (g_sec st).[si] with
  | Some s => Some (sec_refs s, sec_refs_used s)
  | None => None
  end.

(** Only frame states, free counts and scan hints differ. *)
Record frames_only (st st' : pmm) : Prop := {
  fo_map : g_map st' = g_map st;
  fo_nsec : g_nsec st' = g_nsec st;
  fo_sectioned : g_sectioned st' = g_sectioned st;
  fo_refs : ∀ si, 0 ≤ si → refs_of st' si = refs_of st si;
  fo_ref_chunks : g_ref_chunks st' = g_ref_chunks st;
  fo_chunks : g_chunks st' = g_chunks st;
  fo_managed : g_managed_frames st' = g_managed_frames st
}.

(** The [n] frames from [f] on were free and are now in use; no other frame
    changed. *)
Definition claimed (st st' : pmm) (f n : Z) : Prop :=
  marked st st' f (f + n) true ∧ frames_only st st' ∧
  ∀ g, f ≤ g < f + n → frame_free st g = true.

Lemma frames_only_refl st : frames_only st st.
Proof. by constructor. Qed.
Lemma frames_only_trans st1 st2 st3 :
  frames_only st1 st2 → frames_only st2 st3 → frames_only st1 st3.
Proof. intros [] []. constructor; try congruence. intros. by etrans; [apply fo_refs1|apply fo_refs0]. Qed.
#[export] Hint Resolve frames_only_refl : secos.

Lemma refs_of_put st si s s' x sj :
  pmm_wf st → 0 ≤ si < g_nsec st → (g_sec st).[si] = Some s →
  sec_refs s' = sec_refs s → sec_refs_used s' = sec_refs_used s → 0 ≤ sj →
  refs_of (set_free_frames (put_sec st si s') x) sj = refs_of st sj.
Proof.
  intros Hst Hsi Hsec H1 H2 Hsj. unfold refs_of. simpl.
  rewrite aget_aset by (rewrite <- ?(pw_nsec st Hst); lia).
  destruct (Z.eqb_spec si sj) as [->|]; [|done]. by rewrite Hsec, H1, H2.
Qed.

Lemma put_sec_same st si s :
  pmm_wf st → 0 ≤ si < g_nsec st → (g_sec st).[si] = Some s → put_sec st si s = st.
Proof.
  intros Hst Hsi Hsec. unfold put_sec, set_sec. rewrite <- Hsec.
  rewrite aset_same by (rewrite <- (pw_nsec st Hst); lia). by destruct st.
Qed.

Lemma frames_mark_sec_only st si lo hi set :
  pmm_wf st → 0 ≤ si → 0 ≤ lo ≤ hi → hi ≤ PMM_SECTION_FRAMES →
  frames_only st (frames_mark_sec st si lo hi set).
Proof.
  intros Hst Hsi Hlo Hhi. unfold frames_mark_sec.
  destruct (Z.ltb_spec si (g_nsec st)) as [Hlt|]; [|apply frames_only_refl].
  destruct ((g_sec st).[si]) as [s|] eqn:Hs; [|apply frames_only_refl].
  destruct (sec_mark s lo hi set) as [s' c] eqn:Em.
  pose proof (pw_sec st Hst si s ltac:(lia) Hs) as Hinv.
  destruct (sec_mark_spec _ _ _ _ _ _ Hinv Hlo Hhi Em) as (_ & (_ & Hr & Hu) & _).
  constructor; try done. intros. eapply refs_of_put; (done || lia).
Qed.

Lemma frames_mark_only st lo hi set :
  pmm_wf st → 0 ≤ lo ≤ hi → frames_only st (frames_mark st lo hi set).
Proof.
  unfold frames_mark. generalize (Z.to_nat (hi / PMM_SECTION_FRAMES - lo / PMM_SECTION_FRAMES + 1)) as fuel.
  intros fuel. revert st lo. induction fuel as [|fuel IH]; intros st lo Hst Hlo; cbn [frames_mark_loop];
    [apply frames_only_refl|].
  destruct (Z.ltb_spec lo hi) as [Hlt|]; [|apply frames_only_refl].
  rewrite !shiftl18, !shiftr18. set (si := lo / 262144).
  set (e := if hi <? (si + 1) * 262144 then hi else (si + 1) * 262144).
  assert (He : lo < e ≤ hi ∧ e ≤ (si + 1) * 262144 ∧ 0 ≤ si ∧ si * 262144 ≤ lo).
  { unfold e, si. destruct (Z.ltb_spec hi ((lo / 262144 + 1) * 262144));
      Z.to_euclidean_division_equations; lia. }
  assert (Hr : 0 ≤ lo - si * 262144 ≤ e - si * 262144 ∧ e - si * 262144 ≤ PMM_SECTION_FRAMES)
    by (unfold PMM_SECTION_FRAMES; lia).
  eapply frames_only_trans; [|apply IH; [|lia]].
  - apply frames_mark_sec_only; (done || lia).
  - apply frames_mark_sec_spec; (done || lia).
Qed.

(** [sec_find] writes nothing but the hint. *)
Lemma sec_find_hint s max s' r :
  sec_find s max = (s', r) →
  (r = None → s' = s) ∧ sec_refs s' = sec_refs s ∧ sec_refs_used s' = sec_refs_used s.
Proof.
  unfold sec_find. destruct (_ =? 0); [by intros [= <- <-]|].
  destruct (sec_scan _ s max _ _) as [[w f]|]; [by intros [= <- <-]|].
  destruct (sec_scan _ s max 0 _) as [[w f]|]; by intros [= <- <-].
Qed.

(** Hints are outside of what the invariant and the frame states depend on. *)
Lemma hint_put_ok st h x :
  0 ≤ x → (pmm_wf st → pmm_wf (hint_put st h x)) ∧
  (∀ f, frame_free (hint_put st h x) f = frame_free st f) ∧
  (∀ f, has_section (hint_put st h x) f = has_section st f) ∧ frames_only st (hint_put st h x).
Proof.
  intros Hx. destruct h; split_and!; try done; intros [? ? ? ? []]; by constructor.
Qed.

Lemma claimed_hint st st' h x f n : 0 ≤ x → claimed st st' f n → claimed st (hint_put st' h x) f n.
Proof.
  intros Hx ((Hwf & Hs & Hf) & Ho & Hc). destruct (hint_put_ok st' h x Hx) as (H1 & H2 & H3 & H4).
  split_and!; [|by eapply frames_only_trans|done].
  split; [by apply H1|]. split; intros; rewrite ?H3, ?H2; auto.
Qed.

(** Marking a free run of a section used claims it. *)
Lemma claim_section st si s s0 lo n s1 c :
  pmm_wf st → 0 ≤ si < g_nsec st → (g_sec st).[si] = Some s →
  sec_inv s0 → same_frames s s0 → sec_refs s0 = sec_refs s → sec_refs_used s0 = sec_refs_used s →
  0 ≤ lo → 0 ≤ n → lo + n ≤ PMM_SECTION_FRAMES →
  (∀ f, lo ≤ f < lo + n → frame_used s f = false) →
  sec_mark s0 lo (lo + n) true = (s1, c) →
  claimed st (set_free_frames (put_sec st si s1) (u64 (g_free_frames st - n))) (si * 262144 + lo) n.
Proof.
  intros Hst Hsi Hsec Hinv0 Hsame Hr1 Hr2 Hlo Hn Hmax Hfree Hm.
  destruct (sec_mark_spec s0 lo (lo + n) true s1 c Hinv0 ltac:(lia) Hmax Hm)
    as (Hinv1 & (_ & Hm1 & Hm2) & _ & Hc).
  rewrite to_change_all in Hc by (try lia; intros; rewrite (same_frames_used s s0); auto).
  replace (lo + n - lo) with n in Hc by lia. subst c.
  destruct (mark_section st si s s0 lo (lo + n) true s1 n s1) as [Hwf Hff]; try done; [lia|].
  assert (Hsect : ∀ f, si * 262144 + lo ≤ f < si * 262144 + lo + n → sec_of st f = Some s).
  { intros f Hf. unfold sec_of. rewrite shiftr18. unfold PMM_SECTION_FRAMES in *.
    replace (f / 262144) with si by (Z.to_euclidean_division_equations; lia).
    by destruct (Z.ltb_spec si (g_nsec st)); [|lia]. }
  split_and!.
  - split; [done|]. split; [intros; by eapply has_section_put|].
    intros f Hf. rewrite Hff by done. by rewrite <- Z.add_assoc.
  - constructor; try done. intros. eapply refs_of_put; (done || congruence).
  - intros g Hg. rewrite (frame_free_sec st g s) by auto. rewrite Hfree; [done|].
    unfold PMM_SECTION_FRAMES in *. Z.to_euclidean_division_equations; lia.
Qed.

(** The section the [k]-th iteration of [alloc_in] looks at. *)
Definition rolled (h k s_lo s_hi : Z) : Z :=
  if s_hi <=? h + k then h + k - (s_hi - s_lo) else h + k.

Section alloc_in.
Context (s_lo s_hi h f_max : Z) (hint : hint_ptr).
Hypothesis Hlo : 0 ≤ s_lo ≤ h.
Hypothesis Hhi : h < s_hi.

(** No frame of section [si] below [f_max] is free. *)
Definition sec_exhausted (st : pmm) (si : Z) : Prop :=
  ∀ f, 0 ≤ f < f_max → f / 262144 = si → frame_free st f = false.

Lemma sec_of_at st f si :
  f / 262144 = si → 0 ≤ si < g_nsec st → sec_of st f = (g_sec st).[si].
Proof.
  intros <- Hsi. unfold sec_of. rewrite shiftr18.
  by destruct (Z.ltb_spec (f / 262144) (g_nsec st)); [|lia].
Qed.

Lemma sec_exhausted_none st si :
  0 ≤ si < g_nsec st → (g_sec st).[si] = None → sec_exhausted st si.
Proof.
  intros Hsi Hs f Hf Hfs. unfold frame_free. by rewrite (sec_of_at st f si), Hs.
Qed.

Lemma sec_exhausted_full st si s max :
  pmm_wf st → 0 ≤ si < g_nsec st → (g_sec st).[si] = Some s →
  f_max - si * 262144 ≤ max ∨ max = 262144 →
  (∀ f, 0 ≤ f < max → frame_used s f = true) → sec_exhausted st si.
Proof.
  intros Hst Hsi Hs Hmax Hu f Hf Hfs. rewrite (frame_free_sec st f s) by (by rewrite (sec_of_at st f si)).
  rewrite Hu; [done|]. Z.to_euclidean_division_equations; lia.
Qed.

(** The frame found and what claiming it did to the state. *)
Definition alloc_found (st st' : pmm) (f : Z) : Prop :=
  claimed st st' f 1 ∧ s_lo * 262144 ≤ f < s_hi * 262144 ∧ f < f_max.

Lemma alloc_in_loop_spec n st k st' r :
  pmm_wf st → s_hi ≤ g_nsec st → 0 ≤ k → k + Z.of_nat n ≤ s_hi - s_lo →
  alloc_in_loop n st k h s_lo s_hi f_max hint = (st', r) →
  match r with
  | Some f => alloc_found st st' f
  | None => st' = st ∧ ∀ j, k ≤ j < k + Z.of_nat n → sec_exhausted st (rolled h j s_lo s_hi)
  end.
Proof.
  intros Hst Hns. revert k. induction n as [|n IH]; intros k Hk Hkn; cbn [alloc_in_loop].
  { intros [= <- <-]. split; [done|]. lia. }
  fold (rolled h k s_lo s_hi). set (si := rolled h k s_lo s_hi).
  assert (Hsi : s_lo ≤ si < s_hi).
  { unfold si, rolled. destruct (Z.leb_spec s_hi (h + k)); lia. }
  assert (Hskip : sec_exhausted st si →
    alloc_in_loop n st (k + 1) h s_lo s_hi f_max hint = (st', r) →
    match r with
    | Some f => alloc_found st st' f
    | None => st' = st ∧ ∀ j, k ≤ j < k + Z.of_nat (S n) → sec_exhausted st (rolled h j s_lo s_hi)
    end).
  { intros Hex Hloop. apply IH in Hloop; [|lia..]. destruct r; [done|].
    destruct Hloop as [-> Hj]. split; [done|]. intros j Hjk.
    destruct (decide (j = k)) as [->|]; [done|]. apply Hj. lia. }
  destruct ((g_sec st).[si]) as [s|] eqn:Hs; [|apply Hskip, sec_exhausted_none; (done || lia)].
  assert (Hinv : sec_inv s) by (apply (pw_sec st Hst si); (done || lia)).
  destruct (Z.eqb_spec (sec_free s) 0) as [Hz|Hz].
  { apply Hskip. apply (sec_exhausted_full st si s 262144); (done || lia || auto).
    pose proof (sec_find_spec s 262144 Hinv) as Hfs. unfold sec_find in Hfs.
    rewrite Hz in Hfs. simpl in Hfs. apply Hfs. unfold PMM_SECTION_FRAMES. lia. }
  rewrite shiftl18. destruct (Z.leb_spec f_max (si * 262144)) as [Hle|Hgt].
  { apply Hskip. intros f Hf Hfs. exfalso. Z.to_euclidean_division_equations; lia. }
  set (max := if _ <? _ then _ else _).
  assert (Hmax : 0 ≤ max ≤ PMM_SECTION_FRAMES ∧ max ≤ f_max - si * 262144 ∧
                 (f_max - si * 262144 ≤ max ∨ max = 262144)).
  { unfold max, PMM_SECTION_FRAMES. destruct (Z.ltb_spec (f_max - si * 262144) 262144); lia. }
  pose proof (sec_find_spec s max Hinv ltac:(lia)) as Hfind.
  destruct (sec_find s max) as [s1 [f|]] eqn:Ef; destruct (sec_find_hint _ _ _ _ Ef) as (Hh1 & Hh2 & Hh3).
  - destruct Hfind as (Hinv1 & Hb1 & Hf1 & Hfm & Hfu).
    destruct (sec_mark s1 f (f + 1) true) as [s2 c] eqn:Em. intros [= <- <-].
    unfold PMM_SECTION_FRAMES in Hmax. split; [|lia]. apply claimed_hint; [lia|].
    eapply (claim_section st si s s1 f 1); try done; unfold PMM_SECTION_FRAMES; try lia.
    intros g Hg. by replace g with f by lia.
  - destruct Hfind as (_ & _ & _ & Hu). rewrite (Hh1 eq_refl), put_sec_same by (done || lia).
    apply Hskip. apply (sec_exhausted_full st si s max); (done || lia).
Qed.
End alloc_in.

Lemma alloc_in_spec st s_lo s_hi f_max hint st' r :
  pmm_wf st → 0 ≤ s_lo → 0 ≤ f_max → alloc_in st s_lo s_hi f_max hint = (st', r) →
  match r with
  | Some f => claimed st st' f 1 ∧ s_lo * 262144 ≤ f < s_hi * 262144 ∧ f < f_max
  | None => st' = st ∧ ∀ f, s_lo * 262144 ≤ f < s_hi * 262144 → f < f_max → frame_free st f = false
  end.
Proof.
  intros Hst Hlo Hmax. unfold alloc_in.
  set (s_hi' := if g_nsec st <? s_hi then g_nsec st else s_hi).
  assert (Hhi : s_hi' = Z.min (g_nsec st) s_hi)
    by (unfold s_hi'; destruct (Z.ltb_spec (g_nsec st) s_hi); lia).
  assert (Hout : ∀ f, s_hi' * 262144 ≤ f < s_hi * 262144 → frame_free st f = false).
  { intros f Hf. unfold frame_free, sec_of. rewrite shiftr18.
    destruct (Z.ltb_spec (f / 262144) (g_nsec st)); [|done].
    exfalso. Z.to_euclidean_division_equations; lia. }
  destruct (Z.leb_spec s_hi' s_lo) as [Hle|Hgt].
  { intros [= <- <-]. split; [done|]. intros f Hf _. apply Hout. lia. }
  set (h := match hint_get st hint with Some _ => _ | None => s_lo end).
  assert (Hh : s_lo ≤ h < s_hi').
  { unfold h. destruct (hint_get st hint) as [x|]; [|lia].
    destruct ((s_lo <=? x) && (x <? s_hi')) eqn:E; zbool; lia. }
  intros Hloop. apply alloc_in_loop_spec in Hloop; [|lia..|done|lia|lia|lia].
  destruct r as [f|]; [destruct Hloop as (Hc & Hr & Hm); split_and!; (done || lia)|].
  destruct Hloop as [-> Hex]. split; [done|]. intros f Hf Hfm.
  destruct (decide (s_hi' * 262144 ≤ f)); [apply Hout; lia|].
  assert (Hfs : s_lo ≤ f / 262144 < s_hi') by (Z.to_euclidean_division_equations; lia).
  set (j := if h <=? f / 262144 then f / 262144 - h else f / 262144 - h + (s_hi' - s_lo)).
  assert (Hj : 0 ≤ j < s_hi' - s_lo ∧ rolled h j s_lo s_hi' = f / 262144).
  { unfold j, rolled. destruct (Z.leb_spec h (f / 262144)); split; try lia;
      match goal with |- context [if ?b then _ else _] => destruct b eqn:E end; zbool; lia. }
  apply (Hex j ltac:(lia) f); lia.
Qed.

(** Allocation limits the callers use: an address up to [2^60], or [~0] for
    no limit. *)
Definition limit_ok (limit : Z) : Prop := 0 ≤ limit ≤ 2 ^ 60 ∨ limit = ALL_ONES.

Lemma sec_count_below_ceil limit : 0 ≤ limit ≤ 2 ^ 63 → sec_count_below limit = (limit + 1073741823) / 1073741824.
Proof.
  intros Hl. unfold sec_count_below, PMM_SECTION_BYTES. rewrite u64_small by (unfold_uint; lia).
  rewrite Z.shiftr_div_pow2 by lia. f_equal; lia.
Qed.

Lemma frame_free_bound st f : pmm_wf st → 0 ≤ f → frame_free st f = true → f < 2 ^ 48.
Proof.
  intros Hst Hf Hfree. pose proof (pw_bound st Hst) as Hb. unfold MAX_SECTIONS in Hb.
  apply frame_free_has_section in Hfree. unfold has_section, sec_of in Hfree.
  rewrite shiftr18 in Hfree.
  destruct (Z.ltb_spec (f / 262144) (g_nsec st)); [|done]. Z.to_euclidean_division_equations; lia.
Qed.

(** *** Zones *)

(** [n] consecutive free frames. *)
Definition run_free (st : pmm) (f n : Z) : Prop := ∀ g, f ≤ g < f + n → frame_free st g = true.

(** The run lies in the frames [[lo, hi)] and inside one section. *)
Definition fits (lo hi n f : Z) : Prop :=
  lo ≤ f ∧ f + n ≤ hi ∧ f / 262144 = (f + n - 1) / 262144.

(** A search of the frames [[lo, hi)] for a run of [n] free ones: the run is
    claimed, or there is none and nothing changed. *)
Definition searched (st st' : pmm) (lo hi n : Z) (r : option Z) : Prop :=
  match r with
  | Some f => claimed st st' f n ∧ fits lo hi n f
  | None => st' = st ∧ ∀ f, fits lo hi n f → ¬ run_free st f n
  end.

(** The frame number that stands for [limit]: no frame above [2^48] exists. *)
Definition limit_frames (limit : Z) : Z := if limit =? ALL_ONES then 2 ^ 48 else limit / 4096.

(** What an allocation of [n] frames below [limit] guarantees: the block is
    page aligned, below the limit, was free and is now in use; it comes from
    below 4 GiB only when no run above is left; it fails only when no zone has
    one. *)
Definition zoned_alloc (st st' : pmm) (n limit p : Z) : Prop :=
  (0 < p ∧ (4096 | p) ∧ p + n * 4096 ≤ limit ∧ claimed st st' (p / 4096) n ∧
   (p < PMM_DMA32_LIMIT → ∀ f, fits 1048576 (limit_frames limit) n f → ¬ run_free st f n)) ∨
  (p = 0 ∧ st' = st ∧
   (∀ f, fits 1048576 (limit_frames limit) n f → ¬ run_free st f n) ∧
   (∀ f, fits 0 (Z.min 1048576 (limit_frames limit)) n f → ¬ run_free st f n)).

Lemma claimed_nonzero st st' f n :
  frame_free st 0 = false → 0 < n → 0 ≤ f → claimed st st' f n → 0 < f.
Proof.
  intros H0 Hn Hf (_ & _ & Hc). destruct (decide (f = 0)) as [->|]; [|lia].
  rewrite (Hc 0) in H0 by lia. done.
Qed.

Lemma limit_frames_le limit f n :
  limit_ok limit → f + n ≤ limit_frames limit → f * 4096 + n * 4096 ≤ limit.
Proof.
  unfold limit_ok, limit_frames, ALL_ONES. intros Hl.
  destruct (Z.eqb_spec limit 18446744073709551615); Z.to_euclidean_division_equations; lia.
Qed.

(** The result of the two searches as the callers see it. *)
Lemma zoned_result st st1 st2 n limit r1 r2 :
  pmm_wf st → frame_free st 0 = false → limit_ok limit → 0 < n →
  searched st st1 1048576 (limit_frames limit) n r1 →
  (r1 = None → searched st st2 0 (Z.min 1048576 (limit_frames limit)) n r2) →
  match r1, r2 with
  | Some f, _ => zoned_alloc st st1 n limit (u64 (f * 4096))
  | None, Some f => zoned_alloc st st2 n limit (u64 (f * 4096))
  | None, None => zoned_alloc st st2 n limit 0
  end.
Proof.
  intros Hst H0 Hl Hn Hs1 Hs2.
  assert (Hok : ∀ f st', 0 ≤ f → f + n ≤ limit_frames limit → claimed st st' f n →
    u64 (f * 4096) = f * 4096 ∧ 0 < f * 4096 ∧ (4096 | f * 4096) ∧
    f * 4096 + n * 4096 ≤ limit ∧ claimed st st' (f * 4096 / 4096) n).
  { intros f st' Hf Hfl Hc. pose proof (claimed_nonzero _ _ _ _ H0 Hn Hf Hc).
    assert (f < 2 ^ 48) by (apply (frame_free_bound st); [done..|apply Hc; lia]).
    rewrite Z.div_mul, u64_small by (unfold_uint; lia).
    split_and!; try done; [lia | apply Z.divide_factor_r | by apply limit_frames_le]. }
  destruct r1 as [f|].
  - destruct Hs1 as [Hc (H1 & H2 & H3)].
    destruct (Hok f st1 ltac:(lia) H2 Hc) as (-> & ? & ? & ? & ?). left. split_and!; try done.
    unfold PMM_DMA32_LIMIT. lia.
  - destruct Hs1 as [-> Hno]. specialize (Hs2 eq_refl). destruct r2 as [f|].
    + destruct Hs2 as [Hc (H1 & H2 & H3)].
      destruct (Hok f st2 ltac:(lia) ltac:(lia) Hc) as (-> & ? & ? & ? & ?). left. by split_and!.
    + destruct Hs2 as [-> Hno2]. right. by split_and!.
Qed.

Lemma alloc_in_searched st s_lo s_hi f_max hint st' r hi :
  pmm_wf st → 0 ≤ s_lo → 0 ≤ f_max → alloc_in st s_lo s_hi f_max hint = (st', r) →
  (∀ f, 0 ≤ f < 2 ^ 48 → f < hi ↔ f < s_hi * 262144 ∧ f < f_max) →
  searched st st' (s_lo * 262144) hi 1 r.
Proof.
  intros Hst Hlo Hm E Hhi. apply alloc_in_spec in E; [|done..]. destruct r as [f|].
  - destruct E as (Hc & Hr & Hf). split; [done|]. split_and!; [lia| |f_equal; lia].
    assert (f < 2 ^ 48) by (apply (frame_free_bound st); [done|lia|apply Hc; lia]).
    assert (f < hi) by (apply Hhi; lia). lia.
  - destruct E as [-> He]. split; [done|]. intros f (H1 & H2 & _) Hrun.
    specialize (Hrun f ltac:(lia)).
    assert (f < 2 ^ 48) by (apply (frame_free_bound st); (done || lia)).
    rewrite He in Hrun; [done| |]; destruct (Hhi f); lia.
Qed.

Lemma alloc_frame_spec st limit st' p :
  pmm_wf st → g_sectioned st = true → frame_free st 0 = false → limit_ok limit →
  alloc_frame_nolock_below st limit = (st', p) → zoned_alloc st st' 1 limit p.
Proof.
  intros Hst Hsec H0 Hlim. unfold alloc_frame_nolock_below. rewrite Hsec. cbn [negb].
  unfold PMM_FRAME_SIZE. change (Z.shiftr PMM_DMA32_LIMIT 30) with 4.
  destruct (if PMM_DMA32_LIMIT <? limit then _ else _) as [st1 r1] eqn:E1.
  assert (Hs1 : searched st st1 1048576 (limit_frames limit) 1 r1).
  { unfold PMM_DMA32_LIMIT in E1. destruct (Z.ltb_spec 4294967296 limit) as [Hgt|Hle].
    - change 1048576 with (4 * 262144). eapply alloc_in_searched; [done|lia| |exact E1|].
      + destruct (limit =? ALL_ONES); [done|]. apply Z.div_pos; lia.
      + intros f Hf. unfold limit_ok, limit_frames, ALL_ONES in *.
        destruct (Z.eqb_spec limit 18446744073709551615).
        * change (sec_count_below _) with 8589934592. lia.
        * rewrite sec_count_below_ceil by lia. Z.to_euclidean_division_equations; lia.
    - injection E1 as <- <-. split; [done|]. unfold fits, limit_frames, limit_ok, ALL_ONES in *.
      destruct (Z.eqb_spec limit 18446744073709551615); Z.to_euclidean_division_equations; lia. }
  destruct r1 as [f|].
  - intros [= <- <-]. by apply (zoned_result st st1 st1 1 limit (Some f) None).
  - set (lim := if limit <? PMM_DMA32_LIMIT then limit else PMM_DMA32_LIMIT).
    assert (Hlim' : 0 ≤ lim ≤ 4294967296 ∧ lim / 4096 = Z.min 1048576 (limit_frames limit)).
    { unfold lim, PMM_DMA32_LIMIT, limit_frames, limit_ok, ALL_ONES in *.
      destruct (Z.ltb_spec limit 4294967296), (Z.eqb_spec limit 18446744073709551615);
        Z.to_euclidean_division_equations; lia. }
    destruct Hs1 as [-> Hno].
    destruct (alloc_in st 0 _ _ _) as [st2 r2] eqn:E2. intros E.
    pose proof (zoned_result st st st2 1 limit None r2 Hst H0 Hlim ltac:(lia) (conj eq_refl Hno)) as Hz.
    assert (Hs2 : searched st st2 0 (Z.min 1048576 (limit_frames limit)) 1 r2).
    { change 0 with (0 * 262144). eapply alloc_in_searched; [done|lia| |exact E2|].
      - apply Z.div_pos; lia.
      - intros f Hf. rewrite sec_count_below_ceil by lia.
        destruct Hlim' as [? <-]. Z.to_euclidean_division_equations; lia. }
    specialize (Hz (λ _, Hs2)). destruct r2; injection E as <- <-; done.
Qed.

(** *** Contiguous runs *)

Section run_scan.
Context (s : pmm_section) (max count : Z).
Hypothesis Hcount : 0 < count.

(** [count] free frames of the section from [r] on. *)
Definition sec_run (r : Z) : Prop :=
  0 ≤ r ∧ r + count ≤ max ∧ ∀ g, r ≤ g < r + count → frame_used s g = false.

(** The state of the scan at [f]: the [run] frames before it are free, and
    every sufficient run starts in or after them. *)
Record scan_at (f run run_start : Z) : Prop := {
  sa_f : 0 ≤ f;
  sa_run : 0 ≤ run < count;
  sa_start : 0 < run → run_start = f - run;
  sa_le : run ≤ f;
  sa_free : ∀ g, f - run ≤ g < f → frame_used s g = false;
  sa_min : ∀ r, sec_run r → f - run ≤ r
}.

Lemma scan_used f run run_start n :
  scan_at f run run_start → 0 < n → (∀ g, f ≤ g < f + n → frame_used s g = true) →
  scan_at (f + n) 0 run_start.
Proof.
  intros [H1 H2 H3 H4 H5 H6] Hn Hu. constructor; try lia. intros r Hr. pose proof (H6 r Hr).
  destruct Hr as (Hr0 & Hr1 & Hr2). destruct (decide (f + n ≤ r)); [lia|]. exfalso.
  destruct (decide (f ≤ r)).
  - specialize (Hr2 r ltac:(lia)). by rewrite Hu in Hr2 by lia.
  - specialize (Hr2 f ltac:(lia)). by rewrite Hu in Hr2 by lia.
Qed.

Lemma scan_free f run run_start n :
  scan_at f run run_start → 0 < n → f + n ≤ max →
  (∀ g, f ≤ g < f + n → frame_used s g = false) →
  let start := if run =? 0 then f else run_start in
  if count <=? run + n then sec_run start else scan_at (f + n) (run + n) start.
Proof.
  intros [H1 H2 H3 H4 H5 H6] Hn Hm Hu start.
  assert (Hs : start = f - run) by (unfold start; destruct (Z.eqb_spec run 0); lia).
  assert (Hall : ∀ g, f - run ≤ g < f + n → frame_used s g = false).
  { intros g Hg. destruct (decide (g < f)); [apply H5 | apply Hu]; lia. }
  destruct (Z.leb_spec count (run + n)).
  - split_and!; [lia..|]. intros g Hg. apply Hall. lia.
  - constructor; try lia; [intros; apply Hall; lia|]. intros r Hr. specialize (H6 r Hr). lia.
Qed.

(** The frames of one bitmap word. *)
Lemma word_frames f g :
  0 ≤ f → f mod 64 = 0 → f ≤ g < f + 64 →
  frame_used s g = Z.testbit (sec_bitmap s).[Z.shiftr f 6] (g - f).
Proof.
  intros Hf Hm Hg. unfold frame_used. rewrite !shiftr6, land63.
  f_equal; [f_equal|]; Z.to_euclidean_division_equations; lia.
Qed.

Lemma run_scan_spec fuel f run run_start :
  scan_at f run run_start → max - f ≤ Z.of_nat fuel →
  match run_scan fuel s max count f run run_start with
  | Some r => sec_run r
  | None => ∀ r, ¬ sec_run r
  end.
Proof.
  revert f run run_start. induction fuel as [|fuel IH]; intros f run run_start Hat Hfuel;
    cbn [run_scan].
  { intros r Hr. pose proof (sa_min _ _ _ Hat r Hr). pose proof (sa_run _ _ _ Hat).
    destruct Hr. lia. }
  destruct (Z.ltb_spec f max) as [Hlt|Hge].
  2: { intros r Hr. pose proof (sa_min _ _ _ Hat r Hr). pose proof (sa_run _ _ _ Hat).
       destruct Hr. lia. }
  pose proof (sa_f _ _ _ Hat) as Hf0. set (word := (sec_bitmap s).[Z.shiftr f 6]).
  assert (Hbit : match (if Z.land word (Z.shiftl 1 (Z.land f 63)) =? 0 then
      let start := if run =? 0 then f else run_start in
      if count <=? run + 1 then Some start else run_scan fuel s max count (f + 1) (run + 1) start
    else run_scan fuel s max count (f + 1) 0 run_start) with
    | Some r => sec_run r
    | None => ∀ r, ¬ sec_run r
    end).
  { rewrite land_shiftl1 by apply bit_range.
    change (Z.testbit word (Z.land f 63)) with (frame_used s f).
    destruct (frame_used s f) eqn:Eu; cbn [negb].
    - apply IH; [|lia]. apply (scan_used f run); [done|lia|]. intros g Hg. by replace g with f by lia.
    - pose proof (scan_free f run run_start 1 Hat ltac:(lia) ltac:(lia)) as Hs.
      specialize (Hs ltac:(intros g Hg; by replace g with f by lia)). cbv zeta in Hs |- *.
      destruct (count <=? run + 1); [done|]. apply IH; [done|lia]. }
  destruct ((Z.land f 63 =? 0) && (f + 64 <=? max)) eqn:Ew; zbool; cbn [andb].
  - assert (Hmod : f mod 64 = 0) by (rewrite <- land63; lia).
    destruct (Z.eqb_spec word ALL_ONES) as [Hw|Hw].
    { apply IH; [|lia]. apply (scan_used f run); [done|lia|]. intros g Hg.
      rewrite (word_frames f) by done. fold word. rewrite Hw, ALL_ONES_testbit by lia. lia. }
    destruct (Z.eqb_spec word 0) as [Hz|Hz].
    { pose proof (scan_free f run run_start 64 Hat ltac:(lia) ltac:(lia)) as Hs.
      specialize (Hs ltac:(intros g Hg; rewrite (word_frames f) by done; fold word;
        by rewrite Hz, Z.bits_0)). cbv zeta in Hs.
      destruct (count <=? run + 64); [done|]. apply IH; [done|lia]. }
    exact Hbit.
  - exact Hbit.
Qed.
End run_scan.

Lemma sec_run_count s max count r :
  sec_inv s → max ≤ 262144 → 0 < count → sec_run s max count r → count ≤ sec_free s.
Proof.
  intros Hs Hmax Hc (H0 & H1 & H2). destruct (sec_mark s r (r + count) true) as [s' c] eqn:E.
  assert (Hb : r + count ≤ PMM_SECTION_FRAMES) by (unfold PMM_SECTION_FRAMES; lia).
  pose proof (sec_mark_free s r (r + count) true s' c Hs ltac:(lia) Hb E) as Hf.
  destruct (sec_mark_spec s r (r + count) true s' c Hs ltac:(lia) Hb E) as ([_ Hs'] & _ & _ & Hcc).
  rewrite to_change_all in Hcc by (lia || auto). pose proof (free_count_range s'). cbn iota in Hf. lia.
Qed.

(** A free run inside section [si], seen from the section. *)
Lemma run_in_section st si s f_max f n :
  pmm_wf st → 0 ≤ si < g_nsec st → (g_sec st).[si] = Some s → 0 < n →
  fits (si * 262144) (Z.min f_max ((si + 1) * 262144)) n f → run_free st f n →
  sec_run s (Z.min (f_max - si * 262144) 262144) n (f - si * 262144).
Proof.
  intros Hst Hsi Hs Hn (H1 & H2 & H3) Hrun. split_and!; [lia..|]. intros g Hg.
  specialize (Hrun (si * 262144 + g) ltac:(lia)).
  assert (Hd : (si * 262144 + g) / 262144 = si) by (Z.to_euclidean_division_equations; lia).
  rewrite (frame_free_sec st _ s) in Hrun by (by rewrite (sec_of_at _ _ si)).
  replace ((si * 262144 + g) mod 262144) with g in Hrun by (Z.to_euclidean_division_equations; lia).
  by apply negb_true_iff in Hrun.
Qed.

Lemma run_in_loop_spec n st si f_max count st' r :
  pmm_wf st → 0 ≤ si → si + Z.of_nat n ≤ g_nsec st → 0 < count →
  run_in_loop n st si f_max count = (st', r) →
  searched st st' (si * 262144) (Z.min f_max ((si + Z.of_nat n) * 262144)) count r.
Proof.
  intros Hst Hsi Hn Hc. revert si Hsi Hn. induction n as [|n IH]; intros si Hsi Hn; cbn [run_in_loop].
  { intros [= <- <-]. split; [done|]. intros f (H1 & H2 & _). lia. }
  set (hi := Z.min f_max ((si + Z.of_nat (S n)) * 262144)).
  assert (Hskip : (∀ f, fits (si * 262144) (Z.min f_max ((si + 1) * 262144)) count f →
                    ¬ run_free st f count) →
    run_in_loop n st (si + 1) f_max count = (st', r) → searched st st' (si * 262144) hi count r).
  { intros Hno Hl. apply IH in Hl; [|lia..].
    replace ((si + 1 + Z.of_nat n) * 262144) with ((si + Z.of_nat (S n)) * 262144) in Hl by lia.
    fold hi in Hl. destruct r as [f|].
    - destruct Hl as (Hcl & H1 & H2). split; [done|]. unfold fits in *. lia.
    - destruct Hl as [-> Hl]. split; [done|]. intros f (H1 & H2 & H3).
      destruct (decide ((si + 1) * 262144 ≤ f)); [apply Hl; by split_and!|].
      apply Hno. split_and!; [done| |done]. Z.to_euclidean_division_equations; lia. }
  destruct ((g_sec st).[si]) as [s|] eqn:Hs.
  2: { apply Hskip. intros f (H1 & H2 & H3) Hrun. specialize (Hrun f ltac:(lia)).
       apply frame_free_has_section in Hrun. unfold has_section in Hrun.
       rewrite (sec_of_at st f si), Hs in Hrun by (Z.to_euclidean_division_equations; lia). done. }
  assert (Hinv : sec_inv s) by (apply (pw_sec st Hst si); (done || lia)).
  destruct (Z.ltb_spec (sec_free s) count) as [Hlt|Hge].
  { apply Hskip. intros f Hf Hrun. apply (run_in_section st si s f_max) in Hrun; try done; [|lia].
    apply sec_run_count in Hrun; (done || lia). }
  rewrite shiftl18. destruct (Z.leb_spec f_max (si * 262144)) as [Hle|Hgt].
  { intros [= <- <-]. split; [done|]. intros f (H1 & H2 & _). lia. }
  set (max := if _ <? _ then _ else _).
  assert (Hmax : max = Z.min (f_max - si * 262144) 262144).
  { unfold max, PMM_SECTION_FRAMES. destruct (Z.ltb_spec (f_max - si * 262144) 262144); lia. }
  clearbody max. subst max.
  pose proof (run_scan_spec s (Z.min (f_max - si * 262144) 262144) count
    ltac:(lia) (Z.to_nat (Z.min (f_max - si * 262144) 262144)) 0 0 0) as Hrs.
  assert (Hat : scan_at s (Z.min (f_max - si * 262144) 262144) count 0 0 0).
  { constructor; try lia. intros x [? _]. lia. }
  specialize (Hrs Hat ltac:(lia)).
  destruct (run_scan _ _ _ _ _ _ _) as [x|].
  - destruct (sec_mark s x (x + count) true) as [s' c] eqn:Em. intros [= <- <-].
    destruct Hrs as (H0 & H1 & H2). split.
    + eapply (claim_section st si s s x count); try done; unfold PMM_SECTION_FRAMES; lia.
    + unfold fits, hi. Z.to_euclidean_division_equations; lia.
  - apply Hskip. intros f Hf Hrun. eapply Hrs. eapply run_in_section; (done || lia).
Qed.

Lemma run_in_spec st s_lo s_hi f_max count st' r :
  pmm_wf st → 0 ≤ s_lo → 0 < count → run_in st s_lo s_hi f_max count = (st', r) →
  searched st st' (s_lo * 262144) (Z.min f_max (Z.min s_hi (g_nsec st) * 262144)) count r.
Proof.
  intros Hst Hlo Hc. unfold run_in. set (hi := if _ <? _ then _ else _).
  assert (Hhi : hi = Z.min s_hi (g_nsec st))
    by (unfold hi; destruct (Z.ltb_spec (g_nsec st) s_hi); lia).
  clearbody hi. subst hi. destruct (Z.le_gt_cases s_lo (Z.min s_hi (g_nsec st))).
  - intros E. apply run_in_loop_spec in E; try done; [|lia].
    by replace (s_lo + Z.of_nat _) with (Z.min s_hi (g_nsec st)) in E by lia.
  - replace (Z.to_nat _) with 0%nat by lia. intros [= <- <-]. split; [done|].
    intros f (H1 & H2 & _). lia.
Qed.

(** Frames past the last section are not free, so a bound may be enlarged. *)
Lemma searched_bound st st' lo hi hi' n r :
  pmm_wf st → 0 < n → 0 ≤ lo → hi ≤ hi' →
  (∀ f, 0 ≤ f → hi ≤ f < hi' → frame_free st f = false) →
  searched st st' lo hi n r → searched st st' lo hi' n r.
Proof.
  intros Hst Hn Hlo Hhi Hout. destruct r as [f|].
  - intros [Hc (?&?&?)]. split; [done|]. unfold fits. lia.
  - intros [-> Hno]. split; [done|]. intros f (H1 & H2 & H3) Hrun.
    destruct (decide (f + n ≤ hi)); [by apply (Hno f); [split_and!|]|].
    specialize (Hrun (f + n - 1) ltac:(lia)). rewrite Hout in Hrun by lia. done.
Qed.

Lemma frame_free_out st f : 0 ≤ f → g_nsec st * 262144 ≤ f → frame_free st f = false.
Proof.
  intros H0 Hf. unfold frame_free, sec_of. rewrite shiftr18.
  destruct (Z.ltb_spec (f / 262144) (g_nsec st)); [|done].
  exfalso. Z.to_euclidean_division_equations; lia.
Qed.

Lemma alloc_run_spec st count limit st' p :
  pmm_wf st → g_sectioned st = true → frame_free st 0 = false → limit_ok limit →
  0 < count ≤ PMM_SECTION_FRAMES →
  alloc_run_nolock_below st count limit = (st', p) → zoned_alloc st st' count limit p.
Proof.
  intros Hst Hsec H0 Hlim Hc. unfold alloc_run_nolock_below. rewrite Hsec.
  destruct (Z.eqb_spec count 0); [lia|]. destruct (Z.ltb_spec PMM_SECTION_FRAMES count); [lia|].
  cbn [negb orb]. unfold PMM_FRAME_SIZE. change (Z.shiftr PMM_DMA32_LIMIT 30) with 4.
  destruct (if PMM_DMA32_LIMIT <? limit then _ else _) as [st1 r1] eqn:E1.
  assert (Hb : g_nsec st * 262144 ≤ 2 ^ 48).
  { pose proof (pw_bound st Hst) as Hb. unfold MAX_SECTIONS in Hb. lia. }
  assert (Hs1 : searched st st1 1048576 (limit_frames limit) count r1).
  { unfold PMM_DMA32_LIMIT in E1. destruct (Z.ltb_spec 4294967296 limit) as [Hgt|Hle].
    - apply run_in_spec in E1; [|done|lia|lia]. rewrite Z.min_id in E1. change (4 * 262144) with 1048576 in E1.
      eapply searched_bound; [done|lia|lia| | |exact E1];
        unfold limit_frames, limit_ok, ALL_ONES in *;
        (destruct (Z.eqb_spec limit 18446744073709551615); [|]); try lia;
        intros f Hf Hr; apply frame_free_out; lia.
    - injection E1 as <- <-. split; [done|]. unfold fits, limit_frames, limit_ok, ALL_ONES in *.
      destruct (Z.eqb_spec limit 18446744073709551615); Z.to_euclidean_division_equations; lia. }
  destruct r1 as [f|].
  - intros [= <- <-]. apply (zoned_result st st1 st1 count limit (Some f) None); (done || lia).
  - set (lim := if limit <? PMM_DMA32_LIMIT then limit else PMM_DMA32_LIMIT).
    assert (Hlim' : 0 ≤ lim ≤ 4294967296 ∧ lim / 4096 = Z.min 1048576 (limit_frames limit)).
    { unfold lim, PMM_DMA32_LIMIT, limit_frames, limit_ok, ALL_ONES in *.
      destruct (Z.ltb_spec limit 4294967296), (Z.eqb_spec limit 18446744073709551615);
        Z.to_euclidean_division_equations; lia. }
    destruct Hs1 as [-> Hno].
    destruct (run_in st 0 _ _ _) as [st2 r2] eqn:E2. intros E.
    pose proof (zoned_result st st st2 count limit None r2 Hst H0 Hlim ltac:(lia) (conj eq_refl Hno)) as Hz.
    assert (Hs2 : searched st st2 0 (Z.min 1048576 (limit_frames limit)) count r2).
    { apply run_in_spec in E2; [|done|lia|lia].
      rewrite sec_count_below_ceil in E2 by lia. destruct Hlim' as [Hl1 <-].
      eapply searched_bound; [done|lia|lia| | |exact E2]; [lia|].
      intros f Hf Hr. apply frame_free_out; [lia|]. Z.to_euclidean_division_equations; lia. }
    specialize (Hz (λ _, Hs2)). destruct r2; injection E as <- <-; done.
Qed.

(** *** Freeing *)

Lemma set_hint_inv s x : 0 ≤ x → sec_inv s → sec_inv (set_hint s x).
Proof. intros Hx [[] Hf]. split; [by constructor | done]. Qed.

Lemma marked_refl st lo hi set :
  pmm_wf st → (∀ f, 0 ≤ f → lo ≤ f < hi → frame_free st f = negb set && has_section st f) →
  marked st st lo hi set.
Proof.
  intros Hst Hf. split_and!; try done. intros f H0. unfold in_range.
  destruct (Z.leb_spec lo f), (Z.ltb_spec f hi); simpl; try done. apply Hf; lia.
Qed.

(** Marking a single frame of the state free, with the count moved by one; the
    section may also get another scan hint [s2]. *)
Lemma unmark_frame st f s s1 c s2 :
  pmm_wf st → 0 ≤ f → sec_of st f = Some s → frame_free st f = false →
  sec_mark s (f mod 262144) (f mod 262144 + 1) false = (s1, c) →
  (s2 = s1 ∨ ∃ h, 0 ≤ h ∧ s2 = set_hint s1 h) →
  let st' := set_free_frames (put_sec st (f / 262144) s2) (u64 (g_free_frames st + 1)) in
  marked st st' f (f + 1) false ∧ frames_only st st'.
Proof.
  intros Hst Hf Hs Hfree Em H2 st'.
  pose proof Hs as Hs'. unfold sec_of in Hs'. rewrite shiftr18 in Hs'.
  destruct (Z.ltb_spec (f / 262144) (g_nsec st)) as [Hlt|]; [|done].
  assert (Hsi : 0 ≤ f / 262144) by (apply Z.div_pos; lia).
  pose proof (pw_sec st Hst (f / 262144) s ltac:(lia) Hs') as Hinv.
  rewrite (frame_free_sec st f s) in Hfree by done. apply negb_false_iff in Hfree.
  assert (Hm : 0 ≤ f mod 262144 < 262144) by (apply Z.mod_pos_bound; lia).
  set (i := f mod 262144) in *. assert (Hib : i + 1 ≤ PMM_SECTION_FRAMES) by (unfold PMM_SECTION_FRAMES; lia).
  destruct (sec_mark_spec s i (i + 1) false s1 c Hinv ltac:(lia) Hib Em)
    as (Hinv1 & (_ & Hr1 & Hr2) & _ & Hc).
  rewrite to_change_all in Hc by (lia || (intros g Hg; by replace g with i by lia)).
  replace (i + 1 - i) with 1 in Hc by lia. subst c.
  assert (Hs2 : same_frames s1 s2 ∧ sec_inv s2 ∧ sec_refs s2 = sec_refs s1 ∧ sec_refs_used s2 = sec_refs_used s1).
  { destruct H2 as [->|(h & Hh & ->)]; [done|]. split; [done|]. split; [|done]. by apply set_hint_inv. }
  destruct Hs2 as (Hsf & Hinv2 & Hr3 & Hr4).
  destruct (mark_section st (f / 262144) s s i (i + 1) false s1 1 s2) as [Hwf Hff]; try done; try lia.
  split.
  - split; [done|]. split; [intros; by eapply has_section_put|]. intros g Hg. unfold st'. rewrite Hff by done.
    replace (f / 262144 * 262144 + i) with f by (unfold i; Z.to_euclidean_division_equations; lia).
    replace (f / 262144 * 262144 + (i + 1)) with (f + 1)
      by (unfold i; Z.to_euclidean_division_equations; lia).
    unfold in_range. destruct (Z.leb_spec f g), (Z.ltb_spec g (f + 1)); simpl; try done.
    replace g with f by lia. unfold has_section. by rewrite Hs.
  - constructor; try done. intros. eapply refs_of_put; (done || lia || congruence).
Qed.

Lemma free_one_spec st f :
  pmm_wf st → 0 ≤ f → marked st (free_one st f) f (f + 1) false ∧ frames_only st (free_one st f).
Proof.
  intros Hst Hf. unfold free_one. destruct (sec_of st f) as [s|] eqn:Hs.
  2: { split; [|auto with secos]. apply marked_refl; [done|]. intros g Hg0 Hg.
       replace g with f by lia. unfold frame_free, has_section. by rewrite Hs. }
  rewrite land_frames, land_shiftl1 by apply bit_range.
  change (Z.testbit (sec_bitmap s).[_] _) with (frame_used s (f mod 262144)).
  destruct (frame_used s (f mod 262144)) eqn:Eu; cbn [negb].
  - rewrite shiftr18.
    destruct (sec_mark s (f mod 262144) (f mod 262144 + 1) false) as [s1 c] eqn:Em.
    eapply unmark_frame; try done; [by rewrite (frame_free_sec st f s), Eu|].
    destruct (_ <? sec_hint s1); [right|by left]. eexists. split; [|done]. apply u32_range.
  - split; [|auto with secos]. apply marked_refl; [done|]. intros g Hg0 Hg.
    replace g with f by lia. rewrite (frame_free_sec st f s), Eu by done.
    unfold has_section. by rewrite Hs.
Qed.

Lemma free_loop_spec n st f :
  pmm_wf st → 0 ≤ f →
  marked st (free_loop n st f) f (f + Z.of_nat n) false ∧ frames_only st (free_loop n st f).
Proof.
  revert st f. induction n as [|n IH]; intros st f Hst Hf; cbn [free_loop].
  - split; [|auto with secos]. apply marked_refl; [done|]. lia.
  - destruct (free_one_spec st f Hst Hf) as [Hm Ho].
    destruct (IH (free_one st f) (f + 1) (proj1 Hm) ltac:(lia)) as [Hm' Ho'].
    split; [|by eapply frames_only_trans].
    replace (f + Z.of_nat (S n)) with (f + 1 + Z.of_nat n) by lia.
    eapply marked_compose; [|exact Hm|exact Hm']. lia.
Qed.

Lemma pmm_free_contiguous_spec st addr count :
  pmm_wf st → g_sectioned st = true → 0 ≤ addr → 0 ≤ count → addr / 4096 + count < 2 ^ 64 →
  marked st (pmm_free_contiguous st addr count) (addr / 4096) (addr / 4096 + count) false ∧
  frames_only st (pmm_free_contiguous st addr count).
Proof.
  intros Hst Hs Ha Hc Hb. unfold pmm_free_contiguous, PMM_FRAME_SIZE. rewrite Hs.
  assert (0 ≤ addr / 4096) by (apply Z.div_pos; lia).
  rewrite u64_small by (unfold_uint; lia).
  replace (addr / 4096 + count) with (addr / 4096 + Z.of_nat (Z.to_nat (addr / 4096 + count - addr / 4096)))
    at 2 by lia.
  by apply free_loop_spec.
Qed.

(** Two states with the same sections and the same free frames have the same
    free count. *)
Lemma sec_free_ext s s' :
  sec_inv s → sec_inv s' → (∀ f, 0 ≤ f < 262144 → frame_used s f = frame_used s' f) →
  sec_free s = sec_free s'.
Proof.
  intros [_ ->] [_ ->] H. apply zcount_ext. rewrite SECTION_N_Z. intros i Hi. by rewrite H.
Qed.

Lemma sum_free_ext l l' :
  length l = length l' →
  (∀ i, 0 ≤ i < zlen l → match l.[i], l'.[i] with
     | Some s, Some s' => sec_free s = sec_free s'
     | None, None => True
     | _, _ => False
     end) → sum_free l = sum_free l'.
Proof.
  revert l'. induction l as [|o l IH]; intros [|o' l'] Hlen H; try done.
  pose proof (H 0 ltac:(simpl; lia)) as H0. unfold aget in H0. simpl in H0.
  assert (Hl : sum_free l = sum_free l').
  { apply IH; [simpl in Hlen; lia|]. intros i Hi. specialize (H (i + 1) ltac:(simpl; lia)).
    unfold aget in *. by replace (Z.to_nat (i + 1)) with (S (Z.to_nat i)) in H by lia. }
  destruct o, o'; simpl; (done || lia).
Qed.

Lemma free_frames_ext st st' :
  pmm_wf st → pmm_wf st' → g_nsec st = g_nsec st' →
  (∀ f, 0 ≤ f → has_section st f = has_section st' f) →
  (∀ f, 0 ≤ f → frame_free st f = frame_free st' f) →
  g_free_frames st = g_free_frames st'.
Proof.
  intros Hst Hst' Hn Hsec Hfree. rewrite (pw_free st Hst), (pw_free st' Hst').
  pose proof (pw_nsec st Hst). pose proof (pw_nsec st' Hst').
  apply sum_free_ext; [lia|]. intros i Hi.
  assert (Hat : ∀ j, 0 ≤ j < 262144 → (i * 262144 + j) / 262144 = i ∧ (i * 262144 + j) mod 262144 = j)
    by (intros; Z.to_euclidean_division_equations; lia).
  pose proof (Hsec (i * 262144) ltac:(lia)) as H1. unfold has_section in H1.
  rewrite !(sec_of_at _ _ i) in H1 by (try lia; rewrite Z.div_mul; lia).
  destruct ((g_sec st).[i]) as [s|] eqn:Es, ((g_sec st').[i]) as [s'|] eqn:Es'; try done.
  apply sec_free_ext; [apply (pw_sec st Hst i); (done || lia) | apply (pw_sec st' Hst' i); (done || lia) |].
  intros f Hf. specialize (Hfree (i * 262144 + f) ltac:(lia)). destruct (Hat f Hf) as [Hd Hmo].
  rewrite (frame_free_sec st _ s), (frame_free_sec st' _ s'), Hmo in Hfree
    by (rewrite (sec_of_at _ _ i) by lia; done).
  by destruct (frame_used s f), (frame_used s' f).
Qed.

(** The free count is the number of free frames. *)
Lemma sum_free_zcount l :
  (∀ i s, 0 ≤ i < zlen l → l.[i] = Some s → sec_inv s) →
  sum_free l = zcount (λ f, match l.[f / 262144] with
                            | Some s => negb (frame_used s (f mod 262144))
                            | None => false
                            end) (length l * SECTION_N).
Proof.
  induction l as [|o l IH] using rev_ind; intros Hs; [done|].
  assert (Hsum : ∀ l, sum_free (l ++ [o]) = sum_free l + match o with Some s => sec_free s | None => 0 end).
  { intros k. induction k as [|[s|] k IHk]; simpl; [destruct o; simpl; lia | lia | done]. }
  rewrite Hsum, length_app. simpl length. rewrite Nat.mul_add_distr_r, Nat.mul_1_l, zcount_add.
  assert (Hlow : ∀ i, 0 ≤ i < zlen l → (l ++ [o]).[i] = l.[i]).
  { intros i Hi. unfold aget. by rewrite lookup_total_app_l by lia. }
  assert (Htop : (l ++ [o]).[zlen l] = o).
  { unfold aget. rewrite lookup_total_app_r by lia. by replace (Z.to_nat (zlen l) - length l)%nat with 0%nat by lia. }
  f_equal.
  - rewrite IH; [|intros i s Hi E; apply (Hs i s); [rewrite length_app; simpl; lia | by rewrite Hlow]].
    apply zcount_ext. rewrite Nat2Z.inj_mul, SECTION_N_Z. intros f Hf.
    rewrite Hlow; [done|]. split; [apply Z.div_pos; lia|]. apply Z.div_lt_upper_bound; lia.
  - rewrite Nat2Z.inj_mul, SECTION_N_Z.
    assert (Hat : ∀ i, 0 ≤ i < 262144 → (zlen l * 262144 + i) / 262144 = zlen l ∧ (zlen l * 262144 + i) mod 262144 = i)
      by (intros; Z.to_euclidean_division_equations; lia).
    destruct o as [s|].
    + destruct (Hs (zlen l) s) as [_ ->]; [rewrite length_app; simpl; lia | done |].
      apply zcount_ext. rewrite SECTION_N_Z. intros i Hi. destruct (Hat i Hi) as [-> ->]. by rewrite Htop.
    + symmetry. apply zcount_none. rewrite SECTION_N_Z. intros i Hi. destruct (Hat i Hi) as [-> ->]. by rewrite Htop.
Qed.

Lemma free_frames_count st : pmm_wf st →
  g_free_frames st = zcount (frame_free st) (length (g_sec st) * SECTION_N).
Proof.
  intros Hst. rewrite (pw_free st Hst), sum_free_zcount.
  - apply zcount_ext. rewrite Nat2Z.inj_mul, SECTION_N_Z. intros f Hf. unfold frame_free.
    pose proof (pw_nsec st Hst). rewrite (sec_of_at _ _ (f / 262144)); [by rewrite land_frames|done|].
    split; [apply Z.div_pos; lia | apply Z.div_lt_upper_bound; lia].
  - intros i s Hi. apply (pw_sec st Hst). rewrite (pw_nsec st Hst). lia.
Qed.

(** One frame less is free. *)
Lemma free_frames_remove st st' q :
  pmm_wf st → pmm_wf st' → g_nsec st' = g_nsec st → 0 ≤ q → frame_free st q = true →
  (∀ f, 0 ≤ f → frame_free st' f = frame_free st f && negb (f =? q)) →
  g_free_frames st' = g_free_frames st - 1.
Proof.
  intros Hst Hst' Hn Hq Hf Hall. rewrite !free_frames_count by done.
  pose proof (pw_nsec st Hst). pose proof (pw_nsec st' Hst').
  replace (length (g_sec st')) with (length (g_sec st)) by lia.
  apply (zcount_remove _ _ _ q); [|done|].
  - rewrite Nat2Z.inj_mul, SECTION_N_Z. split; [done|].
    destruct (Z.lt_ge_cases q (g_nsec st * 262144)); [lia|]. rewrite frame_free_out in Hf by done. done.
  - intros i Hi. apply Hall. lia.
Qed.

(** ** Properties of the allocator *)

(** [pmm_alloc_below] in the sectioned phase: the frame is page aligned,
    lies below the limit, was free and is in use afterwards, and no other
    frame changes; it comes from the 32-bit zone only when no free frame above
    4 GiB is left below the limit; the call fails only when no frame below the
    limit is free, and then changes nothing. *)
Theorem pmm_alloc_below_correct st limit st' p :
  pmm_wf st → g_sectioned st = true → frame_free st 0 = false → limit_ok limit →
  pmm_alloc_below st limit = (st', p) → zoned_alloc st st' 1 limit p.
Proof. apply alloc_frame_spec. Qed.

(** [pmm_alloc_contiguous_below] claims a run of exactly [count] free
    frames inside one section and below the limit, with the same zone
    preference, and fails only when no section has such a run: the scan that
    skips whole bitmap words misses none. *)
Theorem pmm_alloc_contiguous_correct st count limit st' p :
  pmm_wf st → g_sectioned st = true → frame_free st 0 = false → limit_ok limit →
  0 < count ≤ PMM_SECTION_FRAMES →
  pmm_alloc_contiguous_below st count limit = (st', p) → zoned_alloc st st' count limit p.
Proof.
  intros Hst Hs H0 Hl Hc. unfold pmm_alloc_contiguous_below.
  destruct (Z.eqb_spec count 0); [lia|]. destruct (Z.eqb_spec count 1) as [->|].
  - by apply alloc_frame_spec.
  - by apply alloc_run_spec.
Qed.

(** Freeing what [pmm_alloc_contiguous_below] returned restores the state
    of every frame and the global free count. *)
Theorem pmm_alloc_free_roundtrip st count limit st' p :
  pmm_wf st → g_sectioned st = true → frame_free st 0 = false → limit_ok limit →
  0 < count ≤ PMM_SECTION_FRAMES →
  pmm_alloc_contiguous_below st count limit = (st', p) → p ≠ 0 →
  let st2 := pmm_free_contiguous st' p count in
  pmm_wf st2 ∧ g_free_frames st2 = g_free_frames st ∧
  ∀ f, 0 ≤ f → frame_free st2 f = frame_free st f.
Proof.
  intros Hst Hs H0 Hl Hc E Hp st2.
  assert (Hz : zoned_alloc st st' count limit p).
  { unfold pmm_alloc_contiguous_below in E. destruct (Z.eqb_spec count 0); [lia|].
    destruct (Z.eqb_spec count 1) as [->|]; [by apply alloc_frame_spec | by apply alloc_run_spec]. }
  destruct Hz as [(Hp0 & Hd & Hpl & ((Hwf & Hsec & Hff) & Ho & Hfree) & _)|[? _]]; [|done].
  assert (Hb : p / 4096 + count < 2 ^ 64).
  { assert (0 ≤ p / 4096) by (apply Z.div_pos; lia).
    pose proof (frame_free_bound st (p / 4096) Hst ltac:(lia) (Hfree (p / 4096) ltac:(lia))).
    unfold PMM_SECTION_FRAMES in Hc. lia. }
  destruct (pmm_free_contiguous_spec st' p count) as [(Hwf2 & Hsec2 & Hff2) Ho2];
    [done | by rewrite (fo_sectioned _ _ Ho) | lia | lia | done |].
  assert (Hsame : ∀ f, 0 ≤ f → frame_free st2 f = frame_free st f).
  { intros f Hf. unfold st2. rewrite Hff2 by done. destruct (in_range _ _ f) eqn:E2.
    - rewrite Hsec by done. unfold in_range in E2. zbool.
      rewrite Hfree by lia. rewrite frame_free_has_section; [done|]. apply Hfree. lia.
    - rewrite Hff by done. by rewrite E2. }
  split_and!; try done. apply free_frames_ext; try done.
  - unfold st2. by rewrite (fo_nsec _ _ Ho2), (fo_nsec _ _ Ho).
  - intros f Hf. unfold st2. by rewrite Hsec2, Hsec.
Qed.

(** Two present sections, one below and one above 4 GiB, each with the frames
    60 to 129 free. *)
Definition pmm_demo : pmm :=
  mk_pmm early_demo [Some sec_demo; None; None; None; Some sec_demo] 5 true 4 0
    0 262144 140 0 0 0 ∅.

Lemma pmm_demo_sections si :
  0 ≤ si < 5 → (g_sec pmm_demo).[si] = Some sec_demo ∨ (g_sec pmm_demo).[si] = None.
Proof.
  intros Hsi. unfold pmm_demo. cbn [g_sec]. generalize (Some sec_demo). intros o.
  assert (si = 0 ∨ si = 1 ∨ si = 2 ∨ si = 3 ∨ si = 4) as Hc by lia.
  destruct Hc as [->|[->|[->|[->| ->]]]]; (left; reflexivity) || (right; reflexivity).
Qed.

Lemma pmm_demo_wf : pmm_wf pmm_demo.
Proof.
  constructor; try done.
  intros si s Hsi. destruct (pmm_demo_sections si Hsi) as [-> | ->]; [|done].
  intros [= <-]. apply sec_demo_inv.
Qed.

(** The frame comes from the section above 4 GiB. *)
Lemma pmm_alloc_below_correct_witness :
  ∃ st' p, pmm_alloc_below pmm_demo ALL_ONES = (st', p) ∧ p = 0x10003c000 ∧
           zoned_alloc pmm_demo st' 1 ALL_ONES p.
Proof.
  destruct (pmm_alloc_below pmm_demo ALL_ONES) as [st' p] eqn:E. exists st', p.
  split; [done|]. split.
  - transitivity (snd (pmm_alloc_below pmm_demo ALL_ONES)); [by rewrite E | vm_compute; reflexivity].
  - apply pmm_alloc_below_correct; [apply pmm_demo_wf | reflexivity | vm_compute; reflexivity
      | by right | exact E].
Defined.

(** A run of 64 frames under a 4 GiB limit. *)
Lemma pmm_alloc_contiguous_correct_witness :
  ∃ st' p, pmm_alloc_contiguous_below pmm_demo 64 PMM_DMA32_LIMIT = (st', p) ∧ p = 60 * 4096 ∧
           zoned_alloc pmm_demo st' 64 PMM_DMA32_LIMIT p.
Proof.
  destruct (pmm_alloc_contiguous_below pmm_demo 64 PMM_DMA32_LIMIT) as [st' p] eqn:E. exists st', p.
  split; [done|]. split.
  - transitivity (snd (pmm_alloc_contiguous_below pmm_demo 64 PMM_DMA32_LIMIT));
      [by rewrite E | vm_compute; reflexivity].
  - apply pmm_alloc_contiguous_correct; [apply pmm_demo_wf | reflexivity | vm_compute; reflexivity
      | left; unfold PMM_DMA32_LIMIT; lia | unfold PMM_SECTION_FRAMES; lia | exact E].
Defined.

Lemma pmm_alloc_free_roundtrip_witness :
  ∃ st' p, pmm_alloc_contiguous_below pmm_demo 64 PMM_DMA32_LIMIT = (st', p) ∧
    let st2 := pmm_free_contiguous st' p 64 in
    pmm_wf st2 ∧ g_free_frames st2 = g_free_frames pmm_demo ∧
    ∀ f, 0 ≤ f → frame_free st2 f = frame_free pmm_demo f.
Proof.
  destruct (pmm_alloc_contiguous_below pmm_demo 64 PMM_DMA32_LIMIT) as [st' p] eqn:E. exists st', p.
  split; [done|].
  apply (pmm_alloc_free_roundtrip pmm_demo 64 PMM_DMA32_LIMIT); [apply pmm_demo_wf | reflexivity
    | vm_compute; reflexivity | left; unfold PMM_DMA32_LIMIT; lia | unfold PMM_SECTION_FRAMES; lia | exact E |].
  assert (Hp : p = snd (pmm_alloc_contiguous_below pmm_demo 64 PMM_DMA32_LIMIT)) by (by rewrite E).
  rewrite Hp. vm_compute. congruence.
Defined.
