(* ===== verification/PmmRef.v ===== *)
(** * Physical memory: copy-on-write reference counts

    Models the reference counts of [src/mm/pmm.c]: one byte per frame with the
    number of extra references, in 4 KiB chunks allocated on the first share
    and released with the last one ([ref_slot], [ref_chunk_put],
    [pmm_share_frame], [pmm_unref_frame], [pmm_frame_shared]).  The chunk of a
    16 MiB stretch of frames is itself a frame of the allocator; its contents
    are [g_chunks] at its physical address. *)

From S2P Require Import Prelude PmmRange PmmSection Pmm.

Definition PMM_REF_STICKY : Z := 255.

(** A write through the section pointer of section [si]. *)
Definition upd_sec (st : pmm) (si : Z) (f : pmm_section → pmm_section) : pmm :=
  match (g_sec st).[si] with Some s => put_sec st si (f s) | None => st end.

(** Writes to [refs[c]] and [refs_used[c]]. *)
Definition put_ref (c p : Z) (s : pmm_section) : pmm_section :=
  set_refs s (sec_refs s).[c <- p] (sec_refs_used s).
Definition put_ref_used (c u : Z) (s : pmm_section) : pmm_section :=
  set_refs s (sec_refs s) (sec_refs_used s).[c <- u].

Definition sec_index (frame : Z) : Z := Z.shiftr frame PMM_SECTION_SHIFT.
Definition ref_chunk (frame : Z) : Z := Z.land frame (PMM_SECTION_FRAMES - 1) / PMM_REF_CHUNK_FRAMES.
Definition ref_offset (frame : Z) : Z := Z.land frame (PMM_SECTION_FRAMES - 1) mod PMM_REF_CHUNK_FRAMES.

(** A pointer into a chunk: the physical address of the chunk and the index. *)
Definition slot_get (st : pmm) (r : Z * Z) : Z := (g_chunks st !!! r.1).[r.2].
Definition slot_put (st : pmm) (r : Z * Z) (v : Z) : pmm :=
  set_chunks st (g_ref_chunks st) (<[r.1 := (g_chunks st !!! r.1).[r.2 <- v]]> (g_chunks st)).

(** A chunk as [ref_slot] clears it. *)
Definition chunk_zeros : list Z := replicate (Z.to_nat PMM_FRAME_SIZE) 0.

Definition ref_slot (st : pmm) (frame : Z) (create : bool) : pmm * option (Z * Z) :=
  match if g_sectioned st then sec_of st frame else None with
  | None => (st, None)
  | Some s =>
      let c := ref_chunk frame in
      if (sec_refs s).[c] =? 0 then
        if negb create then (st, None)
        else
          let '(st1, p) := alloc_frame_nolock_below st ALL_ONES in
          if p =? 0 then (st1, None)
          else
            let st2 := upd_sec st1 (sec_index frame) (put_ref c p) in
            (set_chunks st2 (u64 (g_ref_chunks st2 + 1)) (<[p := chunk_zeros]> (g_chunks st2)),
             Some (p, ref_offset frame))
      else (st, Some ((sec_refs s).[c], ref_offset frame))
  end.

(** [ref_chunk_put(s, c)] with [s] the section [si]. *)
Definition ref_chunk_put (st : pmm) (si c : Z) : pmm :=
  match (g_sec st).[si] with
  | None => st
  | Some s =>
      let u := u16 ((sec_refs_used s).[c] - 1) in
      let st1 := upd_sec st si (put_ref_used c u) in
      if negb (u =? 0) then st1
      else
        let phys := (sec_refs s).[c] in
        let st2 := upd_sec st1 si (put_ref c 0) in
        let st3 := set_chunks st2 (u64 (g_ref_chunks st2 - 1)) (g_chunks st2) in
        let f := phys / PMM_FRAME_SIZE in
        match sec_of st3 f with
        | None => st3
        | Some fs =>
            let i := Z.land f (PMM_SECTION_FRAMES - 1) in
            let '(fs', _) := sec_mark fs i (i + 1) false in
            set_free_frames (put_sec st3 (sec_index f) fs') (u64 (g_free_frames st3 + 1))
        end
  end.

(** The part of [pmm_share_frame] after the slot has been found. *)
Definition share_slot (st1 : pmm) (frame : Z) (r : Z * Z) : pmm :=
  let c := ref_chunk frame in
  let v := slot_get st1 r in
  let st2 := if v =? 0
             then upd_sec st1 (sec_index frame)
                    (λ s, put_ref_used c (u16 ((sec_refs_used s).[c] + 1)) s)
             else st1 in
  if v =? PMM_REF_STICKY then st2 else slot_put st2 r (u8 (v + 1)).

Definition pmm_share_frame (st : pmm) (addr : Z) : pmm * Z :=
  let frame := addr / PMM_FRAME_SIZE in
  let '(st1, r) := ref_slot st frame true in
  match r with
  | None => (st1, -1)
  | Some r => (share_slot st1 frame r, 0)
  end.

Definition pmm_unref_frame (st : pmm) (addr : Z) : pmm * Z :=
  let frame := addr / PMM_FRAME_SIZE in
  let '(st1, r) := ref_slot st frame false in
  match r with
  | None => (st1, 0)
  | Some r =>
      let v := slot_get st1 r in
      if 0 <? v then
        if v =? PMM_REF_STICKY then (st1, 1)
        else
          let st2 := slot_put st1 r (u8 (v - 1)) in
          (if u8 (v - 1) =? 0 then ref_chunk_put st2 (sec_index frame) (ref_chunk frame) else st2, 1)
      else (st1, 0)
  end.

Definition pmm_frame_shared (st : pmm) (addr : Z) : bool :=
  let frame := addr / PMM_FRAME_SIZE in
  match (ref_slot st frame false).2 with
  | Some r => 0 <? slot_get st r
  | None => false
  end.

Definition pmm_get_meta_bytes (st : pmm) : Z :=
  u64 (g_meta_bytes st + g_ref_chunks st * PMM_FRAME_SIZE).

(** ** Specification *)

Definition chunk_at (st : pmm) (si c : Z) : Z :=
  match refs_of st si with Some (r, _) => r.[c] | None => 0 end.
Definition used_at (st : pmm) (si c : Z) : Z :=
  match refs_of st si with Some (_, u) => u.[c] | None => 0 end.

(** The extra references of a frame. *)
Definition refcnt (st : pmm) (f : Z) : Z :=
  let p := chunk_at st (f / 262144) (f mod 262144 / 4096) in
  if p =? 0 then 0 else (g_chunks st !!! p).[f mod 4096].

(** The number of non-zero counts of a chunk. *)
Fixpoint nonzeros (l : list Z) : Z :=
  match l with [] => 0 | x :: l => b2z (negb (x =? 0)) + nonzeros l end.

(** A chunk slot is empty, or names a used frame that holds 4096 counts of
    which [u] are non-zero. *)
Definition chunk_ok (st : pmm) (p u : Z) : Prop :=
  p = 0 ∧ u = 0 ∨
  (0 < p < 2 ^ 60 ∧ (4096 | p) ∧ has_section st (p / 4096) = true ∧ frame_free st (p / 4096) = false ∧
   0 < u ∧ ∃ l, g_chunks st !! p = Some l ∧ zlen l = 4096 ∧ Forall is_u8 l ∧ u = nonzeros l).

Definition slot_valid (st : pmm) (si c : Z) : Prop := 0 ≤ si < g_nsec st ∧ 0 ≤ c < 64.

Record refs_wf (st : pmm) : Prop := {
  rw_chunk : ∀ si c, slot_valid st si c → chunk_ok st (chunk_at st si c) (used_at st si c);
  rw_inj : ∀ si c sj d, slot_valid st si c → slot_valid st sj d →
    chunk_at st si c ≠ 0 → chunk_at st si c = chunk_at st sj d → si = sj ∧ c = d
}.

(** The whole allocator state in the sectioned phase. *)
Record pmm_inv (st : pmm) : Prop := {
  pi_wf : pmm_wf st;
  pi_sectioned : g_sectioned st = true;
  pi_zero : frame_free st 0 = false;
  pi_refs : refs_wf st
}.

Lemma ref_chunk_eq f : ref_chunk f = f mod 262144 / 4096.
Proof. unfold ref_chunk. by rewrite land_frames. Qed.
Lemma ref_offset_eq f : ref_offset f = f mod 4096.
Proof.
  unfold ref_offset, PMM_REF_CHUNK_FRAMES. rewrite land_frames.
  Z.to_euclidean_division_equations; lia.
Qed.
Lemma sec_index_eq f : sec_index f = f / 262144.
Proof. apply shiftr18. Qed.
#[export] Hint Rewrite ref_chunk_eq ref_offset_eq sec_index_eq : secos_ref.

Lemma frame_slot_valid st f :
  0 ≤ f → has_section st f = true → slot_valid st (f / 262144) (f mod 262144 / 4096).
Proof.
  intros Hf Hs. unfold has_section, sec_of in Hs. rewrite shiftr18 in Hs.
  destruct (Z.ltb_spec (f / 262144) (g_nsec st)); [|done].
  unfold slot_valid. Z.to_euclidean_division_equations; lia.
Qed.

(** The state differs in the slot [(si, c)] of the reference tables only. *)
Record ref_step (st st' : pmm) (si c p u : Z) : Prop := {
  rs_wf : pmm_wf st';
  rs_nsec : g_nsec st' = g_nsec st;
  rs_sectioned : g_sectioned st' = g_sectioned st;
  rs_frames : ∀ f, 0 ≤ f → frame_free st' f = frame_free st f;
  rs_sections : ∀ f, 0 ≤ f → has_section st' f = has_section st f;
  rs_chunk : ∀ sj d, slot_valid st sj d →
    chunk_at st' sj d = if (sj =? si) && (d =? c) then p else chunk_at st sj d;
  rs_used : ∀ sj d, slot_valid st sj d →
    used_at st' sj d = if (sj =? si) && (d =? c) then u else used_at st sj d;
  rs_chunks : g_chunks st' = g_chunks st
}.

(** Writes of one slot of a section's tables. *)
Lemma upd_sec_ref st si c s p u :
  pmm_wf st → slot_valid st si c → (g_sec st).[si] = Some s →
  ref_step st (put_sec st si (set_refs s (sec_refs s).[c <- p] (sec_refs_used s).[c <- u])) si c p u.
Proof.
  intros Hst [Hsi Hc] Hs. set (s' := set_refs s _ _).
  pose proof (pw_sec st Hst si s ltac:(lia) Hs) as Hinv. pose proof (pw_nsec st Hst) as Hn.
  assert (Hinv' : sec_inv s').
  { destruct Hinv as [[] ?]. split; [|done]. constructor; try done; simpl; by rewrite aset_length. }
  assert (Hsame : set_free_frames (put_sec st si s') (g_free_frames st) = put_sec st si s')
    by (by destruct st).
  assert (Hl : zlen (sec_refs s) = 64 ∧ zlen (sec_refs_used s) = 64)
    by (destruct Hinv as [[] _]; done).
  constructor; try done.
  - rewrite <- Hsame. eapply put_sec_wf; try done. simpl. lia.
  - intros f Hf. rewrite <- Hsame, frame_free_put by done.
    destruct (Z.eqb_spec (f / 262144) si) as [He|]; [|done].
    by rewrite (frame_free_sec st f s) by (by rewrite (sec_of_at st f si)).
  - intros f Hf. rewrite <- Hsame. by eapply has_section_put.
  - intros sj d [Hsj Hd]. unfold chunk_at, refs_of. simpl. rewrite aget_aset by lia.
    rewrite (Z.eqb_sym si). destruct (Z.eqb_spec sj si) as [->|]; [|done]. simpl.
    rewrite aget_aset, Hs by lia. by rewrite (Z.eqb_sym c).
  - intros sj d [Hsj Hd]. unfold used_at, refs_of. simpl. rewrite aget_aset by lia.
    rewrite (Z.eqb_sym si). destruct (Z.eqb_spec sj si) as [->|]; [|done]. simpl.
    rewrite aget_aset, Hs by lia. by rewrite (Z.eqb_sym c).
Qed.

Lemma slot_section st si c s : pmm_wf st → slot_valid st si c → (g_sec st).[si] = Some s →
  chunk_at st si c = (sec_refs s).[c] ∧ used_at st si c = (sec_refs_used s).[c] ∧
  zlen (sec_refs s) = 64 ∧ zlen (sec_refs_used s) = 64.
Proof.
  intros Hst [Hsi Hc] Hs. unfold chunk_at, used_at, refs_of. rewrite Hs.
  destruct (pw_sec st Hst si s ltac:(lia) Hs) as [[] _]. done.
Qed.

(** [refs[c] = p] and [refs_used[c] = u]. *)
Lemma put_ref_step st si c s p :
  pmm_wf st → slot_valid st si c → (g_sec st).[si] = Some s →
  ref_step st (upd_sec st si (put_ref c p)) si c p (used_at st si c).
Proof.
  intros Hst Hv Hs. destruct (slot_section st si c s Hst Hv Hs) as (_ & Hu & _ & Hl).
  unfold upd_sec. rewrite Hs. unfold put_ref.
  pose proof (upd_sec_ref st si c s p (used_at st si c) Hst Hv Hs) as H.
  rewrite Hu, aset_same in H by (destruct Hv; lia). by rewrite Hu.
Qed.

Lemma put_ref_used_step st si c s u :
  pmm_wf st → slot_valid st si c → (g_sec st).[si] = Some s →
  ref_step st (upd_sec st si (put_ref_used c u)) si c (chunk_at st si c) u.
Proof.
  intros Hst Hv Hs. destruct (slot_section st si c s Hst Hv Hs) as (Hr & _ & Hl & _).
  unfold upd_sec. rewrite Hs. unfold put_ref_used.
  pose proof (upd_sec_ref st si c s (chunk_at st si c) u Hst Hv Hs) as H.
  rewrite Hr, aset_same in H by (destruct Hv; lia). by rewrite Hr.
Qed.

(** What a change of slot [(si, c)], of its chunk and of some frames must
    respect for the other slots. *)
Record ref_change (st st' : pmm) (si c p u : Z) : Prop := {
  rc_slot : slot_valid st si c;
  rc_nsec : g_nsec st' = g_nsec st;
  rc_chunk : ∀ sj d, slot_valid st sj d →
    chunk_at st' sj d = if (sj =? si) && (d =? c) then p else chunk_at st sj d;
  rc_used : ∀ sj d, slot_valid st sj d →
    used_at st' sj d = if (sj =? si) && (d =? c) then u else used_at st sj d;
  rc_ok : chunk_ok st' p u;
  rc_sections : ∀ f, 0 ≤ f → has_section st' f = has_section st f;
  rc_others : ∀ sj d, slot_valid st sj d → chunk_at st sj d ≠ 0 → sj ≠ si ∨ d ≠ c →
    chunk_at st sj d ≠ p ∧ g_chunks st' !! chunk_at st sj d = g_chunks st !! chunk_at st sj d ∧
    frame_free st' (chunk_at st sj d / 4096) = frame_free st (chunk_at st sj d / 4096)
}.

Lemma slot_cases (sj d si c : Z) :
  ((sj =? si) && (d =? c) = true ∧ sj = si ∧ d = c) ∨
  ((sj =? si) && (d =? c) = false ∧ (sj ≠ si ∨ d ≠ c)).
Proof. destruct (Z.eqb_spec sj si), (Z.eqb_spec d c); simpl; auto. Qed.

Lemma ref_change_wf st st' si c p u : refs_wf st → ref_change st st' si c p u → refs_wf st'.
Proof.
  intros [Hch Hinj] [Hv Hn Hc' Hu' Hok Hsec Hoth].
  assert (Hval : ∀ sj d, slot_valid st' sj d ↔ slot_valid st sj d)
    by (intros; unfold slot_valid; by rewrite Hn).
  constructor.
  - intros sj d Hs%Hval. rewrite Hc', Hu' by done.
    destruct (slot_cases sj d si c) as [(-> & -> & ->)|(-> & Hne)]; [done|].
    specialize (Hch sj d Hs). destruct (decide (chunk_at st sj d = 0)) as [Hz|Hnz].
    { destruct Hch as [[_ Hu]|[? _]]; [left; by rewrite Hz, Hu | lia]. }
    destruct (Hoth sj d Hs Hnz Hne) as (_ & Hg & Hfr).
    destruct Hch as [[? _]|(Hp & Hd & Hhas & Hff & Hpos & l & Hl & Hrest)]; [done|].
    right. split_and!; try done; try lia.
    + rewrite Hsec; [done|]. apply Z.div_pos; lia.
    + by rewrite Hfr.
    + exists l. by rewrite Hg.
  - intros si1 c1 si2 c2 H1%Hval H2%Hval. rewrite !Hc' by done.
    destruct (slot_cases si1 c1 si c) as [(-> & -> & ->)|(-> & Hne1)],
      (slot_cases si2 c2 si c) as [(-> & -> & ->)|(-> & Hne2)]; try done.
    + intros Hp Heq. destruct (Hoth si2 c2 H2) as [? _]; congruence.
    + intros Hp Heq. destruct (Hoth si1 c1 H1) as [? _]; congruence.
    + by apply Hinj.
Qed.

Lemma refs_of_out st si : pmm_wf st → 0 ≤ si → g_nsec st ≤ si → refs_of st si = None.
Proof.
  intros Hst H0 H. unfold refs_of, aget. rewrite (pw_nsec st Hst) in H.
  by rewrite list_lookup_total_alt, lookup_ge_None_2 by lia.
Qed.

(** The counts of the frames of other slots do not change. *)
Lemma ref_change_other st st' si c p u f :
  pmm_wf st → pmm_wf st' → ref_change st st' si c p u →
  0 ≤ f → f / 262144 ≠ si ∨ f mod 262144 / 4096 ≠ c → refcnt st' f = refcnt st f.
Proof.
  intros Hst Hst' [Hv Hn Hc' Hu' Hok Hsec Hoth] Hf Hne. unfold refcnt.
  assert (Hd : 0 ≤ f / 262144 ∧ 0 ≤ f mod 262144 / 4096 < 64) by (Z.to_euclidean_division_equations; lia).
  destruct (decide (f / 262144 < g_nsec st)).
  - assert (Hs : slot_valid st (f / 262144) (f mod 262144 / 4096)) by (unfold slot_valid; lia).
    rewrite Hc' by done. destruct (slot_cases (f / 262144) (f mod 262144 / 4096) si c) as [(_ & ? & ?)|(-> & _)];
      [lia|].
    destruct (Z.eqb_spec (chunk_at st (f / 262144) (f mod 262144 / 4096)) 0) as [|Hnz]; [done|].
    destruct (Hoth _ _ Hs Hnz Hne) as (_ & Hg & _). unfold lookup_total, map_lookup_total. by rewrite Hg.
  - unfold chunk_at. by rewrite !refs_of_out by (done || lia).
Qed.

(** The counts of the frames of the changed slot are those of its chunk. *)
Lemma ref_change_slot st st' si c p u f :
  ref_change st st' si c p u → f / 262144 = si → f mod 262144 / 4096 = c →
  refcnt st' f = if p =? 0 then 0 else (g_chunks st' !!! p).[f mod 4096].
Proof.
  intros [Hv _ Hc' _ _ _ _] <- <-. unfold refcnt. rewrite Hc' by done.
  by rewrite !Z.eqb_refl.
Qed.

(** *** The frames that hold the counts

    [is_meta] is the allocator's own use of a frame: it is the chunk of some
    slot. *)
Definition is_meta (st : pmm) (g : Z) : bool :=
  (0 <? g) && existsb (λ o, match o with
                            | Some s => existsb (Z.eqb (g * 4096)) (sec_refs s)
                            | None => false
                            end) (g_sec st).

Lemma existsb_aget {A} `{Inhabited A} (P : A → bool) (l : list A) :
  existsb P l = true ↔ ∃ i, 0 ≤ i < zlen l ∧ P l.[i] = true.
Proof.
  rewrite existsb_exists. split.
  - intros (x & Hx & HP). apply list_elem_of_In, list_elem_of_lookup in Hx as [i Hi].
    pose proof (lookup_lt_Some _ _ _ Hi). exists (Z.of_nat i). split; [lia|].
    rewrite (lookup_aget l (Z.of_nat i) x); [done|]. by rewrite Nat2Z.id.
  - intros (i & Hi & HP). exists l.[i]. split; [|done].
    apply list_elem_of_In, list_elem_of_lookup. exists (Z.to_nat i). by apply aget_lookup.
Qed.

Lemma is_meta_spec st g : pmm_wf st →
  is_meta st g = true ↔ 0 < g ∧ ∃ sj d, slot_valid st sj d ∧ chunk_at st sj d = g * 4096.
Proof.
  intros Hst. unfold is_meta. rewrite andb_true_iff, Z.ltb_lt, existsb_aget, <- (pw_nsec st Hst).
  split; intros [Hg H]; (split; [done|]).
  - destruct H as (si & Hsi & Hs). destruct (g_sec st).[si] as [s|] eqn:E; [|done].
    apply existsb_aget in Hs as (c & Hc & Heq). apply Z.eqb_eq in Heq.
    destruct (slot_section st si 0 s Hst ltac:(unfold slot_valid; lia) E) as (_ & _ & Hl & _).
    exists si, c. assert (Hv : slot_valid st si c) by (unfold slot_valid; lia). split; [done|].
    destruct (slot_section st si c s Hst Hv E) as (-> & _). done.
  - destruct H as (si & c & Hv & Hc). pose proof Hv as [Hsi Hcc]. exists si. split; [done|].
    destruct (g_sec st).[si] as [s|] eqn:E.
    + destruct (slot_section st si c s Hst Hv E) as (Hch & _ & Hl & _). apply existsb_aget. exists c.
      split; [lia|]. apply Z.eqb_eq. congruence.
    + unfold chunk_at, refs_of in Hc. rewrite E in Hc. lia.
Qed.

Lemma ref_change_meta st st' si c p u g :
  pmm_wf st → pmm_wf st' → ref_change st st' si c p u → 0 ≤ g →
  is_meta st' g = true ↔ 0 < g ∧ (p = g * 4096 ∨
    ∃ sj d, slot_valid st sj d ∧ (sj ≠ si ∨ d ≠ c) ∧ chunk_at st sj d = g * 4096).
Proof.
  intros Hst Hst' [Hv Hn Hc _ _ _ _] Hg. rewrite is_meta_spec by done.
  assert (Hval : ∀ sj d, slot_valid st' sj d ↔ slot_valid st sj d)
    by (intros; unfold slot_valid; by rewrite Hn).
  split; intros [Hg0 H]; (split; [done|]).
  - destruct H as (sj & d & Hs%Hval & Hch). rewrite Hc in Hch by done.
    destruct (slot_cases sj d si c) as [(E & -> & ->)|(E & Hne)]; rewrite E in Hch; [by left|].
    right. by exists sj, d.
  - destruct H as [Hp|(sj & d & Hs & Hne & Hch)].
    + exists si, c. split; [by apply Hval|]. rewrite Hc by done. by rewrite !Z.eqb_refl.
    + exists sj, d. split; [by apply Hval|]. rewrite Hc by done.
      destruct (slot_cases sj d si c) as [(E & -> & ->)|(E & _)]; [lia|]. by rewrite E.
Qed.

(** The frames of the counts when the slot keeps its chunk, when it gets one
    and when it loses it. *)
Lemma meta_kept st st' si c u g :
  pmm_wf st → pmm_wf st' → ref_change st st' si c (chunk_at st si c) u → 0 ≤ g →
  is_meta st' g = is_meta st g.
Proof.
  intros Hst Hst' Hch Hg. apply eq_bool_prop_intro. rewrite !Is_true_true.
  rewrite (ref_change_meta st st' _ _ _ _ g Hst Hst' Hch Hg), is_meta_spec by done.
  pose proof (rc_slot _ _ _ _ _ _ Hch) as Hv.
  split; intros [Hg0 H]; (split; [done|]).
  - destruct H as [Hp|(sj & d & Hs & _ & Hc)]; [by exists si, c | by exists sj, d].
  - destruct H as (sj & d & Hs & Hc). destruct (slot_cases sj d si c) as [(_ & -> & ->)|(_ & Hne)]; [by left|].
    right. by exists sj, d.
Qed.

Lemma meta_added st st' si c p u g :
  pmm_wf st → pmm_wf st' → ref_change st st' si c p u → chunk_at st si c = 0 →
  0 < p → (4096 | p) → 0 ≤ g → is_meta st' g = is_meta st g || (g =? p / 4096).
Proof.
  intros Hst Hst' Hch Hz Hp [x Hx] Hg. apply eq_bool_prop_intro. rewrite !Is_true_true, orb_true_iff, Z.eqb_eq.
  rewrite (ref_change_meta st st' _ _ _ _ g Hst Hst' Hch Hg), is_meta_spec by done.
  subst p. rewrite Z.div_mul by lia. split.
  - intros [Hg0 [Hp'|(sj & d & Hs & _ & Hc)]]; [right; lia|]. left. split; [done|]. by exists sj, d.
  - intros [[Hg0 (sj & d & Hs & Hc)]| ->]; (split; [lia|]).
    + right. exists sj, d. destruct (slot_cases sj d si c) as [(_ & -> & ->)|(_ & Hne)]; [lia | done].
    + by left.
Qed.

Lemma meta_removed st st' si c u g :
  pmm_inv st → pmm_wf st' → ref_change st st' si c 0 u → chunk_at st si c ≠ 0 → 0 ≤ g →
  is_meta st' g = is_meta st g && negb (g =? chunk_at st si c / 4096).
Proof.
  intros [Hst _ _ Hr] Hst' Hch Hz Hg. pose proof (rc_slot _ _ _ _ _ _ Hch) as Hv.
  apply eq_bool_prop_intro. rewrite !Is_true_true, andb_true_iff, negb_true_iff, Z.eqb_neq.
  rewrite (ref_change_meta st st' _ _ _ _ g Hst Hst' Hch Hg), is_meta_spec by done.
  destruct (rw_chunk st Hr si c Hv) as [[? _]|(_ & [x Hx] & _)]; [done|]. split.
  - intros [Hg0 [?|(sj & d & Hs & Hne & Hc)]]; [lia|]. split; [split; [done|]; by exists sj, d|].
    intros ->. rewrite Hx, Z.div_mul in Hc by lia. destruct (rw_inj st Hr sj d si c Hs Hv); lia.
  - intros [[Hg0 (sj & d & Hs & Hc)] Hne]. split; [done|]. right. exists sj, d.
    destruct (slot_cases sj d si c) as [(_ & -> & ->)|(_ & Hd)]; [|done].
    exfalso. apply Hne. rewrite Hc, Z.div_mul; lia.
Qed.

(** *** Chunk contents *)

Lemma nonzeros_bound l : 0 ≤ nonzeros l ≤ zlen l.
Proof. induction l as [|x l IH]; simpl; [lia|]. unfold b2z. destruct (negb _); lia. Qed.

Lemma nonzeros_set l o v :
  0 ≤ o < zlen l →
  nonzeros l.[o <- v] = nonzeros l - b2z (negb (l.[o] =? 0)) + b2z (negb (v =? 0)).
Proof.
  unfold aset, aget. intros Ho. set (n := Z.to_nat o). assert (Hn : (n < length l)%nat) by lia.
  clearbody n. clear Ho. revert n Hn.
  induction l as [|x l IH]; intros [|n] Hn; simpl in *; [lia..|]. rewrite IH by lia. lia.
Qed.

Lemma nonzeros_pos l o : 0 ≤ o < zlen l → l.[o] ≠ 0 → 0 < nonzeros l.
Proof.
  intros Ho Hx. pose proof (nonzeros_set l o 0 Ho) as H. pose proof (nonzeros_bound l.[o <- 0]).
  destruct (Z.eqb_spec l.[o] 0); simpl in H; [done|lia].
Qed.

Lemma nonzeros_replicate n : nonzeros (replicate n 0) = 0.
Proof. induction n; simpl; lia. Qed.

Lemma chunk_zeros_ok :
  zlen chunk_zeros = 4096 ∧ Forall is_u8 chunk_zeros ∧ nonzeros chunk_zeros = 0 ∧
  ∀ o, 0 ≤ o < 4096 → chunk_zeros.[o] = 0.
Proof.
  unfold chunk_zeros, PMM_FRAME_SIZE. split_and!.
  - rewrite length_replicate. lia.
  - apply Forall_replicate. unfold is_u8. lia.
  - apply nonzeros_replicate.
  - intros o Ho. apply aget_replicate. lia.
Qed.
#[global] Opaque chunk_zeros.

Lemma forall_u8_get l o : Forall is_u8 l → 0 ≤ o < zlen l → is_u8 l.[o].
Proof.
  intros Hl Ho. rewrite Forall_lookup in Hl. apply (Hl (Z.to_nat o)). by apply aget_lookup.
Qed.
Lemma forall_u8_set l o v : Forall is_u8 l → is_u8 v → Forall is_u8 l.[o <- v].
Proof. intros. by apply Forall_insert. Qed.

Lemma set_chunks_wf st n m : pmm_wf st → pmm_wf (set_chunks st n m).
Proof. intros []. by constructor. Qed.

Lemma has_section_sec st f :
  0 ≤ f → has_section st f = true →
  ∃ s, sec_of st f = Some s ∧ (g_sec st).[f / 262144] = Some s ∧ 0 ≤ f / 262144 < g_nsec st.
Proof.
  intros Hf. unfold has_section, sec_of. rewrite shiftr18.
  destruct (Z.ltb_spec (f / 262144) (g_nsec st)); [|done].
  destruct ((g_sec st).[f / 262144]) as [s|] eqn:E; [|done]. intros _. exists s.
  split_and!; try done. apply Z.div_pos; lia.
Qed.

(** *** Counting a reference in an existing chunk *)

Section share_slot.
Context (st : pmm) (f p : Z) (l : list Z).
Let si := f / 262144.
Let c := f mod 262144 / 4096.
Let o := f mod 4096.
Hypothesis Hst : pmm_wf st.
Hypothesis Hf : 0 ≤ f.
Hypothesis Hsec : has_section st f = true.
Hypothesis Hp : chunk_at st si c = p.
Hypothesis Hl : g_chunks st !! p = Some l.
Hypothesis Hlen : zlen l = 4096.
Hypothesis Hu8 : Forall is_u8 l.
Hypothesis Hused : used_at st si c = nonzeros l.

Lemma slot_get_eq : slot_get st (p, o) = l.[o].
Proof. unfold slot_get, lookup_total, map_lookup_total. simpl. by rewrite Hl. Qed.

Lemma slot_off : 0 ≤ o < zlen l.
Proof. rewrite Hlen. apply Z.mod_pos_bound. lia. Qed.

(** After [l'] has replaced the chunk contents and the count of non-zero
    entries has been brought up to date. *)
Record slot_updated (st' : pmm) (l' : list Z) : Prop := {
  su_wf : pmm_wf st';
  su_nsec : g_nsec st' = g_nsec st;
  su_sectioned : g_sectioned st' = g_sectioned st;
  su_frames : ∀ g, 0 ≤ g → frame_free st' g = frame_free st g;
  su_sections : ∀ g, 0 ≤ g → has_section st' g = has_section st g;
  su_chunk : ∀ sj d, slot_valid st sj d → chunk_at st' sj d = chunk_at st sj d;
  su_used : ∀ sj d, slot_valid st sj d →
    used_at st' sj d = if (sj =? si) && (d =? c) then nonzeros l' else used_at st sj d;
  su_chunks : g_chunks st' = <[p := l']> (g_chunks st)
}.

Lemma share_slot_spec :
  slot_updated (share_slot st f (p, o)) l.[o <- Z.min 255 (l.[o] + 1)].
Proof.
  unfold share_slot, PMM_REF_STICKY. rewrite slot_get_eq.
  autorewrite with secos_ref. fold si c.
  pose proof slot_off as Ho. pose proof (forall_u8_get l o Hu8 Ho) as Hv. unfold is_u8 in Hv.
  destruct (has_section_sec st f Hf Hsec) as (s & _ & Hs & Hsi). fold si in Hs, Hsi.
  pose proof (frame_slot_valid st f Hf Hsec) as Hval. fold si c in Hval.
  pose proof (nonzeros_set l o (Z.min 255 (l.[o] + 1)) Ho) as Hnz.
  pose proof (nonzeros_bound l) as Hnb.
  destruct (Z.eqb_spec l.[o] 255) as [H255|H255].
  { destruct (Z.eqb_spec l.[o] 0); [lia|].
    replace (Z.min 255 (l.[o] + 1)) with l.[o] in * by lia. rewrite aset_same by done.
    constructor; try done.
    - intros sj d Hv'. destruct (slot_cases sj d si c) as [(-> & -> & ->)|(-> & _)]; done.
    - by rewrite insert_id. }
  replace (Z.min 255 (l.[o] + 1)) with (l.[o] + 1) in * by lia.
  unfold slot_put. cbn [fst snd].
  destruct (Z.eqb_spec l.[o] 0) as [Hz|Hz]; simpl b2z in Hnz.
  - destruct (slot_section st si c s Hst Hval Hs) as (_ & Hu & _).
    assert (Hup : upd_sec st si (λ s, put_ref_used c (u16 ((sec_refs_used s).[c] + 1)) s) =
                  upd_sec st si (put_ref_used c (nonzeros l + 1))).
    { unfold upd_sec. rewrite Hs, <- Hu, Hused, u16_small; [done|]. unfold_uint; lia. }
    rewrite Hup. destruct (put_ref_used_step st si c s (nonzeros l + 1) Hst Hval Hs).
    rewrite u8_small by (unfold_uint; lia).
    constructor; try done.
    + by apply set_chunks_wf.
    + intros sj d Hv'. change (chunk_at (set_chunks _ _ _) sj d) with
        (chunk_at (upd_sec st si (put_ref_used c (nonzeros l + 1))) sj d). rewrite rs_chunk0 by done.
      destruct (slot_cases sj d si c) as [(-> & -> & ->)|(-> & _)]; done.
    + intros sj d Hv'. change (used_at (set_chunks _ _ _) sj d) with
        (used_at (upd_sec st si (put_ref_used c (nonzeros l + 1))) sj d). rewrite rs_used0 by done.
      destruct (slot_cases sj d si c) as [(-> & _)|(-> & _)]; [|done].
      destruct (Z.eqb_spec (l.[o] + 1) 0); simpl in Hnz; lia.
    + simpl. rewrite rs_chunks0. unfold lookup_total, map_lookup_total. by rewrite Hl.
  - rewrite u8_small by (unfold_uint; lia).
    constructor; try done.
    + by apply set_chunks_wf.
    + intros sj d Hv'. change (used_at (set_chunks _ _ _) sj d) with (used_at st sj d).
      destruct (slot_cases sj d si c) as [(-> & -> & ->)|(-> & _)]; [|done].
      destruct (Z.eqb_spec (l.[o] + 1) 0); simpl in Hnz; lia.
    + simpl. unfold lookup_total, map_lookup_total. by rewrite Hl.
Qed.
End share_slot.

Lemma slot_split f g :
  0 ≤ f → 0 ≤ g → f / 262144 = g / 262144 → f mod 262144 / 4096 = g mod 262144 / 4096 →
  f mod 4096 = g mod 4096 → f = g.
Proof. intros. Z.to_euclidean_division_equations; lia. Qed.

(** A slot update as a change of the tables, for a chunk whose frame is in
    use, and what it does to the counts. *)
Lemma slot_updated_change st f p l l' st' :
  refs_wf st → 0 ≤ f → has_section st f = true →
  chunk_at st (f / 262144) (f mod 262144 / 4096) = p → p ≠ 0 → g_chunks st !! p = Some l →
  zlen l' = 4096 → Forall is_u8 l' → 0 < nonzeros l' →
  slot_updated st f p st' l' →
  ref_change st st' (f / 262144) (f mod 262144 / 4096) p (nonzeros l').
Proof.
  intros [Hch Hinj] Hf Hsec Hp Hp0 Hl Hlen Hu8 Hnz [].
  pose proof (frame_slot_valid st f Hf Hsec) as Hval.
  specialize (Hch _ _ Hval) as Hok. rewrite Hp in Hok.
  destruct Hok as [[? _]|(Hpr & Hd & Hhas & Hfree & _)]; [done|].
  assert (0 ≤ p / 4096) by (apply Z.div_pos; lia).
  constructor; try done.
  - intros sj d Hs. rewrite su_chunk0 by done.
    destruct (slot_cases sj d (f / 262144) (f mod 262144 / 4096)) as [(-> & -> & ->)|(-> & _)]; done.
  - right. split_and!; try done; try lia.
    + by rewrite su_sections0.
    + by rewrite su_frames0.
    + exists l'. rewrite su_chunks0, lookup_insert_eq. done.
  - intros sj d Hs Hne Hdiff. assert (Hneq : chunk_at st sj d ≠ p).
    { intros Heq. destruct (Hinj sj d _ _ Hs Hval Hne); [congruence|]. lia. }
    split_and!; [done| |].
    + rewrite su_chunks0, lookup_insert_ne by congruence. done.
    + apply su_frames0. specialize (Hch sj d Hs). destruct Hch as [[? _]|[? _]]; [done|].
      apply Z.div_pos; lia.
Qed.

(** The counts after the chunk of [f] has changed at the entry of [f] only. *)
Lemma ref_change_count st st' f p l o' v u :
  pmm_wf st → pmm_wf st' → 0 ≤ f → o' = f mod 4096 → zlen l = 4096 → p ≠ 0 →
  ref_change st st' (f / 262144) (f mod 262144 / 4096) p u →
  g_chunks st' !! p = Some l.[o' <- v] →
  (∀ g, 0 ≤ g → g / 262144 = f / 262144 → g mod 262144 / 4096 = f mod 262144 / 4096 →
     refcnt st g = l.[g mod 4096]) →
  ∀ g, 0 ≤ g → refcnt st' g = if g =? f then v else refcnt st g.
Proof.
  intros Hst Hst' Hf -> Hlen Hp Hch Hl Hold g Hg.
  destruct (decide (g / 262144 = f / 262144 ∧ g mod 262144 / 4096 = f mod 262144 / 4096)) as [[H1 H2]|Hne].
  - rewrite (ref_change_slot _ _ _ _ _ _ _ Hch H1 H2).
    destruct (Z.eqb_spec p 0); [done|]. unfold lookup_total, map_lookup_total. rewrite Hl. simpl.
    pose proof (Z.mod_pos_bound f 4096 ltac:(lia)). pose proof (Z.mod_pos_bound g 4096 ltac:(lia)).
    rewrite aget_aset, (Hold g) by (done || lia).
    destruct (Z.eqb_spec (f mod 4096) (g mod 4096)) as [He|He], (Z.eqb_spec g f) as [->|Hgf]; try done.
    exfalso. apply Hgf. by apply slot_split.
  - rewrite (ref_change_other st st' _ _ _ _ g Hst Hst' Hch Hg) by lia.
    destruct (Z.eqb_spec g f) as [->|]; [lia|done].
Qed.

Lemma chunk_data st f :
  refs_wf st → 0 ≤ f → has_section st f = true →
  let p := chunk_at st (f / 262144) (f mod 262144 / 4096) in
  p ≠ 0 →
  ∃ l, g_chunks st !! p = Some l ∧ zlen l = 4096 ∧ Forall is_u8 l ∧
    used_at st (f / 262144) (f mod 262144 / 4096) = nonzeros l ∧ 0 < nonzeros l ∧
    ∀ g, g / 262144 = f / 262144 → g mod 262144 / 4096 = f mod 262144 / 4096 →
      refcnt st g = l.[g mod 4096].
Proof.
  intros Hr Hf Hsec p Hp. pose proof (frame_slot_valid st f Hf Hsec) as Hval.
  destruct (rw_chunk st Hr _ _ Hval) as [[? _]|(_ & _ & _ & _ & Hu & l & Hl & Hlen & Hu8 & Hn)]; [done|].
  exists l. rewrite Hn in *. split_and!; try done. intros g H1 H2. unfold refcnt. rewrite H1, H2.
  fold p. destruct (Z.eqb_spec p 0); [done|]. unfold lookup_total, map_lookup_total.
  by unfold p; rewrite Hl.
Qed.

(** The counts of all frames after one reference to [f] has been added. *)
Definition count_added (st st' : pmm) (f : Z) : Prop :=
  ∀ g, 0 ≤ g → refcnt st' g = if g =? f then Z.min 255 (refcnt st f + 1) else refcnt st g.

(** The sections are the same; one frame [q] changes hands, or none: it is
    taken from the free frames for a new chunk, or was a chunk and is given
    back. *)
Definition same_sections (st st' : pmm) : Prop :=
  g_nsec st' = g_nsec st ∧ ∀ g, 0 ≤ g → has_section st' g = has_section st g.
Definition frames_same (st st' : pmm) : Prop :=
  ∀ g, 0 ≤ g → frame_free st' g = frame_free st g ∧ is_meta st' g = is_meta st g.
Definition frame_taken (st st' : pmm) : Prop :=
  same_sections st st' ∧
  (frames_same st st' ∨
   ∃ q, 0 ≤ q ∧ frame_free st q = true ∧ ∀ g, 0 ≤ g →
     frame_free st' g = frame_free st g && negb (g =? q) ∧ is_meta st' g = is_meta st g || (g =? q)).
Definition frame_given (st st' : pmm) : Prop :=
  same_sections st st' ∧
  (frames_same st st' ∨
   ∃ q, frame_free st q = false ∧ is_meta st q = true ∧ ∀ g, 0 ≤ g →
     frame_free st' g = frame_free st g || (g =? q) ∧ is_meta st' g = is_meta st g && negb (g =? q)).

Lemma frame_given_refl st : frame_given st st.
Proof. split; [done | by left]. Qed.

Lemma share_existing st f :
  pmm_inv st → 0 ≤ f → has_section st f = true →
  let p := chunk_at st (f / 262144) (f mod 262144 / 4096) in
  p ≠ 0 →
  let st' := share_slot st f (p, f mod 4096) in
  pmm_inv st' ∧ count_added st st' f ∧ frame_taken st st'.
Proof.
  intros [Hst Hsd H0 Hr] Hf Hsec p Hp st'.
  destruct (chunk_data st f Hr Hf Hsec Hp) as (l & Hl & Hlen & Hu8 & Hu & Hpos & Hcnt).
  pose proof (share_slot_spec st f p l Hst Hf Hsec Hl Hlen Hu8 Hu) as Hs. fold st' in Hs.
  assert (Ho : 0 ≤ f mod 4096 < zlen l) by (rewrite Hlen; apply Z.mod_pos_bound; lia).
  pose proof (forall_u8_get l _ Hu8 Ho) as Hv. unfold is_u8 in Hv.
  set (v := Z.min 255 (l.[f mod 4096] + 1)) in *.
  assert (Hch := slot_updated_change st f p l l.[f mod 4096 <- v] st' Hr Hf Hsec eq_refl Hp Hl
    ltac:(by rewrite aset_length) ltac:(apply forall_u8_set; [done | unfold is_u8; lia])).
  specialize (Hch ltac:(apply (nonzeros_pos _ (f mod 4096)); [by rewrite aset_length|];
    rewrite aget_aset_eq by done; lia) Hs).
  split_and!.
  - constructor; [apply Hs | by rewrite (su_sectioned _ _ _ _ _ Hs)
      | by rewrite (su_frames _ _ _ _ _ Hs) | by eapply ref_change_wf].
  - unfold count_added. rewrite (Hcnt f) by done.
    eapply ref_change_count; try done; [apply Hs|..].
    + by rewrite (su_chunks _ _ _ _ _ Hs), lookup_insert_eq.
    + intros g Hg H1 H2. by apply Hcnt.
  - split; [split; apply Hch|]. left. intros g Hg. split; [by apply Hs|].
    eapply meta_kept; [done | apply Hs | done..].
Qed.

(** A fresh chunk [p]: the frame has been claimed, the slot of [f] names it
    and it holds zeros. *)
Section fresh_chunk.
Context (st st1 : pmm) (f p n : Z).
Let si := f / 262144.
Let c := f mod 262144 / 4096.
Hypothesis Hinv : pmm_inv st.
Hypothesis Hf : 0 ≤ f.
Hypothesis Hsec : has_section st f = true.
Hypothesis Hclaim : claimed st st1 (p / 4096) 1.
Let st2 := upd_sec st1 si (put_ref c p).
Let st3 := set_chunks st2 n (<[p := chunk_zeros]> (g_chunks st2)).

Let Hval : slot_valid st si c := frame_slot_valid st f Hf Hsec.

Lemma fresh_step : ref_step st1 st2 si c p (used_at st1 si c).
Proof.
  destruct Hclaim as ((Hwf1 & Hsec1 & _) & Ho1 & _).
  destruct (has_section_sec st1 f Hf) as (s & _ & Hs & _); [by rewrite Hsec1|].
  eapply put_ref_step; try done. unfold slot_valid. rewrite (fo_nsec _ _ Ho1). apply Hval.
Qed.

Lemma fresh_wf : pmm_wf st3.
Proof. apply set_chunks_wf. apply fresh_step. Qed.

Lemma fresh_nsec : g_nsec st3 = g_nsec st ∧ g_sectioned st3 = true.
Proof.
  destruct Hclaim as (_ & Ho & _). pose proof (pi_sectioned st Hinv) as Hs.
  change (g_nsec st3) with (g_nsec st2). change (g_sectioned st3) with (g_sectioned st2).
  rewrite (rs_nsec _ _ _ _ _ _ fresh_step), (rs_sectioned _ _ _ _ _ _ fresh_step).
  by rewrite (fo_nsec _ _ Ho), (fo_sectioned _ _ Ho).
Qed.

Lemma fresh_tables sj d : slot_valid st sj d →
  chunk_at st3 sj d = (if (sj =? si) && (d =? c) then p else chunk_at st sj d) ∧
  used_at st3 sj d = used_at st sj d.
Proof.
  intros Hs. destruct Hclaim as (_ & Ho & _).
  assert (Hat : ∀ sj d, slot_valid st sj d →
    chunk_at st1 sj d = chunk_at st sj d ∧ used_at st1 sj d = used_at st sj d).
  { intros sk e [? _]. unfold chunk_at, used_at. rewrite (fo_refs _ _ Ho) by lia. done. }
  assert (Hs1 : slot_valid st1 sj d) by (unfold slot_valid; rewrite (fo_nsec _ _ Ho); apply Hs).
  change (chunk_at st3 sj d) with (chunk_at st2 sj d). change (used_at st3 sj d) with (used_at st2 sj d).
  rewrite (rs_chunk _ _ _ _ _ _ fresh_step), (rs_used _ _ _ _ _ _ fresh_step) by done.
  destruct (Hat sj d Hs) as [-> ->]. split; [done|].
  destruct (slot_cases sj d si c) as [(-> & -> & ->)|(-> & _)]; [|done]. by apply Hat.
Qed.

Lemma fresh_sections g : 0 ≤ g → has_section st3 g = has_section st g.
Proof.
  intros Hg. destruct Hclaim as ((_ & Hs1 & _) & _).
  change (has_section st3 g) with (has_section st2 g).
  by rewrite (rs_sections _ _ _ _ _ _ fresh_step), Hs1.
Qed.

Lemma fresh_frames g : 0 ≤ g → frame_free st3 g = frame_free st g && negb (g =? p / 4096).
Proof.
  intros Hg. destruct Hclaim as ((_ & _ & Hff) & _). change (frame_free st3 g) with (frame_free st2 g).
  rewrite (rs_frames _ _ _ _ _ _ fresh_step), Hff by done. unfold in_range.
  destruct (Z.eqb_spec g (p / 4096)) as [->|Hne]; cbn [negb].
  - rewrite Z.leb_refl, andb_false_r. by destruct (Z.ltb_spec (p / 4096) (p / 4096 + 1)); [|lia].
  - rewrite andb_true_r. by destruct (Z.leb_spec (p / 4096) g), (Z.ltb_spec g (p / 4096 + 1)); try lia.
Qed.

Lemma fresh_chunks q : q ≠ p → g_chunks st3 !! q = g_chunks st !! q.
Proof.
  intros Hq. unfold st3. simpl. rewrite lookup_insert_ne by congruence.
  rewrite (rs_chunks _ _ _ _ _ _ fresh_step). destruct Hclaim as (_ & Ho & _).
  by rewrite (fo_chunks _ _ Ho).
Qed.
End fresh_chunk.

(** What holds once [ref_slot] has created the chunk [p] for [f]. *)
Record fresh_slot (st st3 : pmm) (f p : Z) : Prop := {
  fs_wf : pmm_wf st3;
  fs_nsec : g_nsec st3 = g_nsec st ∧ g_sectioned st3 = true;
  fs_tables : ∀ sj d, slot_valid st sj d →
    chunk_at st3 sj d =
      (if (sj =? f / 262144) && (d =? f mod 262144 / 4096) then p else chunk_at st sj d) ∧
    used_at st3 sj d = used_at st sj d;
  fs_sections : ∀ g, 0 ≤ g → has_section st3 g = has_section st g;
  fs_frames : ∀ g, 0 ≤ g → frame_free st3 g = frame_free st g && negb (g =? p / 4096);
  fs_zeros : g_chunks st3 !! p = Some chunk_zeros;
  fs_chunks : ∀ q, q ≠ p → g_chunks st3 !! q = g_chunks st !! q
}.

Lemma ref_slot_fresh st st1 f p n :
  pmm_inv st → 0 ≤ f → has_section st f = true → claimed st st1 (p / 4096) 1 →
  let st2 := upd_sec st1 (f / 262144) (put_ref (f mod 262144 / 4096) p) in
  fresh_slot st (set_chunks st2 n (<[p := chunk_zeros]> (g_chunks st2))) f p.
Proof.
  intros Hinv Hf Hsec Hc st2. constructor.
  - by apply (fresh_wf st).
  - by apply (fresh_nsec st st1).
  - by apply (fresh_tables st st1).
  - by apply (fresh_sections st st1).
  - by apply (fresh_frames st st1).
  - apply lookup_insert_eq.
  - by apply (fresh_chunks st st1 f p n).
Qed.

Section share_fresh.
Context (st st3 : pmm) (f p : Z).
Let si := f / 262144.
Let c := f mod 262144 / 4096.
Hypothesis Hinv : pmm_inv st.
Hypothesis Hf : 0 ≤ f.
Hypothesis Hsec : has_section st f = true.
Hypothesis Hz : chunk_at st si c = 0.
Hypothesis Hp : 0 < p < 2 ^ 60.
Hypothesis Hd : (4096 | p).
Hypothesis Hpfree : frame_free st (p / 4096) = true.
Hypothesis Hfs : fresh_slot st st3 f p.

Let Hval : slot_valid st si c := frame_slot_valid st f Hf Hsec.

(** No other slot names the frame that was just claimed. *)
Lemma fresh_distinct sj d : slot_valid st sj d → chunk_at st sj d ≠ 0 →
  chunk_at st sj d ≠ p ∧ 0 ≤ chunk_at st sj d / 4096 ∧ chunk_at st sj d / 4096 ≠ p / 4096.
Proof.
  intros Hs Hne. destruct (rw_chunk st (pi_refs st Hinv) sj d Hs) as [[? _]|(Hr & Hdd & _ & Hff & _)]; [done|].
  split; [intros Heq; rewrite Heq in Hff; congruence|].
  split; [apply Z.div_pos; lia|]. intros Heq. rewrite Heq in Hff. congruence.
Qed.

Lemma fresh_change st' l' :
  slot_updated st3 f p st' l' → zlen l' = 4096 → Forall is_u8 l' → 0 < nonzeros l' →
  ref_change st st' si c p (nonzeros l').
Proof.
  intros Hs Hlen Hu8 Hnz. destruct Hfs as [_ [Hn3 _] Ht Hse Hfr _ Hc].
  assert (Hv3 : ∀ sj d, slot_valid st sj d → slot_valid st3 sj d)
    by (intros sj d; unfold slot_valid; by rewrite Hn3).
  assert (Hpf : 0 ≤ p / 4096) by (apply Z.div_pos; lia).
  constructor.
  - exact Hval.
  - by rewrite (su_nsec _ _ _ _ _ Hs).
  - intros sj d Hsl. rewrite (su_chunk _ _ _ _ _ Hs) by auto. by apply Ht.
  - intros sj d Hsl. rewrite (su_used _ _ _ _ _ Hs) by auto. by destruct (Ht sj d Hsl) as [_ ->].
  - right. split; [lia|]. split; [done|]. split_and!.
    + rewrite (su_sections _ _ _ _ _ Hs), Hse by done. by apply frame_free_has_section.
    + rewrite (su_frames _ _ _ _ _ Hs), Hfr, Z.eqb_refl by done. apply andb_false_r.
    + done.
    + exists l'. by rewrite (su_chunks _ _ _ _ _ Hs), lookup_insert_eq.
  - intros g Hg. by rewrite (su_sections _ _ _ _ _ Hs), Hse.
  - intros sj d Hsl Hne _. destruct (fresh_distinct sj d Hsl Hne) as (Hnp & Hq & Hqp).
    split_and!; [done| |].
    + rewrite (su_chunks _ _ _ _ _ Hs), lookup_insert_ne by congruence. by apply Hc.
    + rewrite (su_frames _ _ _ _ _ Hs), Hfr by done.
      destruct (Z.eqb_spec (chunk_at st sj d / 4096) (p / 4096)); [done|]. apply andb_true_r.
Qed.

Lemma share_fresh :
  let st' := share_slot st3 f (p, f mod 4096) in
  pmm_inv st' ∧ count_added st st' f ∧ frame_taken st st'.
Proof.
  pose proof Hfs as [Hwf3 [Hn3 Hsd3] Ht Hse Hfr Hl3 _].
  destruct chunk_zeros_ok as (Hlen & Hu8 & Hz0 & Hget).
  assert (Ho : 0 ≤ f mod 4096 < zlen chunk_zeros) by (rewrite Hlen; apply Z.mod_pos_bound; lia).
  assert (Hu0 : used_at st3 si c = nonzeros chunk_zeros).
  { destruct (Ht si c Hval) as [_ ->]. rewrite Hz0.
    destruct (rw_chunk st (pi_refs st Hinv) _ _ Hval) as [[_ ?]|[? _]]; [done|lia]. }
  pose proof (share_slot_spec st3 f p chunk_zeros Hwf3 Hf ltac:(by rewrite Hse) Hl3 Hlen Hu8 Hu0) as Hs.
  rewrite (Hget (f mod 4096)) in Hs by lia. change (Z.min 255 (0 + 1)) with 1 in Hs.
  generalize dependent (share_slot st3 f (p, f mod 4096)). intros st' Hs.
  assert (Hch : ref_change st st' si c p (nonzeros chunk_zeros.[f mod 4096 <- 1])).
  { apply fresh_change; [done | by rewrite aset_length | apply forall_u8_set; [done | unfold is_u8; lia] |].
    apply (nonzeros_pos _ (f mod 4096)); [by rewrite aset_length|]. rewrite aget_aset_eq by done. lia. }
  assert (Hfr' : ∀ g, 0 ≤ g → frame_free st' g = frame_free st g && negb (g =? p / 4096)).
  { intros g Hg. rewrite (su_frames _ _ _ _ _ Hs) by done. by apply Hfr. }
  split_and!; [|unfold count_added|].
  - constructor; [apply Hs | by rewrite (su_sectioned _ _ _ _ _ Hs) | | eapply ref_change_wf; [apply Hinv|exact Hch]].
    rewrite Hfr', (pi_zero st Hinv) by lia. done.
  - assert (H0 : ∀ g, g / 262144 = si → g mod 262144 / 4096 = c → refcnt st g = 0).
    { intros g H1 H2. unfold refcnt. rewrite H1, H2, Hz. done. }
    rewrite (H0 f) by done. change (Z.min 255 (0 + 1)) with 1.
    apply (ref_change_count st st' f p chunk_zeros (f mod 4096) 1 _ (pi_wf st Hinv) (su_wf _ _ _ _ _ Hs)
      Hf eq_refl Hlen ltac:(lia) Hch).
    + by rewrite (su_chunks _ _ _ _ _ Hs), lookup_insert_eq.
    + intros g Hg H1 H2. rewrite (H0 g) by done. symmetry. apply Hget.
      apply Z.mod_pos_bound. lia.
  - split; [split; apply Hch|]. right. exists (p / 4096).
    split; [apply Z.div_pos; lia|]. split; [done|]. intros g Hg. split; [by apply Hfr'|].
    eapply meta_added; [apply Hinv | apply Hs | done | done | lia | done | done].
Qed.
End share_fresh.

Lemma no_free_frame st : pmm_wf st →
  (∀ f, fits 1048576 (limit_frames ALL_ONES) 1 f → ¬ run_free st f 1) →
  (∀ f, fits 0 (Z.min 1048576 (limit_frames ALL_ONES)) 1 f → ¬ run_free st f 1) →
  ∀ g, 0 ≤ g → frame_free st g = false.
Proof.
  intros Hst H1 H2 g Hg. destruct (frame_free st g) eqn:E; [|done]. exfalso.
  pose proof (frame_free_bound st g Hst Hg E).
  assert (Hrun : run_free st g 1) by (intros x Hx; by replace x with g by lia).
  change (limit_frames ALL_ONES) with (2 ^ 48) in *.
  destruct (decide (1048576 ≤ g)); [apply (H1 g) | apply (H2 g)]; try done;
    (split_and!; [lia..|f_equal; lia]).
Qed.

Lemma share_spec st f st' rc :
  pmm_inv st → 0 ≤ f → has_section st f = true → pmm_share_frame st (f * 4096) = (st', rc) →
  (rc = 0 ∧ pmm_inv st' ∧ count_added st st' f ∧ frame_taken st st') ∨
  (rc = -1 ∧ st' = st ∧ refcnt st f = 0 ∧ ∀ g, 0 ≤ g → frame_free st g = false).
Proof.
  intros Hinv Hf Hsec. pose proof Hinv as [Hst Hsd H0 Hr].
  unfold pmm_share_frame, ref_slot, PMM_FRAME_SIZE. rewrite Z.div_mul, Hsd by lia.
  destruct (has_section_sec st f Hf Hsec) as (s & -> & Hs & Hsi).
  autorewrite with secos_ref. cbn [negb].
  pose proof (frame_slot_valid st f Hf Hsec) as Hval.
  destruct (slot_section st _ _ s Hst Hval Hs) as (<- & _).
  set (p := chunk_at st (f / 262144) (f mod 262144 / 4096)).
  destruct (Z.eqb_spec p 0) as [Hp|Hp].
  - destruct (alloc_frame_nolock_below st ALL_ONES) as [st1 q] eqn:Ea.
    apply alloc_frame_spec in Ea; [|done..|by right].
    destruct Ea as [(Hq & Hd & Hlim & Hcl & _)|(-> & -> & Hn & Hd)].
    + destruct (Z.eqb_spec q 0); [lia|]. cbv zeta. intros [= <- <-].
      assert (Hq60 : q < 2 ^ 60).
      { destruct Hcl as (_ & _ & Hfr). assert (0 ≤ q / 4096) by (apply Z.div_pos; lia).
        pose proof (frame_free_bound st (q / 4096) Hst ltac:(lia) (Hfr (q / 4096) ltac:(lia))).
        Z.to_euclidean_division_equations; lia. }
      assert (Hqf : frame_free st (q / 4096) = true) by (apply Hcl; lia).
      pose proof (ref_slot_fresh st st1 f q (u64 (g_ref_chunks (upd_sec st1 (f / 262144)
        (put_ref (f mod 262144 / 4096) q)) + 1)) Hinv Hf Hsec Hcl) as Hfs. cbv zeta in Hfs.
      destruct (share_fresh _ _ f q Hinv Hf Hsec Hp ltac:(lia) Hd Hqf Hfs) as (H1 & H2 & H3).
      left. split; [done|]. split; [exact H1|]. split; [exact H2 | exact H3].
    + intros [= <- <-]. right. split_and!; try done.
      * unfold refcnt. by fold p; rewrite Hp.
      * by apply no_free_frame.
  - intros [= <- <-]. left. destruct (share_existing st f Hinv Hf Hsec Hp) as (H1 & H2 & H3).
    split_and!; done.
Qed.

(** *** Dropping a reference *)

(** The counts of all frames after one reference to [f] has been dropped. *)
Definition count_dropped (st st' : pmm) (f : Z) : Prop :=
  ∀ g, 0 ≤ g → refcnt st' g =
    if g =? f then (if refcnt st f =? 255 then 255 else Z.max 0 (refcnt st f - 1)) else refcnt st g.

(** A write of the slot that leaves it non-zero. *)
Lemma slot_put_updated st f p l v :
  pmm_wf st → 0 ≤ f → has_section st f = true → g_chunks st !! p = Some l → zlen l = 4096 →
  used_at st (f / 262144) (f mod 262144 / 4096) = nonzeros l →
  l.[f mod 4096] ≠ 0 → v ≠ 0 →
  slot_updated st f p (slot_put st (p, f mod 4096) v) l.[f mod 4096 <- v].
Proof.
  intros Hst Hf Hsec Hl Hlen Hu Hv0 Hv.
  assert (Ho : 0 ≤ f mod 4096 < zlen l) by (rewrite Hlen; apply Z.mod_pos_bound; lia).
  pose proof (nonzeros_set l (f mod 4096) v Ho) as Hn.
  destruct (Z.eqb_spec l.[f mod 4096] 0), (Z.eqb_spec v 0); try done. simpl in Hn.
  constructor; try done.
  - by apply set_chunks_wf.
  - intros sj d Hs. change (used_at (slot_put _ _ _) sj d) with (used_at st sj d).
    destruct (slot_cases sj d (f / 262144) (f mod 262144 / 4096)) as [(-> & -> & ->)|(-> & _)]; [lia|done].
  - simpl. unfold lookup_total, map_lookup_total. by rewrite Hl.
Qed.

(** A write of zero with the count of non-zero entries brought down. *)
Lemma slot_clear_updated st f p l :
  pmm_wf st → 0 ≤ f → has_section st f = true → g_chunks st !! p = Some l → zlen l = 4096 →
  used_at st (f / 262144) (f mod 262144 / 4096) = nonzeros l →
  l.[f mod 4096] ≠ 0 →
  slot_updated st f p
    (upd_sec (slot_put st (p, f mod 4096) 0) (f / 262144)
       (put_ref_used (f mod 262144 / 4096) (nonzeros l - 1))) l.[f mod 4096 <- 0].
Proof.
  intros Hst Hf Hsec Hl Hlen Hu Hv0.
  assert (Ho : 0 ≤ f mod 4096 < zlen l) by (rewrite Hlen; apply Z.mod_pos_bound; lia).
  pose proof (nonzeros_set l (f mod 4096) 0 Ho) as Hn.
  destruct (Z.eqb_spec l.[f mod 4096] 0); [done|]. simpl in Hn.
  pose proof (frame_slot_valid st f Hf Hsec) as Hval.
  destruct (has_section_sec st f Hf Hsec) as (s & _ & Hs & Hsi).
  destruct (put_ref_used_step (slot_put st (p, f mod 4096) 0) _ _ s (nonzeros l - 1)
    (set_chunks_wf _ _ _ Hst) Hval Hs).
  constructor; try done.
  - intros sj d Hsl. rewrite rs_chunk0 by done.
    destruct (slot_cases sj d (f / 262144) (f mod 262144 / 4096)) as [(-> & -> & ->)|(-> & _)]; done.
  - intros sj d Hsl. rewrite rs_used0 by done.
    destruct (slot_cases sj d (f / 262144) (f mod 262144 / 4096)) as [(-> & _)|(-> & _)]; [lia|done].
  - rewrite rs_chunks0. simpl. unfold lookup_total, map_lookup_total. by rewrite Hl.
Qed.

Lemma nonzeros_none l o : nonzeros l = 0 → 0 ≤ o < zlen l → l.[o] = 0.
Proof.
  intros Hn Ho. destruct (decide (l.[o] = 0)) as [|Hne]; [done|].
  pose proof (nonzeros_pos l o Ho Hne). lia.
Qed.

(** The last count of the chunk [p] of [f] has gone: the slot is cleared and
    the frame of the chunk is freed. *)
Section release_chunk.
Context (st st1 : pmm) (f p n : Z) (l : list Z).
Let si := f / 262144.
Let c := f mod 262144 / 4096.
Hypothesis Hinv : pmm_inv st.
Hypothesis Hf : 0 ≤ f.
Hypothesis Hsec : has_section st f = true.
Hypothesis Hpc : chunk_at st si c = p.
Hypothesis Hp : p ≠ 0.
Hypothesis Hl : g_chunks st !! p = Some l.
Hypothesis Hlen : zlen l = 4096.
Hypothesis Hlast : nonzeros l.[f mod 4096 <- 0] = 0.
Hypothesis Hcnt : ∀ g, g / 262144 = si → g mod 262144 / 4096 = c → refcnt st g = l.[g mod 4096].
Hypothesis Hone : l.[f mod 4096] = 1.
Hypothesis Hupd : slot_updated st f p st1 l.[f mod 4096 <- 0].
Let st2 := upd_sec st1 si (put_ref c 0).
Let st3 := set_chunks st2 n (g_chunks st2).

Let Hval : slot_valid st si c := frame_slot_valid st f Hf Hsec.

Lemma release_chunk_frame :
  (4096 | p) ∧ 0 < p / 4096 ∧ has_section st (p / 4096) = true ∧ frame_free st (p / 4096) = false.
Proof.
  pose proof (rw_chunk st (pi_refs st Hinv) si c Hval) as Hok. rewrite Hpc in Hok.
  destruct Hok as [[? _]|(Hr & Hd & Hh & Hff & _)]; [done|]. split_and!; try done.
  destruct Hd as [x ->]. rewrite Z.div_mul by lia. lia.
Qed.

Lemma release_step : ref_step st1 st2 si c 0 (used_at st1 si c).
Proof.
  destruct (has_section_sec st1 f Hf) as (s & _ & Hs & _).
  { by rewrite (su_sections _ _ _ _ _ Hupd). }
  eapply put_ref_step; [apply Hupd| |done]. unfold slot_valid. rewrite (su_nsec _ _ _ _ _ Hupd). apply Hval.
Qed.

Lemma release_frames g : 0 ≤ g → frame_free st3 g = frame_free st g ∧ has_section st3 g = has_section st g.
Proof.
  intros Hg. change (frame_free st3 g) with (frame_free st2 g).
  change (has_section st3 g) with (has_section st2 g).
  rewrite (rs_frames _ _ _ _ _ _ release_step), (su_frames _ _ _ _ _ Hupd) by done.
  by rewrite (rs_sections _ _ _ _ _ _ release_step), (su_sections _ _ _ _ _ Hupd).
Qed.

Lemma release_tables sj d : slot_valid st sj d →
  chunk_at st3 sj d = (if (sj =? si) && (d =? c) then 0 else chunk_at st sj d) ∧
  used_at st3 sj d = (if (sj =? si) && (d =? c) then 0 else used_at st sj d).
Proof.
  intros Hs. assert (Hs1 : slot_valid st1 sj d) by (unfold slot_valid; rewrite (su_nsec _ _ _ _ _ Hupd); apply Hs).
  change (chunk_at st3 sj d) with (chunk_at st2 sj d). change (used_at st3 sj d) with (used_at st2 sj d).
  rewrite (rs_chunk _ _ _ _ _ _ release_step), (rs_used _ _ _ _ _ _ release_step) by done.
  rewrite (su_chunk _ _ _ _ _ Hupd), !(su_used _ _ _ _ _ Hupd) by done. fold si c.
  rewrite !Z.eqb_refl. simpl. rewrite Hlast. by destruct (_ && _).
Qed.

Lemma release_chunk st4 :
  marked st3 st4 (p / 4096) (p / 4096 + 1) false → frames_only st3 st4 →
  pmm_inv st4 ∧ count_dropped st st4 f ∧ frame_given st st4.
Proof.
  intros (Hwf4 & Hsec4 & Hff4) Ho4. destruct release_chunk_frame as (Hpd & Hpf & Hph & Hpu).
  assert (Hn : g_nsec st4 = g_nsec st ∧ g_sectioned st4 = g_sectioned st).
  { rewrite (fo_nsec _ _ Ho4), (fo_sectioned _ _ Ho4). change (g_nsec st3) with (g_nsec st2).
    change (g_sectioned st3) with (g_sectioned st2).
    rewrite (rs_nsec _ _ _ _ _ _ release_step), (rs_sectioned _ _ _ _ _ _ release_step).
    by rewrite (su_nsec _ _ _ _ _ Hupd), (su_sectioned _ _ _ _ _ Hupd). }
  assert (Hfr : ∀ g, 0 ≤ g → frame_free st4 g = frame_free st g || (g =? p / 4096)).
  { intros g Hg. destruct (release_frames g Hg) as [H1 H2]. rewrite Hff4, H1, H2 by done.
    unfold in_range. destruct (Z.eqb_spec g (p / 4096)) as [->|].
    - rewrite Z.leb_refl, orb_true_r, Hph. by destruct (Z.ltb_spec (p / 4096) (p / 4096 + 1)); [|lia].
    - rewrite orb_false_r. by destruct (Z.leb_spec (p / 4096) g), (Z.ltb_spec g (p / 4096 + 1)); try lia. }
  assert (Hat : ∀ sj d, slot_valid st sj d → chunk_at st4 sj d = chunk_at st3 sj d ∧ used_at st4 sj d = used_at st3 sj d).
  { intros sj d [? _]. unfold chunk_at, used_at. rewrite (fo_refs _ _ Ho4) by lia. done. }
  assert (Hch : ref_change st st4 si c 0 0).
  { constructor; try (by apply Hn || done).
    - intros sj d Hs. destruct (Hat sj d Hs) as [-> _]. by apply release_tables.
    - intros sj d Hs. destruct (Hat sj d Hs) as [_ ->]. by apply release_tables.
    - by left.
    - intros g Hg. rewrite Hsec4 by done. by apply release_frames.
    - intros sj d Hs Hne Hdiff. assert (Hnp : chunk_at st sj d ≠ p).
      { intros Heq. destruct (rw_inj st (pi_refs st Hinv) sj d si c Hs Hval Hne); [congruence|]. lia. }
      split_and!; [done| |].
      + rewrite (fo_chunks _ _ Ho4). change (g_chunks st3) with (g_chunks st2).
        rewrite (rs_chunks _ _ _ _ _ _ release_step), (su_chunks _ _ _ _ _ Hupd).
        by rewrite lookup_insert_ne by congruence.
      + destruct (rw_chunk st (pi_refs st Hinv) sj d Hs) as [[? _]|(Hr & Hdv & _)]; [done|].
        rewrite Hfr by (apply Z.div_pos; lia).
        destruct (Z.eqb_spec (chunk_at st sj d / 4096) (p / 4096)) as [Heq|]; [|by rewrite orb_false_r].
        exfalso. apply Hnp. destruct Hdv as [x Hx], Hpd as [y Hy]. rewrite Hx, Hy, !Z.div_mul in Heq by lia. congruence. }
  pose proof (pi_wf st Hinv) as Hst.
  split_and!.
  - constructor; [done | by rewrite (proj2 Hn), (pi_sectioned st Hinv) | | eapply ref_change_wf; [apply Hinv|done]].
    rewrite Hfr, (pi_zero st Hinv) by lia. apply orb_false_iff. split; [done|]. lia.
  - intros g Hg. rewrite (Hcnt f), Hone by done. change (Z.max 0 (1 - 1)) with 0. simpl.
    destruct (decide (g / 262144 = si ∧ g mod 262144 / 4096 = c)) as [[H1 H2]|Hne].
    + rewrite (ref_change_slot _ _ _ _ _ _ _ Hch H1 H2). simpl.
      destruct (Z.eqb_spec g f) as [|Hgf]; [done|]. rewrite (Hcnt g) by done.
      pose proof (Z.mod_pos_bound g 4096 ltac:(lia)). pose proof (Z.mod_pos_bound f 4096 ltac:(lia)).
      pose proof (nonzeros_none _ (g mod 4096) Hlast) as Hz. rewrite aset_length in Hz.
      specialize (Hz ltac:(lia)). rewrite aget_aset_ne in Hz; [done|lia|lia|].
      intros He. apply Hgf. symmetry. by apply slot_split.
    + rewrite (ref_change_other st st4 _ _ _ _ g Hst Hwf4 Hch Hg) by lia.
      destruct (Z.eqb_spec g f) as [->|]; [|done]. exfalso. apply Hne. done.
  - split; [split; apply Hch|]. right. exists (p / 4096). split_and!; [done| |].
    + apply is_meta_spec; [done|]. split; [done|]. exists si, c. split; [done|].
      destruct Hpd as [x ->]. rewrite Z.div_mul; lia.
    + intros g Hg. split; [by apply Hfr|]. rewrite <- Hpc. eapply meta_removed; try done. by rewrite Hpc.
Qed.
End release_chunk.

Lemma refcnt_no_section st f : pmm_wf st → 0 ≤ f → has_section st f = false → refcnt st f = 0.
Proof.
  intros Hst Hf. unfold has_section, sec_of. rewrite shiftr18. unfold refcnt, chunk_at, refs_of.
  assert (0 ≤ f / 262144) by (apply Z.div_pos; lia).
  destruct (Z.ltb_spec (f / 262144) (g_nsec st)).
  - by destruct ((g_sec st).[f / 262144]).
  - intros _. fold (refs_of st (f / 262144)). by rewrite refs_of_out by (done || lia).
Qed.

(** Nothing to drop: the state is unchanged. *)
Lemma count_dropped_zero st f : refcnt st f = 0 ∨ refcnt st f = 255 → count_dropped st st f.
Proof.
  intros Hz g Hg. destruct (Z.eqb_spec g f) as [->|]; [|done].
  destruct Hz as [-> | ->]; done.
Qed.

(** [ref_chunk_put] after the count of [f] has been cleared. *)
Lemma unref_last st f l :
  pmm_inv st → 0 ≤ f → has_section st f = true →
  let p := chunk_at st (f / 262144) (f mod 262144 / 4096) in
  p ≠ 0 → g_chunks st !! p = Some l → zlen l = 4096 → Forall is_u8 l →
  used_at st (f / 262144) (f mod 262144 / 4096) = nonzeros l → 0 < nonzeros l →
  (∀ g, g / 262144 = f / 262144 → g mod 262144 / 4096 = f mod 262144 / 4096 →
     refcnt st g = l.[g mod 4096]) →
  l.[f mod 4096] = 1 →
  let st' := ref_chunk_put (slot_put st (p, f mod 4096) 0) (f / 262144) (f mod 262144 / 4096) in
  pmm_inv st' ∧ count_dropped st st' f ∧ frame_given st st'.
Proof.
  intros Hinv Hf Hsec p Hp Hl Hlen Hu8 Hu Hpos Hcnt H1. pose proof Hinv as [Hst Hsd H0 Hr].
  destruct (has_section_sec st f Hf Hsec) as (s & _ & Hs & Hsi).
  pose proof (frame_slot_valid st f Hf Hsec) as Hval.
  assert (Ho : 0 ≤ f mod 4096 < zlen l) by (rewrite Hlen; apply Z.mod_pos_bound; lia).
  pose proof (nonzeros_set l (f mod 4096) 0 Ho) as Hn. rewrite H1 in Hn. simpl in Hn.
  pose proof (nonzeros_bound l) as Hnb.
  pose proof (slot_clear_updated st f p l Hst Hf Hsec Hl Hlen Hu ltac:(lia)) as Hupd.
  destruct (slot_section st _ _ s Hst Hval Hs) as (Hps & Hus & _).
  unfold ref_chunk_put. cbn [slot_put set_chunks g_sec]. rewrite Hs, <- Hus, Hu.
  rewrite u16_small by (unfold_uint; lia).
  set (st1 := upd_sec _ _ (put_ref_used _ _)) in *.
  destruct (Z.eqb_spec (nonzeros l - 1) 0) as [Hlast|Hmore]; cbn [negb].
  - rewrite <- Hps. fold p. cbv zeta. unfold PMM_FRAME_SIZE.
    set (st3 := set_chunks _ _ _). autorewrite with secos_ref. rewrite land_frames.
    destruct (release_chunk_frame st st1 f p l Hinv Hf Hsec eq_refl Hp Hl Hupd) as (Hd & Hpf & Hph & Hpu).
    pose proof (release_frames st st1 f p (u64 (g_ref_chunks (upd_sec st1 (f / 262144)
      (put_ref (f mod 262144 / 4096) 0)) - 1)) l Hf Hsec Hupd (p / 4096) ltac:(lia)) as [Hfr3 Hse3].
    fold st3 in Hfr3, Hse3. rewrite Hph in Hse3. rewrite Hpu in Hfr3.
    destruct (has_section_sec st3 (p / 4096) ltac:(lia) Hse3) as (fs & Hfs & _). rewrite Hfs.
    destruct (sec_mark fs _ _ false) as [fs' c] eqn:Em.
    destruct (unmark_frame st3 (p / 4096) fs fs' c fs') as [Hm Hfo]; try done; [|lia|by left|].
    { apply set_chunks_wf. eapply release_step; done. }
    eapply (release_chunk st st1 f p _ l Hinv Hf Hsec eq_refl Hp Hl Hlen); (done || lia).
  - assert (Hch := slot_updated_change st f p l l.[f mod 4096 <- 0] st1 Hr Hf Hsec eq_refl Hp Hl
      ltac:(by rewrite aset_length) ltac:(apply forall_u8_set; [done | unfold is_u8; lia]) ltac:(lia) Hupd).
    split_and!.
    + constructor; [apply Hupd | by rewrite (su_sectioned _ _ _ _ _ Hupd)
        | by rewrite (su_frames _ _ _ _ _ Hupd) | by eapply ref_change_wf].
    + unfold count_dropped. rewrite (Hcnt f), H1 by done. simpl.
      eapply (ref_change_count st st1 f p l); try done; [apply Hupd|..].
      * by rewrite (su_chunks _ _ _ _ _ Hupd), lookup_insert_eq.
      * intros g Hg. apply Hcnt.
    + split; [split; apply Hch|]. left. intros g Hg. split; [by apply Hupd|].
      eapply meta_kept; [done | apply Hupd | done..].
Qed.

Lemma unref_spec st f st' rc :
  pmm_inv st → 0 ≤ f → pmm_unref_frame st (f * 4096) = (st', rc) →
  rc = b2z (0 <? refcnt st f) ∧ pmm_inv st' ∧ count_dropped st st' f ∧ frame_given st st'.
Proof.
  intros Hinv Hf. pose proof Hinv as [Hst Hsd H0 Hr].
  unfold pmm_unref_frame, ref_slot, PMM_FRAME_SIZE. rewrite Z.div_mul, Hsd by lia.
  destruct (has_section st f) eqn:Hsec.
  2: { pose proof (refcnt_no_section st f Hst Hf Hsec) as Hz. unfold has_section in Hsec.
       destruct (sec_of st f); [done|]. intros [= <- <-]. rewrite Hz.
       split_and!; try done; [apply count_dropped_zero; by left | apply frame_given_refl]. }
  destruct (has_section_sec st f Hf Hsec) as (s & -> & Hs & Hsi).
  autorewrite with secos_ref. cbn [negb].
  pose proof (frame_slot_valid st f Hf Hsec) as Hval.
  destruct (slot_section st _ _ s Hst Hval Hs) as (<- & _).
  set (p := chunk_at st (f / 262144) (f mod 262144 / 4096)).
  destruct (Z.eqb_spec p 0) as [Hp|Hp].
  { intros [= <- <-]. assert (Hz : refcnt st f = 0) by (unfold refcnt; fold p; by rewrite Hp).
    rewrite Hz. split_and!; try done; [apply count_dropped_zero; by left | apply frame_given_refl]. }
  destruct (chunk_data st f Hr Hf Hsec Hp) as (l & Hl & Hlen & Hu8 & Hu & Hpos & Hcnt).
  fold p in Hl. rewrite (slot_get_eq st f p l Hl). rewrite (Hcnt f) by done.
  assert (Ho : 0 ≤ f mod 4096 < zlen l) by (rewrite Hlen; apply Z.mod_pos_bound; lia).
  pose proof (forall_u8_get l _ Hu8 Ho) as Hv. unfold is_u8 in Hv. unfold PMM_REF_STICKY.
  destruct (Z.ltb_spec 0 l.[f mod 4096]) as [Hv0|Hv0].
  2: { intros [= <- <-]. split_and!; try done; [|apply frame_given_refl].
       apply count_dropped_zero. left. rewrite Hcnt by done. lia. }
  destruct (Z.eqb_spec l.[f mod 4096] 255) as [H255|H255].
  { intros [= <- <-]. split_and!; try done; [|apply frame_given_refl].
    apply count_dropped_zero. right. by rewrite Hcnt. }
  rewrite u8_small by (unfold_uint; lia). intros [= <- <-]. split; [done|].
  destruct (Z.eqb_spec (l.[f mod 4096] - 1) 0) as [Hlast|Hmore].
  - rewrite Hlast. apply (unref_last st f l); try done. lia.
  - assert (Hnz : l.[f mod 4096] ≠ 0) by lia.
    pose proof (slot_put_updated st f p l (l.[f mod 4096] - 1) Hst Hf Hsec Hl Hlen Hu
      Hnz Hmore) as Hupd. set (st' := slot_put _ _ _) in *.
    assert (Hch := slot_updated_change st f p l l.[f mod 4096 <- l.[f mod 4096] - 1] st' Hr Hf Hsec eq_refl Hp Hl
      ltac:(by rewrite aset_length) ltac:(apply forall_u8_set; [done | unfold is_u8; lia])).
    specialize (Hch ltac:(apply (nonzeros_pos _ (f mod 4096)); [by rewrite aset_length|];
      rewrite aget_aset_eq by done; lia) Hupd).
    split_and!; [|unfold count_dropped|].
    + constructor; [apply Hupd | done | by rewrite (su_frames _ _ _ _ _ Hupd) | by eapply ref_change_wf].
    + rewrite (Hcnt f) by done. destruct (Z.eqb_spec l.[f mod 4096] 255); [lia|]. rewrite Z.max_r by lia.
      eapply (ref_change_count st st' f p l); try done; [apply Hupd|..].
      * by rewrite (su_chunks _ _ _ _ _ Hupd), lookup_insert_eq.
      * intros g Hg. apply Hcnt.
    + split; [split; apply Hch|]. left. intros g Hg. split; [by apply Hupd|].
      eapply meta_kept; [done | apply Hupd | done..].
Qed.

Lemma pmm_frame_shared_spec st f :
  pmm_inv st → 0 ≤ f → pmm_frame_shared st (f * 4096) = (0 <? refcnt st f).
Proof.
  intros [Hst Hsd H0 Hr] Hf. unfold pmm_frame_shared, ref_slot, PMM_FRAME_SIZE.
  rewrite Z.div_mul, Hsd by lia. destruct (has_section st f) eqn:Hsec.
  - destruct (has_section_sec st f Hf Hsec) as (s & -> & Hs & Hsi). autorewrite with secos_ref. cbn [negb].
    pose proof (frame_slot_valid st f Hf Hsec) as Hval.
    destruct (slot_section st _ _ s Hst Hval Hs) as (<- & _). unfold refcnt, slot_get.
    by destruct (Z.eqb_spec (chunk_at st (f / 262144) (f mod 262144 / 4096)) 0).
  - rewrite (refcnt_no_section st f Hst Hf Hsec). unfold has_section in Hsec. by destruct (sec_of st f).
Qed.

(** ** Properties of the reference counts *)

(** [pmm_share_frame] adds one reference to the frame, saturating at the
    sticky count 255, and leaves the count of every other frame alone; it may
    claim one free frame for the counts and keeps the allocator invariant.  It
    fails only when that frame is needed and no frame is free, and then
    changes nothing. *)
Theorem pmm_share_frame_correct st f st' rc :
  pmm_inv st → 0 ≤ f → has_section st f = true → pmm_share_frame st (f * 4096) = (st', rc) →
  (rc = 0 ∧ pmm_inv st' ∧ count_added st st' f ∧ frame_taken st st') ∨
  (rc = -1 ∧ st' = st ∧ refcnt st f = 0 ∧ ∀ g, 0 ≤ g → frame_free st g = false).
Proof. apply share_spec. Qed.

(** [pmm_unref_frame] reports whether the frame had an extra reference,
    drops exactly one unless the count is sticky, leaves every other count
    alone, and frees at most the frame of a chunk whose last count went to
    zero; the allocator invariant is kept. *)
Theorem pmm_unref_frame_correct st f st' rc :
  pmm_inv st → 0 ≤ f → pmm_unref_frame st (f * 4096) = (st', rc) →
  rc = b2z (pmm_frame_shared st (f * 4096)) ∧ rc = b2z (0 <? refcnt st f) ∧
  pmm_inv st' ∧ count_dropped st st' f ∧ frame_given st st'.
Proof.
  intros Hinv Hf E. rewrite pmm_frame_shared_spec by done.
  destruct (unref_spec st f st' rc Hinv Hf E) as (-> & H). done.
Qed.

Lemma pmm_demo_refs si c : slot_valid pmm_demo si c → chunk_at pmm_demo si c = 0 ∧ used_at pmm_demo si c = 0.
Proof.
  intros [Hsi Hc]. simpl in Hsi.
  assert (Hz : (replicate 64 0).[c] = 0) by (apply (aget_replicate 64); lia).
  assert (Hd : sec_refs sec_demo = replicate 64 0 ∧ sec_refs_used sec_demo = replicate 64 0)
    by (vm_compute; done).
  destruct Hd as [Hd1 Hd2]. unfold chunk_at, used_at, refs_of.
  destruct (pmm_demo_sections si Hsi) as [-> | ->]; [split; cbv iota beta; [rewrite Hd1 | rewrite Hd2]; exact Hz | split; reflexivity].
Qed.

Lemma pmm_demo_inv : pmm_inv pmm_demo.
Proof.
  constructor; [apply pmm_demo_wf | done | vm_compute; done |].
  constructor.
  - intros si c Hv. destruct (pmm_demo_refs si c Hv) as [-> ->]. by left.
  - intros si c sj d Hv _ Hne. by destruct (pmm_demo_refs si c Hv) as [? _].
Qed.

(** Frame 10 of the demo state, in use and not yet shared. *)
Lemma pmm_share_frame_correct_witness :
  ∃ st' rc, pmm_share_frame pmm_demo (10 * 4096) = (st', rc) ∧ rc = 0 ∧
    ((rc = 0 ∧ pmm_inv st' ∧ count_added pmm_demo st' 10 ∧ frame_taken pmm_demo st') ∨
     (rc = -1 ∧ st' = pmm_demo ∧ refcnt pmm_demo 10 = 0 ∧ ∀ g, 0 ≤ g → frame_free pmm_demo g = false)).
Proof.
  destruct (pmm_share_frame pmm_demo (10 * 4096)) as [st' rc] eqn:E. exists st', rc.
  split; [done|]. split.
  - transitivity (snd (pmm_share_frame pmm_demo (10 * 4096))); [by rewrite E | vm_compute; reflexivity].
  - apply pmm_share_frame_correct; [apply pmm_demo_inv | lia | vm_compute; reflexivity | exact E].
Defined.

Definition pmm_demo_shared : pmm := (pmm_share_frame pmm_demo (10 * 4096)).1.

Lemma pmm_demo_shared_inv : pmm_inv pmm_demo_shared.
Proof.
  unfold pmm_demo_shared. destruct (pmm_share_frame pmm_demo (10 * 4096)) as [st' rc] eqn:E. simpl.
  destruct (share_spec pmm_demo 10 st' rc) as [(_ & H & _)|(-> & _ & _ & H)];
    [apply pmm_demo_inv | lia | vm_compute; reflexivity | exact E | done |].
  exfalso. specialize (H 60 ltac:(lia)). vm_compute in H. done.
Qed.

(** The frame that was just shared: its reference and the chunk go. *)
Lemma pmm_unref_frame_correct_witness :
  ∃ st' rc, pmm_unref_frame pmm_demo_shared (10 * 4096) = (st', rc) ∧ rc = 1 ∧
    rc = b2z (pmm_frame_shared pmm_demo_shared (10 * 4096)) ∧
    rc = b2z (0 <? refcnt pmm_demo_shared 10) ∧
    pmm_inv st' ∧ count_dropped pmm_demo_shared st' 10 ∧ frame_given pmm_demo_shared st'.
Proof.
  destruct (pmm_unref_frame pmm_demo_shared (10 * 4096)) as [st' rc] eqn:E. exists st', rc.
  split; [done|]. split.
  - transitivity (snd (pmm_unref_frame pmm_demo_shared (10 * 4096))); [by rewrite E | vm_compute; reflexivity].
  - apply pmm_unref_frame_correct; [apply pmm_demo_shared_inv | lia | exact E].
Defined.
