(* ===== verification/PmmInit.v ===== *)
(** * Physical memory: initialisation

    Models how [src/mm/pmm.c] builds its state: the parsers of the firmware
    memory maps ([pmm_init] for Multiboot 1, [pmm_init_mb2] for Multiboot 2,
    [pmm_init_uefi]), [pmm_setup], and the switch from the early allocator to
    the sectioned one ([pmm_late_init]).  The memory the firmware tables live
    in is a byte memory; [kend] is the physical end of the kernel image the
    linker provides. *)

From S2P Require Import Prelude PmmRange PmmSection Pmm PmmRef.

(** ** Setup *)

Definition pmm_setup (kend : Z) (st : pmm) : pmm :=
  let m := pmm_reserve (g_map st) 0 kend in
  let total := fold_left (λ t r, u64 (t + u64 (r_end r - r_start r))) (g_avail m) 0 in
  let mx := fold_left (λ x r, if x <? r_end r then r_end r else x) (g_avail m) 0 in
  let m := mk_memmap (g_avail m) (r_start <$> g_avail m) (r_end <$> g_avail m)
             (g_ram m) (g_resv m) (g_early_used m) in
  mk_pmm m (g_sec st) (g_nsec st) (g_sectioned st) (g_hint_normal st) (g_hint_dma32 st)
    total (total / PMM_FRAME_SIZE) (g_free_frames st) mx
    (g_meta_bytes st) (g_ref_chunks st) (g_chunks st).

Definition with_map (st : pmm) (f : memmap → memmap) : pmm := set_map st (f (g_map st)).

(** ** Map parsers *)

(** The entries of a Multiboot 1 map: each is at least four bytes long, so
    [mmap_length] iterations are enough. *)
Fixpoint mb1_entries (fuel : nat) (rd : mem) (st : pmm) (p p_end : Z) : pmm :=
  match fuel with
  | O => st
  | S fuel =>
      if p <? p_end then
        let type := rd32 rd (p + 20) in
        let st :=
          if type =? 1 then with_map st (λ m, pmm_add_avail m (rd64 rd (p + 4)) (rd64 rd (p + 12)))
          else if (type =? 3) || (type =? 4)
          then with_map st (λ m, pmm_add_ram m (rd64 rd (p + 4)) (rd64 rd (p + 12)))
          else st in
        mb1_entries fuel rd st (u64 (p + rd32 rd p + 4)) p_end
      else st
  end.

Definition pmm_init (rd : mem) (kend mboot : Z) (st : pmm) : pmm :=
  if mboot =? 0 then st
  else
    let st := with_map st (λ m, pmm_reserve m mboot 88) in
    let flags := rd32 rd mboot in
    if Z.land flags (Z.shiftl 1 6) =? 0 then
      let upper := if negb (Z.land flags 1 =? 0) then rd32 rd (mboot + 8) else 0 in
      let upper := if upper =? 0 then 64 * 1024 else upper in
      pmm_setup kend (with_map st (λ m, pmm_add_avail m 0x100000 (upper * 1024)))
    else
      let addr := rd32 rd (mboot + 48) in
      let len := rd32 rd (mboot + 44) in
      let st := with_map st (λ m, pmm_reserve m addr len) in
      let st := mb1_entries (Z.to_nat len) rd st addr (addr + len) in
      let st := match g_avail (g_map st) with
                | [] => with_map st (λ m, pmm_add_avail m 0x100000 (63 * 1024 * 1024))
                | _ => st
                end in
      pmm_setup kend st.

(** The entries of a Multiboot 2 map tag.  [None]: the loop does not end, which
    happens exactly for [entry_size = 0]. *)
Fixpoint mb2_entries (fuel : nat) (rd : mem) (st : pmm) (entry_size e e_end : Z) : option pmm :=
  match fuel with
  | O => None
  | S fuel =>
      if e + entry_size <=? e_end then
        let type := rd32 rd (e + 16) in
        let st :=
          if type =? 1 then with_map st (λ m, pmm_add_avail m (rd64 rd e) (rd64 rd (e + 8)))
          else if (type =? 3) || (type =? 4)
          then with_map st (λ m, pmm_add_ram m (rd64 rd e) (rd64 rd (e + 8)))
          else st in
        mb2_entries fuel rd st entry_size (e + entry_size) e_end
      else Some st
  end.

(** The tags; [(tag->size + 7) & ~7] is computed at 32 bits. *)
Fixpoint mb2_tags (fuel : nat) (rd : mem) (st : pmm) (p p_end : Z) : option pmm :=
  match fuel with
  | O => None
  | S fuel =>
      if p <? p_end then
        let type := rd32 rd p in
        let size := rd32 rd (p + 4) in
        if type =? 0 then Some st
        else
          let next := p + Z.land (u32 (size + 7)) (not32 7) in
          if type =? 6 then
            match mb2_entries (Z.to_nat size + 1) rd st (rd32 rd (p + 8)) (p + 16) (p + size) with
            | Some st => mb2_tags fuel rd st next p_end
            | None => None
            end
          else mb2_tags fuel rd st next p_end
      else Some st
  end.

Definition pmm_init_mb2 (rd : mem) (kend base : Z) (st : pmm) : option pmm :=
  if base =? 0 then Some st
  else
    let total_size := rd32 rd base in
    let st := with_map st (λ m, pmm_reserve m base total_size) in
    match mb2_tags (Z.to_nat total_size + 1) rd st (base + 8) (base + total_size) with
    | None => None
    | Some st =>
        let st :=
          match g_avail (g_map st) with
          | [] => with_map st (λ m, pmm_add_avail m 0x100000 (63 * 1024 * 1024))
          | [r] => if r_end r <=? 0x100000
                   then with_map st (λ m, pmm_add_avail m 0x100000 (255 * 1024 * 1024)) else st
          | _ => st
          end in
        Some (pmm_setup kend st)
    end.

(** One [EFI_MEMORY_DESCRIPTOR]. *)
Definition uefi_desc (rd : mem) (d : Z) (m : memmap) : memmap :=
  let type := rd32 rd d in
  let start := rd64 rd (d + 8) in
  let len := u64 (rd64 rd (d + 24) * 4096) in
  if type =? 7 then pmm_add_avail m start len
  else if ((1 <=? type) && (type <=? 6)) || (type =? 9) || (type =? 10) || (type =? 14)
  then pmm_add_ram m start len
  else m.

Fixpoint uefi_descs (n : nat) (rd : mem) (d desc_size : Z) (m : memmap) : memmap :=
  match n with
  | O => m
  | S n => uefi_descs n rd (d + desc_size) desc_size (uefi_desc rd d m)
  end.

Definition pmm_init_uefi (rd : mem) (kend descs desc_count desc_size : Z) (st : pmm) : pmm :=
  if (descs =? 0) || (desc_count =? 0) || (desc_size <? 32) then
    pmm_setup kend (with_map st (λ m, pmm_add_avail m 0x100000 (127 * 1024 * 1024)))
  else
    let st := with_map st (uefi_descs (Z.to_nat desc_count) rd descs desc_size) in
    let st := match g_avail (g_map st) with
              | [] => with_map st (λ m, pmm_add_avail m 0x100000 (63 * 1024 * 1024))
              | _ => st
              end in
    pmm_setup kend st.

(** ** The switch to the sectioned allocator *)

Definition pmm_sections_needed (st : pmm) : Z :=
  Z.shiftr (u64 (max_phys_addr_seen st + PMM_SECTION_BYTES - 1)) 30.

(** [sizeof(pmm_section_t)] *)
Definition SIZEOF_SECTION : Z := 33928.

Definition set_meta (st : pmm) (n : Z) : pmm :=
  mk_pmm (g_map st) (g_sec st) (g_nsec st) (g_sectioned st) (g_hint_normal st) (g_hint_dma32 st)
    (total_memory st) (g_managed_frames st) (g_free_frames st) (max_phys_addr_seen st)
    n (g_ref_chunks st) (g_chunks st).
Definition set_sectioned (st : pmm) : pmm :=
  mk_pmm (g_map st) (g_sec st) (g_nsec st) true (Z.shiftr PMM_DMA32_LIMIT 30) 0
    (total_memory st) (g_managed_frames st) (g_free_frames st) (max_phys_addr_seen st)
    (g_meta_bytes st) (g_ref_chunks st) (g_chunks st).

(** The body of the loop over [si]: a descriptor for a section that has none. *)
Definition late_section (st : pmm) (si : Z) : pmm :=
  match (g_sec st).[si] with
  | Some _ => st
  | None =>
      let '(m, p) := early_alloc_top (g_map st) SIZEOF_SECTION 64 in
      let st := set_map st m in
      if p =? 0 then st
      else set_meta (put_sec st si sec_fresh) (u64 (g_meta_bytes st + SIZEOF_SECTION))
  end.

Fixpoint late_sections (n : nat) (st : pmm) (si : Z) : pmm :=
  match n with
  | O => st
  | S n => late_sections n (late_section st si) (si + 1)
  end.

Definition late_range (st : pmm) (r : pmm_range) : pmm :=
  let s_lo := Z.shiftr (r_start r) 30 in
  let s_hi := Z.shiftr (r_end r - 1) 30 in
  late_sections (Z.to_nat (s_hi + 1 - s_lo)) st s_lo.

(** Freeing what the early allocator left of usable range [r]. *)
Definition late_free (st : pmm) (r : Z) : pmm :=
  let s := align_up (g_early_cur (g_map st)).[r] PMM_FRAME_SIZE in
  let e := align_down (g_early_top (g_map st)).[r] PMM_FRAME_SIZE in
  if s <? e then frames_mark st (s / PMM_FRAME_SIZE) (e / PMM_FRAME_SIZE) false else st.

Definition late_reserve (st : pmm) (r : pmm_range) : pmm :=
  frames_mark st (r_start r / PMM_FRAME_SIZE) (r_end r / PMM_FRAME_SIZE) true.

Definition indices {A} (l : list A) : list Z := Z.of_nat <$> seq 0 (length l).

Definition pmm_late_init (physmap_ready : bool) (st : pmm) : pmm :=
  if g_sectioned st then st
  else if negb physmap_ready then st
  else
    let nsec := pmm_sections_needed st in
    let arr_bytes := u64 (nsec * 8) in
    let '(m, arr_phys) := early_alloc_top (g_map st) arr_bytes 64 in
    let st := set_map st m in
    if arr_phys =? 0 then set_sec st (g_sec st) nsec
    else
      let st := set_meta (set_sec st (replicate (Z.to_nat nsec) None) nsec) arr_bytes in
      let st := fold_left late_range (g_avail (g_map st)) st in
      let st := set_free_frames st 0 in
      let st := fold_left late_free (indices (g_avail (g_map st))) st in
      let st := fold_left late_reserve (g_resv (g_map st)) st in
      set_sectioned st.

(** ** Parsing the UEFI map *)

Lemma range_add_grow l max start end_ : zlen (range_add l max start end_) ≤ zlen l + 1.
Proof.
  unfold range_add. destruct (end_ <=? start); [lia|].
  destruct (range_skip start l) as [pre rest] eqn:E.
  apply range_skip_spec in E as (-> & _ & _). destruct rest as [|r rest].
  - destruct (max <=? _); rewrite ?length_app, ?app_nil_r; simpl; lia.
  - destruct (_ <=? end_).
    + rewrite !length_app. pose proof (range_absorb_length
        (mk_range (if start <? r_start r then start else r_start r)
                  (if r_end r <? end_ then end_ else r_end r)) rest). simpl. lia.
    + destruct (max <=? _); rewrite !length_app; simpl; lia.
Qed.

(** Ranges whose ends the address arithmetic can handle. *)
Definition ranges_bounded (l : list pmm_range) : Prop :=
  Forall (λ r, 0 ≤ r_start r ∧ r_end r ≤ ADDR_BOUND ∧ (4096 | r_start r) ∧ (4096 | r_end r)) l.

Lemma range_absorb_bounded r l :
  ranges_bounded (r :: l) → ranges_bounded (range_absorb r l).
Proof.
  revert r. induction l as [|x l IH]; intros r H; [done|]. cbn [range_absorb].
  destruct (r_start x <=? r_end r); [|done].
  inversion H as [|? ? Hr Hl]; subst. inversion Hl as [|? ? Hx Hl']; subst.
  apply IH. constructor; [|done]. destruct (_ <? _); simpl; intuition lia.
Qed.

Lemma range_add_bounded l max s e :
  ranges_bounded l → ranges_bounded [mk_range s e] → ranges_bounded (range_add l max s e).
Proof.
  intros Hl Hse. unfold range_add. destruct (e <=? s); [done|].
  destruct (range_skip s l) as [pre rest] eqn:E. apply range_skip_spec in E as (-> & _ & _).
  apply Forall_app in Hl as [Hpre Hrest]. inversion Hse as [|? ? Hb _]; subst. simpl in Hb.
  destruct rest as [|r rest].
  - destruct (max <=? _); [by rewrite app_nil_r|]. by apply Forall_app.
  - inversion Hrest as [|? ? Hr Hrest']; subst. destruct (_ <=? e).
    + apply Forall_app. split; [done|]. apply range_absorb_bounded. constructor; [|done]. simpl.
      destruct (s <? _), (_ <? e); intuition lia.
    + destruct (max <=? _); [by apply Forall_app|]. apply Forall_app. split; [done|].
      by constructor.
Qed.

(** The page of [a] lies inside [[start, start + len)]. *)
Definition page_inside (start len a : Z) : Prop :=
  start ≤ a / 4096 * 4096 ∧ a / 4096 * 4096 + 4096 ≤ start + len.

(** [pmm_add_avail] rounds inwards: exactly the whole pages are added. *)
Lemma add_avail_spec m start len :
  ranges_ok (g_avail m) → ranges_bounded (g_avail m) → zlen (g_avail m) < PMM_MAX_RANGES →
  0 ≤ start → 0 ≤ len → start + len ≤ ADDR_BOUND →
  let m' := pmm_add_avail m start len in
  ranges_ok (g_avail m') ∧ ranges_bounded (g_avail m') ∧ zlen (g_avail m') ≤ zlen (g_avail m) + 1 ∧
  g_resv m' = g_resv m ∧
  ∀ a, covers (g_avail m') a ↔ covers (g_avail m) a ∨ page_inside start len a.
Proof.
  intros Hok Hbd Hroom Hs Hl Hb m'. unfold ADDR_BOUND in Hb.
  destruct (align_up_spec 12 start) as [Hu [x Hx]]; [lia..|].
  destruct (align_down_spec 12 (start + len)) as (Hd & [y Hy] & _); [lia|unfold_uint; lia|].
  change (2 ^ 12) with 4096 in *.
  assert (Hpage : ∀ a, page_inside start len a ↔ align_up start 4096 ≤ a < align_down (start + len) 4096).
  { intros a. unfold page_inside. rewrite Hx, Hy in *. Z.to_euclidean_division_equations; lia. }
  subst m'. unfold pmm_add_avail, PMM_FRAME_SIZE. rewrite u64_small by (unfold_uint; lia).
  set (s := align_up start 4096) in *. set (e := align_down (start + len) 4096) in *.
  destruct (Z.eqb_spec len 0) as [->|Hl0].
  { split_and!; try done; [lia|]. intros a. rewrite Hpage. intuition lia. }
  destruct (Z.leb_spec e s) as [Hle|Hlt].
  { split_and!; try done; [lia|]. intros a. rewrite Hpage. intuition lia. }
  assert (Hg : ∀ m' a l, g_avail (pmm_add_ram m' a l) = g_avail m' ∧ g_resv (pmm_add_ram m' a l) = g_resv m').
  { intros m' a l. unfold pmm_add_ram. by destruct (l =? 0). }
  destruct (Hg (set_avail m (range_add (g_avail m) PMM_MAX_RANGES s e)) s (e - s)) as [-> ->]. simpl.
  destruct (range_add_spec (g_avail m) PMM_MAX_RANGES s e Hok) as [Hok' Hcov]; [by left|].
  split_and!; try done.
  - apply range_add_bounded; [done|]. apply Forall_singleton. simpl. unfold ADDR_BOUND.
    split_and!; [lia | lia | rewrite Hx | rewrite Hy]; apply Z.divide_factor_r.
  - apply range_add_grow.
  - intros a. by rewrite Hcov, Hpage.
Qed.

Lemma add_ram_avail m a l : g_avail (pmm_add_ram m a l) = g_avail m ∧ g_resv (pmm_add_ram m a l) = g_resv m.
Proof. unfold pmm_add_ram. by destruct (l =? 0). Qed.

(** The [i]-th descriptor of the table names conventional memory that holds
    the page of [a]. *)
Definition uefi_usable (rd : mem) (descs desc_size : Z) (n : nat) (a : Z) : Prop :=
  ∃ i, 0 ≤ i < Z.of_nat n ∧
    rd32 rd (descs + i * desc_size) = 7 ∧
    page_inside (rd64 rd (descs + i * desc_size + 8)) (rd64 rd (descs + i * desc_size + 24) * 4096) a.

(** Descriptors of conventional memory end below [2^60]. *)
Definition uefi_bounded (rd : mem) (descs desc_size : Z) (n : nat) : Prop :=
  ∀ i, 0 ≤ i < Z.of_nat n → rd32 rd (descs + i * desc_size) = 7 →
    rd64 rd (descs + i * desc_size + 8) + rd64 rd (descs + i * desc_size + 24) * 4096 ≤ ADDR_BOUND.

Lemma uefi_descs_spec rd desc_size n d m :
  ranges_ok (g_avail m) → ranges_bounded (g_avail m) →
  zlen (g_avail m) + Z.of_nat n ≤ PMM_MAX_RANGES → uefi_bounded rd d desc_size n →
  let m' := uefi_descs n rd d desc_size m in
  ranges_ok (g_avail m') ∧ ranges_bounded (g_avail m') ∧ g_resv m' = g_resv m ∧
  ∀ a, covers (g_avail m') a ↔ covers (g_avail m) a ∨ uefi_usable rd d desc_size n a.
Proof.
  revert d m. induction n as [|n IH]; intros d m Hok Hbd Hlen Hb; cbn [uefi_descs].
  { split_and!; try done. intros a. split; [by left|]. intros [|(i & Hi & _)]; [done|lia]. }
  assert (Hb' : uefi_bounded rd (d + desc_size) desc_size n).
  { intros i Hi. specialize (Hb (i + 1) ltac:(lia)).
    by replace (d + (i + 1) * desc_size) with (d + desc_size + i * desc_size) in Hb by lia. }
  assert (Hsplit : ∀ a, uefi_usable rd d desc_size (S n) a ↔
    (rd32 rd d = 7 ∧ page_inside (rd64 rd (d + 8)) (rd64 rd (d + 24) * 4096) a) ∨
    uefi_usable rd (d + desc_size) desc_size n a).
  { intros a. split.
    - intros (i & Hi & H1 & H2). destruct (decide (i = 0)) as [->|].
      + left. by rewrite Z.mul_0_l, Z.add_0_r in H1, H2.
      + right. exists (i - 1). split; [lia|].
        by replace (d + desc_size + (i - 1) * desc_size) with (d + i * desc_size) by lia.
    - intros [[H1 H2]|(i & Hi & H1 & H2)].
      + exists 0. rewrite Z.mul_0_l, Z.add_0_r. split_and!; (done || lia).
      + exists (i + 1). split; [lia|].
        by replace (d + (i + 1) * desc_size) with (d + desc_size + i * desc_size) by lia. }
  assert (Hstep : let m1 := uefi_desc rd d m in
    ranges_ok (g_avail m1) ∧ ranges_bounded (g_avail m1) ∧ zlen (g_avail m1) ≤ zlen (g_avail m) + 1 ∧
    g_resv m1 = g_resv m ∧
    ∀ a, covers (g_avail m1) a ↔ covers (g_avail m) a ∨
      (rd32 rd d = 7 ∧ page_inside (rd64 rd (d + 8)) (rd64 rd (d + 24) * 4096) a)).
  { unfold uefi_desc. destruct (Z.eqb_spec (rd32 rd d) 7) as [H7|H7].
    - specialize (Hb 0 ltac:(lia)). rewrite Z.mul_0_l, Z.add_0_r in Hb. specialize (Hb H7).
      pose proof (rd64_range rd (d + 8)). pose proof (rd64_range rd (d + 24)).
      rewrite u64_small by (unfold_uint; unfold ADDR_BOUND in Hb; lia).
      destruct (add_avail_spec m (rd64 rd (d + 8)) (rd64 rd (d + 24) * 4096)) as (?&?&?&?&?);
        [done|done|unfold_uint; lia..|]. split_and!; try done. intros a. intuition.
      all: naive_solver.
    - destruct (_ || _); [destruct (add_ram_avail m (rd64 rd (d + 8)) (u64 (rd64 rd (d + 24) * 4096))) as [-> ->]|];
        split_and!; try done; try lia; intros a; tauto. }
  destruct Hstep as (H1 & H2 & H3 & H4 & H5).
  destruct (IH (d + desc_size) (uefi_desc rd d m) H1 H2 ltac:(lia) Hb') as (I1 & I2 & I3 & I4).
  split_and!; [done|done|congruence|]. intros a. rewrite I4, H5, Hsplit. tauto.
Qed.

(** ** Setup *)

Lemma align_up_page v : 0 ≤ v ≤ 2 ^ 61 →
  v ≤ align_up v 4096 < v + 4096 ∧ (4096 | align_up v 4096).
Proof. intros. apply (align_up_spec 12); lia. Qed.

(** After [pmm_setup] the early allocator may hand out exactly the usable
    memory outside of the reserved ranges, to which the kernel image with
    everything below it has been added. *)
Lemma pmm_setup_spec kend st :
  ranges_ok (g_avail (g_map st)) → ranges_bounded (g_avail (g_map st)) →
  resv_bounded (g_resv (g_map st)) → zlen (g_resv (g_map st)) < PMM_MAX_RESERVED →
  0 < kend ≤ 2 ^ 59 →
  let m := g_map (pmm_setup kend st) in
  early_ok m ∧ g_avail m = g_avail (g_map st) ∧
  ∀ a, early_free m a ↔
    covers (g_avail m) a ∧ ¬ covers (g_resv (g_map st)) a ∧ ¬ (0 ≤ a < align_up kend 4096).
Proof.
  intros Hok Hbd Hr Hroom Hk m. destruct (align_up_page kend) as [Hu Hd]; [lia|].
  assert (Hm : m = mk_memmap (g_avail (g_map st)) (r_start <$> g_avail (g_map st))
    (r_end <$> g_avail (g_map st)) (g_ram (g_map st))
    (g_resv (g_map st) ++ [mk_range 0 (align_up kend 4096)]) (g_early_used (g_map st))).
  { unfold m, pmm_setup, pmm_reserve. destruct (Z.eqb_spec kend 0); [lia|].
    destruct (Z.leb_spec PMM_MAX_RESERVED (zlen (g_resv (g_map st)))); [lia|]. simpl.
    rewrite u64_small by (unfold_uint; lia). done. }
  clearbody m. subst m. simpl.
  assert (Hget : ∀ i, 0 ≤ i < zlen (g_avail (g_map st)) →
    0 ≤ r_start (g_avail (g_map st)).[i] < r_end (g_avail (g_map st)).[i] ∧
    r_end (g_avail (g_map st)).[i] ≤ ADDR_BOUND).
  { intros i Hi. destruct Hok as [_ Hne]. unfold ranges_bounded in Hbd. rewrite Forall_lookup in Hne, Hbd.
    specialize (Hne _ _ (aget_lookup _ i Hi)). specialize (Hbd _ _ (aget_lookup _ i Hi)).
    simpl in Hne, Hbd. lia. }
  split_and!; [|done|].
  - constructor; simpl; try done; try apply length_fmap.
    + apply Forall_app. split; [done|]. apply Forall_singleton. simpl. unfold ADDR_BOUND. lia.
    + intros i Hi. rewrite !aget_fmap by done. specialize (Hget i Hi). lia.
  - intros a. unfold early_free, early_window. simpl. split.
    + intros [(i & Hi & Ha) Hc]. rewrite !aget_fmap in Ha by done. split_and!.
      * exists ((g_avail (g_map st)).[i]). split; [|done]. apply list_elem_of_lookup. exists (Z.to_nat i).
        by apply aget_lookup.
      * intros H. apply Hc. rewrite covers_app. by left.
      * intros H. apply Hc. rewrite covers_app, covers_cons. right. left. done.
    + intros ((r & (j & Hj)%list_elem_of_lookup & Ha) & Hc & Hk0). split.
      * exists (Z.of_nat j). pose proof (lookup_lt_Some _ _ _ Hj).
        assert (Hr' : (g_avail (g_map st)).[Z.of_nat j] = r) by (apply lookup_aget; by rewrite Nat2Z.id).
        split; [lia|]. rewrite !aget_fmap, Hr' by lia. done.
      * rewrite covers_app, covers_cons, covers_nil. simpl. tauto.
Qed.

(** The static initial state: empty tables. *)
Definition map_empty : memmap := mk_memmap [] [] [] [] [] 0.

(** Preconditions of the UEFI path: a table of at most 256 descriptors, with
    some usable memory, all of it below [2^60]. *)
Record uefi_input (rd : mem) (descs n desc_size kend : Z) : Prop := {
  ui_descs : descs ≠ 0;
  ui_count : 0 < n ≤ PMM_MAX_RANGES;
  ui_size : 32 ≤ desc_size;
  ui_kend : 0 < kend ≤ 2 ^ 59;
  ui_bounded : uefi_bounded rd descs desc_size (Z.to_nat n);
  ui_some : ∃ a, uefi_usable rd descs desc_size (Z.to_nat n) a
}.

Lemma uefi_init rd kend descs n desc_size st :
  g_map st = map_empty → uefi_input rd descs n desc_size kend →
  ∃ m1, pmm_init_uefi rd kend descs n desc_size st = pmm_setup kend (set_map st m1) ∧
    ranges_ok (g_avail m1) ∧ ranges_bounded (g_avail m1) ∧ g_resv m1 = [] ∧ g_avail m1 ≠ [] ∧
    ∀ a, covers (g_avail m1) a ↔ uefi_usable rd descs desc_size (Z.to_nat n) a.
Proof.
  intros Hm [Hd Hn Hs Hk Hb [a0 Ha0]].
  destruct (uefi_descs_spec rd desc_size (Z.to_nat n) descs map_empty) as (H1 & H2 & H3 & H4);
    [split; constructor | constructor | simpl; lia | done |].
  set (m1 := uefi_descs (Z.to_nat n) rd descs desc_size map_empty) in *.
  assert (Hcov : ∀ a, covers (g_avail m1) a ↔ uefi_usable rd descs desc_size (Z.to_nat n) a).
  { intros a. rewrite H4. simpl. rewrite covers_nil. tauto. }
  assert (Hne : g_avail m1 ≠ []).
  { intros He. apply Hcov in Ha0. rewrite He, covers_nil in Ha0. done. }
  exists m1. split_and!; try done.
  unfold pmm_init_uefi, with_map. destruct (Z.eqb_spec descs 0); [done|].
  destruct (Z.eqb_spec n 0); [lia|]. destruct (Z.ltb_spec desc_size 32); [lia|]. cbn [orb].
  rewrite Hm. fold m1. cbn [g_map set_map]. by destruct (g_avail m1).
Qed.

(** From an empty state, [pmm_init_uefi] leaves an early allocator whose
    memory is exactly the whole pages of the firmware's conventional memory,
    minus everything up to the end of the kernel image. *)
Theorem pmm_init_uefi_correct rd kend descs n desc_size st :
  g_map st = map_empty → uefi_input rd descs n desc_size kend →
  let m := g_map (pmm_init_uefi rd kend descs n desc_size st) in
  early_ok m ∧
  ∀ a, early_free m a ↔
    uefi_usable rd descs desc_size (Z.to_nat n) a ∧ ¬ (0 ≤ a < align_up kend 4096).
Proof.
  intros Hm Hin m. destruct (uefi_init rd kend descs n desc_size st Hm Hin) as (m1 & He & H1 & H2 & H3 & Hne & Hcov).
  unfold m. rewrite He.
  destruct (pmm_setup_spec kend (set_map st m1)) as (Hok & Hav & Hfree);
    [done|done|cbn [g_map set_map]; rewrite H3; constructor|cbn [g_map set_map]; by rewrite H3|apply Hin|].
  split; [done|]. intros a. rewrite Hfree, Hav. cbn [g_map set_map]. rewrite Hcov, H3, covers_nil. tauto.
Qed.

(** A table of two descriptors, conventional memory from 1 to 17 MiB and ACPI
    memory above, for a kernel that ends at 4 MiB. *)
Definition uefi_demo : mem := λ a,
  if a =? 4096 then 7 else if a =? 4096 + 10 then 0x10 else if a =? 4096 + 25 then 0x10
  else if a =? 4096 + 40 then 9 else if a =? 4096 + 51 then 1 else if a =? 4096 + 64 then 1 else 0.

Definition pmm_zero : pmm := mk_pmm map_empty [] 0 false 0 0 0 0 0 0 0 0 ∅.

Lemma uefi_demo_input : uefi_input uefi_demo 4096 2 40 0x400000.
Proof.
  constructor; [lia | unfold PMM_MAX_RANGES; lia | lia | lia | |].
  - intros i Hi. assert (i = 0 ∨ i = 1) as [-> | ->] by lia; vm_compute; congruence.
  - exists 0x100000. exists 0. split; [lia|]. split; [vm_compute; reflexivity|].
    split; vm_compute; congruence.
Qed.

Lemma pmm_init_uefi_correct_witness :
  let m := g_map (pmm_init_uefi uefi_demo 0x400000 4096 2 40 pmm_zero) in
  g_avail m = [mk_range 0x100000 0x1100000] ∧ early_ok m ∧
  ∀ a, early_free m a ↔
    uefi_usable uefi_demo 4096 40 (Z.to_nat 2) a ∧ ¬ (0 ≤ a < align_up 0x400000 4096).
Proof.
  cbv zeta. split; [vm_compute; reflexivity|].
  apply pmm_init_uefi_correct; [reflexivity | apply uefi_demo_input].
Defined.

(** ** The switch to the sectioned allocator *)

(** While the descriptors are being allocated: every section is absent or
    fresh, and the early allocator's map only shrinks. *)
Record building (m0 : memmap) (st : pmm) : Prop := {
  bd_map : early_ok (g_map st);
  bd_avail : g_avail (g_map st) = g_avail m0;
  bd_resv : g_resv (g_map st) = g_resv m0;
  bd_shrink : ∀ a, early_free (g_map st) a → early_free m0 a;
  bd_nsec : g_nsec st = zlen (g_sec st);
  bd_bound : g_nsec st ≤ MAX_SECTIONS;
  bd_hints : 0 ≤ g_hint_normal st ∧ 0 ≤ g_hint_dma32 st;
  bd_sec : ∀ si, 0 ≤ si → (g_sec st).[si] = None ∨ (g_sec st).[si] = Some sec_fresh
}.

Lemma early_alloc_top_tables m size align :
  let m' := (early_alloc_top m size align).1 in g_avail m' = g_avail m ∧ g_resv m' = g_resv m.
Proof. unfold early_alloc_top. by destruct (early_scan_top _ _ _ _) as [[i s]|]. Qed.

(** An early allocation, successful or not, keeps the map usable. *)
Lemma early_alloc_top_step m size k :
  early_ok m → 0 < size ≤ ADDR_BOUND → 0 ≤ k ≤ 60 →
  let m' := (early_alloc_top m size (2 ^ k)).1 in
  early_ok m' ∧ g_avail m' = g_avail m ∧ g_resv m' = g_resv m ∧
  (∀ a, early_free m' a → early_free m a).
Proof.
  intros Hm Hs Hk m'. destruct (early_alloc_top_tables m size (2 ^ k)) as [Ha Hr].
  unfold m'. rewrite Ha, Hr. clear Ha Hr m'.
  destruct (early_alloc_top m size (2 ^ k)) as [m' p] eqn:E. simpl.
  apply early_alloc_top_step_ok in E; [|done..]. tauto.
Qed.

Lemma late_section_step m0 st si :
  building m0 st → 0 ≤ si < g_nsec st → building m0 (late_section st si) ∧ g_nsec (late_section st si) = g_nsec st.
Proof.
  intros [H1 H2 H3 H4 H5 H6 Hh H7] Hsi. unfold late_section.
  destruct ((g_sec st).[si]) eqn:Es; [split; [by constructor|done]|].
  destruct (early_alloc_top_step (g_map st) SIZEOF_SECTION 6 H1) as (E1 & E2 & E3 & E4);
    [unfold SIZEOF_SECTION, ADDR_BOUND; lia | lia |]. change (2 ^ 6) with 64 in *.
  destruct (early_alloc_top (g_map st) SIZEOF_SECTION 64) as [m p]. simpl in E1, E2, E3, E4.
  destruct (p =? 0); (split; [|done]); constructor; simpl; try done; try congruence; auto.
  - by rewrite aset_length.
  - intros sj Hsj. rewrite aget_aset by lia. destruct (si =? sj); auto.
Qed.

Lemma late_sections_step m0 n st si :
  building m0 st → 0 ≤ si → si + Z.of_nat n ≤ g_nsec st →
  building m0 (late_sections n st si) ∧ g_nsec (late_sections n st si) = g_nsec st.
Proof.
  revert st si. induction n as [|n IH]; intros st si Hb Hsi Hn; cbn [late_sections]; [done|].
  destruct (late_section_step m0 st si Hb ltac:(lia)) as [Hb' Hn'].
  rewrite <- Hn'. apply IH; [done|lia..].
Qed.

(** The section array reaches the end of every usable range. *)
Definition sections_cover (n : Z) (l : list pmm_range) : Prop :=
  Forall (λ r, 0 ≤ r_start r < r_end r ∧ r_end r ≤ n * 1073741824) l.

Lemma late_ranges_step m0 l st :
  building m0 st → sections_cover (g_nsec st) l →
  building m0 (fold_left late_range l st) ∧ g_nsec (fold_left late_range l st) = g_nsec st.
Proof.
  revert st. induction l as [|r l IH]; intros st Hb Hl; cbn [fold_left]; [done|].
  inversion Hl as [|? ? Hr Hl']; subst.
  assert (Hlo : 0 ≤ Z.shiftr (r_start r) 30 ≤ Z.shiftr (r_end r - 1) 30 ∧ Z.shiftr (r_end r - 1) 30 < g_nsec st).
  { rewrite !Z.shiftr_div_pow2 by lia. change (2 ^ 30) with 1073741824.
    Z.to_euclidean_division_equations; lia. }
  destruct (late_sections_step m0 (Z.to_nat (Z.shiftr (r_end r - 1) 30 + 1 - Z.shiftr (r_start r) 30))
    st (Z.shiftr (r_start r) 30) Hb ltac:(lia) ltac:(lia)) as [Hb' Hn'].
  rewrite <- Hn'. apply IH; [done|]. unfold late_range in *. by rewrite Hn'.
Qed.

(** All sections fresh: a well-formed state without a free frame. *)
Lemma building_wf m0 st :
  building m0 st →
  let st' := set_free_frames st 0 in
  pmm_wf st' ∧ ∀ f, 0 ≤ f → frame_free st' f = false.
Proof.
  intros [_ _ _ _ Hn Hb Hh Hs] st'. split.
  - constructor; simpl; try done.
    + intros si s Hsi Hsec. destruct (Hs si ltac:(lia)) as [Hx|Hx]; rewrite Hx in Hsec; [done|].
      injection Hsec as <-. apply sec_fresh_inv.
    + assert (Hall : ∀ l : list (option pmm_section),
        (∀ i, 0 ≤ i → l.[i] = None ∨ l.[i] = Some sec_fresh) → sum_free l = 0).
      { intros l. induction l as [|o l IH]; intros Hl; [done|].
        assert (IHl : sum_free l = 0).
        { apply IH. intros i Hi. specialize (Hl (i + 1) ltac:(lia)). unfold aget in *.
          by replace (Z.to_nat (i + 1)) with (S (Z.to_nat i)) in Hl by lia. }
        destruct (Hl 0 ltac:(lia)) as [Hx|Hx]; unfold aget in Hx; simpl in Hx; subst o; simpl; [done|].
        by rewrite IHl. }
      symmetry. by apply Hall.
  - intros f Hf. unfold frame_free, sec_of. rewrite shiftr18. simpl.
    destruct (_ <? _); [|done]. destruct (Hs (f / 262144)) as [-> | ->]; [apply Z.div_pos; lia | done |].
    rewrite land_frames, sec_fresh_used; [done|]. exact (Z.mod_pos_bound f 262144 ltac:(lia)).
Qed.

(** The whole page [f] lies between the cursors of usable range [r]. *)
Definition page_window (m : memmap) (r f : Z) : Prop :=
  align_up (g_early_cur m).[r] 4096 / 4096 ≤ f < align_down (g_early_top m).[r] 4096 / 4096.

Lemma late_free_step st r :
  pmm_wf st → 0 ≤ align_up (g_early_cur (g_map st)).[r] 4096 →
  pmm_wf (late_free st r) ∧ frames_only st (late_free st r) ∧
  (∀ f, 0 ≤ f → has_section (late_free st r) f = has_section st f) ∧
  ∀ f, 0 ≤ f → frame_free (late_free st r) f = true ↔
    frame_free st f = true ∨ (has_section st f = true ∧ page_window (g_map st) r f).
Proof.
  intros Hst Hc. unfold late_free, page_window, PMM_FRAME_SIZE.
  set (s := align_up _ _) in *. set (e := align_down _ _).
  destruct (Z.ltb_spec s e) as [Hlt|Hge].
  - assert (Hr : 0 ≤ s / 4096 ≤ e / 4096) by (Z.to_euclidean_division_equations; lia).
    destruct (frames_mark_spec st (s / 4096) (e / 4096) false Hst Hr) as (H1 & H2 & H3).
    split_and!; [done|by apply frames_mark_only|done|].
    intros f Hf. rewrite H3 by done. unfold in_range.
    pose proof (frame_free_has_section st f).
    destruct (Z.leb_spec (s / 4096) f), (Z.ltb_spec f (e / 4096)); cbn [andb negb]; intuition lia.
  - split_and!; [done|apply frames_only_refl|done|]. intros f Hf.
    assert (¬ (s / 4096 ≤ f < e / 4096)) by (Z.to_euclidean_division_equations; lia). tauto.
Qed.

Lemma late_frees st l :
  pmm_wf st → Forall (λ r, 0 ≤ align_up (g_early_cur (g_map st)).[r] 4096) l →
  let st' := fold_left late_free l st in
  pmm_wf st' ∧ frames_only st st' ∧ (∀ f, 0 ≤ f → has_section st' f = has_section st f) ∧
  ∀ f, 0 ≤ f → frame_free st' f = true ↔
    frame_free st f = true ∨ (has_section st f = true ∧ ∃ r, r ∈ l ∧ page_window (g_map st) r f).
Proof.
  revert st. induction l as [|r l IH]; intros st Hst Hl; cbn [fold_left].
  { split_and!; [done|apply frames_only_refl|done|]. intros f Hf. split; [by left|].
    intros [?|(_ & r & Hr & _)]; [done|]. by apply elem_of_nil in Hr. }
  inversion Hl as [|? ? Hr Hl']; subst.
  destruct (late_free_step st r Hst Hr) as (H1 & H2 & H3 & H4).
  destruct (IH (late_free st r) H1) as (I1 & I2 & I3 & I4); [by rewrite (fo_map _ _ H2)|].
  split_and!; [done|by eapply frames_only_trans|intros; rewrite I3, H3; done|].
  intros f Hf. rewrite I4, H4, H3, (fo_map _ _ H2) by done.
  setoid_rewrite elem_of_cons. clear. split.
  - intros [[?|[? ?]]|(? & x & ? & ?)]; eauto 6.
  - intros [?|(? & x & [->|?] & ?)]; eauto 6.
Qed.

Lemma late_reserves st l :
  pmm_wf st → Forall (λ r, 0 ≤ r_start r ≤ r_end r) l →
  let st' := fold_left late_reserve l st in
  pmm_wf st' ∧ frames_only st st' ∧ (∀ f, 0 ≤ f → has_section st' f = has_section st f) ∧
  ∀ f, 0 ≤ f → frame_free st' f = true ↔
    frame_free st f = true ∧ ∀ r, r ∈ l → ¬ (r_start r / 4096 ≤ f < r_end r / 4096).
Proof.
  revert st. induction l as [|r l IH]; intros st Hst Hl; cbn [fold_left].
  { split_and!; [done|apply frames_only_refl|done|]. intros f Hf. split; [|tauto].
    intros H. split; [done|]. intros r Hr. by apply elem_of_nil in Hr. }
  inversion Hl as [|? ? Hr Hl']; subst.
  assert (Hrr : 0 ≤ r_start r / 4096 ≤ r_end r / 4096) by (Z.to_euclidean_division_equations; lia).
  destruct (frames_mark_spec st _ _ true Hst Hrr) as (H1 & H2 & H3).
  pose proof (frames_mark_only st _ _ true Hst Hrr) as H4.
  destruct (IH (late_reserve st r) H1) as (I1 & I2 & I3 & I4); [done|].
  split_and!; [done|by eapply frames_only_trans|intros; rewrite I3; auto|].
  intros f Hf. rewrite I4 by done. unfold late_reserve, PMM_FRAME_SIZE. rewrite H3 by done.
  setoid_rewrite elem_of_cons. unfold in_range.
  split.
  - intros [Hfree Hno]. destruct (Z.leb_spec (r_start r / 4096) f), (Z.ltb_spec f (r_end r / 4096));
      cbn [andb negb] in Hfree; try done; (split; [done|]); intros x [->|Hx]; (lia || by apply Hno).
  - intros [Hfree Hno]. pose proof (Hno r ltac:(by left)).
    destruct (Z.leb_spec (r_start r / 4096) f), (Z.ltb_spec f (r_end r / 4096)); cbn [andb negb];
      (lia || (split; [done|]; intros x Hx; apply Hno; by right)).
Qed.

(** The state [pmm_setup] leaves, before [pmm_late_init]. *)
Record late_ready (st : pmm) : Prop := {
  lr_early : early_ok (g_map st);
  lr_aligned : Forall (λ r, (4096 | r_start r) ∧ (4096 | r_end r)) (g_resv (g_map st));
  lr_low : ∃ r, r ∈ g_resv (g_map st) ∧ r_start r = 0;
  lr_phase : g_sectioned st = false;
  lr_hints : 0 ≤ g_hint_normal st ∧ 0 ≤ g_hint_dma32 st;
  lr_max : Forall (λ r, r_end r ≤ max_phys_addr_seen st) (g_avail (g_map st));
  lr_bound : 0 < max_phys_addr_seen st ≤ ADDR_BOUND
}.

(** Every byte of frame [f] can still be handed out by the early allocator. *)
Definition page_free (m : memmap) (f : Z) : Prop :=
  ∀ a, f * 4096 ≤ a < f * 4096 + 4096 → early_free m a.

(** A page inside one window, clear of the reserved ranges. *)
Lemma page_window_free m r f :
  early_ok m → Forall (λ r, (4096 | r_start r) ∧ (4096 | r_end r)) (g_resv m) →
  0 ≤ r < zlen (g_avail m) → 0 ≤ f → page_window m r f →
  (∀ x, x ∈ g_resv m → ¬ (r_start x / 4096 ≤ f < r_end x / 4096)) → page_free m f.
Proof.
  intros Hm Hal Hr Hf Hw Hres a Ha. pose proof (eo_range m Hm r Hr) as (H1 & H2 & H3).
  unfold ADDR_BOUND in H3. destruct (align_up_page (g_early_cur m).[r]) as [Hu [x Hx]]; [lia|].
  destruct (align_down_spec 12 (g_early_top m).[r]) as (Hd & [y Hy] & _); [lia|unfold_uint; lia|].
  change (2 ^ 12) with 4096 in *. unfold page_window in Hw. rewrite Hx, Hy, !Z.div_mul in * by lia.
  split; [exists r; split; [done|lia]|]. intros (q & Hq & Hqa).
  rewrite Forall_forall in Hal. destruct (Hal q Hq) as [[s Hs] [e He]].
  apply (Hres q Hq). rewrite Hs, He, !Z.div_mul in * by lia. lia.
Qed.

(** Conversely the bytes of a free page lie in the window of one range. *)
Lemma page_free_window m f :
  early_ok m → 0 ≤ f → page_free m f →
  ∃ r, 0 ≤ r < zlen (g_avail m) ∧ page_window m r f.
Proof.
  intros Hm Hf Hp. destruct (Hp (f * 4096) ltac:(lia)) as [(i & Hi & Hwi) _].
  destruct (Hp (f * 4096 + 4095) ltac:(lia)) as [(j & Hj & Hwj) _].
  pose proof (eo_range m Hm i Hi) as Hri. pose proof (eo_range m Hm j Hj) as Hrj.
  assert (i = j) as <-.
  { destruct (decide (i = j)) as [|Hne]; [done|]. exfalso.
    assert (Hij : i < j).
    { destruct (Z.lt_ge_cases i j); [done|].
      pose proof (ranges_ok_aget _ j i (eo_avail m Hm) ltac:(lia) ltac:(lia)). lia. }
    pose proof (ranges_ok_aget _ i j (eo_avail m Hm) ltac:(lia) ltac:(lia)).
    assert (Hin : f * 4096 ≤ r_end (g_avail m).[i] < f * 4096 + 4096) by lia.
    destruct (Hp _ Hin) as [(k & Hk & Hwk) _].
    pose proof (eo_range m Hm k Hk) as Hrk.
    destruct (Z.lt_trichotomy i k) as [Hik|[->|Hik]].
    - pose proof (ranges_ok_aget _ i k (eo_avail m Hm) ltac:(lia) ltac:(lia)). lia.
    - lia.
    - pose proof (ranges_ok_aget _ k i (eo_avail m Hm) ltac:(lia) ltac:(lia)). lia. }
  exists i. split; [done|]. unfold ADDR_BOUND in *. unfold page_window.
  destruct (align_up_page (g_early_cur m).[i]) as [Hu [x Hx]]; [lia|].
  destruct (align_down_spec 12 (g_early_top m).[i]) as (Hd & [y Hy] & _); [lia|unfold_uint; lia|].
  change (2 ^ 12) with 4096 in *. rewrite Hx, Hy, !Z.div_mul in * by lia. lia.
Qed.

Lemma elem_of_indices {A} (l : list A) r : r ∈ indices l ↔ 0 ≤ r < zlen l.
Proof.
  unfold indices. rewrite list_elem_of_fmap. setoid_rewrite elem_of_seq. split.
  - intros (y & -> & ?). lia.
  - intros. exists (Z.to_nat r). lia.
Qed.

Lemma fresh_refs st si c :
  0 ≤ si → 0 ≤ c < 64 →
  (g_sec st).[si] = None ∨ (g_sec st).[si] = Some sec_fresh →
  chunk_at st si c = 0 ∧ used_at st si c = 0.
Proof.
  intros Hsi Hc Hs. unfold chunk_at, used_at, refs_of.
  destruct Hs as [-> | ->]; [done|]. cbn [sec_fresh sec_refs sec_refs_used].
  split; apply (aget_replicate 64); lia.
Qed.

(** Before the sections are filled in. *)
Lemma late_init_building st m nsec n :
  late_ready st → nsec = pmm_sections_needed st →
  (early_alloc_top (g_map st) (u64 (nsec * 8)) 64).1 = m →
  let st1 := set_meta (set_sec (set_map st m) (replicate (Z.to_nat nsec) None) nsec) n in
  building (g_map st) st1 ∧ sections_cover nsec (g_avail (g_map st)) ∧ 0 < nsec.
Proof.
  intros [H1 H2 H3 H4 H5 H6 H7] Hn Hm st1. unfold ADDR_BOUND in H7.
  assert (Hceil : nsec = (max_phys_addr_seen st + 1073741823) / 1073741824).
  { rewrite Hn. unfold pmm_sections_needed, PMM_SECTION_BYTES. rewrite u64_small by (unfold_uint; lia).
    rewrite Z.shiftr_div_pow2 by lia. f_equal; lia. }
  assert (Hb : 0 < nsec ≤ 2 ^ 30) by (rewrite Hceil; Z.to_euclidean_division_equations; lia).
  destruct (early_alloc_top_step (g_map st) (u64 (nsec * 8)) 6 H1) as (E1 & E2 & E3 & E4);
    [rewrite u64_small by (unfold_uint; lia); unfold ADDR_BOUND; lia | lia |].
  change (2 ^ 6) with 64 in *. rewrite Hm in *.
  split_and!; [|..|lia].
  - constructor; simpl; try done.
    + rewrite length_replicate. lia.
    + unfold MAX_SECTIONS. lia.
    + intros si Hsi. left. unfold aget. destruct (decide (si < nsec)).
      * rewrite lookup_total_replicate_2 by lia. done.
      * by rewrite list_lookup_total_alt, lookup_ge_None_2 by (rewrite length_replicate; lia).
  - unfold sections_cover. apply Forall_lookup. intros i r Hr.
    rewrite Forall_lookup in H6. specialize (H6 i r Hr). simpl in H6.
    pose proof (eo_range (g_map st) H1 (Z.of_nat i)) as Hrange.
    rewrite (lookup_aget _ (Z.of_nat i) r) in Hrange by (by rewrite Nat2Z.id).
    apply lookup_lt_Some in Hr as Hlt. destruct (Hrange ltac:(lia)) as (? & ? & _).
    destruct (eo_avail (g_map st) H1) as [_ Hne]. rewrite Forall_lookup in Hne. specialize (Hne i r Hr).
    simpl in Hne. rewrite Hceil. Z.to_euclidean_division_equations; lia.
Qed.

(** Filling them in. *)
Lemma late_init_fill m0 st2 :
  building m0 st2 →
  Forall (λ r, (4096 | r_start r) ∧ (4096 | r_end r)) (g_resv m0) →
  let st3 := set_free_frames st2 0 in
  let st4 := fold_left late_free (indices (g_avail (g_map st3))) st3 in
  let st5 := fold_left late_reserve (g_resv (g_map st4)) st4 in
  pmm_wf st5 ∧ frames_only st3 st5 ∧
  ∀ f, 0 ≤ f → frame_free st5 f = true ↔ has_section st5 f = true ∧ page_free (g_map st5) f.
Proof.
  intros Hb Hal st3 st4 st5. destruct (building_wf m0 st2 Hb) as [Hwf3 Hno3].
  fold st3 in Hwf3, Hno3. destruct Hb as [Hok Hav Hres _ _ _ _ _].
  assert (Hok3 : early_ok (g_map st3)) by done.
  destruct (late_frees st3 (indices (g_avail (g_map st3))) Hwf3) as (Hwf4 & Ho4 & Hs4 & Hf4).
  { apply Forall_forall. intros r Hr%elem_of_indices. pose proof (eo_range _ Hok3 r Hr) as (? & ? & ?).
    unfold ADDR_BOUND in *. destruct (align_up_page (g_early_cur (g_map st3)).[r]) as [? _]; lia. }
  fold st4 in Hwf4, Ho4, Hs4, Hf4.
  assert (Hm4 : g_map st4 = g_map st3) by apply Ho4.
  destruct (late_reserves st4 (g_resv (g_map st4)) Hwf4) as (Hwf5 & Ho5 & Hs5 & Hf5).
  { rewrite Hm4. eapply Forall_impl; [apply (eo_resv _ Hok3)|]. simpl. intros r. lia. }
  fold st5 in Hwf5, Ho5, Hs5, Hf5.
  assert (Hm5 : g_map st5 = g_map st3) by (by rewrite (fo_map _ _ Ho5), Hm4).
  split_and!; [done|by eapply frames_only_trans|].
  assert (Hres3 : g_resv (g_map st3) = g_resv m0) by apply Hres.
  intros f Hf. rewrite Hf5, Hf4, Hs5, Hs4, Hm5, Hm4, (Hno3 f Hf) by done. split.
  - intros [[?|(Hs & r & Hr & Hw)] Hr']; [done|]. split; [done|].
    apply (page_window_free _ r); try done; [by rewrite Hres3 | by apply elem_of_indices].
  - intros [Hs Hp]. split.
    + right. split; [done|]. destruct (page_free_window _ f Hok3 Hf Hp) as (r & Hr & Hw).
      exists r. split; [by apply elem_of_indices | done].
    + intros x Hx Hin. rewrite Hres3 in Hx. rewrite Forall_forall in Hal.
      destruct (Hal x Hx) as [[s Hs'] [e He]]. rewrite Hs', He, !Z.div_mul in Hin by lia.
      destruct (Hp (f * 4096) ltac:(lia)) as [_ Hnc]. apply Hnc. exists x.
      rewrite Hres3. split; [done|lia].
Qed.

(** The invariant of the state the switch leaves. *)
Lemma late_init_inv m0 st2 st5 :
  building m0 st2 → (∃ r, r ∈ g_resv m0 ∧ r_start r = 0) →
  pmm_wf st5 → frames_only (set_free_frames st2 0) st5 →
  (∀ f, 0 ≤ f → frame_free st5 f = true ↔ has_section st5 f = true ∧ page_free (g_map st5) f) →
  pmm_inv (set_sectioned st5).
Proof.
  intros Hb (r & Hr & Hr0) Hwf Ho Hf.
  assert (Hm5 : g_map st5 = g_map st2) by apply Ho.
  assert (Hrefs : ∀ si c, slot_valid (set_sectioned st5) si c →
    chunk_at (set_sectioned st5) si c = 0 ∧ used_at (set_sectioned st5) si c = 0).
  { intros si c [Hsi Hc]. destruct (fresh_refs st2 si c ltac:(lia) Hc (bd_sec _ _ Hb si ltac:(lia))) as [E1 E2].
    pose proof (fo_refs _ _ Ho si ltac:(lia)) as He.
    change (refs_of (set_free_frames st2 0) si) with (refs_of st2 si) in He.
    unfold chunk_at, used_at in *. change (refs_of (set_sectioned st5) si) with (refs_of st5 si).
    by rewrite He. }
  constructor.
  - destruct Hwf. constructor; try done.
  - reflexivity.
  - change (frame_free (set_sectioned st5) 0) with (frame_free st5 0).
    destruct (frame_free st5 0) eqn:E0; [|done]. exfalso.
    apply Hf in E0 as [_ Hp]; [|lia]. destruct (Hp 0 ltac:(lia)) as [_ Hnc]. apply Hnc.
    exists r. rewrite Hm5, (bd_resv _ _ Hb). split; [done|].
    pose proof (eo_resv _ (bd_map _ _ Hb)) as Hrb. rewrite (bd_resv _ _ Hb) in Hrb.
    unfold resv_bounded in Hrb. rewrite Forall_forall in Hrb. specialize (Hrb r Hr). lia.
  - constructor.
    + intros si c Hv. destruct (Hrefs si c Hv) as [-> ->]. by left.
    + intros si c sj d Hv _ Hne. by destruct (Hrefs si c Hv).
Qed.

Lemma late_init_spec st :
  late_ready st → let st' := pmm_late_init true st in
  g_sectioned st' = true →
  pmm_inv st' ∧
  (∀ f, 0 ≤ f → frame_free st' f = true ↔ has_section st' f = true ∧ page_free (g_map st') f) ∧
  (∀ a, early_free (g_map st') a → early_free (g_map st) a).
Proof.
  intros Hready st'. pose proof Hready as [H1 H2 H3 H4 [H5 H5'] H6 H7].
  unfold st', pmm_late_init. rewrite H4. cbn [negb].
  destruct (early_alloc_top (g_map st) _ 64) as [m p] eqn:Ea.
  destruct (late_init_building st m _ (u64 (pmm_sections_needed st * 8)) Hready eq_refl) as (Hb & Hcov & Hn);
    [by rewrite Ea|].
  destruct (p =? 0); [cbn [set_sec set_map g_sectioned]; congruence|]. intros _.
  set (st1 := set_meta _ _) in *.
  destruct (late_ranges_step (g_map st) (g_avail (g_map st1)) st1 Hb) as [Hb2 _].
  { rewrite (bd_avail _ _ Hb). exact Hcov. }
  set (st2 := fold_left late_range _ _) in *.
  destruct (late_init_fill (g_map st) st2 Hb2 H2) as (Hwf & Ho & Hf).
  set (st5 := fold_left late_reserve _ _) in *. clearbody st5.
  assert (Hm5 : g_map st5 = g_map st2) by apply Ho.
  split_and!; [|exact Hf|].
  - apply late_init_inv with (m0 := g_map st) (st2 := st2); done.
  - intros a Ha. apply (bd_shrink _ _ Hb2). change (g_map (set_sectioned st5)) with (g_map st5) in Ha.
    by rewrite Hm5 in Ha.
Qed.

(** [pmm_late_init]: when it switches to the sectioned allocator, the
    allocator invariant holds, and a frame is free exactly when it lies in a
    section that got a descriptor and every byte of it was still available to
    the early allocator: reserved memory, memory handed out during boot and
    the allocator's own metadata are all in use. *)
Theorem pmm_late_init_correct st :
  late_ready st → let st' := pmm_late_init true st in
  g_sectioned st' = true →
  pmm_inv st' ∧
  (∀ f, 0 ≤ f → frame_free st' f = true ↔ has_section st' f = true ∧ page_free (g_map st') f) ∧
  (∀ a, early_free (g_map st') a → early_free (g_map st) a).
Proof. apply late_init_spec. Qed.

Lemma fold_max_ge l x :
  let mx := fold_left (λ x r, if x <? r_end r then r_end r else x) l x in
  x ≤ mx ∧ Forall (λ r, r_end r ≤ mx) l ∧ (mx = x ∨ ∃ r, r ∈ l ∧ mx = r_end r).
Proof.
  revert x. induction l as [|r l IH]; intros x; cbn [fold_left].
  { split_and!; [lia | constructor | by left]. }
  destruct (IH (if x <? r_end r then r_end r else x)) as (H1 & H2 & H3).
  destruct (Z.ltb_spec x (r_end r)); (split_and!; [lia | constructor; [lia|done] |]).
  - right. destruct H3 as [->|(q & Hq & ->)]; [exists r | exists q]; set_solver.
  - destruct H3 as [->|(q & Hq & ->)]; [by left | right; exists q; set_solver].
Qed.

(** [pmm_setup] prepares the switch. *)
Lemma pmm_setup_ready kend st :
  ranges_ok (g_avail (g_map st)) → ranges_bounded (g_avail (g_map st)) → g_avail (g_map st) ≠ [] →
  g_resv (g_map st) = [] → 0 < kend ≤ 2 ^ 59 → g_sectioned st = false →
  0 ≤ g_hint_normal st → 0 ≤ g_hint_dma32 st →
  late_ready (pmm_setup kend st).
Proof.
  intros Hok Hbd Hne Hr Hk Hs Hh1 Hh2.
  destruct (pmm_setup_spec kend st Hok Hbd) as (Hearly & Hav & _);
    [rewrite Hr; constructor | rewrite Hr; unfold PMM_MAX_RESERVED; simpl; lia | done |].
  destruct (align_up_page kend) as [Hu Hd]; [lia|].
  assert (Hresv : g_resv (g_map (pmm_setup kend st)) = [mk_range 0 (align_up kend 4096)]).
  { unfold pmm_setup, pmm_reserve. destruct (Z.eqb_spec kend 0); [lia|]. rewrite Hr. simpl.
    rewrite u64_small by (unfold_uint; lia). done. }
  destruct (fold_max_ge (g_avail (g_map st)) 0) as (M1 & M2 & M3).
  assert (Hmx : max_phys_addr_seen (pmm_setup kend st) =
    fold_left (λ x r, if x <? r_end r then r_end r else x) (g_avail (g_map st)) 0).
  { unfold pmm_setup, pmm_reserve. destruct (kend =? 0); [done|]. by destruct (_ <=? _). }
  constructor; try done.
  - rewrite Hresv. apply Forall_singleton. simpl. split; [apply Z.divide_0_r | done].
  - exists (mk_range 0 (align_up kend 4096)). rewrite Hresv. set_solver.
  - by rewrite Hmx, Hav.
  - rewrite Hmx. destruct (g_avail (g_map st)) as [|r l] eqn:E; [done|].
    destruct Hok as [_ Hpos]. unfold ranges_bounded in Hbd. rewrite Forall_forall in Hpos, Hbd.
    pose proof (Hpos r ltac:(set_solver)) as H1. pose proof (Hbd r ltac:(set_solver)) as H2.
    destruct M3 as [M3|(q & Hq & M3)].
    + inversion M2; subst. lia.
    + rewrite M3. pose proof (Hpos q Hq). pose proof (Hbd q Hq). simpl in *. lia.
Qed.



Lemma pmm_late_init_correct_witness :
  let st := pmm_init_uefi uefi_demo 0x400000 4096 2 40 pmm_zero in
  let st' := pmm_late_init true st in
  pmm_inv st' ∧
  (∀ f, 0 ≤ f → frame_free st' f = true ↔ has_section st' f = true ∧ page_free (g_map st') f) ∧
  (∀ a, early_free (g_map st') a → early_free (g_map st) a).
Proof.
  cbv zeta. apply pmm_late_init_correct; [|vm_compute; reflexivity].
  destruct (uefi_init uefi_demo 0x400000 4096 2 40 pmm_zero eq_refl uefi_demo_input)
    as (m1 & -> & H1 & H2 & H3 & Hne & _).
  apply pmm_setup_ready; (done || lia).
Defined.
