(* ===== verification/Vma.v ===== *)
(** * Virtual memory areas

    Models [src/mm/vma.c]: the per-process set of demand-paged regions
    ([vma_add], [vma_add_phys], [vma_add_file], [vma_find], [vma_remove],
    [vma_split], [vma_overlaps], [vma_total_bytes]) and what a fault puts into
    a page ([vma_fault_fill], the filling part of [vma_fault_in]).

    A [vma_set_t] is the list of its [count] slots; a pointer into it is the
    index of a slot.  Pointers to images and inodes are numbers, 0 for NULL. *)

From S2P Require Import Prelude.

(** Page flags of [vmm.h]. *)
Definition VMM_FLAG_PRESENT : Z := 0x1.
Definition VMM_FLAG_RW : Z := 0x2.
Definition VMM_FLAG_USER : Z := 0x4.
Definition VMM_FLAG_PWT : Z := 0x8.
Definition VMM_FLAG_PCD : Z := 0x10.
Definition VMM_FLAG_PS : Z := 0x80.
Definition VMM_FLAG_COW : Z := 0x200.
Definition VMM_FLAG_PROTNONE : Z := 0x400.
Definition VMM_FLAG_DEVICE : Z := 0x800.
Definition VMM_FLAG_NOEXEC : Z := 0x8000000000000000.
Definition ADDRESS_MASK : Z := 0x000FFFFFFFFFF000.

Definition VMA_MAX : Z := 64.

Inductive vma_type := VMA_TYPE_ANON | VMA_TYPE_FILE | VMA_TYPE_PHYS | VMA_TYPE_NONE.
#[export] Instance vma_type_eq_dec : EqDecision vma_type.
Proof. solve_decision. Defined.

Record vma := mk_vma {
  v_start : Z;
  v_end : Z;
  v_flags : Z;
  v_type : vma_type;
  file_base : Z;
  file_off : Z;
  file_pad : Z;
  file_len : Z;
  file_inode : Z;
  file_voff : Z;
  phys_base : Z
}.
#[export] Instance vma_inhabited : Inhabited vma :=
  populate (mk_vma 0 0 0 VMA_TYPE_NONE 0 0 0 0 0 0 0).
#[export] Instance vma_eq_dec : EqDecision vma.
Proof. solve_decision. Defined.

Definition set_v_start (v : vma) x := mk_vma x (v_end v) (v_flags v) (v_type v) (file_base v) (file_off v) (file_pad v) (file_len v) (file_inode v) (file_voff v) (phys_base v).
Definition set_v_end (v : vma) x := mk_vma (v_start v) x (v_flags v) (v_type v) (file_base v) (file_off v) (file_pad v) (file_len v) (file_inode v) (file_voff v) (phys_base v).
Definition set_v_flags (v : vma) x := mk_vma (v_start v) (v_end v) x (v_type v) (file_base v) (file_off v) (file_pad v) (file_len v) (file_inode v) (file_voff v) (phys_base v).
Definition set_image (v : vma) off pad len := mk_vma (v_start v) (v_end v) (v_flags v) (v_type v) (file_base v) off pad len (file_inode v) (file_voff v) (phys_base v).
Definition set_file (v : vma) ino voff := mk_vma (v_start v) (v_end v) (v_flags v) (v_type v) (file_base v) (file_off v) (file_pad v) (file_len v) ino voff (phys_base v).
Definition set_phys (v : vma) x := mk_vma (v_start v) (v_end v) (v_flags v) (v_type v) (file_base v) (file_off v) (file_pad v) (file_len v) (file_inode v) (file_voff v) x.

Definition is_none (v : vma) : bool := if decide (v_type v = VMA_TYPE_NONE) then true else false.

(** The first slot from [i] on that satisfies [P]: the shape of every search
    loop of the file. *)
Fixpoint slot_find (P : vma → bool) (l : list vma) (i : Z) : option Z :=
  match l with
  | [] => None
  | v :: l => if P v then Some i else slot_find P l (i + 1)
  end.

Definition vset := list vma.

Definition vma_add (s : vset) (start end_ flags : Z) (type : vma_type)
    (base off pad len : Z) : option vset :=
  let v := mk_vma start end_ flags type base off pad len 0 0 0 in
  match slot_find is_none s 0 with
  | Some i => Some s.[i <- v]
  | None => if VMA_MAX <=? zlen s then None else Some (s ++ [v])
  end.

Definition vma_covers (addr : Z) (v : vma) : bool :=
  negb (is_none v) && (v_start v <=? addr) && (addr <? v_end v).

(** [vma_find] and [vma_find_mut]: the slot of the region holding [addr]. *)
Definition vma_find_mut (s : vset) (addr : Z) : option Z := slot_find (vma_covers addr) s 0.
Definition vma_find (s : vset) (addr : Z) : option vma :=
  match vma_find_mut s addr with Some i => Some s.[i] | None => None end.

(** The second part of [vma_add_phys] and [vma_add_file]: the new slot is the
    one found at its start. *)
Definition add_then (s : vset) (r : option vset) (start : Z) (f : vma → vma) : vset * bool :=
  match r with
  | None => (s, false)
  | Some s' =>
      match vma_find_mut s' start with
      | None => (s', false)
      | Some i => (s'.[i <- f s'.[i]], true)
      end
  end.

Definition vma_add_phys (s : vset) (start end_ flags phys : Z) : vset * bool :=
  if negb (Z.land start 0xFFF =? 0) || negb (Z.land end_ 0xFFF =? 0)
     || negb (Z.land phys 0xFFF =? 0) || (end_ <=? start) then (s, false)
  else add_then s (vma_add s start end_ flags VMA_TYPE_PHYS 0 0 0 0) start (λ v, set_phys v phys).

Definition vma_add_file (s : vset) (start end_ flags inode voff : Z) : vset * bool :=
  add_then s (vma_add s start end_ flags VMA_TYPE_FILE 0 0 0 0) start (λ v, set_file v inode voff).

Definition vma_remove (s : vset) (i : Z) : vset :=
  s.[i <- mk_vma 0 0 (v_flags s.[i]) VMA_TYPE_NONE (file_base s.[i]) (file_off s.[i])
            (file_pad s.[i]) (file_len s.[i]) (file_inode s.[i]) (file_voff s.[i]) (phys_base s.[i])].

(** The upper half of [v] cut at [addr], its backing rebased. *)
Definition split_hi (v : vma) (addr : Z) : vma :=
  let d := addr - v_start v in
  let hi := set_v_start v addr in
  match v_type v with
  | VMA_TYPE_PHYS => set_phys hi (u64 (phys_base hi + d))
  | VMA_TYPE_FILE =>
      if negb (file_inode hi =? 0) then set_file hi (file_inode hi) (u64 (file_voff hi + d))
      else if d <=? file_pad hi then set_image hi (file_off hi) (file_pad hi - d) (file_len hi)
      else
        let skip := d - file_pad hi in
        if file_len hi <=? skip then set_image hi (file_off hi) 0 0
        else set_image hi (u64 (file_off hi + skip)) 0 (file_len hi - skip)
  | _ => hi
  end.

(** The search for the slot that [vma_add] filled. *)
Fixpoint split_slot (l : list vma) (j i addr end_ : Z) : option Z :=
  match l with
  | [] => None
  | c :: l =>
      if negb (j =? i) && negb (is_none c) && (v_start c =? addr) && (v_end c =? end_)
      then Some j else split_slot l (j + 1) i addr end_
  end.

(** [vma_split(s, v, addr)] with [v] the slot [i].  On failure after [vma_add]
    the set keeps the added slot. *)
Definition vma_split (s : vset) (i addr : Z) : vset * bool :=
  let v := s.[i] in
  if is_none v then (s, false)
  else if negb (Z.land addr 0xFFF =? 0) || (addr <=? v_start v) || (v_end v <=? addr) then (s, false)
  else
    let hi := split_hi v addr in
    match vma_add s (v_start hi) (v_end hi) (v_flags hi) (v_type hi) (file_base hi)
            (file_off hi) (file_pad hi) (file_len hi) with
    | None => (s, false)
    | Some s1 =>
        match split_slot s1 0 i addr (v_end hi) with
        | None => (s1, false)
        | Some n =>
            let c := s1.[n] in
            let s2 := s1.[n <- set_phys (set_file c (file_inode hi) (file_voff hi)) (phys_base hi)] in
            (s2.[i <- set_v_end s2.[i] addr], true)
        end
    end.

Definition vma_overlaps (s : vset) (start end_ : Z) : bool :=
  match slot_find (λ v, negb (is_none v) && (start <? v_end v) && (v_start v <? end_)) s 0 with
  | Some _ => true
  | None => false
  end.

Definition vma_total_bytes (s : vset) : Z :=
  fold_left (λ total v, if is_none v then total else u64 (total + u64 (v_end v - v_start v))) s 0.

(** ** Filling a page

    [img] is the memory of the pinned images, [cache ino off] the bytes of the
    page-cache page of [ino] at [off], if it can be had. *)

Definition fill_image (img : mem) (v : vma) (pg : Z) : list Z :=
  let poff := pg - v_start v in
  let cstart := file_pad v in
  let cend := u64 (file_pad v + file_len v) in
  let ov_s := if cstart <? poff then poff else cstart in
  let ov_e := if u64 (poff + 0x1000) <? cend then u64 (poff + 0x1000) else cend in
  let zero := replicate 4096 0 in
  if ov_s <? ov_e then
    let copy_len := ov_e - ov_s in
    let dst_off := ov_s - poff in
    let src_off := u64 (file_off v + (ov_s - cstart)) in
    take (Z.to_nat dst_off) zero ++
    ((λ i, rd8 img (file_base v + src_off + Z.of_nat i)) <$> seq 0 (Z.to_nat copy_len)) ++
    drop (Z.to_nat (dst_off + copy_len)) zero
  else zero.

Definition vma_fault_fill (img : mem) (cache : Z → Z → option (list Z)) (v : vma) (pg : Z) : list Z :=
  match v_type v with
  | VMA_TYPE_FILE =>
      if negb (file_inode v =? 0) then
        let foff := u64 (file_voff v + (pg - v_start v)) in
        match cache (file_inode v) (Z.land foff (not64 0xFFF)) with
        | Some p => p
        | None => replicate 4096 0
        end
      else if negb (file_base v =? 0) then fill_image img v pg
      else replicate 4096 0
  | _ => replicate 4096 0
  end.

(** ** Specification *)

(** Where the contents at an address come from. *)
Inductive backing :=
  | BZero
  | BImage (ptr : Z)
  | BFile (inode off : Z)
  | BPhys (phys : Z).

Definition vma_backing (v : vma) (a : Z) : backing :=
  let o := a - v_start v in
  match v_type v with
  | VMA_TYPE_PHYS => BPhys (phys_base v + o)
  | VMA_TYPE_FILE =>
      if negb (file_inode v =? 0) then BFile (file_inode v) (file_voff v + o)
      else if negb (file_base v =? 0) then
        if (file_pad v <=? o) && (o <? file_pad v + file_len v)
        then BImage (file_base v + (file_off v + (o - file_pad v))) else BZero
      else BZero
  | _ => BZero
  end.

(** End of the user half. *)
Definition VMM_USER_TOP : Z := 0x0000800000000000.

(** Page alignment, and offsets far from [2^64]. *)
Record vma_ok (v : vma) : Prop := {
  vo_start : 0 ≤ v_start v ∧ (4096 | v_start v);
  vo_end : v_start v < v_end v ≤ VMM_USER_TOP ∧ (4096 | v_end v);
  vo_image : 0 ≤ file_off v ∧ 0 ≤ file_pad v ∧ 0 ≤ file_len v ∧
             file_off v + file_len v < 2 ^ 62 ∧ file_pad v + file_len v < 2 ^ 62;
  vo_file : 0 ≤ file_voff v ∧ file_voff v + (v_end v - v_start v) < 2 ^ 62;
  vo_phys : 0 ≤ phys_base v ∧ phys_base v + (v_end v - v_start v) < 2 ^ 62
}.

Definition live (v : vma) : Prop := v_type v ≠ VMA_TYPE_NONE.
Definition disjoint (u v : vma) : Prop := v_end u ≤ v_start v ∨ v_end v ≤ v_start u.

(** The regions of a process: well formed and pairwise disjoint. *)
Record vset_wf (s : vset) : Prop := {
  vw_len : zlen s ≤ VMA_MAX;
  vw_ok : ∀ i, 0 ≤ i < zlen s → live s.[i] → vma_ok s.[i];
  vw_disjoint : ∀ i j, 0 ≤ i < zlen s → 0 ≤ j < zlen s → i ≠ j →
    live s.[i] → live s.[j] → disjoint s.[i] s.[j]
}.

Lemma is_none_spec v : is_none v = false ↔ live v.
Proof. unfold is_none, live. case_decide; split; congruence. Qed.

Lemma vma_covers_spec a v : vma_covers a v = true ↔ live v ∧ v_start v ≤ a < v_end v.
Proof.
  unfold vma_covers. rewrite !andb_true_iff, negb_true_iff, is_none_spec, Z.leb_le, Z.ltb_lt. tauto.
Qed.

Lemma slot_find_Some P l i0 j :
  slot_find P l i0 = Some j →
  i0 ≤ j < i0 + zlen l ∧ P l.[j - i0] = true ∧ ∀ k, i0 ≤ k < j → P l.[k - i0] = false.
Proof.
  revert i0. induction l as [|v l IH]; intros i0; simpl; [done|].
  destruct (P v) eqn:E.
  - intros [= <-]. replace (i0 - i0) with 0 by lia. split_and!; [lia|lia|done|lia].
  - intros H. apply IH in H as (H1 & H2 & H3).
    assert (Hs : ∀ k, i0 + 1 ≤ k → (v :: l).[k - i0] = l.[k - (i0 + 1)]).
    { intros k Hk. unfold aget. by replace (Z.to_nat (k - i0)) with (S (Z.to_nat (k - (i0 + 1)))) by lia. }
    rewrite Hs by lia. split_and!; [lia..|done|]. intros k Hk. destruct (decide (k = i0)) as [->|].
    + by replace (i0 - i0) with 0 by lia.
    + rewrite Hs by lia. apply H3. lia.
Qed.

Lemma slot_find_None P l i0 :
  slot_find P l i0 = None → ∀ j, 0 ≤ j < zlen l → P l.[j] = false.
Proof.
  revert i0. induction l as [|v l IH]; intros i0; simpl; [lia|].
  destruct (P v) eqn:E; [done|]. intros H j Hj. destruct (decide (j = 0)) as [->|]; [done|].
  specialize (IH _ H (j - 1) ltac:(lia)). unfold aget in *.
  by replace (Z.to_nat j) with (S (Z.to_nat (j - 1))) by lia.
Qed.

Lemma vma_find_Some s a v :
  vma_find s a = Some v → ∃ i, 0 ≤ i < zlen s ∧ vma_find_mut s a = Some i ∧ s.[i] = v ∧
    live v ∧ v_start v ≤ a < v_end v.
Proof.
  unfold vma_find. destruct (vma_find_mut s a) as [i|] eqn:E; [|done]. intros [= <-].
  apply slot_find_Some in E as (Hi & Hc & _). rewrite Z.sub_0_r in *.
  apply vma_covers_spec in Hc. exists i. split_and!; try done; try lia; apply Hc.
Qed.

Lemma vma_find_None s a :
  vma_find s a = None → ∀ i, 0 ≤ i < zlen s → live s.[i] → ¬ (v_start s.[i] ≤ a < v_end s.[i]).
Proof.
  unfold vma_find. destruct (vma_find_mut s a) as [i|] eqn:E; [done|]. intros _ i Hi Hl Ha.
  pose proof (slot_find_None _ _ _ E i Hi) as Hc.
  assert (vma_covers a s.[i] = true) by (by apply vma_covers_spec). congruence.
Qed.

(** In a well-formed set the region that holds an address is unique. *)
Lemma vma_find_at s i a :
  vset_wf s → 0 ≤ i < zlen s → live s.[i] → v_start s.[i] ≤ a < v_end s.[i] →
  vma_find_mut s a = Some i ∧ vma_find s a = Some s.[i].
Proof.
  intros Hs Hi Hl Ha. unfold vma_find. destruct (vma_find_mut s a) as [j|] eqn:E.
  - pose proof E as E'. apply slot_find_Some in E' as (Hj & Hc & _). rewrite Z.sub_0_r in *.
    apply vma_covers_spec in Hc as [Hlj Haj]. destruct (decide (i = j)) as [->|Hne]; [done|].
    destruct (vw_disjoint s Hs i j Hi ltac:(lia) Hne Hl Hlj); lia.
  - pose proof (slot_find_None _ _ _ E i Hi) as Hc.
    assert (vma_covers a s.[i] = true) by (by apply vma_covers_spec). congruence.
Qed.

(** *** Adding a region *)

(** [s'] is [s] with the region [v] in slot [n], which was unused. *)
Record added (s s' : vset) (n : Z) (v : vma) : Prop := {
  ad_len : zlen s ≤ zlen s' ≤ Z.max (zlen s) VMA_MAX;
  ad_slot : 0 ≤ n < zlen s' ∧ s'.[n] = v;
  ad_dead : n < zlen s → ¬ live s.[n];
  ad_others : ∀ j, 0 ≤ j < zlen s' → j ≠ n → j < zlen s ∧ s'.[j] = s.[j];
  ad_kept : ∀ j, 0 ≤ j < zlen s → j < zlen s'
}.

Lemma vma_add_added s start end_ flags type base off pad len :
  match vma_add s start end_ flags type base off pad len with
  | Some s' => ∃ n, added s s' n (mk_vma start end_ flags type base off pad len 0 0 0)
  | None => VMA_MAX ≤ zlen s ∧ ∀ i, 0 ≤ i < zlen s → live s.[i]
  end.
Proof.
  unfold vma_add. destruct (slot_find is_none s 0) as [i|] eqn:E.
  - apply slot_find_Some in E as (Hi & Hn & _). rewrite Z.sub_0_r in *. exists i.
    constructor; rewrite ?aset_length; try lia.
    + split; [lia|]. apply aget_aset_eq. lia.
    + intros _ Hl. apply is_none_spec in Hl. congruence.
    + intros j Hj Hne. split; [lia|]. apply aget_aset_ne; lia.
  - destruct (Z.leb_spec VMA_MAX (zlen s)) as [Hge|Hlt].
    + split; [done|]. intros i Hi. apply is_none_spec. by apply (slot_find_None _ _ _ E).
    + exists (zlen s). constructor; rewrite ?length_app; simpl; try lia.
      * split; [lia|]. unfold aget. rewrite lookup_total_app_r by lia.
        by replace (Z.to_nat (zlen s) - length s)%nat with 0%nat by lia.
      * intros j Hj Hne. split; [lia|]. unfold aget. by rewrite lookup_total_app_l by lia.
Qed.

(** The lookup as the slots determine it. *)
Lemma vma_find_ext s s' a :
  vset_wf s → vset_wf s' →
  (∀ v, (∃ i, 0 ≤ i < zlen s ∧ s.[i] = v ∧ live v ∧ v_start v ≤ a < v_end v) ↔
        (∃ i, 0 ≤ i < zlen s' ∧ s'.[i] = v ∧ live v ∧ v_start v ≤ a < v_end v)) →
  vma_find s a = vma_find s' a.
Proof.
  intros Hs Hs' Hv. destruct (vma_find s a) as [v|] eqn:E.
  - apply vma_find_Some in E as (i & Hi & _ & He & Hl & Ha).
    destruct (proj1 (Hv v)) as (j & Hj & He' & _); [by exists i|].
    destruct (vma_find_at s' j a) as [_ ->]; rewrite ?He'; done.
  - destruct (vma_find s' a) as [v|] eqn:E'; [|done].
    apply vma_find_Some in E' as (j & Hj & _ & He & Hl & Ha).
    destruct (proj2 (Hv v)) as (i & Hi & He' & _); [by exists j|].
    exfalso. subst v. eapply (vma_find_None s a E i); rewrite ?He'; done.
Qed.

Lemma added_wf s s' n v :
  vset_wf s → added s s' n v → vma_ok v → live v →
  (∀ j, 0 ≤ j < zlen s → live s.[j] → disjoint v s.[j]) →
  vset_wf s' ∧
  ∀ a, vma_find s' a = if (v_start v <=? a) && (a <? v_end v) then Some v else vma_find s a.
Proof.
  intros Hs [Hlen [Hn Hv] Hdead Hoth Hkept] Hok Hl Hdis.
  assert (Hs' : vset_wf s').
  { constructor.
    - pose proof (vw_len s Hs). lia.
    - intros i Hi Hli. destruct (decide (i = n)) as [->|Hne]; [by rewrite Hv|].
      destruct (Hoth i Hi Hne) as [? He]. rewrite He in *. apply (vw_ok s Hs); (done || lia).
    - intros i j Hi Hj Hij Hli Hlj.
      destruct (decide (i = n)) as [->|Hni], (decide (j = n)) as [->|Hnj]; [done|..].
      + rewrite Hv in *. destruct (Hoth j Hj Hnj) as [? He]. rewrite He in *. apply Hdis; (done || lia).
      + rewrite Hv in *. destruct (Hoth i Hi Hni) as [? He]. rewrite He in *.
        destruct (Hdis i ltac:(lia) Hli); [by right | by left].
      + destruct (Hoth i Hi Hni) as [? He1], (Hoth j Hj Hnj) as [? He2]. rewrite He1, He2 in *.
        apply (vw_disjoint s Hs); (done || lia). }
  split; [done|]. intros a. destruct ((v_start v <=? a) && (a <? v_end v)) eqn:Ea.
  - zbool. destruct (vma_find_at s' n a) as [_ ->]; rewrite ?Hv; (done || lia).
  - symmetry. apply vma_find_ext; [done..|]. intros u. split.
    + intros (i & Hi & He & Hlu & Hau). exists i. pose proof (Hkept i Hi).
      assert (i ≠ n) by (intros ->; by apply Hdead; [lia|]; subst).
      destruct (Hoth i ltac:(lia)) as [_ ->]; [done|]. split_and!; (done || lia).
    + intros (i & Hi & He & Hlu & Hau). destruct (decide (i = n)) as [->|Hne].
      { rewrite Hv in He. subst u. apply andb_false_iff in Ea. zbool. lia. }
      destruct (Hoth i Hi Hne) as [? He']. exists i. rewrite <- He'. split_and!; (done || lia).
Qed.

Lemma overlaps_false s start end_ :
  vma_overlaps s start end_ = false →
  ∀ j, 0 ≤ j < zlen s → live s.[j] → v_end s.[j] ≤ start ∨ end_ ≤ v_start s.[j].
Proof.
  unfold vma_overlaps. destruct (slot_find _ s 0) eqn:E; [done|]. intros _ j Hj Hl.
  pose proof (slot_find_None _ _ _ E j Hj) as H. cbn beta in H. apply is_none_spec in Hl. rewrite Hl in H.
  simpl in H. apply andb_false_iff in H. zbool. lia.
Qed.

(** *** Replacing a region by one inside it *)

Lemma replace_wf s i v' :
  vset_wf s → 0 ≤ i < zlen s → live s.[i] → vma_ok v' → live v' →
  v_start s.[i] ≤ v_start v' → v_end v' ≤ v_end s.[i] →
  vset_wf s.[i <- v'] ∧
  ∀ a, vma_find s.[i <- v'] a =
    if (v_start v' <=? a) && (a <? v_end v') then Some v'
    else if (v_start s.[i] <=? a) && (a <? v_end s.[i]) then None
    else vma_find s a.
Proof.
  intros Hs Hi Hl Hok Hl' Hst Hen.
  assert (Hget : ∀ j, 0 ≤ j → s.[i <- v'].[j] = if i =? j then v' else s.[j])
    by (intros; by apply aget_aset).
  assert (Hs' : vset_wf s.[i <- v']).
  { constructor; rewrite ?aset_length.
    - apply Hs.
    - intros j Hj. rewrite Hget by lia. destruct (Z.eqb_spec i j); [done|]. by apply (vw_ok s Hs).
    - intros j k Hj Hk Hjk. rewrite !Hget by lia. unfold disjoint.
      destruct (Z.eqb_spec i j) as [<-|Hij], (Z.eqb_spec i k) as [<-|Hik]; [done|..]; intros Hlj Hlk.
      + destruct (vw_disjoint s Hs i k Hi Hk Hjk Hl Hlk); lia.
      + destruct (vw_disjoint s Hs j i Hj Hi Hjk Hlj Hl); lia.
      + by apply (vw_disjoint s Hs). }
  split; [done|]. intros a. destruct ((v_start v' <=? a) && (a <? v_end v')) eqn:Ea.
  { zbool. destruct (vma_find_at s.[i <- v'] i a) as [_ ->];
      rewrite ?aset_length, ?aget_aset_eq by done; (done || lia). }
  assert (Hout : ¬ (v_start v' ≤ a < v_end v')) by (apply andb_false_iff in Ea; zbool; lia).
  destruct ((v_start s.[i] <=? a) && (a <? v_end s.[i])) eqn:Eb.
  - zbool. destruct (vma_find s.[i <- v'] a) as [u|] eqn:Eu; [|done]. exfalso.
    apply vma_find_Some in Eu as (j & Hj & _ & He & Hlu & Hau). rewrite aset_length in Hj.
    rewrite Hget in He by lia. destruct (Z.eqb_spec i j); [subst; lia|]. subst u.
    destruct (vw_disjoint s Hs i j Hi Hj); (done || lia).
  - assert (Hnot : ¬ (v_start s.[i] ≤ a < v_end s.[i])) by (apply andb_false_iff in Eb; zbool; lia).
    symmetry. apply vma_find_ext; [done..|]. intros u. rewrite aset_length.
    split; intros (j & Hj & He & Hlu & Hau); exists j;
      rewrite Hget in * by lia; destruct (Z.eqb_spec i j); subst; (done || lia || (split_and!; done)).
Qed.

(** A removed region leaves nothing behind. *)
Lemma remove_wf s i :
  vset_wf s → 0 ≤ i < zlen s → live s.[i] →
  vset_wf (vma_remove s i) ∧
  ∀ a, vma_find (vma_remove s i) a =
    if (v_start s.[i] <=? a) && (a <? v_end s.[i]) then None else vma_find s a.
Proof.
  intros Hs Hi Hl. unfold vma_remove. set (v' := mk_vma 0 0 _ _ _ _ _ _ _ _ _).
  assert (Hd : ¬ live v') by (intros H; by apply H).
  assert (Hget : ∀ j, 0 ≤ j → s.[i <- v'].[j] = if i =? j then v' else s.[j])
    by (intros; by apply aget_aset).
  assert (Hs' : vset_wf s.[i <- v']).
  { constructor; rewrite ?aset_length; [apply Hs| |].
    - intros j Hj. rewrite Hget by lia. destruct (Z.eqb_spec i j); [done|]. by apply (vw_ok s Hs).
    - intros j k Hj Hk Hjk. rewrite !Hget by lia.
      destruct (Z.eqb_spec i j), (Z.eqb_spec i k); try done. by apply (vw_disjoint s Hs). }
  split; [done|]. intros a. destruct ((v_start s.[i] <=? a) && (a <? v_end s.[i])) eqn:Eb.
  - zbool. destruct (vma_find s.[i <- v'] a) as [u|] eqn:Eu; [|done]. exfalso.
    apply vma_find_Some in Eu as (j & Hj & _ & He & Hlu & Hau). rewrite aset_length in Hj.
    rewrite Hget in He by lia. destruct (Z.eqb_spec i j); [by subst|]. subst u.
    destruct (vw_disjoint s Hs i j Hi Hj); (done || lia).
  - assert (Hnot : ¬ (v_start s.[i] ≤ a < v_end s.[i])) by (apply andb_false_iff in Eb; zbool; lia).
    symmetry. apply vma_find_ext; [done..|]. intros u. rewrite aset_length.
    split; intros (j & Hj & He & Hlu & Hau); exists j;
      rewrite Hget in * by lia; destruct (Z.eqb_spec i j); subst; (done || lia || (split_and!; done)).
Qed.

(** *** Splitting *)

(** What the rest of the kernel sees of the region at an address: its
    protection and where the contents come from. *)
Definition at_addr (s : vset) (a : Z) : option (Z * vma_type * backing) :=
  match vma_find s a with
  | Some v => Some (v_flags v, v_type v, vma_backing v a)
  | None => None
  end.

Ltac solve_vma_ok := constructor; simpl; unfold VMM_USER_TOP; split_and!; (done || lia).

Lemma split_hi_fields v addr :
  v_start (split_hi v addr) = addr ∧ v_end (split_hi v addr) = v_end v ∧
  v_flags (split_hi v addr) = v_flags v ∧ v_type (split_hi v addr) = v_type v ∧
  file_base (split_hi v addr) = file_base v.
Proof. unfold split_hi. destruct (v_type v) eqn:E; repeat split_if; simpl; by rewrite ?E. Qed.

Lemma split_hi_ok v addr :
  vma_ok v → live v → (4096 | addr) → v_start v < addr < v_end v →
  vma_ok (split_hi v addr) ∧
  ∀ a, addr ≤ a < v_end v → vma_backing (split_hi v addr) a = vma_backing v a.
Proof.
  intros [[H1 H1'] [H2 H2'] H3 H4 H5] Hl Hd Ha. unfold VMM_USER_TOP in H2.
  assert (Hwrap : u64 (phys_base v + (addr - v_start v)) = phys_base v + (addr - v_start v) ∧
    u64 (file_voff v + (addr - v_start v)) = file_voff v + (addr - v_start v) ∧
    (file_pad v < addr - v_start v → addr - v_start v - file_pad v < file_len v →
     u64 (file_off v + (addr - v_start v - file_pad v)) = file_off v + (addr - v_start v - file_pad v))).
  { split_and!; intros; apply u64_small; unfold_uint; lia. }
  destruct Hwrap as (Hw1 & Hw2 & Hw3).
  unfold split_hi, vma_backing. destruct (v_type v) eqn:Et; simpl; try done.
  - split; [solve_vma_ok|]. intros. by rewrite Et.
  - destruct (Z.eqb_spec (file_inode v) 0) as [Hi|Hi]; simpl.
    + destruct (Z.leb_spec (addr - v_start v) (file_pad v)) as [Hp|Hp]; simpl.
      * split; [solve_vma_ok|]. intros a Haa.
        rewrite Et, Hi. simpl. destruct (negb _); [|done].
        replace (file_pad v - (addr - v_start v) <=? a - addr) with (file_pad v <=? a - v_start v) by lia.
        replace (a - addr <? file_pad v - (addr - v_start v) + file_len v)
          with (a - v_start v <? file_pad v + file_len v) by lia.
        destruct (_ && _); [|done]. f_equal. lia.
      * destruct (Z.leb_spec (file_len v) (addr - v_start v - file_pad v)) as [Hs|Hs]; simpl.
        -- split; [solve_vma_ok|]. intros a Haa.
           rewrite Et, Hi. simpl. destruct (negb _); [|done].
           destruct (Z.ltb_spec (a - v_start v) (file_pad v + file_len v)); [lia|].
           destruct (Z.ltb_spec (a - addr) (0 + 0)); [lia|]. by rewrite !andb_false_r.
        -- rewrite Hw3 by lia. split; [solve_vma_ok|]. intros a Haa.
           rewrite Et, Hi. simpl. destruct (negb _); [|done].
           destruct (Z.leb_spec 0 (a - addr)); [|lia]. destruct (Z.leb_spec (file_pad v) (a - v_start v)); [|lia].
           replace (a - addr <? 0 + (file_len v - (addr - v_start v - file_pad v)))
             with (a - v_start v <? file_pad v + file_len v) by lia. simpl.
           destruct (_ <? _); [|done]. f_equal. lia.
    + rewrite Hw2. split; [solve_vma_ok|]. intros a Haa.
      rewrite Et. destruct (Z.eqb_spec (file_inode v) 0); [done|]. simpl. f_equal. lia.
  - rewrite Hw1. split; [solve_vma_ok|]. intros a Haa.
    rewrite Et. f_equal. lia.
Qed.

Lemma set_v_end_ok v addr :
  vma_ok v → (4096 | addr) → v_start v < addr ≤ v_end v → vma_ok (set_v_end v addr).
Proof. intros [[? ?] [? ?] ? ? ?] Hd Ha. unfold VMM_USER_TOP in *. solve_vma_ok. Qed.

Lemma split_slot_spec l j i addr end_ n :
  0 ≤ n < zlen l → j + n ≠ i → live l.[n] → v_start l.[n] = addr → v_end l.[n] = end_ →
  (∀ k, 0 ≤ k < zlen l → k ≠ n → j + k ≠ i → live l.[k] → v_start l.[k] ≠ addr) →
  split_slot l j i addr end_ = Some (j + n).
Proof.
  revert j n. induction l as [|c l IH]; intros j n Hn Hne Hl Hs He Hother; simpl in Hn; [lia|].
  assert (Hcons : ∀ k, 0 < k → (c :: l).[k] = l.[k - 1]).
  { intros k Hk. unfold aget. by replace (Z.to_nat k) with (S (Z.to_nat (k - 1))) by lia. }
  cbn [split_slot]. destruct (decide (n = 0)) as [->|Hn0].
  - change ((c :: l).[0]) with c in *. apply is_none_spec in Hl. rewrite Hl.
    destruct (Z.eqb_spec j i); [lia|]. simpl. rewrite Hs, He, !Z.eqb_refl. simpl. f_equal. lia.
  - rewrite (Hcons n) in * by lia.
    assert (Hrec : split_slot l (j + 1) i addr end_ = Some (j + n)).
    { replace (j + n) with (j + 1 + (n - 1)) by lia. apply IH; try done; try lia.
      intros k Hk Hkn Hki Hlk. specialize (Hother (k + 1) ltac:(simpl; lia) ltac:(lia) ltac:(lia)).
      rewrite (Hcons (k + 1)) in Hother by lia. replace (k + 1 - 1) with k in Hother by lia. auto. }
    destruct (negb (j =? i) && negb (is_none c) && (v_start c =? addr) && (v_end c =? end_)) eqn:E; [|done].
    exfalso. zbool. apply (Hother 0); [simpl; lia | lia | lia | |].
    + change ((c :: l).[0]) with c. by apply is_none_spec.
    + change ((c :: l).[0]) with c. lia.
Qed.

(** The slot search of [vma_split] finds the slot [vma_add] filled. *)
Lemma split_slot_added s s1 i n v addr :
  vset_wf s → 0 ≤ i < zlen s → live s.[i] → v_start s.[i] < addr < v_end s.[i] →
  added s s1 n v → live v → v_start v = addr → v_end v = v_end s.[i] →
  n ≠ i ∧ split_slot s1 0 i addr (v_end s.[i]) = Some n.
Proof.
  intros Hs Hi En Ha [Hlen [Hn Hv] Hdead Hoth Hkept] Hl Hst Hen.
  assert (Hni : n ≠ i) by (intros ->; apply Hdead; [lia|done]). split; [done|].
  change n with (0 + n) at 1. apply split_slot_spec; try (rewrite Hv; done); try lia.
  intros k Hk Hkn Hki Hlk Heq. destruct (Hoth k Hk Hkn) as [Hks He]. rewrite He in *.
  pose proof (vw_ok s Hs k ltac:(lia) Hlk) as [_ [? _] _ _ _].
  pose proof (vw_disjoint s Hs i k Hi ltac:(lia) ltac:(lia) En Hlk) as [Hx|Hx]; lia.
Qed.

(** Filling slot [n] and then cutting slot [i] is cutting slot [i] and then
    adding to slot [n]. *)
Lemma added_cut s s1 i n nv hi w :
  0 ≤ i < zlen s → n ≠ i → added s s1 n nv → added s.[i <- w] s1.[n <- hi].[i <- w] n hi.
Proof.
  intros Hi Hni [Hlen [Hn Hv] Hdead Hoth Hkept].
  pose proof (Hkept i Hi). constructor; rewrite ?aset_length; try lia.
  - split; [lia|]. rewrite aget_aset_ne, aget_aset_eq by lia. done.
  - intros Hlt. rewrite aget_aset_ne by lia. by apply Hdead.
  - intros j Hj Hne. destruct (Hoth j Hj Hne) as [? He]. split; [lia|].
    rewrite !aget_aset by (rewrite ?aset_length; lia).
    destruct (Z.eqb_spec i j); [done|]. destruct (Z.eqb_spec n j); [lia|done].
Qed.

(** The outcomes of [vma_split]. *)
Lemma vma_split_cases s i addr :
  vset_wf s → 0 ≤ i < zlen s → live s.[i] →
  (vma_split s i addr = (s, false) ∧
   (¬ (4096 | addr) ∨ ¬ (v_start s.[i] < addr < v_end s.[i]) ∨
    (zlen s = VMA_MAX ∧ ∀ j, 0 ≤ j < zlen s → live s.[j]))) ∨
  ((4096 | addr) ∧ v_start s.[i] < addr < v_end s.[i] ∧
   ∃ s' n, vma_split s i addr = (s', true) ∧ n ≠ i ∧
     added s.[i <- set_v_end s.[i] addr] s' n (split_hi s.[i] addr)).
Proof.
  intros Hs Hi En. unfold vma_split. rewrite (proj2 (is_none_spec _) En).
  destruct (negb (Z.land addr 0xFFF =? 0)) eqn:Ed; cbn [orb].
  { left. split; [done|]. left. rewrite <- page_aligned. zbool. lia. }
  assert (Hd : (4096 | addr)) by (apply page_aligned; by apply negb_false_iff in Ed).
  destruct ((addr <=? v_start s.[i]) || (v_end s.[i] <=? addr)) eqn:Eg.
  { left. split; [done|]. right. left. zbool. lia. }
  zbool. destruct (split_hi_fields s.[i] addr) as (F1 & F2 & F3 & F4 & F5).
  set (hi := split_hi s.[i] addr) in *. rewrite F1, F2, F3, F4.
  pose proof (vma_add_added s addr (v_end s.[i]) (v_flags s.[i]) (v_type s.[i]) (file_base hi)
    (file_off hi) (file_pad hi) (file_len hi)) as Hadd.
  destruct (vma_add s addr _ _ _ _ _ _ _) as [s1|].
  2: { left. split; [done|]. right. right. pose proof (vw_len s Hs). split; [lia | tauto]. }
  right. split_and!; [done|lia|lia|].
  destruct Hadd as (n & Hadd). set (nv := mk_vma addr _ _ _ _ _ _ _ _ _ _) in Hadd.
  destruct (split_slot_added s s1 i n nv addr) as [Hni ->]; try done; try lia.
  pose proof (ad_slot _ _ _ _ Hadd) as [Hn Hv].
  assert (Hhi : set_phys (set_file s1.[n] (file_inode hi) (file_voff hi)) (phys_base hi) = hi).
  { rewrite Hv. unfold nv, set_file, set_phys. simpl. rewrite <- F1, <- F2, <- F3, <- F4. by destruct hi. }
  rewrite Hhi. rewrite (aget_aset_ne s1 n i) by lia.
  destruct (ad_others _ _ _ _ Hadd i) as [_ ->]; [pose proof (ad_kept _ _ _ _ Hadd i Hi); lia | lia |].
  eexists _, n. split_and!; [done..|]. by apply (added_cut s s1 i n nv).
Qed.

(** What the two halves answer is what the region answered. *)
Lemma split_halves s s' i n addr :
  vset_wf s → 0 ≤ i < zlen s → live s.[i] → (4096 | addr) → v_start s.[i] < addr < v_end s.[i] →
  added s.[i <- set_v_end s.[i] addr] s' n (split_hi s.[i] addr) →
  vset_wf s' ∧ (∀ a, at_addr s' a = at_addr s a) ∧ vma_find s' addr = Some (split_hi s.[i] addr).
Proof.
  intros Hs Hi En Hd Ha Hadd0. set (v := s.[i]) in *.
  pose proof (vw_ok s Hs i Hi En) as Hok. fold v in Hok.
  destruct (split_hi_ok v addr Hok En Hd ltac:(lia)) as [Hok_hi Hback].
  destruct (split_hi_fields v addr) as (F1 & F2 & F3 & F4 & F5). set (hi := split_hi v addr) in *.
  assert (Hl_hi : live hi) by (unfold live; rewrite F4; done).
  destruct (replace_wf s i (set_v_end v addr) Hs Hi En) as [Hwf0 Hfind0];
    [apply set_v_end_ok; (done || lia) | done | simpl; fold v; lia | simpl; fold v; lia |].
  fold v in Hfind0. cbn [set_v_end v_start v_end] in Hfind0.
  set (s0 := s.[i <- set_v_end v addr]) in *.
  destruct (added_wf s0 _ n hi Hwf0 Hadd0 Hok_hi Hl_hi) as [Hwf3 Hfind3].
  { intros j Hj Hlj. unfold s0 in *. rewrite aset_length in Hj. rewrite aget_aset in * by lia.
    unfold disjoint. rewrite F1, F2. destruct (Z.eqb_spec i j); [simpl; lia|].
    pose proof (vw_disjoint s Hs i j Hi Hj ltac:(lia) En Hlj) as [Hx|Hx]; fold v in Hx; lia. }
  rewrite F1, F2 in Hfind3. split_and!; [done| |].
  - intros a. unfold at_addr. rewrite Hfind3, Hfind0.
    destruct (Z.leb_spec addr a), (Z.ltb_spec a (v_end v)); cbn [andb].
    + destruct (vma_find_at s i a Hs Hi En ltac:(fold v; lia)) as [_ ->].
      rewrite F3, F4, Hback by lia. done.
    + destruct (Z.leb_spec (v_start v) a), (Z.ltb_spec a addr); (done || lia).
    + destruct (Z.leb_spec (v_start v) a), (Z.ltb_spec a addr); cbn [andb]; try lia; [|done].
      destruct (vma_find_at s i a Hs Hi En ltac:(fold v; lia)) as [_ ->]. done.
    + lia.
  - rewrite Hfind3. destruct (Z.leb_spec addr addr), (Z.ltb_spec addr (v_end v)); (done || lia).
Qed.

(** *** The properties *)

(** The region a process asks for: what [vma_add] stores. *)
Definition new_region (start end_ flags : Z) (type : vma_type) (base off pad len : Z) : vma :=
  mk_vma start end_ flags type base off pad len 0 0 0.

Lemma vma_add_spec s start end_ flags type base off pad len :
  let v := new_region start end_ flags type base off pad len in
  vset_wf s → vma_ok v → live v → vma_overlaps s start end_ = false →
  match vma_add s start end_ flags type base off pad len with
  | Some s' => vset_wf s' ∧ ∀ a, vma_find s' a =
      if (start <=? a) && (a <? end_) then Some v else vma_find s a
  | None => zlen s = VMA_MAX ∧ ∀ i, 0 ≤ i < zlen s → live s.[i]
  end.
Proof.
  intros v Hs Hok Hl Ho.
  pose proof (vma_add_added s start end_ flags type base off pad len) as Hadd.
  destruct (vma_add s start end_ flags type base off pad len) as [s'|].
  - destruct Hadd as [n Hadd]. apply (added_wf s s' n v Hs Hadd Hok Hl).
    intros j Hj Hlj. destruct (overlaps_false _ _ _ Ho j Hj Hlj); [by right | by left].
  - pose proof (vw_len s Hs). split; [lia | tauto].
Qed.

(** [vma_add] on its own search slot: the region found at [start] is the new
    one, so the fields the wrappers set land in it. *)
Lemma add_then_spec s start end_ flags type f :
  let v := new_region start end_ flags type 0 0 0 0 in
  vset_wf s → vma_ok v → live v → vma_overlaps s start end_ = false →
  vma_ok (f v) → live (f v) → v_start (f v) = start → v_end (f v) = end_ →
  match add_then s (vma_add s start end_ flags type 0 0 0 0) start f with
  | (s', true) => vset_wf s' ∧ ∀ a, vma_find s' a =
      if (start <=? a) && (a <? end_) then Some (f v) else vma_find s a
  | (s', false) => s' = s ∧ zlen s = VMA_MAX ∧ ∀ i, 0 ≤ i < zlen s → live s.[i]
  end.
Proof.
  intros v Hs Hok Hl Ho Hokf Hlf Hst Hen.
  pose proof (vma_add_spec s start end_ flags type 0 0 0 0 Hs Hok Hl Ho) as Hadd.
  unfold add_then. destruct (vma_add s start end_ flags type 0 0 0 0) as [s1|]; [|by destruct Hadd].
  destruct Hadd as [Hs1 Hf]. pose proof (vo_end v Hok) as [Hse _]. simpl in Hse.
  pose proof (Hf start) as Hat. destruct (Z.leb_spec start start), (Z.ltb_spec start end_); try lia.
  cbn [andb] in Hat. apply vma_find_Some in Hat as (i & Hi & -> & Hv & Hlv & Hav).
  fold v in Hv, Hf. destruct (replace_wf s1 i (f v) Hs1 Hi) as [Hwf Hfind];
    rewrite ?Hv; try done; simpl; try lia.
  rewrite Hv in Hfind. split; [done|]. intros a. rewrite Hfind, Hf, Hst, Hen.
  simpl. by destruct ((start <=? a) && (a <? end_)).
Qed.

(** Adding a page-aligned user region that overlaps no other: a
    device region, a page-cache region and a plain one all fail only when
    the 64 slots are taken, and otherwise keep the regions disjoint, make
    every address of the new range resolve to exactly the requested region
    and leave the lookup of every other address as it was. *)
Theorem vma_add_correct s start end_ flags type base off pad len :
  let v := new_region start end_ flags type base off pad len in
  vset_wf s → vma_ok v → live v → vma_overlaps s start end_ = false →
  match vma_add s start end_ flags type base off pad len with
  | Some s' => vset_wf s' ∧ ∀ a, vma_find s' a =
      if (start <=? a) && (a <? end_) then Some v else vma_find s a
  | None => zlen s = VMA_MAX ∧ ∀ i, 0 ≤ i < zlen s → live s.[i]
  end ∧
  (∀ phys, 0 ≤ phys → (4096 | phys) → phys + (end_ - start) < 2 ^ 62 →
   let r := vma_add_phys s start end_ flags phys in
   if r.2 then vset_wf r.1 ∧ ∀ a, at_addr r.1 a =
     if (start <=? a) && (a <? end_) then Some (flags, VMA_TYPE_PHYS, BPhys (phys + (a - start)))
     else at_addr s a
   else r.1 = s ∧ zlen s = VMA_MAX) ∧
  (∀ ino voff, ino ≠ 0 → 0 ≤ voff → voff + (end_ - start) < 2 ^ 62 →
   let r := vma_add_file s start end_ flags ino voff in
   if r.2 then vset_wf r.1 ∧ ∀ a, at_addr r.1 a =
     if (start <=? a) && (a <? end_) then Some (flags, VMA_TYPE_FILE, BFile ino (voff + (a - start)))
     else at_addr s a
   else r.1 = s ∧ zlen s = VMA_MAX).
Proof.
  intros v Hs Hok Hl Ho. split; [by apply vma_add_spec|].
  destruct Hok as [[H1 H1'] [H2 H2'] H3 H4 H5]; simpl in *. unfold VMM_USER_TOP in *.
  assert (Hok0 : ∀ ty, vma_ok (new_region start end_ flags ty 0 0 0 0)) by (intros; solve_vma_ok).
  split.
  - intros phys Hp Hpa Hpb. unfold vma_add_phys.
    rewrite !(proj2 (page_aligned _)) by done. cbn [negb orb].
    destruct (Z.leb_spec end_ start); [lia|].
    pose proof (add_then_spec s start end_ flags VMA_TYPE_PHYS (λ v, set_phys v phys) Hs (Hok0 _)) as Hat.
    destruct (add_then _ _ _ _) as [s' [|]]; simpl; simpl in Hat;
      destruct Hat as [Hwf Hfind]; try done; try solve_vma_ok; [|tauto].
    split; [done|]. intros a. unfold at_addr. rewrite Hfind. by destruct (_ && _).
  - intros ino voff Hino Hvo Hvb. unfold vma_add_file.
    pose proof (add_then_spec s start end_ flags VMA_TYPE_FILE (λ v, set_file v ino voff) Hs (Hok0 _)) as Hat.
    destruct (add_then _ _ _ _) as [s' [|]]; simpl; simpl in Hat;
      destruct Hat as [Hwf Hfind]; try done; try solve_vma_ok; [|tauto].
    split; [done|]. intros a. unfold at_addr. rewrite Hfind. destruct (_ && _); [|done].
    unfold vma_backing. simpl. destruct (Z.eqb_spec ino 0); [done|]. done.
Qed.

(** A set with one region of each kind. *)
Definition vma_demo : vset :=
  [mk_vma 0x400000 0x403000 5 VMA_TYPE_FILE 0x9000 16 0x10 0x1200 0 0 0;
   mk_vma 0x500000 0x502000 7 VMA_TYPE_ANON 0 0 0 0 0 0 0;
   mk_vma 0 0 0 VMA_TYPE_NONE 0 0 0 0 0 0 0;
   mk_vma 0x600000 0x603000 7 VMA_TYPE_FILE 0 0 0 0 7 0x2000 0].

Lemma vma_demo_wf : vset_wf vma_demo.
Proof.
  assert (Hi : ∀ i, 0 ≤ i < zlen vma_demo → i = 0 ∨ i = 1 ∨ i = 2 ∨ i = 3) by (simpl; lia).
  constructor.
  - done.
  - intros i [->|[->|[->| ->]]]%Hi Hl; try (by destruct Hl);
      constructor; simpl; unfold VMM_USER_TOP; split_and!; try lia;
      by apply Z.mod_divide.
  - intros i j [->|[->|[->| ->]]]%Hi [->|[->|[->| ->]]]%Hi Hij Hl1 Hl2;
      try (by destruct Hij); try (by destruct Hl1); try (by destruct Hl2);
      unfold disjoint; simpl; lia.
Defined.

Lemma vma_add_correct_witness :
  let s := vma_demo in
  match vma_add s 0x700000 0x702000 7 VMA_TYPE_ANON 0 0 0 0 with
  | Some s' => vset_wf s' ∧ vma_find s' 0x701000 = Some s'.[2] ∧ vma_find s' 0x703000 = None
  | None => False
  end.
Proof.
  intros s.
  destruct (vma_add_correct s 0x700000 0x702000 7 VMA_TYPE_ANON 0 0 0 0) as [H _].
  - apply vma_demo_wf.
  - constructor; simpl; unfold VMM_USER_TOP; split_and!; try lia; by apply Z.mod_divide.
  - done.
  - reflexivity.
  - destruct H as [Hwf Hf]. split_and!; [exact Hwf | reflexivity | reflexivity].
Defined.

(** Cutting a region at an address inside it changes nothing that can
    be observed at any address (protection, kind and backing bytes), on
    success and on failure; on success the two halves are separate
    regions, and the cut fails only at an unaligned address, at the ends
    of the region, or when the 64 slots are taken. *)
Theorem vma_split_correct s i addr :
  vset_wf s → 0 ≤ i < zlen s → live s.[i] →
  let '(s', ok) := vma_split s i addr in
  vset_wf s' ∧ (∀ a, at_addr s' a = at_addr s a) ∧
  (if ok then vma_find s' addr = Some (split_hi s.[i] addr) ∧
     s'.[i] = set_v_end s.[i] addr
   else s' = s ∧ (¬ (4096 | addr) ∨ ¬ (v_start s.[i] < addr < v_end s.[i]) ∨
     (zlen s = VMA_MAX ∧ ∀ j, 0 ≤ j < zlen s → live s.[j]))).
Proof.
  intros Hs Hi Hl. destruct (vma_split_cases s i addr Hs Hi Hl) as [[-> Hf]|(Hd & Ha & s' & n & -> & Hni & Hadd)];
    [done|].
  destruct (split_halves s s' i n addr Hs Hi Hl Hd Ha Hadd) as (Hwf & Hat & Hfind).
  split_and!; [done..|]. pose proof (ad_kept _ _ _ _ Hadd i) as Hk. rewrite aset_length in Hk.
  destruct (ad_others _ _ _ _ Hadd i) as [_ ->]; [lia|done|]. apply aget_aset_eq. lia.
Qed.

Lemma vma_split_correct_witness :
  let '(s', ok) := vma_split vma_demo 0 0x401000 in
  ok = true ∧ vset_wf s' ∧ at_addr s' 0x401004 = at_addr vma_demo 0x401004 ∧
  at_addr s' 0x401004 = Some (5, VMA_TYPE_FILE, BImage (0x9000 + 16 + 0x1004 - 0x10)).
Proof.
  pose proof (vma_split_correct vma_demo 0 0x401000 vma_demo_wf) as H.
  destruct (vma_split vma_demo 0 0x401000) as [s' ok] eqn:E.
  destruct H as (Hwf & Hat & _); [simpl; lia | done |].
  split_and!; [by injection E as _ <- | exact Hwf | apply Hat | rewrite Hat; reflexivity].
Defined.

(** *** Filling a page *)

(** The byte a backing denotes. *)
Definition backing_byte (img : mem) (cache : Z → Z → option (list Z)) (b : backing) : Z :=
  match b with
  | BZero | BPhys _ => 0
  | BImage p => rd8 img p
  | BFile ino off =>
      match cache ino (off / 4096 * 4096) with Some p => p.[off mod 4096] | None => 0 end
  end.

Lemma aget_fmap_seq {A} `{Inhabited A} (f : nat → A) n i :
  0 ≤ i < Z.of_nat n → aget (f <$> seq 0 n) i = f (Z.to_nat i).
Proof.
  intros Hi. apply lookup_aget. rewrite list_lookup_fmap, lookup_seq_lt by lia. done.
Qed.

Lemma aget_app {A} `{Inhabited A} (l k : list A) i :
  0 ≤ i → aget (l ++ k) i = if i <? zlen l then aget l i else aget k (i - zlen l).
Proof.
  intros Hi. unfold aget. destruct (Z.ltb_spec i (zlen l)).
  - by rewrite lookup_total_app_l by lia.
  - rewrite lookup_total_app_r by lia. f_equal. lia.
Qed.

Lemma fill_image_byte img v pg b :
  vma_ok v → v_start v ≤ pg < v_end v → 0 ≤ b < 4096 →
  (fill_image img v pg).[b] =
    if (file_pad v <=? pg + b - v_start v) && (pg + b - v_start v <? file_pad v + file_len v)
    then rd8 img (file_base v + (file_off v + (pg + b - v_start v - file_pad v))) else 0.
Proof.
  intros [[H1 H1'] [H2 H2'] H3 H4 H5] Hp Hb. unfold VMM_USER_TOP in *.
  unfold fill_image. rewrite !(u64_small (file_pad v + file_len v)), !(u64_small (pg - v_start v + 4096))
    by (unfold_uint; lia).
  set (os := if file_pad v <? pg - v_start v then pg - v_start v else file_pad v).
  set (oe := if pg - v_start v + 4096 <? file_pad v + file_len v then pg - v_start v + 4096
             else file_pad v + file_len v).
  assert (Hos : os = Z.max (file_pad v) (pg - v_start v)) by (unfold os; split_if; zbool; lia).
  assert (Hoe : oe = Z.min (file_pad v + file_len v) (pg - v_start v + 4096)) by (unfold oe; split_if; zbool; lia).
  clearbody os oe. destruct (Z.ltb_spec os oe) as [Hlt|Hge].
  - rewrite u64_small by (unfold_uint; lia).
    assert (Ht : zlen (take (Z.to_nat (os - (pg - v_start v))) (replicate 4096 0)) = os - (pg - v_start v))
      by (rewrite length_take, length_replicate; lia).
    rewrite aget_app, Ht by lia. destruct (Z.ltb_spec b (os - (pg - v_start v))).
    { rewrite take_replicate, aget_replicate by lia.
      destruct (Z.leb_spec (file_pad v) (pg + b - v_start v)); [lia | done]. }
    rewrite aget_app, length_fmap, length_seq by lia.
    destruct (Z.ltb_spec (b - (os - (pg - v_start v))) (Z.of_nat (Z.to_nat (oe - os)))).
    + rewrite aget_fmap_seq by lia.
      destruct (Z.leb_spec (file_pad v) (pg + b - v_start v)); [|lia].
      destruct (Z.ltb_spec (pg + b - v_start v) (file_pad v + file_len v)); [|lia].
      simpl. f_equal. lia.
    + rewrite drop_replicate, aget_replicate by lia.
      destruct (Z.ltb_spec (pg + b - v_start v) (file_pad v + file_len v)); [lia|]. by rewrite andb_false_r.
  - rewrite aget_replicate by lia.
    destruct (Z.leb_spec (file_pad v) (pg + b - v_start v)); [|done].
    destruct (Z.ltb_spec (pg + b - v_start v) (file_pad v + file_len v)); [lia|done].
Qed.

(** Demand paging puts the right bytes in place: whatever the kind of
    the region, byte [b] of the frame that a fault at page [pg] prepares is
    the byte the region's backing assigns to address [pg + b]: the image
    byte inside the file-backed window, the page-cache byte of the mapped
    file, and zero everywhere else. *)
Theorem vma_fault_fill_correct img cache v pg b :
  vma_ok v → v_type v ≠ VMA_TYPE_PHYS → (4096 | pg) → v_start v ≤ pg < v_end v →
  (4096 | file_voff v) → 0 ≤ b < 4096 →
  (vma_fault_fill img cache v pg).[b] = backing_byte img cache (vma_backing v (pg + b)).
Proof.
  intros Hok Hty [k Hk] Hpg [w Hw] Hb. pose proof (fill_image_byte img v pg b Hok Hpg Hb) as Hfill.
  destruct Hok as [[H1 [q Hq]] [H2 _] H3 H4 H5]. unfold VMM_USER_TOP in *.
  unfold vma_fault_fill, vma_backing.
  destruct (v_type v); [by apply aget_replicate| |done|by apply aget_replicate].
  destruct (negb (file_inode v =? 0)) eqn:Ei.
  - rewrite u64_small, land_not_page by (unfold_uint; lia). cbn [backing_byte].
    replace (file_voff v + (pg + b - v_start v)) with (b + (w + k - q) * 4096) by lia.
    replace (file_voff v + (pg - v_start v)) with ((w + k - q) * 4096) by lia.
    rewrite Z.div_mul, Z.div_add, Z.mod_add, Z.div_small, Z.mod_small, Z.add_0_l by lia.
    destruct (cache _ _); [done|]. by apply aget_replicate.
  - destruct (negb (file_base v =? 0)); [|by apply aget_replicate].
    rewrite Hfill. by destruct (_ && _).
Qed.

Lemma vma_fault_fill_correct_witness :
  let page := vma_fault_fill (λ a, a) (λ _ _, None) vma_demo.[0] 0x401000 in
  page.[0x20F] = 0x0F ∧ page.[0x210] = 0.
Proof.
  split.
  - etransitivity; [apply (vma_fault_fill_correct (λ a, a) (λ _ _, None) vma_demo.[0] 0x401000 0x20F)|].
    all: try (apply vma_demo_wf; simpl; (lia || done)); simpl; try lia; try done; try (by apply Z.mod_divide).
  - etransitivity; [apply (vma_fault_fill_correct (λ a, a) (λ _ _, None) vma_demo.[0] 0x401000 0x210)|].
    all: try (apply vma_demo_wf; simpl; (lia || done)); simpl; try lia; try done; try (by apply Z.mod_divide).
Defined.
