(* ===== verification/Frames.v ===== *)
(** * The frame allocator as its clients see it

    The page-table code, the demand pager and the copy-on-write code use the
    physical allocator through five calls ([pmm_alloc_frame],
    [pmm_free_frame], [pmm_share_frame], [pmm_unref_frame],
    [pmm_frame_shared]).  [FrameOps] is that interface and [FrameLaws] what it
    promises: every frame has a number of references, 0 when no client owns
    it.  The theorems about the clients are proved against the classes; the
    instances at the end show that the allocator of [src/mm/pmm.c] keeps the
    promise, its own use of frames for the counts included. *)

From S2P Require Import Prelude PmmRange PmmSection Pmm PmmRef.

(** Frames are 4 KiB; the physmap reaches 64 TiB. *)
Definition PHYS_TOP : Z := 2 ^ 46.

Class FrameOps (A : Type) := {
  fa_alloc : A → A * Z;
  fa_free : A → Z → A;
  fa_share : A → Z → A * Z;
  fa_unref : A → Z → A * Z;
  fa_shared : A → Z → bool
}.

(** References are counted up to this number; then the frame is never freed. *)
Definition REF_MAX : Z := 256.

Class FrameLaws (A : Type) `{FrameOps A} := {
  fa_inv : A → Prop;
  fa_ref : A → Z → Z;
  fa_ref_range a p : fa_inv a → 0 ≤ fa_ref a p ≤ REF_MAX;
  fa_ref_page a p : fa_inv a → fa_ref a p ≠ 0 → 0 < p < PHYS_TOP ∧ (4096 | p);
  fa_alloc_law a a' p : fa_inv a → fa_alloc a = (a', p) →
    (p = 0 ∧ a' = a) ∨
    (fa_inv a' ∧ fa_ref a p = 0 ∧ ∀ q, fa_ref a' q = if q =? p then 1 else fa_ref a q);
  fa_free_law a p : fa_inv a → fa_ref a p = 1 →
    fa_inv (fa_free a p) ∧ ∀ q, fa_ref (fa_free a p) q = if q =? p then 0 else fa_ref a q;
  fa_share_law a a' p rc : fa_inv a → fa_ref a p ≠ 0 → fa_share a p = (a', rc) →
    (rc = -1 ∧ a' = a) ∨
    (rc = 0 ∧ fa_inv a' ∧
     ∀ q, fa_ref a' q = if q =? p then Z.min REF_MAX (fa_ref a p + 1) else fa_ref a q);
  fa_unref_law a a' p rc : fa_inv a → fa_ref a p ≠ 0 → fa_unref a p = (a', rc) →
    rc = b2z (1 <? fa_ref a p) ∧ fa_inv a' ∧
    ∀ q, fa_ref a' q =
      if q =? p then (if fa_ref a p =? REF_MAX then REF_MAX else Z.max 1 (fa_ref a p - 1)) else fa_ref a q;
  fa_shared_law a p : fa_inv a → fa_ref a p ≠ 0 → fa_shared a p = (1 <? fa_ref a p);
  (** Free frames: a call fails only when there is none left. *)
  fa_avail : A → Z;
  fa_avail_alloc a a' p : fa_inv a → fa_alloc a = (a', p) →
    if p =? 0 then fa_avail a = 0 else fa_avail a' = fa_avail a - 1;
  fa_avail_free a p : fa_inv a → fa_ref a p = 1 → fa_avail (fa_free a p) = fa_avail a + 1;
  fa_avail_share a a' p rc : fa_inv a → fa_ref a p ≠ 0 → fa_share a p = (a', rc) →
    if rc =? 0 then fa_avail a - 1 ≤ fa_avail a' else fa_avail a = 0;
  fa_avail_unref a a' p rc : fa_inv a → fa_ref a p ≠ 0 → fa_unref a p = (a', rc) →
    fa_avail a ≤ fa_avail a'
}.

(** ** Consequences for every client *)

Section laws.
Context {A : Type} {ops : FrameOps A} {laws : FrameLaws A}.

Lemma fa_alloc_page a a' p : fa_inv a → fa_alloc a = (a', p) → p ≠ 0 → 0 < p < PHYS_TOP ∧ (4096 | p).
Proof.
  intros Ha E Hp. destruct (fa_alloc_law a a' p Ha E) as [[? _]|(Hi & _ & Hr)]; [done|].
  apply (fa_ref_page a'); [done|]. by rewrite Hr, Z.eqb_refl.
Qed.

(** [if (!pmm_unref_frame(f)) pmm_free_frame(f)], the way every client gives
    up a reference. *)
Definition drop_frame (a : A) (p : Z) : A :=
  let '(a1, more) := fa_unref a p in if more =? 0 then fa_free a1 p else a1.

Definition ref_dropped (n : Z) : Z := if n =? REF_MAX then REF_MAX else n - 1.

Lemma drop_frame_spec a p : fa_inv a → fa_ref a p ≠ 0 →
  fa_inv (drop_frame a p) ∧
  ∀ q, fa_ref (drop_frame a p) q = if q =? p then ref_dropped (fa_ref a p) else fa_ref a q.
Proof.
  intros Ha Hp. unfold drop_frame, ref_dropped. destruct (fa_unref a p) as [a1 rc] eqn:E.
  pose proof (fa_ref_range a p Ha) as Hr.
  destruct (fa_unref_law a a1 p rc Ha Hp E) as (-> & Ha1 & Hq).
  destruct (Z.ltb_spec 1 (fa_ref a p)) as [Hlt|Hge]; simpl.
  - split; [done|]. intros q. rewrite Hq. destruct (q =? p); [|done].
    destruct (Z.eqb_spec (fa_ref a p) REF_MAX); [done|]. lia.
  - assert (H1 : fa_ref a p = 1) by lia. rewrite H1 in *.
    destruct (fa_free_law a1 p Ha1) as [Hi Hf]; [by rewrite Hq, Z.eqb_refl|].
    split; [done|]. intros q. rewrite Hf, Hq. by destruct (q =? p).
Qed.
End laws.

(** ** The physical allocator keeps the promise *)

#[export] Instance pmm_frame_ops : FrameOps pmm := {
  fa_alloc := pmm_alloc_frame;
  fa_free := pmm_free_frame;
  fa_share := pmm_share_frame;
  fa_unref := pmm_unref_frame;
  fa_shared := pmm_frame_shared
}.

(** A frame a client may own: it exists, is not free and is not a chunk of
    counts. *)
Definition client_frame (st : pmm) (f : Z) : bool :=
  (0 <? f) && has_section st f && negb (frame_free st f) && negb (is_meta st f).

Definition pmm_refs (st : pmm) (p : Z) : Z :=
  if (p mod 4096 =? 0) && client_frame st (p / 4096) then 1 + refcnt st (p / 4096) else 0.

Record pmm_client_inv (st : pmm) : Prop := {
  pc_inv : pmm_inv st;
  pc_reach : g_nsec st ≤ 65536;
  pc_free : ∀ f, 0 ≤ f → frame_free st f = true → refcnt st f = 0;
  pc_meta : ∀ f, 0 ≤ f → is_meta st f = true → refcnt st f = 0
}.

Lemma refcnt_u8 st f : pmm_inv st → 0 ≤ f → 0 ≤ refcnt st f ≤ 255.
Proof.
  intros Hinv Hf. pose proof Hinv as [Hst _ _ Hr]. destruct (has_section st f) eqn:Hsec.
  - unfold refcnt. destruct (Z.eqb_spec (chunk_at st (f / 262144) (f mod 262144 / 4096)) 0) as [|Hp]; [lia|].
    destruct (chunk_data st f Hr Hf Hsec Hp) as (l & Hl & Hlen & Hu8 & _).
    unfold lookup_total, map_lookup_total. rewrite Hl. simpl.
    pose proof (Z.mod_pos_bound f 4096 ltac:(lia)).
    pose proof (forall_u8_get l (f mod 4096) Hu8 ltac:(lia)) as Hv. unfold is_u8 in Hv. lia.
  - rewrite refcnt_no_section by done. lia.
Qed.

Lemma is_meta_used st f : pmm_inv st → 0 ≤ f → is_meta st f = true → frame_free st f = false.
Proof.
  intros Hinv Hf Hm. pose proof Hinv as [Hst _ _ Hr]. apply is_meta_spec in Hm as (Hf0 & si & c & Hv & Hc); [|done].
  destruct (rw_chunk st Hr si c Hv) as [[? _]|(_ & _ & _ & Hff & _)]; [lia|].
  by rewrite Hc, Z.div_mul in Hff by lia.
Qed.

Lemma has_section_bound st f : 0 ≤ f → has_section st f = true → f < g_nsec st * 262144.
Proof.
  intros Hf Hs. destruct (has_section_sec st f Hf Hs) as (s & _ & _ & Hsi).
  Z.to_euclidean_division_equations; lia.
Qed.

Lemma page_of p : (p mod 4096 =? 0) = true → p = p / 4096 * 4096.
Proof. rewrite Z.eqb_eq. intros. Z.to_euclidean_division_equations; lia. Qed.

Lemma page_neq p q : (p mod 4096 =? 0) = true → (q mod 4096 =? 0) = true →
  (q / 4096 =? p / 4096) = (q =? p).
Proof.
  intros Hp Hq. apply page_of in Hp, Hq.
  destruct (Z.eqb_spec (q / 4096) (p / 4096)), (Z.eqb_spec q p); (done || congruence).
Qed.

(** An operation that only moves frames in or out of use leaves the counts and
    their chunks alone. *)
Lemma frames_only_chunk st st' si c : frames_only st st' → slot_valid st si c →
  slot_valid st' si c ∧ chunk_at st' si c = chunk_at st si c ∧ used_at st' si c = used_at st si c.
Proof.
  intros Ho [Hsi Hc]. unfold slot_valid, chunk_at, used_at.
  rewrite (fo_nsec _ _ Ho), (fo_refs _ _ Ho) by lia. done.
Qed.

Lemma frames_only_refcnt st st' f : frames_only st st' → 0 ≤ f → refcnt st' f = refcnt st f.
Proof.
  intros Ho Hf. unfold refcnt, chunk_at. rewrite (fo_refs _ _ Ho), (fo_chunks _ _ Ho); [done|].
  apply Z.div_pos; lia.
Qed.

Lemma frames_only_meta st st' f : pmm_wf st → pmm_wf st' → frames_only st st' → is_meta st' f = is_meta st f.
Proof.
  intros Hst Hst' Ho. apply eq_bool_prop_intro. rewrite !Is_true_true, !is_meta_spec by done.
  split; intros [Hf (si & c & Hv & Hc)]; (split; [done|]); exists si, c.
  - assert (Hv' : slot_valid st si c) by (unfold slot_valid in *; by rewrite <- (fo_nsec _ _ Ho)).
    destruct (frames_only_chunk st st' si c Ho Hv') as (_ & He & _). by rewrite <- He.
  - destruct (frames_only_chunk st st' si c Ho Hv) as (? & -> & _). done.
Qed.

Lemma frames_only_client st st' :
  pmm_client_inv st → pmm_wf st' → frames_only st st' →
  (∀ g, 0 ≤ g → has_section st' g = has_section st g) →
  (∀ g, 0 ≤ g → frame_free st' g = true → frame_free st g = true ∨
     client_frame st g = true ∧ refcnt st g = 0) →
  pmm_client_inv st'.
Proof.
  intros [[Hst Hsd H0 Hr] Hn Hf Hm] Hst' Ho Hsec Hfree. constructor.
  - constructor; [done | by rewrite (fo_sectioned _ _ Ho) | |].
    + destruct (frame_free st' 0) eqn:E; [|done]. destruct (Hfree 0 ltac:(lia) E) as [?|[? _]]; [congruence|done].
    + constructor.
      * intros si c Hv. assert (Hv0 : slot_valid st si c) by (unfold slot_valid in *; by rewrite <- (fo_nsec _ _ Ho)).
        destruct (frames_only_chunk st st' si c Ho Hv0) as (_ & -> & ->).
        destruct (rw_chunk st Hr si c Hv0) as [?|(Hp & Hd & Hh & Hff & Hu & Hl)]; [by left|]. right.
        assert (Hq : 0 ≤ chunk_at st si c / 4096) by (apply Z.div_pos; lia).
        split_and!; try done; try lia; [by rewrite Hsec| |by rewrite (fo_chunks _ _ Ho)].
        destruct (frame_free st' (chunk_at st si c / 4096)) eqn:E; [|done].
        destruct (Hfree _ Hq E) as [?|[E' _]]; [congruence|]. clear E. rename E' into E.
        unfold client_frame in E. apply andb_true_iff in E as [E1 E]. apply negb_true_iff in E.
        rewrite !andb_true_iff in E1. assert (is_meta st (chunk_at st si c / 4096) = true); [|congruence].
        apply is_meta_spec; [done|]. destruct Hd as [x Hx]. rewrite Hx, Z.div_mul in * by lia.
        split; [lia|]. exists si, c. done.
      * intros si c sj d H1 H2.
        assert (H1' : slot_valid st si c) by (unfold slot_valid in *; by rewrite <- (fo_nsec _ _ Ho)).
        assert (H2' : slot_valid st sj d) by (unfold slot_valid in *; by rewrite <- (fo_nsec _ _ Ho)).
        destruct (frames_only_chunk st st' si c Ho H1') as (_ & -> & _).
        destruct (frames_only_chunk st st' sj d Ho H2') as (_ & -> & _). by apply (rw_inj st Hr).
  - by rewrite (fo_nsec _ _ Ho).
  - intros f Hf0 E. rewrite (frames_only_refcnt st st') by done.
    destruct (Hfree f Hf0 E) as [?|[_ ?]]; [by apply Hf | done].
  - intros f Hf0. rewrite (frames_only_refcnt st st'), (frames_only_meta st st') by done. by apply Hm.
Qed.

Lemma pmm_alloc_law st st' p : pmm_client_inv st → pmm_alloc_frame st = (st', p) →
  (p = 0 ∧ st' = st) ∨
  (pmm_client_inv st' ∧ pmm_refs st p = 0 ∧ ∀ q, pmm_refs st' q = if q =? p then 1 else pmm_refs st q).
Proof.
  intros Hc E. pose proof Hc as [[Hst Hsd H0 Hr] Hn Hf Hm].
  apply alloc_frame_spec in E; [|done..|by right].
  destruct E as [(Hp & Hd & _ & (Hmk & Ho & Hfr) & _)|(-> & -> & _)]; [right|by left].
  destruct Hmk as (Hst' & Hsec & Hff).
  assert (Hpp : 0 < p / 4096 ∧ (p mod 4096 =? 0) = true).
  { destruct Hd as [x ->]. rewrite Z.div_mul, Z.mod_mul by lia. split; [lia|done]. }
  destruct Hpp as [Hpf Hpm]. assert (Hpfree := Hfr (p / 4096) ltac:(lia)).
  assert (Hff' : ∀ g, 0 ≤ g → frame_free st' g = frame_free st g && negb (g =? p / 4096)).
  { intros g Hg. rewrite Hff by done. unfold in_range. destruct (Z.eqb_spec g (p / 4096)) as [->|].
    - rewrite Z.leb_refl, andb_false_r. by destruct (Z.ltb_spec (p / 4096) (p / 4096 + 1)); [|lia].
    - rewrite andb_true_r. by destruct (Z.leb_spec (p / 4096) g), (Z.ltb_spec g (p / 4096 + 1)); try lia. }
  split_and!.
  - apply (frames_only_client st); try done. intros g Hg. rewrite Hff' by done. intros E.
    apply andb_true_iff in E as [E _]. by left.
  - unfold pmm_refs, client_frame. rewrite Hpfree. simpl. by rewrite !andb_false_r.
  - intros q. unfold pmm_refs. destruct (q mod 4096 =? 0) eqn:Hq; cbn [andb].
    2: { destruct (Z.eqb_spec q p) as [->|]; [congruence|done]. }
    rewrite <- (page_neq p q) by done. unfold client_frame.
    rewrite (frames_only_meta st st') by done. destruct (Z.ltb_spec 0 (q / 4096)); cbn [andb].
    2: { destruct (Z.eqb_spec (q / 4096) (p / 4096)); [lia|done]. }
    rewrite Hsec, Hff', (frames_only_refcnt st st') by (done || lia).
    destruct (Z.eqb_spec (q / 4096) (p / 4096)) as [->|]; cbn [negb andb].
    + rewrite andb_false_r, (frame_free_has_section st _ Hpfree), (Hf (p / 4096) ltac:(lia) Hpfree).
      destruct (is_meta st (p / 4096)) eqn:E; [|done].
      apply is_meta_used in E; [congruence| by constructor | lia].
    + by rewrite andb_true_r.
Qed.

Lemma pmm_refs_client st p : pmm_inv st → pmm_refs st p ≠ 0 →
  p = p / 4096 * 4096 ∧ (p mod 4096 =? 0) = true ∧ 0 < p / 4096 ∧ has_section st (p / 4096) = true ∧
  frame_free st (p / 4096) = false ∧ is_meta st (p / 4096) = false ∧ pmm_refs st p = 1 + refcnt st (p / 4096).
Proof.
  intros Hinv. unfold pmm_refs, client_frame. destruct (p mod 4096 =? 0) eqn:E; [|done].
  destruct (Z.ltb_spec 0 (p / 4096)); [|done].
  destruct (has_section st (p / 4096)), (frame_free st (p / 4096)), (is_meta st (p / 4096)); try done.
  intros _. split_and!; try done. by apply page_of.
Qed.

Lemma pmm_free_law st p : pmm_client_inv st → pmm_refs st p = 1 →
  pmm_client_inv (pmm_free_frame st p) ∧
  ∀ q, pmm_refs (pmm_free_frame st p) q = if q =? p then 0 else pmm_refs st q.
Proof.
  intros Hc Hp1. pose proof Hc as [Hinv Hn Hf Hm]. pose proof Hinv as [Hst Hsd H0 Hr].
  destruct (pmm_refs_client st p Hinv ltac:(lia)) as (Hp & Hpm & Hp0 & Hsec & Hff & Hmeta & Hcnt).
  pose proof (has_section_bound st (p / 4096) ltac:(lia) Hsec) as Hb.
  destruct (pmm_free_contiguous_spec st p 1) as [Hmk Ho]; [done| done | lia | lia | lia |].
  fold (pmm_free_frame st p) in Hmk, Ho. set (st' := pmm_free_frame st p) in *. clearbody st'.
  destruct Hmk as (Hst' & Hsec' & Hff').
  assert (Hfree : ∀ g, 0 ≤ g → frame_free st' g = frame_free st g || (g =? p / 4096)).
  { intros g Hg. rewrite Hff' by done. unfold in_range. destruct (Z.eqb_spec g (p / 4096)) as [->|].
    - rewrite Z.leb_refl, orb_true_r, Hsec. by destruct (Z.ltb_spec (p / 4096) (p / 4096 + 1)); [|lia].
    - rewrite orb_false_r. by destruct (Z.leb_spec (p / 4096) g), (Z.ltb_spec g (p / 4096 + 1)); try lia. }
  split.
  - apply (frames_only_client st); try done. intros g Hg. rewrite Hfree by done. intros E.
    apply orb_true_iff in E as [E|E]; [by left|]. apply Z.eqb_eq in E. subst g. right. split; [|lia].
    unfold client_frame. rewrite Hsec, Hff, Hmeta. by destruct (Z.ltb_spec 0 (p / 4096)); [|lia].
  - intros q. unfold pmm_refs. destruct (q mod 4096 =? 0) eqn:Hq; cbn [andb].
    2: { by destruct (q =? p). }
    rewrite <- (page_neq p q) by done. unfold client_frame.
    rewrite (frames_only_meta st st') by done. destruct (Z.ltb_spec 0 (q / 4096)); cbn [andb].
    2: { by destruct (q / 4096 =? p / 4096). }
    rewrite Hsec', Hfree, (frames_only_refcnt st st') by (done || lia).
    destruct (Z.eqb_spec (q / 4096) (p / 4096)) as [->|]; cbn [negb andb].
    + by rewrite orb_true_r, andb_false_r.
    + by rewrite orb_false_r.
Qed.

(** A frame that moves between the free frames and the chunks was no client's
    before and is none's after. *)
Lemma taken_client st st' f : frame_taken st st' → 0 ≤ f → client_frame st' f = client_frame st f.
Proof.
  intros ((_ & Hs) & Hfr) Hf. unfold client_frame. rewrite Hs by done.
  destruct Hfr as [Hsame|(q & _ & Hq & Hall)].
  - by destruct (Hsame f Hf) as [-> ->].
  - destruct (Hall f Hf) as [-> ->]. destruct (Z.eqb_spec f q) as [->|]; cbn [negb].
    + by rewrite Hq, orb_true_r, !andb_false_r.
    + by rewrite andb_true_r, orb_false_r.
Qed.

Lemma given_client st st' f : frame_given st st' → 0 ≤ f → client_frame st' f = client_frame st f.
Proof.
  intros ((_ & Hs) & Hfr) Hf. unfold client_frame. rewrite Hs by done.
  destruct Hfr as [Hsame|(q & Hq & Hm & Hall)].
  - by destruct (Hsame f Hf) as [-> ->].
  - destruct (Hall f Hf) as [-> ->]. destruct (Z.eqb_spec f q) as [->|]; cbn [negb].
    + by rewrite Hm, orb_true_r, !andb_false_r.
    + by rewrite andb_true_r, orb_false_r.
Qed.

Lemma client_counts st st' :
  pmm_inv st' → (∀ f, 0 ≤ f → client_frame st' f = client_frame st f) →
  ∀ p (v : Z → Z), (∀ f, 0 ≤ f → refcnt st' f = if f =? p then v (refcnt st p) else refcnt st f) →
  0 ≤ p → ∀ q, pmm_refs st' q =
    if q =? p * 4096 then if client_frame st p then 1 + v (refcnt st p) else 0 else pmm_refs st q.
Proof.
  intros Hinv Hcl p v Hcnt Hp q. unfold pmm_refs. destruct (q mod 4096 =? 0) eqn:Hq; cbn [andb].
  2: { destruct (Z.eqb_spec q (p * 4096)) as [->|]; [|done]. by rewrite Z.mod_mul in Hq. }
  destruct (Z.lt_ge_cases q 0) as [Hneg|Hpos].
  { assert (q / 4096 < 0) by (apply Z.div_lt_upper_bound; lia).
    destruct (Z.eqb_spec q (p * 4096)); [lia|]. unfold client_frame.
    by destruct (Z.ltb_spec 0 (q / 4096)); [lia|]. }
  assert (0 ≤ q / 4096) by (apply Z.div_pos; lia). rewrite Hcl, Hcnt by done.
  replace (q =? p * 4096) with (q / 4096 =? p).
  - by destruct (Z.eqb_spec (q / 4096) p) as [->|].
  - apply page_of in Hq. destruct (Z.eqb_spec (q / 4096) p), (Z.eqb_spec q (p * 4096)); (done || lia).
Qed.

Lemma share_client st st' f : pmm_client_inv st → pmm_inv st' → 0 ≤ f →
  client_frame st f = true → count_added st st' f → frame_taken st st' → pmm_client_inv st'.
Proof.
  intros [Hinv Hn Hf Hm] Hinv' Hf0 Hcl Hcnt ((Hn' & Hs) & Hfr).
  assert (Hcf : frame_free st f = false ∧ is_meta st f = false).
  { unfold client_frame in Hcl. rewrite !andb_true_iff, !negb_true_iff in Hcl. tauto. }
  constructor; [done | lia | |].
  - intros g Hg Hfree. assert (Hg0 : frame_free st g = true).
    { destruct Hfr as [Hsame|(q & _ & Hq & Hall)]; [by destruct (Hsame g Hg) as [<- _]|].
      destruct (Hall g Hg) as [He _]. rewrite He in Hfree. by apply andb_true_iff in Hfree as [? _]. }
    rewrite Hcnt by done. destruct (Z.eqb_spec g f) as [->|]; [destruct Hcf; congruence | by apply Hf].
  - intros g Hg Hmeta. rewrite Hcnt by done. destruct (Z.eqb_spec g f) as [->|].
    + destruct Hfr as [Hsame|(q & _ & Hq & Hall)].
      * destruct (Hsame f Hg) as [_ He], Hcf; congruence.
      * destruct (Hall f Hg) as [_ He]. destruct Hcf as [Hc1 Hc2]. rewrite He, Hc2 in Hmeta. simpl in Hmeta.
        apply Z.eqb_eq in Hmeta. congruence.
    + destruct Hfr as [Hsame|(q & _ & Hq & Hall)].
      * destruct (Hsame g Hg) as [_ He]. apply Hm; congruence.
      * destruct (Hall g Hg) as [_ He]. rewrite He in Hmeta. apply orb_true_iff in Hmeta as [?|E]; [by apply Hm|].
        apply Z.eqb_eq in E. subst g. by apply Hf.
Qed.

Lemma unref_client st st' f : pmm_client_inv st → pmm_inv st' → 0 ≤ f →
  count_dropped st st' f → frame_given st st' → pmm_client_inv st'.
Proof.
  intros [Hinv Hn Hf Hm] Hinv' Hf0 Hcnt ((Hn' & Hs) & Hfr).
  assert (Hz : ∀ g, 0 ≤ g → refcnt st g = 0 → refcnt st' g = 0).
  { intros g Hg Hz. rewrite Hcnt by done. destruct (Z.eqb_spec g f) as [->|]; [|done]. by rewrite Hz. }
  constructor; [done | lia | |].
  - intros g Hg Hfree. apply Hz; [done|]. destruct Hfr as [Hsame|(q & Hq & Hmq & Hall)].
    + destruct (Hsame g Hg) as [He _]. apply Hf; congruence.
    + destruct (Hall g Hg) as [He _]. rewrite He in Hfree. apply orb_true_iff in Hfree as [?|E]; [by apply Hf|].
      apply Z.eqb_eq in E. subst g. by apply Hm.
  - intros g Hg Hmeta. apply Hz; [done|]. apply Hm; [done|]. destruct Hfr as [Hsame|(q & Hq & Hmq & Hall)].
    + by destruct (Hsame g Hg) as [_ <-].
    + destruct (Hall g Hg) as [_ He]. rewrite He in Hmeta. by apply andb_true_iff in Hmeta as [? _].
Qed.

Lemma client_frame_refs st p : pmm_inv st → pmm_refs st p ≠ 0 → client_frame st (p / 4096) = true.
Proof. intros _. unfold pmm_refs. destruct (_ =? _); [|done]. simpl. by destruct (client_frame _ _). Qed.

Lemma pmm_share_law st st' p rc : pmm_client_inv st → pmm_refs st p ≠ 0 → pmm_share_frame st p = (st', rc) →
  (rc = -1 ∧ st' = st) ∨
  (rc = 0 ∧ pmm_client_inv st' ∧
   ∀ q, pmm_refs st' q = if q =? p then Z.min REF_MAX (pmm_refs st p + 1) else pmm_refs st q).
Proof.
  intros Hc Hp E. pose proof Hc as [Hinv _ _ _]. pose proof (client_frame_refs st p Hinv Hp) as Hcl.
  destruct (pmm_refs_client st p Hinv Hp) as (Hpp & _ & Hp0 & Hsec & _ & _ & Hcnt). rewrite Hpp in E.
  destruct (share_spec st (p / 4096) st' rc Hinv ltac:(lia) Hsec E) as [(-> & Hinv' & Hadd & Ht)|(-> & -> & _)];
    [right | by left].
  split; [done|]. split; [apply (share_client st st' (p / 4096)); (done || lia)|]. intros q.
  rewrite (client_counts st st' Hinv' (λ f Hf, taken_client st st' f Ht Hf) (p / 4096)
    (λ n, Z.min 255 (n + 1)) Hadd ltac:(lia)), <- Hpp, Hcl, Hcnt.
  destruct (q =? p); [|done]. unfold REF_MAX. lia.
Qed.

Lemma pmm_unref_law st st' p rc : pmm_client_inv st → pmm_refs st p ≠ 0 → pmm_unref_frame st p = (st', rc) →
  rc = b2z (1 <? pmm_refs st p) ∧ pmm_client_inv st' ∧
  ∀ q, pmm_refs st' q =
    if q =? p then (if pmm_refs st p =? REF_MAX then REF_MAX else Z.max 1 (pmm_refs st p - 1)) else pmm_refs st q.
Proof.
  intros Hc Hp E. pose proof Hc as [Hinv _ _ _]. pose proof (client_frame_refs st p Hinv Hp) as Hcl.
  destruct (pmm_refs_client st p Hinv Hp) as (Hpp & _ & Hp0 & Hsec & _ & _ & Hcnt). rewrite Hpp in E.
  destruct (unref_spec st (p / 4096) st' rc Hinv ltac:(lia) E) as (-> & Hinv' & Hdrop & Hg).
  pose proof (refcnt_u8 st (p / 4096) Hinv ltac:(lia)) as Hr. split_and!.
  - rewrite Hcnt. f_equal. lia.
  - apply (unref_client st st' (p / 4096)); (done || lia).
  - intros q. rewrite (client_counts st st' Hinv' (λ f Hf, given_client st st' f Hg Hf) (p / 4096)
      (λ n, if n =? 255 then 255 else Z.max 0 (n - 1)) Hdrop ltac:(lia)), <- Hpp, Hcl, Hcnt.
    destruct (q =? p); [|done]. unfold REF_MAX. replace (1 + refcnt st (p / 4096) =? 256)
      with (refcnt st (p / 4096) =? 255) by lia. destruct (_ =? 255); lia.
Qed.

Lemma pmm_refs_range st p : pmm_client_inv st → 0 ≤ pmm_refs st p ≤ REF_MAX.
Proof.
  intros [Hinv _ _ _]. unfold REF_MAX. destruct (decide (pmm_refs st p = 0)) as [->|Hp]; [lia|].
  destruct (pmm_refs_client st p Hinv Hp) as (_ & _ & Hp0 & _ & _ & _ & ->).
  pose proof (refcnt_u8 st (p / 4096) Hinv ltac:(lia)). lia.
Qed.

Lemma pmm_refs_page st p : pmm_client_inv st → pmm_refs st p ≠ 0 → 0 < p < PHYS_TOP ∧ (4096 | p).
Proof.
  intros [Hinv Hn _ _] Hp. destruct (pmm_refs_client st p Hinv Hp) as (Hpp & _ & Hp0 & Hsec & _).
  pose proof (has_section_bound st (p / 4096) ltac:(lia) Hsec). unfold PHYS_TOP.
  split; [lia|]. by exists (p / 4096).
Qed.

Lemma pmm_shared_law st p : pmm_client_inv st → pmm_refs st p ≠ 0 →
  pmm_frame_shared st p = (1 <? pmm_refs st p).
Proof.
  intros [Hinv _ _ _] Hp. destruct (pmm_refs_client st p Hinv Hp) as (Hpp & _ & Hp0 & _ & _ & _ & Hcnt).
  rewrite Hpp at 1. rewrite pmm_frame_shared_spec by (done || lia). rewrite Hcnt. lia.
Qed.

(** *** Free frames *)

Lemma no_frames_avail st : pmm_wf st → (∀ g, 0 ≤ g → frame_free st g = false) → g_free_frames st = 0.
Proof. intros Hst Hn. rewrite free_frames_count by done. apply zcount_none. intros i Hi. apply Hn. lia. Qed.

Lemma free_frames_same st st' : pmm_wf st → pmm_wf st' → same_sections st st' →
  (∀ g, 0 ≤ g → frame_free st' g = frame_free st g) → g_free_frames st' = g_free_frames st.
Proof.
  intros Hst Hst' [Hn Hs] Hf. apply free_frames_ext; try done; intros; by rewrite ?Hs, ?Hf.
Qed.

(** A frame more is free. *)
Lemma free_frames_add st st' q : pmm_wf st → pmm_wf st' → g_nsec st' = g_nsec st → 0 ≤ q →
  frame_free st q = false → (∀ f, 0 ≤ f → frame_free st' f = frame_free st f || (f =? q)) →
  g_free_frames st' = g_free_frames st + 1.
Proof.
  intros Hst Hst' Hn Hq Hf Hall. pose proof (free_frames_remove st' st q Hst' Hst ltac:(lia) Hq) as Hr.
  rewrite Hall, Hf, Z.eqb_refl in Hr by done. rewrite Hr; [lia|done|].
  intros f Hf0. rewrite Hall by done. destruct (Z.eqb_spec f q) as [->|]; simpl; [by rewrite Hf, andb_false_r|].
  by rewrite orb_false_r, andb_true_r.
Qed.

Lemma pmm_avail_alloc st st' p : pmm_client_inv st → pmm_alloc_frame st = (st', p) →
  if p =? 0 then g_free_frames st = 0 else g_free_frames st' = g_free_frames st - 1.
Proof.
  intros [[Hst Hsd H0 Hr] Hn Hf Hm] E. apply alloc_frame_spec in E; [|done..|by right].
  destruct E as [(Hp & Hd & _ & ((Hst' & Hsec & Hff) & Ho & Hfr) & _)|(-> & -> & H1 & H2)].
  - destruct (Z.eqb_spec p 0); [lia|]. assert (0 ≤ p / 4096) by (apply Z.div_pos; lia).
    apply (free_frames_remove st st' (p / 4096)); try done; [apply Ho | apply Hfr; lia |].
    intros g Hg. rewrite Hff by done. unfold in_range. destruct (Z.eqb_spec g (p / 4096)) as [->|].
    + rewrite Z.leb_refl, andb_false_r. by destruct (Z.ltb_spec (p / 4096) (p / 4096 + 1)); [|lia].
    + rewrite andb_true_r. by destruct (Z.leb_spec (p / 4096) g), (Z.ltb_spec g (p / 4096 + 1)); try lia.
  - rewrite Z.eqb_refl. apply no_frames_avail; [done|]. by apply no_free_frame.
Qed.

Lemma pmm_avail_free st p : pmm_client_inv st → pmm_refs st p = 1 →
  g_free_frames (pmm_free_frame st p) = g_free_frames st + 1.
Proof.
  intros Hc Hp1. pose proof Hc as [Hinv Hn Hf Hm]. pose proof Hinv as [Hst Hsd H0 Hr].
  destruct (pmm_refs_client st p Hinv ltac:(lia)) as (Hp & Hpm & Hp0 & Hsec & Hff & Hmeta & Hcnt).
  pose proof (has_section_bound st (p / 4096) ltac:(lia) Hsec) as Hb.
  destruct (pmm_free_contiguous_spec st p 1) as [(Hst' & _ & Hff') Ho]; [done| done | lia | lia | lia |].
  fold (pmm_free_frame st p) in Hst', Hff', Ho.
  apply (free_frames_add st _ (p / 4096)); try done; [apply Ho | lia |].
  intros g Hg. rewrite Hff' by done. unfold in_range. destruct (Z.eqb_spec g (p / 4096)) as [->|].
  - rewrite Z.leb_refl, orb_true_r, Hsec. by destruct (Z.ltb_spec (p / 4096) (p / 4096 + 1)); [|lia].
  - rewrite orb_false_r. by destruct (Z.leb_spec (p / 4096) g), (Z.ltb_spec g (p / 4096 + 1)); try lia.
Qed.

Lemma pmm_avail_share st st' p rc : pmm_client_inv st → pmm_refs st p ≠ 0 → pmm_share_frame st p = (st', rc) →
  if rc =? 0 then g_free_frames st - 1 ≤ g_free_frames st' else g_free_frames st = 0.
Proof.
  intros Hc Hp E. pose proof Hc as [Hinv _ _ _].
  destruct (pmm_refs_client st p Hinv Hp) as (Hpp & _ & Hp0 & Hsec & _). rewrite Hpp in E.
  destruct (share_spec st (p / 4096) st' rc Hinv ltac:(lia) Hsec E) as [(-> & Hinv' & _ & Hs & Ht)|(-> & -> & _ & Hn)].
  - rewrite Z.eqb_refl. destruct Ht as [Hsame|(q & Hq0 & Hq & Hall)].
    + rewrite (free_frames_same st st'); [lia | apply Hinv | apply Hinv' | done |]. intros g Hg. by apply Hsame.
    + rewrite (free_frames_remove st st' q); [lia | apply Hinv | apply Hinv' | apply Hs | done | done |].
      intros g Hg. by apply Hall.
  - simpl. apply no_frames_avail; [apply Hinv | done].
Qed.

Lemma pmm_avail_unref st st' p rc : pmm_client_inv st → pmm_refs st p ≠ 0 → pmm_unref_frame st p = (st', rc) →
  g_free_frames st ≤ g_free_frames st'.
Proof.
  intros Hc Hp E. pose proof Hc as [Hinv _ _ _].
  destruct (pmm_refs_client st p Hinv Hp) as (Hpp & _ & Hp0 & _). rewrite Hpp in E.
  destruct (unref_spec st (p / 4096) st' rc Hinv ltac:(lia) E) as (_ & Hinv' & _ & Hs & [Hsame|(q & Hq & Hmq & Hall)]).
  - rewrite (free_frames_same st st'); [lia | apply Hinv | apply Hinv' | done |]. intros g Hg. by apply Hsame.
  - apply is_meta_spec in Hmq as [Hq0 _]; [|apply Hinv].
    rewrite (free_frames_add st st' q); [lia | apply Hinv | apply Hinv' | apply Hs | lia | done |].
    intros g Hg. by apply Hall.
Qed.

#[export] Instance pmm_frame_laws : FrameLaws pmm := {
  fa_inv := pmm_client_inv;
  fa_ref := pmm_refs;
  fa_ref_range := pmm_refs_range;
  fa_ref_page := pmm_refs_page;
  fa_alloc_law := pmm_alloc_law;
  fa_free_law := pmm_free_law;
  fa_share_law := pmm_share_law;
  fa_unref_law := pmm_unref_law;
  fa_shared_law := pmm_shared_law;
  fa_avail := g_free_frames;
  fa_avail_alloc := pmm_avail_alloc;
  fa_avail_free := pmm_avail_free;
  fa_avail_share := pmm_avail_share;
  fa_avail_unref := pmm_avail_unref
}.

(** ** Refinement

    The abstract allocator is a count per frame; a call steps it. *)

Inductive frame_call :=
  | CAlloc
  | CFree (p : Z)
  | CShare (p : Z)
  | CUnref (p : Z)
  | CShared (p : Z).

(** The count of [p] becomes [n], the others stay. *)
Definition count_set (r r' : Z → Z) (p n : Z) : Prop := ∀ q, r' q = if q =? p then n else r q.

Inductive frame_spec (r : Z → Z) : frame_call → Z → (Z → Z) → Prop :=
  | fs_alloc p r' : p ≠ 0 → r p = 0 → count_set r r' p 1 → frame_spec r CAlloc p r'
  | fs_alloc_fail : frame_spec r CAlloc 0 r
  | fs_free p r' : r p = 1 → count_set r r' p 0 → frame_spec r (CFree p) 0 r'
  | fs_share p r' : r p ≠ 0 → count_set r r' p (Z.min REF_MAX (r p + 1)) → frame_spec r (CShare p) 0 r'
  | fs_share_fail p : r p ≠ 0 → frame_spec r (CShare p) (-1) r
  | fs_unref_last p r' : r p = 1 → count_set r r' p 1 → frame_spec r (CUnref p) 0 r'
  | fs_unref p r' : 1 < r p → count_set r r' p (ref_dropped (r p)) → frame_spec r (CUnref p) 1 r'
  | fs_shared p : r p ≠ 0 → frame_spec r (CShared p) (b2z (1 <? r p)) r.

Inductive frame_trace (r : Z → Z) : list (frame_call * Z) → (Z → Z) → Prop :=
  | ft_nil : frame_trace r [] r
  | ft_cons c v r1 t r2 : frame_spec r c v r1 → frame_trace r1 t r2 → frame_trace r ((c, v) :: t) r2.

Section refinement.
Context {A : Type} {ops : FrameOps A} {laws : FrameLaws A}.

Definition fa_call (a : A) (c : frame_call) : A * Z :=
  match c with
  | CAlloc => fa_alloc a
  | CFree p => (fa_free a p, 0)
  | CShare p => fa_share a p
  | CUnref p => fa_unref a p
  | CShared p => (a, b2z (fa_shared a p))
  end.

(** The calls a client that keeps its side of the contract may make. *)
Definition call_ok (r : Z → Z) (c : frame_call) : bool :=
  match c with
  | CAlloc => true
  | CFree p => r p =? 1
  | CShare p | CUnref p | CShared p => negb (r p =? 0)
  end.

(** Runs the calls while they are legal. *)
Fixpoint fa_calls (a : A) (cs : list frame_call) : option (A * list (frame_call * Z)) :=
  match cs with
  | [] => Some (a, [])
  | c :: cs =>
      if call_ok (fa_ref a) c then
        let '(a1, v) := fa_call a c in
        match fa_calls a1 cs with
        | Some (a2, t) => Some (a2, (c, v) :: t)
        | None => None
        end
      else None
  end.

Lemma fa_call_spec a c a' v : fa_inv a → call_ok (fa_ref a) c = true → fa_call a c = (a', v) →
  fa_inv a' ∧ frame_spec (fa_ref a) c v (fa_ref a').
Proof.
  intros Ha Hok E. destruct c as [|p|p|p|p]; simpl in Hok, E; zbool.
  - destruct (fa_alloc_law a a' v Ha E) as [[-> ->]|(Hi & Hz & Hr)]; [by split; [|constructor]|].
    split; [done|]. constructor; try done. intros ->.
    destruct (fa_ref_page a' 0 Hi); [by rewrite Hr|]. lia.
  - injection E as <- <-. destruct (fa_free_law a p Ha Hok) as [Hi Hr]. split; [done|]. by constructor.
  - destruct (fa_share_law a a' p v Ha Hok E) as [[-> ->]|(-> & Hi & Hr)]; (split; [done|]); by constructor.
  - destruct (fa_unref_law a a' p v Ha Hok E) as (-> & Hi & Hr). split; [done|].
    pose proof (fa_ref_range a p Ha). destruct (Z.ltb_spec 1 (fa_ref a p)); simpl.
    + apply fs_unref; [done|]. intros q. rewrite Hr. unfold ref_dropped.
      destruct (q =? p); [|done]. destruct (_ =? REF_MAX); [done|lia].
    + assert (Hone : fa_ref a p = 1) by lia. apply fs_unref_last; [done|]. intros q. by rewrite Hr, Hone.
  - injection E as <- <-. split; [done|]. rewrite fa_shared_law by done. by constructor.
Qed.

Lemma fa_calls_spec cs : ∀ a a' t, fa_inv a → fa_calls a cs = Some (a', t) →
  fa_inv a' ∧ cs = t.*1 ∧ frame_trace (fa_ref a) t (fa_ref a').
Proof.
  induction cs as [|c cs IH]; simpl; intros a a' t Ha E.
  - injection E as <- <-. split_and!; [done..|constructor].
  - destruct (call_ok (fa_ref a) c) eqn:Hok; [|done].
    destruct (fa_call a c) as [a1 v] eqn:Ec. destruct (fa_calls a1 cs) as [[a2 t2]|] eqn:E2; [|done].
    injection E as <- <-. destruct (fa_call_spec a c a1 v Ha Hok Ec) as [Ha1 Hs].
    destruct (IH a1 a2 t2 Ha1 E2) as (Ha2 & -> & Ht). split_and!; [done..|]. by econstructor.
Qed.
End refinement.

(** C10. The physical allocator refines the abstract one: any sequence of
    legal calls (allocate, free, share, drop, query) on a consistent
    allocator produces results and final reference counts that the abstract
    allocator, one counter per frame, can produce, although the
    implementation takes and returns frames of its own for the counts on the
    way. *)
Theorem pmm_refines_counts (st st' : pmm) cs t :
  pmm_client_inv st → fa_calls st cs = Some (st', t) →
  pmm_client_inv st' ∧ cs = t.*1 ∧ frame_trace (pmm_refs st) t (pmm_refs st').
Proof. exact (fa_calls_spec (A := pmm) cs st st' t). Qed.

Lemma pmm_demo_client : pmm_client_inv pmm_demo.
Proof.
  assert (Hz : ∀ f, 0 ≤ f → refcnt pmm_demo f = 0).
  { intros f Hf. destruct (has_section pmm_demo f) eqn:E.
    - unfold refcnt. pose proof (frame_slot_valid pmm_demo f Hf E) as Hv.
      destruct (pmm_demo_refs _ _ Hv) as [-> _]. done.
    - apply refcnt_no_section; [apply pmm_demo_wf | done | done]. }
  constructor; [apply pmm_demo_inv | done | by intros; apply Hz | by intros; apply Hz].
Defined.

Lemma pmm_refines_counts_witness :
  ∃ st' p, fa_calls pmm_demo [CAlloc; CShare 0x10003c000; CUnref 0x10003c000; CUnref 0x10003c000; CFree 0x10003c000]
    = Some (st', [(CAlloc, p); (CShare p, 0); (CUnref p, 1); (CUnref p, 0); (CFree p, 0)]) ∧
  frame_trace (pmm_refs pmm_demo) [(CAlloc, p); (CShare p, 0); (CUnref p, 1); (CUnref p, 0); (CFree p, 0)]
    (pmm_refs st').
Proof.
  set (cs := [CAlloc; _; _; _; _]).
  destruct (fa_calls pmm_demo cs) as [[st' t]|] eqn:E.
  2: { assert (H : match fa_calls pmm_demo cs with Some _ => true | None => false end = true)
         by (vm_compute; reflexivity). by rewrite E in H. }
  destruct (pmm_refines_counts pmm_demo st' cs t pmm_demo_client E) as (_ & _ & Ht).
  assert (Hv : (match fa_calls pmm_demo cs with Some (_, t) => t | None => [] end) =
    [(CAlloc, 0x10003c000); (CShare 0x10003c000, 0); (CUnref 0x10003c000, 1); (CUnref 0x10003c000, 0);
     (CFree 0x10003c000, 0)]) by (vm_compute; reflexivity).
  rewrite E in Hv. subst t. exists st', 0x10003c000. split; [done | exact Ht].
Defined.
