(* ===== verification/Vmm.v ===== *)
(** * Page tables

    Models [src/mm/vmm.c] after [vmm_init_physmap]: the four-level walk and
    its creation of tables ([get_or_create_table], [get_pt_space]), mapping,
    unmapping, protection, translation, the copy-on-write fault, the
    duplication, creation and destruction of user address spaces, the page
    fault entry and the demand pager [vma_fault_in] of [src/mm/vma.c].

    Physical memory is a function from the address of an aligned 64-bit word
    to the word; a pointer obtained with [phys_to_virt] is the physical
    address.  An address space is the address of its PML4; [None] is a null
    [vmm_space_t*].  Frames come from any [FrameOps] allocator.  TLB
    invalidations are recorded in order. *)

From S2P Require Import Prelude Vma Frames.

Definition USER_CODE_BASE : Z := 0x100000000.
Definition USER_STACK_TOP : Z := 0x3FFF00000.
Definition KERNEL_HALF : Z := 0xFFFF800000000000.

Record vm (A : Type) := mk_vm {
  vmem : Z → Z;
  vfr : A;
  kspace : Z;
  flushes : list (Z * Z * Z)
}.
Arguments mk_vm {A}. Arguments vmem {A}. Arguments vfr {A}. Arguments kspace {A}. Arguments flushes {A}.

Definition set_mem {A} (st : vm A) m := mk_vm m (vfr st) (kspace st) (flushes st).
Definition set_fr {A} (st : vm A) (a : A) : vm A := mk_vm (vmem st) a (kspace st) (flushes st).
Definition set_flushes {A} (st : vm A) l := mk_vm (vmem st) (vfr st) (kspace st) l.

(** One word; a zeroed, copied or filled page. *)
Definition wr (m : Z → Z) (a v : Z) : Z → Z := λ x, if x =? a then v else m x.
Definition in_page (p x : Z) : bool := (p <=? x) && (x <? p + 4096).
Definition zero_page (m : Z → Z) (p : Z) : Z → Z := λ x, if in_page p x then 0 else m x.
Definition copy_page (m : Z → Z) (dst src : Z) : Z → Z :=
  λ x, if in_page dst x then m (src + (x - dst)) else m x.
Definition word_of (l : list Z) (o : Z) : Z :=
  l.[o] + 256 * (l.[o + 1] + 256 * (l.[o + 2] + 256 * (l.[o + 3] + 256 *
  (l.[o + 4] + 256 * (l.[o + 5] + 256 * (l.[o + 6] + 256 * l.[o + 7])))))).
Definition fill_page (m : Z → Z) (p : Z) (l : list Z) : Z → Z :=
  λ x, if in_page p x then word_of l (x - p) else m x.

Definition slot (t i : Z) : Z := t + 8 * i.
Definition flag (e f : Z) : bool := negb (Z.land e f =? 0).
Lemma flag_shiftl x i : 0 ≤ i → flag x (Z.shiftl 1 i) = Z.testbit x i.
Proof. intros Hi. unfold flag. by rewrite land_shiftl1, negb_involutive. Qed.
Definition is_present (e : Z) : bool := flag e VMM_FLAG_PRESENT.
(** A leaf that owns a frame: present, or parked by PROT_NONE. *)
Definition vmm_pte_has_frame (e : Z) : bool := flag e (Z.lor VMM_FLAG_PRESENT VMM_FLAG_PROTNONE).

Definition pml4_i (virt : Z) : Z := Z.land (Z.shiftr virt 39) 0x1FF.
Definition pdpt_i (virt : Z) : Z := Z.land (Z.shiftr virt 30) 0x1FF.
Definition pdt_i (virt : Z) : Z := Z.land (Z.shiftr virt 21) 0x1FF.
Definition pt_i (virt : Z) : Z := Z.land (Z.shiftr virt 12) 0x1FF.

Section vmm.
Context {A : Type} {ops : FrameOps A}.
Abbreviation state := (vm A).

(** [table[i] = v] *)
Definition put (st : state) (t i v : Z) : state := set_mem st (wr (vmem st) (slot t i) v).
Definition entry (st : state) (t i : Z) : Z := vmem st (slot t i).

Definition zero_frame (st : state) (phys : Z) : state := set_mem st (zero_page (vmem st) phys).
Definition pmm_alloc (st : state) : state * Z := let '(a, p) := fa_alloc (vfr st) in (set_fr st a, p).
Definition pmm_free (st : state) (p : Z) : state := set_fr st (fa_free (vfr st) p).
Definition pmm_share (st : state) (p : Z) : state * Z := let '(a, r) := fa_share (vfr st) p in (set_fr st a, r).
Definition pmm_unref (st : state) (p : Z) : state * Z := let '(a, r) := fa_unref (vfr st) p in (set_fr st a, r).
Definition pmm_drop (st : state) (p : Z) : state :=
  let '(st1, more) := pmm_unref st p in if more =? 0 then pmm_free st1 p else st1.
Definition tlb_shootdown (st : state) (space va pages : Z) : state :=
  set_flushes st (flushes st ++ [(space, va, pages)]).

Definition get_or_create_table (st : state) (table index flags : Z) : state * option Z :=
  let e := entry st table index in
  if negb (is_present e) then
    let '(st1, frame) := pmm_alloc st in
    if frame =? 0 then (st1, None)
    else
      let st2 := zero_frame st1 frame in
      let phys := Z.land frame ADDRESS_MASK in
      let e' := Z.lor (Z.lor (Z.lor phys
                  (Z.land flags (Z.lor (Z.lor VMM_FLAG_USER VMM_FLAG_PWT) VMM_FLAG_PCD)))
                  VMM_FLAG_RW) VMM_FLAG_PRESENT in
      (put st2 table index e', Some phys)
  else (st, Some (Z.land e ADDRESS_MASK)).

(** One level of [get_pt_space]. *)
Definition pt_level (st : state) (table index : Z) (create : bool) (flags : Z) : state * option Z :=
  if negb (is_present (entry st table index)) then
    if negb create then (st, None) else get_or_create_table st table index flags
  else (st, Some (Z.land (entry st table index) ADDRESS_MASK)).

Definition get_pt_space (st : state) (space virt : Z) (create : bool) (flags : Z) : state * option Z :=
  let pml4 := Z.land space ADDRESS_MASK in
  match pt_level st pml4 (pml4_i virt) create flags with
  | (st1, None) => (st1, None)
  | (st1, Some pdpt) =>
      match pt_level st1 pdpt (pdpt_i virt) create flags with
      | (st2, None) => (st2, None)
      | (st2, Some pdt) => pt_level st2 pdt (pdt_i virt) create flags
      end
  end.

Definition get_pt (st : state) (virt : Z) (create : bool) (flags : Z) : state * option Z :=
  get_pt_space st (kspace st) virt create flags.

(** Writable and executable at once. *)
Definition wx (flags : Z) : bool := flag flags VMM_FLAG_RW && negb (flag flags VMM_FLAG_NOEXEC).

Definition leaf_entry (phys flags : Z) : Z :=
  Z.lor (Z.lor (Z.land phys ADDRESS_MASK) (Z.land flags (not64 VMM_FLAG_PS))) VMM_FLAG_PRESENT.

Definition misaligned (a : Z) : bool := negb (Z.land a 0xFFF =? 0).

Definition vmm_map (st : state) (virt phys flags : Z) : state * Z :=
  if misaligned virt || misaligned phys then (st, -1)
  else if wx flags then (st, -5)
  else if flag flags VMM_FLAG_USER && (KERNEL_HALF <=? virt) then (st, -4)
  else match get_pt st virt true flags with
       | (st1, None) => (st1, -2)
       | (st1, Some pt) =>
           if is_present (entry st1 pt (pt_i virt)) then (st1, -3)
           else (put st1 pt (pt_i virt) (leaf_entry phys flags), 0)
       end.

Definition vmm_map_in_space (st : state) (space : option Z) (virt phys flags : Z) : state * Z :=
  match space with
  | None => (st, -10)
  | Some root =>
      if misaligned virt || misaligned phys then (st, -1)
      else if wx flags then (st, -5)
      else if flag flags VMM_FLAG_USER && (KERNEL_HALF <=? virt) then (st, -4)
      else match get_pt_space st root virt true flags with
           | (st1, None) => (st1, -2)
           | (st1, Some pt) =>
               if vmm_pte_has_frame (entry st1 pt (pt_i virt)) then (st1, -3)
               else if flag flags VMM_FLAG_PROTNONE then (st1, -1)
               else (put st1 pt (pt_i virt) (leaf_entry phys flags), 0)
           end
  end.

Definition vmm_unmap_noflush (st : state) (virt : Z) : state * Z :=
  if misaligned virt then (st, -1)
  else match get_pt st virt false 0 with
       | (st1, None) => (st1, -2)
       | (st1, Some pt) =>
           if negb (is_present (entry st1 pt (pt_i virt))) then (st1, -3)
           else (put st1 pt (pt_i virt) 0, 0)
       end.

Definition vmm_unmap (st : state) (virt : Z) : state * Z :=
  let '(st1, r) := vmm_unmap_noflush st virt in
  if r =? 0 then (tlb_shootdown st1 (kspace st1) virt 1, r) else (st1, r).

Definition vmm_unmap_in_space (st : state) (space : option Z) (virt : Z) : state * Z :=
  match space with
  | None => (st, -10)
  | Some root =>
      if misaligned virt then (st, -1)
      else if VMM_USER_TOP <=? virt then (st, -1)
      else match get_pt_space st root virt false 0 with
           | (st1, None) => (st1, -2)
           | (st1, Some pt) =>
               let e := entry st1 pt (pt_i virt) in
               if negb (vmm_pte_has_frame e) then (st1, -3)
               else
                 let st2 := tlb_shootdown (put st1 pt (pt_i virt) 0) root virt 1 in
                 if flag e VMM_FLAG_DEVICE then (st2, 0)
                 else (pmm_drop st2 (Z.land e ADDRESS_MASK), 0)
           end
  end.

(** The leaf that [vmm_protect_in_space] installs over [old]; [shared] is
    [pmm_frame_shared] of its frame. *)
Definition protect_entry (old flags : Z) (shared : bool) : Z :=
  let phys := Z.land old ADDRESS_MASK in
  if flag old VMM_FLAG_DEVICE then
    let keep := Z.land old (Z.lor (Z.lor VMM_FLAG_DEVICE VMM_FLAG_PWT) VMM_FLAG_PCD) in
    if flag flags VMM_FLAG_PROTNONE then
      Z.lor (Z.lor (Z.lor phys keep) VMM_FLAG_PROTNONE) VMM_FLAG_NOEXEC
    else
      Z.lor (Z.lor (Z.lor (Z.lor (Z.lor phys keep) VMM_FLAG_PRESENT) VMM_FLAG_USER) VMM_FLAG_NOEXEC)
        (Z.land flags VMM_FLAG_RW)
  else if flag flags VMM_FLAG_PROTNONE then
    Z.lor (Z.lor phys VMM_FLAG_PROTNONE) VMM_FLAG_NOEXEC
  else
    let nf := Z.lor (Z.lor (Z.land flags
                (not64 (Z.lor (Z.lor VMM_FLAG_PS VMM_FLAG_COW) VMM_FLAG_PROTNONE)))
                VMM_FLAG_PRESENT) VMM_FLAG_USER in
    let nf := if flag old VMM_FLAG_COW || shared
              then Z.lor (Z.land nf (not64 VMM_FLAG_RW)) VMM_FLAG_COW else nf in
    Z.lor phys nf.

Definition vmm_protect_in_space (st : state) (space : option Z) (virt flags : Z) : state * Z :=
  match space with
  | None => (st, -10)
  | Some root =>
      if misaligned virt then (st, -1)
      else if VMM_USER_TOP <=? virt then (st, -1)
      else if wx flags then (st, -5)
      else match get_pt_space st root virt false 0 with
           | (st1, None) => (st1, -3)
           | (st1, Some pt) =>
               let old := entry st1 pt (pt_i virt) in
               if negb (vmm_pte_has_frame old) then (st1, -3)
               else
                 let e := protect_entry old flags (fa_shared (vfr st1) (Z.land old ADDRESS_MASK)) in
                 (tlb_shootdown (put st1 pt (pt_i virt) e) root virt 1, 0)
           end
  end.

Definition vmm_walk_translate (st : state) (pml4_phys virt : Z) : Z :=
  let e := entry st (Z.land pml4_phys ADDRESS_MASK) (pml4_i virt) in
  if negb (is_present e) then 0
  else
  let e := entry st (Z.land e ADDRESS_MASK) (pdpt_i virt) in
  if negb (is_present e) then 0
  else if flag e VMM_FLAG_PS then Z.lor (Z.land e 0x000FFFFFC0000000) (Z.land virt 0x3FFFFFFF)
  else
  let e := entry st (Z.land e ADDRESS_MASK) (pdt_i virt) in
  if negb (is_present e) then 0
  else if flag e VMM_FLAG_PS then Z.lor (Z.land e 0x000FFFFFFFE00000) (Z.land virt 0x1FFFFF)
  else
  let e := entry st (Z.land e ADDRESS_MASK) (pt_i virt) in
  if negb (is_present e) then 0
  else Z.lor (Z.land e ADDRESS_MASK) (Z.land virt 0xFFF).

Definition vmm_translate (st : state) (virt : Z) : Z := vmm_walk_translate st (kspace st) virt.
Definition vmm_translate_in_space (st : state) (space : option Z) (virt : Z) : Z :=
  match space with None => 0 | Some root => vmm_walk_translate st root virt end.

Definition vmm_alloc_page (st : state) (virt flags : Z) : state * Z :=
  let '(st1, frame) := pmm_alloc st in
  if frame =? 0 then (st1, -1)
  else vmm_map (zero_frame st1 frame) virt frame (Z.lor flags VMM_FLAG_RW).

Definition vmm_alloc_page_in_space (st : state) (space : option Z) (virt flags : Z) : state * Z :=
  match space with
  | None => (st, -10)
  | Some _ =>
      let '(st1, frame) := pmm_alloc st in
      if frame =? 0 then (st1, -1)
      else vmm_map_in_space (zero_frame st1 frame) space virt frame (Z.lor flags VMM_FLAG_RW)
  end.

Definition map_user_page_in_space (st : state) (space : option Z) (virt : Z) (rw exec : bool) : state * Z :=
  match space with
  | None => (st, -10)
  | Some root =>
      if misaligned virt then (st, -1)
      else
        let '(st1, frame) := pmm_alloc st in
        if frame =? 0 then (st1, -2)
        else
          let flags := Z.lor VMM_FLAG_PRESENT VMM_FLAG_USER in
          let flags := if rw then Z.lor flags VMM_FLAG_RW else flags in
          let flags := if negb exec then Z.lor flags VMM_FLAG_NOEXEC else flags in
          let '(st2, res) := vmm_map_in_space (zero_frame st1 frame) space virt frame flags in
          if negb (res =? 0) then (st2, res)
          else if negb rw then
            match get_pt_space st2 root virt false 0 with
            | (st3, Some pt) =>
                if is_present (entry st3 pt (pt_i virt))
                then (put st3 pt (pt_i virt) (Z.land (entry st3 pt (pt_i virt)) (not64 VMM_FLAG_RW)), 0)
                else (st3, 0)
            | (st3, None) => (st3, 0)
            end
          else (st2, 0)
  end.

(** The copy-on-write fault.  [cur] is the current process: its address space
    and its regions. *)
Definition vmm_cow_fault (st : state) (cur : option (Z * vset)) (space : option Z) (addr : Z) : state * Z :=
  match space with
  | None => (st, -1)
  | Some root =>
      if (addr <? USER_CODE_BASE) || (USER_STACK_TOP <=? addr) then (st, -1)
      else
        let va := Z.land addr (not64 0xFFF) in
        match get_pt_space st root va false 0 with
        | (st1, None) => (st1, -1)
        | (st1, Some pt) =>
            let pte := entry st1 pt (pt_i va) in
            if negb (is_present pte) || negb (flag pte VMM_FLAG_COW) then (st1, -1)
            else
              let v := match cur with
                       | Some (cs, vmas) => if cs =? root then vma_find vmas va else None
                       | None => None
                       end in
              let writable := match v with
                              | Some v => flag (v_flags v) VMM_FLAG_RW && negb (flag (v_flags v) VMM_FLAG_PROTNONE)
                              | None => false
                              end in
              if negb writable then (st1, -1)
              else
                let oldphys := Z.land pte ADDRESS_MASK in
                let '(st2, nf) := pmm_alloc st1 in
                if nf =? 0 then (st2, -1)
                else
                  let nphys := Z.land nf ADDRESS_MASK in
                  let st3 := set_mem st2 (copy_page (vmem st2) nphys oldphys) in
                  let st4 := pmm_drop st3 oldphys in
                  let flags := Z.lor (Z.land (Z.land pte (not64 ADDRESS_MASK)) (not64 VMM_FLAG_COW)) VMM_FLAG_RW in
                  (tlb_shootdown (put st4 pt (pt_i va) (Z.lor nphys flags)) root va 1, 0)
        end
  end.

(** The demand pager.  [img] and [cache] as in [vma_fault_fill].  [fault_frame]
    is its part for memory that is not a device: allocate, fill, map. *)
Definition fault_frame (st : state) (img : mem) (cache : Z → Z → option (list Z))
    (space : option Z) (v : vma) (pg : Z) : state * Z :=
  let '(st1, frame) := pmm_alloc st in
  if frame =? 0 then (st1, -3)
  else
    let fphys := Z.land frame ADDRESS_MASK in
    let st2 := set_mem st1 (fill_page (vmem st1) fphys (vma_fault_fill img cache v pg)) in
    let '(st3, r) := vmm_map_in_space st2 space pg fphys (v_flags v) in
    if negb (r =? 0) then (pmm_free st3 frame, r) else (st3, 0).

Definition vma_fault_in (st : state) (img : mem) (cache : Z → Z → option (list Z))
    (space : option Z) (v : vma) (addr : Z) : state * Z :=
  match space with
  | None => (st, -1)
  | Some _ =>
      let pg := Z.land addr (not64 0xFFF) in
      if (pg <? v_start v) || (v_end v <=? pg) then (st, -2)
      else if flag (v_flags v) VMM_FLAG_PROTNONE then (st, -4)
      else match v_type v with
      | VMA_TYPE_PHYS =>
          let phys := u64 (phys_base v + (pg - v_start v)) in
          vmm_map_in_space st space pg phys
            (Z.lor (Z.lor (Z.lor (v_flags v) VMM_FLAG_DEVICE) VMM_FLAG_PWT) VMM_FLAG_NOEXEC)
      | _ => fault_frame st img cache space v pg
      end
  end.

Definition vmm_try_handle_page_fault (st : state) (img : mem) (cache : Z → Z → option (list Z))
    (cur : option (Z * vset)) (fault_addr error_code : Z) : state * Z :=
  let space := option_map fst cur in
  let cow := if flag error_code 1 && flag error_code 2
             then match cur with
                  | Some _ => vmm_cow_fault st cur space fault_addr
                  | None => (st, -1)
                  end
             else (st, -1) in
  let '(st1, r) := cow in
  if r =? 0 then (st1, 0)
  else if negb (flag error_code 1) then
    match cur with
    | Some (root, vmas) =>
        match vma_find vmas fault_addr with
        | Some vv =>
            if negb (flag (v_flags vv) VMM_FLAG_PROTNONE) then
              let '(st2, r2) := vma_fault_in st1 img cache space vv fault_addr in
              if r2 =? 0 then (st2, 0) else (st2, -1)
            else (st1, -1)
        | None => (st1, -1)
        end
    | None => (st1, -1)
    end
  else (st1, -1).
End vmm.
