(* ===== verification/VmmWf.v ===== *)
(** * Well-formed page tables

    The invariant of the user halves of a set of address spaces and the
    lemmas on the walk: which table a path of indices reaches, what a write
    to a leaf and the creation of a table change, and that no two paths, of
    one space or of two, ever share a table. *)

From S2P Require Import Prelude Vma Frames Vmm.

(** ** Bits of entries *)

Lemma flag_bit e k : 0 ≤ k → flag e (2 ^ k) = Z.testbit e k.
Proof.
  intros Hk. unfold flag. rewrite <- (Z.mul_1_l (2 ^ k)), <- Z.shiftl_mul_pow2, land_shiftl1 by done.
  apply negb_involutive.
Qed.

Lemma present_bit e : is_present e = Z.testbit e 0.
Proof. apply (flag_bit e 0). lia. Qed.
Lemma rw_bit e : flag e VMM_FLAG_RW = Z.testbit e 1.
Proof. apply (flag_bit e 1). lia. Qed.
Lemma user_bit e : flag e VMM_FLAG_USER = Z.testbit e 2.
Proof. apply (flag_bit e 2). lia. Qed.
Lemma ps_bit e : flag e VMM_FLAG_PS = Z.testbit e 7.
Proof. apply (flag_bit e 7). lia. Qed.
Lemma cow_bit e : flag e VMM_FLAG_COW = Z.testbit e 9.
Proof. apply (flag_bit e 9). lia. Qed.
Lemma protnone_bit e : flag e VMM_FLAG_PROTNONE = Z.testbit e 10.
Proof. apply (flag_bit e 10). lia. Qed.
Lemma device_bit e : flag e VMM_FLAG_DEVICE = Z.testbit e 11.
Proof. apply (flag_bit e 11). lia. Qed.
Lemma noexec_bit e : flag e VMM_FLAG_NOEXEC = Z.testbit e 63.
Proof. apply (flag_bit e 63). lia. Qed.

Lemma has_frame_bits e : vmm_pte_has_frame e = Z.testbit e 0 || Z.testbit e 10.
Proof.
  unfold vmm_pte_has_frame, flag. rewrite Z.land_lor_distr_r, <- present_bit, <- protnone_bit.
  unfold is_present, flag. destruct (Z.eqb_spec (Z.land e VMM_FLAG_PRESENT) 0) as [->|Hn]; simpl.
  - done.
  - apply negb_true_iff, Z.eqb_neq. intros [? _]%Z.lor_eq_0_iff. done.
Qed.

Create Rewrite HintDb secos_pte.
#[export] Hint Rewrite present_bit rw_bit user_bit ps_bit cow_bit protnone_bit device_bit noexec_bit
  has_frame_bits : secos_pte.

Lemma mask_testbit i : 0 ≤ i → Z.testbit ADDRESS_MASK i = (12 <=? i) && (i <? 52).
Proof.
  intros Hi. change ADDRESS_MASK with (Z.shiftl (Z.ones 40) 12).
  rewrite Z.shiftl_spec by done. destruct (Z.leb_spec 12 i); simpl.
  - rewrite Z.testbit_ones by lia. destruct (Z.leb_spec 0 (i - 12)); [|lia].
    destruct (Z.ltb_spec (i - 12) 40), (Z.ltb_spec i 52); (done || lia).
  - by rewrite Z.testbit_neg_r by lia.
Qed.

(** An aligned physical address the walk can hold. *)
Definition page_addr (p : Z) : Prop := 0 < p < PHYS_TOP ∧ (4096 | p).

Lemma page_addr_bits p i : page_addr p → 0 ≤ i → Z.testbit p i = true → 12 ≤ i < 52.
Proof.
  intros [Hp [x ->]] Hi Ht. unfold PHYS_TOP in *. split.
  - destruct (Z.lt_ge_cases i 12); [|done]. exfalso.
    rewrite <- (Z.mod_pow2_bits_low (x * 4096) 12 i) in Ht by lia.
    change (2 ^ 12) with 4096 in Ht. rewrite Z.mod_mul, Z.bits_0 in Ht by lia. done.
  - destruct (Z.lt_ge_cases i 52); [done|]. exfalso.
    rewrite (testbit_high 46) in Ht; (done || lia).
Qed.

Lemma page_addr_mask p : page_addr p → Z.land p ADDRESS_MASK = p.
Proof.
  intros Hp. apply Z.bits_inj'. intros i Hi. rewrite Z.land_spec, mask_testbit by done.
  destruct (Z.testbit p i) eqn:E; [|done]. apply page_addr_bits in E; [|done..].
  destruct (Z.leb_spec 12 i), (Z.ltb_spec i 52); (done || lia).
Qed.

(** Flags: the bits of an entry outside the address. *)
Definition flag_only (x : Z) : Prop := is_u64 x ∧ Z.land x ADDRESS_MASK = 0.

Lemma flag_only_bits x i : flag_only x → 12 ≤ i < 52 → Z.testbit x i = false.
Proof.
  intros [_ Hx] Hi. assert (Ht : Z.testbit (Z.land x ADDRESS_MASK) i = false) by (by rewrite Hx, Z.bits_0).
  rewrite Z.land_spec, mask_testbit in Ht by lia.
  destruct (Z.leb_spec 12 i), (Z.ltb_spec i 52); try lia. by rewrite andb_true_r in Ht.
Qed.

Lemma page_bit_low p i : page_addr p → 0 ≤ i < 12 ∨ 52 ≤ i → Z.testbit p i = false.
Proof.
  intros Hp Hi. destruct (Z.testbit p i) eqn:E; [|done]. apply page_addr_bits in E; (done || lia).
Qed.

(** An entry made of a page address and flags. *)
Lemma entry_parts p x : page_addr p → flag_only x →
  Z.land (Z.lor p x) ADDRESS_MASK = p ∧ is_u64 (Z.lor p x) ∧
  ∀ i, 0 ≤ i < 12 ∨ 52 ≤ i → Z.testbit (Z.lor p x) i = Z.testbit x i.
Proof.
  intros Hp Hx. split_and!.
  - by rewrite Z.land_lor_distr_l, (proj2 Hx), Z.lor_0_r, page_addr_mask.
  - apply is_u64_lor; [|apply Hx]. destruct Hp as [Hp _]. unfold PHYS_TOP, is_u64 in *. lia.
  - intros i Hi. by rewrite Z.lor_spec, page_bit_low.
Qed.

Lemma flag_only_lor x y : flag_only x → flag_only y → flag_only (Z.lor x y).
Proof.
  intros [Hx Hx'] [Hy Hy']. split; [by apply is_u64_lor|]. by rewrite Z.land_lor_distr_l, Hx', Hy'.
Qed.
Lemma flag_only_land x y : flag_only x → flag_only (Z.land x y).
Proof.
  intros [Hx Hx']. split; [by apply is_u64_land_l|].
  by rewrite <- Z.land_assoc, (Z.land_comm y), Z.land_assoc, Hx', Z.land_0_l.
Qed.
Lemma flag_only_land_r x y : 0 ≤ x → flag_only y → flag_only (Z.land x y).
Proof. intros. rewrite Z.land_comm. by apply flag_only_land. Qed.
Lemma flag_only_not_mask x : is_u64 x → flag_only (Z.land x (not64 ADDRESS_MASK)).
Proof.
  intros Hx. split; [by apply is_u64_land_l|]. apply Z.bits_inj'. intros i Hi.
  rewrite !Z.land_spec, not64_testbit, Z.bits_0 by done.
  destruct (Z.testbit ADDRESS_MASK i); simpl; by rewrite ?andb_false_r.
Qed.
#[export] Hint Resolve flag_only_lor flag_only_land flag_only_not_mask : secos.

(** Evaluates the bits of constants. *)
Ltac const_bits :=
  repeat match goal with
  | |- context [Z.testbit ?c ?k] =>
      let v := eval vm_compute in (Z.testbit c k) in
      match v with true => idtac | false => idtac end;
      change (Z.testbit c k) with v
  end; cbn [orb andb negb].

Ltac flag_const := split; [unfold_uint; vm_compute; intuition congruence | reflexivity].

(** ** Pages and paths

    A user page [v] (of [2^35]) is reached by three indices and a slot. *)

Definition USER_PAGES : Z := 2 ^ 35.
Definition upage (v : Z) : Prop := 0 ≤ v < USER_PAGES.
Definition path_of (v : Z) : list Z := [v / 2 ^ 27; v / 2 ^ 18 mod 512; v / 2 ^ 9 mod 512].

Lemma index_of virt k : 0 ≤ k → Z.land (Z.shiftr virt k) 0x1FF = virt / 2 ^ k mod 512.
Proof. intros. rewrite Z.shiftr_div_pow2 by done. apply (land_ones_mod 9). lia. Qed.

Lemma page_indices v : upage v →
  path_of v = [pml4_i (v * 4096); pdpt_i (v * 4096); pdt_i (v * 4096)] ∧ pt_i (v * 4096) = v mod 512.
Proof.
  unfold upage, USER_PAGES, path_of, pml4_i, pdpt_i, pdt_i, pt_i. intros Hv. rewrite !index_of by lia.
  assert (Hd : ∀ k, 0 ≤ k → v * 4096 / 2 ^ (12 + k) = v / 2 ^ k).
  { intros k Hk. rewrite Z.pow_add_r, <- Z.div_div by lia. by rewrite Z.div_mul. }
  pose proof (Hd 27 ltac:(lia)) as H1. pose proof (Hd 18 ltac:(lia)) as H2.
  pose proof (Hd 9 ltac:(lia)) as H3. pose proof (Hd 0 ltac:(lia)) as H4. rewrite Z.pow_0_r, Z.div_1_r in H4.
  change (12 + 27) with 39 in H1. change (12 + 18) with 30 in H2. change (12 + 9) with 21 in H3.
  change (12 + 0) with 12 in H4. rewrite H1, H2, H3, H4.
  split; [|done]. f_equal. rewrite Z.mod_small; [done|]. split; [apply Z.div_pos; lia|].
  apply Z.div_lt_upper_bound; lia.
Qed.

Lemma virt_page virt : 0 ≤ virt < VMM_USER_TOP → (4096 | virt) → upage (virt / 4096) ∧ virt = virt / 4096 * 4096.
Proof.
  intros Hv [x ->]. rewrite Z.div_mul by lia. unfold upage, USER_PAGES, VMM_USER_TOP in *. split; [lia|done].
Qed.

(** Paths of the user half. *)
Definition upath (p : list Z) : Prop :=
  (length p ≤ 3)%nat ∧ Forall (λ i, 0 ≤ i < 512) p ∧ match p with i :: _ => i < 256 | [] => True end.

Lemma upath_of v : upage v → upath (path_of v).
Proof.
  unfold upage, USER_PAGES, upath, path_of. intros Hv. split_and!; [simpl; lia| |].
  - repeat constructor; try (apply Z.mod_pos_bound; lia); try apply Z.div_pos; try lia.
    apply Z.div_lt_upper_bound; lia.
  - apply Z.div_lt_upper_bound; lia.
Qed.

Lemma upath_snoc p i : upath (p ++ [i]) → upath p ∧ (length p < 3)%nat ∧ 0 ≤ i < 512.
Proof.
  intros (Hl & Hf & Hh). rewrite length_app in Hl. simpl in Hl. apply Forall_app in Hf as [Hf Hi].
  inversion Hi; subst. split_and!; try lia. split_and!; [lia|done|]. by destruct p.
Qed.

Lemma upath_nil : upath [].
Proof. split_and!; [simpl; lia | constructor | done]. Qed.

Lemma path_of_inj v w : upage v → upage w → path_of v = path_of w → v mod 512 = w mod 512 → v = w.
Proof.
  unfold upage, USER_PAGES, path_of. intros Hv Hw [= H1 H2 H3] H4.
  change (2 ^ 27) with 134217728 in *. change (2 ^ 18) with 262144 in *. change (2 ^ 9) with 512 in *.
  Z.to_euclidean_division_equations; lia.
Qed.

(** ** Tables *)

Fixpoint tbl (m : Z → Z) (t : Z) (p : list Z) : option Z :=
  match p with
  | [] => Some t
  | i :: p => if is_present (m (slot t i)) then tbl m (Z.land (m (slot t i)) ADDRESS_MASK) p else None
  end.

Lemma tbl_snoc m t p i :
  tbl m t (p ++ [i]) =
    match tbl m t p with
    | Some u => if is_present (m (slot u i)) then Some (Z.land (m (slot u i)) ADDRESS_MASK) else None
    | None => None
    end.
Proof. revert t. induction p as [|j p IH]; intros t; simpl; [done|]. destruct (is_present _); [apply IH|done]. Qed.

(** The entry of page [v], 0 when it has no table. *)
Definition leaf (m : Z → Z) (r v : Z) : Z :=
  match tbl m r (path_of v) with Some t => m (slot t (v mod 512)) | None => 0 end.

Lemma slot_inj t i u j : (4096 | t) → (4096 | u) → 0 ≤ i < 512 → 0 ≤ j < 512 →
  slot t i = slot u j → t = u ∧ i = j.
Proof. unfold slot. intros [x ->] [y ->] Hi Hj. lia. Qed.

Lemma in_page_slot p t i : (4096 | p) → (4096 | t) → 0 ≤ i < 512 → in_page p (slot t i) = (t =? p).
Proof.
  unfold in_page, slot. intros [x ->] [y ->] Hi.
  destruct (Z.leb_spec (x * 4096) (y * 4096 + 8 * i)), (Z.ltb_spec (y * 4096 + 8 * i) (x * 4096 + 4096)),
    (Z.eqb_spec (y * 4096) (x * 4096)); (done || lia).
Qed.

Section wf.
Context {A : Type} {ops : FrameOps A} {laws : FrameLaws A}.
Abbreviation state := (vm A).

(** [t] is a table of one of the spaces [roots]. *)
Definition table_of (roots : list Z) (m : Z → Z) (r : Z) (p : list Z) (t : Z) : Prop :=
  r ∈ roots ∧ upath p ∧ tbl m r p = Some t.

(** The tables of the user halves: each is a frame with one reference, at one
    place of one space; their entries name no huge page. *)
Record tabs_wf (roots : list Z) (st : state) : Prop := {
  tw_inv : fa_inv (vfr st);
  tw_words : ∀ x, is_u64 (vmem st x);
  tw_ref : ∀ r p t, table_of roots (vmem st) r p t → fa_ref (vfr st) t = 1;
  tw_inj : ∀ r p r' p' t, table_of roots (vmem st) r p t → table_of roots (vmem st) r' p' t →
    r = r' ∧ p = p';
  tw_small : ∀ r p t i, table_of roots (vmem st) r p t → upath (p ++ [i]) →
    is_present (vmem st (slot t i)) = true → flag (vmem st (slot t i)) VMM_FLAG_PS = false
}.

Lemma table_page roots st r p t : tabs_wf roots st → table_of roots (vmem st) r p t → page_addr t.
Proof.
  intros Hw Ht. apply (fa_ref_page (vfr st)); [apply Hw|]. by rewrite (tw_ref _ _ Hw r p t Ht).
Qed.

Lemma root_table roots st r : tabs_wf roots st → r ∈ roots → table_of roots (vmem st) r [] r.
Proof. intros Hw Hr. split_and!; [done | apply upath_nil | done]. Qed.

(** *** Writing a leaf *)

Section leaf_write.
Context (roots : list Z) (st : state) (r v t : Z) (x : Z).
Hypothesis Hw : tabs_wf roots st.
Hypothesis Hv : upage v.
Hypothesis Ht : table_of roots (vmem st) r (path_of v) t.
Let m' := wr (vmem st) (slot t (v mod 512)) x.

Lemma leaf_write_entry r' p u i : table_of roots (vmem st) r' p u → 0 ≤ i < 512 →
  m' (slot u i) = if bool_decide (r' = r ∧ p = path_of v) && (i =? v mod 512) then x
                  else vmem st (slot u i).
Proof.
  intros Hu Hi. unfold m', wr. pose proof (table_page _ _ _ _ _ Hw Hu) as [_ Hau].
  pose proof (table_page _ _ _ _ _ Hw Ht) as [_ Hat]. pose proof (Z.mod_pos_bound v 512 ltac:(lia)) as Hm.
  destruct (Z.eqb_spec (slot u i) (slot t (v mod 512))) as [E|E].
  - apply slot_inj in E as [-> ->]; [|done..]. destruct (tw_inj _ _ Hw _ _ _ _ _ Hu Ht) as [-> ->].
    rewrite bool_decide_true, Z.eqb_refl by done. done.
  - destruct (bool_decide (r' = r ∧ p = path_of v)) eqn:Eb; [|done]. apply bool_decide_eq_true in Eb as [-> ->].
    destruct Hu as (_ & _ & Hu), Ht as (_ & _ & Ht'). rewrite Hu in Ht'. injection Ht' as ->.
    destruct (Z.eqb_spec i (v mod 512)); [congruence|done].
Qed.

Lemma leaf_write_tbl r' p : r' ∈ roots → upath p → tbl m' r' p = tbl (vmem st) r' p.
Proof.
  intros Hr'. induction p as [|i p IH] using rev_ind; [done|]. intros Hp.
  destruct (upath_snoc _ _ Hp) as (Hp' & Hlen & Hi). rewrite !tbl_snoc, IH by done.
  destruct (tbl (vmem st) r' p) as [u|] eqn:E; [|done].
  rewrite (leaf_write_entry r' p u i) by done.
  rewrite bool_decide_false; [done|]. intros [_ ->]. simpl in Hlen. lia.
Qed.

Lemma leaf_write_leaf r' v' : r' ∈ roots → upage v' →
  leaf m' r' v' = if (r' =? r) && (v' =? v) then x else leaf (vmem st) r' v'.
Proof.
  intros Hr' Hv'. unfold leaf. rewrite leaf_write_tbl by (done || by apply upath_of).
  destruct (tbl (vmem st) r' (path_of v')) as [u|] eqn:E.
  - pose proof (Z.mod_pos_bound v' 512 ltac:(lia)).
    rewrite (leaf_write_entry r' (path_of v') u) by (done || by split_and!; [|apply upath_of|]).
    destruct (Z.eqb_spec r' r) as [->|], (Z.eqb_spec v' v) as [->|].
    + by rewrite bool_decide_true, Z.eqb_refl.
    + destruct (bool_decide _) eqn:Eb; [|done]. apply bool_decide_eq_true in Eb as [_ Hp].
      destruct (Z.eqb_spec (v' mod 512) (v mod 512)); [|done]. exfalso. by apply n, path_of_inj.
    + rewrite bool_decide_false; [done|]. naive_solver.
    + rewrite bool_decide_false; [done|]. naive_solver.
  - destruct (Z.eqb_spec r' r) as [->|], (Z.eqb_spec v' v) as [->|]; try done.
    destruct Ht as (_ & _ & Ht'). congruence.
Qed.

Lemma leaf_write_wf : is_u64 x → tabs_wf roots (set_mem st m').
Proof.
  intros Hx. destruct Hw as [Hinv Hwords Href Hinj Hsm].
  assert (Htab : ∀ r' p u, table_of roots m' r' p u ↔ table_of roots (vmem st) r' p u).
  { intros r' p u. split; intros (H1 & H2 & H3); (split_and!; [done..|]);
      rewrite leaf_write_tbl in *; done. }
  constructor; simpl; try done.
  - intros y. unfold m', wr. by destruct (y =? _).
  - intros r' p u Hu%Htab. by apply (Href r' p).
  - intros r1 p1 r2 p2 u H1%Htab H2%Htab. by apply (Hinj r1 p1 r2 p2 u).
  - intros r' p u i Hu%Htab Hp. destruct (upath_snoc _ _ Hp) as (_ & Hl & Hi).
    rewrite (leaf_write_entry r' p u i) by done. rewrite bool_decide_false; [by apply (Hsm r' p)|].
    intros [_ ->]. simpl in Hl. lia.
Qed.

Lemma leaf_write_kernel r' i : r' ∈ roots → 0 ≤ i < 512 → m' (slot r' i) = vmem st (slot r' i).
Proof.
  intros Hr' Hi. rewrite (leaf_write_entry r' [] r' i (root_table _ _ _ Hw Hr') Hi).
  by rewrite bool_decide_false by naive_solver.
Qed.
End leaf_write.
End wf.

(** ** Creating a table *)

Section grow.
Context {A : Type} {ops : FrameOps A} {laws : FrameLaws A}.
Abbreviation state := (vm A).

(** What creating tables leaves alone: every table stays where it is, every
    leaf, every reference count of a frame in use and every word of a frame
    in use that is not a table. *)
Record grown (roots : list Z) (st st' : state) : Prop := {
  gr_tabs : ∀ r p t, table_of roots (vmem st) r p t → table_of roots (vmem st') r p t;
  gr_leaf : ∀ r v, r ∈ roots → upage v → leaf (vmem st') r v = leaf (vmem st) r v;
  gr_ref : ∀ q, fa_ref (vfr st) q ≠ 0 → fa_ref (vfr st') q = fa_ref (vfr st) q;
  gr_new : ∀ q, fa_ref (vfr st) q = 0 → fa_ref (vfr st') q ≠ 0 →
    ∃ r p, table_of roots (vmem st') r p q;
  gr_old : ∀ r p t, table_of roots (vmem st') r p t →
    table_of roots (vmem st) r p t ∨ fa_ref (vfr st) t = 0;
  gr_data : ∀ q x, fa_ref (vfr st) q ≠ 0 → (∀ r p, ¬ table_of roots (vmem st) r p q) →
    in_page q x = true → vmem st' x = vmem st x;
  gr_kernel : ∀ r i, r ∈ roots → 256 ≤ i < 512 → vmem st' (slot r i) = vmem st (slot r i);
  gr_rest : kspace st' = kspace st ∧ flushes st' = flushes st
}.

Lemma grown_refl roots st : grown roots st st.
Proof. constructor; try done; by left. Qed.

Lemma grown_trans roots st1 st2 st3 : grown roots st1 st2 → grown roots st2 st3 → grown roots st1 st3.
Proof.
  intros [T1 L1 R1 N1 O1 D1 U1 [K1 F1]] [T2 L2 R2 N2 O2 D2 U2 [K2 F2]]. constructor.
  - auto.
  - intros. by rewrite L2, L1.
  - intros q Hq. rewrite R2, R1; [done..|]. by rewrite R1.
  - intros q Hz Hq. destruct (decide (fa_ref (vfr st2) q = 0)) as [Hz2|Hn2]; [by apply N2|].
    destruct (N1 q Hz Hn2) as (r & p & Ht). exists r, p. auto.
  - intros r p t Ht. destruct (O2 r p t Ht) as [Ht2|Hz]; [auto|]. right.
    destruct (decide (fa_ref (vfr st1) t = 0)) as [|Hn]; [done|]. rewrite R1 in Hz by done. done.
  - intros q x Hq Hnt Hx. rewrite D2 with (q := q); [by apply (D1 q)| by rewrite R1 | | done].
    intros r p Ht. destruct (O1 r p q Ht) as [Ht1|Hz]; [by apply (Hnt r p) | done].
  - intros r i Hr Hi. by rewrite U2, U1.
  - split; congruence.
Qed.

Section create.
Context (roots : list Z) (st : state) (r0 : Z) (q0 : list Z) (i0 t0 : Z) (a' : A) (f e : Z).
Hypothesis Hw : tabs_wf roots st.
Hypothesis Ht0 : table_of roots (vmem st) r0 q0 t0.
Hypothesis Hp0 : upath (q0 ++ [i0]).
Hypothesis Habs : is_present (vmem st (slot t0 i0)) = false.
Hypothesis Hinv' : fa_inv a'.
Hypothesis Hfree : fa_ref (vfr st) f = 0.
Hypothesis Href' : ∀ q, fa_ref a' q = if q =? f then 1 else fa_ref (vfr st) q.
Hypothesis He : is_u64 e ∧ is_present e = true ∧ Z.land e ADDRESS_MASK = f ∧ flag e VMM_FLAG_PS = false.
Let m' := wr (zero_page (vmem st) f) (slot t0 i0) e.
Let st' := mk_vm m' a' (kspace st) (flushes st).

Lemma create_f : page_addr f ∧ ∀ r p t, table_of roots (vmem st) r p t → t ≠ f.
Proof.
  split.
  - apply (fa_ref_page a'); [done|]. by rewrite Href', Z.eqb_refl.
  - intros r p t Ht ->. by rewrite (tw_ref _ _ Hw r p f Ht) in Hfree.
Qed.

Lemma create_entry r p t i : table_of roots (vmem st) r p t → 0 ≤ i < 512 →
  (r = r0 ∧ p = q0 ∧ i = i0 ∧ m' (slot t i) = e) ∨
  (¬ (r = r0 ∧ p = q0 ∧ i = i0) ∧ m' (slot t i) = vmem st (slot t i)).
Proof.
  intros Ht Hi. destruct create_f as [[Hf Haf] Hne]. destruct (upath_snoc _ _ Hp0) as (_ & _ & Hi0).
  pose proof (table_page _ _ _ _ _ Hw Ht) as [_ Hat]. pose proof (table_page _ _ _ _ _ Hw Ht0) as [_ Hat0].
  unfold m', wr. destruct (Z.eqb_spec (slot t i) (slot t0 i0)) as [E|E].
  - apply slot_inj in E as [-> ->]; [|done..]. left. by destruct (tw_inj _ _ Hw _ _ _ _ _ Ht Ht0) as [-> ->].
  - right. split.
    + intros (-> & -> & ->). apply E. destruct Ht as (_ & _ & Ht), Ht0 as (_ & _ & Ht'). congruence.
    + unfold zero_page. rewrite in_page_slot by done. destruct (Z.eqb_spec t f); [|done].
      exfalso. by apply (Hne r p t).
Qed.

Lemma create_new_entry i : 0 ≤ i < 512 → m' (slot f i) = 0.
Proof.
  intros Hi. destruct create_f as [[Hf Haf] Hne]. destruct (upath_snoc _ _ Hp0) as (_ & _ & Hi0).
  pose proof (table_page _ _ _ _ _ Hw Ht0) as [_ Hat0]. unfold m', wr.
  destruct (Z.eqb_spec (slot f i) (slot t0 i0)) as [E|E].
  - apply slot_inj in E as [E _]; [|done..]. exfalso. by apply (Hne r0 q0 t0).
  - unfold zero_page. rewrite in_page_slot by done. by rewrite Z.eqb_refl.
Qed.

Lemma create_keeps r p t : table_of roots (vmem st) r p t → tbl m' r p = Some t.
Proof.
  intros (Hr & Hp & Ht). revert t Ht. induction p as [|i p IH] using rev_ind; intros t Ht; [done|].
  destruct (upath_snoc _ _ Hp) as (Hp' & Hl & Hi). rewrite tbl_snoc in Ht |- *.
  destruct (tbl (vmem st) r p) as [u|] eqn:Eu; [|done]. rewrite (IH Hp' u eq_refl).
  destruct (is_present (vmem st (slot u i))) eqn:Epr; [|done].
  destruct (create_entry r p u i ltac:(done) Hi) as [(-> & -> & -> & _)|[_ ->]]; [|by rewrite Epr].
  destruct Ht0 as (_ & _ & Ht0'). rewrite Eu in Ht0'. injection Ht0' as ->. congruence.
Qed.

Lemma create_back r p t : r ∈ roots → upath p → tbl m' r p = Some t →
  table_of roots (vmem st) r p t ∨ (r = r0 ∧ p = q0 ++ [i0] ∧ t = f).
Proof.
  intros Hr. revert t. induction p as [|i p IH] using rev_ind; intros t Hp Ht; [by left|].
  destruct (upath_snoc _ _ Hp) as (Hp' & Hl & Hi). rewrite tbl_snoc in Ht.
  destruct (tbl m' r p) as [u|] eqn:Eu; [|done].
  destruct (IH u Hp' eq_refl) as [Hu|(-> & -> & ->)].
  - destruct (create_entry r p u i Hu Hi) as [(-> & -> & -> & Heq)|[_ Heq]]; rewrite Heq in Ht.
    + right. destruct He as (_ & Hpr & Hm & _). rewrite Hpr in Ht. split_and!; [done..|congruence].
    + left. split_and!; [done..|]. rewrite tbl_snoc. destruct Hu as (_ & _ & ->). done.
  - rewrite create_new_entry in Ht by done. done.
Qed.

Lemma create_at : table_of roots m' r0 (q0 ++ [i0]) f.
Proof.
  destruct Ht0 as (Hr & Hq & _). split_and!; [done..|]. rewrite tbl_snoc.
  rewrite (create_keeps r0 q0 t0 Ht0). destruct (upath_snoc _ _ Hp0) as (_ & _ & Hi0).
  destruct (create_entry r0 q0 t0 i0 Ht0 Hi0) as [(_ & _ & _ & ->)|[Hn _]]; [|tauto].
  by destruct He as (_ & -> & -> & _).
Qed.

Lemma create_wf : tabs_wf roots st'.
Proof.
  destruct create_f as [_ Hne]. constructor; simpl; try done.
  - intros x. unfold m', wr, zero_page. destruct (x =? _); [apply He|].
    destruct (in_page f x); [unfold is_u64; lia | apply Hw].
  - intros r p t (Hr & Hp & Ht). rewrite Href'. destruct (create_back r p t Hr Hp Ht) as [Hold|(_ & _ & ->)].
    + destruct (Z.eqb_spec t f); [done|]. by apply (tw_ref _ _ Hw r p).
    + by rewrite Z.eqb_refl.
  - intros r p r' p' t (Hr & Hp & Ht) (Hr' & Hp' & Ht').
    destruct (create_back r p t Hr Hp Ht) as [Hold|(-> & -> & E)],
      (create_back r' p' t Hr' Hp' Ht') as [Hold'|(-> & -> & E')]; try done.
    + by apply (tw_inj _ _ Hw r p r' p' t).
    + exfalso. by apply (Hne r p t).
    + exfalso. by apply (Hne r' p' t).
  - intros r p t i (Hr & Hp & Ht) Hpi. destruct (upath_snoc _ _ Hpi) as (_ & _ & Hi).
    destruct (create_back r p t Hr Hp Ht) as [Hold|(-> & -> & ->)].
    + destruct (create_entry r p t i Hold Hi) as [(_ & _ & _ & ->)|[_ ->]]; [intros _; apply He|].
      by apply (tw_small _ _ Hw r p).
    + by rewrite create_new_entry.
Qed.

Lemma create_leaf r v : r ∈ roots → upage v → leaf m' r v = leaf (vmem st) r v.
Proof.
  intros Hr Hv. pose proof (upath_of v Hv) as Hp. pose proof (Z.mod_pos_bound v 512 ltac:(lia)) as Hm.
  destruct (upath_snoc _ _ Hp0) as (_ & Hl0 & _). unfold leaf.
  destruct (tbl (vmem st) r (path_of v)) as [t|] eqn:E.
  - rewrite (create_keeps r (path_of v) t) by done.
    destruct (create_entry r (path_of v) t (v mod 512) ltac:(done) Hm) as [(_ & <- & _)|[_ ->]]; [|done].
    simpl in Hl0. lia.
  - destruct (tbl m' r (path_of v)) as [t|] eqn:E'; [|done].
    destruct (create_back r (path_of v) t Hr Hp E') as [(_ & _ & Hold)|(_ & _ & ->)]; [congruence|].
    by apply create_new_entry.
Qed.

Lemma create_grown : grown roots st st'.
Proof.
  destruct create_f as [_ Hne]. constructor; simpl.
  - intros r p t Ht. pose proof Ht as (Hr & Hp & _). split_and!; [done..|]. by apply create_keeps.
  - intros. by apply create_leaf.
  - intros q Hq. rewrite Href'. destruct (Z.eqb_spec q f) as [->|]; [congruence|done].
  - intros q Hz. rewrite Href'. destruct (Z.eqb_spec q f) as [->|]; [intros _|congruence].
    exists r0, (q0 ++ [i0]). apply create_at.
  - intros r p t (Hr & Hp & Ht). destruct (create_back r p t Hr Hp Ht) as [?|(_ & _ & ->)]; [by left|by right].
  - intros q x Hq Hnt Hx. unfold m', wr. destruct (Z.eqb_spec x (slot t0 i0)) as [->|_].
    + exfalso. apply (Hnt r0 q0). destruct (upath_snoc _ _ Hp0) as (_ & _ & Hi0).
      pose proof (table_page _ _ _ _ _ Hw Ht0) as [_ Hat0].
      destruct (fa_ref_page (vfr st) q (tw_inv _ _ Hw) Hq) as [_ Haq].
      rewrite in_page_slot in Hx by done. apply Z.eqb_eq in Hx. by subst.
    + unfold zero_page. destruct (in_page f x) eqn:Ef; [|done].
      destruct create_f as [[_ [y Hy]] _]. destruct (fa_ref_page (vfr st) q (tw_inv _ _ Hw) Hq) as [_ [z Hz]].
      unfold in_page in *. zbool. assert (q = f) by lia. congruence.
  - intros r i Hr Hi. pose proof (root_table roots st r Hw Hr) as Hrt.
    destruct (create_entry r [] r i Hrt ltac:(lia)) as [(-> & <- & -> & _)|[_ He']]; [|done].
    destruct Hp0 as (_ & _ & Hlt). simpl in Hlt. lia.
  - done.
Qed.
End create.
End grow.

(** ** The walk *)

Section walk.
Context {A : Type} {ops : FrameOps A} {laws : FrameLaws A}.
Abbreviation state := (vm A).

(** The entry [get_or_create_table] installs. *)
Lemma table_entry f flags : page_addr f → 0 ≤ flags →
  let e := Z.lor (Z.lor (Z.lor (Z.land f ADDRESS_MASK)
             (Z.land flags (Z.lor (Z.lor VMM_FLAG_USER VMM_FLAG_PWT) VMM_FLAG_PCD)))
             VMM_FLAG_RW) VMM_FLAG_PRESENT in
  is_u64 e ∧ is_present e = true ∧ Z.land e ADDRESS_MASK = f ∧ flag e VMM_FLAG_PS = false.
Proof.
  intros Hf Hfl e. set (x := Z.land flags (Z.lor (Z.lor VMM_FLAG_USER VMM_FLAG_PWT) VMM_FLAG_PCD)) in e.
  assert (Hx : flag_only x ∧ Z.testbit x 7 = false).
  { split; [apply flag_only_land_r; [done | flag_const]|]. unfold x. rewrite Z.land_spec. apply andb_false_r. }
  destruct Hx as [Hx Hx7].
  assert (Hrest : flag_only (Z.lor (Z.lor x VMM_FLAG_RW) VMM_FLAG_PRESENT))
    by (repeat apply flag_only_lor; [done | flag_const..]).
  assert (Heq : e = Z.lor f (Z.lor (Z.lor x VMM_FLAG_RW) VMM_FLAG_PRESENT)).
  { unfold e. rewrite page_addr_mask by done. by rewrite !Z.lor_assoc. }
  destruct (entry_parts f _ Hf Hrest) as (Hm & Hu & Hb). rewrite Heq. autorewrite with secos_pte.
  rewrite !Hb by lia. rewrite !Z.lor_spec, Hx7. split_and!; [done| |done|done]. by rewrite orb_true_r.
Qed.

Lemma pt_level_spec roots st r p t i create flags st' res :
  tabs_wf roots st → table_of roots (vmem st) r p t → upath (p ++ [i]) → 0 ≤ flags →
  pt_level st t i create flags = (st', res) →
  tabs_wf roots st' ∧ grown roots st st' ∧
  (∀ u, res = Some u → table_of roots (vmem st') r (p ++ [i]) u) ∧
  (create = false → st' = st) ∧ (res = None → is_present (entry st t i) = false) ∧
  fa_avail (vfr st) - 1 ≤ fa_avail (vfr st') ∧
  (res = None → create = true → fa_avail (vfr st) = 0).
Proof.
  intros Hw Ht Hp Hfl. unfold pt_level, get_or_create_table, entry.
  destruct (is_present (vmem st (slot t i))) eqn:Epr; cbn [negb].
  - intros [= <- <-]. split_and!; [done | apply grown_refl | | done | done | lia | done].
    intros u [= <-]. destruct Ht as (Hr & _ & Ht). split_and!; [done..|]. by rewrite tbl_snoc, Ht, Epr.
  - destruct create; cbn [negb].
    2: { intros [= <- <-]. split_and!; (done || lia || apply grown_refl). }
    unfold pmm_alloc. destruct (fa_alloc (vfr st)) as [a' f] eqn:Ea. simpl.
    pose proof (fa_avail_alloc (vfr st) a' f (tw_inv _ _ Hw) Ea) as Hav.
    destruct (fa_alloc_law (vfr st) a' f (tw_inv _ _ Hw) Ea) as [[-> ->]|(Hi & Hz & Hr)].
    + rewrite Z.eqb_refl. intros [= <- <-]. destruct st; simpl. split_and!; (done || lia || apply grown_refl).
    + assert (Hf : page_addr f). { apply (fa_ref_page a'); [done|]. by rewrite Hr, Z.eqb_refl. }
      destruct (Z.eqb_spec f 0) as [->|]; [destruct Hf; lia|].
      pose proof (table_entry f flags Hf Hfl) as He. cbv zeta in He.
      set (e := Z.lor _ VMM_FLAG_PRESENT) in *. intros [= <- <-].
      split_and!; [by apply (create_wf roots st r p i t) | by apply (create_grown roots st r p i t) | | done | done
        | simpl; lia | done].
      intros u [= <-]. rewrite page_addr_mask by done. by apply (create_at roots st r p i t a').
Qed.

(** The walk to the leaf table of a user page. *)
Lemma get_pt_spec roots st r v create flags st' res :
  tabs_wf roots st → r ∈ roots → upage v → 0 ≤ flags →
  get_pt_space st r (v * 4096) create flags = (st', res) →
  tabs_wf roots st' ∧ grown roots st st' ∧
  (∀ u, res = Some u → table_of roots (vmem st') r (path_of v) u) ∧
  (create = false → st' = st ∧ (res = None → leaf (vmem st) r v = 0)) ∧
  fa_avail (vfr st) - 3 ≤ fa_avail (vfr st') ∧
  (res = None → create = true → fa_avail (vfr st) < 3).
Proof.
  intros Hw Hr Hv Hfl. destruct (page_indices v Hv) as [Hpath _]. unfold get_pt_space.
  pose proof (upath_of v Hv) as Hp. rewrite Hpath in Hp |- *.
  set (i := pml4_i _) in *. set (j := pdpt_i _) in *. set (k := pdt_i _) in *.
  pose proof (upath_snoc [i; j] k Hp) as (Hp2 & _). pose proof (upath_snoc [i] j Hp2) as (Hp1 & _).
  pose proof (root_table roots st r Hw Hr) as Ht0. pose proof (table_page _ _ _ _ _ Hw Ht0) as Hpr.
  rewrite page_addr_mask by done.
  assert (Hz : create = false → tbl (vmem st) r (path_of v) = None → leaf (vmem st) r v = 0)
    by (intros _ E; unfold leaf; by rewrite E).
  rewrite Hpath in Hz. fold i j k in Hz.
  destruct (pt_level st r i create flags) as [st1 [u1|]] eqn:E1;
    destruct (pt_level_spec roots st r [] r i create flags st1 _ Hw Ht0 Hp1 Hfl E1) as (W1 & G1 & T1 & C1 & N1 & A1 & B1).
  2: { intros [= <- <-]. split_and!; [done..| |lia|intros _ Hc; specialize (B1 eq_refl Hc); lia]. intros Hc. split; [auto|]. intros _. apply (Hz Hc).
       specialize (N1 eq_refl). unfold entry in N1. simpl. by rewrite N1. }
  specialize (T1 u1 eq_refl). simpl in T1.
  destruct (pt_level st1 u1 j create flags) as [st2 [u2|]] eqn:E2;
    destruct (pt_level_spec roots st1 r [i] u1 j create flags st2 _ W1 T1 Hp2 Hfl E2) as (W2 & G2 & T2 & C2 & N2 & A2 & B2).
  2: { intros [= <- <-]. split_and!; [done | by eapply grown_trans | done | |lia
         |intros _ Hc; specialize (B2 eq_refl Hc); lia].
       intros Hc. rewrite (C2 Hc), (C1 Hc) in *. split; [done|]. intros _. apply (Hz Hc).
       specialize (N2 eq_refl). unfold entry in N2. destruct T1 as (_ & _ & T1).
       change [i; j; k] with ([i] ++ [j; k]). simpl in T1 |- *. destruct (is_present (vmem st (slot r i))); [|done].
       injection T1 as ->. by rewrite N2. }
  specialize (T2 u2 eq_refl). simpl in T2. intros E3.
  destruct (pt_level_spec roots st2 r [i; j] u2 k create flags st' res W2 T2 Hp Hfl E3) as (W3 & G3 & T3 & C3 & N3 & A3 & B3).
  split_and!; [done | by do 2 (eapply grown_trans; [done|]) | done | |lia
    |intros Hn Hc; specialize (B3 Hn Hc); lia].
  intros Hc. rewrite (C3 Hc), (C2 Hc), (C1 Hc) in *. split; [done|]. intros ->. apply (Hz Hc).
  specialize (N3 eq_refl). unfold entry in N3. destruct T2 as (_ & _ & T2). simpl in T2 |- *.
  destruct (is_present (vmem st (slot r i))); [|done].
  destruct (is_present (vmem st (slot (Z.land (vmem st (slot r i)) ADDRESS_MASK) j))); [|done].
  injection T2 as ->. by rewrite N3.
Qed.

(** Translation is what the leaf says. *)
Lemma translate_leaf roots st r virt :
  tabs_wf roots st → r ∈ roots → 0 ≤ virt < VMM_USER_TOP →
  vmm_walk_translate st r virt =
    let e := leaf (vmem st) r (virt / 4096) in
    if is_present e then Z.lor (Z.land e ADDRESS_MASK) (virt mod 4096) else 0.
Proof.
  intros Hw Hr Hvr. set (v := virt / 4096).
  assert (Hv : upage v).
  { unfold v, upage, USER_PAGES, VMM_USER_TOP in *. split; [apply Z.div_pos; lia|]. apply Z.div_lt_upper_bound; lia. }
  assert (Hidx : pml4_i virt = pml4_i (v * 4096) ∧ pdpt_i virt = pdpt_i (v * 4096) ∧
    pdt_i virt = pdt_i (v * 4096) ∧ pt_i virt = pt_i (v * 4096)).
  { unfold pml4_i, pdpt_i, pdt_i, pt_i. rewrite !index_of by lia.
    assert (Hd : ∀ k, 0 ≤ k → virt / 2 ^ (12 + k) = v * 4096 / 2 ^ (12 + k)).
    { intros k Hk. rewrite Z.pow_add_r by lia. change (2 ^ 12) with 4096.
      rewrite <- !Z.div_div by lia. unfold v. by rewrite Z.div_mul. }
    pose proof (Hd 27 ltac:(lia)) as H1. pose proof (Hd 18 ltac:(lia)) as H2.
    pose proof (Hd 9 ltac:(lia)) as H3. pose proof (Hd 0 ltac:(lia)) as H4.
    change (12 + 27) with 39 in H1. change (12 + 18) with 30 in H2. change (12 + 9) with 21 in H3.
    change (12 + 0) with 12 in H4. by rewrite H1, H2, H3, H4. }
  destruct Hidx as (I4 & I3 & I2 & I1). destruct (page_indices v Hv) as [Hpath Hpt].
  pose proof (upath_of v Hv) as Hp. rewrite Hpath in Hp.
  unfold vmm_walk_translate, entry, leaf. rewrite I4, I3, I2, I1, Hpt, Hpath, land_page.
  clear I4 I3 I2 I1.
  set (i := pml4_i (v * 4096)) in *. set (j := pdpt_i (v * 4096)) in *. set (k := pdt_i (v * 4096)) in *.
  pose proof (upath_snoc [i; j] k Hp) as (Hp2 & _). pose proof (upath_snoc [i] j Hp2) as (Hp1 & _).
  pose proof (root_table roots st r Hw Hr) as Ht0. pose proof (table_page _ _ _ _ _ Hw Ht0) as Hpr.
  rewrite page_addr_mask by done. simpl.
  destruct (is_present (vmem st (slot r i))) eqn:E1; cbn [negb]; [|done].
  set (t1 := Z.land (vmem st (slot r i)) ADDRESS_MASK).
  assert (Ht1 : table_of roots (vmem st) r [i] t1) by (split_and!; [done..|]; simpl; by rewrite E1).
  destruct (is_present (vmem st (slot t1 j))) eqn:E2; cbn [negb]; [|done].
  rewrite (tw_small _ _ Hw r [i] t1 j Ht1 Hp2 E2).
  set (t2 := Z.land (vmem st (slot t1 j)) ADDRESS_MASK).
  assert (Ht2 : table_of roots (vmem st) r [i; j] t2)
    by (split_and!; [done..|]; simpl; rewrite E1; fold t1; by rewrite E2).
  destruct (is_present (vmem st (slot t2 k))) eqn:E3; cbn [negb]; [|done].
  rewrite (tw_small _ _ Hw r [i; j] t2 k Ht2 Hp E3).
  set (e := vmem st (slot (Z.land (vmem st (slot t2 k)) ADDRESS_MASK) (v mod 512))). clearbody e.
  destruct (is_present e); reflexivity.
Qed.
End walk.
