(* ===== verification/VmmInv.v ===== *)
(** * Frames behind the leaves

    The invariant that ties the leaves of all address spaces to the reference
    counts of the frames they name: a frame has at least as many references
    as leaves, a leaf never names a page table, and a page that can be
    written has a frame of its own.  With it the invariants every leaf obeys:
    never writable and executable at once, and no user access to the kernel
    half. *)

From S2P Require Import Prelude Vma Frames Vmm VmmWf.

(** A leaf that owns a frame of the allocator; one that permits writes. *)
Definition owns_frame (e : Z) : bool := vmm_pte_has_frame e && negb (flag e VMM_FLAG_DEVICE).
Definition writable (e : Z) : bool := is_present e && flag e VMM_FLAG_RW.
Definition frame_of (e : Z) : Z := Z.land e ADDRESS_MASK.
Definition names (e f : Z) : bool := owns_frame e && (frame_of e =? f).

(** A leaf that is present is never writable and executable, and not parked. *)
Definition leaf_ok (e : Z) : Prop := wx e = false ∧ flag e VMM_FLAG_PROTNONE = false.

Lemma names_0 f : names 0 f = false.
Proof. reflexivity. Qed.

Section inv.
Context {A : Type} {ops : FrameOps A} {laws : FrameLaws A}.
Abbreviation state := (vm A).

Definition mapped (roots : list Z) (m : Z → Z) (f : Z) (x : Z * Z) : Prop :=
  x.1 ∈ roots ∧ upage x.2 ∧ names (leaf m x.1 x.2) f = true.

(** [n] leaves name [f]. *)
Definition counted (roots : list Z) (m : Z → Z) (f n : Z) : Prop :=
  ∃ l, NoDup l ∧ (∀ x, x ∈ l ↔ mapped roots m f x) ∧ zlen l = n.

Record frames_wf (roots : list Z) (st : state) : Prop := {
  fw_count : ∀ f, ∃ n, counted roots (vmem st) f n ∧
    (n ≤ fa_ref (vfr st) f ∨ fa_ref (vfr st) f = REF_MAX);
  fw_data : ∀ f x r p, mapped roots (vmem st) f x → ¬ table_of roots (vmem st) r p f;
  fw_private : ∀ f x, mapped roots (vmem st) f x → writable (leaf (vmem st) x.1 x.2) = true →
    fa_ref (vfr st) f = 1;
  fw_ok : ∀ r v, r ∈ roots → upage v → is_present (leaf (vmem st) r v) = true →
    leaf_ok (leaf (vmem st) r v);
  fw_dev : ∀ r v, r ∈ roots → upage v → flag (leaf (vmem st) r v) VMM_FLAG_COW = true →
    flag (leaf (vmem st) r v) VMM_FLAG_DEVICE = false;
  fw_kernel : ∀ r i, r ∈ roots → 256 ≤ i < 512 → is_present (vmem st (slot r i)) = true →
    flag (vmem st (slot r i)) VMM_FLAG_USER = false
}.

Record vm_inv (roots : list Z) (st : state) : Prop := {
  vi_tabs : tabs_wf roots st;
  vi_frames : frames_wf roots st
}.

Lemma counted_ext roots m m' f n :
  (∀ x, mapped roots m' f x ↔ mapped roots m f x) → counted roots m f n → counted roots m' f n.
Proof. intros He (l & Hn & Hl & Hz). exists l. split_and!; [done| |done]. intros x. by rewrite Hl, He. Qed.

(** The count after one leaf [x] has changed from [e0] to [e]. *)
Lemma counted_update roots m m' f n x e0 e :
  x.1 ∈ roots → upage x.2 → leaf m x.1 x.2 = e0 → leaf m' x.1 x.2 = e →
  (∀ y, y.1 ∈ roots → upage y.2 → y ≠ x → leaf m' y.1 y.2 = leaf m y.1 y.2) →
  counted roots m f n → counted roots m' f (n - b2z (names e0 f) + b2z (names e f)).
Proof.
  intros Hr Hv H0 H1 Hoth (l & Hnd & Hl & <-).
  assert (Hx : x ∈ l ↔ names e0 f = true) by (rewrite Hl; unfold mapped; rewrite H0; tauto).
  assert (Hx' : mapped roots m' f x ↔ names e f = true) by (unfold mapped; rewrite H1; tauto).
  assert (Hy : ∀ y, y ≠ x → mapped roots m' f y ↔ y ∈ l).
  { intros y Hne. rewrite Hl. unfold mapped. split; intros (H3 & H4 & H5); (split_and!; [done..|]).
    - by rewrite Hoth in H5. - by rewrite Hoth. }
  destruct (names e0 f) eqn:E0, (names e f) eqn:E1; simpl.
  - exists l. split_and!; [done| |lia]. intros y. destruct (decide (y = x)) as [->|Hne]; [tauto|].
    symmetry. by apply Hy.
  - exists (filter (λ y, y ≠ x) l). split_and!.
    + by apply NoDup_filter.
    + intros y. rewrite list_elem_of_filter. destruct (decide (y = x)) as [->|Hne].
      * split; [tauto|]. intros Hm. by apply Hx' in Hm.
      * rewrite Hy by done. tauto.
    + assert (Hp : x :: filter (λ y, y ≠ x) l ≡ₚ l).
      { apply NoDup_Permutation; [constructor; [|by apply NoDup_filter] | done |].
        - rewrite list_elem_of_filter. tauto.
        - intros y. rewrite elem_of_cons, list_elem_of_filter.
          destruct (decide (y = x)) as [->|]; [|tauto]. split; [|tauto]. intros _. by apply Hx. }
      apply Permutation_length in Hp. simpl in Hp. lia.
  - exists (x :: l). split_and!.
    + constructor; [|done]. rewrite Hx. done.
    + intros y. rewrite elem_of_cons. destruct (decide (y = x)) as [->|Hne]; [tauto|].
      rewrite Hy by done. tauto.
    + simpl. lia.
  - exists l. split_and!; [done| |lia]. intros y. destruct (decide (y = x)) as [->|Hne]; [|by rewrite Hy].
    rewrite Hx, Hx'. done.
Qed.

(** A frame that a leaf names is in use, and its count is at least one. *)
Lemma mapped_ref roots st f x : vm_inv roots st → mapped roots (vmem st) f x → fa_ref (vfr st) f ≠ 0.
Proof.
  intros [Ht Hf] Hm. destruct (fw_count _ _ Hf f) as (n & (l & _ & Hl & Hz) & Hn).
  apply Hl, list_elem_of_lookup in Hm as [k Hk]. pose proof (lookup_lt_Some _ _ _ Hk).
  unfold REF_MAX in Hn. lia.
Qed.

(** Two leaves naming a frame: it has at least two references. *)
Lemma mapped_two roots st f x y : vm_inv roots st →
  mapped roots (vmem st) f x → mapped roots (vmem st) f y → x ≠ y → 1 < fa_ref (vfr st) f.
Proof.
  intros [Ht Hf] Hx Hy Hne. destruct (fw_count _ _ Hf f) as (n & (l & _ & Hl & Hz) & Hn).
  apply Hl in Hx, Hy. assert (Hlen : (2 ≤ length l)%nat).
  { destruct l as [|a [|b l]]; simpl; [by apply elem_of_nil in Hx| |lia].
    apply list_elem_of_singleton in Hx, Hy. congruence. }
  unfold REF_MAX in Hn. lia.
Qed.

(** ** What preserves the invariant *)

(** The entries of the tables determine the tables and the leaves. *)
Lemma tables_ext roots m m' :
  (∀ r p t i, table_of roots m r p t → 0 ≤ i < 512 → m' (slot t i) = m (slot t i)) →
  (∀ r p t, table_of roots m' r p t ↔ table_of roots m r p t) ∧
  (∀ r v, r ∈ roots → upage v → leaf m' r v = leaf m r v).
Proof.
  intros He. assert (Ht : ∀ r p, r ∈ roots → upath p → tbl m' r p = tbl m r p).
  { intros r p Hr. induction p as [|i p IH] using rev_ind; [done|]. intros Hp.
    destruct (upath_snoc _ _ Hp) as (Hp' & _ & Hi). rewrite !tbl_snoc, IH by done.
    destruct (tbl m r p) as [t|] eqn:E; [|done]. rewrite (He r p t i); [done | by split_and! | done]. }
  split.
  - intros r p t. split; intros (Hr & Hp & E); (split_and!; [done..|]); by rewrite Ht in *.
  - intros r v Hr Hv. unfold leaf. pose proof (upath_of v Hv) as Hp. rewrite Ht by done.
    destruct (tbl m r (path_of v)) as [t|] eqn:E; [|done].
    apply (He r (path_of v)); [by split_and!|]. apply Z.mod_pos_bound. lia.
Qed.

Lemma mapped_same roots m m' f x :
  (∀ r v, r ∈ roots → upage v → leaf m' r v = leaf m r v) → mapped roots m' f x ↔ mapped roots m f x.
Proof.
  intros Hl. unfold mapped. split; intros (Hr & Hv & Hn); (split_and!; [done..|]); by rewrite Hl in *.
Qed.

(** A state with the same tables in which no count of a frame in use by a
    table or a leaf has changed. *)
Lemma vm_inv_ext roots st st' :
  vm_inv roots st → fa_inv (vfr st') → (∀ x, is_u64 (vmem st' x)) →
  (∀ r p t i, table_of roots (vmem st) r p t → 0 ≤ i < 512 → vmem st' (slot t i) = vmem st (slot t i)) →
  (∀ r p t, table_of roots (vmem st) r p t → fa_ref (vfr st') t = 1) →
  (∀ f x, mapped roots (vmem st) f x → fa_ref (vfr st') f = fa_ref (vfr st) f) →
  vm_inv roots st'.
Proof.
  intros [Ht Hf] Hi Hu He Hrt Hrm. destruct (tables_ext roots _ _ He) as [Htab Hleaf].
  assert (Hmap : ∀ f x, mapped roots (vmem st') f x ↔ mapped roots (vmem st) f x)
    by (intros; by apply mapped_same).
  constructor; constructor; try done.
  - intros r p t Hp%Htab. by apply (Hrt r p).
  - intros r p r' p' t H1%Htab H2%Htab. by apply (tw_inj _ _ Ht r p r' p' t).
  - intros r p t i Hp%Htab Hpi. destruct (upath_snoc _ _ Hpi) as (_ & _ & Hi5). rewrite (He r p t i Hp Hi5).
    by apply (tw_small _ _ Ht r p).
  - intros f. destruct (fw_count _ _ Hf f) as (n & Hc & Hn). exists n. split.
    + eapply counted_ext; [|done]. intros. by rewrite Hmap.
    + destruct Hc as ([|x l] & _ & Hl & <-); [left; apply fa_ref_range, Hi|].
      rewrite (Hrm f x); [done|]. apply Hl. by left.
  - intros f x r p Hm%Hmap Hp%Htab. by apply (fw_data _ _ Hf f x r p).
  - intros f x Hm%Hmap. pose proof Hm as (Hr & Hv & _). rewrite Hleaf by done. intros Hw.
    rewrite (Hrm f x Hm). by apply (fw_private _ _ Hf f x).
  - intros r v Hr Hv. rewrite Hleaf by done. by apply (fw_ok _ _ Hf).
  - intros r v Hr Hv. rewrite Hleaf by done. by apply (fw_dev _ _ Hf).
  - intros r i Hr Hi5. rewrite (He r [] r i (root_table _ _ _ Ht Hr) ltac:(lia)). by apply (fw_kernel _ _ Hf).
Qed.

Lemma grown_inv roots st st' : vm_inv roots st → tabs_wf roots st' → grown roots st st' → vm_inv roots st'.
Proof.
  intros Hinv Hw [T L R N O D U _]. pose proof Hinv as [Ht Hf].
  assert (Hmap : ∀ f x, mapped roots (vmem st') f x ↔ mapped roots (vmem st) f x)
    by (intros; by apply mapped_same).
  constructor; [done|]. constructor.
  - intros f. destruct (fw_count _ _ Hf f) as (n & Hc & Hn). exists n. split.
    + eapply counted_ext; [|done]. intros. by rewrite Hmap.
    + pose proof (fa_ref_range (vfr st') f (tw_inv _ _ Hw)).
      destruct (decide (fa_ref (vfr st) f = 0)) as [Hz|Hz]; [left; unfold REF_MAX in *; lia|]. by rewrite R.
  - intros f x r p Hm%Hmap Hp. destruct (O r p f Hp) as [Hp'|Hz]; [by apply (fw_data _ _ Hf f x r p)|].
    by apply (mapped_ref roots st f x Hinv).
  - intros f x Hm%Hmap. pose proof Hm as (Hr & Hv & _). rewrite L by done. intros Hwr.
    rewrite R by (by apply (mapped_ref roots st f x)). by apply (fw_private _ _ Hf f x).
  - intros r v Hr Hv. rewrite L by done. by apply (fw_ok _ _ Hf).
  - intros r v Hr Hv. rewrite L by done. by apply (fw_dev _ _ Hf).
  - intros r i Hr Hi. rewrite U by done. by apply (fw_kernel _ _ Hf).
Qed.

(** Replacing one leaf [e0] by [e], with what the counts must then satisfy. *)
Section set_leaf.
Context (roots : list Z) (st st' : state) (r v t e : Z).
Hypothesis Hinv : vm_inv roots st.
Hypothesis Hr : r ∈ roots.
Hypothesis Hv : upage v.
Hypothesis Ht : table_of roots (vmem st) r (path_of v) t.
Hypothesis Hmem : vmem st' = wr (vmem st) (slot t (v mod 512)) e.
Hypothesis He : is_u64 e.
Hypothesis Hinv' : fa_inv (vfr st').
Hypothesis Hok : is_present e = true → leaf_ok e.
Hypothesis Hdev : flag e VMM_FLAG_COW = true → flag e VMM_FLAG_DEVICE = false.
Hypothesis Hdata : owns_frame e = true → ∀ r p, ¬ table_of roots (vmem st) r p (frame_of e).
Hypothesis Hpriv : writable e = true → owns_frame e = true → fa_ref (vfr st') (frame_of e) = 1.
Hypothesis Htabs : ∀ r p t, table_of roots (vmem st) r p t → fa_ref (vfr st') t = 1.
Let e0 := leaf (vmem st) r v.
Hypothesis Hcount : ∀ f n, counted roots (vmem st) f n → n ≤ fa_ref (vfr st) f ∨ fa_ref (vfr st) f = REF_MAX →
  n - b2z (names e0 f) + b2z (names e f) ≤ fa_ref (vfr st') f ∨ fa_ref (vfr st') f = REF_MAX.
Hypothesis Hkeep : ∀ f, fa_ref (vfr st) f = 1 → names e0 f = false → names e f = false →
  (∃ x, mapped roots (vmem st) f x) → fa_ref (vfr st') f = 1.
Hypothesis Hshare : ∀ f x, names e f = true → names e0 f = false → mapped roots (vmem st) f x →
  writable (leaf (vmem st) x.1 x.2) = false.

Lemma set_leaf_leaf r' v' : r' ∈ roots → upage v' →
  leaf (vmem st') r' v' = if (r' =? r) && (v' =? v) then e else leaf (vmem st) r' v'.
Proof. intros. rewrite Hmem. by apply (leaf_write_leaf roots st r v t e (vi_tabs _ _ Hinv)). Qed.

Lemma set_leaf_table r' p u : table_of roots (vmem st') r' p u ↔ table_of roots (vmem st) r' p u.
Proof.
  rewrite Hmem. split; intros (H1 & H2 & H3); (split_and!; [done..|]).
  - by rewrite (leaf_write_tbl roots st r v t e (vi_tabs _ _ Hinv) Ht) in H3.
  - by rewrite (leaf_write_tbl roots st r v t e (vi_tabs _ _ Hinv) Ht).
Qed.

Lemma set_leaf_tabs : tabs_wf roots st'.
Proof.
  pose proof (vi_tabs _ _ Hinv) as Hw. destruct (leaf_write_wf roots st r v t e Hw Ht He) as [_ H2 _ H4 H5].
  simpl in *. rewrite <- Hmem in *. constructor; try done.
  intros r' p u Hu%set_leaf_table. by apply (Htabs r' p).
Qed.

Lemma set_leaf_inv : vm_inv roots st'.
Proof.
  pose proof Hinv as [Hw Hf]. constructor; [apply set_leaf_tabs|].
  assert (Hother : ∀ y, y.1 ∈ roots → upage y.2 → y ≠ (r, v) → leaf (vmem st') y.1 y.2 = leaf (vmem st) y.1 y.2).
  { intros [r' v'] Hr' Hv' Hne. rewrite set_leaf_leaf by done. simpl in *.
    destruct (Z.eqb_spec r' r), (Z.eqb_spec v' v); simpl; (congruence || done). }
  assert (Hself : leaf (vmem st') r v = e) by (rewrite set_leaf_leaf by done; by rewrite !Z.eqb_refl).
  assert (Hcases : ∀ f x, mapped roots (vmem st') f x →
    (x = (r, v) ∧ names e f = true) ∨ (x ≠ (r, v) ∧ mapped roots (vmem st) f x)).
  { intros f x Hm. pose proof Hm as (H1 & H2 & H3). destruct (decide (x = (r, v))) as [->|Hne].
    - left. split; [done|]. simpl in H3. by rewrite Hself in H3.
    - right. split; [done|]. split_and!; [done..|]. by rewrite Hother in H3. }
  constructor.
  - intros f. destruct (fw_count _ _ Hf f) as (n & Hc & Hn).
    exists (n - b2z (names e0 f) + b2z (names e f)). split; [|by apply Hcount].
    by apply (counted_update roots (vmem st) (vmem st') f n (r, v) e0 e).
  - intros f x r' p Hm Hp%set_leaf_table. destruct (Hcases f x Hm) as [[-> Hn]|[_ Hm0]].
    + unfold names in Hn. zbool. subst f. by apply (Hdata ltac:(done) r' p).
    + by apply (fw_data _ _ Hf f x r' p).
  - intros f x Hm Hwr. destruct (Hcases f x Hm) as [[-> Hn]|[Hne Hm0]].
    + simpl in Hwr. rewrite Hself in Hwr. unfold names in Hn. zbool. subst f. by apply Hpriv.
    + pose proof Hm0 as (H1 & H2 & _). rewrite Hother in Hwr by done.
      pose proof (fw_private _ _ Hf f x Hm0 Hwr) as H1f.
      assert (Hn0 : names e0 f = false).
      { destruct (names e0 f) eqn:E; [|done]. exfalso.
        assert (Hm1 : mapped roots (vmem st) f (r, v)) by (split_and!; done).
        pose proof (mapped_two roots st f x (r, v) Hinv Hm0 Hm1 Hne). lia. }
      destruct (names e f) eqn:En; [|apply Hkeep; eauto].
      pose proof (Hshare f x En Hn0 Hm0). congruence.
  - intros r' v' Hr' Hv' Hp. rewrite set_leaf_leaf in * by done.
    destruct ((r' =? r) && (v' =? v)); [by apply Hok | by apply (fw_ok _ _ Hf)].
  - intros r' v' Hr' Hv' Hp. rewrite set_leaf_leaf in * by done.
    destruct ((r' =? r) && (v' =? v)); [by apply Hdev | by apply (fw_dev _ _ Hf)].
  - intros r' i Hr' Hi. rewrite Hmem, (leaf_write_kernel roots st r v t e Hw Ht) by (done || lia).
    by apply (fw_kernel _ _ Hf).
Qed.
End set_leaf.
End inv.
