(* ===== verification/VmmOps.v ===== *)
(** * Mapping, unmapping and protecting user pages

    The operations of [src/mm/vmm.c] on one page of one address space keep
    the invariant of all of them, change exactly the leaf they are asked to
    change, and keep the policies (never writable and executable, shared
    frames never directly writable). *)

From S2P Require Import Prelude Vma Frames Vmm VmmWf VmmInv.

Section ops.
Context {A : Type} {ops : FrameOps A} {laws : FrameLaws A}.
Abbreviation state := (vm A).

(** Only the leaf of page [v] of space [r] changes, to [e]. *)
Definition only_leaf (roots : list Z) (m m' : Z → Z) (r v e : Z) : Prop :=
  ∀ r' v', r' ∈ roots → upage v' →
    leaf m' r' v' = if (r' =? r) && (v' =? v) then e else leaf m r' v'.
Definition same_leaves (roots : list Z) (m m' : Z → Z) : Prop :=
  ∀ r v, r ∈ roots → upage v → leaf m' r v = leaf m r v.
(** The contents of frames in use that are not tables. *)
Definition same_data (roots : list Z) (st st' : state) : Prop :=
  ∀ q x, fa_ref (vfr st) q ≠ 0 → (∀ r p, ¬ table_of roots (vmem st) r p q) →
    in_page q x = true → vmem st' x = vmem st x.

(** Every table is an old one or was a free frame. *)
Definition tables_from (roots : list Z) (st st' : state) : Prop :=
  ∀ r p t, table_of roots (vmem st') r p t → table_of roots (vmem st) r p t ∨ fa_ref (vfr st) t = 0.

Lemma same_leaves_refl roots m : same_leaves roots m m.
Proof. done. Qed.

(** A frame with a reference to spare for one more leaf with [flags]. *)
Definition mappable (roots : list Z) (st : state) (phys flags : Z) : Prop :=
  (flag flags VMM_FLAG_DEVICE = true ∧ flag flags VMM_FLAG_COW = false) ∨
  (flag flags VMM_FLAG_DEVICE = false ∧ fa_ref (vfr st) phys ≠ 0 ∧ (∀ r p, ¬ table_of roots (vmem st) r p phys) ∧
   (∀ n, counted roots (vmem st) phys n → n < fa_ref (vfr st) phys ∨ fa_ref (vfr st) phys = REF_MAX) ∧
   (flag flags VMM_FLAG_RW = true → fa_ref (vfr st) phys = 1) ∧
   (∀ x, mapped roots (vmem st) phys x → writable (leaf (vmem st) x.1 x.2) = false)).

Lemma mappable_grown roots st st' phys flags :
  grown roots st st' → mappable roots st phys flags → mappable roots st' phys flags.
Proof.
  intros [T L R N O D U _] [Hd|(Hd & Hr & Ht & Hc & Hrw & Hm)]; [by left|]. right.
  assert (Hmap : ∀ f x, mapped roots (vmem st') f x ↔ mapped roots (vmem st) f x)
    by (intros; by apply mapped_same).
  rewrite (R phys Hr). split_and!; [done|done| |intros n Hn|done|].
  - intros r p Hp. destruct (O r p phys Hp) as [Hp'|Hz]; [by apply (Ht r p) | done].
  - apply Hc. eapply counted_ext; [|done]. intros. by rewrite Hmap.
  - intros x Hx%Hmap. pose proof Hx as (H1 & H2 & _). rewrite L by done. by apply Hm.
Qed.

Lemma land_not_testbit x m i : 0 ≤ i < 64 → Z.testbit (Z.land x (not64 m)) i = Z.testbit x i && negb (Z.testbit m i).
Proof.
  intros Hi. rewrite Z.land_spec, not64_testbit by lia. by destruct (Z.ltb_spec i 64); [|lia].
Qed.

(** The leaf a mapping installs. *)
Lemma leaf_entry_spec phys flags : page_addr phys → flag_only flags →
  let e := leaf_entry phys flags in
  is_u64 e ∧ frame_of e = phys ∧ is_present e = true ∧
  ∀ i, 0 ≤ i < 12 ∨ 52 ≤ i < 64 → i ≠ 0 → i ≠ 7 → Z.testbit e i = Z.testbit flags i.
Proof.
  intros Hp Hf e. set (x := Z.lor (Z.land flags (not64 VMM_FLAG_PS)) VMM_FLAG_PRESENT).
  assert (Hx : flag_only x) by (apply flag_only_lor; [by apply flag_only_land | flag_const]).
  assert (He : e = Z.lor phys x) by (unfold e, leaf_entry, x; by rewrite page_addr_mask, Z.lor_assoc).
  destruct (entry_parts phys x Hp Hx) as (Hm & Hu & Hb). rewrite He. split_and!; [done|done| |].
  - rewrite present_bit, Hb by lia. unfold x. by rewrite Z.lor_spec, orb_true_r.
  - intros i Hi H0 H7. rewrite Hb by lia. unfold x. rewrite Z.lor_spec, land_not_testbit by lia.
    change VMM_FLAG_PS with (2 ^ 7). change VMM_FLAG_PRESENT with (2 ^ 0). rewrite !pow2_testbit by lia.
    destruct (Z.eqb_spec 7 i), (Z.eqb_spec 0 i); try lia. by rewrite andb_true_r, orb_false_r.
Qed.

Lemma leaf_entry_flags phys flags : page_addr phys → flag_only flags →
  let e := leaf_entry phys flags in
  flag e VMM_FLAG_RW = flag flags VMM_FLAG_RW ∧ flag e VMM_FLAG_NOEXEC = flag flags VMM_FLAG_NOEXEC ∧
  flag e VMM_FLAG_DEVICE = flag flags VMM_FLAG_DEVICE ∧ flag e VMM_FLAG_USER = flag flags VMM_FLAG_USER ∧
  flag e VMM_FLAG_COW = flag flags VMM_FLAG_COW ∧ flag e VMM_FLAG_PROTNONE = flag flags VMM_FLAG_PROTNONE.
Proof.
  intros Hp Hf e. destruct (leaf_entry_spec phys flags Hp Hf) as (_ & _ & _ & Hb).
  fold e in Hb. autorewrite with secos_pte. by rewrite !Hb by lia.
Qed.

Lemma names_owns e f : names e f = true ↔ owns_frame e = true ∧ frame_of e = f.
Proof. unfold names. rewrite andb_true_iff, Z.eqb_eq. tauto. Qed.

(** *** Mapping *)

Lemma map_misaligned v phys : (4096 | phys) → misaligned (v * 4096) || misaligned phys = false.
Proof.
  intros Hp. unfold misaligned. rewrite !(proj2 (page_aligned _)); [done | done | by exists v].
Qed.

Lemma install_inv roots st r v t phys flags :
  vm_inv roots st → r ∈ roots → upage v → table_of roots (vmem st) r (path_of v) t →
  page_addr phys → flag_only flags → mappable roots st phys flags → wx flags = false → flag flags VMM_FLAG_PROTNONE = false →
  vmm_pte_has_frame (leaf (vmem st) r v) = false →
  vm_inv roots (put st t (v mod 512) (leaf_entry phys flags)).
Proof.
  intros Hinv Hr Hv Ht Hp Hfl Hmap Hwx Hpn Hold. pose proof Hinv as [Hw Hf].
  destruct (leaf_entry_spec phys flags Hp Hfl) as (Hu & Hfr & Hpr & _).
  destruct (leaf_entry_flags phys flags Hp Hfl) as (Frw & Fnx & Fdev & _ & Fcow & Fpn).
  set (e := leaf_entry phys flags) in *.
  assert (Hold' : ∀ f, names (leaf (vmem st) r v) f = false)
    by (intros; unfold names, owns_frame; by rewrite Hold).
  assert (Hnames : ∀ f, names e f = true → flag flags VMM_FLAG_DEVICE = false ∧ f = phys).
  { intros f Hn. apply names_owns in Hn as [Ho <-]. unfold owns_frame in Ho. zbool. split; congruence. }
  apply (set_leaf_inv roots st _ r v t e); try done; try apply Hw.
  - intros _. unfold leaf_ok, wx in *. by rewrite Frw, Fnx, Fpn.
  - rewrite Fcow, Fdev. destruct Hmap as [[Hd Hc]|(Hd & _)]; [congruence|done].
  - intros Ho. destruct Hmap as [[Hd _]|(_ & _ & Hnt & _)]; [|by rewrite Hfr].
    unfold owns_frame in Ho. zbool. congruence.
  - intros Hwr Ho. destruct Hmap as [[Hd _]|(_ & _ & _ & _ & Hrw & _)].
    + unfold owns_frame in Ho. zbool. congruence.
    + rewrite Hfr. apply Hrw. unfold writable in Hwr. zbool. congruence.
  - intros f n Hc Hn. rewrite Hold'. destruct (names e f) eqn:En; simpl in *; [|lia].
    destruct (Hnames f En) as [Hd ->]. destruct Hmap as [[? _]|(_ & _ & _ & Hsp & _)]; [congruence|].
    destruct (Hsp n Hc); [left; lia | by right].
  - intros f x En _ Hx. destruct (Hnames f En) as [Hd ->].
    destruct Hmap as [[? _]|(_ & _ & _ & _ & _ & Hm)]; [congruence|]. by apply Hm.
Qed.

Lemma put_only_leaf roots st r v t e :
  tabs_wf roots st → table_of roots (vmem st) r (path_of v) t → upage v →
  only_leaf roots (vmem st) (vmem (put st t (v mod 512) e)) r v e.
Proof. intros Hw Ht Hv r' v' Hr' Hv'. by apply (leaf_write_leaf roots). Qed.

Lemma put_data roots st r p t i e :
  tabs_wf roots st → table_of roots (vmem st) r p t → 0 ≤ i < 512 → same_data roots st (put st t i e).
Proof.
  intros Hw Ht Hi q x Hq Hnt Hx. simpl. unfold wr. destruct (Z.eqb_spec x (slot t i)) as [->|]; [|done].
  exfalso. apply (Hnt r p). pose proof (table_page _ _ _ _ _ Hw Ht) as [_ Hat].
  destruct (fa_ref_page (vfr st) q (tw_inv _ _ Hw) Hq) as [_ Haq].
  rewrite in_page_slot in Hx by done. apply Z.eqb_eq in Hx. by subst.
Qed.

Lemma grown_data roots st st1 st2 : grown roots st st1 → same_data roots st1 st2 → same_data roots st st2.
Proof.
  intros G D q x Hq Hnt Hx. rewrite D with (q := q); [by apply (gr_data _ _ _ G q)| |  |done].
  - by rewrite (gr_ref _ _ _ G).
  - intros r p Hp. destruct (gr_old _ _ _ G r p q Hp) as [?|?]; [by apply (Hnt r p) | done].
Qed.

Lemma map_spec roots st r v phys flags st' rc :
  vm_inv roots st → r ∈ roots → upage v → page_addr phys → flag_only flags →
  mappable roots st phys flags →
  vmm_map_in_space st (Some r) (v * 4096) phys flags = (st', rc) →
  vm_inv roots st' ∧ same_data roots st st' ∧ tables_from roots st st' ∧
  (∀ q, fa_ref (vfr st) q ≠ 0 → fa_ref (vfr st') q = fa_ref (vfr st) q) ∧
  (rc = 0 ∧ wx flags = false ∧ vmm_pte_has_frame (leaf (vmem st) r v) = false ∧
     only_leaf roots (vmem st) (vmem st') r v (leaf_entry phys flags) ∨
   rc ≠ 0 ∧ same_leaves roots (vmem st) (vmem st') ∧ flushes st' = flushes st).
Proof.
  intros Hinv Hr Hv Hp Hfl Hmap. unfold vmm_map_in_space.
  rewrite map_misaligned by apply Hp. destruct (wx flags) eqn:Ewx.
  { intros [= <- <-]. split_and!; try done; [intros ? ? ?; by left | by right]. }
  destruct (flag flags VMM_FLAG_USER && (KERNEL_HALF <=? v * 4096)) eqn:Ek.
  { intros [= <- <-]. split_and!; try done; [intros ? ? ?; by left | by right]. }
  destruct (get_pt_space st r (v * 4096) true flags) as [st1 res] eqn:Eg.
  destruct (get_pt_spec roots st r v true flags st1 res (vi_tabs _ _ Hinv) Hr Hv ltac:(apply Hfl) Eg)
    as (W1 & G1 & T1 & _ & _ & _).
  pose proof (grown_inv roots st st1 Hinv W1 G1) as Hinv1.
  assert (Hg1 : vm_inv roots st1 ∧ same_data roots st st1 ∧
    (∀ q, fa_ref (vfr st) q ≠ 0 → fa_ref (vfr st1) q = fa_ref (vfr st) q) ∧
    same_leaves roots (vmem st) (vmem st1) ∧ flushes st1 = flushes st).
  { split_and!; [done | by intros q x; apply G1 | apply G1 | intros r' v'; apply G1 | apply G1]. }
  destruct Hg1 as (_ & D1 & R1 & L1 & F1). assert (O1 : tables_from roots st st1) by (intros r' p u; apply G1).
  destruct res as [t|]; [|intros [= <- <-]; split_and!; try done; by right].
  specialize (T1 t eq_refl). destruct (page_indices v Hv) as [_ ->]. unfold entry.
  assert (Hleaf : vmem st1 (slot t (v mod 512)) = leaf (vmem st) r v).
  { rewrite <- (gr_leaf _ _ _ G1 r v Hr Hv). unfold leaf. by destruct T1 as (_ & _ & ->). }
  rewrite Hleaf. destruct (vmm_pte_has_frame (leaf (vmem st) r v)) eqn:Eo.
  { intros [= <- <-]. split_and!; try done. by right. }
  destruct (flag flags VMM_FLAG_PROTNONE) eqn:Epn.
  { intros [= <- <-]. split_and!; try done. by right. }
  intros [= <- <-]. split_and!.
  - apply install_inv with (r := r); try done; [by apply (mappable_grown roots st)|].
    by rewrite (gr_leaf _ _ _ G1).
  - apply (grown_data roots st st1 _ G1). eapply put_data; [done|done|]. apply Z.mod_pos_bound. lia.
  - intros r' p u (Hr' & Hp' & Hu). apply O1. split_and!; [done..|].
    cbn [put vmem set_mem] in Hu. by rewrite (leaf_write_tbl roots st1 r v t _ W1 T1) in Hu.
  - exact R1.
  - left. split_and!; try done. intros r' v' Hr' Hv'.
    rewrite (put_only_leaf roots st1 r v t _ W1 T1 Hv r' v' Hr' Hv'). by rewrite (gr_leaf _ _ _ G1).
Qed.

(** With three frames to spare a legal request succeeds. *)
Lemma map_succeeds roots st r v phys flags st' rc :
  vm_inv roots st → r ∈ roots → upage v → page_addr phys → flag_only flags → wx flags = false →
  vmm_pte_has_frame (leaf (vmem st) r v) = false → flag flags VMM_FLAG_PROTNONE = false →
  vmm_map_in_space st (Some r) (v * 4096) phys flags = (st', rc) →
  fa_avail (vfr st) - 3 ≤ fa_avail (vfr st') ∧ (3 ≤ fa_avail (vfr st) → rc = 0) ∧ (rc ≠ 0 → rc = -2).
Proof.
  intros Hinv Hr Hv Hp Hfl Hwx Hold Hpn. unfold vmm_map_in_space.
  rewrite map_misaligned by apply Hp. rewrite Hwx.
  assert (Ek : (KERNEL_HALF <=? v * 4096) = false) by (unfold upage, USER_PAGES, KERNEL_HALF in *; lia).
  rewrite Ek, andb_false_r. destruct (get_pt_space st r (v * 4096) true flags) as [st1 res] eqn:Eg.
  destruct (get_pt_spec roots st r v true flags st1 res (vi_tabs _ _ Hinv) Hr Hv ltac:(apply Hfl) Eg)
    as (W1 & G1 & T1 & _ & Av & Bv).
  destruct res as [t|].
  - specialize (T1 t eq_refl). destruct (page_indices v Hv) as [_ ->]. unfold entry.
    assert (Hleaf : vmem st1 (slot t (v mod 512)) = leaf (vmem st) r v).
    { rewrite <- (gr_leaf _ _ _ G1 r v Hr Hv). unfold leaf. by destruct T1 as (_ & _ & ->). }
    rewrite Hleaf, Hold, Hpn. intros [= <- <-]. split_and!; [done|done|]. congruence.
  - intros [= <- <-]. specialize (Bv eq_refl eq_refl). split_and!; [done | lia | done].
Qed.

(** *** The walk of an existing leaf *)

(** [get_pt_space] without creation finds the table of every leaf that is not
    zero and changes nothing. *)
Lemma find_leaf roots st r v st1 res :
  vm_inv roots st → r ∈ roots → upage v → get_pt_space st r (v * 4096) false 0 = (st1, res) →
  st1 = st ∧ match res with
             | Some t => table_of roots (vmem st) r (path_of v) t ∧
                         vmem st (slot t (v mod 512)) = leaf (vmem st) r v
             | None => leaf (vmem st) r v = 0
             end.
Proof.
  intros Hinv Hr Hv E. destruct (get_pt_spec roots st r v false 0 st1 res (vi_tabs _ _ Hinv) Hr Hv ltac:(lia) E)
    as (_ & _ & T & C & _). destruct (C eq_refl) as [-> Hz]. split; [done|].
  destruct res as [t|]; [|auto]. specialize (T t eq_refl). split; [done|].
  unfold leaf. by destruct T as (_ & _ & ->).
Qed.

Lemma virt_aligned v : misaligned (v * 4096) = false.
Proof. unfold misaligned. apply negb_false_iff, page_aligned. by exists v. Qed.

Lemma upage_below v : upage v → (VMM_USER_TOP <=? v * 4096) = false.
Proof. unfold upage, USER_PAGES, VMM_USER_TOP. lia. Qed.

(** *** Giving up a frame *)

Lemma pmm_drop_eq st p : pmm_drop st p = set_fr st (drop_frame (vfr st) p).
Proof.
  unfold pmm_drop, pmm_unref, pmm_free, drop_frame. destruct (fa_unref (vfr st) p) as [a rc].
  by destruct (rc =? 0).
Qed.

(** Clearing a leaf and dropping its reference. *)
Lemma clear_inv roots st st' r v t :
  vm_inv roots st → r ∈ roots → upage v → table_of roots (vmem st) r (path_of v) t →
  owns_frame (leaf (vmem st) r v) = true →
  vmem st' = wr (vmem st) (slot t (v mod 512)) 0 →
  vfr st' = drop_frame (vfr st) (frame_of (leaf (vmem st) r v)) →
  vm_inv roots st'.
Proof.
  intros Hinv Hr Hv Ht Ho Hm Ha. set (f := frame_of (leaf (vmem st) r v)) in *. pose proof Hinv as [Hw Hf].
  assert (Hmf : mapped roots (vmem st) f (r, v)) by (split_and!; try done; by apply names_owns).
  pose proof (mapped_ref roots st f (r, v) Hinv Hmf) as Hrf.
  destruct (drop_frame_spec (vfr st) f (tw_inv _ _ Hw) Hrf) as [Hi Hd]. rewrite <- Ha in Hi, Hd.
  apply (set_leaf_inv roots st st' r v t 0); try done.
  - intros r' p u Hu. rewrite Hd. destruct (Z.eqb_spec u f) as [->|]; [|by apply (tw_ref _ _ Hw r' p)].
    exfalso. by apply (fw_data _ _ Hf f (r, v) r' p).
  - intros g n Hc Hn. rewrite names_0, Hd. simpl. destruct (Z.eqb_spec g f) as [->|Hne].
    + assert (E : names (leaf (vmem st) r v) f = true) by (by apply names_owns). rewrite E. simpl.
      unfold ref_dropped. destruct (Z.eqb_spec (fa_ref (vfr st) f) REF_MAX); lia.
    + assert (E : names (leaf (vmem st) r v) g = false).
      { destruct (names _ g) eqn:E; [|done]. apply names_owns in E as [_ E]. by subst g. }
      rewrite E. simpl. lia.
  - intros g H1 E _ _. rewrite Hd. destruct (Z.eqb_spec g f) as [->|]; [|done].
    assert (names (leaf (vmem st) r v) f = true) by (by apply names_owns). congruence.
Qed.

(** Clearing a leaf that owns no frame of the allocator. *)
Lemma clear_device_inv roots st st' r v t :
  vm_inv roots st → r ∈ roots → upage v → table_of roots (vmem st) r (path_of v) t →
  owns_frame (leaf (vmem st) r v) = false →
  vmem st' = wr (vmem st) (slot t (v mod 512)) 0 → vfr st' = vfr st → vm_inv roots st'.
Proof.
  intros Hinv Hr Hv Ht Ho Hm Ha. pose proof Hinv as [Hw Hf].
  assert (E : ∀ f, names (leaf (vmem st) r v) f = false) by (intros; unfold names; by rewrite Ho).
  apply (set_leaf_inv roots st st' r v t 0); rewrite ?Ha; try done; try apply Hw.
  - intros g n _ Hn. rewrite E, names_0. simpl. lia.
Qed.

Lemma unmap_spec roots st r v st' rc :
  vm_inv roots st → r ∈ roots → upage v →
  vmm_unmap_in_space st (Some r) (v * 4096) = (st', rc) →
  vm_inv roots st' ∧ same_data roots st st' ∧
  let e := leaf (vmem st) r v in
  if vmm_pte_has_frame e then
    rc = 0 ∧ only_leaf roots (vmem st) (vmem st') r v 0 ∧
    flushes st' = flushes st ++ [(r, v * 4096, 1)] ∧
    (∀ q, fa_ref (vfr st') q = if owns_frame e && (q =? frame_of e) then ref_dropped (fa_ref (vfr st) q)
                               else fa_ref (vfr st) q)
  else (rc = -2 ∨ rc = -3) ∧ st' = st.
Proof.
  intros Hinv Hr Hv. unfold vmm_unmap_in_space. rewrite virt_aligned, (upage_below v Hv).
  destruct (get_pt_space st r (v * 4096) false 0) as [st1 res] eqn:Eg.
  destruct (find_leaf roots st r v st1 res Hinv Hr Hv Eg) as [-> Hres].
  pose proof Hinv as [Hw Hf]. destruct res as [t|].
  2: { intros [= <- <-]. rewrite Hres. split_and!; try done. change (vmm_pte_has_frame 0) with false. split; [by left|done]. }
  destruct Hres as [Ht He]. destruct (page_indices v Hv) as [_ ->]. unfold entry. rewrite He.
  set (e := leaf (vmem st) r v) in *. destruct (vmm_pte_has_frame e) eqn:Eh; cbn [negb].
  2: { intros [= <- <-]. split; [done|]. split; [done|]. split; [by right|done]. }
  pose proof (Z.mod_pos_bound v 512 ltac:(lia)) as Hm.
  pose proof (put_only_leaf roots st r v t 0 Hw Ht Hv) as Honly.
  pose proof (put_data roots st r _ t (v mod 512) 0 Hw Ht Hm) as Hdata.
  assert (Hown : owns_frame e = negb (flag e VMM_FLAG_DEVICE)) by (unfold owns_frame; by rewrite Eh).
  destruct (flag e VMM_FLAG_DEVICE) eqn:Ed.
  - intros [= <- <-]. cbv zeta. rewrite Hown. split_and!; try done.
    by apply (clear_device_inv roots st _ r v t).
  - rewrite pmm_drop_eq. intros [= <- <-]. cbv zeta. rewrite Hown. simpl in Hown.
    assert (Hmf : mapped roots (vmem st) (frame_of e) (r, v)) by (split_and!; try done; by apply names_owns).
    destruct (drop_frame_spec (vfr st) (frame_of e) (tw_inv _ _ Hw) (mapped_ref roots st _ _ Hinv Hmf)) as [_ Hd].
    split_and!; try done.
    + by apply (clear_inv roots st _ r v t).
    + intros q. simpl. rewrite Hd. destruct (Z.eqb_spec q (frame_of e)) as [->|]; done.
Qed.

(** *** Protecting *)

(** The address part of an entry, which may be 0. *)
Lemma mask_page x : is_u64 x → let p := Z.land x ADDRESS_MASK in
  Z.land p ADDRESS_MASK = p ∧ is_u64 p ∧ ∀ i, 0 ≤ i < 12 ∨ 52 ≤ i → Z.testbit p i = false.
Proof.
  intros Hx p. split_and!.
  - unfold p. by rewrite <- Z.land_assoc, Z.land_diag.
  - by apply is_u64_land_l.
  - intros i Hi. unfold p. rewrite Z.land_spec, mask_testbit by lia.
    destruct (Z.leb_spec 12 i), (Z.ltb_spec i 52); try lia; by rewrite ?andb_false_r.
Qed.

Lemma frame_parts x y : is_u64 x → flag_only y →
  let e := Z.lor (Z.land x ADDRESS_MASK) y in
  is_u64 e ∧ frame_of e = frame_of x ∧ ∀ i, 0 ≤ i < 12 ∨ 52 ≤ i → Z.testbit e i = Z.testbit y i.
Proof.
  intros Hx Hy e. destruct (mask_page x Hx) as (Hm & Hu & Hb). split_and!.
  - apply is_u64_lor; [done | apply Hy].
  - unfold frame_of, e. by rewrite Z.land_lor_distr_l, Hm, (proj2 Hy), Z.lor_0_r.
  - intros i Hi. unfold e. by rewrite Z.lor_spec, Hb.
Qed.

(** What [vmm_protect_in_space] installs: the same frame; parked exactly for
    PROT_NONE; writable only when asked for and, for a frame of the
    allocator, only when nobody shares it; never writable and executable. *)
Record protected (old flags : Z) (shared : bool) (e : Z) : Prop := {
  pr_u64 : is_u64 e;
  pr_frame : frame_of e = frame_of old;
  pr_has : vmm_pte_has_frame e = true;
  pr_device : flag e VMM_FLAG_DEVICE = flag old VMM_FLAG_DEVICE;
  pr_present : is_present e = negb (flag flags VMM_FLAG_PROTNONE);
  pr_dev : flag e VMM_FLAG_COW = true → flag e VMM_FLAG_DEVICE = false;
  pr_user : is_present e = true → flag e VMM_FLAG_USER = true;
  pr_ok : is_present e = true → leaf_ok e;
  pr_nx : is_present e = true → flag flags VMM_FLAG_NOEXEC = true → flag e VMM_FLAG_NOEXEC = true;
  pr_rw : writable e = true → flag flags VMM_FLAG_RW = true;
  pr_private : writable e = true → flag old VMM_FLAG_DEVICE = false →
    shared = false ∧ flag old VMM_FLAG_COW = false;
  pr_cow : is_present e = true → flag old VMM_FLAG_DEVICE = false →
    flag flags VMM_FLAG_RW = true → writable e = true ∨ flag e VMM_FLAG_COW = true
}.

Lemma protect_device old flags shared :
  is_u64 old → flag old VMM_FLAG_DEVICE = true → protected old flags shared (protect_entry old flags shared).
Proof.
  intros Ho Hd. unfold protect_entry. rewrite Hd.
  set (keep := Z.land old (Z.lor (Z.lor VMM_FLAG_DEVICE VMM_FLAG_PWT) VMM_FLAG_PCD)). assert (Hk : flag_only keep).
  { apply flag_only_land_r; [apply Ho | flag_const]. }
  assert (Kb : Z.testbit keep 0 = false ∧ Z.testbit keep 1 = false ∧ Z.testbit keep 11 = true ∧
    Z.testbit keep 2 = false ∧ Z.testbit keep 10 = false ∧ Z.testbit keep 9 = false).
  { unfold keep. rewrite !Z.land_spec. rewrite <- device_bit, Hd. by rewrite !andb_false_r. }
  destruct Kb as (K0 & K1 & K11 & K2 & K10 & K9).
  destruct (flag flags VMM_FLAG_PROTNONE) eqn:Epn.
  - set (y := Z.lor (Z.lor keep VMM_FLAG_PROTNONE) VMM_FLAG_NOEXEC).
    assert (Hy : flag_only y) by (repeat apply flag_only_lor; [done | flag_const..]).
    destruct (frame_parts old y Ho Hy) as (Hu & Hf & Hb). rewrite <- !Z.lor_assoc, (Z.lor_assoc keep). fold y.
    constructor; try done; unfold leaf_ok, wx, writable; autorewrite with secos_pte in *; rewrite ?Hb by lia;
      unfold y; rewrite ?Z.lor_spec, ?K0, ?K1, ?K10, ?K11, ?K2, ?K9; try done; rewrite ?Epn; done.
  - set (w := Z.land flags VMM_FLAG_RW).
    assert (Hw : flag_only w ∧ ∀ i, 0 ≤ i → Z.testbit w i = Z.testbit flags 1 && (1 =? i)).
    { split.
      - split; [|unfold w; by rewrite <- Z.land_assoc, Z.land_0_r].
        unfold w. rewrite Z.land_comm. apply is_u64_land_l. by unfold is_u64, VMM_FLAG_RW.
      - intros i Hi. unfold w. rewrite Z.land_spec. change VMM_FLAG_RW with (2 ^ 1). rewrite pow2_testbit by lia.
        destruct (Z.eqb_spec 1 i) as [<-|]; by rewrite ?andb_false_r. }
    destruct Hw as [Hwf Hwb].
    set (y := Z.lor (Z.lor (Z.lor (Z.lor keep VMM_FLAG_PRESENT) VMM_FLAG_USER) VMM_FLAG_NOEXEC) w).
    assert (Hy : flag_only y) by (repeat apply flag_only_lor; [done | flag_const.. | done]).
    destruct (frame_parts old y Ho Hy) as (Hu & Hf & Hb).
    replace (Z.lor _ w) with (Z.lor (Z.land old ADDRESS_MASK) y) by (unfold y; by rewrite !Z.lor_assoc).
    constructor; try done; unfold leaf_ok, wx, writable; autorewrite with secos_pte in *; rewrite ?Hb by lia;
      unfold y; rewrite ?Z.lor_spec, ?K0, ?K1, ?K10, ?K11, ?K2, ?K9, ?Hwb by lia; const_bits;
      rewrite ?andb_false_r, ?orb_false_r, ?andb_true_r, ?orb_true_r, ?Epn, ?Hd, ?andb_false_r; try done.
Qed.

Lemma protect_normal old flags shared :
  is_u64 old → flag old VMM_FLAG_DEVICE = false → flag_only flags → flag flags VMM_FLAG_DEVICE = false →
  wx flags = false → protected old flags shared (protect_entry old flags shared).
Proof.
  intros Ho Hd Hfl Hfd Hwx. unfold protect_entry. rewrite Hd. unfold wx in Hwx.
  autorewrite with secos_pte in Hd, Hfd, Hwx. destruct (flag flags VMM_FLAG_PROTNONE) eqn:Epn.
  - set (y := Z.lor VMM_FLAG_PROTNONE VMM_FLAG_NOEXEC).
    assert (Hy : flag_only y) by flag_const.
    destruct (frame_parts old y Ho Hy) as (Hu & Hf & Hb). rewrite <- Z.lor_assoc. fold y.
    constructor; try done; unfold leaf_ok, wx, writable; autorewrite with secos_pte in *; rewrite ?Hb by lia;
      unfold y; const_bits; rewrite ?Epn, ?Hd; done.
  - set (nf := Z.lor (Z.lor _ VMM_FLAG_PRESENT) VMM_FLAG_USER).
    assert (Hnf : flag_only nf) by (repeat apply flag_only_lor; [by apply flag_only_land | flag_const..]).
    assert (Nb : Z.testbit nf 0 = true ∧ Z.testbit nf 1 = Z.testbit flags 1 ∧ Z.testbit nf 2 = true ∧
      Z.testbit nf 10 = false ∧ Z.testbit nf 11 = false ∧ Z.testbit nf 63 = Z.testbit flags 63).
    { unfold nf. rewrite !Z.lor_spec, !land_not_testbit by lia. const_bits.
      rewrite Hfd, ?andb_true_r, ?orb_true_r, ?orb_false_r, ?andb_false_r. done. }
    destruct Nb as (N0 & N1 & N2 & N10 & N11 & N63). clearbody nf.
    set (y := if flag old VMM_FLAG_COW || shared then _ else nf).
    assert (Hy : flag_only y ∧ Z.testbit y 0 = true ∧ Z.testbit y 2 = true ∧ Z.testbit y 10 = false ∧
      Z.testbit y 11 = false ∧ Z.testbit y 63 = Z.testbit flags 63 ∧
      Z.testbit y 1 = Z.testbit flags 1 && negb (flag old VMM_FLAG_COW || shared) ∧
      (flag old VMM_FLAG_COW || shared = true → Z.testbit y 9 = true)).
    { unfold y. destruct (flag old VMM_FLAG_COW || shared).
      - split; [apply flag_only_lor; [by apply flag_only_land | flag_const]|].
        rewrite !Z.lor_spec, !land_not_testbit by lia. const_bits.
        rewrite N0, N1, N2, N10, N11, N63, ?andb_true_r, ?orb_false_r, ?andb_false_r, ?orb_true_r. done.
      - rewrite N0, N1, N2, N10, N11, N63, andb_true_r. done. }
    destruct Hy as (Hyf & Y0 & Y2 & Y10 & Y11 & Y63 & Y1 & Y9).
    destruct (frame_parts old y Ho Hyf) as (Hu & Hf & Hb).
    set (c := flag old VMM_FLAG_COW || shared) in *.
    assert (Hc : c = false → shared = false ∧ flag old VMM_FLAG_COW = false)
      by (unfold c; intros; zbool; done). clearbody c.
    constructor; try done; unfold leaf_ok, wx, writable; autorewrite with secos_pte in *; rewrite ?Hb by lia;
      rewrite ?Y0, ?Y1, ?Y2, ?Y10, ?Y11, ?Y63, ?Epn, ?Hd; try done.
    + intros _. destruct (Z.testbit flags 1), (Z.testbit flags 63), c; done.
    + cbn [andb]. by destruct (Z.testbit flags 1).
    + cbn [andb]. intros E _. apply Hc. by destruct (Z.testbit flags 1), c.
    + intros _ _ Hrw. rewrite Hrw. destruct c; [right; by apply Y9 | by left].
Qed.

Lemma protect_spec roots st r v flags st' rc :
  vm_inv roots st → r ∈ roots → upage v → flag_only flags → flag flags VMM_FLAG_DEVICE = false →
  vmm_protect_in_space st (Some r) (v * 4096) flags = (st', rc) →
  vm_inv roots st' ∧ same_data roots st st' ∧ vfr st' = vfr st ∧
  (rc = 0 ∧ wx flags = false ∧ vmm_pte_has_frame (leaf (vmem st) r v) = true ∧
     flushes st' = flushes st ++ [(r, v * 4096, 1)] ∧
     (∃ e shared, only_leaf roots (vmem st) (vmem st') r v e ∧ protected (leaf (vmem st) r v) flags shared e ∧
       (owns_frame (leaf (vmem st) r v) = true → shared = (1 <? fa_ref (vfr st) (frame_of (leaf (vmem st) r v))))) ∨
   st' = st ∧ (rc = -5 ∧ wx flags = true ∨ rc = -3 ∧ vmm_pte_has_frame (leaf (vmem st) r v) = false)).
Proof.
  intros Hinv Hr Hv Hfl Hfd. unfold vmm_protect_in_space. rewrite virt_aligned, (upage_below v Hv).
  destruct (wx flags) eqn:Ewx.
  { intros [= <- <-]. split_and!; try done. right. split; [done|]. by left. }
  destruct (get_pt_space st r (v * 4096) false 0) as [st1 res] eqn:Eg.
  destruct (find_leaf roots st r v st1 res Hinv Hr Hv Eg) as [-> Hres].
  pose proof Hinv as [Hw Hf]. destruct res as [t|].
  2: { intros [= <- <-]. rewrite Hres. split_and!; try done. right. split; [done|]. by right. }
  destruct Hres as [Ht He]. destruct (page_indices v Hv) as [_ ->]. unfold entry. rewrite He.
  set (old := leaf (vmem st) r v) in *. destruct (vmm_pte_has_frame old) eqn:Eh; cbn [negb].
  2: { intros [= <- <-]. split_and!; try done. right. split; [done|]. by right. }
  set (shared := fa_shared (vfr st) (Z.land old ADDRESS_MASK)).
  assert (Hold : is_u64 old) by (rewrite <- He; apply Hw).
  assert (Hp : protected old flags shared (protect_entry old flags shared)).
  { destruct (flag old VMM_FLAG_DEVICE) eqn:Ed; [by apply protect_device | by apply protect_normal]. }
  assert (Hsh : owns_frame old = true → shared = (1 <? fa_ref (vfr st) (frame_of old))).
  { intros Ho. apply fa_shared_law; [apply Hw|]. apply (mapped_ref roots st _ (r, v) Hinv).
    split_and!; try done. by apply names_owns. }
  set (e := protect_entry old flags shared) in *. clearbody e shared. intros [= <- <-].
  assert (Hnames : ∀ f, names e f = names old f).
  { intros f. unfold names, owns_frame. by rewrite (pr_frame _ _ _ _ Hp), (pr_has _ _ _ _ Hp), (pr_device _ _ _ _ Hp), Eh. }
  pose proof (Z.mod_pos_bound v 512 ltac:(lia)) as Hm. split_and!; try done.
  - apply (set_leaf_inv roots st _ r v t e); try done; try apply Hp; try apply Hw.
    + intros Ho r' p Hp'. rewrite (pr_frame _ _ _ _ Hp) in Hp'. apply (fw_data _ _ Hf (frame_of old) (r, v) r' p); [|done].
      split_and!; try done. change (names old (frame_of old) = true). rewrite <- Hnames. apply names_owns.
      split; [done | apply Hp].
    + intros Hwr Ho. assert (Ho' : owns_frame old = true).
      { unfold owns_frame in *. rewrite Eh. by rewrite (pr_device _ _ _ _ Hp), (pr_has _ _ _ _ Hp) in Ho. }
      assert (Hdev : flag old VMM_FLAG_DEVICE = false) by (unfold owns_frame in Ho'; by zbool).
      destruct (pr_private _ _ _ _ Hp Hwr Hdev) as [Hs _]. rewrite (pr_frame _ _ _ _ Hp).
      rewrite (Hsh Ho') in Hs. apply Z.ltb_ge in Hs. simpl.
      assert (Hm0 : mapped roots (vmem st) (frame_of old) (r, v)) by (split_and!; try done; by apply names_owns).
      pose proof (mapped_ref roots st _ _ Hinv Hm0). pose proof (fa_ref_range (vfr st) (frame_of old) (tw_inv _ _ Hw)). lia.
    + intros f n _ Hn. rewrite Hnames. fold old. cbn [vfr tlb_shootdown set_flushes put set_mem]. lia.
    + intros f x H1 H2. rewrite Hnames in H1. fold old in H2. congruence.
  - eapply put_data; done.
  - left. split_and!; try done. exists e, shared. split_and!; try done. by apply put_only_leaf.
Qed.
End ops.
