(* ===== verification/VmmFault.v ===== *)
(** * Page faults

    The copy-on-write fault and the demand pager on a consistent set of
    address spaces: a new frame is filled, installed at the faulting page and
    at no other, and everything else, in this space and in the others, stays
    as it was. *)

From S2P Require Import Prelude Vma Frames Vmm VmmWf VmmInv VmmOps.

Section fault.
Context {A : Type} {ops : FrameOps A} {laws : FrameLaws A}.
Abbreviation state := (vm A).

(** A new frame: no table, no leaf names it. *)
Definition fresh (roots : list Z) (st : state) (f : Z) : Prop :=
  page_addr f ∧ (∀ r p, ¬ table_of roots (vmem st) r p f) ∧ (∀ x, ¬ mapped roots (vmem st) f x).

Lemma in_page_unique p q x : (4096 | p) → (4096 | q) → in_page p x = true → in_page q x = true → p = q.
Proof. unfold in_page. intros [y ->] [z ->] Hp Hq. zbool. lia. Qed.

(** Allocating a frame and writing into it. *)
Lemma alloc_fresh roots st a f m' :
  vm_inv roots st → fa_alloc (vfr st) = (a, f) → f ≠ 0 →
  (∀ x, is_u64 (m' x)) → (∀ x, in_page f x = false → m' x = vmem st x) →
  let st' := mk_vm m' a (kspace st) (flushes st) in
  vm_inv roots st' ∧ fresh roots st f ∧ fresh roots st' f ∧ fa_ref a f = 1 ∧ fa_ref (vfr st) f = 0 ∧
  (∀ q, q ≠ f → fa_ref a q = fa_ref (vfr st) q) ∧
  same_leaves roots (vmem st) m' ∧ same_data roots st st' ∧
  (∀ r p t, table_of roots m' r p t ↔ table_of roots (vmem st) r p t).
Proof.
  intros Hinv Ea Hf Hu Hm st'. pose proof Hinv as [Hw Hfw].
  destruct (fa_alloc_law (vfr st) a f (tw_inv _ _ Hw) Ea) as [[? _]|(Hi & Hz & Hr)]; [done|].
  assert (Hpa : page_addr f). { apply (fa_ref_page a); [done|]. by rewrite Hr, Z.eqb_refl. }
  assert (Hnt : ∀ r p, ¬ table_of roots (vmem st) r p f).
  { intros r p Hp. rewrite (tw_ref _ _ Hw r p f Hp) in Hz. done. }
  assert (Hnm : ∀ x, ¬ mapped roots (vmem st) f x).
  { intros x Hx. by apply (mapped_ref roots st f x Hinv Hx). }
  assert (He : ∀ r p t i, table_of roots (vmem st) r p t → 0 ≤ i < 512 → m' (slot t i) = vmem st (slot t i)).
  { intros r p t i Ht Hi'. apply Hm. pose proof (table_page _ _ _ _ _ Hw Ht) as [_ Hat].
    rewrite in_page_slot by (done || apply Hpa). apply Z.eqb_neq. intros ->. by apply (Hnt r p). }
  destruct (tables_ext roots _ _ He) as [Htab Hleaf].
  assert (Hinv' : vm_inv roots st').
  { apply (vm_inv_ext roots st); try done.
    - intros r p t Ht. simpl. rewrite Hr. destruct (Z.eqb_spec t f); [done|]. by apply (tw_ref _ _ Hw r p).
    - intros g x Hg. simpl. rewrite Hr. destruct (Z.eqb_spec g f) as [->|]; [|done]. by destruct (Hnm x). }
  split_and!; try done.
  - split_and!; [apply Hpa..| |].
    + intros r p Hp%Htab. by apply (Hnt r p).
    + intros x Hx. apply (Hnm x). by apply (mapped_same roots (vmem st) m').
  - by rewrite Hr, Z.eqb_refl.
  - intros q Hq. rewrite Hr. by destruct (Z.eqb_spec q f).
  - intros q x Hq Hnt' Hx. simpl. apply Hm. destruct (in_page f x) eqn:E; [|done].
    destruct (fa_ref_page (vfr st) q (tw_inv _ _ Hw) Hq) as [_ Haq].
    rewrite (in_page_unique q f x Haq (proj2 Hpa) Hx E) in Hq. done.
Qed.

(** A fresh frame with its one reference can be mapped with any flags of an
    ordinary page. *)
Lemma fresh_mappable roots st f flags :
  fresh roots st f → fa_ref (vfr st) f = 1 → flag flags VMM_FLAG_DEVICE = false → mappable roots st f flags.
Proof.
  intros (_ & Hnt & Hnm) Hr Hd. right. rewrite Hr. split_and!; try done.
  - intros n (l & _ & Hl & <-). left. destruct l as [|x l]; [simpl; lia|].
    exfalso. apply (Hnm x), Hl. by left.
  - intros x Hx. by destruct (Hnm x).
Qed.

(** Giving back a frame that nothing names. *)
Lemma free_fresh roots st f :
  vm_inv roots st → (∀ r p, ¬ table_of roots (vmem st) r p f) → (∀ x, ¬ mapped roots (vmem st) f x) →
  fa_ref (vfr st) f = 1 → vm_inv roots (pmm_free st f) ∧
  ∀ q, fa_ref (vfr (pmm_free st f)) q = if q =? f then 0 else fa_ref (vfr st) q.
Proof.
  intros Hinv Hnt Hnm Hr. pose proof Hinv as [Hw _].
  destruct (fa_free_law (vfr st) f (tw_inv _ _ Hw) Hr) as [Hi Hq]. split; [|done].
  apply (vm_inv_ext roots st); try done; [apply Hw| |].
  - intros r p t Ht. simpl. rewrite Hq. destruct (Z.eqb_spec t f) as [->|]; [by destruct (Hnt r p)|].
    by apply (tw_ref _ _ Hw r p).
  - intros g x Hg. simpl. rewrite Hq. destruct (Z.eqb_spec g f) as [->|]; [by destruct (Hnm x)|done].
Qed.

(** ** Demand paging *)

Lemma word_of_u64 l o : Forall is_u8 l → is_u64 (word_of l o).
Proof.
  intros Hl. assert (Hb : ∀ i, is_u8 l.[i]).
  { intros i. unfold aget. destruct (l !! Z.to_nat i) as [x|] eqn:E.
    - rewrite (list_lookup_total_correct _ _ _ E). by eapply Forall_lookup_1.
    - rewrite list_lookup_total_alt, E. done. }
  pose proof (Hb o). pose proof (Hb (o + 1)). pose proof (Hb (o + 2)). pose proof (Hb (o + 3)).
  pose proof (Hb (o + 4)). pose proof (Hb (o + 5)). pose proof (Hb (o + 6)). pose proof (Hb (o + 7)).
  unfold word_of. unfold_uint. lia.
Qed.

Definition cache_ok (cache : Z → Z → option (list Z)) : Prop :=
  ∀ ino off p, cache ino off = Some p → Forall is_u8 p.

Lemma fault_fill_u8 img cache v pg : cache_ok cache → Forall is_u8 (vma_fault_fill img cache v pg).
Proof.
  intros Hc. assert (Hz : Forall is_u8 (replicate 4096 0)) by (apply Forall_replicate; done).
  unfold vma_fault_fill. destruct (v_type v); [exact Hz| |exact Hz|exact Hz].
  destruct (negb (file_inode v =? 0)).
  - destruct (cache _ _) as [p|] eqn:E; [by eapply Hc | exact Hz].
  - destruct (negb (file_base v =? 0)); [|exact Hz]. unfold fill_image. destruct (_ <? _); [|exact Hz].
    apply Forall_app. split; [by apply Forall_take|]. apply Forall_app. split; [|by apply Forall_drop].
    apply Forall_fmap, Forall_true. intros i. apply (rd8_range img).
Qed.

(** The flags of a region: neither an address nor one of the bits that only
    leaves have. *)
Definition region_flags (x : Z) : Prop :=
  flag_only x ∧ flag x VMM_FLAG_DEVICE = false ∧ flag x VMM_FLAG_COW = false.

(** The page of an address. *)
Lemma fault_page addr : 0 ≤ addr < VMM_USER_TOP →
  Z.land addr (not64 0xFFF) = addr / 4096 * 4096 ∧ upage (addr / 4096).
Proof.
  unfold VMM_USER_TOP, upage, USER_PAGES. intros Ha. split.
  - apply land_not_page. unfold is_u64. lia.
  - split; [apply Z.div_pos; lia|]. apply Z.div_lt_upper_bound; lia.
Qed.

(** What a successful or failed demand fault at page [pg] leaves. *)
Definition faulted (roots : list Z) (st st' : state) (r pg flags rc : Z) (l : list Z) : Prop :=
  vm_inv roots st' ∧ same_data roots st st' ∧
  (∀ q, fa_ref (vfr st) q ≠ 0 → fa_ref (vfr st') q = fa_ref (vfr st) q) ∧
  (rc = 0 ∧ vmm_pte_has_frame (leaf (vmem st) r pg) = false ∧
     (∃ f, fa_ref (vfr st) f = 0 ∧ fa_ref (vfr st') f = 1 ∧ page_addr f ∧
        only_leaf roots (vmem st) (vmem st') r pg (leaf_entry f flags) ∧
        ∀ x, in_page f x = true → vmem st' x = word_of l (x - f)) ∨
   rc ≠ 0 ∧ same_leaves roots (vmem st) (vmem st')).

Lemma fault_frame_spec roots st img cache r v pg st' rc :
  vm_inv roots st → r ∈ roots → upage pg → cache_ok cache → region_flags (v_flags v) →
  fault_frame st img cache (Some r) v (pg * 4096) = (st', rc) →
  faulted roots st st' r pg (v_flags v) rc (vma_fault_fill img cache v (pg * 4096)).
Proof.
  intros Hinv Hr Hv Hc (Hfo & Hfd & _). unfold fault_frame, pmm_alloc.
  destruct (fa_alloc (vfr st)) as [a f] eqn:Ea. destruct (Z.eqb_spec f 0) as [->|Hf].
  { destruct (fa_alloc_law (vfr st) a 0 (tw_inv _ _ (vi_tabs _ _ Hinv)) Ea) as [[_ ->]|(Hi & Hz & Hq)].
    - intros [= <- <-]. destruct st. split_and!; try done. by right.
    - exfalso. pose proof (fa_ref_page a 0 Hi ltac:(by rewrite Hq)). lia. }
  assert (Hpf : page_addr f) by (apply (fa_alloc_page (vfr st) a); [apply Hinv|done..]).
  rewrite page_addr_mask by done. set (l := vma_fault_fill img cache v (pg * 4096)).
  cbn [vmem set_fr]. set (m' := fill_page (vmem st) f l).
  assert (Hl : Forall is_u8 l) by (by apply fault_fill_u8).
  destruct (alloc_fresh roots st a f m' Hinv Ea Hf) as (Hinv1 & Hfr0 & Hfr1 & Ha1 & Hz & Hq & Hleaf & Hdata & Htab).
  { intros x. unfold m', fill_page. destruct (in_page f x); [by apply word_of_u64 | apply Hinv]. }
  { intros x Hx. unfold m', fill_page. by rewrite Hx. }
  unfold set_mem, set_fr. cbn [vfr kspace flushes]. set (st1 := mk_vm m' a (kspace st) (flushes st)) in *.
  destruct (vmm_map_in_space st1 (Some r) (pg * 4096) f (v_flags v)) as [st2 r2] eqn:Em.
  pose proof (fresh_mappable roots st1 f (v_flags v) Hfr1 Ha1 Hfd) as Hmap.
  destruct (map_spec roots st1 r pg f (v_flags v) st2 r2 Hinv1 Hr Hv Hpf Hfo Hmap Em) as (Hinv2 & Hd2 & Ht2 & Hq2 & Hres).
  assert (Hdata2 : same_data roots st st2).
  { intros q x Hqn Hnt Hx. rewrite (Hd2 q x); [by apply (Hdata q)| | |done].
    - change (vfr st1) with a. destruct (decide (q = f)) as [->|]; [by rewrite Ha1 | by rewrite Hq].
    - intros r' p Hp. destruct (decide (q = f)) as [->|Hne]; [done|].
      apply (Hnt r' p). by apply Htab. }
  assert (Hrefs : ∀ q, fa_ref (vfr st) q ≠ 0 → fa_ref (vfr st2) q = fa_ref (vfr st) q).
  { intros q Hqn. assert (q ≠ f) by congruence. rewrite Hq2 by (change (vfr st1) with a; by rewrite Hq). by apply Hq. }
  destruct Hres as [(-> & Hwx & Hold & Honly)|(Hrc & Hsame & _)].
  - intros [= <- <-]. split_and!; try done. left. split_and!; [done|by rewrite <- Hleaf|].
    exists f. split_and!; try done.
    + rewrite Hq2; change (vfr st1) with a; by rewrite Ha1.
    + intros r' v' Hr' Hv'. rewrite Honly by done. by rewrite Hleaf.
    + intros x Hx. rewrite (Hd2 f x); [|change (vfr st1) with a; by rewrite Ha1|apply Hfr1|done].
      simpl. unfold m', fill_page. by rewrite Hx.
  - destruct (Z.eqb_spec r2 0); [done|]. cbn [negb]. intros [= <- <-].
    assert (Hs2 : same_leaves roots (vmem st) (vmem st2)) by (intros r' v' Hr' Hv'; rewrite Hsame by done; by apply Hleaf).
    assert (Hf2 : fa_ref (vfr st2) f = 1) by (rewrite Hq2; change (vfr st1) with a; by rewrite Ha1).
    destruct (free_fresh roots st2 f Hinv2) as [Hinv3 Hq3]; [| |done|].
    { intros r' p Hp. destruct (Ht2 r' p f Hp) as [Hp1|Hz1]; [by apply (proj1 (proj2 Hfr1) r' p)|].
      change (vfr st1) with a in Hz1. congruence. }
    { intros x Hx. apply (proj2 (proj2 Hfr1) x). by apply (mapped_same roots m' (vmem st2)). }
    split_and!; try done; [|by right].
    intros q Hqn. rewrite Hq3. destruct (Z.eqb_spec q f) as [->|]; [congruence|]. by apply Hrefs.
Qed.

Lemma fault_in_spec roots st img cache r v addr st' rc :
  vm_inv roots st → r ∈ roots → 0 ≤ addr < VMM_USER_TOP → cache_ok cache → region_flags (v_flags v) →
  v_type v ≠ VMA_TYPE_PHYS → v_start v ≤ addr / 4096 * 4096 < v_end v →
  vma_fault_in st img cache (Some r) v addr = (st', rc) →
  faulted roots st st' r (addr / 4096) (v_flags v) rc (vma_fault_fill img cache v (addr / 4096 * 4096)).
Proof.
  intros Hinv Hr Ha Hc Hfl Hty Hin. unfold vma_fault_in.
  destruct (fault_page addr Ha) as [-> Hv].
  destruct (Z.ltb_spec (addr / 4096 * 4096) (v_start v)); [lia|].
  destruct (Z.leb_spec (v_end v) (addr / 4096 * 4096)); [lia|].
  cbn [orb]. destruct (flag (v_flags v) VMM_FLAG_PROTNONE).
  { intros [= <- <-]. split_and!; try done. by right. }
  destruct (v_type v); [|  |done|]; by apply fault_frame_spec.
Qed.

(** ** Copy on write *)

(** The leaf that resolves the fault on [pte] with the new frame [f]. *)
Definition cow_entry (pte f : Z) : Z :=
  Z.lor f (Z.lor (Z.land (Z.land pte (not64 ADDRESS_MASK)) (not64 VMM_FLAG_COW)) VMM_FLAG_RW).

Lemma cow_entry_spec pte f : is_u64 pte → page_addr f →
  let e := cow_entry pte f in
  is_u64 e ∧ frame_of e = f ∧ is_present e = is_present pte ∧ flag e VMM_FLAG_RW = true ∧
  flag e VMM_FLAG_COW = false ∧ flag e VMM_FLAG_DEVICE = flag pte VMM_FLAG_DEVICE ∧
  flag e VMM_FLAG_NOEXEC = flag pte VMM_FLAG_NOEXEC ∧ flag e VMM_FLAG_USER = flag pte VMM_FLAG_USER ∧
  flag e VMM_FLAG_PROTNONE = flag pte VMM_FLAG_PROTNONE.
Proof.
  intros Hp Hf e. set (y := Z.lor (Z.land (Z.land pte (not64 ADDRESS_MASK)) (not64 VMM_FLAG_COW)) VMM_FLAG_RW).
  assert (Hy : flag_only y).
  { apply flag_only_lor; [apply flag_only_land; by apply flag_only_not_mask | flag_const]. }
  destruct (entry_parts f y Hf Hy) as (Hm & Hu & Hb). unfold e, cow_entry. fold y.
  split_and!; try done; autorewrite with secos_pte; rewrite Hb by lia; unfold y;
    rewrite !Z.lor_spec, !land_not_testbit by lia; const_bits;
    by rewrite ?andb_true_r, ?orb_false_r, ?orb_true_r, ?andb_false_r.
Qed.

(** The region that makes a write fault at page [v] legitimate. *)
Definition write_region (vmas : vset) (v : Z) : bool :=
  match vma_find vmas (v * 4096) with
  | Some u => flag (v_flags u) VMM_FLAG_RW && negb (flag (v_flags u) VMM_FLAG_PROTNONE)
  | None => false
  end.

(** What a resolved copy-on-write fault leaves: the page has a frame of its
    own, writable, with the contents of the old frame, which loses one
    reference. *)
Definition copied (roots : list Z) (st st' : state) (r v : Z) : Prop :=
  let pte := leaf (vmem st) r v in
  ∃ f, fa_ref (vfr st) f = 0 ∧ fa_ref (vfr st') f = 1 ∧ page_addr f ∧
    only_leaf roots (vmem st) (vmem st') r v (cow_entry pte f) ∧
    (∀ o, 0 ≤ o < 4096 → vmem st' (f + o) = vmem st (frame_of pte + o)) ∧
    (∀ q, q ≠ f → fa_ref (vfr st') q =
       if q =? frame_of pte then ref_dropped (fa_ref (vfr st) q) else fa_ref (vfr st) q).

Section cow.
Context (roots : list Z) (st : state) (r v t : Z) (a : A) (f : Z).
Hypothesis Hinv : vm_inv roots st.
Hypothesis Hr : r ∈ roots.
Hypothesis Hv : upage v.
Hypothesis Ht : table_of roots (vmem st) r (path_of v) t.
Let pte := leaf (vmem st) r v.
Hypothesis Hpr : is_present pte = true.
Hypothesis Hcow : flag pte VMM_FLAG_COW = true.
Hypothesis Hnx : flag pte VMM_FLAG_NOEXEC = true.
Hypothesis Ha : fa_alloc (vfr st) = (a, f).
Hypothesis Hf : f ≠ 0.
Let m' := copy_page (vmem st) f (frame_of pte).
Let st1 := mk_vm m' a (kspace st) (flushes st).
Let st2 := set_fr st1 (drop_frame a (frame_of pte)).

Let Hfresh := alloc_fresh roots st a f m' Hinv Ha Hf.

Lemma cow_copy :
  vm_inv roots st1 ∧ fresh roots st f ∧ fresh roots st1 f ∧ fa_ref a f = 1 ∧ fa_ref (vfr st) f = 0 ∧
  (∀ q, q ≠ f → fa_ref a q = fa_ref (vfr st) q) ∧
  same_leaves roots (vmem st) m' ∧ same_data roots st st1 ∧
  (∀ r p t, table_of roots m' r p t ↔ table_of roots (vmem st) r p t).
Proof.
  apply Hfresh.
  - intros x. unfold m', copy_page. destruct (in_page f x); apply Hinv.
  - intros x Hx. unfold m', copy_page. by rewrite Hx.
Qed.

Lemma cow_owns : owns_frame pte = true ∧ mapped roots (vmem st) (frame_of pte) (r, v) ∧ frame_of pte ≠ f ∧
  fa_ref a (frame_of pte) = fa_ref (vfr st) (frame_of pte) ∧ fa_ref (vfr st) (frame_of pte) ≠ 0.
Proof.
  destruct cow_copy as (_ & _ & _ & _ & Hz & Hq & _).
  assert (Ho : owns_frame pte = true).
  { unfold owns_frame. rewrite has_frame_bits, <- present_bit, Hpr.
    pose proof (fw_dev _ _ (vi_frames _ _ Hinv) r v Hr Hv Hcow) as Hd. fold pte in Hd. by rewrite Hd. }
  assert (Hm : mapped roots (vmem st) (frame_of pte) (r, v)) by (split_and!; try done; by apply names_owns).
  pose proof (mapped_ref roots st _ _ Hinv Hm) as Hn. assert (frame_of pte ≠ f) by congruence.
  split_and!; try done. by apply Hq.
Qed.

Lemma cow_table : table_of roots m' r (path_of v) t ∧ leaf m' r v = pte.
Proof.
  destruct cow_copy as (_ & _ & _ & _ & _ & _ & Hleaf & _ & Htab). split; [by apply Htab | by apply Hleaf].
Qed.

Lemma cow_drop : fa_inv (vfr st2) ∧ ∀ q, fa_ref (vfr st2) q =
  if q =? frame_of pte then ref_dropped (fa_ref (vfr st) (frame_of pte)) else fa_ref a q.
Proof.
  destruct cow_copy as (Hinv1 & _). destruct cow_owns as (_ & _ & _ & He & Hn).
  pose proof (tw_inv _ _ (vi_tabs _ _ Hinv1)) as Hi. simpl in Hi.
  destruct (drop_frame_spec a (frame_of pte) Hi ltac:(by rewrite He)) as [H1 H2].
  split; [done|]. intros q. simpl. rewrite H2, He. done.
Qed.

Lemma cow_inv : vm_inv roots (put st2 t (v mod 512) (cow_entry pte f)).
Proof.
  destruct cow_copy as (Hinv1 & Hfr0 & Hfr1 & Ha1 & Hz & Hq & Hleaf & Hdata & _).
  destruct cow_owns as (Ho & Hmo & Hne & Hae & Hn). destruct cow_table as [Ht1 Hl1]. destruct cow_drop as [Hi2 Hq2].
  assert (Hpte : is_u64 pte). { unfold pte, leaf. destruct Ht as (_ & _ & ->). apply Hinv. }
  destruct (cow_entry_spec pte f Hpte (proj1 Hfr0)) as (E1 & E2 & E3 & E4 & E5 & E6 & E7 & E8 & E9).
  set (e := cow_entry pte f) in *.
  assert (Hmapf : ∀ g x, mapped roots m' g x ↔ mapped roots (vmem st) g x) by (intros; by apply mapped_same).
  assert (Hdev : flag pte VMM_FLAG_DEVICE = false) by (unfold owns_frame in Ho; by zbool).
  assert (Hown : owns_frame e = true).
  { unfold owns_frame. by rewrite has_frame_bits, <- present_bit, E3, Hpr, E6, Hdev. }
  assert (Hne_f : ∀ g, names e g = true ↔ g = f) by (intros g; rewrite names_owns, E2; split; [intros [_ ->]|intros ->]; done).
  assert (Hnp : ∀ g, names pte g = true ↔ g = frame_of pte) by (intros g; rewrite names_owns; split; [intros [_ ->]|intros ->]; done).
  assert (Hf2 : fa_ref (vfr st2) f = 1) by (rewrite Hq2; destruct (Z.eqb_spec f (frame_of pte)); [congruence|done]).
  apply (set_leaf_inv roots st1 _ r v t e Hinv1 Hr Hv Ht1); try done.
  - intros _. split; [unfold wx; by rewrite E4, E7, Hnx|]. rewrite E9. by apply (fw_ok _ _ (vi_frames _ _ Hinv)).
  - by rewrite E6, Hdev.
  - intros _ r' p. rewrite E2. apply Hfr1.
  - intros _ _. by rewrite E2.
  - intros r' p u Hu. cbn [put set_mem vfr]. rewrite Hq2. destruct (Z.eqb_spec u (frame_of pte)) as [->|].
    + exfalso. eapply (fw_data _ _ (vi_frames _ _ Hinv1) (frame_of pte) (r, v)); [|done]. by apply Hmapf.
    + by apply (tw_ref _ _ (vi_tabs _ _ Hinv1) r' p).
  - intros g n Hc Hle. cbn [st1 vmem] in Hc |- *. rewrite Hl1. cbn [put set_mem vfr] in *. rewrite Hq2.
    change (vfr st1) with a in Hle. destruct (Z.eqb_spec g (frame_of pte)) as [->|Hg].
    + rewrite (proj2 (Hnp _) eq_refl). rewrite Hae in Hle.
      destruct (names e (frame_of pte)) eqn:En; [by apply Hne_f in En|]. simpl. unfold ref_dropped.
      destruct (Z.eqb_spec (fa_ref (vfr st) (frame_of pte)) REF_MAX); lia.
    + destruct (names pte g) eqn:En; [by apply Hnp in En|]. destruct (decide (g = f)) as [->|Hgf].
      * rewrite (proj2 (Hne_f _) eq_refl), Ha1. left. destruct Hc as (l & _ & Hl & <-).
        destruct l as [|x l]; [simpl; lia|]. exfalso. apply (proj2 (proj2 Hfr1) x), Hl. by left.
      * destruct (names e g) eqn:En'; [by apply Hne_f in En'|]. simpl. lia.
  - intros g H1 Hn0 _ _. cbn [put set_mem vfr]. rewrite Hq2. cbn [st1 vmem] in Hn0. rewrite Hl1 in Hn0.
    destruct (Z.eqb_spec g (frame_of pte)) as [->|]; [|done]. rewrite (proj2 (Hnp _) eq_refl) in Hn0. done.
  - intros g x Hge _ Hx. apply Hne_f in Hge as ->. exfalso. by apply (proj2 (proj2 Hfr1) x).
Qed.

Lemma cow_done st' : vmem st' = vmem (put st2 t (v mod 512) (cow_entry pte f)) → vfr st' = vfr st2 →
  same_data roots st st' ∧ copied roots st st' r v.
Proof.
  intros Hmem Hfr. destruct cow_copy as (Hinv1 & Hfr0 & Hfr1 & Ha1 & Hz & Hq & Hleaf & Hdata & Htab).
  destruct cow_drop as [_ Hq2]. destruct cow_owns as (Ho & Hmo & Hne & _). destruct cow_table as [Ht1 Hl1].
  pose proof (Z.mod_pos_bound v 512 ltac:(lia)) as Hm.
  pose proof (put_data roots st1 r _ t (v mod 512) (cow_entry pte f) (vi_tabs _ _ Hinv1) Ht1 Hm) as Hd2.
  assert (Hq2f : fa_ref (vfr st2) f = 1) by (rewrite Hq2; destruct (Z.eqb_spec f (frame_of pte)); [congruence|done]).
  unfold same_data, copied, only_leaf. rewrite Hmem, Hfr. split.
  - intros q x Hqn Hnt Hx. assert (q ≠ f) by congruence.
    change (vmem (put st1 t (v mod 512) (cow_entry pte f)) x = vmem st x).
    rewrite (Hd2 q x); [by apply (Hdata q)|change (vfr st1) with a; by rewrite Hq| |done].
    intros r' p Hp. apply (Hnt r' p). by apply Htab.
  - exists f. split_and!; try done; try apply Hfr0.
    + intros r' v' Hr' Hv'.
      change (leaf (vmem (put st1 t (v mod 512) (cow_entry pte f))) r' v' =
        if (r' =? r) && (v' =? v) then cow_entry pte f else leaf (vmem st) r' v').
      rewrite (put_only_leaf roots st1 r v t _ (vi_tabs _ _ Hinv1) Ht1 Hv r' v' Hr' Hv'). by rewrite Hleaf.
    + intros o Ho'. assert (Hx : in_page f (f + o) = true) by (unfold in_page; lia).
      change (vmem (put st1 t (v mod 512) (cow_entry pte f)) (f + o) = vmem st (frame_of pte + o)).
      rewrite (Hd2 f (f + o)); [|change (vfr st1) with a; by rewrite Ha1|apply Hfr1|done].
      simpl. unfold m', copy_page. rewrite Hx. f_equal. lia.
    + intros q Hqf. rewrite Hq2. fold pte. destruct (Z.eqb_spec q (frame_of pte)) as [->|]; [done|]. by apply Hq.
Qed.
End cow.

Lemma cow_spec roots st r vmas addr st' rc :
  vm_inv roots st → r ∈ roots →
  let v := addr / 4096 in
  (write_region vmas v = true → is_present (leaf (vmem st) r v) = true →
   flag (leaf (vmem st) r v) VMM_FLAG_NOEXEC = true) →
  vmm_cow_fault st (Some (r, vmas)) (Some r) addr = (st', rc) →
  vm_inv roots st' ∧ same_data roots st st' ∧
  (rc = 0 ∧ USER_CODE_BASE ≤ addr < USER_STACK_TOP ∧ write_region vmas v = true ∧
     is_present (leaf (vmem st) r v) = true ∧ flag (leaf (vmem st) r v) VMM_FLAG_COW = true ∧
     copied roots st st' r v ∧ flushes st' = flushes st ++ [(r, v * 4096, 1)] ∨
   rc = -1 ∧ st' = st).
Proof.
  intros Hinv Hr v Hnx. unfold vmm_cow_fault.
  destruct ((addr <? USER_CODE_BASE) || (USER_STACK_TOP <=? addr)) eqn:Ew.
  { intros [= <- <-]. split_and!; try done. by right. }
  zbool. assert (Ha : 0 ≤ addr < VMM_USER_TOP) by (unfold USER_CODE_BASE, USER_STACK_TOP, VMM_USER_TOP in *; lia).
  destruct (fault_page addr Ha) as [-> Hv]. fold v in Hv |- *.
  destruct (get_pt_space st r (v * 4096) false 0) as [st1 res] eqn:Eg.
  destruct (find_leaf roots st r v st1 res Hinv Hr Hv Eg) as [-> Hres].
  destruct res as [t|]; [|intros [= <- <-]; split_and!; try done; by right].
  destruct Hres as [Ht He]. destruct (page_indices v Hv) as [_ ->]. unfold entry. rewrite He.
  set (pte := leaf (vmem st) r v) in *.
  destruct (is_present pte) eqn:Epr; cbn [negb orb]; [|intros [= <- <-]; split_and!; try done; by right].
  destruct (flag pte VMM_FLAG_COW) eqn:Ec; cbn [negb]; [|intros [= <- <-]; split_and!; try done; by right].
  rewrite Z.eqb_refl. fold (write_region vmas v).
  destruct (write_region vmas v) eqn:Ewr; cbn [negb]; [|intros [= <- <-]; split_and!; try done; by right].
  specialize (Hnx eq_refl eq_refl). unfold pmm_alloc. destruct (fa_alloc (vfr st)) as [a f] eqn:Ea.
  destruct (Z.eqb_spec f 0) as [->|Hf].
  { destruct (fa_alloc_law (vfr st) a 0 (tw_inv _ _ (vi_tabs _ _ Hinv)) Ea) as [[_ ->]|(Hi & Hz & Hq)].
    - intros [= <- <-]. destruct st. split_and!; try done. by right.
    - exfalso. pose proof (fa_ref_page a 0 Hi ltac:(by rewrite Hq)). lia. }
  assert (Hpf : page_addr f) by (apply (fa_alloc_page (vfr st) a); [apply Hinv|done..]).
  rewrite page_addr_mask by done. rewrite pmm_drop_eq. unfold set_mem at 2, set_fr at 2. cbn [vmem vfr kspace flushes set_fr].
  fold (frame_of pte). fold (cow_entry pte f).
  pose proof (cow_inv roots st r v t a f Hinv Hr Hv Ht Epr Ec Hnx Ea Hf) as Hinv'.
  intros [= <- <-]. set (st3 := tlb_shootdown _ _ _ _).
  destruct (cow_done roots st r v t a f Hinv Hr Hv Ht Epr Ec Ea Hf st3 eq_refl eq_refl) as [Hdata Hcopy].
  split_and!; [|done|left; split_and!; (done || lia)].
  destruct Hinv' as [[] []]. constructor; constructor; done.
Qed.
End fault.
