(* ===== verification/VmSpace.v ===== *)
(** * Address spaces

    Models the life of a user address space in [src/mm/vmm.c]:
    [vmm_space_create_user], the copy-on-write duplication [vmm_fork_space],
    [vmm_space_destroy], and the walks [vmm_count_user_pages] and
    [vmm_harden_user_space].  [kmalloc_ok] says whether the small descriptor
    of a new space could be allocated. *)

From S2P Require Import Prelude Vma Frames Vmm.

Definition pdpt_lo : Z := Z.land (Z.shiftr USER_CODE_BASE 30) 0x1FF.
Definition pdpt_hi : Z := Z.land (Z.shiftr USER_STACK_TOP 30) 0x1FF.
Definition PDPT_N : nat := Z.to_nat (pdpt_hi - pdpt_lo + 1).

Section space.
Context {A : Type} {ops : FrameOps A}.
Abbreviation state := (vm A).

Definition strip_user (root : Z) (i : Z) (st : state) : state :=
  let e := entry st root i in
  if is_present e && flag e VMM_FLAG_USER then put st root i (Z.land e (not64 VMM_FLAG_USER)) else st.

Definition vmm_harden_user_space (st : state) (space : option Z) : state :=
  match space with
  | None => st
  | Some root => zfor 256 256 (strip_user (Z.land root ADDRESS_MASK)) st
  end.

(** The loop that shares the kernel half, without user access. *)
Definition copy_kernel (old new : Z) (i : Z) (st : state) : state :=
  let e := entry st old i in
  if is_present e then put st new i (Z.land e (not64 VMM_FLAG_USER)) else st.

Definition vmm_space_create_user (st : state) (kmalloc_ok : bool) : state * option Z :=
  let '(st1, pml4_new) := pmm_alloc st in
  if pml4_new =? 0 then (st1, None)
  else
    let st2 := zero_frame st1 pml4_new in
    let old_pml4 := Z.land (kspace st2) ADDRESS_MASK in
    let new_pml4 := Z.land pml4_new ADDRESS_MASK in
    let st3 := zfor 256 256 (copy_kernel old_pml4 new_pml4) st2 in
    let uidx := Z.land (Z.shiftr USER_CODE_BASE 39) 0x1FF in
    let '(st4, priv) := pmm_alloc st3 in
    if priv =? 0 then (pmm_free st4 pml4_new, None)
    else
      let st5 := zero_frame st4 priv in
      let priv_phys := Z.land priv ADDRESS_MASK in
      let st6 := put st5 new_pml4 uidx
                   (Z.lor (Z.lor (Z.lor priv_phys VMM_FLAG_PRESENT) VMM_FLAG_RW) VMM_FLAG_USER) in
      if negb kmalloc_ok then (st6, None)
      else (zfor 256 256 (strip_user new_pml4) st6, Some new_pml4).

(** [for (pi) for (di) for (ti)] over the user window of [root], with the
    [continue]s of the three walks; [leaf_body pi di ti pt]. *)
Definition walk_user {S : Type} (mem_of : S → Z → Z) (root : Z)
    (leaf_body : Z → Z → Z → Z → S → S) (after_pt : Z → S → S) (after_pdt : Z → Z → Z → S → S)
    (after_pdpt : Z → S → S) (s : S) : S :=
  let pml4e := mem_of s (slot (Z.land root ADDRESS_MASK) 0) in
  if is_present pml4e then
    let pdpt := Z.land pml4e ADDRESS_MASK in
    after_pdpt pdpt
      (zfor PDPT_N pdpt_lo (λ pi s,
         let pdpte := mem_of s (slot pdpt pi) in
         if negb (is_present pdpte) then s
         else
           let pdt := Z.land pdpte ADDRESS_MASK in
           after_pdt pdpt pi pdt
             (zfor 512 0 (λ di s,
                let pdte := mem_of s (slot pdt di) in
                if negb (is_present pdte) then s
                else if flag pdte VMM_FLAG_PS then s
                else
                  let pt := Z.land pdte ADDRESS_MASK in
                  after_pt pt (zfor 512 0 (λ ti s, leaf_body pi di ti pt s) s)) s)) s)
  else s.

(** One leaf of [vmm_space_destroy]. *)
Definition destroy_leaf (pi di ti pt : Z) (st : state) : state :=
  let pte := entry st pt ti in
  if negb (vmm_pte_has_frame pte) then st
  else if flag pte VMM_FLAG_DEVICE then st
  else pmm_drop st (Z.land pte ADDRESS_MASK).

Definition vmm_space_destroy (st : state) (space : option Z) : state * Z :=
  match space with
  | None => (st, -1)
  | Some root =>
      let st1 := walk_user vmem root destroy_leaf
                   (λ pt st, pmm_free st pt)
                   (λ pdpt pi pdt st, put (pmm_free st pdt) pdpt pi 0)
                   (λ pdpt st, pmm_free st pdpt) st in
      (pmm_free st1 (Z.land root ADDRESS_MASK), 0)
  end.

Definition vmm_count_user_pages (st : state) (space : option Z) : Z :=
  match space with
  | None => 0
  | Some root =>
      (walk_user fst root
         (λ pi di ti pt s, if vmm_pte_has_frame (s.1 (slot pt ti)) then (s.1, u32 (s.2 + 1)) else s)
         (λ _ s, s) (λ _ _ _ s, s) (λ _ s, s) (vmem st, 0)).2
  end.

(** One leaf of [vmm_fork_space]; [failed] stands for the jump to [out]. *)
Definition fork_leaf (child : Z) (pi di ti pt : Z) (s : state * bool) : state * bool :=
  let '(st, failed) := s in
  if failed then s
  else
    let pte := entry st pt ti in
    if negb (vmm_pte_has_frame pte) then s
    else
      let va := Z.lor (Z.lor (Z.shiftl pi 30) (Z.shiftl di 21)) (Z.shiftl ti 12) in
      let phys := Z.land pte ADDRESS_MASK in
      if flag pte VMM_FLAG_DEVICE then
        let '(st1, cpt) := get_pt_space st child va true (Z.lor VMM_FLAG_USER VMM_FLAG_RW) in
        match cpt with
        | Some cpt => (put st1 cpt ti pte, false)
        | None => (st1, false)
        end
      else if negb (is_present pte) then
        let '(st1, cpt) := get_pt_space st child va true (Z.lor VMM_FLAG_USER VMM_FLAG_RW) in
        match cpt with
        | None => (st1, true)
        | Some cpt =>
            let '(st2, rc) := pmm_share st1 phys in
            if negb (rc =? 0) then (st2, true) else (put st2 cpt ti pte, false)
        end
      else
        let flags := Z.land (Z.land pte (not64 ADDRESS_MASK)) (not64 VMM_FLAG_PRESENT) in
        let '(st1, rc) := pmm_share st phys in
        if negb (rc =? 0) then (st1, true)
        else
          let cow := Z.lor (Z.land flags (not64 VMM_FLAG_RW)) VMM_FLAG_COW in
          let rw := flag pte VMM_FLAG_RW in
          let st2 := if rw then put st1 pt ti (Z.lor (Z.lor phys cow) VMM_FLAG_PRESENT) else st1 in
          let childflags := if rw then cow else flags in
          let '(st3, rc) := vmm_map_in_space st2 (Some child) va phys childflags in
          if negb (rc =? 0) then ((pmm_unref st3 phys).1, false) else (st3, false).

Definition vmm_fork_space (st : state) (parent : option Z) (kmalloc_ok : bool) : state * option Z :=
  match parent with
  | None => (st, None)
  | Some root =>
      match vmm_space_create_user st kmalloc_ok with
      | (st1, None) => (st1, None)
      | (st1, Some child) =>
          let '(st2, failed) :=
            walk_user (λ s, vmem s.1) root (fork_leaf child) (λ _ s, s) (λ _ _ _ s, s) (λ _ s, s) (st1, false) in
          let st3 := tlb_shootdown st2 root 0 0 in
          if (failed : bool) then ((vmm_space_destroy st3 (Some child)).1, None)
          else (st3, Some child)
      end
  end.
End space.
