(* ===== verification/VmWalk.v ===== *)
(** * The walk over the user window

    The induction principle of the three nested loops that [vmm_fork_space],
    [vmm_space_destroy] and [vmm_count_user_pages] share, and the page count
    as its first use. *)

From S2P Require Import Prelude Vma Frames Vmm VmmWf VmmInv VmSpace.

(** The window of the walks, in pages: 4 GiB up to 16 GiB. *)
Definition W_LO : Z := 1048576.
Definition W_HI : Z := 4194304.

Definition page_of_indices (pi di ti : Z) : Z := pi * 2 ^ 18 + di * 2 ^ 9 + ti.

Lemma window_path pi di ti : 4 ≤ pi < 16 → 0 ≤ di < 512 → 0 ≤ ti < 512 →
  let v := page_of_indices pi di ti in
  W_LO ≤ v < W_HI ∧ upage v ∧ path_of v = [0; pi; di] ∧ v mod 512 = ti ∧
  v / 2 ^ 18 = pi ∧ v / 2 ^ 9 mod 512 = di.
Proof.
  intros Hpi Hdi Hti v. unfold v, page_of_indices, W_LO, W_HI, upage, USER_PAGES, path_of.
  change (2 ^ 27) with 134217728. change (2 ^ 18) with 262144. change (2 ^ 9) with 512. change (2 ^ 35) with 34359738368.
  assert (H1 : (pi * 262144 + di * 512 + ti) / 134217728 = 0) by (apply Z.div_small; lia).
  assert (H2 : (pi * 262144 + di * 512 + ti) / 262144 = pi) by (Z.to_euclidean_division_equations; lia).
  assert (H3 : (pi * 262144 + di * 512 + ti) / 512 mod 512 = di) by (Z.to_euclidean_division_equations; lia).
  assert (H4 : (pi * 262144 + di * 512 + ti) mod 512 = ti) by (Z.to_euclidean_division_equations; lia).
  rewrite H1, H2, H3, H4. split_and!; try lia. rewrite Z.mod_small by lia. done.
Qed.

Lemma lor_shiftl a n b : 0 ≤ n → 0 ≤ b < 2 ^ n → Z.lor (Z.shiftl a n) b = a * 2 ^ n + b.
Proof.
  intros Hn Hb. apply Z.bits_inj'. intros i Hi.
  replace (a * 2 ^ n + b) with (b + 2 ^ n * a) by lia. rewrite testbit_concat, Z.lor_spec, Z.shiftl_spec by done.
  destruct (Z.ltb_spec i n).
  - by rewrite Z.testbit_neg_r by lia.
  - rewrite (testbit_high n b) by done. by rewrite orb_false_r.
Qed.

(** The address that [vmm_fork_space] puts together. *)
Lemma fork_va pi di ti : 0 ≤ pi → 0 ≤ di < 512 → 0 ≤ ti < 512 →
  Z.lor (Z.lor (Z.shiftl pi 30) (Z.shiftl di 21)) (Z.shiftl ti 12) = page_of_indices pi di ti * 4096.
Proof.
  intros Hpi Hdi Hti. rewrite <- Z.lor_assoc, (lor_shiftl di 21).
  2,3: rewrite ?Z.shiftl_mul_pow2 by lia; lia.
  rewrite lor_shiftl; rewrite ?Z.shiftl_mul_pow2 by lia; [|lia|lia].
  unfold page_of_indices. lia.
Qed.

Section walk.
Context {S : Type} (mem_of : S → Z → Z) (root : Z) (body : Z → Z → Z → Z → S → S) (Inv : Z → S → Prop).
Hypothesis Hroot : Z.land root ADDRESS_MASK = root.

Definition tables_kept (s s' : S) : Prop :=
  ∀ p t, upath p → tbl (mem_of s) root p = Some t → tbl (mem_of s') root p = Some t.

Hypothesis Hleaf : ∀ pi di ti s pt, 4 ≤ pi < 16 → 0 ≤ di < 512 → 0 ≤ ti < 512 →
  Inv (page_of_indices pi di ti) s → tbl (mem_of s) root [0; pi; di] = Some pt →
  Inv (page_of_indices pi di ti + 1) (body pi di ti pt s) ∧ tables_kept s (body pi di ti pt s).
Hypothesis Hskip : ∀ v s, W_LO ≤ v < W_HI → Inv v s → tbl (mem_of s) root (path_of v) = None → Inv (v + 1) s.
Hypothesis Hps : ∀ v s pi di pdt, Inv v s → 4 ≤ pi < 16 → 0 ≤ di < 512 → tbl (mem_of s) root [0; pi] = Some pdt →
  is_present (mem_of s (slot pdt di)) = true → flag (mem_of s (slot pdt di)) VMM_FLAG_PS = false.

Lemma skip_many n v s : W_LO ≤ v → v + Z.of_nat n ≤ W_HI → Inv v s →
  (∀ w, v ≤ w < v + Z.of_nat n → tbl (mem_of s) root (path_of w) = None) → Inv (v + Z.of_nat n) s.
Proof.
  revert v. induction n as [|n IH]; intros v Hlo Hhi Hi Hn.
  - by replace (v + Z.of_nat 0) with v by lia.
  - replace (v + Z.of_nat (Datatypes.S n)) with (v + 1 + Z.of_nat n) by lia. apply IH; [lia|lia| |].
    + apply Hskip; [lia|done|]. apply Hn. lia.
    + intros w Hw. apply Hn. lia.
Qed.

Lemma upath2 pi : 4 ≤ pi < 16 → upath [0; pi].
Proof. intros. split_and!; [simpl; lia | repeat constructor; lia | lia]. Qed.
Lemma upath3 pi di : 4 ≤ pi < 16 → 0 ≤ di < 512 → upath [0; pi; di].
Proof. intros. split_and!; [simpl; lia | repeat constructor; lia | lia]. Qed.

Lemma walk_pt pi di pt s : 4 ≤ pi < 16 → 0 ≤ di < 512 →
  Inv (page_of_indices pi di 0) s → tbl (mem_of s) root [0; pi; di] = Some pt →
  let s' := zfor 512 0 (λ ti s, body pi di ti pt s) s in
  Inv (page_of_indices pi (di + 1) 0) s' ∧ tables_kept s s'.
Proof.
  intros Hpi Hdi Hi Ht s'. unfold s'.
  replace (page_of_indices pi (di + 1) 0) with (page_of_indices pi di (0 + Z.of_nat 512))
    by (unfold page_of_indices; lia).
  apply (zfor_inv (λ ti s', Inv (page_of_indices pi di ti) s' ∧ tables_kept s s')); [by split; [|intros ? ?]|].
  intros ti s1 Hti [H1 Hk]. pose proof (Hk _ _ (upath3 pi di Hpi Hdi) Ht) as Ht1.
  destruct (Hleaf pi di ti s1 pt Hpi Hdi ltac:(lia) H1 Ht1) as [H2 Hk2]. split.
  - replace (page_of_indices pi di (ti + 1)) with (page_of_indices pi di ti + 1); [done|].
    unfold page_of_indices. lia.
  - intros p t Hp E. apply Hk2; [done|]. by apply Hk.
Qed.

Lemma walk_pdt pi pdt s : 4 ≤ pi < 16 →
  Inv (page_of_indices pi 0 0) s → tbl (mem_of s) root [0; pi] = Some pdt →
  let s' := zfor 512 0 (λ di s,
              let pdte := mem_of s (slot pdt di) in
              if negb (is_present pdte) then s
              else if flag pdte VMM_FLAG_PS then s
              else let pt := Z.land pdte ADDRESS_MASK in zfor 512 0 (λ ti s, body pi di ti pt s) s) s in
  Inv (page_of_indices (pi + 1) 0 0) s' ∧ tables_kept s s'.
Proof.
  intros Hpi Hi Ht s'. unfold s'.
  replace (page_of_indices (pi + 1) 0 0) with (page_of_indices pi (0 + Z.of_nat 512) 0)
    by (unfold page_of_indices; lia).
  apply (zfor_inv (λ di s', Inv (page_of_indices pi di 0) s' ∧ tables_kept s s')); [by split; [|intros ? ?]|].
  intros di s1 Hdi [H1 Hk]. cbv zeta. pose proof (Hk _ _ (upath2 pi Hpi) Ht) as Ht1.
  assert (Hpt : tbl (mem_of s1) root [0; pi; di] =
    if is_present (mem_of s1 (slot pdt di)) then Some (Z.land (mem_of s1 (slot pdt di)) ADDRESS_MASK) else None).
  { change [0; pi; di] with ([0; pi] ++ [di]). by rewrite tbl_snoc, Ht1. }
  destruct (is_present (mem_of s1 (slot pdt di))) eqn:Epr; cbn [negb].
  - rewrite (Hps _ s1 pi di pdt H1 Hpi ltac:(lia) Ht1 Epr).
    destruct (walk_pt pi di _ s1 Hpi ltac:(lia) H1 Hpt) as [H2 Hk2]. split; [done|].
    intros p t Hp E. apply Hk2; [done|]. by apply Hk.
  - split; [|done].
    replace (page_of_indices pi (di + 1) 0) with (page_of_indices pi di 0 + Z.of_nat 512)
      by (unfold page_of_indices; lia).
    pose proof (window_path pi di 0 Hpi ltac:(lia) ltac:(lia)) as (Hw & _).
    apply skip_many; [lia | unfold page_of_indices, W_HI in *; lia | done |].
    intros w Hwr. pose proof (window_path pi di (w - page_of_indices pi di 0) Hpi ltac:(lia) ltac:(lia)) as (_ & _ & Hp & _).
    replace (page_of_indices pi di (w - page_of_indices pi di 0)) with w in Hp by (unfold page_of_indices; lia).
    by rewrite Hp.
Qed.

Lemma walk_user_inv s : Inv W_LO s →
  Inv W_HI (walk_user mem_of root body (λ _ s, s) (λ _ _ _ s, s) (λ _ s, s) s).
Proof.
  intros Hi. unfold walk_user. rewrite Hroot.
  assert (Hcov : ∀ v, W_LO ≤ v < W_HI → ∃ pi di ti, 4 ≤ pi < 16 ∧ 0 ≤ di < 512 ∧ 0 ≤ ti < 512 ∧
    v = page_of_indices pi di ti).
  { intros v Hv. exists (v / 262144), (v / 512 mod 512), (v mod 512). unfold W_LO, W_HI, page_of_indices in *.
    change (2 ^ 18) with 262144. change (2 ^ 9) with 512. Z.to_euclidean_division_equations; lia. }
  destruct (is_present (mem_of s (slot root 0))) eqn:E4.
  2: { replace W_HI with (W_LO + Z.of_nat (Z.to_nat (W_HI - W_LO))) by (rewrite Z2Nat.id; unfold W_LO, W_HI; lia).
       apply skip_many; [lia | unfold W_LO, W_HI; lia | done |]. intros w Hw.
       destruct (Hcov w ltac:(unfold W_LO, W_HI in *; lia)) as (pi & di & ti & H1 & H2 & H3 & ->).
       pose proof (window_path pi di ti H1 H2 H3) as (_ & _ & -> & _). simpl. by rewrite E4. }
  set (pdpt := Z.land _ _).
  assert (Ht : tbl (mem_of s) root [0] = Some pdpt) by (simpl; by rewrite E4).
  change W_HI with (page_of_indices (pdpt_lo + Z.of_nat PDPT_N) 0 0).
  refine (proj1 (zfor_inv (λ pi s', Inv (page_of_indices pi 0 0) s' ∧ tables_kept s s') PDPT_N pdpt_lo _ s _ _)); [by split; [|intros ? ?]|].
  intros pi s1 Hpi [H1 Hk]. change (4 ≤ pi < 4 + 12) in Hpi. cbv zeta.
  assert (Ht1 : tbl (mem_of s1) root [0] = Some pdpt).
  { apply Hk; [|done]. split_and!; [simpl; lia | repeat constructor; lia | lia]. }
  assert (Hpdt : tbl (mem_of s1) root [0; pi] =
    if is_present (mem_of s1 (slot pdpt pi)) then Some (Z.land (mem_of s1 (slot pdpt pi)) ADDRESS_MASK) else None).
  { change [0; pi] with ([0] ++ [pi]). by rewrite tbl_snoc, Ht1. }
  destruct (is_present (mem_of s1 (slot pdpt pi))) eqn:Epr; cbn [negb].
  - destruct (walk_pdt pi _ s1 ltac:(lia) H1 Hpdt) as [H2 Hk2]. split; [done|].
    intros p t Hp E. apply Hk2; [done|]. by apply Hk.
  - split; [|done].
    replace (page_of_indices (pi + 1) 0 0) with (page_of_indices pi 0 0 + Z.of_nat (Z.to_nat 262144))
      by (unfold page_of_indices; lia).
    pose proof (window_path pi 0 0 ltac:(lia) ltac:(lia) ltac:(lia)) as (Hw & _).
    apply skip_many; [lia | unfold page_of_indices, W_HI in *; lia | done |].
    intros w Hwr. destruct (Hcov w ltac:(unfold page_of_indices, W_LO, W_HI in *; lia)) as (pi' & di & ti & G1 & G2 & G3 & ->).
    pose proof (window_path pi' di ti G1 G2 G3) as (_ & _ & -> & _).
    assert (pi' = pi) as -> by (unfold page_of_indices in *; lia).
    change [0; pi; di] with ([0; pi] ++ [di]). by rewrite tbl_snoc, Hpdt.
Qed.
End walk.

(** ** The page count *)

(** The pages below [v] in the window of [root] that own a frame. *)
Definition pages_below (m : Z → Z) (root v : Z) : Z :=
  zcount (λ k, vmm_pte_has_frame (leaf m root (W_LO + k))) (Z.to_nat (v - W_LO)).

Lemma pages_below_step m root v : W_LO ≤ v →
  pages_below m root (v + 1) = pages_below m root v + b2z (vmm_pte_has_frame (leaf m root v)).
Proof.
  intros Hv. unfold pages_below. replace (Z.to_nat (v + 1 - W_LO)) with (S (Z.to_nat (v - W_LO))) by lia.
  cbn [zcount]. f_equal. f_equal. f_equal. f_equal. lia.
Qed.

Lemma pages_below_range m root v : W_LO ≤ v ≤ W_HI → 0 ≤ pages_below m root v ≤ W_HI - W_LO.
Proof.
  intros Hv. unfold pages_below. pose proof (zcount_bound
    (λ k, vmm_pte_has_frame (leaf m root (W_LO + k))) (Z.to_nat (v - W_LO))). lia.
Qed.

Lemma pages_below_0 m root : pages_below m root W_LO = 0.
Proof. unfold pages_below. by rewrite Z.sub_diag. Qed.

Lemma pages_below_ext m m' root v :
  (∀ w, W_LO ≤ w < v → leaf m' root w = leaf m root w) → pages_below m' root v = pages_below m root v.
Proof. intros H. apply zcount_ext. intros k Hk. rewrite H by lia. done. Qed.

Lemma pages_below_mono m root v w : W_LO ≤ v ≤ w → pages_below m root v ≤ pages_below m root w.
Proof.
  intros Hv. unfold pages_below. replace (Z.to_nat (w - W_LO)) with (Z.to_nat (v - W_LO) + Z.to_nat (w - v))%nat by lia.
  generalize (Z.to_nat (w - v)) as k. intros k. induction k as [|k IH]; [by rewrite Nat.add_0_r|].
  rewrite Nat.add_succ_r. cbn [zcount]. destruct (vmm_pte_has_frame _); simpl; lia.
Qed.

Section count.
Context {A : Type} {ops : FrameOps A} {laws : FrameLaws A}.

Lemma window_small roots (st : vm A) root pi di pdt : tabs_wf roots st → root ∈ roots →
  4 ≤ pi < 16 → 0 ≤ di < 512 → tbl (vmem st) root [0; pi] = Some pdt →
  is_present (vmem st (slot pdt di)) = true → flag (vmem st (slot pdt di)) VMM_FLAG_PS = false.
Proof.
  intros Hw Hr Hpi Hdi Ht Hp. apply (tw_small _ _ Hw root [0; pi]); [|by apply (upath3 pi di)|done].
  split_and!; [done | by apply upath2 | done].
Qed.

Lemma count_user_spec roots (st : vm A) root : tabs_wf roots st → root ∈ roots →
  vmm_count_user_pages st (Some root) = pages_below (vmem st) root W_HI.
Proof.
  intros Hw Hr. unfold vmm_count_user_pages.
  pose proof (table_page _ _ _ _ _ Hw (root_table _ _ _ Hw Hr)) as Hp.
  set (body := λ (pi di ti pt : Z) (s : (Z → Z) * Z),
    if vmm_pte_has_frame (s.1 (slot pt ti)) then (s.1, u32 (s.2 + 1)) else s).
  pose proof (walk_user_inv fst root body
    (λ v s, W_LO ≤ v ≤ W_HI ∧ s.1 = vmem st ∧ s.2 = pages_below (vmem st) root v)) as Hwalk.
  refine (proj2 (proj2 (Hwalk _ _ _ _ (vmem st, 0) _))); clear Hwalk.
  - by apply page_addr_mask.
  - intros pi di ti s pt Hpi Hdi Hti (Hv & Hm & Hc) Ht.
    destruct (window_path pi di ti Hpi Hdi Hti) as (Hw' & Hu & Hpath & Hmod & _).
    set (v := page_of_indices pi di ti) in *.
    assert (Hl : s.1 (slot pt ti) = leaf (vmem st) root v).
    { unfold leaf. rewrite Hpath, Hmod, <- Hm. by rewrite Ht. }
    pose proof (pages_below_range (vmem st) root v ltac:(lia)).
    rewrite pages_below_step by lia. unfold body. rewrite Hl.
    destruct (vmm_pte_has_frame (leaf (vmem st) root v)); simpl.
    + split; [|by intros p t]. split_and!; [lia|lia|done|]. rewrite Hc. apply u32_small.
      unfold is_u32, W_LO, W_HI in *. lia.
    + split; [|by intros p t]. split_and!; [lia|lia|done|]. lia.
  - intros v s Hv (_ & Hm & Hc) Ht. split_and!; [lia|lia|done|]. rewrite pages_below_step, <- Hc by lia.
    unfold leaf. rewrite <- Hm, Ht. change (vmm_pte_has_frame 0) with false. simpl. lia.
  - intros v s pi di pdt (_ & Hm & _) Hpi Hdi Ht Hpr. rewrite Hm in *. by apply (window_small roots st root pi).
  - split_and!; [unfold W_LO, W_HI; lia..|done|]. unfold pages_below. by rewrite Z.sub_diag.
Qed.
End count.
