(* ===== verification/VmCreate.v ===== *)
(** * Creating an address space

    [vmm_space_create_user] yields an empty user half of its own and the
    kernel half of the kernel's tables without user access, and disturbs no
    other space. *)

From S2P Require Import Prelude Vma Frames Vmm VmmWf VmmInv VmmOps VmmFault VmSpace VmWalk.

Section create.
Context {A : Type} {ops : FrameOps A} {laws : FrameLaws A}.
Abbreviation state := (vm A).

(** ** The set of spaces grows and shrinks *)

Lemma table_of_cons r0 roots m r p t :
  table_of (r0 :: roots) m r p t ↔ (r = r0 ∧ upath p ∧ tbl m r p = Some t) ∨ table_of roots m r p t.
Proof. unfold table_of. rewrite elem_of_cons. naive_solver. Qed.

Lemma mapped_cons r0 roots m f x :
  mapped (r0 :: roots) m f x ↔ (x.1 = r0 ∧ upage x.2 ∧ names (leaf m x.1 x.2) f = true) ∨ mapped roots m f x.
Proof. unfold mapped. rewrite elem_of_cons. naive_solver. Qed.

(** A new root: a frame of its own whose user half is empty. *)
Lemma add_root roots (st : state) c :
  vm_inv roots st → fresh roots st c → fa_ref (vfr st) c = 1 →
  (∀ i, 0 ≤ i < 256 → is_present (vmem st (slot c i)) = false) →
  (∀ i, 256 ≤ i < 512 → is_present (vmem st (slot c i)) = true → flag (vmem st (slot c i)) VMM_FLAG_USER = false) →
  vm_inv (c :: roots) st ∧ (c ∉ roots) ∧ ∀ v, upage v → leaf (vmem st) c v = 0.
Proof.
  intros Hinv (Hpa & Hnt & Hnm) Hr Hlow Hhigh. pose proof Hinv as [Hw Hf].
  assert (Hc : c ∉ roots) by (intros Hin; by apply (Hnt c []), (root_table roots st c Hw)).
  assert (Htbl : ∀ p t, upath p → tbl (vmem st) c p = Some t → p = [] ∧ t = c).
  { intros [|i p] t (_ & Hi & Hlt) Ht; [by injection Ht|]. simpl in Ht. inversion Hi; subst.
    rewrite Hlow in Ht by lia. done. }
  assert (Hleaf : ∀ v, upage v → leaf (vmem st) c v = 0).
  { intros v Hv. unfold leaf. destruct (tbl (vmem st) c (path_of v)) as [t|] eqn:E; [|done].
    apply Htbl in E as [E _]; [done|]. by apply upath_of. }
  assert (Hmap : ∀ f x, mapped (c :: roots) (vmem st) f x ↔ mapped roots (vmem st) f x).
  { intros f x. rewrite mapped_cons. split; [|by right]. intros [(-> & Hv & Hn)|?]; [|done].
    by rewrite Hleaf in Hn. }
  split_and!; [|done|done]. constructor; constructor; try apply Hw.
  - intros r p t. rewrite table_of_cons. intros [(-> & Hp & Ht)|Ht]; [|by apply (tw_ref _ _ Hw r p)].
    by destruct (Htbl p t Hp Ht) as [_ ->].
  - intros r p r' p' t. rewrite !table_of_cons.
    intros [(-> & Hp & Ht)|Ht] [(-> & Hp' & Ht')|Ht'].
    + destruct (Htbl p t Hp Ht) as [-> ->], (Htbl p' c Hp' Ht') as [-> _]. done.
    + destruct (Htbl p t Hp Ht) as [_ ->]. by destruct (Hnt r' p').
    + destruct (Htbl p' t Hp' Ht') as [_ ->]. by destruct (Hnt r p).
    + by apply (tw_inj _ _ Hw r p r' p' t).
  - intros r p t i. rewrite table_of_cons. intros [(-> & Hp & Ht)|Ht] Hpi; [|by apply (tw_small _ _ Hw r p)].
    destruct (Htbl p t Hp Ht) as [-> ->]. destruct Hpi as (_ & Hi & Hlt). simpl in *. inversion Hi; subst.
    rewrite Hlow by lia. done.
  - intros f. destruct (fw_count _ _ Hf f) as (n & Hcn & Hn). exists n. split; [|done].
    destruct Hcn as (l & Hnd & Hl & Hz). exists l. split_and!; [done| |done]. intros x. by rewrite Hl, Hmap.
  - intros f x r p Hm%Hmap. rewrite table_of_cons. intros [(-> & Hp & Ht)|Ht]; [|by apply (fw_data _ _ Hf f x r p)].
    destruct (Htbl p f Hp Ht) as [_ ->]. by apply (Hnm x).
  - intros f x Hm%Hmap. by apply (fw_private _ _ Hf f x).
  - intros r v Hin Hv. apply elem_of_cons in Hin as [->|Hin]; [by rewrite Hleaf | by apply (fw_ok _ _ Hf)].
  - intros r v Hin Hv. apply elem_of_cons in Hin as [->|Hin]; [by rewrite Hleaf | by apply (fw_dev _ _ Hf)].
  - intros r i Hin Hi. apply elem_of_cons in Hin as [->|Hin]; [by apply Hhigh | by apply (fw_kernel _ _ Hf)].
Qed.

Lemma counted_filter roots m f n r0 :
  counted (r0 :: roots) m f n → r0 ∉ roots → ∃ n', counted roots m f n' ∧ n' ≤ n.
Proof.
  intros (l & Hnd & Hl & <-) Hr0. exists (zlen (filter (λ x, x.1 ≠ r0) l)). split.
  - exists (filter (λ x, x.1 ≠ r0) l). split_and!; [by apply NoDup_filter| |done].
    intros x. rewrite list_elem_of_filter, Hl, mapped_cons. split.
    + intros [Hne [(? & _)|?]]; [done|done].
    + intros Hm. split; [|by right]. intros He. destruct Hm as (Hin & _). by rewrite He in Hin.
  - pose proof (length_filter (λ x, x.1 ≠ r0) l). lia.
Qed.

(** Forgetting a space. *)
Lemma drop_root r0 roots (st : state) : vm_inv (r0 :: roots) st → r0 ∉ roots → vm_inv roots st.
Proof.
  intros [Hw Hf] Hr0.
  assert (Htab : ∀ r p t, table_of roots (vmem st) r p t → table_of (r0 :: roots) (vmem st) r p t)
    by (intros; apply table_of_cons; by right).
  assert (Hmap : ∀ f x, mapped roots (vmem st) f x → mapped (r0 :: roots) (vmem st) f x)
    by (intros; apply mapped_cons; by right).
  constructor; constructor; try apply Hw.
  - intros r p t Ht%Htab. by apply (tw_ref _ _ Hw r p).
  - intros r p r' p' t H1%Htab H2%Htab. by apply (tw_inj _ _ Hw r p r' p' t).
  - intros r p t i Ht%Htab. by apply (tw_small _ _ Hw r p).
  - intros f. destruct (fw_count _ _ Hf f) as (n & Hcn & Hn).
    destruct (counted_filter roots (vmem st) f n r0 Hcn Hr0) as (n' & Hc' & Hle). exists n'. split; [done|]. lia.
  - intros f x r p Hm%Hmap Ht%Htab. by apply (fw_data _ _ Hf f x r p).
  - intros f x Hm%Hmap. by apply (fw_private _ _ Hf f x).
  - intros r v Hin. apply (fw_ok _ _ Hf). by right.
  - intros r v Hin. apply (fw_dev _ _ Hf). by right.
  - intros r i Hin. apply (fw_kernel _ _ Hf). by right.
Qed.

(** ** The kernel half *)

(** The kernel's own space is one of the spaces. *)
Definition kernel_ok (roots : list Z) (st : state) : Prop := Z.land (kspace st) ADDRESS_MASK ∈ roots.

Definition kernel_entry (st : state) (i : Z) : Z := vmem st (slot (Z.land (kspace st) ADDRESS_MASK) i).

(** The PML4 of a new space after the copy of the kernel half. *)
Definition shared_entry (st : state) (i : Z) : Z :=
  if is_present (kernel_entry st i) then Z.land (kernel_entry st i) (not64 VMM_FLAG_USER) else 0.

Lemma no_user e : is_u64 e → flag (Z.land e (not64 VMM_FLAG_USER)) VMM_FLAG_USER = false ∧
  is_present (Z.land e (not64 VMM_FLAG_USER)) = is_present e.
Proof.
  intros He. autorewrite with secos_pte. rewrite !land_not_testbit by lia. const_bits.
  by rewrite andb_true_r, andb_false_r.
Qed.

Lemma copy_kernel_spec (st : state) a c :
  (4096 | c) → (4096 | Z.land (kspace st) ADDRESS_MASK) → c ≠ Z.land (kspace st) ADDRESS_MASK →
  let st2 := zero_frame (set_fr st a) c in
  let st3 := zfor 256 256 (copy_kernel (Z.land (kspace st) ADDRESS_MASK) c) st2 in
  vfr st3 = a ∧ kspace st3 = kspace st ∧ flushes st3 = flushes st ∧
  (∀ x, in_page c x = false → vmem st3 x = vmem st x) ∧
  (∀ x, in_page c x = true → vmem st3 x = 0 ∨ ∃ i, vmem st3 x = Z.land (kernel_entry st i) (not64 VMM_FLAG_USER)) ∧
  (∀ j, 0 ≤ j < 512 → vmem st3 (slot c j) = if 256 <=? j then shared_entry st j else 0).
Proof.
  intros Hc HK Hne st2. set (K := Z.land (kspace st) ADDRESS_MASK) in *.
  pose proof (zfor_inv (λ i (s : state), vfr s = a ∧ kspace s = kspace st ∧ flushes s = flushes st ∧
    (∀ x, in_page c x = false → vmem s x = vmem st x) ∧
    (∀ x, in_page c x = true → vmem s x = 0 ∨ ∃ j, vmem s x = Z.land (kernel_entry st j) (not64 VMM_FLAG_USER)) ∧
    (∀ j, 0 ≤ j < 512 → vmem s (slot c j) = if (256 <=? j) && (j <? i) then shared_entry st j else 0))
    256 256 (copy_kernel K c) st2) as Hloop.
  destruct Hloop as (H1 & H2 & H3 & H4 & H5 & H6).
  - split_and!; try done.
    + intros x Hx. simpl. unfold zero_page. by rewrite Hx.
    + intros x Hx. left. simpl. unfold zero_page. by rewrite Hx.
    + intros j Hj. simpl. unfold zero_page. rewrite in_page_slot, Z.eqb_refl by done.
      destruct (Z.leb_spec 256 j), (Z.ltb_spec j 256); (done || lia).
  - intros i s Hi (H1 & H2 & H3 & H4 & H5 & H6). unfold copy_kernel, entry.
    assert (He : vmem s (slot K i) = kernel_entry st i).
    { rewrite H4; [done|]. rewrite in_page_slot by (done || lia). destruct (Z.eqb_spec K c); [congruence|done]. }
    rewrite He. assert (Hsh : is_present (kernel_entry st i) = true →
      shared_entry st i = Z.land (kernel_entry st i) (not64 VMM_FLAG_USER)) by (intros E; unfold shared_entry; by rewrite E).
    destruct (is_present (kernel_entry st i)) eqn:Ep.
    + split_and!; try done; simpl; unfold wr.
      * intros x Hx. destruct (Z.eqb_spec x (slot c i)) as [->|]; [|by apply H4].
        rewrite in_page_slot, Z.eqb_refl in Hx by (done || lia). done.
      * intros x Hx. destruct (Z.eqb_spec x (slot c i)) as [->|]; [right; by exists i | by apply H5].
      * intros j Hj. destruct (Z.eqb_spec (slot c j) (slot c i)) as [E|E].
        -- apply slot_inj in E as [_ ->]; try done; try lia. rewrite <- Hsh by done.
           destruct (Z.leb_spec 256 i), (Z.ltb_spec i (i + 1)); (done || lia).
        -- assert (j ≠ i) by congruence. rewrite H6 by done. f_equal.
           destruct (Z.leb_spec 256 j), (Z.ltb_spec j i), (Z.ltb_spec j (i + 1)); (done || lia).
    + split_and!; try done. intros j Hj. rewrite H6 by done.
      destruct (Z.leb_spec 256 j), (Z.ltb_spec j i), (Z.ltb_spec j (i + 1)); try done; try lia.
      assert (j = i) as -> by lia. unfold shared_entry. by rewrite Ep.
  - split_and!; try done. intros j Hj. unfold st2. rewrite H6 by done.
    change (256 + Z.of_nat 256) with 512. destruct (Z.ltb_spec j 512); [by rewrite andb_true_r|lia].
Qed.

(** The entry that hangs the private PDPT into the new PML4. *)
Definition user_entry (f : Z) : Z :=
  Z.lor (Z.lor (Z.lor (Z.land f ADDRESS_MASK) VMM_FLAG_PRESENT) VMM_FLAG_RW) VMM_FLAG_USER.

Lemma user_entry_spec f : page_addr f →
  is_u64 (user_entry f) ∧ is_present (user_entry f) = true ∧ Z.land (user_entry f) ADDRESS_MASK = f ∧
  flag (user_entry f) VMM_FLAG_PS = false.
Proof.
  intros Hf. set (y := Z.lor (Z.lor VMM_FLAG_PRESENT VMM_FLAG_RW) VMM_FLAG_USER).
  assert (Hy : flag_only y) by flag_const.
  assert (He : user_entry f = Z.lor f y) by (unfold user_entry, y; by rewrite page_addr_mask, !Z.lor_assoc).
  destruct (entry_parts f y Hf Hy) as (Hm & Hu & Hb). rewrite He. autorewrite with secos_pte.
  by rewrite !Hb by lia.
Qed.

Lemma strip_none (st : state) c : (∀ i, 256 ≤ i < 512 → is_present (vmem st (slot c i)) = true →
  flag (vmem st (slot c i)) VMM_FLAG_USER = false) → zfor 256 256 (strip_user c) st = st.
Proof.
  intros Hno. pose proof (zfor_inv (λ _ s, s = st) 256 256 (strip_user c) st eq_refl) as Hz. apply Hz.
  intros j s Hj ->. unfold strip_user, entry.
  destruct (is_present (vmem st (slot c j))) eqn:E; [|done]. rewrite Hno; [done|lia|done].
Qed.

Lemma same_data_trans roots (st1 st2 st3 : state) :
  same_data roots st1 st2 → same_data roots st2 st3 → tables_from roots st1 st2 →
  (∀ q, fa_ref (vfr st1) q ≠ 0 → fa_ref (vfr st2) q ≠ 0) → same_data roots st1 st3.
Proof.
  intros D1 D2 T1 R1 q x Hq Hnt Hx. rewrite (D2 q x); [by apply (D1 q)|by apply R1| |done].
  intros r p Ht. destruct (T1 r p q Ht) as [?|?]; [by apply (Hnt r p) | done].
Qed.

Lemma tables_from_trans roots (st1 st2 st3 : state) :
  tables_from roots st1 st2 → tables_from roots st2 st3 →
  (∀ q, fa_ref (vfr st1) q ≠ 0 → fa_ref (vfr st2) q ≠ 0) → tables_from roots st1 st3.
Proof.
  intros T1 T2 R r p t Ht. destruct (T2 r p t Ht) as [Ht2|Hz]; [by apply T1|]. right.
  destruct (decide (fa_ref (vfr st1) t = 0)) as [|Hn]; [done|]. by apply R in Hn.
Qed.

(** What making a space, or failing to, leaves of the others. *)
Record others_kept (roots : list Z) (st st' : state) : Prop := {
  ok_inv : vm_inv roots st';
  ok_leaves : same_leaves roots (vmem st) (vmem st');
  ok_data : same_data roots st st';
  ok_refs : ∀ q, fa_ref (vfr st) q ≠ 0 → fa_ref (vfr st') q = fa_ref (vfr st) q;
  ok_tables : tables_from roots st st';
  ok_kspace : kspace st' = kspace st
}.

Lemma others_kept_refl roots st : vm_inv roots st → others_kept roots st st.
Proof. intros. constructor; try done. intros r p t Ht. by left. Qed.

Section steps.
Context (roots : list Z) (st st3 : state) (a : A) (c : Z).
Hypothesis Hinv : vm_inv roots st.
Hypothesis Hker : kernel_ok roots st.
Hypothesis Ha : fa_alloc (vfr st) = (a, c).
Hypothesis Hc : c ≠ 0.
Let K := Z.land (kspace st) ADDRESS_MASK.
Hypothesis Hst3 : st3 = zfor 256 256 (copy_kernel K c) (zero_frame (set_fr st a) c).

(** The new PML4 is filled. *)
Lemma new_pml4 : others_kept roots st st3 ∧ fresh roots st3 c ∧ fa_ref (vfr st3) c = 1 ∧ page_addr c ∧
  fa_avail (vfr st3) = fa_avail (vfr st) - 1 ∧ flushes st3 = flushes st ∧ fa_ref (vfr st) c = 0 ∧
  (∀ j, 0 ≤ j < 512 → vmem st3 (slot c j) = if 256 <=? j then shared_entry st j else 0).
Proof.
  assert (Hpa : page_addr c) by (apply (fa_alloc_page (vfr st) a); [apply Hinv|done..]).
  assert (HK : fa_ref (vfr st) K ≠ 0).
  { by rewrite (tw_ref _ _ (vi_tabs _ _ Hinv) _ _ _ (root_table _ _ K (vi_tabs _ _ Hinv) Hker)). }
  pose proof (fa_ref_page (vfr st) K (tw_inv _ _ (vi_tabs _ _ Hinv)) HK) as HKp.
  assert (Hz : fa_ref (vfr st) c = 0).
  { destruct (fa_alloc_law (vfr st) a c (tw_inv _ _ (vi_tabs _ _ Hinv)) Ha) as [[? _]|(_ & ? & _)]; done. }
  assert (Hne : c ≠ K) by congruence.
  destruct (copy_kernel_spec st a c (proj2 Hpa) (proj2 HKp) Hne) as (H1 & H2 & H3 & H4 & H5 & H6).
  fold K in H1, H2, H3, H4, H5, H6. rewrite <- Hst3 in *. clear Hst3.
  assert (Heta : st3 = mk_vm (vmem st3) a (kspace st) (flushes st)) by (rewrite <- H1, <- H2, <- H3; by destruct st3).
  destruct (alloc_fresh roots st a c (vmem st3) Hinv Ha Hc) as (I1 & F0 & F1 & R1 & _ & Q1 & L1 & D1 & T1); [|done|].
  { intros x. destruct (in_page c x) eqn:E; [|rewrite H4 by done; apply Hinv].
    destruct (H5 x E) as [->|[i ->]]; [unfold is_u64; lia|]. apply is_u64_land_l, Hinv. }
  rewrite <- Heta in I1, F1, D1.
  pose proof (fa_avail_alloc (vfr st) a c (tw_inv _ _ (vi_tabs _ _ Hinv)) Ha) as Hav.
  destruct (Z.eqb_spec c 0); [done|]. rewrite H1.
  split_and!; try done; try apply Hpa. constructor; try done.
  - intros q Hq. rewrite H1. apply Q1. congruence.
  - intros r p t Ht. left. by apply T1.
Qed.

(** The private PDPT is hung in. *)
Lemma new_pdpt a2 f : fa_alloc (vfr st3) = (a2, f) → f ≠ 0 →
  let st6 := put (zero_frame (set_fr st3 a2) f) c 0 (user_entry f) in
  others_kept roots st st6 ∧ vm_inv (c :: roots) st6 ∧ (c ∉ roots) ∧
  (∀ v, upage v → leaf (vmem st6) c v = 0) ∧
  (∀ i, 256 ≤ i < 512 → vmem st6 (slot c i) = shared_entry st i) ∧
  (∀ p t, table_of (c :: roots) (vmem st6) c p t → fa_ref (vfr st) t = 0) ∧
  fa_avail (vfr st6) = fa_avail (vfr st) - 2 ∧ flushes st6 = flushes st.
Proof.
  intros Ha2 Hf st6. destruct new_pml4 as ([I3 L3 D3 R3 T3 K3] & Hfr & Hr1 & Hpa & Hav & Hfl & Hcz & Hent).
  clear Hst3.
  destruct (add_root roots st3 c I3 Hfr Hr1) as (Ic & Hcn & Hzero).
  { intros i Hi. rewrite Hent by lia. by destruct (Z.leb_spec 256 i); [lia|]. }
  { intros i Hi. rewrite Hent by lia. destruct (Z.leb_spec 256 i); [|lia]. unfold shared_entry.
    destruct (is_present (kernel_entry st i)); [|done]. intros _. apply no_user, Hinv. }
  pose proof (vi_tabs _ _ Ic) as Wc.
  destruct (fa_alloc_law (vfr st3) a2 f (tw_inv _ _ Wc) Ha2) as [[? _]|(Hi2 & Hz2 & Hq2)]; [done|].
  assert (Hpf : page_addr f) by (apply (fa_alloc_page (vfr st3) a2); [apply Wc|done..]).
  pose proof (root_table (c :: roots) st3 c Wc ltac:(by left)) as Ht0.
  assert (Hp0 : upath ([] ++ [0])) by (change ([] ++ [0]) with [0]; split_and!; [simpl; lia | repeat constructor; lia | lia]).
  assert (Habs : is_present (vmem st3 (slot c 0)) = false) by (rewrite Hent by lia; done).
  pose proof (user_entry_spec f Hpf) as He.
  pose proof (create_wf (c :: roots) st3 c [] 0 c a2 f (user_entry f) Wc Ht0 Hp0 Hi2 Hz2 Hq2 He) as W6.
  pose proof (create_grown (c :: roots) st3 c [] 0 c a2 f (user_entry f) Wc Ht0 Hp0 Habs Hi2 Hz2 Hq2 He) as G6.
  change (tabs_wf (c :: roots) st6) in W6. change (grown (c :: roots) st3 st6) in G6.
  pose proof (grown_inv (c :: roots) st3 st6 Ic W6 G6) as I6.
  pose proof (fa_avail_alloc (vfr st3) a2 f (tw_inv _ _ Wc) Ha2) as Hav2. destruct (Z.eqb_spec f 0); [done|].
  assert (Hin : ∀ r, r ∈ roots → r ∈ c :: roots) by (intros; by right).
  assert (T6 : tables_from roots st3 st6).
  { intros r p t (Hr & Hp & Ht). destruct (gr_old _ _ _ G6 r p t) as [(_ & _ & Ht')|?]; [split_and!; auto| |by right].
    left. split_and!; auto. }
  split_and!; try done.
  - constructor; [by apply (drop_root c) | | | | | by rewrite <- K3].
    + intros r v Hr Hv. rewrite (gr_leaf _ _ _ G6 r v (Hin r Hr) Hv). by apply L3.
    + intros q x Hq Hnt Hx. rewrite <- (D3 q x Hq Hnt Hx).
      apply (gr_data _ _ _ G6 q x); [by rewrite R3| |done]. intros r p.
      rewrite table_of_cons. intros [(-> & Hp & Ht)|Ht].
      * destruct p as [|i p]; [injection Ht as <-; congruence|]. simpl in Ht. destruct Hp as (_ & Hi & Hlt).
        inversion Hi; subst. rewrite Hent in Ht by lia. destruct (Z.leb_spec 256 i); [lia|]. done.
      * destruct (T3 r p q Ht) as [?|?]; [by apply (Hnt r p) | done].
    + intros q Hq. rewrite (gr_ref _ _ _ G6); rewrite R3; done.
    + intros r p t Ht. destruct (T6 r p t Ht) as [Ht3|Hz]; [by apply T3|]. right.
      destruct (decide (fa_ref (vfr st) t = 0)); [done|]. rewrite R3 in Hz; done.
  - intros v Hv. rewrite (gr_leaf _ _ _ G6 c v ltac:(by left) Hv). by apply Hzero.
  - intros i Hi. rewrite (gr_kernel _ _ _ G6 c i ltac:(by left) Hi), Hent by lia.
    by destruct (Z.leb_spec 256 i); [|lia].
  - intros p t Hpt. destruct (gr_old _ _ _ G6 c p t Hpt) as [(_ & Hp & Ht)|Hz].
    + destruct p as [|i p]; [injection Ht as <-; done|]. simpl in Ht. destruct Hp as (_ & Hi & Hlt).
      inversion Hi; subst. rewrite Hent in Ht by lia. destruct (Z.leb_spec 256 i); [lia|]. done.
    + destruct (decide (fa_ref (vfr st) t = 0)); [done|]. rewrite R3 in Hz; done.
  - change (fa_avail a2 = fa_avail (vfr st) - 2). lia.
Qed.
End steps.

Lemma create_spec roots (st : state) kok st' res :
  vm_inv roots st → kernel_ok roots st → vmm_space_create_user st kok = (st', res) →
  others_kept roots st st' ∧ flushes st' = flushes st ∧ fa_avail (vfr st) - 2 ≤ fa_avail (vfr st') ∧
  match res with
  | Some c => (c ∉ roots) ∧ vm_inv (c :: roots) st' ∧ (∀ v, upage v → leaf (vmem st') c v = 0) ∧
      (∀ i, 256 ≤ i < 512 → vmem st' (slot c i) = shared_entry st i) ∧
      (∀ p t, table_of (c :: roots) (vmem st') c p t → fa_ref (vfr st) t = 0)
  | None => kok = false ∨ fa_avail (vfr st) < 2
  end.
Proof.
  intros Hinv Hker. unfold vmm_space_create_user, pmm_alloc at 1.
  pose proof (tw_inv _ _ (vi_tabs _ _ Hinv)) as Hfa.
  destruct (fa_alloc (vfr st)) as [a c] eqn:Ea. pose proof (fa_avail_alloc _ _ _ Hfa Ea) as Hav.
  destruct (Z.eqb_spec c 0) as [->|Hc].
  { destruct (fa_alloc_law (vfr st) a 0 Hfa Ea) as [[_ ->]|(Hi & Hz & Hq)].
    - intros [= <- <-]. destruct st; simpl in *. split_and!; [by apply others_kept_refl|done|lia|right; lia].
    - exfalso. pose proof (fa_ref_page a 0 Hi ltac:(by rewrite Hq)). lia. }
  assert (Hpc : page_addr c) by (by apply (fa_alloc_page (vfr st) a)).
  rewrite (page_addr_mask c) by done.
  change (Z.land (Z.shiftr USER_CODE_BASE 39) 511) with 0. cbv zeta.
  change (kspace (zero_frame (set_fr st a) c)) with (kspace st).
  set (st3 := zfor 256 256 _ _). assert (Hst3 : st3 = zfor 256 256 (copy_kernel (Z.land (kspace st) ADDRESS_MASK) c)
    (zero_frame (set_fr st a) c)) by reflexivity. clearbody st3.
  destruct (new_pml4 roots st st3 a c Hinv Hker Ea Hc Hst3) as (Hok3 & Hfr & Hr1 & _ & Hav3 & Hfl & Hcz & Hent).
  pose proof (new_pdpt roots st st3 a c Hinv Hker Ea Hc Hst3) as Hnew. clear Hst3.
  unfold pmm_alloc. destruct (fa_alloc (vfr st3)) as [a2 f] eqn:Ea2.
  pose proof (tw_inv _ _ (vi_tabs _ _ (ok_inv _ _ _ Hok3))) as Hfa3.
  pose proof (fa_avail_alloc _ _ _ Hfa3 Ea2) as Hav2. destruct (Z.eqb_spec f 0) as [->|Hf].
  { destruct (fa_alloc_law (vfr st3) a2 0 Hfa3 Ea2) as [[_ ->]|(Hi & Hz & Hq)].
    2: { exfalso. pose proof (fa_ref_page a2 0 Hi ltac:(by rewrite Hq)). lia. }
    destruct (free_fresh roots st3 c (ok_inv _ _ _ Hok3) (proj1 (proj2 Hfr)) (proj2 (proj2 Hfr)) Hr1) as [I4 Q4].
    pose proof (fa_avail_free (vfr st3) c Hfa3 Hr1) as Hav4.
    replace (set_fr st3 (vfr st3)) with st3 by (by destruct st3).
    intros [= <- <-]. split_and!; [|done|simpl; lia|right; lia].
    destruct Hok3 as [I3 L3 D3 R3 T3 K3]. constructor; try done.
    intros q Hq. rewrite Q4. destruct (Z.eqb_spec q c) as [->|]; [congruence|]. by apply R3. }
  destruct (Hnew a2 f eq_refl Hf) as (Hok6 & I6 & Hcn & Hl6 & He6 & Ht6 & Hav6 & Hfl6). cbv zeta.
  fold (user_entry f). set (st6 := put _ c 0 (user_entry f)) in *.
  destruct kok; cbn [negb].
  - rewrite strip_none.
    + intros [= <- <-]. split_and!; try done. lia.
    + intros i Hi Hp. apply (fw_kernel _ _ (vi_frames _ _ I6)); [by left | done | done].
  - intros [= <- <-]. split_and!; try done; [lia | by left].
Qed.
End create.
