(* ===== verification/VmFork.v ===== *)
(** * Duplicating an address space

    [vmm_fork_space] shares every frame of the parent with the child: the
    pages the parent could write become read-only copy-on-write pages of
    both, the others keep their rights.  This file proves one leaf of the walk
    correct and then the whole walk. *)

From S2P Require Import Prelude Vma Frames Vmm VmmWf VmmInv VmmOps VmmFault VmSpace VmWalk VmCreate.

(** The leaves of parent and child for a parent leaf [e] that holds a frame. *)
Definition fork_flags (e : Z) : Z := Z.land (Z.land e (not64 ADDRESS_MASK)) (not64 VMM_FLAG_PRESENT).
Definition fork_cow (e : Z) : Z := Z.lor (Z.land (fork_flags e) (not64 VMM_FLAG_RW)) VMM_FLAG_COW.
Definition fork_shares (e : Z) : bool := is_present e && negb (flag e VMM_FLAG_DEVICE).
Definition fork_parent (e : Z) : Z :=
  if fork_shares e && flag e VMM_FLAG_RW
  then Z.lor (Z.lor (frame_of e) (fork_cow e)) VMM_FLAG_PRESENT else e.
Definition child_flags (e : Z) : Z := if flag e VMM_FLAG_RW then fork_cow e else fork_flags e.
Definition fork_child (e : Z) : Z :=
  if negb (vmm_pte_has_frame e) then 0
  else if fork_shares e then leaf_entry (frame_of e) (child_flags e) else e.

Lemma fork_flags_spec e : is_u64 e → flag_only (fork_flags e) ∧
  ∀ i, 0 < i < 12 ∨ 52 ≤ i < 64 → Z.testbit (fork_flags e) i = Z.testbit e i.
Proof.
  intros He. split; [apply flag_only_land; by apply flag_only_not_mask|].
  intros i Hi. unfold fork_flags. rewrite !land_not_testbit by lia. rewrite mask_testbit by lia.
  change VMM_FLAG_PRESENT with (2 ^ 0). rewrite pow2_testbit by lia.
  destruct (Z.leb_spec 12 i), (Z.ltb_spec i 52), (Z.eqb_spec 0 i); try lia; by rewrite !andb_true_r.
Qed.

(** What the flags of the child are: no write access, everything else kept. *)
Lemma child_flags_spec e : is_u64 e → flag_only (child_flags e) ∧ flag (child_flags e) VMM_FLAG_RW = false ∧
  flag (child_flags e) VMM_FLAG_COW = flag e VMM_FLAG_COW || flag e VMM_FLAG_RW ∧
  flag (child_flags e) VMM_FLAG_DEVICE = flag e VMM_FLAG_DEVICE ∧
  flag (child_flags e) VMM_FLAG_NOEXEC = flag e VMM_FLAG_NOEXEC ∧
  flag (child_flags e) VMM_FLAG_USER = flag e VMM_FLAG_USER ∧
  flag (child_flags e) VMM_FLAG_PROTNONE = flag e VMM_FLAG_PROTNONE.
Proof.
  intros He. destruct (fork_flags_spec e He) as [Hf Hb]. unfold child_flags.
  destruct (flag e VMM_FLAG_RW) eqn:Erw.
  - unfold fork_cow. set (f := fork_flags e) in *. clearbody f.
    split; [apply flag_only_lor; [by apply flag_only_land | flag_const]|].
    autorewrite with secos_pte in *. rewrite !Z.lor_spec, !land_not_testbit by lia. const_bits.
    rewrite !Hb, ?Erw by lia. by rewrite ?andb_true_r, ?orb_false_r, ?orb_true_r, ?andb_false_r.
  - split; [done|]. autorewrite with secos_pte in *. rewrite !Hb by lia. by rewrite orb_false_r.
Qed.

(** The parent's leaf afterwards. *)
Lemma fork_parent_spec e : is_u64 e → is_present e = true → flag e VMM_FLAG_RW = true →
  flag e VMM_FLAG_DEVICE = false → let e' := fork_parent e in
  is_u64 e' ∧ frame_of e' = frame_of e ∧ is_present e' = true ∧ flag e' VMM_FLAG_RW = false ∧
  flag e' VMM_FLAG_COW = true ∧ flag e' VMM_FLAG_DEVICE = false ∧
  flag e' VMM_FLAG_NOEXEC = flag e VMM_FLAG_NOEXEC ∧ flag e' VMM_FLAG_USER = flag e VMM_FLAG_USER ∧
  flag e' VMM_FLAG_PROTNONE = flag e VMM_FLAG_PROTNONE.
Proof.
  intros He Hp Hrw Hd e'. unfold e', fork_parent, fork_shares. rewrite Hp, Hrw, Hd. cbn [andb negb].
  destruct (child_flags_spec e He) as (Hf & B1 & B2 & B3 & B4 & B5 & B6). unfold child_flags in *. rewrite Hrw in *.
  set (c := fork_cow e) in *. clearbody c. set (y := Z.lor c VMM_FLAG_PRESENT).
  assert (Hy : flag_only y) by (apply flag_only_lor; [done|flag_const]).
  destruct (frame_parts e y He Hy) as (Hu & Hfr & Hb). rewrite <- Z.lor_assoc.
  change (Z.lor (frame_of e) (Z.lor c VMM_FLAG_PRESENT)) with (Z.lor (Z.land e ADDRESS_MASK) y).
  split; [done|]. split; [done|]. autorewrite with secos_pte in *. rewrite !Hb by lia. unfold y.
  rewrite !Z.lor_spec. const_bits. rewrite ?orb_false_r, B1, B2, B3, B4, B5, B6, Hd, ?orb_true_r. done.
Qed.

Section fork.
Context {A : Type} {ops : FrameOps A} {laws : FrameLaws A}.
Abbreviation state := (vm A).

(** A new number of references for one frame. *)
Lemma refs_inv roots (st : state) a p :
  vm_inv roots st → fa_inv a → (∀ q, q ≠ p → fa_ref a q = fa_ref (vfr st) q) →
  (∀ r u, ¬ table_of roots (vmem st) r u p) →
  (∀ n, counted roots (vmem st) p n → n ≤ fa_ref (vfr st) p ∨ fa_ref (vfr st) p = REF_MAX →
     n ≤ fa_ref a p ∨ fa_ref a p = REF_MAX) →
  (∀ x, mapped roots (vmem st) p x → writable (leaf (vmem st) x.1 x.2) = true → fa_ref a p = 1) →
  vm_inv roots (set_fr st a).
Proof.
  intros [Hw Hf] Hi Hq Hnt Hc Hp. constructor; constructor; try done; try apply Hw; try apply Hf.
  - intros r u t Ht. simpl. rewrite Hq; [by apply (tw_ref _ _ Hw r u)|]. intros ->. by apply (Hnt r u).
  - intros f. destruct (fw_count _ _ Hf f) as (n & Hcn & Hn). exists n. split; [done|]. simpl.
    destruct (decide (f = p)) as [->|]; [by apply Hc | by rewrite Hq].
  - intros f x Hm Hwr. simpl. destruct (decide (f = p)) as [->|]; [by apply (Hp x)|].
    rewrite Hq by done. by apply (fw_private _ _ Hf f x).
Qed.

Lemma counted_unique roots m f n n' : counted roots m f n → counted roots m f n' → n = n'.
Proof.
  intros (l & Hl & Hm & <-) (l' & Hl' & Hm' & <-). assert (Hp : l ≡ₚ l').
  { apply NoDup_Permutation; [done..|]. intros x. by rewrite Hm, Hm'. }
  apply Permutation_length in Hp. lia.
Qed.

(** [vmm_map_in_space] keeps the tables there are. *)
Lemma map_tables roots (st : state) r v phys flags st' rc :
  vm_inv roots st → r ∈ roots → upage v → flag_only flags →
  vmm_map_in_space st (Some r) (v * 4096) phys flags = (st', rc) →
  (∀ r' p t, table_of roots (vmem st) r' p t → table_of roots (vmem st') r' p t) ∧ kspace st' = kspace st.
Proof.
  intros Hinv Hr Hv Hfl. unfold vmm_map_in_space.
  destruct (_ || _); [by intros [= <- <-]|]. destruct (wx flags); [by intros [= <- <-]|].
  destruct (_ && _); [by intros [= <- <-]|].
  destruct (get_pt_space st r (v * 4096) true flags) as [st1 res] eqn:Eg.
  destruct (get_pt_spec roots st r v true flags st1 res (vi_tabs _ _ Hinv) Hr Hv ltac:(apply Hfl) Eg)
    as (W1 & G1 & T1 & _). destruct (gr_rest _ _ _ G1) as [K1 _].
  assert (Hk : (∀ r' p t, table_of roots (vmem st) r' p t → table_of roots (vmem st1) r' p t) ∧ kspace st1 = kspace st)
    by (split; [apply G1|done]).
  destruct res as [t|]; [|by intros [= <- <-]].
  destruct (vmm_pte_has_frame _); [by intros [= <- <-]|].
  destruct (flag flags VMM_FLAG_PROTNONE); [by intros [= <- <-]|].
  intros [= <- <-]. split; [|done]. intros r' p u (H1 & H2 & H3)%Hk. split_and!; [done..|].
  destruct (page_indices v Hv) as [_ ->]. cbn [put vmem set_mem].
  by rewrite (leaf_write_tbl roots st1 r v t _ W1 (T1 t eq_refl)).
Qed.

(** Write access withdrawn from a leaf. *)
Lemma withdraw_inv roots (st : state) r v t :
  vm_inv roots st → r ∈ roots → upage v → table_of roots (vmem st) r (path_of v) t →
  let e := leaf (vmem st) r v in
  is_present e = true → flag e VMM_FLAG_RW = true → flag e VMM_FLAG_DEVICE = false →
  vm_inv roots (put st t (v mod 512) (fork_parent e)).
Proof.
  intros Hinv Hr Hv Ht e Hp Hrw Hd. pose proof Hinv as [Hw Hf].
  assert (He : is_u64 e) by (unfold e, leaf; destruct Ht as (_ & _ & ->); apply Hw).
  destruct (fork_parent_spec e He Hp Hrw Hd) as (Hu & Hfr & P & RW & CO & DV & NX & _ & PN).
  set (e' := fork_parent e) in *. clearbody e'.
  assert (Hown : ∀ x, is_present x = true → flag x VMM_FLAG_DEVICE = false → owns_frame x = true).
  { intros x H1 H2. unfold owns_frame. by rewrite has_frame_bits, <- present_bit, H1, H2. }
  assert (Hn : ∀ f, names e' f = names e f).
  { intros f. unfold names. by rewrite (Hown e' P DV), (Hown e Hp Hd), Hfr. }
  apply (set_leaf_inv roots st _ r v t e'); try done; try apply Hw.
  - intros _. split; [unfold wx; by rewrite RW|]. rewrite PN. by apply (fw_ok _ _ Hf).
  - intros _ r' p. rewrite Hfr. apply (fw_data _ _ Hf _ (r, v)). split_and!; try done.
    apply names_owns. split; [by apply Hown|done].
  - unfold writable. by rewrite RW, andb_false_r.
  - intros f n _ Hle. rewrite Hn. fold e. simpl in *. lia.
  - intros f x H1 H2. fold e in H2. rewrite Hn in H1. congruence.
Qed.

(** What the walk has done to page [v] of parent [r] and child [c]. *)
Record leaf_forked (roots : list Z) (st st' : state) (r c v : Z) (failed : bool) : Prop := {
  lf_inv : vm_inv roots st';
  lf_data : same_data roots st st';
  lf_from : tables_from roots st st';
  lf_tabs : ∀ r' p t, table_of roots (vmem st) r' p t → table_of roots (vmem st') r' p t;
  lf_kspace : kspace st' = kspace st;
  lf_refs : ∀ q, fa_ref (vfr st) q ≠ 0 → fa_ref (vfr st) q ≤ fa_ref (vfr st') q;
  lf_others : ∀ r' v', r' ∈ roots → upage v' → v' ≠ v ∨ r' ≠ r ∧ r' ≠ c →
    leaf (vmem st') r' v' = leaf (vmem st) r' v';
  lf_parent : leaf (vmem st') r v = leaf (vmem st) r v ∨ leaf (vmem st') r v = fork_parent (leaf (vmem st) r v);
  lf_child : leaf (vmem st') c v = leaf (vmem st) c v ∨ leaf (vmem st') c v = fork_child (leaf (vmem st) r v);
  lf_avail : fa_avail (vfr st) - 4 ≤ fa_avail (vfr st');
  lf_done : 4 ≤ fa_avail (vfr st) → failed = false ∧
    leaf (vmem st') r v = fork_parent (leaf (vmem st) r v) ∧
    leaf (vmem st') c v = fork_child (leaf (vmem st) r v) ∧
    ∀ q, fa_ref (vfr st) q ≠ 0 → fa_ref (vfr st') q =
      if names (leaf (vmem st) r v) q then Z.min REF_MAX (fa_ref (vfr st) q + 1) else fa_ref (vfr st) q
}.

Section leaf.
Context (roots : list Z) (st : state) (r c v pt : Z).
Hypothesis Hinv : vm_inv roots st.
Hypothesis Hr : r ∈ roots.
Hypothesis Hc : c ∈ roots.
Hypothesis Hrc : r ≠ c.
Hypothesis Hv : upage v.
Hypothesis Ht : table_of roots (vmem st) r (path_of v) pt.
Hypothesis Hempty : vmm_pte_has_frame (leaf (vmem st) c v) = false.
Let e := leaf (vmem st) r v.
Hypothesis Hhas : vmm_pte_has_frame e = true.

Lemma fork_e_u64 : is_u64 e.
Proof. unfold e, leaf. destruct Ht as (_ & _ & ->). apply Hinv. Qed.

Lemma owned_mapped : owns_frame e = true → mapped roots (vmem st) (frame_of e) (r, v).
Proof. intros Ho. split_and!; try done. by apply names_owns. Qed.

(** The shared frame gains a reference. *)
Lemma share_step st1 a :
  vm_inv roots st1 → vfr st1 = vfr st → (∀ r' p t, table_of roots (vmem st1) r' p t ↔ table_of roots (vmem st) r' p t) →
  (∀ x, mapped roots (vmem st1) (frame_of e) x → writable (leaf (vmem st1) x.1 x.2) = false) →
  owns_frame e = true → fa_share (vfr st) (frame_of e) = (a, 0) → 
  vm_inv roots (set_fr st1 a) ∧
  (∀ q, fa_ref a q = if q =? frame_of e then Z.min REF_MAX (fa_ref (vfr st) (frame_of e) + 1) else fa_ref (vfr st) q) ∧
  (∀ n, counted roots (vmem st1) (frame_of e) n → n < fa_ref a (frame_of e) ∨ fa_ref a (frame_of e) = REF_MAX).
Proof.
  intros I1 F1 T1 W1 Ho Es. pose proof (owned_mapped Ho) as Hm. pose proof (mapped_ref _ _ _ _ Hinv Hm) as Hn.
  pose proof (tw_inv _ _ (vi_tabs _ _ Hinv)) as Hi.
  destruct (fa_share_law _ _ _ _ Hi Hn Es) as [[? _]|(_ & Hia & Hq)]; [done|].
  pose proof (fa_ref_range _ (frame_of e) Hi) as Hrg.
  assert (Hself : fa_ref a (frame_of e) = Z.min REF_MAX (fa_ref (vfr st) (frame_of e) + 1)) by (by rewrite Hq, Z.eqb_refl).
  assert (Hcn : ∀ n, counted roots (vmem st1) (frame_of e) n → n ≤ fa_ref (vfr st) (frame_of e) ∨ fa_ref (vfr st) (frame_of e) = REF_MAX).
  { intros n Hn1. destruct (fw_count _ _ (vi_frames _ _ I1) (frame_of e)) as (n' & Hn' & Hle). rewrite F1 in Hle.
    by rewrite (counted_unique _ _ _ _ _ Hn1 Hn'). }
  split_and!; [|done|].
  - apply (refs_inv roots st1 a (frame_of e)); try done.
    + intros q Hne. rewrite Hq, F1. by destruct (Z.eqb_spec q (frame_of e)).
    + intros r' u. rewrite T1. by apply (fw_data _ _ (vi_frames _ _ Hinv) _ (r, v)).
    + intros n Hn1 _. rewrite Hself. specialize (Hcn n Hn1). lia.
    + intros x Hx Hwr. rewrite W1 in Hwr; done.
  - intros n Hn1. rewrite Hself. specialize (Hcn n Hn1). lia.
Qed.

Let st_w := if flag e VMM_FLAG_RW then put st pt (v mod 512) (fork_parent e) else st.

(** Before the page is mapped into the child nobody can write its frame. *)
Lemma withdrawn : is_present e = true → flag e VMM_FLAG_DEVICE = false →
  vm_inv roots st_w ∧ vfr st_w = vfr st ∧ kspace st_w = kspace st ∧
  (∀ r' p t, table_of roots (vmem st_w) r' p t ↔ table_of roots (vmem st) r' p t) ∧
  only_leaf roots (vmem st) (vmem st_w) r v (fork_parent e) ∧ same_data roots st st_w ∧
  (∀ x, mapped roots (vmem st_w) (frame_of e) x → writable (leaf (vmem st_w) x.1 x.2) = false).
Proof.
  intros Hp Hd. pose proof fork_e_u64 as He. pose proof (Z.mod_pos_bound v 512 ltac:(lia)) as Hm.
  assert (Ho : owns_frame e = true) by (unfold owns_frame; by rewrite Hhas, Hd).
  pose proof (owned_mapped Ho) as Hmap. pose proof (vi_tabs _ _ Hinv) as Hw.
  assert (Honly : only_leaf roots (vmem st) (vmem st_w) r v (fork_parent e)).
  { unfold st_w. destruct (flag e VMM_FLAG_RW) eqn:Erw; [by apply put_only_leaf|].
    intros r' v' _ _. destruct (Z.eqb_spec r' r) as [->|], (Z.eqb_spec v' v) as [->|]; try done. simpl.
    unfold fork_parent. by rewrite Erw, andb_false_r. }
  assert (Hfp : frame_of (fork_parent e) = frame_of e ∧ writable (fork_parent e) = false).
  { unfold writable. destruct (flag e VMM_FLAG_RW) eqn:Erw.
    - destruct (fork_parent_spec e He Hp Erw Hd) as (_ & -> & _ & -> & _). by rewrite andb_false_r.
    - unfold fork_parent. rewrite Erw, !andb_false_r, Erw, andb_false_r. done. }
  assert (Htab : ∀ r' p t, table_of roots (vmem st_w) r' p t ↔ table_of roots (vmem st) r' p t).
  { unfold st_w. destruct (flag e VMM_FLAG_RW); [|done]. intros r' p t. cbn [put vmem set_mem]. unfold table_of.
    split; intros (H1 & H2 & H3); (split_and!; [done..|]); by rewrite (leaf_write_tbl roots st r v pt _ Hw Ht) in *. }
  assert (Iw : vm_inv roots st_w).
  { unfold st_w. destruct (flag e VMM_FLAG_RW) eqn:Erw; [|done]. by apply (withdraw_inv roots st r v pt). }
  split_and!; try done; try (by unfold st_w; destruct (flag e VMM_FLAG_RW)).
  { unfold st_w. destruct (flag e VMM_FLAG_RW); [by eapply put_data|done]. }
  intros x Hx. pose proof Hx as (Hx1 & Hx2 & Hx3). rewrite Honly in * by done.
  destruct (Z.eqb_spec x.1 r) as [E1|E1], (Z.eqb_spec x.2 v) as [E2|E2]; [apply Hfp|..]; cbn [andb] in *;
    destruct (writable (leaf (vmem st) x.1 x.2)) eqn:Ewr; try done; exfalso;
    assert (Hx0 : mapped roots (vmem st) (frame_of e) x) by (split_and!; done);
    pose proof (fw_private _ _ (vi_frames _ _ Hinv) _ x Hx0 Ewr);
    assert (Hne : x ≠ (r, v)) by (intros ->; done);
    pose proof (mapped_two _ _ _ _ _ Hinv Hx0 Hmap Hne); lia.
Qed.

(** The shared page can be mapped into the child. *)
Lemma share_mappable a : is_present e = true → flag e VMM_FLAG_DEVICE = false →
  fa_share (vfr st) (frame_of e) = (a, 0) → let st2 := set_fr st_w a in
  vm_inv roots st2 ∧ mappable roots st2 (frame_of e) (child_flags e) ∧ wx (child_flags e) = false ∧
  page_addr (frame_of e) ∧ flag (child_flags e) VMM_FLAG_PROTNONE = false ∧
  (∀ n, counted roots (vmem st_w) (frame_of e) n → n < fa_ref a (frame_of e) ∨ fa_ref a (frame_of e) = REF_MAX) ∧
  (∀ q, fa_ref a q = if q =? frame_of e then Z.min REF_MAX (fa_ref (vfr st) (frame_of e) + 1) else fa_ref (vfr st) q) ∧
  vmm_pte_has_frame (leaf (vmem st2) c v) = false.
Proof.
  intros Hp Hd Es st2. destruct (withdrawn Hp Hd) as (Iw & Fw & Kw & Tw & Lw & Dw & Ww).
  destruct (child_flags_spec e fork_e_u64) as (Cf & Crw & _ & Cd & _ & _ & Cp).
  assert (Ho : owns_frame e = true) by (unfold owns_frame; by rewrite Hhas, Hd).
  destruct (share_step st_w a Iw Fw Tw Ww Ho Es) as (I2 & Hq & Hcn).
  pose proof (mapped_ref _ _ _ _ Hinv (owned_mapped Ho)) as Hn.
  pose proof (fa_ref_range (vfr st) (frame_of e) (tw_inv _ _ (vi_tabs _ _ Hinv))) as Hrg.
  split_and!; try done.
  - right. rewrite Cd, Hd. cbn [st2 set_fr vfr]. split_and!; try done.
    + rewrite Hq, Z.eqb_refl. unfold REF_MAX in *. lia.
    + intros r' p Hu%Tw. by apply (fw_data _ _ (vi_frames _ _ Hinv) _ (r, v) r' p (owned_mapped Ho)).
    + congruence.
  - unfold wx. by rewrite Crw.
  - apply (fa_ref_page (vfr st)); [apply Hinv|done].
  - rewrite Cp. by apply (fw_ok _ _ (vi_frames _ _ Hinv)).
  - cbn [st2 set_fr vmem]. rewrite Lw by done. destruct (Z.eqb_spec c r); [congruence|done].
Qed.

Lemma share_data : is_present e = true → flag e VMM_FLAG_DEVICE = false →
  ∀ a st', same_data roots (set_fr st_w a) st' → (∀ q, fa_ref (vfr st) q ≠ 0 → fa_ref a q ≠ 0) → same_data roots st st'.
Proof.
  intros Hp Hd a st' Hd2 Hq q x Hqn Hnt Hx. destruct (withdrawn Hp Hd) as (_ & _ & _ & Tw & _ & Dw & _).
  rewrite (Hd2 q x); [by apply (Dw q)|by apply Hq| |done]. intros r' p Hu%Tw. by apply (Hnt r' p).
Qed.

Lemma ref_up a : owns_frame e = true →
  (∀ q, fa_ref a q = if q =? frame_of e then Z.min REF_MAX (fa_ref (vfr st) (frame_of e) + 1) else fa_ref (vfr st) q) →
  ∀ q, fa_ref (vfr st) q ≠ 0 → fa_ref (vfr st) q ≤ fa_ref a q ∧ fa_ref a q ≠ 0 ∧
    fa_ref a q = if names e q then Z.min REF_MAX (fa_ref (vfr st) q + 1) else fa_ref (vfr st) q.
Proof.
  intros Ho Hq q Hn. pose proof (fa_ref_range (vfr st) q (tw_inv _ _ (vi_tabs _ _ Hinv))) as Hrg.
  rewrite Hq. unfold names. rewrite Ho, (Z.eqb_sym (frame_of e)). cbn [andb].
  destruct (Z.eqb_spec q (frame_of e)) as [->|]; unfold REF_MAX in *; lia.
Qed.

(** Giving up the reference when the child has no room for the page. *)
Lemma unshare_step st3 a : is_present e = true → flag e VMM_FLAG_DEVICE = false →
  fa_share (vfr st) (frame_of e) = (a, 0) →
  vm_inv roots st3 → tables_from roots (set_fr st_w a) st3 → same_leaves roots (vmem st_w) (vmem st3) →
  (∀ q, fa_ref a q ≠ 0 → fa_ref (vfr st3) q = fa_ref a q) →
  let st4 := (pmm_unref st3 (frame_of e)).1 in
  vm_inv roots st4 ∧ vmem st4 = vmem st3 ∧ kspace st4 = kspace st3 ∧ fa_avail (vfr st3) ≤ fa_avail (vfr st4) ∧
  ∀ q, fa_ref (vfr st) q ≠ 0 → fa_ref (vfr st) q ≤ fa_ref (vfr st4) q.
Proof.
  intros Hp Hd Es I3 F3 L3 Q3 st4. destruct (share_mappable a Hp Hd Es) as (I2 & _ & _ & _ & _ & Hcn & Hq & _).
  assert (Ho : owns_frame e = true) by (unfold owns_frame; by rewrite Hhas, Hd).
  pose proof (mapped_ref _ _ _ _ Hinv (owned_mapped Ho)) as Hn. pose proof (ref_up a Ho Hq) as Hup.
  destruct (Hup _ Hn) as (Hle & Hna & Heq). pose proof (tw_inv _ _ (vi_tabs _ _ I3)) as Hi3.
  assert (H3 : fa_ref (vfr st3) (frame_of e) = fa_ref a (frame_of e)) by (by apply Q3).
  unfold st4, pmm_unref. destruct (fa_unref (vfr st3) (frame_of e)) as [b rc] eqn:Eu.
  destruct (fa_unref_law _ _ _ _ Hi3 ltac:(by rewrite H3) Eu) as (_ & Hib & Hqb). cbn [fst set_fr vmem kspace vfr].
  pose proof (fa_ref_range (vfr st) (frame_of e) (tw_inv _ _ (vi_tabs _ _ Hinv))) as Hrg.
  assert (Hself : fa_ref b (frame_of e) = if fa_ref a (frame_of e) =? REF_MAX then REF_MAX else Z.max 1 (fa_ref a (frame_of e) - 1))
    by (by rewrite Hqb, Z.eqb_refl, H3).
  split_and!; try done.
  - apply (refs_inv roots st3 b (frame_of e)); try done.
    + intros q Hne. rewrite Hqb. by destruct (Z.eqb_spec q (frame_of e)).
    + intros r' u Hu. destruct (F3 r' u _ Hu) as [Hu'|Hz]; [|by cbn [set_fr vfr] in Hz].
      cbn [set_fr vmem] in Hu'. destruct (withdrawn Hp Hd) as (_ & _ & _ & Tw & _). apply Tw in Hu'.
      by apply (fw_data _ _ (vi_frames _ _ Hinv) _ (r, v) r' u (owned_mapped Ho)).
    + intros n Hn3 _. rewrite Hself. destruct (Hcn n) as [Hlt|Hmx].
      * eapply counted_ext; [|exact Hn3]. intros x. symmetry. by apply mapped_same.
      * destruct (Z.eqb_spec (fa_ref a (frame_of e)) REF_MAX); lia.
      * rewrite Hmx, Z.eqb_refl. by right.
    + intros x Hx Hwr. destruct (withdrawn Hp Hd) as (_ & _ & _ & _ & _ & _ & Ww).
      pose proof Hx as (Hx1 & Hx2 & _). rewrite L3 in Hwr by done.
      rewrite Ww in Hwr; [done|]. by apply (mapped_same roots (vmem st_w) (vmem st3)).
  - eapply fa_avail_unref; [exact Hi3| |exact Eu]. by rewrite H3.
  - intros q Hqn. rewrite Hqb. destruct (Z.eqb_spec q (frame_of e)) as [->|Hne].
    + rewrite H3, Hq, Z.eqb_refl. destruct (Z.eqb_spec (Z.min REF_MAX (fa_ref (vfr st) (frame_of e) + 1)) REF_MAX); lia.
    + destruct (Hup q Hqn) as (H1 & H2 & _). rewrite Q3 by done. done.
Qed.

(** Nothing was changed. *)
Lemma fork_kept failed : (4 ≤ fa_avail (vfr st) → False) → leaf_forked roots st st r c v failed.
Proof. intros Hlow. constructor; try done; try lia; try (by left); intros ?; by left. Qed.

Lemma fork_present st' failed : is_present e = true → flag e VMM_FLAG_DEVICE = false →
  (let '(st1, rc) := pmm_share st (frame_of e) in
   if negb (rc =? 0) then (st1, true)
   else
     let st2 := if flag e VMM_FLAG_RW then put st1 pt (v mod 512) (fork_parent e) else st1 in
     let '(st3, rc) := vmm_map_in_space st2 (Some c) (v * 4096) (frame_of e) (child_flags e) in
     if negb (rc =? 0) then ((pmm_unref st3 (frame_of e)).1, false) else (st3, false)) = (st', failed) →
  leaf_forked roots st st' r c v failed.
Proof.
  intros Hp Hd. assert (Ho : owns_frame e = true) by (unfold owns_frame; by rewrite Hhas, Hd).
  pose proof (mapped_ref _ _ _ _ Hinv (owned_mapped Ho)) as Hn. pose proof (tw_inv _ _ (vi_tabs _ _ Hinv)) as Hi.
  unfold pmm_share. destruct (fa_share (vfr st) (frame_of e)) as [a rc] eqn:Es.
  pose proof (fa_avail_share _ _ _ _ Hi Hn Es) as Hav.
  destruct (fa_share_law _ _ _ _ Hi Hn Es) as [[-> ->]|(-> & _)].
  { cbn [Z.eqb negb]. intros [= <- <-]. replace (set_fr st (vfr st)) with st by (by destruct st).
    apply fork_kept. change (fa_avail (vfr st) = 0) in Hav. lia. }
  cbn [Z.eqb negb] in *. cbv zeta.
  replace (if flag e VMM_FLAG_RW then put (set_fr st a) pt (v mod 512) (fork_parent e) else set_fr st a)
    with (set_fr st_w a) by (unfold st_w; by destruct (flag e VMM_FLAG_RW)).
  destruct (withdrawn Hp Hd) as (Iw & Fw & Kw & Tw & Lw & Dw & _).
  destruct (share_mappable a Hp Hd Es) as (I2 & M2 & W2 & P2 & N2 & Hcn & Hq & E2).
  destruct (child_flags_spec e fork_e_u64) as (Cf & _). pose proof (ref_up a Ho Hq) as Hup.
  destruct (vmm_map_in_space (set_fr st_w a) (Some c) (v * 4096) (frame_of e) (child_flags e)) as [st3 rc] eqn:Em.
  destruct (map_spec roots _ c v _ _ st3 rc I2 Hc Hv P2 Cf M2 Em) as (I3 & D3 & F3 & R3 & Hres).
  destruct (map_succeeds roots _ c v _ _ st3 rc I2 Hc Hv P2 Cf W2 E2 N2 Em) as (Av3 & Ok3 & _).
  destruct (map_tables roots _ c v _ _ st3 rc I2 Hc Hv Cf Em) as [T3 K3].
  change (vfr (set_fr st_w a)) with a in *. change (vmem (set_fr st_w a)) with (vmem st_w) in *.
  change (kspace (set_fr st_w a)) with (kspace st_w) in K3.
  assert (Hdata : same_data roots st st3) by (apply (share_data Hp Hd a); [done|intros q Hqn; by apply Hup]).
  assert (Hfrom : tables_from roots st st3).
  { intros r' p t Hu. destruct (F3 r' p t Hu) as [Hu'|Hz]; [left; by apply Tw|]. right.
    destruct (decide (fa_ref (vfr st) t = 0)) as [|Hnz]; [done|]. by destruct (Hup t Hnz) as (_ & H2 & _). }
  assert (Htabs : ∀ r' p t, table_of roots (vmem st) r' p t → table_of roots (vmem st3) r' p t) by (intros; by apply T3, Tw).
  assert (Hsh : fork_shares e = true) by (unfold fork_shares; by rewrite Hp, Hd).
  assert (Hpar : leaf (vmem st_w) r v = fork_parent e) by (rewrite Lw by done; by rewrite !Z.eqb_refl).
  assert (Hother : ∀ r' v', r' ∈ roots → upage v' → v' ≠ v ∨ r' ≠ r ∧ r' ≠ c → leaf (vmem st_w) r' v' = leaf (vmem st) r' v').
  { intros r' v' Hr' Hv' Hne. rewrite Lw by done. destruct (Z.eqb_spec r' r), (Z.eqb_spec v' v); try done; cbn [andb]; lia. }
  assert (Hchild0 : leaf (vmem st_w) c v = leaf (vmem st) c v) by (rewrite Lw by done; destruct (Z.eqb_spec c r); [congruence|done]).
  destruct Hres as [(-> & _ & _ & Honly)|(Hrcn & Hsame & _)].
  - cbn [Z.eqb negb]. intros [= <- <-].
    assert (Hlp : leaf (vmem st3) r v = fork_parent e) by (rewrite Honly by done; destruct (Z.eqb_spec r c); done).
    assert (Hlc : leaf (vmem st3) c v = fork_child e).
    { rewrite Honly, !Z.eqb_refl by done. unfold fork_child. by rewrite Hhas, Hsh. }
    constructor; try done; try congruence; try lia; try (by right).
    + intros q Hqn. destruct (Hup q Hqn) as (H1 & H2 & _). by rewrite R3.
    + intros r' v' Hr' Hv' Hne. rewrite Honly by done.
      destruct (Z.eqb_spec r' c), (Z.eqb_spec v' v); cbn [andb]; try (by apply Hother); lia.
    + intros _. split_and!; try done. intros q Hqn. destruct (Hup q Hqn) as (_ & H2 & H3). by rewrite R3.
  - destruct (Z.eqb_spec rc 0); [done|]. cbn [negb]. intros [= <- <-].
    destruct (unshare_step st3 a Hp Hd Es I3 F3 Hsame R3) as (I4 & M4 & K4 & Av4 & R4). constructor; try done.
    + intros q x Hqn Hnt Hx. rewrite M4. by apply (Hdata q).
    + intros r' p t. rewrite M4. apply Hfrom.
    + intros r' p t. rewrite M4. apply Htabs.
    + congruence.
    + intros r' v' Hr' Hv' Hne. rewrite M4, Hsame by done. by apply Hother.
    + right. by rewrite M4, Hsame.
    + left. by rewrite M4, Hsame.
    + lia.
    + intros H4. exfalso. apply Hrcn, Ok3. lia.
Qed.

(** A device page or a parked one is copied as it is. *)
Lemma copy_step st1 a cpt :
  tabs_wf roots st1 → grown roots st st1 → table_of roots (vmem st1) c (path_of v) cpt →
  (writable e = true → owns_frame e = false) → fa_inv a →
  (∀ q, fa_ref a q = if names e q then Z.min REF_MAX (fa_ref (vfr st1) q + 1) else fa_ref (vfr st1) q) →
  vm_inv roots (put (set_fr st1 a) cpt (v mod 512) e).
Proof.
  intros W1 G1 Hcpt Hwr Hia Hq. pose proof (grown_inv roots st st1 Hinv W1 G1) as I1. pose proof Hinv as [Hw Hf].
  assert (Hmap : ∀ f x, mapped roots (vmem st1) f x ↔ mapped roots (vmem st) f x) by (intros; apply mapped_same; apply G1).
  assert (He1 : leaf (vmem st1) r v = e) by (by apply G1).
  assert (Hn0 : ∀ f, names (leaf (vmem st1) c v) f = false).
  { intros f. rewrite (gr_leaf _ _ _ G1) by done. unfold names, owns_frame. by rewrite Hempty. }
  assert (Hm : ∀ f, names e f = true → mapped roots (vmem st1) f (r, v)) by (intros f Hn; split_and!; try done; cbn [fst snd]; by rewrite He1).
  apply (set_leaf_inv roots st1 _ c v cpt e); try done.
  - apply fork_e_u64.
  - intros Hp. by apply (fw_ok _ _ Hf).
  - intros H. by apply (fw_dev _ _ Hf).
  - intros Ho r' p. apply (fw_data _ _ (vi_frames _ _ I1) _ (r, v)), Hm. by apply names_owns.
  - intros H1 H2. rewrite Hwr in H2; done.
  - intros r' p t Ht'. cbn [put set_mem set_fr vfr]. rewrite Hq. destruct (names e t) eqn:En; [|by apply (tw_ref _ _ W1 r' p)].
    by destruct (fw_data _ _ (vi_frames _ _ I1) t (r, v) r' p (Hm t En)).
  - intros f n _ Hle. rewrite Hn0. cbn [put set_mem set_fr vfr b2z]. rewrite Hq. destruct (names e f); simpl; lia.
  - intros f H1 _ He _. cbn [put set_mem set_fr vfr]. by rewrite Hq, He.
  - intros f x Hn _ Hx. destruct (writable (leaf (vmem st1) x.1 x.2)) eqn:Ew; [|done]. exfalso.
    pose proof (fw_private _ _ (vi_frames _ _ I1) f x Hx Ew) as H1. destruct (decide (x = (r, v))) as [->|Hne].
    + simpl in Ew. rewrite He1 in Ew. apply names_owns in Hn as [Ho _]. by rewrite Hwr in Ho.
    + pose proof (mapped_two _ _ _ _ _ I1 Hx (Hm f Hn) Hne). lia.
Qed.

Lemma copy_done st1 a cpt :
  tabs_wf roots st1 → grown roots st st1 → table_of roots (vmem st1) c (path_of v) cpt →
  (writable e = true → owns_frame e = false) → fork_shares e = false → fa_inv a →
  (∀ q, fa_ref a q = if names e q then Z.min REF_MAX (fa_ref (vfr st1) q + 1) else fa_ref (vfr st1) q) →
  fa_avail (vfr st) - 4 ≤ fa_avail a →
  leaf_forked roots st (put (set_fr st1 a) cpt (v mod 512) e) r c v false.
Proof.
  intros W1 G1 Hcpt Hwr Hsh Hia Hq Hav. pose proof (copy_step st1 a cpt W1 G1 Hcpt Hwr Hia Hq) as I2.
  pose proof (Z.mod_pos_bound v 512 ltac:(lia)) as Hm.
  assert (Hl : ∀ r' v', r' ∈ roots → upage v' → leaf (vmem (put (set_fr st1 a) cpt (v mod 512) e)) r' v' =
    if (r' =? c) && (v' =? v) then e else leaf (vmem st) r' v').
  { intros r' v' Hr' Hv'.
    change (vmem (put (set_fr st1 a) cpt (v mod 512) e)) with (vmem (put st1 cpt (v mod 512) e)).
    rewrite (put_only_leaf roots st1 c v cpt) by done. by rewrite (gr_leaf _ _ _ G1). }
  assert (Hpar : fork_parent e = e) by (unfold fork_parent; by rewrite Hsh).
  assert (Hch : fork_child e = e) by (unfold fork_child; by rewrite Hhas, Hsh).
  assert (Hlr : leaf (vmem (put (set_fr st1 a) cpt (v mod 512) e)) r v = e) by (rewrite Hl by done; destruct (Z.eqb_spec r c); done).
  assert (Hlc : leaf (vmem (put (set_fr st1 a) cpt (v mod 512) e)) c v = e) by (rewrite Hl by done; by rewrite !Z.eqb_refl).
  assert (Htab : ∀ r' p t, table_of roots (vmem (put (set_fr st1 a) cpt (v mod 512) e)) r' p t ↔ table_of roots (vmem st1) r' p t).
  { intros r' p t. cbn [put vmem set_mem set_fr]. unfold table_of.
    split; intros (H1 & H2 & H3); (split_and!; [done..|]); by rewrite (leaf_write_tbl roots st1 c v cpt _ W1 Hcpt) in *. }
  assert (Href : ∀ q, fa_ref (vfr st) q ≠ 0 → fa_ref a q = if names e q then Z.min REF_MAX (fa_ref (vfr st) q + 1) else fa_ref (vfr st) q).
  { intros q Hqn. rewrite Hq. by rewrite (gr_ref _ _ _ G1). }
  constructor; try done; try (by left).
  - apply (grown_data roots st st1 _ G1). intros q x Hqn Hnt Hx. cbn [put vmem set_mem set_fr vfr].
    by apply (put_data roots st1 c _ cpt (v mod 512) e W1 Hcpt Hm q x).
  - intros r' p t Ht'%Htab. by apply (gr_old _ _ _ G1).
  - intros r' p t Ht'. by apply Htab, (gr_tabs _ _ _ G1).
  - apply (gr_rest _ _ _ G1).
  - intros q Hqn. cbn [put vmem set_mem set_fr vfr]. rewrite Href by done.
    pose proof (fa_ref_range (vfr st) q (tw_inv _ _ (vi_tabs _ _ Hinv))). destruct (names e q); lia.
  - intros r' v' Hr' Hv' Hne. rewrite Hl by done. destruct (Z.eqb_spec r' c), (Z.eqb_spec v' v); cbn [andb]; (done || lia).
  - right. fold e. congruence.
  - intros _. fold e. split_and!; try done; congruence.
Qed.

(** Only tables were added before memory ran out. *)
Lemma fork_grown st1 failed : tabs_wf roots st1 → grown roots st st1 → fa_avail (vfr st) - 4 ≤ fa_avail (vfr st1) →
  (4 ≤ fa_avail (vfr st) → False) → leaf_forked roots st st1 r c v failed.
Proof.
  intros W1 G1 Hav Hlow. constructor; try done.
  - by apply (grown_inv roots st).
  - intros q x. by apply (gr_data _ _ _ G1).
  - intros r' p t. apply (gr_old _ _ _ G1).
  - apply (gr_tabs _ _ _ G1).
  - apply (gr_rest _ _ _ G1).
  - intros q Hq. rewrite (gr_ref _ _ _ G1) by done. lia.
  - intros r' v' Hr' Hv' _. by apply (gr_leaf _ _ _ G1).
  - left. by apply (gr_leaf _ _ _ G1).
  - left. by apply (gr_leaf _ _ _ G1).
Qed.

Lemma fork_device st' failed : flag e VMM_FLAG_DEVICE = true →
  (let '(st1, cpt) := get_pt_space st c (v * 4096) true (Z.lor VMM_FLAG_USER VMM_FLAG_RW) in
   match cpt with
   | Some cpt => (put st1 cpt (v mod 512) e, false)
   | None => (st1, false)
   end) = (st', failed) → leaf_forked roots st st' r c v failed.
Proof.
  intros Hd. destruct (get_pt_space _ _ _ _ _) as [st1 res] eqn:Eg.
  destruct (get_pt_spec roots st c v true (Z.lor VMM_FLAG_USER VMM_FLAG_RW) st1 res (vi_tabs _ _ Hinv) Hc Hv ltac:(done) Eg) as (W1 & G1 & T1 & _ & Av & Bv).
  assert (Hn : ∀ q, names e q = false) by (intros q; unfold names, owns_frame; by rewrite Hd, andb_false_r).
  destruct res as [cpt|].
  - intros [= <- <-]. replace (put st1 cpt (v mod 512) e) with (put (set_fr st1 (vfr st1)) cpt (v mod 512) e) by done.
    apply copy_done; try done; [by apply T1| | |apply W1| |lia].
    + intros _. unfold owns_frame. by rewrite Hd, andb_false_r.
    + unfold fork_shares. by rewrite Hd, andb_false_r.
    + intros q. by rewrite Hn.
  - intros [= <- <-]. apply fork_grown; [done|done|lia|]. specialize (Bv eq_refl eq_refl). lia.
Qed.

Lemma fork_parked st' failed : is_present e = false → flag e VMM_FLAG_DEVICE = false →
  (let '(st1, cpt) := get_pt_space st c (v * 4096) true (Z.lor VMM_FLAG_USER VMM_FLAG_RW) in
   match cpt with
   | None => (st1, true)
   | Some cpt => let '(st2, rc) := pmm_share st1 (frame_of e) in
       if negb (rc =? 0) then (st2, true) else (put st2 cpt (v mod 512) e, false)
   end) = (st', failed) → leaf_forked roots st st' r c v failed.
Proof.
  intros Hp Hd. destruct (get_pt_space _ _ _ _ _) as [st1 res] eqn:Eg.
  destruct (get_pt_spec roots st c v true (Z.lor VMM_FLAG_USER VMM_FLAG_RW) st1 res (vi_tabs _ _ Hinv) Hc Hv ltac:(done) Eg) as (W1 & G1 & T1 & _ & Av & Bv).
  assert (Ho : owns_frame e = true) by (unfold owns_frame; by rewrite Hhas, Hd).
  assert (Hne : ∀ q, names e q = (q =? frame_of e)) by (intros q; unfold names; rewrite Ho; apply Z.eqb_sym).
  pose proof (mapped_ref _ _ _ _ Hinv (owned_mapped Ho)) as Hn.
  destruct res as [cpt|].
  2: { intros [= <- <-]. apply fork_grown; [done|done|lia|]. specialize (Bv eq_refl eq_refl). lia. }
  unfold pmm_share. destruct (fa_share (vfr st1) (frame_of e)) as [a rc] eqn:Es.
  assert (Hn1 : fa_ref (vfr st1) (frame_of e) ≠ 0) by (by rewrite (gr_ref _ _ _ G1)).
  pose proof (fa_avail_share _ _ _ _ (tw_inv _ _ W1) Hn1 Es) as Hav.
  destruct (fa_share_law _ _ _ _ (tw_inv _ _ W1) Hn1 Es) as [[-> ->]|(-> & Hia & Hq)]; cbn [Z.eqb negb].
  - intros [= <- <-]. replace (set_fr st1 (vfr st1)) with st1 by (by destruct st1).
    change (fa_avail (vfr st1) = 0) in Hav. apply fork_grown; [done|done|lia|lia].
  - intros [= <- <-]. cbn [Z.eqb] in Hav. apply copy_done; try done; [by apply T1| | | |lia].
    + unfold writable. by rewrite Hp.
    + unfold fork_shares. by rewrite Hp.
    + intros q. rewrite Hq, Hne. by destruct (Z.eqb_spec q (frame_of e)) as [->|].
Qed.
End leaf.

(** One step of the walk. *)
Lemma fork_leaf_spec roots (st st' : state) r c pi di ti pt failed :
  let v := page_of_indices pi di ti in
  4 ≤ pi < 16 → 0 ≤ di < 512 → 0 ≤ ti < 512 →
  vm_inv roots st → r ∈ roots → c ∈ roots → r ≠ c →
  table_of roots (vmem st) r [0; pi; di] pt → vmm_pte_has_frame (leaf (vmem st) c v) = false →
  fork_leaf c pi di ti pt (st, false) = (st', failed) →
  if vmm_pte_has_frame (leaf (vmem st) r v) then leaf_forked roots st st' r c v failed
  else st' = st ∧ failed = false.
Proof.
  intros v Hpi Hdi Hti Hinv Hr Hc Hrc Ht Hempty. destruct (window_path pi di ti Hpi Hdi Hti) as (Hw & Hv & Hpath & Hmod & _).
  fold v in Hw, Hv, Hpath, Hmod. unfold fork_leaf. rewrite fork_va by lia. fold v.
  assert (Hpt : table_of roots (vmem st) r (path_of v) pt) by (by rewrite Hpath).
  assert (He : entry st pt ti = leaf (vmem st) r v).
  { unfold entry, leaf. destruct Hpt as (_ & _ & ->). by rewrite Hmod. }
  rewrite He. set (e := leaf (vmem st) r v). destruct (vmm_pte_has_frame e) eqn:Hhas; cbn [negb].
  2: { by intros [= <- <-]. }
  rewrite <- Hmod. destruct (flag e VMM_FLAG_DEVICE) eqn:Hd; [by apply (fork_device roots st r c v pt)|].
  destruct (is_present e) eqn:Hp; cbn [negb]; [|by apply (fork_parked roots st r c v pt)]. intros H.
  apply (fork_present roots st r c v pt); try done. fold e. rewrite <- H. unfold fork_parent, fork_shares, child_flags.
  rewrite Hp, Hd. destruct (flag e VMM_FLAG_RW); reflexivity.
Qed.

(** ** The walk *)

Lemma fork_nothing e : vmm_pte_has_frame e = false → fork_parent e = e ∧ fork_child e = 0 ∧ ∀ q, names e q = false.
Proof.
  intros H. unfold fork_parent, fork_child, fork_shares, names, owns_frame. rewrite H.
  rewrite has_frame_bits in H. apply orb_false_iff in H as [H _]. by rewrite present_bit, H.
Qed.

(** How many pages of the window below [v] name frame [q]. *)
Definition shares_below (m : Z → Z) (root q v : Z) : Z :=
  zcount (λ k, names (leaf m root (W_LO + k)) q) (Z.to_nat (v - W_LO)).

Lemma shares_below_step m root q v : W_LO ≤ v →
  shares_below m root q (v + 1) = shares_below m root q v + b2z (names (leaf m root v) q).
Proof.
  intros Hv. unfold shares_below. replace (Z.to_nat (v + 1 - W_LO)) with (S (Z.to_nat (v - W_LO))) by lia.
  cbn [zcount]. do 4 f_equal. lia.
Qed.

Lemma shares_below_pos m root q v : 0 ≤ shares_below m root q v.
Proof. unfold shares_below. apply zcount_bound. Qed.

Lemma shares_below_ext m m' root q v :
  (∀ w, W_LO ≤ w < v → leaf m' root w = leaf m root w) → shares_below m' root q v = shares_below m root q v.
Proof. intros H. apply zcount_ext. intros k Hk. rewrite H by lia. done. Qed.

Lemma shares_below_0 m root q : shares_below m root q W_LO = 0.
Proof. unfold shares_below. by rewrite Z.sub_diag. Qed.

Lemma leaf_absent m root v : tbl m root (path_of v) = None → leaf m root v = 0.
Proof. intros H. unfold leaf. by rewrite H. Qed.

#[local] Opaque pages_below shares_below leaf fork_parent fork_child.

Section walk.
Context (roots : list Z) (st1 : state) (r c : Z).
Hypothesis Hinv : vm_inv roots st1.
Hypothesis Hr : r ∈ roots.
Hypothesis Hc : c ∈ roots.
Hypothesis Hrc : r ≠ c.
Hypothesis Hnew : ∀ w, upage w → leaf (vmem st1) c w = 0.
Let m1 := vmem st1.

(** The frames the walk needs: four for each page (three tables, one chunk of
    reference counts). *)
Definition fork_room : Prop := 4 * pages_below m1 r W_HI ≤ fa_avail (vfr st1).

(** After the pages below [v]. *)
Record forked_to (v : Z) (s : state * bool) : Prop := {
  ft_range : W_LO ≤ v ≤ W_HI;
  ft_inv : vm_inv roots s.1;
  ft_data : same_data roots st1 s.1;
  ft_from : tables_from roots st1 s.1;
  ft_kspace : kspace s.1 = kspace st1;
  ft_refs : ∀ q, fa_ref (vfr st1) q ≠ 0 → fa_ref (vfr st1) q ≤ fa_ref (vfr s.1) q;
  ft_rest : ∀ r' w, r' ∈ roots → upage w → w < W_LO ∨ v ≤ w ∨ r' ≠ r ∧ r' ≠ c → leaf (vmem s.1) r' w = leaf m1 r' w;
  ft_parent : ∀ w, W_LO ≤ w < v → leaf (vmem s.1) r w = leaf m1 r w ∨ leaf (vmem s.1) r w = fork_parent (leaf m1 r w);
  ft_child : ∀ w, W_LO ≤ w < v → leaf (vmem s.1) c w = 0 ∨ leaf (vmem s.1) c w = fork_child (leaf m1 r w);
  ft_done : fork_room → s.2 = false ∧ fa_avail (vfr st1) - 4 * pages_below m1 r v ≤ fa_avail (vfr s.1) ∧
    (∀ w, W_LO ≤ w < v → leaf (vmem s.1) r w = fork_parent (leaf m1 r w) ∧ leaf (vmem s.1) c w = fork_child (leaf m1 r w)) ∧
    ∀ q, fa_ref (vfr st1) q ≠ 0 → fa_ref (vfr s.1) q = Z.min REF_MAX (fa_ref (vfr st1) q + shares_below m1 r q v)
}.

Lemma forked_start : forked_to W_LO (st1, false).
Proof.
  constructor; cbn [fst snd].
  - unfold W_LO, W_HI. lia.
  - exact Hinv.
  - by intros q x.
  - intros r' p t ?. by left.
  - done.
  - intros. lia.
  - done.
  - intros. lia.
  - intros. lia.
  - intros _. split_and!; [done| | |].
    + rewrite pages_below_0. lia.
    + intros w Hw. lia.
    + intros q _. rewrite shares_below_0.
      pose proof (fa_ref_range (vfr st1) q (tw_inv _ _ (vi_tabs _ _ Hinv))). lia.
Qed.

(** A page without a frame, or any page after a failure. *)
Lemma forked_skip v s : W_LO ≤ v < W_HI → upage v → forked_to v s →
  (s.2 = true ∨ vmm_pte_has_frame (leaf m1 r v) = false) → forked_to (v + 1) s.
Proof.
  intros Hv Hu [F1 F2 F3 F4 F5 F6 F7 F8 F9 F10] Hno.
  assert (Hl : leaf (vmem s.1) r v = leaf m1 r v ∧ leaf (vmem s.1) c v = 0).
  { rewrite !F7 by (done || lia). split; [done|]. by apply Hnew. }
  destruct Hl as [Hl1 Hl2]. constructor; [lia|exact F2|exact F3|exact F4|exact F5|exact F6| | | |].
  - intros r' w Hr' Hw Hne. apply F7; [done|done|]. lia.
  - intros w Hw. destruct (decide (w = v)) as [->|]; [by left|]. apply F8. lia.
  - intros w Hw. destruct (decide (w = v)) as [->|]; [by left|]. apply F9. lia.
  - intros Hroom. destruct (F10 Hroom) as (H1 & H2 & H3 & H4). destruct Hno as [Hf|Hno]; [congruence|].
    destruct (fork_nothing _ Hno) as (N1 & N2 & N3). split_and!; [done| | |].
    + rewrite pages_below_step by lia. destruct (vmm_pte_has_frame _); simpl; lia.
    + intros w Hw. destruct (decide (w = v)) as [->|]; [|apply H3; lia]. rewrite N1, N2. by split.
    + intros q Hq. rewrite shares_below_step, N3 by lia. simpl. rewrite Z.add_0_r. by apply H4.
Qed.

(** A page with a frame. *)
Lemma forked_page v st st' failed : W_LO ≤ v < W_HI → upage v → forked_to v (st, false) →
  vmm_pte_has_frame (leaf m1 r v) = true → leaf_forked roots st st' r c v failed → forked_to (v + 1) (st', failed).
Proof.
  intros Hv Hu [F1 F2 F3 F4 F5 F6 F7 F8 F9 F10] Hhas [L1 L2 L3 L4 L5 L6 L7 L8 L9 L10 L11]. cbn [fst snd] in *.
  assert (Hlr : leaf (vmem st) r v = leaf m1 r v) by (apply F7; [done|done|lia]).
  assert (Hlc : leaf (vmem st) c v = 0) by (rewrite F7 by (done || lia); by apply Hnew).
  assert (Hnz : ∀ q, fa_ref (vfr st1) q ≠ 0 → fa_ref (vfr st) q ≠ 0).
  { intros q Hq. pose proof (F6 q Hq). pose proof (fa_ref_range (vfr st1) q (tw_inv _ _ (vi_tabs _ _ Hinv))). lia. }
  rewrite Hlr in *. rewrite Hlc in *.
  assert (Hold : ∀ r' w, r' ∈ roots → upage w → w ≠ v ∨ r' ≠ r ∧ r' ≠ c → leaf (vmem st') r' w = leaf (vmem st) r' w) by exact L7.
  assert (Huw : ∀ w, W_LO ≤ w < v → upage w) by (intros w Hw; unfold upage in *; unfold W_LO in *; lia).
  constructor; cbn [fst snd].
  - lia.
  - done.
  - by apply (same_data_trans roots st1 st).
  - by apply (tables_from_trans roots st1 st).
  - congruence.
  - intros q Hq. pose proof (F6 q Hq). pose proof (L6 q (Hnz q Hq)). lia.
  - intros r' w Hr' Hw Hne. rewrite Hold; [|done|done|lia]. apply F7; [done|done|lia].
  - intros w Hw. destruct (decide (w = v)) as [->|]; [done|]. rewrite Hold; [|done|apply Huw; lia|lia]. apply F8. lia.
  - intros w Hw. destruct (decide (w = v)) as [->|]; [done|]. rewrite Hold; [|done|apply Huw; lia|lia]. apply F9. lia.
  - intros Hroom. destruct (F10 Hroom) as (_ & H2 & H3 & H4). pose proof Hroom as Hr4. unfold fork_room in Hr4.
    assert (Hstep : pages_below m1 r (v + 1) = pages_below m1 r v + 1) by (rewrite pages_below_step, Hhas by lia; done).
    assert (Hmono : pages_below m1 r (v + 1) ≤ pages_below m1 r W_HI) by (apply pages_below_mono; lia).
    destruct (L11 ltac:(lia)) as (-> & E1 & E2 & E3). split_and!; [done|lia| |]; clear Hr4 Hmono Hstep Hroom F10 L11.
    + intros w Hw. destruct (decide (w = v)) as [->|Hne]; [exact (conj E1 E2)|].
      assert (Hu' : upage w) by (apply Huw; lia).
      rewrite (Hold r w Hr Hu' (or_introl Hne)), (Hold c w Hc Hu' (or_introl Hne)). apply H3. lia.
    + intros q Hq. rewrite E3 by auto. rewrite H4 by done. rewrite shares_below_step by lia.
      pose proof (shares_below_pos m1 r q v). destruct (names (leaf m1 r v) q); simpl; lia.
Qed.

Lemma fork_walk_step pi di ti s pt : 4 ≤ pi < 16 → 0 ≤ di < 512 → 0 ≤ ti < 512 →
  let v := page_of_indices pi di ti in
  forked_to v s → tbl (vmem s.1) r [0; pi; di] = Some pt →
  forked_to (v + 1) (fork_leaf c pi di ti pt s) ∧
  (∀ p t, upath p → tbl (vmem s.1) r p = Some t → tbl (vmem (fork_leaf c pi di ti pt s).1) r p = Some t).
Proof.
  intros Hpi Hdi Hti v Hft Ht. destruct (window_path pi di ti Hpi Hdi Hti) as (Hw & Hv & _). fold v in Hw, Hv.
  destruct s as [st [|]]; [split; [|by cbn]; apply forked_skip; [done|done|exact Hft|by left]|]. cbn [fst] in Ht.
  pose proof (ft_inv _ _ Hft) as Hi. cbn [fst] in Hi.
  assert (Hlr : leaf (vmem st) r v = leaf m1 r v) by (apply (ft_rest _ _ Hft); [done|done|lia]).
  assert (Hlc : leaf (vmem st) c v = 0).
  { rewrite <- (Hnew v Hv). apply (ft_rest _ _ Hft); [done|done|lia]. }
  destruct (fork_leaf c pi di ti pt (st, false)) as [st' failed] eqn:Ef.
  assert (Htab : table_of roots (vmem st) r [0; pi; di] pt) by (split_and!; [done|by apply upath3|done]).
  pose proof (fork_leaf_spec roots st st' r c pi di ti pt failed Hpi Hdi Hti Hi Hr Hc Hrc Htab) as Hs.
  fold v in Hs. rewrite Hlc, Hlr in Hs. specialize (Hs eq_refl Ef). cbn [fst snd].
  destruct (vmm_pte_has_frame (leaf m1 r v)) eqn:Hhas.
  - split; [by apply (forked_page v st)|]. intros p t Hp E.
    by apply (lf_tabs _ _ _ _ _ _ _ Hs r p t).
  - destruct Hs as [-> ->]. split; [|done]. apply forked_skip; [done|done|exact Hft|by right].
Qed.

Lemma fork_walk_spec :
  forked_to W_HI (walk_user (λ s : state * bool, vmem s.1) r (fork_leaf c) (λ _ s, s) (λ _ _ _ s, s) (λ _ s, s) (st1, false)).
Proof.
  pose proof (table_page _ _ _ _ _ (vi_tabs _ _ Hinv) (root_table _ _ _ (vi_tabs _ _ Hinv) Hr)) as Hp.
  apply (walk_user_inv (λ s : state * bool, vmem s.1) r (fork_leaf c) forked_to).
  - by apply page_addr_mask.
  - intros pi di ti s pt Hpi Hdi Hti Hft Ht. exact (fork_walk_step pi di ti s pt Hpi Hdi Hti Hft Ht).
  - intros v s Hv Hft Ht. assert (Hu : upage v) by (unfold upage, USER_PAGES, W_LO, W_HI in *; lia).
    apply forked_skip; [done|done|exact Hft|]. right. unfold m1. rewrite <- (ft_rest _ _ Hft) by (done || lia).
    by rewrite (leaf_absent _ _ _ Ht).
  - intros v s pi di pdt Hft Hpi Hdi Ht Hpr.
    by apply (window_small roots s.1 r pi di pdt (vi_tabs _ _ (ft_inv _ _ Hft)) Hr Hpi Hdi Ht).
  - exact forked_start.
Qed.
End walk.
End fork.
