(* ===== verification/VmDestroy.v ===== *)
(** * Destroying an address space

    [vmm_space_destroy] gives up the frame of every leaf of the user window,
    then the tables from the leaves up.  The proof accompanies the real memory
    with a ghost one in which leaves and tables that were given up are cleared,
    so that the invariant of the page tables holds at every step. *)

From S2P Require Import Prelude Vma Frames Vmm VmmWf VmmInv VmmOps VmmFault VmSpace VmWalk VmCreate.

(** [n] references after [k] of them were given up. *)
Definition drop_n (n k : Z) : Z := if n =? REF_MAX then REF_MAX else n - k.

Lemma drop_n_add n j k : 0 ≤ n ≤ REF_MAX → 0 ≤ j → drop_n (drop_n n j) k = drop_n n (j + k).
Proof.
  intros Hn Hj. unfold drop_n. destruct (Z.eqb_spec n REF_MAX) as [->|]; [by rewrite Z.eqb_refl|].
  destruct (Z.eqb_spec (n - j) REF_MAX); lia.
Qed.

Lemma drop_n_0 n : drop_n n 0 = n.
Proof. unfold drop_n. destruct (Z.eqb_spec n REF_MAX); lia. Qed.

Lemma drop_n_none k : drop_n 0 k = - k.
Proof. reflexivity. Qed.

Lemma drop_n_1 n : ref_dropped n = drop_n n 1.
Proof. reflexivity. Qed.

Lemma upath_prefix p q : q `prefix_of` p → upath p → upath q.
Proof.
  intros [k ->] (H1 & H2 & H3). rewrite length_app in H1. apply Forall_app in H2 as [H2 _].
  split_and!; [lia|done|]. by destruct q.
Qed.

Section destroy.
Context {A : Type} {ops : FrameOps A} {laws : FrameLaws A}.
Abbreviation state := (vm A).

(** ** Memory with fewer entries *)

Section shrink.
Context (roots : list Z) (m m' : Z → Z).
Hypothesis Hsub : ∀ r p t i, table_of roots m r p t → 0 ≤ i < 512 → m' (slot t i) = m (slot t i) ∨ m' (slot t i) = 0.

Lemma shrink_tbl r p t : table_of roots m' r p t → table_of roots m r p t.
Proof.
  intros (Hr & Hp & Ht). split_and!; [done..|]. revert t Hp Ht.
  induction p as [|i p IH] using rev_ind; intros t Hp; [done|]. destruct (upath_snoc _ _ Hp) as (Hp' & _ & Hi).
  rewrite !tbl_snoc. destruct (tbl m' r p) as [u|]; [|done]. rewrite (IH u Hp' eq_refl).
  assert (Hu : table_of roots m r p u) by (split_and!; [done|done|by apply IH]).
  by destruct (Hsub r p u i Hu Hi) as [->| ->].
Qed.

Lemma shrink_leaf r v : r ∈ roots → upage v → leaf m' r v = leaf m r v ∨ leaf m' r v = 0.
Proof.
  intros Hr Hv. unfold leaf. destruct (tbl m' r (path_of v)) as [t|] eqn:E; [|by right].
  assert (Ht : table_of roots m r (path_of v) t) by (apply shrink_tbl; split_and!; [done|by apply upath_of|done]).
  destruct Ht as (H1 & H2 & H3). rewrite H3. apply (Hsub r (path_of v)); [by split_and!|]. apply Z.mod_pos_bound. lia.
Qed.

Lemma shrink_mapped f x : mapped roots m' f x → mapped roots m f x ∧ leaf m' x.1 x.2 = leaf m x.1 x.2.
Proof.
  intros (H1 & H2 & H3). destruct (shrink_leaf x.1 x.2 H1 H2) as [E|E]; rewrite E in *; [by split_and!|done].
Qed.

Lemma shrink_counted f n : counted roots m f n → ∃ n', counted roots m' f n' ∧ n' ≤ n.
Proof.
  intros (l & Hnd & Hl & <-). set (P := λ x : Z * Z, names (leaf m' x.1 x.2) f = true).
  exists (zlen (filter P l)). split.
  - exists (filter P l). split_and!; [by apply NoDup_filter| |done]. intros x. rewrite list_elem_of_filter, Hl. split.
    + intros [HP (H1 & H2 & _)]. by split_and!.
    + intros Hm. destruct (shrink_mapped f x Hm) as [H _]. split; [apply Hm|done].
  - pose proof (length_filter P l). lia.
Qed.
End shrink.

Lemma shrink_inv roots (st : state) m' :
  vm_inv roots st → (∀ x, is_u64 (m' x)) →
  (∀ r p t i, table_of roots (vmem st) r p t → 0 ≤ i < 512 → m' (slot t i) = vmem st (slot t i) ∨ m' (slot t i) = 0) →
  vm_inv roots (set_mem st m').
Proof.
  intros [Hw Hf] Hu Hsub. pose proof (shrink_tbl roots _ m' Hsub) as Htab.
  pose proof (shrink_mapped roots _ m' Hsub) as Hmap. pose proof (shrink_leaf roots _ m' Hsub) as Hleaf.
  constructor; constructor; cbn [set_mem vmem vfr]; try done; try apply Hw.
  - intros r p t Ht%Htab. by apply (tw_ref _ _ Hw r p).
  - intros r p r' p' t H1%Htab H2%Htab. by apply (tw_inj _ _ Hw r p r' p' t).
  - intros r p t i Ht%Htab Hi. destruct (upath_snoc _ _ Hi) as (_ & _ & Hi5).
    destruct (Hsub r p t i Ht Hi5) as [->| ->]; [by apply (tw_small _ _ Hw r p)|done].
  - intros f. destruct (fw_count _ _ Hf f) as (n & Hc & Hn).
    destruct (shrink_counted roots _ m' Hsub f n Hc) as (n' & Hc' & Hle). exists n'. split; [done|]. lia.
  - intros f x r p [Hm _]%Hmap Ht%Htab. by apply (fw_data _ _ Hf f x r p).
  - intros f x [Hm E]%Hmap. rewrite E. by apply (fw_private _ _ Hf f x).
  - intros r v Hr Hv. destruct (Hleaf r v Hr Hv) as [->| ->]; [by apply (fw_ok _ _ Hf)|done].
  - intros r v Hr Hv. destruct (Hleaf r v Hr Hv) as [->| ->]; [by apply (fw_dev _ _ Hf)|done].
  - intros r i Hr Hi. destruct (Hsub r [] r i (root_table _ _ _ Hw Hr) ltac:(lia)) as [->| ->]; [by apply (fw_kernel _ _ Hf)|done].
Qed.

(** Unlinking a table and giving it back. *)
Lemma free_table roots (st : state) r p t i u :
  vm_inv roots st → table_of roots (vmem st) r p t → table_of roots (vmem st) r (p ++ [i]) u →
  let st' := pmm_free (set_mem st (wr (vmem st) (slot t i) 0)) u in
  vm_inv roots st' ∧ (∀ q, fa_ref (vfr st') q = if q =? u then 0 else fa_ref (vfr st) q).
Proof.
  intros Hinv Ht Hu st'. pose proof Hinv as [Hw Hf]. pose proof Hu as (_ & Hpi & _).
  destruct (upath_snoc _ _ Hpi) as (_ & _ & Hi). set (m' := wr (vmem st) (slot t i) 0).
  assert (Hsub : ∀ r' p' t' j, table_of roots (vmem st) r' p' t' → 0 ≤ j < 512 →
    m' (slot t' j) = vmem st (slot t' j) ∨ m' (slot t' j) = 0).
  { intros r' p' t' j _ _. unfold m', wr. destruct (_ =? _); [by right|by left]. }
  assert (Hinv1 : vm_inv roots (set_mem st m')).
  { apply shrink_inv; [done| |done]. intros x. unfold m', wr. destruct (_ =? _); [unfold is_u64; lia|apply Hw]. }
  apply (free_fresh roots (set_mem st m') u Hinv1).
  - intros r' p' Hu'. pose proof (shrink_tbl _ _ _ Hsub _ _ _ Hu') as Hu0.
    destruct (tw_inj _ _ Hw _ _ _ _ _ Hu0 Hu) as [-> ->]. destruct Hu' as (_ & _ & E). cbn [set_mem vmem] in E.
    rewrite tbl_snoc in E. destruct (tbl m' r p) as [t'|] eqn:Et; [|done].
    assert (Ht' : table_of roots m' r p t') by (split_and!; [apply Ht|apply Ht|done]).
    apply (shrink_tbl _ _ _ Hsub) in Ht'. destruct Ht as (_ & _ & E1), Ht' as (_ & _ & E2).
    rewrite E1 in E2. injection E2 as <-. unfold m', wr in E. by rewrite Z.eqb_refl in E.
  - intros x Hx. destruct (shrink_mapped _ _ _ Hsub _ _ Hx) as [Hm _]. by apply (fw_data _ _ Hf u x r (p ++ [i])).
  - by apply (tw_ref _ _ Hw r (p ++ [i])).
Qed.

(** ** The leaves of one page table *)

Section tables.
Context (roots : list Z) (c : Z).
Hypothesis Hc : c ∈ roots.

(** The ghost memory [g] accompanies state [st]. *)
Definition ghost (g : Z → Z) (st : state) : Prop := vm_inv roots (set_mem st g).

(** The real memory still holds the entries of table [t]. *)
Definition agree (g : Z → Z) (st : state) (t : Z) : Prop :=
  ∀ j, 0 ≤ j < 512 → vmem st (slot t j) = g (slot t j).

(** How many of the first [n] leaves of table [t] name [f]. *)
Definition pt_names (g : Z → Z) (t f : Z) (n : nat) : Z := zcount (λ j, names (g (slot t j)) f) n.

Lemma pt_names_pos g t f n : 0 ≤ pt_names g t f n.
Proof. apply zcount_bound. Qed.

Lemma pt_names_ext g g' t f n : (∀ j, 0 ≤ j < Z.of_nat n → g' (slot t j) = g (slot t j)) → pt_names g t f n = pt_names g' t f n.
Proof. intros H. apply zcount_ext. intros j Hj. by rewrite H. Qed.

Definition kept (st st' : state) : Prop := kspace st' = kspace st ∧ flushes st' = flushes st.

Record pt_done (g : Z → Z) (st : state) (p : list Z) (pt ti : Z) (st' : state) (g' : Z → Z) : Prop := {
  pd_inv : ghost g' st';
  pd_mem : vmem st' = vmem st;
  pd_kept : kept st st';
  pd_table : table_of roots g' c p pt;
  pd_out : ∀ x, in_page pt x = false → g' x = g x;
  pd_todo : ∀ j, ti ≤ j < 512 → g' (slot pt j) = g (slot pt j);
  pd_refs : ∀ f, fa_ref (vfr st') f = drop_n (fa_ref (vfr st) f) (pt_names g pt f (Z.to_nat ti))
}.

Lemma destroy_leaf_step g st pi di ti pt st' g' :
  4 ≤ pi < 16 → 0 ≤ di < 512 → 0 ≤ ti < 512 → ghost g st → agree g st pt →
  pt_done g st [0; pi; di] pt ti st' g' →
  ∃ g2, pt_done g st [0; pi; di] pt (ti + 1) (destroy_leaf pi di ti pt st') g2.
Proof.
  intros Hpi Hdi Hti Hg Hag [I M K T O Td R]. destruct (window_path pi di ti Hpi Hdi Hti) as (_ & Hv & Hpath & Hmod & _).
  set (v := page_of_indices pi di ti) in *.
  pose proof (table_page _ _ _ _ _ (vi_tabs _ _ I) T) as Hpt.
  assert (He : entry st' pt ti = g (slot pt ti)) by (unfold entry; rewrite M; by apply Hag).
  assert (Hl : leaf g' c v = g (slot pt ti)).
  { unfold leaf. rewrite Hpath, Hmod. destruct T as (_ & _ & ->). apply Td. lia. }
  assert (Hstep : ∀ f, pt_names g pt f (Z.to_nat (ti + 1)) = pt_names g pt f (Z.to_nat ti) + b2z (names (g (slot pt ti)) f)).
  { intros f. unfold pt_names. replace (Z.to_nat (ti + 1)) with (S (Z.to_nat ti)) by lia. cbn [zcount].
    by rewrite Z2Nat.id by lia. }
  unfold destroy_leaf. rewrite He. set (e := g (slot pt ti)) in *.
  assert (Hskip : owns_frame e = false → pt_done g st [0; pi; di] pt (ti + 1) st' g').
  { intros Ho. constructor; try done; [intros j Hj; apply Td; lia|]. intros f. rewrite Hstep, R.
    unfold names. rewrite Ho. simpl. by rewrite Z.add_0_r. }
  destruct (vmm_pte_has_frame e) eqn:Eh; cbn [negb]; [|exists g'; apply Hskip; unfold owns_frame; by rewrite Eh].
  destruct (flag e VMM_FLAG_DEVICE) eqn:Ed; [exists g'; apply Hskip; unfold owns_frame; by rewrite Ed, andb_false_r|].
  assert (Ho : owns_frame e = true) by (unfold owns_frame; by rewrite Eh, Ed).
  rewrite pmm_drop_eq. fold (frame_of e). set (st2 := set_fr st' (drop_frame (vfr st') (frame_of e))).
  exists (wr g' (slot pt ti) 0). assert (Hm : mapped roots g' (frame_of e) (c, v)).
  { split_and!; try done. cbn [fst snd]. rewrite Hl. by apply names_owns. }
  pose proof (mapped_ref _ (set_mem st' g') _ _ I Hm) as Hn.
  destruct (drop_frame_spec (vfr st') (frame_of e) (tw_inv _ _ (vi_tabs _ _ I)) Hn) as [_ Hq].
  constructor; try done.
  - apply (clear_inv roots (set_mem st' g') (set_mem st2 (wr g' (slot pt ti) 0)) c v pt I Hc Hv); cbn [set_mem vmem vfr].
    + by rewrite Hpath.
    + by rewrite Hl.
    + by rewrite Hmod.
    + by rewrite Hl.
  - pose proof (leaf_write_tbl roots (set_mem st' g') c v pt 0 (vi_tabs _ _ I) ltac:(by rewrite Hpath)) as Hw.
    cbn [set_mem vmem] in Hw. rewrite Hmod in Hw. destruct T as (T1 & T2 & T3). split_and!; [done..|]. by rewrite Hw.
  - intros x Hx. unfold wr. destruct (Z.eqb_spec x (slot pt ti)) as [->|]; [|by apply O].
    rewrite in_page_slot, Z.eqb_refl in Hx by (done || apply Hpt). done.
  - intros j Hj. unfold wr. destruct (Z.eqb_spec (slot pt j) (slot pt ti)) as [E|_]; [|apply Td; lia].
    apply slot_inj in E as [_ ->]; [lia|apply Hpt|apply Hpt|lia|lia].
  - intros f. cbn [st2 set_fr vfr]. rewrite Hq, Hstep.
    pose proof (fa_ref_range (vfr st) f (tw_inv _ _ (vi_tabs _ _ Hg))) as Hrg.
    assert (H0 : 0 ≤ pt_names g pt f (Z.to_nat ti)) by apply zcount_bound.
    destruct (Z.eqb_spec f (frame_of e)) as [->|Hne].
    + rewrite (proj2 (names_owns e _) (conj Ho eq_refl)), R, drop_n_1. by apply drop_n_add.
    + destruct (names e f) eqn:En; [by apply names_owns in En as [_ ?]|]. simpl. by rewrite Z.add_0_r, R.
Qed.

Lemma tbl_same m m' r p :
  (∀ q i u, q ++ [i] `prefix_of` p → tbl m r q = Some u → m' (slot u i) = m (slot u i)) → tbl m' r p = tbl m r p.
Proof.
  induction p as [|i p IH] using rev_ind; [done|]. intros H. rewrite !tbl_snoc, IH.
  - destruct (tbl m r p) as [u|] eqn:E; [|done]. by rewrite (H p i u).
  - intros q j u Hq. apply H. by apply prefix_app_r.
Qed.

Lemma other_table g st p q t u i : ghost g st → table_of roots g c p t → table_of roots g c q u → p ≠ q →
  0 ≤ i < 512 → in_page t (slot u i) = false.
Proof.
  intros Hg Ht Hu Hne Hi. pose proof (vi_tabs _ _ Hg) as Hw.
  pose proof (table_page _ _ _ _ _ Hw Ht) as [_ Ha]. pose proof (table_page _ _ _ _ _ Hw Hu) as [_ Hb].
  rewrite in_page_slot by done. apply Z.eqb_neq. intros ->.
  by destruct (tw_inj _ _ Hw _ _ _ _ _ Ht Hu).
Qed.

(** A table is untouched by what happens in the page of a table that is not
    above it. *)
Lemma table_kept g g' st p q t u : ghost g st → table_of roots g c p t → table_of roots g c q u →
  ¬ (p `prefix_of` q ∧ p ≠ q) → (∀ x, in_page t x = false → g' x = g x) → table_of roots g' c q u.
Proof.
  intros Hg Ht Hu Hnp Hout. destruct Hu as (H1 & H2 & H3). split_and!; [done..|]. rewrite <- H3.
  apply tbl_same. intros q' i w Hpre Hw. assert (Hq' : upath (q' ++ [i])) by (by eapply upath_prefix).
  destruct (upath_snoc _ _ Hq') as (Hu' & _ & Hi). apply Hout.
  apply (other_table g st p q' t w i Hg Ht); [by split_and!| |done]. intros ->. apply Hnp. split.
  - etrans; [by apply prefix_app_r|done].
  - intros ->. apply prefix_length in Hpre. rewrite length_app in Hpre. simpl in Hpre. lia.
Qed.

(** A page table with its leaves. *)
Lemma destroy_leaves g st pi di pt : 4 ≤ pi < 16 → 0 ≤ di < 512 →
  ghost g st → agree g st pt → table_of roots g c [0; pi; di] pt →
  ∃ g1, pt_done g st [0; pi; di] pt (0 + Z.of_nat 512) (zfor 512 0 (λ ti s, destroy_leaf pi di ti pt s) st) g1.
Proof.
  intros Hpi Hdi Hg Hag Hpt. apply (zfor_inv (λ ti s, ∃ g1, pt_done g st [0; pi; di] pt ti s g1)).
  - exists g. constructor; try done. intros f. unfold pt_names. simpl. by rewrite drop_n_0.
  - intros ti s Hti [g1 H1]. by apply (destroy_leaf_step g st pi di ti pt s g1 Hpi Hdi ltac:(lia) Hg Hag).
Qed.

(** The state after table [pt] below slot [di] of [pdt] is given back. *)
Record pt_freed (g : Z → Z) (st : state) (pdt di pt : Z) (st' : state) (g' : Z → Z) : Prop := {
  pf_inv : ghost g' st';
  pf_mem : vmem st' = vmem st;
  pf_kept : kept st st';
  pf_out : ∀ x, in_page pt x = false → x ≠ slot pdt di → g' x = g x;
  pf_slot : g' (slot pdt di) = 0;
  pf_free : fa_ref (vfr st') pt = 0;
  pf_refs : ∀ f, f ≠ pt → fa_ref (vfr st') f = drop_n (fa_ref (vfr st) f) (pt_names g pt f 512)
}.

Lemma free_pt g st pi di pt pdt st1 g1 :
  ghost g st → table_of roots g c [0; pi] pdt → table_of roots g c [0; pi; di] pt →
  pt_done g st [0; pi; di] pt (0 + Z.of_nat 512) st1 g1 →
  pt_freed g st pdt di pt (pmm_free st1 pt) (wr g1 (slot pdt di) 0).
Proof.
  intros Hg Hpdt Hpt [I1 M1 K1 T1 O1 _ R1].
  assert (Hpdt1 : table_of roots g1 c [0; pi] pdt).
  { apply (table_kept g g1 st [0; pi; di] [0; pi] pt pdt); try done. intros [Hp _]. apply prefix_length in Hp. simpl in Hp. lia. }
  destruct (free_table roots (set_mem st1 g1) c [0; pi] pdt di pt I1 Hpdt1 T1) as [I2 R2].
  constructor.
  - exact I2.
  - exact M1.
  - exact K1.
  - intros x Hx Hne. unfold wr. destruct (Z.eqb_spec x (slot pdt di)); [done|]. by apply O1.
  - unfold wr. by rewrite Z.eqb_refl.
  - etrans; [apply R2|]. by rewrite Z.eqb_refl.
  - intros f Hf. etrans; [apply R2|]. destruct (Z.eqb_spec f pt); [done|]. exact (R1 f).
Qed.

Lemma destroy_pt g st pi di pt pdt : 4 ≤ pi < 16 → 0 ≤ di < 512 →
  ghost g st → agree g st pt → table_of roots g c [0; pi] pdt → table_of roots g c [0; pi; di] pt →
  ∃ g', pt_freed g st pdt di pt (pmm_free (zfor 512 0 (λ ti s, destroy_leaf pi di ti pt s) st) pt) g'.
Proof.
  intros Hpi Hdi Hg Hag Hpdt Hpt. destruct (destroy_leaves g st pi di pt Hpi Hdi Hg Hag Hpt) as (g1 & H1).
  eexists. exact (free_pt g st pi di pt pdt _ g1 Hg Hpdt Hpt H1).
Qed.

(** ** One page directory *)

(** How many of the [n] pages from [base] on name [f]. *)
Definition win_names (g : Z → Z) (f base n : Z) : Z := zcount (λ k, names (leaf g c (base + k)) f) (Z.to_nat n).

Lemma win_names_pos g f base n : 0 ≤ win_names g f base n.
Proof. apply zcount_bound. Qed.

Lemma win_names_add g f base n k : 0 ≤ n → 0 ≤ k →
  win_names g f base (n + k) = win_names g f base n + win_names g f (base + n) k.
Proof.
  intros Hn Hk. unfold win_names. rewrite Z2Nat.inj_add by done. rewrite zcount_add. f_equal.
  apply zcount_ext. intros i _. rewrite Z2Nat.id by done. by rewrite Z.add_assoc.
Qed.

Lemma win_names_exists g f base n : win_names g f base n ≠ 0 → ∃ k, 0 ≤ k < n ∧ names (leaf g c (base + k)) f = true.
Proof. intros (k & Hk & Hn)%zcount_exists. exists k. split; [lia|done]. Qed.

Lemma win_names_none g f base n : (∀ k, 0 ≤ k < n → leaf g c (base + k) = 0) → win_names g f base n = 0.
Proof. intros H. apply zcount_none. intros i Hi. rewrite H by lia. done. Qed.

Lemma win_names_pt g f pi di pt : 4 ≤ pi < 16 → 0 ≤ di < 512 → table_of roots g c [0; pi; di] pt →
  win_names g f (page_of_indices pi di 0) 512 = pt_names g pt f 512.
Proof.
  intros Hpi Hdi (_ & _ & Ht). unfold win_names, pt_names. apply zcount_ext. intros j Hj.
  destruct (window_path pi di j Hpi Hdi ltac:(lia)) as (_ & _ & Hp & Hm & _).
  replace (page_of_indices pi di 0 + j) with (page_of_indices pi di j) by (unfold page_of_indices; lia).
  unfold leaf. by rewrite Hp, Hm, Ht.
Qed.

Record pdt_done (g : Z → Z) (st : state) (pi pdt di : Z) (st' : state) (g' : Z → Z) : Prop := {
  qd_inv : ghost g' st';
  qd_mem : vmem st' = vmem st;
  qd_kept : kept st st';
  qd_table : table_of roots g' c [0; pi] pdt;
  qd_out : ∀ x, in_page pdt x = false → (∀ j pt, 0 ≤ j < di → table_of roots g c [0; pi; j] pt → in_page pt x = false) → g' x = g x;
  qd_todo : ∀ j, di ≤ j < 512 → g' (slot pdt j) = g (slot pdt j);
  qd_free : ∀ j pt, 0 ≤ j < di → table_of roots g c [0; pi; j] pt → fa_ref (vfr st') pt = 0;
  qd_refs : ∀ f, (∀ j pt, 0 ≤ j < di → table_of roots g c [0; pi; j] pt → f ≠ pt) →
    fa_ref (vfr st') f = drop_n (fa_ref (vfr st) f) (win_names g f (page_of_indices pi 0 0) (di * 512))
}.

Lemma table_slot g pi pdt di : 4 ≤ pi < 16 → 0 ≤ di < 512 → table_of roots g c [0; pi] pdt →
  ∀ pt, table_of roots g c [0; pi; di] pt ↔ is_present (g (slot pdt di)) = true ∧ pt = Z.land (g (slot pdt di)) ADDRESS_MASK.
Proof.
  intros Hpi Hdi (H1 & H2 & H3) pt. change [0; pi; di] with ([0; pi] ++ [di]). unfold table_of. rewrite tbl_snoc, H3.
  pose proof (upath3 pi di Hpi Hdi). destruct (is_present _); [|naive_solver]. split; [|naive_solver]. intros (_ & _ & [= <-]). done.
Qed.

Lemma leaf_hole g pi pdt di k : 4 ≤ pi < 16 → 0 ≤ di < 512 → 0 ≤ k < 512 → table_of roots g c [0; pi] pdt →
  is_present (g (slot pdt di)) = false → leaf g c (page_of_indices pi di 0 + k) = 0.
Proof.
  intros Hpi Hdi Hk (_ & _ & Ht) Hp. destruct (window_path pi di k Hpi Hdi Hk) as (_ & _ & Hpath & _).
  replace (page_of_indices pi di 0 + k) with (page_of_indices pi di k) by (unfold page_of_indices; lia).
  unfold leaf. rewrite Hpath. change [0; pi; di] with ([0; pi] ++ [di]). by rewrite tbl_snoc, Ht, Hp.
Qed.

Lemma pdt_step_pt g st pi pdt di s g1 pt s2 g2 : 4 ≤ pi < 16 → 0 ≤ di < 512 →
  ghost g st → table_of roots g c [0; pi] pdt → table_of roots g c [0; pi; di] pt →
  pdt_done g st pi pdt di s g1 → pt_freed g1 s pdt di pt s2 g2 →
  (∀ j, 0 ≤ j < 512 → g1 (slot pt j) = g (slot pt j)) → table_of roots g1 c [0; pi; di] pt →
  pdt_done g st pi pdt (di + 1) s2 g2.
Proof.
  intros Hpi Hdi Hg Hpdt Hpt [I M K T O Td F R] [I2 M2 [K2 L2] O2 S2 F2 R2] Hsame Hpt1.
  pose proof (table_page _ _ _ _ _ (vi_tabs _ _ Hg) Hpdt) as [_ Hpa].
  pose proof (table_page _ _ _ _ _ (vi_tabs _ _ Hg) Hpt) as [_ Hta].
  assert (Hne : [0; pi] ≠ [0; pi; di]) by done.
  assert (Hpos : ∀ f, 0 ≤ fa_ref (vfr s2) f) by (intros f; apply fa_ref_range, I2).
  assert (Hcnt : ∀ f, 0 ≤ pt_names g1 pt f 512) by (intros f; apply pt_names_pos).
  constructor; [exact I2|by rewrite M2| |..].
  - destruct K as [K1 K3]. split; congruence.
  - pose proof T as (T1 & T2 & T3). split_and!; [done..|]. rewrite <- T3. apply tbl_same. intros q i u Hq Hu.
    assert (Hq' : upath (q ++ [i])) by (by eapply upath_prefix). destruct (upath_snoc _ _ Hq') as (Hu' & _ & Hi).
    assert (Hqt : table_of roots g1 c q u) by (by split_and!). apply prefix_length in Hq as Hlen. rewrite length_app in Hlen. simpl in Hlen.
    apply O2; [apply (other_table g1 s [0; pi; di] q pt u i I Hpt1 Hqt); [intros <-; simpl in Hlen; lia|done]|].
    intros E. pose proof (other_table g1 s [0; pi] q pdt u i I T Hqt) as Ho.
    rewrite E, in_page_slot, Z.eqb_refl in Ho by (done || lia).
    assert (Hqn : [0; pi] ≠ q) by (intros <-; simpl in Hlen; lia). discriminate (Ho Hqn Hi).
  - intros x Hx Hall. rewrite O2.
    + apply O; [done|]. intros j u Hj. apply Hall. lia.
    + apply (Hall di); [lia|done].
    + intros ->. rewrite in_page_slot, Z.eqb_refl in Hx by (done || lia). done.
  - intros j Hj. rewrite O2; [apply Td; lia| |].
    + apply (other_table g st [0; pi; di] [0; pi] pt pdt j Hg Hpt Hpdt); [done|lia].
    + intros E. apply slot_inj in E as [_ ?]; try done; lia.
  - intros j u Hj Hu. destruct (decide (j = di)) as [->|Hjd].
    + destruct Hu as (_ & _ & Hu), Hpt as (_ & _ & Hpt). rewrite Hpt in Hu. by injection Hu as <-.
    + pose proof (F j u ltac:(lia) Hu) as Hz. specialize (Hpos u). specialize (Hcnt u).
      assert (Hup : u ≠ pt).
      { intros ->. destruct (tw_inj _ _ (vi_tabs _ _ Hg) _ _ _ _ _ Hu Hpt) as [_ [=]]. done. }
      pose proof (R2 u Hup) as E. rewrite Hz, drop_n_none in E. lia.
  - intros f Hf. rewrite R2 by (apply (Hf di); [lia|done]). rewrite R by (intros j u Hj; apply Hf; lia).
    replace ((di + 1) * 512) with (di * 512 + 512) by lia. rewrite win_names_add by lia.
    replace (page_of_indices pi 0 0 + di * 512) with (page_of_indices pi di 0) by (unfold page_of_indices; lia).
    rewrite (win_names_pt g f pi di pt) by done.
    rewrite (pt_names_ext g g1) by exact Hsame. apply drop_n_add; [apply fa_ref_range, Hg | apply win_names_pos].
Qed.

Definition destroy_di (pi pdt di : Z) (s : state) : state :=
  let pdte := vmem s (slot pdt di) in
  if negb (is_present pdte) then s
  else if flag pdte VMM_FLAG_PS then s
  else let pt := Z.land pdte ADDRESS_MASK in pmm_free (zfor 512 0 (λ ti s, destroy_leaf pi di ti pt s) s) pt.

Lemma destroy_di_step g st pi pdt di s g1 : 4 ≤ pi < 16 → 0 ≤ di < 512 →
  ghost g st → table_of roots g c [0; pi] pdt → agree g st pdt →
  (∀ j pt, 0 ≤ j < 512 → table_of roots g c [0; pi; j] pt → agree g st pt) →
  pdt_done g st pi pdt di s g1 → ∃ g2, pdt_done g st pi pdt (di + 1) (destroy_di pi pdt di s) g2.
Proof.
  intros Hpi Hdi Hg Hpdt Hag Hagp Hd. pose proof Hd as [I M K T O Td F R]. unfold destroy_di.
  rewrite M, (Hag di Hdi). pose proof (table_slot g pi pdt di Hpi Hdi Hpdt) as Hslot.
  destruct (is_present (g (slot pdt di))) eqn:Ep; cbn [negb].
  2: { exists g1. constructor; try done.
       - intros x Hx Hall. apply O; [done|]. intros j u Hj. apply Hall. lia.
       - intros j Hj. apply Td. lia.
       - intros j u Hj Hu. destruct (decide (j = di)) as [->|]; [by apply Hslot in Hu as [? _]|]. apply (F j); [lia|done].
       - intros f Hf. rewrite R by (intros j u Hj; apply Hf; lia).
         replace ((di + 1) * 512) with (di * 512 + 512) by lia. rewrite win_names_add by lia.
         replace (page_of_indices pi 0 0 + di * 512) with (page_of_indices pi di 0) by (unfold page_of_indices; lia).
         rewrite (win_names_none g f (page_of_indices pi di 0)); [by rewrite Z.add_0_r|].
         intros k Hk. by apply (leaf_hole g pi pdt). }
  pose proof (tw_small _ _ (vi_tabs _ _ Hg) c [0; pi] pdt di Hpdt (upath3 pi di Hpi Hdi) Ep) as Hps.
  cbn [set_mem vmem] in Hps. rewrite Hps.
  set (pt := Z.land (g (slot pdt di)) ADDRESS_MASK) in *. assert (Hpt : table_of roots g c [0; pi; di] pt) by (by apply Hslot).
  assert (Hsame : ∀ j, 0 ≤ j < 512 → g1 (slot pt j) = g (slot pt j)).
  { intros j Hj. apply O; [by apply (other_table g st [0; pi] [0; pi; di])|]. intros j' u Hj' Hu.
    apply (other_table g st [0; pi; j'] [0; pi; di] u pt j Hg Hu Hpt); [|done]. intros [= ->]. lia. }
  assert (Hpt1 : table_of roots g1 c [0; pi; di] pt).
  { apply (table_slot g1 pi pdt di Hpi Hdi T). rewrite Td by lia. done. }
  assert (Hag1 : agree g1 s pt) by (intros j Hj; rewrite M, Hsame by done; by apply (Hagp di)).
  destruct (destroy_pt g1 s pi di pt pdt Hpi Hdi I Hag1 T Hpt1) as [g2 H2].
  exists g2. exact (pdt_step_pt g st pi pdt di s g1 pt _ g2 Hpi Hdi Hg Hpdt Hpt Hd H2 Hsame Hpt1).
Qed.

Lemma destroy_dis g st pi pdt : 4 ≤ pi < 16 →
  ghost g st → table_of roots g c [0; pi] pdt → agree g st pdt →
  (∀ j pt, 0 ≤ j < 512 → table_of roots g c [0; pi; j] pt → agree g st pt) →
  ∃ g1, pdt_done g st pi pdt (0 + Z.of_nat 512) (zfor 512 0 (destroy_di pi pdt) st) g1.
Proof.
  intros Hpi Hg Ht Hag Hagp. apply (zfor_inv (λ di s, ∃ g1, pdt_done g st pi pdt di s g1)).
  - exists g. constructor; try done; try (intros; lia). intros f _. unfold win_names. simpl. by rewrite drop_n_0.
  - intros di s Hdi [g1 H1]. by apply (destroy_di_step g st pi pdt di s g1 Hpi ltac:(lia) Hg Ht Hag Hagp).
Qed.

Record pdt_freed (g : Z → Z) (st : state) (pdpt pi pdt : Z) (st' : state) (g' : Z → Z) : Prop := {
  rf_inv : ghost g' st';
  rf_mem : vmem st' = wr (vmem st) (slot pdpt pi) 0;
  rf_kept : kept st st';
  rf_out : ∀ x, (∀ q u, table_of roots g c (0 :: pi :: q) u → in_page u x = false) → x ≠ slot pdpt pi → g' x = g x;
  rf_slot : g' (slot pdpt pi) = 0;
  rf_free : ∀ q u, table_of roots g c (0 :: pi :: q) u → fa_ref (vfr st') u = 0;
  rf_refs : ∀ f, (∀ q u, table_of roots g c (0 :: pi :: q) u → f ≠ u) →
    fa_ref (vfr st') f = drop_n (fa_ref (vfr st) f) (win_names g f (page_of_indices pi 0 0) 262144)
}.

(** The tables below a slot of the PDPT. *)
Lemma below_cases g pi q u : table_of roots g c (0 :: pi :: q) u → q = [] ∨ ∃ j, 0 ≤ j < 512 ∧ q = [j].
Proof.
  intros (_ & (Hl & Hf & _) & _). destruct q as [|j [|k q]]; [by left| |simpl in Hl; lia]. right. exists j.
  split; [|done]. rewrite !Forall_cons in Hf. apply Hf.
Qed.

Lemma free_pdt g st pdpt pi pdt st1 g1 : 4 ≤ pi < 16 →
  ghost g st → table_of roots g c [0] pdpt → table_of roots g c [0; pi] pdt →
  pdt_done g st pi pdt (0 + Z.of_nat 512) st1 g1 →
  pdt_freed g st pdpt pi pdt (put (pmm_free st1 pdt) pdpt pi 0) (wr g1 (slot pdpt pi) 0).
Proof.
  intros Hpi Hg Hpp Hpt [I M K T O _ F R]. change (0 + Z.of_nat 512) with 512 in *. change (512 * 512) with 262144 in R.
  assert (Hpp1 : table_of roots g1 c [0] pdpt).
  { pose proof Hpp as (H1 & H2 & H3). split_and!; [done..|]. rewrite <- H3. apply tbl_same. intros q i u Hq Hu.
    apply prefix_length in Hq as Hlen. rewrite length_app in Hlen. simpl in Hlen. destruct q; [|simpl in Hlen; lia].
    destruct Hq as [k Hk]. simpl in Hk. injection Hk as <- _. injection Hu as <-.
    assert (Hroot : table_of roots g c [] c) by (split_and!; try done; split_and!; simpl; (done || lia)).
    apply O; [by apply (other_table g st [0; pi] [])|]. intros j pt Hj Hpt'. by apply (other_table g st [0; pi; j] [] pt c 0 Hg Hpt' Hroot). }
  destruct (free_table roots (set_mem st1 g1) c [0] pdpt pi pdt I Hpp1 T) as [I2 R2].
  cbn [pmm_free set_fr set_mem vfr vmem] in R2.
  constructor.
  - exact I2.
  - cbn [put pmm_free set_fr set_mem vmem]. by rewrite M.
  - exact K.
  - intros x Hx Hne. unfold wr. destruct (Z.eqb_spec x (slot pdpt pi)); [done|]. apply O; [by apply (Hx [])|].
    intros j pt Hj. apply (Hx [j]).
  - unfold wr. by rewrite Z.eqb_refl.
  - intros q u Hu. etrans; [exact (R2 u)|]. destruct (Z.eqb_spec u pdt) as [|Hne]; [done|].
    destruct (below_cases g pi q u Hu) as [->|(j & Hj & ->)]; [|by apply (F j)].
    destruct Hu as (_ & _ & Hu), Hpt as (_ & _ & Hpt). congruence.
  - intros f Hf. etrans; [exact (R2 f)|]. destruct (Z.eqb_spec f pdt) as [E|Hne]; [by destruct (Hf [] pdt)|].
    apply R. intros j pt Hj. apply (Hf [j]).
Qed.

(** ** The PDPT *)

Record pdpt_done (st : state) (pdpt pi : Z) (st' : state) (g' : Z → Z) : Prop := {
  ud_inv : ghost g' st';
  ud_kept : kept st st';
  ud_mem : ∀ x, (∀ j, 4 ≤ j < pi → x ≠ slot pdpt j) → vmem st' x = vmem st x;
  ud_words : ∀ x, is_u64 (vmem st' x);
  ud_out : ∀ x, in_page pdpt x = false →
    (∀ j q u, 4 ≤ j < pi → table_of roots (vmem st) c (0 :: j :: q) u → in_page u x = false) → g' x = vmem st x;
  ud_todo : ∀ j, pi ≤ j < 512 → g' (slot pdpt j) = vmem st (slot pdpt j);
  ud_free : ∀ j q u, 4 ≤ j < pi → table_of roots (vmem st) c (0 :: j :: q) u → fa_ref (vfr st') u = 0;
  ud_refs : ∀ f, (∀ j q u, 4 ≤ j < pi → table_of roots (vmem st) c (0 :: j :: q) u → f ≠ u) →
    fa_ref (vfr st') f = drop_n (fa_ref (vfr st) f) (win_names (vmem st) f W_LO ((pi - 4) * 262144))
}.

Section pdpt.
Context (st : state) (pdpt : Z).
Hypothesis Hinv : vm_inv roots st.
Hypothesis Hpp : table_of roots (vmem st) c [0] pdpt.

Lemma st_ghost : ghost (vmem st) st.
Proof. unfold ghost. by destruct st. Qed.

Lemma root_self : table_of roots (vmem st) c [] c.
Proof. by apply (root_table roots st c (vi_tabs _ _ Hinv)). Qed.

(** What is below slots not yet reached is as it was. *)
Lemma below_kept pi s g1 q u i : 4 ≤ pi < 16 → pdpt_done st pdpt pi s g1 →
  table_of roots (vmem st) c (0 :: pi :: q) u → 0 ≤ i < 512 → g1 (slot u i) = vmem st (slot u i) ∧ vmem s (slot u i) = vmem st (slot u i).
Proof.
  intros Hpi [I K M Uw O Td F R] Hu Hi. pose proof st_ghost as Hg.
  assert (Hpn : in_page pdpt (slot u i) = false) by (by apply (other_table _ _ [0] (0 :: pi :: q) pdpt u i Hg Hpp Hu)).
  split.
  - apply O; [done|]. intros j q' w Hj Hw. apply (other_table _ _ _ _ _ _ _ Hg Hw Hu); [intros [= -> _]; lia|done].
  - apply M. intros j Hj E. pose proof (table_page _ _ _ _ _ (vi_tabs _ _ Hinv) Hpp) as [_ Ha].
    rewrite E, in_page_slot, Z.eqb_refl in Hpn by (done || lia). done.
Qed.

Lemma top_kept pi s g1 : pdpt_done st pdpt pi s g1 →
  g1 (slot c 0) = vmem st (slot c 0) ∧ table_of roots g1 c [0] pdpt.
Proof.
  intros [I K M Uw O Td F R]. pose proof st_ghost as Hg. pose proof root_self as Hroot.
  assert (E : g1 (slot c 0) = vmem st (slot c 0)).
  { apply O; [by apply (other_table _ _ [0] [] pdpt c 0 Hg Hpp Hroot)|].
    intros j q w Hj Hw. by apply (other_table _ _ _ _ _ _ _ Hg Hw Hroot). }
  split; [done|]. pose proof Hpp as (H1 & H2 & H3). split_and!; [done..|]. simpl in *. by rewrite E.
Qed.

Lemma below_tbl pi s g1 q : 4 ≤ pi < 16 → pdpt_done st pdpt pi s g1 → upath (0 :: pi :: q) →
  tbl g1 c (0 :: pi :: q) = tbl (vmem st) c (0 :: pi :: q).
Proof.
  intros Hpi Hd Hq. apply tbl_same. intros p i u Hp Hu. assert (Hp' : upath (p ++ [i])) by (by eapply upath_prefix).
  destruct (upath_snoc _ _ Hp') as (Hup & _ & Hi). destruct Hp as [k Hk]. destruct p as [|a [|b p]].
  - injection Hu as <-. injection Hk as <-. apply (top_kept pi s g1 Hd).
  - injection Hk as <- <- _. destruct Hpp as (_ & _ & Hpp'). rewrite Hpp' in Hu. injection Hu as <-. apply (ud_todo _ _ _ _ _ Hd). lia.
  - injection Hk as <- <- _. apply (below_kept pi s g1 p u i Hpi Hd); [by split_and!|done].
Qed.

Lemma below_table pi s g1 q u : 4 ≤ pi < 16 → pdpt_done st pdpt pi s g1 →
  table_of roots g1 c (0 :: pi :: q) u ↔ table_of roots (vmem st) c (0 :: pi :: q) u.
Proof.
  intros Hpi Hd. split; intros (H1 & H2 & H3); (split_and!; [done..|]).
  - by rewrite (below_tbl pi s g1) in H3.
  - by rewrite (below_tbl pi s g1).
Qed.

Lemma below_names pi s g1 f n : 4 ≤ pi < 16 → pdpt_done st pdpt pi s g1 → 0 ≤ n ≤ 262144 →
  win_names g1 f (page_of_indices pi 0 0) n = win_names (vmem st) f (page_of_indices pi 0 0) n.
Proof.
  intros Hpi Hd Hn. apply zcount_ext. intros k Hk. f_equal.
  assert (Hk' : 0 ≤ k < 262144) by lia. set (di := k / 512). set (ti := k mod 512).
  assert (Hdi : 0 ≤ di < 512) by (unfold di; Z.to_euclidean_division_equations; lia).
  assert (Hti : 0 ≤ ti < 512) by (apply Z.mod_pos_bound; lia).
  replace (page_of_indices pi 0 0 + k) with (page_of_indices pi di ti)
    by (unfold page_of_indices, di, ti; Z.to_euclidean_division_equations; lia).
  destruct (window_path pi di ti Hpi Hdi Hti) as (_ & _ & Hp & Hm & _). unfold leaf. rewrite Hp, Hm.
  rewrite (below_tbl pi s g1 [di] Hpi Hd (upath3 pi di Hpi Hdi)).
  destruct (tbl (vmem st) c [0; pi; di]) as [t|] eqn:E; [|done].
  apply (below_kept pi s g1 [di] t ti Hpi Hd); [|done]. split_and!; [done|by apply upath3|done].
Qed.

#[local] Opaque win_names.

Lemma win_names_next g f pi : 4 ≤ pi →
  win_names g f W_LO ((pi + 1 - 4) * 262144) =
  win_names g f W_LO ((pi - 4) * 262144) + win_names g f (page_of_indices pi 0 0) 262144.
Proof.
  intros Hpi. replace ((pi + 1 - 4) * 262144) with ((pi - 4) * 262144 + 262144) by lia.
  assert (E : W_LO + (pi - 4) * 262144 = page_of_indices pi 0 0) by (unfold page_of_indices, W_LO; lia).
  by rewrite win_names_add, E by lia.
Qed.

Lemma pdpt_step pi s g1 pdt s2 g2 : 4 ≤ pi < 16 → pdpt_done st pdpt pi s g1 →
  pdt_freed g1 s pdpt pi pdt s2 g2 → pdpt_done st pdpt (pi + 1) s2 g2.
Proof.
  intros Hpi Hd [I2 M2 [K2 L2] O2 S2 F2 R2]. pose proof Hd as [I [K L] M Uw O Td F R]. pose proof st_ghost as Hg.
  pose proof (table_page _ _ _ _ _ (vi_tabs _ _ Hinv) Hpp) as [_ Ha].
  pose proof (λ q u, below_table pi s g1 q u Hpi Hd) as Hbt.
  constructor; [exact I2|split; congruence|..].
  - intros x Hx. rewrite M2. unfold wr. destruct (Z.eqb_spec x (slot pdpt pi)) as [->|]; [by destruct (Hx pi); [lia|]|].
    apply M. intros j Hj. apply Hx. lia.
  - intros x. rewrite M2. unfold wr. destruct (_ =? _); [unfold is_u64; lia|done].
  - intros x Hx Hall. rewrite O2.
    + apply O; [done|]. intros j q u Hj. apply Hall. lia.
    + intros q u Hu%Hbt. apply (Hall pi q); [lia|done].
    + intros ->. rewrite in_page_slot, Z.eqb_refl in Hx by (done || lia). done.
  - intros j Hj. rewrite O2; [apply Td; lia| |].
    + intros q u Hu%Hbt. apply (other_table _ _ _ _ _ _ _ Hg Hu Hpp); [done|lia].
    + intros E. apply slot_inj in E as [_ ?]; try done; lia.
  - intros j q u Hj Hu. destruct (decide (j = pi)) as [->|Hne]; [apply (F2 q), Hbt, Hu|].
    assert (Hz : fa_ref (vfr s) u = 0) by (apply (F j q); [lia|done]).
    assert (E : fa_ref (vfr s2) u = drop_n (fa_ref (vfr s) u) (win_names g1 u (page_of_indices pi 0 0) 262144)).
    { apply R2. intros q' w Hw%Hbt ->. destruct (tw_inj _ _ (vi_tabs _ _ Hinv) _ _ _ _ _ Hu Hw) as [_ [=]]. done. }
    rewrite Hz, drop_n_none in E. pose proof (win_names_pos g1 u (page_of_indices pi 0 0) 262144).
    pose proof (fa_ref_range (vfr s2) u (tw_inv _ _ (vi_tabs _ _ I2))). lia.
  - intros f Hf. rewrite R2 by (intros q u Hu%Hbt; apply (Hf pi q); [lia|done]).
    rewrite R by (intros j q u Hj; apply Hf; lia). rewrite (below_names pi s g1) by (done || lia).
    rewrite win_names_next by lia. apply drop_n_add; [apply fa_ref_range, Hinv | apply win_names_pos].
Qed.

Lemma pdpt_hole pi s g1 : 4 ≤ pi < 16 → pdpt_done st pdpt pi s g1 → is_present (vmem st (slot pdpt pi)) = false →
  pdpt_done st pdpt (pi + 1) s g1.
Proof.
  intros Hpi [I K M Uw O Td F R] Hp. destruct Hpp as (_ & _ & Hpp').
  assert (Hno : ∀ q, tbl (vmem st) c (0 :: pi :: q) = None).
  { intros q. simpl in Hpp' |- *. destruct (is_present (vmem st (slot c 0))); [|done]. injection Hpp' as ->. by rewrite Hp. }
  assert (Hnt : ∀ q u, ¬ table_of roots (vmem st) c (0 :: pi :: q) u) by (intros q u (_ & _ & H); by rewrite Hno in H).
  constructor; [exact I|exact K|..].
  - intros x Hx. apply M. intros j Hj. apply Hx. lia.
  - exact Uw.
  - intros x Hx Hall. apply O; [done|]. intros j q u Hj. apply Hall. lia.
  - intros j Hj. apply Td. lia.
  - intros j q u Hj Hu. destruct (decide (j = pi)) as [->|]; [by apply Hnt in Hu|]. apply (F j q); [lia|done].
  - intros f Hf. rewrite R by (intros j q u Hj; apply Hf; lia). rewrite win_names_next by lia.
    rewrite (win_names_none (vmem st) f (page_of_indices pi 0 0)); [by rewrite Z.add_0_r|]. intros k Hk.
    set (di := k / 512). set (ti := k mod 512).
    assert (Hdi : 0 ≤ di < 512) by (unfold di; Z.to_euclidean_division_equations; lia).
    assert (Hti : 0 ≤ ti < 512) by (apply Z.mod_pos_bound; lia).
    replace (page_of_indices pi 0 0 + k) with (page_of_indices pi di ti)
      by (unfold page_of_indices, di, ti; Z.to_euclidean_division_equations; lia).
    destruct (window_path pi di ti Hpi Hdi Hti) as (_ & _ & Hpath & _). unfold leaf. by rewrite Hpath, Hno.
Qed.

Definition destroy_pi (pi : Z) (s : state) : state :=
  let pdpte := vmem s (slot pdpt pi) in
  if negb (is_present pdpte) then s
  else let pdt := Z.land pdpte ADDRESS_MASK in put (pmm_free (zfor 512 0 (destroy_di pi pdt) s) pdt) pdpt pi 0.

Lemma destroy_pi_step pi s g1 : 4 ≤ pi < 16 → pdpt_done st pdpt pi s g1 →
  ∃ g2, pdpt_done st pdpt (pi + 1) (destroy_pi pi s) g2.
Proof.
  intros Hpi Hd. unfold destroy_pi. pose proof (table_page _ _ _ _ _ (vi_tabs _ _ Hinv) Hpp) as [_ Ha].
  assert (E : vmem s (slot pdpt pi) = vmem st (slot pdpt pi)).
  { apply (ud_mem _ _ _ _ _ Hd). intros j Hj E. apply slot_inj in E as [_ ?]; try done; lia. }
  rewrite E. destruct (is_present (vmem st (slot pdpt pi))) eqn:Ep; cbn [negb]; [|exists g1; by apply pdpt_hole].
  set (pdt := Z.land (vmem st (slot pdpt pi)) ADDRESS_MASK).
  assert (Hpdt : table_of roots (vmem st) c [0; pi] pdt).
  { split_and!; [done|by apply upath2|]. change [0; pi] with ([0] ++ [pi]). rewrite tbl_snoc.
    destruct Hpp as (_ & _ & ->). by rewrite Ep. }
  assert (Hpdt1 : table_of roots g1 c [0; pi] pdt) by (by apply (below_table pi s g1 [] pdt Hpi Hd)).
  destruct (top_kept pi s g1 Hd) as [_ Hpp1].
  assert (Hagr : ∀ q u, table_of roots g1 c (0 :: pi :: q) u → agree g1 s u).
  { intros q u Hu%(below_table pi s g1 q u Hpi Hd) j Hj. by destruct (below_kept pi s g1 q u j Hpi Hd Hu Hj) as [-> ->]. }
  destruct (destroy_dis g1 s pi pdt Hpi (ud_inv _ _ _ _ _ Hd) Hpdt1 (Hagr [] pdt Hpdt1)) as [g2 H2].
  { intros j u Hj Hu. by apply (Hagr [j]). }
  pose proof (free_pdt g1 s pdpt pi pdt _ g2 Hpi (ud_inv _ _ _ _ _ Hd) Hpp1 Hpdt1 H2) as H3.
  eexists. exact (pdpt_step pi s g1 pdt _ _ Hpi Hd H3).
Qed.

Lemma destroy_pis : ∃ g1, pdpt_done st pdpt (pdpt_lo + Z.of_nat PDPT_N) (zfor PDPT_N pdpt_lo destroy_pi st) g1.
Proof.
  apply (zfor_inv (λ pi s, ∃ g1, pdpt_done st pdpt pi s g1)).
  - exists (vmem st). constructor; try done; try (change pdpt_lo with 4; intros; lia); [apply st_ghost|apply Hinv|].
    intros f _. change ((pdpt_lo - 4) * 262144) with 0. rewrite win_names_none by lia. by rewrite drop_n_0.
  - intros pi s Hpi [g1 H1]. change (4 ≤ pi < 4 + 12) in Hpi. apply (destroy_pi_step pi s g1); [lia|done].
Qed.
End pdpt.
End tables.

(** ** The whole space *)

(** The tables that the walk reaches. *)
Definition walked (p : list Z) : Prop := p = [] ∨ p = [0] ∨ ∃ j q, 4 ≤ j < 16 ∧ p = 0 :: j :: q.

(** The references of the leaves of the window. *)
Definition window_names (m : Z → Z) (c f : Z) : Z := win_names c m f W_LO ((16 - 4) * 262144).

Record destroyed (rest : list Z) (st : state) (c : Z) (st' : state) : Prop := {
  ds_inv : vm_inv rest st';
  ds_leaves : same_leaves rest (vmem st) (vmem st');
  ds_mem : ∀ x, (∀ p t, table_of (c :: rest) (vmem st) c p t → in_page t x = false) → vmem st' x = vmem st x;
  ds_tables : ∀ p t, table_of (c :: rest) (vmem st) c p t → walked p → fa_ref (vfr st') t = 0;
  ds_refs : ∀ f, (∀ p t, table_of (c :: rest) (vmem st) c p t → f ≠ t) →
    fa_ref (vfr st') f = drop_n (fa_ref (vfr st) f) (window_names (vmem st) c f);
  ds_kept : kept st st'
}.

(** The last step: the root itself. *)
Lemma destroy_root rest (st s : state) g c :
  vm_inv (c :: rest) st → c ∉ rest → ghost (c :: rest) g s → kept st s →
  (∀ x, (∀ p t, table_of (c :: rest) (vmem st) c p t → in_page t x = false) → g x = vmem st x ∧ vmem s x = vmem st x) →
  (∀ x, is_u64 (vmem s x)) → fa_ref (vfr s) c = 1 →
  (∀ p t, table_of (c :: rest) (vmem st) c p t → walked p → p ≠ [] → fa_ref (vfr s) t = 0) →
  (∀ f, (∀ p t, table_of (c :: rest) (vmem st) c p t → f ≠ t) →
    fa_ref (vfr s) f = drop_n (fa_ref (vfr st) f) (window_names (vmem st) c f)) →
  destroyed rest st c (pmm_free s c).
Proof.
  intros Hinv Hc Hg Hk Hout Hu64 Hc1 Hfree Hrefs. pose proof (vi_tabs _ _ Hinv) as Hw.
  pose proof (root_table _ _ c Hw ltac:(by left)) as Hroot.
  assert (Hin : ∀ r p t, table_of rest (vmem st) r p t → table_of (c :: rest) (vmem st) r p t) by (intros; apply table_of_cons; by right).
  assert (Hsep : ∀ r p t i, table_of rest (vmem st) r p t → 0 ≤ i < 512 → g (slot t i) = vmem st (slot t i) ∧ vmem s (slot t i) = vmem st (slot t i)).
  { intros r p t i Ht Hi. apply Hout. intros p' t' Ht'. pose proof (table_page _ _ _ _ _ Hw (Hin _ _ _ Ht)) as [_ Ha].
    pose proof (table_page _ _ _ _ _ Hw Ht') as [_ Hb]. rewrite in_page_slot by done. apply Z.eqb_neq. intros ->.
    destruct (tw_inj _ _ Hw _ _ _ _ _ (Hin _ _ _ Ht) Ht') as [-> _]. by destruct Ht. }
  destruct (tables_ext rest (vmem st) g) as [Htg Hlg]; [intros; by eapply Hsep|].
  destruct (tables_ext rest (vmem st) (vmem s)) as [Hts Hls]; [intros; by eapply Hsep|].
  pose proof (drop_root c rest _ Hg Hc) as Hrest.
  destruct (free_fresh rest (set_mem s g) c Hrest) as [Hfin Hq]; [| |done|].
  { intros r p Ht%Htg. destruct (tw_inj _ _ Hw _ _ _ _ _ (Hin _ _ _ Ht) Hroot) as [-> _]. by destruct Ht. }
  { intros x Hx. apply (fw_data _ _ (vi_frames _ _ Hg) c x c []); [apply mapped_cons; by right|].
    by apply (root_table _ _ c (vi_tabs _ _ Hg)); left. }
  cbn [pmm_free set_fr set_mem vfr] in Hq. constructor; try done.
  - apply (vm_inv_ext rest (pmm_free (set_mem s g) c)); try done; [apply (vi_tabs _ _ Hfin)| |].
    + intros r p t i Ht Hi. apply Htg in Ht. cbn [pmm_free set_fr set_mem vmem]. by destruct (Hsep r p t i Ht Hi) as [-> ->].
    + intros r p t Ht. exact (tw_ref _ _ (vi_tabs _ _ Hfin) r p t Ht).
  - intros x Hx. by apply Hout.
  - intros p t Ht Hwk. cbn [pmm_free set_fr vfr]. rewrite Hq. destruct (Z.eqb_spec t c) as [|Hne]; [done|].
    apply (Hfree p t Ht Hwk). intros ->. destruct Ht as (_ & _ & [= <-]). done.
  - intros f Hf. cbn [pmm_free set_fr vfr]. rewrite Hq. destruct (Z.eqb_spec f c) as [->|]; [by destruct (Hf [] c)|].
    by apply Hrefs.
Qed.

Lemma destroy_tables rest (st s : state) c pdpt g1 :
  vm_inv (c :: rest) st → c ∉ rest → table_of (c :: rest) (vmem st) c [0] pdpt →
  pdpt_done (c :: rest) c st pdpt 16 s g1 → destroyed rest st c (pmm_free (pmm_free s pdpt) c).
Proof.
  intros Hinv Hc Hpp Hd. pose proof (vi_tabs _ _ Hinv) as Hw. assert (Hin : c ∈ c :: rest) by (by left).
  pose proof (root_table _ _ c Hw Hin) as Hroot. pose proof Hd as [I K M Uw O _ F R].
  destruct (top_kept (c :: rest) c Hin st pdpt Hinv Hpp 16 s g1 Hd) as [_ Hpp1].
  pose proof (root_table _ _ c (vi_tabs _ _ I) Hin) as Hroot1.
  destruct (free_table (c :: rest) (set_mem s g1) c [] c 0 pdpt I Hroot1 Hpp1) as [I2 R2].
  cbn [pmm_free set_fr set_mem vfr] in R2.
  pose proof (table_page _ _ _ _ _ Hw Hroot) as [_ Hac]. pose proof (table_page _ _ _ _ _ Hw Hpp) as [_ Hap].
  apply (destroy_root rest st (pmm_free s pdpt) (wr g1 (slot c 0) 0) c); try done.
  - intros x Hx. split.
    + unfold wr. destruct (Z.eqb_spec x (slot c 0)) as [->|].
      * specialize (Hx [] c Hroot). rewrite in_page_slot, Z.eqb_refl in Hx by (done || lia). done.
      * apply O; [by apply (Hx [0])|]. intros j q u _ Hu. by apply (Hx (0 :: j :: q)).
    + apply M. intros j Hj ->. specialize (Hx [0] pdpt Hpp). rewrite in_page_slot, Z.eqb_refl in Hx by (done || lia). done.
  - apply (tw_ref _ _ (vi_tabs _ _ I2) c []). exact (root_table _ _ c (vi_tabs _ _ I2) Hin).
  - intros p t Ht Hwk Hne. cbn [pmm_free set_fr vfr]. rewrite R2. destruct (Z.eqb_spec t pdpt) as [|Hnp]; [done|].
    destruct Hwk as [->|[->|(j & q & Hj & ->)]]; [done| |by apply (F j q)].
    destruct Ht as (_ & _ & Ht), Hpp as (_ & _ & Hpp). congruence.
  - intros f Hf. cbn [pmm_free set_fr vfr]. rewrite R2. destruct (Z.eqb_spec f pdpt) as [E|]; [by destruct (Hf [0] pdpt)|].
    apply R. intros j q u _. apply Hf.
Qed.

Lemma window_names_exists m c f : window_names m c f ≠ 0 → ∃ w, W_LO ≤ w < W_HI ∧ names (leaf m c w) f = true.
Proof.
  unfold window_names. intros (k & Hk & Hn)%win_names_exists. exists (W_LO + k). split; [|done].
  unfold W_LO, W_HI. lia.
Qed.

Lemma window_names_hole (st : state) c f : is_present (vmem st (slot c 0)) = false → window_names (vmem st) c f = 0.
Proof.
  intros Hp. unfold window_names. apply win_names_none. intros k Hk. set (v := W_LO + k).
  assert (Hpath : path_of v = [0; v / 262144; v / 512 mod 512]).
  { destruct (window_path (v / 262144) (v / 512 mod 512) (v mod 512)) as (_ & _ & E & _);
      try (unfold v, W_LO; Z.to_euclidean_division_equations; lia).
    rewrite <- E. f_equal. unfold page_of_indices. Z.to_euclidean_division_equations; lia. }
  unfold leaf. rewrite Hpath. simpl. by rewrite Hp.
Qed.

Lemma destroy_spec rest (st : state) c : vm_inv (c :: rest) st → c ∉ rest →
  ∃ st', vmm_space_destroy st (Some c) = (st', 0) ∧ destroyed rest st c st'.
Proof.
  intros Hinv Hc. pose proof (vi_tabs _ _ Hinv) as Hw. assert (Hin : c ∈ c :: rest) by (by left).
  pose proof (root_table _ _ c Hw Hin) as Hroot. pose proof (table_page _ _ _ _ _ Hw Hroot) as Hpa.
  unfold vmm_space_destroy, walk_user. rewrite (page_addr_mask c Hpa).
  destruct (is_present (vmem st (slot c 0))) eqn:Ep; eexists; (split; [reflexivity|]).
  - assert (Hpp : table_of (c :: rest) (vmem st) c [0] (Z.land (vmem st (slot c 0)) ADDRESS_MASK)).
    { split_and!; [done|split_and!; [simpl; lia|repeat constructor; lia|lia]|]. simpl. by rewrite Ep. }
    destruct (destroy_pis (c :: rest) c Hin st _ Hinv Hpp) as [g1 H1]. change (pdpt_lo + Z.of_nat PDPT_N) with 16 in H1.
    exact (destroy_tables rest st _ c _ g1 Hinv Hc Hpp H1).
  - apply (destroy_root rest st st (vmem st) c); try done; [unfold ghost; by destruct st|apply Hw|by apply (tw_ref _ _ Hw c [])| |].
    + intros p t Ht [->|[->|(j & q & _ & ->)]] Hne; [done|..]; destruct Ht as (_ & _ & Ht); simpl in Ht; by rewrite Ep in Ht.
    + intros f _. rewrite window_names_hole by done. by rewrite drop_n_0.
Qed.
End destroy.
