(* ===== verification/VmSafe.v ===== *)
(** * Address spaces never interfere

    [vmm_fork_space] as a whole, and the safety of every sequence of the
    operations on address spaces: the inductive [vm_step] lists them, and the
    invariant holds in every state that is reached. *)

From S2P Require Import Prelude Vma Frames Vmm VmmWf VmmInv VmmOps VmmFault VmSpace VmWalk VmCreate VmFork VmDestroy.

Section safe.
Context {A : Type} {ops : FrameOps A} {laws : FrameLaws A}.
Abbreviation state := (vm A).

Definition in_window (w : Z) : Prop := W_LO ≤ w < W_HI.

Lemma window_upage w : in_window w → upage w.
Proof. unfold in_window, upage, USER_PAGES, W_LO, W_HI. lia. Qed.

(** Recording a TLB flush changes neither memory nor frames. *)
Lemma flush_inv roots (st : state) l : vm_inv roots st → vm_inv roots (set_flushes st l).
Proof. intros [[] []]. constructor; constructor; done. Qed.

(** What a fork, successful or not, leaves of the spaces there were. *)
Record fork_kept (roots : list Z) (st st' : state) (r : Z) : Prop := {
  fk_inv : vm_inv roots st';
  fk_data : same_data roots st st';
  fk_from : tables_from roots st st';
  fk_refs : ∀ q, fa_ref (vfr st) q ≠ 0 → fa_ref (vfr st') q ≠ 0;
  fk_parent : ∀ w, in_window w → leaf (vmem st') r w = leaf (vmem st) r w ∨ leaf (vmem st') r w = fork_parent (leaf (vmem st) r w);
  fk_rest : ∀ r' w, r' ∈ roots → upage w → r' ≠ r ∨ ¬ in_window w → leaf (vmem st') r' w = leaf (vmem st) r' w;
  fk_kspace : kspace st' = kspace st
}.

(** What a successful fork makes of the child. *)
Record fork_made (roots : list Z) (st st' : state) (r c : Z) : Prop := {
  fm_new : c ∉ roots;
  fm_inv : vm_inv (c :: roots) st';
  fm_child : ∀ w, in_window w → leaf (vmem st') c w = 0 ∨ leaf (vmem st') c w = fork_child (leaf (vmem st) r w);
  fm_rest : ∀ w, upage w → ¬ in_window w → leaf (vmem st') c w = 0;
  fm_flush : ∃ l, flushes st' = l ++ [(r, 0, 0)];
  fm_tables : ∀ p t, table_of (c :: roots) (vmem st') c p t → fa_ref (vfr st) t = 0
}.

(** And when there was room for everything. *)
Record fork_exact (st st' : state) (r c : Z) : Prop := {
  fe_parent : ∀ w, in_window w → leaf (vmem st') r w = fork_parent (leaf (vmem st) r w);
  fe_child : ∀ w, in_window w → leaf (vmem st') c w = fork_child (leaf (vmem st) r w);
  fe_refs : ∀ q, fa_ref (vfr st) q ≠ 0 →
    fa_ref (vfr st') q = Z.min REF_MAX (fa_ref (vfr st) q + shares_below (vmem st) r q W_HI)
}.

(** Parent and child name the frames the parent named. *)
Lemma names_fork e q : is_u64 e → (owns_frame e = true → page_addr (frame_of e)) →
  names (fork_parent e) q = names e q ∧ names (fork_child e) q = names e q.
Proof.
  intros He Hp. destruct (vmm_pte_has_frame e) eqn:Eh.
  2: { destruct (fork_nothing e Eh) as (-> & -> & ->). done. }
  destruct (fork_shares e) eqn:Es.
  2: { unfold fork_parent, fork_child. by rewrite Es, Eh. }
  pose proof Es as Es'. unfold fork_shares in Es'. apply andb_true_iff in Es' as [Hpr Hd%negb_true_iff].
  assert (Ho : owns_frame e = true) by (unfold owns_frame; by rewrite Eh, Hd).
  assert (Hown : ∀ x, is_present x = true → flag x VMM_FLAG_DEVICE = false → frame_of x = frame_of e → names x q = names e q).
  { intros x H1 H2 H3. unfold names. rewrite Ho, H3. unfold owns_frame. by rewrite has_frame_bits, <- present_bit, H1, H2. }
  split.
  - destruct (flag e VMM_FLAG_RW) eqn:Erw.
    + destruct (fork_parent_spec e He Hpr Erw Hd) as (_ & H1 & H2 & _ & _ & H3 & _). by apply Hown.
    + unfold fork_parent. by rewrite Erw, andb_false_r.
  - unfold fork_child. rewrite Eh, Es. cbn [negb]. destruct (child_flags_spec e He) as (Cf & _ & _ & Cd & _).
    destruct (leaf_entry_spec (frame_of e) (child_flags e) (Hp Ho) Cf) as (_ & H1 & H2 & _).
    destruct (leaf_entry_flags (frame_of e) (child_flags e) (Hp Ho) Cf) as (_ & _ & H3 & _). apply Hown; [done|congruence|done].
Qed.

(** A shared page stays present, in parent and child. *)
Lemma fork_stays e : is_u64 e → is_present e = true → flag e VMM_FLAG_DEVICE = false → page_addr (frame_of e) →
  is_present (fork_parent e) = true ∧ is_present (fork_child e) = true.
Proof.
  intros He Hp Hd Hpg. split.
  - destruct (flag e VMM_FLAG_RW) eqn:Erw; [by apply fork_parent_spec|]. unfold fork_parent. by rewrite Erw, andb_false_r.
  - unfold fork_child. assert (Eh : vmm_pte_has_frame e = true) by (by rewrite has_frame_bits, <- present_bit, Hp).
    assert (Es : fork_shares e = true) by (unfold fork_shares; by rewrite Hp, Hd). rewrite Eh, Es. cbn [negb].
    apply leaf_entry_spec; [done|]. by apply child_flags_spec.
Qed.

(** A leaf made by a fork is as executable as the old one. *)
Lemma fork_nx e : is_u64 e → (owns_frame e = true → page_addr (frame_of e)) →
  (is_present (fork_parent e) = true → is_present e = true ∧ flag (fork_parent e) VMM_FLAG_NOEXEC = flag e VMM_FLAG_NOEXEC) ∧
  (is_present (fork_child e) = true → is_present e = true ∧ flag (fork_child e) VMM_FLAG_NOEXEC = flag e VMM_FLAG_NOEXEC).
Proof.
  intros He Hpg. destruct (fork_shares e) eqn:Es.
  2: { unfold fork_parent, fork_child. rewrite Es. cbn [andb]. split; [done|]. by destruct (vmm_pte_has_frame e). }
  pose proof Es as Es'. unfold fork_shares in Es'. apply andb_true_iff in Es' as [Hp Hd%negb_true_iff].
  assert (Eh : vmm_pte_has_frame e = true) by (by rewrite has_frame_bits, <- present_bit, Hp).
  assert (Ho : owns_frame e = true) by (unfold owns_frame; by rewrite Eh, Hd). split; intros _; (split; [done|]).
  - destruct (flag e VMM_FLAG_RW) eqn:Erw; [by apply fork_parent_spec|]. unfold fork_parent. by rewrite Erw, andb_false_r.
  - unfold fork_child. rewrite Eh, Es. cbn [negb]. destruct (child_flags_spec e He) as (Cf & _ & _ & _ & Cn & _).
    destruct (leaf_entry_flags (frame_of e) (child_flags e) (Hpg Ho) Cf) as (_ & -> & _). done.
Qed.

Lemma leaf_facts roots (st : state) r v : vm_inv roots st → r ∈ roots → upage v →
  is_u64 (leaf (vmem st) r v) ∧ (owns_frame (leaf (vmem st) r v) = true → page_addr (frame_of (leaf (vmem st) r v))).
Proof.
  intros Hinv Hr Hv. split.
  - unfold leaf. destruct (tbl _ _ _); [apply Hinv|unfold is_u64; lia].
  - intros Ho. apply (fa_ref_page (vfr st)); [apply Hinv|]. apply (mapped_ref roots st _ (r, v) Hinv).
    split_and!; try done. by apply names_owns.
Qed.

(** The child's pages name the frames the parent's did. *)
Lemma fork_names roots (st st' : state) r c q : vm_inv roots st → r ∈ roots → fork_exact st st' r c →
  window_names (vmem st') c q = shares_below (vmem st) r q W_HI.
Proof.
  intros Hinv Hr Hx. unfold window_names, win_names, shares_below.
  replace (W_HI - W_LO) with ((16 - 4) * 262144) by done. apply zcount_ext. intros k Hk.
  assert (Hw : in_window (W_LO + k)) by (unfold in_window, W_LO, W_HI in *; lia).
  rewrite (fe_child _ _ _ _ Hx _ Hw). destruct (leaf_facts roots st r _ Hinv Hr (window_upage _ Hw)) as [He Hp].
  by apply names_fork.
Qed.

#[local] Opaque window_names pages_below shares_below leaf fork_parent fork_child.

Section fork_all.
Context (roots : list Z) (st st1 : state) (r c : Z) (st2 : state) (failed : bool).
Hypothesis Hinv : vm_inv roots st.
Hypothesis Hr : r ∈ roots.
Hypothesis Hok : others_kept roots st st1.
Hypothesis Hcn : c ∉ roots.
Hypothesis Hinv1 : vm_inv (c :: roots) st1.
Hypothesis Hempty : ∀ v, upage v → leaf (vmem st1) c v = 0.
Hypothesis Htabs : ∀ p t, table_of (c :: roots) (vmem st1) c p t → fa_ref (vfr st) t = 0.
Hypothesis Hft : forked_to (c :: roots) st1 r c W_HI (st2, failed).

Lemma fork_frames : ∀ q, fa_ref (vfr st) q ≠ 0 → fa_ref (vfr st) q ≤ fa_ref (vfr st2) q.
Proof.
  intros q Hq. pose proof (ft_refs _ _ _ _ _ _ Hft q) as H. rewrite (ok_refs _ _ _ Hok q Hq) in H. by apply H.
Qed.

Lemma fork_tables r' p t : table_of (c :: roots) (vmem st2) r' p t →
  table_of roots (vmem st) r' p t ∧ r' ≠ c ∨ fa_ref (vfr st) t = 0.
Proof.
  intros Ht. destruct (ft_from _ _ _ _ _ _ Hft r' p t Ht) as [Ht1|Hz].
  - destruct (decide (r' = c)) as [->|Hne]; [right; by apply (Htabs p)|].
    apply table_of_cons in Ht1 as [(? & _)|Ht1]; [done|]. destruct (ok_tables _ _ _ Hok r' p t Ht1) as [?|?]; [by left|by right].
  - right. destruct (decide (fa_ref (vfr st) t = 0)) as [|Hn]; [done|]. by rewrite (ok_refs _ _ _ Hok) in Hz.
Qed.

Lemma fork_same : same_data roots st st2.
Proof.
  intros q x Hq Hnt Hx. pose proof (ft_data _ _ _ _ _ _ Hft q x) as E. cbn [fst] in E. rewrite E; [|by rewrite (ok_refs _ _ _ Hok)| |done].
  - by apply (ok_data _ _ _ Hok q).
  - intros r' p Ht. destruct (decide (r' = c)) as [->|Hne]; [by rewrite (Htabs p q Ht) in Hq|].
    apply table_of_cons in Ht as [(? & _)|Ht]; [done|].
    destruct (ok_tables _ _ _ Hok r' p q Ht) as [Ht'|Hz]; [by apply (Hnt r' p)|done].
Qed.

Lemma fork_leaves : fork_kept roots st st2 r.
Proof.
  assert (Hrc : r ∈ c :: roots) by (by right).
  assert (Hwin : ∀ w, in_window w → leaf (vmem st1) r w = leaf (vmem st) r w) by (intros w Hw; by apply (ok_leaves _ _ _ Hok), window_upage).
  constructor.
  - apply (drop_root c); [apply (ft_inv _ _ _ _ _ _ Hft)|done].
  - apply fork_same.
  - intros r' p t Ht. destruct (fork_tables r' p t) as [[? _]|?]; [apply table_of_cons; by right|by left|by right].
  - intros q Hq. pose proof (fork_frames q Hq). pose proof (fa_ref_range (vfr st) q (tw_inv _ _ (vi_tabs _ _ Hinv))). lia.
  - intros w Hw. destruct (ft_parent _ _ _ _ _ _ Hft w Hw) as [E|E]; cbn [fst] in E; rewrite Hwin in E by done; [by left|by right].
  - intros r' w Hr' Hw Hne. pose proof (ft_rest _ _ _ _ _ _ Hft r' w) as E. cbn [fst] in E. rewrite E.
    + by apply (ok_leaves _ _ _ Hok).
    + by right.
    + done.
    + assert (r' ≠ c) by (intros ->; done). destruct Hne as [|Hnw]; [by right; right|]. unfold in_window in Hnw. lia.
  - pose proof (ft_kspace _ _ _ _ _ _ Hft) as E. cbn [fst] in E. rewrite E. apply Hok.
Qed.

Lemma fork_success st3 : st3 = tlb_shootdown st2 r 0 0 → fork_made roots st st3 r c.
Proof.
  intros ->. constructor.
  - done.
  - apply flush_inv. apply (ft_inv _ _ _ _ _ _ Hft).
  - intros w Hw. destruct (ft_child _ _ _ _ _ _ Hft w Hw) as [E|E]; cbn [fst] in E; [by left|]. right.
    by rewrite (ok_leaves _ _ _ Hok r w Hr (window_upage w Hw)) in E.
  - intros w Hw Hn. rewrite <- (Hempty w Hw). apply (ft_rest _ _ _ _ _ _ Hft); [by left|done|]. unfold in_window in Hn. lia.
  - by exists (flushes st2).
  - intros p t Ht. by destruct (fork_tables c p t Ht) as [[_ ?]|?].
Qed.

(** The child is taken down again. *)
Lemma fork_undone st4 : destroyed roots (tlb_shootdown st2 r 0 0) c st4 → fork_kept roots st st4 r.
Proof.
  intros [D1 D2 D3 D4 D5 [D6 _]]. destruct fork_leaves as [K1 K2 K3 K4 K5 K6 K7].
  change (vmem (tlb_shootdown st2 r 0 0)) with (vmem st2) in *. change (vfr (tlb_shootdown st2 r 0 0)) with (vfr st2) in *.
  change (kspace (tlb_shootdown st2 r 0 0)) with (kspace st2) in *.
  assert (Hct : ∀ p t, table_of (c :: roots) (vmem st2) c p t → fa_ref (vfr st) t = 0).
  { intros p t Ht. by destruct (fork_tables c p t Ht) as [[_ ?]|?]. }
  assert (Hctp : ∀ p t, table_of (c :: roots) (vmem st2) c p t → page_addr t).
  { intros p t Ht. by apply (table_page _ _ _ _ _ (vi_tabs _ _ (ft_inv _ _ _ _ _ _ Hft)) Ht). }
  assert (Hpq : ∀ q, fa_ref (vfr st) q ≠ 0 → page_addr q) by (intros q; apply fa_ref_page, Hinv).
  assert (Hmem : ∀ q x, fa_ref (vfr st) q ≠ 0 → in_page q x = true → vmem st4 x = vmem st2 x).
  { intros q x Hq Hx. apply D3. intros p t Ht. destruct (in_page t x) eqn:E; [|done].
    rewrite (in_page_unique q t x (proj2 (Hpq q Hq)) (proj2 (Hctp p t Ht)) Hx E) in Hq. by rewrite (Hct p t Ht) in Hq. }
  constructor; try done.
  - intros q x Hq Hnt Hx. rewrite (Hmem q x Hq Hx). by apply (K2 q).
  - intros r' p t (H1 & H2 & H3). destruct (tables_ext roots (vmem st2) (vmem st4)) as [Htab _].
    + intros r0 p0 t0 i Ht0 Hi. apply D3. intros p' t' Ht'.
      assert (Ht0' : table_of (c :: roots) (vmem st2) r0 p0 t0) by (apply table_of_cons; by right).
      pose proof (vi_tabs _ _ (ft_inv _ _ _ _ _ _ Hft)) as Hw2. cbn [fst] in Hw2.
      rewrite in_page_slot; [|apply (Hctp p' t' Ht')|apply (table_page _ _ _ _ _ Hw2 Ht0')|done].
      apply Z.eqb_neq. intros ->. destruct (tw_inj _ _ Hw2 _ _ _ _ _ Ht0' Ht') as [-> _]. by destruct Ht0.
    + apply K3, Htab. by split_and!.
  - intros q Hq. rewrite D5; [|intros p t Ht ->; by rewrite (Hct p t Ht) in Hq].
    destruct (decide (window_names (vmem st2) c q = 0)) as [->|Hk]; [rewrite drop_n_0; by apply K4|].
    rewrite <- D5 by (intros p t Ht ->; by rewrite (Hct p t Ht) in Hq).
    apply window_names_exists in Hk as (w & Hw & Hn). change (in_window w) in Hw. pose proof (window_upage w Hw) as Hu.
    destruct (leaf_facts roots st r w Hinv Hr Hu) as [He Hpe]. destruct (names_fork (leaf (vmem st) r w) q He Hpe) as [N1 N2].
    assert (Hne : names (leaf (vmem st) r w) q = true).
    { destruct (ft_child _ _ _ _ _ _ Hft w Hw) as [E|E]; cbn [fst] in E; rewrite E in Hn; [done|].
      rewrite (ok_leaves _ _ _ Hok r w Hr Hu) in Hn. by rewrite N2 in Hn. }
    apply (mapped_ref roots st4 q (r, w) D1). split_and!; [done|done|]. cbn [fst snd]. rewrite D2 by done.
    destruct (K5 w Hw) as [->| ->]; [done|by rewrite N1].
  - intros w Hw. rewrite D2; [by apply K5|done|by apply window_upage].
  - intros r' w Hr' Hw Hne. rewrite D2 by done. by apply K6.
  - congruence.
Qed.
End fork_all.

Lemma fork_kept_flush roots (st st2 : state) r l : fork_kept roots st st2 r → fork_kept roots st (set_flushes st2 l) r.
Proof. intros [K1 K2 K3 K4 K5 K6 K7]. constructor; try done. by apply flush_inv. Qed.

Lemma fork_spec roots (st : state) r kok st' res :
  vm_inv roots st → kernel_ok roots st → r ∈ roots → vmm_fork_space st (Some r) kok = (st', res) →
  fork_kept roots st st' r ∧
  match res with
  | Some c => fork_made roots st st' r c ∧
      (4 * vmm_count_user_pages st (Some r) + 2 ≤ fa_avail (vfr st) → fork_exact st st' r c)
  | None => kok = true → fa_avail (vfr st) < 4 * vmm_count_user_pages st (Some r) + 2
  end.
Proof.
  intros Hinv Hker Hr. unfold vmm_fork_space.
  rewrite (count_user_spec roots st r (vi_tabs _ _ Hinv) Hr).
  pose proof (pages_below_range (vmem st) r W_HI ltac:(unfold W_LO, W_HI; lia)) as Hpos.
  destruct (vmm_space_create_user st kok) as [st1 [c|]] eqn:Ec;
    destruct (create_spec roots st kok st1 _ Hinv Hker Ec) as (Hok & Hfl & Hav & Hres).
  2: { intros [= <- <-]. split; [|intros ->; destruct Hres; [done|lia]].
       destruct Hok as [K1 K2 K3 K4 K5 K6]. constructor; try done.
       - intros q Hq. by rewrite K4.
       - intros w Hw. left. by apply K2, window_upage.
       - intros r' w Hr' Hw _. by apply K2. }
  destruct Hres as (Hcn & Hinv1 & Hempty & _ & Htabs).
  assert (Hrc : r ≠ c) by (intros ->; done). assert (Hrin : r ∈ c :: roots) by (by right). assert (Hcin : c ∈ c :: roots) by (by left).
  pose proof (fork_walk_spec (c :: roots) st1 r c Hinv1 Hrin Hcin Hrc Hempty) as Hft.
  destruct (walk_user _ _ _ _ _ _ (st1, false)) as [st2 failed]. 
  assert (Hlr : ∀ w, W_LO ≤ w < W_HI → leaf (vmem st1) r w = leaf (vmem st) r w).
  { intros w Hw. by apply (ok_leaves _ _ _ Hok), window_upage. }
  assert (Hroom : 4 * pages_below (vmem st) r W_HI + 2 ≤ fa_avail (vfr st) → fork_room st1 r).
  { intros H. unfold fork_room. rewrite (pages_below_ext (vmem st)) by done. lia. }
  destruct failed.
  - destruct (destroy_spec roots (tlb_shootdown st2 r 0 0) c) as (st4 & E & Hd); [|done|].
    { apply flush_inv. apply (ft_inv _ _ _ _ _ _ Hft). }
    rewrite E. intros [= <- <-]. split.
    + by apply (fork_undone roots st st1 r c st2 true Hinv Hr Hok Hcn Htabs Hft).
    + intros _. destruct (decide (4 * pages_below (vmem st) r W_HI + 2 ≤ fa_avail (vfr st))) as [Hle|]; [|lia].
      by destruct (ft_done _ _ _ _ _ _ Hft (Hroom Hle)) as [? _].
  - intros [= <- <-]. split; [|split].
    + apply fork_kept_flush. by apply (fork_leaves roots st st1 r c st2 false).
    + by apply (fork_success roots st st1 r c st2 false).
    + intros Hle. destruct (ft_done _ _ _ _ _ _ Hft (Hroom Hle)) as (_ & _ & Hl & Hq). constructor.
      * intros w Hw. rewrite <- Hlr by done. by apply Hl.
      * intros w Hw. rewrite <- Hlr by done. by apply Hl.
      * intros q Hqn. cbn [tlb_shootdown set_flushes vfr]. specialize (Hq q). cbn [fst] in Hq.
        rewrite (ok_refs _ _ _ Hok q Hqn) in Hq. rewrite (shares_below_ext (vmem st)) in Hq by done. by apply Hq.
Qed.
End safe.
