(* ===== verification/VmReach.v ===== *)
(** * The page-fault handler, loads and stores

    [vmm_try_handle_page_fault] as a whole, and what loads and stores of user
    programs see of memory: a store to a page changes nothing any other page
    of any address space shows. *)

From S2P Require Import Prelude Vma Frames Vmm VmmWf VmmInv VmmOps VmmFault VmSpace VmWalk VmCreate VmFork VmDestroy VmSafe.

Section reach.
Context {A : Type} {ops : FrameOps A} {laws : FrameLaws A}.
Abbreviation state := (vm A).

(** The regions of the process that runs in space [r]: their flags, device
    memory that exists, and pages of writable regions mapped no-execute. *)
Record regions_ok (st : state) (r : Z) (vmas : vset) : Prop := {
  ro_wf : vset_wf vmas;
  ro_flags : ∀ a v, vma_find vmas a = Some v → region_flags (v_flags v);
  ro_phys : ∀ a v, vma_find vmas a = Some v → v_type v = VMA_TYPE_PHYS →
    0 < phys_base v ∧ (4096 | phys_base v) ∧ phys_base v + (v_end v - v_start v) ≤ PHYS_TOP;
  ro_nx : ∀ w, write_region vmas w = true → is_present (leaf (vmem st) r w) = true →
    flag (leaf (vmem st) r w) VMM_FLAG_NOEXEC = true
}.

Definition device_flags (v : vma) : Z :=
  Z.lor (Z.lor (Z.lor (v_flags v) VMM_FLAG_DEVICE) VMM_FLAG_PWT) VMM_FLAG_NOEXEC.

(** A serviced fault: a private copy, a fresh page with the contents of the
    region, or device memory. *)
Inductive fault_done (roots : list Z) (st st' : state) (img : mem) (cache : Z → Z → option (list Z))
    (r : Z) (vmas : vset) (addr err : Z) : Prop :=
  | fd_cow : flag err 1 = true → flag err 2 = true → write_region vmas (addr / 4096) = true →
      flag (leaf (vmem st) r (addr / 4096)) VMM_FLAG_COW = true →
      copied roots st st' r (addr / 4096) → fault_done roots st st' img cache r vmas addr err
  | fd_fill v : flag err 1 = false → vma_find vmas addr = Some v → flag (v_flags v) VMM_FLAG_PROTNONE = false →
      v_type v ≠ VMA_TYPE_PHYS →
      faulted roots st st' r (addr / 4096) (v_flags v) 0 (vma_fault_fill img cache v (addr / 4096 * 4096)) →
      fault_done roots st st' img cache r vmas addr err
  | fd_device v : flag err 1 = false → vma_find vmas addr = Some v → flag (v_flags v) VMM_FLAG_PROTNONE = false →
      v_type v = VMA_TYPE_PHYS → vmm_pte_has_frame (leaf (vmem st) r (addr / 4096)) = false →
      only_leaf roots (vmem st) (vmem st') r (addr / 4096)
        (leaf_entry (phys_base v + (addr / 4096 * 4096 - v_start v)) (device_flags v)) →
      fault_done roots st st' img cache r vmas addr err.

Lemma device_flags_spec v : region_flags (v_flags v) →
  flag_only (device_flags v) ∧ flag (device_flags v) VMM_FLAG_DEVICE = true ∧ flag (device_flags v) VMM_FLAG_COW = false.
Proof.
  intros (Hf & _ & Hc). unfold device_flags. split; [repeat apply flag_only_lor; [done|flag_const..]|].
  autorewrite with secos_pte in *. rewrite !Z.lor_spec, Hc. const_bits. by rewrite orb_true_r.
Qed.

Lemma find_page vmas a v : vset_wf vmas → vma_find vmas a = Some v →
  0 ≤ a < VMM_USER_TOP ∧ v_start v ≤ a / 4096 * 4096 < v_end v ∧ (4096 | v_start v) ∧ 0 ≤ v_start v ∧ v_end v ≤ VMM_USER_TOP.
Proof.
  intros Hs Hf. destruct (vma_find_Some vmas a v Hf) as (i & Hi & _ & <- & Hl & Ha).
  destruct (vw_ok _ Hs i Hi Hl) as [[H1 H2] [H3 H4] _ _ _]. split; [lia|]. split; [|split_and!; [done|lia|lia]].
  destruct H2 as [k Hk]. rewrite Hk in *. Z.to_euclidean_division_equations; lia.
Qed.

Lemma fault_device roots (st : state) r v pg st' rc :
  vm_inv roots st → r ∈ roots → upage pg → region_flags (v_flags v) →
  0 < phys_base v ∧ (4096 | phys_base v) ∧ phys_base v + (v_end v - v_start v) ≤ PHYS_TOP →
  (4096 | v_start v) → v_start v ≤ pg * 4096 < v_end v →
  vmm_map_in_space st (Some r) (pg * 4096) (u64 (phys_base v + (pg * 4096 - v_start v))) (device_flags v) = (st', rc) →
  vm_inv roots st' ∧ same_data roots st st' ∧
  (rc = 0 ∧ vmm_pte_has_frame (leaf (vmem st) r pg) = false ∧
     only_leaf roots (vmem st) (vmem st') r pg (leaf_entry (phys_base v + (pg * 4096 - v_start v)) (device_flags v)) ∨
   rc ≠ 0 ∧ same_leaves roots (vmem st) (vmem st')).
Proof.
  intros Hinv Hr Hv Hfl (Hp1 & Hp2 & Hp3) Ha Hin. set (phys := phys_base v + (pg * 4096 - v_start v)).
  assert (Hpa : page_addr phys).
  { split; [unfold phys, PHYS_TOP in *; lia|]. unfold phys. apply Z.divide_add_r; [done|].
    apply Z.divide_sub_r; [by exists pg|done]. }
  rewrite u64_small by (unfold is_u64, page_addr, PHYS_TOP in *; lia). intros E.
  destruct (device_flags_spec v Hfl) as (Hfo & Hd & Hc).
  destruct (map_spec roots st r pg phys (device_flags v) st' rc Hinv Hr Hv Hpa Hfo ltac:(by left) E) as (I & D & _ & _ & Hres).
  split; [done|]. split; [done|]. destruct Hres as [(-> & _ & Ho & Hl)|(Hn & Hs & _)]; [by left|by right].
Qed.

Lemma handle_fault_spec roots (st : state) img cache r vmas addr err st' rc :
  vm_inv roots st → r ∈ roots → regions_ok st r vmas → cache_ok cache →
  vmm_try_handle_page_fault st img cache (Some (r, vmas)) addr err = (st', rc) →
  vm_inv roots st' ∧ same_data roots st st' ∧
  (rc = 0 ∧ fault_done roots st st' img cache r vmas addr err ∨ rc = -1 ∧ same_leaves roots (vmem st) (vmem st')).
Proof.
  intros Hinv Hr Hro Hc. unfold vmm_try_handle_page_fault. cbn [option_map fst].
  destruct (flag err 1) eqn:E1; cbn [andb negb].
  - destruct (flag err 2) eqn:E2; cbn [andb].
    2: { intros [= <- <-]. split_and!; try done. right. by split. }
    destruct (vmm_cow_fault st (Some (r, vmas)) (Some r) addr) as [st1 r1] eqn:Ec.
    destruct (cow_spec roots st r vmas addr st1 r1 Hinv Hr (ro_nx _ _ _ Hro _) Ec) as (I & D & Hres).
    destruct Hres as [(-> & _ & H1 & _ & H3 & H4 & _)|(-> & ->)]; cbn [Z.eqb].
    + intros [= <- <-]. split_and!; try done. left. split; [done|]. by apply fd_cow.
    + intros [= <- <-]. split_and!; try done. right. by split.
  - cbn [Z.eqb]. destruct (vma_find vmas addr) as [v|] eqn:Ev.
    2: { intros [= <- <-]. split_and!; try done. right. by split. }
    destruct (find_page vmas addr v (ro_wf _ _ _ Hro) Ev) as (Ha & Hin & Hal & Hs0 & Htop).
    pose proof (ro_flags _ _ _ Hro addr v Ev) as Hfl.
    destruct (flag (v_flags v) VMM_FLAG_PROTNONE) eqn:Epn; cbn [negb].
    { intros [= <- <-]. split_and!; try done. right. by split. }
    destruct (vma_fault_in st img cache (Some r) v addr) as [st2 r2] eqn:Ef.
    assert (Hgoal : vm_inv roots st2 ∧ same_data roots st st2 ∧
      (r2 = 0 ∧ fault_done roots st st2 img cache r vmas addr err ∨ r2 ≠ 0 ∧ same_leaves roots (vmem st) (vmem st2))).
    { destruct (decide (v_type v = VMA_TYPE_PHYS)) as [Et|Et].
      - revert Ef. unfold vma_fault_in. destruct (fault_page addr Ha) as [-> Hv].
        destruct (Z.ltb_spec (addr / 4096 * 4096) (v_start v)); [lia|].
        destruct (Z.leb_spec (v_end v) (addr / 4096 * 4096)); [lia|]. cbn [orb]. rewrite Epn, Et. fold (device_flags v).
        intros E. destruct (fault_device roots st r v _ st2 r2 Hinv Hr Hv Hfl (ro_phys _ _ _ Hro addr v Ev Et) Hal Hin E)
          as (I & D & [(-> & H1 & H2)|[H1 H2]]); (split_and!; [done..|]); [left; split; [done|]; by eapply fd_device|by right].
      - destruct (fault_in_spec roots st img cache r v addr st2 r2 Hinv Hr Ha Hc Hfl Et Hin Ef) as (I & D & Q & Hres).
        split_and!; [done..|]. destruct Hres as [(-> & H1 & H2)|[H1 H2]]; [left; split; [done|]|by right].
        apply (fd_fill _ _ _ _ _ _ _ _ _ v); try done. split_and!; try done. by left. }
    destruct Hgoal as (I & D & [[-> Hd]|[Hn Hs]]).
    + cbn [Z.eqb]. intros [= <- <-]. split_and!; try done. by left.
    + destruct (Z.eqb_spec r2 0); [done|]. intros [= <- <-]. split_and!; try done. by right.
Qed.

(** ** The kernel's root never changes *)

Lemma kspace_goc (st : state) t i f st' res : get_or_create_table st t i f = (st', res) → kspace st' = kspace st.
Proof. unfold get_or_create_table, pmm_alloc. repeat case_match; intros; by simplify_eq/=. Qed.

Lemma kspace_level (st : state) t i cr f st' res : pt_level st t i cr f = (st', res) → kspace st' = kspace st.
Proof.
  unfold pt_level. repeat case_match; intros; simplify_eq/=; try done. by eapply kspace_goc.
Qed.

Lemma kspace_pt (st : state) r va cr f st' res : get_pt_space st r va cr f = (st', res) → kspace st' = kspace st.
Proof.
  unfold get_pt_space. destruct (pt_level _ _ _ _ _) as [st1 [t1|]] eqn:E1; apply kspace_level in E1; [|by intros [= <- _]].
  destruct (pt_level st1 _ _ _ _) as [st2 [t2|]] eqn:E2; apply kspace_level in E2; [|intros [= <- _]; congruence].
  intros E3%kspace_level. congruence.
Qed.

Lemma kspace_map (st : state) sp va ph f st' rc : vmm_map_in_space st sp va ph f = (st', rc) → kspace st' = kspace st.
Proof.
  unfold vmm_map_in_space. destruct sp; [|by intros [= <- _]]. destruct (misaligned va || misaligned ph); [by intros [= <- _]|].
  destruct (wx f); [by intros [= <- _]|]. destruct (flag f VMM_FLAG_USER && _); [by intros [= <- _]|].
  destruct (get_pt_space _ _ _ _ _) as [st1 [t1|]] eqn:E1; apply kspace_pt in E1; [|by intros [= <- _]].
  repeat case_match; intros; by simplify_eq/=.
Qed.

Lemma kspace_drop (st : state) p : kspace (pmm_drop st p) = kspace st.
Proof. unfold pmm_drop, pmm_unref. repeat case_match; by simplify_eq/=. Qed.

Lemma kspace_unmap (st : state) sp va st' rc : vmm_unmap_in_space st sp va = (st', rc) → kspace st' = kspace st.
Proof.
  unfold vmm_unmap_in_space. destruct sp; [|by intros [= <- _]]. destruct (misaligned va); [by intros [= <- _]|].
  destruct (_ <=? va); [by intros [= <- _]|].
  destruct (get_pt_space _ _ _ _ _) as [st1 [t1|]] eqn:E1; apply kspace_pt in E1; [|by intros [= <- _]].
  repeat case_match; intros; simplify_eq/=; try done. by rewrite kspace_drop.
Qed.

Lemma kspace_protect (st : state) sp va f st' rc : vmm_protect_in_space st sp va f = (st', rc) → kspace st' = kspace st.
Proof.
  unfold vmm_protect_in_space. destruct sp; [|by intros [= <- _]]. destruct (misaligned va); [by intros [= <- _]|].
  destruct (_ <=? va); [by intros [= <- _]|]. destruct (wx f); [by intros [= <- _]|].
  destruct (get_pt_space _ _ _ _ _) as [st1 [t1|]] eqn:E1; apply kspace_pt in E1; [|by intros [= <- _]].
  repeat case_match; intros; by simplify_eq/=.
Qed.

Lemma kspace_cow (st : state) cur sp a st' rc : vmm_cow_fault st cur sp a = (st', rc) → kspace st' = kspace st.
Proof.
  unfold vmm_cow_fault. destruct sp; [|by intros [= <- _]]. destruct (_ || _); [by intros [= <- _]|].
  destruct (get_pt_space _ _ _ _ _) as [st1 [t1|]] eqn:E1; apply kspace_pt in E1; [|by intros [= <- _]].
  destruct (_ || _); [by intros [= <- _]|]. destruct (negb _); [by intros [= <- _]|].
  unfold pmm_alloc. destruct (fa_alloc (vfr st1)) as [a1 f]. destruct (f =? 0); [by intros [= <- _]|].
  intros [= <- _]. cbn [tlb_shootdown set_flushes put set_mem kspace]. by rewrite kspace_drop.
Qed.

Lemma kspace_fault_in (st : state) img cache sp v a st' rc : vma_fault_in st img cache sp v a = (st', rc) → kspace st' = kspace st.
Proof.
  assert (Hff : ∀ pg, fault_frame st img cache sp v pg = (st', rc) → kspace st' = kspace st).
  { intros pg. unfold fault_frame, pmm_alloc. destruct (fa_alloc (vfr st)) as [a1 f]. destruct (f =? 0); [by intros [= <- _]|].
    destruct (vmm_map_in_space _ _ _ _ _) as [st1 r1] eqn:E. apply kspace_map in E. case_match; intros; by simplify_eq/=. }
  unfold vma_fault_in. destruct sp; [|by intros [= <- _]]. destruct (_ || _); [by intros [= <- _]|].
  destruct (flag _ _); [by intros [= <- _]|].
  case_match; try apply Hff. apply kspace_map.
Qed.

Lemma kspace_handle (st : state) img cache cur a err st' rc :
  vmm_try_handle_page_fault st img cache cur a err = (st', rc) → kspace st' = kspace st.
Proof.
  unfold vmm_try_handle_page_fault. set (q := if _ && _ then _ else _). destruct q as [st1 r1] eqn:Eq.
  assert (H1 : kspace st1 = kspace st).
  { revert Eq. unfold q. case_match; [|by intros [= <- _]]. case_match; [apply kspace_cow|by intros [= <- _]]. }
  clear q Eq. case_match; [by intros [= <- _]|]. case_match; [|by intros [= <- _]].
  destruct cur as [[r vmas]|]; [|by intros [= <- _]]. case_match; [|by intros [= <- _]]. case_match; [|by intros [= <- _]].
  destruct (vma_fault_in _ _ _ _ _ _) as [st2 r2] eqn:E. apply kspace_fault_in in E.
  case_match; intros; simplify_eq/=; congruence.
Qed.

(** The invariant depends on which spaces there are, not on their order. *)
Lemma vm_inv_roots roots roots' (st : state) : (∀ r, r ∈ roots' ↔ r ∈ roots) → vm_inv roots st → vm_inv roots' st.
Proof.
  intros Hr [Hw Hf].
  assert (Ht : ∀ r p t, table_of roots' (vmem st) r p t ↔ table_of roots (vmem st) r p t) by (intros; unfold table_of; by rewrite Hr).
  assert (Hm : ∀ f x, mapped roots' (vmem st) f x ↔ mapped roots (vmem st) f x) by (intros; unfold mapped; by rewrite Hr).
  constructor; constructor; try apply Hw.
  - intros r p t H%Ht. by apply (tw_ref _ _ Hw r p).
  - intros r p r' p' t H1%Ht H2%Ht. by apply (tw_inj _ _ Hw r p r' p' t).
  - intros r p t i H%Ht. by apply (tw_small _ _ Hw r p).
  - intros f. destruct (fw_count _ _ Hf f) as (n & Hc & Hn). exists n. split; [|done].
    destruct Hc as (l & H1 & H2 & H3). exists l. split_and!; try done. intros x. by rewrite H2, Hm.
  - intros f x r p H1%Hm H2%Ht. by apply (fw_data _ _ Hf f x r p).
  - intros f x H1%Hm. by apply (fw_private _ _ Hf f x).
  - intros r v H%Hr. by apply (fw_ok _ _ Hf).
  - intros r v H%Hr. by apply (fw_dev _ _ Hf).
  - intros r i H%Hr. by apply (fw_kernel _ _ Hf).
Qed.

(** ** Loads and stores *)

(** A load or store of the user program in space [r], through its tables. *)
Definition user_load (st : state) (r va : Z) : Z := vmem st (vmm_translate_in_space st (Some r) va).
Definition user_store (st : state) (r va x : Z) : state :=
  set_mem st (wr (vmem st) (vmm_translate_in_space st (Some r) va) x).

Lemma page_of_va va : 0 ≤ va < VMM_USER_TOP → upage (va / 4096).
Proof.
  intros Hv. unfold upage, USER_PAGES, VMM_USER_TOP in *. split; [apply Z.div_pos; lia|]. apply Z.div_lt_upper_bound; lia.
Qed.

Lemma translate_owned roots (st : state) r va : vm_inv roots st → r ∈ roots → 0 ≤ va < VMM_USER_TOP →
  let e := leaf (vmem st) r (va / 4096) in is_present e = true → owns_frame e = true →
  page_addr (frame_of e) ∧ vmm_translate_in_space st (Some r) va = frame_of e + va mod 4096 ∧
  in_page (frame_of e) (vmm_translate_in_space st (Some r) va) = true.
Proof.
  intros Hinv Hr Hva e Hp Ho. destruct (leaf_facts roots st r _ Hinv Hr (page_of_va va Hva)) as [_ Hpe]. specialize (Hpe Ho).
  cbn [vmm_translate_in_space]. rewrite (translate_leaf roots st r va (vi_tabs _ _ Hinv) Hr Hva). fold e. cbv zeta. rewrite Hp.
  pose proof (Z.mod_pos_bound va 4096 ltac:(lia)) as Hm. fold e in Hpe. fold (frame_of e). clearbody e.
  assert (E : Z.lor (frame_of e) (va mod 4096) = frame_of e + va mod 4096).
  { destruct Hpe as [_ [k Ek]]. rewrite Ek. change (k * 4096) with (k * 2 ^ 12).
    rewrite <- (Z.shiftl_mul_pow2 k 12) by lia. rewrite lor_shiftl by (change (2 ^ 12) with 4096; lia). by rewrite Z.shiftl_mul_pow2 by lia. }
  rewrite E. split_and!; try apply Hpe; [done|]. unfold in_page. lia.
Qed.

(** Loads depend on the leaf's frame and the frame's contents only. *)
Lemma load_same roots roots' (st st' : state) r r' va :
  vm_inv roots st → vm_inv roots' st' → r ∈ roots → r' ∈ roots' → 0 ≤ va < VMM_USER_TOP → same_data roots st st' →
  let e := leaf (vmem st) r (va / 4096) in let e' := leaf (vmem st') r' (va / 4096) in
  is_present e = true → owns_frame e = true → is_present e' = true → names e' (frame_of e) = true →
  user_load st' r' va = user_load st r va.
Proof.
  intros Hinv Hinv' Hr Hr' Hva Hd e e' Hp Ho Hp' [Ho' Ef]%names_owns.
  destruct (translate_owned roots st r va Hinv Hr Hva Hp Ho) as (_ & E & Hin).
  destruct (translate_owned roots' st' r' va Hinv' Hr' Hva Hp' Ho') as (_ & E' & _).
  unfold user_load. rewrite E', E. fold e'. rewrite Ef. fold e. fold e in E, Hin. rewrite E in Hin. apply (Hd (frame_of e)); [..|done].
  - apply (mapped_ref roots st _ (r, va / 4096) Hinv). split_and!; [done|by apply page_of_va|by apply names_owns].
  - intros r0 p. apply (fw_data _ _ (vi_frames _ _ Hinv) _ (r, va / 4096)). split_and!; [done|by apply page_of_va|by apply names_owns].
Qed.

Section store.
Context (roots : list Z) (st : state) (r va x : Z).
Hypothesis Hinv : vm_inv roots st.
Hypothesis Hr : r ∈ roots.
Hypothesis Hva : 0 ≤ va < VMM_USER_TOP.
Let e := leaf (vmem st) r (va / 4096).
Hypothesis Hw : writable e = true.
Hypothesis Ho : owns_frame e = true.
Let st' := user_store st r va x.

Lemma store_page : page_addr (frame_of e).
Proof. apply (leaf_facts roots st r _ Hinv Hr (page_of_va va Hva)), Ho. Qed.

Lemma store_outside y : in_page (frame_of e) y = false → vmem st' y = vmem st y.
Proof.
  intros Hy. assert (Hp : is_present e = true) by (by apply andb_true_iff in Hw as [? _]).
  destruct (translate_owned roots st r va Hinv Hr Hva Hp Ho) as (_ & _ & Hin).
  unfold st', user_store. cbn [set_mem vmem]. unfold wr.
  destruct (Z.eqb_spec y (vmm_translate_in_space st (Some r) va)) as [->|]; [|done]. fold e in Hin. congruence.
Qed.

(** A store to a page that can be written reaches no table. *)
Lemma store_entries r' p t i : table_of roots (vmem st) r' p t → 0 ≤ i < 512 → vmem st' (slot t i) = vmem st (slot t i).
Proof.
  intros Ht Hi. apply store_outside. pose proof (table_page _ _ _ _ _ (vi_tabs _ _ Hinv) Ht) as Htp.
  rewrite in_page_slot; [|apply store_page|apply Htp|done]. apply Z.eqb_neq. intros E.
  apply (fw_data _ _ (vi_frames _ _ Hinv) t (r, va / 4096) r' p); [|done].
  split_and!; [done|by apply page_of_va|]. by apply names_owns.
Qed.

Lemma store_inv : is_u64 x → vm_inv roots st'.
Proof.
  intros Hx. apply (vm_inv_ext roots st); [done|apply Hinv| |apply store_entries| |done].
  - intros y. unfold st', user_store. cbn [set_mem vmem]. unfold wr. destruct (_ =? _); [done|apply Hinv].
  - intros r' p t. apply (tw_ref _ _ (vi_tabs _ _ Hinv)).
Qed.

(** Nor any other page, of this space or another. *)
Lemma store_isolated r' va' : is_u64 x → r' ∈ roots → 0 ≤ va' < VMM_USER_TOP → (r, va / 4096) ≠ (r', va' / 4096) →
  is_present (leaf (vmem st) r' (va' / 4096)) = true → owns_frame (leaf (vmem st) r' (va' / 4096)) = true →
  user_load st' r' va' = user_load st r' va'.
Proof.
  intros Hx Hr' Hva' Hne Hp' Ho'. pose proof (page_of_va va Hva) as Hu. pose proof (page_of_va va' Hva') as Hu'.
  destruct (translate_owned roots st r' va' Hinv Hr' Hva' Hp' Ho') as (Hpg & E & Hin).
  set (e' := leaf (vmem st) r' (va' / 4096)) in *.
  assert (Hm1 : mapped roots (vmem st) (frame_of e) (r, va / 4096)) by (split_and!; [done|done|by apply names_owns]).
  assert (Hfr : frame_of e ≠ frame_of e').
  { intros Ef. assert (Hm2 : mapped roots (vmem st) (frame_of e) (r', va' / 4096)) by (split_and!; [done|done|by apply names_owns]).
    pose proof (mapped_two roots st _ _ _ Hinv Hm1 Hm2 Hne) as H2. rewrite (fw_private _ _ (vi_frames _ _ Hinv) _ _ Hm1 Hw) in H2. lia. }
  assert (Htr : vmm_translate_in_space st' (Some r') va' = vmm_translate_in_space st (Some r') va').
  { cbn [vmm_translate_in_space]. rewrite (translate_leaf roots st' r' va' (vi_tabs _ _ (store_inv Hx)) Hr' Hva').
    rewrite (translate_leaf roots st r' va' (vi_tabs _ _ Hinv) Hr' Hva'). cbv zeta.
    rewrite (proj2 (tables_ext roots _ _ store_entries)) by done. done. }
  unfold user_load. rewrite Htr. apply store_outside. destruct (in_page (frame_of e) _) eqn:Ei; [|done]. exfalso. apply Hfr.
  apply (in_page_unique _ _ (vmm_translate_in_space st (Some r') va')); [apply store_page|apply Hpg|done|done].
Qed.
End store.

End reach.
