(* ===== verification/MmSyscall.v ===== *)
(** * The memory system calls

    Models the memory calls of [src/kernel/syscall.c] ([ksys_brk],
    [ksys_mmap6], [ksys_munmap], [ksys_mprotect]) and the framebuffer mapping
    [fbdev_mmap] of [src/drivers/fbdev.c], over the regions of [Vma] and the
    address spaces of [Vmm].  A process is the part of [process_t] these calls
    use; the loops over [c->vmas] reread [count] as the code does, because
    their bodies can add a region. *)

From S2P Require Import Prelude Vma Frames Vmm.

Definition PROT_READ : Z := 0x1.
Definition PROT_WRITE : Z := 0x2.
Definition PROT_EXEC : Z := 0x4.
Definition MAP_SHARED : Z := 0x01.
Definition MAP_PRIVATE : Z := 0x02.
Definition MAP_ANONYMOUS : Z := 0x20.
Definition USER_HEAP_BASE : Z := 0x0000000280000000.
Definition USER_MMAP_BASE : Z := 0x0000000300000000.
Definition USER_MMAP_END : Z := 0x00000003F0000000.

(** An open file: [fds[fd]] of the process. *)
Record fd_ent := mk_fd {
  fd_used : bool;
  fd_pipe : bool;
  fd_sock : bool;
  fd_inode : Z;
  fd_flags : Z
}.
#[export] Instance fd_inhabited : Inhabited fd_ent := populate (mk_fd false false false 0 0).

Record proc := mk_proc {
  p_space : Z;
  p_vmas : vset;
  brk_start : Z;
  brk_cur : Z;
  mmap_next : Z;
  mem_limit : Z;
  p_fds : list fd_ent
}.
Definition set_vmas (c : proc) x := mk_proc (p_space c) x (brk_start c) (brk_cur c) (mmap_next c) (mem_limit c) (p_fds c).
Definition set_brk_cur (c : proc) x := mk_proc (p_space c) (p_vmas c) (brk_start c) x (mmap_next c) (mem_limit c) (p_fds c).
Definition set_mmap_next (c : proc) x := mk_proc (p_space c) (p_vmas c) (brk_start c) (brk_cur c) x (mem_limit c) (p_fds c).

(** What the calls ask of an inode: is it [/dev/fb0], an input client, a
    filesystem without ops or whose contents are not cached. *)
Record inode_view := mk_view {
  is_fb : Z → bool;
  is_input_client : Z → bool;
  nocache : Z → bool
}.

(** [framebuffer_info_t]. *)
Record fb_info := mk_fb {
  fb_addr : Z;
  fb_pitch : Z;
  fb_height : Z
}.

Definition m18_prot_to_flags (prot : Z) : Z :=
  if negb (flag prot (Z.lor (Z.lor PROT_READ PROT_WRITE) PROT_EXEC)) then Z.lor VMM_FLAG_PROTNONE VMM_FLAG_NOEXEC
  else
    let f := VMM_FLAG_USER in
    let f := if flag prot PROT_WRITE then Z.lor f VMM_FLAG_RW else f in
    if negb (flag prot PROT_EXEC) then Z.lor f VMM_FLAG_NOEXEC else f.

Definition pgup (x : Z) : Z := Z.land (u64 (x + 0xFFF)) (not64 0xFFF).

Definition m18_user_span (addr len : Z) : Z :=
  if negb (Z.land addr 0xFFF =? 0) || (len =? 0) then 0
  else if (addr <? USER_CODE_BASE) || (VMM_USER_TOP <=? addr) then 0
  else if VMM_USER_TOP - addr <? len then 0
  else
    let len := pgup len in
    if VMM_USER_TOP - addr <? len then 0 else len.

(** [for (i = 0; i < vmas.count; i++) body], the count read before every
    round. *)
Fixpoint slots {S : Type} (fuel : nat) (i : Z) (count : S → Z) (body : Z → S → S) (s : S) : S :=
  match fuel with
  | O => s
  | Datatypes.S fuel => if i <? count s then slots fuel (i + 1) count body (body i s) else s
  end.
Definition SLOTS : nat := Z.to_nat VMA_MAX.

(** [for (va = lo; va < hi; va += 0x1000)] *)
Definition pages_from (lo hi : Z) : nat := Z.to_nat ((hi - lo + 0xFFF) / 0x1000).

Section calls.
Context {A : Type} {ops : FrameOps A}.
Abbreviation state := (vm A).

Definition unmap_range (space lo hi : Z) (st : state) : state :=
  zfor (pages_from lo hi) 0 (λ k st, (vmm_unmap_in_space st (Some space) (lo + k * 0x1000)).1) st.

Definition protect_range (space lo hi flags : Z) (st : state) : state :=
  zfor (pages_from lo hi) 0 (λ k st, (vmm_protect_in_space st (Some space) (lo + k * 0x1000) flags).1) st.

(** *** brk *)

Definition heap_flags : Z := Z.lor (Z.lor VMM_FLAG_USER VMM_FLAG_RW) VMM_FLAG_NOEXEC.

(** The heap pieces after a shrink to [new_brk]. *)
Definition brk_trim (c : proc) (new_brk old : Z) (i : Z) (s : vset) : vset :=
  let v := s.[i] in
  if is_none v || (v_end v <=? new_brk) || (old <=? v_start v) then s
  else if v_start v <? brk_start c then s
  else if new_brk <=? v_start v then vma_remove s i
  else s.[i <- set_v_end v new_brk].

Definition brk_grow (c : proc) (old new_brk : Z) : option vset :=
  let h := if brk_start c <? old then vma_find_mut (p_vmas c) (old - 1) else None in
  let extend := match h with
    | Some i =>
        let v := (p_vmas c).[i] in
        (v_end v =? old) && bool_decide (v_type v = VMA_TYPE_ANON) && (v_flags v =? heap_flags)
    | None => false
    end in
  match h with
  | Some i => if extend then Some (p_vmas c).[i <- set_v_end (p_vmas c).[i] new_brk]
              else vma_add (p_vmas c) old new_brk heap_flags VMA_TYPE_ANON 0 0 0 0
  | None => vma_add (p_vmas c) old new_brk heap_flags VMA_TYPE_ANON 0 0 0 0
  end.

Definition ksys_brk (st : state) (cur : option proc) (new_brk : Z) : state * option proc * Z :=
  match cur with
  | None => (st, cur, 0)
  | Some c =>
      if new_brk =? 0 then (st, cur, brk_cur c)
      else
        let new_brk := pgup new_brk in
        if (new_brk <? brk_start c) || (USER_MMAP_BASE <=? new_brk) then (st, cur, brk_cur c)
        else
          let old := brk_cur c in
          if new_brk =? old then (st, cur, old)
          else if old <? new_brk then
            if negb (mem_limit c =? 0) && (mem_limit c <? u64 (vma_total_bytes (p_vmas c) + (new_brk - old)))
            then (st, cur, old)
            else
              match brk_grow c old new_brk with
              | None => (st, cur, old)
              | Some s => (st, Some (set_brk_cur (set_vmas c s) new_brk), new_brk)
              end
          else
            let st1 := unmap_range (p_space c) new_brk old st in
            let s := slots SLOTS 0 (λ s : vset, zlen s) (brk_trim c new_brk old) (p_vmas c) in
            (st1, Some (set_brk_cur (set_vmas c s) new_brk), new_brk)
  end.

(** *** mmap *)

Definition raw_size (fi : fb_info) : Z := u64 (fb_pitch fi * fb_height fi).

(** The eager mapping of the framebuffer; [true] stands for the [break]. *)
Definition fb_fault (img : mem) (cache : Z → Z → option (list Z)) (space : Z) (v : vma) (base k : Z)
    (s : state * bool) : state * bool :=
  if s.2 then s
  else
    let '(st1, r) := vma_fault_in s.1 img cache (Some space) v (base + k * 0x1000) in
    (st1, negb (r =? 0) && negb (r =? -3)).

Definition fbdev_mmap (st : state) (img : mem) (cache : Z → Z → option (list Z)) (fi : option fb_info)
    (cur : option proc) (len prot flags off : Z) : state * option proc * Z :=
  match cur, fi with
  | Some c, Some fi =>
      if negb (flag flags MAP_SHARED) || flag flags MAP_PRIVATE || flag flags MAP_ANONYMOUS then (st, cur, -22)
      else if flag prot PROT_EXEC then (st, cur, -13)
      else if negb (flag prot (Z.lor PROT_READ PROT_WRITE)) then (st, cur, -22)
      else if negb (Z.land (fb_addr fi) 0xFFF =? 0) || negb (Z.land off 0xFFF =? 0) || (len =? 0) then (st, cur, -22)
      else
        let size := pgup (raw_size fi) in
        let len := pgup len in
        if (len =? 0) || (size <=? off) || (size - off <? len) then (st, cur, -22)
        else
          let base := mmap_next c in
          if (USER_MMAP_END <=? base) || (USER_MMAP_END - base <? len) then (st, cur, -12)
          else if negb (mem_limit c =? 0) && (mem_limit c <? u64 (vma_total_bytes (p_vmas c) + len)) then (st, cur, -12)
          else
            let vf := Z.lor (Z.lor VMM_FLAG_USER VMM_FLAG_NOEXEC) (if flag prot PROT_WRITE then VMM_FLAG_RW else 0) in
            match vma_add_phys (p_vmas c) base (base + len) vf (u64 (fb_addr fi + off)) with
            | (s, false) => (st, Some (set_vmas c s), -12)
            | (s, true) =>
                let st1 := match vma_find s base with
                           | Some v => (zfor (pages_from base (base + len)) 0
                                          (fb_fault img cache (p_space c) v base) (st, false)).1
                           | None => st
                           end in
                (st1, Some (set_mmap_next (set_vmas c s) (base + len)), base)
            end
  | _, _ => (st, cur, -19)
  end.

(** The part of [ksys_mmap6] after the device checks. *)
Definition mmap_arena (nocache : Z → bool) (c : proc) (len prot flags fd : Z) : proc * Z :=
  if flag prot PROT_WRITE && flag prot PROT_EXEC then (c, ALL_ONES)
  else
    let base := mmap_next c in
    if (USER_MMAP_END <=? base) || (USER_MMAP_END - base <? len) then (c, ALL_ONES)
    else
      let len := pgup len in
      if USER_MMAP_END - base <? len then (c, ALL_ONES)
      else if negb (mem_limit c =? 0) && (mem_limit c <? u64 (vma_total_bytes (p_vmas c) + len)) then (c, ALL_ONES)
      else if flag flags MAP_ANONYMOUS then
        match vma_add (p_vmas c) base (base + len) (m18_prot_to_flags prot) VMA_TYPE_ANON 0 0 0 0 with
        | None => (c, ALL_ONES)
        | Some s => (set_mmap_next (set_vmas c s) (base + len), base)
        end
      else if (fd <? 0) || (32 <=? fd) || negb (fd_used (p_fds c).[fd]) then (c, ALL_ONES)
      else
        let f := (p_fds c).[fd] in
        if fd_pipe f || fd_sock f then (c, ALL_ONES)
        else if fd_inode f =? 0 then (c, ALL_ONES)
        else if nocache (fd_inode f) then (c, u64 (-19))
        else
          match vma_add_file (p_vmas c) base (base + len) (m18_prot_to_flags prot) (fd_inode f) 0 with
          | (s, false) => (set_vmas c s, ALL_ONES)
          | (s, true) => (set_mmap_next (set_vmas c s) (base + len), base)
          end.

Definition ksys_mmap6 (st : state) (img : mem) (cache : Z → Z → option (list Z)) (iv : inode_view)
    (fi : option fb_info) (cur : option proc) (len prot flags fd off : Z) : state * option proc * Z :=
  match cur with
  | None => (st, cur, ALL_ONES)
  | Some c =>
      if len =? 0 then (st, cur, ALL_ONES)
      else
        let f := (p_fds c).[fd] in
        let rest := let '(c', r) := mmap_arena (nocache iv) c len prot flags fd in (st, Some c', r) in
        if negb (flag flags MAP_ANONYMOUS) && (0 <=? fd) && (fd <? 32) && fd_used f && negb (fd_pipe f) && negb (fd_sock f)
           && negb (fd_inode f =? 0) then
          if Z.land (fd_flags f) 3 =? 1 then (st, cur, u64 (-13))
          else if flag flags MAP_SHARED && flag prot PROT_WRITE && negb (Z.land (fd_flags f) 3 =? 2) then (st, cur, u64 (-13))
          else if is_fb iv (fd_inode f) then
            let '(st1, cur1, r) := fbdev_mmap st img cache fi cur len prot flags off in (st1, cur1, u64 r)
          else if is_input_client iv (fd_inode f) then (st, cur, u64 (-19))
          else rest
        else rest
  end.

(** *** munmap and mprotect *)

Definition overlaps (addr end_ : Z) (v : vma) : bool := (addr <? v_end v) && (v_start v <? end_).

(** The pages of [v] inside the range, handed to [f lo hi]. *)
Definition in_range (addr end_ : Z) (v : vma) (f : Z → Z → state → state) (st : state) : state :=
  if is_none v || negb (overlaps addr end_ v) then st
  else
    let lo := if v_start v <? addr then addr else v_start v in
    let hi := if end_ <? v_end v then end_ else v_end v in
    f (Z.land lo (not64 0xFFF)) hi st.

Definition munmap_slot (addr end_ : Z) (i : Z) (s : vset) : vset :=
  let v := s.[i] in
  if is_none v then s
  else if negb (overlaps addr end_ v) then s
  else if (addr <=? v_start v) && (v_end v <=? end_) then vma_remove s i
  else if addr <=? v_start v then s.[i <- set_v_start v end_]
  else if v_end v <=? end_ then s.[i <- set_v_end v addr]
  else if bool_decide (v_type v = VMA_TYPE_PHYS) then
    let s1 := (vma_split s i end_).1 in s1.[i <- set_v_end s1.[i] addr]
  else
    let old_end := v_end v in
    let s1 := s.[i <- set_v_end v addr] in
    if bool_decide (v_type v = VMA_TYPE_ANON) then
      match vma_add s1 end_ old_end (v_flags v) VMA_TYPE_ANON 0 0 0 0 with
      | Some s2 => s2
      | None => s1
      end
    else s1.

Definition ksys_munmap (st : state) (cur : option proc) (addr len : Z) : state * option proc * Z :=
  match cur with
  | None => (st, cur, -1)
  | Some c =>
      let len := m18_user_span addr len in
      if len =? 0 then (st, cur, -1)
      else
        let end_ := addr + len in
        let st1 := slots SLOTS 0 (λ _, zlen (p_vmas c))
                     (λ i, in_range addr end_ (p_vmas c).[i] (unmap_range (p_space c))) st in
        let s := slots SLOTS 0 (λ s : vset, zlen s) (munmap_slot addr end_) (p_vmas c) in
        (st1, Some (set_vmas c s), 0)
  end.

(** One round of the splitting loops of [ksys_mprotect]; [false] stands for
    the [return -1]. *)
Definition protect_cut (at_ : Z) (i : Z) (s : vset * bool) : vset * bool :=
  if negb s.2 then s
  else
    let v := s.1.[i] in
    if is_none v then s
    else if (v_start v <? at_) && (at_ <? v_end v) then vma_split s.1 i at_
    else s.

Definition protect_flags (addr end_ newf : Z) (i : Z) (s : vset) : vset :=
  let v := s.[i] in
  if is_none v then s
  else if (addr <=? v_start v) && (v_end v <=? end_) then s.[i <- set_v_flags v newf]
  else s.

Definition device_in (addr end_ : Z) (s : vset) : bool :=
  match slot_find (λ v, bool_decide (v_type v = VMA_TYPE_PHYS) && overlaps addr end_ v) s 0 with Some _ => true | None => false end.

Definition ksys_mprotect (st : state) (cur : option proc) (addr len prot : Z) : state * option proc * Z :=
  match cur with
  | None => (st, cur, -1)
  | Some c =>
      if flag prot PROT_WRITE && flag prot PROT_EXEC then (st, cur, -1)
      else
        let len := m18_user_span addr len in
        if len =? 0 then (st, cur, -1)
        else
          let end_ := addr + len in
          if negb (vma_overlaps (p_vmas c) addr end_) then (st, cur, -1)
          else if flag prot PROT_EXEC && device_in addr end_ (p_vmas c) then (st, cur, -1)
          else
            let newf := m18_prot_to_flags prot in
            let '(s1, ok1) := slots SLOTS 0 (λ s : vset * bool, zlen s.1) (protect_cut addr) (p_vmas c, true) in
            if negb ok1 then (st, Some (set_vmas c s1), -1)
            else
              let '(s2, ok2) := slots SLOTS 0 (λ s : vset * bool, zlen s.1) (protect_cut end_) (s1, true) in
              if negb ok2 then (st, Some (set_vmas c s2), -1)
              else
                let s3 := slots SLOTS 0 (λ s : vset, zlen s) (protect_flags addr end_ newf) s2 in
                let st1 := slots SLOTS 0 (λ _, zlen s3)
                             (λ i, in_range addr end_ s3.[i] (λ lo hi, protect_range (p_space c) lo hi newf)) st in
                (st1, Some (set_vmas c s3), 0)
  end.
End calls.
