(* ===== verification/MmRange.v ===== *)
(** * Operations on ranges of pages

    The loops of the memory calls over the pages of a range and over the
    regions that meet it, for any operation on one page: what they do is what
    the operation does, once for each page. *)

From S2P Require Import Prelude Vma Frames Vmm VmmWf VmmInv VmmOps VmmFault VmSpace VmWalk VmCreate VmFork VmDestroy VmSafe VmReach MmSyscall.

#[local] Opaque window_names pages_below shares_below leaf fork_parent fork_child.

Lemma slots_inv {S : Type} (Inv : Z → S → Prop) (N : Z) fuel i (count : S → Z) body s :
  Inv i s → N ≤ i + Z.of_nat fuel → (∀ j s, Inv j s → count s ≤ N) →
  (∀ j s, i ≤ j → j < count s → Inv j s → Inv (j + 1) (body j s)) →
  ∃ j, Inv j (slots fuel i count body s) ∧ i ≤ j ∧ count (slots fuel i count body s) ≤ j.
Proof.
  revert i s. induction fuel as [|fuel IH]; intros i s Hi Hn Hc Hstep; cbn [slots].
  { exists i. split_and!; [done|lia|]. pose proof (Hc i s Hi). lia. }
  destruct (Z.ltb_spec i (count s)) as [Hlt|Hge]; [|exists i; split_and!; [done|lia|lia]].
  destruct (IH (i + 1) (body i s)) as (j & H1 & H2 & H3).
  - by apply Hstep.
  - lia.
  - done.
  - intros j s' Hj. apply Hstep. lia.
  - exists j. split_and!; [done|lia|done].
Qed.

(** The same when the body does not change the count. *)
Lemma slots_fixed {S : Type} (Inv : Z → S → Prop) (n : Z) (body : Z → S → S) s :
  0 ≤ n ≤ VMA_MAX → Inv 0 s → (∀ j s, 0 ≤ j < n → Inv j s → Inv (j + 1) (body j s)) →
  Inv n (slots SLOTS 0 (λ _, n) body s).
Proof.
  intros Hn H0 Hstep.
  destruct (slots_inv (λ j s, 0 ≤ j ≤ n ∧ Inv j s) n SLOTS 0 (λ _, n) body s) as (j & [Hj Hi] & _ & Hge).
  - split; [lia|done].
  - change (Z.of_nat SLOTS) with VMA_MAX. lia.
  - intros. lia.
  - intros j s' Hj Hlt [_ HI]. split; [lia|]. apply Hstep; [lia|done].
  - replace n with j at 1 by lia. done.
Qed.

Section range.
Context {A : Type} {ops : FrameOps A} {laws : FrameLaws A}.
Abbreviation state := (vm A).

(** [st'] differs from [st] in the pages of space [r] in [R] only: leaves,
    and what loads of other pages give. *)
Record pages_changed (roots : list Z) (st st' : state) (r : Z) (R : Z → Prop) : Prop := {
  pg_inv : vm_inv roots st';
  pg_kspace : kspace st' = kspace st;
  pg_leaf : ∀ r' v, r' ∈ roots → upage v → ¬ (r' = r ∧ R v) → leaf (vmem st') r' v = leaf (vmem st) r' v;
  pg_load : ∀ r' va, r' ∈ roots → 0 ≤ va < VMM_USER_TOP → ¬ (r' = r ∧ R (va / 4096)) →
    is_present (leaf (vmem st) r' (va / 4096)) = true → owns_frame (leaf (vmem st) r' (va / 4096)) = true →
    user_load st' r' va = user_load st r' va
}.

Lemma pages_changed_refl roots (st : state) r R : vm_inv roots st → pages_changed roots st st r R.
Proof. done. Qed.

Lemma pages_changed_trans roots (st1 st2 st3 : state) r (R1 R2 R : Z → Prop) :
  (∀ v, R1 v → R v) → (∀ v, R2 v → R v) →
  pages_changed roots st1 st2 r R1 → pages_changed roots st2 st3 r R2 → pages_changed roots st1 st3 r R.
Proof.
  intros H1 H2 [I1 K1 L1 D1] [I2 K2 L2 D2]. constructor; [done|congruence| |].
  - intros r' v Hr Hv Hn. rewrite L2, L1; [done|done|done| |done|done|]; (intros [-> ?]; apply Hn; split; [done|]; auto).
  - intros r' va Hr Hva Hn Hp Ho. pose proof (page_of_va va Hva) as Hu.
    assert (N1 : ¬ (r' = r ∧ R1 (va / 4096))) by (intros [-> ?]; apply Hn; split; [done|]; auto).
    assert (N2 : ¬ (r' = r ∧ R2 (va / 4096))) by (intros [-> ?]; apply Hn; split; [done|]; auto).
    rewrite D2, D1; try done; by rewrite L1.
Qed.

(** A change of one leaf that keeps the data. *)
Lemma one_page roots (st st' : state) r v e : vm_inv roots st → vm_inv roots st' → r ∈ roots → kspace st' = kspace st →
  same_data roots st st' → only_leaf roots (vmem st) (vmem st') r v e → pages_changed roots st st' r (λ w, w = v).
Proof.
  intros Hinv Hinv' Hr Hk Hd Hl.
  assert (Hoth : ∀ r' v', r' ∈ roots → upage v' → ¬ (r' = r ∧ v' = v) → leaf (vmem st') r' v' = leaf (vmem st) r' v').
  { intros r' v' Hr' Hv' Hn. rewrite Hl by done. destruct (Z.eqb_spec r' r) as [->|]; [|done].
    destruct (Z.eqb_spec v' v) as [->|]; [|done]. by destruct Hn. }
  constructor; [done..|]. intros r' va Hr' Hva Hn Hp Ho. pose proof (page_of_va va Hva) as Hu.
  apply (load_same roots roots st st' r' r' va); try done; rewrite Hoth by done; [done|]. by apply names_owns.
Qed.

Lemma no_page roots (st st' : state) r R : vm_inv roots st → vm_inv roots st' → kspace st' = kspace st →
  same_data roots st st' → same_leaves roots (vmem st) (vmem st') → pages_changed roots st st' r R.
Proof.
  intros Hinv Hinv' Hk Hd Hl. constructor; [done..|auto|].
  intros r' va Hr' Hva Hn Hp Ho. pose proof (page_of_va va Hva) as Hu.
  apply (load_same roots roots st st' r' r' va); try done; rewrite Hl by done; [done|]. by apply names_owns.
Qed.

Section loop.
Context (roots : list Z) (r : Z) (op : Z → state → state) (Q : Z → Z → Prop) (ok : Z → Z → Prop).
Hypothesis Hr : r ∈ roots.
(** [op] on page [w]: allowed where [ok w] holds of its leaf, it changes that
    page only, as [Q]. *)
Hypothesis Hop : ∀ st w, vm_inv roots st → upage w → ok w (leaf (vmem st) r w) →
  pages_changed roots st (op w st) r (λ v, v = w) ∧ Q (leaf (vmem st) r w) (leaf (vmem (op w st)) r w).

Lemma pages_loop (n : nat) st a : vm_inv roots st → 0 ≤ a → a + Z.of_nat n ≤ USER_PAGES →
  (∀ w, a ≤ w < a + Z.of_nat n → ok w (leaf (vmem st) r w)) →
  let st' := zfor n 0 (λ k st, op (a + k) st) st in
  pages_changed roots st st' r (λ v, a ≤ v < a + Z.of_nat n) ∧
  ∀ w, a ≤ w < a + Z.of_nat n → Q (leaf (vmem st) r w) (leaf (vmem st') r w).
Proof.
  intros Hinv Ha Hb Hok. set (N := Z.of_nat n) in *.
  enough (H : ∀ st', (0 + Z.of_nat n = 0 + Z.of_nat n) → st' = zfor n 0 (λ k st, op (a + k) st) st →
    pages_changed roots st st' r (λ v, a ≤ v < a + N) ∧ ∀ w, a ≤ w < a + N → Q (leaf (vmem st) r w) (leaf (vmem st') r w)) by (by apply H).
  intros st' _ ->.
  pose proof (zfor_inv (λ k s, pages_changed roots st s r (λ v, a ≤ v < a + k) ∧ ∀ w, a ≤ w < a + k → Q (leaf (vmem st) r w) (leaf (vmem s) r w))
    n 0 (λ k st, op (a + k) st) st) as HI. rewrite Z.add_0_l in HI. fold N in HI. apply HI.
  - split; [by apply pages_changed_refl|lia].
  - intros k s Hk [Hc HQ]. assert (Hu : upage (a + k)) by (unfold upage; lia).
    assert (El : leaf (vmem s) r (a + k) = leaf (vmem st) r (a + k)) by (apply (pg_leaf _ _ _ _ _ Hc); [done|done|lia]).
    destruct (Hop s (a + k) (pg_inv _ _ _ _ _ Hc) Hu) as [H1 H2]; [rewrite El; apply Hok; lia|]. split.
    + apply (pages_changed_trans roots st s _ r (λ v, a ≤ v < a + k) (λ v, v = a + k)); [lia|lia|done|done].
    + intros w Hw. destruct (decide (w = a + k)) as [->|Hne]; [by rewrite <- El|].
      rewrite (pg_leaf _ _ _ _ _ H1); [apply HQ; lia|done|unfold upage; lia|lia].
Qed.

(** Page [w] lies in [[addr, end_)] and in region [v]. *)
Definition page_in (addr end_ : Z) (v : vma) (w : Z) : Prop :=
  live v ∧ addr ≤ w * 4096 < end_ ∧ v_start v ≤ w * 4096 < v_end v.

Definition range_body (lo hi : Z) (st : state) : state := zfor (pages_from lo hi) 0 (λ k st, op (lo / 4096 + k) st) st.

Lemma in_range_spec st addr end_ v : vm_inv roots st → (4096 | addr) → (4096 | end_) → vma_ok v → 0 ≤ addr →
  (∀ w, page_in addr end_ v w → ok w (leaf (vmem st) r w)) →
  let st' := in_range addr end_ v range_body st in
  pages_changed roots st st' r (page_in addr end_ v) ∧
  ∀ w, page_in addr end_ v w → Q (leaf (vmem st) r w) (leaf (vmem st') r w).
Proof.
  intros Hinv Ha He Hv Ha0 Hok. unfold in_range. destruct (is_none v) eqn:En; cbn [orb].
  { split; [by apply pages_changed_refl|]. intros w [Hl _]. apply is_none_spec in Hl. congruence. }
  apply is_none_spec in En. unfold overlaps. destruct Hv as [[V1 V2] [V3 V4] _ _ _].
  destruct (Z.ltb_spec addr (v_end v)), (Z.ltb_spec (v_start v) end_); cbn [andb negb];
    try (split; [by apply pages_changed_refl|]; intros w (_ & ? & ?); lia).
  set (lo := if v_start v <? addr then addr else v_start v). set (hi := if end_ <? v_end v then end_ else v_end v).
  assert (Elo : lo = Z.max addr (v_start v)) by (unfold lo; destruct (Z.ltb_spec (v_start v) addr); lia).
  assert (Ehi : hi = Z.min end_ (v_end v)) by (unfold hi; destruct (Z.ltb_spec end_ (v_end v)); lia).
  assert (Dlo : (4096 | lo)) by (unfold lo; destruct (v_start v <? addr); assumption).
  assert (Dhi : (4096 | hi)) by (unfold hi; destruct (end_ <? v_end v); assumption).
  assert (Hu : is_u64 lo) by (unfold is_u64; unfold VMM_USER_TOP in *; lia).
  rewrite land_not_page by done. assert (Em : lo / 4096 * 4096 = lo) by (destruct Dlo as [k ->]; by rewrite Z.div_mul).
  rewrite Em. clearbody lo hi. unfold range_body. destruct Dlo as [l ->], Dhi as [h ->].
  rewrite Z.div_mul by lia.
  assert (En2 : Z.of_nat (pages_from (l * 4096) (h * 4096)) = Z.max 0 (h - l)).
  { unfold pages_from. rewrite ZifyInst.of_nat_to_nat_eq. Z.to_euclidean_division_equations; lia. }
  assert (Hiff : ∀ w, page_in addr end_ v w ↔ l ≤ w < l + Z.of_nat (pages_from (l * 4096) (h * 4096))).
  { intros w. unfold page_in. rewrite En2. destruct Ha as [a ->], He as [b ->], V2 as [x Hx], V4 as [y Hy]. rewrite Hx, Hy in *.
    split; [lia|]. intros. split; [done|]. lia. }
  destruct (pages_loop (pages_from (l * 4096) (h * 4096)) st l) as [H1 H2].
  - done.
  - lia.
  - rewrite En2. unfold USER_PAGES, VMM_USER_TOP in *. lia.
  - intros w Hw. by apply Hok, Hiff.
  - split; [|intros w Hw; by apply H2, Hiff].
    destruct H1 as [I1 K1 L1 D1]. constructor; [done|done| |].
    + intros r' w Hr' Hw Hn. apply L1; [done|done|]. intros [-> Hx]. apply Hn. split; [done|]. by apply Hiff.
    + intros r' va Hr' Hva Hn. apply D1; [done|done|]. intros [-> Hx]. apply Hn. split; [done|]. by apply Hiff.
Qed.

(** Page [w] lies in [[addr, end_)] and in some region. *)
Definition page_covered (addr end_ : Z) (s : vset) (w : Z) : Prop :=
  addr ≤ w * 4096 < end_ ∧ ∃ v, vma_find s (w * 4096) = Some v.

Lemma regions_loop st addr end_ (s : vset) : vm_inv roots st → (4096 | addr) → (4096 | end_) → vset_wf s → 0 ≤ addr →
  (∀ w, page_covered addr end_ s w → ok w (leaf (vmem st) r w)) →
  let st' := slots SLOTS 0 (λ _, zlen s) (λ i, in_range addr end_ s.[i] range_body) st in
  pages_changed roots st st' r (page_covered addr end_ s) ∧
  ∀ w, page_covered addr end_ s w → Q (leaf (vmem st) r w) (leaf (vmem st') r w).
Proof.
  intros Hinv Ha He Hs Ha0 Hok st'.
  set (upto := λ (i w : Z), ∃ j, 0 ≤ j < i ∧ page_in addr end_ s.[j] w).
  assert (Hcov : ∀ i w, i ≤ zlen s → upto i w → page_covered addr end_ s w).
  { intros i w Hi (j & Hj & Hl & Hw & Hv). split; [done|]. exists s.[j]. apply (vma_find_at s j); (done || lia). }
  assert (Hup : ∀ w, page_covered addr end_ s w → upto (zlen s) w).
  { intros w [Hw [v Hv]]. apply vma_find_Some in Hv as (j & Hj & _ & <- & Hl & Hin). by exists j. }
  assert (Hok' : ∀ i w, i ≤ zlen s → upto i w → ok w (leaf (vmem st) r w)) by (intros i w Hi Hw; by apply Hok, (Hcov i)).
  assert (HI : pages_changed roots st st' r (upto (zlen s)) ∧ ∀ w, upto (zlen s) w → Q (leaf (vmem st) r w) (leaf (vmem st') r w)).
  { apply (slots_fixed (λ i x, pages_changed roots st x r (upto i) ∧ ∀ w, upto i w → Q (leaf (vmem st) r w) (leaf (vmem x) r w))).
    - pose proof (vw_len s Hs). lia.
    - split; [by apply pages_changed_refl|]. intros w (j & Hj & _). lia.
    - intros i x Hi [Hc HQ]. destruct (is_none s.[i]) eqn:En.
      { assert (Eu : ∀ w, upto (i + 1) w → upto i w).
        { intros w (j & Hj & Hp). exists j. split; [|done]. destruct (decide (j = i)) as [->|]; [|lia].
          apply proj1, is_none_spec in Hp. congruence. }
        unfold in_range. rewrite En. cbn [orb]. split; [|auto].
        apply (pages_changed_trans roots st x x r (upto i) (upto i)); [|..|by apply pages_changed_refl, Hc]; try done;
          intros w (j & Hj & ?); exists j; split; [lia|done|lia|done]. }
      apply is_none_spec in En.
      assert (Hdis : ∀ w, page_in addr end_ s.[i] w → ¬ upto i w).
      { intros w (_ & _ & Hv) (j & Hj & Hlj & _ & Hvj). destruct (vw_disjoint s Hs i j); try done; lia. }
      assert (Hlf : ∀ w, page_in addr end_ s.[i] w → leaf (vmem x) r w = leaf (vmem st) r w).
      { intros w Hw. apply (pg_leaf _ _ _ _ _ Hc); [done| |by intros [_ ?%Hdis]].
        destruct Hw as (_ & _ & Hv). destruct (vw_ok s Hs i Hi En) as [[? _] [[_ ?] _] _ _ _]. unfold upage, USER_PAGES, VMM_USER_TOP in *. lia. }
      destruct (in_range_spec x addr end_ s.[i] (pg_inv _ _ _ _ _ Hc) Ha He (vw_ok s Hs i Hi En) Ha0) as [H1 H2].
      { intros w Hw. rewrite Hlf by done. apply (Hok' (i + 1)); [lia|]. exists i. split; [lia|done]. }
      split.
      + apply (pages_changed_trans roots st x _ r (upto i) (page_in addr end_ s.[i])); [| |done|done].
        * intros w (j & Hj & Hp). exists j. split; [lia|done].
        * intros w Hw. exists i. split; [lia|done].
      + intros w (j & Hj & Hp). destruct (decide (j = i)) as [->|Hne]; [rewrite <- Hlf by done; by apply H2|].
        rewrite (pg_leaf _ _ _ _ _ H1); [apply HQ; exists j; split; [lia|done]|done| |].
        * destruct Hp as (Hl & _ & Hv). destruct (vw_ok s Hs j ltac:(lia) Hl) as [[? _] [[_ ?] _] _ _ _]. unfold upage, USER_PAGES, VMM_USER_TOP in *. lia.
        * intros [_ Hin]. apply (Hdis w Hin). exists j. split; [lia|done]. }
  destruct HI as [H1 H2]. split; [|intros w Hw; by apply H2, Hup].
  destruct H1 as [I1 K1 L1 D1]. constructor; [done|done| |].
  - intros r' w Hr' Hw Hn. apply L1; [done|done|]. intros [-> Hx]. apply Hn. split; [done|]. by apply (Hcov (zlen s)).
  - intros r' va Hr' Hva Hn. apply D1; [done|done|]. intros [-> Hx]. apply Hn. split; [done|]. by apply (Hcov (zlen s)).
Qed.
End loop.
End range.
