(* ===== verification/MmRegions.v ===== *)
(** * The regions after a memory call

    What the loops of [ksys_munmap], [ksys_mprotect] and [ksys_brk] over the
    region set of a process make of it: the set stays well formed, every
    region of the result is a part of an old one, and which addresses still
    resolve, with which rights and contents. *)

From S2P Require Import Prelude Vma Frames Vmm MmSyscall MmRange.

(** No offset of a backing. *)
Definition plain (v : vma) : Prop := file_voff v = 0 ∧ phys_base v = 0.

(** [u] is a part of [v] (the rights apart). *)
Record part_of (u v : vma) : Prop := {
  pa_start : v_start v ≤ v_start u;
  pa_end : v_end u ≤ v_end v;
  pa_type : v_type u = v_type v;
  pa_phys : v_type v = VMA_TYPE_PHYS →
    phys_base v ≤ phys_base u ∧ phys_base u + (v_end u - v_start u) ≤ phys_base v + (v_end v - v_start v) ∧
    ((4096 | phys_base v) → (4096 | phys_base u));
  pa_anon : v_type v = VMA_TYPE_ANON → plain v → plain u
}.

Lemma part_refl v : part_of v v.
Proof. constructor; (done || lia). Qed.

Lemma part_trans u v w : part_of u v → part_of v w → part_of u w.
Proof.
  intros [S1 E1 T1 P1 N1] [S2 E2 T2 P2 N2]. constructor; [lia|lia|congruence| |].
  - intros Ht. destruct (P2 Ht) as (A & B & C), (P1 ltac:(congruence)) as (A' & B' & C'). split_and!; [lia|lia|auto].
  - intros Ht Hp. apply N1; [congruence|auto].
Qed.

Lemma part_end v e : v_start v ≤ e ≤ v_end v → part_of (set_v_end v e) v.
Proof. intros. constructor; simpl; [lia|lia|done| |done]. intros _. split_and!; (done || lia). Qed.
Lemma part_start v e : v_start v ≤ e ≤ v_end v → part_of (set_v_start v e) v.
Proof. intros. constructor; simpl; [lia|lia|done| |done]. intros _. split_and!; (done || lia). Qed.
Lemma part_flags v f : part_of (set_v_flags v f) v.
Proof. constructor; simpl; [lia|lia|done| |done]. intros _. split_and!; (done || lia). Qed.

Lemma part_split v addr : vma_ok v → (4096 | addr) → v_start v < addr < v_end v → part_of (split_hi v addr) v.
Proof.
  intros Hv Ha Hin. destruct (split_hi_fields v addr) as (F1 & F2 & F3 & F4 & F5).
  pose proof (vo_phys v Hv) as [P1 P2]. pose proof (vo_start v Hv) as [S1 S2].
  constructor; rewrite ?F1, ?F2, ?F4; [lia|lia|done| |]; intros Ht; [|unfold split_hi; by rewrite Ht].
  assert (Hp : phys_base (split_hi v addr) = phys_base v + (addr - v_start v)).
  { unfold split_hi. rewrite Ht. simpl. apply u64_small. unfold is_u64. lia. }
  rewrite Hp. split_and!; [lia|lia|]. intros Hd. apply Z.divide_add_r; [done|]. by apply Z.divide_sub_r.
Qed.

(** Every live region of [s'] is part of a region of [s], rights related by [F]. *)
Definition parts (F : vma → vma → Prop) (s s' : vset) : Prop :=
  ∀ i, 0 ≤ i < zlen s' → live s'.[i] → ∃ j, 0 ≤ j < zlen s ∧ live s.[j] ∧ part_of s'.[i] s.[j] ∧ F s'.[i] s.[j].

Lemma parts_refl (F : vma → vma → Prop) s : (∀ v, F v v) → parts F s s.
Proof. intros HF i Hi Hl. exists i. split_and!; [lia|lia|done|apply part_refl|auto]. Qed.

(** One slot replaced by a part, possibly with another part added. *)
Lemma parts_set (F : vma → vma → Prop) s0 s i v' : 0 ≤ i < zlen s → live s.[i] → parts F s0 s →
  part_of v' s.[i] → (∀ w, F s.[i] w → F v' w) → parts F s0 s.[i <- v'].
Proof.
  intros Hi Hl Hp Hpart HF j Hj Hlj. rewrite aset_length in Hj. rewrite aget_aset in * by lia.
  destruct (Z.eqb_spec i j) as [->|]; [|by apply Hp]. destruct (Hp j Hj Hl) as (k & Hk & Hlk & Hpk & HFk).
  exists k. split_and!; try done; try lia; [by apply (part_trans _ s.[j])|auto].
Qed.

Lemma parts_remove F s0 s i : 0 ≤ i < zlen s → parts F s0 s → parts F s0 (vma_remove s i).
Proof.
  intros Hi Hp j Hj Hlj. unfold vma_remove in *. rewrite aset_length in Hj. rewrite aget_aset in * by lia.
  destruct (Z.eqb_spec i j) as [->|]; [by destruct Hlj|]. by apply Hp.
Qed.

Lemma parts_added (F : vma → vma → Prop) s0 s s' n v : added s s' n v → parts F s0 s →
  (live v → ∃ j, 0 ≤ j < zlen s0 ∧ live s0.[j] ∧ part_of v s0.[j] ∧ F v s0.[j]) → parts F s0 s'.
Proof.
  intros [_ [Hn Hv] _ Ho _] Hp Hvp i Hi Hl. destruct (decide (i = n)) as [->|Hne]; [rewrite Hv in *; auto|].
  destruct (Ho i Hi Hne) as [Hlt E]. rewrite E in *. apply Hp; [lia|done].
Qed.

(** The address of a part resolves in the old set. *)
Lemma parts_find F s s' a u : vset_wf s → parts F s s' → vma_find s' a = Some u →
  ∃ v, vma_find s a = Some v ∧ part_of u v ∧ F u v.
Proof.
  intros Hs Hp Hf. apply vma_find_Some in Hf as (i & Hi & _ & <- & Hl & Ha). destruct (Hp i Hi Hl) as (j & Hj & Hlj & Hpj & HF).
  exists s.[j]. split_and!; try done. apply (vma_find_at s j); try done. destruct Hpj. lia.
Qed.

Lemma set_v_start_ok v e : vma_ok v → (4096 | e) → v_start v ≤ e < v_end v → vma_ok (set_v_start v e).
Proof. intros [[? ?] [? ?] ? ? ?] Hd Ha. unfold VMM_USER_TOP in *. solve_vma_ok. Qed.

(** ** munmap *)

Section munmap.
Context (s0 : vset) (addr end_ : Z).
Hypothesis Hs0 : vset_wf s0.
Hypothesis Haddr : 0 ≤ addr ∧ (4096 | addr).
Hypothesis Hend : (4096 | end_).
Hypothesis Hlt : addr < end_.

Definition outside (v : vma) : Prop := v_end v ≤ addr ∨ end_ ≤ v_start v.
Definition same_rights (u v : vma) : Prop := v_flags u = v_flags v.

(** An address above the range that keeps its region: the region starts above
    the range, or is anonymous and a slot is free for the rest of it. *)
Definition kept_above (a : Z) : Prop :=
  ∃ v, vma_find s0 a = Some v ∧ (end_ ≤ v_start v ∨ v_type v = VMA_TYPE_ANON ∧ zlen s0 < VMA_MAX).

Record munmapped (i : Z) (s : vset) : Prop := {
  mu_wf : vset_wf s;
  mu_done : ∀ j, 0 ≤ j < zlen s → j < i → live s.[j] → outside s.[j];
  mu_len : zlen s = zlen s0 ∨ ∀ j, 0 ≤ j < zlen s → live s.[j] → outside s.[j];
  mu_parts : parts same_rights s0 s;
  mu_below : ∀ a, a < addr → at_addr s a = at_addr s0 a;
  mu_above : ∀ a, end_ ≤ a → kept_above a → at_addr s a = at_addr s0 a
}.

(** A region of [s] that meets the range, at an address above it. *)
Lemma kept_type i s a : munmapped i s → 0 ≤ i < zlen s → live s.[i] → v_start s.[i] < end_ → v_start s.[i] ≤ a < v_end s.[i] →
  kept_above a → v_type s.[i] = VMA_TYPE_ANON ∧ zlen s0 < VMA_MAX.
Proof.
  intros Hm Hi Hl Hst Ha (v & Hv & Hk).
  destruct (parts_find same_rights s0 s a s.[i] Hs0 (mu_parts _ _ Hm)) as (v0 & Hv0 & Hp & _);
    [by apply (vma_find_at s i); [apply Hm|..]|].
  assert (v0 = v) as -> by congruence. destruct Hk as [Hk|[Hk ?]]; [pose proof (pa_start _ _ Hp); lia|].
  by rewrite (pa_type _ _ Hp).
Qed.

Lemma at_replace s i v' : vset_wf s → 0 ≤ i < zlen s → live s.[i] → vma_ok v' → live v' →
  v_start s.[i] ≤ v_start v' → v_end v' ≤ v_end s.[i] →
  ∀ a, at_addr s.[i <- v'] a =
    if (v_start v' <=? a) && (a <? v_end v') then Some (v_flags v', v_type v', vma_backing v' a)
    else if (v_start s.[i] <=? a) && (a <? v_end s.[i]) then None else at_addr s a.
Proof.
  intros Hs Hi Hl Hok Hl' H1 H2 a. unfold at_addr. destruct (replace_wf s i v' Hs Hi Hl Hok Hl' H1 H2) as [_ ->].
  destruct ((v_start v' <=? a) && (a <? v_end v')); [done|]. by destruct ((v_start s.[i] <=? a) && _).
Qed.

Lemma at_region s i a : vset_wf s → 0 ≤ i < zlen s → live s.[i] → v_start s.[i] ≤ a < v_end s.[i] →
  at_addr s a = Some (v_flags s.[i], v_type s.[i], vma_backing s.[i] a).
Proof. intros Hs Hi Hl Ha. unfold at_addr. by destruct (vma_find_at s i a Hs Hi Hl Ha) as [_ ->]. Qed.

(** Slot [i] replaced by a part outside the range. *)
Lemma munmap_replace i s v' : munmapped i s → 0 ≤ i < zlen s → live s.[i] → ¬ outside s.[i] →
  vma_ok v' → live v' → part_of v' s.[i] → v_flags v' = v_flags s.[i] → outside v' →
  (∀ a, v_start s.[i] ≤ a < v_end s.[i] → a < addr ∨ end_ ≤ a ∧ kept_above a →
     v_start v' ≤ a < v_end v' ∧ vma_backing v' a = vma_backing s.[i] a) →
  munmapped (i + 1) s.[i <- v'].
Proof.
  intros Hm Hi Hl Hno Hok Hl' Hp Hf Hout Hback. pose proof (mu_wf _ _ Hm) as Hs.
  assert (Hat : ∀ a, a < addr ∨ end_ ≤ a ∧ kept_above a → at_addr s.[i <- v'] a = at_addr s a).
  { intros a Ha. rewrite at_replace; [|done..|apply Hp|apply Hp].
    destruct ((v_start s.[i] <=? a) && (a <? v_end s.[i])) eqn:Ev.
    - zbool. destruct (Hback a ltac:(lia) Ha) as [Hin Hb]. rewrite (at_region s i a Hs Hi Hl) by lia.
      destruct (Z.leb_spec (v_start v') a), (Z.ltb_spec a (v_end v')); try lia. cbn [andb]. by rewrite Hf, (pa_type _ _ Hp), Hb.
    - destruct ((v_start v' <=? a) && (a <? v_end v')) eqn:E'; [|done]. exfalso. zbool. destruct Hp. lia. }
  constructor.
  - by apply (replace_wf s i v' Hs Hi Hl Hok Hl'); apply Hp.
  - intros j. rewrite aset_length. intros Hj Hji. rewrite aget_aset by lia. destruct (Z.eqb_spec i j) as [->|]; [done|].
    apply (mu_done _ _ Hm); lia.
  - rewrite aset_length. left. destruct (mu_len _ _ Hm) as [|Hall]; [done|]. by destruct (Hno (Hall i Hi Hl)).
  - apply parts_set; [done|done|apply Hm|done|]. unfold same_rights. intros w. by rewrite Hf.
  - intros a Ha. rewrite Hat by (by left). by apply (mu_below _ _ Hm).
  - intros a Ha Hk. rewrite Hat by (by right). by apply (mu_above _ _ Hm).
Qed.

(** The range lies inside slot [i]: every other region is outside. *)
Lemma hole_others i s : munmapped i s → 0 ≤ i < zlen s → live s.[i] → v_start s.[i] < addr → end_ < v_end s.[i] →
  ∀ j, 0 ≤ j < zlen s → j ≠ i → live s.[j] → outside s.[j].
Proof.
  intros Hm Hi Hl H1 H2 j Hj Hne Hlj. unfold outside.
  destruct (vw_disjoint s (mu_wf _ _ Hm) i j Hi Hj) as [H|H]; try done; lia.
Qed.

(** The two pieces around a hole: slot [i] cut at [addr], [hi] added. *)
Lemma munmap_hole i s s2 n hi : munmapped i s → 0 ≤ i < zlen s → live s.[i] → v_start s.[i] < addr → end_ < v_end s.[i] →
  added s.[i <- set_v_end s.[i] addr] s2 n hi → vma_ok hi → live hi → part_of hi s.[i] → v_flags hi = v_flags s.[i] →
  v_start hi = end_ → v_end hi = v_end s.[i] →
  (∀ a, end_ ≤ a < v_end s.[i] → vma_backing hi a = vma_backing s.[i] a) →
  munmapped (i + 1) s2.
Proof.
  intros Hm Hi Hl H1 H2 Hadd Hok Hlh Hp Hf Hst Hen Hback. pose proof (mu_wf _ _ Hm) as Hs.
  pose proof (hole_others i s Hm Hi Hl H1 H2) as Hoth. pose proof (vw_ok s Hs i Hi Hl) as Hoki.
  set (v' := set_v_end s.[i] addr) in *.
  assert (Hok' : vma_ok v') by (apply set_v_end_ok; [done|apply Haddr|lia]).
  destruct (replace_wf s i v' Hs Hi Hl Hok' Hl) as [Hs1 Hf1]; [simpl; lia..|].
  assert (Hnew : ∀ j, 0 ≤ j < zlen s.[i <- v'] → live s.[i <- v'].[j] → disjoint hi s.[i <- v'].[j] ∧ outside s.[i <- v'].[j]).
  { intros j Hj. rewrite aset_length in Hj. rewrite aget_aset by lia. unfold disjoint, outside. rewrite Hst, Hen.
    destruct (Z.eqb_spec i j) as [<-|Hne]; [simpl; lia|]. intros Hlj.
    destruct (vw_disjoint s Hs i j Hi Hj Hne Hl Hlj); lia. }
  destruct (added_wf _ s2 n hi Hs1 Hadd Hok Hlh (λ j Hj Hlj, proj1 (Hnew j Hj Hlj))) as [Hs2 Hf2]. rewrite Hst, Hen in Hf2.
  assert (Hall : ∀ j, 0 ≤ j < zlen s2 → live s2.[j] → outside s2.[j]).
  { intros j Hj Hlj. destruct Hadd as [_ [Hn Hv] _ Ho _]. destruct (decide (j = n)) as [->|Hne].
    - rewrite Hv. unfold outside. lia.
    - destruct (Ho j Hj Hne) as [Hlt' E]. rewrite E in *. by apply (Hnew j ltac:(lia)). }
  assert (Hat : ∀ a, a < addr ∨ end_ ≤ a → at_addr s2 a = at_addr s a).
  { intros a Ha. unfold at_addr at 1. rewrite Hf2, Hf1. unfold v'. cbn [set_v_end v_start v_end].
    destruct ((v_start s.[i] <=? a) && (a <? v_end s.[i])) eqn:Ev.
    - zbool. rewrite (at_region s i a Hs Hi Hl) by lia.
      destruct (Z.leb_spec end_ a), (Z.ltb_spec a (v_end s.[i])); try lia; cbn [andb].
      + by rewrite Hf, (pa_type _ _ Hp), Hback by lia.
      + destruct (Z.leb_spec (v_start s.[i]) a), (Z.ltb_spec a addr); try lia. done.
    - destruct ((end_ <=? a) && (a <? v_end s.[i])) eqn:E1; [exfalso; zbool; lia|].
      destruct ((v_start s.[i] <=? a) && (a <? addr)) eqn:E2; [exfalso; zbool; lia|]. done. }
  constructor; [done| |by right| | |].
  - intros j Hj _. by apply Hall.
  - apply (parts_added _ _ _ _ _ _ Hadd).
    + apply parts_set; [done|done|apply Hm|apply part_end; lia|]. unfold same_rights. done.
    + intros _. destruct (mu_parts _ _ Hm i Hi Hl) as (k & Hk & Hlk & Hpk & HFk). exists k.
      split_and!; try done; try lia; [by apply (part_trans _ s.[i])|]. unfold same_rights in *. congruence.
  - intros a Ha. rewrite Hat by (by left). by apply (mu_below _ _ Hm).
  - intros a Ha Hk. rewrite Hat by (by right). by apply (mu_above _ _ Hm).
Qed.

(** A region with the range strictly inside and no address to keep above it. *)
Lemma munmap_cut i s : munmapped i s → 0 ≤ i < zlen s → live s.[i] → ¬ outside s.[i] → v_start s.[i] < addr →
  (∀ a, end_ ≤ a < v_end s.[i] → ¬ kept_above a) → munmapped (i + 1) s.[i <- set_v_end s.[i] addr].
Proof.
  intros Hm Hi Hl Hno Hst Hk. pose proof (vw_ok s (mu_wf _ _ Hm) i Hi Hl) as Hok.
  assert (addr < v_end s.[i]) by (unfold outside in Hno; lia). apply munmap_replace; try done.
  - apply set_v_end_ok; [done|apply Haddr|lia].
  - apply part_end. lia.
  - left. simpl. lia.
  - intros a Ha [Hb|[Hb Hka]]; [simpl; split; [lia|done]|]. by destruct (Hk a ltac:(lia)).
Qed.

Lemma munmap_front i s : munmapped i s → 0 ≤ i < zlen s → live s.[i] → ¬ outside s.[i] → addr ≤ v_start s.[i] → end_ < v_end s.[i] →
  munmapped (i + 1) s.[i <- set_v_start s.[i] end_].
Proof.
  intros Hm Hi Hl Hno Hst Hen. pose proof (vw_ok s (mu_wf _ _ Hm) i Hi Hl) as Hok.
  assert (v_start s.[i] < end_) by (unfold outside in Hno; lia). apply munmap_replace; try done.
  - apply set_v_start_ok; [done|apply Hend|lia].
  - apply part_start. lia.
  - right. simpl. lia.
  - intros a Ha [Hb|[Hb Hka]]; [lia|]. simpl. split; [lia|].
    destruct (kept_type i s a Hm Hi Hl) as [Ht _]; [lia|lia|done|]. unfold vma_backing. simpl. by rewrite Ht.
Qed.

Lemma munmap_remove i s : munmapped i s → 0 ≤ i < zlen s → live s.[i] → ¬ outside s.[i] → addr ≤ v_start s.[i] → v_end s.[i] ≤ end_ →
  munmapped (i + 1) (vma_remove s i).
Proof.
  intros Hm Hi Hl Hno Hst Hen. destruct (remove_wf s i (mu_wf _ _ Hm) Hi Hl) as [Hwf Hf].
  assert (Hat : ∀ a, a < addr ∨ end_ ≤ a → at_addr (vma_remove s i) a = at_addr s a).
  { intros a Ha. unfold at_addr. rewrite Hf. destruct ((v_start s.[i] <=? a) && (a <? v_end s.[i])) eqn:Ea; [zbool; lia|done]. }
  assert (El : length (vma_remove s i) = length s) by apply aset_length. constructor; rewrite ?El; [done| | | | |].
  - intros j Hj Hji. unfold vma_remove. rewrite aget_aset by lia. destruct (Z.eqb_spec i j); [intros []; done|].
    apply (mu_done _ _ Hm); lia.
  - left. destruct (mu_len _ _ Hm) as [|Hall]; [done|]. by destruct (Hno (Hall i Hi Hl)).
  - apply parts_remove; [done|apply Hm].
  - intros a Ha. rewrite Hat by (by left). by apply (mu_below _ _ Hm).
  - intros a Ha Hk. rewrite Hat by (by right). by apply (mu_above _ _ Hm).
Qed.

Lemma munmap_phys_hole i s : munmapped i s → 0 ≤ i < zlen s → live s.[i] → ¬ outside s.[i] → v_start s.[i] < addr → end_ < v_end s.[i] →
  v_type s.[i] = VMA_TYPE_PHYS → let s1 := (vma_split s i end_).1 in munmapped (i + 1) s1.[i <- set_v_end s1.[i] addr].
Proof.
  intros Hm Hi Hl Hno Hst Hen Ht. pose proof (mu_wf _ _ Hm) as Hs. pose proof (vw_ok s Hs i Hi Hl) as Hok.
  assert (Hk : ∀ a, end_ ≤ a < v_end s.[i] → ¬ kept_above a).
  { intros a Ha Hka. destruct (kept_type i s a Hm Hi Hl) as [Ht2 _]; [lia|lia|done|]. congruence. }
  destruct (vma_split_cases s i end_ Hs Hi Hl) as [[-> _]|(_ & Hin & s1 & n & -> & Hni & Hadd)]; cbn [fst]; [by apply munmap_cut|].
  destruct (ad_others _ _ _ _ Hadd i) as [_ Ei]; [pose proof (ad_kept _ _ _ _ Hadd i); rewrite aset_length in *; lia|lia|].
  rewrite aget_aset_eq in Ei by lia. rewrite Ei. destruct (split_hi_ok s.[i] end_ Hok Hl Hend ltac:(lia)) as [Hokh Hb].
  destruct (split_hi_fields s.[i] end_) as (F1 & F2 & F3 & F4 & _).
  apply (munmap_hole i s _ n (split_hi s.[i] end_)); try done; [|unfold live; by rewrite F4|apply part_split; [done|done|lia]].
  change (set_v_end (set_v_end s.[i] end_) addr) with (set_v_end s.[i] addr). destruct Hadd as [A1 [A2 A3] A4 A5 A6]. rewrite ?aset_length in *.
  constructor; rewrite ?aset_length; [done| | | |done].
  - split; [done|]. by rewrite aget_aset_ne by lia.
  - intros Hn. rewrite aget_aset_ne by lia. specialize (A4 Hn). by rewrite aget_aset_ne in A4 by lia.
  - intros j Hj Hne. destruct (A5 j Hj Hne) as [H5 H6]. split; [done|].
    rewrite !aget_aset by lia. rewrite H6, aget_aset by lia. by destruct (i =? j).
Qed.

Lemma munmap_anon_hole i s : munmapped i s → 0 ≤ i < zlen s → live s.[i] → ¬ outside s.[i] → v_start s.[i] < addr → end_ < v_end s.[i] →
  v_type s.[i] = VMA_TYPE_ANON → let s1 := s.[i <- set_v_end s.[i] addr] in
  munmapped (i + 1) (match vma_add s1 end_ (v_end s.[i]) (v_flags s.[i]) VMA_TYPE_ANON 0 0 0 0 with Some s2 => s2 | None => s1 end).
Proof.
  intros Hm Hi Hl Hno Hst Hen Ht s1. pose proof (vw_ok s (mu_wf _ _ Hm) i Hi Hl) as Hok.
  pose proof (vma_add_added s1 end_ (v_end s.[i]) (v_flags s.[i]) VMA_TYPE_ANON 0 0 0 0) as Hadd.
  destruct (vma_add _ _ _ _ _ _ _ _ _) as [s2|].
  - destruct Hadd as [n Hadd]. eapply (munmap_hole i s s2 n); try done.
    + destruct Hok as [[? ?] [? ?] _ _ _]. destruct Haddr. constructor; simpl; unfold VMM_USER_TOP in *; split_and!; try lia; done.
    + constructor; simpl; [lia|lia|done|congruence|done].
    + intros a _. unfold vma_backing. simpl. by rewrite Ht.
  - apply munmap_cut; try done. intros a Ha Hka. destruct (kept_type i s a Hm Hi Hl) as [_ Hroom]; [lia|lia|done|].
    unfold s1 in Hadd. rewrite aset_length in Hadd. destruct (mu_len _ _ Hm) as [El|Hall]; [lia|]. by destruct (Hno (Hall i Hi Hl)).
Qed.

Lemma munmap_step i s : 0 ≤ i < zlen s → munmapped i s → munmapped (i + 1) (munmap_slot addr end_ i s).
Proof.
  intros Hi Hm. unfold munmap_slot.
  assert (Hskip : (live s.[i] → outside s.[i]) → munmapped (i + 1) s).
  { intros Ho. destruct Hm. constructor; try done. intros j Hj Hji. destruct (decide (j = i)) as [->|]; [done|]. apply mu_done0; lia. }
  destruct (is_none s.[i]) eqn:En; [apply Hskip; intros Hl%is_none_spec; congruence|]. apply is_none_spec in En.
  destruct (overlaps addr end_ s.[i]) eqn:Eo; cbn [negb]; [|apply Hskip; intros _; unfold overlaps in Eo; unfold outside; zbool; lia].
  assert (Hno : ¬ outside s.[i]) by (unfold overlaps in Eo; unfold outside; zbool; lia).
  destruct (Z.leb_spec addr (v_start s.[i])) as [Hst|Hst]; cbn [andb].
  - destruct (Z.leb_spec (v_end s.[i]) end_); [by apply munmap_remove|by apply munmap_front].
  - destruct (Z.leb_spec (v_end s.[i]) end_) as [Hen|Hen]; [apply munmap_cut; try done; intros; lia|].
    destruct (bool_decide_reflect (v_type s.[i] = VMA_TYPE_PHYS)) as [Ht|Ht]; [by apply munmap_phys_hole|].
    destruct (bool_decide_reflect (v_type s.[i] = VMA_TYPE_ANON)) as [Ha|Ha]; [by apply munmap_anon_hole|].
    apply munmap_cut; try done. intros a Ha2 Hka. destruct (kept_type i s a Hm Hi En) as [Ht2 _]; [lia|lia|done|congruence].
Qed.

Lemma munmap_slots : let s := slots SLOTS 0 (λ s : vset, zlen s) (munmap_slot addr end_) s0 in
  vset_wf s ∧ parts same_rights s0 s ∧ (∀ a, addr ≤ a < end_ → vma_find s a = None) ∧
  (∀ a, a < addr → at_addr s a = at_addr s0 a) ∧ (∀ a, end_ ≤ a → kept_above a → at_addr s a = at_addr s0 a).
Proof.
  intros s. destruct (slots_inv (λ i s, 0 ≤ i ∧ munmapped i s) VMA_MAX SLOTS 0 (λ s : vset, zlen s) (munmap_slot addr end_) s0) as (j & [_ Hm] & _ & Hj).
  - split; [lia|]. constructor; try done; [intros; lia|by left|by apply parts_refl].
  - done.
  - intros j x [_ Hx]. apply Hx.
  - intros j x Hj Hlt' [_ Hx]. split; [lia|]. by apply munmap_step.
  - change (munmapped j s) in Hm. change (zlen s ≤ j) in Hj. split_and!; [apply Hm|apply Hm| |apply Hm|apply Hm].
    intros a Ha. destruct (vma_find s a) as [v|] eqn:E; [|done].
    apply vma_find_Some in E as (k & Hk & _ & <- & Hl & Hin). destruct (mu_done _ _ Hm k Hk ltac:(lia) Hl) as [H|H]; lia.
Qed.
End munmap.

(** ** mprotect *)

(** A region that does not straddle [x]. *)
Definition clean (x : Z) (v : vma) : Prop := ¬ (v_start v < x < v_end v).

Lemma clean_part x u v : part_of u v → clean x v → clean x u.
Proof. unfold clean. intros [] H. lia. Qed.

Section cut.
Context (s0 : vset) (x : Z).
Hypothesis Hs0 : vset_wf s0.

Record cut_to (i : Z) (s : vset * bool) : Prop := {
  ct_wf : vset_wf s.1;
  ct_at : ∀ a, at_addr s.1 a = at_addr s0 a;
  ct_parts : parts same_rights s0 s.1;
  ct_clean : s.2 = true → ∀ j, 0 ≤ j < zlen s.1 → j < i → live s.1.[j] → clean x s.1.[j]
}.

Lemma cut_step i s : 0 ≤ i < zlen s.1 → cut_to i s → cut_to (i + 1) (protect_cut x i s).
Proof.
  intros Hi Hc. unfold protect_cut. destruct s as [s [|]]; cbn [fst snd negb] in *; [|by destruct Hc].
  assert (Hskip : (live s.[i] → clean x s.[i]) → cut_to (i + 1) (s, true)).
  { intros Ho. destruct Hc as [C1 C2 C3 C4]. constructor; try done. intros _ j Hj Hji. destruct (decide (j = i)) as [->|]; [done|].
    apply C4; [done|done|lia]. }
  destruct (is_none s.[i]) eqn:En; [apply Hskip; intros Hl%is_none_spec; congruence|]. apply is_none_spec in En.
  destruct ((v_start s.[i] <? x) && (x <? v_end s.[i])) eqn:Eo; [|apply Hskip; intros _; unfold clean; zbool; lia].
  zbool. pose proof (ct_wf _ _ Hc) as Hs. cbn [fst] in Hs. pose proof (vw_ok s Hs i Hi En) as Hok.
  destruct (vma_split_cases s i x Hs Hi En) as [[-> _]|(Hd & Hin & s1 & n & -> & Hni & Hadd)].
  { destruct Hc as [C1 C2 C3 C4]. constructor; done. }
  destruct (split_halves s s1 i n x Hs Hi En Hd Hin Hadd) as (Hs1 & Hat & _).
  destruct (split_hi_fields s.[i] x) as (F1 & F2 & F3 & F4 & _). constructor; cbn [fst snd].
  - done.
  - intros a. rewrite Hat. apply (ct_at _ _ Hc).
  - apply (parts_added _ _ _ _ _ _ Hadd).
    + apply parts_set; [done|done|apply Hc|apply part_end; lia|done].
    + intros _. destruct (ct_parts _ _ Hc i Hi En) as (k & Hk & Hlk & Hpk & HFk). cbn [fst] in *. exists k.
      split_and!; try done; try lia; [apply (part_trans _ s.[i]); [by apply part_split|done]|]. unfold same_rights in *. congruence.
  - intros _ j Hj Hji Hlj. destruct Hadd as [A1 [A2 A3] A4 A5 A6]. destruct (decide (j = n)) as [->|Hne].
    + rewrite A3. unfold clean. lia.
    + destruct (A5 j Hj Hne) as [H5 H6]. rewrite aset_length in H5. rewrite H6 in *. rewrite aget_aset in * by lia.
      destruct (Z.eqb_spec i j); [unfold clean; simpl; lia|]. apply (ct_clean _ _ Hc eq_refl); cbn [fst]; (done || lia).
Qed.

Lemma cut_loop s ok : slots SLOTS 0 (λ s : vset * bool, zlen s.1) (protect_cut x) (s0, true) = (s, ok) →
  vset_wf s ∧ (∀ a, at_addr s a = at_addr s0 a) ∧ parts same_rights s0 s ∧
  (ok = true → ∀ j, 0 ≤ j < zlen s → live s.[j] → clean x s.[j]).
Proof.
  intros E. destruct (slots_inv (λ i s, 0 ≤ i ∧ cut_to i s) VMA_MAX SLOTS 0 (λ s : vset * bool, zlen s.1) (protect_cut x) (s0, true)) as (j & [_ Hm] & _ & Hj).
  - split; [lia|]. constructor; try done; [by apply parts_refl|cbn [fst]; intros; lia].
  - done.
  - intros j y [_ Hx]. apply Hx.
  - intros j y Hj Hlt' [_ Hx]. split; [lia|]. by apply cut_step.
  - rewrite E in Hm, Hj. cbn [fst snd] in Hj. destruct Hm as [C1 C2 C3 C4]. cbn [fst snd] in *. split_and!; try done.
    intros Hok k Hk. apply C4; [done|done|lia].
Qed.
End cut.

Section flags.
Context (s0 : vset) (addr end_ newf : Z).
Hypothesis Hs0 : vset_wf s0.
Hypothesis Hca : ∀ j, 0 ≤ j < zlen s0 → live s0.[j] → clean addr s0.[j].
Hypothesis Hce : ∀ j, 0 ≤ j < zlen s0 → live s0.[j] → clean end_ s0.[j].

Definition reflag (v : vma) : vma :=
  if is_none v then v else if (addr <=? v_start v) && (v_end v <=? end_) then set_v_flags v newf else v.

Lemma flags_loop : let s := slots SLOTS 0 (λ s : vset, zlen s) (protect_flags addr end_ newf) s0 in
  zlen s = zlen s0 ∧ ∀ j, 0 ≤ j < zlen s0 → s.[j] = reflag s0.[j].
Proof.
  intros s. destruct (slots_inv (λ i (s : vset), 0 ≤ i ∧ zlen s = zlen s0 ∧ ∀ j, 0 ≤ j < zlen s0 → s.[j] = if j <? i then reflag s0.[j] else s0.[j])
    VMA_MAX SLOTS 0 (λ s : vset, zlen s) (protect_flags addr end_ newf) s0) as (i & (_ & El & Hm) & _ & Hi).
  - split_and!; [lia|done|]. intros j Hj. destruct (Z.ltb_spec j 0); [lia|done].
  - done.
  - intros j x (_ & -> & _). apply Hs0.
  - intros i x Hi Hlt (_ & El & Hm). split; [lia|].
    assert (Ex : protect_flags addr end_ newf i x = x.[i <- reflag s0.[i]]).
    { unfold protect_flags, reflag. pose proof (Hm i ltac:(lia)) as Ei. rewrite Z.ltb_irrefl in Ei. rewrite Ei.
      destruct (is_none s0.[i]); [rewrite <- Ei; by rewrite aset_same by lia|].
      destruct (_ && _); [done|]. rewrite <- Ei. by rewrite aset_same by lia. }
    rewrite Ex, aset_length. split; [done|]. intros j Hj. rewrite aget_aset by lia.
    destruct (Z.eqb_spec i j) as [->|]; [destruct (Z.ltb_spec j (j + 1)); [done|lia]|].
    rewrite Hm by done. destruct (Z.ltb_spec j i), (Z.ltb_spec j (i + 1)); (done || lia).
  - change (zlen s = zlen s0) in El. change (zlen s ≤ i) in Hi. split; [done|]. intros j Hj. change (slots _ _ _ _ s0) with s in Hm.
    rewrite (Hm j Hj). destruct (Z.ltb_spec j i); [done|lia].
Qed.

Lemma reflag_fields v : v_start (reflag v) = v_start v ∧ v_end (reflag v) = v_end v ∧ v_type (reflag v) = v_type v ∧
  (vma_ok v → vma_ok (reflag v)) ∧ (∀ a, vma_backing (reflag v) a = vma_backing v a) ∧ part_of (reflag v) v ∧
  (v_flags (reflag v) = v_flags v ∨ v_flags (reflag v) = newf).
Proof.
  assert (Hsame : v_start v = v_start v ∧ part_of v v) by (split; [done|apply part_refl]).
  unfold reflag. destruct (is_none v); [split_and!; first [done|by left|apply Hsame]|].
  destruct (_ && _); [|split_and!; first [done|by left|apply Hsame]].
  split_and!; first [done|by intros []; constructor|apply part_flags|by right].
Qed.

Lemma flags_regions : let s := slots SLOTS 0 (λ s : vset, zlen s) (protect_flags addr end_ newf) s0 in
  vset_wf s ∧ parts (λ u v, v_flags u = v_flags v ∨ v_flags u = newf) s0 s ∧
  ∀ a, vma_find s a = match vma_find s0 a with Some v => Some (reflag v) | None => None end ∧
    ∀ v, vma_find s0 a = Some v → v_flags (reflag v) = if (addr <=? a) && (a <? end_) then newf else v_flags v.
Proof.
  intros s. destruct flags_loop as [El Hm]. fold s in El, Hm.
  assert (Hlive : ∀ v, live (reflag v) ↔ live v) by (intros v; unfold live; by rewrite (proj1 (proj2 (proj2 (reflag_fields v))))).
  assert (Hs : vset_wf s).
  { constructor.
    - rewrite El. apply Hs0.
    - intros i Hi. rewrite Hm by lia. rewrite Hlive. intros Hl. apply reflag_fields, (vw_ok s0 Hs0); (done || lia).
    - intros i j Hi Hj Hij. rewrite !Hm by lia. rewrite !Hlive. intros Hl1 Hl2. unfold disjoint.
      destruct (reflag_fields s0.[i]) as (-> & -> & _), (reflag_fields s0.[j]) as (-> & -> & _). apply (vw_disjoint s0 Hs0); (done || lia). }
  split_and!; [done| |].
  - intros i Hi. rewrite El in Hi. rewrite Hm by done. rewrite Hlive. intros Hl. exists i.
    split_and!; first [done|lia|apply reflag_fields].
  - intros a. split.
    + destruct (vma_find s0 a) as [v|] eqn:E.
      * apply vma_find_Some in E as (i & Hi & _ & <- & Hl & Ha). rewrite <- Hm by done.
        apply (vma_find_at s i a Hs); [lia|rewrite Hm by done; by rewrite Hlive|]. rewrite Hm by done.
        destruct (reflag_fields s0.[i]) as (-> & -> & _). done.
      * destruct (vma_find s a) as [u|] eqn:E'; [|done]. apply vma_find_Some in E' as (i & Hi & _ & <- & Hl & Ha).
        rewrite El in Hi. rewrite Hm in * by done. rewrite Hlive in Hl. destruct (reflag_fields s0.[i]) as (E1 & E2 & _). rewrite E1, E2 in Ha.
        by destruct (vma_find_None s0 a E i Hi Hl).
    + intros v (i & Hi & _ & <- & Hl & Ha)%vma_find_Some. unfold reflag. rewrite (proj2 (is_none_spec _) Hl).
      specialize (Hca i Hi Hl). specialize (Hce i Hi Hl). unfold clean in *.
      destruct (Z.leb_spec addr (v_start s0.[i])), (Z.leb_spec (v_end s0.[i]) end_), (Z.leb_spec addr a), (Z.ltb_spec a end_); cbn [andb]; (done || lia).
Qed.
End flags.

(** ** brk *)

Lemma slots_ext {S : Type} (Inv : Z → S → Prop) fuel i (count : S → Z) (f g : Z → S → S) s :
  Inv i s → (∀ j s, i ≤ j → j < count s → Inv j s → Inv (j + 1) (g j s)) →
  (∀ j s, i ≤ j → j < count s → Inv j s → f j s = g j s) →
  slots fuel i count f s = slots fuel i count g s.
Proof.
  revert i s. induction fuel as [|fuel IH]; intros i s Hi Hg He; cbn [slots]; [done|].
  destruct (Z.ltb_spec i (count s)); [|done]. rewrite He by (done || lia). apply IH.
  - apply Hg; (done || lia).
  - intros j x Hj. apply Hg. lia.
  - intros j x Hj. apply He. lia.
Qed.

(** Shrinking the heap is unmapping its top: no region crosses the start of
    the heap or the old break. *)
Lemma brk_trim_slots c s0 new_brk old : vset_wf s0 → 0 ≤ new_brk → (4096 | new_brk) → (4096 | old) →
  brk_start c ≤ new_brk < old →
  (∀ j, 0 ≤ j < zlen s0 → live s0.[j] → clean (brk_start c) s0.[j] ∧ clean old s0.[j]) →
  slots SLOTS 0 (λ s : vset, zlen s) (brk_trim c new_brk old) s0 =
  slots SLOTS 0 (λ s : vset, zlen s) (munmap_slot new_brk old) s0.
Proof.
  intros Hs Hn Hdn Hdo Hlt Hcl. apply (slots_ext (λ i s, 0 ≤ i ∧ munmapped s0 new_brk old i s)).
  - split; [lia|]. constructor; try done; [intros; lia|by left|by apply parts_refl].
  - intros j s Hj Hjs [_ Hm]. split; [lia|]. apply munmap_step; (done || lia).
  - intros j s Hj Hjs [_ Hm]. unfold brk_trim, munmap_slot. destruct (is_none s.[j]) eqn:En; [done|]. apply is_none_spec in En.
    destruct (mu_parts _ _ _ _ _ Hm j ltac:(lia) En) as (k & Hk & Hlk & Hp & _). destruct (Hcl k Hk Hlk) as [C1 C2].
    apply (clean_part _ _ _ Hp) in C1, C2. unfold clean, overlaps in *. cbn [orb].
    pose proof (vo_end _ (vw_ok s (mu_wf _ _ _ _ _ Hm) j ltac:(lia) En)) as [[Hse _] _].
    destruct (Z.leb_spec (v_end s.[j]) new_brk), (Z.ltb_spec new_brk (v_end s.[j])); try lia; [done|].
    destruct (Z.leb_spec old (v_start s.[j])), (Z.ltb_spec (v_start s.[j]) old); try lia; [done|]. cbn [orb andb negb].
    destruct (Z.ltb_spec (v_start s.[j]) (brk_start c)); [lia|].
    destruct (Z.leb_spec new_brk (v_start s.[j])), (Z.leb_spec (v_end s.[j]) old); (done || lia).
Qed.

(** A region extended into free space. *)
Lemma extend_wf s i e : vset_wf s → 0 ≤ i < zlen s → live s.[i] → plain s.[i] → (4096 | e) → v_end s.[i] ≤ e ≤ VMM_USER_TOP →
  (∀ j, 0 ≤ j < zlen s → live s.[j] → v_end s.[j] ≤ v_end s.[i] ∨ e ≤ v_start s.[j]) →
  vset_wf s.[i <- set_v_end s.[i] e] ∧
  ∀ a, vma_find s.[i <- set_v_end s.[i] e] a =
    if (v_start s.[i] <=? a) && (a <? e) then Some (set_v_end s.[i] e) else vma_find s a.
Proof.
  intros Hs Hi Hl [P1 P2] Hd He Hfree. set (v' := set_v_end s.[i] e). pose proof (vw_ok s Hs i Hi Hl) as Hok.
  assert (Hok' : vma_ok v').
  { destruct Hok as [[? ?] [? ?] ? ? ?]. unfold VMM_USER_TOP in *. constructor; simpl; unfold VMM_USER_TOP; split_and!; try done; lia. }
  assert (Hs' : vset_wf s.[i <- v']).
  { constructor; rewrite ?aset_length.
    - apply Hs.
    - intros j Hj. rewrite aget_aset by lia. destruct (Z.eqb_spec i j); [done|]. by apply (vw_ok s Hs).
    - intros j k Hj Hk Hjk. rewrite !aget_aset by lia. unfold disjoint.
      destruct (Z.eqb_spec i j) as [<-|], (Z.eqb_spec i k) as [<-|]; [done|..]; intros Hlj Hlk; simpl.
      + destruct (vw_disjoint s Hs i k Hi Hk Hjk Hl Hlk), (Hfree k Hk Hlk); pose proof (vo_end _ (vw_ok s Hs k Hk Hlk)); lia.
      + destruct (vw_disjoint s Hs j i Hj Hi Hjk Hlj Hl), (Hfree j Hj Hlj); pose proof (vo_end _ (vw_ok s Hs j Hj Hlj)); lia.
      + by apply (vw_disjoint s Hs). }
  split; [done|]. intros a. destruct ((v_start s.[i] <=? a) && (a <? e)) eqn:Ea.
  - zbool. destruct (vma_find_at s.[i <- v'] i a Hs') as [_ ->]; rewrite ?aset_length, ?aget_aset_eq by done; (done || (simpl; lia)).
  - symmetry. apply vma_find_ext; [done..|]. intros u. rewrite aset_length. split; intros (j & Hj & <- & Hlu & Hau); exists j.
    + rewrite aget_aset by lia. destruct (Z.eqb_spec i j) as [<-|]; [zbool; lia|split_and!; (done || lia)].
    + rewrite aget_aset in Hlu, Hau |- * by lia. destruct (Z.eqb_spec i j) as [<-|]; [simpl in Hau; zbool; lia|split_and!; (done || lia)].
Qed.

(** What [brk_grow] makes of the regions. *)
Lemma brk_grow_spec c old new_brk s' : vset_wf (p_vmas c) → (4096 | old) → (4096 | new_brk) → 0 ≤ old < new_brk → new_brk ≤ VMM_USER_TOP →
  (∀ j, 0 ≤ j < zlen (p_vmas c) → live (p_vmas c).[j] → (v_end (p_vmas c).[j] ≤ old ∨ new_brk ≤ v_start (p_vmas c).[j]) ∧
     clean (brk_start c) (p_vmas c).[j] ∧ (v_type (p_vmas c).[j] = VMA_TYPE_ANON → plain (p_vmas c).[j])) →
  brk_start c ≤ old → brk_grow c old new_brk = Some s' →
  vset_wf s' ∧
  (∀ a, at_addr s' a = if (old <=? a) && (a <? new_brk) then Some (heap_flags, VMA_TYPE_ANON, BZero) else at_addr (p_vmas c) a) ∧
  (∀ i, 0 ≤ i < zlen s' → live s'.[i] →
     (∃ j, 0 ≤ j < zlen (p_vmas c) ∧ s'.[i] = (p_vmas c).[j]) ∨
     (v_flags s'.[i] = heap_flags ∧ v_type s'.[i] = VMA_TYPE_ANON ∧ plain s'.[i] ∧ brk_start c ≤ v_start s'.[i] ∧ v_end s'.[i] = new_brk)).
Proof.
  intros Hs Hdo Hdn Hlt Htop Hfree Hst. unfold brk_grow. set (s := p_vmas c) in *.
  assert (Hadd : vma_add s old new_brk heap_flags VMA_TYPE_ANON 0 0 0 0 = Some s' → vset_wf s' ∧
    (∀ a, at_addr s' a = if (old <=? a) && (a <? new_brk) then Some (heap_flags, VMA_TYPE_ANON, BZero) else at_addr s a) ∧
    (∀ i, 0 ≤ i < zlen s' → live s'.[i] → (∃ j, 0 ≤ j < zlen s ∧ s'.[i] = s.[j]) ∨
       (v_flags s'.[i] = heap_flags ∧ v_type s'.[i] = VMA_TYPE_ANON ∧ plain s'.[i] ∧ brk_start c ≤ v_start s'.[i] ∧ v_end s'.[i] = new_brk))).
  { intros E. pose proof (vma_add_added s old new_brk heap_flags VMA_TYPE_ANON 0 0 0 0) as H. rewrite E in H. destruct H as [n H].
    destruct (added_wf s s' n _ Hs H) as [Hwf Hf].
    - constructor; simpl; unfold VMM_USER_TOP in *; split_and!; try done; lia.
    - done.
    - intros j Hj Hl. unfold disjoint. simpl. destruct (Hfree j Hj Hl) as [? _]. lia.
    - split_and!; [done| |].
      + intros a. unfold at_addr. rewrite Hf. cbn [v_start v_end]. by destruct (_ && _).
      + intros i Hi Hl. destruct H as [_ [H1 H2] _ H3 _]. destruct (decide (i = n)) as [->|Hne]; [right; by rewrite H2|].
        left. destruct (H3 i Hi Hne) as [H4 H5]. exists i. split; [lia|done]. }
  destruct (Z.ltb_spec (brk_start c) old) as [Hb|Hb]; [|done].
  destruct (vma_find_mut s (old - 1)) as [i|] eqn:Ei; [|done].
  destruct ((v_end s.[i] =? old) && bool_decide (v_type s.[i] = VMA_TYPE_ANON) && (v_flags s.[i] =? heap_flags)) eqn:Ex; [|done].
  intros [= <-]. apply andb_true_iff in Ex as [[Ee%Z.eqb_eq Et%bool_decide_eq_true]%andb_true_iff Ef%Z.eqb_eq].
  pose proof Ei as Ei'. apply slot_find_Some in Ei' as (Hi & Hc & _). rewrite Z.sub_0_r in *. apply vma_covers_spec in Hc as [Hl Hin].
  destruct (Hfree i ltac:(lia) Hl) as (_ & Hcl & Hpl). unfold clean in Hcl.
  destruct (extend_wf s i new_brk Hs ltac:(lia) Hl (Hpl Et) Hdn) as [Hwf Hf]; [lia|intros j Hj Hlj; rewrite Ee; by apply Hfree|].
  split_and!; [done| |].
  - intros a. unfold at_addr. rewrite Hf.
    destruct (Z.leb_spec (v_start s.[i]) a), (Z.ltb_spec a new_brk), (Z.leb_spec old a); cbn [andb]; try (done || lia).
    + simpl. rewrite Et, Ef. unfold vma_backing. simpl. by rewrite Et.
    + destruct (vma_find_at s i a Hs ltac:(lia) Hl ltac:(lia)) as [_ ->]. simpl. unfold vma_backing. simpl. by rewrite Et.
  - intros j Hj. rewrite aset_length in Hj. rewrite aget_aset by lia. destruct (Z.eqb_spec i j) as [<-|]; [|intros _; left; by exists j].
    intros _. right. simpl. rewrite Et, Ef. split_and!; try done; [by apply Hpl..|lia].
Qed.
