(* ===== verification/MmProc.v ===== *)
(** * The memory of a process

    The invariant [proc_ok] of one process: its regions are well formed and
    never writable and executable, the space between the break and the mapping
    arena and the unused part of the arena hold no region and no page, and a
    page of a writable region is never executable.  Every memory call and
    every page fault preserves it, and changes nothing of any other process. *)

From S2P Require Import Prelude Vma Frames Vmm VmmWf VmmInv VmmOps VmmFault VmSpace VmWalk VmCreate VmFork VmDestroy VmSafe VmReach MmSyscall MmRange MmRegions.

#[local] Opaque window_names pages_below shares_below leaf fork_parent fork_child.

(** ** Arguments *)

Lemma land_page_div x : (4096 | Z.land x (not64 0xFFF)).
Proof.
  apply Z.mod_divide; [lia|]. change 4096 with (2 ^ 12). rewrite <- Z.land_ones by lia. rewrite <- Z.land_assoc.
  change (Z.land (not64 0xFFF) (Z.ones 12)) with 0. apply Z.land_0_r.
Qed.

Lemma pgup_spec x : 0 ≤ x < 2 ^ 63 → (4096 | pgup x) ∧ x ≤ pgup x < x + 4096.
Proof.
  intros Hx. unfold pgup. split; [apply land_page_div|].
  rewrite u64_small by (unfold is_u64; lia). rewrite land_not_page by (unfold is_u64; lia).
  Z.to_euclidean_division_equations; lia.
Qed.

Lemma user_span_spec addr len n : is_u64 len → m18_user_span addr len = n → n ≠ 0 →
  (4096 | addr) ∧ (4096 | n) ∧ USER_CODE_BASE ≤ addr ∧ 0 < len ≤ n ∧ n < len + 4096 ∧ addr + n ≤ VMM_USER_TOP.
Proof.
  intros Hlen. unfold m18_user_span. destruct (Z.land addr 0xFFF =? 0) eqn:Ea; cbn [negb orb]; [|by intros <-].
  apply page_aligned in Ea. destruct (Z.eqb_spec len 0); [by intros <-|].
  destruct (Z.ltb_spec addr USER_CODE_BASE), (Z.leb_spec VMM_USER_TOP addr); cbn [orb]; try (by intros <-).
  destruct (Z.ltb_spec (VMM_USER_TOP - addr) len); [by intros <-|].
  destruct (pgup_spec len) as [Hd Hp]; [unfold is_u64, VMM_USER_TOP, USER_CODE_BASE in *; lia|].
  destruct (Z.ltb_spec (VMM_USER_TOP - addr) (pgup len)); [by intros <-|]. intros <- _. unfold is_u64 in Hlen. split_and!; (done || lia).
Qed.

Lemma prot_flags prot : flag prot PROT_WRITE && flag prot PROT_EXEC = false →
  region_flags (m18_prot_to_flags prot) ∧ wx (m18_prot_to_flags prot) = false.
Proof.
  intros H. unfold m18_prot_to_flags. destruct (flag prot (Z.lor _ _)); cbn [negb]; [|split; [split_and!|]; by vm_compute].
  destruct (flag prot PROT_WRITE), (flag prot PROT_EXEC); cbn [negb]; try done; (split; [split_and!|]; by vm_compute).
Qed.

(** ** The invariant *)

Record region_ok (c : proc) (v : vma) : Prop := {
  rg_flags : region_flags (v_flags v);
  rg_wx : wx (v_flags v) = false;
  rg_phys : v_type v = VMA_TYPE_PHYS →
    0 < phys_base v ∧ (4096 | phys_base v) ∧ phys_base v + (v_end v - v_start v) ≤ PHYS_TOP;
  rg_anon : v_type v = VMA_TYPE_ANON → plain v;
  rg_heap : clean (brk_start c) v;
  rg_brk : v_end v ≤ brk_cur c ∨ USER_MMAP_BASE ≤ v_start v;
  rg_mmap : v_end v ≤ mmap_next c ∨ USER_MMAP_END ≤ v_start v
}.

(** A page of a writable region is not executable. *)
Definition page_fits (v : vma) (e : Z) : Prop :=
  is_present e = true → flag (v_flags v) VMM_FLAG_RW = true → flag e VMM_FLAG_NOEXEC = true.

(** Addresses that no region and no page may use yet. *)
Definition gap (c : proc) (a : Z) : Prop :=
  brk_cur c ≤ a < USER_MMAP_BASE ∨ mmap_next c ≤ a < USER_MMAP_END.

Lemma region_part c u v : region_ok c v → part_of u v → v_start u < v_end u →
  region_flags (v_flags u) → wx (v_flags u) = false → region_ok c u.
Proof.
  intros [F W P A H B M] Hp Hlt Hf Hw. constructor; try done.
  - intros Ht. rewrite (pa_type _ _ Hp) in Ht. destruct (P Ht) as (P1 & P2 & P3), (pa_phys _ _ Hp Ht) as (Q1 & Q2 & Q3). split_and!; [lia|auto|lia].
  - intros Ht. rewrite (pa_type _ _ Hp) in Ht. by apply (pa_anon _ _ Hp), A.
  - by apply (clean_part _ _ _ Hp).
  - destruct Hp. lia.
  - destruct Hp. lia.
Qed.

Lemma device_nx v : flag (device_flags v) VMM_FLAG_NOEXEC = true.
Proof. unfold device_flags. rewrite noexec_bit, Z.lor_spec. change (Z.testbit VMM_FLAG_NOEXEC 63) with true. apply orb_true_r. Qed.

Section proc.
Context {A : Type} {ops : FrameOps A} {laws : FrameLaws A}.
Abbreviation state := (vm A).

Record proc_ok (roots : list Z) (st : state) (c : proc) : Prop := {
  po_space : p_space c ∈ roots;
  po_wf : vset_wf (p_vmas c);
  po_regions : ∀ i, 0 ≤ i < zlen (p_vmas c) → live (p_vmas c).[i] → region_ok c (p_vmas c).[i];
  po_fits : ∀ w v, upage w → vma_find (p_vmas c) (w * 4096) = Some v → page_fits v (leaf (vmem st) (p_space c) w);
  po_gap : ∀ w, upage w → gap c (w * 4096) → vmm_pte_has_frame (leaf (vmem st) (p_space c) w) = false;
  po_brk : (4096 | brk_cur c) ∧ USER_CODE_BASE ≤ brk_start c ≤ brk_cur c ∧ brk_cur c ≤ USER_MMAP_BASE;
  po_arena : (4096 | mmap_next c) ∧ USER_MMAP_BASE ≤ mmap_next c ≤ USER_MMAP_END
}.

Lemma po_find roots st c a v : proc_ok roots st c → vma_find (p_vmas c) a = Some v → region_ok c v.
Proof. intros Hp (i & Hi & _ & <- & Hl & _)%vma_find_Some. by apply (po_regions _ _ _ Hp). Qed.

(** The invariant is what the page-fault handler relies on. *)
Lemma proc_regions roots st c : proc_ok roots st c → regions_ok st (p_space c) (p_vmas c).
Proof.
  intros Hp. constructor.
  - apply Hp.
  - intros a v Hv. apply (po_find _ _ _ _ _ Hp Hv).
  - intros a v Hv. apply (po_find _ _ _ _ _ Hp Hv).
  - intros w. unfold write_region. destruct (vma_find (p_vmas c) (w * 4096)) as [v|] eqn:E; [|done].
    intros [Hrw _]%andb_true_iff Hpr. apply (po_fits _ _ _ Hp w v); try done.
    pose proof (po_wf _ _ _ Hp) as Hs. destruct (vma_find_Some _ _ _ E) as (i & Hi & _ & <- & Hl & Hin).
    destruct (vw_ok _ Hs i Hi Hl) as [[? _] [[_ ?] _] _ _ _]. unfold upage, USER_PAGES, VMM_USER_TOP in *. lia.
Qed.

(** No region reaches into a gap. *)
Lemma gap_free roots st c a : proc_ok roots st c → gap c a → ¬ ∃ v, vma_find (p_vmas c) a = Some v.
Proof.
  intros Hp Hg [v Hv]. pose proof (po_find _ _ _ _ _ Hp Hv) as [_ _ _ _ _ HB HM].
  destruct (vma_find_Some _ _ _ Hv) as (_ & _ & _ & _ & _ & Ha). destruct (po_brk _ _ _ Hp) as (_ & _ & Hb), (po_arena _ _ _ Hp) as [_ Hm].
  unfold gap, USER_MMAP_BASE, USER_MMAP_END in *. lia.
Qed.

(** A change of pages of other spaces. *)
Lemma proc_other roots st st' c r R : pages_changed roots st st' r R → p_space c ≠ r → proc_ok roots st c → proc_ok roots st' c.
Proof.
  intros Hc Hne [P1 P2 P3 P4 P5 P6 P7].
  assert (Hl : ∀ w, upage w → leaf (vmem st') (p_space c) w = leaf (vmem st) (p_space c) w).
  { intros w Hw. apply (pg_leaf _ _ _ _ _ Hc); [done|done|]. by intros [? _]. }
  constructor; try done.
  - intros w v Hw. rewrite Hl by done. by apply P4.
  - intros w Hw. rewrite Hl by done. by apply P5.
Qed.

(** The regions become parts of regions, and pages of other ones disappear. *)
Lemma proc_parts roots st st' c s' (F : vma → vma → Prop) : proc_ok roots st c → vset_wf s' → parts F (p_vmas c) s' →
  (∀ u v, F u v → region_ok c v → region_flags (v_flags u) ∧ wx (v_flags u) = false) →
  (∀ w u v, upage w → vma_find s' (w * 4096) = Some u → vma_find (p_vmas c) (w * 4096) = Some v → F u v →
     page_fits v (leaf (vmem st) (p_space c) w) → page_fits u (leaf (vmem st') (p_space c) w)) →
  (∀ w, upage w → gap c (w * 4096) → vmm_pte_has_frame (leaf (vmem st') (p_space c) w) = false) →
  proc_ok roots st' (set_vmas c s').
Proof.
  intros Hp Hs' Hparts HF Hfit Hgap. pose proof Hp as [P1 P2 P3 P4 P5 P6 P7]. constructor; cbn [set_vmas p_vmas p_space brk_start brk_cur mmap_next]; try done.
  - intros i Hi Hl. destruct (Hparts i Hi Hl) as (j & Hj & Hlj & Hpj & HFj). specialize (P3 j Hj Hlj).
    destruct (HF _ _ HFj P3) as [H1 H2]. pose proof (vo_end _ (vw_ok s' Hs' i Hi Hl)) as [[? _] _].
    destruct (region_part c s'.[i] (p_vmas c).[j]) as [R1 R2 R3 R4 R5 R6 R7]; try done.
  - intros w u Hw Hu. destruct (parts_find F (p_vmas c) s' (w * 4096) u P2 Hparts Hu) as (v & Hv & Hpv & HFv).
    apply (Hfit w u v); try done. by apply P4.
Qed.

(** ** munmap *)

Lemma zfor_ext {S : Type} n i (f g : Z → S → S) s : (∀ j s, i ≤ j < i + Z.of_nat n → f j s = g j s) → zfor n i f s = zfor n i g s.
Proof.
  revert i s. induction n as [|n IH]; intros i s H; cbn [zfor]; [done|]. rewrite H by lia. apply IH. intros j x Hj. apply H. lia.
Qed.

Lemma page_index lo k : (4096 | lo) → (lo / 4096 + k) * 4096 = lo + k * 0x1000.
Proof. intros [l ->]. rewrite Z.div_mul by lia. lia. Qed.

Definition unmap_page (r : Z) (w : Z) (st : state) : state := (vmm_unmap_in_space st (Some r) (w * 4096)).1.
Definition protect_page (r flags : Z) (w : Z) (st : state) : state := (vmm_protect_in_space st (Some r) (w * 4096) flags).1.

Lemma unmap_range_body r lo hi (st : state) : (4096 | lo) → unmap_range r lo hi st = range_body (unmap_page r) lo hi st.
Proof. intros Hd. apply zfor_ext. intros k s _. unfold unmap_page. by rewrite page_index. Qed.

Lemma protect_range_body r lo hi flags (st : state) : (4096 | lo) → protect_range r lo hi flags st = range_body (protect_page r flags) lo hi st.
Proof. intros Hd. apply zfor_ext. intros k s _. unfold protect_page. by rewrite page_index. Qed.

Lemma unmap_page_spec roots r (st : state) w : r ∈ roots → vm_inv roots st → upage w → True →
  pages_changed roots st (unmap_page r w st) r (λ v, v = w) ∧ vmm_pte_has_frame (leaf (vmem (unmap_page r w st)) r w) = false.
Proof.
  intros Hr Hinv Hw _. unfold unmap_page. destruct (vmm_unmap_in_space st (Some r) (w * 4096)) as [st' rc] eqn:E. cbn [fst].
  destruct (unmap_spec roots st r w st' rc Hinv Hr Hw E) as (Hi & Hd & Hres). cbv zeta in Hres.
  destruct (vmm_pte_has_frame (leaf (vmem st) r w)) eqn:Eh.
  - destruct Hres as (_ & Ho & _). split; [apply (one_page roots st st' r w 0); try done; by apply (kspace_unmap _ _ _ _ _ E)|].
    rewrite (Ho r w Hr Hw), !Z.eqb_refl. done.
  - destruct Hres as [_ ->]. split; [by apply pages_changed_refl|done].
Qed.

(** The call unmaps the pages of the regions that meet the range. *)
Lemma munmap_pages roots (st : state) c addr end_ : vm_inv roots st → proc_ok roots st c → (4096 | addr) → (4096 | end_) → 0 ≤ addr →
  let st' := slots SLOTS 0 (λ _, zlen (p_vmas c)) (λ i, in_range addr end_ (p_vmas c).[i] (unmap_range (p_space c))) st in
  pages_changed roots st st' (p_space c) (page_covered addr end_ (p_vmas c)) ∧
  ∀ w, page_covered addr end_ (p_vmas c) w → vmm_pte_has_frame (leaf (vmem st') (p_space c) w) = false.
Proof.
  intros Hinv Hp Ha He Ha0 st'. pose proof (po_space _ _ _ Hp) as Hr.
  assert (E : st' = slots SLOTS 0 (λ _, zlen (p_vmas c)) (λ i, in_range addr end_ (p_vmas c).[i] (range_body (unmap_page (p_space c)))) st).
  { apply (slots_ext (λ _ _, True)); [done|done|]. intros j s _ _ _. unfold in_range. destruct (_ || _); [done|].
    apply unmap_range_body, land_page_div. }
  rewrite E. apply (regions_loop roots (p_space c) (unmap_page (p_space c)) (λ _ e', vmm_pte_has_frame e' = false) (λ _ _, True));
    [done| |done|done|done|apply Hp|done|done].
  intros x w Hx Hw _. by apply unmap_page_spec.
Qed.

Lemma munmap_ok roots (st : state) c addr len st' cur' rc : vm_inv roots st → proc_ok roots st c → is_u64 len →
  ksys_munmap st (Some c) addr len = (st', cur', rc) →
  (m18_user_span addr len = 0 ∧ rc = -1 ∧ st' = st ∧ cur' = Some c) ∨
  ∃ s', let end_ := addr + m18_user_span addr len in
    m18_user_span addr len ≠ 0 ∧ rc = 0 ∧ cur' = Some (set_vmas c s') ∧ proc_ok roots st' (set_vmas c s') ∧
    pages_changed roots st st' (p_space c) (page_covered addr end_ (p_vmas c)) ∧
    (∀ w, page_covered addr end_ (p_vmas c) w → vmm_pte_has_frame (leaf (vmem st') (p_space c) w) = false) ∧
    (∀ a, addr ≤ a < end_ → vma_find s' a = None) ∧ (∀ a, a < addr → at_addr s' a = at_addr (p_vmas c) a) ∧
    (∀ a, end_ ≤ a → kept_above (p_vmas c) end_ a → at_addr s' a = at_addr (p_vmas c) a).
Proof.
  intros Hinv Hp Hlen. unfold ksys_munmap. destruct (Z.eqb_spec (m18_user_span addr len) 0) as [H0|Hn].
  { intros [= <- <- <-]. by left. }
  destruct (user_span_spec addr len _ Hlen eq_refl Hn) as (Da & Dn & Hc & Hl & _ & Htop). set (n := m18_user_span addr len) in *. clearbody n.
  assert (Ha0 : 0 ≤ addr) by (unfold USER_CODE_BASE in Hc; lia). assert (De : (4096 | addr + n)) by (by apply Z.divide_add_r).
  destruct (munmap_pages roots st c addr (addr + n) Hinv Hp Da De Ha0) as [Hpg Hun].
  destruct (munmap_slots (p_vmas c) addr (addr + n) (po_wf _ _ _ Hp) (conj Ha0 Da) De ltac:(lia)) as (Hwf & Hparts & Hin & Hbe & Hab).
  set (st1 := slots _ _ _ _ st) in *. set (s' := slots _ _ _ _ (p_vmas c)) in *. clearbody st1 s'.
  intros [= <- <- <-]. right. exists s'. split_and!; try done.
  apply (proc_parts roots st st1 c s' same_rights); try done.
  - unfold same_rights. intros u v -> []. done.
  - unfold same_rights, page_fits. intros w u v Hw Hu Hv -> Hfit.
    rewrite (pg_leaf _ _ _ _ _ Hpg (p_space c) w); [done|apply Hp|done|]. intros [_ [Hw2 _]]. by rewrite (Hin (w * 4096) Hw2) in Hu.
  - intros w Hw Hg. destruct (vmm_pte_has_frame (leaf (vmem st1) (p_space c) w)) eqn:E; [|done]. exfalso.
    assert (Hnc : ¬ page_covered addr (addr + n) (p_vmas c) w) by (intros Hcv; by rewrite (Hun w Hcv) in E).
    rewrite (pg_leaf _ _ _ _ _ Hpg (p_space c) w) in E; [|apply Hp|done|by intros [_ ?]].
    by rewrite (po_gap _ _ _ Hp w Hw Hg) in E.
Qed.

(** ** mprotect *)

(** What happens to the leaf of a page in the range. *)
Definition reprotected (flags e e' : Z) : Prop :=
  if vmm_pte_has_frame e then ∃ shared, protected e flags shared e' else e' = e.

Lemma protect_page_spec roots r flags (st : state) w : r ∈ roots → flag_only flags → flag flags VMM_FLAG_DEVICE = false → wx flags = false →
  vm_inv roots st → upage w → True →
  pages_changed roots st (protect_page r flags w st) r (λ v, v = w) ∧
  reprotected flags (leaf (vmem st) r w) (leaf (vmem (protect_page r flags w st)) r w).
Proof.
  intros Hr Hf Hd Hwx Hinv Hw _. unfold protect_page. destruct (vmm_protect_in_space st (Some r) (w * 4096) flags) as [st' rc] eqn:E. cbn [fst].
  destruct (protect_spec roots st r w flags st' rc Hinv Hr Hw Hf Hd E) as (Hi & Hsd & _ & Hres). unfold reprotected.
  destruct Hres as [(_ & _ & Hh & _ & e & sh & Ho & Hpr & _)|(-> & [[_ ?]|[_ Hh]])].
  - rewrite Hh. split; [apply (one_page roots st st' r w e); try done; by apply (kspace_protect _ _ _ _ _ _ E)|].
    exists sh. by rewrite (Ho r w Hr Hw), !Z.eqb_refl.
  - congruence.
  - rewrite Hh. split; [by apply pages_changed_refl|done].
Qed.

Lemma protect_pages roots (st : state) c s addr end_ newf : vm_inv roots st → p_space c ∈ roots → vset_wf s →
  (4096 | addr) → (4096 | end_) → 0 ≤ addr → region_flags newf → wx newf = false →
  let st' := slots SLOTS 0 (λ _, zlen s) (λ i, in_range addr end_ s.[i] (λ lo hi, protect_range (p_space c) lo hi newf)) st in
  pages_changed roots st st' (p_space c) (page_covered addr end_ s) ∧
  ∀ w, page_covered addr end_ s w → reprotected newf (leaf (vmem st) (p_space c) w) (leaf (vmem st') (p_space c) w).
Proof.
  intros Hinv Hr Hs Ha He Ha0 (Hf & Hd & _) Hwx st'.
  assert (E : st' = slots SLOTS 0 (λ _, zlen s) (λ i, in_range addr end_ s.[i] (range_body (protect_page (p_space c) newf))) st).
  { apply (slots_ext (λ _ _, True)); [done|done|]. intros j x _ _ _. unfold in_range. destruct (_ || _); [done|].
    apply protect_range_body, land_page_div. }
  rewrite E. apply (regions_loop roots (p_space c) (protect_page (p_space c) newf) (reprotected newf) (λ _ _, True)); try done.
  intros x w Hx Hw _. by apply protect_page_spec.
Qed.

(** The regions of the call: cut at both ends, new rights in between. *)
Lemma mprotect_regions s addr end_ newf s1 s2 : vset_wf s →
  slots SLOTS 0 (λ s : vset * bool, zlen s.1) (protect_cut addr) (s, true) = (s1, true) →
  slots SLOTS 0 (λ s : vset * bool, zlen s.1) (protect_cut end_) (s1, true) = (s2, true) →
  let s3 := slots SLOTS 0 (λ s : vset, zlen s) (protect_flags addr end_ newf) s2 in
  vset_wf s3 ∧ parts (λ u v, v_flags u = v_flags v ∨ v_flags u = newf) s s3 ∧
  ∀ a, at_addr s3 a = match at_addr s a with
                      | Some (f, t, b) => Some (if (addr <=? a) && (a <? end_) then newf else f, t, b)
                      | None => None
                      end.
Proof.
  intros Hs E1 E2. destruct (cut_loop s addr Hs s1 true E1) as (W1 & A1 & P1 & C1).
  destruct (cut_loop s1 end_ W1 s2 true E2) as (W2 & A2 & P2 & C2).
  assert (C1' : ∀ j, 0 ≤ j < zlen s2 → live s2.[j] → clean addr s2.[j]).
  { intros j Hj Hl. destruct (P2 j Hj Hl) as (k & Hk & Hlk & Hp & _). apply (clean_part _ _ _ Hp). by apply C1. }
  destruct (flags_regions s2 addr end_ newf W2 C1' (C2 eq_refl)) as (W3 & P3 & F3). cbv zeta in *. set (s3 := slots _ _ _ _ s2) in *.
  split_and!; [done| |].
  - intros i Hi Hl. destruct (P3 i Hi Hl) as (j & Hj & Hlj & Hpj & Hfj). destruct (P2 j Hj Hlj) as (k & Hk & Hlk & Hpk & Hfk).
    destruct (P1 k Hk Hlk) as (m & Hm & Hlm & Hpm & Hfm). exists m. unfold same_rights in *.
    split_and!; [lia|lia|done|by apply (part_trans _ s2.[j]); [|apply (part_trans _ s1.[k])]|]. destruct Hfj; [left; congruence|by right].
  - intros a. rewrite <- A1, <- A2. destruct (F3 a) as [Ef Hf]. unfold at_addr. rewrite Ef. destruct (vma_find s2 a) as [v|]; [|done].
    rewrite (Hf v eq_refl). destruct (reflag_fields addr end_ newf v) as (_ & _ & -> & _ & -> & _). done.
Qed.

Lemma cut_proc roots (st : state) c s x ok : proc_ok roots st c →
  slots SLOTS 0 (λ s : vset * bool, zlen s.1) (protect_cut x) (p_vmas c, true) = (s, ok) →
  proc_ok roots st (set_vmas c s) ∧ ∀ a, at_addr s a = at_addr (p_vmas c) a.
Proof.
  intros Hp E. destruct (cut_loop (p_vmas c) x (po_wf _ _ _ Hp) s ok E) as (W & Hat & P & _). split; [|done].
  apply (proc_parts roots st st c s same_rights); try done.
  - unfold same_rights. intros u v -> []. done.
  - unfold same_rights, page_fits. by intros w u v Hw _ _ ->.
  - apply Hp.
Qed.

Lemma set_vmas_id c s s' : set_vmas (set_vmas c s) s' = set_vmas c s'.
Proof. done. Qed.

Lemma mprotect_ok roots (st : state) c addr len prot st' cur' rc : vm_inv roots st → proc_ok roots st c → is_u64 len →
  ksys_mprotect st (Some c) addr len prot = (st', cur', rc) →
  ∃ s', cur' = Some (set_vmas c s') ∧ proc_ok roots st' (set_vmas c s') ∧
  ((rc = -1 ∧ st' = st ∧ ∀ a, at_addr s' a = at_addr (p_vmas c) a) ∨
   let end_ := addr + m18_user_span addr len in let newf := m18_prot_to_flags prot in
   rc = 0 ∧ m18_user_span addr len ≠ 0 ∧ flag prot PROT_WRITE && flag prot PROT_EXEC = false ∧
   pages_changed roots st st' (p_space c) (page_covered addr end_ (p_vmas c)) ∧
   (∀ w, page_covered addr end_ (p_vmas c) w → reprotected newf (leaf (vmem st) (p_space c) w) (leaf (vmem st') (p_space c) w)) ∧
   ∀ a, at_addr s' a = match at_addr (p_vmas c) a with
                       | Some (f, t, b) => Some (if (addr <=? a) && (a <? end_) then newf else f, t, b)
                       | None => None
                       end).
Proof.
  intros Hinv Hp Hlen. unfold ksys_mprotect.
  assert (Hsame : ∃ s', Some c = Some (set_vmas c s') ∧ proc_ok roots st (set_vmas c s') ∧ ∀ a, at_addr s' a = at_addr (p_vmas c) a)
    by (exists (p_vmas c); by destruct c).
  destruct Hsame as (s0 & Es0 & Hp0 & Hat0).
  destruct (flag prot PROT_WRITE && flag prot PROT_EXEC) eqn:Ewx; [intros [= <- <- <-]; exists s0; split_and!; try done; by left|].
  destruct (Z.eqb_spec (m18_user_span addr len) 0) as [H0|Hn]; [intros [= <- <- <-]; exists s0; split_and!; try done; by left|].
  destruct (user_span_spec addr len _ Hlen eq_refl Hn) as (Da & Dn & Hc & Hl & _ & Htop). set (n := m18_user_span addr len) in *. clearbody n.
  assert (Ha0 : 0 ≤ addr) by (unfold USER_CODE_BASE in Hc; lia). assert (De : (4096 | addr + n)) by (by apply Z.divide_add_r).
  destruct (vma_overlaps (p_vmas c) addr (addr + n)); cbn [negb]; [|intros [= <- <- <-]; exists s0; split_and!; try done; by left].
  destruct (flag prot PROT_EXEC && device_in addr (addr + n) (p_vmas c)); [intros [= <- <- <-]; exists s0; split_and!; try done; by left|].
  destruct (prot_flags prot Ewx) as [Hnf Hnx]. set (newf := m18_prot_to_flags prot) in *. clearbody newf.
  destruct (slots SLOTS 0 _ (protect_cut addr) _) as [s1 ok1] eqn:E1. destruct (cut_proc roots st c s1 addr ok1 Hp E1) as [Hp1 Hat1].
  destruct ok1; cbn [negb]; [|intros [= <- <- <-]; exists s1; split_and!; try done; by left].
  destruct (slots SLOTS 0 _ (protect_cut (addr + n)) _) as [s2 ok2] eqn:E2.
  destruct (cut_proc roots st (set_vmas c s1) s2 (addr + n) ok2 Hp1 E2) as [Hp2 Hat2]. rewrite set_vmas_id in Hp2. cbn [set_vmas p_vmas] in Hat2.
  destruct ok2; cbn [negb]; [|intros [= <- <- <-]; exists s2; split_and!; try done; left; split_and!; try done; intros a; by rewrite Hat2, Hat1].
  destruct (mprotect_regions (p_vmas c) addr (addr + n) newf s1 s2 (po_wf _ _ _ Hp) E1 E2) as (W3 & P3 & At3). cbv zeta in *.
  set (s3 := slots _ _ _ (protect_flags _ _ _) s2) in *. clearbody s3.
  destruct (protect_pages roots st c s3 addr (addr + n) newf Hinv (po_space _ _ _ Hp) W3 Da De Ha0 Hnf Hnx) as [Hpg Hq]. cbv zeta in *.
  set (st1 := slots _ _ _ _ st) in *. clearbody st1. intros [= <- <- <-].
  assert (Hcov : ∀ w, page_covered addr (addr + n) s3 w ↔ page_covered addr (addr + n) (p_vmas c) w).
  { intros w. specialize (At3 (w * 4096)). unfold at_addr in At3. unfold page_covered.
    destruct (vma_find s3 (w * 4096)), (vma_find (p_vmas c) (w * 4096)); try done. split; intros [? [? ?]]; split; try done; by eexists. }
  assert (Hpg' : pages_changed roots st st1 (p_space c) (page_covered addr (addr + n) (p_vmas c))).
  { destruct Hpg as [G1 G2 G3 G4]. constructor; try done.
    - intros r' v Hr' Hv Hno. apply G3; try done. intros [? ?%Hcov]. by apply Hno.
    - intros r' va Hr' Hv Hno. apply G4; try done. intros [? ?%Hcov]. by apply Hno. }
  exists s3. split_and!; [done| |right; split_and!; try done; intros w Hw%Hcov; by apply Hq].
  apply (proc_parts roots st st1 c s3 _ Hp W3 P3).
  - intros u v [-> | ->] []; done.
  - intros w u v Hw Hu Hv _ Hfit Hpr Hrw. pose proof (At3 (w * 4096)) as Hat. unfold at_addr in Hat. rewrite Hu, Hv in Hat. injection Hat as Hfl _ _.
    destruct ((addr <=? w * 4096) && (w * 4096 <? addr + n)) eqn:Er.
    + assert (Hcw : page_covered addr (addr + n) s3 w) by (zbool; split; [lia|by exists u]). specialize (Hq w Hcw).
      unfold reprotected in Hq. destruct (vmm_pte_has_frame (leaf (vmem st) (p_space c) w)) eqn:Eh.
      * destruct Hq as [sh Hpr']. apply (pr_nx _ _ _ _ Hpr' Hpr). rewrite Hfl in Hrw. unfold wx in Hnx. rewrite Hrw in Hnx. by destruct (flag newf VMM_FLAG_NOEXEC).
      * rewrite Hq in Hpr. rewrite has_frame_bits, <- present_bit, Hpr in Eh. done.
    + assert (El : leaf (vmem st1) (p_space c) w = leaf (vmem st) (p_space c) w).
      { apply (pg_leaf _ _ _ _ _ Hpg); [apply Hp|done|]. intros [_ [? _]]. zbool. lia. }
      rewrite El in *. apply Hfit; [done|]. by rewrite <- Hfl.
  - intros w Hw Hg. rewrite (pg_leaf _ _ _ _ _ Hpg); [by apply (po_gap _ _ _ Hp)|apply Hp|done|].
    intros [_ [_ [u Hu]]]. apply (gap_free roots st c (w * 4096) Hp Hg). destruct (parts_find _ _ _ _ _ (po_wf _ _ _ Hp) P3 Hu) as (v & Hv & _). by exists v.
Qed.

(** ** brk *)

Lemma unmap_range_spec roots (st : state) r lo hi : vm_inv roots st → r ∈ roots → (4096 | lo) → (4096 | hi) → 0 ≤ lo ≤ hi → hi ≤ VMM_USER_TOP →
  pages_changed roots st (unmap_range r lo hi st) r (λ w, lo ≤ w * 4096 < hi) ∧
  ∀ w, lo ≤ w * 4096 < hi → vmm_pte_has_frame (leaf (vmem (unmap_range r lo hi st)) r w) = false.
Proof.
  intros Hinv Hr Dl Dh Hlo Hhi. rewrite unmap_range_body by done. unfold range_body.
  destruct Dl as [l ->], Dh as [h ->]. rewrite Z.div_mul by lia.
  assert (En : Z.of_nat (pages_from (l * 4096) (h * 4096)) = Z.max 0 (h - l)).
  { unfold pages_from. rewrite ZifyInst.of_nat_to_nat_eq. Z.to_euclidean_division_equations; lia. }
  destruct (pages_loop roots r (unmap_page r) (λ _ e', vmm_pte_has_frame e' = false) (λ _ _, True) Hr
    (λ x w Hx Hw Ht, unmap_page_spec roots r x w Hr Hx Hw Ht) (pages_from (l * 4096) (h * 4096)) st l) as [H1 H2]; [done|lia| |done|].
  { rewrite En. unfold USER_PAGES, VMM_USER_TOP in *. lia. }
  split; [|intros w Hw; apply H2; lia]. destruct H1 as [I1 K1 L1 D1]. constructor; [done|done| |].
  - intros r' w Hr' Hw Hn. apply L1; [done|done|]. intros [-> Hx]. apply Hn. split; [done|]. lia.
  - intros r' va Hr' Hva Hn. apply D1; [done|done|]. intros [-> Hx]. apply Hn. split; [done|]. lia.
Qed.

(** The three outcomes of [ksys_brk]. *)
Inductive brk_done (roots : list Z) (st : state) (c : proc) : state → proc → Z → Prop :=
  | bd_same : brk_done roots st c st c (brk_cur c)
  | bd_grow s' b : brk_cur c < b < USER_MMAP_BASE → (4096 | b) →
      (∀ a, at_addr s' a = if (brk_cur c <=? a) && (a <? b) then Some (heap_flags, VMA_TYPE_ANON, BZero) else at_addr (p_vmas c) a) →
      brk_done roots st c st (set_brk_cur (set_vmas c s') b) b
  | bd_shrink st' s' b : brk_start c ≤ b < brk_cur c → (4096 | b) →
      pages_changed roots st st' (p_space c) (λ w, b ≤ w * 4096 < brk_cur c) →
      (∀ w, b ≤ w * 4096 < brk_cur c → vmm_pte_has_frame (leaf (vmem st') (p_space c) w) = false) →
      (∀ a, at_addr s' a = if (b <=? a) && (a <? brk_cur c) then None else at_addr (p_vmas c) a) →
      brk_done roots st c st' (set_brk_cur (set_vmas c s') b) b.

Lemma heap_region : region_flags heap_flags ∧ wx heap_flags = false.
Proof. split; [split_and!|]; by vm_compute. Qed.

Lemma brk_grow_ok roots (st : state) c b s' : proc_ok roots st c → (4096 | b) → brk_cur c < b < USER_MMAP_BASE →
  brk_grow c (brk_cur c) b = Some s' →
  proc_ok roots st (set_brk_cur (set_vmas c s') b) ∧ brk_done roots st c st (set_brk_cur (set_vmas c s') b) b.
Proof.
  intros Hp Db Hb E. pose proof Hp as [P1 P2 P3 P4 P5 P6 P7]. destruct P6 as (D1 & D2 & D3).
  destruct (brk_grow_spec c (brk_cur c) b s' P2 D1 Db) as (W & At & R); [unfold USER_CODE_BASE in *; lia|unfold VMM_USER_TOP, USER_MMAP_BASE in *; lia| |lia|done|].
  { intros j Hj Hl. destruct (P3 j Hj Hl) as [_ _ _ H4 H5 H6 _]. split_and!; [lia|done|done]. }
  split; [|by constructor]. constructor; cbn [set_brk_cur set_vmas p_vmas p_space brk_start brk_cur mmap_next]; try done.
  - intros i Hi Hl. destruct (R i Hi Hl) as [(j & Hj & Ej)|(R1 & R2 & R3 & R4 & R5)].
    + rewrite Ej in *. destruct (P3 j Hj Hl) as [H1 H2 H3 H4 H5 H6 H7]. constructor; cbn; try done. lia.
    + constructor; cbn; rewrite ?R1, ?R2; try done; try apply heap_region; unfold clean; lia.
  - intros w v Hw Hv. pose proof (At (w * 4096)) as E2. unfold at_addr in E2. rewrite Hv in E2.
    destruct ((brk_cur c <=? w * 4096) && (w * 4096 <? b)) eqn:Er.
    + zbool. intros Hpr. assert (Hf : vmm_pte_has_frame (leaf (vmem st) (p_space c) w) = false) by (apply P5; [done|left; lia]).
      rewrite has_frame_bits, <- present_bit, Hpr in Hf. done.
    + destruct (vma_find (p_vmas c) (w * 4096)) as [u|] eqn:Eu; [|done]. injection E2 as E3 _ _. unfold page_fits. rewrite E3. by apply P4.
  - intros w Hw [Hg|Hg]; apply P5; try done; [left|right]; cbn in Hg; lia.
  - split_and!; [done|lia|lia|lia].
Qed.

Lemma brk_shrink_ok roots (st : state) c b : vm_inv roots st → proc_ok roots st c → (4096 | b) → brk_start c ≤ b < brk_cur c →
  let s' := slots SLOTS 0 (λ s : vset, zlen s) (brk_trim c b (brk_cur c)) (p_vmas c) in
  let st' := unmap_range (p_space c) b (brk_cur c) st in
  proc_ok roots st' (set_brk_cur (set_vmas c s') b) ∧ brk_done roots st c st' (set_brk_cur (set_vmas c s') b) b.
Proof.
  intros Hinv Hp Db Hb s' st'. pose proof Hp as [P1 P2 P3 P4 P5 (D1 & D2 & D3) P7].
  assert (Hcl : ∀ j, 0 ≤ j < zlen (p_vmas c) → live (p_vmas c).[j] → clean (brk_start c) (p_vmas c).[j] ∧ clean (brk_cur c) (p_vmas c).[j]).
  { intros j Hj Hl. destruct (P3 j Hj Hl) as [_ _ _ _ H5 H6 _]. split; [done|]. unfold clean. lia. }
  assert (Hb0 : 0 ≤ b) by (unfold USER_CODE_BASE in *; lia).
  assert (Es : s' = slots SLOTS 0 (λ s : vset, zlen s) (munmap_slot b (brk_cur c)) (p_vmas c)) by (by apply brk_trim_slots).
  destruct (munmap_slots (p_vmas c) b (brk_cur c) P2 (conj Hb0 Db) D1 ltac:(lia)) as (W & Pa & Hin & Hbe & Hab).
  cbv zeta in *. rewrite <- Es in *. clearbody s'. clear Es.
  destruct (unmap_range_spec roots st (p_space c) b (brk_cur c) Hinv P1 Db D1) as [Hpg Hun]; [lia|unfold VMM_USER_TOP, USER_MMAP_BASE in *; lia|].
  fold st' in Hpg, Hun. clearbody st'.
  assert (Hat : ∀ a, at_addr s' a = if (b <=? a) && (a <? brk_cur c) then None else at_addr (p_vmas c) a).
  { intros a. destruct (Z.leb_spec b a), (Z.ltb_spec a (brk_cur c)); cbn [andb]; [unfold at_addr; by rewrite Hin by lia| |by apply Hbe|lia].
    destruct (vma_find (p_vmas c) a) as [v|] eqn:Ev.
    - apply Hab; [done|]. exists v. split; [done|]. left. destruct (vma_find_Some _ _ _ Ev) as (j & Hj & _ & <- & Hl & Ha).
      destruct (Hcl j Hj Hl) as [_ C2]. unfold clean in C2. lia.
    - unfold at_addr. rewrite Ev. destruct (vma_find s' a) as [u|] eqn:Eu; [|done].
      destruct (parts_find _ _ _ _ _ P2 Pa Eu) as (v & Hv & _). congruence. }
  split; [|by constructor]. constructor; cbn [set_brk_cur set_vmas p_vmas p_space brk_start brk_cur mmap_next]; try done.
  - intros i Hi Hl. destruct (Pa i Hi Hl) as (j & Hj & Hlj & Hpj & HFj). pose proof (P3 j Hj Hlj) as Hrj.
    pose proof (vo_end _ (vw_ok s' W i Hi Hl)) as [[Hse _] _]. unfold same_rights in HFj.
    destruct (region_part c s'.[i] (p_vmas c).[j] Hrj Hpj Hse) as [H1 H2 H3 H4 H5 H6 H7]; [rewrite HFj; apply Hrj..|].
    constructor; cbn; try done. destruct H6 as [H6|H6]; [|by right]. left.
    destruct (decide (v_end s'.[i] ≤ b)) as [|Hgt]; [done|]. exfalso.
    assert (Hmx : b ≤ Z.max b (v_start s'.[i]) < brk_cur c) by lia. pose proof (Hin _ Hmx) as Hno.
    destruct (vma_find_at s' i (Z.max b (v_start s'.[i])) W Hi Hl) as [_ Hf]; [lia|congruence].
  - intros w u Hw Hu. destruct (parts_find _ _ _ _ _ P2 Pa Hu) as (v & Hv & _ & HF). unfold same_rights in HF. unfold page_fits. rewrite HF.
    rewrite (pg_leaf _ _ _ _ _ Hpg); [by apply P4|done|done|]. intros [_ Hx]. by rewrite (Hin _ Hx) in Hu.
  - intros w Hw Hg. destruct (decide (b ≤ w * 4096 < brk_cur c)) as [Hx|Hx]; [by apply Hun|].
    rewrite (pg_leaf _ _ _ _ _ Hpg); [|done|done|by intros [_ ?]]. apply P5; [done|]. unfold gap in *. cbn in Hg. lia.
  - split_and!; [done|lia|lia|lia].
Qed.

Lemma brk_ok roots (st : state) c nb st' cur' r : vm_inv roots st → proc_ok roots st c → is_u64 nb →
  ksys_brk st (Some c) nb = (st', cur', r) →
  ∃ c', cur' = Some c' ∧ proc_ok roots st' c' ∧ brk_done roots st c st' c' r.
Proof.
  intros Hinv Hp Hnb. unfold ksys_brk.
  assert (Hsame : (st, Some c, brk_cur c) = (st', cur', r) → ∃ c', cur' = Some c' ∧ proc_ok roots st' c' ∧ brk_done roots st c st' c' r).
  { intros [= <- <- <-]. exists c. split_and!; try done. constructor. }
  destruct (Z.eqb_spec nb 0); [done|].
  assert (Hb : (4096 | pgup nb)) by apply land_page_div. set (b := pgup nb) in *. clearbody b.
  destruct (Z.ltb_spec b (brk_start c)), (Z.leb_spec USER_MMAP_BASE b); cbn [orb]; [done..|].
  destruct (Z.eqb_spec b (brk_cur c)) as [|Hne]; [done|]. destruct (Z.ltb_spec (brk_cur c) b).
  - destruct (_ && _); [done|]. destruct (brk_grow c (brk_cur c) b) as [s'|] eqn:E; [|done]. intros [= <- <- <-].
    eexists. split; [done|]. apply brk_grow_ok; (done || lia).
  - pose proof (brk_shrink_ok roots st c b Hinv Hp Hb ltac:(lia)) as Hd. cbv zeta in Hd.
    set (s' := slots _ _ _ _ _) in *. set (st1 := unmap_range _ _ _ _) in *. clearbody s' st1.
    intros [= <- <- <-]. eexists. split; [done|]. apply Hd.
Qed.

(** ** Page faults *)

Lemma absent_fits v e : vmm_pte_has_frame e = false → page_fits v e.
Proof. intros Hf Hp. by rewrite has_frame_bits, <- present_bit, Hp in Hf. Qed.

(** One new leaf in a region of the process. *)
Lemma proc_leaf roots (st st' : state) c w e v : vm_inv roots st → vm_inv roots st' → kspace st' = kspace st → proc_ok roots st c →
  upage w → same_data roots st st' → only_leaf roots (vmem st) (vmem st') (p_space c) w e →
  vma_find (p_vmas c) (w * 4096) = Some v → page_fits v e →
  proc_ok roots st' c ∧ pages_changed roots st st' (p_space c) (λ x, x = w).
Proof.
  intros Hinv Hinv' Hk Hp Hw Hd Ho Hv Hfit. pose proof Hp as [P1 P2 P3 P4 P5 P6 P7]. split; [|by apply (one_page roots st st' (p_space c) w e)].
  constructor; try done.
  - intros x u Hx Hu. rewrite (Ho (p_space c) x P1 Hx), Z.eqb_refl. cbn [andb]. destruct (Z.eqb_spec x w) as [->|]; [|by apply P4].
    by assert (u = v) as -> by congruence.
  - intros x Hx Hg. rewrite (Ho (p_space c) x P1 Hx), Z.eqb_refl. cbn [andb]. destruct (Z.eqb_spec x w) as [->|]; [|by apply P5].
    destruct (gap_free roots st c _ Hp Hg). by exists v.
Qed.

Lemma fault_ok roots (st : state) c img cache addr err st' rc : vm_inv roots st → proc_ok roots st c → cache_ok cache →
  vmm_try_handle_page_fault st img cache (Some (p_space c, p_vmas c)) addr err = (st', rc) →
  proc_ok roots st' c ∧ pages_changed roots st st' (p_space c) (λ x, x = addr / 4096).
Proof.
  intros Hinv Hp Hc E. pose proof (po_space _ _ _ Hp) as Hr. pose proof (kspace_handle _ _ _ _ _ _ _ _ E) as Hk.
  destruct (handle_fault_spec roots st img cache _ _ addr err st' rc Hinv Hr (proc_regions _ _ _ Hp) Hc E) as (Hi & Hd & [[_ Hf]|[_ Hs]]).
  2: { split; [|by apply no_page]. destruct Hp as [P1 P2 P3 P4 P5 P6 P7]. constructor; try done.
       - intros w v Hw. rewrite Hs by done. by apply P4. - intros w Hw. rewrite Hs by done. by apply P5. }
  pose proof (po_wf _ _ _ Hp) as Hwf.
  assert (Hfind : ∀ v, vma_find (p_vmas c) addr = Some v → vma_find (p_vmas c) (addr / 4096 * 4096) = Some v ∧ upage (addr / 4096)).
  { intros v Hv. destruct (find_page _ _ _ Hwf Hv) as (Ha & Hin & _). split; [|by apply fault_page].
    destruct (vma_find_Some _ _ _ Hv) as (i & Hi' & _ & <- & Hl & _). by apply (vma_find_at (p_vmas c) i). }
  assert (Hpa : ∀ f, fa_ref (vfr st') f = 1 → page_addr f) by (intros f H1; apply (fa_ref_page (vfr st')); [apply Hi|by rewrite H1]).
  destruct Hf as [_ _ Hwr Hcow (f & _ & Hf1 & _ & Ho & _)|v _ Hv Hpn Ht (_ & _ & _ & [(_ & Hold & f & _ & Hf1 & _ & Ho & _)|[? _]])|v _ Hv Hpn Ht Hold Ho]; [| |done|].
  - unfold write_region in Hwr. destruct (vma_find (p_vmas c) (addr / 4096 * 4096)) as [v|] eqn:Ev; [|done]. destruct (find_page _ _ _ Hwf Ev) as (Hr1 & _).
    assert (Hw : upage (addr / 4096)) by (unfold upage, USER_PAGES, VMM_USER_TOP in *; Z.to_euclidean_division_equations; lia).
    apply (proc_leaf roots st st' c _ _ v Hinv Hi Hk Hp Hw Hd Ho Ev). intros Hpr Hrw.
    destruct (leaf_facts roots st (p_space c) _ Hinv Hr Hw) as [Hu _]. destruct (cow_entry_spec _ f Hu (Hpa f Hf1)) as (_ & _ & E1 & _ & _ & _ & E2 & _).
    rewrite E2. apply (po_fits _ _ _ Hp _ v Hw Ev); [by rewrite <- E1|done].
  - destruct (Hfind v Hv) as [Ev Hw]. destruct (po_find _ _ _ _ _ Hp Hv) as [(Hfo & _) Hwx _ _ _ _ _].
    apply (proc_leaf roots st st' c _ _ v Hinv Hi Hk Hp Hw Hd Ho Ev). intros _ Hrw.
    destruct (leaf_entry_flags f (v_flags v) (Hpa f Hf1) Hfo) as (_ & -> & _). unfold wx in Hwx. rewrite Hrw in Hwx. by destruct (flag _ VMM_FLAG_NOEXEC).
  - destruct (Hfind v Hv) as [Ev Hw]. destruct (po_find _ _ _ _ _ Hp Hv) as [Hrf Hwx Hph _ _ _ _].
    destruct (find_page _ _ _ Hwf Hv) as (_ & Hin & Hal & _). destruct (Hph Ht) as (H1 & H2 & H3).
    apply (proc_leaf roots st st' c _ _ v Hinv Hi Hk Hp Hw Hd Ho Ev). intros _ _. destruct (device_flags_spec v Hrf) as (Hfo & _).
    assert (Hpp : page_addr (phys_base v + (addr / 4096 * 4096 - v_start v))).
    { split; [lia|]. apply Z.divide_add_r; [done|]. apply Z.divide_sub_r; [by exists (addr / 4096)|done]. }
    destruct (leaf_entry_flags _ (device_flags v) Hpp Hfo) as (_ & -> & _). apply device_nx.
Qed.
End proc.
