(* ===== verification/MmMmap.v ===== *)
(** * mmap

    [ksys_mmap6] and [fbdev_mmap]: a successful call adds one region in the
    unused part of the arena, of the kind and with the rights asked for, and
    for the framebuffer maps its pages; a call that fails changes nothing. *)

From S2P Require Import Prelude Vma Frames Vmm VmmWf VmmInv VmmOps VmmFault VmSpace VmWalk VmCreate VmFork VmDestroy VmSafe VmReach MmSyscall MmRange MmRegions MmProc.

#[local] Opaque window_names pages_below shares_below leaf fork_parent fork_child.

Section mmap.
Context {A : Type} {ops : FrameOps A} {laws : FrameLaws A}.
Abbreviation state := (vm A).

(** A new region [v] at the bottom of the unused arena. *)
Lemma proc_new roots (st st' : state) c s' v L : proc_ok roots st c → vset_wf s' → 0 < L → (4096 | L) → mmap_next c + L ≤ USER_MMAP_END →
  (∀ a, vma_find s' a = if (mmap_next c <=? a) && (a <? mmap_next c + L) then Some v else vma_find (p_vmas c) a) →
  v_start v = mmap_next c → v_end v = mmap_next c + L → region_flags (v_flags v) → wx (v_flags v) = false →
  (v_type v = VMA_TYPE_PHYS → 0 < phys_base v ∧ (4096 | phys_base v) ∧ phys_base v + L ≤ PHYS_TOP) →
  (v_type v = VMA_TYPE_ANON → plain v) →
  pages_changed roots st st' (p_space c) (λ w, mmap_next c ≤ w * 4096 < mmap_next c + L) →
  (∀ w, mmap_next c ≤ w * 4096 < mmap_next c + L → page_fits v (leaf (vmem st') (p_space c) w)) →
  proc_ok roots st' (set_mmap_next (set_vmas c s') (mmap_next c + L)).
Proof.
  intros Hp Hs' HL DL Hend Hf Hst Hen Hrf Hwx Hph Han Hpg Hfit. pose proof Hp as [P1 P2 P3 P4 P5 P6 [D7 P7]].
  destruct P6 as (D1 & D2 & D3). constructor; cbn [set_mmap_next set_vmas p_vmas p_space brk_start brk_cur mmap_next]; try done.
  - intros i Hi Hl. pose proof (vo_end _ (vw_ok s' Hs' i Hi Hl)) as [[Hse _] _].
    destruct (vma_find_at s' i (v_start s'.[i]) Hs' Hi Hl) as [_ Hfi]; [lia|]. rewrite Hf in Hfi.
    destruct ((mmap_next c <=? v_start s'.[i]) && (v_start s'.[i] <? mmap_next c + L)).
    + injection Hfi as <-. constructor; cbn; try done; [rewrite Hst, Hen; replace (_ + L - _) with L by lia; done|unfold clean|..];
        unfold USER_MMAP_BASE in *; lia.
    + destruct (po_find _ _ _ _ _ Hp Hfi) as [H1 H2 H3 H4 H5 H6 H7]. constructor; cbn; try done. lia.
  - intros w u Hw. rewrite Hf. destruct ((mmap_next c <=? w * 4096) && (w * 4096 <? mmap_next c + L)) eqn:Er.
    + intros [= <-]. zbool. apply Hfit. lia.
    + intros Hu. rewrite (pg_leaf _ _ _ _ _ Hpg); [by apply P4|done|done|]. intros [_ Hx]. zbool. lia.
  - intros w Hw Hg. rewrite (pg_leaf _ _ _ _ _ Hpg); [|done|done|].
    + apply P5; [done|]. unfold gap in *. cbn in Hg. lia.
    + unfold gap in Hg. cbn in Hg. unfold USER_MMAP_BASE in *. intros [_ Hx]. lia.
  - split; [by apply Z.divide_add_r|lia].
Qed.

(** The unused arena is free. *)
Lemma arena_free roots (st : state) c L : proc_ok roots st c → 0 < L → (4096 | L) → mmap_next c + L ≤ USER_MMAP_END →
  vma_overlaps (p_vmas c) (mmap_next c) (mmap_next c + L) = false ∧
  (∀ flags ty, vma_ok (new_region (mmap_next c) (mmap_next c + L) flags ty 0 0 0 0)) ∧
  (∀ w, mmap_next c ≤ w * 4096 < mmap_next c + L → vmm_pte_has_frame (leaf (vmem st) (p_space c) w) = false).
Proof.
  intros Hp HL DL Hend. destruct (po_arena _ _ _ Hp) as [D7 P7]. split_and!.
  - unfold vma_overlaps. destruct (slot_find _ _ 0) as [i|] eqn:E; [|done]. exfalso.
    apply slot_find_Some in E as (Hi & Hc & _). rewrite Z.sub_0_r in *. apply andb_true_iff in Hc as [[Hl%negb_true_iff%is_none_spec H1]%andb_true_iff H2].
    zbool. destruct (po_regions _ _ _ Hp i ltac:(lia) Hl) as [_ _ _ _ _ _ H]. lia.
  - intros flags ty. constructor; cbn; unfold USER_MMAP_BASE, USER_MMAP_END, VMM_USER_TOP in *; split_and!; try (done || lia). by apply Z.divide_add_r.
  - intros w Hw. apply (po_gap _ _ _ Hp).
    + unfold upage, USER_PAGES, USER_MMAP_BASE, USER_MMAP_END in *. lia.
    + right. lia.
Qed.

(** What an mmap call that returns a mapping does: a fresh region of [L]
    bytes with the rights of [prot], backed as [b] says. *)
Record mmapped (roots : list Z) (st st' : state) (c c' : proc) (L flags : Z) (t : vma_type) (b : Z → backing) : Prop := {
  mm_len : 0 < L ∧ (4096 | L) ∧ mmap_next c + L ≤ USER_MMAP_END;
  mm_fresh : vma_overlaps (p_vmas c) (mmap_next c) (mmap_next c + L) = false;
  mm_next : mmap_next c' = mmap_next c + L;
  mm_space : p_space c' = p_space c;
  mm_at : ∀ a, at_addr (p_vmas c') a =
    if (mmap_next c <=? a) && (a <? mmap_next c + L) then Some (flags, t, b (a - mmap_next c)) else at_addr (p_vmas c) a;
  mm_pages : pages_changed roots st st' (p_space c) (λ w, mmap_next c ≤ w * 4096 < mmap_next c + L)
}.

Lemma set_vmas_self c : set_vmas c (p_vmas c) = c.
Proof. by destruct c. Qed.

Lemma arena_ok roots (st : state) nocache c len prot flags fd c' r : vm_inv roots st → proc_ok roots st c → 0 < len < 2 ^ 64 →
  mmap_arena nocache c len prot flags fd = (c', r) →
  (c' = c ∧ r ≠ mmap_next c) ∨
  (r = mmap_next c ∧ proc_ok roots st c' ∧ flag prot PROT_WRITE && flag prot PROT_EXEC = false ∧
   ∃ t b, mmapped roots st st c c' (pgup len) (m18_prot_to_flags prot) t b ∧
     if flag flags MAP_ANONYMOUS then t = VMA_TYPE_ANON ∧ b = (λ _, BZero)
     else t = VMA_TYPE_FILE ∧ b = (λ o, BFile (fd_inode (p_fds c).[fd]) o) ∧ 0 ≤ fd < 32).
Proof.
  intros Hinv Hp Hlen. destruct (po_arena _ _ _ Hp) as [D7 P7].
  assert (Hneg : ∀ x, (c, x) = (c', r) → x = ALL_ONES ∨ x = u64 (-19) → c' = c ∧ r ≠ mmap_next c).
  { intros x [= <- <-] Hx. split; [done|]. unfold ALL_ONES, u64, USER_MMAP_END in *. destruct Hx as [-> | ->]; [lia|]. change (-19 mod 18446744073709551616) with 18446744073709551597. lia. }
  unfold mmap_arena. destruct (flag prot PROT_WRITE && flag prot PROT_EXEC) eqn:Ewx; [by intros E; left; apply (Hneg _ E); left|].
  destruct (prot_flags prot Ewx) as [Hnf Hnx]. set (newf := m18_prot_to_flags prot) in *. clearbody newf.
  destruct (Z.leb_spec USER_MMAP_END (mmap_next c)), (Z.ltb_spec (USER_MMAP_END - mmap_next c) len); cbn [orb]; try (by intros E; left; apply (Hneg _ E); left).
  destruct (pgup_spec len) as [DL HL]; [unfold USER_MMAP_BASE, USER_MMAP_END in *; lia|]. set (L := pgup len) in *. clearbody L.
  destruct (Z.ltb_spec (USER_MMAP_END - mmap_next c) L); [by intros E; left; apply (Hneg _ E); left|].
  destruct (negb (mem_limit c =? 0) && _); [by intros E; left; apply (Hneg _ E); left|].
  destruct (arena_free roots st c L Hp ltac:(lia) DL ltac:(lia)) as (Hov & Hok & Hnf2).
  assert (Hnew : ∀ s' v, vset_wf s' → (∀ a, vma_find s' a = if (mmap_next c <=? a) && (a <? mmap_next c + L) then Some v else vma_find (p_vmas c) a) →
    v_start v = mmap_next c → v_end v = mmap_next c + L → v_flags v = newf → v_type v ≠ VMA_TYPE_PHYS → plain v →
    proc_ok roots st (set_mmap_next (set_vmas c s') (mmap_next c + L)) ∧
    ∀ b, (∀ a, mmap_next c ≤ a < mmap_next c + L → vma_backing v a = b (a - mmap_next c)) →
      mmapped roots st st c (set_mmap_next (set_vmas c s') (mmap_next c + L)) L newf (v_type v) b).
  { intros s' v Hs' Hf V1 V2 V3 V4 V5. split.
    - apply (proc_new roots st st c s' v L); try done; try lia; try (by rewrite V3).
      intros w Hw. by apply absent_fits, Hnf2.
    - intros b Hb. constructor; cbn; try done; [split_and!; (done || lia)|].
      intros a. unfold at_addr. rewrite Hf. destruct ((mmap_next c <=? a) && (a <? mmap_next c + L)) eqn:Ea; [|done].
      zbool. by rewrite Hb, V3 by lia. }
  destruct (flag flags MAP_ANONYMOUS).
  - pose proof (vma_add_spec (p_vmas c) (mmap_next c) (mmap_next c + L) newf VMA_TYPE_ANON 0 0 0 0 (po_wf _ _ _ Hp) (Hok _ _) ltac:(done) Hov) as Ha.
    destruct (vma_add _ _ _ _ _ _ _ _ _) as [s'|]; [|by intros E; left; apply (Hneg _ E); left]. destruct Ha as [Hs' Hf].
    destruct (Hnew s' _ Hs' Hf) as [N1 N2]; try done. intros [= <- <-]. right. split_and!; try done.
    exists VMA_TYPE_ANON, (λ _, BZero). split; [|done]. by apply N2.
  - destruct (Z.ltb_spec fd 0), (Z.leb_spec 32 fd); cbn [orb]; try (by intros E; left; apply (Hneg _ E); left).
    destruct (fd_used _); cbn [negb]; [|by intros E; left; apply (Hneg _ E); left].
    destruct (_ || _); [by intros E; left; apply (Hneg _ E); left|].
    destruct (Z.eqb_spec (fd_inode (p_fds c).[fd]) 0) as [|Hino]; [by intros E; left; apply (Hneg _ E); left|].
    destruct (nocache _); [by intros E; left; apply (Hneg _ E); right|].
    unfold vma_add_file. set (ino := fd_inode (p_fds c).[fd]) in *.
    pose proof (add_then_spec (p_vmas c) (mmap_next c) (mmap_next c + L) newf VMA_TYPE_FILE (λ v, set_file v ino 0) (po_wf _ _ _ Hp) (Hok _ _) ltac:(done) Hov) as Ha.
    destruct (add_then _ _ _ _) as [s' [|]]; cbn [fst snd] in Ha.
    2: { destruct Ha as [-> _]; [by destruct (Hok newf VMA_TYPE_FILE)|done..|]. rewrite set_vmas_self. by intros E; left; apply (Hneg _ E); left. }
    destruct Ha as [Hs' Hf]; [by destruct (Hok newf VMA_TYPE_FILE)|done..|].
    destruct (Hnew s' _ Hs' Hf) as [N1 N2]; try done. intros [= <- <-]. right. split_and!; try done.
    exists VMA_TYPE_FILE, (λ o, BFile ino o). split; [|split_and!; (done || lia)]. apply N2. intros a Ha2. unfold vma_backing. cbn.
    by destruct (Z.eqb_spec ino 0).
Qed.

(** ** The framebuffer *)

(** Device memory that exists. *)
Definition fb_ok (fi : fb_info) : Prop :=
  0 < fb_addr fi ∧ 0 ≤ raw_size fi < 2 ^ 46 ∧ fb_addr fi + pgup (raw_size fi) ≤ PHYS_TOP.

Definition device_region (v : vma) : Prop :=
  v_type v = VMA_TYPE_PHYS ∧ vma_ok v ∧ region_flags (v_flags v) ∧ flag (v_flags v) VMM_FLAG_PROTNONE = false ∧
  0 < phys_base v ∧ (4096 | phys_base v) ∧ phys_base v + (v_end v - v_start v) ≤ PHYS_TOP.

Lemma fb_fault_step roots (st : state) img cache r v w s k : vm_inv roots s.1 → r ∈ roots → device_region v →
  v_start v = w * 4096 → 0 ≤ k → v_start v + k * 4096 < v_end v →
  let s' := fb_fault img cache r v (v_start v) k s in
  pages_changed roots s.1 s'.1 r (λ x, x = w + k) ∧
  (s'.1 = s.1 ∨ same_leaves roots (vmem s.1) (vmem s'.1) ∨ flag (leaf (vmem s'.1) r (w + k)) VMM_FLAG_NOEXEC = true).
Proof.
  intros Hinv Hr (Ht & Hok & Hrf & Hpn & H1 & H2 & H3) Ew Hk Hlt. unfold fb_fault. destruct s as [x [|]]; cbn [fst snd] in *.
  { split; [by apply pages_changed_refl|by left]. }
  destruct (vma_fault_in x img cache (Some r) v (v_start v + k * 0x1000)) as [x' rc] eqn:E. cbn [fst].
  pose proof (kspace_fault_in _ _ _ _ _ _ _ _ E) as Hks. destruct Hok as [[O1 O2] [O3 O4] _ _ _].
  assert (Ha : 0 ≤ v_start v + k * 0x1000 < VMM_USER_TOP) by lia. revert E. unfold vma_fault_in. destruct (fault_page _ Ha) as [-> Hu].
  assert (Ep : (v_start v + k * 0x1000) / 4096 = w + k) by (rewrite Ew; Z.to_euclidean_division_equations; lia). rewrite Ep in *.
  destruct (Z.ltb_spec ((w + k) * 4096) (v_start v)); [lia|]. destruct (Z.leb_spec (v_end v) ((w + k) * 4096)); [lia|]. cbn [orb]. rewrite Hpn, Ht.
  fold (device_flags v). intros E.
  destruct (fault_device roots x r v (w + k) x' rc Hinv Hr Hu Hrf (conj H1 (conj H2 H3)) O2 ltac:(lia) E) as (Hi & Hd & [(_ & _ & Ho)|[_ Hs]]).
  - split; [by apply (one_page roots x x' r (w + k) _ Hinv Hi Hr Hks Hd Ho)|]. right. right. rewrite (Ho r (w + k) Hr Hu), !Z.eqb_refl. cbn [andb].
    assert (Hpp : page_addr (phys_base v + ((w + k) * 4096 - v_start v))).
    { split; [lia|]. apply Z.divide_add_r; [done|]. apply Z.divide_sub_r; [by exists (w + k)|done]. }
    destruct (device_flags_spec v Hrf) as (Hfo & _). destruct (leaf_entry_flags _ (device_flags v) Hpp Hfo) as (_ & -> & _). apply device_nx.
  - split; [by apply no_page|]. by right; left.
Qed.

Lemma fb_loop roots (st : state) img cache r v L : vm_inv roots st → r ∈ roots → device_region v → v_end v = v_start v + L → (4096 | L) → 0 < L →
  (∀ w, v_start v ≤ w * 4096 < v_end v → vmm_pte_has_frame (leaf (vmem st) r w) = false) →
  let st' := (zfor (pages_from (v_start v) (v_start v + L)) 0 (fb_fault img cache r v (v_start v)) (st, false)).1 in
  pages_changed roots st st' r (λ w, v_start v ≤ w * 4096 < v_start v + L) ∧
  ∀ w, v_start v ≤ w * 4096 < v_start v + L → page_fits v (leaf (vmem st') r w).
Proof.
  intros Hinv Hr Hdev He DL HL Hfree. pose proof Hdev as (_ & [[O1 [w0 Ow]] [O3 O4] _ _ _] & _). destruct DL as [l ->].
  assert (En : Z.of_nat (pages_from (v_start v) (v_start v + l * 4096)) = l).
  { unfold pages_from. rewrite ZifyInst.of_nat_to_nat_eq. Z.to_euclidean_division_equations; lia. }
  set (n := pages_from _ _) in *. clearbody n.
  set (Inv := λ k (s : state * bool), pages_changed roots st s.1 r (λ w, w0 ≤ w < w0 + k) ∧ ∀ w, w0 ≤ w < w0 + k → page_fits v (leaf (vmem s.1) r w)).
  assert (HI : Inv (0 + Z.of_nat n) (zfor n 0 (fb_fault img cache r v (v_start v)) (st, false))).
  { apply (zfor_inv Inv).
    - split; [by apply pages_changed_refl|lia].
    - intros k s Hk [Hc Hf]. destruct (fb_fault_step roots st img cache r v w0 s k) as [H1 H2]; try done; [apply Hc|lia|lia|].
      assert (Hu : ∀ w, w0 ≤ w < w0 + l → upage w) by (unfold upage, USER_PAGES, VMM_USER_TOP in *; lia). split.
      + apply (pages_changed_trans roots st s.1 _ r (λ w, w0 ≤ w < w0 + k) (λ x, x = w0 + k)); [lia|lia|done|done].
      + intros w Hw. destruct (decide (w = w0 + k)) as [->|Hne].
        * assert (E0 : leaf (vmem s.1) r (w0 + k) = leaf (vmem st) r (w0 + k)) by (apply (pg_leaf _ _ _ _ _ Hc); [done|apply Hu; lia|lia]).
          assert (F0 : vmm_pte_has_frame (leaf (vmem st) r (w0 + k)) = false) by (apply Hfree; lia).
          destruct H2 as [H2|[H2|H2]]; [rewrite H2, E0; by apply absent_fits|rewrite H2, E0 by (done || (apply Hu; lia)); by apply absent_fits|].
          by intros _ _.
        * rewrite (pg_leaf _ _ _ _ _ H1); [apply Hf; lia|done|apply Hu; lia|lia]. }
  rewrite Z.add_0_l, En in HI. destruct HI as [Hc Hf]. cbv zeta. set (st' := (zfor _ _ _ _).1) in *.
  split; [|intros w Hw; apply Hf; lia]. destruct Hc as [I1 K1 L1 D1]. constructor; [done|done| |].
  - intros r' w Hr' Hw Hn. apply L1; [done|done|]. intros [-> Hx]. apply Hn. split; [done|]. lia.
  - intros r' va Hr' Hva Hn. apply D1; [done|done|]. intros [-> Hx]. apply Hn. split; [done|]. lia.
Qed.

Lemma fbdev_ok roots (st : state) img cache fi c len prot flags off st' cur' r : vm_inv roots st → proc_ok roots st c →
  match fi with Some fi => fb_ok fi | None => True end → 0 ≤ off → is_u64 len →
  fbdev_mmap st img cache fi (Some c) len prot flags off = (st', cur', r) →
  (st' = st ∧ cur' = Some c ∧ -22 ≤ r < 0) ∨
  ∃ c' fi', r = mmap_next c ∧ cur' = Some c' ∧ fi = Some fi' ∧ proc_ok roots st' c' ∧ off + pgup len ≤ pgup (raw_size fi') ∧
    flag prot PROT_EXEC = false ∧
    mmapped roots st st' c c' (pgup len) (Z.lor (Z.lor VMM_FLAG_USER VMM_FLAG_NOEXEC) (if flag prot PROT_WRITE then VMM_FLAG_RW else 0))
      VMA_TYPE_PHYS (λ o, BPhys (fb_addr fi' + off + o)).
Proof.
  intros Hinv Hp Hfb Hoff Hlen. unfold fbdev_mmap. destruct fi as [fi|]; [|intros [= <- <- <-]; by left].
  destruct Hfb as (F1 & F2 & F3). destruct (po_arena _ _ _ Hp) as [D7 P7].
  destruct (negb (flag flags MAP_SHARED) || flag flags MAP_PRIVATE || flag flags MAP_ANONYMOUS); [intros [= <- <- <-]; by left|].
  destruct (flag prot PROT_EXEC) eqn:Ex; [intros [= <- <- <-]; by left|].
  destruct (flag prot (Z.lor PROT_READ PROT_WRITE)); cbn [negb]; [|intros [= <- <- <-]; by left].
  destruct (Z.land (fb_addr fi) 0xFFF =? 0) eqn:Ea; cbn [negb orb]; [|intros [= <- <- <-]; by left]. apply page_aligned in Ea.
  destruct (Z.land off 0xFFF =? 0) eqn:Eo; cbn [negb orb]; [|intros [= <- <- <-]; by left]. apply page_aligned in Eo.
  destruct (Z.eqb_spec len 0); [intros [= <- <- <-]; by left|].
  destruct (pgup_spec (raw_size fi) ltac:(lia)) as [DS HS]. remember (pgup (raw_size fi)) as size eqn:Es.
  assert (DL : (4096 | pgup len)) by apply land_page_div. assert (HL0 : 0 ≤ pgup len).
  { unfold pgup. apply Z.land_nonneg. left. apply u64_range. } set (L := pgup len) in *. clearbody L.
  destruct (Z.eqb_spec L 0), (Z.leb_spec size off), (Z.ltb_spec (size - off) L); cbn [orb]; try (intros [= <- <- <-]; by left).
  destruct (Z.leb_spec USER_MMAP_END (mmap_next c)), (Z.ltb_spec (USER_MMAP_END - mmap_next c) L); cbn [orb]; try (intros [= <- <- <-]; by left).
  destruct (negb (mem_limit c =? 0) && _); [intros [= <- <- <-]; by left|].
  set (vf := Z.lor _ (if flag prot PROT_WRITE then VMM_FLAG_RW else 0)).
  assert (Hvf : region_flags vf ∧ wx vf = false ∧ flag vf VMM_FLAG_PROTNONE = false)
    by (unfold vf; destruct (flag prot PROT_WRITE); split_and!; by vm_compute). destruct Hvf as (Hrf & Hwx & Hpn). clearbody vf.
  rewrite u64_small by (unfold is_u64, PHYS_TOP in *; lia). set (phys := fb_addr fi + off). assert (Dp : (4096 | phys)) by (by apply Z.divide_add_r).
  assert (Hphys : 0 < phys ∧ phys + L ≤ PHYS_TOP) by (unfold phys; lia). destruct Hphys as [Hp1 Hp2].
  assert (HL : 0 < L) by lia. destruct (arena_free roots st c L Hp HL DL ltac:(lia)) as (Hov & Hok & Hfree). unfold vma_add_phys.
  rewrite (proj2 (page_aligned (mmap_next c))), (proj2 (page_aligned (mmap_next c + L))), (proj2 (page_aligned phys)) by (done || by apply Z.divide_add_r).
  cbn [negb orb]. destruct (Z.leb_spec (mmap_next c + L) (mmap_next c)); [lia|].
  set (v := set_phys (new_region (mmap_next c) (mmap_next c + L) vf VMA_TYPE_PHYS 0 0 0 0) phys).
  assert (Hokv : vma_ok v).
  { destruct (Hok vf VMA_TYPE_PHYS) as [V1 V2 V3 V4 V5]. constructor; try done. unfold v. cbn. unfold PHYS_TOP in *. lia. }
  pose proof (add_then_spec (p_vmas c) (mmap_next c) (mmap_next c + L) vf VMA_TYPE_PHYS (λ v, set_phys v phys) (po_wf _ _ _ Hp) (Hok _ _) ltac:(done) Hov Hokv
    ltac:(done) eq_refl eq_refl) as Hadd. fold v in Hadd.
  destruct (add_then _ _ _ _) as [s' [|]]; cbn [fst snd] in Hadd.
  2: { destruct Hadd as [-> _]. rewrite set_vmas_self. intros [= <- <- <-]. by left. }
  destruct Hadd as [Hs' Hf]. rewrite (Hf (mmap_next c)). destruct (Z.leb_spec (mmap_next c) (mmap_next c)), (Z.ltb_spec (mmap_next c) (mmap_next c + L)); try lia.
  cbn [andb]. assert (Hdev : device_region v) by (split_and!; try done; cbn; lia).
  destruct (fb_loop roots st img cache (p_space c) v L Hinv (po_space _ _ _ Hp) Hdev eq_refl DL HL Hfree) as [Hpg Hfit].
  cbn [v_start v set_phys new_region] in Hpg, Hfit. set (st1 := (zfor _ _ _ _).1) in *. clearbody st1.
  intros [= <- <- <-]. right. eexists _, fi. split_and!; try done; try lia.
  - apply (proc_new roots st st1 c s' v L); try done; lia.
  - constructor; cbn; try done; [split_and!; (done || lia)|]. intros a. unfold at_addr. rewrite Hf. destruct (_ && _); [|done].
    unfold vma_backing. cbn. done.
Qed.

(** ** The call *)

Lemma mmap_ok roots (st : state) img cache iv fi c len prot flags fd off st' cur' r : vm_inv roots st → proc_ok roots st c →
  match fi with Some fi => fb_ok fi | None => True end → 0 ≤ off → is_u64 len →
  ksys_mmap6 st img cache iv fi (Some c) len prot flags fd off = (st', cur', r) →
  (st' = st ∧ cur' = Some c ∧ r ≠ mmap_next c) ∨
  ∃ c' t b, r = mmap_next c ∧ cur' = Some c' ∧ proc_ok roots st' c' ∧ flag prot PROT_WRITE && flag prot PROT_EXEC = false ∧
    ∃ f, mmapped roots st st' c c' (pgup len) f t b ∧
    ((t = VMA_TYPE_ANON ∧ flag flags MAP_ANONYMOUS = true ∧ b = (λ _, BZero) ∧ f = m18_prot_to_flags prot) ∨
     (t = VMA_TYPE_FILE ∧ flag flags MAP_ANONYMOUS = false ∧ b = (λ o, BFile (fd_inode (p_fds c).[fd]) o) ∧ f = m18_prot_to_flags prot) ∨
     (t = VMA_TYPE_PHYS ∧ is_fb iv (fd_inode (p_fds c).[fd]) = true ∧ ∃ fi', fi = Some fi' ∧ off + pgup len ≤ pgup (raw_size fi') ∧
        b = (λ o, BPhys (fb_addr fi' + off + o)) ∧ wx f = false)).
Proof.
  intros Hinv Hp Hfb Hoff Hlen. unfold ksys_mmap6. destruct (po_arena _ _ _ Hp) as [D7 P7].
  assert (Hneg : ∀ x, x < 0 → - 2 ^ 63 < x → u64 x ≠ mmap_next c).
  { intros x Hx Hx2. unfold u64, USER_MMAP_END in *. Z.to_euclidean_division_equations; lia. }
  destruct (Z.eqb_spec len 0); [intros [= <- <- <-]; left; split_and!; try done; unfold ALL_ONES, USER_MMAP_END in *; lia|].
  cbv zeta. set (rest := let '(c', r) := mmap_arena (nocache iv) c len prot flags fd in (st, Some c', r)).
  assert (Hrest : rest = (st', cur', r) → (st' = st ∧ cur' = Some c ∧ r ≠ mmap_next c) ∨
    ∃ c' t b, r = mmap_next c ∧ cur' = Some c' ∧ proc_ok roots st' c' ∧ flag prot PROT_WRITE && flag prot PROT_EXEC = false ∧
    ∃ f, mmapped roots st st' c c' (pgup len) f t b ∧
    ((t = VMA_TYPE_ANON ∧ flag flags MAP_ANONYMOUS = true ∧ b = (λ _, BZero) ∧ f = m18_prot_to_flags prot) ∨
     (t = VMA_TYPE_FILE ∧ flag flags MAP_ANONYMOUS = false ∧ b = (λ o, BFile (fd_inode (p_fds c).[fd]) o) ∧ f = m18_prot_to_flags prot) ∨
     (t = VMA_TYPE_PHYS ∧ is_fb iv (fd_inode (p_fds c).[fd]) = true ∧ ∃ fi', fi = Some fi' ∧ off + pgup len ≤ pgup (raw_size fi') ∧
        b = (λ o, BPhys (fb_addr fi' + off + o)) ∧ wx f = false))).
  { unfold rest. destruct (mmap_arena _ c len prot flags fd) as [c1 r1] eqn:Ea. intros [= <- <- <-].
    destruct (arena_ok roots st (nocache iv) c len prot flags fd c1 r1 Hinv Hp) as [[-> ?]|(-> & Hp1 & Hwx & t & b & Hm & Hb)];
      [unfold is_u64 in *; lia|done|by left|]. right. exists c1, t, b. split_and!; try done. eexists. split; [done|].
    destruct (flag flags MAP_ANONYMOUS); [left|right; left]; destruct Hb as (? & ?); [done|]. split_and!; (done || tauto). }
  clearbody rest.
  destruct (negb (flag flags MAP_ANONYMOUS) && (0 <=? fd) && (fd <? 32) && fd_used _ && negb (fd_pipe _) && negb (fd_sock _) && negb (_ =? 0)); [|done].
  destruct (Z.land (fd_flags (p_fds c).[fd]) 3 =? 1); [intros [= <- <- <-]; left; split_and!; try done; by apply Hneg|].
  destruct (flag flags MAP_SHARED && flag prot PROT_WRITE && _); [intros [= <- <- <-]; left; split_and!; try done; by apply Hneg|].
  destruct (is_fb iv _) eqn:Efb; [|destruct (is_input_client iv _); [intros [= <- <- <-]; left; split_and!; try done; by apply Hneg|done]].
  destruct (fbdev_mmap _ _ _ _ _ _ _ _ _) as [[st1 cur1] r1] eqn:Ef. intros [= <- <- <-].
  destruct (fbdev_ok roots st img cache fi c len prot flags off st1 cur1 r1 Hinv Hp Hfb Hoff Hlen Ef) as [(-> & -> & Hr)|(c' & fi' & -> & -> & -> & H1 & H2 & Hx & H3)].
  - left. split_and!; try done. apply Hneg; lia.
  - right. exists c', VMA_TYPE_PHYS, (λ o, BPhys (fb_addr fi' + off + o)). split_and!; try done.
    + apply u64_small. unfold is_u64, USER_MMAP_BASE, USER_MMAP_END in *. lia.
    + rewrite Hx. apply andb_false_r.
    + eexists. split; [done|]. right. right. split_and!; try done. exists fi'. split_and!; try done. by destruct (flag prot PROT_WRITE).
Qed.
End mmap.
