(* ===== verification/MmSystem.v ===== *)
(** * All processes together

    The machine as user programs drive it: the memory calls of each process,
    page faults, forks, creation and exit of processes, and stores by running
    programs, in any order ([sys_step]).  Its invariant [sys_ok] holds in every
    state such sequences reach; the properties at the end are what it means for
    programs. *)

From S2P Require Import Prelude Vma Frames Vmm VmmWf VmmInv VmmOps VmmFault VmSpace VmWalk VmCreate VmFork VmDestroy VmSafe VmReach MmSyscall MmRange MmRegions MmProc MmMmap.

#[local] Opaque window_names pages_below shares_below leaf fork_parent fork_child.

(** The child of [process_fork]: the same regions, image pointers moved from
    the parent's image to the copy. *)
Definition repoint (d : Z) (v : vma) : vma :=
  if bool_decide (v_type v = VMA_TYPE_FILE) && negb (file_base v =? 0)
  then mk_vma (v_start v) (v_end v) (v_flags v) (v_type v) (u64 (file_base v + d)) (file_off v) (file_pad v) (file_len v) (file_inode v) (file_voff v) (phys_base v)
  else v.
Definition fork_proc (c : proc) (space d : Z) : proc :=
  mk_proc space (repoint d <$> p_vmas c) (brk_start c) (brk_cur c) (mmap_next c) (mem_limit c) (p_fds c).

Lemma repoint_fields d v : v_start (repoint d v) = v_start v ∧ v_end (repoint d v) = v_end v ∧ v_flags (repoint d v) = v_flags v ∧
  v_type (repoint d v) = v_type v ∧ phys_base (repoint d v) = phys_base v ∧ (plain v → plain (repoint d v)) ∧ (vma_ok v → vma_ok (repoint d v)).
Proof.
  unfold repoint. destruct (_ && _); [|done]. split_and!; try done. intros []. by constructor.
Qed.

Lemma repoint_wf d s : vset_wf s → vset_wf (repoint d <$> s) ∧
  ∀ a, vma_find (repoint d <$> s) a = match vma_find s a with Some v => Some (repoint d v) | None => None end.
Proof.
  intros Hs. assert (Hlive : ∀ v, live (repoint d v) ↔ live v) by (intros v; unfold live; by rewrite (proj1 (proj2 (proj2 (proj2 (repoint_fields d v)))))).
  assert (Hs' : vset_wf (repoint d <$> s)).
  { constructor; rewrite ?length_fmap.
    - apply Hs.
    - intros i Hi. rewrite aget_fmap by done. rewrite Hlive. intros Hl. by apply repoint_fields, (vw_ok s Hs).
    - intros i j Hi Hj Hij. rewrite !aget_fmap by done. rewrite !Hlive. intros Hl1 Hl2. unfold disjoint.
      destruct (repoint_fields d s.[i]) as (-> & -> & _), (repoint_fields d s.[j]) as (-> & -> & _). by apply (vw_disjoint s Hs). }
  split; [done|]. intros a. destruct (vma_find s a) as [v|] eqn:E.
  - apply vma_find_Some in E as (i & Hi & _ & <- & Hl & Ha). rewrite <- aget_fmap by done.
    apply (vma_find_at _ i a Hs'); [by rewrite length_fmap|rewrite aget_fmap by done; by rewrite Hlive|]. rewrite aget_fmap by done.
    destruct (repoint_fields d s.[i]) as (-> & -> & _). done.
  - destruct (vma_find (repoint d <$> s) a) as [u|] eqn:E'; [|done]. apply vma_find_Some in E' as (i & Hi & _ & <- & Hl & Ha).
    rewrite length_fmap in Hi. rewrite aget_fmap in Hl, Ha by done. rewrite Hlive in Hl. destruct (repoint_fields d s.[i]) as (E1 & E2 & _). rewrite E1, E2 in Ha.
    by destruct (vma_find_None s a E i Hi Hl).
Qed.

(** The regions of a process that has not run yet: what the loader sets up. *)
Record proc_new_ok (c : proc) : Prop := {
  pn_wf : vset_wf (p_vmas c);
  pn_regions : ∀ i, 0 ≤ i < zlen (p_vmas c) → live (p_vmas c).[i] → region_ok c (p_vmas c).[i];
  pn_brk : (4096 | brk_cur c) ∧ USER_CODE_BASE ≤ brk_start c ≤ brk_cur c ∧ brk_cur c ≤ USER_MMAP_BASE;
  pn_arena : (4096 | mmap_next c) ∧ USER_MMAP_BASE ≤ mmap_next c ≤ USER_MMAP_END
}.

Section system.
Context {A : Type} {ops : FrameOps A} {laws : FrameLaws A}.
Abbreviation state := (vm A).

Definition sys : Type := list proc * state.
Definition kroot (st : state) : Z := Z.land (kspace st) ADDRESS_MASK.
Definition roots_of (s : sys) : list Z := (p_space <$> s.1) ++ [kroot s.2].

Inductive sys_step : sys → sys → Prop :=
  | ss_brk l1 c l2 st nb st' c' r : is_u64 nb → ksys_brk st (Some c) nb = (st', Some c', r) →
      sys_step (l1 ++ c :: l2, st) (l1 ++ c' :: l2, st')
  | ss_mmap l1 c l2 st img cache iv fi len prot flags fd off st' c' r :
      match fi with Some fi => fb_ok fi | None => True end → 0 ≤ off → is_u64 len →
      ksys_mmap6 st img cache iv fi (Some c) len prot flags fd off = (st', Some c', r) →
      sys_step (l1 ++ c :: l2, st) (l1 ++ c' :: l2, st')
  | ss_munmap l1 c l2 st addr len st' c' r : is_u64 len → ksys_munmap st (Some c) addr len = (st', Some c', r) →
      sys_step (l1 ++ c :: l2, st) (l1 ++ c' :: l2, st')
  | ss_mprotect l1 c l2 st addr len prot st' c' r : is_u64 len → ksys_mprotect st (Some c) addr len prot = (st', Some c', r) →
      sys_step (l1 ++ c :: l2, st) (l1 ++ c' :: l2, st')
  | ss_fault l1 c l2 st img cache addr err st' rc : cache_ok cache →
      vmm_try_handle_page_fault st img cache (Some (p_space c, p_vmas c)) addr err = (st', rc) →
      sys_step (l1 ++ c :: l2, st) (l1 ++ c :: l2, st')
  | ss_store l c st va x : c ∈ l → 0 ≤ va < VMM_USER_TOP → writable (leaf (vmem st) (p_space c) (va / 4096)) = true →
      owns_frame (leaf (vmem st) (p_space c) (va / 4096)) = true → is_u64 x →
      sys_step (l, st) (l, user_store st (p_space c) va x)
  | ss_fork l c st kok d st' res : c ∈ l → vmm_fork_space st (Some (p_space c)) kok = (st', res) →
      sys_step (l, st) (match res with Some r => fork_proc c r d :: l | None => l end, st')
  | ss_exit l1 c l2 st st' rc : vmm_space_destroy st (Some (p_space c)) = (st', rc) →
      sys_step (l1 ++ c :: l2, st) (l1 ++ l2, st')
  | ss_spawn l c st kok st' : vmm_space_create_user st kok = (st', Some (p_space c)) → proc_new_ok c →
      sys_step (l, st) (c :: l, st')
  | ss_spawn_fail l st kok st' : vmm_space_create_user st kok = (st', None) → sys_step (l, st) (l, st').

Record sys_ok (s : sys) : Prop := {
  so_nodup : NoDup (roots_of s);
  so_inv : vm_inv (roots_of s) s.2;
  so_procs : ∀ c, c ∈ s.1 → proc_ok (roots_of s) s.2 c
}.

Lemma so_kernel s : kernel_ok (roots_of s) s.2.
Proof. unfold kernel_ok, roots_of. apply elem_of_app. right. by left. Qed.

Lemma proc_leaves roots roots' (st st' : state) c : proc_ok roots st c → p_space c ∈ roots' →
  (∀ w, upage w → leaf (vmem st') (p_space c) w = leaf (vmem st) (p_space c) w) → proc_ok roots' st' c.
Proof.
  intros [P1 P2 P3 P4 P5 P6 P7] Hr Hl. constructor; try done.
  - intros w v Hw. rewrite Hl by done. by apply P4.
  - intros w Hw. rewrite Hl by done. by apply P5.
Qed.

Lemma in_roots l (st : state) c : c ∈ l → p_space c ∈ roots_of (l, st).
Proof. intros Hc. unfold roots_of. apply elem_of_app. left. by apply list_elem_of_fmap_2. Qed.

(** A call of one process. *)
Lemma sys_update l1 c c' l2 (st st' : state) R : sys_ok (l1 ++ c :: l2, st) → p_space c' = p_space c →
  pages_changed (roots_of (l1 ++ c :: l2, st)) st st' (p_space c) R → proc_ok (roots_of (l1 ++ c :: l2, st)) st' c' →
  sys_ok (l1 ++ c' :: l2, st').
Proof.
  intros [S1 S2 S3] Esp Hpg Hp'. set (roots := roots_of (l1 ++ c :: l2, st)) in *.
  assert (Er : roots_of (l1 ++ c' :: l2, st') = roots).
  { unfold roots, roots_of, kroot. cbn [fst snd]. by rewrite !fmap_app, !fmap_cons, Esp, (pg_kspace _ _ _ _ _ Hpg). }
  constructor; rewrite Er; [done|apply Hpg|]. cbn [fst snd] in *. intros x [Hx|[->|Hx]%elem_of_cons]%elem_of_app; [|done|].
  - assert (Hxin : x ∈ l1 ++ c :: l2) by (apply elem_of_app; by left). apply (proc_other roots st st' x (p_space c) R Hpg); [|by apply S3].
    intros E. unfold roots, roots_of in S1. cbn [fst] in S1. rewrite fmap_app, fmap_cons, <- app_assoc in S1. apply NoDup_app in S1 as (_ & S1 & _).
    apply (S1 (p_space x)); [by apply list_elem_of_fmap_2|]. rewrite E. apply elem_of_app. left. by left.
  - assert (Hxin : x ∈ l1 ++ c :: l2) by (apply elem_of_app; right; by right). apply (proc_other roots st st' x (p_space c) R Hpg); [|by apply S3].
    intros E. unfold roots, roots_of in S1. cbn [fst] in S1. rewrite fmap_app, fmap_cons, <- app_assoc in S1. apply NoDup_app in S1 as (_ & _ & S1).
    cbn in S1. apply NoDup_cons in S1 as [S1 _]. apply S1. rewrite <- E. apply elem_of_app. left. by apply list_elem_of_fmap_2.
Qed.

(** ** Fork *)

Lemma fits_nx v e e' : page_fits v e → (is_present e' = true → is_present e = true ∧ flag e' VMM_FLAG_NOEXEC = flag e VMM_FLAG_NOEXEC) → page_fits v e'.
Proof. intros Hf Hx Hp Hrw. destruct (Hx Hp) as [H1 ->]. by apply Hf. Qed.

Lemma proc_forked roots (st st' : state) c : vm_inv roots st → fork_kept roots st st' (p_space c) → proc_ok roots st c → proc_ok roots st' c.
Proof.
  intros Hinv Hk Hp. pose proof Hp as [P1 P2 P3 P4 P5 P6 P7].
  assert (Hl : ∀ w, upage w → leaf (vmem st') (p_space c) w = leaf (vmem st) (p_space c) w ∨ leaf (vmem st') (p_space c) w = fork_parent (leaf (vmem st) (p_space c) w)).
  { intros w Hw. destruct (decide (W_LO ≤ w < W_HI)) as [Hi|Hi]; [by apply (fk_parent _ _ _ _ Hk)|]. left. apply (fk_rest _ _ _ _ Hk); [done|done|by right]. }
  constructor; try done.
  - intros w v Hw Hv. specialize (P4 w v Hw Hv). destruct (Hl w Hw) as [->|E]; [done|]. destruct (leaf_facts roots st _ w Hinv P1 Hw) as [He Hpg].
    apply (fits_nx v _ _ P4). rewrite E. by apply fork_nx.
  - intros w Hw Hg. specialize (P5 w Hw Hg). destruct (Hl w Hw) as [->| ->]; [done|]. by destruct (fork_nothing _ P5) as (-> & _).
Qed.

Lemma proc_child roots (st st' : state) c ch d : vm_inv roots st → fork_made roots st st' (p_space c) ch → proc_ok roots st c →
  proc_ok (ch :: roots) st' (fork_proc c ch d).
Proof.
  intros Hinv Hm Hp. pose proof Hp as [P1 P2 P3 P4 P5 P6 P7]. destruct (repoint_wf d (p_vmas c) P2) as [Hwf Hf].
  assert (Hl : ∀ w, upage w → leaf (vmem st') ch w = 0 ∨ leaf (vmem st') ch w = fork_child (leaf (vmem st) (p_space c) w)).
  { intros w Hw. destruct (decide (W_LO ≤ w < W_HI)) as [Hi|Hi]; [by apply (fm_child _ _ _ _ _ Hm)|]. left. by apply (fm_rest _ _ _ _ _ Hm). }
  constructor; cbn [fork_proc p_space p_vmas brk_start brk_cur mmap_next]; try done.
  - by left.
  - intros i Hi. rewrite length_fmap in Hi. rewrite aget_fmap by done. destruct (repoint_fields d (p_vmas c).[i]) as (E1 & E2 & E3 & E4 & E5 & E6 & _).
    unfold live. rewrite E4. intros Hli. destruct (P3 i Hi Hli) as [H1 H2 H3 H4 H5 H6 H7]. constructor; cbn; unfold clean in *; rewrite ?E1, ?E2, ?E3, ?E4, ?E5; try done. auto.
  - intros w u Hw. rewrite Hf. destruct (vma_find (p_vmas c) (w * 4096)) as [v|] eqn:E; [|done]. intros [= <-].
    destruct (repoint_fields d v) as (_ & _ & E3 & _). unfold page_fits. rewrite E3. destruct (Hl w Hw) as [->|El]; [done|].
    destruct (leaf_facts roots st _ w Hinv P1 Hw) as [He Hpg]. apply (fits_nx v _ _ (P4 w v Hw E)). rewrite El. by apply fork_nx.
  - intros w Hw Hg. specialize (P5 w Hw Hg). destruct (Hl w Hw) as [->| ->]; [done|]. by destruct (fork_nothing _ P5) as (_ & -> & _).
Qed.

Lemma sys_fork l c (st : state) kok d st' res : sys_ok (l, st) → c ∈ l → vmm_fork_space st (Some (p_space c)) kok = (st', res) →
  sys_ok (match res with Some r => fork_proc c r d :: l | None => l end, st').
Proof.
  intros Hs Hc E. pose proof Hs as [S1 S2 S3]. cbn [fst snd] in *. set (roots := roots_of (l, st)) in *.
  destruct (fork_spec roots st (p_space c) kok st' res S2 (so_kernel (l, st)) (in_roots l st c Hc) E) as [Hk Hres].
  assert (Er : roots_of (l, st') = roots) by (unfold roots, roots_of, kroot; cbn [fst snd]; by rewrite (fk_kspace _ _ _ _ Hk)).
  assert (Hall : ∀ x, x ∈ l → proc_ok roots st' x).
  { intros x Hx. specialize (S3 x Hx). destruct (decide (p_space x = p_space c)) as [Ex|Ex]; [apply proc_forked with st; [done|by rewrite Ex|done]|].
    apply (proc_leaves roots roots st st' x S3); [by apply in_roots|]. intros w Hw. apply (fk_rest _ _ _ _ Hk); [by apply in_roots|done|by left]. }
  destruct res as [ch|]; [|constructor; rewrite Er; [done|apply Hk|done]]. destruct Hres as [Hm _].
  assert (Er' : roots_of (fork_proc c ch d :: l, st') = ch :: roots) by (unfold roots_of; cbn [fst snd]; rewrite fmap_cons; cbn [app]; f_equal; exact Er).
  constructor; rewrite Er'.
  - apply NoDup_cons. split; [apply Hm|done].
  - apply Hm.
  - cbn [fst snd]. intros x [->|Hx]%elem_of_cons; [by apply proc_child with st; [| |apply S3]|].
    apply (proc_leaves roots (ch :: roots) st' st' x); [by apply Hall|right; by apply in_roots|done].
Qed.

(** ** Creation and exit *)

Lemma sys_spawn l c (st : state) kok st' : sys_ok (l, st) → vmm_space_create_user st kok = (st', Some (p_space c)) → proc_new_ok c → sys_ok (c :: l, st').
Proof.
  intros [S1 S2 S3] E [N1 N2 N3 N4]. cbn [fst snd] in *. set (roots := roots_of (l, st)) in *.
  destruct (create_spec roots st kok st' _ S2 (so_kernel (l, st)) E) as (Hok & _ & _ & Hn & Hi & H0 & _).
  assert (Er : roots_of (c :: l, st') = p_space c :: roots).
  { unfold roots, roots_of, kroot. cbn [fst snd]. by rewrite (ok_kspace _ _ _ Hok). }
  constructor; rewrite Er; [apply NoDup_cons; done|done|]. cbn [fst snd]. intros x [->|Hx]%elem_of_cons.
  - constructor; try done; [by left|..]; intros w; [intros v Hw _|intros Hw _]; by rewrite H0.
  - apply (proc_leaves roots _ st st' x (S3 x Hx)); [right; by apply in_roots|]. intros w Hw. apply (ok_leaves _ _ _ Hok); [by apply in_roots|done].
Qed.

Lemma sys_spawn_fail l (st : state) kok st' : sys_ok (l, st) → vmm_space_create_user st kok = (st', None) → sys_ok (l, st').
Proof.
  intros [S1 S2 S3] E. cbn [fst snd] in *. set (roots := roots_of (l, st)) in *.
  destruct (create_spec roots st kok st' _ S2 (so_kernel (l, st)) E) as (Hok & _).
  assert (Er : roots_of (l, st') = roots) by (unfold roots, roots_of, kroot; cbn [fst snd]; by rewrite (ok_kspace _ _ _ Hok)).
  constructor; rewrite Er; [done|apply Hok|]. cbn [fst snd]. intros x Hx.
  apply (proc_leaves roots _ st st' x (S3 x Hx)); [by apply in_roots|]. intros w Hw. apply (ok_leaves _ _ _ Hok); [by apply in_roots|done].
Qed.

Lemma sys_exit l1 c l2 (st : state) st' rc : sys_ok (l1 ++ c :: l2, st) → vmm_space_destroy st (Some (p_space c)) = (st', rc) → sys_ok (l1 ++ l2, st').
Proof.
  intros [S1 S2 S3] E. cbn [fst snd] in *. set (rest := roots_of (l1 ++ l2, st)).
  assert (Hperm : roots_of (l1 ++ c :: l2, st) ≡ₚ p_space c :: rest).
  { unfold rest, roots_of. cbn [fst snd]. rewrite !fmap_app, fmap_cons. rewrite <- !app_assoc. cbn [app]. symmetry. apply Permutation_middle. }
  rewrite Hperm in S1. apply NoDup_cons in S1 as [Hn S1].
  assert (Hi : vm_inv (p_space c :: rest) st) by (apply (vm_inv_roots (roots_of (l1 ++ c :: l2, st))); [intros r; by rewrite Hperm|done]).
  destruct (destroy_spec rest st (p_space c) Hi Hn) as (st1 & E1 & Hd). rewrite E in E1. injection E1 as <- ->.
  assert (Er : roots_of (l1 ++ l2, st') = rest) by (unfold rest, roots_of, kroot; cbn [fst snd]; by rewrite (proj1 (ds_kept _ _ _ _ Hd))).
  constructor; rewrite Er; [done|apply Hd|]. cbn [fst snd]. intros x Hx. pose proof (in_roots (l1 ++ l2) st x Hx) as Hr. fold rest in Hr.
  apply (proc_leaves (roots_of (l1 ++ c :: l2, st)) _ st st' x); [|done|intros w Hw; by apply (ds_leaves _ _ _ _ Hd)].
  apply S3. rewrite elem_of_app in *. destruct Hx; [by left|right; by right].
Qed.

(** ** Every step *)

Lemma sys_step_ok s s' : sys_ok s → sys_step s s' → sys_ok s'.
Proof.
  intros Hs Hstep. destruct Hstep as [l1 c l2 st nb st' c' r Hn E|l1 c l2 st img cache iv fi len prot flags fd off st' c' r Hfb Hoff Hlen E
    |l1 c l2 st addr len st' c' r Hlen E|l1 c l2 st addr len prot st' c' r Hlen E|l1 c l2 st img cache addr err st' rc Hca E
    |l c st va x Hc Hva Hw Ho Hx|l c st kok d st' res Hc E|l1 c l2 st st' rc E|l c st kok st' E Hnew|l st kok st' E].
  1-5: assert (Hinv := so_inv _ Hs); assert (Hp := so_procs _ Hs c ltac:(apply elem_of_app; right; by left)); cbn [fst snd] in *.
  - destruct (brk_ok _ st c nb st' _ r Hinv Hp Hn E) as (c1 & [= <-] & Hp' & Hd).
    destruct Hd as [|s' b|st' s' b Hb Db Hpg]; eapply (sys_update l1 c _ l2 st _ (λ _, True)); try done; [by apply pages_changed_refl..|].
    destruct Hpg as [G1 G2 G3 G4]. constructor; try done; [intros r' v Hr' Hv Hno; apply G3|intros r' va Hr' Hv Hno; apply G4]; try done; intros [? _]; by apply Hno.
  - destruct (mmap_ok _ st img cache iv fi c len prot flags fd off st' _ r Hinv Hp Hfb Hoff Hlen E) as [(-> & [= <-] & _)|(c1 & t & b & _ & [= <-] & Hp' & _ & f & Hm & _)]; [done|].
    apply (sys_update l1 c _ l2 st _ _ Hs (mm_space _ _ _ _ _ _ _ _ _ Hm) (mm_pages _ _ _ _ _ _ _ _ _ Hm) Hp').
  - destruct (munmap_ok _ st c addr len st' _ r Hinv Hp Hlen E) as [(_ & _ & -> & [= <-])|(s' & _ & _ & [= ->] & Hp' & Hpg & _)]; [done|].
    by apply (sys_update l1 c (set_vmas c s') l2 st _ _ Hs eq_refl Hpg).
  - destruct (mprotect_ok _ st c addr len prot st' _ r Hinv Hp Hlen E) as (s' & [= ->] & Hp' & [(_ & -> & _)|(_ & _ & _ & Hpg & _)]).
    + apply (sys_update l1 c (set_vmas c s') l2 st st (λ _, True) Hs eq_refl); [by apply pages_changed_refl|done].
    + by apply (sys_update l1 c (set_vmas c s') l2 st _ _ Hs eq_refl Hpg).
  - destruct (fault_ok _ st c img cache addr err st' rc Hinv Hp Hca E) as [Hp' Hpg]. by apply (sys_update l1 c c l2 st _ _ Hs eq_refl Hpg).
  - pose proof Hs as [S1 S2 S3]. cbn [fst snd] in *. pose proof (in_roots l st c Hc) as Hr.
    assert (Er : roots_of (l, user_store st (p_space c) va x) = roots_of (l, st)) by done.
    constructor; rewrite Er; [done|by apply store_inv|]. cbn [fst snd]. intros y Hy. apply (proc_leaves _ _ st _ y (S3 y Hy)); [by apply in_roots|].
    intros w Hw'. apply (tables_ext (roots_of (l, st))); [|by apply in_roots|done]. by apply store_entries.
  - by apply (sys_fork l c st kok d).
  - by apply (sys_exit l1 c l2 st st' rc).
  - by apply (sys_spawn l c st kok).
  - by apply (sys_spawn_fail l st kok).
Qed.

Lemma sys_reach s s' : sys_ok s → rtc sys_step s s' → sys_ok s'.
Proof. intros H Hr. induction Hr as [|s s1 s2 H1 _ IH]; [done|]. apply IH. by apply (sys_step_ok s). Qed.
End system.
