(* ===== verification/VmProps.v ===== *)
(** * What the virtual memory manager guarantees

    The properties of [src/mm/vmm.c], each about one operation on address
    spaces or about every state that sequences of them reach, for any frame
    allocator with the laws of [Frames]; the witnesses run the operations on
    the physical allocator of [Pmm] with a kernel space and one or two user
    spaces. *)

From S2P Require Import Prelude PmmRange PmmSection Pmm PmmRef Vma Frames Vmm VmmWf VmmInv VmmOps VmmFault VmSpace VmWalk VmCreate VmFork VmDestroy VmSafe VmReach MmSyscall MmRange MmRegions MmProc MmMmap MmSystem.

#[local] Opaque window_names pages_below shares_below leaf fork_parent fork_child.

(** ** A machine to run the operations on *)

(** One kernel space; then a user space; then a page demanded in it; then its
    fork. *)
Definition demo_kspace : Z := 0x10003c000.
Definition demo0 : vm pmm := mk_vm (λ _, 0) (pmm_alloc_frame pmm_demo).1 demo_kspace [].
Definition demo_space : Z := 0x10003d000.
Definition demo1 : vm pmm := (vmm_space_create_user demo0 true).1.
Definition demo_regions : vset :=
  [mk_vma 0x100000000 0x100002000 (Z.lor (Z.lor VMM_FLAG_USER VMM_FLAG_RW) VMM_FLAG_NOEXEC) VMA_TYPE_ANON 0 0 0 0 0 0 0].
Definition demo2 : vm pmm :=
  (vmm_try_handle_page_fault demo1 (λ _, 0) (λ _ _, None) (Some (demo_space, demo_regions)) 0x100000010 6).1.
Definition demo_child : Z := 0x100042000.
Definition demo3 : vm pmm := (vmm_fork_space demo2 (Some demo_space) true).1.

Lemma inv_nil {A} `{FrameLaws A} (st : vm A) : fa_inv (vfr st) → (∀ x, is_u64 (vmem st x)) → vm_inv [] st.
Proof.
  intros Hi Hu. constructor; constructor; try done; try (intros ? ? ? [? _]; set_solver); try (intros ? ? ? ? [? _]; set_solver);
    try (intros ? ? ? ? ? [? _]; set_solver); try set_solver.
  - intros f. exists 0. split; [|left; by apply fa_ref_range]. exists []. split_and!; [constructor| |done].
    intros x. split; [by intros ?%elem_of_nil|]. intros [Hx _]. by apply elem_of_nil in Hx.
  - intros f x [Hx _]. by apply elem_of_nil in Hx.
Qed.

Lemma demo0_inv : vm_inv [demo_kspace] demo0.
Proof.
  assert (Ha : fa_inv (vfr demo0) ∧ fa_ref (vfr demo0) demo_kspace = 1).
  { destruct (pmm_alloc_frame pmm_demo) as [a p] eqn:E. pose proof (fa_alloc_law (A := pmm) pmm_demo a p pmm_demo_client E) as H.
    assert (Hp : p = demo_kspace) by (transitivity (snd (pmm_alloc_frame pmm_demo)); [by rewrite E|vm_compute; reflexivity]).
    unfold demo0. cbn [vfr]. rewrite E. cbn [fst]. destruct H as [[H _]|(Hi & _ & Hr)]; [by rewrite Hp in H|].
    split; [done|]. by rewrite Hr, Hp, Z.eqb_refl. }
  destruct Ha as [Hi Hr]. assert (Hn : vm_inv [] demo0) by (apply inv_nil; [done|intros x; unfold is_u64; cbn; lia]).
  apply (add_root [] demo0 demo_kspace); [done| |done|done|done].
  split; [apply (fa_ref_page (vfr demo0)); [done|by rewrite Hr]|].
  split; [intros r p [Hx _]|intros x [Hx _]]; by apply elem_of_nil in Hx.
Qed.

Lemma demo0_ok : sys_ok ([], demo0).
Proof. constructor; [apply NoDup_singleton|apply demo0_inv|]. intros c Hc. by apply elem_of_nil in Hc. Qed.


Lemma demo1_eq : vmm_space_create_user demo0 true = (demo1, Some demo_space).
Proof.
  unfold demo1. assert (H : (vmm_space_create_user demo0 true).2 = Some demo_space) by (vm_compute; reflexivity).
  destruct (vmm_space_create_user demo0 true) as [st res]. cbn [fst snd] in *. by rewrite H.
Qed.

Lemma demo1_empty v : upage v → leaf (vmem demo1) demo_space v = 0.
Proof.
  destruct (create_spec [demo_kspace] demo0 true demo1 _ demo0_inv (so_kernel ([], demo0)) demo1_eq) as (_ & _ & _ & _ & _ & H & _). apply H.
Qed.

Lemma demo_regions_wf : vset_wf demo_regions.
Proof.
  assert (Hi : ∀ i, 0 ≤ i < zlen demo_regions → i = 0) by (simpl; lia).
  constructor.
  - done.
  - intros i ->%Hi Hl. constructor; simpl; unfold VMM_USER_TOP; split_and!; try lia; by apply Z.mod_divide.
  - intros i j ->%Hi ->%Hi. done.
Qed.

Lemma demo_regions_find a v : vma_find demo_regions a = Some v → v = demo_regions.[0] ∧ 0x100000000 ≤ a < 0x100002000.
Proof.
  intros (i & Hi & _ & <- & _ & Ha)%vma_find_Some. assert (i = 0) as -> by (simpl in Hi; lia). split; [done|exact Ha].
Qed.

Definition demo_proc : proc := mk_proc demo_space demo_regions USER_HEAP_BASE USER_HEAP_BASE USER_MMAP_BASE 0 (replicate 32 (mk_fd false false false 0 0)).

Lemma demo_proc_ok : proc_new_ok demo_proc.
Proof.
  constructor.
  - apply demo_regions_wf.
  - intros i Hi _. assert (i = 0) as -> by (simpl in Hi; lia).
    change ((p_vmas demo_proc).[0]) with (mk_vma 0x100000000 0x100002000 (v_flags demo_regions.[0]) VMA_TYPE_ANON 0 0 0 0 0 0 0).
    constructor; try done; cbn; unfold clean, USER_HEAP_BASE, USER_MMAP_BASE; cbn; lia.
  - cbn. unfold USER_CODE_BASE, USER_HEAP_BASE, USER_MMAP_BASE. split_and!; try lia. by apply Z.mod_divide.
  - cbn. unfold USER_MMAP_END, USER_MMAP_BASE. split_and!; try lia. by apply Z.mod_divide.
Qed.

Lemma demo1_step : sys_step ([], demo0) ([demo_proc], demo1).
Proof. apply (ss_spawn [] demo_proc demo0 true demo1 demo1_eq demo_proc_ok). Qed.

Lemma demo1_ok : sys_ok ([demo_proc], demo1).
Proof. apply (sys_step_ok _ _ demo0_ok demo1_step). Qed.

Lemma demo2_eq :
  vmm_try_handle_page_fault demo1 (λ _, 0) (λ _ _, None) (Some (demo_space, demo_regions)) 0x100000010 6 = (demo2, 0).
Proof.
  unfold demo2. set (f := vmm_try_handle_page_fault _ _ _ _ _ _).
  assert (H : f.2 = 0) by (vm_compute; reflexivity). destruct f as [st rc]. cbn [fst snd] in *. by rewrite H.
Qed.

Lemma demo2_step : sys_step ([demo_proc], demo1) ([demo_proc], demo2).
Proof. apply (ss_fault [] demo_proc [] demo1 (λ _, 0) (λ _ _, None) 0x100000010 6 demo2 0); [done|apply demo2_eq]. Qed.

Lemma demo2_ok : sys_ok ([demo_proc], demo2).
Proof. apply (sys_step_ok _ _ demo1_ok demo2_step). Qed.

Lemma demo3_eq : vmm_fork_space demo2 (Some demo_space) true = (demo3, Some demo_child).
Proof.
  unfold demo3. set (f := vmm_fork_space _ _ _).
  assert (H : f.2 = Some demo_child) by (vm_compute; reflexivity). destruct f as [st res]. cbn [fst snd] in *. by rewrite H.
Qed.

(** The child runs in its own space, with the same regions. *)
Definition demo_proc2 : proc := fork_proc demo_proc demo_child 0.

Lemma demo3_step : sys_step ([demo_proc], demo2) ([demo_proc2; demo_proc], demo3).
Proof. apply (ss_fork [demo_proc] demo_proc demo2 true 0 demo3 _ ltac:(by left) demo3_eq). Qed.

Lemma demo3_ok : sys_ok ([demo_proc2; demo_proc], demo3).
Proof. apply (sys_step_ok _ _ demo2_ok demo3_step). Qed.

Section props.
Context {A : Type} {ops : FrameOps A} {laws : FrameLaws A}.
Abbreviation state := (vm A).

(** ** Every reachable state *)

(** C1. Processes are isolated: from any good state, after any sequence of
    brk, mmap, munmap, mprotect, page faults, forks, process creations, exits
    and stores of the running programs, a store by one program to a page it may
    write never changes what is read at any other page, of its own or of
    another process. *)
Theorem processes_isolated (s : sys) l (st : state) c va c' va' x :
  sys_ok s → rtc sys_step s (l, st) → c ∈ l → c' ∈ l → 0 ≤ va < VMM_USER_TOP → 0 ≤ va' < VMM_USER_TOP →
  (p_space c, va / 4096) ≠ (p_space c', va' / 4096) →
  writable (leaf (vmem st) (p_space c) (va / 4096)) = true → owns_frame (leaf (vmem st) (p_space c) (va / 4096)) = true →
  is_present (leaf (vmem st) (p_space c') (va' / 4096)) = true → owns_frame (leaf (vmem st) (p_space c') (va' / 4096)) = true →
  is_u64 x →
  user_load (user_store st (p_space c) va x) (p_space c') va' = user_load st (p_space c') va'.
Proof.
  intros Hs Hr Hc Hc'. intros. destruct (sys_reach _ _ Hs Hr) as [_ Hinv _].
  apply (store_isolated (roots_of (l, st))); try done; by apply in_roots.
Qed.

(** C2. In every state such sequences reach: no region and no page of a
    process is both writable and executable; a page of a writable region is
    not executable; no page gives access to a page table, and a page with a
    frame names one in use; a writable page has its frame for itself; and no
    process can access the kernel half. *)
Theorem processes_protected (s : sys) l (st : state) c :
  sys_ok s → rtc sys_step s (l, st) → c ∈ l →
  (∀ a v, vma_find (p_vmas c) a = Some v → wx (v_flags v) = false) ∧
  (∀ w, upage w → let e := leaf (vmem st) (p_space c) w in
     (is_present e = true → wx e = false ∧
        ∀ v, vma_find (p_vmas c) (w * 4096) = Some v → flag (v_flags v) VMM_FLAG_RW = true → flag e VMM_FLAG_NOEXEC = true) ∧
     (owns_frame e = true → fa_ref (vfr st) (frame_of e) ≠ 0 ∧
        (∀ r' p, ¬ table_of (roots_of (l, st)) (vmem st) r' p (frame_of e)) ∧
        (writable e = true → ∀ c' w', c' ∈ l → upage w' → names (leaf (vmem st) (p_space c') w') (frame_of e) = true →
           p_space c' = p_space c ∧ w' = w))) ∧
  (∀ i, 256 ≤ i < 512 → is_present (vmem st (slot (p_space c) i)) = true → flag (vmem st (slot (p_space c) i)) VMM_FLAG_USER = false).
Proof.
  intros Hs Hreach Hc. destruct (sys_reach _ _ Hs Hreach) as [_ Hinv Hps]. cbn [fst snd] in *. set (roots := roots_of (l, st)) in *.
  pose proof (in_roots l st c Hc) as Hr. fold roots in Hr. pose proof (Hps c Hc) as Hp.
  split; [intros a v Hv; apply (po_find _ _ _ _ _ Hp Hv)|]. split; [|intros i; by apply (fw_kernel _ _ (vi_frames _ _ Hinv))].
  intros w Hw. set (e := leaf _ _ w). split.
  - intros Hpr. split; [apply (fw_ok _ _ (vi_frames _ _ Hinv) _ w Hr Hw Hpr)|]. intros v Hv. by apply (po_fits _ _ _ Hp w v Hw Hv).
  - intros Ho. assert (Hm : mapped roots (vmem st) (frame_of e) (p_space c, w)) by (split_and!; [done|done|by apply names_owns]).
    split_and!; [by apply (mapped_ref roots st _ (p_space c, w))|intros r' p; by apply (fw_data _ _ (vi_frames _ _ Hinv) _ (p_space c, w))|].
    intros Hwr c' w' Hc' Hw' Hn. destruct (decide ((p_space c', w') = (p_space c, w))) as [[= -> ->]|Hne]; [done|].
    pose proof (mapped_two roots st _ (p_space c', w') (p_space c, w) Hinv ltac:(split_and!; [by apply in_roots|done|done]) Hm Hne) as H2.
    rewrite (fw_private _ _ (vi_frames _ _ Hinv) _ _ Hm Hwr) in H2. lia.
Qed.

(** ** The memory calls *)

(** Every mapped page of the range belongs to a region. *)
Definition backed (st : state) (c : proc) (lo hi : Z) : Prop :=
  ∀ w, lo ≤ w * 4096 < hi → vmm_pte_has_frame (leaf (vmem st) (p_space c) w) = true → ∃ v, vma_find (p_vmas c) (w * 4096) = Some v.


(** C20. [ksys_mprotect] gives exactly the addresses of the range that belong
    to regions the new rights, in the regions and in the pages already there
    (same frames, copy-on-write kept, W^X), and changes no other page or right;
    when it fails the process sees no difference. *)
Theorem ksys_mprotect_correct roots (st : state) c addr len prot st' cur' rc :
  vm_inv roots st → proc_ok roots st c → is_u64 len → ksys_mprotect st (Some c) addr len prot = (st', cur', rc) →
  ∃ s', cur' = Some (set_vmas c s') ∧ vm_inv roots st' ∧ proc_ok roots st' (set_vmas c s') ∧
  ((rc = -1 ∧ st' = st ∧ ∀ a, at_addr s' a = at_addr (p_vmas c) a) ∨
   let end_ := addr + m18_user_span addr len in let newf := m18_prot_to_flags prot in
   rc = 0 ∧ m18_user_span addr len ≠ 0 ∧ flag prot PROT_WRITE && flag prot PROT_EXEC = false ∧
   pages_changed roots st st' (p_space c) (page_covered addr end_ (p_vmas c)) ∧
   (∀ w, page_covered addr end_ (p_vmas c) w → reprotected newf (leaf (vmem st) (p_space c) w) (leaf (vmem st') (p_space c) w)) ∧
   ∀ a, at_addr s' a = match at_addr (p_vmas c) a with
                       | Some (f, t, b) => Some (if (addr <=? a) && (a <? end_) then newf else f, t, b)
                       | None => None
                       end).
Proof.
  intros Hinv Hp Hlen E. destruct (mprotect_ok roots st c addr len prot st' cur' rc Hinv Hp Hlen E) as (s' & E1 & Hp' & Hres).
  exists s'. split_and!; try done. destruct Hres as [(_ & -> & _)|(_ & _ & _ & Hpg & _)]; [done|apply Hpg].
Qed.



(** ** The operations *)

(** [vmm_map_in_space] installs exactly one leaf: it fails, changing no
    mapping, when the page is in use, the flags are writable and executable,
    or no frame is left for a table, and with three free frames it succeeds
    whenever the request is legitimate. *)
Theorem vmm_map_in_space_correct roots (st : state) r v phys flags st' rc :
  vm_inv roots st → r ∈ roots → upage v → page_addr phys → flag_only flags → flag flags VMM_FLAG_PROTNONE = false →
  mappable roots st phys flags →
  vmm_map_in_space st (Some r) (v * 4096) phys flags = (st', rc) →
  vm_inv roots st' ∧ same_data roots st st' ∧
  (∀ q, fa_ref (vfr st) q ≠ 0 → fa_ref (vfr st') q = fa_ref (vfr st) q) ∧
  (rc = 0 → only_leaf roots (vmem st) (vmem st') r v (leaf_entry phys flags)) ∧
  (rc ≠ 0 → same_leaves roots (vmem st) (vmem st')) ∧
  (rc = 0 → wx flags = false ∧ vmm_pte_has_frame (leaf (vmem st) r v) = false) ∧
  (wx flags = false → vmm_pte_has_frame (leaf (vmem st) r v) = false → 3 ≤ fa_avail (vfr st) → rc = 0).
Proof.
  intros Hinv Hr Hv Hp Hf Hpn Hm E.
  destruct (map_spec roots st r v phys flags st' rc Hinv Hr Hv Hp Hf Hm E) as (H1 & H2 & _ & H3 & H4).
  split_and!; [done..|intros ->|intros Hn|intros ->|intros Hx Ho Ha].
  - by destruct H4 as [(_ & _ & _ & ?)|(? & _)].
  - by destruct H4 as [(? & _)|(_ & ? & _)].
  - by destruct H4 as [(_ & ? & ? & _)|(? & _)].
  - by apply (map_succeeds roots st r v phys flags st' rc Hinv Hr Hv Hp Hf Hx Ho Hpn E).
Qed.

(** [vmm_unmap_in_space] removes exactly the leaf of the page, flushes it
    from every TLB and gives up one reference of its frame; an unmapped page
    gives an error and nothing changes. *)
Theorem vmm_unmap_in_space_correct roots (st : state) r v st' rc :
  vm_inv roots st → r ∈ roots → upage v →
  vmm_unmap_in_space st (Some r) (v * 4096) = (st', rc) →
  vm_inv roots st' ∧ same_data roots st st' ∧
  let e := leaf (vmem st) r v in
  if vmm_pte_has_frame e then
    rc = 0 ∧ only_leaf roots (vmem st) (vmem st') r v 0 ∧
    flushes st' = flushes st ++ [(r, v * 4096, 1)] ∧
    ∀ q, fa_ref (vfr st') q = if owns_frame e && (q =? frame_of e) then ref_dropped (fa_ref (vfr st) q) else fa_ref (vfr st) q
  else (rc = -2 ∨ rc = -3) ∧ st' = st.
Proof. exact (unmap_spec roots st r v st' rc). Qed.

(** [vmm_protect_in_space] changes exactly the leaf of the page, to the
    same frame with the new rights: never writable and executable, writable
    only if asked for and not shared (otherwise copy-on-write), parked for
    PROT_NONE; it refuses W+X and unmapped pages without any effect. *)
Theorem vmm_protect_in_space_correct roots (st : state) r v flags st' rc :
  vm_inv roots st → r ∈ roots → upage v → flag_only flags → flag flags VMM_FLAG_DEVICE = false →
  vmm_protect_in_space st (Some r) (v * 4096) flags = (st', rc) →
  vm_inv roots st' ∧ same_data roots st st' ∧ vfr st' = vfr st ∧
  (rc = 0 ∧ wx flags = false ∧ vmm_pte_has_frame (leaf (vmem st) r v) = true ∧
     flushes st' = flushes st ++ [(r, v * 4096, 1)] ∧
     (∃ e shared, only_leaf roots (vmem st) (vmem st') r v e ∧ protected (leaf (vmem st) r v) flags shared e ∧
       (owns_frame (leaf (vmem st) r v) = true → shared = (1 <? fa_ref (vfr st) (frame_of (leaf (vmem st) r v))))) ∨
   st' = st ∧ (rc = -5 ∧ wx flags = true ∨ rc = -3 ∧ vmm_pte_has_frame (leaf (vmem st) r v) = false)).
Proof. exact (protect_spec roots st r v flags st' rc). Qed.

(** C18. [vmm_try_handle_page_fault] either makes the page accessible, by a
    private copy of a copy-on-write frame (same contents, one reference given
    up), by a fresh frame filled with the backing of its region, or by device
    memory of a device region, changing no other page and no data of any frame
    in use; or it returns -1 and changes no mapping. *)
Theorem vmm_try_handle_page_fault_correct roots (st : state) img cache r vmas addr err st' rc :
  vm_inv roots st → r ∈ roots → regions_ok st r vmas → cache_ok cache →
  vmm_try_handle_page_fault st img cache (Some (r, vmas)) addr err = (st', rc) →
  vm_inv roots st' ∧ same_data roots st st' ∧
  (rc = 0 ∧ fault_done roots st st' img cache r vmas addr err ∨ rc = -1 ∧ same_leaves roots (vmem st) (vmem st')).
Proof. exact (handle_fault_spec roots st img cache r vmas addr err st' rc). Qed.

(** [vmm_space_create_user] makes an address space with an empty user
    half and the kernel half of the kernel space without user access, and
    leaves every other space, frame and count as it was; it fails only without
    a descriptor or with fewer than two free frames. *)
Theorem vmm_space_create_user_correct roots (st : state) kok st' res :
  vm_inv roots st → kernel_ok roots st → vmm_space_create_user st kok = (st', res) →
  vm_inv roots st' ∧ same_leaves roots (vmem st) (vmem st') ∧ same_data roots st st' ∧
  (∀ q, fa_ref (vfr st) q ≠ 0 → fa_ref (vfr st') q = fa_ref (vfr st) q) ∧
  match res with
  | Some c => (c ∉ roots) ∧ vm_inv (c :: roots) st' ∧ (∀ v, upage v → leaf (vmem st') c v = 0) ∧
      (∀ i, 256 ≤ i < 512 → vmem st' (slot c i) = shared_entry st i)
  | None => kok = false ∨ fa_avail (vfr st) < 2
  end.
Proof.
  intros Hinv Hk E. destruct (create_spec roots st kok st' res Hinv Hk E) as (H1 & _ & _ & H2).
  split_and!; [apply H1..|]. destruct res; [|done]. by destruct H2 as (? & ? & ? & ? & _).
Qed.

(** ** Fork and destroy *)

Lemma window_page va : USER_CODE_BASE ≤ va < 2 ^ 34 → in_window (va / 4096) ∧ 0 ≤ va < VMM_USER_TOP.
Proof.
  unfold in_window, W_LO, W_HI, USER_CODE_BASE, VMM_USER_TOP. intros Hv.
  split; [|lia]. Z.to_euclidean_division_equations; lia.
Qed.


(** C31. [vmm_space_destroy] frees the tables of the space's user window,
    gives up one reference per page of the window that names a frame, and
    changes no other space, no leaf of another space and no data. *)
Theorem vmm_space_destroy_correct rest (st : state) c :
  vm_inv (c :: rest) st → c ∉ rest →
  ∃ st', vmm_space_destroy st (Some c) = (st', 0) ∧ vm_inv rest st' ∧ same_leaves rest (vmem st) (vmem st') ∧
    (∀ x, (∀ p t, table_of (c :: rest) (vmem st) c p t → in_page t x = false) → vmem st' x = vmem st x) ∧
    (∀ p t, table_of (c :: rest) (vmem st) c p t → walked p → fa_ref (vfr st') t = 0) ∧
    (∀ f, (∀ p t, table_of (c :: rest) (vmem st) c p t → f ≠ t) →
       fa_ref (vfr st') f = drop_n (fa_ref (vfr st) f) (window_names (vmem st) c f)).
Proof.
  intros Hinv Hc. destruct (destroy_spec rest st c Hinv Hc) as (st' & E & Hd). exists st'. by split_and!; [|apply Hd..].
Qed.

(** Destroying the child of a fork gives back every reference the fork
    took: the count of each frame in use (below saturation) is what it was
    before the fork, and no data has changed. *)
Theorem fork_destroy_roundtrip roots (st : state) r st1 c st2 rc :
  vm_inv roots st → kernel_ok roots st → r ∈ roots → 4 * vmm_count_user_pages st (Some r) + 2 ≤ fa_avail (vfr st) →
  vmm_fork_space st (Some r) true = (st1, Some c) → vmm_space_destroy st1 (Some c) = (st2, rc) →
  rc = 0 ∧ vm_inv roots st2 ∧ same_data roots st st2 ∧
  ∀ q, fa_ref (vfr st) q ≠ 0 → fa_ref (vfr st) q + shares_below (vmem st) r q W_HI < REF_MAX →
    fa_ref (vfr st2) q = fa_ref (vfr st) q.
Proof.
  intros Hinv Hk Hr Hroom E Ed. destruct (fork_spec roots st r true st1 _ Hinv Hk Hr E) as [Hkept [Hm Hx]]. specialize (Hx Hroom).
  destruct (destroy_spec roots st1 c (fm_inv _ _ _ _ _ Hm) (fm_new _ _ _ _ _ Hm)) as (s & E2 & Hd).
  rewrite Ed in E2. injection E2 as <- ->.
  assert (Hnt : ∀ q, fa_ref (vfr st) q ≠ 0 → ∀ p t, table_of (c :: roots) (vmem st1) c p t → q ≠ t).
  { intros q Hq p t Ht ->. by rewrite (fm_tables _ _ _ _ _ Hm p t Ht) in Hq. }
  split_and!; [done|apply Hd| |].
  - intros q x Hq Hn Hx0. rewrite (ds_mem _ _ _ _ Hd); [by apply (fk_data _ _ _ _ Hkept q)|]. intros p t Ht.
    destruct (in_page t x) eqn:Ei; [|done]. exfalso. apply (Hnt q Hq p t Ht).
    apply (in_page_unique q t x); [apply (fa_ref_page (vfr st)); [apply Hinv|done]| |done|done].
    apply (table_page _ _ _ _ _ (vi_tabs _ _ (fm_inv _ _ _ _ _ Hm)) Ht).
  - intros q Hq Hlt. rewrite (ds_refs _ _ _ _ Hd q (Hnt q Hq)), (fork_names roots st st1 r c q Hinv Hr Hx), (fe_refs _ _ _ _ Hx q Hq).
    pose proof (shares_below_pos (vmem st) r q W_HI). unfold drop_n. rewrite Z.min_r by lia.
    destruct (Z.eqb_spec (fa_ref (vfr st) q + shares_below (vmem st) r q W_HI) REF_MAX); lia.
Qed.
End props.

(** ** The operations at work *)

#[local] Opaque demo0 demo1 demo2 demo3.

Ltac run := vm_compute; reflexivity.
Ltac bounds := unfold VMM_USER_TOP, USER_CODE_BASE, upage, USER_PAGES, is_u64; lia.

(** The child writes: its page is copied. *)
Definition demo4 : vm pmm :=
  (vmm_try_handle_page_fault demo3 (λ _, 0) (λ _ _, None) (Some (demo_child, demo_regions)) 0x100000010 7).1.

Lemma demo4_eq :
  vmm_try_handle_page_fault demo3 (λ _, 0) (λ _ _, None) (Some (demo_child, demo_regions)) 0x100000010 7 = (demo4, 0).
Proof.
  unfold demo4. set (f := vmm_try_handle_page_fault _ _ _ _ _ _).
  assert (H : f.2 = 0) by run. destruct f as [st rc]. cbn [fst snd] in *. by rewrite H.
Qed.

Lemma demo4_step : sys_step ([demo_proc2; demo_proc], demo3) ([demo_proc2; demo_proc], demo4).
Proof. apply (ss_fault [] demo_proc2 [demo_proc] demo3 (λ _, 0) (λ _ _, None) 0x100000010 7 demo4 0); [done|apply demo4_eq]. Qed.

Lemma demo4_ok : sys_ok ([demo_proc2; demo_proc], demo4).
Proof. apply (sys_step_ok _ _ demo3_ok demo4_step). Qed.

#[local] Opaque demo4.

(** Parent and child after a fork and a copy-on-write fault: the child's store
    is seen by the child and not by the parent. *)
Lemma processes_isolated_witness :
  user_load (user_store demo4 demo_child 0x100000010 77) demo_child 0x100000010 = 77 ∧
  user_load (user_store demo4 demo_child 0x100000010 77) demo_space 0x100000010 = user_load demo4 demo_space 0x100000010.
Proof.
  split; [run|].
  apply (processes_isolated ([], demo0) [demo_proc2; demo_proc] demo4 demo_proc2 0x100000010 demo_proc 0x100000010 77).
  - apply demo0_ok.
  - apply (rtc_l _ _ _ _ demo1_step), (rtc_l _ _ _ _ demo2_step), (rtc_l _ _ _ _ demo3_step), rtc_once, demo4_step.
  - left.
  - right. left.
  - bounds.
  - bounds.
  - cbn [p_space demo_proc2 fork_proc demo_proc]. unfold demo_child, demo_space. intros E. apply (f_equal fst) in E. cbn [fst] in E. lia.
  - run.
  - run.
  - run.
  - run.
  - bounds.
Defined.

Lemma processes_protected_witness :
  wx (leaf (vmem demo4) demo_child 0x100000) = false ∧ writable (leaf (vmem demo4) demo_child 0x100000) = true ∧
  names (leaf (vmem demo4) demo_space 0x100000) (frame_of (leaf (vmem demo4) demo_child 0x100000)) = false.
Proof.
  destruct (processes_protected ([], demo0) [demo_proc2; demo_proc] demo4 demo_proc2 demo0_ok
    (rtc_l _ _ _ _ demo1_step (rtc_l _ _ _ _ demo2_step (rtc_l _ _ _ _ demo3_step (rtc_once _ _ demo4_step)))) ltac:(left)) as (_ & H & _).
  destruct (H 0x100000 ltac:(bounds)) as [H1 H2]. split; [apply H1; run|]. split; [run|].
  destruct (names (leaf (vmem demo4) demo_space 0x100000) (frame_of (leaf (vmem demo4) demo_child 0x100000))) eqn:En; [|reflexivity]. exfalso.
  destruct H2 as (_ & _ & H2); [run|]. destruct (H2 ltac:(run) demo_proc 0x100000 ltac:(right; left) ltac:(bounds) En) as [E _].
  cbn [p_space demo_proc2 fork_proc demo_proc] in E. unfold demo_child, demo_space in E. lia.
Defined.

Definition demo_roots : list Z := [demo_child; demo_space; demo_kspace].
Definition demo_device : Z := Z.lor (Z.lor VMM_FLAG_USER VMM_FLAG_DEVICE) VMM_FLAG_NOEXEC.

Lemma vmm_map_in_space_correct_witness :
  let f := vmm_map_in_space demo4 (Some demo_child) (0x100005 * 4096) 0xFEE00000 demo_device in
  f.2 = 0 ∧ only_leaf demo_roots (vmem demo4) (vmem f.1) demo_child 0x100005 (leaf_entry 0xFEE00000 demo_device).
Proof.
  intros f. assert (Hrc : f.2 = 0) by run. split; [exact Hrc|].
  apply (vmm_map_in_space_correct demo_roots demo4 demo_child 0x100005 0xFEE00000 demo_device f.1 f.2).
  - apply (so_inv _ demo4_ok).
  - left.
  - bounds.
  - split; [unfold PHYS_TOP; lia|]. apply Z.mod_divide; [lia|reflexivity].
  - split; [unfold is_u64; split; [apply Z.leb_le|apply Z.ltb_lt]; run|run].
  - run.
  - left. split; run.
  - apply surjective_pairing.
  - exact Hrc.
Defined.

Lemma vmm_unmap_in_space_correct_witness :
  let f := vmm_unmap_in_space demo4 (Some demo_child) (0x100000 * 4096) in
  f.2 = 0 ∧ only_leaf demo_roots (vmem demo4) (vmem f.1) demo_child 0x100000 0 ∧
  fa_ref (vfr f.1) (frame_of (leaf (vmem demo4) demo_child 0x100000)) = 0.
Proof.
  intros f. destruct (vmm_unmap_in_space_correct demo_roots demo4 demo_child 0x100000 f.1 f.2 (so_inv _ demo4_ok)) as (_ & _ & H);
    [left|bounds|apply surjective_pairing|].
  assert (Hh : vmm_pte_has_frame (leaf (vmem demo4) demo_child 0x100000) = true) by run.
  cbv zeta in H. rewrite Hh in H. destruct H as (H1 & H2 & _ & _). split; [exact H1|]. split; [exact H2|run].
Defined.

Lemma vmm_protect_in_space_correct_witness :
  let f := vmm_protect_in_space demo4 (Some demo_space) (0x100000 * 4096) (Z.lor VMM_FLAG_USER VMM_FLAG_NOEXEC) in
  f.2 = 0 ∧ vfr f.1 = vfr demo4 ∧ writable (leaf (vmem f.1) demo_space 0x100000) = false.
Proof.
  intros f. destruct (vmm_protect_in_space_correct demo_roots demo4 demo_space 0x100000 (Z.lor VMM_FLAG_USER VMM_FLAG_NOEXEC) f.1 f.2
    (so_inv _ demo4_ok)) as (_ & _ & H & _).
  - right. left.
  - bounds.
  - split; [unfold is_u64; split; [apply Z.leb_le|apply Z.ltb_lt]; run|run].
  - run.
  - apply surjective_pairing.
  - split; [run|]. split; [exact H|run].
Defined.

Lemma vmm_try_handle_page_fault_correct_witness :
  fault_done [demo_child; demo_space; demo_kspace] demo3 demo4 (λ _, 0) (λ _ _, None) demo_child demo_regions 0x100000010 7 ∧
  user_load demo4 demo_child 0x100000010 = user_load demo3 demo_child 0x100000010.
Proof.
  destruct (vmm_try_handle_page_fault_correct [demo_child; demo_space; demo_kspace] demo3 (λ _, 0) (λ _ _, None) demo_child demo_regions
    0x100000010 7 demo4 0 (so_inv _ demo3_ok)) as (_ & _ & H).
  - left.
  - apply (proc_regions _ _ _ (so_procs _ demo3_ok demo_proc2 ltac:(left))).
  - intros i p l Hl. discriminate Hl.
  - apply demo4_eq.
  - split; [|run]. destruct H as [[_ H]|[H _]]; [exact H|discriminate H].
Defined.

Lemma vmm_space_create_user_correct_witness :
  vm_inv [demo_space; demo_kspace] demo1 ∧ leaf (vmem demo1) demo_space 0x100000 = 0.
Proof.
  destruct (vmm_space_create_user_correct [demo_kspace] demo0 true demo1 (Some demo_space) demo0_inv (so_kernel ([], demo0)) demo1_eq) as (_ & _ & _ & _ & _ & H1 & H2 & _).
  split; [exact H1|]. apply H2. bounds.
Defined.

Lemma demo2_room : 4 * vmm_count_user_pages demo2 (Some demo_space) + 2 ≤ fa_avail (vfr demo2).
Proof. apply Z.leb_le. run. Qed.


Lemma vmm_space_destroy_correct_witness :
  ∃ st', vmm_space_destroy demo3 (Some demo_child) = (st', 0) ∧ vm_inv [demo_space; demo_kspace] st' ∧
    same_leaves [demo_space; demo_kspace] (vmem demo3) (vmem st').
Proof.
  destruct (vmm_space_destroy_correct [demo_space; demo_kspace] demo3 demo_child (so_inv _ demo3_ok)) as (st' & H1 & H2 & H3 & _).
  - unfold demo_child, demo_space, demo_kspace. intros H. apply elem_of_cons in H as [H|H]; [lia|].
    apply elem_of_cons in H as [H|H]; [lia|]. by apply elem_of_nil in H.
  - exists st'. split; [exact H1|]. split; [exact H2|exact H3].
Defined.

Lemma fork_destroy_roundtrip_witness :
  let f := vmm_space_destroy demo3 (Some demo_child) in
  f.2 = 0 ∧ vm_inv [demo_space; demo_kspace] f.1 ∧
  fa_ref (vfr demo3) (frame_of (leaf (vmem demo2) demo_space 0x100000)) = 2 ∧
  fa_ref (vfr f.1) (frame_of (leaf (vmem demo2) demo_space 0x100000)) = 1.
Proof.
  intros f.
  destruct (fork_destroy_roundtrip [demo_space; demo_kspace] demo2 demo_space demo3 demo_child f.1 f.2 (so_inv _ demo2_ok) (so_kernel ([demo_proc], demo2)) ltac:(left) demo2_room demo3_eq)
    as (H1 & H2 & _ & H3); [apply surjective_pairing|].
  split; [exact H1|]. split; [exact H2|]. split; [run|]. run.
Defined.

(** ** The memory calls on the first process *)

Lemma demo2_proc : proc_ok [demo_space; demo_kspace] demo2 demo_proc.
Proof. apply (so_procs _ demo2_ok demo_proc ltac:(left)). Qed.

Lemma pair3 {X Y Z'} (f : X * Y * Z') : f = (f.1.1, f.1.2, f.2).
Proof. by destruct f as [[? ?] ?]. Qed.


Lemma ksys_mprotect_correct_witness :
  let f := ksys_mprotect demo2 (Some demo_proc) 0x100000000 4096 PROT_READ in
  f.2 = 0 ∧ writable (leaf (vmem demo2) demo_space 0x100000) = true ∧
  is_present (leaf (vmem f.1.1) demo_space 0x100000) = true ∧ writable (leaf (vmem f.1.1) demo_space 0x100000) = false.
Proof.
  intros f. destruct (ksys_mprotect_correct [demo_space; demo_kspace] demo2 demo_proc 0x100000000 4096 PROT_READ f.1.1 f.1.2 f.2 (so_inv _ demo2_ok) demo2_proc)
    as (s' & _ & _ & _ & H); [bounds|apply pair3|].
  assert (Hf : f.2 = 0) by run. destruct H as [[H _]|(_ & _ & _ & _ & _ & _)]; [rewrite Hf in H; discriminate H|].
  split; [exact Hf|]. split; [run|]. split; run.
Defined.



(** ** What munmap does to file mappings *)

Definition file_region : vma := mk_vma 0x300000000 0x300003000 VMM_FLAG_USER VMA_TYPE_FILE 0 0 0 0 7 0 0.

(** Trimming the front of a file mapping moves the start of the region and
    leaves its file offset: the remaining addresses are then filled from the
    wrong place of the file. *)
Lemma munmap_front_shifts_file :
  at_addr [file_region] 0x300001000 = Some (VMM_FLAG_USER, VMA_TYPE_FILE, BFile 7 0x1000) ∧
  at_addr (munmap_slot 0x300000000 0x300001000 0 [file_region]) 0x300001000 = Some (VMM_FLAG_USER, VMA_TYPE_FILE, BFile 7 0).
Proof. split; reflexivity. Qed.

(** A hole in the middle of a file mapping drops the region's tail, which was
    not part of the range. *)
Lemma munmap_hole_drops_tail :
  at_addr [file_region] 0x300002000 = Some (VMM_FLAG_USER, VMA_TYPE_FILE, BFile 7 0x2000) ∧
  at_addr (munmap_slot 0x300001000 0x300002000 0 [file_region]) 0x300002000 = None.
Proof. split; reflexivity. Qed.
