(* ===== verification/ShaMd.v ===== *)
(** * Hash functions: the streaming interface

    The part [src/crypto/sha256.c], [src/crypto/sha512.c] and
    [src/crypto/sha1.c] share: a buffer that collects input until a block is
    full, and the final padding.  It is proved equal to the standard's
    definition: pad the whole message, cut it into blocks, fold the block
    function over them. *)

From S2P Require Import Prelude.

(** The streaming state the three share: chaining value, block buffer (bytes
    past [buflen] are stale) and its fill. *)
Record md := mk_md {
  md_state : list Z;
  md_buf : list Z;
  md_buflen : Z
}.

Section absorb.
Context (B : Z) (block : list Z → list Z → list Z).

(** [for (i = 0; i < take; i++) buf[buflen + i] = p[i]] *)
Definition fill (buf : list Z) (buflen : Z) (p : list Z) (take : Z) : list Z :=
  zfor (Z.to_nat take) 0 (λ i b, b.[buflen + i <- p.[i]]) buf.

(** The [while (len)] loop of update, [p] the rest of the input. *)
Fixpoint absorb (fuel : nat) (c : md) (p : list Z) : md :=
  match fuel with
  | O => c
  | S fuel =>
      if zlen p =? 0 then c
      else
        let take := B - md_buflen c in
        let take := if zlen p <? take then zlen p else take in
        let buf := fill (md_buf c) (md_buflen c) p take in
        let buflen := md_buflen c + take in
        let c := if buflen =? B then mk_md (block (md_state c) buf) buf 0 else mk_md (md_state c) buf buflen in
        absorb fuel c (drop (Z.to_nat take) p)
  end.
Definition absorb_all (c : md) (p : list Z) : md := absorb (length p) c p.
End absorb.

(** [while (buflen != P) update(c, &zero, 1)] *)
Fixpoint pad_zeros {C : Type} (get : C → md) (update : C → list Z → C) (P : Z) (fuel : nat) (c : C) : C :=
  match fuel with
  | O => c
  | S fuel => if md_buflen (get c) =? P then c else pad_zeros get update P fuel (update c [0])
  end.

(** Bytes of [x], most significant first: [x >> 8(n-1)], ..., [x]. *)
Definition be_bytes (n : nat) (x : Z) : list Z := (λ i, u8 (Z.shiftr x (8 * (Z.of_nat n - 1 - i)))) <$> seqZ 0 (Z.of_nat n).

(** ** The standard's definition *)

Lemma concat_blocks_len (B : Z) (bs : list (list Z)) : Forall (λ b, zlen b = B) bs → zlen (concat bs) = B * zlen bs.
Proof. induction 1 as [|b bs Hb _ IH]; cbn; [lia|]. rewrite length_app. lia. Qed.

Section spec.
Context (B : Z) (block : list Z → list Z → list Z).

Fixpoint blocks_of (n : nat) (l : list Z) : list (list Z) :=
  match n with
  | O => []
  | S n => take (Z.to_nat B) l :: blocks_of n (drop (Z.to_nat B) l)
  end.

(** Fold the block function over the blocks of a padded message. *)
Definition md_hash (iv l : list Z) : list Z := foldl block iv (blocks_of (Z.to_nat (zlen l / B)) l).

(** One 1 bit, zeros, and the length in bits in the last [n] bytes. *)
Definition md_pad (n : nat) (m : list Z) : list Z :=
  m ++ [0x80] ++ replicate (Z.to_nat ((B - Z.of_nat n - 1 - zlen m) mod B)) 0 ++ be_bytes n (8 * zlen m).

(** The streaming state after the bytes [m]. *)
Record rep (iv m : list Z) (c : md) : Prop := {
  rp_bytes : ∃ bs tail, m = concat bs ++ tail ∧ Forall (λ b, zlen b = B) bs ∧ md_state c = foldl block iv bs ∧
    md_buflen c = zlen tail ∧ take (length tail) (md_buf c) = tail;
  rp_len : md_buflen c < B;
  rp_buf : zlen (md_buf c) = B
}.

Lemma rep_buflen iv m c : rep iv m c → md_buflen c = zlen m mod B.
Proof.
  intros [(bs & tail & -> & Hbs & _ & Hl & _) Hlt _]. rewrite length_app, Nat2Z.inj_add, Hl. rewrite Hl in Hlt.
  rewrite (concat_blocks_len B bs Hbs), Z.add_comm, Z.mul_comm, Z_mod_plus_full, Z.mod_small by lia. done.
Qed.

(** New bytes [x] that fit the buffer. *)
Lemma rep_step iv m c x buf : rep iv m c → 0 < zlen x → md_buflen c + zlen x ≤ B → zlen buf = B →
  take (Z.to_nat (md_buflen c) + length x) buf = take (Z.to_nat (md_buflen c)) (md_buf c) ++ x →
  let n := md_buflen c + zlen x in
  rep iv (m ++ x) (if n =? B then mk_md (block (md_state c) buf) buf 0 else mk_md (md_state c) buf n).
Proof.
  intros [(bs & tail & -> & Hbs & Hst & Hl & Ht) Hlt Hbuf] Hx Hfit Hb Htk n. rewrite Hl in *. rewrite Nat2Z.id, Ht in Htk.
  assert (Hlen : length (tail ++ x) = (length tail + length x)%nat) by (by rewrite length_app). rewrite <- Hlen in Htk.
  destruct (Z.eqb_spec n B) as [E|E].
  - constructor; cbn; [|lia|done]. exists (bs ++ [tail ++ x]), []. split_and!.
    + rewrite concat_app. cbn. by rewrite !app_nil_r, app_assoc.
    + apply Forall_app. split; [done|]. constructor; [|done]. rewrite Hlen. lia.
    + rewrite foldl_app. cbn. rewrite <- Hst. f_equal. rewrite <- Htk. symmetry. apply take_ge. lia.
    + done.
    + done.
  - constructor; cbn; [|lia|done]. exists bs, (tail ++ x). split_and!; [by rewrite app_assoc|done|done|rewrite Hlen; lia|done].
Qed.
End spec.

(** ** Streaming equals the definition *)

Section stream.
Context (B : Z) (block : list Z → list Z → list Z).
Context (HB : 0 < B).
Abbreviation rep := (rep B block).

Lemma rep_init iv buf : zlen buf = B → rep iv [] (mk_md iv buf 0).
Proof. intros Hb. constructor; cbn; [|lia|done]. exists [], []. split_and!; done. Qed.

Lemma fill_spec buf n p k : 0 ≤ n → 0 ≤ k ≤ zlen p → n + k ≤ zlen buf →
  zlen (fill buf n p k) = zlen buf ∧
  take (Z.to_nat n + length (take (Z.to_nat k) p)) (fill buf n p k) = take (Z.to_nat n) buf ++ take (Z.to_nat k) p.
Proof.
  intros Hn Hk Hb. unfold fill. rewrite copy_loop by lia. split.
  - rewrite !length_app, !length_take, length_drop. lia.
  - rewrite app_assoc. apply take_app_length'. rewrite length_app, !length_take. lia.
Qed.

Lemma absorb_rep fuel iv m c p : rep iv m c → (length p ≤ fuel)%nat → rep iv (m ++ p) (absorb B block fuel c p).
Proof.
  revert m c p. induction fuel as [|fuel IH]; intros m c p Hc Hf; cbn [absorb].
  { destruct p; [by rewrite app_nil_r|cbn in Hf; lia]. }
  destruct (Z.eqb_spec (zlen p) 0) as [H0|H0]; [destruct p; [by rewrite app_nil_r|cbn in H0; lia]|]. cbv zeta.
  set (k := if zlen p <? B - md_buflen c then zlen p else B - md_buflen c).
  destruct (rp_bytes _ _ _ _ _ Hc) as (bs & tail & _ & _ & _ & Hl & _). pose proof (rp_len _ _ _ _ _ Hc) as Hlt.
  assert (Hk : 0 < k ≤ zlen p ∧ md_buflen c + k ≤ B) by (subst k; case_match; lia). clearbody k. destruct Hk as [Hk Hk'].
  destruct (fill_spec (md_buf c) (md_buflen c) p k) as [F1 F2]; [lia|lia|rewrite (rp_buf _ _ _ _ _ Hc); lia|].
  rewrite (rp_buf _ _ _ _ _ Hc) in F1. set (x := take (Z.to_nat k) p) in *. set (y := drop (Z.to_nat k) p).
  assert (Ex : zlen x = k) by (unfold x; rewrite length_take; lia).
  assert (Ep : m ++ p = (m ++ x) ++ y) by (unfold x, y; by rewrite <- app_assoc, take_drop). rewrite Ep. apply IH.
  - rewrite <- Ex. rewrite <- Ex in F1, F2. apply (rep_step B block iv m c x); try done; lia.
  - unfold y. rewrite length_drop. lia.
Qed.

Lemma absorb_all_rep iv m c p : rep iv m c → rep iv (m ++ p) (absorb_all B block c p).
Proof. intros Hc. by apply absorb_rep. Qed.

(** The zero padding stops: it adds as many zeros as the position [P] is away,
    at most one block. *)
Lemma pad_zeros_spec {C : Type} (get : C → md) (update : C → list Z → C) (P : Z) iv :
  0 ≤ P < B → (∀ c m x, rep iv m (get c) → rep iv (m ++ x) (get (update c x))) →
  ∀ fuel c m, rep iv m (get c) → (P - zlen m) mod B < Z.of_nat fuel →
  let c' := pad_zeros get update P fuel c in
  rep iv (m ++ replicate (Z.to_nat ((P - zlen m) mod B)) 0) (get c') ∧ md_buflen (get c') = P.
Proof.
  intros HP Hup. induction fuel as [|fuel IH]; intros c m Hc Hf; cbn [pad_zeros]; [pose proof (Z.mod_pos_bound (P - zlen m) B HB); lia|].
  pose proof (rep_buflen _ _ _ _ _ Hc) as Hl. rewrite Hl. set (L := zlen m) in *.
  assert (HL : L = B * (L / B) + L mod B) by (apply Z.div_mod; lia).
  assert (Hm : (P - L) mod B = (P - L mod B) mod B).
  { replace (P - L) with (P - L mod B + (- (L / B)) * B) by lia. apply Z_mod_plus_full. }
  pose proof (Z.mod_pos_bound L B HB) as HLb. destruct (Z.eqb_spec (L mod B) P) as [E|E].
  - rewrite Hm, E, Z.sub_diag, Z.mod_0_l by lia. cbn. rewrite app_nil_r. split; [done|congruence].
  - assert (H1 : (P - L) mod B = (P - (L + 1)) mod B + 1).
    { rewrite Hm. replace (P - (L + 1)) with (P - L mod B - 1 + (- (L / B)) * B) by lia. rewrite Z_mod_plus_full.
      destruct (decide (L mod B < P)).
      - rewrite (Z.mod_small (P - L mod B)), (Z.mod_small (P - L mod B - 1)) by lia. lia.
      - assert (Hneg : ∀ x, - B ≤ x < 0 → x mod B = x + B) by (intros x Hx; symmetry; apply (Z.mod_unique _ _ (-1)); lia).
        rewrite (Hneg (P - L mod B)), (Hneg (P - L mod B - 1)) by lia. lia. }
    pose proof (Z.mod_pos_bound (P - (L + 1)) B HB).
    assert (E1 : zlen (m ++ [0]) = L + 1) by (rewrite length_app; cbn [length]; unfold L; lia).
    destruct (IH (update c [0]) (m ++ [0])) as [G1 G2]; rewrite ?E1 in *; [by apply Hup|lia|].
    split; [|done]. rewrite H1, Z2Nat.inj_add, Nat.add_comm by lia. rewrite <- app_assoc in G1. exact G1.
Qed.

Lemma blocks_of_concat bs : Forall (λ b, zlen b = B) bs → blocks_of B (length bs) (concat bs) = bs.
Proof.
  induction 1 as [|b bs Hb _ IH]; [done|]. cbn [length blocks_of concat]. rewrite take_app_length', drop_app_length' by lia. by rewrite IH.
Qed.

(** The last block: padding brought the buffer to [B - n], the length fills it. *)
Lemma final_block iv m c n buf : rep iv (m ++ [0x80] ++ replicate (Z.to_nat ((B - Z.of_nat n - 1 - zlen m) mod B)) 0) c →
  md_buflen c = B - Z.of_nat n → (0 < n)%nat → buf = take (Z.to_nat (B - Z.of_nat n)) (md_buf c) ++ be_bytes n (8 * zlen m) →
  block (md_state c) buf = md_hash B block iv (md_pad B n m).
Proof.
  intros Hc Hl Hn ->. destruct Hc as [(bs & tail & Em & Hbs & Hst & Hl' & Ht) Hlt Hbuf].
  set (len := be_bytes n (8 * zlen m)).
  assert (Hlen : length len = n) by (unfold len, be_bytes; rewrite length_fmap, length_seqZ; lia).
  assert (Et : take (Z.to_nat (B - Z.of_nat n)) (md_buf c) = tail) by (rewrite <- Hl, Hl', Nat2Z.id; exact Ht). rewrite Et.
  assert (Ep : md_pad B n m = concat (bs ++ [tail ++ len])).
  { unfold md_pad. fold len. rewrite concat_app. cbn [concat]. rewrite app_nil_r, !app_assoc. f_equal. rewrite <- app_assoc. exact Em. }
  assert (Hb' : Forall (λ b, zlen b = B) (bs ++ [tail ++ len])).
  { apply Forall_app. split; [done|]. constructor; [|done]. rewrite length_app, Hlen. lia. }
  unfold md_hash. rewrite Ep.
  rewrite (concat_blocks_len B _ Hb').
  rewrite Z.mul_comm, Z_div_mult_full, Nat2Z.id, blocks_of_concat, foldl_app by (done || lia). cbn. by rewrite Hst.
Qed.
End stream.

(** Truncating to as many bits as are written changes nothing. *)
Lemma be_bytes_mod n k x : (n ≤ k)%nat → be_bytes n (x mod 2 ^ (8 * Z.of_nat k)) = be_bytes n x.
Proof.
  intros Hk. unfold be_bytes. apply list_fmap_ext. intros j i Hj. apply list_elem_of_lookup_2, elem_of_seqZ in Hj.
  apply Z.bits_inj'. intros b Hb. unfold u8. change 256 with (2 ^ 8).
  destruct (decide (b < 8)); [|by rewrite !Z.mod_pow2_bits_high by lia].
  rewrite !Z.mod_pow2_bits_low, !Z.shiftr_spec, Z.mod_pow2_bits_low by lia. done.
Qed.

Lemma be_bytes_length n x : length (be_bytes n x) = n.
Proof. unfold be_bytes. rewrite length_fmap, length_seqZ. lia. Qed.

(** The upper and the lower half of a double word. *)
Lemma be_bytes_16 hi lo : is_u64 lo → be_bytes 16 (hi * 2 ^ 64 + lo) = be_bytes 8 hi ++ be_bytes 8 lo.
Proof.
  intros Hlo. apply list_eq_aget; [by rewrite length_app, !be_bytes_length|]. rewrite be_bytes_length. intros i Hi.
  assert (G : ∀ n x j, 0 ≤ j < Z.of_nat n → (be_bytes n x).[j] = u8 (Z.shiftr x (8 * (Z.of_nat n - 1 - j)))).
  { intros n x j Hj. apply lookup_aget. unfold be_bytes. rewrite list_lookup_fmap, lookup_seqZ_lt by lia. cbn. do 3 f_equal. lia. }
  rewrite G by lia. destruct (decide (i < 8)).
  - rewrite aget_app_l, G by (rewrite ?be_bytes_length; lia). f_equal. rewrite !Z.shiftr_div_pow2 by lia.
    replace (2 ^ (8 * (Z.of_nat 16 - 1 - i))) with (2 ^ 64 * 2 ^ (8 * (Z.of_nat 8 - 1 - i))) by (rewrite <- Z.pow_add_r by lia; f_equal; lia).
    rewrite <- Z.div_div, Z.div_add_l by lia. f_equal. rewrite Z.div_small; [lia|]. unfold is_u64 in Hlo. lia.
  - rewrite aget_app_r, be_bytes_length, G by (rewrite ?be_bytes_length; lia).
    replace (8 * (Z.of_nat 8 - 1 - (i - Z.of_nat 8))) with (8 * (Z.of_nat 16 - 1 - i)) by lia. set (s := 8 * (Z.of_nat 16 - 1 - i)).
    assert (Hs : 0 ≤ s ≤ 56) by (unfold s; lia). clearbody s. unfold u8. rewrite !Z.shiftr_div_pow2 by lia.
    replace (hi * 2 ^ 64) with (hi * 2 ^ (56 - s) * 256 * 2 ^ s); [rewrite Z.div_add_l by lia; by rewrite Z.add_comm, Z_mod_plus_full|].
    change 256 with (2 ^ 8). rewrite <- !Z.mul_assoc. f_equal. rewrite <- !Z.pow_add_r by lia. f_equal. lia.
Qed.

Lemma copy_bytes buf n x : 0 ≤ n → n + 8 ≤ zlen buf →
  zfor 8 0 (λ i b, b.[n + i <- (be_bytes 8 x).[i]]) buf = take (Z.to_nat n) buf ++ be_bytes 8 x ++ drop (Z.to_nat (n + 8)) buf.
Proof.
  intros Hn Hb. change 8%nat with (Z.to_nat 8) at 1. rewrite copy_loop by (rewrite ?be_bytes_length; lia).
  by rewrite (take_ge (be_bytes 8 x)) by (rewrite be_bytes_length; lia).
Qed.
