(* ===== verification/Sha256.v ===== *)
(** * SHA-256

    Models [src/crypto/sha256.c]; the streaming functions are proved equal to the
    standard's definition on the whole message. *)

From S2P Require Import Prelude ShaMd.

Definition ror (x n : Z) : Z := Z.lor (Z.shiftr x n) (u32 (Z.shiftl x (32 - n))).

(** The table of [sha256.c], row by row. *)
Definition K : list Z := Eval cbv in concat [
    [0x428a2f98;0x71374491;0xb5c0fbcf;0xe9b5dba5;0x3956c25b;0x59f111f1;0x923f82a4;0xab1c5ed5];
    [0xd807aa98;0x12835b01;0x243185be;0x550c7dc3;0x72be5d74;0x80deb1fe;0x9bdc06a7;0xc19bf174];
    [0xe49b69c1;0xefbe4786;0x0fc19dc6;0x240ca1cc;0x2de92c6f;0x4a7484aa;0x5cb0a9dc;0x76f988da];
    [0x983e5152;0xa831c66d;0xb00327c8;0xbf597fc7;0xc6e00bf3;0xd5a79147;0x06ca6351;0x14292967];
    [0x27b70a85;0x2e1b2138;0x4d2c6dfc;0x53380d13;0x650a7354;0x766a0abb;0x81c2c92e;0x92722c85];
    [0xa2bfe8a1;0xa81a664b;0xc24b8b70;0xc76c51a3;0xd192e819;0xd6990624;0xf40e3585;0x106aa070];
    [0x19a4c116;0x1e376c08;0x2748774c;0x34b0bcb5;0x391c0cb3;0x4ed8aa4a;0x5b9cca4f;0x682e6ff3];
    [0x748f82ee;0x78a5636f;0x84c87814;0x8cc70208;0x90befffa;0xa4506ceb;0xbef9a3f7;0xc67178f2]].

Definition load_w (p : list Z) (i : Z) (w : list Z) : list Z :=
  w.[i <- Z.lor (Z.lor (Z.lor (u32 (Z.shiftl p.[i * 4] 24)) (u32 (Z.shiftl p.[i * 4 + 1] 16)))
                       (u32 (Z.shiftl p.[i * 4 + 2] 8))) p.[i * 4 + 3]].
Definition extend_w (i : Z) (w : list Z) : list Z :=
  let s0 := Z.lxor (Z.lxor (ror w.[i - 15] 7) (ror w.[i - 15] 18)) (Z.shiftr w.[i - 15] 3) in
  let s1 := Z.lxor (Z.lxor (ror w.[i - 2] 17) (ror w.[i - 2] 19)) (Z.shiftr w.[i - 2] 10) in
  w.[i <- u32 (w.[i - 16] + s0 + w.[i - 7] + s1)].

Record regs := mk_regs { ra : Z; rb : Z; rc : Z; rd : Z; re : Z; rf : Z; rg : Z; rh : Z }.

Definition round (w : list Z) (i : Z) (r : regs) : regs :=
  let '(mk_regs a b c d e f g h) := r in
  let S1 := Z.lxor (Z.lxor (ror e 6) (ror e 11)) (ror e 25) in
  let ch := Z.lxor (Z.land e f) (Z.land (not32 e) g) in
  let t1 := u32 (h + S1 + ch + K.[i] + w.[i]) in
  let S0 := Z.lxor (Z.lxor (ror a 2) (ror a 13)) (ror a 22) in
  let maj := Z.lxor (Z.lxor (Z.land a b) (Z.land a c)) (Z.land b c) in
  let t2 := u32 (S0 + maj) in
  mk_regs (u32 (t1 + t2)) a b c (u32 (d + t1)) e f g.

Definition sha256_block (state : list Z) (p : list Z) : list Z :=
  let w := zfor 16 0 (load_w p) (replicate 64 0) in
  let w := zfor 48 16 extend_w w in
  let '(mk_regs a b c d e f g h) :=
    zfor 64 0 (round w) (mk_regs state.[0] state.[1] state.[2] state.[3] state.[4] state.[5] state.[6] state.[7]) in
  [u32 (state.[0] + a); u32 (state.[1] + b); u32 (state.[2] + c); u32 (state.[3] + d);
   u32 (state.[4] + e); u32 (state.[5] + f); u32 (state.[6] + g); u32 (state.[7] + h)].

Definition SHA256_BLOCK_SIZE : Z := 64.

Record sha256_ctx := mk_ctx { ctx_md : md; bitlen : Z }.

Definition sha256_init (buf : list Z) : sha256_ctx :=
  mk_ctx (mk_md [0x6a09e667; 0xbb67ae85; 0x3c6ef372; 0xa54ff53a; 0x510e527f; 0x9b05688c; 0x1f83d9ab; 0x5be0cd19] buf 0) 0.

Definition sha256_update (c : sha256_ctx) (data : list Z) : sha256_ctx :=
  mk_ctx (absorb_all SHA256_BLOCK_SIZE sha256_block (ctx_md c) data) (u64 (bitlen c + u64 (zlen data * 8))).

Definition sha256_final (c : sha256_ctx) : list Z :=
  let bl := bitlen c in
  let c := sha256_update c [0x80] in
  let c := pad_zeros ctx_md sha256_update 56 64 c in
  let lenbe := be_bytes 8 bl in
  let buf := zfor 8 0 (λ i b, b.[56 + i <- lenbe.[i]]) (md_buf (ctx_md c)) in
  let state := sha256_block (md_state (ctx_md c)) buf in
  state ≫= be_bytes 4.

Definition sha256 (buf data : list Z) : list Z := sha256_final (sha256_update (sha256_init buf) data).

(** ** Correctness *)

Definition sha256_iv : list Z := md_state (ctx_md (sha256_init [])).

(** FIPS 180-4: the hash of a message. *)
Definition fips_sha256 (m : list Z) : list Z :=
  md_hash SHA256_BLOCK_SIZE sha256_block sha256_iv (md_pad SHA256_BLOCK_SIZE 8 m) ≫= be_bytes 4.

#[local] Opaque sha256_block be_bytes.

(** A context that has taken in the message [m]. *)
Definition sha256_rep (m : list Z) (c : sha256_ctx) : Prop :=
  rep SHA256_BLOCK_SIZE sha256_block sha256_iv m (ctx_md c) ∧ bitlen c = (8 * zlen m) mod 2 ^ 64.

Lemma sha256_update_rep m c x : sha256_rep m c → sha256_rep (m ++ x) (sha256_update c x).
Proof.
  intros [Hc Hb]. split; cbn [sha256_update ctx_md bitlen]; [by apply absorb_all_rep|].
  rewrite Hb, length_app. change (2 ^ 64) with 18446744073709551616. unfold u64. rewrite <- Zplus_mod. f_equal. lia.
Qed.

Lemma sha256_stream_rep ds m c : sha256_rep m c → sha256_rep (m ++ concat ds) (foldl sha256_update c ds).
Proof.
  revert m c. induction ds as [|d ds IH]; intros m c Hc; cbn; [by rewrite app_nil_r|].
  rewrite app_assoc. by apply IH, sha256_update_rep.
Qed.

Lemma sha256_init_rep buf : zlen buf = SHA256_BLOCK_SIZE → sha256_rep [] (sha256_init buf).
Proof. intros Hb. split; [by apply rep_init|done]. Qed.

Lemma sha256_final_spec m c : sha256_rep m c → sha256_final c = fips_sha256 m.
Proof.
  intros Hc. destruct (sha256_update_rep m c [0x80] Hc) as [H1 _]. destruct Hc as [_ Hbl]. unfold sha256_final, fips_sha256. cbv zeta.
  set (c1 := sha256_update c [128]) in *.
  destruct (pad_zeros_spec SHA256_BLOCK_SIZE sha256_block ltac:(done) ctx_md sha256_update 56 sha256_iv ltac:(done)
    ltac:(intros; by apply absorb_all_rep) 64 c1 _ H1) as [H2 H3].
  { unfold SHA256_BLOCK_SIZE. pose proof (Z.mod_pos_bound (56 - zlen (m ++ [128])) 64 eq_refl). lia. }
  set (c2 := pad_zeros ctx_md sha256_update 56 64 c1) in *. f_equal. pose proof (rp_buf _ _ _ _ _ H2) as Hbuf. unfold SHA256_BLOCK_SIZE in Hbuf.
  rewrite <- app_assoc in H2. rewrite length_app in H2. cbn [length] in H2.
  apply final_block with (m := m); [done|..].
  - unfold SHA256_BLOCK_SIZE in *. by replace (64 - Z.of_nat 8 - 1 - zlen m) with (56 - Z.of_nat (length m + 1)) by lia.
  - exact H3.
  - lia.
  - rewrite copy_bytes by lia. rewrite Hbl, (be_bytes_mod 8 8), drop_ge, app_nil_r by lia. done.
Qed.

(** Hashing a message in pieces of any sizes gives the SHA-256 hash of the
    whole message as FIPS 180-4 defines it; the padding loop of [sha256_final]
    stops. *)
Theorem sha256_stream_correct (buf : list Z) (ds : list (list Z)) : zlen buf = SHA256_BLOCK_SIZE →
  sha256_final (foldl sha256_update (sha256_init buf) ds) = fips_sha256 (concat ds).
Proof. intros Hb. apply sha256_final_spec. by apply (sha256_stream_rep ds []), sha256_init_rep. Qed.

#[local] Transparent sha256_block be_bytes.

(** The known-answer test of [crypto_selftest], as three pieces. *)
Lemma sha256_stream_correct_witness :
  sha256_final (foldl sha256_update (sha256_init (replicate 64 0)) [[97]; []; [98; 99]]) = fips_sha256 [97; 98; 99] ∧
  fips_sha256 [97; 98; 99] = [0xba;0x78;0x16;0xbf;0x8f;0x01;0xcf;0xea;0x41;0x41;0x40;0xde;0x5d;0xae;0x22;0x23;
                              0xb0;0x03;0x61;0xa3;0x96;0x17;0x7a;0x9c;0xb4;0x10;0xff;0x61;0xf2;0x00;0x15;0xad].
Proof. split; [exact (sha256_stream_correct (replicate 64 0) [[97]; []; [98; 99]] eq_refl)|vm_compute; reflexivity]. Defined.
