(* ===== verification/Sha512.v ===== *)
(** * SHA-512

    Models [src/crypto/sha512.c]; the streaming functions are proved equal to the
    standard's definition on the whole message. *)

From S2P Require Import Prelude ShaMd.

Definition ror (x n : Z) : Z := Z.lor (Z.shiftr x n) (u64 (Z.shiftl x (64 - n))).

Definition K : list Z := [
    0x428a2f98d728ae22;0x7137449123ef65cd;0xb5c0fbcfec4d3b2f;0xe9b5dba58189dbbc;
    0x3956c25bf348b538;0x59f111f1b605d019;0x923f82a4af194f9b;0xab1c5ed5da6d8118;
    0xd807aa98a3030242;0x12835b0145706fbe;0x243185be4ee4b28c;0x550c7dc3d5ffb4e2;
    0x72be5d74f27b896f;0x80deb1fe3b1696b1;0x9bdc06a725c71235;0xc19bf174cf692694;
    0xe49b69c19ef14ad2;0xefbe4786384f25e3;0x0fc19dc68b8cd5b5;0x240ca1cc77ac9c65;
    0x2de92c6f592b0275;0x4a7484aa6ea6e483;0x5cb0a9dcbd41fbd4;0x76f988da831153b5;
    0x983e5152ee66dfab;0xa831c66d2db43210;0xb00327c898fb213f;0xbf597fc7beef0ee4;
    0xc6e00bf33da88fc2;0xd5a79147930aa725;0x06ca6351e003826f;0x142929670a0e6e70;
    0x27b70a8546d22ffc;0x2e1b21385c26c926;0x4d2c6dfc5ac42aed;0x53380d139d95b3df;
    0x650a73548baf63de;0x766a0abb3c77b2a8;0x81c2c92e47edaee6;0x92722c851482353b;
    0xa2bfe8a14cf10364;0xa81a664bbc423001;0xc24b8b70d0f89791;0xc76c51a30654be30;
    0xd192e819d6ef5218;0xd69906245565a910;0xf40e35855771202a;0x106aa07032bbd1b8;
    0x19a4c116b8d2d0c8;0x1e376c085141ab53;0x2748774cdf8eeb99;0x34b0bcb5e19b48a8;
    0x391c0cb3c5c95a63;0x4ed8aa4ae3418acb;0x5b9cca4f7763e373;0x682e6ff3d6b2b8a3;
    0x748f82ee5defb2fc;0x78a5636f43172f60;0x84c87814a1f0ab72;0x8cc702081a6439ec;
    0x90befffa23631e28;0xa4506cebde82bde9;0xbef9a3f7b2c67915;0xc67178f2e372532b;
    0xca273eceea26619c;0xd186b8c721c0c207;0xeada7dd6cde0eb1e;0xf57d4f7fee6ed178;
    0x06f067aa72176fba;0x0a637dc5a2c898a6;0x113f9804bef90dae;0x1b710b35131c471b;
    0x28db77f523047d84;0x32caab7b40c72493;0x3c9ebe0a15c9bebc;0x431d67c49c100d4c;
    0x4cc5d4becb3e42b6;0x597f299cfc657e2a;0x5fcb6fab3ad6faec;0x6c44198c4a475817].

(** [w[i] = 0; for (j = 0; j < 8; j++) w[i] = (w[i] << 8) | p[i*8 + j]] *)
Definition load_w (p : list Z) (i : Z) (w : list Z) : list Z :=
  w.[i <- zfor 8 0 (λ j x, Z.lor (u64 (Z.shiftl x 8)) p.[i * 8 + j]) 0].
Definition extend_w (i : Z) (w : list Z) : list Z :=
  let s0 := Z.lxor (Z.lxor (ror w.[i - 15] 1) (ror w.[i - 15] 8)) (Z.shiftr w.[i - 15] 7) in
  let s1 := Z.lxor (Z.lxor (ror w.[i - 2] 19) (ror w.[i - 2] 61)) (Z.shiftr w.[i - 2] 6) in
  w.[i <- u64 (w.[i - 16] + s0 + w.[i - 7] + s1)].

Record regs := mk_regs { ra : Z; rb : Z; rc : Z; rd : Z; re : Z; rf : Z; rg : Z; rh : Z }.

Definition round (w : list Z) (i : Z) (r : regs) : regs :=
  let '(mk_regs a b c d e f g h) := r in
  let S1 := Z.lxor (Z.lxor (ror e 14) (ror e 18)) (ror e 41) in
  let ch := Z.lxor (Z.land e f) (Z.land (not64 e) g) in
  let t1 := u64 (h + S1 + ch + K.[i] + w.[i]) in
  let S0 := Z.lxor (Z.lxor (ror a 28) (ror a 34)) (ror a 39) in
  let maj := Z.lxor (Z.lxor (Z.land a b) (Z.land a c)) (Z.land b c) in
  let t2 := u64 (S0 + maj) in
  mk_regs (u64 (t1 + t2)) a b c (u64 (d + t1)) e f g.

Definition sha512_block (state : list Z) (p : list Z) : list Z :=
  let w := zfor 16 0 (load_w p) (replicate 80 0) in
  let w := zfor 64 16 extend_w w in
  let '(mk_regs a b c d e f g h) :=
    zfor 80 0 (round w) (mk_regs state.[0] state.[1] state.[2] state.[3] state.[4] state.[5] state.[6] state.[7]) in
  [u64 (state.[0] + a); u64 (state.[1] + b); u64 (state.[2] + c); u64 (state.[3] + d);
   u64 (state.[4] + e); u64 (state.[5] + f); u64 (state.[6] + g); u64 (state.[7] + h)].

Definition SHA512_BLOCK_SIZE : Z := 128.

Record sha512_ctx := mk_ctx { ctx_md : md; bitlen_lo : Z; bitlen_hi : Z }.

Definition sha512_init (buf : list Z) : sha512_ctx :=
  mk_ctx (mk_md [0x6a09e667f3bcc908; 0xbb67ae8584caa73b; 0x3c6ef372fe94f82b; 0xa54ff53a5f1d36f1;
                 0x510e527fade682d1; 0x9b05688c2b3e6c1f; 0x1f83d9abfb41bd6b; 0x5be0cd19137e2179] buf 0) 0 0.

Definition sha512_update (c : sha512_ctx) (data : list Z) : sha512_ctx :=
  let add := u64 (zlen data * 8) in
  let lo := u64 (bitlen_lo c + add) in
  let hi := if lo <? add then u64 (bitlen_hi c + 1) else bitlen_hi c in
  mk_ctx (absorb_all SHA512_BLOCK_SIZE sha512_block (ctx_md c) data) lo hi.

Definition sha512_final (c : sha512_ctx) : list Z :=
  let lo := bitlen_lo c in
  let hi := bitlen_hi c in
  let c := sha512_update c [0x80] in
  let c := pad_zeros ctx_md sha512_update 112 128 c in
  let buf := zfor 8 0 (λ i b, b.[112 + i <- (be_bytes 8 hi).[i]]) (md_buf (ctx_md c)) in
  let buf := zfor 8 0 (λ i b, b.[120 + i <- (be_bytes 8 lo).[i]]) buf in
  let state := sha512_block (md_state (ctx_md c)) buf in
  state ≫= be_bytes 8.

Definition sha512 (buf data : list Z) : list Z := sha512_final (sha512_update (sha512_init buf) data).

(** ** Correctness *)

Definition sha512_iv : list Z := md_state (ctx_md (sha512_init [])).

(** FIPS 180-4: the hash of a message. *)
Definition fips_sha512 (m : list Z) : list Z :=
  md_hash SHA512_BLOCK_SIZE sha512_block sha512_iv (md_pad SHA512_BLOCK_SIZE 16 m) ≫= be_bytes 8.

#[local] Opaque sha512_block be_bytes.

(** A context that has taken in the message [m]; the bit count is the pair of
    words. *)
Record sha512_rep (m : list Z) (c : sha512_ctx) : Prop := {
  s5_md : rep SHA512_BLOCK_SIZE sha512_block sha512_iv m (ctx_md c);
  s5_lo : is_u64 (bitlen_lo c);
  s5_hi : (bitlen_hi c * 2 ^ 64 + bitlen_lo c) mod 2 ^ 128 = (8 * zlen m) mod 2 ^ 128
}.

Lemma sha512_update_rep m c x : sha512_rep m c → zlen x < 2 ^ 61 → sha512_rep (m ++ x) (sha512_update c x).
Proof.
  intros [Hc Hlo Hhi] Hx. unfold sha512_update. cbv zeta. constructor; cbn [ctx_md bitlen_lo bitlen_hi]; [by apply absorb_all_rep|apply u64_range|].
  rewrite length_app. set (lo := bitlen_lo c) in *. set (hi := bitlen_hi c) in *. set (n := zlen x) in *.
  assert (En : u64 (n * 8) = n * 8) by (apply u64_small; unfold is_u64, n; lia). rewrite En.
  replace (8 * Z.of_nat (length m + length x)) with (8 * zlen m + n * 8) by (unfold n; lia).
  rewrite (Zplus_mod (8 * zlen m) (n * 8)), <- Hhi, <- Zplus_mod. change (2 ^ 128) with (2 ^ 64 * 2 ^ 64). change (2 ^ 64) with 18446744073709551616 in *.
  unfold is_u64 in Hlo. assert (Hn : 0 ≤ n) by (unfold n; lia). change (2 ^ 61) with 2305843009213693952 in Hx. clearbody lo hi n. unfold u64.
  destruct (decide (lo + n * 8 < 18446744073709551616)).
  - rewrite (Z.mod_small (lo + n * 8) 18446744073709551616) by lia. destruct (Z.ltb_spec (lo + n * 8) (n * 8)); [lia|]. f_equal. lia.
  - assert ((lo + n * 8) mod 18446744073709551616 = lo + n * 8 - 18446744073709551616) as -> by (symmetry; apply (Z.mod_unique _ _ 1); lia).
    destruct (Z.ltb_spec (lo + n * 8 - 18446744073709551616) (n * 8)); [|lia]. set (M := 18446744073709551616) in *.
    replace (hi * M + lo + n * 8) with ((hi + 1) * M + (lo + n * 8 - M)) by lia.
    rewrite (Zplus_mod ((hi + 1) mod M * M)), (Zplus_mod ((hi + 1) * M)). f_equal. f_equal.
    rewrite Zmult_mod_distr_r. rewrite Zmult_mod_distr_r. by rewrite Zmod_mod.
Qed.

Lemma sha512_stream_rep ds m c : Forall (λ d, zlen d < 2 ^ 61) ds → sha512_rep m c → sha512_rep (m ++ concat ds) (foldl sha512_update c ds).
Proof.
  intros Hd. revert m c. induction Hd as [|d ds Hd _ IH]; intros m c Hc; cbn; [by rewrite app_nil_r|].
  rewrite app_assoc. by apply IH, sha512_update_rep.
Qed.

Lemma sha512_init_rep buf : zlen buf = SHA512_BLOCK_SIZE → sha512_rep [] (sha512_init buf).
Proof. intros Hb. constructor; [by apply rep_init|done|done]. Qed.

Lemma sha512_final_spec m c : sha512_rep m c → sha512_final c = fips_sha512 m.
Proof.
  intros Hc. destruct (sha512_update_rep m c [0x80] Hc) as [H1 _ _]; [done|]. destruct Hc as [_ Hlo Hhi]. unfold sha512_final, fips_sha512. cbv zeta.
  set (c1 := sha512_update c [128]) in *.
  destruct (pad_zeros_spec SHA512_BLOCK_SIZE sha512_block ltac:(done) ctx_md sha512_update 112 sha512_iv ltac:(done)
    ltac:(intros; by apply absorb_all_rep) 128 c1 _ H1) as [H2 H3].
  { unfold SHA512_BLOCK_SIZE. pose proof (Z.mod_pos_bound (112 - zlen (m ++ [128])) 128 eq_refl). lia. }
  set (c2 := pad_zeros ctx_md sha512_update 112 128 c1) in *. f_equal. pose proof (rp_buf _ _ _ _ _ H2) as Hbuf. unfold SHA512_BLOCK_SIZE in Hbuf.
  rewrite <- app_assoc in H2. rewrite length_app in H2. cbn [length] in H2.
  apply final_block with (m := m); [done|..].
  - unfold SHA512_BLOCK_SIZE in *. by replace (128 - Z.of_nat 16 - 1 - zlen m) with (112 - Z.of_nat (length m + 1)) by lia.
  - exact H3.
  - lia.
  - rewrite <- (be_bytes_mod 16 16) by lia. change (8 * Z.of_nat 16) with 128. rewrite <- Hhi. rewrite (be_bytes_mod 16 16), be_bytes_16 by (done || lia).
    rewrite (copy_bytes _ 112), (copy_bytes _ 120) by (rewrite ?length_app, ?length_take, ?length_drop, ?be_bytes_length; lia). unfold SHA512_BLOCK_SIZE.
    set (b := md_buf (ctx_md c2)) in *. rewrite (app_assoc (take (Z.to_nat 112) b)), take_app_length' by (rewrite length_app, length_take, be_bytes_length; lia).
    rewrite drop_ge by (rewrite !length_app, length_take, length_drop, be_bytes_length; lia). by rewrite app_nil_r, <- app_assoc.
Qed.


#[local] Transparent sha512_block be_bytes.

