(* ===== verification/Sha1.v ===== *)
(** * SHA-1

    Models [src/crypto/sha1.c]; the streaming functions are proved equal to the
    standard's definition on the whole message. *)

From S2P Require Import Prelude ShaMd Sha256.

Definition rol (v c : Z) : Z := Z.lor (u32 (Z.shiftl v c)) (Z.shiftr v (32 - c)).

Definition extend_w (i : Z) (w : list Z) : list Z :=
  w.[i <- rol (Z.lxor (Z.lxor (Z.lxor w.[i - 3] w.[i - 8]) w.[i - 14]) w.[i - 16]) 1].

Record regs := mk_regs { ra : Z; rb : Z; rd : Z; re : Z; rf : Z }.

Definition round (w : list Z) (i : Z) (r : regs) : regs :=
  let '(mk_regs a b d e f) := r in
  let '(t, k) :=
    if i <? 20 then (Z.lor (Z.land b d) (Z.land (not32 b) e), 0x5A827999)
    else if i <? 40 then (Z.lxor (Z.lxor b d) e, 0x6ED9EBA1)
    else if i <? 60 then (Z.lor (Z.lor (Z.land b d) (Z.land b e)) (Z.land d e), 0x8F1BBCDC)
    else (Z.lxor (Z.lxor b d) e, 0xCA62C1D6) in
  let t := u32 (rol a 5 + t + f + k + w.[i]) in
  mk_regs t a (rol b 30) d e.

Definition sha1_block (h : list Z) (p : list Z) : list Z :=
  let w := zfor 16 0 (Sha256.load_w p) (replicate 80 0) in
  let w := zfor 64 16 extend_w w in
  let '(mk_regs a b d e f) := zfor 80 0 (round w) (mk_regs h.[0] h.[1] h.[2] h.[3] h.[4]) in
  [u32 (h.[0] + a); u32 (h.[1] + b); u32 (h.[2] + d); u32 (h.[3] + e); u32 (h.[4] + f)].

Record sha1_ctx := mk_ctx { ctx_md : md; len : Z }.

Definition sha1_init (buf : list Z) : sha1_ctx :=
  mk_ctx (mk_md [0x67452301; 0xEFCDAB89; 0x98BADCFE; 0x10325476; 0xC3D2E1F0] buf 0) 0.

(** [buf[n++] = *p++; if (n == 64) { sha1_block; n = 0; }] *)
Definition put (c : md) (x : Z) : md :=
  let buf := (md_buf c).[md_buflen c <- x] in
  let n := md_buflen c + 1 in
  if n =? 64 then mk_md (sha1_block (md_state c) buf) buf 0 else mk_md (md_state c) buf n.

Definition sha1_update (c : sha1_ctx) (data : list Z) : sha1_ctx :=
  mk_ctx (foldl put (ctx_md c) data) (u64 (len c + zlen data)).

Definition sha1_final (c : sha1_ctx) : list Z :=
  let bits := u64 (len c * 8) in
  let c := sha1_update c [0x80] in
  let c := pad_zeros ctx_md sha1_update 56 64 c in
  let c := sha1_update c (be_bytes 8 bits) in
  md_state (ctx_md c) ≫= be_bytes 4.

Definition sha1 (buf data : list Z) : list Z := sha1_final (sha1_update (sha1_init buf) data).

(** ** Correctness *)

Definition sha1_iv : list Z := md_state (ctx_md (sha1_init [])).

(** FIPS 180-4: the hash of a message. *)
Definition fips_sha1 (m : list Z) : list Z := md_hash 64 sha1_block sha1_iv (md_pad 64 8 m) ≫= be_bytes 4.

#[local] Opaque sha1_block be_bytes.

Lemma put_rep m c x : rep 64 sha1_block sha1_iv m c → rep 64 sha1_block sha1_iv (m ++ [x]) (put c x).
Proof.
  intros Hc. destruct (rp_bytes _ _ _ _ _ Hc) as (bs & tail & _ & _ & _ & Hl & _). pose proof (rp_len _ _ _ _ _ Hc). pose proof (rp_buf _ _ _ _ _ Hc) as Hb.
  apply (rep_step 64 sha1_block sha1_iv m c [x]); try done; [cbn; lia|by rewrite aset_length|].
  unfold aset. rewrite Nat.add_1_r. erewrite take_S_r by (rewrite list_lookup_insert; case_decide; [done|lia]). f_equal. apply take_insert_ge. lia.
Qed.

(** A context that has taken in the message [m]. *)
Definition sha1_rep (m : list Z) (c : sha1_ctx) : Prop :=
  rep 64 sha1_block sha1_iv m (ctx_md c) ∧ len c = zlen m mod 2 ^ 64.

Lemma fold_put_rep m c x : rep 64 sha1_block sha1_iv m c → rep 64 sha1_block sha1_iv (m ++ x) (foldl put c x).
Proof.
  revert m c. induction x as [|b x IH]; intros m c Hc; cbn [foldl]; [by rewrite app_nil_r|].
  change (b :: x) with ([b] ++ x). rewrite app_assoc. by apply IH, put_rep.
Qed.

Lemma sha1_update_rep m c x : sha1_rep m c → sha1_rep (m ++ x) (sha1_update c x).
Proof.
  intros [Hc Hb]. split; cbn [sha1_update ctx_md len]; [by apply fold_put_rep|].
  rewrite Hb, length_app. change (2 ^ 64) with 18446744073709551616. unfold u64. rewrite Zplus_mod_idemp_l. f_equal. lia.
Qed.

Lemma sha1_stream_rep ds m c : sha1_rep m c → sha1_rep (m ++ concat ds) (foldl sha1_update c ds).
Proof.
  revert m c. induction ds as [|d ds IH]; intros m c Hc; cbn; [by rewrite app_nil_r|].
  rewrite app_assoc. by apply IH, sha1_update_rep.
Qed.

Lemma sha1_final_spec m c : sha1_rep m c → sha1_final c = fips_sha1 m.
Proof.
  intros Hc. destruct (sha1_update_rep m c [0x80] Hc) as [H1 _]. destruct Hc as [_ Hbl]. unfold sha1_final, fips_sha1. cbv zeta.
  set (c1 := sha1_update c [128]) in *.
  destruct (pad_zeros_spec 64 sha1_block ltac:(done) ctx_md sha1_update 56 sha1_iv ltac:(done)
    ltac:(intros; by apply fold_put_rep) 64 c1 _ H1) as [H2 H3].
  { pose proof (Z.mod_pos_bound (56 - zlen (m ++ [128])) 64 eq_refl). lia. }
  set (c2 := pad_zeros ctx_md sha1_update 56 64 c1) in *. f_equal.
  rewrite <- app_assoc in H2. rewrite length_app in H2. cbn [length] in H2.
  assert (El : be_bytes 8 (u64 (len c * 8)) = be_bytes 8 (8 * zlen m)).
  { change (be_bytes 8 (u64 (len c * 8))) with (be_bytes 8 ((len c * 8) mod 2 ^ (8 * Z.of_nat 8))). rewrite Hbl. change (8 * Z.of_nat 8) with 64.
    rewrite Zmult_mod_idemp_l. change 64 with (8 * Z.of_nat 8). rewrite be_bytes_mod, Z.mul_comm by lia. done. }
  rewrite El. set (lb := be_bytes 8 (8 * zlen m)). assert (Hlb : zlen lb = 8) by (unfold lb; by rewrite be_bytes_length).
  pose proof (fold_put_rep _ _ lb H2) as H4. cbn [sha1_update ctx_md]. set (c3 := foldl put (ctx_md c2) lb) in *.
  assert (E3 : md_state c3 = md_hash 64 sha1_block sha1_iv (md_pad 64 8 m)); [|by rewrite E3].
  destruct (rp_bytes _ _ _ _ _ H4) as (bs & tail & Em & Hbs & Hst & Hl & _).
  assert (Ep : md_pad 64 8 m = concat bs ++ tail).
  { rewrite <- Em. unfold md_pad. fold lb. replace (64 - Z.of_nat 8 - 1 - zlen m) with (56 - Z.of_nat (length m + 1)) by lia. by rewrite <- !app_assoc. }
  assert (tail = []) as ->.
  { pose proof (rep_buflen _ _ _ _ _ H4) as Hm. rewrite length_app, Nat2Z.inj_add, Hlb, Zplus_mod, <- (rep_buflen _ _ _ _ _ H2), H3 in Hm.
    change ((56 + 8 mod 64) mod 64) with 0 in Hm. rewrite Hm in Hl. by destruct tail; [|cbn in Hl; lia]. }
  rewrite app_nil_r in Ep. unfold md_hash. rewrite Ep, Hst. f_equal. symmetry.
  rewrite (concat_blocks_len 64 bs Hbs).
  rewrite Z.mul_comm, Z_div_mult_full, Nat2Z.id by lia. by apply blocks_of_concat.
Qed.

(** Hashing a message in pieces of any sizes gives the SHA-1 hash of the
    whole message as FIPS 180-4 defines it; the padding loop stops. *)
Theorem sha1_stream_correct (buf : list Z) (ds : list (list Z)) : zlen buf = 64 →
  sha1_final (foldl sha1_update (sha1_init buf) ds) = fips_sha1 (concat ds).
Proof. intros Hb. apply sha1_final_spec. apply (sha1_stream_rep ds []). split; [by apply rep_init|done]. Qed.

#[local] Transparent sha1_block be_bytes.

(** The value the comment at the top of [sha1.c] gives. *)
Lemma sha1_stream_correct_witness :
  sha1_final (foldl sha1_update (sha1_init (replicate 64 0)) [[97]; [98; 99]]) = fips_sha1 [97; 98; 99] ∧
  take 4 (fips_sha1 [97; 98; 99]) = [0xa9; 0x99; 0x3e; 0x36].
Proof. split; [exact (sha1_stream_correct (replicate 64 0) [[97]; [98; 99]] eq_refl)|vm_compute; reflexivity]. Defined.
