(* ===== verification/Ed25519.v ===== *)
(** * Ed25519 signature verification

    Models [src/crypto/ed25519.c].  A field element is sixteen signed 64-bit
    limbs of 16 bits each; every sum, difference and product that is stored in
    a limb wraps at 64 bits ([s64]).  The one-letter function names of the
    source are prefixed ([A] is [gf_A], [Z] is [gf_Z], and so on). *)

From S2P Require Import Prelude ShaMd.
From S2P Require Sha512.

(** [typedef i64 gf[16]] *)
Abbreviation gf := (list Z).

Definition gf0 : gf := replicate 16 0.
Definition gf1 : gf := 1 :: replicate 15 0.
Definition D2 : gf := [0xf159;0x26b2;0x9b94;0xebd6;0xb156;0x8283;0x149a;0x00e0;0xd130;0xeef3;0x80f2;0x198e;0xfce7;0x56df;0xd9dc;0x2406].
Definition base_X : gf := [0xd51a;0x8f25;0x2d60;0xc956;0xa7b2;0x9525;0xc760;0x692c;0xdc5c;0xfdd6;0xe231;0xc0a4;0x53fe;0xcd6e;0x36d3;0x2169].
Definition base_Y : gf := [0x6658;0x6666;0x6666;0x6666;0x6666;0x6666;0x6666;0x6666;0x6666;0x6666;0x6666;0x6666;0x6666;0x6666;0x6666;0x6666].
Definition gf_I : gf := [0xa0b0;0x4a0e;0x1b27;0xc4ee;0xe478;0xad2f;0x1806;0x2f43;0xd7a7;0x3dfb;0x0099;0x2b4d;0xdf0b;0x4fc1;0x2480;0x2b83].
Definition Dc : gf := [0x78a3;0x1359;0x4dca;0x75eb;0xd8ab;0x4141;0x0a4d;0x0070;0xe898;0x7779;0x4079;0x8cc7;0xfe73;0x2b6f;0x6cee;0x5203].
Definition gf_L : list Z := [0xed;0xd3;0xf5;0x5c;0x1a;0x63;0x12;0x58;0xd6;0x9c;0xf7;0xa2;0xde;0xf9;0xde;0x14;
                             0;0;0;0;0;0;0;0;0;0;0;0;0;0;0;0x10].

Definition vn (x y : list Z) (n : nat) : Z :=
  let d := zfor n 0 (λ i d, Z.lor d (Z.lxor x.[i] y.[i])) 0 in
  Z.land 1 (Z.shiftr (d - 1) 8) - 1.
Definition crypto_verify_32 (x y : list Z) : Z := vn x y 32.

(** ** Field arithmetic *)

Definition car_limb (i : Z) (o : gf) : gf :=
  let o := o.[i <- s64 (o.[i] + 65536)] in
  let c := Z.shiftr o.[i] 16 in
  let k := (i + 1) * b2z (i <? 15) in
  let o := o.[k <- s64 (o.[k] + (c - 1 + 37 * (c - 1) * b2z (i =? 15)))] in
  o.[i <- s64 (o.[i] - Z.shiftl c 16)].
Definition car25519 (o : gf) : gf := zfor 16 0 car_limb o.

Definition sel_limb (c i : Z) (pq : gf * gf) : gf * gf :=
  let '(p, q) := pq in
  let t := Z.land c (Z.lxor p.[i] q.[i]) in
  (p.[i <- Z.lxor p.[i] t], q.[i <- Z.lxor q.[i] t]).
(** The new [p] and [q]. *)
Definition sel25519 (p q : gf) (b : Z) : gf * gf :=
  let c := Z.lnot (b - 1) in
  zfor 16 0 (sel_limb c) (p, q).

(** [m = t - p] limb by limb, [i] from 1 to 14. *)
Definition sub_limb (t : gf) (i : Z) (m : gf) : gf :=
  let m := m.[i <- s64 (t.[i] - 0xffff - Z.land (Z.shiftr m.[i - 1] 16) 1)] in
  m.[i - 1 <- Z.land m.[i - 1] 0xffff].
Definition pack_round (tm : gf * gf) : gf * gf :=
  let '(t, m) := tm in
  let m := m.[0 <- s64 (t.[0] - 0xffed)] in
  let m := zfor 14 1 (sub_limb t) m in
  let m := m.[15 <- s64 (t.[15] - 0x7fff - Z.land (Z.shiftr m.[14] 16) 1)] in
  let b := Z.land (Z.shiftr m.[15] 16) 1 in
  let m := m.[14 <- Z.land m.[14] 0xffff] in
  sel25519 t m (1 - b).
Definition pack25519 (n : gf) : list Z :=
  let t := car25519 (car25519 (car25519 n)) in
  let '(t, _) := zfor 2 0 (λ _, pack_round) (t, gf0) in
  zfor 16 0 (λ i o, o.[2 * i <- Z.land t.[i] 0xff].[2 * i + 1 <- u8 (Z.shiftr t.[i] 8)]) (replicate 32 0).

Definition neq25519 (a b : gf) : Z := crypto_verify_32 (pack25519 a) (pack25519 b).
Definition par25519 (a : gf) : Z := Z.land (pack25519 a).[0] 1.

Definition unpack25519 (n : list Z) : gf :=
  let o := zfor 16 0 (λ i o, o.[i <- n.[2 * i] + Z.shiftl n.[2 * i + 1] 8]) gf0 in
  o.[15 <- Z.land o.[15] 0x7fff].

Definition gf_A (a b : gf) : gf := zfor 16 0 (λ i o, o.[i <- s64 (a.[i] + b.[i])]) gf0.
Definition gf_Z (a b : gf) : gf := zfor 16 0 (λ i o, o.[i <- s64 (a.[i] - b.[i])]) gf0.

Definition mul_row (a b : gf) (i : Z) (t : list Z) : list Z :=
  zfor 16 0 (λ j t, t.[i + j <- s64 (t.[i + j] + a.[i] * b.[j])]) t.
Definition gf_M (a b : gf) : gf :=
  let t := replicate 31 0 in
  let t := zfor 16 0 (mul_row a b) t in
  let t := zfor 15 0 (λ i t, t.[i <- s64 (t.[i] + 38 * t.[i + 16])]) t in
  car25519 (car25519 (take 16 t)).
Definition gf_S (a : gf) : gf := gf_M a a.

(** Square and multiply, the exponent bits set except at two (one) places. *)
Definition inv25519 (i : gf) : gf :=
  zfor 254 0 (λ k c,
    let a := 253 - k in
    let c := gf_S c in
    if negb (a =? 2) && negb (a =? 4) then gf_M c i else c) i.
Definition pow2523 (i : gf) : gf :=
  zfor 251 0 (λ k c,
    let a := 250 - k in
    let c := gf_S c in
    if negb (a =? 1) then gf_M c i else c) i.

(** ** Points *)

(** [gf p[4]]: extended coordinates. *)
Record point := mk_point { p_0 : gf; p_1 : gf; p_2 : gf; p_3 : gf }.

Definition ed_add (p q : point) : point :=
  let a := gf_Z (p_1 p) (p_0 p) in let t := gf_Z (p_1 q) (p_0 q) in let a := gf_M a t in
  let b := gf_A (p_0 p) (p_1 p) in let t := gf_A (p_0 q) (p_1 q) in let b := gf_M b t in
  let c := gf_M (p_3 p) (p_3 q) in let c := gf_M c D2 in
  let d := gf_M (p_2 p) (p_2 q) in let d := gf_A d d in
  let e := gf_Z b a in let f := gf_Z d c in let g := gf_A d c in let h := gf_A b a in
  mk_point (gf_M e f) (gf_M h g) (gf_M g f) (gf_M e h).

Definition cswap (p q : point) (b : Z) : point * point :=
  let '(p0, q0) := sel25519 (p_0 p) (p_0 q) b in
  let '(p1, q1) := sel25519 (p_1 p) (p_1 q) b in
  let '(p2, q2) := sel25519 (p_2 p) (p_2 q) b in
  let '(p3, q3) := sel25519 (p_3 p) (p_3 q) b in
  (mk_point p0 p1 p2 p3, mk_point q0 q1 q2 q3).

Definition pack (p : point) : list Z :=
  let zi := inv25519 (p_2 p) in
  let tx := gf_M (p_0 p) zi in
  let ty := gf_M (p_1 p) zi in
  let r := pack25519 ty in
  r.[31 <- Z.lxor r.[31] (u8 (Z.shiftl (par25519 tx) 7))].

Definition ladder_step (s : list Z) (k : Z) (pq : point * point) : point * point :=
  let '(p, q) := pq in
  let i := 255 - k in
  let b := Z.land (Z.shiftr s.[i / 8] (Z.land i 7)) 1 in
  let '(p, q) := cswap p q b in
  let q := ed_add q p in
  let p := ed_add p p in
  cswap p q b.
Definition scalarmult (q : point) (s : list Z) : point :=
  (zfor 256 0 (ladder_step s) (mk_point gf0 gf1 gf1 gf0, q)).1.

Definition scalarbase (s : list Z) : point :=
  scalarmult (mk_point base_X base_Y gf1 (gf_M base_X base_Y)) s.

(** [None] stands for the result -1. *)
Definition unpackneg (p : list Z) : option point :=
  let r2 := gf1 in
  let r1 := unpack25519 p in
  let num := gf_S r1 in let den := gf_M num Dc in let num := gf_Z num r2 in let den := gf_A r2 den in
  let den2 := gf_S den in let den4 := gf_S den2 in let den6 := gf_M den4 den2 in
  let t := gf_M den6 num in let t := gf_M t den in
  let t := pow2523 t in
  let t := gf_M t num in let t := gf_M t den in let t := gf_M t den in let r0 := gf_M t den in
  let chk := gf_S r0 in let chk := gf_M chk den in
  let r0 := if negb (neq25519 chk num =? 0) then gf_M r0 gf_I else r0 in
  let chk := gf_S r0 in let chk := gf_M chk den in
  if negb (neq25519 chk num =? 0) then None
  else
    let r0 := if par25519 r0 =? Z.shiftr p.[31] 7 then gf_Z gf0 r0 else r0 in
    Some (mk_point r0 r1 r2 (gf_M r0 r1)).

(** ** Scalars *)

(** One step of the inner loop of [modL]; the carry runs along. *)
Definition modL_inner (i : Z) (xi : Z) (k : Z) (xc : list Z * Z) : list Z * Z :=
  let '(x, carry) := xc in
  let j := i - 32 + k in
  let x := x.[j <- s64 (x.[j] + (carry - 16 * xi * gf_L.[j - (i - 32)]))] in
  let carry := Z.shiftr (s64 (x.[j] + 128)) 8 in
  (x.[j <- s64 (x.[j] - Z.shiftl carry 8)], carry).
Definition modL_top (k : Z) (x : list Z) : list Z :=
  let i := 63 - k in
  let '(x, carry) := zfor 20 0 (modL_inner i x.[i]) (x, 0) in
  let j := i - 12 in
  x.[j <- s64 (x.[j] + carry)].[i <- 0].
Definition modL_fold (j : Z) (xc : list Z * Z) : list Z * Z :=
  let '(x, carry) := xc in
  let x := x.[j <- s64 (x.[j] + (carry - Z.shiftr x.[31] 4 * gf_L.[j]))] in
  (x.[j <- Z.land x.[j] 255], Z.shiftr x.[j] 8).
Definition modL (x : list Z) : list Z :=
  let x := zfor 32 0 modL_top x in
  let '(x, carry) := zfor 32 0 modL_fold (x, 0) in
  let x := zfor 32 0 (λ j x, x.[j <- s64 (x.[j] - carry * gf_L.[j])]) x in
  (zfor 32 0 (λ i xr, let '(x, r) := xr in
     (x.[i + 1 <- s64 (x.[i + 1] + Z.shiftr x.[i] 8)], r.[i <- Z.land x.[i] 255])) (x, replicate 64 0)).2.

Definition ed_reduce (r : list Z) : list Z := modL (take 64 r).

(** ** Verification; [ctx0] is the uninitialised buffer of the hash context. *)
Definition ed25519_verify (ctx0 msg sig pk : list Z) : Z :=
  match unpackneg pk with
  | None => 0
  | Some q =>
      let c := Sha512.sha512_init ctx0 in
      let c := Sha512.sha512_update c (take 32 sig) in
      let c := Sha512.sha512_update c (take 32 pk) in
      let c := Sha512.sha512_update c msg in
      let h := ed_reduce (Sha512.sha512_final c) in
      let p := scalarmult q h in
      let q := scalarbase (drop 32 sig) in
      let p := ed_add p q in
      let t := pack p in
      b2z (crypto_verify_32 sig t =? 0)
  end.
