(* ===== verification/EdLimbs.v ===== *)
(** * Numbers as limbs

    Positional sums over arrays, carries and digits, shared by the field and
    the scalar arithmetic of [src/crypto/ed25519.c]; and the correctness of
    the carry chain [car25519]. *)

From S2P Require Import Prelude ShaMd Ed25519.

(** ** Weighted sums *)

Section wsum.
Context (b : Z).

Fixpoint wsum (f : Z → Z) (n : nat) : Z :=
  match n with
  | O => 0
  | S n => wsum f n + f (Z.of_nat n) * b ^ Z.of_nat n
  end.

Lemma wsum_S f n : wsum f (S n) = wsum f n + f (Z.of_nat n) * b ^ Z.of_nat n.
Proof. done. Qed.

Lemma wsum_ext f g n : (∀ i, 0 ≤ i < Z.of_nat n → f i = g i) → wsum f n = wsum g n.
Proof. induction n as [|n IH]; intros E; cbn; [done|]. rewrite IH, E by (try intros; try apply E; lia). done. Qed.

Lemma wsum_add f g n : wsum (λ i, f i + g i) n = wsum f n + wsum g n.
Proof. induction n as [|n IH]; cbn; [done|]. rewrite IH. lia. Qed.

Lemma wsum_sub f g n : wsum (λ i, f i - g i) n = wsum f n - wsum g n.
Proof. induction n as [|n IH]; cbn; [done|]. rewrite IH. lia. Qed.

Lemma wsum_scale k f n : wsum (λ i, k * f i) n = k * wsum f n.
Proof. induction n as [|n IH]; cbn; [lia|]. rewrite IH. lia. Qed.

Lemma wsum_0 n : wsum (λ _, 0) n = 0.
Proof. induction n as [|n IH]; cbn; [done|]. rewrite IH. lia. Qed.

Lemma wsum_first k n : (0 < n)%nat → wsum (λ j, if j =? 0 then k else 0) n = k.
Proof.
  induction n as [|n IH]; intros Hn; [lia|]. cbn [wsum]. destruct (Z.eqb_spec (Z.of_nat n) 0) as [E|E].
  - rewrite E. replace n with O by lia. cbn. lia.
  - rewrite IH by lia. lia.
Qed.

Lemma wsum_app f m n : wsum f (m + n) = wsum f m + b ^ Z.of_nat m * wsum (λ i, f (Z.of_nat m + i)) n.
Proof.
  induction n as [|n IH]; [rewrite Nat.add_0_r; cbn; lia|]. rewrite Nat.add_succ_r. cbn [wsum]. rewrite IH, Nat2Z.inj_add, Z.pow_add_r by lia. lia.
Qed.

(** One limb changed. *)
Lemma wsum_set (a : list Z) i x n : 0 ≤ i < Z.of_nat n → Z.of_nat n ≤ zlen a →
  wsum (λ j, (a.[i <- x]).[j]) n = wsum (λ j, a.[j]) n + (x - a.[i]) * b ^ i.
Proof.
  induction n as [|n IH]; intros Hi Hn; [lia|]. cbn [wsum]. rewrite aget_aset by lia. destruct (Z.eqb_spec i (Z.of_nat n)) as [->|].
  - rewrite (wsum_ext _ (λ j, a.[j])); [lia|]. intros j Hj. apply aget_aset_ne; lia.
  - rewrite IH by lia. lia.
Qed.

Context (Hb : 1 < b).

Lemma wsum_bound f n : (∀ i, 0 ≤ i < Z.of_nat n → 0 ≤ f i < b) → 0 ≤ wsum f n < b ^ Z.of_nat n.
Proof.
  induction n as [|n IH]; intros Hf; cbn [wsum]; [cbn; lia|]. destruct (IH ltac:(intros; apply Hf; lia)). pose proof (Hf (Z.of_nat n) ltac:(lia)).
  rewrite Nat2Z.inj_succ, Z.pow_succ_r by lia. assert (0 < b ^ Z.of_nat n) by (apply Z.pow_pos_nonneg; lia). nia.
Qed.

(** ** Carries and digits

    The carry into position [n] and the digit that stays at position [i]. *)
Fixpoint cy (f : Z → Z) (n : nat) : Z :=
  match n with
  | O => 0
  | S n => (f (Z.of_nat n) + cy f n) / b
  end.
Definition digit (f : Z → Z) (i : Z) : Z := (f i + cy f (Z.to_nat i)) mod b.

Lemma digit_range f i : 0 ≤ digit f i < b.
Proof. apply Z.mod_pos_bound. lia. Qed.

Lemma wsum_digits f n : wsum f n = wsum (digit f) n + cy f n * b ^ Z.of_nat n.
Proof.
  induction n as [|n IH]; cbn [wsum cy]; [lia|]. rewrite IH.
  assert (digit f (Z.of_nat n) = (f (Z.of_nat n) + cy f n) mod b) as -> by (unfold digit; by rewrite Nat2Z.id). rewrite Nat2Z.inj_succ, Z.pow_succ_r by lia.
  pose proof (Z.div_mod (f (Z.of_nat n) + cy f n) b). nia.
Qed.

(** The carry out is the quotient of the whole. *)
Lemma cy_div f n : cy f n = wsum f n / b ^ Z.of_nat n.
Proof.
  rewrite (wsum_digits f n), Z.div_add by (apply Z.pow_nonzero; lia).
  rewrite Z.div_small; [lia|]. apply wsum_bound. intros. apply digit_range.
Qed.

Lemma cy_ext f g n : (∀ i, 0 ≤ i < Z.of_nat n → f i = g i) → cy f n = cy g n.
Proof. induction n as [|n IH]; intros E; cbn; [done|]. rewrite IH, E by (try intros; try apply E; lia). done. Qed.

(** The digits determine the number. *)
Lemma wsum_inj f g n : (∀ i, 0 ≤ i < Z.of_nat n → 0 ≤ f i < b) → (∀ i, 0 ≤ i < Z.of_nat n → 0 ≤ g i < b) →
  wsum f n = wsum g n → ∀ i, 0 ≤ i < Z.of_nat n → f i = g i.
Proof.
  intros Hf Hg. induction n as [|n IH]; intros E i Hi; [lia|]. cbn [wsum] in E.
  pose proof (wsum_bound f n ltac:(intros; apply Hf; lia)). pose proof (wsum_bound g n ltac:(intros; apply Hg; lia)).
  assert (Hn : f (Z.of_nat n) = g (Z.of_nat n)) by (set (w := b ^ Z.of_nat n) in *; nia).
  destruct (decide (i = Z.of_nat n)) as [->|]; [done|]. rewrite Hn in E. apply IH; [intros; apply Hf; lia|intros; apply Hg; lia|lia|lia].
Qed.
End wsum.

(** Digits of a number, least significant first. *)
Definition le_bytes (n : nat) (x : Z) : list Z := (λ i, (x / 256 ^ i) mod 256) <$> seqZ 0 (Z.of_nat n).

Lemma le_bytes_length n x : length (le_bytes n x) = n.
Proof. unfold le_bytes. rewrite length_fmap, length_seqZ. lia. Qed.

Lemma le_bytes_get n x i : 0 ≤ i < Z.of_nat n → (le_bytes n x).[i] = (x / 256 ^ i) mod 256.
Proof. intros Hi. apply lookup_aget. unfold le_bytes. rewrite list_lookup_fmap, lookup_seqZ_lt by lia. cbn. by rewrite Z2Nat.id by lia. Qed.

Lemma le_bytes_wsum n x : wsum 256 (λ i, (le_bytes n x).[i]) n = x mod 256 ^ Z.of_nat n.
Proof.
  rewrite (wsum_ext _ _ (λ i, (x / 256 ^ i) mod 256)) by (intros; by apply le_bytes_get).
  induction n as [|n IH]; cbn [wsum]; [by rewrite Z.mod_1_r|]. rewrite IH, Nat2Z.inj_succ, Z.pow_succ_r by lia.
  rewrite (Z.mul_comm 256). rewrite (Z.rem_mul_r x) by (try apply Z.pow_nonzero; lia). lia.
Qed.

(** A byte array is the digits of its value. *)
Lemma le_bytes_eq n (a : list Z) : length a = n → (∀ i, 0 ≤ i < Z.of_nat n → 0 ≤ a.[i] < 256) →
  a = le_bytes n (wsum 256 (λ i, a.[i]) n).
Proof.
  intros Hl Ha. apply list_eq_aget; [by rewrite le_bytes_length|]. rewrite Hl. intros i Hi.
  apply (wsum_inj 256 ltac:(lia) (λ i, a.[i]) (λ i, (le_bytes n (wsum 256 (λ i, a.[i]) n)).[i]) n); [done| | |done].
  - intros j Hj. rewrite le_bytes_get by done. apply Z.mod_pos_bound. lia.
  - rewrite le_bytes_wsum, Z.mod_small; [done|]. by apply wsum_bound; [lia|].
Qed.

(** ** Loops *)

(** A loop that fills an array. *)
Lemma build_loop n (f : Z → Z) (a : list Z) : length a = n →
  length (zfor n 0 (λ i o, o.[i <- f i]) a) = n ∧ ∀ i, 0 ≤ i < Z.of_nat n → (zfor n 0 (λ i o, o.[i <- f i]) a).[i] = f i.
Proof.
  intros Hl. destruct (zfor_inv (λ i o, length o = n ∧ ∀ j, 0 ≤ j < i → o.[j] = f j) n 0 (λ i o, o.[i <- f i]) a) as [H1 H2].
  - split; [done|lia].
  - intros j o Hj [H1 H2]. split; [by rewrite aset_length|]. intros k Hk. rewrite aget_aset by lia. case_match eqn:E; [f_equal; lia|]. apply H2. lia.
  - split; [done|]. intros i Hi. apply H2. lia.
Qed.

(** ** Field elements *)

Definition P25519 : Z := 2 ^ 255 - 19.
Definition gval (o : gf) : Z := wsum 65536 (λ i, o.[i]) 16.

(** Sixteen limbs of magnitude at most [n]. *)
Definition bnd (n : Z) (o : gf) : Prop := length o = 16%nat ∧ ∀ i, 0 ≤ i < 16 → - n ≤ o.[i] ≤ n.

Lemma bnd_weaken m n o : bnd m o → m ≤ n → bnd n o.
Proof. intros [Hl H] Hmn. split; [done|]. intros i Hi. specialize (H i Hi). lia. Qed.

Abbreviation limb o := (λ i, o.[i]).
Abbreviation cy16 o := (cy 65536 (limb o) 16).

(** One carry step moves the carry to the next limb. *)
Lemma car_limb_spec (o : gf) i x : length o = 16%nat → 0 ≤ i < 16 → o.[i] = x →
  -9223372036854775808 ≤ x < 9223372036854710272 → (∀ k, 0 ≤ k < 16 → - 2 ^ 62 - 2 ^ 47 ≤ o.[k] ≤ 2 ^ 62 + 2 ^ 47) →
  let c := x / 65536 in
  length (car_limb i o) = 16%nat ∧
  ∀ j, 0 ≤ j < 16 → (car_limb i o).[j] =
    if j =? i then x mod 65536
    else if j =? (if i <? 15 then i + 1 else 0) then o.[j] + (if i <? 15 then c else 38 * c) else o.[j].
Proof.
  intros Hl Hi Hx Hx' Hb c. unfold car_limb. cbv zeta. set (k := (i + 1) * b2z (i <? 15)).
  assert (Ek : k = if i <? 15 then i + 1 else 0) by (unfold k; destruct (i <? 15); cbn [b2z]; lia). rewrite <- Ek.
  assert (Hk : 0 ≤ k < 16 ∧ k ≠ i) by (rewrite Ek; case_match; lia). clearbody k.
  rewrite !aset_length. split; [done|]. intros j Hj.
  assert (E0 : s64 (o.[i] + 65536) = x + 65536) by (rewrite s64_small by lia; lia). rewrite E0.
  assert (Ec : Z.shiftr (x + 65536) 16 = c + 1) by (rewrite Z.shiftr_div_pow2 by lia; unfold c; change (2 ^ 16) with 65536; rewrite <- Z.div_add by lia; f_equal).
  assert (Hc : - 140737488355328 ≤ c < 140737488355328) by (unfold c; Z.to_euclidean_division_equations; lia).
  repeat first [rewrite aset_length | rewrite aget_aset_eq by (rewrite ?aset_length; lia) | rewrite (aget_aset_ne _ i k) by lia
               | rewrite (aget_aset_ne _ k i) by lia].
  rewrite Ec. pose proof (Hb k ltac:(lia)).
  assert (Eb : c + 1 - 1 + 37 * (c + 1 - 1) * b2z (i =? 15) = if i <? 15 then c else 38 * c).
  { destruct (Z.eqb_spec i 15), (Z.ltb_spec i 15); cbn [b2z]; lia. }
  rewrite Eb. assert (Hcc : - 2 ^ 53 ≤ (if i <? 15 then c else 38 * c) ≤ 2 ^ 53) by (case_match; lia).
  set (cc := if i <? 15 then c else 38 * c) in *. clearbody cc. clear Ek Eb. rewrite (s64_small (o.[k] + cc)) by lia.
  assert (Em : s64 (x + 65536 - Z.shiftl (c + 1) 16) = x mod 65536).
  { rewrite Z.shiftl_mul_pow2 by lia. change (2 ^ 16) with 65536. pose proof (Z.div_mod x 65536 ltac:(lia)) as Hdm. fold c in Hdm.
    pose proof (Z.mod_pos_bound x 65536 ltac:(lia)). rewrite s64_small by lia. lia. }
  rewrite Em, aget_aset by (rewrite ?aset_length; lia). rewrite Z.eqb_sym. destruct (Z.eqb_spec j i) as [|Hji]; [done|].
  rewrite aget_aset by (rewrite ?aset_length; lia). rewrite Z.eqb_sym. destruct (Z.eqb_spec j k) as [->|]; [done|]. apply aget_aset_ne; lia.
Qed.

Lemma cy_bound b f n N C : 1 < b → (∀ i, 0 ≤ i < Z.of_nat n → - N ≤ f i ≤ N) → 0 ≤ N → N + C ≤ b * C → - C ≤ cy b f n ≤ C.
Proof.
  intros Hb Hf HN HC. induction n as [|n IH]; cbn [cy]; [nia|]. destruct (IH ltac:(intros; apply Hf; lia)). pose proof (Hf (Z.of_nat n) ltac:(lia)).
  split; [apply Z.div_le_lower_bound|apply Z.div_le_upper_bound]; lia.
Qed.

Lemma cy_step b f n : cy b f (S n) = (f (Z.of_nat n) + cy b f n) / b.
Proof. done. Qed.

#[local] Opaque car_limb zfor digit wsum cy.

(** [car25519] leaves the digits; the last carry comes back, times 38, at the
    bottom. *)
Lemma car25519_spec o : bnd (2 ^ 62) o →
  length (car25519 o) = 16%nat ∧
  ∀ j, 0 ≤ j < 16 → (car25519 o).[j] = digit 65536 (limb o) j + (if j =? 0 then 38 * cy16 o else 0).
Proof.
  intros [Hl Hb].
  assert (Hcy : ∀ n, (n ≤ 16)%nat → - 2 ^ 47 ≤ cy 65536 (limb o) n ≤ 2 ^ 47) by (intros n Hn; apply (cy_bound 65536 _ _ (2 ^ 62) (2 ^ 47)); [lia|intros; apply Hb; lia|lia|lia]).
  destruct (zfor_inv (λ i cur, length cur = 16%nat ∧ ∀ j, 0 ≤ j < 16 → cur.[j] =
    if j <? i then digit 65536 (limb o) j + (if (j =? 0) && (i =? 16) then 38 * cy16 o else 0)
    else if j =? i then o.[i] + cy 65536 (limb o) (Z.to_nat i) else o.[j]) 16 0 car_limb o) as [H1 H2].
  - split; [done|]. intros j Hj. destruct (Z.ltb_spec j 0); [lia|]. destruct (Z.eqb_spec j 0) as [->|]; [change (cy 65536 (limb o) (Z.to_nat 0)) with 0; lia|done].
  - intros i cur Hi [Hcl Hcur]. set (x := o.[i] + cy 65536 (limb o) (Z.to_nat i)).
    pose proof (Hcy (Z.to_nat i) ltac:(lia)) as Hci. pose proof (Hb i ltac:(lia)) as Hoi.
    assert (Ex : cur.[i] = x) by (rewrite Hcur by lia; rewrite Z.ltb_irrefl, Z.eqb_refl; done).
    destruct (car_limb_spec cur i x Hcl ltac:(lia) Ex) as [G1 G2]; [unfold x; lia| |].
    { intros k Hk. rewrite Hcur by lia. pose proof (Hb k Hk). pose proof (digit_range 65536 ltac:(lia) (limb o) k).
      destruct (Z.eqb_spec i 16); [lia|]. rewrite andb_false_r. repeat case_match; lia. }
    split; [done|]. intros j Hj. rewrite G2, Hcur by lia.
    assert (Ecy : cy 65536 (limb o) (Z.to_nat (i + 1)) = x / 65536).
    { replace (Z.to_nat (i + 1)) with (S (Z.to_nat i)) by lia. rewrite cy_step, Z2Nat.id by lia. done. }
    assert (E15 : i = 15 → cy16 o = x / 65536) by (intros ->; rewrite <- Ecy; done).
    assert (Ed : digit 65536 (limb o) i = x mod 65536) by done.
    destruct (Z.ltb_spec i 15); repeat case_match; zbool; try lia; try (assert (j = i) as -> by lia); try (assert (j = i + 1) as -> by lia);
      rewrite ?Ecy, ?Ed, ?E15 by lia; try lia.
  - change (0 + Z.of_nat 16) with 16 in H2. split; [exact H1|]. intros j Hj. unfold car25519. rewrite H2 by exact Hj. destruct (Z.ltb_spec j 16); [|lia]. by rewrite andb_true_r.
Qed.

Lemma car25519_val o : bnd (2 ^ 62) o → gval (car25519 o) = gval o - cy16 o * (2 * P25519).
Proof.
  intros Hb. destruct (car25519_spec o Hb) as [Hl Hg]. unfold gval at 1.
  rewrite (wsum_ext _ _ (λ j, digit 65536 (limb o) j + (if j =? 0 then 38 * cy16 o else 0))) by (intros; apply Hg; lia).
  rewrite wsum_add. 
  assert (E : gval o = wsum 65536 (digit 65536 (limb o)) 16 + cy16 o * 2 ^ 256) by (apply (wsum_digits 65536); lia).
  rewrite wsum_first by lia.
  rewrite E. change (wsum 65536 (λ i : Z, digit 65536 (limb o) i) 16) with (wsum 65536 (digit 65536 (limb o)) 16). unfold P25519. lia.
Qed.

(** The value is unchanged modulo the prime. *)
Lemma car25519_mod o : bnd (2 ^ 62) o → gval (car25519 o) mod P25519 = gval o mod P25519.
Proof.
  intros Hb. rewrite car25519_val by done. replace (gval o - cy16 o * (2 * P25519)) with (gval o + (- cy16 o * 2) * P25519) by lia.
  apply Z_mod_plus_full.
Qed.

(** After one pass only the bottom limb is large. *)
Lemma car25519_bound1 o : bnd (2 ^ 62) o → (∀ i, 1 ≤ i < 16 → 0 ≤ (car25519 o).[i] < 65536) ∧ - 2 ^ 53 ≤ (car25519 o).[0] ≤ 2 ^ 53.
Proof.
  intros Hb. destruct (car25519_spec o Hb) as [_ Hg]. pose proof (cy_bound 65536 (limb o) 16 (2 ^ 62) (2 ^ 47) ltac:(lia) ltac:(intros; apply Hb; lia) ltac:(lia) ltac:(lia)).
  pose proof (digit_range 65536 ltac:(lia) (limb o)) as Hd. split.
  - intros i Hi. rewrite Hg by lia. destruct (Z.eqb_spec i 0); [lia|]. pose proof (Hd i). lia.
  - rewrite Hg by lia. cbn [Z.eqb]. pose proof (Hd 0). lia.
Qed.

(** After two passes every limb is small. *)
Lemma car25519_bound2 o : length o = 16%nat → (∀ i, 1 ≤ i < 16 → 0 ≤ o.[i] < 65536) → - 2 ^ 53 ≤ o.[0] ≤ 2 ^ 53 →
  (∀ i, 1 ≤ i < 16 → 0 ≤ (car25519 o).[i] < 65536) ∧ - 38 ≤ (car25519 o).[0] ≤ 65535 + 38.
Proof.
  intros Hl Hi H0. assert (Hb : bnd (2 ^ 62) o).
  { split; [done|]. intros i Hr. destruct (decide (i = 0)) as [->|]; [lia|]. specialize (Hi i ltac:(lia)). lia. }
  destruct (car25519_spec o Hb) as [_ Hg]. pose proof (digit_range 65536 ltac:(lia) (limb o)) as Hd.
  assert (Hc : - 1 ≤ cy16 o ≤ 1).
  { rewrite cy_div by lia. change (65536 ^ Z.of_nat 16) with (2 ^ 256).
    assert (Hs : wsum 65536 (limb o) 16 = o.[0] + 65536 * wsum 65536 (λ i, o.[1 + i]) 15).
    { change 16%nat with (1 + 15)%nat. rewrite wsum_app. change (wsum 65536 (limb o) 1) with (0 + o.[0] * 1). change (65536 ^ Z.of_nat 1) with 65536. f_equal. lia. }
    pose proof (wsum_bound 65536 ltac:(lia) (λ i, o.[1 + i]) 15 ltac:(intros; apply Hi; lia)) as Hw. change (65536 ^ Z.of_nat 15) with (2 ^ 240) in Hw.
    rewrite Hs. Z.to_euclidean_division_equations. lia. }
  split.
  - intros i Hr. rewrite Hg by lia. destruct (Z.eqb_spec i 0); [lia|]. pose proof (Hd i). lia.
  - rewrite Hg by lia. cbn [Z.eqb]. pose proof (Hd 0). lia.
Qed.
