(* ===== verification/EdField.v ===== *)
(** * Field arithmetic of Ed25519

    The limb arithmetic of [src/crypto/ed25519.c] computes in the field of
    2^255 - 19 elements: sums, differences, products, powers, packing and
    unpacking, without overflow for the limb sizes the code produces. *)

From S2P Require Import Prelude ShaMd Ed25519 EdLimbs.

#[local] Opaque zfor digit wsum cy.

(** Congruence modulo the prime. *)
Definition feq (x y : Z) : Prop := x mod P25519 = y mod P25519.
Infix "≡p" := feq (at level 70) : secos_scope.

#[export] Instance feq_equiv : Equivalence feq.
Proof. split; [intros x|intros x y|intros x y z]; unfold feq; congruence. Qed.
#[export] Instance feq_add : Proper (feq ==> feq ==> feq) Z.add.
Proof. intros x x' Hx y y' Hy. unfold feq in *. by rewrite Zplus_mod, Hx, Hy, <- Zplus_mod. Qed.
#[export] Instance feq_sub : Proper (feq ==> feq ==> feq) Z.sub.
Proof. intros x x' Hx y y' Hy. unfold feq in *. by rewrite Zminus_mod, Hx, Hy, <- Zminus_mod. Qed.
#[export] Instance feq_mul : Proper (feq ==> feq ==> feq) Z.mul.
Proof. intros x x' Hx y y' Hy. unfold feq in *. by rewrite Zmult_mod, Hx, Hy, <- Zmult_mod. Qed.

Lemma feq_mod x : x mod P25519 ≡p x.
Proof. unfold feq. apply Zmod_mod. Qed.

Lemma feq_multiple x k : x + k * P25519 ≡p x.
Proof. unfold feq. apply Z_mod_plus_full. Qed.

(** The limbs [o], of size at most [N], stand for [x]. *)
Record fe (N : Z) (o : gf) (x : Z) : Prop := mk_fe {
  fe_bnd : bnd N o;
  fe_val : gval o ≡p x
}.

Lemma fe_weaken M N o x : fe M o x → M ≤ N → fe N o x.
Proof. intros [H1 H2] Hn. constructor; [by eapply bnd_weaken|done]. Qed.

Lemma fe_eq N o x y : fe N o x → x ≡p y → fe N o y.
Proof. intros [H1 H2] E. constructor; [done|]. by rewrite H2. Qed.

(** ** Sums and differences *)

Lemma gf_A_fe M N a b x y : fe M a x → fe N b y → M + N ≤ 2 ^ 62 → fe (M + N) (gf_A a b) (x + y).
Proof.
  intros [[La Ha] Va] [[Lb Hb] Vb] HMN. destruct (build_loop 16 (λ i, s64 (a.[i] + b.[i])) gf0 eq_refl) as [H1 H2]. fold (gf_A a b) in *.
  assert (G : ∀ i, 0 ≤ i < 16 → (gf_A a b).[i] = a.[i] + b.[i]).
  { intros i Hi. unfold gf_A. rewrite H2 by lia. specialize (Ha i Hi). specialize (Hb i Hi). apply s64_small. lia. }
  constructor; [split; [exact H1|]; intros i Hi; rewrite G by done; specialize (Ha i Hi); specialize (Hb i Hi); lia|].
  rewrite <- Va, <- Vb. unfold gval. rewrite <- wsum_add. rewrite (wsum_ext _ (limb (gf_A a b)) (λ i, a.[i] + b.[i])) by (intros; apply G; lia). done.
Qed.

Lemma gf_Z_fe M N a b x y : fe M a x → fe N b y → M + N ≤ 2 ^ 62 → fe (M + N) (gf_Z a b) (x - y).
Proof.
  intros [[La Ha] Va] [[Lb Hb] Vb] HMN. destruct (build_loop 16 (λ i, s64 (a.[i] - b.[i])) gf0 eq_refl) as [H1 H2].
  assert (G : ∀ i, 0 ≤ i < 16 → (gf_Z a b).[i] = a.[i] - b.[i]).
  { intros i Hi. unfold gf_Z. rewrite H2 by lia. specialize (Ha i Hi). specialize (Hb i Hi). apply s64_small. lia. }
  constructor; [split; [exact H1|]; intros i Hi; rewrite G by done; specialize (Ha i Hi); specialize (Hb i Hi); lia|].
  rewrite <- Va, <- Vb. unfold gval. rewrite <- wsum_sub. rewrite (wsum_ext _ (limb (gf_Z a b)) (λ i, a.[i] - b.[i])) by (intros; apply G; lia). done.
Qed.

(** ** Products *)

Section mul.
Context (a b : gf) (Ha : bnd (2 ^ 20) a) (Hb : bnd (2 ^ 20) b).

Lemma prod_bound i j : 0 ≤ i < 16 → 0 ≤ j < 16 → - 2 ^ 40 ≤ a.[i] * b.[j] ≤ 2 ^ 40.
Proof. intros Hi Hj. pose proof (proj2 Ha i Hi). pose proof (proj2 Hb j Hj). change (2 ^ 40) with (2 ^ 20 * 2 ^ 20). nia. Qed.

(** One row of the schoolbook product. *)
Lemma mul_row_spec i t C : 0 ≤ i < 16 → length t = 31%nat → 0 ≤ C ≤ 2 ^ 60 → (∀ k, 0 ≤ k < 31 → - C ≤ t.[k] ≤ C) →
  let t' := mul_row a b i t in
  length t' = 31%nat ∧ (∀ k, 0 ≤ k < 31 → - (C + 2 ^ 40) ≤ t'.[k] ≤ C + 2 ^ 40) ∧
  wsum 65536 (limb t') 31 = wsum 65536 (limb t) 31 + a.[i] * 65536 ^ i * gval b.
Proof.
  intros Hi Hl HC Ht. unfold mul_row. cbv zeta. set (body := λ (j : Z) (t : list Z), t.[i + j <- s64 (t.[i + j] + a.[i] * b.[j])]).
  destruct (zfor_inv (λ j t', length t' = 31%nat ∧ (∀ k, 0 ≤ k < 31 → - (C + (if k <? i + j then 2 ^ 40 else 0)) ≤ t'.[k] ≤ C + (if k <? i + j then 2 ^ 40 else 0)) ∧
    wsum 65536 (limb t') 31 = wsum 65536 (limb t) 31 + a.[i] * 65536 ^ i * wsum 65536 (limb b) (Z.to_nat j)) 16 0 body t) as (G1 & G2 & G3).
  - split_and!; [done|intros k Hk; specialize (Ht k Hk); case_match; lia|]. change (wsum 65536 (limb b) (Z.to_nat 0)) with 0. lia.
  - intros j t' Hj (G1 & G2 & G3). unfold body. pose proof (prod_bound i j Hi ltac:(lia)) as Hp.
    pose proof (G2 (i + j) ltac:(lia)) as Hij. rewrite Z.ltb_irrefl in Hij. rewrite s64_small by lia. split_and!.
    + by rewrite aset_length.
    + intros k Hk. rewrite aget_aset by lia. specialize (G2 k Hk). destruct (Z.eqb_spec (i + j) k) as [<-|]; repeat case_match; lia.
    + rewrite wsum_set, G3 by lia. replace (Z.to_nat (j + 1)) with (S (Z.to_nat j)) by lia.
      rewrite (wsum_S 65536 (limb b) (Z.to_nat j)), Z2Nat.id, Z.pow_add_r by lia. lia.
  - split_and!; [done|intros k Hk; specialize (G2 k Hk); revert G2; case_match; lia|exact G3].
Qed.

Lemma mul_rows_spec : let t := zfor 16 0 (mul_row a b) (replicate 31 0) in
  length t = 31%nat ∧ (∀ k, 0 ≤ k < 31 → - 2 ^ 44 ≤ t.[k] ≤ 2 ^ 44) ∧ wsum 65536 (limb t) 31 = gval a * gval b.
Proof.
  cbv zeta. destruct (zfor_inv (λ i t, length t = 31%nat ∧ (∀ k, 0 ≤ k < 31 → - (i * 2 ^ 40) ≤ t.[k] ≤ i * 2 ^ 40) ∧
    wsum 65536 (limb t) 31 = wsum 65536 (limb a) (Z.to_nat i) * gval b) 16 0 (mul_row a b) (replicate 31 0)) as (G1 & G2 & G3).
  - split_and!; [done|intros k Hk; rewrite aget_replicate by lia; lia|].
    rewrite (wsum_ext _ _ (λ _, 0)) by (intros; apply aget_replicate; lia). by rewrite wsum_0.
  - intros i t Hi (G1 & G2 & G3). destruct (mul_row_spec i t (i * 2 ^ 40)) as (H1 & H2 & H3); [lia|done|lia|done|].
    split_and!; [done|intros k Hk; specialize (H2 k Hk); lia|]. rewrite H3, G3. replace (Z.to_nat (i + 1)) with (S (Z.to_nat i)) by lia.
    rewrite (wsum_S 65536 (limb a) (Z.to_nat i)), Z2Nat.id by lia. lia.
  - split_and!; [done|intros k Hk; specialize (G2 k Hk); lia|exact G3].
Qed.

(** Limbs above the sixteenth come back times 38. *)
Lemma mul_fold_spec t : length t = 31%nat → (∀ k, 0 ≤ k < 31 → - 2 ^ 44 ≤ t.[k] ≤ 2 ^ 44) →
  let t' := zfor 15 0 (λ i t, t.[i <- s64 (t.[i] + 38 * t.[i + 16])]) t in
  bnd (2 ^ 50) (take 16 t') ∧ gval (take 16 t') ≡p wsum 65536 (limb t) 31.
Proof.
  intros Hl Ht. cbv zeta. set (body := λ (i : Z) (t : list Z), t.[i <- s64 (t.[i] + 38 * t.[i + 16])]).
  destruct (zfor_inv (λ i t', length t' = 31%nat ∧ ∀ k, 0 ≤ k < 31 → t'.[k] = if k <? i then t.[k] + 38 * t.[k + 16] else t.[k]) 15 0 body t) as [G1 G2].
  - split; [done|]. intros k Hk. case_match eqn:E; [lia|done].
  - intros i t' Hi [G1 G2]. unfold body. split; [by rewrite aset_length|]. intros k Hk. rewrite aget_aset by lia.
    pose proof (Ht i ltac:(lia)). pose proof (Ht (i + 16) ltac:(lia)). rewrite !G2 by lia.
    destruct (Z.ltb_spec i i); [lia|]. destruct (Z.ltb_spec (i + 16) i); [lia|]. rewrite s64_small by lia.
    destruct (Z.eqb_spec i k) as [<-|]; [case_match eqn:E; [done|lia]|]. repeat case_match; zbool; try lia; done.
  - change (0 + Z.of_nat 15) with 15 in G2. set (t' := zfor 15 0 body t) in *. clearbody t'.
    assert (G : ∀ k, 0 ≤ k < 16 → (take 16 t').[k] = t.[k] + (if k <? 15 then 38 * t.[k + 16] else 0)).
    { intros k Hk. rewrite aget_take, G2 by lia. case_match; lia. }
    split.
    + split; [rewrite length_take; lia|]. intros k Hk. rewrite G by done. pose proof (Ht k ltac:(lia)). case_match; [|lia]. pose proof (Ht (k + 16) ltac:(lia)). lia.
    + unfold gval. rewrite (wsum_ext _ _ (λ k, t.[k] + (if k <? 15 then 38 * t.[k + 16] else 0)) 16) by (intros; apply G; lia). rewrite wsum_add.
      change 31%nat with (16 + 15)%nat. rewrite (wsum_app 65536 (limb t) 16 15).
      assert (wsum 65536 (λ k, if k <? 15 then 38 * t.[k + 16] else 0) 16 = 38 * wsum 65536 (λ i, t.[Z.of_nat 16 + i]) 15) as ->.
      { rewrite <- wsum_scale, (wsum_S 65536 (λ k, if k <? 15 then 38 * t.[k + 16] else 0) 15). change (Z.of_nat 15 <? 15) with false. cbv iota. rewrite Z.mul_0_l, Z.add_0_r.
        apply wsum_ext. intros i Hi. case_match eqn:E; [do 2 f_equal; lia|lia]. }
      set (y := wsum 65536 (λ i, t.[Z.of_nat 16 + i]) 15). set (x := wsum 65536 (limb t) 16).
      replace (x + 65536 ^ Z.of_nat 16 * y) with (x + 38 * y + (2 * y) * P25519); [by rewrite feq_multiple|].
      change (65536 ^ Z.of_nat 16) with (2 ^ 256). unfold P25519. lia.
Qed.
End mul.

Lemma gf_M_fe a b x y : fe (2 ^ 20) a x → fe (2 ^ 20) b y → fe (2 ^ 17) (gf_M a b) (x * y).
Proof.
  intros [Ha Va] [Hb Vb]. unfold gf_M. cbv zeta. destruct (mul_rows_spec a b Ha Hb) as (R1 & R2 & R3). set (t := zfor 16 0 (mul_row a b) (replicate 31 0)) in *. clearbody t.
  destruct (mul_fold_spec t R1 R2) as [F1 F2]. set (u := take 16 _) in *. clearbody u. cbv zeta in F1, F2.
  assert (B0 : bnd (2 ^ 62) u) by (eapply bnd_weaken; [done|lia]). destruct (car25519_bound1 u B0) as [C1 C2]. pose proof (car25519_mod u B0) as C3.
  destruct (car25519_spec u B0) as [C4 _]. set (v := car25519 u) in *. clearbody v.
  assert (B1 : bnd (2 ^ 62) v).
  { split; [done|]. intros i Hi. destruct (decide (i = 0)) as [->|]; [lia|]. specialize (C1 i ltac:(lia)). lia. }
  destruct (car25519_bound2 v C4 C1 C2) as [D1 D2]. pose proof (car25519_mod v B1) as D3. destruct (car25519_spec v B1) as [D4 _]. set (w := car25519 v) in *. clearbody w.
  constructor.
  - split; [done|]. intros i Hi. destruct (decide (i = 0)) as [->|]; [lia|]. specialize (D1 i ltac:(lia)). lia.
  - unfold feq at 1. rewrite D3, C3. change (gval u ≡p x * y). rewrite F2, R3, Va, Vb. done.
Qed.

(** The sizes the code produces: products, and sums of two products. *)
Lemma gf_M_fe17 a b x y : fe (2 ^ 17) a x → fe (2 ^ 17) b y → fe (2 ^ 17) (gf_M a b) (x * y).
Proof. intros Ha Hb. apply gf_M_fe; [apply (fe_weaken _ _ _ _ Ha)|apply (fe_weaken _ _ _ _ Hb)]; lia. Qed.

Lemma gf_M_fe18 a b x y : fe (2 ^ 18) a x → fe (2 ^ 18) b y → fe (2 ^ 17) (gf_M a b) (x * y).
Proof. intros Ha Hb. apply gf_M_fe; [apply (fe_weaken _ _ _ _ Ha)|apply (fe_weaken _ _ _ _ Hb)]; lia. Qed.

Lemma gf_A_fe17 a b x y : fe (2 ^ 17) a x → fe (2 ^ 17) b y → fe (2 ^ 18) (gf_A a b) (x + y).
Proof. intros Ha Hb. apply (gf_A_fe (2 ^ 17) (2 ^ 17)); [exact Ha|exact Hb|lia]. Qed.

Lemma gf_Z_fe17 a b x y : fe (2 ^ 17) a x → fe (2 ^ 17) b y → fe (2 ^ 18) (gf_Z a b) (x - y).
Proof. intros Ha Hb. apply (gf_Z_fe (2 ^ 17) (2 ^ 17)); [exact Ha|exact Hb|lia]. Qed.

Lemma gf_S_fe a x : fe (2 ^ 20) a x → fe (2 ^ 17) (gf_S a) (x * x).
Proof. intros Ha. exact (gf_M_fe a a x x Ha Ha). Qed.

(** ** The canonical encoding *)

(** Sixteen digits. *)
Definition canon (t : gf) : Prop := length t = 16%nat ∧ ∀ i, 0 ≤ i < 16 → 0 ≤ t.[i] < 65536.

Lemma canon_val t : canon t → 0 ≤ gval t < 2 ^ 256.
Proof. intros [_ Ht]. change (2 ^ 256) with (65536 ^ Z.of_nat 16). apply wsum_bound; [lia|]. intros i Hi. apply Ht. lia. Qed.

(** Three carry passes give the digits of a number below 2^256. *)
Lemma car3_spec n : bnd (2 ^ 62) n → let t := car25519 (car25519 (car25519 n)) in canon t ∧ gval t ≡p gval n.
Proof.
  intros B0. cbv zeta. destruct (car25519_bound1 n B0) as [C1 C2]. pose proof (car25519_mod n B0) as C3.
  destruct (car25519_spec n B0) as [C4 _]. set (v := car25519 n) in *. clearbody v.
  assert (B1 : bnd (2 ^ 62) v).
  { split; [done|]. intros i Hi. destruct (decide (i = 0)) as [->|]; [lia|]. specialize (C1 i ltac:(lia)). lia. }
  destruct (car25519_bound2 v C4 C1 C2) as [D1 D2]. pose proof (car25519_mod v B1) as D3. destruct (car25519_spec v B1) as [D4 _]. set (w := car25519 v) in *. clearbody w.
  assert (B2 : bnd (2 ^ 62) w).
  { split; [done|]. intros i Hi. destruct (decide (i = 0)) as [->|]; [lia|]. specialize (D1 i ltac:(lia)). lia. }
  destruct (car25519_spec w B2) as [E4 E5]. pose proof (car25519_mod w B2) as E3. split; [|unfold feq; by rewrite E3, D3, C3].
  split; [done|]. intros i Hi. rewrite E5 by done. pose proof (digit_range 65536 ltac:(lia) (limb w)) as Hd. destruct (Z.eqb_spec i 0) as [->|]; [|pose proof (Hd i); lia].
  assert (Hs : gval w = w.[0] + 65536 * wsum 65536 (λ i, w.[1 + i]) 15).
  { unfold gval. change 16%nat with (1 + 15)%nat. rewrite wsum_app. change (wsum 65536 (limb w) 1) with (0 + w.[0] * 1). change (65536 ^ Z.of_nat 1) with 65536. f_equal. lia. }
  pose proof (wsum_bound 65536 ltac:(lia) (λ i, w.[1 + i]) 15 ltac:(intros; apply D1; lia)) as Hw. change (65536 ^ Z.of_nat 15) with (2 ^ 240) in Hw.
  assert (Hcy : cy16 w = gval w / 2 ^ 256) by (rewrite cy_div by lia; reflexivity).
  assert (Hd0 : digit 65536 (limb w) 0 = w.[0] mod 65536).
  { transitivity ((w.[0] + 0) mod 65536); [reflexivity|]. by rewrite Z.add_0_r. }
  rewrite Hd0, Hcy, Hs. set (y := wsum 65536 (λ i, w.[1 + i]) 15) in *. set (x := w.[0]) in *. clearbody x y. clear -D2 Hw.
  Z.to_euclidean_division_equations. lia.
Qed.

Lemma sel25519_spec (p q : gf) b : length p = 16%nat → length q = 16%nat → b = 0 ∨ b = 1 → sel25519 p q b = if b =? 1 then (q, p) else (p, q).
Proof.
  intros Hp Hq Hb. unfold sel25519. cbv zeta. set (body := sel_limb (Z.lnot (b - 1))).
  destruct (zfor_inv (λ i pq, length pq.1 = 16%nat ∧ length pq.2 = 16%nat ∧ ∀ j, 0 ≤ j < 16 →
    pq.1.[j] = (if (b =? 1) && (j <? i) then q.[j] else p.[j]) ∧ pq.2.[j] = (if (b =? 1) && (j <? i) then p.[j] else q.[j])) 16 0 body (p, q)) as (G1 & G2 & G3).
  - cbn [fst snd]. split_and!; [done|done|]. intros j Hj. destruct (Z.ltb_spec j 0); [lia|]. by rewrite andb_false_r.
  - intros i [p' q'] Hi (G1 & G2 & G3). cbn [fst snd] in *. unfold body, sel_limb. cbn [fst snd]. rewrite !aset_length. split_and!; [done|done|]. intros j Hj.
    rewrite !aget_aset by lia. destruct (G3 i ltac:(lia)) as [E1 E2]. destruct (G3 j Hj) as [E3 E4]. rewrite E1, E2, E3, E4, Z.ltb_irrefl, andb_false_r.
    destruct (Z.eqb_spec i j) as [<-|].
    + assert ((i <? i + 1) = true) as -> by lia. destruct Hb as [-> | ->]; cbn [Z.eqb andb Pos.eqb].
      * change (Z.lnot (0 - 1)) with 0. by rewrite Z.land_0_l, !Z.lxor_0_r.
      * change (Z.lnot (1 - 1)) with (-1). rewrite Z.land_m1_l. rewrite <- Z.lxor_assoc, Z.lxor_nilpotent, Z.lxor_0_l. split; [done|].
        by rewrite Z.lxor_comm, Z.lxor_assoc, Z.lxor_nilpotent, Z.lxor_0_r.
    + assert ((j <? i + 1) = (j <? i)) as -> by lia. done.
  - change (0 + Z.of_nat 16) with 16 in G3. 
    assert (He : ∀ (x y : gf), length x = 16%nat → length y = 16%nat → (∀ j, 0 ≤ j < 16 → x.[j] = y.[j]) → x = y).
    { intros x y Hx Hy Hxy. apply list_eq_aget; [congruence|]. intros j Hj. apply Hxy. lia. }
    etransitivity; [apply surjective_pairing|]. clearbody body. destruct (b =? 1) eqn:Eb; cbn [andb] in G3.
    + apply f_equal2; (apply He; [assumption|assumption|]); intros j Hj; destruct (G3 j Hj) as [E1 E2]; assert ((j <? 16) = true) as El by lia; rewrite El in *; assumption.
    + apply f_equal2; (apply He; [assumption|assumption|]); intros j Hj; apply (G3 j Hj).
Qed.

Definition plimb (i : Z) : Z := if i =? 0 then 0xffed else if i =? 15 then 0x7fff else 0xffff.

Lemma plimb_val : wsum 65536 plimb 16 = P25519.
Proof. vm_compute. reflexivity. Qed.

(** Subtract the prime; the borrow tells whether the number was below it. *)
Section sub.
Context (t : gf) (Ht : canon t).
Abbreviation d := (λ i, t.[i] - plimb i).

Lemma sub_cy n : (n ≤ 16)%nat → cy 65536 d n = 0 ∨ cy 65536 d n = -1.
Proof.
  induction n as [|n IH]; intros Hn; [by left|]. rewrite cy_step. pose proof (proj2 Ht (Z.of_nat n) ltac:(lia)) as Hr.
  assert (0x7fff ≤ plimb (Z.of_nat n) ≤ 0xffff) by (unfold plimb; repeat case_match; lia). destruct (IH ltac:(lia)) as [-> | ->]; Z.to_euclidean_division_equations; lia.
Qed.

Definition raw (i : Z) : Z := d i + cy 65536 d (Z.to_nat i).

Lemma raw_range i : 0 ≤ i < 16 → - 65536 ≤ raw i < 65536.
Proof.
  intros Hi. unfold raw. pose proof (proj2 Ht i Hi). assert (0x7fff ≤ plimb i ≤ 0xffff) by (unfold plimb; repeat case_match; lia).
  destruct (sub_cy (Z.to_nat i) ltac:(lia)); lia.
Qed.

Lemma raw_borrow i : 0 ≤ i < 16 → Z.land (Z.shiftr (raw i) 16) 1 = - cy 65536 d (Z.to_nat (i + 1)).
Proof.
  intros Hi. replace (Z.to_nat (i + 1)) with (S (Z.to_nat i)) by lia. rewrite cy_step, Z2Nat.id by lia. fold (raw i).
  pose proof (raw_range i Hi). rewrite Z.shiftr_div_pow2 by lia. change (2 ^ 16) with 65536.
  assert (raw i / 65536 = 0 ∨ raw i / 65536 = -1) as [-> | ->] by (Z.to_euclidean_division_equations; lia); done.
Qed.

Lemma raw_digit i : 0 ≤ i < 16 → Z.land (raw i) 0xffff = digit 65536 d i.
Proof. intros Hi. change 0xffff with (2 ^ 16 - 1). rewrite land_ones_mod by lia. reflexivity. Qed.

Lemma sub_loop (m : gf) : length m = 16%nat → let m' := zfor 14 1 (sub_limb t) (m.[0 <- s64 (t.[0] - 0xffed)]) in
  length m' = 16%nat ∧ m'.[14] = raw 14 ∧ ∀ j, 0 ≤ j < 14 → m'.[j] = digit 65536 d j.
Proof.
  intros Hm. cbv zeta. destruct (zfor_inv (λ i m, length m = 16%nat ∧ m.[i - 1] = raw (i - 1) ∧ ∀ j, 0 ≤ j < i - 1 → m.[j] = digit 65536 d j)
    14 1 (sub_limb t) (m.[0 <- s64 (t.[0] - 0xffed)])) as (G1 & G2 & G3).
  - split_and!; [by rewrite aset_length| |lia]. change (1 - 1) with 0. rewrite aget_aset_eq by lia. pose proof (raw_range 0 ltac:(lia)) as Hr.
    change (raw 0) with (t.[0] - 0xffed + 0) in *. rewrite s64_small by lia. lia.
  - intros i m' Hi (G1 & G2 & G3). unfold sub_limb. cbv zeta. rewrite !aset_length.
    assert (Er : s64 (t.[i] - 65535 - Z.land (Z.shiftr m'.[i - 1] 16) 1) = raw i).
    { rewrite G2, raw_borrow by lia. replace (i - 1 + 1) with i by lia. pose proof (raw_range i ltac:(lia)) as Hr. unfold raw in Hr |- *.
      assert (plimb i = 65535) as Epl by (unfold plimb; repeat case_match; lia). rewrite Epl in *. rewrite s64_small; lia. }
    rewrite Er. split_and!; [done|replace (i + 1 - 1) with i by lia; rewrite aget_aset_ne, aget_aset_eq by lia; done|].
    intros j Hj. rewrite aget_aset by (rewrite ?aset_length; lia). rewrite !(aget_aset_ne _ i) by lia. destruct (Z.eqb_spec (i - 1) j) as [<-|].
    + rewrite G2. apply raw_digit. lia.
    + apply G3. lia.
  - split_and!; [done|exact G2|intros j Hj; apply G3; lia].
Qed.

Lemma pack_round_spec (m : gf) : length m = 16%nat →
  let tm := pack_round (t, m) in
  canon tm.1 ∧ length tm.2 = 16%nat ∧ gval tm.1 = if gval t <? P25519 then gval t else gval t - P25519.
Proof.
  intros Hm. unfold pack_round. cbv zeta. destruct (sub_loop m Hm) as (G1 & G2 & G3). set (m1 := zfor 14 1 (sub_limb t) _) in *. clearbody m1.
  rewrite G2, raw_borrow by lia. change (14 + 1) with 15.
  assert (Er : s64 (t.[15] - 32767 - - cy 65536 d (Z.to_nat 15)) = raw 15).
  { pose proof (raw_range 15 ltac:(lia)) as Hr. unfold raw in Hr |- *. change (plimb 15) with 32767 in *. rewrite s64_small; lia. }
  rewrite Er, aget_aset_eq, (aget_aset_ne _ 15 14), G2, raw_borrow, raw_digit by lia. change (Z.to_nat (15 + 1)) with 16%nat.
  set (m2 := (m1.[15 <- raw 15]).[14 <- digit 65536 d 14]). assert (Hm2 : length m2 = 16%nat) by (unfold m2; by rewrite !aset_length).
  assert (Hc : cy 65536 d 16 = (gval t - P25519) / 2 ^ 256).
  { rewrite cy_div, wsum_sub by lia. by rewrite plimb_val. }
  pose proof (canon_val t Ht) as Hv. rewrite sel25519_spec; [|apply Ht|done|destruct (sub_cy 16 ltac:(lia)) as [-> | ->]; lia].
  destruct (Z.ltb_spec (gval t) P25519) as [Hlt|Hge].
  - assert (cy 65536 d 16 = -1) as -> by (rewrite Hc; unfold P25519 in *; Z.to_euclidean_division_equations; lia). done.
  - assert (Hc0 : cy 65536 d 16 = 0) by (rewrite Hc; unfold P25519 in *; Z.to_euclidean_division_equations; lia). rewrite Hc0. cbn [Z.opp Z.sub Z.add Z.eqb Pos.eqb fst snd].
    assert (Hdig : ∀ j, 0 ≤ j < 16 → m2.[j] = digit 65536 d j).
    { intros j Hj. unfold m2. rewrite aget_aset by (rewrite ?aset_length; lia). destruct (Z.eqb_spec 14 j) as [<-|]; [done|]. rewrite aget_aset by lia.
      destruct (Z.eqb_spec 15 j) as [<-|]; [|apply G3; lia]. rewrite <- raw_digit by lia. change 0xffff with (2 ^ 16 - 1). rewrite land_ones_mod by lia.
      symmetry. apply Z.mod_small. pose proof (raw_range 15 ltac:(lia)).
      assert (raw 15 / 65536 = 0) by (rewrite (cy_step 65536 d 15) in Hc0; exact Hc0). change (2 ^ 16) with 65536. Z.to_euclidean_division_equations. lia. }
    split_and!; [|apply Ht|].
    + split; [done|]. intros j Hj. rewrite Hdig by done. apply digit_range. lia.
    + unfold gval at 1. rewrite (wsum_ext _ _ (digit 65536 d)) by (intros; apply Hdig; lia).
      assert (E1 : wsum 65536 d 16 = gval t - P25519) by (rewrite wsum_sub, plimb_val; reflexivity).
      pose proof (wsum_digits 65536 ltac:(lia) d 16) as E. rewrite Hc0, E1 in E. rewrite Z.mul_0_l, Z.add_0_r in E. symmetry. exact E.
Qed.
End sub.

(** Two small limbs make a large one. *)
Lemma wsum_pairs f g n : (∀ i, 0 ≤ i < Z.of_nat n → g (2 * i) + 256 * g (2 * i + 1) = f i) → wsum 256 g (2 * n) = wsum 65536 f n.
Proof.
  induction n as [|n IH]; intros H; [reflexivity|]. replace (2 * S n)%nat with (S (S (2 * n))) by lia. rewrite !wsum_S, IH by (intros; apply H; lia).
  rewrite <- (H (Z.of_nat n)) by lia. replace (Z.of_nat (S (2 * n))) with (2 * Z.of_nat n + 1) by lia. replace (Z.of_nat (2 * n)) with (2 * Z.of_nat n) by lia.
  rewrite Z.pow_add_r, Z.pow_mul_r by lia. change (256 ^ 2) with 65536. lia.
Qed.

Lemma pack_bytes t : canon t →
  zfor 16 0 (λ i o, (o.[2 * i <- Z.land t.[i] 0xff]).[2 * i + 1 <- u8 (Z.shiftr t.[i] 8)]) (replicate 32 0) = le_bytes 32 (gval t).
Proof.
  intros [_ Ht]. set (body := λ (i : Z) (o : list Z), _). set (g := λ k, if k mod 2 =? 0 then t.[k / 2] mod 256 else t.[k / 2] / 256).
  destruct (zfor_inv (λ i o, length o = 32%nat ∧ ∀ k, 0 ≤ k < 2 * i → o.[k] = g k) 16 0 body (replicate 32 0)) as [G1 G2].
  - split; [done|lia].
  - intros i o Hi [G1 G2]. unfold body. rewrite !aset_length. split; [done|]. intros k Hk. rewrite !aget_aset by (rewrite ?aset_length; lia).
    pose proof (Ht i ltac:(lia)). unfold g. change 255 with (2 ^ 8 - 1). rewrite land_ones_mod, Z.shiftr_div_pow2 by lia. change (2 ^ 8) with 256.
    destruct (Z.eqb_spec (2 * i + 1) k) as [<-|]; [|destruct (Z.eqb_spec (2 * i) k) as [<-|]].
    + replace ((2 * i + 1) mod 2) with 1 by (Z.to_euclidean_division_equations; lia). replace ((2 * i + 1) / 2) with i by (Z.to_euclidean_division_equations; lia).
      cbn [Z.eqb Pos.eqb]. apply u8_small. unfold is_u8. Z.to_euclidean_division_equations. lia.
    + replace ((2 * i) mod 2) with 0 by (Z.to_euclidean_division_equations; lia). replace ((2 * i) / 2) with i by (Z.to_euclidean_division_equations; lia). done.
    + apply G2. lia.
  - change (2 * (0 + Z.of_nat 16)) with 32 in G2. set (o := zfor 16 0 body (replicate 32 0)) in *. clearbody o.
    assert (Hg : ∀ k, 0 ≤ k < 32 → 0 ≤ g k < 256).
    { intros k Hk. unfold g. pose proof (Ht (k / 2) ltac:(Z.to_euclidean_division_equations; lia)). case_match; Z.to_euclidean_division_equations; lia. }
    rewrite (le_bytes_eq 32 o G1) by (intros; rewrite G2 by lia; apply Hg; lia). f_equal. unfold gval. rewrite <- (wsum_pairs (limb t) g 16).
    + apply wsum_ext. intros i Hi. apply G2. lia.
    + intros i Hi. unfold g. replace ((2 * i) mod 2) with 0 by (Z.to_euclidean_division_equations; lia). replace ((2 * i) / 2) with i by (Z.to_euclidean_division_equations; lia).
      replace ((2 * i + 1) mod 2) with 1 by (Z.to_euclidean_division_equations; lia). replace ((2 * i + 1) / 2) with i by (Z.to_euclidean_division_equations; lia).
      cbn [Z.eqb Pos.eqb]. pose proof (Z.div_mod t.[i] 256 ltac:(lia)). lia.
Qed.

(** [pack25519] writes the value modulo the prime. *)
Lemma pack25519_spec n : bnd (2 ^ 62) n → pack25519 n = le_bytes 32 (gval n mod P25519).
Proof.
  intros Hn. unfold pack25519. cbv zeta. destruct (car3_spec n Hn) as [Hc Hv]. set (t := car25519 (car25519 (car25519 n))) in *. clearbody t.
  rewrite (surjective_pairing (zfor 2 0 _ (t, gf0))). change (zfor 2 0 (λ _ : Z, pack_round) (t, gf0)) with (pack_round (pack_round (t, gf0))).
  destruct (pack_round_spec t Hc gf0 eq_refl) as (P1 & P2 & P3). rewrite (surjective_pairing (pack_round (t, gf0))). set (t1 := (pack_round (t, gf0)).1) in *. set (m1 := (pack_round (t, gf0)).2) in *. clearbody t1 m1.
  destruct (pack_round_spec t1 P1 m1 P2) as (Q1 & _ & Q3). set (t2 := (pack_round (t1, m1)).1) in *. clearbody t2.
  rewrite (pack_bytes t2 Q1). f_equal. rewrite Q3, P3. unfold feq in Hv. rewrite <- Hv. pose proof (canon_val t Hc) as Hr. set (v := gval t) in *. clearbody v. clear -Hr.
  assert (Hp : 0 < P25519 ∧ 2 ^ 256 ≤ 3 * P25519) by (unfold P25519; lia). destruct Hp as [Hp1 Hp2].
  destruct (Z.ltb_spec v P25519); [destruct (Z.ltb_spec v P25519); [|lia]; by rewrite Z.mod_small by lia|].
  destruct (Z.ltb_spec (v - P25519) P25519).
  - apply (Z.mod_unique _ _ 1); lia.
  - apply (Z.mod_unique _ _ 2); lia.
Qed.

Lemma unpack25519_fe n : (∀ i, 0 ≤ i < 32 → 0 ≤ n.[i] < 256) → fe (2 ^ 17) (unpack25519 n) (wsum 256 (limb n) 32 mod 2 ^ 255).
Proof.
  intros Hn. unfold unpack25519. cbv zeta. destruct (build_loop 16 (λ i, n.[2 * i] + Z.shiftl n.[2 * i + 1] 8) gf0 eq_refl) as [H1 H2].
  set (o := zfor 16 0 _ gf0) in *. clearbody o.
  assert (G : ∀ i, 0 ≤ i < 16 → o.[i] = n.[2 * i] + 256 * n.[2 * i + 1] ∧ 0 ≤ o.[i] < 65536).
  { intros i Hi. rewrite H2, Z.shiftl_mul_pow2 by lia. change (2 ^ 8) with 256. pose proof (Hn (2 * i) ltac:(lia)). pose proof (Hn (2 * i + 1) ltac:(lia)). lia. }
  assert (Ev : gval o = wsum 256 (limb n) 32) by (symmetry; apply (wsum_pairs (limb o) (limb n) 16); intros i Hi; symmetry; apply G; lia).
  change 32767 with (2 ^ 15 - 1). rewrite land_ones_mod by lia. change (2 ^ 15) with 32768. pose proof (proj2 (G 15 ltac:(lia))) as H15.
  constructor.
  - split; [by rewrite aset_length|]. intros i Hi. rewrite aget_aset by lia. pose proof (proj2 (G i Hi)). case_match; [|lia]. Z.to_euclidean_division_equations. lia.
  - assert (E : gval (o.[15 <- o.[15] mod 32768]) = gval o mod 2 ^ 255); [|by rewrite E, Ev].
    assert (E1 : gval (o.[15 <- o.[15] mod 32768]) = gval o - o.[15] / 32768 * 2 ^ 255).
    { unfold gval. rewrite wsum_set by lia. change (65536 ^ 15) with (2 ^ 240). pose proof (Z.div_mod o.[15] 32768 ltac:(lia)). lia. }
    rewrite E1. apply (Z.mod_unique _ _ (o.[15] / 32768)); [|lia]. left. rewrite <- E1.
    assert (Hw : 0 ≤ wsum 65536 (limb o) 15 < 2 ^ 240) by (change (2 ^ 240) with (65536 ^ Z.of_nat 15); apply wsum_bound; [lia|]; intros i Hi; apply G; lia).
    assert (gval (o.[15 <- o.[15] mod 32768]) = wsum 65536 (limb o) 15 + o.[15] mod 32768 * 2 ^ 240) as ->.
    { unfold gval. rewrite wsum_set by lia. rewrite (wsum_S 65536 (limb o) 15). change (65536 ^ Z.of_nat 15) with (2 ^ 240). change (65536 ^ 15) with (2 ^ 240). change (Z.of_nat 15) with 15. lia. }
    pose proof (Z.mod_pos_bound o.[15] 32768 ltac:(lia)). lia.
Qed.

(** ** Comparison and parity *)

Lemma crypto_verify_32_spec x y : (∀ i, 0 ≤ i < 32 → 0 ≤ x.[i] < 256) → (∀ i, 0 ≤ i < 32 → 0 ≤ y.[i] < 256) →
  crypto_verify_32 x y = 0 ↔ ∀ i, 0 ≤ i < 32 → x.[i] = y.[i].
Proof.
  intros Hx Hy. unfold crypto_verify_32, vn. cbv zeta. set (body := λ (i d : Z), Z.lor d (Z.lxor x.[i] y.[i])).
  destruct (zfor_inv (λ i d, 0 ≤ d < 256 ∧ (d = 0 ↔ ∀ j, 0 ≤ j < i → x.[j] = y.[j])) 32 0 body 0) as [Hr Hd].
  - split; [lia|]. split; [lia|done].
  - intros i d Hi [Hr Hd]. unfold body. pose proof (Hx i ltac:(lia)). pose proof (Hy i ltac:(lia)).
    assert (Hxy : 0 ≤ Z.lxor x.[i] y.[i]) by (apply Z.lxor_nonneg; lia). split.
    + assert (Hor : 0 ≤ Z.lor d (Z.lxor x.[i] y.[i])) by (apply Z.lor_nonneg; split; [lia|exact Hxy]). split; [exact Hor|]. apply (bits_bound 8); [lia|exact Hor|]. intros k Hk. rewrite Z.lor_spec, Z.lxor_spec.
      rewrite (testbit_high 8 d k), (testbit_high 8 x.[i] k), (testbit_high 8 y.[i] k) by (change (2 ^ 8) with 256; lia). done.
    + rewrite Z.lor_eq_0_iff, Z.lxor_eq_0_iff, Hd. split.
      * intros [H1 H2] j Hj. destruct (decide (j = i)) as [->|]; [done|]. apply H1. lia.
      * intros H1. split; [intros j Hj|]; apply H1; lia.
  - change (0 + Z.of_nat 32) with 32 in Hd. rewrite <- Hd. set (d := zfor 32 0 body 0) in *. clearbody d.
    destruct (decide (d = 0)) as [->|]; [split; reflexivity|]. rewrite Z.shiftr_div_pow2 by lia. change (2 ^ 8) with 256. rewrite (Z.div_small (d - 1)) by lia. change (Z.land 1 0 - 1) with (-1). split; [intros E; discriminate E|by intros E].
Qed.

Lemma le_bytes_range n x i : 0 ≤ i < Z.of_nat n → 0 ≤ (le_bytes n x).[i] < 256.
Proof. intros Hi. rewrite le_bytes_get by done. apply Z.mod_pos_bound. lia. Qed.

Lemma le_bytes_inj n x y : 0 ≤ x < 256 ^ Z.of_nat n → 0 ≤ y < 256 ^ Z.of_nat n →
  (∀ i, 0 ≤ i < Z.of_nat n → (le_bytes n x).[i] = (le_bytes n y).[i]) → x = y.
Proof.
  intros Hx Hy H. pose proof (le_bytes_wsum n x) as Ex. pose proof (le_bytes_wsum n y) as Ey. rewrite Z.mod_small in Ex, Ey by done.
  rewrite <- Ex, <- Ey. by apply wsum_ext.
Qed.

Lemma P25519_bound x : 0 ≤ x mod P25519 < 256 ^ Z.of_nat 32.
Proof. pose proof (Z.mod_pos_bound x P25519 ltac:(unfold P25519; lia)). change (256 ^ Z.of_nat 32) with (2 ^ 256). unfold P25519 in *. lia. Qed.

Lemma neq25519_spec N a b x y : fe N a x → fe N b y → N ≤ 2 ^ 62 → (neq25519 a b =? 0) = (x mod P25519 =? y mod P25519).
Proof.
  intros [Ha Va] [Hb Vb] HN. unfold neq25519. rewrite !pack25519_spec by (by eapply bnd_weaken). unfold feq in Va, Vb. rewrite Va, Vb.
  apply eq_true_iff_eq. rewrite !Z.eqb_eq, crypto_verify_32_spec by (intros; by apply le_bytes_range). split; [|by intros ->].
  intros H. apply (le_bytes_inj 32); [apply P25519_bound|apply P25519_bound|exact H].
Qed.

Lemma par25519_spec N a x : fe N a x → N ≤ 2 ^ 62 → par25519 a = x mod P25519 mod 2.
Proof.
  intros [Ha Va] HN. unfold par25519. rewrite pack25519_spec, le_bytes_get by (try (by eapply bnd_weaken); lia). unfold feq in Va. rewrite Va.
  change 1 with (2 ^ 1 - 1). rewrite land_ones_mod by lia. change (256 ^ 0) with 1. rewrite Z.div_1_r. change (2 ^ 1) with 2.
  apply Z.mod_mod_divide. by exists 128.
Qed.

(** ** Powers *)

(** Square-and-multiply computes the power its bit pattern spells. *)
Lemma pow_loop (bit : Z → bool) n i x : fe (2 ^ 17) i x →
  fe (2 ^ 17) (zfor n 0 (λ k c, let c := gf_S c in if bit k then gf_M c i else c) i) (x ^ zfor n 0 (λ k e, 2 * e + b2z (bit k)) 1).
Proof.
  intros Hi. apply (zfor_rel (λ c e, 0 ≤ e ∧ fe (2 ^ 17) c (x ^ e))).
  - split; [lia|]. by rewrite Z.pow_1_r.
  - intros k c e _ [He Hc]. cbv zeta.
    assert (Hs : fe (2 ^ 17) (gf_S c) (x ^ (2 * e))).
    { replace (2 * e) with (e + e) by lia. rewrite Z.pow_add_r by lia. apply gf_S_fe. eapply fe_weaken; [exact Hc|lia]. }
    destruct (bit k); cbn [b2z]; [|rewrite Z.add_0_r; split; [lia|exact Hs]]. split; [lia|]. rewrite Z.pow_add_r, Z.pow_1_r by lia.
    apply gf_M_fe; (eapply fe_weaken; [eassumption|lia]).
Qed.

Lemma inv25519_fe i x : fe (2 ^ 17) i x → fe (2 ^ 17) (inv25519 i) (x ^ (P25519 - 2)).
Proof.
  intros Hi. pose proof (pow_loop (λ k, negb (253 - k =? 2) && negb (253 - k =? 4)) 254 i x Hi) as H. cbv beta in H.
  assert (E : zfor 254 0 (λ k e, 2 * e + b2z (negb (253 - k =? 2) && negb (253 - k =? 4))) 1 = P25519 - 2) by (vm_compute; reflexivity).
  rewrite E in H. exact H.
Qed.

Lemma pow2523_fe i x : fe (2 ^ 17) i x → fe (2 ^ 17) (pow2523 i) (x ^ ((P25519 - 5) / 8)).
Proof.
  intros Hi. pose proof (pow_loop (λ k, negb (250 - k =? 1)) 251 i x Hi) as H. cbv beta in H.
  assert (E : zfor 251 0 (λ k e, 2 * e + b2z (negb (250 - k =? 1))) 1 = (P25519 - 5) / 8) by (vm_compute; reflexivity).
  rewrite E in H. exact H.
Qed.
