(* ===== verification/EdScalar.v ===== *)
(** * Scalar arithmetic of Ed25519

    [modL] of [src/crypto/ed25519.c] reduces a 512-bit number modulo the group
    order, with signed digits and no overflow. *)

From S2P Require Import Prelude ShaMd Ed25519 EdLimbs.

#[local] Opaque zfor digit wsum cy.

Abbreviation Lf := (λ j, gf_L.[j]).

(** The order of the group. *)
Definition L25519 : Z := 2 ^ 252 + 27742317777372353535851937790883648493.

Lemma L_val : wsum 256 Lf 32 = L25519.
Proof. vm_compute. reflexivity. Qed.

Lemma L_range j : 0 ≤ j < 32 → 0 ≤ gf_L.[j] ≤ 255.
Proof.
  intros Hj. assert (E : (0 <=? gf_L.[j]) && (gf_L.[j] <=? 255) = true); [|lia].
  apply (forall_below 32 (λ j, (0 <=? gf_L.[j]) && (gf_L.[j] <=? 255))); [vm_compute; reflexivity|lia].
Qed.

Lemma L_zero j : 16 ≤ j < 31 → gf_L.[j] = 0.
Proof.
  intros Hj. assert (E : (j <? 16) || (gf_L.[j] =? 0) = true); [|lia].
  apply (forall_below 31 (λ j, (j <? 16) || (gf_L.[j] =? 0))); [vm_compute; reflexivity|lia].
Qed.

(** ** One round of the top loop: the digit [x_i] is folded down *)

(** Bound of the running carry. *)
Definition cbd (k : Z) : Z := if k <? 17 then 4200 else if k <? 18 then 18 else 2.

Section top.
Context (i : Z) (x0 : list Z) (Hi : 32 ≤ i < 64) (Hl : length x0 = 64%nat).
Context (Hx : ∀ j, 0 ≤ j < 64 → - 260 ≤ x0.[j] ≤ 260) (Hlow : ∀ j, i - 32 ≤ j ≤ i - 13 → - 255 ≤ x0.[j] ≤ 255).

Lemma modL_inner_spec : let xc := zfor 20 0 (modL_inner i x0.[i]) (x0, 0) in
  length xc.1 = 64%nat ∧ - 2 ≤ xc.2 ≤ 2 ∧
  (∀ j, 0 ≤ j < 64 → if (i - 32 <=? j) && (j <? i - 12) then - 128 ≤ xc.1.[j] ≤ 127 else xc.1.[j] = x0.[j]) ∧
  wsum 256 (limb xc.1) 64 + xc.2 * 256 ^ (i - 12) = wsum 256 (limb x0) 64 - 16 * x0.[i] * 256 ^ (i - 32) * wsum 256 Lf 20.
Proof.
  cbv zeta. destruct (zfor_inv (λ k xc, length xc.1 = 64%nat ∧ - cbd k ≤ xc.2 ≤ cbd k ∧
    (∀ j, 0 ≤ j < 64 → if (i - 32 <=? j) && (j <? i - 32 + k) then - 128 ≤ xc.1.[j] ≤ 127 else xc.1.[j] = x0.[j]) ∧
    wsum 256 (limb xc.1) 64 + xc.2 * 256 ^ (i - 32 + k) = wsum 256 (limb x0) 64 - 16 * x0.[i] * 256 ^ (i - 32) * wsum 256 Lf (Z.to_nat k))
    20 0 (modL_inner i x0.[i]) (x0, 0)) as (G1 & G2 & G3 & G4).
  - cbn [fst snd]. split_and!; [done|cbn; lia|cbn; lia| |].
    + intros j Hj. destruct (_ && _) eqn:E; [lia|done].
    + change (wsum 256 Lf (Z.to_nat 0)) with 0. lia.
  - intros k [x c] Hk (G1 & G2 & G3 & G4). cbn [fst snd] in *. unfold modL_inner. cbv zeta. set (j := i - 32 + k) in *.
    assert (Hj : 0 ≤ j < 64) by lia. pose proof (Hx i ltac:(lia)) as Hxi. set (xi := x0.[i]) in *. replace (j - (i - 32)) with k by lia.
    pose proof (L_range k ltac:(lia)) as HL. pose proof (G3 j Hj) as Ej. destruct ((i - 32 <=? j) && (j <? j)) eqn:Eb; [lia|]. clear Eb.
    pose proof (Hlow j ltac:(lia)) as Hj0. rewrite <- Ej in Hj0. set (lk := gf_L.[k]) in *.
    assert (Hlk : 16 ≤ k → lk = 0) by (intros; apply L_zero; lia).
    assert (Hpr : - 66300 ≤ xi * lk ≤ 66300) by nia. set (y := x.[j] + (c - 16 * xi * lk)).
    assert (Hc : - 4200 ≤ c ≤ 4200) by (unfold cbd in G2; repeat case_match; lia).
    assert (Hy : - 2 ^ 40 ≤ y ≤ 2 ^ 40) by (unfold y; lia). rewrite (s64_small y) by lia.
    repeat first [rewrite aget_aset_eq by (rewrite ?aset_length; lia)]. rewrite (s64_small (y + 128)) by lia.
    rewrite Z.shiftr_div_pow2, Z.shiftl_mul_pow2 by lia. change (2 ^ 8) with 256. set (c' := (y + 128) / 256).
    assert (Hy' : - 128 ≤ y - c' * 256 ≤ 127) by (unfold c'; Z.to_euclidean_division_equations; lia). rewrite (s64_small (y - c' * 256)) by lia. cbn [fst snd].
    rewrite !aset_length. split_and!; [done| | | |].
    1,2: assert (Hyc : 256 * c' ≤ y + 128 < 256 * c' + 256) by (unfold c'; Z.to_euclidean_division_equations; lia); clearbody c';
         unfold cbd in *; destruct (decide (16 ≤ k)) as [H16|]; [rewrite (Hlk H16) in *|]; unfold y in *; repeat case_match; lia.
    + intros q Hq. rewrite !aget_aset by (rewrite ?aset_length; lia). destruct (Z.eqb_spec j q) as [<-|].
      * destruct (_ && _) eqn:E; [lia|lia].
      * pose proof (G3 q Hq) as Gq. destruct ((i - 32 <=? q) && (q <? j)) eqn:E, ((i - 32 <=? q) && (q <? i - 32 + (k + 1))) eqn:E'; try done; lia.
    + rewrite wsum_set, wsum_set by (rewrite ?aset_length; lia). rewrite aget_aset_eq by lia. replace (Z.to_nat (k + 1)) with (S (Z.to_nat k)) by lia.
      rewrite (wsum_S 256 Lf (Z.to_nat k)), Z2Nat.id by lia. fold lk. replace (i - 32 + (k + 1)) with (j + 1) by lia. rewrite (Z.pow_add_r 256 j 1) by lia.
      assert (Ep : 256 ^ j = 256 ^ (i - 32) * 256 ^ k) by (unfold j; rewrite Z.pow_add_r by lia; done). change (256 ^ 1) with 256.
      transitivity (wsum 256 (limb x) 64 + c * 256 ^ j - 16 * xi * lk * 256 ^ j); [unfold y; lia|]. rewrite G4, Ep. lia.
  - change (0 + Z.of_nat 20) with 20 in *. replace (i - 32 + 20) with (i - 12) in * by lia. split; [exact G1|]. split; [exact G2|]. split; [exact G3|exact G4].
Qed.

Lemma modL_top_spec : let x := modL_top (63 - i) x0 in
  length x = 64%nat ∧ x.[i] = 0 ∧ (x0.[i - 12] - 2 ≤ x.[i - 12] ≤ x0.[i - 12] + 2) ∧
  (∀ j, i - 32 ≤ j ≤ i - 13 → - 128 ≤ x.[j] ≤ 127) ∧
  (∀ j, 0 ≤ j < 64 → j < i - 32 ∨ i - 12 < j → j ≠ i → x.[j] = x0.[j]) ∧
  wsum 256 (limb x) 64 = wsum 256 (limb x0) 64 - 16 * x0.[i] * 256 ^ (i - 32) * L25519.
Proof.
  unfold modL_top. cbv zeta. replace (63 - (63 - i)) with i by lia. destruct modL_inner_spec as (G1 & G2 & G3 & G4).
  destruct (zfor 20 0 (modL_inner i x0.[i]) (x0, 0)) as [x c]. cbn [fst snd] in *.
  assert (Ex : ∀ j, i - 12 ≤ j < 64 → x.[j] = x0.[j]).
  { intros j Hj. pose proof (G3 j ltac:(lia)) as E. destruct (_ && _) eqn:Eb in E; [lia|done]. }
  rewrite s64_small by (rewrite Ex by lia; pose proof (Hx (i - 12) ltac:(lia)); lia). rewrite !aset_length.
  split_and!; [done|by rewrite aget_aset_eq by (rewrite aset_length; lia)| | | | |].
  - rewrite aget_aset_ne, aget_aset_eq, Ex by lia. lia.
  - rewrite aget_aset_ne, aget_aset_eq, Ex by lia. lia.
  - intros j Hj. rewrite !aget_aset_ne by lia. pose proof (G3 j ltac:(lia)) as E. destruct (_ && _) eqn:Eb in E; [done|lia].
  - intros j Hj Hr Hne. rewrite !aget_aset_ne by lia. pose proof (G3 j Hj) as E. destruct (_ && _) eqn:Eb in E; [lia|done].
  - rewrite wsum_set, wsum_set by (rewrite ?aset_length; lia). rewrite aget_aset_ne by lia. rewrite !Ex by lia.
    assert (EL : L25519 = wsum 256 Lf 20 + 16 * 256 ^ 31) by (vm_compute; reflexivity). rewrite EL.
    assert (Ep : 256 ^ i = 16 * 256 ^ (i - 32) * (16 * 256 ^ 31)).
    { replace i with ((i - 32) + 32) at 1 by lia. rewrite Z.pow_add_r by lia. change (256 ^ 32) with (16 * (16 * 256 ^ 31)). lia. }
    rewrite Ep. lia.
Qed.
End top.

(** ** The top loop *)

(** Bound of digit [j] before the round that folds digit [i]: digits above are
    gone, digits a round has passed are between -128 and 127 up to one carry,
    the others are bytes. *)
Definition dbd (i j : Z) : Z :=
  if i <? j then 0
  else if 50 <? j then (if i <? 63 then 258 else 255)
  else if (i <? 63) && (i - 32 <? j) then (if i - 12 <? j then 130 else 128)
  else 255.

Lemma modL_tops_spec (x0 : list Z) : length x0 = 64%nat → (∀ j, 0 ≤ j < 64 → 0 ≤ x0.[j] ≤ 255) →
  let x := zfor 32 0 modL_top x0 in
  length x = 64%nat ∧ (∀ j, 0 ≤ j < 32 → - 130 ≤ x.[j] ≤ 130) ∧ (∀ j, 32 ≤ j < 64 → x.[j] = 0) ∧
  ∃ m, wsum 256 (limb x) 64 = wsum 256 (limb x0) 64 + m * L25519.
Proof.
  intros Hl Hx. cbv zeta. destruct (zfor_inv (λ k x, length x = 64%nat ∧ (∀ j, 0 ≤ j < 64 → - dbd (63 - k) j ≤ x.[j] ≤ dbd (63 - k) j) ∧
    ∃ m, wsum 256 (limb x) 64 = wsum 256 (limb x0) 64 + m * L25519) 32 0 modL_top x0) as (G1 & G2 & G3).
  - split_and!; [done| |exists 0; lia]. intros j Hj. specialize (Hx j Hj). unfold dbd. repeat case_match; lia.
  - intros k x Hk (G1 & G2 & m & G3). set (i := 63 - k) in *.
    assert (Hb : ∀ j, 0 ≤ j < 64 → - 260 ≤ x.[j] ≤ 260) by (intros j Hj; specialize (G2 j Hj); unfold dbd in G2; repeat case_match; lia).
    destruct (modL_top_spec i x ltac:(lia) G1 Hb) as (T1 & T2 & T3 & T4 & T5 & T6).
    { intros j Hj. specialize (G2 j ltac:(lia)). unfold dbd in G2. repeat case_match; lia. }
    replace (63 - i) with k in * by lia. replace (63 - (k + 1)) with (i - 1) by lia. set (x' := modL_top k x) in *. clearbody x'. split_and!; [done| |].
    + intros j Hj. destruct (decide (j = i)) as [->|Hji]; [rewrite T2; unfold dbd; repeat case_match; lia|].
      destruct (decide (j = i - 12)) as [->|Hj12]; [|destruct (decide (i - 32 ≤ j ≤ i - 13)) as [Hin|Hout]].
      * pose proof (G2 (i - 12) ltac:(lia)) as Hd. unfold dbd in Hd |- *. repeat case_match; lia.
      * pose proof (T4 j Hin). unfold dbd. repeat case_match; lia.
      * rewrite (T5 j Hj ltac:(lia) Hji). pose proof (G2 j Hj) as Hd. unfold dbd in Hd |- *. repeat case_match; lia.
    + exists (m - 16 * x.[i] * 256 ^ (i - 32)). rewrite T6, G3. lia.
  - change (63 - (0 + Z.of_nat 32)) with 31 in G2. split; [exact G1|]. split; [|split; [|exact G3]].
    + intros j Hj. specialize (G2 j ltac:(lia)). unfold dbd in G2. repeat case_match; lia.
    + intros j Hj. specialize (G2 j ltac:(lia)). unfold dbd in G2. repeat case_match; lia.
Qed.

(** ** The last multiple and the carries *)

Lemma digit256 f j : 0 ≤ j → digit 256 f j = (f j + cy 256 f (Z.to_nat j)) mod 256.
Proof. done. Qed.

Lemma modL_folds_spec (x0 : list Z) : length x0 = 64%nat → (∀ j, 0 ≤ j < 32 → - 130 ≤ x0.[j] ≤ 130) →
  let q := x0.[31] / 16 in let f := λ j, x0.[j] - q * gf_L.[j] in
  let xc := zfor 32 0 modL_fold (x0, 0) in
  length xc.1 = 64%nat ∧ xc.2 = cy 256 f 32 ∧ ∀ j, 0 ≤ j < 64 → xc.1.[j] = if j <? 32 then digit 256 f j else x0.[j].
Proof.
  intros Hl Hx. cbv zeta. set (q := x0.[31] / 16). set (f := λ j, x0.[j] - q * gf_L.[j]).
  assert (Hq : - 9 ≤ q ≤ 8) by (unfold q; pose proof (Hx 31 ltac:(lia)); Z.to_euclidean_division_equations; lia).
  assert (Hf : ∀ j, 0 ≤ j < 32 → - 2500 ≤ f j ≤ 2500) by (intros j Hj; unfold f; pose proof (Hx j Hj); pose proof (L_range j Hj); nia).
  assert (Hcy : ∀ n, (n ≤ 32)%nat → - 10 ≤ cy 256 f n ≤ 10) by (intros n Hn; apply (cy_bound 256 f n 2500 10); [lia|intros; apply Hf; lia|lia|lia]).
  destruct (zfor_inv (λ j xc, length xc.1 = 64%nat ∧ xc.2 = cy 256 f (Z.to_nat j) ∧
    (∀ p, 0 ≤ p < 64 → xc.1.[p] = if p <? j then digit 256 f p else x0.[p])) 32 0 modL_fold (x0, 0)) as (G1 & G2 & G3).
  - cbn [fst snd]. split_and!; [done|reflexivity|]. intros p Hp. case_match eqn:E; [lia|done].
  - intros j [x c] Hj (G1 & G2 & G3). cbn [fst snd] in *. subst c. unfold modL_fold. cbv zeta. cbn [fst snd]. rewrite !aset_length.
    assert (E31 : x.[31] = x0.[31]) by (rewrite G3 by lia; case_match eqn:E; [lia|done]). rewrite E31, (Z.shiftr_div_pow2 x0.[31] 4) by lia. change (2 ^ 4) with 16. fold q.
    assert (Ej : x.[j] = x0.[j]) by (rewrite G3 by lia; case_match eqn:E; [lia|done]). rewrite Ej.
    set (c := cy 256 f (Z.to_nat j)). pose proof (Hcy (Z.to_nat j) ltac:(lia)) as Hc. fold c in Hc. pose proof (Hf j ltac:(lia)) as Hfj.
    assert (Ey : s64 (x0.[j] + (c - q * gf_L.[j])) = f j + c) by (rewrite s64_small; unfold f in *; lia). rewrite Ey, aget_aset_eq by lia.
    split_and!; [done| |].
    + replace (Z.to_nat (j + 1)) with (S (Z.to_nat j)) by lia. rewrite cy_step, Z2Nat.id, Z.shiftr_div_pow2 by lia. done.
    + intros p Hp. rewrite !aget_aset by (rewrite ?aset_length; lia). destruct (Z.eqb_spec j p) as [<-|].
      * destruct (Z.ltb_spec j (j + 1)); [|lia]. change 255 with (2 ^ 8 - 1). rewrite land_ones_mod by lia. change (2 ^ 8) with 256. symmetry. apply digit256. lia.
      * rewrite G3 by done. destruct (Z.ltb_spec p j), (Z.ltb_spec p (j + 1)); try lia; done.
  - change (0 + Z.of_nat 32) with 32 in *. split; [exact G1|]. split; [exact G2|exact G3].
Qed.

Lemma modL_out_spec (x0 : list Z) : length x0 = 64%nat → (∀ j, 0 ≤ j < 32 → - 1000 ≤ x0.[j] ≤ 1000) → - 1000 ≤ x0.[32] ≤ 1000 →
  let r := (zfor 32 0 (λ i (xr : list Z * list Z), let '(x, r) := xr in
     (x.[i + 1 <- s64 (x.[i + 1] + Z.shiftr x.[i] 8)], r.[i <- Z.land x.[i] 255])) (x0, replicate 64 0)).2 in
  length r = 64%nat ∧ (∀ j, 0 ≤ j < 32 → r.[j] = digit 256 (limb x0) j) ∧ ∀ j, 32 ≤ j < 64 → r.[j] = 0.
Proof.
  intros Hl Hx Hx32. cbv zeta. set (body := λ (i : Z) (xr : list Z * list Z), let '(x, r) := xr in
     (x.[i + 1 <- s64 (x.[i + 1] + Z.shiftr x.[i] 8)], r.[i <- Z.land x.[i] 255])).
  assert (Hcy : ∀ n, (n ≤ 32)%nat → - 4 ≤ cy 256 (limb x0) n ≤ 4) by (intros n Hn; apply (cy_bound 256 (limb x0) n 1000 4); [lia|intros; apply Hx; lia|lia|lia]).
  destruct (zfor_inv (λ i xr, length xr.1 = 64%nat ∧ length xr.2 = 64%nat ∧
    (∀ p, i ≤ p ≤ 32 → xr.1.[p] = x0.[p] + (if p =? i then cy 256 (limb x0) (Z.to_nat i) else 0)) ∧
    (∀ p, 0 ≤ p < 64 → xr.2.[p] = if p <? i then digit 256 (limb x0) p else 0)) 32 0 body (x0, replicate 64 0)) as (G1 & G2 & G3 & G4).
  - cbn [fst snd]. split_and!; [done|done| |].
    + intros p Hp. destruct (Z.eqb_spec p 0); [change (cy 256 (limb x0) (Z.to_nat 0)) with 0|]; lia.
    + intros p Hp. rewrite aget_replicate by lia. case_match eqn:E; [lia|done].
  - intros i [x r] Hi (G1 & G2 & G3 & G4). cbn [fst snd] in *. unfold body. cbn [fst snd]. rewrite !aset_length.
    assert (Ei : x.[i] = x0.[i] + cy 256 (limb x0) (Z.to_nat i)) by (rewrite G3, Z.eqb_refl by lia; done).
    assert (Ei1 : x.[i + 1] = x0.[i + 1]) by (rewrite G3 by lia; case_match eqn:E; lia).
    assert (Ec : cy 256 (limb x0) (Z.to_nat (i + 1)) = Z.shiftr x.[i] 8).
    { replace (Z.to_nat (i + 1)) with (S (Z.to_nat i)) by lia. rewrite cy_step, Z2Nat.id, Z.shiftr_div_pow2, Ei by lia. done. }
    rewrite <- Ec, Ei1. pose proof (Hcy (Z.to_nat (i + 1)) ltac:(lia)).
    assert (Hx1 : - 1000 ≤ x0.[i + 1] ≤ 1000) by (destruct (decide (i = 31)) as [->|]; [done|apply Hx; lia]). rewrite s64_small by lia.
    split_and!; [done|done| |].
    + intros p Hp. rewrite aget_aset by lia. destruct (Z.eqb_spec (i + 1) p) as [<-|]; [by rewrite Z.eqb_refl|]. rewrite G3 by lia.
      destruct (Z.eqb_spec p i), (Z.eqb_spec p (i + 1)); lia.
    + intros p Hp. rewrite aget_aset by lia. destruct (Z.eqb_spec i p) as [<-|].
      * destruct (Z.ltb_spec i (i + 1)); [|lia]. change 255 with (2 ^ 8 - 1). rewrite land_ones_mod, Ei by lia. change (2 ^ 8) with 256. symmetry. apply digit256. lia.
      * rewrite G4 by done. destruct (Z.ltb_spec p i), (Z.ltb_spec p (i + 1)); try lia; done.
  - change (0 + Z.of_nat 32) with 32 in *. split; [exact G2|]. split.
    + intros j Hj. rewrite G4 by lia. destruct (Z.ltb_spec j 32); [done|lia].
    + intros j Hj. rewrite G4 by lia. destruct (Z.ltb_spec j 32); [lia|done].
Qed.

Lemma modL_sub_spec (x0 : list Z) c : length x0 = 64%nat → (∀ j, 0 ≤ j < 64 → - 300 ≤ x0.[j] ≤ 300) → - 1 ≤ c ≤ 0 →
  let x := zfor 32 0 (λ j x, x.[j <- s64 (x.[j] - c * gf_L.[j])]) x0 in
  length x = 64%nat ∧ ∀ j, 0 ≤ j < 64 → x.[j] = if j <? 32 then x0.[j] - c * gf_L.[j] else x0.[j].
Proof.
  intros Hl Hx Hc. cbv zeta. set (body := λ (j : Z) (x : list Z), x.[j <- s64 (x.[j] - c * gf_L.[j])]).
  destruct (zfor_inv (λ i x, length x = 64%nat ∧ ∀ j, 0 ≤ j < 64 → x.[j] = if j <? i then x0.[j] - c * gf_L.[j] else x0.[j]) 32 0 body x0) as [G1 G2].
  - split; [done|]. intros j Hj. case_match eqn:E; [lia|done].
  - intros i x Hi [G1 G2]. unfold body. rewrite aset_length. split; [done|]. intros j Hj. rewrite aget_aset by lia.
    assert (Ei : x.[i] = x0.[i]) by (rewrite G2 by lia; case_match eqn:E; [lia|done]). rewrite Ei.
    pose proof (Hx i ltac:(lia)). pose proof (L_range i ltac:(lia)). rewrite s64_small by nia.
    destruct (Z.eqb_spec i j) as [<-|]; [destruct (Z.ltb_spec i (i + 1)); [done|lia]|]. rewrite G2 by done.
    destruct (Z.ltb_spec j i), (Z.ltb_spec j (i + 1)); try lia; done.
  - change (0 + Z.of_nat 32) with 32 in *. split; [exact G1|exact G2].
Qed.

(** The quotient estimate is right up to one: what remains is in range after
    at most one correction. *)
Lemma modL_range (x : list Z) : (∀ j, 0 ≤ j < 32 → - 130 ≤ x.[j] ≤ 130) →
  let v := wsum 256 (limb x) 32 - x.[31] / 16 * L25519 in - 1 ≤ v / 2 ^ 256 ≤ 0 ∧ 0 ≤ v - v / 2 ^ 256 * L25519 < L25519.
Proof.
  intros Hx. cbv zeta. rewrite (wsum_S 256 (limb x) 31). change (Z.of_nat 31) with 31. change (256 ^ 31) with (2 ^ 248).
  assert (Hlow : - 2 ^ 248 - 2 ^ 244 < 2 * wsum 256 (limb x) 31 < 2 ^ 248 + 2 ^ 244).
  { assert (H : ∀ n, (n ≤ 31)%nat → - (130 * 256 ^ Z.of_nat n) ≤ 255 * wsum 256 (limb x) n ≤ 130 * 256 ^ Z.of_nat n).
    { induction n as [|n IH]; intros Hn; [change (wsum 256 (limb x) 0) with 0; lia|]. rewrite (wsum_S 256 (limb x) n), Nat2Z.inj_succ, Z.pow_succ_r by lia.
      pose proof (Hx (Z.of_nat n) ltac:(lia)). specialize (IH ltac:(lia)). assert (0 < 256 ^ Z.of_nat n) by (apply Z.pow_pos_nonneg; lia). nia. }
    specialize (H 31%nat ltac:(lia)). change (256 ^ Z.of_nat 31) with (2 ^ 248) in H. lia. }
  pose proof (Hx 31 ltac:(lia)) as H31. set (low := wsum 256 (limb x) 31) in *. set (t := x.[31]) in *. clearbody low t. unfold L25519.
  assert (Hq : t = 16 * (t / 16) + t mod 16) by (apply Z.div_mod; lia). pose proof (Z.mod_pos_bound t 16 ltac:(lia)) as Hr.
  set (q := t / 16) in *. set (r := t mod 16) in *. clearbody q r. subst t.
  assert (Ev : low + (16 * q + r) * 2 ^ 248 - q * (2 ^ 252 + 27742317777372353535851937790883648493) = low + r * 2 ^ 248 - q * 27742317777372353535851937790883648493) by lia.
  rewrite Ev. set (v := low + r * 2 ^ 248 - q * 27742317777372353535851937790883648493).
  assert (Hv : - 2 ^ 248 < v < 2 ^ 252) by (unfold v; lia). clearbody v.
  destruct (decide (0 ≤ v)).
  - rewrite (Z.div_small v) by lia. lia.
  - assert (v / 2 ^ 256 = -1) as -> by (symmetry; apply (Z.div_unique _ _ _ (v + 2 ^ 256)); lia). lia.
Qed.

(** [modL]: the remainder of a 64-byte number, in 32 bytes. *)
Lemma modL_spec (x : list Z) : length x = 64%nat → (∀ j, 0 ≤ j < 64 → 0 ≤ x.[j] ≤ 255) →
  modL x = le_bytes 32 (wsum 256 (limb x) 64 mod L25519) ++ replicate 32 0.
Proof.
  intros Hl Hx. unfold modL. cbv zeta. destruct (modL_tops_spec x Hl Hx) as (T1 & T2 & T3 & m & T4). set (x1 := zfor 32 0 modL_top x) in *. clearbody x1.
  destruct (modL_folds_spec x1 T1 T2) as (F1 & F2 & F3). cbv zeta in F2, F3. set (q := x1.[31] / 16) in *. set (f := λ j, x1.[j] - q * gf_L.[j]) in *.
  destruct (zfor 32 0 modL_fold (x1, 0)) as [x2 c]. cbn [fst snd] in F1, F2, F3.
  pose proof (modL_range x1 T2) as HR. cbv zeta in HR. fold q in HR. set (v := wsum 256 (limb x1) 32 - q * L25519) in *.
  assert (Ef : wsum 256 f 32 = v).
  { unfold f, v. rewrite (wsum_sub 256 (limb x1) (λ j, q * gf_L.[j])), (wsum_scale 256 q Lf), L_val. reflexivity. }
  assert (Hc : c = v / 2 ^ 256) by (rewrite F2, cy_div, Ef by lia; reflexivity). destruct HR as [HR1 HR2]. rewrite <- Hc in HR1, HR2.
  assert (Hx2 : ∀ j, 0 ≤ j < 64 → - 300 ≤ x2.[j] ≤ 300).
  { intros j Hj. rewrite F3 by done. destruct (Z.ltb_spec j 32); [pose proof (digit_range 256 ltac:(lia) f j); lia|rewrite T3 by lia; lia]. }
  destruct (modL_sub_spec x2 c F1 Hx2 HR1) as [S1 S2]. set (x3 := zfor 32 0 _ x2) in *. clearbody x3.
  destruct (modL_out_spec x3 S1) as (O1 & O2 & O3).
  { intros j Hj. rewrite S2 by lia. pose proof (Hx2 j ltac:(lia)). pose proof (L_range j ltac:(lia)). destruct (Z.ltb_spec j 32); nia. }
  { rewrite S2 by lia. cbn [Z.ltb]. pose proof (Hx2 32 ltac:(lia)). cbn. lia. }
  set (r := (zfor 32 0 _ (x3, replicate 64 0)).2) in *. clearbody r.
  assert (Ev : wsum 256 (limb x3) 32 = v - c * 2 ^ 256 - c * L25519).
  { rewrite (wsum_ext _ _ (λ j, digit 256 f j - c * gf_L.[j]) 32).
    - rewrite (wsum_sub 256 (digit 256 f) (λ j, c * gf_L.[j])), (wsum_scale 256 c Lf), L_val. pose proof (wsum_digits 256 ltac:(lia) f 32) as E. rewrite Ef, <- F2 in E. change (256 ^ Z.of_nat 32) with (2 ^ 256) in E.
      lia.
    - intros j Hj. rewrite S2, F3 by lia. destruct (Z.ltb_spec j 32); [done|lia]. }
  assert (Em : v - c * L25519 = wsum 256 (limb x) 64 mod L25519).
  { apply (Z.mod_unique _ _ (- m + q + c)); [by left|]. unfold v.
    assert (E64 : wsum 256 (limb x1) 64 = wsum 256 (limb x1) 32).
    { change 64%nat with (32 + 32)%nat. rewrite (wsum_app 256 (limb x1) 32 32). rewrite (wsum_ext 256 (λ i, x1.[Z.of_nat 32 + i]) (λ _, 0) 32) by (intros; apply T3; lia). rewrite wsum_0. lia. }
    rewrite E64 in T4. lia. }
  apply list_eq_aget; [rewrite length_app, le_bytes_length, length_replicate; exact O1|]. rewrite O1. intros j Hj. destruct (decide (j < 32)).
  - rewrite aget_app_l by (rewrite le_bytes_length; lia).
    apply (wsum_inj 256 ltac:(lia) (limb r) (λ i, (le_bytes 32 (wsum 256 (limb x) 64 mod L25519)).[i]) 32); [| | |lia].
    + intros k Hk. rewrite O2 by lia. apply digit_range. lia.
    + intros k Hk. rewrite le_bytes_get by done. apply Z.mod_pos_bound. lia.
    + rewrite le_bytes_wsum, <- Em. rewrite (wsum_ext _ _ (digit 256 (limb x3)) 32) by (intros; apply O2; lia).
      pose proof (wsum_digits 256 ltac:(lia) (limb x3) 32) as E. change (256 ^ Z.of_nat 32) with (2 ^ 256) in *. rewrite Ev in E.
      apply (Z.mod_unique _ _ (c + cy 256 (limb x3) 32)); [|lia]. left. apply (wsum_bound 256 ltac:(lia) (digit 256 (limb x3)) 32). intros. apply digit_range. lia.
  - rewrite aget_app_r, le_bytes_length by (rewrite le_bytes_length; lia). rewrite aget_replicate by lia. apply O3. lia.
Qed.
