(* ===== verification/EdVerify.v ===== *)
(** * Ed25519 verification is the reference algorithm

    A reference definition of Ed25519 verification over the integers modulo
    2^255 - 19 (RFC 8032: point decoding, addition in extended coordinates,
    scalar multiplication by a ladder, encoding), and the theorem that
    [ed25519_verify] of [src/crypto/ed25519.c] computes it for every input. *)

From S2P Require Import Prelude ShaMd Ed25519 EdLimbs EdField EdScalar.
From S2P Require Sha512.

#[local] Opaque zfor digit wsum cy.

(** ** The reference *)

Definition fmul (x y : Z) : Z := (x * y) mod P25519.
Definition fplus (x y : Z) : Z := (x + y) mod P25519.
Definition fminus (x y : Z) : Z := (x - y) mod P25519.

(** The curve -x^2 + y^2 = 1 + d x^2 y^2. *)
Definition ed_d : Z := 37095705934669439343138083508754565189542113879843219016388785533085940283555.
Definition sqrt_m1 : Z := 19681161376707505956807079304988542015446066515923890162744021073123829784752.
Definition base_x : Z := 15112221349535400772501151409588531511454012693041857206046113283949847762202.
Definition base_y : Z := 46316835694926478169428394003475163141307993866256225615783033603165251855960.

Lemma curve_constants :
  (121666 * ed_d + 121665) mod P25519 = 0 ∧ (sqrt_m1 * sqrt_m1 + 1) mod P25519 = 0 ∧ (5 * base_y - 4) mod P25519 = 0 ∧ base_x mod 2 = 0 ∧
  (- base_x * base_x + base_y * base_y - 1 - ed_d * (base_x * base_x) * (base_y * base_y)) mod P25519 = 0.
Proof. vm_compute. by split_and!. Qed.

(** Extended coordinates (X, Y, Z, T) of (X/Z, Y/Z) with T = XY/Z. *)
Record fpoint := mk_fp { f_X : Z; f_Y : Z; f_Z : Z; f_T : Z }.

Definition fadd (p q : fpoint) : fpoint :=
  let a := fmul (fminus (f_Y p) (f_X p)) (fminus (f_Y q) (f_X q)) in
  let b := fmul (fplus (f_Y p) (f_X p)) (fplus (f_Y q) (f_X q)) in
  let c := fmul (fmul (f_T p) (f_T q)) (2 * ed_d) in
  let d := fmul (2 * f_Z p) (f_Z q) in
  let e := fminus b a in let f := fminus d c in let g := fplus d c in let h := fplus b a in
  mk_fp (fmul e f) (fmul g h) (fmul f g) (fmul e h).

Definition fp_zero : fpoint := mk_fp 0 1 1 0.
Definition fp_base : fpoint := mk_fp base_x base_y 1 (fmul base_x base_y).

(** The ladder: the pair is (kP, (k+1)P) for the bits [k] read so far. *)
Definition fladder_step (n k : Z) (pq : fpoint * fpoint) : fpoint * fpoint :=
  let '(p, q) := pq in
  if Z.testbit n (255 - k) then (fadd p q, fadd q q) else (fadd p p, fadd q p).
Definition fscalar (n : Z) (q : fpoint) : fpoint := (zfor 256 0 (fladder_step n) (fp_zero, q)).1.

(** The number a byte string spells, least significant byte first. *)
Definition le_val (n : nat) (l : list Z) : Z := wsum 256 (limb l) n.

(** Decoding: the negated point, by the square root of u/v. *)
Definition fdecode_neg (enc : list Z) : option fpoint :=
  let y := le_val 32 enc mod 2 ^ 255 in
  let sign := enc.[31] / 128 in
  let u := fminus (y * y) 1 in
  let v := fplus (ed_d * (y * y)) 1 in
  let x := (u * v ^ 3 * (u * v ^ 7) ^ ((P25519 - 5) / 8)) mod P25519 in
  let x := if fmul v (x * x) =? u then x else fmul x sqrt_m1 in
  if negb (fmul v (x * x) =? u) then None
  else
    let x := if x mod 2 =? sign then (- x) mod P25519 else x in
    Some (mk_fp x y 1 (fmul x y)).

(** Encoding: y with the low bit of x on top. *)
Definition fencode (p : fpoint) : list Z :=
  let zi := f_Z p ^ (P25519 - 2) in
  le_bytes 32 (fmul (f_Y p) zi + 2 ^ 255 * (fmul (f_X p) zi mod 2)).

Definition ref_verify (msg sig pk : list Z) : bool :=
  match fdecode_neg pk with
  | None => false
  | Some a =>
      let h := le_val 64 (Sha512.fips_sha512 (take 32 sig ++ pk ++ msg)) mod L25519 in
      let p := fadd (fscalar h a) (fscalar (le_val 32 (drop 32 sig)) fp_base) in
      bool_decide (fencode p = take 32 sig)
  end.

(** ** Points *)

(** Limbs of every coordinate. *)
Record pt (p : point) (q : fpoint) : Prop := {
  pt_0 : fe (2 ^ 17) (p_0 p) (f_X q);
  pt_1 : fe (2 ^ 17) (p_1 p) (f_Y q);
  pt_2 : fe (2 ^ 17) (p_2 p) (f_Z q);
  pt_3 : fe (2 ^ 17) (p_3 p) (f_T q)
}.

Lemma fmul_feq x y : fmul x y ≡p x * y.
Proof. apply feq_mod. Qed.
Lemma fplus_feq x y : fplus x y ≡p x + y.
Proof. apply feq_mod. Qed.
Lemma fminus_feq x y : fminus x y ≡p x - y.
Proof. apply feq_mod. Qed.

#[export] Instance fmul_proper : Proper (feq ==> feq ==> feq) fmul.
Proof. intros x x' Hx y y' Hy. by rewrite !fmul_feq, Hx, Hy. Qed.
#[export] Instance fplus_proper : Proper (feq ==> feq ==> feq) fplus.
Proof. intros x x' Hx y y' Hy. by rewrite !fplus_feq, Hx, Hy. Qed.
#[export] Instance fminus_proper : Proper (feq ==> feq ==> feq) fminus.
Proof. intros x x' Hx y y' Hy. by rewrite !fminus_feq, Hx, Hy. Qed.

Lemma const_fe (o : gf) : forallb (λ i, (-131072 <=? o.[i]) && (o.[i] <=? 131072)) (Z.of_nat <$> seq 0 16) = true → length o = 16%nat → fe (2 ^ 17) o (gval o).
Proof.
  intros H Hl. constructor; [|reflexivity]. split; [done|]. intros i Hi. pose proof (forall_below 16 _ H i ltac:(lia)) as E. cbv beta in E. lia.
Qed.

(** Field operations of the reference as integer arithmetic. *)
Ltac feq_ring := repeat first [rewrite fmul_feq | rewrite fplus_feq | rewrite fminus_feq]; apply reflexive_eq; ring.

Lemma ed_add_pt p q P Q : pt p P → pt q Q → pt (ed_add p q) (fadd P Q).
Proof.
  intros [P0 P1 P2 P3] [Q0 Q1 Q2 Q3]. unfold ed_add, fadd. cbv zeta.
  assert (W : ∀ n o x, fe n o x → n ≤ 2 ^ 20 → fe (2 ^ 20) o x) by (intros n o x Ho Hn; by apply (fe_weaken n)).
  assert (HD : fe (2 ^ 17) D2 (2 * ed_d)) by (apply (fe_eq _ _ (gval D2)); [apply const_fe; [vm_compute; reflexivity|reflexivity]|vm_compute; reflexivity]).
  pose proof (gf_M_fe18 _ _ _ _ (gf_Z_fe17 _ _ _ _ P1 P0) (gf_Z_fe17 _ _ _ _ Q1 Q0)) as Ha. set (a := gf_M (gf_Z (p_1 p) (p_0 p)) _) in *.
  pose proof (gf_M_fe18 _ _ _ _ (gf_A_fe17 _ _ _ _ P0 P1) (gf_A_fe17 _ _ _ _ Q0 Q1)) as Hb. set (b := gf_M (gf_A (p_0 p) (p_1 p)) _) in *.
  pose proof (gf_M_fe17 _ _ _ _ (gf_M_fe17 _ _ _ _ P3 Q3) HD) as Hc. set (c := gf_M (gf_M (p_3 p) (p_3 q)) D2) in *.
  pose proof (gf_M_fe17 _ _ _ _ P2 Q2) as Hd0. set (d0 := gf_M (p_2 p) (p_2 q)) in *. pose proof (gf_A_fe17 _ _ _ _ Hd0 Hd0) as Hd. set (d := gf_A d0 d0) in *.
  pose proof (gf_Z_fe17 _ _ _ _ Hb Ha) as He. pose proof (gf_A_fe17 _ _ _ _ Hb Ha) as Hh.
  assert (Hf : fe (2 ^ 20) (gf_Z d c) (f_Z P * f_Z Q + f_Z P * f_Z Q - f_T P * f_T Q * (2 * ed_d))) by (eapply W; [apply (gf_Z_fe (2 ^ 18) (2 ^ 17)); [exact Hd|exact Hc|lia]|lia]).
  assert (Hg : fe (2 ^ 20) (gf_A d c) (f_Z P * f_Z Q + f_Z P * f_Z Q + f_T P * f_T Q * (2 * ed_d))) by (eapply W; [apply (gf_A_fe (2 ^ 18) (2 ^ 17)); [exact Hd|exact Hc|lia]|lia]).
  apply (W (2 ^ 18)) in He, Hh; [|lia|lia]. clearbody a b c d.
  constructor; cbn [p_0 p_1 p_2 p_3 f_X f_Y f_Z f_T].
  - eapply fe_eq; [apply gf_M_fe; [exact He|exact Hf]|]. feq_ring.
  - eapply fe_eq; [apply gf_M_fe; [exact Hh|exact Hg]|]. feq_ring.
  - eapply fe_eq; [apply gf_M_fe; [exact Hg|exact Hf]|]. feq_ring.
  - eapply fe_eq; [apply gf_M_fe; [exact He|exact Hh]|]. feq_ring.
Qed.

(** ** The ladder *)

Lemma pt_lengths p P : pt p P → length (p_0 p) = 16%nat ∧ length (p_1 p) = 16%nat ∧ length (p_2 p) = 16%nat ∧ length (p_3 p) = 16%nat.
Proof. intros [[[H0 _] _] [[H1 _] _] [[H2 _] _] [[H3 _] _]]. done. Qed.

Lemma cswap_spec p q P Q b : pt p P → pt q Q → b = 0 ∨ b = 1 → cswap p q b = if b =? 1 then (q, p) else (p, q).
Proof.
  intros (P0 & P1 & P2 & P3)%pt_lengths (Q0 & Q1 & Q2 & Q3)%pt_lengths Hb. unfold cswap. rewrite !sel25519_spec by done. destruct p, q. by destruct (b =? 1).
Qed.

(** Bits of a byte string. *)
Lemma byte_bit (s : list Z) i : (∀ j, 0 ≤ j < 32 → 0 ≤ s.[j] < 256) → 0 ≤ i < 256 →
  Z.land (Z.shiftr s.[i / 8] (Z.land i 7)) 1 = Z.b2z (Z.testbit (le_val 32 s) i).
Proof.
  intros Hs Hi. assert (Hj : 0 ≤ i / 8 < 32) by (Z.to_euclidean_division_equations; lia).
  assert (Es : s.[i / 8] = (le_val 32 s / 256 ^ (i / 8)) mod 256).
  { rewrite <- (le_bytes_get 32) by lia. apply (wsum_inj 256 ltac:(lia) (limb s) (λ j, (le_bytes 32 (le_val 32 s)).[j]) 32); [|intros; by apply le_bytes_range| |lia].
    - intros j Hj'. apply Hs. lia.
    - rewrite le_bytes_wsum, Z.mod_small; [done|]. apply wsum_bound; [lia|]. intros j Hj'. apply Hs. lia. }
  change 7 with (2 ^ 3 - 1). rewrite land_ones_mod by lia. change (2 ^ 3) with 8. change 1 with (2 ^ 1 - 1) at 1. rewrite land_ones_mod by lia. change (2 ^ 1) with 2.
  rewrite <- Z.bit0_mod, Z.shiftr_spec, Z.add_0_l, Es by lia. f_equal. change 256 with (2 ^ 8). pose proof (Z.mod_pos_bound i 8 ltac:(lia)).
  rewrite Z.mod_pow2_bits_low, <- Z.pow_mul_r, <- Z.shiftr_div_pow2, Z.shiftr_spec by lia. f_equal. pose proof (Z.div_mod i 8 ltac:(lia)). lia.
Qed.

Lemma scalarmult_pt q Q s : pt q Q → (∀ j, 0 ≤ j < 32 → 0 ≤ s.[j] < 256) → pt (scalarmult q s) (fscalar (le_val 32 s) Q).
Proof.
  intros Hq Hs. unfold scalarmult, fscalar.
  destruct (zfor_rel (λ (pq : point * point) (PQ : fpoint * fpoint), pt pq.1 PQ.1 ∧ pt pq.2 PQ.2) 256 0 (ladder_step s) (fladder_step (le_val 32 s))
    (mk_point gf0 gf1 gf1 gf0, q) (fp_zero, Q)) as [H _]; [| |exact H].
  - cbn [fst snd]. split; [|exact Hq]. constructor; cbn [p_0 p_1 p_2 p_3 f_X f_Y f_Z f_T fp_zero].
    all: eapply fe_eq; [apply const_fe; [vm_compute; reflexivity|reflexivity]|vm_compute; reflexivity].
  - intros k [p q'] [P Q'] Hk [Hp Hq']. cbn [fst snd] in *. unfold ladder_step, fladder_step. cbv zeta. rewrite (byte_bit s (255 - k) Hs ltac:(lia)).
    destruct (Z.testbit (le_val 32 s) (255 - k)); cbn [Z.b2z].
    + rewrite (cswap_spec p q' P Q' 1) by (try assumption; lia). change (1 =? 1) with true. cbv iota.
      rewrite (cswap_spec (ed_add q' q') (ed_add p q') (fadd Q' Q') (fadd P Q') 1) by (try (by apply ed_add_pt); lia). change (1 =? 1) with true. cbv iota. cbn [fst snd].
      split; by apply ed_add_pt.
    + rewrite (cswap_spec p q' P Q' 0) by (try assumption; lia). change (0 =? 1) with false. cbv iota.
      rewrite (cswap_spec (ed_add p p) (ed_add q' p) (fadd P P) (fadd Q' P) 0) by (try (by apply ed_add_pt); lia). change (0 =? 1) with false. cbv iota. cbn [fst snd].
      split; by apply ed_add_pt.
Qed.

Lemma scalarbase_pt s : (∀ j, 0 ≤ j < 32 → 0 ≤ s.[j] < 256) → pt (scalarbase s) (fscalar (le_val 32 s) fp_base).
Proof.
  intros Hs. apply scalarmult_pt; [|exact Hs].
  assert (HX : fe (2 ^ 17) base_X base_x) by (eapply fe_eq; [apply const_fe; [vm_compute; reflexivity|reflexivity]|vm_compute; reflexivity]).
  assert (HY : fe (2 ^ 17) base_Y base_y) by (eapply fe_eq; [apply const_fe; [vm_compute; reflexivity|reflexivity]|vm_compute; reflexivity]).
  constructor; cbn [p_0 p_1 p_2 p_3 f_X f_Y f_Z f_T fp_base]; [exact HX|exact HY| |].
  - eapply fe_eq; [apply const_fe; [vm_compute; reflexivity|reflexivity]|vm_compute; reflexivity].
  - eapply fe_eq; [apply (gf_M_fe17 _ _ _ _ HX HY)|]. feq_ring.
Qed.

(** ** Encoding and decoding *)

Lemma pack_spec p P : pt p P → pack p = fencode P.
Proof.
  intros [P0 P1 P2 P3]. unfold pack, fencode. cbv zeta. pose proof (inv25519_fe _ _ P2) as Hz. set (zi := inv25519 (p_2 p)) in *. clearbody zi. set (z := f_Z P ^ (P25519 - 2)) in *.
  assert (Hx : fe (2 ^ 17) (gf_M (p_0 p) zi) (f_X P * z)) by (exact (gf_M_fe17 _ _ _ _ P0 Hz)).
  assert (Hy : fe (2 ^ 17) (gf_M (p_1 p) zi) (f_Y P * z)) by (exact (gf_M_fe17 _ _ _ _ P1 Hz)).
  rewrite (par25519_spec _ _ _ Hx) by lia. rewrite (pack25519_spec (gf_M (p_1 p) zi)) by (eapply bnd_weaken; [apply Hy|lia]).
  pose proof (fe_val _ _ _ Hy) as Vy. unfold feq in Vy. rewrite Vy. fold (fmul (f_X P) z) (fmul (f_Y P) z).
  assert (Hr : 0 ≤ fmul (f_Y P) z < P25519) by (apply Z.mod_pos_bound; unfold P25519; lia). pose proof (Z.mod_pos_bound (fmul (f_X P) z) 2 ltac:(lia)) as Hb.
  set (y := fmul (f_Y P) z) in *. set (b := fmul (f_X P) z mod 2) in *. clearbody y b.
  assert (Ht : (le_bytes 32 y).[31] < 128 ∧ 0 ≤ (le_bytes 32 y).[31]).
  { rewrite le_bytes_get by lia. change (256 ^ 31) with (2 ^ 248). unfold P25519 in Hr. Z.to_euclidean_division_equations. lia. }
  assert (E31 : Z.lxor (le_bytes 32 y).[31] (u8 (Z.shiftl b 7)) = (le_bytes 32 y).[31] + 128 * b).
  { assert (u8 (Z.shiftl b 7) = 128 * b) as -> by (rewrite Z.shiftl_mul_pow2 by lia; apply u8_small || (rewrite u8_small by (unfold is_u8; change (2 ^ 7) with 128; lia)); change (2 ^ 7) with 128; lia).
    symmetry. apply Z.add_nocarry_lxor. apply Z.bits_inj'. intros n Hn. rewrite Z.land_spec, Z.bits_0. destruct (decide (n < 7)).
    - assert (Z.testbit (128 * b) n = false) as ->; [|by rewrite andb_false_r]. change 128 with (2 ^ 7). rewrite Z.mul_comm. by apply Z.mul_pow2_bits_low.
    - rewrite (testbit_high 7 _ n) by (change (2 ^ 7) with 128; lia). done. }
  rewrite E31. set (r := le_bytes 32 y) in *.
  assert (Hr' : length (r.[31 <- r.[31] + 128 * b]) = 32%nat) by (rewrite aset_length; apply le_bytes_length).
  assert (Hl : length r = 32%nat) by apply le_bytes_length.
  rewrite (le_bytes_eq 32 (r.[31 <- r.[31] + 128 * b]) Hr').
  - f_equal. rewrite wsum_set by lia. unfold r at 1. rewrite le_bytes_wsum, Z.mod_small by (change (256 ^ Z.of_nat 32) with (2 ^ 256); unfold P25519 in Hr; lia).
    change (256 ^ 31) with (2 ^ 248). lia.
  - intros i Hi. rewrite aget_aset by lia. pose proof (le_bytes_range 32 y i Hi). fold r in H. destruct (Z.eqb_spec 31 i); [lia|done].
Qed.

Lemma unpackneg_spec enc : (∀ i, 0 ≤ i < 32 → 0 ≤ enc.[i] < 256) →
  match unpackneg enc, fdecode_neg enc with Some p, Some P => pt p P | None, None => True | _, _ => False end.
Proof.
  intros He. unfold unpackneg, fdecode_neg. cbv zeta. set (y := le_val 32 enc mod 2 ^ 255).
  assert (W18 : ∀ a x, fe (2 ^ 17) a x → fe (2 ^ 18) a x) by (intros a x0 Ha; eapply fe_weaken; [eassumption|lia]).
  assert (H1 : fe (2 ^ 17) gf1 1) by (eapply fe_eq; [apply const_fe; [vm_compute; reflexivity|reflexivity]|vm_compute; reflexivity]).
  assert (H0 : fe 0 gf0 0).
  { constructor; [|vm_compute; reflexivity]. split; [reflexivity|]. intros i Hi. unfold gf0. rewrite aget_replicate by lia. lia. }
  assert (HD : fe (2 ^ 17) Dc ed_d) by (eapply fe_eq; [apply const_fe; [vm_compute; reflexivity|reflexivity]|vm_compute; reflexivity]).
  assert (HI : fe (2 ^ 17) gf_I sqrt_m1) by (eapply fe_eq; [apply const_fe; [vm_compute; reflexivity|reflexivity]|vm_compute; reflexivity]).
  assert (Hy : fe (2 ^ 17) (unpack25519 enc) y) by (by apply unpack25519_fe). set (r1 := unpack25519 enc) in *. clearbody r1.
  set (u := fminus (y * y) 1). set (v := fplus (ed_d * (y * y)) 1).
  assert (Hu : fe (2 ^ 18) (gf_Z (gf_S r1) gf1) u).
  { apply (fe_eq _ _ _ _ (gf_Z_fe17 _ _ _ _ (gf_M_fe17 _ _ _ _ Hy Hy) H1)). unfold u. feq_ring. }
  assert (Hv : fe (2 ^ 18) (gf_A gf1 (gf_M (gf_S r1) Dc)) v).
  { apply (fe_eq _ _ _ _ (gf_A_fe17 _ _ _ _ H1 (gf_M_fe17 _ _ _ _ (gf_M_fe17 _ _ _ _ Hy Hy) HD))). unfold v. feq_ring. }
  assert (Eu : u mod P25519 = u) by (unfold u, fminus; apply Zmod_mod).
  set (num := gf_Z (gf_S r1) gf1) in *. set (den := gf_A gf1 (gf_M (gf_S r1) Dc)) in *. clearbody num den u v.
  pose proof (gf_M_fe18 _ _ _ _ Hv Hv) as Hv2. fold (gf_S den) in Hv2. set (den2 := gf_S den) in *. pose proof (gf_M_fe17 _ _ _ _ Hv2 Hv2) as Hv4. fold (gf_S den2) in Hv4.
  pose proof (gf_M_fe18 _ _ _ _ (W18 _ _ (gf_M_fe18 _ _ _ _ (W18 _ _ (gf_M_fe17 _ _ _ _ Hv4 Hv2)) Hu)) Hv) as Ht. apply pow2523_fe in Ht.
  set (t := pow2523 _) in *. clearbody t. set (e := (P25519 - 5) / 8) in *.
  pose proof (gf_M_fe18 _ _ _ _ (W18 _ _ (gf_M_fe18 _ _ _ _ (W18 _ _ (gf_M_fe18 _ _ _ _ (W18 _ _ (gf_M_fe18 _ _ _ _ (W18 _ _ Ht) Hu)) Hv)) Hv)) Hv) as Hx.
  set (r0 := gf_M (gf_M (gf_M (gf_M t num) den) den) den) in *. clearbody r0. clear Ht t.
  set (x := (u * v ^ 3 * (u * v ^ 7) ^ e) mod P25519). assert (Ex : x mod P25519 = x) by apply Zmod_mod. apply (fe_eq _ _ _ x) in Hx.
  2: { unfold x. rewrite feq_mod. apply reflexive_eq. replace (v * v * (v * v) * (v * v) * u * v) with (u * v ^ 7) by ring. ring. }
  clearbody x.
  assert (Hchk : ∀ r z, fe (2 ^ 17) r z → (neq25519 (gf_M (gf_S r) den) num =? 0) = (fmul v (z * z) =? u)).
  { intros r z Hr. change (gf_S r) with (gf_M r r). rewrite (neq25519_spec (2 ^ 18) _ _ (z * z * v) u (W18 _ _ (gf_M_fe18 _ _ _ _ (W18 _ _ (gf_M_fe17 _ _ _ _ Hr Hr)) Hv)) Hu ltac:(lia)).
    unfold fmul. by rewrite Z.mul_comm, Eu. }
  rewrite (Hchk _ _ Hx).
  set (r' := if negb (fmul v (x * x) =? u) then gf_M r0 gf_I else r0). set (x' := if fmul v (x * x) =? u then x else fmul x sqrt_m1).
  assert (Hx' : fe (2 ^ 17) r' x' ∧ x' mod P25519 = x').
  { unfold r', x'. destruct (fmul v (x * x) =? u); cbn [negb]; [done|]. split; [|apply Zmod_mod]. apply (fe_eq _ _ _ _ (gf_M_fe17 _ _ _ _ Hx HI)). by rewrite fmul_feq. }
  clearbody r' x'. destruct Hx' as [Hx' Ex']. rewrite (Hchk _ _ Hx'). destruct (negb (fmul v (x' * x') =? u)); [exact I|].
  rewrite (par25519_spec _ _ _ Hx' ltac:(lia)), Ex', Z.shiftr_div_pow2 by lia. change (2 ^ 7) with 128.
  set (r'' := if x' mod 2 =? enc.[31] / 128 then gf_Z gf0 r' else r'). set (x'' := if x' mod 2 =? enc.[31] / 128 then (- x') mod P25519 else x').
  assert (Hx'' : fe (2 ^ 17) r'' x'').
  { unfold r'', x''. destruct (x' mod 2 =? enc.[31] / 128); [|exact Hx']. apply (fe_eq _ _ (0 - x')); [|by rewrite feq_mod].
    apply (gf_Z_fe 0 (2 ^ 17)); [exact H0|exact Hx'|lia]. }
  clearbody r'' x''. constructor; cbn [p_0 p_1 p_2 p_3 f_X f_Y f_Z f_T]; [exact Hx''|exact Hy|exact H1|].
  apply (fe_eq _ _ _ _ (gf_M_fe17 _ _ _ _ Hx'' Hy)). by rewrite fmul_feq.
Qed.

(** ** Verification *)

Lemma words_bytes_length n (l : list Z) : length (l ≫= be_bytes n) = (n * length l)%nat.
Proof. induction l as [|x l IH]; [done|]. rewrite bind_cons, length_app, be_bytes_length, IH. cbn [length]. lia. Qed.

(** The hash is 64 bytes. *)
Lemma sha512_bytes m : length (Sha512.fips_sha512 m) = 64%nat ∧ ∀ i, 0 ≤ i < 64 → 0 ≤ (Sha512.fips_sha512 m).[i] ≤ 255.
Proof.
  unfold Sha512.fips_sha512. set (st := md_hash _ _ _ _).
  assert (Hl : length st = 8%nat).
  { unfold st, md_hash. generalize (blocks_of Sha512.SHA512_BLOCK_SIZE (Z.to_nat (zlen (md_pad Sha512.SHA512_BLOCK_SIZE 16 m) / Sha512.SHA512_BLOCK_SIZE)) (md_pad Sha512.SHA512_BLOCK_SIZE 16 m)).
    intros bs. assert (H : ∀ iv, length iv = 8%nat → length (foldl Sha512.sha512_block iv bs) = 8%nat); [|apply H; reflexivity].
    induction bs as [|b bs IH]; intros iv Hiv; cbn [foldl]; [done|]. apply IH. unfold Sha512.sha512_block. cbv zeta. by destruct (zfor 80 0 _ _). }
  clearbody st. split.
  - by rewrite words_bytes_length, Hl.
  - assert (H : Forall (λ x, 0 ≤ x ≤ 255) (st ≫= be_bytes 8)).
    { apply Forall_bind, Forall_forall. intros x _. unfold be_bytes. apply Forall_fmap, Forall_forall. intros i _. cbn. pose proof (u8_range (Z.shiftr x (8 * (Z.of_nat 8 - 1 - i)))) as H. unfold is_u8 in H. cbn in H. lia. }
    intros i Hi. rewrite Forall_lookup in H. apply (H (Z.to_nat i)). apply aget_lookup. rewrite words_bytes_length. lia.
Qed.

Lemma ed25519_verify_spec ctx0 msg sig pk : zlen ctx0 = Sha512.SHA512_BLOCK_SIZE → zlen msg < 2 ^ 61 →
  length sig = 64%nat → length pk = 32%nat → (∀ i, 0 ≤ i < 64 → 0 ≤ sig.[i] < 256) → (∀ i, 0 ≤ i < 32 → 0 ≤ pk.[i] < 256) →
  ed25519_verify ctx0 msg sig pk = b2z (ref_verify msg sig pk).
Proof.
  intros Hc Hm Hs Hk Bs Bk. unfold ed25519_verify, ref_verify. pose proof (unpackneg_spec pk Bk) as Hu.
  destruct (unpackneg pk) as [q|], (fdecode_neg pk) as [Q|]; try done. cbv zeta.
  assert (Eh : Sha512.sha512_final (Sha512.sha512_update (Sha512.sha512_update (Sha512.sha512_update (Sha512.sha512_init ctx0) (take 32 sig)) (take 32 pk)) msg)
    = Sha512.fips_sha512 (take 32 sig ++ pk ++ msg)).
  { rewrite (take_ge pk) by lia. apply Sha512.sha512_final_spec.
    pose proof (Sha512.sha512_stream_rep [take 32 sig; pk; msg] [] _ ltac:(repeat constructor; rewrite ?length_take; lia) (Sha512.sha512_init_rep ctx0 Hc)) as H.
    cbn [foldl concat app] in H. rewrite app_nil_r in H. exact H. }
  rewrite Eh. set (h := Sha512.fips_sha512 _). destruct (sha512_bytes (take 32 sig ++ pk ++ msg)) as [Hl Hb]. fold h in Hl, Hb. clearbody h.
  unfold ed_reduce. rewrite (take_ge h) by lia. rewrite (modL_spec h Hl Hb). set (n := wsum 256 (limb h) 64 mod L25519).
  assert (Hn : le_val 32 (le_bytes 32 n ++ replicate 32 0) = n).
  { unfold le_val. rewrite (wsum_ext _ _ (limb (le_bytes 32 n)) 32) by (intros; apply aget_app_l; rewrite le_bytes_length; lia).
    rewrite le_bytes_wsum. apply Z.mod_small. pose proof (Z.mod_pos_bound (wsum 256 (limb h) 64) L25519 ltac:(unfold L25519; lia)). change (256 ^ Z.of_nat 32) with (2 ^ 256). unfold n, L25519 in *. lia. }
  assert (Hp : pt (scalarmult q (le_bytes 32 n ++ replicate 32 0)) (fscalar n Q)).
  { rewrite <- Hn at 2. apply scalarmult_pt; [exact Hu|]. intros j Hj. rewrite aget_app_l by (rewrite le_bytes_length; lia). apply le_bytes_range. lia. }
  assert (Hq : pt (scalarbase (drop 32 sig)) (fscalar (le_val 32 (drop 32 sig)) fp_base)).
  { apply scalarbase_pt. intros j Hj. rewrite aget_drop by lia. apply Bs. lia. }
  rewrite (pack_spec _ _ (ed_add_pt _ _ _ _ Hp Hq)). change (le_val 64 h mod L25519) with n. set (E := fencode _).
  assert (HE : length E = 32%nat ∧ ∀ i, 0 ≤ i < 32 → 0 ≤ E.[i] < 256) by (split; [apply le_bytes_length|intros; by apply le_bytes_range]).
  clearbody E. destruct HE as [HE1 HE2]. f_equal. apply eq_true_iff_eq. rewrite Z.eqb_eq, bool_decide_eq_true.
  rewrite (crypto_verify_32_spec sig E ltac:(intros; apply Bs; lia) HE2). split.
  - intros H. apply list_eq_aget; [rewrite length_take; lia|]. intros i Hi. rewrite aget_take by lia. symmetry. apply H. lia.
  - intros -> i Hi. by rewrite aget_take by lia.
Qed.


(** C39. The field product of [ed25519.c]: for limbs up to 2^20 no 64-bit
    operation overflows, the result is the product modulo 2^255 - 19, and its
    limbs are at most 2^17 again. *)
Theorem gf_M_correct (a b : gf) : bnd (2 ^ 20) a → bnd (2 ^ 20) b →
  bnd (2 ^ 17) (gf_M a b) ∧ gval (gf_M a b) mod P25519 = (gval a * gval b) mod P25519.
Proof.
  intros Ha Hb. destruct (gf_M_fe a b (gval a) (gval b)) as [H1 H2]; [by constructor|by constructor|]. split; [exact H1|exact H2].
Qed.

(** [modL] reduces any 64-byte number modulo the group order: 32 bytes of
    the remainder, without overflow. *)
Theorem modL_correct (x : list Z) : length x = 64%nat → (∀ j, 0 ≤ j < 64 → 0 ≤ x.[j] ≤ 255) →
  modL x = le_bytes 32 (le_val 64 x mod L25519) ++ replicate 32 0.
Proof. exact (modL_spec x). Qed.

(** ** Witnesses *)

(** The key and a signature of [crypto_selftest]. *)
Definition kat_pk : list Z := [0x03;0xa1;0x07;0xbf;0xf3;0xce;0x10;0xbe;0x1d;0x70;0xdd;0x18;0xe7;0x4b;0xc0;0x99;0x67;0xe4;0xd6;0x30;0x9b;0xa5;0x0d;0x5f;0x1d;0xdc;0x86;0x64;0x12;0x55;0x31;0xb8].
Definition kat_sig : list Z := [0x9c;0xa5;0x35;0x79;0x53;0x06;0x54;0xd5;0xc3;0xdf;0x77;0x08;0x9e;0xf4;0x5e;0xda;0x61;0x3e;0x2f;0xed;0xf6;0x70;0xe9;0x6b;0xed;0xac;0x46;0x39;0x50;0x4e;0x58;0x45;0xef;0x4b;0x95;0xd5;0x79;0x30;0x77;0x23;0x3d;0xd1;0x68;0x17;0xb2;0x53;0x2e;0x9c;0x55;0x25;0x87;0x2a;0x73;0xa4;0xad;0x74;0xb7;0x59;0x36;0x9a;0x9e;0x05;0xc1;0x02].


Lemma gf_M_correct_witness : gval (gf_M base_X base_Y) mod P25519 = (base_x * base_y) mod P25519.
Proof.
  assert (B : ∀ o : gf, forallb (λ i, (- 2 ^ 20 <=? o.[i]) && (o.[i] <=? 2 ^ 20)) (Z.of_nat <$> seq 0 16) = true → length o = 16%nat → bnd (2 ^ 20) o).
  { intros o H Hl. split; [exact Hl|]. intros i Hi. pose proof (forall_below 16 _ H i ltac:(lia)) as E. cbv beta in E. lia. }
  destruct (gf_M_correct base_X base_Y) as [_ H]; [apply B; vm_compute; reflexivity|apply B; vm_compute; reflexivity|]. rewrite H. vm_compute. reflexivity.
Defined.

(** The largest input: 2^512 - 1. *)
Lemma modL_correct_witness : modL (replicate 64 255) = le_bytes 32 ((2 ^ 512 - 1) mod L25519) ++ replicate 32 0.
Proof.
  rewrite (modL_correct (replicate 64 255) eq_refl).
  - vm_compute. reflexivity.
  - intros j Hj. rewrite aget_replicate by lia. lia.
Defined.
