(* ===== verification/Elf.v ===== *)
(** * ELF images

    Models the loader of [src/mm/elf.c] ([elf_load_image_lazy]), the note
    parsers of [src/mm/elf_manifest.c] and [src/mm/elf_sign.c], and the
    signature gate [elf_signature_verify] with its list of revoked keys.

    An image is a range of kernel memory: a base address and a size.  Pointers
    are 64-bit numbers and their arithmetic wraps, as the compiled code's. *)

From S2P Require Import Prelude ShaMd Vma Frames Vmm.
From S2P Require Sha256 Ed25519.

Definition USER_DATA_BASE : Z := 0x0000000200000000.

(** ** Headers *)

(** The fields of [Elf64_Ehdr] the code reads. *)
Record Elf64_Ehdr := mk_ehdr {
  e_ident : list Z;
  e_entry : Z;
  e_phoff : Z;
  e_phentsize : Z;
  e_phnum : Z
}.
Definition rd_ehdr (m : mem) (a : Z) : Elf64_Ehdr :=
  mk_ehdr ((λ i, rd8 m (a + i)) <$> seqZ 0 16) (rd64 m (a + 24)) (rd64 m (a + 32)) (rd16 m (a + 54)) (rd16 m (a + 56)).
Definition SIZEOF_EHDR : Z := 64.

Record Elf64_Phdr := mk_phdr {
  p_type : Z;
  p_flags : Z;
  p_offset : Z;
  p_vaddr : Z;
  p_filesz : Z;
  p_memsz : Z;
  p_align : Z
}.
Definition rd_phdr (m : mem) (a : Z) : Elf64_Phdr :=
  mk_phdr (rd32 m a) (rd32 m (a + 4)) (rd64 m (a + 8)) (rd64 m (a + 16)) (rd64 m (a + 32)) (rd64 m (a + 40)) (rd64 m (a + 48)).
Definition SIZEOF_PHDR : Z := 56.

Definition PT_LOAD : Z := 1.
Definition PT_NOTE : Z := 4.
Definition PF_X : Z := 1.
Definition PF_W : Z := 2.

Definition ELF_OK : Z := 0.
Definition ELF_ERR_MAGIC : Z := -1.
Definition ELF_ERR_FMT : Z := -2.
Definition ELF_ERR_RANGE : Z := -3.
Definition ELF_ERR_FLAG : Z := -4.
Definition ELF_ERR_MAP : Z := -5.

Definition check_magic (eh : Elf64_Ehdr) : Z :=
  if negb ((e_ident eh).[0] =? 0x7F) || negb ((e_ident eh).[1] =? 0x45) || negb ((e_ident eh).[2] =? 0x4C) || negb ((e_ident eh).[3] =? 0x46)
  then ELF_ERR_MAGIC else 0.

(** Program header [i], and whether it lies past the end of the image. *)
Definition phdr_ptr (base phoff i : Z) : Z := u64 (base + phoff + i * SIZEOF_PHDR).
Definition past_end (base size ph : Z) : bool := u64 (base + size) <? u64 (ph + SIZEOF_PHDR).

(** ** The demand-paging loader *)

(** What a program header asks for. *)
Inductive ph_result :=
  | PhSkip
  | PhErr (rc : Z)
  | PhLoad (start end_ flags off pad len : Z).

Definition check_phdr (size : Z) (ph : Elf64_Phdr) : ph_result :=
  if negb (p_type ph =? PT_LOAD) then PhSkip
  else if (p_memsz ph =? 0) && (p_filesz ph =? 0) then PhSkip
  else if flag (p_flags ph) PF_X && flag (p_flags ph) PF_W then PhErr ELF_ERR_FLAG
  else if size <? u64 (p_offset ph + p_filesz ph) then PhErr ELF_ERR_RANGE
  else if (if flag (p_flags ph) PF_X then (p_vaddr ph <? USER_CODE_BASE) || (USER_DATA_BASE <=? p_vaddr ph)
           else (p_vaddr ph <? USER_DATA_BASE) || (USER_STACK_TOP - 0x100000 <=? p_vaddr ph))
  then PhErr ELF_ERR_RANGE
  else if negb (p_align ph =? 0) && negb (p_align ph =? 0x1000) then PhErr ELF_ERR_FMT
  else
    let vaddr := p_vaddr ph in
    let memsz := if p_memsz ph <? p_filesz ph then p_filesz ph else p_memsz ph in
    if memsz =? 0 then PhSkip
    else
      let start := Z.land vaddr (not64 0xFFF) in
      let end_ := Z.land (u64 (vaddr + memsz + 0xFFF)) (not64 0xFFF) in
      let flags := if flag (p_flags ph) PF_X then VMM_FLAG_USER
                   else Z.lor (Z.lor VMM_FLAG_USER VMM_FLAG_RW) VMM_FLAG_NOEXEC in
      PhLoad start end_ flags (p_offset ph) (vaddr - start) (p_filesz ph).

(** The loop over the program headers; [n] of them are left. *)
Fixpoint load_phdrs (m : mem) (image size phoff : Z) (n : nat) (i : Z) (s : vset) (footprint : Z) : Z * vset * Z :=
  match n with
  | O => (ELF_OK, s, footprint)
  | S n =>
      let ph := phdr_ptr image phoff i in
      if past_end image size ph then (ELF_ERR_RANGE, s, footprint)
      else
        match check_phdr size (rd_phdr m ph) with
        | PhSkip => load_phdrs m image size phoff n (i + 1) s footprint
        | PhErr rc => (rc, s, footprint)
        | PhLoad start end_ flags off pad len =>
            match vma_add s start end_ flags VMA_TYPE_FILE image off pad len with
            | None => (ELF_ERR_MAP, s, footprint)
            | Some s => load_phdrs m image size phoff n (i + 1) s (u64 (footprint + (end_ - start)))
            end
        end
  end.

(** Result, entry point and footprint ([None] where they are not written), and
    the regions. *)
Definition elf_load_image_lazy (m : mem) (image size : Z) (s : vset) : Z * option Z * vset * option Z :=
  if (image =? 0) || (size <? SIZEOF_EHDR) then (ELF_ERR_FMT, None, s, None)
  else
    let eh := rd_ehdr m image in
    if negb (check_magic eh =? 0) then (ELF_ERR_MAGIC, None, s, None)
    else if (e_phoff eh =? 0) || (e_phnum eh =? 0) then (ELF_ERR_FMT, None, s, None)
    else if negb (e_phentsize eh =? SIZEOF_PHDR) then (ELF_ERR_FMT, None, s, None)
    else
      let '(rc, s, fp) := load_phdrs m image size (e_phoff eh) (Z.to_nat (e_phnum eh)) 0 s 0 in
      (rc, Some (e_entry eh), s, if rc =? ELF_OK then Some fp else None).

(** ** Notes *)

Definition pad4 (x : Z) : Z := Z.land (u32 (x + 3)) (not32 3).

(** [name] is "SECOS" at [p]. *)
Definition secos_name (m : mem) (p : Z) : bool :=
  (rd8 m p =? 0x53) && (rd8 m (p + 1) =? 0x45) && (rd8 m (p + 2) =? 0x43) && (rd8 m (p + 3) =? 0x4F) && (rd8 m (p + 4) =? 0x53).

(** The loop over the notes of a segment: the description of the first note
    [P] accepts. *)
Fixpoint find_note (m : mem) (P : Z → Z → Z → Z → bool) (fuel : nat) (note end_ : Z) : option (Z * Z) :=
  match fuel with
  | O => None
  | S fuel =>
      if u64 (note + 12) <=? end_ then
        let namesz := rd32 m note in
        let descsz := rd32 m (note + 4) in
        let type := rd32 m (note + 8) in
        let name := u64 (note + 12) in
        let desc := u64 (note + 12 + pad4 namesz) in
        let next := u64 (desc + pad4 descsz) in
        if end_ <? next then None
        else if P type namesz descsz name then Some (desc, descsz)
        else find_note m P fuel next end_
      else None
  end.

(** The loop over the note segments; an error when a header or a segment lies
    outside the image.  [null] says whether a description at address 0 counts
    as none, as it does where the code keeps it in a pointer. *)
Inductive note_result :=
  | NoteFound (desc descsz : Z)
  | NoteNone
  | NoteRange.
Fixpoint find_notes (null : bool) (m : mem) (P : Z → Z → Z → Z → bool) (base size phoff : Z) (n : nat) (i : Z) : note_result :=
  match n with
  | O => NoteNone
  | S n =>
      let pp := phdr_ptr base phoff i in
      if past_end base size pp then NoteRange
      else
        let ph := rd_phdr m pp in
        if negb (p_type ph =? PT_NOTE) then find_notes null m P base size phoff n (i + 1)
        else if size <? u64 (p_offset ph + p_filesz ph) then NoteRange
        else
          let note := u64 (base + p_offset ph) in
          let end_ := u64 (note + p_filesz ph) in
          match find_note m P (Z.to_nat (p_filesz ph / 12 + 1)) note end_ with
          | Some (desc, descsz) => if null && (desc =? 0) then find_notes null m P base size phoff n (i + 1) else NoteFound desc descsz
          | None => find_notes null m P base size phoff n (i + 1)
          end
  end.

(** ** The manifest *)

Definition SECOS_NOTE_TYPE : Z := 0x51534543.
Definition MANIFEST_OK : Z := 0.
Definition MANIFEST_ERR_NOT_FOUND : Z := -1.
Definition MANIFEST_ERR_FMT : Z := -2.
Definition MANIFEST_ERR_RANGE : Z := -3.
Definition MANIFEST_ERR_UNSUPPORTED : Z := -4.
Definition MANIFEST_PROC_TYPE_USER : Z := 0.
Definition MANIFEST_PROC_TYPE_DRIVER : Z := 1.
Definition MANIFEST_VERSION_DRIVER : Z := 2.

Record elf_manifest := mk_manifest {
  mf_version : Z;
  mf_flags : Z;
  mf_max_mem : Z;
  mf_entry_hint : Z;
  mf_proc_type : Z;
  mf_dev_id : Z;
  mf_dev_caps : Z
}.

Definition is_manifest_note (m : mem) (type namesz descsz name : Z) : bool :=
  negb (namesz =? 0) && negb (descsz =? 0) && (type =? SECOS_NOTE_TYPE) && (6 <=? namesz) && secos_name m name && (24 <=? descsz).

Definition rd_manifest (m : mem) (raw descsz : Z) : elf_manifest :=
  let driver := (MANIFEST_VERSION_DRIVER <=? rd32 m raw) && (40 <=? descsz) in
  mk_manifest (rd32 m raw) (rd32 m (raw + 4)) (rd64 m (raw + 8)) (rd64 m (raw + 16))
    (if driver then rd32 m (raw + 24) else MANIFEST_PROC_TYPE_USER) (if driver then rd32 m (raw + 28) else 0) (if driver then rd32 m (raw + 32) else 0).

Definition elf_manifest_parse (m : mem) (base size : Z) : Z * option elf_manifest :=
  if (base =? 0) || (size <? SIZEOF_EHDR) then (MANIFEST_ERR_FMT, None)
  else
    let eh := rd_ehdr m base in
    if (e_phoff eh =? 0) || (e_phnum eh =? 0) then (MANIFEST_ERR_NOT_FOUND, None)
    else if negb (e_phentsize eh =? SIZEOF_PHDR) then (MANIFEST_ERR_FMT, None)
    else
      match find_notes true m (is_manifest_note m) base size (e_phoff eh) (Z.to_nat (e_phnum eh)) 0 with
      | NoteRange => (MANIFEST_ERR_RANGE, None)
      | NoteNone => (MANIFEST_ERR_NOT_FOUND, None)
      | NoteFound raw descsz => (MANIFEST_OK, Some (rd_manifest m raw descsz))
      end.

Definition elf_manifest_validate (mf : elf_manifest) (real_entry : Z) : Z :=
  if negb (mf_entry_hint mf =? 0) && negb (mf_entry_hint mf =? real_entry) then MANIFEST_ERR_UNSUPPORTED else MANIFEST_OK.

(** ** Signatures *)

Definition SECOS_SIG_NOTE_TYPE : Z := 0x51534947.
Definition SIZEOF_SIG_RAW : Z := 72.
Definition ELF_SIG_OK : Z := 0.
Definition ELF_SIG_NOSIG : Z := -1.
Definition ELF_SIG_BAD : Z := -2.
Definition ELF_SIG_FMT : Z := -3.

Definition secos_trusted_pubkey : list Z :=
  [0xfc;0x74;0xfb;0xf0;0x3a;0x91;0x08;0x73;0x98;0x7b;0x16;0xdf;0x5f;0xc8;0x71;0x20;0x1c;0x9f;0xe7;0xcd;0x34;0x87;0x4a;0xf7;0x00;0xea;0x74;0xae;0x45;0x40;0x55;0x10].

Definition is_sig_note (m : mem) (type namesz descsz name : Z) : bool :=
  (type =? SECOS_SIG_NOTE_TYPE) && (6 <=? namesz) && secos_name m name && (SIZEOF_SIG_RAW <=? descsz).

Definition find_qsig_sig_offset (m : mem) (base size : Z) : Z :=
  if size <? SIZEOF_EHDR then 0
  else
    let eh := rd_ehdr m base in
    if (e_phoff eh =? 0) || (e_phnum eh =? 0) then 0
    else if negb (e_phentsize eh =? SIZEOF_PHDR) then 0
    else
      match find_notes false m (is_sig_note m) base size (e_phoff eh) (Z.to_nat (e_phnum eh)) 0 with
      | NoteFound desc _ => u64 (desc + 8 - base)
      | _ => 0
      end.

(** The revoked keys, [g_revoked_keys[0 .. g_revoked_n - 1]]. *)
Definition SECOS_MAX_REVOKED : Z := 16.
Definition elf_sign_key_revoked (revoked : list Z) (key_id : Z) : bool := existsb (Z.eqb key_id) revoked.
Definition elf_sign_revoke_key (revoked : list Z) (key_id : Z) : list Z :=
  if existsb (Z.eqb key_id) revoked then revoked
  else if zlen revoked <? SECOS_MAX_REVOKED then revoked ++ [key_id] else revoked.

(** [n] bytes at [a]. *)
Definition bytes (m : mem) (a n : Z) : list Z := (λ i, rd8 m (a + i)) <$> seqZ 0 n.

(** [c2] and [c5] are the uninitialised buffers of the hash contexts. *)
Definition elf_signature_verify (c2 c5 : list Z) (revoked : list Z) (m : mem) (base size : Z) : Z :=
  if (base =? 0) || (size <? SIZEOF_EHDR) then ELF_SIG_FMT
  else
    let sig_off := find_qsig_sig_offset m base size in
    if sig_off =? 0 then ELF_SIG_NOSIG
    else if size <? u64 (sig_off + 64) then ELF_SIG_FMT
    else if (4 <=? sig_off) && elf_sign_key_revoked revoked (rd32 m (base + sig_off - 4)) then ELF_SIG_BAD
    else
      let c := Sha256.sha256_init c2 in
      let c := Sha256.sha256_update c (bytes m base sig_off) in
      let c := Sha256.sha256_update c (replicate 64 0) in
      let c := Sha256.sha256_update c (bytes m (base + sig_off + 64) (u64 (size - sig_off - 64))) in
      let digest := Sha256.sha256_final c in
      if negb (Ed25519.ed25519_verify c5 digest (bytes m (base + sig_off) 64) secos_trusted_pubkey =? 1) then ELF_SIG_BAD else ELF_SIG_OK.
