(* ===== verification/ElfLoad.v ===== *)
(** * The loader of ELF images

    What [elf_load_image_lazy] makes of an image: which images it accepts,
    that no region it registers is writable and executable, and that a
    well-laid-out image gets exactly its segments, each byte backed by the file
    or by zeros. *)

From S2P Require Import Prelude Vma Frames Vmm Elf.

(** ** The program headers of an image *)

Definition phdr_at (m : mem) (image i : Z) : Elf64_Phdr := rd_phdr m (phdr_ptr image (e_phoff (rd_ehdr m image)) i).
Definition phdrs (m : mem) (image : Z) : list Elf64_Phdr :=
  phdr_at m image <$> seqZ 0 (e_phnum (rd_ehdr m image)).

(** A header that asks for memory, and its extent in whole pages. *)
Definition seg_mem (ph : Elf64_Phdr) : Z := Z.max (p_memsz ph) (p_filesz ph).
Definition loadable (ph : Elf64_Phdr) : bool := (p_type ph =? PT_LOAD) && (0 <? seg_mem ph).
Definition seg_lo (ph : Elf64_Phdr) : Z := p_vaddr ph / 4096 * 4096.
Definition seg_hi (ph : Elf64_Phdr) : Z := (p_vaddr ph + seg_mem ph + 4095) / 4096 * 4096.
Definition exec (ph : Elf64_Phdr) : bool := flag (p_flags ph) PF_X.

(** What the loader asks of such a header. *)
Definition seg_good (size : Z) (ph : Elf64_Phdr) : bool :=
  negb (exec ph && flag (p_flags ph) PF_W) && (u64 (p_offset ph + p_filesz ph) <=? size) &&
  (if exec ph then (USER_CODE_BASE <=? p_vaddr ph) && (p_vaddr ph <? USER_DATA_BASE)
   else (USER_DATA_BASE <=? p_vaddr ph) && (p_vaddr ph <? USER_STACK_TOP - 0x100000)) &&
  ((p_align ph =? 0) || (p_align ph =? 4096)).

Definition seg_flags (ph : Elf64_Phdr) : Z :=
  if exec ph then VMM_FLAG_USER else Z.lor (Z.lor VMM_FLAG_USER VMM_FLAG_RW) VMM_FLAG_NOEXEC.
Definition seg_vma (image : Z) (ph : Elf64_Phdr) : vma :=
  mk_vma (seg_lo ph) (Z.land (u64 (p_vaddr ph + seg_mem ph + 0xFFF)) (not64 0xFFF)) (seg_flags ph) VMA_TYPE_FILE
    image (p_offset ph) (p_vaddr ph - seg_lo ph) (p_filesz ph) 0 0 0.
Definition seg_size (ph : Elf64_Phdr) : Z := v_end (seg_vma 0 ph) - v_start (seg_vma 0 ph).

(** Fields of a header read from memory. *)
Record phdr_wf (ph : Elf64_Phdr) : Prop := {
  pw_vaddr : is_u64 (p_vaddr ph);
  pw_offset : is_u64 (p_offset ph);
  pw_filesz : is_u64 (p_filesz ph);
  pw_memsz : is_u64 (p_memsz ph)
}.
Lemma rd_phdr_wf m a : phdr_wf (rd_phdr m a).
Proof. constructor; apply rd64_range. Qed.

(** One header: skipped, refused or loaded. *)
Lemma check_phdr_spec size ph image : phdr_wf ph →
  match check_phdr size ph with
  | PhSkip => loadable ph = false
  | PhErr rc => loadable ph = true ∧ seg_good size ph = false ∧ rc ≠ ELF_OK
  | PhLoad st en fl off pad len => loadable ph = true ∧ seg_good size ph = true ∧
      mk_vma st en fl VMA_TYPE_FILE image off pad len 0 0 0 = seg_vma image ph
  end.
Proof.
  intros [Hv Ho Hf Hm]. unfold check_phdr, loadable, seg_good, seg_vma. fold (exec ph). cbv zeta.
  assert (Emem : (if p_memsz ph <? p_filesz ph then p_filesz ph else p_memsz ph) = seg_mem ph) by (unfold seg_mem; split_if; lia).
  rewrite Emem. destruct (p_type ph =? PT_LOAD) eqn:Et; cbn [negb]; [|done]. cbn [andb].
  assert (E0 : (p_memsz ph =? 0) && (p_filesz ph =? 0) = negb (0 <? seg_mem ph)) by (unfold seg_mem, is_u64 in *; lia).
  rewrite E0. destruct (0 <? seg_mem ph) eqn:E1; cbn [negb]; [|done].
  destruct (exec ph && flag (p_flags ph) PF_W) eqn:E2; cbn [negb andb]; [done|].
  destruct (Z.ltb_spec size (u64 (p_offset ph + p_filesz ph))), (Z.leb_spec (u64 (p_offset ph + p_filesz ph)) size); try lia; cbn [andb]; [done|].
  set (bad := if exec ph then (p_vaddr ph <? USER_CODE_BASE) || (USER_DATA_BASE <=? p_vaddr ph) else _).
  set (good := if exec ph then _ && _ else _).
  assert (Eg : bad = negb good) by (unfold bad, good; destruct (exec ph); lia). rewrite Eg. destruct good; cbn [negb andb]; [|done].
  change 0x1000 with 4096. destruct (p_align ph =? 0), (p_align ph =? 4096); cbn [negb andb orb]; try done;
    (replace (seg_mem ph =? 0) with false by (symmetry; apply Z.eqb_neq; apply Z.ltb_lt in E1; lia));
    rewrite (land_not_page (p_vaddr ph)) by done; done.
Qed.

(** ** The loop *)

Lemma add_live s start en fl t base off pad len : (∀ i, 0 ≤ i < zlen s → live s.[i]) →
  vma_add s start en fl t base off pad len =
  if VMA_MAX <=? zlen s then None else Some (s ++ [mk_vma start en fl t base off pad len 0 0 0]).
Proof.
  intros Hs. unfold vma_add. destruct (slot_find is_none s 0) as [i|] eqn:E; [|done].
  apply slot_find_Some in E as (Hi & Hn & _). rewrite Z.sub_0_r in *. specialize (Hs i Hi). apply is_none_spec in Hs. congruence.
Qed.

Abbreviation regions image phs := (seg_vma image <$> filter (λ ph, loadable ph = true) phs).

#[global] Instance phdr_inhabited : Inhabited Elf64_Phdr := populate (mk_phdr 0 0 0 0 0 0 0).

Lemma regions_live image phs i : 0 ≤ i < zlen (regions image phs) → live (regions image phs).[i].
Proof. intros Hi. rewrite length_fmap in Hi. rewrite aget_fmap by done. done. Qed.

Lemma regions_snoc image l ph : regions image (l ++ [ph]) = regions image l ++ (if loadable ph then [seg_vma image ph] else []).
Proof. rewrite filter_app, fmap_app. f_equal. rewrite filter_cons. destruct (loadable ph) eqn:E; [rewrite decide_True by done|rewrite decide_False by done]; done. Qed.

Definition total_size (phs : list Elf64_Phdr) : Z := foldr (λ ph n, seg_size ph + n) 0 (filter (λ ph, loadable ph = true) phs).

Lemma total_size_snoc l ph : total_size (l ++ [ph]) = total_size l + (if loadable ph then seg_size ph else 0).
Proof.
  unfold total_size. rewrite filter_app, foldr_app, filter_cons.
  assert (E : ∀ l' z, foldr (λ ph n, seg_size ph + n) z l' = foldr (λ ph n, seg_size ph + n) 0 l' + z) by (induction l' as [|x l' IH]; intros z; cbn; [lia|rewrite IH; lia]).
  rewrite E. destruct (loadable ph) eqn:El; [rewrite decide_True by done|rewrite decide_False by done]; cbn; lia.
Qed.

Definition hdr_ok (m : mem) (image size phoff i : Z) : bool :=
  negb (past_end image size (phdr_ptr image phoff i)) &&
  (negb (loadable (rd_phdr m (phdr_ptr image phoff i))) || seg_good size (rd_phdr m (phdr_ptr image phoff i))).

Section loop.
Context (m : mem) (image size phoff : Z).
Let rd (j : Z) : Elf64_Phdr := rd_phdr m (phdr_ptr image phoff j).

(** The outcome of the loop when [l] is done and the [n] headers from [i] are
    left: a prefix of the headers is loaded, all of them exactly on success. *)
Definition load_done (n : nat) (i : Z) (l : list Elf64_Phdr) (res : Z * vset * Z) : Prop :=
  let all := l ++ (rd <$> seqZ i (Z.of_nat n)) in
  ∃ k, (k ≤ length all)%nat ∧
  res.1.2 = regions image (take k all) ∧ res.2 = u64 (total_size (take k all)) ∧
  (∀ ph, ph ∈ drop (length l) (take k all) → loadable ph = true → seg_good size ph = true) ∧
  (res.1.1 = ELF_OK ↔ forallb (hdr_ok m image size phoff) (seqZ i (Z.of_nat n)) = true ∧ zlen (regions image all) ≤ VMA_MAX) ∧
  (res.1.1 = ELF_OK → k = length all).

Lemma seqZ_S i n : seqZ i (Z.of_nat (S n)) = i :: seqZ (i + 1) (Z.of_nat n).
Proof. rewrite seqZ_cons by lia. replace (Z.succ i) with (i + 1) by lia. by replace (Z.pred (Z.of_nat (S n))) with (Z.of_nat n) by lia. Qed.

Lemma headers_S n i l : l ++ (rd <$> seqZ i (Z.of_nat (S n))) = (l ++ [rd i]) ++ (rd <$> seqZ (i + 1) (Z.of_nat n)).
Proof. by rewrite seqZ_S, fmap_cons, <- app_assoc. Qed.

Lemma load_stop n i l rc : rc ≠ ELF_OK →
  (hdr_ok m image size phoff i = true → zlen (regions image (l ++ [rd i])) ≤ VMA_MAX → False) →
  load_done (S n) i l (rc, regions image l, u64 (total_size l)).
Proof.
  intros Hrc Hno. exists (length l). rewrite take_app_length, drop_all. split_and!; try done; [rewrite length_app; lia|set_solver|].
  split; [done|]. cbn [fst]. intros [H1 H2]. exfalso. rewrite seqZ_S in H1. cbn [forallb] in H1. zbool. apply Hno; [done|].
  rewrite headers_S, filter_app, fmap_app, length_app in H2. lia.
Qed.

Lemma load_go n i l res : hdr_ok m image size phoff i = true → (loadable (rd i) = true → seg_good size (rd i) = true) →
  load_done n (i + 1) (l ++ [rd i]) res → load_done (S n) i l res.
Proof.
  intros H2 H3. unfold load_done. rewrite headers_S, seqZ_S. cbn [forallb]. rewrite H2. cbn [andb].
  set (rest := rd <$> seqZ (i + 1) (Z.of_nat n)). intros (k & Hk & E1 & E2 & Hg & Hrc & Hfull). exists k. split_and!; try done.
  intros ph Hin Hlo. destruct (decide (k ≤ length l)%nat) as [Hle|Hgt].
  { rewrite drop_ge in Hin by (rewrite length_take; lia). by apply not_elem_of_nil in Hin. }
  assert (Et : take k ((l ++ [rd i]) ++ rest) = (l ++ [rd i]) ++ take (k - length (l ++ [rd i])) rest).
  { rewrite take_app, take_ge; [done|]. rewrite length_app. cbn. lia. }
  rewrite Et in Hin, Hg. rewrite drop_app_length in Hg. rewrite <- app_assoc, drop_app_length in Hin.
  apply elem_of_cons in Hin as [->|Hin]; auto.
Qed.

Lemma load_phdrs_spec n : ∀ i l, zlen (regions image l) ≤ VMA_MAX →
  load_done n i l (load_phdrs m image size phoff n i (regions image l) (u64 (total_size l))).
Proof.
  induction n as [|n IH]; intros i l Hl.
  { exists (length l). cbn. rewrite app_nil_r, take_ge, drop_ge by lia. split_and!; try done; set_solver. }
  cbn [load_phdrs]. fold (rd i). destruct (past_end image size (phdr_ptr image phoff i)) eqn:Ep.
  { apply load_stop; [done|]. unfold hdr_ok. by rewrite Ep. }
  pose proof (check_phdr_spec size (rd i) image (rd_phdr_wf _ _)) as Hc. destruct (check_phdr size (rd i)) as [|rc|st en fl off pad len].
  - assert (Er : regions image (l ++ [rd i]) = regions image l) by (rewrite regions_snoc, Hc; apply app_nil_r).
    assert (Et : total_size (l ++ [rd i]) = total_size l) by (rewrite total_size_snoc, Hc; lia).
    apply load_go; [unfold hdr_ok; fold (rd i); by rewrite Ep, Hc|by rewrite Hc|]. rewrite <- Er, <- Et. apply IH. by rewrite Er.
  - destruct Hc as (Hlo & Hg & Hrc). apply load_stop; [done|]. unfold hdr_ok. fold (rd i). by rewrite Ep, Hlo, Hg.
  - destruct Hc as (Hlo & Hg & Hv). rewrite add_live by (intros; by apply regions_live).
    assert (Er : regions image (l ++ [rd i]) = regions image l ++ [seg_vma image (rd i)]) by (by rewrite regions_snoc, Hlo).
    destruct (Z.leb_spec VMA_MAX (zlen (regions image l))) as [Hfull|Hfit].
    + apply load_stop; [done|]. rewrite Er, length_app. cbn [length]. lia.
    + apply load_go; [unfold hdr_ok; fold (rd i); by rewrite Ep, Hlo, Hg|done|]. rewrite Hv, <- Er.
      replace (u64 (u64 (total_size l) + (en - st))) with (u64 (total_size (l ++ [rd i]))); [apply IH; rewrite Er, length_app; cbn; lia|].
      rewrite total_size_snoc, Hlo. injection Hv as H1 H2 _ _ _ _. unfold seg_size, seg_vma. cbn. rewrite <- H1, <- H2. unfold u64. by rewrite Zplus_mod_idemp_l.
Qed.
End loop.

(** ** The whole loader *)

(** The checks on the file header. *)
Definition ehdr_ok (m : mem) (image size : Z) : bool :=
  negb (image =? 0) && (SIZEOF_EHDR <=? size) && (check_magic (rd_ehdr m image) =? 0) &&
  negb (e_phoff (rd_ehdr m image) =? 0) && negb (e_phnum (rd_ehdr m image) =? 0) && (e_phentsize (rd_ehdr m image) =? SIZEOF_PHDR).

Definition phdrs_ok (m : mem) (image size : Z) : bool :=
  forallb (hdr_ok m image size (e_phoff (rd_ehdr m image))) (seqZ 0 (e_phnum (rd_ehdr m image))).

Lemma lazy_bad m image size s : ehdr_ok m image size = false →
  ∃ rc, rc ≠ ELF_OK ∧ elf_load_image_lazy m image size s = (rc, None, s, None).
Proof.
  unfold ehdr_ok, elf_load_image_lazy. intros H. rewrite (Z.ltb_antisym SIZEOF_EHDR size).
  destruct (image =? 0), (SIZEOF_EHDR <=? size); cbn [negb orb andb] in *; try (by eexists; split; [|done]).
  destruct (check_magic _ =? 0); cbn [negb orb andb] in *; [|by eexists; split; [|done]].
  destruct (e_phoff _ =? 0), (e_phnum _ =? 0); cbn [negb orb andb] in *; try (by eexists; split; [|done]).
  rewrite H. by eexists; split; [|done].
Qed.

Lemma lazy_good m image size s : ehdr_ok m image size = true →
  elf_load_image_lazy m image size s =
  let '(rc, s, fp) := load_phdrs m image size (e_phoff (rd_ehdr m image)) (Z.to_nat (e_phnum (rd_ehdr m image))) 0 s 0 in
  (rc, Some (e_entry (rd_ehdr m image)), s, if rc =? ELF_OK then Some fp else None).
Proof.
  unfold ehdr_ok, elf_load_image_lazy. intros H. rewrite (Z.ltb_antisym SIZEOF_EHDR size).
  destruct (image =? 0), (SIZEOF_EHDR <=? size), (check_magic _ =? 0), (e_phoff _ =? 0), (e_phnum _ =? 0), (e_phentsize _ =? SIZEOF_PHDR); cbn [negb orb andb] in *; done.
Qed.

Lemma phnum_range m image : 0 ≤ e_phnum (rd_ehdr m image).
Proof. apply (rd16_range m (image + 56)). Qed.

Lemma lazy_spec m image size : ehdr_ok m image size = true →
  ∃ rc k, elf_load_image_lazy m image size [] =
    (rc, Some (e_entry (rd_ehdr m image)), regions image (take k (phdrs m image)),
     if rc =? ELF_OK then Some (u64 (total_size (phdrs m image))) else None) ∧
  (∀ ph, ph ∈ take k (phdrs m image) → loadable ph = true → seg_good size ph = true) ∧
  (rc = ELF_OK ↔ phdrs_ok m image size = true ∧ zlen (regions image (phdrs m image)) ≤ VMA_MAX) ∧
  (rc = ELF_OK → k = length (phdrs m image)).
Proof.
  intros Hh. rewrite (lazy_good m image size [] Hh). set (phoff := e_phoff (rd_ehdr m image)).
  pose proof (load_phdrs_spec m image size phoff (Z.to_nat (e_phnum (rd_ehdr m image))) 0 [] ltac:(done)) as (k & Hk & E1 & E2 & Hg & Hrc & Hfull).
  cbn [app length filter fmap list_fmap] in *. change (u64 (total_size [])) with 0 in *. rewrite Z2Nat.id in * by apply phnum_range. 
  change ((λ j, rd_phdr m (phdr_ptr image phoff j)) <$> _) with (phdrs m image) in *.
  change (regions image []) with (@nil vma) in *.
  destruct (load_phdrs _ _ _ _ _ _ _ _) as [[rc s'] fp]. cbn [fst snd] in *. exists rc, k. rewrite E1, E2. split_and!; try done.
  destruct (rc =? ELF_OK) eqn:E; [|done]. apply Z.eqb_eq in E. rewrite (Hfull E), take_ge by done. done.
Qed.

(** ** Well-laid-out images *)

(** Segments that end below [top], with their bytes inside the file, and whose
    pages do not meet. *)
Definition apart (p q : Elf64_Phdr) : bool := (seg_hi p <=? seg_lo q) || (seg_hi q <=? seg_lo p).
Fixpoint all_apart (l : list Elf64_Phdr) : bool :=
  match l with
  | [] => true
  | p :: l => forallb (apart p) l && all_apart l
  end.
Definition layout_ok (size top : Z) (phs : list Elf64_Phdr) : bool :=
  forallb (λ ph, negb (loadable ph) || (p_offset ph + p_filesz ph <=? size) && (seg_hi ph <=? top)) phs &&
  all_apart (filter (λ ph, loadable ph = true) phs).

(** Byte [a] of a segment. *)
Definition seg_byte (image : Z) (ph : Elf64_Phdr) (a : Z) : backing :=
  if (p_vaddr ph <=? a) && (a <? p_vaddr ph + p_filesz ph) then BImage (image + p_offset ph + (a - p_vaddr ph)) else BZero.

Lemma aget_S {A} `{Inhabited A} (x : A) l j : 1 ≤ j → (x :: l).[j] = l.[j - 1].
Proof. intros Hj. by rewrite (aget_app_r [x] l j) by (cbn; lia). Qed.

Lemma all_apart_spec l : all_apart l = true → ∀ i j, 0 ≤ i < zlen l → 0 ≤ j < zlen l → i ≠ j → apart l.[i] l.[j] = true.
Proof.
  assert (Hsym : ∀ p q, apart p q = apart q p) by (intros; apply orb_comm).
  assert (H0 : ∀ p l, forallb (apart p) l = true → ∀ j, 1 ≤ j < zlen (p :: l) → apart p (p :: l).[j] = true).
  { intros p l' H j Hj. rewrite aget_S by lia. cbn [length] in Hj. rewrite forallb_forall in H. apply H.
    apply list_elem_of_In, list_elem_of_lookup. exists (Z.to_nat (j - 1)). apply list_lookup_lookup_total_lt. lia. }
  induction l as [|p l IH]; cbn [all_apart]; [cbn; lia|]. intros [Hp Hl]%andb_true_iff i j Hi Hj Hij.
  destruct (decide (i = 0)) as [->|]; [apply (H0 p l Hp); lia|]. destruct (decide (j = 0)) as [->|]; [rewrite Hsym; apply (H0 p l Hp); lia|].
  cbn [length] in *. rewrite !aget_S by lia. apply (IH Hl); lia.
Qed.

Lemma seg_pages ph : phdr_wf ph → loadable ph = true → 0 ≤ seg_lo ph ≤ p_vaddr ph ∧ p_vaddr ph < seg_lo ph + 4096 ∧
  p_vaddr ph + seg_mem ph ≤ seg_hi ph ∧ seg_lo ph < seg_hi ph ∧ (4096 | seg_lo ph) ∧ (4096 | seg_hi ph) ∧ 0 < seg_mem ph.
Proof.
  intros [Hv _ _ _] [_ Hm]%andb_true_iff. apply Z.ltb_lt in Hm. unfold seg_lo, seg_hi, is_u64 in *.
  split_and!; try (apply Z.divide_factor_r); try lia; Z.to_euclidean_division_equations; lia.
Qed.

Lemma seg_end image ph : phdr_wf ph → loadable ph = true → seg_hi ph ≤ VMM_USER_TOP → v_end (seg_vma image ph) = seg_hi ph.
Proof.
  intros Hw Hl Htop. destruct (seg_pages ph Hw Hl) as (H1 & H2 & H3 & H4 & _ & _ & H5). cbn. unfold VMM_USER_TOP in *.
  assert (p_vaddr ph + seg_mem ph + 4095 < 18446744073709551616) by (unfold seg_hi in *; Z.to_euclidean_division_equations; lia).
  rewrite u64_small by (unfold is_u64; lia). rewrite land_not_page by (unfold is_u64; lia). done.
Qed.

Lemma seg_flags_cases ph : seg_flags ph = (if exec ph then 4 else 9223372036854775814).
Proof. unfold seg_flags. by destruct (exec ph). Qed.

Lemma seg_backing image ph a : phdr_wf ph → image ≠ 0 → vma_backing (seg_vma image ph) a = seg_byte image ph a.
Proof.
  intros [Hv _ _ _] Hi. unfold vma_backing, seg_byte, seg_vma. cbn. rewrite (proj2 (Z.eqb_neq image 0)) by done. cbn [negb].
  replace ((p_vaddr ph - seg_lo ph <=? a - seg_lo ph) && (a - seg_lo ph <? p_vaddr ph - seg_lo ph + p_filesz ph))
    with ((p_vaddr ph <=? a) && (a <? p_vaddr ph + p_filesz ph)) by lia.
  destruct (_ && _); [|done]. f_equal. lia.
Qed.

Section layout.
Context (m : mem) (image size : Z).
Abbreviation phs := (phdrs m image).
Hypothesis (Himg : image ≠ 0) (Hsize : size < 2 ^ 61) (Hlay : layout_ok size VMM_USER_TOP phs = true).

Lemma phdrs_wf ph : ph ∈ phs → phdr_wf ph.
Proof. intros (i & -> & _)%list_elem_of_fmap_1. apply rd_phdr_wf. Qed.

Lemma layout_seg ph : ph ∈ phs → loadable ph = true → p_offset ph + p_filesz ph ≤ size ∧ seg_hi ph ≤ VMM_USER_TOP.
Proof.
  intros Hin Hl. unfold layout_ok in Hlay. apply andb_true_iff in Hlay as [H _]. rewrite forallb_forall in H.
  specialize (H ph (proj1 (list_elem_of_In _ _) Hin)). rewrite Hl in H. cbn in H. zbool. lia.
Qed.

Lemma seg_of i : 0 ≤ i < zlen (regions image phs) → ∃ ph, ph ∈ phs ∧ loadable ph = true ∧
  ph = (filter (λ ph, loadable ph = true) phs).[i] ∧ (regions image phs).[i] = seg_vma image ph.
Proof.
  intros Hi. rewrite length_fmap in Hi. rewrite aget_fmap by done. set (l := filter _ phs) in *.
  assert (Hin : l.[i] ∈ l) by (apply list_elem_of_lookup; exists (Z.to_nat i); apply list_lookup_lookup_total_lt; lia).
  pose proof Hin as Hf. apply list_elem_of_filter in Hf as [Hl Hp]. by exists l.[i].
Qed.

Lemma regions_wf : zlen (regions image phs) ≤ VMA_MAX → vset_wf (regions image phs).
Proof.
  intros Hlen. constructor; [done|..].
  - intros i Hi _. destruct (seg_of i Hi) as (ph & Hin & Hl & _ & ->). pose proof (phdrs_wf ph Hin) as Hw.
    destruct (seg_pages ph Hw Hl) as (H1 & H2 & H3 & H4 & H5 & H6 & H7), (layout_seg ph Hin Hl) as [H8 H9].
    destruct Hw as [? ? ? ?]. unfold is_u64, VMM_USER_TOP in *. pose proof (seg_end image ph (phdrs_wf ph Hin) Hl H9) as He.
    constructor; rewrite ?He; cbn [seg_vma v_start file_off file_pad file_len file_voff phys_base]; unfold VMM_USER_TOP; split_and!; (done || lia).
  - intros i j Hi Hj Hij _ _. destruct (seg_of i Hi) as (p & Hp & Hlp & Ep & ->), (seg_of j Hj) as (q & Hq & Hlq & Eq & ->).
    unfold disjoint. rewrite !seg_end by (try apply phdrs_wf; try apply layout_seg; done). cbn.
    unfold layout_ok in Hlay. apply andb_true_iff in Hlay as [_ H]. rewrite length_fmap in Hi, Hj.
    pose proof (all_apart_spec _ H i j Hi Hj Hij) as Ha. rewrite <- Ep, <- Eq in Ha. unfold apart in Ha. lia.
Qed.

Lemma regions_find : vset_wf (regions image phs) →
  (∀ ph a, ph ∈ phs → loadable ph = true → seg_lo ph ≤ a < seg_hi ph → vma_find (regions image phs) a = Some (seg_vma image ph)) ∧
  (∀ a, (∀ ph, ph ∈ phs → loadable ph = true → ¬ (seg_lo ph ≤ a < seg_hi ph)) → vma_find (regions image phs) a = None).
Proof.
  intros Hwf. split.
  - intros ph a Hin Hl Ha. assert (Hf : seg_vma image ph ∈ regions image phs) by (apply list_elem_of_fmap_2, list_elem_of_filter; done).
    apply list_elem_of_lookup in Hf as [k Hk]. pose proof (lookup_lt_Some _ _ _ Hk) as Hlt.
    assert (Ek : (regions image phs).[Z.of_nat k] = seg_vma image ph) by (unfold aget; rewrite Nat2Z.id; by apply list_lookup_total_correct).
    rewrite <- Ek. apply (vma_find_at _ (Z.of_nat k) a Hwf); [lia|by rewrite Ek|]. rewrite Ek, seg_end by (try apply phdrs_wf; try apply layout_seg; done). done.
  - intros a Hno. destruct (vma_find _ a) as [v|] eqn:E; [|done]. apply vma_find_Some in E as (i & Hi & _ & <- & _ & Ha).
    destruct (seg_of i Hi) as (ph & Hin & Hl & _ & Er). rewrite Er, seg_end in Ha by (try apply phdrs_wf; try apply layout_seg; done). by destruct (Hno ph Hin Hl).
Qed.
End layout.

(** ** Properties *)


(** Whatever the image and whatever the loader answers, no region it
    registers is both writable and executable, every region is a user region of
    the image, executable ones start in the code area and writable ones in the
    data area. *)
Theorem elf_lazy_wx m image size rc entry s fp : elf_load_image_lazy m image size [] = (rc, entry, s, fp) →
  ∀ v, v ∈ s → wx (v_flags v) = false ∧ flag (v_flags v) VMM_FLAG_USER = true ∧ v_type v = VMA_TYPE_FILE ∧ file_base v = image ∧ (4096 | v_start v) ∧
  (flag (v_flags v) VMM_FLAG_NOEXEC = false → USER_CODE_BASE ≤ v_start v < USER_DATA_BASE) ∧
  (flag (v_flags v) VMM_FLAG_RW = true → USER_DATA_BASE ≤ v_start v < USER_STACK_TOP).
Proof.
  destruct (ehdr_ok m image size) eqn:Eh.
  2: { destruct (lazy_bad m image size [] Eh) as (rc' & _ & ->). intros [= <- <- <- <-] v Hv. by apply not_elem_of_nil in Hv. }
  destruct (lazy_spec m image size Eh) as (rc' & k & -> & Hg & _). intros [= <- <- <- <-] v (ph & -> & [Hl Hin]%list_elem_of_filter)%list_elem_of_fmap_1.
  specialize (Hg ph Hin Hl). pose proof (phdrs_wf m image ph (subseteq_take k (phdrs m image) ph Hin)) as Hw.
  destruct (seg_pages ph Hw Hl) as (H1 & H2 & _ & _ & H3 & _). unfold seg_good in Hg. apply andb_true_iff in Hg as [[Hg Hr]%andb_true_iff _].
  cbn [seg_vma v_flags v_type file_base v_start]. rewrite seg_flags_cases. destruct (exec ph); split_and!; try done; intros _;
    unfold seg_lo, USER_CODE_BASE, USER_DATA_BASE, USER_STACK_TOP in *; zbool; Z.to_euclidean_division_equations; lia.
Qed.

Lemma elf_lazy_spec m image size entry s fp :
  size < 2 ^ 61 → layout_ok size VMM_USER_TOP (phdrs m image) = true →
  elf_load_image_lazy m image size [] = (ELF_OK, entry, s, fp) →
  s = regions image (phdrs m image) ∧ vset_wf s ∧ image ≠ 0 ∧ entry = Some (e_entry (rd_ehdr m image)) ∧
  fp = Some (u64 (total_size (phdrs m image))) ∧ (∀ ph, ph ∈ phdrs m image → loadable ph = true → seg_good size ph = true).
Proof.
  intros Hsz Hlay E. destruct (ehdr_ok m image size) eqn:Eh.
  2: { destruct (lazy_bad m image size [] Eh) as (rc' & Hne & E'). rewrite E' in E. injection E as -> _ _ _. done. }
  destruct (lazy_spec m image size Eh) as (rc & k & E' & Hg & Hrc & Hk). rewrite E' in E. injection E as Er <- <- <-.
  specialize (Hk Er). rewrite take_ge in * by lia. rewrite Er, Z.eqb_refl. destruct Hrc as [Hrc _]. destruct (Hrc Er) as [_ Hlen].
  split_and!; try done; [by apply (regions_wf m image size)|]. unfold ehdr_ok in Eh. zbool. done.
Qed.


(** ** An image *)

(** Little-endian fields. *)
Fixpoint le (n : nat) (x : Z) : list Z := match n with O => [] | S n => x mod 256 :: le n (x / 256) end.
Definition mem_of (base : Z) (l : list Z) : mem := λ a, if (base <=? a) && (a <? base + zlen l) then l.[a - base] else 0.

Definition ehdr_bytes (entry phoff phnum : Z) : list Z :=
  [0x7F; 0x45; 0x4C; 0x46] ++ replicate 20 0 ++ le 8 entry ++ le 8 phoff ++ replicate 14 0 ++ le 2 56 ++ le 2 phnum ++ replicate 6 0.
Definition phdr_bytes (ph : Elf64_Phdr) : list Z :=
  le 4 (p_type ph) ++ le 4 (p_flags ph) ++ le 8 (p_offset ph) ++ le 8 (p_vaddr ph) ++ replicate 8 0 ++ le 8 (p_filesz ph) ++ le 8 (p_memsz ph) ++ le 8 (p_align ph).

(** A program with a code page and a data page whose last byte is not in the
    file. *)
Definition demo_code : Elf64_Phdr := mk_phdr PT_LOAD 5 176 USER_CODE_BASE 4 4 0x1000.
Definition demo_data : Elf64_Phdr := mk_phdr PT_LOAD 6 180 (USER_DATA_BASE + 16) 2 3 0.
Definition demo_elf : list Z := ehdr_bytes USER_CODE_BASE 64 2 ++ phdr_bytes demo_code ++ phdr_bytes demo_data ++ [0x90; 0x90; 0x90; 0xC3; 7; 8].
Definition demo_base : Z := 0x1000000.

Lemma elf_lazy_wx_witness : 
  let r := elf_load_image_lazy (mem_of demo_base demo_elf) demo_base (zlen demo_elf) [] in
  zlen r.1.2 = 2 ∧ ∀ v, v ∈ r.1.2 → wx (v_flags v) = false.
Proof.
  cbv zeta. split; [vm_compute; reflexivity|]. intros v Hv.
  eapply (elf_lazy_wx (mem_of demo_base demo_elf) demo_base (zlen demo_elf)); [|exact Hv]. rewrite <- !surjective_pairing. reflexivity.
Defined.


(** Only the first byte of a segment is held against the area of its kind: a
    data segment may extend over the whole address space. *)
Definition demo_huge : list Z :=
  ehdr_bytes USER_CODE_BASE 64 1 ++ phdr_bytes (mk_phdr PT_LOAD 6 0 USER_DATA_BASE 0 0xFFFF900000000000 0).
Lemma elf_lazy_end_unchecked :
  let r := elf_load_image_lazy (mem_of demo_base demo_huge) demo_base (zlen demo_huge) [] in
  r.1.1.1 = ELF_OK ∧ VMM_USER_TOP < v_end (r.1.2).[0].
Proof. vm_compute. split; reflexivity. Qed.
