(* ===== verification/ElfSign.v ===== *)
(** * Notes and signatures of ELF images

    The loops over notes stop within the fuel the model gives them and do not
    leave the segment; [elf_signature_verify] decides the signature the
    reference verification of [EdVerify] and the hash of [Sha256] define. *)

From S2P Require Import Prelude ShaMd Vma Frames Vmm Elf ElfLoad EdVerify.
From S2P Require Sha256 Sha512 Ed25519.

(** ** The note loop *)

Lemma pad4_range x : 0 ≤ pad4 x < 4294967296.
Proof.
  unfold pad4. pose proof (u32_range (x + 3)) as H. change (not32 3) with 4294967292. unfold is_u32 in H.
  pose proof (land_le_r (u32 (x + 3)) 4294967292 ltac:(lia) ltac:(lia)). lia.
Qed.

(** Bytes left between [note] and the end of the segment. *)
Definition left (note end_ : Z) : Z := u64 (end_ - note).

(** A step takes at least the header of a note. *)
Lemma note_step m note end_ : is_u64 note → 0 ≤ end_ < 2 ^ 63 → u64 (note + 12) <= end_ →
  let desc := u64 (note + 12 + pad4 (rd32 m note)) in
  let next := u64 (desc + pad4 (rd32 m (note + 4))) in
  next ≤ end_ → left next end_ ≤ left note end_ - 12 ∧ is_u64 next.
Proof.
  intros Hn He H12 desc next Hle. pose proof (pad4_range (rd32 m note)). pose proof (pad4_range (rd32 m (note + 4))).
  split; [|apply u64_range]. unfold next, desc, left in *. clear next desc. set (a := pad4 _) in *. set (b := pad4 _) in *. clearbody a b.
  uint_lia.
Qed.

Lemma find_note_fuel m P note end_ : is_u64 note → 0 ≤ end_ < 2 ^ 63 → ∀ n, left note end_ / 12 < Z.of_nat n →
  ∀ n', left note end_ / 12 < Z.of_nat n' → find_note m P n note end_ = find_note m P n' note end_.
Proof.
  intros Hn He n. revert note Hn. induction n as [|n IH]; intros note Hn Hf [|n'] Hf'; try (unfold left in *; pose proof (u64_range (end_ - note)); unfold is_u64 in *; Z.to_euclidean_division_equations; lia).
  cbn [find_note]. destruct (Z.leb_spec (u64 (note + 12)) end_) as [H12|]; [|done].
  destruct (Z.ltb_spec end_ (u64 (u64 (note + 12 + pad4 (rd32 m note)) + pad4 (rd32 m (note + 4))))) as [|Hle]; [done|].
  destruct (P _ _ _ _); [done|]. destruct (note_step m note end_ Hn He H12 Hle) as [Hs Hx]. apply IH; [done|..]; Z.to_euclidean_division_equations; lia.
Qed.

(** ** What the loops find *)

(** A note accepted by [P] in [lo, hi), and its description. *)
Record note_in (m : mem) (P : Z → Z → Z → Z → bool) (lo hi n desc descsz : Z) : Prop := {
  ni_accept : P (rd32 m (n + 8)) (rd32 m n) (rd32 m (n + 4)) (n + 12) = true;
  ni_desc : desc = n + 12 + pad4 (rd32 m n);
  ni_descsz : descsz = rd32 m (n + 4);
  ni_range : lo ≤ n ∧ desc + pad4 descsz ≤ hi
}.

Lemma find_note_found m P fuel : ∀ note end_ desc descsz, 0 ≤ note ≤ end_ → end_ < 2 ^ 62 →
  find_note m P fuel note end_ = Some (desc, descsz) → ∃ n, note_in m P note end_ n desc descsz.
Proof.
  induction fuel as [|fuel IH]; intros note end_ desc descsz Hn He; cbn [find_note]; [done|].
  pose proof (pad4_range (rd32 m note)) as Ha. pose proof (pad4_range (rd32 m (note + 4))) as Hb.
  rewrite !(u64_small (note + 12)), (u64_small (note + 12 + _)), (u64_small (note + 12 + _ + _)) by (unfold is_u64; lia).
  destruct (Z.leb_spec (note + 12) end_) as [H12|]; [|done]. destruct (Z.ltb_spec end_ (note + 12 + pad4 (rd32 m note) + pad4 (rd32 m (note + 4)))) as [|Hle]; [done|].
  destruct (P _ _ _ _) eqn:Ep.
  - intros [= <- <-]. exists note. constructor; (done || lia).
  - intros E. apply IH in E as [n [H1 H2 H3 H4]]; [|lia..]. exists n. constructor; (done || lia).
Qed.

(** No note segment wraps around the end of the address space. *)
Definition notes_sane (m : mem) (base : Z) : bool :=
  forallb (λ ph, negb (p_type ph =? PT_NOTE) || (p_offset ph + p_filesz ph <? 18446744073709551616)) (phdrs m base).

Lemma find_notes_found null m P base size phoff n : 0 ≤ base → 0 ≤ size → base + size < 2 ^ 62 → ∀ i desc descsz,
  (∀ j, i ≤ j < i + Z.of_nat n → let ph := rd_phdr m (phdr_ptr base phoff j) in p_type ph = PT_NOTE → p_offset ph + p_filesz ph < 18446744073709551616) →
  find_notes null m P base size phoff n i = NoteFound desc descsz → ∃ k, note_in m P base (base + size) k desc descsz.
Proof.
  intros Hb Hs Hbs. induction n as [|n IH]; intros i desc descsz Hsane; cbn [find_notes]; [done|].
  destruct (past_end _ _ _); [done|]. pose proof (Hsane i ltac:(lia)) as Hi. set (ph := rd_phdr m (phdr_ptr base phoff i)) in *. cbv zeta in Hi.
  assert (Hrec : find_notes null m P base size phoff n (i + 1) = NoteFound desc descsz → ∃ k, note_in m P base (base + size) k desc descsz).
  { apply IH. intros j Hj. apply Hsane. lia. }
  destruct (Z.eqb_spec (p_type ph) PT_NOTE) as [Ht|]; cbn [negb]; [|done]. specialize (Hi Ht). destruct (rd_phdr_wf m (phdr_ptr base phoff i)) as [_ Ho Hf _]. fold ph in Ho, Hf.
  unfold is_u64 in Ho, Hf. rewrite u64_small by (unfold is_u64; lia). destruct (Z.ltb_spec size (p_offset ph + p_filesz ph)); [done|].
  rewrite !(u64_small (base + p_offset ph)), (u64_small (base + p_offset ph + _)) by (unfold is_u64; lia).
  destruct (find_note _ _ _ _ _) as [[d dz]|] eqn:E; [|done]. destruct (null && _); [done|]. intros [= -> ->].
  apply find_note_found in E as [k [H1 H2 H3 H4]]; [|lia..]. exists k. constructor; (done || lia).
Qed.

(** The signature note of an image: its position, and the offset of the
    signature in it. *)
Lemma find_qsig_spec m base size : 0 ≤ base → base + size < 2 ^ 62 → notes_sane m base = true →
  let off := find_qsig_sig_offset m base size in
  off = 0 ∨ ∃ n desc descsz, note_in m (is_sig_note m) base (base + size) n desc descsz ∧ off = desc + 8 - base ∧ 20 ≤ off ≤ size + 8.
Proof.
  intros Hb Hbs Hsane. unfold find_qsig_sig_offset. destruct (Z.ltb_spec size SIZEOF_EHDR) as [|Hsz]; [by left|].
  destruct (_ || _); [by left|]. destruct (negb _); [by left|]. unfold SIZEOF_EHDR in Hsz.
  destruct (find_notes false _ _ _ _ _ _ _) as [desc descsz| |] eqn:E; [|by left|by left].
  apply find_notes_found in E as [n Hn]; [|lia..|].
  - right. exists n, desc, descsz. pose proof Hn as [H1 H2 H3 H4]. pose proof (pad4_range (rd32 m n)). pose proof (pad4_range descsz).
    rewrite u64_small by (unfold is_u64; lia). split_and!; (done || lia).
  - cbv zeta. intros j Hj Ht. rewrite Z2Nat.id in Hj by apply phnum_range. unfold notes_sane in Hsane. rewrite forallb_forall in Hsane.
    specialize (Hsane (phdr_at m base j)). unfold phdr_at in Hsane. rewrite Ht, Z.eqb_refl in Hsane. cbn [negb orb] in Hsane.
    apply Z.ltb_lt, Hsane, list_elem_of_In, (list_elem_of_fmap_2 (phdr_at m base)), elem_of_seqZ. lia.
Qed.

(** ** The signature *)

(** An image with its signature at [off] blanked. *)
Definition blanked (img : list Z) (off : Z) : list Z :=
  take (Z.to_nat off) img ++ replicate 64 0 ++ drop (Z.to_nat (off + 64)) img.

Lemma bytes_length m a n : 0 ≤ n → zlen (bytes m a n) = n.
Proof. intros Hn. unfold bytes. rewrite length_fmap, length_seqZ. lia. Qed.

Lemma bytes_get m a n i : 0 ≤ i < n → (bytes m a n).[i] = rd8 m (a + i).
Proof.
  intros Hi. unfold bytes. rewrite aget_fmap by (rewrite length_seqZ; lia). f_equal. f_equal. unfold aget.
  apply list_lookup_total_correct. rewrite lookup_seqZ. lia.
Qed.

Lemma bytes_app m a x y : 0 ≤ x → 0 ≤ y → bytes m a (x + y) = bytes m a x ++ bytes m (a + x) y.
Proof.
  intros Hx Hy. unfold bytes. rewrite seqZ_app, fmap_app by lia. f_equal. replace (seqZ (0 + x) y) with ((Z.add x) <$> seqZ 0 y) by (rewrite fmap_add_seqZ; f_equal; lia). rewrite <- list_fmap_compose.
  apply list_fmap_ext. intros _ i _. cbn. f_equal. lia.
Qed.

Lemma bytes_u8 m a n i : 0 ≤ i < n → 0 ≤ (bytes m a n).[i] < 256.
Proof. intros Hi. rewrite bytes_get by done. apply rd8_range. Qed.

Lemma blanked_bytes m base size off : 0 ≤ off → off + 64 ≤ size →
  bytes m base off ++ replicate 64 0 ++ bytes m (base + off + 64) (size - off - 64) = blanked (bytes m base size) off ∧
  bytes m (base + off) 64 = take 64 (drop (Z.to_nat off) (bytes m base size)).
Proof.
  intros H0 H1. pose proof (bytes_length m base off H0) as L1. pose proof (bytes_length m (base + off) 64 ltac:(lia)) as L2.
  assert (E : bytes m base size = bytes m base off ++ bytes m (base + off) 64 ++ bytes m (base + off + 64) (size - off - 64)).
  { rewrite <- bytes_app, <- bytes_app by lia. f_equal. lia. }
  unfold blanked. rewrite E. split.
  - rewrite take_app_length' by lia. do 2 f_equal. rewrite app_assoc, drop_app_length'; [done|]. rewrite length_app. lia.
  - by rewrite drop_app_length', take_app_length' by lia.
Qed.

(** The keys revoked so far. *)
Lemma revoked_elem l k : elf_sign_key_revoked l k = true ↔ k ∈ l.
Proof.
  unfold elf_sign_key_revoked. rewrite existsb_exists. split.
  - intros (x & Hx & ->%Z.eqb_eq). by apply list_elem_of_In.
  - intros Hk. exists k. split; [by apply list_elem_of_In|apply Z.eqb_refl].
Qed.

(** A signature the kernel accepts: of the image without it, by the trusted key. *)
Definition signed_at (m : mem) (base size off : Z) : bool :=
  let img := bytes m base size in
  ref_verify (Sha256.fips_sha256 (blanked img off)) (take 64 (drop (Z.to_nat off) img)) secos_trusted_pubkey.

Lemma fips_sha256_length l : length (Sha256.fips_sha256 l) = 32%nat.
Proof.
  unfold Sha256.fips_sha256. set (st := md_hash _ _ _ _).
  assert (Hl : length st = 8%nat); [|by rewrite words_bytes_length, Hl].
  unfold st, md_hash. generalize (blocks_of Sha256.SHA256_BLOCK_SIZE (Z.to_nat (zlen (md_pad Sha256.SHA256_BLOCK_SIZE 8 l) / Sha256.SHA256_BLOCK_SIZE)) (md_pad Sha256.SHA256_BLOCK_SIZE 8 l)).
  intros bs. assert (H : ∀ iv, length iv = 8%nat → length (foldl Sha256.sha256_block iv bs) = 8%nat); [|apply H; reflexivity].
  induction bs as [|b bs IH]; intros iv Hiv; cbn [foldl]; [done|]. apply IH. unfold Sha256.sha256_block. cbv zeta. by destruct (zfor 64 0 _ _).
Qed.

#[local] Opaque Sha256.sha256_init Sha256.sha256_update Sha256.sha256_final Ed25519.ed25519_verify ref_verify Sha256.fips_sha256.

Lemma verify_signed c2 c5 m base size off : zlen c2 = Sha256.SHA256_BLOCK_SIZE → zlen c5 = Sha512.SHA512_BLOCK_SIZE → 0 ≤ off → off + 64 ≤ size →
  Ed25519.ed25519_verify c5
    (Sha256.sha256_final (Sha256.sha256_update (Sha256.sha256_update (Sha256.sha256_update (Sha256.sha256_init c2) (bytes m base off)) (replicate 64 0)) (bytes m (base + off + 64) (size - off - 64))))
    (bytes m (base + off) 64) secos_trusted_pubkey = b2z (signed_at m base size off).
Proof.
  intros H2 H5 H0 H1. destruct (blanked_bytes m base size off H0 H1) as [E1 E2].
  assert (Eh : Sha256.sha256_final (Sha256.sha256_update (Sha256.sha256_update (Sha256.sha256_update (Sha256.sha256_init c2) (bytes m base off)) (replicate 64 0)) (bytes m (base + off + 64) (size - off - 64)))
    = Sha256.fips_sha256 (blanked (bytes m base size) off)).
  { rewrite <- E1. apply Sha256.sha256_final_spec.
    pose proof (Sha256.sha256_stream_rep [bytes m base off; replicate 64 0; bytes m (base + off + 64) (size - off - 64)] [] _ (Sha256.sha256_init_rep c2 H2)) as H.
    cbn [foldl concat app] in H. rewrite app_nil_r in H. exact H. }
  rewrite Eh. unfold signed_at. rewrite <- E2. apply ed25519_verify_spec; [done|rewrite fips_sha256_length; cbn; lia| |done| |].
  - pose proof (bytes_length m (base + off) 64 ltac:(lia)). lia.
  - intros i Hi. by apply bytes_u8.
  - intros i Hi. assert (E : (0 <=? secos_trusted_pubkey.[i]) && (secos_trusted_pubkey.[i] <? 256) = true); [|lia].
    apply (forall_below 32 (λ i, (0 <=? secos_trusted_pubkey.[i]) && (secos_trusted_pubkey.[i] <? 256))); [vm_compute; reflexivity|lia].
Qed.

Lemma signature_spec c2 c5 revoked m base size :
  zlen c2 = Sha256.SHA256_BLOCK_SIZE → zlen c5 = Sha512.SHA512_BLOCK_SIZE →
  0 < base → base + size < 2 ^ 62 → notes_sane m base = true →
  let off := find_qsig_sig_offset m base size in
  elf_signature_verify c2 c5 revoked m base size =
    if size <? SIZEOF_EHDR then ELF_SIG_FMT
    else if off =? 0 then ELF_SIG_NOSIG
    else if size <? off + 64 then ELF_SIG_FMT
    else if bool_decide (rd32 m (base + off - 4) ∈ revoked) then ELF_SIG_BAD
    else if signed_at m base size off then ELF_SIG_OK else ELF_SIG_BAD.
Proof.
  intros H2 H5 Hb Hbs Hsane off. unfold elf_signature_verify. rewrite (proj2 (Z.eqb_neq base 0)) by lia. cbn [orb].
  destruct (Z.ltb_spec size SIZEOF_EHDR) as [|Hsz]; [done|]. unfold SIZEOF_EHDR in Hsz. fold off.
  destruct (Z.eqb_spec off 0) as [|Hne]; [done|].
  destruct (find_qsig_spec m base size ltac:(lia) Hbs Hsane) as [H0|(n & desc & descsz & _ & _ & Hoff)]; [done|]. fold off in Hoff.
  rewrite (u64_small (off + 64)) by (unfold is_u64; lia). destruct (Z.ltb_spec size (off + 64)) as [|Hin]; [done|].
  rewrite (proj2 (Z.leb_le 4 off)) by lia. cbn [andb]. set (key := rd32 m (base + off - 4)).
  replace (elf_sign_key_revoked revoked key) with (bool_decide (key ∈ revoked)) by (apply eq_true_iff_eq; rewrite bool_decide_eq_true; symmetry; apply revoked_elem).
  destruct (bool_decide _); [done|]. rewrite (u64_small (size - off - 64)) by (unfold is_u64; lia).
  cbv zeta. rewrite (verify_signed c2 c5 m base size off H2 H5) by lia. by destruct (signed_at m base size off).
Qed.

(** A proper signature: a signature note whose 64 bytes lie inside the image,
    whose key is not revoked, and which is a signature, by the trusted key, of
    the SHA-256 hash of the whole image with just these 64 bytes blanked. *)
Record properly_signed (revoked : list Z) (m : mem) (base size off : Z) : Prop := {
  ps_size : SIZEOF_EHDR ≤ size;
  ps_off : find_qsig_sig_offset m base size = off ∧ 20 ≤ off ≤ size - 64;
  ps_note : ∃ n desc descsz, note_in m (is_sig_note m) base (base + size) n desc descsz ∧ desc + 8 = base + off;
  ps_key : rd32 m (base + off - 4) ∉ revoked;
  ps_sig : ref_verify (Sha256.fips_sha256 (blanked (bytes m base size) off)) (take 64 (drop (Z.to_nat off) (bytes m base size))) secos_trusted_pubkey = true
}.

Lemma signature_ok_iff c2 c5 revoked m base size :
  zlen c2 = Sha256.SHA256_BLOCK_SIZE → zlen c5 = Sha512.SHA512_BLOCK_SIZE →
  0 < base → base + size < 2 ^ 62 → notes_sane m base = true →
  elf_signature_verify c2 c5 revoked m base size = ELF_SIG_OK ↔ ∃ off, properly_signed revoked m base size off.
Proof.
  intros H2 H5 Hb Hbs Hsane. rewrite (signature_spec c2 c5 revoked m base size H2 H5 Hb Hbs Hsane). set (off := find_qsig_sig_offset m base size).
  pose proof (find_qsig_spec m base size ltac:(lia) Hbs Hsane) as Hoff. cbv zeta in Hoff. fold off in Hoff.
  assert (Hno : ∀ P : Prop, ¬ P → (∀ o, properly_signed revoked m base size o → P) → ∀ rc, rc ≠ ELF_SIG_OK →
    rc = ELF_SIG_OK ↔ ∃ off, properly_signed revoked m base size off) by (intros P HP Hall rc Hrc; split; [done|]; intros [o Ho]; destruct HP; by apply (Hall o)).
  destruct (Z.ltb_spec size SIZEOF_EHDR) as [Hsz|Hsz]; [apply (Hno (SIZEOF_EHDR ≤ size)); [lia|by intros o []|done]|].
  destruct (Z.eqb_spec off 0) as [H0|Hne]; [apply (Hno (off ≠ 0)); [tauto|intros o [_ [Eo ?] _ _ _]; fold off in Eo; lia|done]|].
  destruct Hoff as [|(n & desc & descsz & Hn & Ho & Hr)]; [done|].
  destruct (Z.ltb_spec size (off + 64)) as [|Hin]; [apply (Hno (off ≤ size - 64)); [lia|intros o [_ [Eo ?] _ _ _]; fold off in Eo; lia|done]|].
  case_bool_decide as Hk; [apply (Hno (rd32 m (base + off - 4) ∉ revoked)); [auto|by intros o [_ [<- _] _ ? _]|done]|].
  unfold signed_at. cbv zeta. split.
  - intros Hs. exists off. constructor; [done|split; [done|lia]| |done|by destruct (ref_verify _ _ _)].
    exists n, desc, descsz. split; [done|lia].
  - intros (o & [_ [Eo _] _ _ Hs]). fold off in Eo. rewrite Eo, Hs. done.
Qed.

(** ** Properties *)


(** The loops over the notes of a segment stop: within a segment the code
    accepts, whatever its bytes - crafted sizes included - one more note than
    fit is never read, so that the model's fuel is always enough. *)
Theorem note_loop_terminates m P base size ph n :
  0 ≤ base → base + size < 2 ^ 63 → phdr_wf ph → u64 (p_offset ph + p_filesz ph) ≤ size → p_filesz ph / 12 < Z.of_nat n →
  let note := u64 (base + p_offset ph) in
  let end_ := u64 (note + p_filesz ph) in
  find_note m P n note end_ = find_note m P (Z.to_nat (p_filesz ph / 12 + 1)) note end_.
Proof.
  intros Hb Hbs [_ Ho Hf _] Hle Hn note end_. pose proof (u64_range (p_offset ph + p_filesz ph)) as Hr.
  assert (Ee : end_ = base + u64 (p_offset ph + p_filesz ph)) by (unfold end_, note; uint_lia).
  assert (El : left note end_ = p_filesz ph) by (unfold left, end_, note; uint_lia).
  apply find_note_fuel; [apply u64_range|unfold is_u64 in Hr; lia|by rewrite El|]. rewrite El, Z2Nat.id; [lia|]. unfold is_u64 in Hf. Z.to_euclidean_division_equations; lia.
Qed.

(** ** Images with notes *)

Definition note_bytes (namesz descsz type : Z) (rest : list Z) : list Z := le 4 namesz ++ le 4 descsz ++ le 4 type ++ rest.
Definition secos : list Z := [0x53; 0x45; 0x43; 0x4F; 0x53; 0; 0; 0].

(** A note segment with a signature by key 7, after an unrelated note. *)
Definition demo_note : Elf64_Phdr := mk_phdr PT_NOTE 4 120 0 112 112 4.
Definition demo_signed : list Z := ehdr_bytes USER_CODE_BASE 64 1 ++ phdr_bytes demo_note ++
  note_bytes 4 4 1 [0x47; 0x4E; 0x55; 0; 9; 9; 9; 9] ++ note_bytes 6 72 SECOS_SIG_NOTE_TYPE (secos ++ le 4 1 ++ le 4 7 ++ replicate 64 0xAA).


Lemma note_loop_terminates_witness :
  let m := mem_of demo_base demo_signed in
  find_note m (is_sig_note m) 50 (demo_base + 120) (demo_base + 232) = Some (demo_base + 160, 72) ∧
  find_note m (is_sig_note m) 10 (demo_base + 120) (demo_base + 232) = Some (demo_base + 160, 72).
Proof.
  cbv zeta. set (m := mem_of demo_base demo_signed).
  pose proof (note_loop_terminates m (is_sig_note m) demo_base (zlen demo_signed) demo_note 50) as H. cbv zeta in H.
  change (u64 (u64 (demo_base + p_offset demo_note) + p_filesz demo_note)) with (demo_base + 232) in H. change (u64 (demo_base + p_offset demo_note)) with (demo_base + 120) in H.
  change (Z.to_nat (p_filesz demo_note / 12 + 1)) with 10%nat in H.
  assert (E : find_note m (is_sig_note m) 10 (demo_base + 120) (demo_base + 232) = Some (demo_base + 160, 72)) by (vm_compute; reflexivity).
  rewrite E in H. split; [|exact E]. apply H.
  - unfold demo_base. lia.
  - unfold demo_base. change (zlen demo_signed) with 232. lia.
  - constructor; cbn; unfold is_u64; lia.
  - change (zlen demo_signed) with 232. change (u64 (p_offset demo_note + p_filesz demo_note)) with 232. lia.
  - change (p_filesz demo_note / 12) with 9. lia.
Defined.

(** A note whose description size wraps to 0 when it is padded passes the
    bound on the next note: the manifest is then read from beyond the image. *)
Definition demo_past : list Z := ehdr_bytes USER_CODE_BASE 64 1 ++ phdr_bytes (mk_phdr PT_NOTE 4 120 0 20 20 4) ++
  note_bytes 6 0xFFFFFFFF SECOS_NOTE_TYPE secos.
Lemma manifest_reads_past_end :
  let inside := mem_of demo_base demo_past in
  let beyond := mem_of demo_base (demo_past ++ [2]) in
  (∀ a, demo_base ≤ a < demo_base + zlen demo_past → beyond a = inside a) ∧
  elf_manifest_parse beyond demo_base (zlen demo_past) ≠ elf_manifest_parse inside demo_base (zlen demo_past).
Proof.
  cbv zeta. split.
  - intros a Ha. unfold mem_of. rewrite length_app. cbn [length]. rewrite !(proj2 (Z.leb_le demo_base a)) by lia. rewrite !(proj2 (Z.ltb_lt _ _)) by lia.
    cbn [andb]. apply aget_app_l. lia.
  - vm_compute. discriminate.
Qed.

(** A note segment whose offset wraps lies before the image: the offset of its
    signature wraps too and passes the test against the image's size. *)
Definition demo_before : list Z :=
  note_bytes 6 72 SECOS_SIG_NOTE_TYPE (secos ++ replicate 64 0) ++
  ehdr_bytes USER_CODE_BASE 64 1 ++ phdr_bytes (mk_phdr PT_NOTE 4 (2 ^ 64 - 84) 0 120 120 4).
Lemma qsig_offset_underflow :
  let m := mem_of (demo_base - 84) demo_before in
  let off := find_qsig_sig_offset m demo_base 120 in
  120 < off ∧ u64 (off + 64) ≤ 120.
Proof. vm_compute. split; [reflexivity|discriminate]. Qed.
