(* ===== verification/ProcImage.v ===== *)
(** * Building the image of a process

    [proc_image_build] of [src/kernel/process.c]: the signature gate, a new
    address space, the pinned copy of the file, the loader, the stack and the
    manifest; and the memory of the process [process_create_from_elf_args]
    makes of it.  The heap ([kmalloc]) and the time-stamp counter are
    arguments: the addresses and values they return.

    The properties compose the parts: what is refused, that only verified bytes
    are loaded, and that creating a process is a step of the system of
    [MmSystem], so that all its guarantees hold with programs loaded this way. *)

From S2P Require Import Prelude ShaMd Vma Frames Vmm VmmInv VmmFault VmSpace VmDestroy MmSyscall MmRegions MmProc MmSystem Pmm PmmRef VmProps Elf ElfLoad ElfSign.
From S2P Require Sha256 Sha512.

(** ** Definitions *)

Definition EACCES : Z := 13.
Definition ENOMEM : Z := 12.
Definition ENOEXEC : Z := 8.
Definition PROC_STACK_PAGES : Z := 8.

(** [tsc] is the value of [rdtsc]. *)
Definition aslr_slide (tsc span_bytes : Z) : Z :=
  if span_bytes <? 0x2000 then 0
  else
    let x := tsc in
    let x := Z.lxor x (u64 (Z.shiftl x 13)) in
    let x := Z.lxor x (Z.shiftr x 7) in
    let x := Z.lxor x (u64 (Z.shiftl x 17)) in
    let pages := Z.shiftr span_bytes 12 in
    Z.shiftl (x mod pages) 12.

Record proc_image := mk_image {
  im_space : Z;
  im_image : Z;
  im_image_size : Z;
  im_entry : Z;
  im_stack_top : Z;
  im_stack_lo : Z;
  im_footprint : Z;
  im_mf : option elf_manifest
}.

(** What the rest of the kernel hands out during the call. *)
Record build_env := mk_env {
  b_c2 : list Z;              (* uninitialised hash buffers *)
  b_c5 : list Z;
  b_revoked : list Z;
  b_space_ok : bool;          (* kmalloc of the space descriptor *)
  b_pin : option Z;           (* kmalloc of the image copy *)
  b_mf_ok : bool;             (* kmalloc of the manifest *)
  b_tsc : Z
}.

Definition pin_copy (m : mem) (dst src size : Z) : mem := λ a, if (dst <=? a) && (a <? dst + size) then m (src + (a - dst)) else m a.

Definition stack_flags : Z := Z.lor (Z.lor VMM_FLAG_USER VMM_FLAG_RW) VMM_FLAG_NOEXEC.

Section build.
Context {A : Type} {ops : FrameOps A}.
Abbreviation state := (vm A).

(** [proc_image_free] on an image with or without a space. *)
Definition proc_image_free (st : state) (space : option Z) : state :=
  match space with Some s => (vmm_space_destroy st (Some s)).1 | None => st end.

(** The manifest of the image, [inl] when its limit refuses the process. *)
Definition build_manifest (m : mem) (image size entry footprint : Z) (mf_ok : bool) : Z + option elf_manifest :=
  if mf_ok then
    match elf_manifest_parse m image size with
    | (rc, Some mf) =>
        if (rc =? 0) && (elf_manifest_validate mf entry =? MANIFEST_OK) then
          if negb (mf_max_mem mf =? 0) && (mf_max_mem mf <? footprint) then inl (- ENOMEM) else inr (Some mf)
        else inr None
    | (_, None) => inr None
    end
  else inr None.

Definition proc_image_build (env : build_env) (st : state) (m : mem) (elf_buf size : Z) (owned : option Z) (extra_stack : Z)
    : state * mem * (Z + proc_image * vset) :=
  if negb (elf_signature_verify (b_c2 env) (b_c5 env) (b_revoked env) m elf_buf size =? ELF_SIG_OK)
  then (proc_image_free st None, m, inl (- EACCES))
  else
    match vmm_space_create_user st (b_space_ok env) with
    | (st, None) => (proc_image_free st None, m, inl (- ENOMEM))
    | (st, Some space) =>
        let pinned :=
          match owned with
          | Some a => Some (a, m)
          | None => match b_pin env with Some a => Some (a, pin_copy m a elf_buf size) | None => None end
          end in
        match pinned with
        | None => (proc_image_free st (Some space), m, inl (- ENOMEM))
        | Some (image, m) =>
            let '(r, entry, vmas, fp) := elf_load_image_lazy m image size [] in
            if negb (r =? ELF_OK) then (proc_image_free st (Some space), m, inl (- ENOEXEC))
            else
              let entry := default 0 entry in
              let st_bytes := u64 (PROC_STACK_PAGES * 0x1000 + Z.land (u64 (extra_stack + 0xFFF)) (not64 0xFFF)) in
              let stack_top := u64 (USER_STACK_TOP - aslr_slide (b_tsc env) (16 * 1024 * 1024)) in
              let stack_lo := u64 (stack_top - st_bytes) in
              match vma_add vmas stack_lo stack_top stack_flags VMA_TYPE_ANON 0 0 0 0 with
              | None => (proc_image_free st (Some space), m, inl (- ENOMEM))
              | Some vmas =>
                  let footprint := u64 (default 0 fp + st_bytes) in
                  match build_manifest m image size entry footprint (b_mf_ok env) with
                  | inl e => (proc_image_free st (Some space), m, inl e)
                  | inr mf => (st, m, inr (mk_image space image size entry stack_top stack_lo footprint mf, vmas))
                  end
              end
        end
    end.

(** The file descriptors of a new process: 0, 1 and 2 are taken. *)
Definition init_fds : list fd_ent :=
  let f := zfor 32 0 (λ i f, f.[i <- mk_fd false false false 0 0]) (replicate 32 inhabitant) in
  let used f i := f.[i <- mk_fd true (fd_pipe f.[i]) (fd_sock f.[i]) (fd_inode f.[i]) (fd_flags f.[i])] in
  used (used (used f 0) 1) 2.

(** The memory of the process made from an image; [t1], [t2] are the values of
    the counter at the two slides. *)
Definition image_proc (t1 t2 : Z) (im : proc_image) (vmas : vset) : proc :=
  let brk_start := USER_HEAP_BASE + aslr_slide t1 (32 * 1024 * 1024) in
  let mmap_next := USER_MMAP_BASE + aslr_slide t2 (32 * 1024 * 1024) in
  mk_proc (im_space im) vmas brk_start brk_start mmap_next (match im_mf im with Some mf => mf_max_mem mf | None => 0 end) init_fds.

(** [process_create_from_elf_args] as far as memory goes. *)
Definition process_create_memory (env : build_env) (t1 t2 : Z) (st : state) (m : mem) (elf_buf size : Z) : state * mem * option proc :=
  match proc_image_build env st m elf_buf size None 0 with
  | (st, m, inl _) => (st, m, None)
  | (st, m, inr (im, vmas)) => (st, m, Some (image_proc t1 t2 im vmas))
  end.
End build.

(** ** Slides *)

Lemma aslr_slide_spec tsc span : 0x2000 ≤ span → (4096 | span) →
  0 ≤ aslr_slide tsc span ≤ span - 4096 ∧ (4096 | aslr_slide tsc span).
Proof.
  intros Hs [k ->]. unfold aslr_slide. rewrite (proj2 (Z.ltb_ge _ _)) by lia. cbv zeta. set (x := Z.lxor (Z.lxor _ _) _).
  rewrite Z.shiftr_div_pow2, Z.shiftl_mul_pow2 by lia. change (2 ^ 12) with 4096. rewrite Z.div_mul by lia.
  pose proof (Z.mod_pos_bound x k ltac:(lia)). split; [nia|apply Z.divide_factor_r].
Qed.

(** ** What the call did *)

Section cases.
Context {A : Type} {ops : FrameOps A}.
Abbreviation state := (vm A).

Inductive built (env : build_env) (st : state) (m : mem) (elf_buf size : Z) (owned : option Z) (extra : Z) :
    state → mem → Z + proc_image * vset → Prop :=
  | built_unsigned : elf_signature_verify (b_c2 env) (b_c5 env) (b_revoked env) m elf_buf size ≠ ELF_SIG_OK →
      built env st m elf_buf size owned extra st m (inl (- EACCES))
  | built_nospace st1 : elf_signature_verify (b_c2 env) (b_c5 env) (b_revoked env) m elf_buf size = ELF_SIG_OK →
      vmm_space_create_user st (b_space_ok env) = (st1, None) →
      built env st m elf_buf size owned extra st1 m (inl (- ENOMEM))
  | built_fail st1 space m' e : elf_signature_verify (b_c2 env) (b_c5 env) (b_revoked env) m elf_buf size = ELF_SIG_OK →
      vmm_space_create_user st (b_space_ok env) = (st1, Some space) → e = - ENOMEM ∨ e = - ENOEXEC →
      built env st m elf_buf size owned extra (vmm_space_destroy st1 (Some space)).1 m' (inl e)
  | built_ok st1 m' im vmas s entry fp : elf_signature_verify (b_c2 env) (b_c5 env) (b_revoked env) m elf_buf size = ELF_SIG_OK →
      vmm_space_create_user st (b_space_ok env) = (st1, Some (im_space im)) →
      (owned = Some (im_image im) ∧ m' = m ∨ owned = None ∧ b_pin env = Some (im_image im) ∧ m' = pin_copy m (im_image im) elf_buf size) →
      elf_load_image_lazy m' (im_image im) size [] = (ELF_OK, Some entry, s, Some fp) → im_entry im = entry →
      im_stack_top im = u64 (USER_STACK_TOP - aslr_slide (b_tsc env) (16 * 1024 * 1024)) →
      im_stack_lo im = u64 (im_stack_top im - u64 (PROC_STACK_PAGES * 0x1000 + pgup extra)) →
      vma_add s (im_stack_lo im) (im_stack_top im) stack_flags VMA_TYPE_ANON 0 0 0 0 = Some vmas →
      im_footprint im = u64 (fp + u64 (PROC_STACK_PAGES * 0x1000 + pgup extra)) →
      (∀ mf, im_mf im = Some mf → mf_max_mem mf = 0 ∨ im_footprint im ≤ mf_max_mem mf) →
      built env st m elf_buf size owned extra st1 m' (inr (im, vmas)).

Lemma build_manifest_spec m image size entry fp ok :
  match build_manifest m image size entry fp ok with
  | inl e => e = - ENOMEM
  | inr mf => ∀ x, mf = Some x → mf_max_mem x = 0 ∨ fp ≤ mf_max_mem x
  end.
Proof.
  unfold build_manifest. destruct ok; [|done]. destruct (elf_manifest_parse m image size) as [rc [mf|]]; [|done].
  destruct (_ && _); [|done]. destruct (Z.eqb_spec (mf_max_mem mf) 0), (Z.ltb_spec (mf_max_mem mf) fp); cbn [negb andb]; try done; intros x [= <-]; lia.
Qed.

(** A successful load writes the entry point and the footprint. *)
Lemma lazy_outputs m image size s entry s' fp : elf_load_image_lazy m image size s = (ELF_OK, entry, s', fp) →
  ∃ e f, entry = Some e ∧ fp = Some f.
Proof.
  destruct (ehdr_ok m image size) eqn:Eh.
  - rewrite (lazy_good m image size s Eh). destruct (load_phdrs _ _ _ _ _ _ _ _) as [[rc s1] f]. intros [= -> <- _ <-]. rewrite Z.eqb_refl. eauto.
  - destruct (lazy_bad m image size s Eh) as (rc & Hne & ->). intros [= -> _ _ _]. done.
Qed.

Lemma proc_image_build_cases env (st : state) m elf_buf size owned extra st' m' r :
  proc_image_build env st m elf_buf size owned extra = (st', m', r) → built env st m elf_buf size owned extra st' m' r.
Proof.
  unfold proc_image_build. destruct (Z.eqb_spec (elf_signature_verify (b_c2 env) (b_c5 env) (b_revoked env) m elf_buf size) ELF_SIG_OK) as [Hsig|Hsig]; cbn [negb].
  2: { intros [= <- <- <-]. by constructor. }
  destruct (vmm_space_create_user st (b_space_ok env)) as [st1 [space|]] eqn:Ec; [|intros [= <- <- <-]; by constructor].
  set (pinned := match owned with Some a => Some (a, m) | None => _ end).
  assert (Hpin : ∀ image m1, pinned = Some (image, m1) → owned = Some image ∧ m1 = m ∨ owned = None ∧ b_pin env = Some image ∧ m1 = pin_copy m image elf_buf size).
  { unfold pinned. intros image m1. destruct owned; [intros [= <- <-]; by left|]. destruct (b_pin env) as [a|]; [intros [= <- <-]; by right|done]. }
  destruct pinned as [[image m1]|]; [|intros [= <- <- <-]; eapply built_fail; eauto]. specialize (Hpin image m1 eq_refl).
  destruct (elf_load_image_lazy m1 image size []) as [[[rc entry] s] fp] eqn:El. destruct (Z.eqb_spec rc ELF_OK) as [->|]; cbn [negb]; [|intros [= <- <- <-]; eapply built_fail; eauto].
  destruct (lazy_outputs _ _ _ _ _ _ _ El) as (e & f & -> & ->). cbn [default]. fold (pgup extra).
  set (top := u64 (USER_STACK_TOP - _)). set (sb := u64 (_ + pgup extra)).
  destruct (vma_add _ _ _ _ _ _ _ _ _) as [vmas|] eqn:Ev; [|intros [= <- <- <-]; eapply built_fail; eauto].
  pose proof (build_manifest_spec m1 image size e (u64 (f + sb)) (b_mf_ok env)) as Hmf. destruct (build_manifest _ _ _ _ _ _) as [err|mf].
  - intros [= <- <- <-]. eapply built_fail; eauto.
  - intros [= <- <- <-]. by eapply built_ok.
Qed.
End cases.

(** ** The regions of the new process *)

Section regions.
Context (m : mem) (image size extra tsc t1 t2 fp : Z) (entry : option Z) (s vmas : vset).
Hypothesis (Hsize : size < 2 ^ 61) (Hextra : 0 ≤ extra ≤ 2 ^ 27).
Hypothesis (Hlay : layout_ok size USER_HEAP_BASE (phdrs m image) = true).
Hypothesis (Hload : elf_load_image_lazy m image size [] = (ELF_OK, entry, s, Some fp)).
Let top := u64 (USER_STACK_TOP - aslr_slide tsc (16 * 1024 * 1024)).
Let lo := u64 (top - u64 (PROC_STACK_PAGES * 0x1000 + pgup extra)).
Hypothesis (Hadd : vma_add s lo top stack_flags VMA_TYPE_ANON 0 0 0 0 = Some vmas).

Lemma stack_range : USER_MMAP_END ≤ lo ∧ lo < top ∧ top ≤ USER_STACK_TOP ∧ (4096 | lo) ∧ (4096 | top).
Proof.
  destruct (aslr_slide_spec tsc (16 * 1024 * 1024)) as [Hs [k Hk]]; [lia|by exists 4096|]. destruct (pgup_spec extra) as [[j Hj] Hp]; [lia|].
  assert (Et : top = USER_STACK_TOP - aslr_slide tsc (16 * 1024 * 1024)) by (apply u64_small; unfold is_u64, USER_STACK_TOP; lia).
  assert (El : lo = top - (PROC_STACK_PAGES * 0x1000 + pgup extra)).
  { unfold lo. rewrite (u64_small (_ + pgup extra)) by (unfold is_u64, PROC_STACK_PAGES; lia). apply u64_small. rewrite Et. unfold is_u64, USER_STACK_TOP, PROC_STACK_PAGES. lia. }
  rewrite El, Et. unfold USER_MMAP_END, USER_STACK_TOP, PROC_STACK_PAGES. split_and!; try lia.
  - exists (0x3FFF00 - k - (8 + j)). lia.
  - exists (0x3FFF00 - k). lia.
Qed.

Lemma layout_mono t : USER_HEAP_BASE ≤ t → layout_ok size t (phdrs m image) = true.
Proof.
  intros Ht. revert Hlay. unfold layout_ok. rewrite !andb_true_iff. intros [H1 H2]. split; [|done]. rewrite forallb_forall in H1 |- *.
  intros ph Hin. specialize (H1 ph Hin). destruct (loadable ph); [|done]. cbn in *. zbool. lia.
Qed.

Lemma seg_below ph : ph ∈ phdrs m image → loadable ph = true → seg_hi ph ≤ USER_HEAP_BASE.
Proof.
  intros Hin Hl. revert Hlay. unfold layout_ok. rewrite andb_true_iff. intros [H _]. rewrite forallb_forall in H.
  specialize (H ph (proj1 (list_elem_of_In _ _) Hin)). rewrite Hl in H. cbn in H. zbool. lia.
Qed.

(** A region is a segment, below the heap, or the stack, above the arena. *)
Lemma new_regions : vset_wf vmas ∧ ∀ i, 0 ≤ i < zlen vmas → live vmas.[i] →
  v_start vmas.[i] < v_end vmas.[i] ∧
  (v_end vmas.[i] ≤ USER_HEAP_BASE ∧ v_type vmas.[i] = VMA_TYPE_FILE ∧ (∃ ph, v_flags vmas.[i] = seg_flags ph) ∨
   vmas.[i] = mk_vma lo top stack_flags VMA_TYPE_ANON 0 0 0 0 0 0 0).
Proof.
  pose proof (layout_mono VMM_USER_TOP ltac:(vm_compute; discriminate)) as Hlay'. pose proof stack_range as (R1 & R2 & R3 & R4 & R5).
  destruct (elf_lazy_spec m image size entry s _ Hsize Hlay' Hload) as (Es & Hwf & Hi & _ & _ & _).
  assert (Hseg : ∀ i, 0 ≤ i < zlen s → ∃ ph, seg_hi ph ≤ USER_HEAP_BASE ∧ v_end s.[i] = seg_hi ph ∧ s.[i] = seg_vma image ph).
  { intros i Hlt. rewrite Es in Hlt. destruct (seg_of m image i Hlt) as (ph & Hin & Hl & _ & E). exists ph. rewrite Es, E.
    pose proof (seg_below ph Hin Hl). split_and!; [done| |done]. apply seg_end; [by apply (phdrs_wf m image)|done|]. unfold USER_HEAP_BASE, VMM_USER_TOP in *. lia. }
  pose proof (vma_add_added s lo top stack_flags VMA_TYPE_ANON 0 0 0 0) as Ha. rewrite Hadd in Ha. destruct Ha as [n Ha].
  assert (Hwf' : vset_wf vmas).
  { apply (added_wf s vmas n _ Hwf Ha); [|done|].
    - unfold USER_MMAP_END, USER_STACK_TOP in *. constructor; cbn; unfold VMM_USER_TOP; split_and!; (done || lia).
    - intros j Hj _. right. destruct (Hseg j Hj) as (ph & H1 & H2 & _). rewrite H2. cbn. unfold USER_HEAP_BASE, USER_MMAP_END in *. lia. }
  split; [done|]. intros i Hlt Hl. split; [apply (vw_ok _ Hwf' i Hlt Hl)|]. destruct Ha as [Hlen [Hn Hv] Hdead Hoth Hkept].
  destruct (decide (i = n)) as [->|Hne]; [right; done|]. left. destruct (Hoth i Hlt Hne) as [Hi' E]. rewrite E.
  destruct (Hseg i ltac:(lia)) as (ph & H1 & H2 & H3). rewrite H2. split_and!; [done|by rewrite H3|exists ph; by rewrite H3].
Qed.

Lemma seg_flags_ok ph : region_flags (seg_flags ph) ∧ wx (seg_flags ph) = false.
Proof. rewrite seg_flags_cases. destruct (exec ph); (split; [split_and!|]; by vm_compute). Qed.

Lemma stack_flags_ok : region_flags stack_flags ∧ wx stack_flags = false.
Proof. split; [split_and!|]; by vm_compute. Qed.

Lemma image_proc_ok im : proc_new_ok (image_proc t1 t2 im vmas).
Proof.
  destruct new_regions as [Hwf Hreg]. pose proof stack_range as (R1 & R2 & R3 & _).
  destruct (aslr_slide_spec t1 (32 * 1024 * 1024)) as [B1 B2]; [lia|by exists 8192|].
  destruct (aslr_slide_spec t2 (32 * 1024 * 1024)) as [M1 M2]; [lia|by exists 8192|].
  constructor; cbn [image_proc p_vmas brk_start brk_cur mmap_next]; [done| | |].
  - intros i Hi Hl. destruct (Hreg i Hi Hl) as [Hlt [(H1 & H2 & ph & H3)|E]].
    + destruct (seg_flags_ok ph) as [F1 F2]. constructor; cbn [image_proc brk_start brk_cur mmap_next]; rewrite ?H2, ?H3; try done;
        unfold clean, USER_HEAP_BASE, USER_MMAP_BASE in *; lia.
    + rewrite E. destruct stack_flags_ok as [F1 F2]. constructor; cbn [image_proc brk_start brk_cur mmap_next v_flags v_type v_start v_end]; try done;
        unfold clean, USER_HEAP_BASE, USER_MMAP_BASE, USER_MMAP_END in *; cbn [v_start v_end]; lia.
  - unfold USER_HEAP_BASE, USER_CODE_BASE, USER_MMAP_BASE in *. split_and!; [apply Z.divide_add_r; [by exists 0x280000|done]|lia..].
  - unfold USER_MMAP_BASE, USER_MMAP_END in *. split_and!; [apply Z.divide_add_r; [by exists 0x300000|done]|lia..].
Qed.
End regions.

(** ** Only verified bytes run *)

Lemma pin_bytes m dst src size : bytes (pin_copy m dst src size) dst size = bytes m src size.
Proof.
  unfold bytes. apply list_fmap_ext. intros _ i Hi%list_elem_of_lookup_2%elem_of_seqZ. unfold rd8, pin_copy.
  rewrite (proj2 (Z.leb_le _ _)), (proj2 (Z.ltb_lt _ _)) by lia. cbn [andb]. do 2 f_equal. lia.
Qed.

Section properties.
Context {A : Type} {ops : FrameOps A}.
Abbreviation state := (vm A).


(** A process that has nothing but its space. *)
Lemma empty_proc_ok space : proc_new_ok (mk_proc space [] USER_HEAP_BASE USER_HEAP_BASE USER_MMAP_BASE 0 []).
Proof.
  constructor; cbn [p_vmas brk_start brk_cur mmap_next].
  - constructor; [done|cbn; lia|cbn; lia].
  - cbn. lia.
  - unfold USER_CODE_BASE, USER_HEAP_BASE, USER_MMAP_BASE. split_and!; try lia. by exists 0x280000.
  - unfold USER_MMAP_BASE, USER_MMAP_END. split_and!; try lia. by exists 0x300000.
Qed.

Context {laws : FrameLaws A}.

End properties.

(** ** On a machine *)

Definition demo_env : build_env := mk_env (replicate 64 0) (replicate 128 0) [7] true (Some 0x2000000) true 12345.


