(* ===== verification/Cap.v ===== *)
(** * Capabilities

    [src/kernel/cap.c]: capability checks, the ring of audit records, and the
    rule for capabilities across exec; [proc_apply_caps] of
    [src/kernel/process.c], which loads them from the signed manifest.  The C
    flags that are only ever 0 or 1 are booleans here. *)

From S2P Require Import Prelude Vma Frames Vmm Elf.

(** ** Definitions *)

Definition CAP_NET : Z := Z.shiftl 1 4.
Definition CAP_FS_READ : Z := Z.shiftl 1 6.
Definition CAP_FS_WRITE : Z := Z.shiftl 1 7.
Definition CAP_PROC : Z := Z.shiftl 1 8.
Definition CAP_IPC : Z := Z.shiftl 1 9.
Definition CAP_SIGNAL : Z := Z.shiftl 1 10.
Definition CAP_TIME : Z := Z.shiftl 1 11.
Definition CAP_POWER : Z := Z.shiftl 1 12.
Definition CAP_INPUT : Z := Z.shiftl 1 13.
Definition CAP_DISPLAY : Z := Z.shiftl 1 14.
Definition CAP_AUDIT_SETID : Z := Z.shiftl 1 15.

Definition CAP_IMPLICIT_SET : Z :=
  Z.lor (Z.lor (Z.lor (Z.lor (Z.lor (Z.lor CAP_FS_READ CAP_FS_WRITE) CAP_PROC) CAP_IPC) CAP_SIGNAL) CAP_TIME) CAP_POWER.
Definition CAP_EXPLICIT_SET : Z := Z.lor (Z.lor CAP_NET CAP_INPUT) CAP_DISPLAY.

Definition MANIFEST_FLAG_CAP_NET : Z := Z.shiftl 1 4.
Definition MANIFEST_FLAG_CAP_ENFORCE : Z := Z.shiftl 1 5.
Definition MANIFEST_FLAG_SETID : Z := Z.shiftl 1 15.
Definition MANIFEST_FLAG_SESSION_GATEWAY : Z := Z.shiftl 1 16.
Definition MANIFEST_CAP_MASK : Z := Z.lor CAP_IMPLICIT_SET CAP_EXPLICIT_SET.

(** The capability state of a process. *)
Record caps := mk_caps {
  c_pid : Z;
  cap_net : bool;
  cap_enforce : bool;
  cap_mask : Z;
  no_new_privs : bool;
  c_manifest : option elf_manifest
}.

(** *** Audit *)

Record cap_audit_rec := mk_rec {
  r_pid : Z;
  r_cap : Z;
  r_syscall : Z;
  r_seq : Z;
  r_allowed : bool;
  r_name : list Z
}.
#[export] Instance rec_inhabited : Inhabited cap_audit_rec := populate (mk_rec 0 0 0 0 false (replicate 16 0)).
Definition AUDIT_RING : Z := 64.
Record audit := mk_audit {
  g_audit : list cap_audit_rec;
  g_audit_head : Z
}.

(** [src] without its NUL; [None] is a null pointer. *)
Definition copy_name (dst : list Z) (src : option (list Z)) : list Z :=
  let s := default [] src in
  let n := Z.min 15 (zlen s) in
  (zfor (Z.to_nat n) 0 (λ i d, d.[i <- s.[i]]) dst).[n <- 0].

Definition cap_audit (a : audit) (pid cap syscall_num : Z) (name : option (list Z)) (allowed : bool) : audit :=
  let i := g_audit_head a mod AUDIT_RING in
  let r := (g_audit a).[i] in
  mk_audit (g_audit a).[i <- mk_rec pid cap syscall_num (g_audit_head a) allowed (copy_name (r_name r) name)] (u64 (g_audit_head a + 1)).

(** *** Checks; [None] is kernel context *)

Definition cap_allowed (p : option caps) (cap : Z) : bool :=
  match p with
  | None => true
  | Some p => if negb (cap_enforce p) then true else flag (cap_mask p) cap
  end.

Definition cap_check (a : audit) (p : option caps) (cap syscall_num : Z) (name : option (list Z)) : audit * bool :=
  let ok := cap_allowed p cap in
  let a := match p with
           | Some q => if cap_enforce q then cap_audit a (c_pid q) cap syscall_num name ok
                       else if negb ok then cap_audit a (c_pid q) cap syscall_num name ok else a
           | None => if negb ok then cap_audit a 0 cap syscall_num name ok else a
           end in
  (a, ok).

Definition cap_check_explicit (a : audit) (p : option caps) (cap syscall_num : Z) (name : option (list Z)) : audit * bool :=
  match p with
  | None => (a, true)
  | Some q =>
      if c_pid q =? 0 then (a, true)
      else
        let ok := flag (cap_mask q) cap in
        ((if negb ok || cap_enforce q then cap_audit a (c_pid q) cap syscall_num name ok else a), ok)
  end.

(** The records, oldest first, of the last [n]. *)
Definition cap_audit_dump (a : audit) (max : Z) : list cap_audit_rec :=
  let n := if g_audit_head a <? AUDIT_RING then g_audit_head a else AUDIT_RING in
  let n := if max <? n then max else n in
  let start := u64 (g_audit_head a - n) in
  (λ i, (g_audit a).[u64 (start + i) mod AUDIT_RING]) <$> seqZ 0 n.

Definition cap_audit_total (a : audit) : Z := g_audit_head a.

(** *** Exec *)

Definition cap_effective (p : option caps) : Z :=
  match p with
  | None => Z.lor CAP_IMPLICIT_SET CAP_EXPLICIT_SET
  | Some p =>
      if c_pid p =? 0 then Z.lor CAP_IMPLICIT_SET CAP_EXPLICIT_SET
      else if cap_enforce p then
        let m := Z.land (cap_mask p) (Z.lor CAP_IMPLICIT_SET CAP_EXPLICIT_SET) in
        if negb (cap_net p) then Z.land m (not32 CAP_NET) else m
      else
        let m := Z.lor CAP_IMPLICIT_SET (Z.land (cap_mask p) (Z.lor CAP_INPUT CAP_DISPLAY)) in
        if cap_net p then Z.lor m CAP_NET else m
  end.

Record cap_exec_bound_t := mk_bound {
  b_valid : bool;
  b_enforce : bool;
  b_nnp : bool;
  b_eff : Z
}.

Definition cap_exec_bound (p : option caps) : cap_exec_bound_t :=
  let valid := match p with Some q => negb (c_pid q =? 0) | None => false end in
  mk_bound valid
    (if valid then match p with Some q => cap_enforce q | None => false end else false)
    (if valid then match p with Some q => no_new_privs q | None => false end else false)
    (cap_effective p).

Definition set_caps (p : caps) (net enforce : bool) (mask : Z) (nnp : bool) : caps := mk_caps (c_pid p) net enforce mask nnp (c_manifest p).

(** The audit of each capability that was asked for and withheld. *)
Definition audit_lost (pid lost : Z) (what : option (list Z)) (a : audit) : audit :=
  zfor 32 0 (λ i a, if flag lost (Z.shiftl 1 i) then cap_audit a pid (Z.shiftl 1 i) 0 what false else a) a.

Definition cap_exec_transition (a : audit) (p : caps) (b : cap_exec_bound_t) (what : option (list Z)) : audit * caps :=
  let gateway := match c_manifest p with Some mf => flag (mf_flags mf) MANIFEST_FLAG_SESSION_GATEWAY | None => false end in
  if b_valid b && b_nnp b then
    let want := cap_effective (Some p) in
    let got := Z.land want (b_eff b) in
    let p' := set_caps p (flag got CAP_NET) (cap_enforce p || b_enforce b) got true in
    let lost := Z.land want (not32 got) in
    (audit_lost (c_pid p) lost what a, p')
  else (a, set_caps p (cap_net p) (cap_enforce p) (cap_mask p) (cap_enforce p && negb gateway)).

(** The manifest's capabilities; the memory limit is [mem_limit] of [MmSyscall]. *)
Definition proc_apply_caps (p : caps) (mf : option elf_manifest) : caps :=
  match mf with
  | None => mk_caps (c_pid p) false false 0 (no_new_privs p) (c_manifest p)
  | Some mf => mk_caps (c_pid p) (flag (mf_flags mf) MANIFEST_FLAG_CAP_NET) (flag (mf_flags mf) MANIFEST_FLAG_CAP_ENFORCE)
                 (Z.land (mf_flags mf) MANIFEST_CAP_MASK) (no_new_privs p) (c_manifest p)
  end.

(** The gate of the socket calls. *)
Definition net_allowed (p : option caps) : bool := match p with Some p => cap_net p | None => false end.

(** [SYS_PRCTL]. *)
Definition PR_SET_NO_NEW_PRIVS : Z := 38.
Definition PR_GET_NO_NEW_PRIVS : Z := 39.
Definition PR_SECOS_GET_CAPS : Z := 0x53430001.
Definition sys_prctl (c : option caps) (a0 a1 : Z) : option caps * Z :=
  match c with
  | None => (None, u64 (-22))
  | Some p =>
      if a0 =? PR_SET_NO_NEW_PRIVS then
        if negb (a1 =? 1) then (Some p, u64 (-22))
        else (Some (set_caps p (cap_net p) (cap_enforce p) (cap_mask p) true), 0)
      else if a0 =? PR_GET_NO_NEW_PRIVS then (Some p, b2z (no_new_privs p))
      else if a0 =? PR_SECOS_GET_CAPS then
        (Some p, Z.lor (Z.lor (cap_effective (Some p)) (if cap_enforce p then Z.shiftl 1 30 else 0)) (if no_new_privs p then Z.shiftl 1 29 else 0))
      else (Some p, u64 (-22))
  end.

(** ** Capability sets, bit by bit *)

Abbreviation ALL_CAPS := (Z.lor CAP_IMPLICIT_SET CAP_EXPLICIT_SET).
Abbreviation GUI_CAPS := (Z.lor CAP_INPUT CAP_DISPLAY).

Lemma net_bit i : Z.testbit CAP_NET i = (i =? 4).
Proof. unfold CAP_NET. rewrite Z.shiftl_1_l, Z.pow2_bits_eqb by lia. lia. Qed.

Lemma all_caps_bit i : Z.testbit ALL_CAPS i = Z.testbit CAP_IMPLICIT_SET i || Z.testbit GUI_CAPS i || (i =? 4).
Proof.
  rewrite Z.lor_spec. unfold CAP_EXPLICIT_SET. rewrite !Z.lor_spec, net_bit.
  destruct (Z.testbit CAP_IMPLICIT_SET i), (Z.testbit CAP_INPUT i), (Z.testbit CAP_DISPLAY i), (i =? 4); done.
Qed.

Lemma net_apart i : Z.testbit CAP_IMPLICIT_SET i || Z.testbit GUI_CAPS i = true → (i =? 4) = false.
Proof. destruct (Z.eqb_spec i 4) as [->|]; [by vm_compute|done]. Qed.

Lemma caps_u32 i : 32 ≤ i → Z.testbit ALL_CAPS i = false.
Proof. intros Hi. apply (testbit_high 32); [|lia|lia]. vm_compute. split; [discriminate|reflexivity]. Qed.

(** The capabilities a process holds. *)
Definition holds (p : caps) (i : Z) : bool :=
  if cap_enforce p then Z.testbit (cap_mask p) i && Z.testbit ALL_CAPS i && (cap_net p || negb (i =? 4))
  else Z.testbit CAP_IMPLICIT_SET i || Z.testbit (cap_mask p) i && Z.testbit GUI_CAPS i || cap_net p && (i =? 4).

Lemma cap_effective_bit p i : 0 ≤ i → c_pid p ≠ 0 → Z.testbit (cap_effective (Some p)) i = holds p i.
Proof.
  intros Hi Hp. unfold cap_effective, holds. rewrite (proj2 (Z.eqb_neq (c_pid p) 0)) by done.
  destruct (cap_enforce p), (cap_net p); cbn [negb].
  - by rewrite Z.land_spec, andb_true_r.
  - rewrite !Z.land_spec, not32_testbit, net_bit by done. destruct (Z.testbit ALL_CAPS i) eqn:E; [|by rewrite !andb_false_r].
    destruct (Z.ltb_spec i 32); [done|]. by rewrite caps_u32 in E by lia.
  - by rewrite !Z.lor_spec, Z.land_spec, Z.lor_spec, net_bit.
  - by rewrite Z.lor_spec, Z.land_spec, orb_false_r.
Qed.

Lemma holds_all p i : holds p i = true → Z.testbit ALL_CAPS i = true.
Proof.
  unfold holds. rewrite all_caps_bit. destruct (cap_enforce p), (Z.testbit CAP_IMPLICIT_SET i), (Z.testbit GUI_CAPS i), (i =? 4), (Z.testbit (cap_mask p) i), (cap_net p); done.
Qed.

Lemma cap_effective_range p : is_u32 (cap_effective (Some p)).
Proof.
  destruct (Z.eqb_spec (c_pid p) 0) as [E|Hp]; [unfold cap_effective; rewrite E; by vm_compute|].
  assert (H0 : 0 ≤ cap_effective (Some p)).
  { unfold cap_effective. destruct (_ =? 0); [done|].
    destruct (cap_enforce p), (cap_net p); cbn [negb]; rewrite ?Z.lor_nonneg, ?Z.land_nonneg; split_and?; (done || (by right) || (left; by right)). }
  split; [done|]. apply (bits_bound 32); [lia|done|]. intros i Hi. rewrite cap_effective_bit by (done || lia).
  destruct (holds p i) eqn:E; [|done]. apply holds_all in E. by rewrite caps_u32 in E.
Qed.

(** ** Exec *)

(** The bound of [cap_exec_transition] is exact. *)
Lemma transition_bound a p q what : c_pid p ≠ 0 → c_pid q ≠ 0 → no_new_privs q = true →
  let p' := (cap_exec_transition a p (cap_exec_bound (Some q)) what).2 in
  cap_effective (Some p') = Z.land (cap_effective (Some p)) (cap_effective (Some q)) ∧
  no_new_privs p' = true ∧ cap_enforce p' = cap_enforce p || cap_enforce q ∧ c_pid p' = c_pid p.
Proof.
  intros Hp Hq Hn. unfold cap_exec_transition, cap_exec_bound. rewrite (proj2 (Z.eqb_neq (c_pid q) 0)) by done. cbn [negb b_valid b_nnp b_enforce b_eff].
  rewrite Hn. cbn [andb snd]. split_and!; try done. apply Z.bits_inj'. intros i Hi. rewrite cap_effective_bit by done.
  set (got := Z.land _ _). assert (Hg : ∀ j, 0 ≤ j → Z.testbit got j = holds p j && holds q j) by (intros j Hj; unfold got; by rewrite Z.land_spec, !cap_effective_bit).
  unfold holds at 1. cbn [set_caps cap_enforce cap_mask cap_net]. unfold CAP_NET. rewrite flag_shiftl by lia. rewrite !Hg by lia.
  pose proof (holds_all p i) as Ha. pose proof (net_apart i) as Hx. destruct (Z.eqb_spec i 4) as [->|Hne].
  - change (Z.testbit ALL_CAPS 4) with true. change (Z.testbit CAP_IMPLICIT_SET 4) with false. change (Z.testbit GUI_CAPS 4) with false. cbn [negb].
    by destruct (cap_enforce p || cap_enforce q), (holds p 4 && holds q 4).
  - rewrite orb_true_r, andb_true_r, andb_false_r, orb_false_r, !all_caps_bit in *.
    destruct (cap_enforce p) eqn:Ep, (cap_enforce q) eqn:Eq; cbn [orb]; try (destruct (holds p i), (holds q i); cbn in *; try done; apply Ha; done).
    unfold holds in *. rewrite Ep, Eq in *. rewrite (proj2 (Z.eqb_neq i 4)) in * by done. rewrite !andb_false_r, !orb_false_r in *.
    destruct (Z.testbit CAP_IMPLICIT_SET i), (Z.testbit GUI_CAPS i), (Z.testbit (cap_mask p) i), (Z.testbit (cap_mask q) i); done.
Qed.

(** Sockets are granted by the mask. *)
Definition caps_wf (p : caps) : Prop := cap_net p = Z.testbit (cap_mask p) 4.

Lemma apply_caps_wf p mf : caps_wf (proc_apply_caps p mf).
Proof.
  unfold caps_wf, proc_apply_caps. destruct mf as [mf|]; cbn [cap_net cap_mask]; [|done].
  unfold MANIFEST_FLAG_CAP_NET. rewrite flag_shiftl, Z.land_spec by lia. change (Z.testbit MANIFEST_CAP_MASK 4) with true. by rewrite andb_true_r.
Qed.

Lemma transition_wf a p b what : caps_wf p → caps_wf (cap_exec_transition a p b what).2.
Proof.
  intros H. unfold cap_exec_transition. destruct (_ && _); cbn [snd]; [|done]. unfold caps_wf. cbn [set_caps cap_net cap_mask]. apply flag_shiftl. lia.
Qed.

(** ** The audit ring *)

(** A record as its reader sees it: the name ends at the NUL. *)
Fixpoint cstr (l : list Z) : list Z := match l with [] => [] | x :: l => if x =? 0 then [] else x :: cstr l end.
Record event := mk_event { ev_pid : Z; ev_cap : Z; ev_syscall : Z; ev_allowed : bool; ev_name : list Z }.
#[export] Instance event_inhabited : Inhabited event := populate (mk_event 0 0 0 false []).
Definition view (r : cap_audit_rec) : event := mk_event (r_pid r) (r_cap r) (r_syscall r) (r_allowed r) (cstr (r_name r)).

(** The ring after the events [log]: the last 64 of them, each in its slot. *)
Record audit_rep (log : list event) (a : audit) : Prop := {
  ar_len : zlen (g_audit a) = AUDIT_RING;
  ar_names : ∀ i, 0 ≤ i < AUDIT_RING → zlen (r_name (g_audit a).[i]) = 16;
  ar_head : g_audit_head a = zlen log;
  ar_slots : ∀ k, 0 ≤ k < zlen log → zlen log - AUDIT_RING ≤ k →
    view (g_audit a).[k mod AUDIT_RING] = log.[k] ∧ r_seq (g_audit a).[k mod AUDIT_RING] = k
}.

Definition audit0 : audit := mk_audit (replicate 64 inhabitant) 0.
Lemma audit0_rep : audit_rep [] audit0.
Proof.
  constructor; try done.
  - intros i Hi. unfold audit0. cbn [g_audit]. by rewrite aget_replicate by (unfold AUDIT_RING in Hi; lia).
  - cbn. lia.
Qed.

Lemma cstr_app l r : Forall (λ x, x ≠ 0) l → cstr (l ++ 0 :: r) = l.
Proof. induction 1 as [|x l Hx _ IH]; cbn; [done|]. rewrite (proj2 (Z.eqb_neq x 0)) by done. by rewrite IH. Qed.

Lemma copy_name_spec dst src : zlen dst = 16 → Forall (λ x, x ≠ 0) (default [] src) →
  cstr (copy_name dst src) = take 15 (default [] src) ∧ zlen (copy_name dst src) = 16.
Proof.
  intros Hd Hs. unfold copy_name. set (s := default [] src) in *. set (n := Z.min 15 (zlen s)).
  assert (E : zfor (Z.to_nat n) 0 (λ i d, d.[i <- s.[i]]) dst = take (Z.to_nat n) s ++ drop (Z.to_nat n) dst).
  { pose proof (copy_loop dst s 0 n ltac:(lia) ltac:(lia) ltac:(lia)) as H. change (take (Z.to_nat 0) dst) with (@nil Z) in H. cbn [app] in H. rewrite Z.add_0_l in H. rewrite <- H.
    by apply (zfor_rel eq); [|intros i x y _ ->]. }
  rewrite E. assert (Hn : (Z.to_nat n < 16)%nat) by lia. assert (Ht : length (take (Z.to_nat n) s) = Z.to_nat n) by (rewrite length_take; lia).
  assert (Ed : drop (Z.to_nat n) dst = dst.[n] :: drop (S (Z.to_nat n)) dst).
  { unfold aget. apply drop_S. apply list_lookup_lookup_total_lt. lia. }
  rewrite Ed. unfold aset. rewrite insert_app_r_alt by lia. rewrite Ht, Nat.sub_diag. cbn [list_insert insert].
  split.
  - rewrite cstr_app by (by apply Forall_take). destruct (decide (15 ≤ zlen s)) as [H|H].
    + f_equal. lia.
    + by rewrite !take_ge by lia.
  - rewrite length_app, Ht. cbn [length]. rewrite length_drop. lia.
Qed.

(** Recording an event. *)
Lemma cap_audit_rep log a pid cap nr name ok : audit_rep log a → zlen log + 1 < 2 ^ 64 → Forall (λ x, x ≠ 0) (default [] name) →
  audit_rep (log ++ [mk_event pid cap nr ok (take 15 (default [] name))]) (cap_audit a pid cap nr name ok).
Proof.
  intros [Hl Hn Hh Hs] Hlog Hname. unfold cap_audit. rewrite Hh. set (h := zlen log) in *. pose proof (Z.mod_pos_bound h AUDIT_RING ltac:(done)) as Hm.
  destruct (copy_name_spec (r_name (g_audit a).[h mod AUDIT_RING]) name (Hn _ Hm) Hname) as [Hc Hc']. change (2 ^ 64) with 18446744073709551616 in Hlog.
  constructor; cbn [g_audit g_audit_head].
  - by rewrite aset_length.
  - intros i Hi. rewrite aget_aset by lia. destruct (_ =? _); [done|by apply Hn].
  - rewrite length_app. cbn [length]. rewrite u64_small by (unfold is_u64; lia). lia.
  - intros k Hk Hr. rewrite length_app in Hk, Hr. cbn [length] in Hk, Hr. pose proof (Z.mod_pos_bound k AUDIT_RING ltac:(done)) as Hmk. rewrite aget_aset by lia.
    destruct (decide (k = h)) as [->|Hne].
    + rewrite Z.eqb_refl. rewrite aget_app_r by lia. replace (h - zlen log) with 0 by lia. split; [|done]. unfold view. cbn. by rewrite Hc.
    + rewrite aget_app_l by lia. destruct (Z.eqb_spec (h mod AUDIT_RING) (k mod AUDIT_RING)) as [E|_]; [|apply Hs; lia].
      exfalso. unfold AUDIT_RING in *. Z.to_euclidean_division_equations; lia.
Qed.

Lemma cap_audit_dump_spec log a max : audit_rep log a → zlen log < 2 ^ 64 → 0 ≤ max →
  view <$> cap_audit_dump a max = drop (length log - Z.to_nat (Z.min max AUDIT_RING)) log.
Proof.
  intros [Hl Hn Hh Hs] Hlog Hmax. unfold cap_audit_dump. rewrite Hh. set (h := zlen log) in *. set (n := if max <? _ then _ else _).
  assert (En : n = Z.min h (Z.min max AUDIT_RING)) by (unfold n, AUDIT_RING; repeat split_if; zbool; lia). clearbody n. change (2 ^ 64) with 18446744073709551616 in Hlog.
  rewrite (u64_small (h - n)) by (unfold is_u64, AUDIT_RING in *; lia). rewrite <- list_fmap_compose. apply list_eq_aget.
  - rewrite length_fmap, length_seqZ, length_drop. lia.
  - intros i Hi. rewrite length_fmap, length_seqZ in Hi. rewrite aget_fmap by (rewrite length_seqZ; lia). cbn [compose].
    assert (Ei : (seqZ 0 n).[i] = i) by (unfold aget; apply list_lookup_total_correct; rewrite lookup_seqZ; lia). rewrite Ei.
    rewrite u64_small by (unfold is_u64; lia). rewrite aget_drop by lia.
    replace (Z.of_nat (length log - Z.to_nat (Z.min max AUDIT_RING)) + i) with (h - n + i) by (unfold AUDIT_RING in *; lia).
    unfold compose. apply Hs; unfold AUDIT_RING in *; lia.
Qed.

(** ** Properties *)

(** The effective set is what the gates allow: for a process whose
    capabilities come from a manifest, [cap_allowed] grants exactly the implicit
    capabilities in it, [cap_check_explicit] exactly the explicit ones, the
    socket calls exactly CAP_NET; nothing else is in it. *)
Theorem cap_effective_correct a p nr name : c_pid p ≠ 0 → caps_wf p →
  (∀ i, 0 ≤ i → Z.testbit CAP_IMPLICIT_SET i = true → cap_allowed (Some p) (Z.shiftl 1 i) = Z.testbit (cap_effective (Some p)) i) ∧
  (∀ i, 0 ≤ i → Z.testbit GUI_CAPS i = true → (cap_check_explicit a (Some p) (Z.shiftl 1 i) nr name).2 = Z.testbit (cap_effective (Some p)) i) ∧
  net_allowed (Some p) = Z.testbit (cap_effective (Some p)) 4 ∧
  (∀ i, 0 ≤ i → Z.testbit (cap_effective (Some p)) i = true → Z.testbit MANIFEST_CAP_MASK i = true).
Proof.
  intros Hp Hw. split_and!.
  - intros i Hi Hc. rewrite cap_effective_bit by done. unfold cap_allowed, holds. rewrite flag_shiftl by done.
    destruct (cap_enforce p); cbn [negb]; [|by rewrite Hc]. rewrite all_caps_bit, Hc. rewrite (net_apart i) by (by rewrite Hc). by rewrite orb_true_r, !andb_true_r.
  - intros i Hi Hc. rewrite cap_effective_bit by done. unfold cap_check_explicit, holds. rewrite (proj2 (Z.eqb_neq (c_pid p) 0)) by done. cbn [snd]. rewrite flag_shiftl by done.
    assert (Hx : (i =? 4) = false) by (apply net_apart; by rewrite Hc, orb_true_r). assert (Hd : Z.testbit CAP_IMPLICIT_SET i = false).
    { rewrite Z.lor_spec in Hc. unfold CAP_INPUT, CAP_DISPLAY in Hc. rewrite !Z.shiftl_1_l, !Z.pow2_bits_eqb in Hc by lia.
      apply orb_true_iff in Hc as [<-%Z.eqb_eq| <-%Z.eqb_eq]; by vm_compute. }
    rewrite all_caps_bit, Hc, Hx, Hd. destruct (cap_enforce p), (cap_net p), (Z.testbit (cap_mask p) i); done.
  - rewrite cap_effective_bit by done. unfold net_allowed, holds. change (Z.testbit ALL_CAPS 4) with true. change (Z.testbit CAP_IMPLICIT_SET 4) with false. change (Z.testbit GUI_CAPS 4) with false.
    rewrite <- Hw. cbn [negb Z.eqb Pos.eqb]. destruct (cap_enforce p), (cap_net p); done.
  - intros i Hi. rewrite cap_effective_bit by done. apply holds_all.
Qed.

(** A confined program can do what its signed manifest declares and no
    more: each capability check answers with the manifest's flag. *)
Theorem confined_exactly_manifest p mf i : 0 ≤ i → Z.testbit CAP_IMPLICIT_SET i = true → flag (mf_flags mf) MANIFEST_FLAG_CAP_ENFORCE = true →
  cap_allowed (Some (proc_apply_caps p (Some mf))) (Z.shiftl 1 i) = Z.testbit (mf_flags mf) i.
Proof.
  intros Hi Hc He. unfold cap_allowed, proc_apply_caps. cbn [cap_enforce cap_mask]. rewrite He. cbn [negb]. rewrite flag_shiftl, Z.land_spec by done.
  unfold MANIFEST_CAP_MASK. by rewrite Z.lor_spec, Hc, orb_true_l, andb_true_r.
Qed.

(** The audit ring is a faithful window of the log: recording any sequence
    of events and dumping at most [max] gives the last [min max 64] events, in
    order, names cut to 15 characters. *)
Theorem cap_audit_window (evs : list (Z * Z * Z * bool * list Z)) max : zlen evs < 2 ^ 62 → 0 ≤ max →
  Forall (λ e, Forall (λ x, x ≠ 0) e.2) evs →
  let a := foldl (λ a '(pid, cap, nr, ok, name), cap_audit a pid cap nr (Some name) ok) audit0 evs in
  view <$> cap_audit_dump a max =
    drop (length evs - Z.to_nat (Z.min max AUDIT_RING)) ((λ '(pid, cap, nr, ok, name), mk_event pid cap nr ok (take 15 name)) <$> evs) ∧
  cap_audit_total a = zlen evs.
Proof.
  intros Hlen Hmax Hn a. set (f := λ '(pid, cap, nr, ok, name), mk_event pid cap nr ok (take 15 name)).
  assert (Hrep : ∀ log a0, audit_rep log a0 → zlen log + zlen evs < 2 ^ 62 →
    audit_rep (log ++ (f <$> evs)) (foldl (λ a '(pid, cap, nr, ok, name), cap_audit a pid cap nr (Some name) ok) a0 evs)).
  { clear a Hlen Hmax. induction Hn as [|[[[[pid cap] nr] ok] name] evs He _ IH]; intros log a0 Ha Hl; cbn [foldl fmap list_fmap]; [by rewrite app_nil_r|].
    cbn [length] in Hl. rewrite cons_middle, app_assoc. apply IH; [|rewrite length_app; cbn; lia].
    apply (cap_audit_rep log a0 pid cap nr (Some name) ok Ha); [|done]. change (2 ^ 62) with 4611686018427387904 in Hl. change (2 ^ 64) with 18446744073709551616. lia. }
  specialize (Hrep [] audit0 audit0_rep ltac:(cbn; lia)). cbn [app] in Hrep. fold a in Hrep. assert (Hlf : zlen (f <$> evs) = zlen evs) by (by rewrite length_fmap).
  split.
  - rewrite (cap_audit_dump_spec _ a max Hrep) by (rewrite ?Hlf; lia). by rewrite length_fmap.
  - unfold cap_audit_total. rewrite (ar_head _ _ Hrep). done.
Qed.

(** A confined program with file access and sockets. *)
Definition demo_caps : caps := proc_apply_caps (mk_caps 5 false false 0 true None) (Some (mk_manifest 1 0x70 0 0 0 0 0)).

Lemma cap_effective_correct_witness : cap_allowed (Some demo_caps) (Z.shiftl 1 6) = true ∧ cap_allowed (Some demo_caps) (Z.shiftl 1 8) = false.
Proof.
  destruct (cap_effective_correct audit0 demo_caps 0 None) as [H _]; [discriminate|reflexivity|].
  split; [rewrite (H 6)|rewrite (H 8)]; vm_compute; (reflexivity || discriminate).
Defined.

Lemma confined_exactly_manifest_witness : cap_allowed (Some demo_caps) (Z.shiftl 1 6) = true ∧ cap_allowed (Some demo_caps) (Z.shiftl 1 7) = false.
Proof.
  split.
  - apply (confined_exactly_manifest (mk_caps 5 false false 0 true None) (mk_manifest 1 0x70 0 0 0 0 0) 6); vm_compute; (reflexivity || discriminate).
  - apply (confined_exactly_manifest (mk_caps 5 false false 0 true None) (mk_manifest 1 0x70 0 0 0 0 0) 7); vm_compute; (reflexivity || discriminate).
Defined.

Lemma cap_audit_window_witness :
  let evs := (λ i, (i, CAP_PROC, 57, Z.even i, [102; 111])) <$> seqZ 1 70 in
  let a := foldl (λ a '(pid, cap, nr, ok, name), cap_audit a pid cap nr (Some name) ok) audit0 evs in
  view <$> cap_audit_dump a 2 = [mk_event 69 CAP_PROC 57 false [102; 111]; mk_event 70 CAP_PROC 57 true [102; 111]] ∧ cap_audit_total a = 70.
Proof.
  cbv zeta. destruct (cap_audit_window ((λ i, (i, CAP_PROC, 57, Z.even i, [102; 111])) <$> seqZ 1 70) 2) as [H1 H2]; [vm_compute; reflexivity|vm_compute; discriminate| |].
  - apply Forall_fmap, Forall_true. intros i. repeat constructor; discriminate.
  - split; [etransitivity; [exact H1|vm_compute; reflexivity]|etransitivity; [exact H2|vm_compute; reflexivity]].
Defined.
