(* ===== verification/Cred.v ===== *)
(** * Credentials and file permissions

    [src/kernel/cred.c]: user and group ids, the permission check on inodes,
    the policies of chmod, chown, utimes, create, delete, signal and inspect,
    set-id execution and the id system calls.

    The filesystem is an interface, [Vfs]: what [cred.c] calls of
    [src/fs/vfs.c].  Paths are strings of bytes without the NUL.  [None] for a
    process is kernel context. *)

From S2P Require Import Prelude Vma Frames Vmm.

(** ** Data *)

Definition CRED_NGROUPS : Z := 32.
Record proc_cred := mk_cred {
  ruid : Z; euid : Z; suid : Z;
  rgid : Z; egid : Z; sgid : Z;
  ngroups : Z;
  groups : list Z
}.

(** The process as [cred.c] sees it. *)
Record cproc := mk_cproc {
  cp_pid : Z;
  cp_cred : proc_cred;
  cp_sid : Z;
  cp_umask : Z
}.

Inductive vfs_node_type := VFS_NODE_FILE | VFS_NODE_DIR | VFS_NODE_SYMLINK.
#[export] Instance node_type_eq : EqDecision vfs_node_type.
Proof. solve_decision. Defined.
Definition is_dir (t : vfs_node_type) : bool := bool_decide (t = VFS_NODE_DIR).
Definition is_link (t : vfs_node_type) : bool := bool_decide (t = VFS_NODE_SYMLINK).

(** [i_rdonly] is [ops && (ops->flags & VFS_FS_RDONLY)]. *)
Record vfs_inode := mk_inode {
  i_type : vfs_node_type;
  i_mode : Z;
  i_uid : Z;
  i_gid : Z;
  i_rdonly : bool
}.

Definition VFS_ATTR_MODE : Z := 0x01.
Definition VFS_ATTR_UID : Z := 0x02.
Definition VFS_ATTR_GID : Z := 0x04.
Definition VFS_ATTR_ATIME : Z := 0x08.
Definition VFS_ATTR_MTIME : Z := 0x10.
Record vfs_attr := mk_attr {
  a_mode : Z;
  a_uid : Z;
  a_gid : Z;
  a_atime : Z;
  a_mtime : Z
}.

Class Vfs (V : Type) := {
  vfs_lookup : V → list Z → option vfs_inode;
  vfs_lsetattr : V → list Z → vfs_attr → Z → V * Z;
  vfs_walk : V → list Z → bool → Z * list Z;
  vfs_walk_checked : V → list Z → bool → (vfs_inode → Z) → Z * list Z;
  vfs_mount_point_for : V → list Z → option (list Z)
}.

Definition S_IFMT_ : Z := 0xF000.
Definition S_IFDIR_ : Z := 0x4000.
Definition S_IFREG_ : Z := 0x8000.
Definition S_IFLNK_ : Z := 0xA000.
Definition S_ISUID_ : Z := 0x800.
Definition S_ISGID_ : Z := 0x400.
Definition S_ISVTX_ : Z := 0x200.
Definition MODE_ALL : Z := 0xFFF.
Definition CRED_UNCHANGED : Z := 0xFFFFFFFF.
Definition UTIME_NOW_SENTINEL : Z := 0xFFFFFFFFFFFFFFFF.
Definition MAY_EXEC : Z := 1.
Definition MAY_WRITE : Z := 2.
Definition MAY_READ : Z := 4.
Definition CRED_EPERM : Z := 1.
Definition CRED_ENOENT : Z := 2.
Definition CRED_EFAULT : Z := 14.
Definition CRED_EACCES : Z := 13.
Definition CRED_ENOTDIR : Z := 20.
Definition CRED_EINVAL : Z := 22.
Definition CRED_EROFS : Z := 30.

(** ** Identity *)

Definition cred_init_root : proc_cred := mk_cred 0 0 0 0 0 0 0 (zfor 32 0 (λ i g, g.[i <- 0]) (replicate 32 0)).

Definition cred_is_kernel (c : option cproc) : bool := match c with None => true | Some p => cp_pid p =? 0 end.
Definition cred_is_root (c : option cproc) : bool :=
  cred_is_kernel c || match c with Some p => euid (cp_cred p) =? 0 | None => false end.

Definition in_group_ids (cr : proc_cred) (gid_e gid : Z) : bool :=
  (gid_e =? gid) || existsb (Z.eqb gid) (take (Z.to_nat (Z.min (ngroups cr) CRED_NGROUPS)) (groups cr)).

Definition cred_in_group (c : option cproc) (gid : Z) : bool :=
  cred_is_kernel c || match c with Some p => in_group_ids (cp_cred p) (egid (cp_cred p)) gid | None => true end.

(** ** The permission check *)

Definition cred_inode_mode (ino : option vfs_inode) : Z :=
  match ino with
  | None => 0
  | Some ino =>
      let m := i_mode ino in
      let t := if is_dir (i_type ino) then S_IFDIR_ else if is_link (i_type ino) then S_IFLNK_ else S_IFREG_ in
      if m =? 0 then Z.lor t (if is_dir (i_type ino) then 0x1ED else 0x1A4)
      else if negb (flag m S_IFMT_) then Z.lor m t else m
  end.

Definition perm_ids (uid gid : Z) (cr : proc_cred) (ino : vfs_inode) (mask : Z) : Z :=
  let m := cred_inode_mode (Some ino) in
  let mask := Z.land mask 7 in
  if uid =? 0 then
    if flag mask MAY_EXEC && negb (Z.land m S_IFMT_ =? S_IFDIR_) && negb (flag m 0x49) then - CRED_EACCES else 0
  else
    let bits := if uid =? i_uid ino then Z.land (Z.shiftr m 6) 7
                else if in_group_ids cr gid (i_gid ino) then Z.land (Z.shiftr m 3) 7
                else Z.land m 7 in
    if Z.land bits mask =? mask then 0 else - CRED_EACCES.

Definition ro_fs (ino : option vfs_inode) : bool := match ino with Some i => i_rdonly i | None => false end.

Definition cred_inode_perm (c : option cproc) (ino : option vfs_inode) (mask : Z) : Z :=
  match c, ino with
  | Some p, Some i =>
      if cred_is_kernel c then 0
      else if flag mask MAY_WRITE && ro_fs ino then - CRED_EROFS
      else perm_ids (euid (cp_cred p)) (egid (cp_cred p)) (cp_cred p) i mask
  | _, _ => 0
  end.

Definition cred_inode_perm_real (c : option cproc) (ino : option vfs_inode) (mask : Z) : Z :=
  match c, ino with
  | Some p, Some i =>
      if cred_is_kernel c then 0
      else if flag mask MAY_WRITE && ro_fs ino then - CRED_EROFS
      else perm_ids (ruid (cp_cred p)) (rgid (cp_cred p)) (cp_cred p) i mask
  | _, _ => 0
  end.

Definition search_cb (c : option cproc) (dir : vfs_inode) : Z := cred_inode_perm c (Some dir) MAY_EXEC.

(** The directory of a path, at most [cap - 1] bytes of it. *)
Definition last_slash (p : list Z) : Z := zfor (length p) 0 (λ i ls, if p.[i] =? 47 then i else ls) 0.
Definition parent_of (p : list Z) (cap : Z) : list Z :=
  let ls := last_slash p in
  if ls =? 0 then [47]
  else
    let ls := if cap - 1 <? ls then cap - 1 else ls in
    take (Z.to_nat ls) p.

Definition cred_is_owner (c : option cproc) (ino : option vfs_inode) : bool :=
  if cred_is_root c then true
  else match c, ino with Some p, Some i => i_uid i =? euid (cp_cred p) | _, _ => false end.

Section vfs.
Context {V : Type} {vfs : Vfs V}.

Definition cred_resolve (v : V) (c : option cproc) (abs : list Z) (follow : bool) : Z * list Z :=
  if cred_is_root c then vfs_walk v abs follow else vfs_walk_checked v abs follow (search_cb c).

(** Result, canonical path and inode. *)
Definition cred_check_path (v : V) (c : option cproc) (abs : list Z) (follow : bool) (mask : Z) : Z * list Z * option vfs_inode :=
  let '(e, canon) := cred_resolve v c abs follow in
  if negb (e =? 0) then (e, canon, None)
  else
    match vfs_lookup v canon with
    | None => (- CRED_ENOENT, canon, None)
    | Some ino =>
        let e := if negb (mask =? 0) then cred_inode_perm c (Some ino) mask else 0 in
        if negb (e =? 0) then (e, canon, None) else (0, canon, Some ino)
    end.

Definition cred_may_create (v : V) (c : option cproc) (canon : list Z) : Z :=
  match vfs_lookup v (parent_of canon 256) with
  | None => - CRED_ENOENT
  | Some d => if negb (is_dir (i_type d)) then - CRED_ENOTDIR else cred_inode_perm c (Some d) (Z.lor MAY_WRITE MAY_EXEC)
  end.

Definition cred_may_delete (v : V) (c : option cproc) (canon : list Z) : Z :=
  match vfs_lookup v (parent_of canon 256) with
  | None => - CRED_ENOENT
  | Some d =>
      if negb (is_dir (i_type d)) then - CRED_ENOTDIR
      else
        let e := cred_inode_perm c (Some d) (Z.lor MAY_WRITE MAY_EXEC) in
        if negb (e =? 0) then e
        else if cred_is_root c then 0
        else
          let dmode := cred_inode_mode (Some d) in
          match vfs_lookup v canon with
          | None => - CRED_ENOENT
          | Some x =>
              let me := match c with Some p => euid (cp_cred p) | None => 0 end in
              if flag dmode S_ISVTX_ && negb (i_uid x =? me) && negb (i_uid d =? me) then - CRED_EPERM else 0
          end
  end.

(** Owner, group and set-gid inheritance of a new entry. *)
Definition cred_new_owner (v : V) (c : option cproc) (parent_canon : list Z) : Z * Z * bool :=
  let uid := match c with Some p => if cred_is_kernel c then 0 else euid (cp_cred p) | None => 0 end in
  let gid := match c with Some p => if cred_is_kernel c then 0 else egid (cp_cred p) | None => 0 end in
  match vfs_lookup v parent_canon with
  | Some d => if flag (cred_inode_mode (Some d)) S_ISGID_ then (uid, i_gid d, true) else (uid, gid, false)
  | None => (uid, gid, false)
  end.

(** The mode a new entry gets. *)
Definition new_mode (c : option cproc) (mode : Z) (isdir : bool) (gid : Z) (sg : bool) : Z :=
  let um := match c with Some p => cp_umask p | None => 0x12 end in
  let want := Z.land (Z.land (if negb (mode =? 0) then mode else if isdir then 0x1FF else 0x1B6) MODE_ALL) (not32 um) in
  let want := if sg && isdir then Z.lor want S_ISGID_ else want in
  if negb isdir && flag want S_ISGID_ && negb (cred_is_root c) && negb (cred_in_group c gid) then Z.land want (not32 S_ISGID_) else want.

Definition cred_apply_new (v : V) (c : option cproc) (canon : list Z) (mode : Z) (isdir : bool) : V :=
  let '(uid, gid, sg) := cred_new_owner v c (parent_of canon 256) in
  let want := new_mode c mode isdir gid sg in
  match vfs_lookup v canon with
  | None => v
  | Some ino =>
      let have := Z.land (cred_inode_mode (Some ino)) MODE_ALL in
      let a := mk_attr want uid gid 0 0 in
      let valid := if negb (have =? want) || (i_mode ino =? 0) then VFS_ATTR_MODE else 0 in
      let valid := if negb (i_uid ino =? uid) then Z.lor valid VFS_ATTR_UID else valid in
      let valid := if negb (i_gid ino =? gid) then Z.lor valid VFS_ATTR_GID else valid in
      if negb (valid =? 0) then (vfs_lsetattr v canon a valid).1 else v
  end.

(** The return value of an attribute change. *)
Definition attr_rc (r : Z) : Z := if r <? 0 then if r =? -1 then -5 else r else 0.

Definition chmod_mode (c : option cproc) (ino : vfs_inode) (mode : Z) : Z :=
  let m := Z.land mode MODE_ALL in
  if negb (cred_is_root c) && flag m S_ISGID_ && negb (is_dir (i_type ino)) && negb (cred_in_group c (i_gid ino))
  then Z.land m (not32 S_ISGID_) else m.

Definition cred_chmod (v : V) (c : option cproc) (canon : list Z) (mode : Z) : V * Z :=
  match vfs_lookup v canon with
  | None => (v, - CRED_ENOENT)
  | Some ino =>
      if negb (cred_is_kernel c) && ro_fs (Some ino) then (v, - CRED_EROFS)
      else if negb (cred_is_owner c (Some ino)) then (v, - CRED_EPERM)
      else let '(v, r) := vfs_lsetattr v canon (mk_attr (chmod_mode c ino mode) 0 0 0 0) VFS_ATTR_MODE in (v, attr_rc r)
  end.

(** What chown decides: an error, nothing to do, or a request to the filesystem. *)
Definition chown_request (c : option cproc) (ino : vfs_inode) (uid gid : Z) : Z + option (vfs_attr * Z) :=
  let ouid := i_uid ino in
  let ogid := i_gid ino in
  let omode := cred_inode_mode (Some ino) in
  let chu := negb (uid =? CRED_UNCHANGED) && negb (uid =? ouid) in
  let chg := negb (gid =? CRED_UNCHANGED) && negb (gid =? ogid) in
  let me := match c with Some p => euid (cp_cred p) | None => 0 end in
  if negb (cred_is_root c) && (chu || chg && (negb (me =? ouid) || negb (cred_in_group c gid)) || negb chg && negb (me =? ouid)) then inl (- CRED_EPERM)
  else
    let mode := Z.land omode MODE_ALL in
    let valid := if negb (uid =? CRED_UNCHANGED) then VFS_ATTR_UID else 0 in
    let valid := if negb (gid =? CRED_UNCHANGED) then Z.lor valid VFS_ATTR_GID else valid in
    if valid =? 0 then inr None
    else if negb (is_dir (i_type ino)) && (chu || chg) && flag omode (Z.lor S_ISUID_ S_ISGID_) then
      let nm := Z.land (Z.land omode MODE_ALL) (not32 S_ISUID_) in
      let nm := if flag omode 0x8 then Z.land nm (not32 S_ISGID_) else nm in
      if negb (nm =? mode) then inr (Some (mk_attr nm uid gid 0 0, Z.lor valid VFS_ATTR_MODE))
      else inr (Some (mk_attr mode uid gid 0 0, valid))
    else inr (Some (mk_attr mode uid gid 0 0, valid)).

Definition cred_chown (v : V) (c : option cproc) (canon : list Z) (uid gid : Z) : V * Z :=
  match vfs_lookup v canon with
  | None => (v, - CRED_ENOENT)
  | Some ino =>
      if negb (cred_is_kernel c) && ro_fs (Some ino) then (v, - CRED_EROFS)
      else
        match chown_request c ino uid gid with
        | inl e => (v, e)
        | inr None => (v, 0)
        | inr (Some (a, valid)) => let '(v, r) := vfs_lsetattr v canon a valid in (v, attr_rc r)
        end
  end.

(** [now] is the clock. *)
Definition cred_utimes (now : Z) (v : V) (c : option cproc) (canon : list Z) (at_ mt : Z) : V * Z :=
  match vfs_lookup v canon with
  | None => (v, - CRED_ENOENT)
  | Some ino =>
      if negb (cred_is_kernel c) && ro_fs (Some ino) then (v, - CRED_EROFS)
      else
        let both_now := (at_ =? UTIME_NOW_SENTINEL) && (mt =? UTIME_NOW_SENTINEL) in
        let e := if negb (cred_is_owner c (Some ino)) then
                   if negb both_now then - CRED_EPERM else cred_inode_perm c (Some ino) MAY_WRITE
                 else 0 in
        if negb (e =? 0) then (v, e)
        else
          let at_ := if at_ =? UTIME_NOW_SENTINEL then now else at_ in
          let mt := if mt =? UTIME_NOW_SENTINEL then now else mt in
          let '(v, r) := vfs_lsetattr v canon (mk_attr 0 0 0 at_ mt) (Z.lor VFS_ATTR_ATIME VFS_ATTR_MTIME) in (v, attr_rc r)
  end.

Definition cred_on_root_mount (v : V) (canon : list Z) : bool :=
  match vfs_mount_point_for v canon with
  | Some (x :: rest) => (x =? 47) && match rest with [] => true | _ => false end
  | _ => false
  end.
End vfs.

(** ** Other processes *)

Definition cred_may_signal (s : option cproc) (t : option cproc) (sig : Z) : bool :=
  match s, t with
  | Some p, Some q =>
      let a := cp_cred p in
      let b := cp_cred q in
      if cred_is_kernel s then true
      else if euid a =? 0 then true
      else if (euid a =? ruid b) || (euid a =? suid b) || (ruid a =? ruid b) || (ruid a =? suid b) then true
      else (sig =? 18) && (cp_sid p =? cp_sid q)
  | _, _ => true
  end.

Definition cred_may_inspect (c : option cproc) (t : option cproc) : bool :=
  match c, t with
  | Some p, Some q =>
      if cred_is_root c then true
      else
        let u := euid (cp_cred p) in
        let g := egid (cp_cred p) in
        let b := cp_cred q in
        (ruid b =? u) && (euid b =? u) && (suid b =? u) && (rgid b =? g) && (egid b =? g) && (sgid b =? g)
  | _, _ => true
  end.

(** ** Set-id execution *)

Definition set_euid (c : proc_cred) x := mk_cred (ruid c) x (suid c) (rgid c) (egid c) (sgid c) (ngroups c) (groups c).
Definition set_egid (c : proc_cred) x := mk_cred (ruid c) (euid c) (suid c) (rgid c) x (sgid c) (ngroups c) (groups c).
Definition set_uids (c : proc_cred) r e s := mk_cred r e s (rgid c) (egid c) (sgid c) (ngroups c) (groups c).
Definition set_gids (c : proc_cred) r e s := mk_cred (ruid c) (euid c) (suid c) r e s (ngroups c) (groups c).
Definition set_groups (c : proc_cred) n g := mk_cred (ruid c) (euid c) (suid c) (rgid c) (egid c) (sgid c) n g.

(** The file asks for it: set-uid, or set-gid with group execute. *)
Definition wants_setid (fmode : Z) : bool := flag fmode S_ISUID_ || flag fmode S_ISGID_ && flag fmode 0x8.

(** The new credentials and whether the effective ids changed. *)
Definition cred_exec_setid (cr : proc_cred) (fmode fuid fgid : Z) (allowed : bool) : proc_cred * bool :=
  let oe := euid cr in
  let og := egid cr in
  let cr1 :=
    if wants_setid fmode && allowed then
      let x := if flag fmode S_ISUID_ then set_euid cr fuid else cr in
      if flag fmode S_ISGID_ && flag fmode 0x8 then set_egid x fgid else x
    else cr in
  let cr2 := mk_cred (ruid cr1) (euid cr1) (euid cr1) (rgid cr1) (egid cr1) (egid cr1) (ngroups cr1) (groups cr1) in
  (cr2, negb (euid cr2 =? oe) || negb (egid cr2 =? og)).

(** ** The id system calls *)

Definition SYS_GETUID : Z := 100.
Definition SYS_GETEUID : Z := 101.
Definition SYS_GETGID : Z := 102.
Definition SYS_GETEGID : Z := 103.
Definition SYS_SETUID : Z := 104.
Definition SYS_SETGID : Z := 105.
Definition SYS_SETRESUID : Z := 106.
Definition SYS_SETRESGID : Z := 107.
Definition SYS_GETGROUPS : Z := 108.
Definition SYS_SETGROUPS : Z := 109.

Definition is_one_of (v : Z) (set : list Z) : bool := (v =? set.[0]) || (v =? set.[1]) || (v =? set.[2]).

Definition set_res (ids : list Z) (r e s : Z) (priv : bool) : list Z * Z :=
  if negb priv && (negb (r =? CRED_UNCHANGED) && negb (is_one_of r ids)
                   || negb (e =? CRED_UNCHANGED) && negb (is_one_of e ids)
                   || negb (s =? CRED_UNCHANGED) && negb (is_one_of s ids))
  then (ids, - CRED_EPERM)
  else
    let ids := if negb (r =? CRED_UNCHANGED) then ids.[0 <- r] else ids in
    let ids := if negb (e =? CRED_UNCHANGED) then ids.[1 <- e] else ids in
    let ids := if negb (s =? CRED_UNCHANGED) then ids.[2 <- s] else ids in
    (ids, 0).

(** User memory: [uput a l] says whether the words [l] can be stored at [a],
    [uget a n] gives [n] words at [a] if they can be read. *)
Record user_mem := mk_user {
  uput : Z → list Z → bool;
  uget : Z → Z → option (list Z)
}.

(** The new credentials and the value returned; [None] is no current process. *)
Definition cred_syscall (u : user_mem) (c : option proc_cred) (num a0 a1 a2 : Z) : option proc_cred * Z :=
  match c with
  | None => (None, - CRED_EINVAL)
  | Some cr =>
      let priv := euid cr =? 0 in
      if (num =? SYS_GETUID) || (num =? SYS_GETGID) then
        let v := if num =? SYS_GETUID then [ruid cr; euid cr; suid cr] else [rgid cr; egid cr; sgid cr] in
        if negb (a0 =? 0) && negb (uput u a0 v) then (Some cr, - CRED_EFAULT) else (Some cr, v.[0])
      else if num =? SYS_GETEUID then (Some cr, euid cr)
      else if num =? SYS_GETEGID then (Some cr, egid cr)
      else if num =? SYS_SETUID then
        let x := u32 a0 in
        if x =? CRED_UNCHANGED then (Some cr, - CRED_EINVAL)
        else if priv then (Some (set_uids cr x x x), 0)
        else if (x =? ruid cr) || (x =? suid cr) then (Some (set_euid cr x), 0)
        else (Some cr, - CRED_EPERM)
      else if num =? SYS_SETGID then
        let x := u32 a0 in
        if x =? CRED_UNCHANGED then (Some cr, - CRED_EINVAL)
        else if priv then (Some (set_gids cr x x x), 0)
        else if (x =? rgid cr) || (x =? sgid cr) then (Some (set_egid cr x), 0)
        else (Some cr, - CRED_EPERM)
      else if num =? SYS_SETRESUID then
        let '(ids, r) := set_res [ruid cr; euid cr; suid cr] (u32 a0) (u32 a1) (u32 a2) priv in
        (Some (if r =? 0 then set_uids cr ids.[0] ids.[1] ids.[2] else cr), r)
      else if num =? SYS_SETRESGID then
        let '(ids, r) := set_res [rgid cr; egid cr; sgid cr] (u32 a0) (u32 a1) (u32 a2) priv in
        (Some (if r =? 0 then set_gids cr ids.[0] ids.[1] ids.[2] else cr), r)
      else if num =? SYS_GETGROUPS then
        let n := s64 a0 in
        if n <? 0 then (Some cr, - CRED_EINVAL)
        else if n =? 0 then (Some cr, ngroups cr)
        else if n <? ngroups cr then (Some cr, - CRED_EINVAL)
        else if negb (ngroups cr =? 0) && negb (uput u a1 (take (Z.to_nat (ngroups cr)) (groups cr))) then (Some cr, - CRED_EFAULT)
        else (Some cr, ngroups cr)
      else if num =? SYS_SETGROUPS then
        let n := s64 a0 in
        if negb priv then (Some cr, - CRED_EPERM)
        else if (n <? 0) || (CRED_NGROUPS <? n) then (Some cr, - CRED_EINVAL)
        else
          match (if negb (n =? 0) then uget u a1 n else Some []) with
          | None => (Some cr, - CRED_EFAULT)
          | Some g => (Some (set_groups cr n (zfor (Z.to_nat n) 0 (λ i gs, gs.[i <- g.[i]]) (groups cr))), 0)
          end
      else (Some cr, -38)
  end.

(** ** Permissions, bit by bit *)

Lemma seven_bit i : 0 ≤ i → Z.testbit 7 i = (i <? 3).
Proof. intros Hi. change 7 with (Z.ones 3). destruct (Z.ltb_spec i 3); [apply Z.ones_spec_low; lia|apply Z.ones_spec_high; lia]. Qed.

Lemma mask_incl b mask : (Z.land (Z.land b 7) (Z.land mask 7) =? Z.land mask 7) = true ↔
  ∀ k, 0 ≤ k < 3 → Z.testbit mask k = true → Z.testbit b k = true.
Proof.
  rewrite Z.eqb_eq. split.
  - intros E k Hk Hm. assert (H : Z.testbit (Z.land (Z.land b 7) (Z.land mask 7)) k = Z.testbit (Z.land mask 7) k) by (by rewrite E).
    rewrite !Z.land_spec, seven_bit, Hm in H by lia. rewrite (proj2 (Z.ltb_lt k 3)) in H by lia. by rewrite !andb_true_r in H.
  - intros H. apply Z.bits_inj'. intros k Hk. rewrite !Z.land_spec, seven_bit by lia. destruct (Z.ltb_spec k 3); [|by rewrite !andb_false_r].
    rewrite !andb_true_r. destruct (Z.testbit mask k) eqn:E; [|by rewrite andb_false_r]. by rewrite (H k ltac:(lia) E).
Qed.

(** The class of a user for a file: owner 2, group 1, others 0. *)
Definition dac_class (uid gid : Z) (cr : proc_cred) (ino : vfs_inode) : Z :=
  if uid =? i_uid ino then 2 else if in_group_ids cr gid (i_gid ino) then 1 else 0.

(** What a user other than root may do: each right asked for is set in the
    triple of the class. *)
Definition dac_allows (uid gid : Z) (cr : proc_cred) (ino : vfs_inode) (mask : Z) : Prop :=
  ∀ k, 0 ≤ k < 3 → Z.testbit mask k = true → Z.testbit (cred_inode_mode (Some ino)) (k + 3 * dac_class uid gid cr ino) = true.

Lemma perm_ids_spec uid gid cr ino mask : uid ≠ 0 →
  (perm_ids uid gid cr ino mask = 0 ↔ dac_allows uid gid cr ino mask) ∧ (perm_ids uid gid cr ino mask = 0 ∨ perm_ids uid gid cr ino mask = - CRED_EACCES).
Proof.
  intros Hu. unfold perm_ids, dac_allows, dac_class. rewrite (proj2 (Z.eqb_neq uid 0)) by done. set (m := cred_inode_mode (Some ino)).
  set (bits := if uid =? i_uid ino then _ else _). set (cls := if uid =? i_uid ino then 2 else _).
  assert (Eb : bits = Z.land (Z.shiftr m (3 * cls)) 7) by (unfold bits, cls; repeat split_if; done). rewrite Eb.
  split; [|split_if; auto]. assert (Hc : 0 ≤ cls) by (unfold cls; repeat split_if; lia). clearbody bits cls m.
  pose proof (mask_incl (Z.shiftr m (3 * cls)) mask) as Hm. destruct (_ =? _).
  - split; [|done]. intros _ k Hk Hb. rewrite <- Z.shiftr_spec by lia. by apply (proj1 Hm eq_refl).
  - split; [done|]. intros H. assert (false = true); [|done]. apply Hm. intros k Hk Hb. rewrite Z.shiftr_spec by lia. by apply H.
Qed.

Lemma in_group_spec cr e g : zlen (groups cr) = CRED_NGROUPS → 0 ≤ ngroups cr ≤ CRED_NGROUPS →
  in_group_ids cr e g = true ↔ e = g ∨ g ∈ take (Z.to_nat (ngroups cr)) (groups cr).
Proof.
  intros Hl Hn. unfold in_group_ids. rewrite orb_true_iff, Z.eqb_eq, existsb_exists. rewrite Z.min_l by lia. split.
  - intros [?|(x & Hx & ->%Z.eqb_eq)]; [by left|right; by apply list_elem_of_In].
  - intros [?|Hg]; [by left|right]. exists g. split; [by apply list_elem_of_In|apply Z.eqb_refl].
Qed.

(** ** Properties *)


(** [set_res] without privilege: the ids stay within those there were. *)
Lemma set_res_spec a b c r e s ids' rc : set_res [a; b; c] r e s false = (ids', rc) →
  (∀ x, x ∈ ids' → x ∈ [a; b; c]) ∧ length ids' = 3%nat ∧ (rc = 0 ∨ rc = - CRED_EPERM ∧ ids' = [a; b; c]).
Proof.
  unfold set_res. cbn [negb andb].
  assert (Hone : ∀ x, is_one_of x [a; b; c] = true → x ∈ [a; b; c]).
  { intros x. unfold is_one_of. change ([a; b; c].[0]) with a. change ([a; b; c].[1]) with b. change ([a; b; c].[2]) with c. rewrite !orb_true_iff, !Z.eqb_eq. set_solver. }
  destruct (_ || _) eqn:E; [intros [= <- <-]; auto|]. zbool. intros [= <- <-]. split_and!; [|repeat split_if; done|by left].
  assert (Hset : ∀ l i x, (∀ y, y ∈ l → y ∈ [a; b; c]) → x ∈ [a; b; c] → ∀ y, y ∈ l.[i <- x] → y ∈ [a; b; c]).
  { intros l i x Hl Hx y [k Hk]%list_elem_of_lookup. unfold aset in Hk. destruct (decide (k = Z.to_nat i)) as [->|Hne].
    - destruct (decide (Z.to_nat i < length l)%nat); [rewrite list_lookup_insert_eq in Hk by done; by injection Hk as <-|].
      rewrite list_insert_ge in Hk by lia. apply Hl, list_elem_of_lookup. eauto.
    - rewrite list_lookup_insert_ne in Hk by done. apply Hl, list_elem_of_lookup. eauto. }
  assert (Hstep : ∀ l i x, (∀ y, y ∈ l → y ∈ [a; b; c]) → negb (x =? CRED_UNCHANGED) = false ∨ negb (is_one_of x [a; b; c]) = false →
    ∀ y, y ∈ (if negb (x =? CRED_UNCHANGED) then l.[i <- x] else l) → y ∈ [a; b; c]).
  { intros l i x Hl [-> |Hx]; [done|]. apply negb_false_iff in Hx. destruct (x =? CRED_UNCHANGED); cbn [negb]; [done|]. exact (Hset l i x Hl (Hone x Hx)). }
  by do 3 (apply Hstep; [|done]).
Qed.

(** The result of a call that keeps the credentials within [cr]. *)
Definition within (cr cr' : proc_cred) (r : Z) : Prop :=
  (∀ x, x ∈ [ruid cr'; euid cr'; suid cr'] → x ∈ [ruid cr; euid cr; suid cr]) ∧
  (∀ x, x ∈ [rgid cr'; egid cr'; sgid cr'] → x ∈ [rgid cr; egid cr; sgid cr]) ∧
  ngroups cr' = ngroups cr ∧ groups cr' = groups cr ∧ (r < 0 → cr' = cr).

Lemma within_same cr r : within cr cr r.
Proof. by split_and!. Qed.

Lemma ids_of (l : list Z) : length l = 3%nat → l = [l.[0]; l.[1]; l.[2]].
Proof. destruct l as [|x l]; [done|]. destruct l as [|y l]; [done|]. destruct l as [|z l]; [done|]. by destruct l. Qed.

Lemma cred_syscall_within u cr num a0 a1 a2 cr' r : euid cr ≠ 0 → cred_syscall u (Some cr) num a0 a1 a2 = (Some cr', r) → within cr cr' r.
Proof.
  intros He. unfold cred_syscall. rewrite (proj2 (Z.eqb_neq (euid cr) 0)) by done. cbn [negb].
  assert (Hsame : ∀ x, (Some cr, x) = (Some cr', r) → within cr cr' r) by (intros x [= <- _]; apply within_same).
  destruct (_ || _); [repeat split_if; apply Hsame|].
  do 2 (destruct (num =? _); [apply Hsame|]).
  destruct (num =? SYS_SETUID).
  { split_if; [apply Hsame|]. split_if; [|apply Hsame]. zbool. intros [= <- <-].
    split_and!; cbn; try done. intros x. rewrite !elem_of_cons, elem_of_nil. naive_solver lia. }
  destruct (num =? SYS_SETGID).
  { split_if; [apply Hsame|]. split_if; [|apply Hsame]. zbool. intros [= <- <-].
    split_and!; cbn; try done. intros x. rewrite !elem_of_cons, elem_of_nil. naive_solver lia. }
  destruct (num =? SYS_SETRESUID).
  { destruct (set_res _ _ _ _ _) as [ids rc] eqn:E. apply set_res_spec in E as (H1 & H2 & H3). intros [= <- <-].
    destruct H3 as [-> |[-> ->]]; [|apply within_same]. cbn [Z.eqb]. split_and!; try done. cbn [ruid euid suid set_uids]. by rewrite <- (ids_of ids H2). }
  destruct (num =? SYS_SETRESGID).
  { destruct (set_res _ _ _ _ _) as [ids rc] eqn:E. apply set_res_spec in E as (H1 & H2 & H3). intros [= <- <-].
    destruct H3 as [-> |[-> ->]]; [|apply within_same]. cbn [Z.eqb]. split_and!; try done. cbn [rgid egid sgid set_gids]. by rewrite <- (ids_of ids H2). }
  destruct (num =? SYS_GETGROUPS); [repeat split_if; apply Hsame|].
  destruct (num =? SYS_SETGROUPS); apply Hsame.
Qed.

(** A process without privilege gains no identity from the id calls: every
    user id and group id it ends up with is one of those it had, its groups
    stay, and a call that fails changes nothing. *)
Theorem cred_syscall_no_gain u cr num a0 a1 a2 cr' r : euid cr ≠ 0 → cred_syscall u (Some cr) num a0 a1 a2 = (Some cr', r) →
  (∀ x, x ∈ [ruid cr'; euid cr'; suid cr'] → x ∈ [ruid cr; euid cr; suid cr]) ∧
  (∀ x, x ∈ [rgid cr'; egid cr'; sgid cr'] → x ∈ [rgid cr; egid cr; sgid cr]) ∧
  ngroups cr' = ngroups cr ∧ groups cr' = groups cr ∧ (r < 0 → cr' = cr).
Proof. exact (cred_syscall_within u cr num a0 a1 a2 cr' r). Qed.

(** *** Changing attributes *)

Lemma mode_bits x i : 0 ≤ i → Z.testbit (Z.land x MODE_ALL) i = Z.testbit x i && (i <? 12).
Proof.
  intros Hi. rewrite Z.land_spec. f_equal. change MODE_ALL with (Z.ones 12).
  destruct (Z.ltb_spec i 12); [apply Z.ones_spec_low; lia|apply Z.ones_spec_high; lia].
Qed.

Lemma clear_bit x j i : 0 ≤ j < 32 → 0 ≤ i < 32 → Z.testbit (Z.land x (not32 (Z.shiftl 1 j))) i = Z.testbit x i && negb (i =? j).
Proof. intros Hj Hi. rewrite Z.land_spec, not32_testbit, Z.shiftl_1_l, Z.pow2_bits_eqb by lia. rewrite (proj2 (Z.ltb_lt i 32)) by lia. cbn [andb]. do 2 f_equal. lia. Qed.

(** The mode of the file after the request. *)
Definition mode_after (ino : vfs_inode) (req : vfs_attr * Z) : Z :=
  if flag req.2 VFS_ATTR_MODE then a_mode req.1 else Z.land (cred_inode_mode (Some ino)) MODE_ALL.

(** The mode chown gives a file whose owner or group changes. *)
Definition chown_mode (omode : Z) : Z :=
  let nm := Z.land (Z.land omode MODE_ALL) (not32 S_ISUID_) in
  if flag omode 0x8 then Z.land nm (not32 S_ISGID_) else nm.

Lemma chown_mode_bits m i : 0 ≤ i < 32 → Z.testbit (chown_mode m) i =
  Z.testbit m i && (i <? 12) && negb (i =? 11) && negb (Z.testbit m 3 && (i =? 10)).
Proof.
  intros Hi. unfold chown_mode. change S_ISUID_ with (Z.shiftl 1 11). change S_ISGID_ with (Z.shiftl 1 10). change 0x8 with (Z.shiftl 1 3). rewrite flag_shiftl by lia.
  destruct (Z.testbit m 3); rewrite ?(clear_bit _ 10), (clear_bit _ 11), mode_bits by lia; [done|by rewrite andb_true_r].
Qed.

Definition changes (ino : vfs_inode) (uid gid : Z) : bool :=
  negb (uid =? CRED_UNCHANGED) && negb (uid =? i_uid ino) || negb (gid =? CRED_UNCHANGED) && negb (gid =? i_gid ino).

Lemma chown_request_spec c ino uid gid a valid : chown_request c ino uid gid = inr (Some (a, valid)) →
  a_uid a = uid ∧ a_gid a = gid ∧ flag valid VFS_ATTR_UID = negb (uid =? CRED_UNCHANGED) ∧ flag valid VFS_ATTR_GID = negb (gid =? CRED_UNCHANGED) ∧
  (mode_after ino (a, valid) = if negb (is_dir (i_type ino)) && changes ino uid gid && flag (cred_inode_mode (Some ino)) (Z.lor S_ISUID_ S_ISGID_)
     then chown_mode (cred_inode_mode (Some ino)) else Z.land (cred_inode_mode (Some ino)) MODE_ALL) ∧
  (cred_is_root c = false → match c with Some p => i_uid ino = euid (cp_cred p) | None => False end ∧
     (uid = CRED_UNCHANGED ∨ uid = i_uid ino) ∧ (gid = CRED_UNCHANGED ∨ gid = i_gid ino ∨ cred_in_group c gid = true)).
Proof.
  unfold chown_request. cbv zeta. fold (chown_mode (cred_inode_mode (Some ino))). set (om := cred_inode_mode (Some ino)).
  set (valid0 := if negb (gid =? CRED_UNCHANGED) then _ else _).
  assert (Hv : ∀ x, x = valid0 ∨ x = Z.lor valid0 VFS_ATTR_MODE → flag x VFS_ATTR_UID = negb (uid =? CRED_UNCHANGED) ∧ flag x VFS_ATTR_GID = negb (gid =? CRED_UNCHANGED)).
  { intros x [-> | ->]; unfold valid0; destruct (uid =? CRED_UNCHANGED), (gid =? CRED_UNCHANGED); by vm_compute. }
  assert (Hm0 : flag valid0 VFS_ATTR_MODE = false ∧ flag (Z.lor valid0 VFS_ATTR_MODE) VFS_ATTR_MODE = true) by (unfold valid0; destruct (uid =? CRED_UNCHANGED), (gid =? CRED_UNCHANGED); by vm_compute).
  clearbody valid0. destruct (negb (cred_is_root c) && _) eqn:Eg; [done|].
  assert (Hpol : cred_is_root c = false → match c with Some p => i_uid ino = euid (cp_cred p) | None => False end ∧
     (uid = CRED_UNCHANGED ∨ uid = i_uid ino) ∧ (gid = CRED_UNCHANGED ∨ gid = i_gid ino ∨ cred_in_group c gid = true)).
  { intros Hr. rewrite Hr in Eg. cbn [negb andb] in Eg. destruct c as [p|]; [|done].
    destruct (Z.eqb_spec uid CRED_UNCHANGED), (Z.eqb_spec uid (i_uid ino)), (Z.eqb_spec gid CRED_UNCHANGED), (Z.eqb_spec gid (i_gid ino)),
      (Z.eqb_spec (euid (cp_cred p)) (i_uid ino)), (cred_in_group (Some p) gid); cbn in Eg; try done; split_and!; auto. }
  destruct (valid0 =? 0); [done|]. fold (changes ino uid gid). unfold mode_after. destruct Hm0 as [Hm0 Hm1].
  destruct (negb (is_dir _) && _ && _); [destruct (Z.eqb_spec (chown_mode om) (Z.land om MODE_ALL)) as [Ee|]; cbn [negb]|]; intros [= <- <-];
    cbn [fst snd a_uid a_gid a_mode]; (destruct (Hv valid0) as [H1 H2]; [by left|]); (destruct (Hv (Z.lor valid0 VFS_ATTR_MODE)) as [H3 H4]; [by right|]); rewrite ?Hm0, ?Hm1; split_and!; auto.
Qed.

(** chown never leaves a privileged program to a new owner: whoever calls
    it, a file that is not a directory and whose owner or group changes loses
    set-user-id, and set-group-id too when it is group-executable, while the
    nine permission bits and the sticky bit stay as they were. *)
Theorem chown_drops_setid c ino uid gid a valid : chown_request c ino uid gid = inr (Some (a, valid)) →
  (is_dir (i_type ino) = false → changes ino uid gid = true →
     Z.testbit (mode_after ino (a, valid)) 11 = false ∧
     (Z.testbit (cred_inode_mode (Some ino)) 3 = true → Z.testbit (mode_after ino (a, valid)) 10 = false)) ∧
  (∀ i, 0 ≤ i < 10 → Z.testbit (mode_after ino (a, valid)) i = Z.testbit (cred_inode_mode (Some ino)) i).
Proof.
  intros (_ & _ & _ & _ & -> & _)%chown_request_spec. set (m := cred_inode_mode (Some ino)).
  assert (Es : flag m (Z.lor S_ISUID_ S_ISGID_) = Z.testbit m 11 || Z.testbit m 10).
  { rewrite <- (flag_shiftl m 11), <- (flag_shiftl m 10) by lia. unfold flag. change (Z.lor S_ISUID_ S_ISGID_) with (Z.lor (Z.shiftl 1 11) (Z.shiftl 1 10)).
    rewrite Z.land_lor_distr_r. destruct (Z.eqb_spec (Z.lor (Z.land m (Z.shiftl 1 11)) (Z.land m (Z.shiftl 1 10))) 0) as [E|E].
    - apply Z.lor_eq_0_iff in E as [-> ->]. done.
    - destruct (Z.eqb_spec (Z.land m (Z.shiftl 1 11)) 0) as [E1|], (Z.eqb_spec (Z.land m (Z.shiftl 1 10)) 0) as [E2|]; try done. by rewrite E1, E2 in E. }
  split.
  - intros Hd Hc. rewrite Hd, Hc, Es. cbn [negb andb]. destruct (Z.testbit m 11) eqn:E11, (Z.testbit m 10) eqn:E10; cbn [orb];
      rewrite ?chown_mode_bits, ?mode_bits, ?E11, ?E10 by lia; (split; [done|]); intros E3; by rewrite ?E3.
  - intros i Hi. destruct (_ && _); [rewrite chown_mode_bits by lia|rewrite mode_bits by lia]; rewrite (proj2 (Z.ltb_lt i 12)) by lia; [|by rewrite andb_true_r].
    rewrite (proj2 (Z.eqb_neq i 11)), (proj2 (Z.eqb_neq i 10)) by lia. by rewrite andb_false_r, !andb_true_r.
Qed.

Section policies.
Context {V : Type} {vfs : Vfs V}.

(** Attributes belong to the owner.  Whatever a user other than root asks of
    chmod or chown, the filesystem is only asked to change a file that user
    owns; never its owner, its group only to one of the user's groups, and no
    set-group-id bit for a group the user is not in. *)
Theorem attributes_by_owner (v : V) p canon mode uid gid ino : cred_is_root (Some p) = false → vfs_lookup v canon = Some ino →
  ((cred_chmod v (Some p) canon mode).1 = v ∨
   i_uid ino = euid (cp_cred p) ∧ ∃ a, (cred_chmod v (Some p) canon mode).1 = (vfs_lsetattr v canon a VFS_ATTR_MODE).1 ∧
     (is_dir (i_type ino) = false → cred_in_group (Some p) (i_gid ino) = false → Z.testbit (a_mode a) 10 = false)) ∧
  ((cred_chown v (Some p) canon uid gid).1 = v ∨
   i_uid ino = euid (cp_cred p) ∧ ∃ a valid, (cred_chown v (Some p) canon uid gid).1 = (vfs_lsetattr v canon a valid).1 ∧
     (flag valid VFS_ATTR_UID = true → a_uid a = i_uid ino) ∧
     (flag valid VFS_ATTR_GID = true → a_gid a = i_gid ino ∨ cred_in_group (Some p) (a_gid a) = true)).
Proof.
  intros Hr Hl. split.
  - unfold cred_chmod. rewrite Hl. destruct (_ && _); [by left|]. unfold cred_is_owner. rewrite Hr.
    destruct (Z.eqb_spec (i_uid ino) (euid (cp_cred p))) as [Ho|]; cbn [negb]; [|by left]. right. split; [done|].
    exists (mk_attr (chmod_mode (Some p) ino mode) 0 0 0 0). split; [by destruct (vfs_lsetattr _ _ _ _)|]. intros Hd Hg. cbn [a_mode]. unfold chmod_mode.
    rewrite Hr, Hd, Hg. cbn [negb andb]. rewrite !andb_true_r. change S_ISGID_ with (Z.shiftl 1 10). rewrite flag_shiftl by lia.
    destruct (Z.testbit (Z.land mode MODE_ALL) 10) eqn:E; [|done]. rewrite clear_bit by lia. apply andb_false_r.
  - unfold cred_chown. rewrite Hl. destruct (_ && _); [by left|]. destruct (chown_request (Some p) ino uid gid) as [e|[[a valid]|]] eqn:E; [by left| |by left].
    apply chown_request_spec in E as (E1 & E2 & E3 & E4 & _ & Hp). destruct (Hp Hr) as (Ho & Hu & Hg). right. split; [done|]. exists a, valid.
    split; [by destruct (vfs_lsetattr _ _ _ _)|]. rewrite E1, E2, E3, E4. split.
    + intros Hn. apply negb_true_iff, Z.eqb_neq in Hn. naive_solver.
    + intros Hn. apply negb_true_iff, Z.eqb_neq in Hn. naive_solver.
Qed.

(** Who may remove an entry: a user other than root exactly when the parent
    is a directory of a writable filesystem that grants write and search, and,
    in a sticky directory, the user owns the entry or the directory. *)
Theorem cred_may_delete_correct (v : V) p canon : cred_is_root (Some p) = false →
  cred_may_delete v (Some p) canon = 0 ↔
  ∃ d x, vfs_lookup v (parent_of canon 256) = Some d ∧ vfs_lookup v canon = Some x ∧ is_dir (i_type d) = true ∧ i_rdonly d = false ∧
    dac_allows (euid (cp_cred p)) (egid (cp_cred p)) (cp_cred p) d 3 ∧
    (Z.testbit (cred_inode_mode (Some d)) 9 = true → i_uid x = euid (cp_cred p) ∨ i_uid d = euid (cp_cred p)).
Proof.
  intros Hr. unfold cred_may_delete. destruct (vfs_lookup v (parent_of canon 256)) as [d|]; [|split; [done|by intros (? & ? & [=] & _)]].
  destruct (is_dir (i_type d)) eqn:Ed; cbn [negb]; [|split; [done|intros (d' & x & [= <-] & _ & ? & _); congruence]]. rewrite Hr.
  pose proof Hr as Hr'. unfold cred_is_root in Hr'. cbn [cred_is_kernel] in Hr'. apply orb_false_iff in Hr' as [Hk He]. apply Z.eqb_neq in He.
  unfold cred_inode_perm. cbn [cred_is_kernel ro_fs]. rewrite Hk. change (flag (Z.lor MAY_WRITE MAY_EXEC) MAY_WRITE) with true. cbn [andb].
  destruct (i_rdonly d) eqn:Ero; [split; [done|intros (d' & x & [= <-] & _ & _ & ? & _); congruence]|]. destruct (perm_ids_spec (euid (cp_cred p)) (egid (cp_cred p)) (cp_cred p) d (Z.lor MAY_WRITE MAY_EXEC) He) as [Hperm Hrc].
  change (Z.lor MAY_WRITE MAY_EXEC) with 3 in *. destruct Hrc as [E|E]; rewrite E in *; cbn [negb Z.eqb].
  2: { split; [done|]. intros (d' & x & [= <-] & _ & _ & _ & Hd & _). by apply Hperm in Hd. }
  destruct (vfs_lookup v canon) as [x|]; [|split; [done|by intros (? & ? & _ & [=] & _)]]. change S_ISVTX_ with (Z.shiftl 1 9). rewrite flag_shiftl by lia.
  destruct (Z.testbit (cred_inode_mode (Some d)) 9) eqn:E9, (Z.eqb_spec (i_uid x) (euid (cp_cred p))), (Z.eqb_spec (i_uid d) (euid (cp_cred p))); cbn [negb andb];
    (split; [|done || (intros (d' & x' & [= <-] & [= <-] & _ & _ & _ & H); destruct (H E9); congruence)]); intros H0; try done;
    exists d, x; (split_and!; [done..|by apply Hperm|]); intros H9; ((by left) || (by right) || congruence).
Qed.
End policies.

(** ** A small filesystem *)

Definition tree := list (list Z * vfs_inode).
Definition tree_find (t : tree) (path : list Z) : option vfs_inode := snd <$> (list_find (λ e, e.1 = path) t ≫= λ x, Some x.2).
#[export] Instance tree_vfs : Vfs tree := {|
  vfs_lookup := tree_find;
  vfs_lsetattr t path a valid :=
    ((λ e, if bool_decide (e.1 = path) then
       (path, mk_inode (i_type e.2) (if flag valid VFS_ATTR_MODE then a_mode a else i_mode e.2)
          (if flag valid VFS_ATTR_UID then a_uid a else i_uid e.2) (if flag valid VFS_ATTR_GID then a_gid a else i_gid e.2) (i_rdonly e.2)) else e) <$> t, 0);
  vfs_walk _ path _ := (0, path);
  vfs_walk_checked _ path _ _ := (0, path);
  vfs_mount_point_for _ _ := Some [47]
|}.

(** A user 1000 with group 100, the sticky directory /tmp and a set-uid file of
    theirs in it. *)
Definition demo_user : cproc := mk_cproc 7 (mk_cred 1000 1000 1000 100 100 100 1 (10 :: replicate 31 0)) 7 0x12.
Definition tmp : list Z := [47; 116; 109; 112].
Definition tmp_f : list Z := [47; 116; 109; 112; 47; 102].
Definition demo_file : vfs_inode := mk_inode VFS_NODE_FILE 0x89E8 1000 100 false.
Definition demo_tree : tree := [(tmp, mk_inode VFS_NODE_DIR 0x43FF 0 0 false); (tmp_f, demo_file)].


Definition no_user : user_mem := mk_user (λ _ _, false) (λ _ _, None).
Lemma cred_syscall_no_gain_witness :
  let cr := mk_cred 1000 1001 1002 100 100 100 0 (replicate 32 0) in
  cred_syscall no_user (Some cr) SYS_SETRESUID 1002 CRED_UNCHANGED 1000 = (Some (set_uids cr 1002 1001 1000), 0) ∧
  ∀ x, x ∈ [1002; 1001; 1000] → x ∈ [1000; 1001; 1002].
Proof.
  cbv zeta. set (cr := mk_cred 1000 1001 1002 100 100 100 0 (replicate 32 0)).
  assert (E : cred_syscall no_user (Some cr) SYS_SETRESUID 1002 CRED_UNCHANGED 1000 = (Some (set_uids cr 1002 1001 1000), 0)) by (vm_compute; reflexivity).
  split; [exact E|]. exact (proj1 (cred_syscall_no_gain no_user cr SYS_SETRESUID 1002 CRED_UNCHANGED 1000 (set_uids cr 1002 1001 1000) 0 ltac:(discriminate) E)).
Defined.

Lemma chown_drops_setid_witness :
  let req := (mk_attr 0x1E8 0 CRED_UNCHANGED 0 0, Z.lor VFS_ATTR_UID VFS_ATTR_MODE) in
  chown_request None demo_file 0 CRED_UNCHANGED = inr (Some req) ∧ Z.testbit (mode_after demo_file req) 11 = false.
Proof.
  cbv zeta. assert (E : chown_request None demo_file 0 CRED_UNCHANGED = inr (Some (mk_attr 0x1E8 0 CRED_UNCHANGED 0 0, Z.lor VFS_ATTR_UID VFS_ATTR_MODE))) by (vm_compute; reflexivity).
  split; [exact E|]. destruct (chown_drops_setid _ _ _ _ _ _ E) as [H _]. apply H; vm_compute; reflexivity.
Defined.

Lemma attributes_by_owner_witness :
  (cred_chown demo_tree (Some demo_user) tmp_f 0 CRED_UNCHANGED).1 = demo_tree ∨
  i_uid demo_file = 1000 ∧ ∃ a valid, (cred_chown demo_tree (Some demo_user) tmp_f 0 CRED_UNCHANGED).1 = (vfs_lsetattr demo_tree tmp_f a valid).1 ∧
    (flag valid VFS_ATTR_UID = true → a_uid a = i_uid demo_file) ∧
    (flag valid VFS_ATTR_GID = true → a_gid a = i_gid demo_file ∨ cred_in_group (Some demo_user) (a_gid a) = true).
Proof. exact (proj2 (attributes_by_owner demo_tree demo_user tmp_f 0 0 CRED_UNCHANGED demo_file eq_refl eq_refl)). Defined.

Lemma cred_may_delete_correct_witness :
  cred_may_delete demo_tree (Some demo_user) tmp_f = 0.
Proof.
  apply (cred_may_delete_correct demo_tree demo_user tmp_f eq_refl).
  exists (mk_inode VFS_NODE_DIR 0x43FF 0 0 false), demo_file. split_and!; try (vm_compute; reflexivity).
  - intros k Hk Hb. assert (k = 0 ∨ k = 1 ∨ k = 2) as [-> |[-> | ->]] by lia; vm_compute; reflexivity.
  - intros _. left. reflexivity.
Defined.
