(* ===== verification/Priv.v ===== *)
(** * Privilege across exec, spawn and fork

    Capabilities ([Cap]) and credentials ([Cred]) together: what [execve],
    [spawn] and [fork] of [src/kernel/syscall.c] and [src/kernel/process.c] do
    to both, and every history of a process and its descendants. *)

From S2P Require Import Prelude Vma Frames Vmm Elf Cap Cred.

(** ** Definitions *)

Record privs := mk_privs {
  pv_caps : caps;
  pv_cred : proc_cred
}.

(** The program file: its manifest, mode, owner, group, and whether it is on
    the root filesystem. *)
Record exec_file := mk_file {
  x_mf : option elf_manifest;
  x_mode : Z;
  x_uid : Z;
  x_gid : Z;
  x_rootfs : bool
}.

Definition process_manifest_setid (p : caps) : bool :=
  match c_manifest p with Some mf => flag (mf_flags mf) MANIFEST_FLAG_SETID | None => false end.

Definition SYS_EXECVE : Z := 60.
Definition setid_nnp : option (list Z) := Some [115; 101; 116; 105; 100; 45; 110; 110; 112].

Definition setid_allowed (a : audit) (p : caps) (fmode : Z) (setid_fs nnp : bool) : audit * bool :=
  let base := setid_fs && process_manifest_setid p in
  let want := flag fmode 0x800 || flag fmode 0x400 && flag fmode 0x8 in
  if want && base && nnp then (cap_audit a (c_pid p) CAP_AUDIT_SETID SYS_EXECVE setid_nnp false, false) else (a, base).

(** The image [f] in a process: the capabilities its manifest gives. *)
Definition load_caps (p : caps) (f : exec_file) : caps :=
  proc_apply_caps (mk_caps (c_pid p) (cap_net p) (cap_enforce p) (cap_mask p) (no_new_privs p) (x_mf f)) (x_mf f).

(** [ksys_execve] of a program that loads. *)
Definition exec_privs (a : audit) (p : privs) (f : exec_file) : audit * privs :=
  let nnp_before := no_new_privs (pv_caps p) in
  let bound := cap_exec_bound (Some (pv_caps p)) in
  let '(a, c) := cap_exec_transition a (load_caps (pv_caps p) f) bound (Some [101; 120; 101; 99; 118; 101]) in
  let '(a, allowed) := setid_allowed a c (x_mode f) (x_rootfs f) nnp_before in
  (a, mk_privs c (cred_exec_setid (pv_cred p) (x_mode f) (x_uid f) (x_gid f) allowed).1).

(** [ksys_spawn_argv]: the child of [caller] ([None]: kernel context), with
    process id [pid]. *)
Definition spawn_privs (a : audit) (caller : option privs) (pid : Z) (f : exec_file) : audit * privs :=
  let c := load_caps (mk_caps pid false false 0 false None) f in
  let '(a, c) := cap_exec_transition a c (cap_exec_bound None) (Some [108; 111; 97; 100]) in
  let bound := cap_exec_bound (pv_caps <$> caller) in
  let '(a, c) := cap_exec_transition a c bound (Some [115; 112; 97; 119; 110]) in
  let cr := match caller with
            | Some sp => if negb (c_pid (pv_caps sp) =? 0) then pv_cred sp else cred_init_root
            | None => cred_init_root
            end in
  let '(a, allowed) := setid_allowed a c (x_mode f) (x_rootfs f) (b_valid bound && b_nnp bound) in
  (a, mk_privs c (cred_exec_setid cr (x_mode f) (x_uid f) (x_gid f) allowed).1).

(** [process_fork]: a copy with a new process id; [mf_ok] says whether there was
    memory for the manifest. *)
Definition fork_privs (p : privs) (pid : Z) (mf_ok : bool) : privs :=
  let c := pv_caps p in
  mk_privs (mk_caps pid (cap_net c) (cap_enforce c) (cap_mask c) (no_new_privs c) (if mf_ok then c_manifest c else None)) (pv_cred p).

(** ** Histories *)

(** From a process to itself after a call, or to a child it makes, where the
    programs executed satisfy [T]. *)
Inductive priv_step (T : exec_file → Prop) : privs → privs → Prop :=
  | ps_exec a p f : T f → priv_step T p (exec_privs a p f).2
  | ps_spawn a p pid f : T f → pid ≠ 0 → priv_step T p (spawn_privs a (Some p) pid f).2
  | ps_fork p pid ok : pid ≠ 0 → priv_step T p (fork_privs p pid ok)
  | ps_prctl p a0 a1 c r : sys_prctl (Some (pv_caps p)) a0 a1 = (Some c, r) → priv_step T p (mk_privs c (pv_cred p))
  | ps_ids u p num a0 a1 a2 cr r : cred_syscall u (Some (pv_cred p)) num a0 a1 a2 = (Some cr, r) → priv_step T p (mk_privs (pv_caps p) cr).

(** ** Facts *)

Lemma transition_fields a p b what : let q := (cap_exec_transition a p b what).2 in c_pid q = c_pid p ∧ c_manifest q = c_manifest p.
Proof. unfold cap_exec_transition. by destruct (_ && _). Qed.

(** A program whose set-id bits the kernel honours. *)
Definition setid_program (f : exec_file) : bool :=
  x_rootfs f && match x_mf f with Some mf => flag (mf_flags mf) MANIFEST_FLAG_SETID | None => false end.

Lemma setid_allowed_spec a c f nnp : c_manifest c = x_mf f → let ok := (setid_allowed a c (x_mode f) (x_rootfs f) nnp).2 in
  (ok = true → setid_program f = true) ∧ (nnp = true → wants_setid (x_mode f) && ok = false).
Proof.
  intros Hm. unfold setid_allowed, setid_program, process_manifest_setid. rewrite Hm. change (flag (x_mode f) 0x800 || _) with (wants_setid (x_mode f)).
  destruct (wants_setid (x_mode f)), (x_rootfs f && _), nnp; done.
Qed.

(** An image started by [p]: the bound on its capabilities and its identity. *)
Record started (p : privs) (f : exec_file) (q : privs) : Prop := {
  sd_caps : ∃ a c what, c_pid c ≠ 0 ∧ pv_caps q = (cap_exec_transition a c (cap_exec_bound (Some (pv_caps p))) what).2;
  sd_cred : ∃ ok, pv_cred q = (cred_exec_setid (pv_cred p) (x_mode f) (x_uid f) (x_gid f) ok).1 ∧
    (ok = true → setid_program f = true) ∧ (no_new_privs (pv_caps p) = true → wants_setid (x_mode f) && ok = false)
}.

Lemma load_caps_fields c f : c_pid (load_caps c f) = c_pid c ∧ c_manifest (load_caps c f) = x_mf f.
Proof. unfold load_caps, proc_apply_caps. by destruct (x_mf f). Qed.

Lemma exec_started a p f : c_pid (pv_caps p) ≠ 0 → started p f (exec_privs a p f).2.
Proof.
  intros Hp. unfold exec_privs. destruct (load_caps_fields (pv_caps p) f) as [Hl1 Hl2]. set (what := Some [101; 120; 101; 99; 118; 101]).
  pose proof (transition_fields a (load_caps (pv_caps p) f) (cap_exec_bound (Some (pv_caps p))) what) as [_ Hm].
  destruct (cap_exec_transition _ _ _ what) as [a1 c] eqn:Et. cbn [snd] in Hm.
  pose proof (setid_allowed_spec a1 c f (no_new_privs (pv_caps p)) (eq_trans Hm Hl2)) as Ha. destruct (setid_allowed _ _ _ _ _) as [a2 ok]. cbn [snd] in *. constructor.
  - exists a, (load_caps (pv_caps p) f), what. split; [by rewrite Hl1|by rewrite Et].
  - exists ok. split_and!; [done|apply Ha..].
Qed.

Lemma spawn_started a p pid f : c_pid (pv_caps p) ≠ 0 → pid ≠ 0 → started p f (spawn_privs a (Some p) pid f).2.
Proof.
  intros Hp Hpid. unfold spawn_privs. change (pv_caps <$> Some p) with (Some (pv_caps p)). set (c0 := load_caps _ f). destruct (load_caps_fields (mk_caps pid false false 0 false None) f) as [Hl1 Hl2]. fold c0 in Hl1, Hl2.
  set (what := Some [115; 112; 97; 119; 110]). pose proof (transition_fields a c0 (cap_exec_bound None) (Some [108; 111; 97; 100])) as [Hp1 Hm1].
  destruct (cap_exec_transition a c0 _ _) as [a1 c1]. cbn [snd] in Hp1, Hm1. set (b := cap_exec_bound (Some (pv_caps p))).
  pose proof (transition_fields a1 c1 b what) as [_ Hm2]. destruct (cap_exec_transition a1 c1 b what) as [a2 c2] eqn:Et. cbn [snd] in Hm2.
  assert (En : b_valid b && b_nnp b = no_new_privs (pv_caps p)) by (unfold b, cap_exec_bound; cbn [b_valid b_nnp]; by rewrite (proj2 (Z.eqb_neq (c_pid (pv_caps p)) 0))).
  rewrite (proj2 (Z.eqb_neq (c_pid (pv_caps p)) 0)) by done. cbn [negb].
  pose proof (setid_allowed_spec a2 c2 f (b_valid b && b_nnp b) (eq_trans Hm2 (eq_trans Hm1 Hl2))) as Ha. destruct (setid_allowed _ _ _ _ _) as [a3 ok]. cbn [snd] in *. constructor.
  - exists a1, c1, what. split; [by rewrite Hp1, Hl1|fold b; by rewrite Et].
  - exists ok. rewrite <- En. split_and!; [done|apply Ha..].
Qed.

(** Set-id execution without a set-id program changes no identity. *)
Lemma exec_setid_within cr fmode fuid fgid ok : wants_setid fmode && ok = false → within cr (cred_exec_setid cr fmode fuid fgid ok).1 0.
Proof.
  intros H. unfold cred_exec_setid. rewrite H. cbn [fst]. split_and!; cbn [ruid euid suid rgid egid sgid ngroups groups]; try done;
    intros x; rewrite !elem_of_cons, elem_of_nil; tauto.
Qed.

(** ** No new privileges *)

Definition uids (p : privs) : list Z := [ruid (pv_cred p); euid (pv_cred p); suid (pv_cred p)].
Definition gids (p : privs) : list Z := [rgid (pv_cred p); egid (pv_cred p); sgid (pv_cred p)].

(** The identities of [q] are among those of [p]. *)
Definition same_user (p q : privs) : Prop :=
  (∀ x, x ∈ uids q → x ∈ uids p) ∧ (∀ x, x ∈ gids q → x ∈ gids p) ∧ groups (pv_cred q) = groups (pv_cred p) ∧ ngroups (pv_cred q) = ngroups (pv_cred p).

(** What [q] may do, [p] may do. *)
Record confined_by (p q : privs) : Prop := {
  cb_pid : c_pid (pv_caps q) ≠ 0;
  cb_nnp : no_new_privs (pv_caps q) = true;
  cb_caps : ∀ i, 0 ≤ i → Z.testbit (cap_effective (Some (pv_caps q))) i = true → Z.testbit (cap_effective (Some (pv_caps p))) i = true;
  cb_enforce : cap_enforce (pv_caps p) = true → cap_enforce (pv_caps q) = true;
  cb_user : 0 ∉ uids p → same_user p q
}.

Lemma same_user_refl p : same_user p p.
Proof. by split_and!. Qed.

Lemma within_user p q r : within (pv_cred p) (pv_cred q) r → same_user p q.
Proof. intros (H1 & H2 & H3 & H4 & _). by split_and!. Qed.

Lemma confined_refl p : c_pid (pv_caps p) ≠ 0 → no_new_privs (pv_caps p) = true → confined_by p p.
Proof. intros. by constructor. Qed.

Lemma confined_trans p q r : confined_by p q → confined_by q r → confined_by p r.
Proof.
  intros [A1 A2 A3 A4 A5] [B1 B2 B3 B4 B5]. constructor; try done; auto. intros H0. destruct (A5 H0) as (U1 & U2 & U3 & U4).
  destruct B5 as (W1 & W2 & W3 & W4); [by intros Hx; apply H0, U1|]. split_and!; [by auto|by auto|congruence|congruence].
Qed.

Lemma started_confined p f q : c_pid (pv_caps p) ≠ 0 → no_new_privs (pv_caps p) = true → started p f q → confined_by p q.
Proof.
  intros Hp Hn [(a & c & what & Hc & E) (ok & Ec & _ & Hset)]. destruct (transition_bound a c (pv_caps p) what Hc Hp Hn) as (T1 & T2 & T3 & T4). rewrite <- E in *. constructor.
  - by rewrite T4.
  - done.
  - intros i Hi. rewrite T1, Z.land_spec. by intros [_ ?]%andb_true_iff.
  - intros He. by rewrite T3, He, orb_true_r.
  - intros _. apply (within_user p q 0). rewrite Ec. by apply exec_setid_within, Hset.
Qed.

Lemma prctl_fields c a0 a1 c' r : sys_prctl (Some c) a0 a1 = (Some c', r) →
  c_pid c' = c_pid c ∧ cap_net c' = cap_net c ∧ cap_enforce c' = cap_enforce c ∧ cap_mask c' = cap_mask c ∧ (no_new_privs c = true → no_new_privs c' = true).
Proof. unfold sys_prctl. repeat split_if; intros [= <- _]; by split_and!. Qed.

(** The capabilities depend on these fields. *)
Lemma effective_fields c c' : c_pid c ≠ 0 → c_pid c' ≠ 0 → cap_net c' = cap_net c → cap_enforce c' = cap_enforce c → cap_mask c' = cap_mask c →
  cap_effective (Some c') = cap_effective (Some c).
Proof. intros H0 H1 H2 H3 H4. unfold cap_effective. by rewrite (proj2 (Z.eqb_neq _ 0) H0), (proj2 (Z.eqb_neq _ 0) H1), H2, H3, H4. Qed.

Lemma step_confined T p q : c_pid (pv_caps p) ≠ 0 → no_new_privs (pv_caps p) = true → priv_step T p q → confined_by p q.
Proof.
  intros Hp Hn. destruct 1 as [a p f _|a p pid f _ Hpid|p pid ok Hpid|p a0 a1 c r E|u p num a0 a1 a2 cr r E].
  - by apply (started_confined p f), exec_started.
  - by apply (started_confined p f), spawn_started.
  - constructor; cbn [fork_privs pv_caps c_pid no_new_privs cap_enforce]; try done.
    intros i Hi. by rewrite (effective_fields (pv_caps p)).
  - apply prctl_fields in E as (E1 & E2 & E3 & E4 & E5). constructor; cbn [pv_caps]; [by rewrite E1|auto| |by rewrite E3|done].
    intros i Hi. rewrite (effective_fields (pv_caps p)); [done|done|by rewrite E1|done..].
  - constructor; cbn [pv_caps]; try done. intros H0. apply (within_user p _ r). apply (cred_syscall_within u _ num a0 a1 a2); [|exact E].
    intros He. apply H0. unfold uids. rewrite He. right. left.
Qed.

(** ** Properties *)

(** C26. No new privileges is a one-way door.  Once a process has
    [no_new_privs], no sequence of execve, spawn, fork, prctl and id calls by it
    or its descendants, whatever programs they run, ever holds a capability it
    did not hold, leaves confinement, or clears the bit; and if it held no root
    id, all ids and groups stay among its own. *)
Theorem no_new_privs_confines T p q : c_pid (pv_caps p) ≠ 0 → no_new_privs (pv_caps p) = true → rtc (priv_step T) p q →
  no_new_privs (pv_caps q) = true ∧
  (∀ i, 0 ≤ i → Z.testbit (cap_effective (Some (pv_caps q))) i = true → Z.testbit (cap_effective (Some (pv_caps p))) i = true) ∧
  (cap_enforce (pv_caps p) = true → cap_enforce (pv_caps q) = true) ∧ (0 ∉ uids p → same_user p q).
Proof.
  intros Hp Hn Hr. assert (H : confined_by p q); [|destruct H; by split_and!].
  induction Hr as [p|p q r Hs _ IH]; [by apply confined_refl|]. pose proof (step_confined T p q Hp Hn Hs) as Hc.
  apply (confined_trans p q r Hc). destruct Hc. by apply IH.
Qed.

Lemma setid_uids cr f ok : let cr' := (cred_exec_setid cr (x_mode f) (x_uid f) (x_gid f) ok).1 in
  ruid cr' = ruid cr ∧ suid cr' = euid cr' ∧ (euid cr' = euid cr ∨ ok = true ∧ flag (x_mode f) S_ISUID_ = true ∧ euid cr' = x_uid f).
Proof.
  unfold cred_exec_setid. cbn [fst]. unfold wants_setid. destruct (flag (x_mode f) S_ISUID_) eqn:E1, (flag (x_mode f) S_ISGID_), (flag (x_mode f) 0x8), ok; cbn; auto 10.
Qed.

(** C27. Root is reached only through a set-user-id program of root's that is on
    the root filesystem and signed for it.  A process that holds no root id, and
    every descendant, however they execute, spawn, fork and change ids, holds no
    root id as long as no such program is run. *)
Theorem root_needs_setid_program p q :
  c_pid (pv_caps p) ≠ 0 → 0 ∉ uids p →
  rtc (priv_step (λ f, ¬ (setid_program f = true ∧ flag (x_mode f) S_ISUID_ = true ∧ x_uid f = 0))) p q → 0 ∉ uids q.
Proof.
  intros Hp H0 Hr. induction Hr as [p|p q r Hs _ IH]; [done|].
  assert (H : c_pid (pv_caps q) ≠ 0 ∧ 0 ∉ uids q); [|destruct H; by apply IH].
  assert (Hstart : ∀ f q, ¬ (setid_program f = true ∧ flag (x_mode f) S_ISUID_ = true ∧ x_uid f = 0) → started p f q → c_pid (pv_caps q) ≠ 0 ∧ 0 ∉ uids q).
  { intros f q' HT [(a & c & what & Hc & E) (ok & Ec & Hok & _)]. split; [rewrite E; by destruct (transition_fields a c (cap_exec_bound (Some (pv_caps p))) what) as [-> _]|].
    destruct (setid_uids (pv_cred p) f ok) as (E1 & E2 & E3). rewrite <- Ec in *. unfold uids in *. rewrite E1, E2.
    assert (euid (pv_cred q') ≠ 0); [|set_solver]. destruct E3 as [-> |(-> & Hs1 & ->)]; [set_solver|]. intros E0. apply HT. auto. }
  destruct Hs as [a p f HT|a p pid f HT Hpid|p pid ok Hpid|p a0 a1 c r' E|u p num a0 a1 a2 cr r' E].
  - by apply (Hstart f), exec_started.
  - by apply (Hstart f), spawn_started.
  - done.
  - apply prctl_fields in E as (E1 & _). cbn [pv_caps pv_cred]. split; [by rewrite E1|done].
  - split; [done|]. assert (He : euid (pv_cred p) ≠ 0) by (unfold uids in H0; set_solver).
    destruct (cred_syscall_within u _ num a0 a1 a2 cr r' He E) as [Hw _]. intros Hx. by apply H0, Hw.
Qed.

(** ** A confined program *)

(** User 1000, confined to file access and process creation, executes an
    ambient set-uid root program and spawns another. *)
Definition demo_mf (flags : Z) : option elf_manifest := Some (mk_manifest 1 flags 0 0 0 0 0).
Definition demo_privs : privs := mk_privs (mk_caps 5 false true 0x140 true (demo_mf 0x160)) (mk_cred 1000 1000 1000 100 100 100 0 (replicate 32 0)).
Definition demo_su : exec_file := mk_file (demo_mf 0x8010) 0x89ED 0 0 true.
Definition demo_sh : exec_file := mk_file (demo_mf 0x160) 0x81ED 0 0 true.
Definition demo_after : privs := (spawn_privs audit0 (Some (exec_privs audit0 demo_privs demo_su).2) 6 demo_sh).2.

Lemma demo_history : rtc (priv_step (λ _, True)) demo_privs demo_after.
Proof.
  apply (rtc_l _ _ (exec_privs audit0 demo_privs demo_su).2); [by apply ps_exec|]. apply rtc_once. by apply (ps_spawn _ audit0).
Qed.

Lemma no_new_privs_confines_witness :
  cap_effective (Some (pv_caps demo_after)) = 0x140 ∧ no_new_privs (pv_caps demo_after) = true ∧ same_user demo_privs demo_after.
Proof.
  destruct (no_new_privs_confines (λ _, True) demo_privs demo_after) as (H1 & _ & _ & H2); [discriminate|reflexivity|exact demo_history|].
  split; [vm_compute; reflexivity|]. split; [exact H1|]. apply H2. apply (bool_decide_unpack _). vm_compute. exact I.
Defined.

(** Without [no_new_privs]: a shell that runs a program which is not root's. *)
Definition demo_free : privs := mk_privs (mk_caps 5 false false 0 false None) (mk_cred 1000 1000 1000 100 100 100 0 (replicate 32 0)).
Definition demo_game : exec_file := mk_file (demo_mf 0x8000) 0x89ED 1001 0 true.

Lemma root_needs_setid_program_witness :
  uids (exec_privs audit0 demo_free demo_game).2 = [1000; 1001; 1001] ∧ 0 ∉ uids (exec_privs audit0 demo_free demo_game).2.
Proof.
  split; [vm_compute; reflexivity|]. apply (root_needs_setid_program demo_free); [discriminate|apply (bool_decide_unpack _); vm_compute; exact I|].
  apply rtc_once, ps_exec. intros (_ & _ & H). discriminate H.
Defined.
