(* ===== verification/Ring.v ===== *)
(** * Ring buffers

    A ring of [N] cells read from [head], with [len] of them in use, holds a
    queue: writing behind the last cell appends to it, reading from the head
    takes from it.  Shared by the pipes and the message channels. *)

From S2P Require Import Prelude.

Section ring.
Context (N : Z) (HN : 0 < N).

Definition ring (buf : list Z) (head len : Z) : list Z := (λ i, buf.[(head + i) mod N]) <$> seqZ 0 len.

Lemma ring_length buf head len : 0 ≤ len → zlen (ring buf head len) = len.
Proof. intros. unfold ring. rewrite length_fmap, length_seqZ. lia. Qed.

Lemma seqZ_get n i : 0 ≤ i < n → (seqZ 0 n).[i] = i.
Proof. intros Hi. unfold aget. apply list_lookup_total_correct. rewrite lookup_seqZ. lia. Qed.

Lemma ring_get buf head len i : 0 ≤ i < len → (ring buf head len).[i] = buf.[(head + i) mod N].
Proof. intros Hi. unfold ring. rewrite aget_fmap by (rewrite length_seqZ; lia). by rewrite seqZ_get. Qed.

(** Reading [n] cells. *)
Lemma ring_pop buf head len n : 0 ≤ n ≤ len →
  (λ i, buf.[(head + i) mod N]) <$> seqZ 0 n = take (Z.to_nat n) (ring buf head len) ∧
  ring buf ((head + n) mod N) (len - n) = drop (Z.to_nat n) (ring buf head len).
Proof.
  intros Hn. pose proof (ring_length buf head len ltac:(lia)) as HL. split; apply list_eq_aget.
  - rewrite length_fmap, length_seqZ, length_take. lia.
  - intros i Hi. rewrite length_fmap, length_seqZ in Hi. rewrite aget_fmap by (rewrite length_seqZ; lia). rewrite aget_take, ring_get, seqZ_get by lia. done.
  - rewrite length_drop. pose proof (ring_length buf ((head + n) mod N) (len - n) ltac:(lia)). lia.
  - intros i Hi. rewrite ring_length in Hi by lia. rewrite aget_drop, !ring_get by lia. rewrite Zplus_mod_idemp_l. do 2 f_equal. lia.
Qed.

(** Cells written behind the queue: distinct, and outside it. *)
Lemma ring_cell head i j : 0 ≤ i < N → 0 ≤ j < N → (head + i) mod N = (head + j) mod N → i = j.
Proof.
  intros Hi Hj E. pose proof (Z.div_mod (head + i) N ltac:(lia)) as E1. pose proof (Z.div_mod (head + j) N ltac:(lia)) as E2. rewrite E in E1.
  set (q := (head + i) / N) in *. set (q' := (head + j) / N) in *. set (r := (head + j) mod N) in *. clearbody q q' r.
  assert (H : i - j = N * (q - q')) by nia. destruct (Z.eq_dec q q') as [->|]; [lia|]. nia.
Qed.

Lemma ring_push buf head len data : zlen buf = N → 0 ≤ len → len + zlen data ≤ N →
  let tail := (head + len) mod N in
  let buf' := zfor (length data) 0 (λ i b, b.[(tail + i) mod N <- data.[i]]) buf in
  zlen buf' = N ∧ ring buf' head (len + zlen data) = ring buf head len ++ data.
Proof.
  intros Hb Hl Hfit tail buf'.
  assert (Hinv : zlen buf' = N ∧ (∀ k, 0 ≤ k < len → buf'.[(head + k) mod N] = buf.[(head + k) mod N]) ∧
    (∀ k, 0 ≤ k < zlen data → buf'.[(head + (len + k)) mod N] = data.[k])).
  { unfold buf'. apply (zfor_inv (λ i b, zlen b = N ∧ (∀ k, 0 ≤ k < len → b.[(head + k) mod N] = buf.[(head + k) mod N]) ∧
      (∀ k, 0 ≤ k < i → b.[(head + (len + k)) mod N] = data.[k])) (length data) 0 _ buf).
    - split_and!; try done. lia.
    - intros i b Hi (H1 & H2 & H3). assert (Et : (tail + i) mod N = (head + (len + i)) mod N) by (unfold tail; rewrite Zplus_mod_idemp_l; f_equal; lia).
      rewrite Et. pose proof (Z.mod_pos_bound (head + (len + i)) N HN) as Hr. split_and!.
      + by rewrite aset_length.
      + intros k Hk. pose proof (Z.mod_pos_bound (head + k) N HN). rewrite aget_aset_ne; [by apply H2|lia|lia|]. intros E. apply ring_cell in E; lia.
      + intros k Hk. destruct (decide (k = i)) as [->|Hne]; [apply aget_aset_eq; lia|]. pose proof (Z.mod_pos_bound (head + (len + k)) N HN).
        rewrite aget_aset_ne; [apply H3; lia|lia|lia|]. intros E. apply ring_cell in E; lia. }
  destruct Hinv as (H1 & H2 & H3). split; [done|]. apply list_eq_aget.
  - rewrite length_app. pose proof (ring_length buf' head (len + zlen data) ltac:(lia)). pose proof (ring_length buf head len Hl). lia.
  - intros i Hi. rewrite ring_length in Hi by lia. rewrite ring_get by lia. pose proof (ring_length buf head len Hl) as HL. destruct (decide (i < len)).
    + rewrite aget_app_l, ring_get by lia. apply H2. lia.
    + rewrite aget_app_r by lia. rewrite HL, <- H3 by lia. do 2 f_equal. lia.
Qed.
End ring.
