(* ===== verification/UserCopy.v ===== *)
(** * Crossing the user boundary

    [src/mm/user_copy.c] and the fault-tolerant primitives of
    [src/arch/x86/uaccess.asm].  Memory is one byte function, kernel and user
    addresses alike, as the kernel sees it while the caller's page tables are
    loaded; [fault a] is whether touching [a] still faults after demand paging
    and copy-on-write.  The byte copy stops at the first fault and reports what
    is left. *)

From S2P Require Import Prelude.

(** ** Definitions *)

Definition USER_ADDR_MAX : Z := 0x0000800000000000.
Definition USER_ADDR_MIN : Z := 0x0000000100000000.
Definition EFAULT : Z := 14.
Definition ENAMETOOLONG : Z := 36.

Definition user_range_valid (start len : Z) : bool :=
  if start =? 0 then false
  else if len =? 0 then false
  else if start <? USER_ADDR_MIN then false
  else if USER_ADDR_MAX <=? start then false
  else if USER_ADDR_MAX <? len then false
  else if u64 (start + len) <? start then false
  else if USER_ADDR_MAX <? u64 (start + len) then false
  else true.

(** [__uaccess_copy] from and to user memory: the bytes moved, the count left. *)
Fixpoint uaccess_read (fault : Z → bool) (m : mem) (src : Z) (n : nat) : list Z * Z :=
  match n with
  | O => ([], 0)
  | S n' => if fault src then ([], Z.of_nat n) else let '(l, rest) := uaccess_read fault m (src + 1) n' in (rd8 m src :: l, rest)
  end.
Fixpoint uaccess_write (fault : Z → bool) (m : mem) (dst : Z) (l : list Z) : mem * Z :=
  match l with
  | [] => (m, 0)
  | x :: l' => if fault dst then (m, zlen l) else uaccess_write fault (λ a, if a =? dst then x else m a) (dst + 1) l'
  end.

(** [None] is the error; the destination is then not used by the callers. *)
Definition copy_from_user (fault : Z → bool) (m : mem) (user_src len : Z) : option (list Z) :=
  if negb (user_range_valid user_src len) then None
  else let '(l, rest) := uaccess_read fault m user_src (Z.to_nat len) in if ztrue rest then None else Some l.

Definition copy_to_user (fault : Z → bool) (m : mem) (user_dst : Z) (src : list Z) : mem * Z :=
  if negb (user_range_valid user_dst (zlen src)) then (m, -EFAULT)
  else let '(m, rest) := uaccess_write fault m user_dst src in (m, if ztrue rest then -EFAULT else 0).

(** [__uaccess_strncpy]: the bytes stored (the NUL included when found) and the result. *)
Fixpoint uaccess_strncpy (fault : Z → bool) (m : mem) (usrc : Z) (max : nat) : list Z * Z :=
  match max with
  | O => ([], 0)
  | S max =>
      if fault usrc then ([], -1)
      else
        let c := rd8 m usrc in
        if c =? 0 then ([c], 0)
        else let '(l, n) := uaccess_strncpy fault m (usrc + 1) max in (c :: l, if n <? 0 then n else n + 1)
  end.

Definition strncpy_from_user (fault : Z → bool) (m : mem) (dst : list Z) (s max : Z) : list Z * Z :=
  if max =? 0 then (dst, -ENAMETOOLONG)
  else if (s <? USER_ADDR_MIN) || (USER_ADDR_MAX <=? s) then (dst, -EFAULT)
  else
    let lim := if USER_ADDR_MAX - s <? max then USER_ADDR_MAX - s else max in
    let '(l, n) := uaccess_strncpy fault m s (Z.to_nat lim) in
    let dst := l ++ drop (length l) dst in
    if n <? 0 then (dst, -EFAULT)
    else if n =? lim then (dst.[max - 1 <- 0], if lim <? max then -EFAULT else -ENAMETOOLONG)
    else (dst, n).

(** The exception table: instruction and fixup addresses. *)
Fixpoint uaccess_fixup_lookup (tbl : list (Z * Z)) (rip : Z) : Z :=
  match tbl with
  | [] => 0
  | (insn, fixup) :: tbl => if insn =? rip then fixup else uaccess_fixup_lookup tbl rip
  end.

(** ** The window *)

Definition in_window (a : Z) : Prop := USER_ADDR_MIN ≤ a < USER_ADDR_MAX.

Lemma user_range_spec start len : is_u64 start → is_u64 len →
  user_range_valid start len = true ↔ 0 < len ∧ USER_ADDR_MIN ≤ start ∧ start + len ≤ USER_ADDR_MAX.
Proof.
  intros Hs Hl. unfold user_range_valid, USER_ADDR_MIN, USER_ADDR_MAX in *. split.
  - intros H. repeat (split_if; [done|]). zbool. revert H; uint_lia.
  - intros (H1 & H2 & H3). rewrite u64_small by uint_lia. repeat (split_if; [zbool; uint_lia|]). done.
Qed.

(** Reads and writes stay between the pointer and its length. *)
Lemma uaccess_read_spec fault m n : ∀ src,
  let '(l, rest) := uaccess_read fault m src n in
  zlen l + rest = Z.of_nat n ∧ 0 ≤ rest ∧ (∀ i, 0 ≤ i < zlen l → l.[i] = rd8 m (src + i)) ∧
  (rest = 0 ↔ ∀ i, 0 ≤ i < Z.of_nat n → fault (src + i) = false).
Proof.
  induction n as [|n IH]; intros src; cbn [uaccess_read].
  { split; [cbn; lia|]. split; [lia|]. split; [cbn; lia|]. split; [lia|done]. }
  destruct (fault src) eqn:E.
  { split; [cbn; lia|]. split; [lia|]. split; [cbn; lia|]. split; [lia|]. intros H. specialize (H 0 ltac:(lia)). by rewrite Z.add_0_r, E in H. }
  specialize (IH (src + 1)). destruct (uaccess_read fault m (src + 1) n) as [l rest]. destruct IH as (I1 & I2 & I3 & I4). cbn [length]. split; [lia|]. split; [lia|]. split.
  - intros i Hi. destruct (decide (i = 0)) as [->|]; [by rewrite Z.add_0_r|]. replace (src + i) with (src + 1 + (i - 1)) by lia. rewrite <- I3 by lia.
    unfold aget. by replace (Z.to_nat i) with (S (Z.to_nat (i - 1))) by lia.
  - rewrite I4. split; intros H i Hi.
    + destruct (decide (i = 0)) as [->|]; [by rewrite Z.add_0_r|]. replace (src + i) with (src + 1 + (i - 1)) by lia. apply H. lia.
    + replace (src + 1 + i) with (src + (i + 1)) by lia. apply H. lia.
Qed.

Lemma uaccess_write_spec fault l : ∀ m dst,
  let '(m', rest) := uaccess_write fault m dst l in
  0 ≤ rest ≤ zlen l ∧ (∀ i, 0 ≤ i < zlen l - rest → m' (dst + i) = l.[i]) ∧ (∀ a, ¬ (dst ≤ a < dst + (zlen l - rest)) → m' a = m a) ∧
  (rest = 0 ↔ ∀ i, 0 ≤ i < zlen l → fault (dst + i) = false).
Proof.
  induction l as [|x l IH]; intros m dst; cbn [uaccess_write length].
  { split; [lia|]. split; [lia|]. split; [done|]. split; [lia|done]. }
  destruct (fault dst) eqn:E.
  { split; [lia|]. split; [lia|]. split; [done|]. split; [lia|]. intros H. specialize (H 0 ltac:(lia)). by rewrite Z.add_0_r, E in H. }
  specialize (IH (λ a, if a =? dst then x else m a) (dst + 1)). destruct (uaccess_write fault _ (dst + 1) l) as [m' rest]. destruct IH as (I1 & I2 & I3 & I4). split; [lia|]. split; [|split].
  - intros i Hi. destruct (decide (i = 0)) as [->|]; [rewrite I3 by lia; by rewrite Z.add_0_r, Z.eqb_refl|].
    replace (dst + i) with (dst + 1 + (i - 1)) by lia. rewrite I2 by lia. unfold aget. by replace (Z.to_nat i) with (S (Z.to_nat (i - 1))) by lia.
  - intros a Ha. destruct (decide (a = dst)) as [->|]; [lia|]. rewrite I3 by lia. by rewrite (proj2 (Z.eqb_neq a dst)).
  - rewrite I4. split; intros H i Hi.
    + destruct (decide (i = 0)) as [->|]; [by rewrite Z.add_0_r|]. replace (dst + i) with (dst + 1 + (i - 1)) by lia. apply H. lia.
    + replace (dst + 1 + i) with (dst + (i + 1)) by lia. apply H. lia.
Qed.

(** What [copy_from_user] and [copy_to_user] answer. *)
Lemma copy_from_user_spec fault m src len : is_u64 src → is_u64 len →
  (∀ l, copy_from_user fault m src len = Some l → zlen l = len ∧ ∀ i, 0 ≤ i < len → l.[i] = rd8 m (src + i)) ∧
  (is_Some (copy_from_user fault m src len) ↔
   (0 < len ∧ USER_ADDR_MIN ≤ src ∧ src + len ≤ USER_ADDR_MAX) ∧ ∀ i, 0 ≤ i < len → fault (src + i) = false).
Proof.
  intros Hs Hl. pose proof (user_range_spec src len Hs Hl) as HR. unfold copy_from_user. destruct (user_range_valid src len) eqn:E; cbn [negb].
  2: { split; [done|]. split; [by intros []|]. intros [H%HR _]. congruence. }
  pose proof (proj1 HR eq_refl) as Hr. pose proof (uaccess_read_spec fault m (Z.to_nat len) src) as H. destruct (uaccess_read _ _ _ _) as [l rest]. destruct H as (H1 & H2 & H3 & H4).
  rewrite Z2Nat.id in H1, H4 by lia. unfold ztrue. destruct (Z.eqb_spec rest 0) as [->|Hne]; cbn [negb].
  - split; [intros ? [= <-]; split; [lia|]; intros i Hi; apply H3; lia|]. split; [intros _; split; [done|by apply H4]|done].
  - split; [done|]. split; [by intros []|]. intros [_ H]. by apply H4 in H.
Qed.

Lemma copy_to_user_spec fault m dst l : is_u64 dst → is_u64 (zlen l) →
  let '(m', r) := copy_to_user fault m dst l in
  (∀ a, ¬ in_window a ∨ ¬ (dst ≤ a < dst + zlen l) → m' a = m a) ∧
  (r = 0 ∧ (∀ i, 0 ≤ i < zlen l → m' (dst + i) = l.[i]) ∧ 0 < zlen l ∧ USER_ADDR_MIN ≤ dst ∧ dst + zlen l ≤ USER_ADDR_MAX ∧ (∀ i, 0 ≤ i < zlen l → fault (dst + i) = false) ∨
   r = -EFAULT ∧ ¬ ((0 < zlen l ∧ USER_ADDR_MIN ≤ dst ∧ dst + zlen l ≤ USER_ADDR_MAX) ∧ ∀ i, 0 ≤ i < zlen l → fault (dst + i) = false)).
Proof.
  intros Hs Hl. pose proof (user_range_spec dst (zlen l) Hs Hl) as HR. unfold copy_to_user. destruct (user_range_valid dst (zlen l)) eqn:E; cbn [negb].
  2: { split; [done|]. right. split; [done|]. intros [H%HR _]. congruence. }
  pose proof (proj1 HR eq_refl) as Hr. pose proof (uaccess_write_spec fault l m dst) as H. destruct (uaccess_write _ _ _ _) as [m' rest]. destruct H as (H1 & H2 & H3 & H4).
  split; [intros a Ha; apply H3; unfold in_window in Ha; lia|]. unfold ztrue. destruct (Z.eqb_spec rest 0) as [->|Hne]; cbn [negb].
  - left. rewrite Z.sub_0_r in H2. split_and!; try done; [lia..|]. by apply H4.
  - right. split; [done|]. intros [_ H]. by apply H4 in H.
Qed.

Lemma uaccess_strncpy_spec fault m n : ∀ s,
  let '(l, r) := uaccess_strncpy fault m s n in
  zlen l ≤ Z.of_nat n ∧ (r = -1 ∨ r = Z.of_nat n ∧ zlen l = r ∧ Forall (λ c, c ≠ 0) l ∨
    0 ≤ r < Z.of_nat n ∧ ∃ w, l = w ++ [0] ∧ zlen w = r ∧ Forall (λ c, c ≠ 0) w) ∧ (∀ i, 0 ≤ i < zlen l → l.[i] = rd8 m (s + i)).
Proof.
  induction n as [|n IH]; intros s; cbn [uaccess_strncpy].
  { split; [done|]. split; [right; left; by split_and!|cbn; lia]. }
  destruct (fault s); [split; [cbn; lia|]; split; [by left|cbn; lia]|]. destruct (Z.eqb_spec (rd8 m s) 0) as [E|Hne].
  { split; [cbn; lia|]. split; [right; right; split; [lia|]; exists []; rewrite E; by split_and!|]. cbn [length]. intros i Hi. replace i with 0 by lia. by rewrite Z.add_0_r. }
  specialize (IH (s + 1)). destruct (uaccess_strncpy fault m (s + 1) n) as [l r]. destruct IH as (I1 & I2 & I3). cbn [length]. split; [lia|]. split.
  - destruct I2 as [->|[(-> & I2 & I4)|(I2 & w & -> & I4 & I5)]]; [by left|rewrite (proj2 (Z.ltb_ge (Z.of_nat n) 0)) by lia|rewrite (proj2 (Z.ltb_ge r 0)) by lia].
    + right; left. split_and!; [lia..|]. by constructor.
    + right; right. split; [lia|]. exists (rd8 m s :: w). split_and!; [done|cbn [length]; lia|]. by constructor.
  - intros i Hi. destruct (decide (i = 0)) as [->|]; [by rewrite Z.add_0_r|]. replace (s + i) with (s + 1 + (i - 1)) by lia. rewrite <- I3 by lia.
    unfold aget. by replace (Z.to_nat i) with (S (Z.to_nat (i - 1))) by lia.
Qed.

(** The primitives depend only on the bytes they are given. *)
Lemma uaccess_read_ext fault fault' m m' n : ∀ src, (∀ a, src ≤ a < src + Z.of_nat n → m a = m' a ∧ fault a = fault' a) →
  uaccess_read fault m src n = uaccess_read fault' m' src n.
Proof.
  induction n as [|n IH]; intros src H; [done|]. cbn [uaccess_read]. destruct (H src ltac:(lia)) as [Em Ef]. rewrite Ef, (IH (src + 1)) by (intros; apply H; lia).
  unfold rd8. by rewrite Em.
Qed.
Lemma uaccess_strncpy_ext fault fault' m m' n : ∀ s, (∀ a, s ≤ a < s + Z.of_nat n → m a = m' a ∧ fault a = fault' a) →
  uaccess_strncpy fault m s n = uaccess_strncpy fault' m' s n.
Proof.
  induction n as [|n IH]; intros s H; [done|]. cbn [uaccess_strncpy]. destruct (H s ltac:(lia)) as [Em Ef]. rewrite Ef, (IH (s + 1)) by (intros; apply H; lia).
  unfold rd8. by rewrite Em.
Qed.

(** C30. Whatever pointer and length a system call passes, the kernel's accesses
    on its behalf stay in the user window.  Two machines that agree on the
    window (contents and mappings) give the caller the same bytes and the same
    verdict, so nothing outside the window can be read through
    [copy_from_user] or [strncpy_from_user]; [copy_to_user] changes no byte
    outside it, even when it faults half-way or the range wraps around. *)
Theorem user_copy_confined fault fault' m m' p len dst max data :
  is_u64 p → is_u64 len → is_u64 max → is_u64 (zlen data) →
  (∀ a, in_window a → m a = m' a ∧ fault a = fault' a) →
  copy_from_user fault m p len = copy_from_user fault' m' p len ∧
  strncpy_from_user fault m dst p max = strncpy_from_user fault' m' dst p max ∧
  (∀ a, ¬ in_window a → (copy_to_user fault m p data).1 a = m a).
Proof.
  intros Hp Hl Hm Hd Hag. split_and!.
  - unfold copy_from_user. destruct (user_range_valid p len) eqn:E; [cbn [negb]|done]. apply user_range_spec in E; [|done..].
    rewrite (uaccess_read_ext fault fault' m m'); [done|]. intros a Ha. apply Hag. unfold in_window. lia.
  - unfold strncpy_from_user. destruct (max =? 0); [done|]. destruct (_ || _) eqn:E; [done|]. apply orb_false_iff in E as [E1 E2]. zbool.
    set (lim := if _ <? _ then _ else _). assert (Hlim : 0 ≤ lim ≤ USER_ADDR_MAX - p) by (unfold lim; split_if; zbool; uint_lia). clearbody lim.
    rewrite (uaccess_strncpy_ext fault fault' m m'); [done|]. intros a Ha. apply Hag. unfold in_window. lia.
  - intros a Ha. pose proof (copy_to_user_spec fault m p data Hp Hd) as H. destruct (copy_to_user fault m p data) as [m1 r]. destruct H as [H _]. apply H. by left.
Qed.
Lemma user_copy_confined_witness :
  let m := λ a, if a <? USER_ADDR_MIN then 13 else 65 in
  let m' := λ a, if a <? USER_ADDR_MIN then 66 else 65 in
  copy_from_user (λ _, false) m (USER_ADDR_MIN - 1) 2 = None ∧
  copy_from_user (λ _, false) m (USER_ADDR_MIN + 5) 2 = copy_from_user (λ _, false) m' (USER_ADDR_MIN + 5) 2.
Proof.
  split; [vm_compute; reflexivity|]. refine (proj1 (user_copy_confined (λ _, false) (λ _, false) (λ a, if a <? USER_ADDR_MIN then 13 else 65) (λ a, if a <? USER_ADDR_MIN then 66 else 65)
    (USER_ADDR_MIN + 5) 2 [] 0 [] _ _ _ _ _)); [vm_compute; split; congruence..|].
  intros a [Ha _]. cbv beta. by rewrite (proj2 (Z.ltb_ge a USER_ADDR_MIN) Ha).
Defined.

(** [strncpy_from_user] reports a length only for a complete string: the
    kernel's copy then holds exactly the user's bytes up to a NUL, none of them
    zero, all within the buffer.  Every other outcome is an error. *)
Theorem strncpy_from_user_correct fault m dst s max n d : is_u64 s → is_u64 max → zlen dst = max →
  strncpy_from_user fault m dst s max = (d, n) →
  (0 ≤ n < max ∧ zlen d = max ∧ in_window s ∧ s + n < USER_ADDR_MAX ∧ d.[n] = 0 ∧ ∀ i, 0 ≤ i < n → d.[i] = rd8 m (s + i) ∧ d.[i] ≠ 0) ∨
  n = -EFAULT ∨ n = -ENAMETOOLONG.
Proof.
  intros Hs Hm Hd. unfold strncpy_from_user. destruct (Z.eqb_spec max 0); [intros [= <- <-]; auto|]. destruct (_ || _) eqn:E; [intros [= <- <-]; auto|]. apply orb_false_iff in E as [E1 E2]. zbool.
  set (lim := if _ <? _ then _ else _). assert (Hlim : 0 < lim ≤ max ∧ s + lim ≤ USER_ADDR_MAX) by (unfold lim; split_if; zbool; uint_lia). clearbody lim.
  pose proof (uaccess_strncpy_spec fault m (Z.to_nat lim) s) as H. destruct (uaccess_strncpy _ _ _ _) as [l r]. destruct H as (H1 & H2 & H3). rewrite Z2Nat.id in H1, H2 by lia.
  destruct H2 as [->|[(-> & _)|(Hr & w & -> & Hw & Hf)]]; [intros [= <- <-]; auto|rewrite (proj2 (Z.ltb_ge lim 0)), Z.eqb_refl by lia; intros [= <- <-]; split_if; auto|].
  rewrite (proj2 (Z.ltb_ge r 0)), (proj2 (Z.eqb_neq r lim)) by lia. intros [= <- <-]. left. rewrite length_app in H1, H3. cbn in H1.
  assert (Hg : ∀ i, 0 ≤ i ≤ r → ((w ++ [0]) ++ drop (length (w ++ [0])) dst).[i] = (w ++ [0]).[i]) by (intros; rewrite aget_app_l; [done|rewrite length_app; cbn; lia]).
  split; [lia|]. split; [rewrite length_app, length_drop, length_app; cbn [length]; lia|]. split; [split; lia|]. split; [lia|]. split.
  - rewrite Hg by lia. rewrite aget_app_r by lia. by replace (r - zlen w) with 0 by lia.
  - intros i Hi. rewrite Hg by lia. split; [apply H3; cbn; lia|]. rewrite aget_app_l by lia. rewrite Forall_lookup in Hf. eapply Hf, aget_lookup. lia.
Qed.
Lemma strncpy_from_user_correct_witness :
  let m := λ a, if a =? USER_ADDR_MIN + 2 then 0 else 65 in
  ∃ d, strncpy_from_user (λ _, false) m [9; 9; 9; 9] USER_ADDR_MIN 4 = (d, 2) ∧ d = [65; 65; 0; 9] ∧
  (0 ≤ 2 < 4 ∧ zlen d = 4 ∧ in_window USER_ADDR_MIN ∧ USER_ADDR_MIN + 2 < USER_ADDR_MAX ∧ d.[2] = 0 ∧ (∀ i, 0 ≤ i < 2 → d.[i] = rd8 m (USER_ADDR_MIN + i) ∧ d.[i] ≠ 0) ∨
   2 = -EFAULT ∨ 2 = -ENAMETOOLONG).
Proof.
  cbv zeta. exists [65; 65; 0; 9]. split; [vm_compute; reflexivity|]. split; [done|].
  eapply (strncpy_from_user_correct (λ _, false) _ [9; 9; 9; 9] USER_ADDR_MIN 4); [vm_compute; split; congruence|vm_compute; split; congruence|done|vm_compute; reflexivity].
Defined.
