(* ===== verification/Pipe.v ===== *)
(** * Pipes

    [src/kernel/pipe.c]: a pool of byte rings with reference-counted ends.  An
    operation gives, besides its result, whether it calls [sched_wake_pipe] and
    whether it posts SIGPIPE to the caller.  The pipe lock makes each operation
    one step. *)

From S2P Require Import Prelude Ring UserCopy.

(** ** Definitions *)

Definition PIPE_BUF : Z := 4096.
Definition PIPE_SIZE : Z := PIPE_BUF.
Definition PIPE_MAX : Z := 64.

Record pipe := mk_pipe {
  p_used : bool;
  p_buf : list Z;
  p_head : Z;
  p_len : Z;
  readers : Z;
  writers : Z
}.
#[export] Instance pipe_inhabited : Inhabited pipe := populate (mk_pipe false (replicate 4096 0) 0 0 0 0).

Definition pipe_fresh (p : pipe) : pipe := mk_pipe true (p_buf p) 0 0 1 1.

(** The first unused pipe of the pool. *)
Fixpoint find_unused (l : list pipe) (i : Z) : option Z :=
  match l with
  | [] => None
  | p :: l => if negb (p_used p) then Some i else find_unused l (i + 1)
  end.
Definition pipe_alloc (g_pipes : list pipe) : list pipe * option Z :=
  match find_unused g_pipes 0 with
  | Some i => (g_pipes.[i <- pipe_fresh g_pipes.[i]], Some i)
  | None => (g_pipes, None)
  end.

(** The pipe, the bytes stored in the caller's buffer, the result, the wake-up. *)
Definition pipe_read (p : pipe) (len : Z) : pipe * list Z * Z * bool :=
  if len <=? 0 then (p, [], -1, false)
  else if p_len p =? 0 then (p, [], (if writers p =? 0 then 0 else -2), false)
  else
    let n := if p_len p <? len then p_len p else len in
    let d := (λ i, (p_buf p).[(p_head p + i) mod PIPE_SIZE]) <$> seqZ 0 n in
    (mk_pipe (p_used p) (p_buf p) ((p_head p + n) mod PIPE_SIZE) (p_len p - n) (readers p) (writers p), d, n, true).

(** The pipe, the result, the wake-up, SIGPIPE. *)
Definition pipe_write_mode (p : pipe) (buf : list Z) (atomic : bool) : pipe * Z * bool * bool :=
  let len := zlen buf in
  if len <=? 0 then (p, -1, false, false)
  else if readers p =? 0 then (p, -1, false, true)
  else
    let space := PIPE_SIZE - p_len p in
    if (space =? 0) || atomic && (space <? len) then (p, -2, false, false)
    else
      let n := if space <? len then space else len in
      let tail := (p_head p + p_len p) mod PIPE_SIZE in
      let b := zfor (Z.to_nat n) 0 (λ i b, b.[(tail + i) mod PIPE_SIZE <- buf.[i]]) (p_buf p) in
      (mk_pipe (p_used p) b (p_head p) (p_len p + n) (readers p) (writers p), n, true, false).

Definition pipe_write (p : pipe) (buf : list Z) : pipe * Z * bool * bool := pipe_write_mode p buf (zlen buf <=? PIPE_BUF).
Definition pipe_write_some (p : pipe) (buf : list Z) : pipe * Z * bool * bool := pipe_write_mode p buf false.

Definition set_ends (p : pipe) (used : bool) (r w : Z) : pipe := mk_pipe used (p_buf p) (p_head p) (p_len p) r w.

Definition pipe_ref (p : pipe) (writer : bool) : pipe :=
  if writer then set_ends p (p_used p) (readers p) (writers p + 1) else set_ends p (p_used p) (readers p + 1) (writers p).

Definition pipe_unref (p : pipe) (writer : bool) : pipe * bool :=
  let w := if writer && (0 <? writers p) then writers p - 1 else writers p in
  let r := if negb writer && (0 <? readers p) then readers p - 1 else readers p in
  (set_ends p (if (r =? 0) && (w =? 0) then false else p_used p) r w, true).

Definition pipe_poll (p : pipe) (writer : bool) : Z :=
  if writer then
    if readers p =? 0 then 0x08 else if p_len p <? PIPE_SIZE then 0x04 else 0
  else
    let r := if 0 <? p_len p then 0x01 else 0 in
    if writers p =? 0 then Z.lor r (Z.lor 0x01 0x10) else r.

(** ** The queue *)

Definition contents (p : pipe) : list Z := ring PIPE_SIZE (p_buf p) (p_head p) (p_len p).

Record pipe_wf (p : pipe) : Prop := {
  pw_buf : zlen (p_buf p) = PIPE_SIZE;
  pw_head : 0 ≤ p_head p < PIPE_SIZE;
  pw_len : 0 ≤ p_len p ≤ PIPE_SIZE;
  pw_ends : 0 ≤ readers p ∧ 0 ≤ writers p
}.

Lemma contents_length p : pipe_wf p → zlen (contents p) = p_len p.
Proof. intros [_ _ H _]. apply ring_length. lia. Qed.

(** What an operation may do to the ends and the memory. *)
Lemma pipe_read_spec p len : pipe_wf p → 0 < len →
  let '(p', d, r, wake) := pipe_read p len in
  pipe_wf p' ∧ contents p = d ++ contents p' ∧ readers p' = readers p ∧ writers p' = writers p ∧
  (if p_len p =? 0 then p' = p ∧ d = [] ∧ wake = false ∧ r = (if writers p =? 0 then 0 else -2)
   else wake = true ∧ r = zlen d ∧ r = Z.min len (p_len p)).
Proof.
  intros Hw Hl. pose proof Hw as [W1 W2 W3 W4]. unfold pipe_read. rewrite (proj2 (Z.leb_gt len 0)) by lia. destruct (Z.eqb_spec (p_len p) 0) as [E|Hne]; [by split_and!|].
  set (n := if p_len p <? len then p_len p else len). assert (Hn : n = Z.min len (p_len p)) by (unfold n; split_if; zbool; lia). clearbody n.
  destruct (ring_pop PIPE_SIZE (p_buf p) (p_head p) (p_len p) n ltac:(lia)) as [E1 E2]. fold (contents p) in E1, E2.
  pose proof (contents_length p Hw) as HL. split_and!; try done.
  - constructor; cbn; [done|apply Z.mod_pos_bound; done|lia|done].
  - rewrite E1. unfold contents at 3. cbn [p_buf p_head p_len]. rewrite E2. by rewrite take_drop.
  - rewrite length_fmap, length_seqZ. lia.
Qed.

Lemma pipe_write_spec p buf atomic : pipe_wf p → 0 < zlen buf →
  let '(p', r, wake, sigpipe) := pipe_write_mode p buf atomic in
  pipe_wf p' ∧ readers p' = readers p ∧ writers p' = writers p ∧ contents p' = contents p ++ take (Z.to_nat r) buf ∧
  (if readers p =? 0 then p' = p ∧ r = -1 ∧ wake = false ∧ sigpipe = true
   else sigpipe = false ∧
     (if (p_len p =? PIPE_SIZE) || atomic && (PIPE_SIZE <? p_len p + zlen buf) then p' = p ∧ r = -2 ∧ wake = false
      else wake = true ∧ r = Z.min (zlen buf) (PIPE_SIZE - p_len p) ∧ 0 < r)).
Proof.
  intros Hw Hl. pose proof Hw as [W1 W2 W3 W4]. unfold pipe_write_mode. rewrite (proj2 (Z.leb_gt (zlen buf) 0)) by lia.
  destruct (readers p =? 0) eqn:Er; [cbn; rewrite app_nil_r; by split_and!|].
  replace (PIPE_SIZE - p_len p =? 0) with (p_len p =? PIPE_SIZE) by lia. replace (PIPE_SIZE - p_len p <? zlen buf) with (PIPE_SIZE <? p_len p + zlen buf) by lia.
  destruct (_ || _) eqn:Eb; [cbn; rewrite app_nil_r; by split_and!|]. apply orb_false_iff in Eb as [Eb _]. apply Z.eqb_neq in Eb.
  set (n := if PIPE_SIZE <? _ then _ else _). assert (Hn : n = Z.min (zlen buf) (PIPE_SIZE - p_len p)) by (unfold n; split_if; zbool; lia). clearbody n.
  pose proof (ring_push PIPE_SIZE ltac:(done) (p_buf p) (p_head p) (p_len p) (take (Z.to_nat n) buf) W1 ltac:(lia)) as Hpush.
  rewrite length_take in Hpush. replace (Z.to_nat n `min` length buf)%nat with (Z.to_nat n) in Hpush by lia. rewrite Z2Nat.id in Hpush by lia.
  set (b' := zfor _ _ _ _) in *. specialize (Hpush ltac:(lia)). cbv zeta in Hpush.
  assert (Eb' : b' = zfor (Z.to_nat n) 0 (λ i b, b.[((p_head p + p_len p) mod PIPE_SIZE + i) mod PIPE_SIZE <- (take (Z.to_nat n) buf).[i]]) (p_buf p)).
  { unfold b'. apply (zfor_rel eq); [done|]. intros j x y Hj ->. by rewrite aget_take by lia. }
  rewrite <- Eb' in Hpush. destruct Hpush as [P1 P2]. clearbody b'. split_and!; try done; try lia.
  - constructor; cbn; (done || lia).
Qed.

(** ** Streams *)

Inductive pipe_op :=
  | PRead (len : Z)
  | PWrite (data : list Z)
  | PWriteSome (data : list Z)
  | PRef (writer : bool)
  | PUnref (writer : bool).

(** The pipe, the result, the bytes read, whether blocked tasks are woken. *)
Definition pipe_run (p : pipe) (o : pipe_op) : pipe * Z * list Z * bool :=
  match o with
  | PRead len => let '(p, d, r, wake) := pipe_read p len in (p, r, d, wake)
  | PWrite data => let '(p, r, wake, _) := pipe_write p data in (p, r, [], wake)
  | PWriteSome data => let '(p, r, wake, _) := pipe_write_some p data in (p, r, [], wake)
  | PRef w => (pipe_ref p w, 0, [], false)
  | PUnref w => let '(p, wake) := pipe_unref p w in (p, 0, [], wake)
  end.

(** The bytes an operation put in, given its result. *)
Definition accepted (o : pipe_op) (r : Z) : list Z :=
  match o with PWrite data | PWriteSome data => take (Z.to_nat r) data | _ => [] end.

(** A run: everything written, everything read. *)
Fixpoint pipe_session (p : pipe) (ops : list pipe_op) : pipe * list Z * list Z :=
  match ops with
  | [] => (p, [], [])
  | o :: ops =>
      let '(p1, r, d, _) := pipe_run p o in
      let '(p2, w, rd) := pipe_session p1 ops in
      (p2, accepted o r ++ w, d ++ rd)
  end.

Lemma pipe_read_idle p len : len ≤ 0 → pipe_read p len = (p, [], -1, false).
Proof. intros. unfold pipe_read. by rewrite (proj2 (Z.leb_le len 0)). Qed.
Lemma pipe_write_idle p buf atomic : zlen buf ≤ 0 → pipe_write_mode p buf atomic = (p, -1, false, false).
Proof. intros. unfold pipe_write_mode. by rewrite (proj2 (Z.leb_le (zlen buf) 0)). Qed.

Lemma write_mode_step p data atomic : pipe_wf p →
  let '(p', r, _, _) := pipe_write_mode p data atomic in pipe_wf p' ∧ contents p' = contents p ++ take (Z.to_nat r) data.
Proof.
  intros Hw. destruct (decide (0 < zlen data)) as [Hl|Hl].
  - pose proof (pipe_write_spec p data atomic Hw Hl) as H. destruct (pipe_write_mode p data atomic) as [[[p' r] wk] sg]. naive_solver.
  - rewrite pipe_write_idle by lia. cbn. by rewrite app_nil_r.
Qed.

Lemma pipe_ref_wf p w : pipe_wf p → pipe_wf (pipe_ref p w).
Proof. intros [? ? ? ?]. unfold pipe_ref. destruct w; constructor; cbn; (done || lia). Qed.
Lemma pipe_unref_wf p w : pipe_wf p → pipe_wf (pipe_unref p w).1.
Proof. intros [? ? ? ?]. unfold pipe_unref. constructor; cbn; [done..|]. destruct w; cbn; repeat split_if; zbool; lia. Qed.

Lemma pipe_run_step p o : pipe_wf p →
  let '(p', r, d, _) := pipe_run p o in pipe_wf p' ∧ contents p ++ accepted o r = d ++ contents p'.
Proof.
  intros Hw. destruct o as [len|data|data|w|w]; cbn [pipe_run accepted].
  - destruct (decide (0 < len)) as [Hl|Hl].
    + pose proof (pipe_read_spec p len Hw Hl) as H. destruct (pipe_read p len) as [[[p' d] r] wk]. destruct H as (? & -> & _). by rewrite app_nil_r.
    + rewrite pipe_read_idle by lia. by rewrite app_nil_r.
  - unfold pipe_write. pose proof (write_mode_step p data (zlen data <=? PIPE_BUF) Hw) as H. destruct (pipe_write_mode _ _ _) as [[[p' r] wk] sg]. naive_solver.
  - unfold pipe_write_some. pose proof (write_mode_step p data false Hw) as H. destruct (pipe_write_mode _ _ _) as [[[p' r] wk] sg]. naive_solver.
  - split; [by apply pipe_ref_wf|]. rewrite app_nil_r. by destruct w.
  - pose proof (pipe_unref_wf p w Hw) as H. destruct (pipe_unref p w) as [p' wk] eqn:E. split; [done|]. rewrite app_nil_r. unfold pipe_unref in E. by inversion E.
Qed.

Lemma pipe_session_ok ops : ∀ p, pipe_wf p →
  let '(p', w, rd) := pipe_session p ops in pipe_wf p' ∧ contents p ++ w = rd ++ contents p'.
Proof.
  induction ops as [|o ops IH]; intros p Hw; cbn [pipe_session]; [by rewrite app_nil_r|].
  pose proof (pipe_run_step p o Hw) as H. destruct (pipe_run p o) as [[[p1 r] d] wk]. destruct H as [H1 H2].
  specialize (IH p1 H1). destruct (pipe_session p1 ops) as [[p2 w] rd]. destruct IH as [H3 H4]. split; [done|].
  rewrite (assoc_L (++)), H2, <- !(assoc_L (++)), H4. done.
Qed.

Definition demo_pipe : pipe := pipe_fresh inhabitant.
Lemma demo_pipe_wf : pipe_wf demo_pipe.
Proof. by constructor. Qed.

(** C37. A pipe is a lossless byte stream.  Whatever reads, atomic and
    splitting writes, duplications and closings of its ends happen and in
    whatever order, what the readers got followed by what is still buffered is
    what was buffered followed by exactly the bytes the writes reported as
    accepted, in order, and the ring stays well formed. *)
Theorem pipe_lossless ops p : pipe_wf p →
  let '(p', w, rd) := pipe_session p ops in pipe_wf p' ∧ contents p ++ w = rd ++ contents p'.
Proof. apply pipe_session_ok. Qed.
Lemma pipe_lossless_witness :
  let '(p', w, rd) := pipe_session demo_pipe [PWrite [1; 2; 3]; PRead 2; PWriteSome [4; 5]; PUnref true; PRead 9; PRead 1] in
  w = [1; 2; 3; 4; 5] ∧ rd = [1; 2; 3; 4; 5] ∧ contents demo_pipe ++ w = rd ++ contents p'.
Proof.
  pose proof (pipe_lossless [PWrite [1; 2; 3]; PRead 2; PWriteSome [4; 5]; PUnref true; PRead 9; PRead 1] demo_pipe demo_pipe_wf) as H.
  destruct (pipe_session _ _) as [[p' w] rd] eqn:E. assert (Ew : w = (pipe_session demo_pipe [PWrite [1; 2; 3]; PRead 2; PWriteSome [4; 5]; PUnref true; PRead 9; PRead 1]).1.2) by (by rewrite E).
  assert (Er : rd = (pipe_session demo_pipe [PWrite [1; 2; 3]; PRead 2; PWriteSome [4; 5]; PUnref true; PRead 9; PRead 1]).2) by (by rewrite E).
  split; [rewrite Ew; vm_compute; reflexivity|]. split; [rewrite Er; vm_compute; reflexivity|]. apply H.
Defined.

(** ** write(2) on a pipe

    [ksys_write] on a pipe queues the whole buffer: it stops with -2 when the
    pipe is full, remembers in [pipe_wdone] how far it got, and is run again
    after a wake-up.  [copy_ok done] is whether [copy_from_user] of the chunk at
    [done] succeeds. *)
Definition EPIPE : Z := 32.

Fixpoint write_chunks (fuel : nat) (copy_ok : Z → bool) (p : pipe) (ubuf : list Z) (done : Z) : pipe * Z * Z :=
  match fuel with
  | O => (p, done, 0)
  | S fuel =>
      let len := zlen ubuf in
      if len <=? done then (p, done, 0)
      else
        let want := if len - done <? PIPE_BUF then len - done else PIPE_BUF in
        if negb (copy_ok done) then (p, done, -EFAULT)
        else
          let chunk := take (Z.to_nat want) (drop (Z.to_nat done) ubuf) in
          let '(p, r, _, _) := if len <=? PIPE_BUF then pipe_write p chunk else pipe_write_some p chunk in
          if r =? -2 then (p, done, -2)
          else if r <=? 0 then (p, done, if r =? -1 then -EPIPE else r)
          else write_chunks fuel copy_ok p ubuf (done + r)
  end.

(** The pipe, the caller's [pipe_wdone], the result. *)
Definition ksys_write_pipe (uio_ok : bool) (copy_ok : Z → bool) (p : pipe) (pipe_wdone : Z) (ubuf : list Z) : pipe * Z * Z :=
  let len := zlen ubuf in
  if len <=? 0 then (p, pipe_wdone, -1)
  else
    let done := if (pipe_wdone <? 0) || (len <=? pipe_wdone) then 0 else pipe_wdone in
    if negb uio_ok then (p, 0, if ztrue done then done else -1)
    else
      let '(p, done, err) := write_chunks (length ubuf) copy_ok p ubuf done in
      if err =? -2 then (p, done, -2) else (p, 0, if ztrue done then done else err).

(** [seg] is what lies between positions [a] and [b] of the buffer. *)
Definition between (data : list Z) (a b : Z) (seg : list Z) : Prop :=
  take (Z.to_nat b) data = take (Z.to_nat a) data ++ seg ∧ b = a + zlen seg.

Lemma between_refl data a : between data a a [].
Proof. unfold between. rewrite app_nil_r. cbn. split; [done|lia]. Qed.
Lemma between_trans data a b c s t : between data a b s → between data b c t → between data a c (s ++ t).
Proof. intros [E1 E2] [E3 E4]. unfold between. rewrite E3, E1, (assoc_L (++)), length_app. split; [done|lia]. Qed.
Lemma between_chunk data a w r : 0 ≤ a → 0 ≤ r ≤ w → a + w ≤ zlen data →
  between data a (a + r) (take (Z.to_nat r) (take (Z.to_nat w) (drop (Z.to_nat a) data))).
Proof.
  intros Ha Hr Hw. split.
  - rewrite take_take, Nat.min_l by lia. rewrite Z2Nat.inj_add by lia. by rewrite take_take_drop.
  - rewrite !length_take, length_drop. lia.
Qed.

(** Why a write stops: everything is queued, the chunk does not fit, no reader
    is left, or the user's buffer is not mapped. *)
Definition stopped (copy_ok : Z → bool) (p : pipe) (len done err : Z) : Prop :=
  err = 0 ∧ done = len ∨
  done < len ∧ (err = -2 ∧ 0 < readers p ∧ 0 < p_len p ∨ err = -EPIPE ∧ readers p = 0 ∨ err = -EFAULT ∧ copy_ok done = false).

Lemma write_chunks_spec fuel copy_ok ubuf : ∀ p done, pipe_wf p → 0 ≤ done ≤ zlen ubuf → zlen ubuf - done ≤ Z.of_nat fuel →
  let '(p', done', err) := write_chunks fuel copy_ok p ubuf done in
  pipe_wf p' ∧ readers p' = readers p ∧ done' ≤ zlen ubuf ∧ stopped copy_ok p' (zlen ubuf) done' err ∧
  ∃ seg, between ubuf done done' seg ∧ contents p' = contents p ++ seg.
Proof.
  induction fuel as [|fuel IH]; intros p done Hw Hd Hf; cbn [write_chunks].
  - split_and!; try done; [lia|left; lia|]. exists []. rewrite app_nil_r. split; [apply between_refl|done].
  - destruct (Z.leb_spec (zlen ubuf) done).
    { split_and!; try done; [lia|left; lia|]. exists []. rewrite app_nil_r. split; [apply between_refl|done]. }
    set (want := if _ <? _ then _ else _). assert (Hwant : 0 < want ≤ PIPE_BUF ∧ done + want ≤ zlen ubuf) by (unfold want, PIPE_BUF; split_if; zbool; lia). clearbody want.
    destruct (copy_ok done) eqn:Ec; cbn [negb].
    2: { split_and!; try done; [lia|right; split; [lia|]; auto|]. exists []. rewrite app_nil_r. split; [apply between_refl|done]. }
    set (chunk := take _ _). assert (Hchunk : zlen chunk = want) by (unfold chunk; rewrite length_take, length_drop; lia).
    assert (Hb : ∀ r, 0 ≤ r ≤ want → between ubuf done (done + r) (take (Z.to_nat r) chunk)) by (intros; apply between_chunk; lia).
    set (at_ := if zlen ubuf <=? PIPE_BUF then zlen chunk <=? PIPE_BUF else false).
    replace (if zlen ubuf <=? PIPE_BUF then pipe_write p chunk else pipe_write_some p chunk) with (pipe_write_mode p chunk at_) by (unfold at_; by destruct (zlen ubuf <=? PIPE_BUF)).
    clearbody chunk at_. pose proof (pipe_write_spec p chunk at_ Hw ltac:(lia)) as Hs. pose proof Hw as [W1 W2 W3 W4].
    destruct (pipe_write_mode p chunk at_) as [[[p' r] wk] sg]. destruct Hs as (S1 & S2 & S3 & S4 & S5).
    destruct (Z.eqb_spec (readers p) 0) as [Er|Er].
    { destruct S5 as (-> & -> & _). cbn. split_and!; try done; [lia|right; split; [lia|]; auto|]. exists []. rewrite app_nil_r. split; [apply between_refl|done]. }
    destruct S5 as [_ S5]. destruct (_ || _) eqn:Eb.
    { destruct S5 as (-> & -> & _). cbn. split_and!; try done; [lia| |exists []; rewrite app_nil_r; split; [apply between_refl|done]].
      right. split; [lia|]. left. split_and!; [done|lia|]. apply orb_true_iff in Eb as [Eb|Eb]; zbool; unfold PIPE_SIZE, PIPE_BUF in *; lia. }
    destruct S5 as (_ & Hr & Hr0). rewrite (proj2 (Z.eqb_neq r (-2))), (proj2 (Z.leb_gt r 0)) by lia.
    specialize (IH p' (done + r) S1 ltac:(lia) ltac:(lia)). destruct (write_chunks fuel copy_ok p' ubuf (done + r)) as [[p2 done2] err].
    destruct IH as (I1 & I2 & I3 & I4 & seg & I5 & I6). split_and!; try done; [by rewrite I2|].
    exists (take (Z.to_nat r) chunk ++ seg). split; [by eapply between_trans; [apply Hb; lia|]|]. rewrite I6, S4. by rewrite (assoc_L (++)).
Qed.

Lemma ksys_write_pipe_spec copy_ok p wdone ubuf : pipe_wf p → 0 < readers p → 0 ≤ wdone < zlen ubuf → (∀ d, copy_ok d = true) →
  let '(p', wdone', ret) := ksys_write_pipe true copy_ok p wdone ubuf in
  pipe_wf p' ∧ 0 < readers p' ∧ ∃ done seg, between ubuf wdone done seg ∧ contents p' = contents p ++ seg ∧
  (ret = zlen ubuf ∧ done = zlen ubuf ∨ ret = -2 ∧ wdone' = done ∧ done < zlen ubuf ∧ 0 < p_len p').
Proof.
  intros Hw Hr Hd Hc. unfold ksys_write_pipe. rewrite (proj2 (Z.leb_gt (zlen ubuf) 0)), (proj2 (Z.ltb_ge wdone 0)), (proj2 (Z.leb_gt (zlen ubuf) wdone)) by lia. cbn [orb negb].
  pose proof (write_chunks_spec (length ubuf) copy_ok ubuf p wdone Hw ltac:(lia) ltac:(lia)) as H.
  destruct (write_chunks _ _ _ _ _) as [[p' done] err]. destruct H as (H1 & H2 & H3 & H4 & seg & H5 & H6).
  destruct H4 as [[-> ->]|[Hlt [(-> & ? & ?)|[(_ & ?)|(_ & E)]]]]; [| |lia|by rewrite Hc in E].
  - cbn. unfold ztrue. rewrite (proj2 (Z.eqb_neq (zlen ubuf) 0)) by lia. split_and!; [done|lia|]. exists (zlen ubuf), seg. auto.
  - cbn. split_and!; [done|lia|]. exists done, seg. split_and!; auto 6.
Qed.

(** A writer and a reader taking turns: each time the write blocks, the reader
    takes up to [n] bytes and the write is run again. *)
Fixpoint write_with_reader (p : pipe) (wdone : Z) (ubuf : list Z) (reads : list Z) : pipe * list Z * Z :=
  let '(p, wdone, r) := ksys_write_pipe true (λ _, true) p wdone ubuf in
  if negb (r =? -2) then (p, [], r)
  else match reads with
       | [] => (p, [], r)
       | n :: reads =>
           let '(p, d, _, _) := pipe_read p n in
           let '(p, rd, r) := write_with_reader p wdone ubuf reads in
           (p, d ++ rd, r)
       end.

Lemma between_drop data a b seg : 0 ≤ a → b ≤ zlen data → between data a b seg → drop (Z.to_nat a) data = seg ++ drop (Z.to_nat b) data.
Proof.
  intros Ha Hb [E1 E2]. apply (app_inv_head (take (Z.to_nat a) data)). rewrite take_drop, (assoc_L (++)), <- E1. by rewrite take_drop.
Qed.

Lemma write_with_reader_ok ubuf reads : Forall (λ n, 0 < n) reads → ∀ p wdone,
  pipe_wf p → 0 < readers p → 0 ≤ wdone < zlen ubuf → p_len p + (zlen ubuf - wdone) ≤ zlen reads →
  let '(p', rd, r) := write_with_reader p wdone ubuf reads in
  r = zlen ubuf ∧ pipe_wf p' ∧ contents p ++ drop (Z.to_nat wdone) ubuf = rd ++ contents p'.
Proof.
  induction 1 as [|n reads Hn Hreads IH]; intros p wdone Hw Hr Hd Hm; cbn [write_with_reader].
  all: pose proof (ksys_write_pipe_spec (λ _, true) p wdone ubuf Hw Hr Hd (λ _, eq_refl)) as H; pose proof (contents_length p Hw) as L0.
  { pose proof (pw_len p Hw). cbn in Hm. lia. }
  destruct (ksys_write_pipe _ _ _ _ _) as [[p1 w1] r1]. destruct H as (H1 & H2 & done & seg & H3 & H4 & [[-> ->]|(-> & -> & H5 & H6)]).
  { rewrite (proj2 (Z.eqb_neq (zlen ubuf) (-2))) by lia. cbn. apply between_drop in H3; [|lia..]. rewrite Nat2Z.id, drop_all, app_nil_r in H3. by rewrite H3, H4. }
  change (negb (-2 =? -2)) with false. cbv iota. pose proof (contents_length p1 H1) as L1. pose proof (pipe_read_spec p1 n H1 Hn) as R.
  destruct (pipe_read p1 n) as [[[p2 d] r2] wk]. destruct R as (R1 & R2 & R3 & R4 & R5). rewrite (proj2 (Z.eqb_neq (p_len p1) 0)) in R5 by lia.
  destruct R5 as (_ & R5 & R6). pose proof (contents_length p2 R1) as L2.
  assert (E1 : zlen (contents p1) = p_len p + zlen seg) by (rewrite H4, length_app; lia).
  assert (E2 : zlen (contents p1) = zlen d + p_len p2) by (rewrite R2, length_app; lia).
  pose proof H3 as [_ E3]. cbn [length] in Hm. specialize (IH p2 done R1 ltac:(lia) ltac:(lia) ltac:(lia)).
  destruct (write_with_reader p2 done ubuf reads) as [[p3 rd] r3]. destruct IH as (-> & I2 & I3). split_and!; [done..|].
  rewrite (between_drop ubuf wdone done seg) by (done || lia). rewrite (assoc_L (++)), <- H4, R2, <- !(assoc_L (++)), I3. done.
Qed.

(** C36. A blocking write to a pipe finishes and queues its buffer exactly once.
    As long as there is a reader that takes at least a byte whenever the write
    blocks, the write is re-run at most as often as there are bytes to move,
    returns the full length, and the stream the reader sees is the old
    contents followed by the whole buffer: resuming at [pipe_wdone] neither
    loses nor repeats a byte. *)
Theorem pipe_write_finishes ubuf reads p : pipe_wf p → 0 < readers p → 0 < zlen ubuf →
  Forall (λ n, 0 < n) reads → p_len p + zlen ubuf ≤ zlen reads →
  let '(p', rd, r) := write_with_reader p 0 ubuf reads in r = zlen ubuf ∧ pipe_wf p' ∧ contents p ++ ubuf = rd ++ contents p'.
Proof. intros Hw Hr Hu Hf Hl. by apply (write_with_reader_ok ubuf reads Hf p 0); [| |lia|lia]. Qed.
Lemma pipe_write_finishes_witness :
  let '(p', rd, r) := write_with_reader demo_pipe 0 [1; 2; 3] [1; 1; 5] in r = 3 ∧ contents demo_pipe ++ [1; 2; 3] = rd ++ contents p'.
Proof.
  pose proof (pipe_write_finishes [1; 2; 3] [1; 1; 5] demo_pipe demo_pipe_wf ltac:(done) ltac:(done) ltac:(repeat constructor) ltac:(cbn; lia)) as H.
  destruct (write_with_reader _ _ _ _) as [[p' rd] r]. naive_solver.
Defined.
