(* ===== verification/PipeWake.v ===== *)
(** * Blocking on a pipe

    The protocol between a task that goes to sleep on a pipe, in read, write or
    poll, and the tasks that wake it, over every interleaving of several
    processors.  The actions are the critical sections of the code:
    [syscall_handler_body] takes its snapshot of the wake sequence, a pipe
    operation or [pipe_poll] runs under the pipe lock, [sched_block_current]
    compares and blocks under the process lock, and [sched_wake_pipe] first
    bumps the sequence, then scans the process table under the process lock
    ([src/kernel/syscall_trap.c], [src/kernel/kiface.c], [src/kernel/sched.c]).
    A signal's tear-down of a wait is one action. *)

From S2P Require Import Prelude Ring Pipe.

(** ** Definitions *)

(** poll(2) on one pipe end: the answer of [pipe_poll] against the events asked for. *)
Definition POLLIN : Z := 0x001.
Definition POLLOUT : Z := 0x004.
Definition POLLERR : Z := 0x008.
Definition POLLHUP : Z := 0x010.
Definition POLLNVAL : Z := 0x020.
Definition POLLRDNORM : Z := 0x040.
Definition POLLWRNORM : Z := 0x100.
Definition poll_got (r events : Z) : Z :=
  let want := Z.lor (Z.lor (Z.lor events POLLERR) POLLHUP) POLLNVAL in
  let want := if ztrue (Z.land events POLLRDNORM) then Z.lor want POLLIN else want in
  let want := if ztrue (Z.land events POLLWRNORM) then Z.lor want POLLOUT else want in
  let got := Z.land r want in
  let got := if ztrue (Z.land got POLLIN) && ztrue (Z.land events POLLRDNORM) then Z.lor got POLLRDNORM else got in
  let got := if ztrue (Z.land got POLLOUT) && ztrue (Z.land events POLLWRNORM) then Z.lor got POLLWRNORM else got in
  let got := if negb (ztrue (Z.land events POLLIN)) then Z.land got (Z.lnot POLLIN) else got in
  if negb (ztrue (Z.land events POLLOUT)) then Z.land got (Z.lnot POLLOUT) else got.

(** What a task can wait for: an operation on a pipe, or poll over pipe ends. *)
Record pollfd := mk_pollfd { f_pipe : Z; f_writer : bool; f_events : Z }.
Inductive wop := WPipe (i : Z) (o : pipe_op) | WPoll (fds : list pollfd).

(** Where a task is.  [Rewound] is about to (re-)execute [int 0x80]; [CheckOp]
    and [PollCheck] have their snapshot, the latter with the ends it has found
    not ready and those still to look at; [Arm] would block and has set
    [wait_pipe] or [poll_wait]; [Blocked] sleeps; [Bump] and [Scan] are inside
    [sched_wake_pipe]; [Kernel] goes on in the system call. *)
Inductive wpc :=
  | User
  | Rewound (w : wop)
  | CheckOp (i : Z) (o : pipe_op)
  | PollCheck (done rest : list pollfd)
  | Arm (w : wop)
  | Blocked (w : wop)
  | Bump (i : Z)
  | Scan (i : Z)
  | Kernel.

Record task := mk_task { pc : wpc; wake_snap : Z }.

Record wsys := mk_wsys { g_pipes : list pipe; g_wake_seq : Z; tasks : nat → task }.

Definition set_task (s : wsys) (t : nat) (k : task) : wsys :=
  mk_wsys (g_pipes s) (g_wake_seq s) (λ u, if decide (u = t) then k else tasks s u).
Definition goto (s : wsys) (t : nat) (p : wpc) : wsys := set_task s t (mk_task p (wake_snap (tasks s t))).

Definition wake_seq_bump (s : wsys) : wsys := mk_wsys (g_pipes s) (u64 (g_wake_seq s + 1)) (tasks s).

(** [sched_wake_pipe]'s scan: every task blocked on this pipe, and every task
    asleep in poll, becomes READY. *)
Definition waits_for (w : wop) (i : Z) : bool := match w with WPipe j _ => j =? i | WPoll _ => true end.
Definition wake_pipe_cb (i : Z) (k : task) : task :=
  match pc k with
  | Blocked w => if waits_for w i then mk_task (Rewound w) (wake_snap k) else k
  | _ => k
  end.
Definition wake_scan (s : wsys) (i : Z) : wsys := mk_wsys (g_pipes s) (g_wake_seq s) (λ u, wake_pipe_cb i (tasks s u)).

Definition sched_block_current (s : wsys) (t : nat) (w : wop) : wsys :=
  if negb (g_wake_seq s =? wake_snap (tasks s t)) then set_task s t (mk_task (Rewound w) (g_wake_seq s))
  else goto s t (Blocked w).

(** One descriptor of a poll. *)
Definition fd_ready (pipes : list pipe) (f : pollfd) : bool := ztrue (poll_got (pipe_poll pipes.[f_pipe f] (f_writer f)) (f_events f)).

(** The next action of a task. *)
Definition run_task (s : wsys) (t : nat) : wsys :=
  match pc (tasks s t) with
  | Rewound w => set_task s t (mk_task (match w with WPipe i o => CheckOp i o | WPoll l => PollCheck [] l end) (g_wake_seq s))
  | CheckOp i o =>
      let '(p, r, _, wake) := pipe_run (g_pipes s).[i] o in
      let s := mk_wsys (g_pipes s).[i <- p] (g_wake_seq s) (tasks s) in
      goto s t (if r =? -2 then Arm (WPipe i o) else if wake then Bump i else Kernel)
  | PollCheck done [] => goto s t (Arm (WPoll done))
  | PollCheck done (f :: rest) => goto s t (if fd_ready (g_pipes s) f then Kernel else PollCheck (done ++ [f]) rest)
  | Arm w => sched_block_current s t w
  | Bump i => goto (wake_seq_bump s) t (Scan i)
  | Scan i => goto (wake_scan s i) t Kernel
  | User | Blocked _ | Kernel => s
  end.

(** What the rest of the system contributes: a task calls read, write, close or
    poll, goes on with the next chunk of a write, returns; another event bumps
    the sequence; a signal or a timeout takes a task out of its wait. *)
Inductive wevent :=
  | Run (t : nat)
  | Call (t : nat) (w : wop)
  | Chunk (t : nat) (i : Z) (o : pipe_op)
  | Return (t : nat)
  | Note
  | Signal (t : nat)
  | Expire (t : nat).

Definition in_pool (s : wsys) (i : Z) : bool := (0 <=? i) && (i <? zlen (g_pipes s)).
Definition wop_valid (s : wsys) (w : wop) : bool := match w with WPipe i _ => in_pool s i | WPoll l => forallb (λ f, in_pool s (f_pipe f)) l end.

Definition wstep (s : wsys) (e : wevent) : wsys :=
  match e with
  | Run t => run_task s t
  | Call t w => match pc (tasks s t) with User => if wop_valid s w then goto s t (Rewound w) else s | _ => s end
  | Chunk t i o => match pc (tasks s t) with Kernel => if in_pool s i then goto s t (CheckOp i o) else s | _ => s end
  | Return t => match pc (tasks s t) with Kernel => goto s t User | _ => s end
  | Note => wake_seq_bump s
  | Signal t => match pc (tasks s t) with Blocked w => goto (wake_seq_bump s) t (Rewound w) | _ => s end
  | Expire t => match pc (tasks s t) with Blocked (WPoll l) => goto s t (Rewound (WPoll l)) | _ => s end
  end.

Definition wrun (s : wsys) (es : list wevent) : wsys := foldl wstep s es.

Definition wboot (pipes : list pipe) : wsys := mk_wsys pipes 1 (λ _, mk_task User 0).

(** ** No lost wake-up *)

(** Would the operation return without blocking? *)
Definition ready (p : pipe) (o : pipe_op) : bool := negb ((pipe_run p o).1.1.2 =? -2).

Lemma ready_read p len : pipe_wf p → ready p (PRead len) = (len <=? 0) || negb (p_len p =? 0) || (writers p =? 0).
Proof.
  intros Hw. unfold ready, pipe_run. destruct (Z.leb_spec len 0) as [Hl|Hl]; [by rewrite pipe_read_idle|].
  pose proof (pipe_read_spec p len Hw ltac:(lia)) as H. destruct (pipe_read p len) as [[[p' d] r] wk]. destruct H as (_ & _ & _ & _ & H). cbn.
  destruct (Z.eqb_spec (p_len p) 0); [destruct H as (_ & _ & _ & ->); by destruct (writers p =? 0)|]. destruct H as (_ & _ & ->). pose proof (pw_len p Hw). cbn. lia.
Qed.

(** A write returns unless the chunk does not fit and a reader is left. *)
Definition write_ready (p : pipe) (len : Z) (atomic : bool) : bool :=
  (len <=? 0) || (readers p =? 0) || negb ((p_len p =? PIPE_SIZE) || atomic && (PIPE_SIZE <? p_len p + len)).
Lemma write_mode_ready p data atomic : pipe_wf p →
  negb ((pipe_write_mode p data atomic).1.1.2 =? -2) = write_ready p (zlen data) atomic.
Proof.
  intros Hw. unfold write_ready. destruct (Z.leb_spec (zlen data) 0) as [Hl|Hl]; [by rewrite pipe_write_idle|].
  pose proof (pipe_write_spec p data atomic Hw ltac:(lia)) as H. destruct (pipe_write_mode p data atomic) as [[[p' r] wk] sg]. destruct H as (_ & _ & _ & _ & H). cbn.
  destruct (readers p =? 0); [by destruct H as (_ & -> & _)|]. destruct H as [_ H]. destruct ((p_len p =? PIPE_SIZE) || _); [by destruct H as (_ & -> & _)|]. cbn. lia.
Qed.
Lemma ready_write p data : pipe_wf p → ready p (PWrite data) = write_ready p (zlen data) (zlen data <=? PIPE_BUF).
Proof. intros Hw. rewrite <- write_mode_ready by done. unfold ready, pipe_run, pipe_write. by destruct (pipe_write_mode _ _ _) as [[[? ?] ?] ?]. Qed.
Lemma ready_write_some p data : pipe_wf p → ready p (PWriteSome data) = write_ready p (zlen data) false.
Proof. intros Hw. rewrite <- write_mode_ready by done. unfold ready, pipe_run, pipe_write_some. by destruct (pipe_write_mode _ _ _) as [[[? ?] ?] ?]. Qed.

(** Duplicating an end lets nobody through. *)
Lemma ref_not_ready p w o : pipe_wf p → ready (pipe_ref p w) o = true → ready p o = true.
Proof.
  intros Hw. pose proof (pw_ends p Hw). pose proof (pipe_ref_wf p w Hw). destruct o as [len|data|data|w'|w'].
  - rewrite !ready_read by done. destruct w; cbn; lia.
  - rewrite !ready_write by done. unfold write_ready. destruct w; cbn; lia.
  - rewrite !ready_write_some by done. unfold write_ready. destruct w; cbn; lia.
  - done.
  - done.
Qed.

Lemma write_mode_silent p data atomic : pipe_wf p → let '(p', _, wake, _) := pipe_write_mode p data atomic in wake = false → p' = p.
Proof.
  intros Hw. destruct (decide (0 < zlen data)) as [Hl|Hl]; [|by rewrite pipe_write_idle by lia].
  pose proof (pipe_write_spec p data atomic Hw Hl) as H. destruct (pipe_write_mode p data atomic) as [[[p' r] wk] sg]. destruct H as (_ & _ & _ & _ & H).
  destruct (readers p =? 0); [by destruct H|]. destruct H as [_ H]. destruct (_ || _); [by destruct H|]. by destruct H as [-> _].
Qed.

(** Whether a poll of one end would report something. *)
Definition end_ready (p : pipe) (writer : bool) (events : Z) : bool := ztrue (poll_got (pipe_poll p writer) events).

Lemma poll_got_testbit r events k : k = 3 ∨ k = 4 → Z.testbit r k = true → ztrue (poll_got r events) = true.
Proof.
  intros Hk Hr. unfold ztrue. apply negb_true_iff, Z.eqb_neq. intros E. assert (Hb : Z.testbit (poll_got r events) k = true); [|by rewrite E, Z.bits_0 in Hb].
  clear E. unfold poll_got, POLLIN, POLLOUT, POLLERR, POLLHUP, POLLNVAL, POLLRDNORM, POLLWRNORM.
  repeat match goal with |- context [if ?b then _ else _] => destruct b end; rewrite ?Z.land_spec, ?Z.lor_spec, ?Z.land_spec, ?Z.lor_spec, Hr; destruct Hk as [-> | ->]; rewrite ?Z.lnot_spec by lia;
    cbn [Z.testbit Pos.testbit Pos.pred_N N.testbit]; rewrite ?orb_true_r, ?orb_true_l; done.
Qed.
Lemma end_ready_ref p w e events : pipe_wf p → end_ready (pipe_ref p w) e events = true → end_ready p e events = true.
Proof.
  intros Hw. pose proof (pw_ends p Hw) as [Hr Hwr]. unfold end_ready, pipe_poll, pipe_ref. destruct e, w; cbn [readers writers p_len set_ends]; try done.
  - destruct (Z.eqb_spec (readers p) 0); [intros _; apply (poll_got_testbit _ _ 3); auto|]. by rewrite (proj2 (Z.eqb_neq (readers p + 1) 0)) by lia.
  - destruct (Z.eqb_spec (writers p) 0); [intros _; apply (poll_got_testbit _ _ 4); [auto|by destruct (0 <? p_len p)]|]. by rewrite (proj2 (Z.eqb_neq (writers p + 1) 0)) by lia.
Qed.

(** One reason to wake up: an operation on a pipe could go through, or one of
    its ends has something to report. *)
Inductive cond := COp (o : pipe_op) | CEnd (writer : bool) (events : Z).
Definition cready (p : pipe) (c : cond) : bool := match c with COp o => ready p o | CEnd w e => end_ready p w e end.
Definition fd_cond (f : pollfd) : Z * cond := (f_pipe f, CEnd (f_writer f) (f_events f)).
Definition conds (w : wop) : list (Z * cond) := match w with WPipe i o => [(i, COp o)] | WPoll l => fd_cond <$> l end.

(** An operation that lets another one through wakes. *)
Lemma run_silent p o : pipe_wf p → let '(p', _, _, wake) := pipe_run p o in wake = false → p' = p ∨ ∃ w, p' = pipe_ref p w.
Proof.
  intros Hw. destruct o as [len|data|data|w|w]; cbn [pipe_run].
  - destruct (decide (0 < len)) as [Hl|Hl]; [|rewrite pipe_read_idle by lia; auto].
    pose proof (pipe_read_spec p len Hw Hl) as H. destruct (pipe_read p len) as [[[p' d] r] wk]. destruct H as (_ & _ & _ & _ & H).
    destruct (p_len p =? 0); [destruct H as (-> & _); auto|]. by destruct H as [-> _].
  - unfold pipe_write. pose proof (write_mode_silent p data (zlen data <=? PIPE_BUF) Hw) as H. destruct (pipe_write_mode _ _ _) as [[[p' r] wk] sg]. auto.
  - unfold pipe_write_some. pose proof (write_mode_silent p data false Hw) as H. destruct (pipe_write_mode _ _ _) as [[[p' r] wk] sg]. auto.
  - intros _. right. by exists w.
  - done.
Qed.
Lemma wake_complete p o c : pipe_wf p →
  let '(p', _, _, wake) := pipe_run p o in cready p c = false → cready p' c = true → wake = true.
Proof.
  intros Hw. pose proof (run_silent p o Hw) as H. destruct (pipe_run p o) as [[[p' r] d] wake]. intros E1 E2. destruct wake; [done|]. destruct (H eq_refl) as [-> | [w ->]]; [congruence|].
  destruct c as [o'|e ev]; cbn in *; [apply ref_not_ready in E2|apply end_ready_ref in E2]; congruence.
Qed.

Definition bumping (s : wsys) (i : Z) : Prop := ∃ u, pc (tasks s u) = Bump i.
Definition scanning (s : wsys) (i : Z) : Prop := ∃ u, pc (tasks s u) = Scan i.
Definition in_table (s : wsys) (i : Z) : Prop := 0 ≤ i < zlen (g_pipes s).
Definition all_in (s : wsys) (l : list (Z * cond)) : Prop := ∀ i c, (i, c) ∈ l → in_table s i.

(** A task that is about to block, or has blocked, on something that has
    happened has a waker still to come. *)
Definition armed (s : wsys) (snap : Z) (l : list (Z * cond)) : Prop :=
  ∀ i c, (i, c) ∈ l → cready (g_pipes s).[i] c = true → snap ≠ g_wake_seq s ∨ bumping s i.
Definition asleep (s : wsys) (l : list (Z * cond)) : Prop :=
  ∀ i c, (i, c) ∈ l → cready (g_pipes s).[i] c = true → bumping s i ∨ scanning s i.
Definition task_ok (s : wsys) (k : task) : Prop :=
  wake_snap k ≤ g_wake_seq s ∧
  match pc k with
  | User | Kernel => True
  | CheckOp i _ | Bump i | Scan i => in_table s i
  | Rewound w => all_in s (conds w)
  | PollCheck d r => all_in s (fd_cond <$> d ++ r) ∧ armed s (wake_snap k) (fd_cond <$> d)
  | Arm w => all_in s (conds w) ∧ armed s (wake_snap k) (conds w)
  | Blocked w => all_in s (conds w) ∧ asleep s (conds w)
  end.

Record winv (n : Z) (s : wsys) : Prop := {
  wi_pipes : ∀ i, in_table s i → pipe_wf (g_pipes s).[i];
  wi_seq : 1 ≤ g_wake_seq s ≤ 1 + n;
  wi_task : ∀ t, task_ok s (tasks s t)
}.

(** What a step by one task means to the others; [lost] are the pipes whose
    scan is over. *)
Record wext (lost : Z → Prop) (s s' : wsys) : Prop := {
  we_len : zlen (g_pipes s') = zlen (g_pipes s);
  we_seq : g_wake_seq s ≤ g_wake_seq s';
  we_ready : ∀ i c, in_table s i → cready (g_pipes s').[i] c = true → cready (g_pipes s).[i] c = true ∨ bumping s' i;
  we_bump : ∀ i, bumping s i → bumping s' i ∨ g_wake_seq s < g_wake_seq s' ∧ scanning s' i;
  we_scan : ∀ i, scanning s i → scanning s' i ∨ lost i
}.

Lemma all_in_ext lost s s' l : wext lost s s' → all_in s l → all_in s' l.
Proof. intros He H i c Hi. unfold in_table. rewrite (we_len _ _ _ He). by apply (H i c). Qed.
Lemma armed_ext lost s s' snap l : wext lost s s' → snap ≤ g_wake_seq s → all_in s l → armed s snap l → armed s' snap l.
Proof.
  intros [E1 E2 E3 E4 E5] Hs Hl H i c Hi Hy. destruct (E3 i c (Hl i c Hi) Hy) as [Hy0|]; [|by right].
  destruct (H i c Hi Hy0) as [?|Hb]; [left; lia|]. destruct (E4 i Hb) as [?|[? _]]; [by right|left; lia].
Qed.
Lemma asleep_ext lost s s' l : wext lost s s' → (∀ i c, (i, c) ∈ l → ¬ lost i) → all_in s l → asleep s l → asleep s' l.
Proof.
  intros [E1 E2 E3 E4 E5] Hk Hl H i c Hi Hy. destruct (E3 i c (Hl i c Hi) Hy) as [Hy0|]; [|by left]. destruct (H i c Hi Hy0) as [Hb|Hb].
  - destruct (E4 i Hb) as [?|[_ ?]]; auto.
  - destruct (E5 i Hb) as [?|Hlo]; [by right|]. by destruct (Hk i c Hi).
Qed.

Lemma task_ok_ext lost s s' k : wext lost s s' → (∀ w i c, pc k = Blocked w → (i, c) ∈ conds w → ¬ lost i) → task_ok s k → task_ok s' k.
Proof.
  intros He Hk [Hs H]. split; [pose proof (we_seq _ _ _ He); lia|]. pose proof (we_len _ _ _ He) as EL. destruct (pc k) as [|w|i o|d r|w|w|i|i|]; try done; try (unfold in_table in *; lia).
  - by eapply all_in_ext.
  - destruct H as [H1 H2]. split; [by eapply all_in_ext|]. eapply armed_ext; try done. intros i c Hi. apply (H1 i c). rewrite fmap_app. apply elem_of_app. by left.
  - destruct H as [H1 H2]. split; [by eapply all_in_ext|by eapply armed_ext].
  - destruct H as [H1 H2]. split; [by eapply all_in_ext|]. eapply asleep_ext; try done. intros i c. by apply (Hk w).
Qed.

Lemma winv_ext lost n n' s s' : winv n s → wext lost s s' → (∀ i, in_table s i → pipe_wf (g_pipes s').[i]) → g_wake_seq s' ≤ 1 + n' →
  (∀ u, (tasks s' u = tasks s u ∧ ∀ w i c, pc (tasks s u) = Blocked w → (i, c) ∈ conds w → ¬ lost i) ∨ task_ok s' (tasks s' u)) → winv n' s'.
Proof.
  intros [I1 I2 I3] He Hp Hq Hu. pose proof He as [E1 E2 _ _ _]. constructor.
  - unfold in_table. rewrite E1. done.
  - lia.
  - intros u. destruct (Hu u) as [[-> Hl]|?]; [|done]. by eapply task_ok_ext; [done| |apply I3].
Qed.

Definition not_waking (p : wpc) : Prop := match p with Bump _ | Scan _ => False | _ => True end.

Lemma set_task_at s t k : tasks (set_task s t k) t = k.
Proof. cbn. by rewrite decide_True. Qed.
Lemma set_task_other s t k u : u ≠ t → tasks (set_task s t k) u = tasks s u.
Proof. intros. cbn. by rewrite decide_False. Qed.

Lemma keep_waker s t k (P : wpc → Prop) : ¬ P (pc (tasks s t)) → (∃ u, P (pc (tasks s u))) → ∃ u, P (pc (tasks (set_task s t k) u)).
Proof. intros Ht [u Hu]. exists u. rewrite set_task_other; [done|]. by intros ->. Qed.

(** A step that neither touches a pipe nor leaves a wake-up. *)
Lemma wext_quiet s t k : not_waking (pc (tasks s t)) → wext (λ _, False) s (set_task s t k).
Proof.
  intros Hn. constructor; [done|done|auto|..]; intros i H; left.
  - apply (keep_waker s t k (λ p, p = Bump i)); [|done]. intros E. by rewrite E in Hn.
  - apply (keep_waker s t k (λ p, p = Scan i)); [|done]. intros E. by rewrite E in Hn.
Qed.

(** The new state of the task is judged in the old system. *)
Lemma winv_quiet n s t k : winv n s → not_waking (pc (tasks s t)) → task_ok s k → winv n (set_task s t k).
Proof.
  intros HI Hn Hk. pose proof (wext_quiet s t k Hn) as He. eapply winv_ext; [done|exact He|apply HI|pose proof (wi_seq n s HI); cbn; lia|]. intros u.
  destruct (decide (u = t)) as [->|Hu]; [right; rewrite set_task_at; eapply task_ok_ext; [exact He|intros ? ? ? ? ? []|done]|left]. rewrite set_task_other by done. split; [done|]. intros ? ? ? ? ? [].
Qed.

Lemma winv_weaken n s : winv n s → winv (n + 1) s.
Proof. intros [I1 I2 I3]. constructor; [done|lia|done]. Qed.

Lemma bump_seq n s : winv n s → 2 + n < 18446744073709551616 → g_wake_seq (wake_seq_bump s) = g_wake_seq s + 1.
Proof. intros [_ Hq _] Hn. cbn. apply u64_small. unfold is_u64. lia. Qed.

Lemma winv_bump n s : winv n s → 2 + n < 18446744073709551616 → winv (n + 1) (wake_seq_bump s).
Proof.
  intros HI Hn. pose proof (bump_seq n s HI Hn) as Eq. pose proof (wi_seq n s HI). apply (winv_ext (λ _, False) n (n + 1) s); [done| |apply HI|lia|].
  - constructor; [done|lia|auto..].
  - intros u. left. split; [done|]. intros ? ? ? ? ? [].
Qed.

Lemma winv_rerun n s t w : winv n s → pc (tasks s t) = Rewound w → winv n (run_task s t).
Proof.
  intros HI E. unfold run_task. rewrite E. pose proof (wi_task n s HI t) as [_ Ht]. rewrite E in Ht. apply winv_quiet; [done|by rewrite E|].
  split; [cbn; lia|]. destruct w as [i o|l]; cbn [pc]; [apply (Ht i (COp o)), list_elem_of_here|]. split; [exact Ht|]. intros ? ? []%elem_of_nil.
Qed.

Lemma winv_poll n s t d r : winv n s → pc (tasks s t) = PollCheck d r → winv n (run_task s t).
Proof.
  intros HI E. unfold run_task. rewrite E. pose proof (wi_task n s HI t) as [Hs Ht]. rewrite E in Ht. destruct Ht as [H1 H2]. destruct r as [|f r]; apply winv_quiet; [done|by rewrite E| |done|by rewrite E|].
  - split; [done|]. rewrite app_nil_r in H1. by split.
  - split; [done|]. destruct (fd_ready (g_pipes s) f) eqn:Ef; [done|]. cbn [pc wake_snap]. rewrite <- (assoc_L (++)). split; [done|]. rewrite fmap_app. intros i c Hi Hy.
    apply elem_of_app in Hi as [Hi|Hi]; [by apply (H2 i c)|]. apply list_elem_of_singleton in Hi as [= -> ->]. unfold cready, end_ready, fd_ready in *. cbn in Hy. congruence.
Qed.

Lemma winv_arm n s t w : winv n s → pc (tasks s t) = Arm w → winv n (run_task s t).
Proof.
  intros HI E. unfold run_task, sched_block_current. rewrite E. pose proof (wi_task n s HI t) as [Hs Ht]. rewrite E in Ht. destruct Ht as [Hr Ht].
  destruct (Z.eqb_spec (g_wake_seq s) (wake_snap (tasks s t))) as [Eq|Hne]; cbn [negb]; apply winv_quiet; [done|by rewrite E| |done|by rewrite E|].
  - split; [done|]. split; [done|]. intros i c Hi Hy. left. destruct (Ht i c Hi Hy) as [|Hb]; [congruence|done].
  - split; [cbn; lia|done].
Qed.

Lemma winv_bump_scan n s t i : winv n s → 2 + n < 18446744073709551616 → pc (tasks s t) = Bump i → winv (n + 1) (run_task s t).
Proof.
  intros HI Hn E. unfold run_task. rewrite E. pose proof (bump_seq n s HI Hn) as Eq. pose proof (wi_seq n s HI). pose proof (wi_task n s HI t) as [Hs Ht]. rewrite E in Ht.
  set (s' := goto _ _ _). assert (Hsc : scanning s' i) by (exists t; unfold s', goto; by rewrite set_task_at).
  assert (Es : g_wake_seq s' = g_wake_seq s + 1) by exact Eq. apply (winv_ext (λ _, False) n (n + 1) s); [done| |apply HI|lia|].
  - constructor; [done|lia|auto|..].
    + intros j Hj. destruct (decide (j = i)) as [->|Hji]; [right; split; [lia|done]|left].
      apply (keep_waker (wake_seq_bump s) t _ (λ p, p = Bump j)); [|done]. cbn [tasks wake_seq_bump]. congruence.
    + intros j Hj. left. apply (keep_waker (wake_seq_bump s) t _ (λ p, p = Scan j)); [|done]. cbn [tasks wake_seq_bump]. congruence.
  - intros u. destruct (decide (u = t)) as [->|Hu]; [right|left; split; [unfold s', goto; by rewrite set_task_other|intros ? ? ? ? ? []]].
    split; [|unfold s', goto; by rewrite set_task_at]. rewrite Es. unfold s', goto. rewrite set_task_at. cbn [wake_snap]. cbn [tasks wake_seq_bump]. lia.
Qed.

Lemma wake_scan_at s i u : tasks (wake_scan s i) u = wake_pipe_cb i (tasks s u).
Proof. done. Qed.
Lemma wake_pipe_cb_keep i k : (∀ w, pc k ≠ Blocked w) → wake_pipe_cb i k = k.
Proof. intros H. unfold wake_pipe_cb. destruct (pc k) as [| | | | |w| | |] eqn:E; try done. by destruct (H w). Qed.

Lemma winv_scan n s t i : winv n s → pc (tasks s t) = Scan i → winv n (run_task s t).
Proof.
  intros HI E. unfold run_task. rewrite E. pose proof (wi_task n s HI t) as [Hs Ht]. rewrite E in Ht.
  assert (Hkeep : ∀ u p, ¬ not_waking p → pc (tasks s u) = p → u ≠ t → pc (tasks (goto (wake_scan s i) t Kernel) u) = p).
  { intros u p Hp Ep Hu. unfold goto. rewrite set_task_other, wake_scan_at, wake_pipe_cb_keep; [done| |done]. intros w Eo. rewrite Ep in Eo. rewrite Eo in Hp. by apply Hp. }
  apply (winv_ext (λ j, j = i) n n s); [done| |apply HI|apply HI|].
  - constructor; [done|cbn; lia|auto|..].
    + intros j [u Hu]. left. exists u. apply Hkeep; [by intros []|done|]. intros ->. congruence.
    + intros j [u Hu]. destruct (decide (j = i)); [by right|left]. exists u. apply Hkeep; [by intros []|done|]. intros ->. congruence.
  - intros u. destruct (decide (u = t)) as [->|Hu].
    { right. unfold goto. rewrite set_task_at. split; [|done]. cbn [wake_snap g_wake_seq set_task]. rewrite wake_scan_at, wake_pipe_cb_keep; [done|]. rewrite E. done. }
    unfold goto. rewrite set_task_other, wake_scan_at by done. pose proof (wi_task n s HI u) as [Hsu Hu'].
    unfold wake_pipe_cb. destruct (pc (tasks s u)) as [| | | | |w| | |] eqn:Eu; try (left; split; [done|]; by intros).
    destruct (waits_for w i) eqn:Ew; [right; split; [done|apply Hu']|left; split; [done|]]. intros w' j c [= <-]. destruct w as [j' o|l]; [|done].
    cbn. intros [= -> _]%list_elem_of_singleton ->. cbn in Ew. by rewrite Z.eqb_refl in Ew.
Qed.

(** An operation that would block changes nothing. *)
Lemma write_mode_blocked p data atomic : pipe_wf p → write_ready p (zlen data) atomic = false → (pipe_write_mode p data atomic).1.1.1 = p.
Proof.
  intros Hw E. unfold write_ready in E. apply orb_false_iff in E as [[El Er]%orb_false_iff Eb]. apply negb_false_iff in Eb. apply Z.leb_gt in El.
  pose proof (pipe_write_spec p data atomic Hw ltac:(lia)) as H. destruct (pipe_write_mode _ _ _) as [[[p' r] wk] sg]. destruct H as (_ & _ & _ & _ & H).
  rewrite Er, Eb in H. by destruct H as (_ & -> & _).
Qed.
Lemma blocked_same p o : pipe_wf p → ready p o = false → (pipe_run p o).1.1.1 = p.
Proof.
  intros Hw. destruct o as [len|data|data|w|w]; [..|done|done].
  - rewrite ready_read by done. intros E. cbn [pipe_run]. unfold pipe_read. destruct (len <=? 0); [done|]. by destruct (p_len p =? 0).
  - rewrite ready_write by done. intros E%write_mode_blocked; [|done]. cbn [pipe_run]. unfold pipe_write. by destruct (pipe_write_mode _ _ _) as [[[? ?] ?] ?].
  - rewrite ready_write_some by done. intros E%write_mode_blocked; [|done]. cbn [pipe_run]. unfold pipe_write_some. by destruct (pipe_write_mode _ _ _) as [[[? ?] ?] ?].
Qed.

Lemma winv_check n s t i o : winv n s → pc (tasks s t) = CheckOp i o → winv n (run_task s t).
Proof.
  intros HI E. unfold run_task. rewrite E. pose proof (wi_task n s HI t) as [Hs Ht]. rewrite E in Ht. pose proof (wi_pipes n s HI i Ht) as Hw.
  pose proof (pipe_run_step (g_pipes s).[i] o Hw) as Hrun. pose proof (λ c, wake_complete (g_pipes s).[i] o c Hw) as Hwk. pose proof (blocked_same (g_pipes s).[i] o Hw) as Hbs.
  unfold ready at 1 in Hbs. assert (Hro : ready (g_pipes s).[i] o = negb ((pipe_run (g_pipes s).[i] o).1.1.2 =? -2)) by done.
  destruct (pipe_run (g_pipes s).[i] o) as [[[p' r] d] wake]. cbn [fst snd] in Hbs, Hro. destruct Hrun as [Hw' _].
  set (q := if r =? -2 then _ else _). set (s1 := mk_wsys _ _ _). set (s' := goto s1 t q).
  assert (Hpi : (g_pipes s').[i] = p') by (apply aget_aset_eq; apply Ht).
  assert (Hpj : ∀ j, in_table s j → j ≠ i → (g_pipes s').[j] = (g_pipes s).[j]) by (intros j Hj Hji; apply aget_aset_ne; [apply Ht|apply Hj|done]).
  apply (winv_ext (λ _, False) n n s); [done| | |apply HI|].
  - constructor; [unfold s'; cbn; by rewrite aset_length|done| |intros j Hj; left..].
    + intros j c Hj Hy. destruct (decide (j = i)) as [->|Hji]; [|left; by rewrite Hpj in Hy]. rewrite Hpi in Hy.
      destruct (cready (g_pipes s).[i] c) eqn:E0; [by left|right]. assert (wake = true) as -> by (by apply (Hwk c)).
      exists t. unfold s', goto. rewrite set_task_at. cbn [pc]. unfold q. destruct (r =? -2) eqn:Er; [|done]. rewrite (Hbs eq_refl) in Hy. congruence.
    + apply (keep_waker s1 t _ (λ p, p = Bump j)); [|done]. cbn [tasks s1]. by rewrite E.
    + apply (keep_waker s1 t _ (λ p, p = Scan j)); [|done]. cbn [tasks s1]. by rewrite E.
  - intros j Hj. destruct (decide (j = i)) as [->|Hji]; [by rewrite Hpi|]. rewrite Hpj by done. by apply (wi_pipes n s HI).
  - intros u. destruct (decide (u = t)) as [->|Hu]; [right|left; split; [unfold s', goto; by rewrite set_task_other|intros ? ? ? ? ? []]]. unfold s' at 2, goto. rewrite set_task_at. split; [done|].
    assert (Hr' : in_table s' i) by (unfold in_table, s'; cbn; by rewrite aset_length). cbn [pc wake_snap]. unfold q. destruct (r =? -2) eqn:Er; [|by destruct wake].
    split; [intros j c [= -> _]%list_elem_of_singleton; done|]. intros j c [= -> ->]%list_elem_of_singleton. rewrite Hpi, (Hbs eq_refl). cbn [cready]. intros Hy. by rewrite Hro in Hy.
Qed.

Lemma wop_valid_in s w : wop_valid s w = true → all_in s (conds w).
Proof.
  assert (Hp : ∀ i, in_pool s i = true → in_table s i) by (intros i Hi; unfold in_pool in Hi; zbool; split; lia).
  destruct w as [i o|l]; cbn; intros H j c Hj.
  - apply list_elem_of_singleton in Hj as [= -> _]. by apply Hp.
  - apply list_elem_of_fmap in Hj as (f & [= -> _] & Hf). rewrite forallb_forall in H. apply Hp, H. by apply list_elem_of_In.
Qed.

Lemma winv_run_task n s t : winv n s → 2 + n < 18446744073709551616 → winv (n + 1) (run_task s t).
Proof.
  intros HI Hn. destruct (pc (tasks s t)) as [|w|i o|d r|w|w|i|i|] eqn:E.
  1, 6, 9: apply winv_weaken; unfold run_task; by rewrite E.
  1: apply winv_weaken; by eapply winv_rerun.
  1: apply winv_weaken; by eapply winv_check.
  1: apply winv_weaken; by eapply winv_poll.
  1: apply winv_weaken; by eapply winv_arm.
  1: by eapply winv_bump_scan.
  apply winv_weaken; by eapply winv_scan.
Qed.

Lemma winv_step n s e : winv n s → 2 + n < 18446744073709551616 → winv (n + 1) (wstep s e).
Proof.
  intros HI Hn. pose proof (wi_task n s HI) as Hok. destruct e as [t|t w|t i o|t| |t|t]; cbn [wstep].
  - by apply winv_run_task.
  - destruct (pc (tasks s t)) eqn:E; try by apply winv_weaken. destruct (wop_valid s w) eqn:Ei; [|by apply winv_weaken]. apply winv_weaken, winv_quiet; [done|by rewrite E|].
    split; [apply Hok|by apply wop_valid_in].
  - destruct (pc (tasks s t)) eqn:E; try by apply winv_weaken. destruct (in_pool s i) eqn:Ei; [|by apply winv_weaken]. apply winv_weaken, winv_quiet; [done|by rewrite E|].
    unfold in_pool in Ei. zbool. split; [apply Hok|split; lia].
  - destruct (pc (tasks s t)) eqn:E; try by apply winv_weaken. apply winv_weaken, winv_quiet; [done|by rewrite E|]. split; [apply Hok|done].
  - by apply winv_bump.
  - destruct (pc (tasks s t)) as [| | | | |w| | |] eqn:E; try by apply winv_weaken. pose proof (winv_bump n s HI Hn) as HB.
    apply winv_quiet; [done|cbn; by rewrite E|]. pose proof (wi_task _ _ HB t) as [H1 H2]. cbn [tasks wake_seq_bump] in H2. rewrite E in H2. split; [done|apply H2].
  - destruct (pc (tasks s t)) as [| | | | |[|l]| | |] eqn:E; try by apply winv_weaken. apply winv_weaken, winv_quiet; [done|by rewrite E|].
    pose proof (Hok t) as [H1 H2]. rewrite E in H2. split; [done|apply H2].
Qed.

Lemma winv_run es : ∀ n s, winv n s → 1 + n + zlen es < 18446744073709551616 → winv (n + zlen es) (wrun s es).
Proof.
  induction es as [|e es IH]; intros n s HI Hn; [cbn; by rewrite Z.add_0_r|]. cbn [wrun foldl length] in *. replace (n + Z.of_nat (S (length es))) with ((n + 1) + zlen es) by lia.
  apply IH; [|lia]. apply winv_step; [done|lia].
Qed.

Lemma winv_boot pipes : Forall pipe_wf pipes → winv 0 (wboot pipes).
Proof.
  intros Hf. constructor; [|cbn; lia|intros t; split; [cbn; lia|done]]. intros i Hi. unfold in_table in Hi. cbn in Hi. rewrite Forall_lookup in Hf. eapply Hf. cbn. by apply aget_lookup.
Qed.

(** Running a waker to the end makes the task runnable again. *)
Lemma cond_waits w i c : (i, c) ∈ conds w → waits_for w i = true.
Proof. destruct w as [j o|l]; [|done]. cbn. intros [= -> _]%list_elem_of_singleton. apply Z.eqb_refl. Qed.
Lemma waker_wakes s t u i w : waits_for w i = true → pc (tasks s t) = Blocked w → pc (tasks s u) = Bump i ∨ pc (tasks s u) = Scan i →
  let s' := wrun s [Run u; Run u] in g_pipes s' = g_pipes s ∧ pc (tasks s' t) = Rewound w.
Proof.
  intros Hwi Ht Hu. assert (Htu : t ≠ u) by (intros ->; rewrite Ht in Hu; by destruct Hu).
  assert (Hscan : ∀ s0, pc (tasks s0 u) = Scan i → pc (tasks s0 t) = Blocked w → pc (tasks (run_task s0 u) t) = Rewound w ∧ pc (tasks (run_task s0 u) u) = Kernel ∧ g_pipes (run_task s0 u) = g_pipes s0).
  { intros s0 E1 E2. unfold run_task. rewrite E1. unfold goto. rewrite set_task_other, set_task_at, wake_scan_at by done. unfold wake_pipe_cb. by rewrite E2, Hwi. }
  destruct Hu as [E|E]; cbn [wrun foldl wstep].
  - assert (E1 : run_task s u = goto (wake_seq_bump s) u (Scan i)) by (unfold run_task; by rewrite E).
    rewrite E1. set (s1 := goto _ _ _). destruct (Hscan s1) as (? & ? & ?); [unfold s1, goto; by rewrite set_task_at|unfold s1, goto; by rewrite set_task_other|]. done.
  - destruct (Hscan s E Ht) as (H1 & H2 & H3). unfold run_task at 1 3. rewrite H2. done.
Qed.

(** The call re-run: an operation that can go through does; a poll with an end
    to report finds it. *)
Lemma run_kernel s t n : pc (tasks s t) = Kernel → wrun s (replicate n (Run t)) = s.
Proof. intros E. induction n as [|n IH]; [done|]. cbn [replicate wrun foldl wstep]. unfold run_task at 1. rewrite E. exact IH. Qed.
Lemma poll_finishes t : ∀ rest d s, pc (tasks s t) = PollCheck d rest → (∃ f, f ∈ rest ∧ fd_ready (g_pipes s) f = true) →
  pc (tasks (wrun s (replicate (length rest) (Run t))) t) = Kernel.
Proof.
  induction rest as [|f rest IH]; intros d s E (g & Hg & Hy); [by apply elem_of_nil in Hg|]. cbn [length replicate wrun foldl wstep].
  assert (E1 : run_task s t = goto s t (if fd_ready (g_pipes s) f then Kernel else PollCheck (d ++ [f]) rest)) by (unfold run_task; by rewrite E). rewrite E1.
  destruct (fd_ready (g_pipes s) f) eqn:Ef.
  - assert (Ek : pc (tasks (goto s t Kernel) t) = Kernel) by (unfold goto; by rewrite set_task_at). fold (wrun (goto s t Kernel) (replicate (length rest) (Run t))). by rewrite (run_kernel _ _ _ Ek).
  - apply (IH (d ++ [f])); [unfold goto; by rewrite set_task_at|]. exists g. split; [|done]. apply elem_of_cons in Hg as [->|]; [congruence|done].
Qed.
Lemma rerun_finishes s t w i c : pc (tasks s t) = Rewound w → (i, c) ∈ conds w → cready (g_pipes s).[i] c = true →
  let s' := wrun s (replicate (S (length (conds w))) (Run t)) in pc (tasks s' t) = Bump i ∨ pc (tasks s' t) = Kernel.
Proof.
  intros E Hi Hy. cbv zeta. cbn [replicate wrun foldl wstep].
  assert (E1 : run_task s t = set_task s t (mk_task (match w with WPipe i o => CheckOp i o | WPoll l => PollCheck [] l end) (g_wake_seq s))) by (unfold run_task; by rewrite E).
  rewrite E1. destruct w as [j o|l].
  - apply list_elem_of_singleton in Hi as [= -> ->]. cbn [conds length replicate foldl wstep]. set (s1 := set_task _ _ _). assert (E2 : pc (tasks s1 t) = CheckOp j o) by (unfold s1; by rewrite set_task_at).
    unfold run_task. rewrite E2. cbn in Hy. unfold ready in Hy. change (g_pipes s1) with (g_pipes s). destruct (pipe_run (g_pipes s).[j] o) as [[[p' r] d] wake]. cbn in Hy. destruct (r =? -2); [done|].
    unfold goto. rewrite set_task_at. destruct wake; auto.
  - right. cbn [conds]. rewrite length_fmap. apply list_elem_of_fmap in Hi as (f & [= -> ->] & Hf). apply (poll_finishes t l []); [by rewrite set_task_at|]. by exists f.
Qed.

(** C5. No wake-up is lost.  In every interleaving of tasks reading, writing,
    duplicating, closing and polling pipes, being signalled and being woken for
    other reasons (up to 2^64 - 2 events, the range of the wake sequence),
    whenever a task sleeps although its operation could go through or an end it
    polls has something to report, another task is inside [sched_wake_pipe] for
    that pipe; when that one finishes, the sleeper is running again and its
    system call completes without blocking. *)
Theorem no_lost_wakeup pipes es t w i c : Forall pipe_wf pipes → zlen es < 18446744073709551615 →
  let s := wrun (wboot pipes) es in
  pc (tasks s t) = Blocked w → (i, c) ∈ conds w → cready (g_pipes s).[i] c = true →
  ∃ u, (pc (tasks s u) = Bump i ∨ pc (tasks s u) = Scan i) ∧
    let s' := wrun s ([Run u; Run u] ++ replicate (S (length (conds w))) (Run t)) in pc (tasks s' t) = Bump i ∨ pc (tasks s' t) = Kernel.
Proof.
  intros Hf Hn s Hb Hc Hy. pose proof (winv_run es 0 (wboot pipes) (winv_boot pipes Hf) ltac:(lia)) as HI. fold s in HI.
  pose proof (wi_task _ _ HI t) as [_ Ht]. rewrite Hb in Ht. destruct Ht as [_ Ht].
  assert (∃ u, pc (tasks s u) = Bump i ∨ pc (tasks s u) = Scan i) as [u Hu] by (destruct (Ht i c Hc Hy) as [[u ?]|[u ?]]; exists u; auto).
  exists u. split; [done|]. destruct (waker_wakes s t u i w (cond_waits w i c Hc) Hb Hu) as [E1 E2]. cbv zeta. unfold wrun. rewrite foldl_app.
  apply (rerun_finishes _ t w i c); [done|done|]. by unfold wrun in E1; rewrite E1.
Qed.

(** A reader blocks, a poller sleeps on the same end, a writer puts a byte in
    and has not called the waker yet. *)
Definition demo_poll : wop := WPoll [mk_pollfd 0 false POLLIN].
Definition demo_race : list wevent :=
  [Call 0 (WPipe 0 (PRead 1)); Run 0; Run 0; Run 0; Call 2 demo_poll; Run 2; Run 2; Run 2; Run 2; Call 1 (WPipe 0 (PWrite [7])); Run 1; Run 1].
Lemma no_lost_wakeup_witness :
  let s := wrun (wboot [demo_pipe]) demo_race in
  pc (tasks s 0%nat) = Blocked (WPipe 0 (PRead 1)) ∧ pc (tasks s 2%nat) = Blocked demo_poll ∧ pc (tasks s 1%nat) = Bump 0 ∧
  ∃ u, (pc (tasks s u) = Bump 0 ∨ pc (tasks s u) = Scan 0) ∧
    let s' := wrun s ([Run u; Run u] ++ replicate 2 (Run 2%nat)) in pc (tasks s' 2%nat) = Bump 0 ∨ pc (tasks s' 2%nat) = Kernel.
Proof.
  split; [vm_compute; reflexivity|]. split; [vm_compute; reflexivity|]. split; [vm_compute; reflexivity|].
  apply (no_lost_wakeup [demo_pipe] demo_race 2%nat demo_poll 0 (CEnd false POLLIN)); [repeat constructor; apply demo_pipe_wf|vm_compute; reflexivity|vm_compute; reflexivity|apply list_elem_of_here|vm_compute; reflexivity].
Defined.
