(* ===== verification/Ipc.v ===== *)
(** * Message channels

    [src/kernel/ipc.c]: four byte rings of 512 bytes, with a write index, a read
    index and a count, filled and drained byte by byte.  A buffer is [None] for
    a null pointer. *)

From S2P Require Import Prelude Ring.

(** ** Definitions *)

Definition IPC_NUM_CHANNELS : Z := 4.
Definition IPC_CHAN_BYTES : Z := 512.

Record ipc_channel := mk_chan { c_buf : list Z; c_head : Z; c_tail : Z; c_count : Z }.
#[export] Instance ipc_channel_inhabited : Inhabited ipc_channel := populate (mk_chan (replicate 512 0) 0 0 0).

Record ipc := mk_ipc { g_chan : list ipc_channel; g_inited : bool }.

Definition ipc_init (s : ipc) : ipc :=
  mk_ipc (zfor (Z.to_nat IPC_NUM_CHANNELS) 0 (λ i g, g.[i <- mk_chan (c_buf g.[i]) 0 0 0]) (g_chan s)) true.

Definition ipc_ready (s : ipc) : ipc := if negb (g_inited s) then ipc_init s else s.

Fixpoint send_loop (fuel : nat) (p : list Z) (len : Z) (c : ipc_channel) (n : Z) : ipc_channel * Z :=
  match fuel with
  | O => (c, n)
  | S fuel =>
      if (n <? len) && (c_count c <? IPC_CHAN_BYTES) then
        send_loop fuel p len
          (mk_chan (c_buf c).[c_head c <- p.[n]] ((c_head c + 1) mod IPC_CHAN_BYTES) (c_tail c) (c_count c + 1)) (n + 1)
      else (c, n)
  end.

Fixpoint recv_loop (fuel : nat) (len : Z) (c : ipc_channel) (d : list Z) : ipc_channel * list Z :=
  match fuel with
  | O => (c, d)
  | S fuel =>
      if (zlen d <? len) && (0 <? c_count c) then
        recv_loop fuel len
          (mk_chan (c_buf c) (c_head c) ((c_tail c + 1) mod IPC_CHAN_BYTES) (c_count c - 1)) (d ++ [(c_buf c).[c_tail c]])
      else (c, d)
  end.

Definition bad_args (chan : Z) (has_buf : bool) (len : Z) : bool :=
  (chan <? 0) || (IPC_NUM_CHANNELS <=? chan) || negb has_buf || (len <? 0).

Definition ipc_send (s : ipc) (chan : Z) (buf : option (list Z)) (len : Z) : ipc * Z :=
  let s := ipc_ready s in
  match buf with
  | Some p =>
      if bad_args chan true len then (s, -1)
      else let '(c, n) := send_loop (Z.to_nat len) p len (g_chan s).[chan] 0 in
           (mk_ipc (g_chan s).[chan <- c] (g_inited s), n)
  | None => (s, -1)
  end.

(** The system, the bytes stored in the buffer, the result. *)
Definition ipc_recv (s : ipc) (chan : Z) (has_buf : bool) (len : Z) : ipc * list Z * Z :=
  let s := ipc_ready s in
  if bad_args chan has_buf len then (s, [], -1)
  else let '(c, d) := recv_loop (Z.to_nat len) len (g_chan s).[chan] [] in
       (mk_ipc (g_chan s).[chan <- c] (g_inited s), d, zlen d).

(** ** Queues *)

Record chan_wf (c : ipc_channel) : Prop := {
  cw_buf : zlen (c_buf c) = IPC_CHAN_BYTES;
  cw_tail : 0 ≤ c_tail c < IPC_CHAN_BYTES;
  cw_count : 0 ≤ c_count c ≤ IPC_CHAN_BYTES;
  cw_head : c_head c = (c_tail c + c_count c) mod IPC_CHAN_BYTES
}.
Definition queue (c : ipc_channel) : list Z := ring IPC_CHAN_BYTES (c_buf c) (c_tail c) (c_count c).

Lemma queue_length c : chan_wf c → zlen (queue c) = c_count c.
Proof. intros H. apply ring_length, H. Qed.

Lemma push_byte c x : chan_wf c → c_count c < IPC_CHAN_BYTES →
  let c' := mk_chan (c_buf c).[c_head c <- x] ((c_head c + 1) mod IPC_CHAN_BYTES) (c_tail c) (c_count c + 1) in
  chan_wf c' ∧ queue c' = queue c ++ [x].
Proof.
  intros [W1 W2 W3 W4] Hc c'. destruct (ring_push IPC_CHAN_BYTES ltac:(done) (c_buf c) (c_tail c) (c_count c) [x] W1 ltac:(lia) ltac:(cbn; lia)) as [P1 P2].
  cbn [length zfor] in P1, P2. rewrite Z.add_0_r, Zmod_mod, <- W4 in P1, P2. split; [|exact P2].
  constructor; cbn; [exact P1|done|lia|]. rewrite W4, Zplus_mod_idemp_l. f_equal. lia.
Qed.

Lemma pop_byte c : chan_wf c → 0 < c_count c →
  let c' := mk_chan (c_buf c) (c_head c) ((c_tail c + 1) mod IPC_CHAN_BYTES) (c_count c - 1) in
  chan_wf c' ∧ queue c = (c_buf c).[c_tail c] :: queue c'.
Proof.
  intros Hw Hc c'. pose proof Hw as [W1 W2 W3 W4]. destruct (ring_pop IPC_CHAN_BYTES (c_buf c) (c_tail c) (c_count c) 1 ltac:(lia)) as [P1 P2]. split.
  - constructor; cbn; [done|by apply Z.mod_pos_bound|lia|]. rewrite Zplus_mod_idemp_l, W4. f_equal. lia.
  - unfold queue at 2. cbn [c' c_buf c_tail c_count]. rewrite P2. fold (queue c) in P1 |- *. rewrite <- (take_drop (Z.to_nat 1) (queue c)) at 1. rewrite <- P1. change (seqZ 0 1) with [0]. cbn [fmap list_fmap app].
    by rewrite Z.add_0_r, Z.mod_small by lia.
Qed.

Lemma send_loop_spec p len : len ≤ zlen p → ∀ fuel c n, chan_wf c → 0 ≤ n ≤ len → len - n ≤ Z.of_nat fuel →
  let '(c', n') := send_loop fuel p len c n in
  chan_wf c' ∧ n' = Z.min len (n + (IPC_CHAN_BYTES - c_count c)) ∧ queue c' = queue c ++ take (Z.to_nat (n' - n)) (drop (Z.to_nat n) p).
Proof.
  intros Hlen. induction fuel as [|fuel IH]; intros c n Hw Hn Hf; cbn [send_loop]; pose proof (cw_count c Hw).
  { split_and!; [done|lia|]. rewrite Z.sub_diag. cbn. by rewrite app_nil_r. }
  destruct (_ && _) eqn:E.
  - zbool. destruct (push_byte c p.[n] Hw ltac:(lia)) as [P1 P2]. set (c1 := mk_chan _ _ _ _) in *. specialize (IH c1 (n + 1) P1 ltac:(lia) ltac:(lia)).
    destruct (send_loop fuel p len c1 (n + 1)) as [c' n']. destruct IH as (I1 & I2 & I3). cbn [c_count c1] in I2. split_and!; [done|lia|].
    rewrite I3, P2, <- (assoc_L (++)). f_equal. replace (Z.to_nat (n' - n)) with (S (Z.to_nat (n' - (n + 1)))) by lia. replace (Z.to_nat (n + 1)) with (S (Z.to_nat n)) by lia.
    rewrite (drop_S p p.[n] (Z.to_nat n)) by (apply aget_lookup; lia). done.
  - apply andb_false_iff in E as [E|E]; zbool; (split_and!; [done|lia|]); rewrite Z.sub_diag; cbn; by rewrite app_nil_r.
Qed.

Lemma recv_loop_spec len : ∀ fuel c d, chan_wf c → zlen d ≤ len → len - zlen d ≤ Z.of_nat fuel →
  let '(c', d') := recv_loop fuel len c d in
  chan_wf c' ∧ zlen d' = Z.min len (zlen d + c_count c) ∧ d ++ queue c = d' ++ queue c'.
Proof.
  induction fuel as [|fuel IH]; intros c d Hw Hd Hf; cbn [recv_loop]; pose proof (cw_count c Hw).
  { split_and!; [done|lia|done]. }
  destruct (_ && _) eqn:E.
  - zbool. destruct (pop_byte c Hw ltac:(lia)) as [P1 P2]. set (c1 := mk_chan _ _ _ _) in *. specialize (IH c1 (d ++ [(c_buf c).[c_tail c]]) P1).
    rewrite length_app in IH. cbn [length] in IH. specialize (IH ltac:(lia) ltac:(lia)). destruct (recv_loop fuel len c1 _) as [c' d']. destruct IH as (I1 & I2 & I3).
    cbn [c_count c1] in I2. split_and!; [done|lia|]. rewrite <- I3, P2, <- (assoc_L (++)). done.
  - apply andb_false_iff in E as [E|E]; zbool; (split_and!; [done|lia|done]).
Qed.

(** ** Channels as streams *)

Definition ipc_wf (s : ipc) : Prop := zlen (g_chan s) = IPC_NUM_CHANNELS ∧ g_inited s = true ∧ Forall chan_wf (g_chan s).

Inductive ipc_op := ISend (chan : Z) (buf : list Z) | IRecv (chan len : Z).

(** One operation: the bytes that went into the channel and those that came out. *)
Definition ipc_run (s : ipc) (o : ipc_op) : ipc * list Z * list Z :=
  match o with
  | ISend chan buf => let '(s, n) := ipc_send s chan (Some buf) (zlen buf) in (s, take (Z.to_nat n) buf, [])
  | IRecv chan len => let '(s, d, _) := ipc_recv s chan true len in (s, [], d)
  end.
Definition op_chan (o : ipc_op) : Z := match o with ISend c _ | IRecv c _ => c end.

Fixpoint ipc_session (s : ipc) (ops : list ipc_op) (chan : Z) : ipc * list Z * list Z :=
  match ops with
  | [] => (s, [], [])
  | o :: ops =>
      let '(s1, w, d) := ipc_run s o in
      let '(s2, ws, ds) := ipc_session s1 ops chan in
      if op_chan o =? chan then (s2, w ++ ws, d ++ ds) else (s2, ws, ds)
  end.

Lemma ipc_wf_chan s chan : ipc_wf s → 0 ≤ chan < IPC_NUM_CHANNELS → chan_wf (g_chan s).[chan].
Proof. intros (H1 & _ & H3) Hc. rewrite Forall_lookup in H3. eapply H3. apply aget_lookup. lia. Qed.
Lemma ipc_wf_set s chan c : ipc_wf s → chan_wf c → ipc_wf (mk_ipc (g_chan s).[chan <- c] (g_inited s)).
Proof. intros (H1 & H2 & H3) Hc. split_and!; [cbn [g_chan]; by rewrite aset_length|done|]. by apply Forall_insert. Qed.

Lemma ipc_run_spec s o chan : ipc_wf s → 0 ≤ chan < IPC_NUM_CHANNELS →
  let '(s', w, d) := ipc_run s o in
  ipc_wf s' ∧ queue (g_chan s).[chan] ++ (if op_chan o =? chan then w else []) = (if op_chan o =? chan then d else []) ++ queue (g_chan s').[chan].
Proof.
  intros Hw Hc. pose proof Hw as (W1 & W2 & W3). destruct o as [ch buf|ch len]; cbn [ipc_run op_chan].
  - unfold ipc_send, ipc_ready. rewrite W2. cbn [negb]. destruct (bad_args ch true (zlen buf)) eqn:Eb.
    { cbn. split; [done|]. split_if; by rewrite app_nil_r. }
    unfold bad_args in Eb. cbn in Eb. zbool. pose proof (send_loop_spec buf (zlen buf) ltac:(lia) (Z.to_nat (zlen buf)) (g_chan s).[ch] 0 (ipc_wf_chan s ch Hw ltac:(lia)) ltac:(lia) ltac:(lia)) as HS.
    destruct (send_loop _ _ _ _ _) as [c n]. destruct HS as (S1 & _ & S3). split; [by apply ipc_wf_set|]. cbn [g_chan]. rewrite Z.sub_0_r in S3. cbn in S3.
    destruct (Z.eqb_spec ch chan) as [->|]; [by rewrite aget_aset_eq by lia|]. rewrite aget_aset_ne by lia. by rewrite app_nil_r.
  - unfold ipc_recv, ipc_ready. rewrite W2. cbn [negb]. destruct (bad_args ch true len) eqn:Eb.
    { split; [done|]. split_if; by rewrite app_nil_r. }
    unfold bad_args in Eb. cbn in Eb. zbool. pose proof (recv_loop_spec len (Z.to_nat len) (g_chan s).[ch] [] (ipc_wf_chan s ch Hw ltac:(lia)) ltac:(cbn; lia) ltac:(cbn; lia)) as HS.
    destruct (recv_loop _ _ _ _) as [c d]. destruct HS as (S1 & _ & S3). split; [by apply ipc_wf_set|]. cbn [g_chan]. cbn in S3.
    destruct (Z.eqb_spec ch chan) as [->|]; [by rewrite aget_aset_eq, app_nil_r by lia|]. rewrite aget_aset_ne by lia. by rewrite app_nil_r.
Qed.

(** The channels as the loader leaves them, once initialised. *)
Lemma ipc_init_wf s : zlen (g_chan s) = IPC_NUM_CHANNELS → Forall (λ c, zlen (c_buf c) = IPC_CHAN_BYTES) (g_chan s) → ipc_wf (ipc_init s).
Proof.
  intros Hl Hf. unfold ipc_init. destruct (g_chan s) as [|c0 [|c1 [|c2 [|c3 [|]]]]]; try (cbn in Hl; unfold IPC_NUM_CHANNELS in Hl; lia).
  rewrite !Forall_cons in Hf. destruct Hf as (? & ? & ? & ? & _). split; [done|]. split; [done|]. cbn. repeat constructor; done.
Qed.

Definition demo_ipc : ipc := mk_ipc (replicate 4 inhabitant) true.
Lemma demo_ipc_wf : ipc_wf demo_ipc.
Proof. split_and!; [done..|]. repeat constructor; done. Qed.

(** The four channels are independent lossless queues: over any sequence of
    sends and receives, refused ones included, what was received from a channel
    followed by what it still holds is what it held followed by the bytes its
    sends accepted, whatever happens on the others. *)
Theorem ipc_fifo ops chan : 0 ≤ chan < IPC_NUM_CHANNELS → ∀ s, ipc_wf s →
  let '(s', ws, ds) := ipc_session s ops chan in ipc_wf s' ∧ queue (g_chan s).[chan] ++ ws = ds ++ queue (g_chan s').[chan].
Proof.
  intros Hc. induction ops as [|o ops IH]; intros s Hw; cbn [ipc_session]; [by rewrite app_nil_r|].
  pose proof (ipc_run_spec s o chan Hw Hc) as H. destruct (ipc_run s o) as [[s1 w] d]. destruct H as [H1 H2]. specialize (IH s1 H1).
  destruct (ipc_session s1 ops chan) as [[s2 ws] ds]. destruct IH as [I1 I2]. destruct (op_chan o =? chan); (split; [done|]).
  - by rewrite (assoc_L (++)), H2, <- !(assoc_L (++)), I2.
  - rewrite app_nil_r in H2. rewrite H2. exact I2.
Qed.
Lemma ipc_fifo_witness :
  let '(s', ws, ds) := ipc_session demo_ipc [ISend 1 [5; 6]; ISend 2 [9]; IRecv 1 1; IRecv 7 1; IRecv 1 4] 1 in
  ipc_wf s' ∧ queue (g_chan demo_ipc).[1] ++ ws = ds ++ queue (g_chan s').[1].
Proof. apply (ipc_fifo [ISend 1 [5; 6]; ISend 2 [9]; IRecv 1 1; IRecv 7 1; IRecv 1 4] 1); [vm_compute; split; congruence|apply demo_ipc_wf]. Defined.
