(* ===== verification/Signal.v ===== *)
(** * Signals: definitions

    [src/kernel/signal.c] whole, with the parts of [src/kernel/sched.c] it
    calls: posting, the job-control stops, delivery on the way back to ring 3,
    and the system calls.  A process is an index into the process table, as in
    [proc_table]; the atomic read-modify-write operations on [sig_pending] are
    single steps here.  The FPU image is a list of 512 bytes; [mxcsr_mask] is
    what the processor reports. *)

From S2P Require Import Prelude Vma Frames Vmm Cred UserCopy.

(** ** Constants *)

Definition NSIG : Z := 32.
Definition SIGINT : Z := 2.
Definition SIGKILL : Z := 9.
Definition SIGSEGV : Z := 11.
Definition SIGPIPE : Z := 13.
Definition SIGCHLD : Z := 17.
Definition SIGCONT : Z := 18.
Definition SIGSTOP : Z := 19.
Definition SIGTSTP : Z := 20.
Definition SIGTTIN : Z := 21.
Definition SIGTTOU : Z := 22.
Definition SIGURG : Z := 23.
Definition SIGWINCH : Z := 28.
Definition SIG_DFL : Z := 0.
Definition SIG_IGN : Z := 1.
Definition SIG_BLOCK : Z := 0.
Definition SIG_UNBLOCK : Z := 1.
Definition SIG_SETMASK : Z := 2.
Definition SIGBIT (n : Z) : Z := Z.shiftl 1 n.
Definition SIG_UNMASKABLE : Z := Z.lor (SIGBIT SIGKILL) (SIGBIT SIGSTOP).
Definition SIGFRAME_MAGIC : Z := 0x5347465253454330.

(** ** Data *)

Inductive pstate := PROC_NEW | PROC_READY | PROC_RUNNING | PROC_BLOCKED | PROC_ZOMBIE | PROC_STOPPED.
#[export] Instance pstate_eq : EqDecision pstate.
Proof. solve_decision. Defined.

(** The signal state of a process: [process.h] lines 113 to 139. *)
Record sigst := mk_sigst {
  sig_pending : Z;
  sig_blocked : Z;
  sig_handler : list Z;
  sig_restorer : Z;
  sig_eintr_rip : Z;
  sig_rerun_eintr : bool;
  sigsusp_active : bool;
  sigsusp_saved : Z
}.

(** The wait conditions a signal tears down. *)
Record waits := mk_waits { wait_pid : Z; recv_chan : Z; wait_pipe : Z; wait_tty : bool; wait_pty : Z }.

Record process := mk_process {
  p_id : cproc;
  ppid : Z;
  spawner_pid : Z;
  pgid : Z;
  pstat : pstate;
  p_sig : sigst;
  p_wait : waits;
  stop_report : bool;
  cont_report : bool;
  stop_sig : Z;
  tf_rip : option Z
}.
Definition pid (p : process) : Z := cp_pid (p_id p).
Definition sid (p : process) : Z := cp_sid (p_id p).

Definition set_sig (p : process) s := mk_process (p_id p) (ppid p) (spawner_pid p) (pgid p) (pstat p) s (p_wait p) (stop_report p) (cont_report p) (stop_sig p) (tf_rip p).
Definition set_pstat (p : process) s := mk_process (p_id p) (ppid p) (spawner_pid p) (pgid p) s (p_sig p) (p_wait p) (stop_report p) (cont_report p) (stop_sig p) (tf_rip p).
Definition set_wait (p : process) w := mk_process (p_id p) (ppid p) (spawner_pid p) (pgid p) (pstat p) (p_sig p) w (stop_report p) (cont_report p) (stop_sig p) (tf_rip p).
Definition set_reports (p : process) s c := mk_process (p_id p) (ppid p) (spawner_pid p) (pgid p) (pstat p) (p_sig p) (p_wait p) s c (stop_sig p) (tf_rip p).
Definition set_stop_sig (p : process) s := mk_process (p_id p) (ppid p) (spawner_pid p) (pgid p) (pstat p) (p_sig p) (p_wait p) (stop_report p) (cont_report p) s (tf_rip p).
Definition set_pgid (p : process) g := mk_process (p_id p) (ppid p) (spawner_pid p) g (pstat p) (p_sig p) (p_wait p) (stop_report p) (cont_report p) (stop_sig p) (tf_rip p).

Definition set_pending (s : sigst) x := mk_sigst x (sig_blocked s) (sig_handler s) (sig_restorer s) (sig_eintr_rip s) (sig_rerun_eintr s) (sigsusp_active s) (sigsusp_saved s).
Definition set_blocked (s : sigst) x := mk_sigst (sig_pending s) x (sig_handler s) (sig_restorer s) (sig_eintr_rip s) (sig_rerun_eintr s) (sigsusp_active s) (sigsusp_saved s).
Definition set_handler (s : sigst) h r := mk_sigst (sig_pending s) (sig_blocked s) h r (sig_eintr_rip s) (sig_rerun_eintr s) (sigsusp_active s) (sigsusp_saved s).
Definition set_eintr (s : sigst) x := mk_sigst (sig_pending s) (sig_blocked s) (sig_handler s) (sig_restorer s) x (sig_rerun_eintr s) (sigsusp_active s) (sigsusp_saved s).
Definition set_susp (s : sigst) a x := mk_sigst (sig_pending s) (sig_blocked s) (sig_handler s) (sig_restorer s) (sig_eintr_rip s) (sig_rerun_eintr s) a x.

(** ** Dispositions *)

Definition sig_default_ignore (s : Z) : bool := (s =? SIGCHLD) || (s =? SIGCONT) || (s =? SIGURG) || (s =? SIGWINCH).
Definition sig_default_stop (s : Z) : bool := (s =? SIGSTOP) || (s =? SIGTSTP) || (s =? SIGTTIN) || (s =? SIGTTOU).

Definition signal_init_proc (s : sigst) : sigst :=
  set_handler (set_blocked (set_pending s 0) 0) (zfor (Z.to_nat NSIG) 0 (λ i h, h.[i <- SIG_DFL]) (sig_handler s)) 0.

Definition sig_noop_mask (p : sigst) : Z :=
  zfor (Z.to_nat (NSIG - 1)) 1 (λ s m,
    let d := (sig_handler p).[s] in
    if (s =? SIGKILL) || (s =? SIGSTOP) then m
    else if (d =? SIG_IGN) || (d =? SIG_DFL) && sig_default_ignore s then Z.lor m (SIGBIT s)
    else m) 0.

Definition deliverable (p : sigst) : Z :=
  Z.lor (Z.land (sig_pending p) (not64 (sig_blocked p))) (Z.land (sig_pending p) SIG_UNMASKABLE).

Definition signal_pending (p : sigst) : bool :=
  ztrue (Z.land (deliverable p) (not64 (sig_noop_mask p))) || sig_rerun_eintr p.

Definition bit_set (m s : Z) : bool := ztrue (Z.land (Z.shiftr m s) 1).
Definition clear_pending (p : sigst) (s : Z) : sigst := set_pending p (Z.land (sig_pending p) (not64 (SIGBIT s))).

(** The signals from [s] on, [n] of them: the first that stops the process. *)
Fixpoint take_stop_from (p : sigst) (d : Z) (s : Z) (n : nat) : sigst * Z :=
  match n with
  | O => (p, 0)
  | S n =>
      if negb (bit_set d s) then take_stop_from p d (s + 1) n
      else if (s =? SIGSTOP) || sig_default_stop s && ((sig_handler p).[s] =? SIG_DFL) then (clear_pending p s, s)
      else take_stop_from p d (s + 1) n
  end.
Definition signal_take_stop (p : sigst) : sigst * Z :=
  let d := deliverable p in
  if ztrue (Z.land d (SIGBIT SIGKILL)) then (p, 0) else take_stop_from p d 1 (Z.to_nat (NSIG - 1)).

Definition signal_ttin_acts (p : sigst) : bool :=
  if bit_set (sig_blocked p) SIGTTIN then false else negb ((sig_handler p).[SIGTTIN] =? SIG_IGN).

(** ** Posting *)

Definition sched_wake_task (p : process) (from : pstate) : process * bool :=
  if negb (bool_decide (pstat p = from)) then (p, false) else (set_pstat p PROC_READY, true).

(** The posting proper: the pending bit, then the wake-up of a blocked target. *)
Definition post_pending (p : process) (sig : Z) : process :=
  let s := p_sig p in
  let s := if sig_default_stop sig then set_pending s (Z.land (sig_pending s) (not64 (SIGBIT SIGCONT))) else s in
  set_sig p (set_pending s (Z.lor (sig_pending s) (SIGBIT sig))).

Definition acts_on (s : sigst) (sig : Z) : bool :=
  ((sig =? SIGKILL) || (sig =? SIGSTOP) || negb (bit_set (sig_blocked s) sig)) && negb (ztrue (Z.land (sig_noop_mask s) (SIGBIT sig))).

Definition post_wake (p : process) (sig : Z) : process :=
  if acts_on (p_sig p) sig && bool_decide (pstat p = PROC_BLOCKED) then
    let p := set_wait p (mk_waits (-1) (-1) 0 false 0) in
    let p := match tf_rip p with
             | Some rip => if negb (sig =? SIGKILL) && (1 <? (sig_handler (p_sig p)).[sig]) then set_sig p (set_eintr (p_sig p) rip) else p
             | None => p
             end in
    (sched_wake_task p PROC_BLOCKED).1
  else p.

Definition bad_target (p : process) (sig : Z) : bool := (sig <=? 0) || (NSIG <=? sig) || bool_decide (pstat p = PROC_ZOMBIE).

(** [signal_post] of a signal other than SIGCONT and SIGKILL. *)
Definition post_plain (p : process) (sig : Z) : process := if bad_target p sig then p else post_wake (post_pending p sig) sig.

(** ** The process table *)

Definition ptable := list (option process).
Definition MAX_PROCESSES : Z := 32.

Fixpoint find_from (l : ptable) (x i : Z) : option Z :=
  match l with
  | [] => None
  | Some p :: l => if pid p =? x then Some i else find_from l x (i + 1)
  | None :: l => find_from l x (i + 1)
  end.
Definition process_find_by_pid (t : ptable) (x : Z) : option Z := find_from t x 0.
Definition upd (t : ptable) (i : Z) (f : process → process) : ptable := match t.[i] with Some p => t.[i <- Some (f p)] | None => t end.

Definition wake_waitany_cb (ppid : Z) (p : process) : process :=
  if (pid p =? ppid) && bool_decide (pstat p = PROC_BLOCKED) && (wait_pid (p_wait p) =? -2) then
    let w := p_wait p in
    set_pstat (set_wait p (mk_waits (-1) (recv_chan w) (wait_pipe w) (wait_tty w) (wait_pty w))) PROC_READY
  else p.
Definition sched_wake_parent_waitany (t : ptable) (ppid : Z) : ptable :=
  if ppid =? 0 then t else (option_map (wake_waitany_cb ppid)) <$> t.
Definition notify_parent_sigchld (t : ptable) (ppid : Z) : ptable :=
  if ppid =? 0 then t
  else match process_find_by_pid t ppid with Some i => upd t i (λ p, post_plain p SIGCHLD) | None => t end.
Definition sched_notify_parent_cont (t : ptable) (ppid : Z) : ptable :=
  sched_wake_parent_waitany (notify_parent_sigchld t ppid) ppid.

Definition STOP_BITS : Z := Z.lor (Z.lor (Z.lor (SIGBIT SIGSTOP) (SIGBIT SIGTSTP)) (SIGBIT SIGTTIN)) (SIGBIT SIGTTOU).

(** SIGCONT cancels pending stops and resumes; SIGKILL resumes a stopped process to die. *)
Definition post_cont (t : ptable) (i : Z) (p : process) : ptable :=
  let p := set_sig p (set_pending (p_sig p) (Z.land (sig_pending (p_sig p)) (not64 STOP_BITS))) in
  let '(p, woke) := sched_wake_task p PROC_STOPPED in
  if woke then sched_notify_parent_cont t.[i <- Some (set_reports p false true)] (ppid p) else t.[i <- Some p].
Definition post_kill (p : process) : process :=
  let '(p, woke) := sched_wake_task p PROC_STOPPED in if woke then set_reports p false (cont_report p) else p.

Definition signal_post (t : ptable) (i sig : Z) : ptable * Z :=
  match t.[i] with
  | None => (t, -1)
  | Some p =>
      if bad_target p sig then (t, -1)
      else
        let t := if sig =? SIGCONT then post_cont t i p else t in
        let t := if sig =? SIGKILL then upd t i post_kill else t in
        (upd t i (λ p, post_wake (post_pending p sig) sig), 0)
  end.

(** ** Groups *)

Definition PG_MAX : Z := 64.
Record pg_ctx := mk_pg { c_pgid : Z; c_t : list Z; c_skip : Z; c_all : bool; c_sender : option process; c_sig : Z; c_denied : Z }.

Definition pg_cb (c : pg_ctx) (i : Z) (p : process) : pg_ctx :=
  if bool_decide (pstat p = PROC_ZOMBIE) || (PG_MAX <=? zlen (c_t c)) then c
  else if negb (if c_all c then negb (pid p =? 0) && negb (pid p =? c_skip c) else pgid p =? c_pgid c) then c
  else
    let add := mk_pg (c_pgid c) (c_t c ++ [i]) (c_skip c) (c_all c) (c_sender c) (c_sig c) (c_denied c) in
    match c_sender c with
    | Some s =>
        if negb (cred_may_signal (Some (p_id s)) (Some (p_id p)) (c_sig c)) then
          mk_pg (c_pgid c) (c_t c) (c_skip c) (c_all c) (c_sender c) (c_sig c) (c_denied c + 1)
        else if c_all c && (pid p =? 1) && negb (cred_is_root (Some (p_id s))) then c
        else add
    | None => add
    end.

(** [process_foreach] with a callback that threads its context. *)
Definition process_foreach {C} (t : ptable) (cb : C → Z → process → C) (c : C) : C :=
  zfor (length t) 0 (λ i c, match t.[i] with Some p => cb c i p | None => c end) c.

Definition post_collected (t : ptable) (c : pg_ctx) (sig : Z) : ptable * Z :=
  foldl (λ '(t, n) i, let '(t, r) := signal_post t i sig in (t, if r =? 0 then n + 1 else n)) (t, 0) (c_t c).

Definition signal_post_pgid (t : ptable) (g sig : Z) : ptable * Z :=
  if g =? 0 then (t, 0) else post_collected t (process_foreach t pg_cb (mk_pg g [] 0 false None sig 0)) sig.

(** The table, the count, the refused targets. *)
Definition signal_post_checked (t : ptable) (sender : process) (g : Z) (all : bool) (sig : Z) : ptable * Z * Z :=
  let c := process_foreach t pg_cb (mk_pg g [] (if all then pid sender else 0) all (Some sender) sig 0) in
  if sig =? 0 then (t, zlen (c_t c), c_denied c)
  else let '(t, n) := post_collected t c sig in (t, n, c_denied c).

Definition signal_pgid_exists (t : ptable) (g : Z) : bool :=
  0 <? process_foreach t (λ n _ p, if (pgid p =? g) && negb (bool_decide (pstat p = PROC_ZOMBIE)) then n + 1 else n) 0.

(** ** Delivery *)

Record trapframe := mk_tf {
  r15 : Z; r14 : Z; r13 : Z; r12 : Z; r11 : Z; r10 : Z; r9 : Z; r8 : Z;
  rbp : Z; rdi : Z; rsi : Z; rdx : Z; rcx : Z; rbx : Z; rax : Z;
  int_no : Z; err_code : Z;
  rip : Z; cs : Z; rflags : Z; rsp : Z; ss : Z
}.

Definition tf_words (t : trapframe) : list Z :=
  [r15 t; r14 t; r13 t; r12 t; r11 t; r10 t; r9 t; r8 t; rbp t; rdi t; rsi t; rdx t; rcx t; rbx t; rax t; int_no t; err_code t; rip t; cs t; rflags t; rsp t; ss t].
Definition tf_of (w : Z → Z) : trapframe :=
  mk_tf (w 0) (w 1) (w 2) (w 3) (w 4) (w 5) (w 6) (w 7) (w 8) (w 9) (w 10) (w 11) (w 12) (w 13) (w 14) (w 15) (w 16) (w 17) (w 18) (w 19) (w 20) (w 21).

(** Entering a handler; forcing ring 3. *)
Definition enter_handler (t : trapframe) (disp ret_slot sig : Z) : trapframe :=
  mk_tf (r15 t) (r14 t) (r13 t) (r12 t) (r11 t) (r10 t) (r9 t) (r8 t) (rbp t) sig (rsi t) (rdx t) (rcx t) (rbx t) 0 (int_no t) (err_code t)
    disp (cs t) (Z.land (rflags t) (not64 0x400)) ret_slot (ss t).
Definition force_user (t : trapframe) : trapframe :=
  mk_tf (r15 t) (r14 t) (r13 t) (r12 t) (r11 t) (r10 t) (r9 t) (r8 t) (rbp t) (rdi t) (rsi t) (rdx t) (rcx t) (rbx t) (rax t) (int_no t) (err_code t)
    (rip t) 0x1B (Z.lor (Z.land (rflags t) (not64 0x200)) 0x202) (rsp t) 0x23.

(** The frame on the user stack: magic, mask, context, FPU image. *)
Record sigframe := mk_sf { magic : Z; saved_mask : Z; saved : trapframe; fpu : list Z }.
Definition le64 (x : Z) : list Z := (λ k, u8 (Z.shiftr x (8 * k))) <$> seqZ 0 8.
Definition sf_bytes (f : sigframe) : list Z := concat (le64 <$> magic f :: saved_mask f :: tf_words (saved f)) ++ fpu f.
Definition word_at (l : list Z) (k : Z) : Z := rd64 (λ a, l.[a]) (8 * k).
Definition sf_of (l : list Z) : sigframe := mk_sf (word_at l 0) (word_at l 1) (tf_of (λ k, word_at l (k + 2))) (drop (Z.to_nat 192) l).
Definition SIGFRAME_SIZE : Z := 704.

Fixpoint first_sig (d sig : Z) (n : nat) : Z :=
  match n with
  | O => sig
  | S n => if (sig <? NSIG) && negb (bit_set d sig) then first_sig d (sig + 1) n else sig
  end.

(** Where control goes: to user code with a frame, to the next signal, or never
    back ([sched_kill_current], [sched_stop_current]). *)
Inductive dispatched :=
  | ToUser (p : process) (m : mem) (t : trapframe)
  | Killed (p : process) (m : mem) (sig : Z)
  | Stopped (p : process) (m : mem) (sig : Z)
  | OutOfFuel.

Definition deliver_handler (fault : Z → bool) (m : mem) (p : process) (t : trapframe) (fx : list Z) (sig disp : Z) : dispatched :=
  let s := p_sig p in
  let sf := mk_sf SIGFRAME_MAGIC (if sigsusp_active s then sigsusp_saved s else sig_blocked s) t fx in
  let s := if sigsusp_active s then set_susp s false (sigsusp_saved s) else s in
  let usp := u64 (rsp t - 128) in
  let frame := Z.land (u64 (usp - SIGFRAME_SIZE)) (not64 15) in
  let '(m, r) := copy_to_user fault m frame (sf_bytes sf) in
  if ztrue r then Killed (set_sig p s) m sig
  else
    let ret_slot := u64 (frame - 8) in
    let '(m, r) := copy_to_user fault m ret_slot (le64 (sig_restorer s)) in
    if ztrue r then Killed (set_sig p s) m sig
    else ToUser (set_sig p (set_blocked s (Z.lor (sig_blocked s) (SIGBIT sig)))) m (enter_handler t disp ret_slot sig).

Fixpoint dispatch_loop (fuel : nat) (fault : Z → bool) (m : mem) (p : process) (t : trapframe) (fx : list Z) : dispatched :=
  match fuel with
  | O => OutOfFuel
  | S fuel =>
      let s := p_sig p in
      let d := deliverable s in
      let sig := first_sig d 1 (Z.to_nat (NSIG - 1)) in
      if negb (ztrue d) || (NSIG <=? sig) then
        ToUser (if sigsusp_active s then set_sig p (set_susp (set_blocked s (sigsusp_saved s)) false (sigsusp_saved s)) else p) m t
      else
        let s := clear_pending s sig in
        let p := set_sig p s in
        let disp := (sig_handler s).[sig] in
        if sig =? SIGKILL then Killed p m sig
        else if sig =? SIGSTOP then Stopped (set_stop_sig p sig) m sig
        else if disp =? SIG_IGN then dispatch_loop fuel fault m p t fx
        else if disp =? SIG_DFL then
          if sig_default_ignore sig then dispatch_loop fuel fault m p t fx
          else if sig_default_stop sig then Stopped (set_stop_sig p sig) m sig
          else Killed p m sig
        else deliver_handler fault m p t fx sig disp
  end.

Definition signal_dispatch (fault : Z → bool) (m : mem) (p : process) (t : trapframe) (fx : list Z) : dispatched :=
  if negb (Z.land (cs t) 3 =? 3) then ToUser p m t else dispatch_loop (Z.to_nat NSIG) fault m p t fx.

(** ** System calls *)

Definition ksys_sigaction (s : sigst) (sig handler restorer : Z) : sigst * Z :=
  if (sig <=? 0) || (NSIG <=? sig) then (s, -1)
  else if (sig =? SIGKILL) || (sig =? SIGSTOP) then (s, -1)
  else (set_handler s (sig_handler s).[sig <- handler] (if ztrue restorer then restorer else sig_restorer s), 0).

(** The MXCSR word of an FPU image, masked. *)
Definition mask_mxcsr (fx : list Z) (mask : Z) : list Z :=
  let w := Z.land (rd32 (λ a, fx.[a]) 24) mask in
  zfor 4 0 (λ i l, l.[24 + i <- u8 (Z.shiftr w (8 * i))]) fx.

Inductive sigreturned :=
  | SrError
  | SrKill
  | SrUser (s : sigst) (t : trapframe) (fx : list Z) (ret : Z).

Definition ksys_sigreturn (fault : Z → bool) (mxcsr_mask : Z) (m : mem) (s : sigst) (t : trapframe) : sigreturned :=
  match copy_from_user fault m (rsp t) SIGFRAME_SIZE with
  | None => SrError
  | Some l =>
      let sf := sf_of l in
      if negb (magic sf =? SIGFRAME_MAGIC) then SrKill
      else
        let t' := force_user (saved sf) in
        if 0x0000800000000000 <=? rsp t' then SrError
        else SrUser (set_blocked s (saved_mask sf)) t' (mask_mxcsr (fpu sf) mxcsr_mask) (s64 (rax t'))
  end.

Definition ksys_kill (t : ptable) (cur : option process) (pid_ sig : Z) : ptable * Z :=
  if (sig <? 0) || (NSIG <=? sig) then (t, -22)
  else if pid_ <=? 0 then
    match cur with
    | None => (t, -3)
    | Some c =>
        if pid_ =? -2147483648 then (t, -3)
        else
          let g := if pid_ =? 0 then pgid c else u32 (- pid_) in
          let all := pid_ =? -1 in
          let '(t, n, denied) := signal_post_checked t c (if all then 0 else g) all sig in
          (t, if 0 <? n then 0 else if ztrue denied then -1 else -3)
    end
  else
    match process_find_by_pid t (u32 pid_) with
    | None => (t, -3)
    | Some i =>
        match t.[i] with
        | None => (t, -3)
        | Some q =>
            let z := bool_decide (pstat q = PROC_ZOMBIE) in
            if negb z && negb (cred_may_signal (p_id <$> cur) (Some (p_id q)) sig) then (t, -1)
            else if (sig =? 0) || z then (t, 0)
            else let '(t, r) := signal_post t i sig in (t, if r =? 0 then 0 else -3)
        end
    end.

(** [cur] is the index of the caller. *)
Definition ksys_setpgid (t : ptable) (cur : option Z) (pid_ g : Z) : ptable * Z :=
  match cur with
  | None => (t, -1)
  | Some ci =>
      let ti := if pid_ =? 0 then Some ci else process_find_by_pid t (u32 pid_) in
      match t.[ci], ti with
      | Some c, Some i =>
          match t.[i] with
          | Some q =>
              if negb (i =? ci) && negb (cred_is_root (Some (p_id c))) &&
                 negb (((ppid q =? pid c) || (spawner_pid q =? pid c)) && (sid q =? sid c)) then (t, -3)
              else if g <? 0 then (t, -22)
              else (t.[i <- Some (set_pgid q (if g =? 0 then pid q else u32 g))], 0)
          | None => (t, -3)
          end
      | _, _ => (t, -3)
      end
  end.

(** The signal state, the memory, the result; [oldset] is the user pointer, 0 for none. *)
Definition ksys_sigprocmask (fault : Z → bool) (m : mem) (s : sigst) (how set oldset : Z) : sigst * mem * Z :=
  let old := sig_blocked s in
  let mask := if how =? SIG_BLOCK then Some (Z.lor old set) else if how =? SIG_UNBLOCK then Some (Z.land old (not64 set)) else if how =? SIG_SETMASK then Some set else None in
  match mask with
  | None => (s, m, -1)
  | Some b =>
      let s := set_blocked s (Z.land b (not64 SIG_UNMASKABLE)) in
      if oldset =? 0 then (s, m, 0)
      else let '(m, r) := copy_to_user fault m oldset (le64 old) in (s, m, if ztrue r then -1 else 0)
  end.

Definition ksys_getpgid (t : ptable) (cur : option Z) (pid_ : Z) : Z :=
  let ti := if pid_ =? 0 then cur else process_find_by_pid t (u32 pid_) in
  match ti with Some i => match t.[i] with Some q => pgid q | None => -3 end | None => -3 end.

(** The mask while [SYS_SIGSUSPEND] sleeps, and what exec keeps. *)
Definition sigsuspend_mask (s : sigst) (mask : Z) : sigst :=
  if sigsusp_active s then s else set_susp (set_blocked s (Z.land mask (not64 SIG_UNMASKABLE))) true (sig_blocked s).
Definition exec_signals (s : sigst) : sigst :=
  let h := zfor 32 0 (λ i h, if negb (h.[i] =? 0) && negb (h.[i] =? 1) then h.[i <- 0] else h) (sig_handler s) in
  mk_sigst (sig_pending s) (sig_blocked s) h 0 0 false false (sigsusp_saved s).
