(* ===== verification/SignalProps.v ===== *)
(** * Signals: properties

    Delivery terminates, and a handler's return restores the interrupted
    context. *)

From S2P Require Import Prelude Vma Frames Vmm Cred UserCopy Signal.

(** ** Masks *)

Lemma bit_set_testbit m s : 0 ≤ s → bit_set m s = Z.testbit m s.
Proof.
  intros Hs. unfold bit_set, ztrue. rewrite Z.testbit_odd. change 1 with (Z.ones 1). rewrite Z.land_ones by lia. change (2 ^ 1) with 2.
  rewrite Zmod_odd. by destruct (Z.odd _).
Qed.
Lemma sigbit_testbit n i : 0 ≤ n → 0 ≤ i → Z.testbit (SIGBIT n) i = (n =? i).
Proof. intros Hn Hi. unfold SIGBIT. rewrite Z.shiftl_1_l. by apply pow2_testbit. Qed.

Record sig_wf (s : sigst) : Prop := {
  sw_pending : is_u64 (sig_pending s);
  sw_blocked : is_u64 (sig_blocked s);
  sw_handlers : zlen (sig_handler s) = NSIG;
  sw_handler : Forall is_u64 (sig_handler s);
  sw_restorer : is_u64 (sig_restorer s);
  sw_susp : is_u64 (sigsusp_saved s)
}.

Definition unmaskable (n : Z) : bool := (n =? SIGKILL) || (n =? SIGSTOP).

Lemma deliverable_bit s n : is_u64 (sig_pending s) → 0 ≤ n < 64 →
  Z.testbit (deliverable s) n = Z.testbit (sig_pending s) n && (negb (Z.testbit (sig_blocked s) n) || unmaskable n).
Proof.
  intros Hp Hn. unfold deliverable, SIG_UNMASKABLE, unmaskable. autorewrite with secos_bits. rewrite !sigbit_testbit by (unfold SIGKILL, SIGSTOP; lia).
  rewrite (proj2 (Z.ltb_lt n 64)), (Z.eqb_sym SIGKILL), (Z.eqb_sym SIGSTOP) by lia. by destruct (Z.testbit (sig_pending s) n), (Z.testbit (sig_blocked s) n).
Qed.
Lemma clear_pending_bit s k n : is_u64 (sig_pending s) → 0 ≤ k → 0 ≤ n → Z.testbit (sig_pending (clear_pending s k)) n = Z.testbit (sig_pending s) n && negb (k =? n).
Proof.
  intros Hp Hk Hn. cbn. rewrite land_not64 by done. by rewrite Z.ldiff_spec, sigbit_testbit.
Qed.
Lemma clear_pending_wf s k : sig_wf s → sig_wf (clear_pending s k).
Proof. intros [? ? ? ? ? ?]. constructor; cbn; try done. by apply is_u64_land_l. Qed.

(** The scan for the lowest deliverable signal. *)
Lemma first_sig_spec d n : ∀ s, 0 ≤ s → s + Z.of_nat n = NSIG →
  let r := first_sig d s n in s ≤ r ≤ NSIG ∧ (∀ i, s ≤ i < r → Z.testbit d i = false) ∧ (r < NSIG → Z.testbit d r = true).
Proof.
  induction n as [|n IH]; intros s Hs Hn; cbn [first_sig]; [cbn in Hn; split_and!; lia|]. rewrite (proj2 (Z.ltb_lt s NSIG)) by lia. cbn [andb]. rewrite bit_set_testbit by lia.
  destruct (Z.testbit d s) eqn:E; cbn [negb]; [split_and!; [lia|lia|lia|done]|]. destruct (IH (s + 1) ltac:(lia) ltac:(lia)) as (I1 & I2 & I3). split_and!; [lia|lia| |done].
  intros i Hi. destruct (decide (i = s)) as [->|]; [done|]. apply I2. lia.
Qed.

(** ** Delivery terminates *)

Definition pend_count (s : sigst) : Z := zcount (λ i, Z.testbit (sig_pending s) (i + 1)) 31.

Lemma clear_pending_count s k : sig_wf s → 1 ≤ k < NSIG → Z.testbit (sig_pending s) k = true → pend_count (clear_pending s k) < pend_count s.
Proof.
  intros Hw Hk Hb. unfold NSIG in Hk. pose proof (sw_pending s Hw) as Hp. unfold pend_count. set (P := λ i, Z.testbit (sig_pending s) (i + 1)).
  assert (E : zcount (λ i, Z.testbit (sig_pending (clear_pending s k)) (i + 1)) 31 = zcount (λ i, P i && negb (k - 1 =? i)) 31).
  { apply zcount_ext. intros i Hi. rewrite clear_pending_bit by (done || lia). unfold P. by replace (k =? i + 1) with (k - 1 =? i) by lia. }
  rewrite E. pose proof (zcount_diff P (λ i, P i && negb (k - 1 =? i)) 31) as D. rewrite (zcount_none (λ i, negb (P i) && _)) in D by (intros; by destruct (P i)).
  pose proof (zcount_pos (λ i, P i && negb (P i && negb (k - 1 =? i))) 31 (k - 1) ltac:(lia)) as Hpos. cbv beta in Hpos. rewrite Z.eqb_refl, andb_false_r in Hpos.
  unfold P at 1 in Hpos. rewrite Z.sub_add, Hb in Hpos. specialize (Hpos eq_refl). lia.
Qed.

Lemma pend_bound s : 0 ≤ pend_count s ≤ 31.
Proof. apply (zcount_bound _ 31). Qed.

(** One turn of the delivery loop: no signal is deliverable, or the lowest one is taken. *)
Lemma dispatch_turn s : sig_wf s →
  let d := deliverable s in let sig := first_sig d 1 (Z.to_nat (NSIG - 1)) in
  if negb (ztrue d) || (NSIG <=? sig) then ∀ n, 1 ≤ n < NSIG → Z.testbit d n = false
  else 1 ≤ sig < NSIG ∧ Z.testbit d sig = true ∧ Z.testbit (sig_pending s) sig = true ∧ ∀ n, 1 ≤ n < sig → Z.testbit d n = false.
Proof.
  intros Hw d sig. destruct (first_sig_spec d (Z.to_nat (NSIG - 1)) 1 ltac:(lia) ltac:(unfold NSIG; lia)) as (H1 & H2 & H3). fold sig in H1, H2, H3.
  destruct (ztrue d) eqn:Ed; cbn [negb orb].
  - destruct (Z.leb_spec NSIG sig).
    + intros n Hn. apply H2. lia.
    + split; [lia|]. split; [by apply H3|]. split; [|done]. specialize (H3 ltac:(lia)). unfold d in H3. rewrite deliverable_bit in H3; [|apply Hw|unfold NSIG in *; lia].
      by apply andb_true_iff in H3 as [? _].
  - intros n Hn. unfold ztrue in Ed. apply negb_false_iff, Z.eqb_eq in Ed. rewrite Ed. apply Z.bits_0.
Qed.

Lemma p_sig_set p s : p_sig (set_sig p s) = s.
Proof. done. Qed.
Lemma deliver_total fault m p t fx sig disp : deliver_handler fault m p t fx sig disp ≠ OutOfFuel.
Proof. unfold deliver_handler. destruct (copy_to_user _ _ _ _) as [m1 r1]. destruct (ztrue r1); [done|]. destruct (copy_to_user _ _ _ _) as [m2 r2]. by destruct (ztrue r2). Qed.

(** The part of the loop after a signal has been taken. *)
Definition act_on_signal (fuel : nat) (fault : Z → bool) (m : mem) (p : process) (t : trapframe) (fx : list Z) (sig : Z) : dispatched :=
  let disp := (sig_handler (p_sig p)).[sig] in
  if sig =? SIGKILL then Killed p m sig
  else if sig =? SIGSTOP then Stopped (set_stop_sig p sig) m sig
  else if disp =? SIG_IGN then dispatch_loop fuel fault m p t fx
  else if disp =? SIG_DFL then
    if sig_default_ignore sig then dispatch_loop fuel fault m p t fx
    else if sig_default_stop sig then Stopped (set_stop_sig p sig) m sig
    else Killed p m sig
  else deliver_handler fault m p t fx sig disp.
Definition no_signal (p : process) (m : mem) (t : trapframe) : dispatched :=
  let s := p_sig p in
  ToUser (if sigsusp_active s then set_sig p (set_susp (set_blocked s (sigsusp_saved s)) false (sigsusp_saved s)) else p) m t.

Lemma dispatch_loop_S fuel fault m p t fx :
  dispatch_loop (S fuel) fault m p t fx =
  (let d := deliverable (p_sig p) in let sig := first_sig d 1 (Z.to_nat (NSIG - 1)) in
   if negb (ztrue d) || (NSIG <=? sig) then no_signal p m t
   else act_on_signal fuel fault m (set_sig p (clear_pending (p_sig p) sig)) t fx sig).
Proof. reflexivity. Qed.

(** The loop takes a signal or finds none. *)
Lemma dispatch_cases fuel fault m p t fx : sig_wf (p_sig p) →
  let s := p_sig p in
  (dispatch_loop (S fuel) fault m p t fx = no_signal p m t ∧ ∀ n, 1 ≤ n < NSIG → Z.testbit (deliverable s) n = false) ∨
  (∃ sig, 1 ≤ sig < NSIG ∧ Z.testbit (deliverable s) sig = true ∧ Z.testbit (sig_pending s) sig = true ∧ (∀ n, 1 ≤ n < sig → Z.testbit (deliverable s) n = false) ∧
    dispatch_loop (S fuel) fault m p t fx = act_on_signal fuel fault m (set_sig p (clear_pending s sig)) t fx sig).
Proof.
  intros Hw s. rewrite dispatch_loop_S. pose proof (dispatch_turn s Hw) as H. fold s. cbv zeta in *. destruct (negb _ || _); [left; split; [reflexivity|exact H]|right].
  exists (first_sig (deliverable s) 1 (Z.to_nat (NSIG - 1))). destruct H as (H1 & H2 & H3 & H4). repeat (split; [assumption|]). reflexivity.
Qed.

Lemma dispatch_loop_total fault fx t fuel : ∀ m p, sig_wf (p_sig p) → pend_count (p_sig p) < Z.of_nat fuel → dispatch_loop fuel fault m p t fx ≠ OutOfFuel.
Proof.
  induction fuel as [|fuel IH]; intros m p Hw Hc; [pose proof (pend_bound (p_sig p)); lia|].
  destruct (dispatch_cases fuel fault m p t fx Hw) as [[-> _]|(sig & H1 & _ & H2 & _ & ->)]; [done|].
  pose proof (clear_pending_count (p_sig p) sig Hw H1 H2) as Hlt. specialize (IH m (set_sig p (clear_pending (p_sig p) sig)) (clear_pending_wf (p_sig p) sig Hw)).
  rewrite p_sig_set in IH. specialize (IH ltac:(lia)). unfold act_on_signal.
  destruct (sig =? SIGKILL); [done|]. destruct (sig =? SIGSTOP); [done|]. destruct (_ =? SIG_IGN); [done|]. destruct (_ =? SIG_DFL); [|apply deliver_total].
  destruct (sig_default_ignore sig); [done|]. by destruct (sig_default_stop sig).
Qed.

(** Delivery always ends: on the way back to ring 3, [signal_dispatch] takes
    each pending signal at most once, so whatever is pending, blocked, ignored
    or caught, the process resumes, enters a handler, stops or dies; the loop
    never runs more than [NSIG] times. *)
Theorem signal_dispatch_total fault m p t fx : sig_wf (p_sig p) → signal_dispatch fault m p t fx ≠ OutOfFuel.
Proof.
  intros Hw. unfold signal_dispatch. destruct (negb _); [done|]. apply dispatch_loop_total; [done|].
  pose proof (pend_bound (p_sig p)). unfold NSIG. lia.
Qed.
Definition demo_tf : trapframe := mk_tf 1 2 3 4 5 6 7 8 9 10 11 12 13 14 15 0x80 0 0x100001000 0x1B 0x202 0x300001234 0x23.
Definition demo_id : cproc := mk_cproc 7 cred_init_root 1 0.
(** SIGINT caught and pending, SIGCHLD pending and ignored. *)
Definition demo_sigst : sigst := mk_sigst (Z.lor (SIGBIT 2) (SIGBIT 17)) 0 (<[2%nat := 0x100002000]> (replicate 32 0)) 0x100003000 0 false false 0.
Definition demo_proc : process := mk_process demo_id 1 0 7 PROC_RUNNING demo_sigst (mk_waits (-1) (-1) 0 false 0) false false 0 None.
Lemma demo_sig_wf : sig_wf demo_sigst.
Proof.
  constructor; [vm_compute; split; congruence|vm_compute; split; congruence|reflexivity| |vm_compute; split; congruence|vm_compute; split; congruence].
  apply Forall_insert; [apply Forall_replicate|]; vm_compute; split; congruence.
Qed.

Lemma signal_dispatch_total_witness : signal_dispatch (λ _, false) (λ _, 0) demo_proc demo_tf (replicate 512 0) ≠ OutOfFuel.
Proof. apply (signal_dispatch_total (λ _, false) (λ _, 0) demo_proc). apply demo_sig_wf. Defined.

(** ** The frame on the stack *)

Lemma le64_length x : length (le64 x) = 8%nat.
Proof. done. Qed.
Lemma le64_sum w : is_u64 w →
  let b k := u8 (Z.shiftr w (8 * k)) in
  b 0 + 256 * b 1 + 65536 * (b 2 + 256 * b 3) + 4294967296 * (b 4 + 256 * b 5 + 65536 * (b 6 + 256 * b 7)) = w.
Proof. intros Hw b. unfold b, u8, is_u64 in *. rewrite !Z.shiftr_div_pow2 by lia. Z.to_euclidean_division_equations. lia. Qed.

Lemma words_length ws : length (concat (le64 <$> ws)) = (8 * length ws)%nat.
Proof. induction ws as [|w ws IH]; [done|]. cbn [fmap list_fmap concat]. rewrite length_app, le64_length. cbn [length]. rewrite IH. lia. Qed.

Lemma words_byte ws rest : ∀ k j, 0 ≤ k < zlen ws → 0 ≤ j < 8 → (concat (le64 <$> ws) ++ rest).[8 * k + j] = u8 (Z.shiftr ws.[k] (8 * j)).
Proof.
  induction ws as [|w ws IH]; intros k j Hk Hj; [cbn in Hk; lia|]. cbn [fmap list_fmap concat]. rewrite <- (assoc_L (++)). destruct (decide (k = 0)) as [->|].
  - rewrite aget_app_l by (rewrite le64_length; lia). rewrite Z.mul_0_r, Z.add_0_l. unfold le64. rewrite aget_fmap by (rewrite length_seqZ; lia). do 3 f_equal.
    unfold aget. apply list_lookup_total_correct. rewrite lookup_seqZ. lia.
  - rewrite aget_app_r by (rewrite le64_length; lia). rewrite le64_length. replace (8 * k + j - Z.of_nat 8) with (8 * (k - 1) + j) by lia.
    cbn [length] in Hk. etransitivity; [apply IH; lia|]. unfold aget. by replace (Z.to_nat k) with (S (Z.to_nat (k - 1))) by lia.
Qed.

Lemma word_at_words ws rest k : Forall is_u64 ws → 0 ≤ k < zlen ws → word_at (concat (le64 <$> ws) ++ rest) k = ws.[k].
Proof.
  intros Hf Hk. assert (Hw : is_u64 ws.[k]) by (rewrite Forall_lookup in Hf; by eapply Hf, aget_lookup). etransitivity; [|exact (le64_sum ws.[k] Hw)]. cbv beta zeta.
  assert (Hb : ∀ j, 0 ≤ j < 8 → rd8 (λ a, (concat (le64 <$> ws) ++ rest).[a]) (8 * k + j) = u8 (Z.shiftr ws.[k] (8 * j))).
  { intros j Hj. unfold rd8. rewrite words_byte by done. apply u8_small, u8_range. }
  unfold word_at, rd64, rd32, rd16. rewrite <- !Z.add_assoc. rewrite !Hb by lia. pose proof (Hb 0 ltac:(lia)) as H0. rewrite Z.add_0_r in H0. rewrite H0. reflexivity.
Qed.

(** A frame read back is the frame written. *)
Definition tf_wf (t : trapframe) : Prop := Forall is_u64 (tf_words t).
Lemma sf_roundtrip f : is_u64 (magic f) → is_u64 (saved_mask f) → tf_wf (saved f) → sf_of (sf_bytes f) = f.
Proof.
  intros H1 H2 H3. unfold sf_of, sf_bytes. set (ws := magic f :: saved_mask f :: tf_words (saved f)).
  assert (Hf : Forall is_u64 ws) by (constructor; [exact H1|constructor; [exact H2|exact H3]]).
  assert (Hw : ∀ k, 0 ≤ k < 24 → word_at (concat (le64 <$> ws) ++ fpu f) k = ws.[k]) by (intros; by apply word_at_words).
  unfold tf_of. rewrite !Hw by lia. rewrite drop_app_ge by (rewrite words_length; cbn; lia). rewrite words_length.
  change (Z.to_nat 192 - 8 * length ws)%nat with 0%nat. cbn [drop]. destruct f as [? ? [] ?]. reflexivity.
Qed.
Lemma sf_bytes_length f : zlen (fpu f) = 512 → zlen (sf_bytes f) = SIGFRAME_SIZE.
Proof. intros H. unfold sf_bytes. rewrite length_app, words_length. cbn [length tf_words]. unfold SIGFRAME_SIZE. lia. Qed.

(** The handler's stack: below the red zone, aligned, inside the user window. *)
Definition frame_of (t : trapframe) : Z := Z.land (u64 (u64 (rsp t - 128) - SIGFRAME_SIZE)) (not64 15).

Lemma frame_place t : is_u64 (rsp t) → frame_of t + SIGFRAME_SIZE ≤ USER_ADDR_MAX →
  frame_of t mod 16 = 0 ∧ 0 ≤ frame_of t ∧ frame_of t + SIGFRAME_SIZE ≤ rsp t - 128.
Proof.
  intros Hs. unfold frame_of. set (x := u64 (u64 (rsp t - 128) - SIGFRAME_SIZE)). assert (Hx : is_u64 x) by apply u64_range.
  change 15 with (2 ^ 4 - 1). rewrite (land_not64_ones 4 x ltac:(lia) Hx). change (2 ^ 4) with 16. intros Hle. unfold x in *. clear x Hx.
  unfold SIGFRAME_SIZE, USER_ADDR_MAX in *. split; [apply Z.mod_mul; lia|]. unfold u64, is_u64 in *. Z.to_euclidean_division_equations. lia.
Qed.

Definition frame_saved (s : sigst) : Z := if sigsusp_active s then sigsusp_saved s else sig_blocked s.
Definition frame_for (s : sigst) (t : trapframe) (fx : list Z) : sigframe := mk_sf SIGFRAME_MAGIC (frame_saved s) t fx.

Lemma deliver_spec fault m p t fx sig disp p' m' t' : is_u64 (rsp t) → zlen fx = 512 →
  deliver_handler fault m p t fx sig disp = ToUser p' m' t' →
  let F := frame_of t in
  t' = enter_handler t disp (F - 8) sig ∧ USER_ADDR_MIN + 8 ≤ F ∧ F + SIGFRAME_SIZE ≤ USER_ADDR_MAX ∧
  (∀ i, 0 ≤ i < SIGFRAME_SIZE → m' (F + i) = (sf_bytes (frame_for (p_sig p) t fx)).[i] ∧ fault (F + i) = false) ∧
  (∀ a, rsp t - 128 ≤ a → m' a = m a).
Proof.
  intros Hs Hfx. unfold deliver_handler. fold (frame_saved (p_sig p)). fold (frame_for (p_sig p) t fx). fold (frame_of t). set (F := frame_of t). intros H. cbv zeta.
  assert (HF : is_u64 F) by (apply is_u64_land_l, u64_range). pose proof (sf_bytes_length (frame_for (p_sig p) t fx) Hfx) as HL.
  pose proof (copy_to_user_spec fault m F (sf_bytes (frame_for (p_sig p) t fx)) HF ltac:(rewrite HL; vm_compute; split; congruence)) as C1.
  destruct (copy_to_user fault m F _) as [m1 r1]. rewrite HL in C1. destruct C1 as [C1 [(-> & C2 & _ & C3 & C4 & C5)|(-> & _)]]; [|done]. cbn [ztrue] in H.
  set (s := if sigsusp_active (p_sig p) then _ else _) in H. change (ztrue 0) with false in H. cbv iota in H.
  assert (Er : u64 (F - 8) = F - 8) by (apply u64_small; unfold USER_ADDR_MIN in C3; unfold is_u64 in *; lia). rewrite Er in H.
  pose proof (copy_to_user_spec fault m1 (F - 8) (le64 (sig_restorer s)) ltac:(unfold USER_ADDR_MIN in C3; unfold is_u64 in *; lia) ltac:(vm_compute; split; congruence)) as D.
  destruct (copy_to_user fault m1 (F - 8) _) as [m2 r2]. rewrite le64_length in D. destruct D as [D1 [(-> & D2 & _ & D3 & D4 & D5)|(-> & _)]]; [|done].
  change (ztrue 0) with false in H. injection H as <- <- <-. destruct (frame_place t Hs C4) as (_ & P1 & P2). fold F in P1, P2. unfold SIGFRAME_SIZE in *. split_and!; [done|lia|lia|..].
  - intros i Hi. split; [|by apply C5]. rewrite D1 by (right; lia). by apply C2.
  - intros a Ha. rewrite D1, C1 by (right; lia). done.
Qed.

(** What reaches user code: the interrupted frame, or a handler's. *)
Lemma dispatch_user fault fx t fuel : ∀ m p p' m' t', sig_wf (p_sig p) → dispatch_loop fuel fault m p t fx = ToUser p' m' t' →
  (t' = t ∧ m' = m) ∨
  ∃ q sig, frame_saved (p_sig q) = frame_saved (p_sig p) ∧ deliver_handler fault m q t fx sig (sig_handler (p_sig p)).[sig] = ToUser p' m' t'.
Proof.
  induction fuel as [|fuel IH]; intros m p p' m' t' Hw; [done|]. destruct (dispatch_cases fuel fault m p t fx Hw) as [[-> _]|(sig & H1 & _ & H2 & _ & ->)].
  { intros H. injection H as _ <- <-. by left. }
  unfold act_on_signal. set (q := set_sig p (clear_pending (p_sig p) sig)). specialize (IH m q p' m' t' (clear_pending_wf (p_sig p) sig Hw)).
  change (sig_handler (p_sig q)) with (sig_handler (p_sig p)) in *. change (frame_saved (p_sig q)) with (frame_saved (p_sig p)) in IH.
  destruct (sig =? SIGKILL); [done|]. destruct (sig =? SIGSTOP); [done|]. destruct (_ =? SIG_IGN); [done|]. destruct (_ =? SIG_DFL).
  - destruct (sig_default_ignore sig); [done|]. by destruct (sig_default_stop sig).
  - intros H. right. exists q, sig. split; [reflexivity|exact H].
Qed.

(** A context the hardware saved for ring-3 code. *)
Record user_frame (t : trapframe) : Prop := {
  uf_words : tf_wf t;
  uf_cs : cs t = 0x1B;
  uf_ss : ss t = 0x23;
  uf_flags : Z.testbit (rflags t) 1 = true ∧ Z.testbit (rflags t) 9 = true;
  uf_rsp : rsp t < USER_ADDR_MAX
}.
(** An FPU image whose MXCSR the processor accepts. *)
Record fpu_image (mask : Z) (fx : list Z) : Prop := {
  fi_len : zlen fx = 512;
  fi_bytes : Forall is_u8 fx;
  fi_mxcsr : Z.land (rd32 (λ a, fx.[a]) 24) mask = rd32 (λ a, fx.[a]) 24
}.

Lemma tf_wf_rsp t : tf_wf t → is_u64 (rsp t).
Proof. intros H. unfold tf_wf in H. rewrite Forall_lookup in H. apply (H 20%nat). reflexivity. Qed.
Lemma tf_wf_rflags t : tf_wf t → is_u64 (rflags t).
Proof. intros H. unfold tf_wf in H. rewrite Forall_lookup in H. apply (H 19%nat). reflexivity. Qed.

Lemma force_user_id t : user_frame t → force_user t = t.
Proof.
  intros [W1 W2 W3 [W4 W5] _]. pose proof (tf_wf_rflags t W1) as Hr.
  assert (E : Z.lor (Z.land (rflags t) (not64 0x200)) 0x202 = rflags t).
  { rewrite land_not64 by done. apply Z.bits_inj'. intros i Hi. rewrite Z.lor_spec, Z.ldiff_spec. change 0x200 with (2 ^ 9). change 0x202 with (Z.lor (2 ^ 1) (2 ^ 9)).
    rewrite Z.lor_spec, !pow2_testbit by lia. destruct (Z.eqb_spec 9 i) as [<-|]; [by rewrite W5|]. destruct (Z.eqb_spec 1 i) as [<-|]; [by rewrite W4|].
    by rewrite andb_true_r, orb_false_r. }
  unfold force_user. rewrite E, <- W2, <- W3. by destruct t.
Qed.

Lemma word_byte b0 b1 b2 b3 i : is_u8 b0 → is_u8 b1 → is_u8 b2 → is_u8 b3 → 0 ≤ i < 4 →
  u8 (Z.shiftr (b0 + 256 * b1 + 65536 * (b2 + 256 * b3)) (8 * i)) = [b0; b1; b2; b3].[i].
Proof.
  unfold is_u8, u8. intros H0 H1 H2 H3 Hi. rewrite Z.shiftr_div_pow2 by lia. assert (i = 0 ∨ i = 1 ∨ i = 2 ∨ i = 3) as [-> | [-> | [-> | ->]]] by lia.
  - change (2 ^ (8 * 0)) with 1. change ([b0; b1; b2; b3].[0]) with b0. Z.to_euclidean_division_equations. lia.
  - change (2 ^ (8 * 1)) with 256. change ([b0; b1; b2; b3].[1]) with b1. Z.to_euclidean_division_equations. lia.
  - change (2 ^ (8 * 2)) with 65536. change ([b0; b1; b2; b3].[2]) with b2. Z.to_euclidean_division_equations. lia.
  - change (2 ^ (8 * 3)) with 16777216. change ([b0; b1; b2; b3].[3]) with b3. Z.to_euclidean_division_equations. lia.
Qed.

Lemma mask_mxcsr_id mask fx : fpu_image mask fx → mask_mxcsr fx mask = fx.
Proof.
  intros [H1 H2 H3]. unfold mask_mxcsr. rewrite H3.
  assert (Hb : ∀ i, 0 ≤ i < 512 → is_u8 fx.[i]) by (intros i Hi; rewrite Forall_lookup in H2; eapply H2, aget_lookup; lia).
  assert (Hi : ∀ i, 0 ≤ i < 4 → u8 (Z.shiftr (rd32 (λ a, fx.[a]) 24) (8 * i)) = fx.[24 + i]).
  { intros i Hi. pose proof (Hb 24 ltac:(lia)). pose proof (Hb 25 ltac:(lia)). pose proof (Hb 26 ltac:(lia)). pose proof (Hb 27 ltac:(lia)).
    unfold rd32, rd16, rd8. change (24 + 1) with 25. change (24 + 2) with 26. change (26 + 1) with 27. rewrite !(u8_small fx.[_]) by done.
    rewrite word_byte by done. assert (i = 0 ∨ i = 1 ∨ i = 2 ∨ i = 3) as [-> | [-> | [-> | ->]]] by lia; reflexivity. }
  apply (zfor_inv (λ _ l, l = fx) 4 0); [done|]. intros j l Hj ->. rewrite Hi by lia. apply aset_same. lia.
Qed.

Lemma sf_bytes_u8 f : Forall is_u8 (fpu f) → Forall is_u8 (sf_bytes f).
Proof.
  intros H. unfold sf_bytes. apply Forall_app. split; [|done]. generalize (magic f :: saved_mask f :: tf_words (saved f)) as ws. intros ws.
  induction ws as [|w ws IH]; [constructor|]. cbn [fmap list_fmap concat]. apply Forall_app. split; [|done]. unfold le64. apply Forall_fmap, Forall_true. intros k. apply u8_range.
Qed.

Lemma sigreturn_frame fault mask m s th f : is_u64 (rsp th) → USER_ADDR_MIN ≤ rsp th → rsp th + SIGFRAME_SIZE ≤ USER_ADDR_MAX →
  (∀ i, 0 ≤ i < SIGFRAME_SIZE → m (rsp th + i) = (sf_bytes f).[i] ∧ fault (rsp th + i) = false) →
  magic f = SIGFRAME_MAGIC → is_u64 (saved_mask f) → user_frame (saved f) → fpu_image mask (fpu f) →
  ksys_sigreturn fault mask m s th = SrUser (set_blocked s (saved_mask f)) (saved f) (fpu f) (s64 (rax (saved f))).
Proof.
  intros H1 H2 H3 H4 Hm Hk Hu Hf. pose proof (sf_bytes_length f (fi_len _ _ Hf)) as HL. pose proof (sf_bytes_u8 f (fi_bytes _ _ Hf)) as HB. unfold ksys_sigreturn.
  destruct (copy_from_user_spec fault m (rsp th) SIGFRAME_SIZE H1 ltac:(vm_compute; split; congruence)) as [C1 C2].
  destruct (proj2 C2) as [l El]; [split; [unfold SIGFRAME_SIZE in *; lia|]; intros i Hi; by apply H4|]. rewrite El. destruct (C1 l El) as [L1 L2].
  assert (l = sf_bytes f) as ->.
  { apply list_eq_aget; [lia|]. intros i Hi. rewrite L2 by lia. unfold rd8. rewrite (proj1 (H4 i ltac:(lia))). apply u8_small. rewrite Forall_lookup in HB. eapply HB, aget_lookup. lia. }
  rewrite sf_roundtrip; [|rewrite Hm; vm_compute; split; congruence|done|apply Hu]. rewrite Hm, Z.eqb_refl. cbn [negb]. rewrite force_user_id, mask_mxcsr_id by done.
  change 0x0000800000000000 with USER_ADDR_MAX. rewrite (proj2 (Z.leb_gt USER_ADDR_MAX (rsp (saved f)))) by apply Hu. reflexivity.
Qed.

Lemma dispatch_ring3 fault m p t fx : Z.land (cs t) 3 = 3 → signal_dispatch fault m p t fx = dispatch_loop (Z.to_nat NSIG) fault m p t fx.
Proof. intros E. unfold signal_dispatch. generalize (dispatch_loop (Z.to_nat NSIG) fault m p t fx). intros D. by rewrite E. Qed.

(** C8. A signal handler is invisible to the code it interrupts.  When delivery
    enters a handler, nothing at or above the red zone of the interrupted stack
    is written; and when the handler returns (its stack pointer past the return
    address, the frame as the kernel wrote it), [ksys_sigreturn] restores every
    register, the flags, the FPU image and the signal mask in force before,
    that of a pending sigsuspend included. *)
Theorem handler_roundtrip fault mask m p t fx p' m' t' :
  sig_wf (p_sig p) → user_frame t → fpu_image mask fx →
  signal_dispatch fault m p t fx = ToUser p' m' t' → t' ≠ t →
  (∀ a, rsp t - 128 ≤ a → m' a = m a) ∧
  ∀ m2 s2 th, rsp th = rsp t' + 8 → (∀ a, rsp th ≤ a < rsp th + SIGFRAME_SIZE → m2 a = m' a) →
    ksys_sigreturn fault mask m2 s2 th = SrUser (set_blocked s2 (frame_saved (p_sig p))) t fx (s64 (rax t)).
Proof.
  intros Hw Hu Hf H Hne. rewrite dispatch_ring3 in H by (rewrite (uf_cs t Hu); reflexivity).
  destruct (dispatch_user fault fx t (Z.to_nat NSIG) m p p' m' t' Hw H) as [[-> _]|(q & sig & Eq & Hd)]; [done|].
  pose proof (tf_wf_rsp t (uf_words t Hu)) as Hs. apply deliver_spec in Hd as (-> & D1 & D2 & D3 & D4); [|done|apply Hf]. cbn [rsp enter_handler].
  split; [done|]. intros m2 s2 th E Hm. replace (frame_of t - 8 + 8) with (frame_of t) in E by lia. rewrite E in Hm.
  rewrite <- Eq. apply (sigreturn_frame fault mask m2 s2 th (frame_for (p_sig q) t fx)); try done; rewrite ?E; try (unfold USER_ADDR_MIN, USER_ADDR_MAX, is_u64 in *; unfold SIGFRAME_SIZE in *; lia).
  - intros i Hi. rewrite Hm by lia. by apply D3.
  - cbn [saved_mask frame_for]. rewrite Eq. unfold frame_saved. destruct (sigsusp_active _); apply Hw.
Qed.
Definition user_tf (d : dispatched) : option trapframe := match d with ToUser _ _ t => Some t | _ => None end.
Lemma demo_frame : user_frame demo_tf.
Proof. constructor; [|done|done|done|done]. repeat constructor; vm_compute; (reflexivity || discriminate). Qed.
Lemma demo_fpu : fpu_image 0xFFBF (replicate 512 0).
Proof. constructor; [done|apply Forall_replicate; vm_compute; split; (reflexivity || discriminate)|vm_compute; reflexivity]. Qed.
Lemma handler_roundtrip_witness :
  ∃ p' m' t', signal_dispatch (λ _, false) (λ _, 0) demo_proc demo_tf (replicate 512 0) = ToUser p' m' t' ∧ rip t' = 0x100002000 ∧ rdi t' = 2 ∧
  ∀ s2, ksys_sigreturn (λ _, false) 0xFFBF m' s2 (tf_of (λ k, if k =? 20 then rsp t' + 8 else 0)) = SrUser (set_blocked s2 0) demo_tf (replicate 512 0) 15.
Proof.
  assert (E : user_tf (signal_dispatch (λ _, false) (λ _, 0) demo_proc demo_tf (replicate 512 0)) = Some (enter_handler demo_tf 0x100002000 0x300000ee8 2)) by (vm_compute; reflexivity).
  destruct (signal_dispatch _ _ _ _ _) as [p' m' t'| | |] eqn:Ed; try discriminate E. injection E as ->. do 3 eexists. split; [reflexivity|]. split; [reflexivity|]. split; [reflexivity|].
  intros s2. apply (handler_roundtrip (λ _, false) 0xFFBF (λ _, 0) demo_proc demo_tf (replicate 512 0) p' m' (enter_handler demo_tf 0x100002000 0x300000ee8 2) demo_sig_wf demo_frame demo_fpu Ed ltac:(discriminate)); done.
Defined.

(** ** The signal state stays well formed *)

(** What can happen to the signal state of one process. *)
Inductive sig_event :=
  | EvInit
  | EvPost (p : process) (sig : Z)
  | EvTakeStop
  | EvAction (sig handler restorer : Z)
  | EvMask (fault : Z → bool) (m : mem) (how set oldset : Z)
  | EvSuspend (mask : Z)
  | EvReturn (fault : Z → bool) (mxcsr : Z) (m : mem) (t : trapframe)
  | EvDeliver (fault : Z → bool) (m : mem) (p : process) (t : trapframe) (fx : list Z)
  | EvExec.

Definition sig_step (s : sigst) (e : sig_event) : sigst :=
  match e with
  | EvInit => signal_init_proc s
  | EvPost p sig => p_sig (post_plain (set_sig p s) sig)
  | EvTakeStop => (signal_take_stop s).1
  | EvAction sig h r => (ksys_sigaction s sig h r).1
  | EvMask fault m how set old => (ksys_sigprocmask fault m s how set old).1.1
  | EvSuspend mask => sigsuspend_mask s mask
  | EvReturn fault mx m t => match ksys_sigreturn fault mx m s t with SrUser s' _ _ _ => s' | _ => s end
  | EvDeliver fault m p t fx =>
      match signal_dispatch fault m (set_sig p s) t fx with
      | ToUser q _ _ | Killed q _ _ | Stopped q _ _ => p_sig q
      | OutOfFuel => s
      end
  | EvExec => exec_signals s
  end.

(** The arguments a system call can pass: registers. *)
Definition ev_args (e : sig_event) : Prop :=
  match e with
  | EvAction _ h r => is_u64 h ∧ is_u64 r
  | EvMask _ _ _ set _ | EvSuspend set => is_u64 set
  | _ => True
  end.

Lemma wf_pending s x : sig_wf s → is_u64 x → sig_wf (set_pending s x).
Proof. intros [? ? ? ? ? ?] Hx. by constructor. Qed.
Lemma wf_blocked s x : sig_wf s → is_u64 x → sig_wf (set_blocked s x).
Proof. intros [? ? ? ? ? ?] Hx. by constructor. Qed.
Lemma wf_susp s a x : sig_wf s → is_u64 x → sig_wf (set_susp s a x).
Proof. intros [? ? ? ? ? ?] Hx. by constructor. Qed.
Lemma wf_handlers s h r : sig_wf s → zlen h = NSIG → Forall is_u64 h → is_u64 r → sig_wf (set_handler s h r).
Proof. intros [? ? ? ? ? ?] Hl Hf Hr. by constructor. Qed.
Lemma sigbit_u64 n : 0 ≤ n < NSIG → is_u64 (SIGBIT n).
Proof.
  intros Hn. unfold SIGBIT. rewrite Z.shiftl_1_l. split; [apply Z.pow_nonneg; lia|]. change 18446744073709551616 with (2 ^ 64). apply Z.pow_lt_mono_r; unfold NSIG in Hn; lia.
Qed.
Lemma zero_u64 : is_u64 0.
Proof. vm_compute. split; congruence. Qed.

Lemma handlers_loop (n : nat) h (f : Z → list Z → list Z) : (∀ i l, zlen l = NSIG → Forall is_u64 l → zlen (f i l) = NSIG ∧ Forall is_u64 (f i l)) →
  zlen h = NSIG → Forall is_u64 h → zlen (zfor n 0 f h) = NSIG ∧ Forall is_u64 (zfor n 0 f h).
Proof. intros Hf Hl Hh. apply (zfor_inv (λ _ l, zlen l = NSIG ∧ Forall is_u64 l) n 0); [done|]. intros j l _ [H1 H2]. by apply Hf. Qed.

Lemma take_stop_wf n : ∀ s d k, sig_wf s → sig_wf (take_stop_from s d k n).1.
Proof.
  induction n as [|n IH]; intros s d k Hw; [done|]. cbn [take_stop_from]. destruct (negb _); [by apply IH|]. destruct (_ || _); [by apply clear_pending_wf|by apply IH].
Qed.

Lemma post_plain_wf p sig : sig_wf (p_sig p) → sig_wf (p_sig (post_plain p sig)).
Proof.
  intros Hw. unfold post_plain, bad_target. destruct (_ || _ || _) eqn:E; [done|]. apply orb_false_iff in E as [[E1 E2]%orb_false_iff _]. zbool.
  assert (Hp : sig_wf (p_sig (post_pending p sig))).
  { unfold post_pending. rewrite p_sig_set. destruct (sig_default_stop sig).
    - apply wf_pending; [apply wf_pending; [done|apply is_u64_land_l, Hw]|apply is_u64_lor; [apply is_u64_land_l, Hw|apply sigbit_u64; lia]].
    - apply wf_pending; [done|apply is_u64_lor; [apply Hw|apply sigbit_u64; lia]]. }
  generalize dependent (post_pending p sig). intros q Hq. unfold post_wake. destruct (_ && _); [|done]. unfold sched_wake_task. cbv zeta.
  destruct (tf_rip _); repeat case_match; try done; destruct Hq; by constructor.
Qed.

Lemma deliver_wf fault m p t fx sig disp : 1 ≤ sig < NSIG → sig_wf (p_sig p) →
  match deliver_handler fault m p t fx sig disp with ToUser q _ _ | Killed q _ _ | Stopped q _ _ => sig_wf (p_sig q) | OutOfFuel => True end.
Proof.
  intros Hs Hw. unfold deliver_handler. set (s := if sigsusp_active (p_sig p) then _ else _ : sigst).
  assert (H : sig_wf s) by (unfold s; destruct (sigsusp_active (p_sig p)); [apply wf_susp; [done|apply Hw]|done]). clearbody s.
  destruct (copy_to_user _ _ _ _) as [m1 r1]. destruct (ztrue r1); [by rewrite p_sig_set|]. destruct (copy_to_user _ _ _ _) as [m2 r2]. destruct (ztrue r2); [by rewrite p_sig_set|].
  rewrite p_sig_set. apply wf_blocked; [done|]. apply is_u64_lor; [apply H|apply sigbit_u64; lia].
Qed.

Lemma dispatch_wf fault fx t fuel : ∀ m p, sig_wf (p_sig p) →
  match dispatch_loop fuel fault m p t fx with ToUser q _ _ | Killed q _ _ | Stopped q _ _ => sig_wf (p_sig q) | OutOfFuel => True end.
Proof.
  induction fuel as [|fuel IH]; intros m p Hw; [done|]. destruct (dispatch_cases fuel fault m p t fx Hw) as [[-> _]|(sig & H1 & _ & _ & _ & ->)].
  { unfold no_signal. destruct (sigsusp_active (p_sig p)); [|done]. rewrite p_sig_set. apply wf_susp; [apply wf_blocked; [done|apply Hw]|apply Hw]. }
  pose proof (clear_pending_wf (p_sig p) sig Hw) as Hc. specialize (IH m (set_sig p (clear_pending (p_sig p) sig)) Hc). unfold act_on_signal.
  destruct (sig =? SIGKILL); [exact Hc|]. destruct (sig =? SIGSTOP); [exact Hc|]. destruct (_ =? SIG_IGN); [exact IH|]. destruct (_ =? SIG_DFL).
  - destruct (sig_default_ignore sig); [exact IH|]. destruct (sig_default_stop sig); exact Hc.
  - apply deliver_wf; [done|exact Hc].
Qed.

Lemma sig_step_wf s e : sig_wf s → ev_args e → sig_wf (sig_step s e).
Proof.
  intros Hw He. pose proof Hw as [W1 W2 W3 W4 W5 W6]. destruct e as [|p sig| |sig h r|fault m how set old|mask|fault mx m t|fault m p t fx|]; cbn [sig_step].
  - unfold signal_init_proc. destruct (handlers_loop (Z.to_nat NSIG) (sig_handler s) (λ i h, h.[i <- SIG_DFL])) as [H1 H2]; [|done|done|].
    + intros i l Hl Hf. split; [by rewrite aset_length|]. apply Forall_insert; [done|apply zero_u64].
    + apply wf_handlers; [|done|done|apply zero_u64]. apply wf_blocked; [apply wf_pending; [done|apply zero_u64]|apply zero_u64].
  - by apply post_plain_wf.
  - unfold signal_take_stop. destruct (ztrue _); [done|by apply take_stop_wf].
  - unfold ksys_sigaction. destruct (_ || _); [done|]. destruct (_ || _); [done|]. destruct He as [Hh Hr]. apply wf_handlers; [done|by rewrite aset_length|by apply Forall_insert|by destruct (ztrue r)].
  - unfold ksys_sigprocmask. destruct (if how =? SIG_BLOCK then _ else _) as [b|] eqn:Eb; [|done].
    assert (Hb : is_u64 b) by (repeat split_if; simplify_eq; try done; [by apply is_u64_lor|by apply is_u64_land_l]).
    assert (H : sig_wf (set_blocked s (Z.land b (not64 SIG_UNMASKABLE)))) by (apply wf_blocked; [done|by apply is_u64_land_l]).
    destruct (old =? 0); [done|]. by destruct (copy_to_user _ _ _ _).
  - unfold sigsuspend_mask. destruct (sigsusp_active s); [done|]. apply wf_susp; [apply wf_blocked; [done|by apply is_u64_land_l]|done].
  - unfold ksys_sigreturn. destruct (copy_from_user _ _ _ _) as [l|]; [|done]. destruct (negb _); [done|]. destruct (_ <=? _); [done|]. apply wf_blocked; [done|]. apply rd64_range.
  - unfold signal_dispatch. destruct (negb _); [done|]. pose proof (dispatch_wf fault fx t (Z.to_nat NSIG) m (set_sig p s) Hw) as H. by destruct (dispatch_loop _ _ _ _ _ _).
  - unfold exec_signals. destruct (handlers_loop 32 (sig_handler s) (λ i h, if negb (h.[i] =? 0) && negb (h.[i] =? 1) then h.[i <- 0] else h)) as [H1 H2]; [|done|done|].
    + intros i l Hl Hf. destruct (_ && _); [|done]. split; [by rewrite aset_length|]. apply Forall_insert; [done|apply zero_u64].
    + by constructor.
Qed.

