(* ===== verification/SignalKill.v ===== *)
(** * Signals between processes

    SIGKILL cannot be escaped, kill(2) reaches only processes the sender may
    signal, and what a forged sigreturn frame can set. *)

From S2P Require Import Prelude Vma Frames Vmm Cred UserCopy Signal SignalProps.

(** ** SIGKILL *)

Lemma noop_mask_kill s : Z.testbit (sig_noop_mask s) SIGKILL = false ∧ Z.testbit (sig_noop_mask s) SIGSTOP = false.
Proof.
  unfold sig_noop_mask. apply (zfor_inv (λ _ m, Z.testbit m SIGKILL = false ∧ Z.testbit m SIGSTOP = false) (Z.to_nat (NSIG - 1)) 1); [done|].
  intros j m Hj [H1 H2]. cbv zeta. destruct (Z.eqb_spec j SIGKILL); [done|]. destruct (Z.eqb_spec j SIGSTOP); [done|]. cbn [orb]. destruct (_ || _); [|done].
  rewrite !Z.lor_spec, !sigbit_testbit, H1, H2 by (unfold SIGKILL, SIGSTOP; lia). split; (apply Z.eqb_neq; done).
Qed.

Lemma acts_on_kill s : acts_on s SIGKILL = true.
Proof.
  unfold acts_on. change (SIGKILL =? SIGKILL) with true. cbn [orb andb]. unfold SIGBIT, ztrue. rewrite land_shiftl1 by (unfold SIGKILL; lia).
  by rewrite (proj1 (noop_mask_kill s)).
Qed.

Lemma post_wake_pending p sig : sig_pending (p_sig (post_wake p sig)) = sig_pending (p_sig p).
Proof. unfold post_wake. destruct (_ && _); [|done]. unfold sched_wake_task. cbv zeta. destruct (tf_rip _); repeat case_match; done. Qed.

Lemma post_kill_state p : pstat p ≠ PROC_ZOMBIE →
  let q := post_wake (post_pending (post_kill p) SIGKILL) SIGKILL in pstat q ≠ PROC_BLOCKED ∧ pstat q ≠ PROC_STOPPED ∧ pstat q ≠ PROC_ZOMBIE.
Proof.
  intros Hz q. unfold q, post_wake. rewrite acts_on_kill. cbn [andb]. set (r := post_pending (post_kill p) SIGKILL).
  assert (Hr : pstat r ≠ PROC_STOPPED ∧ pstat r ≠ PROC_ZOMBIE).
  { unfold r, post_kill, sched_wake_task. cbn. destruct (bool_decide (pstat p = PROC_STOPPED)) eqn:E; cbn; [done|]. by apply bool_decide_eq_false in E. }
  clearbody r. destruct (bool_decide (pstat r = PROC_BLOCKED)) eqn:E; [|apply bool_decide_eq_false in E; tauto]. apply bool_decide_eq_true in E.
  cbv zeta. change (negb (SIGKILL =? SIGKILL)) with false. cbn [andb tf_rip set_wait]. unfold sched_wake_task. destruct (tf_rip r); cbn [pstat set_wait]; rewrite E; done.
Qed.

(** A pending SIGKILL at delivery: death, or the handler of a lower signal with
    SIGKILL still pending. *)
Definition dies (hs : list Z) (d : dispatched) : Prop :=
  match d with
  | Killed _ _ _ => True
  | ToUser p' _ t' => Z.testbit (sig_pending (p_sig p')) SIGKILL = true ∧ ∃ sig, 1 ≤ sig < SIGKILL ∧ hs.[sig] ≠ SIG_DFL ∧ hs.[sig] ≠ SIG_IGN ∧ rip t' = hs.[sig]
  | Stopped _ _ _ | OutOfFuel => False
  end.

Lemma deliver_dies fault m p t fx sig : 1 ≤ sig < SIGKILL → Z.testbit (sig_pending (p_sig p)) SIGKILL = true →
  (sig_handler (p_sig p)).[sig] ≠ SIG_DFL → (sig_handler (p_sig p)).[sig] ≠ SIG_IGN → dies (sig_handler (p_sig p)) (deliver_handler fault m p t fx sig (sig_handler (p_sig p)).[sig]).
Proof.
  intros Hs Hp H0 H1. unfold deliver_handler. destruct (copy_to_user _ _ _ _) as [m1 r1]. destruct (ztrue r1); [done|]. destruct (copy_to_user _ _ _ _) as [m2 r2]. destruct (ztrue r2); [done|].
  cbn [dies]. split; [destruct (sigsusp_active (p_sig p)); exact Hp|]. exists sig. split_and!; [lia|lia|done|done|done].
Qed.

Lemma dispatch_dies fault fx t fuel : ∀ m p, sig_wf (p_sig p) → Z.testbit (sig_pending (p_sig p)) SIGKILL = true → pend_count (p_sig p) < Z.of_nat fuel →
  dies (sig_handler (p_sig p)) (dispatch_loop fuel fault m p t fx).
Proof.
  induction fuel as [|fuel IH]; intros m p Hw Hk Hc; [pose proof (pend_bound (p_sig p)); lia|]. pose proof (sw_pending _ Hw) as Hpu.
  assert (Hd : Z.testbit (deliverable (p_sig p)) SIGKILL = true) by (rewrite deliverable_bit, Hk by (done || (unfold SIGKILL; lia)); by rewrite orb_true_r).
  destruct (dispatch_cases fuel fault m p t fx Hw) as [[_ Hno]|(sig & H1 & _ & H2 & H3 & ->)]; [rewrite Hno in Hd by (unfold SIGKILL, NSIG; lia); done|].
  assert (Hle : sig ≤ SIGKILL) by (destruct (decide (sig ≤ SIGKILL)) as [|Hn]; [done|]; rewrite H3 in Hd by (unfold SIGKILL in *; lia); done).
  pose proof (clear_pending_count (p_sig p) sig Hw H1 H2) as Hlt. specialize (IH m (set_sig p (clear_pending (p_sig p) sig)) (clear_pending_wf (p_sig p) sig Hw)).
  rewrite p_sig_set in IH. unfold act_on_signal. destruct (Z.eqb_spec sig SIGKILL) as [|Hne]; [exact I|].
  assert (Hk' : Z.testbit (sig_pending (clear_pending (p_sig p) sig)) SIGKILL = true) by (rewrite clear_pending_bit, Hk by (done || (unfold SIGKILL; lia)); by rewrite (proj2 (Z.eqb_neq sig SIGKILL))).
  specialize (IH Hk' ltac:(lia)). change (sig_handler (clear_pending (p_sig p) sig)) with (sig_handler (p_sig p)) in IH. rewrite p_sig_set. change (sig_handler (clear_pending (p_sig p) sig)) with (sig_handler (p_sig p)).
  assert (Hst : (sig =? SIGSTOP) = false ∧ sig_default_ignore sig = false ∧ sig_default_stop sig = false) by (unfold sig_default_ignore, sig_default_stop, SIGSTOP, SIGCHLD, SIGCONT, SIGURG, SIGWINCH, SIGTSTP, SIGTTIN, SIGTTOU, SIGKILL in *; lia).
  destruct Hst as (-> & -> & ->). destruct (Z.eqb_spec (sig_handler (p_sig p)).[sig] SIG_IGN); [exact IH|]. destruct (Z.eqb_spec (sig_handler (p_sig p)).[sig] SIG_DFL); [exact I|].
  apply (deliver_dies fault m (set_sig p (clear_pending (p_sig p) sig)) t fx sig); [lia|exact Hk'|done|done].
Qed.

Lemma upd_at t i p f : 0 ≤ i < zlen t → t.[i] = Some p → (upd t i f).[i] = Some (f p).
Proof. intros Hi E. unfold upd. rewrite E. by apply aget_aset_eq. Qed.


(** A stopped process that masks everything and ignores SIGKILL as far as it can. *)
Definition demo_stubborn : process := mk_process demo_id 1 0 7 PROC_STOPPED (mk_sigst 0 ALL_ONES (replicate 32 1) 0 0 false false 0) (mk_waits (-1) (-1) 0 false 0) true false 19 None.
Lemma demo_stubborn_wf : sig_wf (p_sig demo_stubborn).
Proof.
  constructor; [vm_compute; split; congruence|vm_compute; split; congruence|reflexivity|apply Forall_replicate; vm_compute; split; congruence|vm_compute; split; congruence|vm_compute; split; congruence].
Qed.

(** ** Who can be signalled *)

(** A step of the table that keeps every process and its identity, and changes
    only the entries of [A]. *)
Definition same_id (a b : option process) : Prop :=
  match a, b with
  | Some p, Some q => p_id q = p_id p ∧ ppid q = ppid p
  | None, None => True
  | _, _ => False
  end.
Record touched (A : Z → Prop) (t t' : ptable) : Prop := {
  to_len : length t' = length t;
  to_id : ∀ j, 0 ≤ j < zlen t → same_id t.[j] t'.[j];
  to_same : ∀ j, 0 ≤ j < zlen t → t'.[j] = t.[j] ∨ A j
}.

Lemma same_id_refl a : same_id a a.
Proof. by destruct a. Qed.
Lemma same_id_trans a b c : same_id a b → same_id b c → same_id a c.
Proof. destruct a, b, c; cbn; try done. intros [-> ->] [-> ->]. done. Qed.
Lemma touched_refl A t : touched A t t.
Proof. constructor; [done|intros; apply same_id_refl|by left]. Qed.
Lemma touched_trans A B t t' t'' : touched A t t' → touched B t' t'' → (∀ j, 0 ≤ j < zlen t → B j → A j) → touched A t t''.
Proof.
  intros [L1 I1 S1] [L2 I2 S2] Hsub. constructor; [congruence| |]; intros j Hj; rewrite <- L1 in Hj.
  - eapply same_id_trans; [apply I1; lia|by apply I2].
  - destruct (S2 j Hj) as [->|?]; [apply S1; lia|]. right. apply Hsub; [lia|done].
Qed.
Lemma touched_weaken (A B : Z → Prop) t t' : touched B t t' → (∀ j, 0 ≤ j < zlen t → B j → A j) → touched A t t'.
Proof. intros H Hsub. by apply (touched_trans A B t t t'); [apply touched_refl| |]. Qed.
Lemma touched_set t i p q : 0 ≤ i → t.[i] = Some p → p_id q = p_id p → ppid q = ppid p → touched (λ j, j = i) t t.[i <- Some q].
Proof.
  intros Hi E H1 H2. constructor; [apply aset_length| |].
  - intros j Hj. destruct (decide (j = i)) as [->|]; [|rewrite aget_aset_ne by lia; apply same_id_refl]. rewrite aget_aset_eq, E by lia. done.
  - intros j Hj. destruct (decide (j = i)) as [->|]; [by right|left]. apply aget_aset_ne; lia.
Qed.
Lemma touched_upd t i f : 0 ≤ i → (∀ p, p_id (f p) = p_id p ∧ ppid (f p) = ppid p) → touched (λ j, j = i) t (upd t i f).
Proof. intros Hi Hf. unfold upd. destruct t.[i] as [p|] eqn:E; [|apply touched_refl]. apply (touched_set t i p); [done|done|apply Hf|apply Hf]. Qed.

Lemma post_pending_id p sig : p_id (post_pending p sig) = p_id p ∧ ppid (post_pending p sig) = ppid p.
Proof. done. Qed.
Lemma post_wake_id p sig : p_id (post_wake p sig) = p_id p ∧ ppid (post_wake p sig) = ppid p.
Proof. unfold post_wake. destruct (_ && _); [|done]. unfold sched_wake_task. cbv zeta. destruct (tf_rip _); repeat case_match; done. Qed.
Lemma post_id p sig : p_id (post_wake (post_pending p sig) sig) = p_id p ∧ ppid (post_wake (post_pending p sig) sig) = ppid p.
Proof. exact (post_wake_id (post_pending p sig) sig). Qed.
Lemma post_plain_id p sig : p_id (post_plain p sig) = p_id p ∧ ppid (post_plain p sig) = ppid p.
Proof. unfold post_plain. destruct (bad_target p sig); [done|apply post_id]. Qed.
Lemma post_kill_id p : p_id (post_kill p) = p_id p ∧ ppid (post_kill p) = ppid p.
Proof. unfold post_kill, sched_wake_task. by destruct (negb _). Qed.

Lemma find_from_spec l x : ∀ k i, find_from l x k = Some i → k ≤ i < k + zlen l ∧ ∃ p, l.[i - k] = Some p ∧ pid p = x.
Proof.
  induction l as [|[q|] l IH]; intros k i H; cbn [find_from] in H; [done| |].
  - destruct (Z.eqb_spec (pid q) x) as [E|].
    + injection H as <-. cbn [length]. split; [lia|]. exists q. by rewrite Z.sub_diag.
    + destruct (IH (k + 1) i H) as (Hi & p & Hp & Hx). cbn [length]. split; [lia|]. exists p. split; [|done]. rewrite <- Hp. unfold aget. by replace (Z.to_nat (i - k)) with (S (Z.to_nat (i - (k + 1)))) by lia.
  - destruct (IH (k + 1) i H) as (Hi & p & Hp & Hx). cbn [length]. split; [lia|]. exists p. split; [|done]. rewrite <- Hp. unfold aget. by replace (Z.to_nat (i - k)) with (S (Z.to_nat (i - (k + 1)))) by lia.
Qed.
Lemma find_by_pid_spec t x i : process_find_by_pid t x = Some i → 0 ≤ i < zlen t ∧ ∃ p, t.[i] = Some p ∧ pid p = x.
Proof. intros H. apply find_from_spec in H as (? & ?). rewrite Z.sub_0_r in *. split; [lia|done]. Qed.

(** The entry has process id [x]. *)
Definition has_pid (t : ptable) (x j : Z) : Prop := ∃ q, t.[j] = Some q ∧ pid q = x.
Lemma has_pid_same A t t' x j : touched A t t' → 0 ≤ j < zlen t → has_pid t' x j → has_pid t x j.
Proof.
  intros Ht Hj (q & E & Hq). pose proof (to_id _ _ _ Ht j Hj) as Hs. rewrite E in Hs. unfold has_pid. destruct t.[j] as [p|]; [|done]. exists p. split; [done|].
  destruct Hs as [Hs _]. unfold pid in *. by rewrite <- Hs.
Qed.

Lemma sigchld_touched t x : touched (has_pid t x) t (notify_parent_sigchld t x).
Proof.
  unfold notify_parent_sigchld. destruct (x =? 0); [apply touched_refl|]. destruct (process_find_by_pid t x) as [i|] eqn:E; [|apply touched_refl].
  apply find_by_pid_spec in E as (Hi & p & Ep & Hx). eapply touched_weaken; [apply touched_upd; [lia|intros; apply post_plain_id]|]. intros j _ ->. by exists p.
Qed.
Lemma waitany_touched u x : touched (has_pid u x) u (sched_wake_parent_waitany u x).
Proof.
  unfold sched_wake_parent_waitany. destruct (x =? 0); [apply touched_refl|].
  assert (Hg : ∀ j, 0 ≤ j < zlen u → (option_map (wake_waitany_cb x) <$> u).[j] = option_map (wake_waitany_cb x) u.[j]) by (intros j Hj; by apply aget_fmap).
  constructor; [by rewrite length_fmap| |].
  - intros j Hj. rewrite Hg by done. destruct u.[j] as [p|]; [|done]. cbn. unfold wake_waitany_cb. by destruct (_ && _).
  - intros j Hj. rewrite Hg by done. unfold has_pid. destruct u.[j] as [p|]; [|by left]. cbn. unfold wake_waitany_cb. destruct (Z.eqb_spec (pid p) x) as [Ex|]; [right|by left]. by exists p.
Qed.
Lemma notify_touched t x : touched (has_pid t x) t (sched_notify_parent_cont t x).
Proof.
  eapply touched_trans; [apply sigchld_touched|apply waitany_touched|]. intros j Hj. by apply (has_pid_same _ _ _ x j (sigchld_touched t x)).
Qed.

(** Posting changes the target, and for SIGCONT its parent. *)
Definition post_reach (t : ptable) (i sig j : Z) : Prop := j = i ∨ sig = SIGCONT ∧ ∃ p, t.[i] = Some p ∧ has_pid t (ppid p) j.

Lemma post_cont_touched t i p : 0 ≤ i < zlen t → t.[i] = Some p → touched (post_reach t i SIGCONT) t (post_cont t i p).
Proof.
  intros Hi E. unfold post_cont, sched_wake_task. cbv zeta. destruct (negb _).
  { eapply touched_weaken; [by apply (touched_set t i p); [lia|..]|]. intros j _ ->. by left. }
  set (q := set_reports _ _ _). assert (Hs : touched (λ j, j = i) t t.[i <- Some q]) by (by apply (touched_set t i p); [lia|..]).
  eapply (touched_trans _ (has_pid t.[i <- Some q] (ppid p))); [eapply touched_weaken; [exact Hs|]; intros j _ ->; by left|apply notify_touched|].
  intros j Hj Hp. right. split; [done|]. exists p. split; [done|]. by apply (has_pid_same _ _ _ _ _ Hs).
Qed.

Lemma signal_post_touched t i sig : 0 ≤ i < zlen t → touched (post_reach t i sig) t (signal_post t i sig).1.
Proof.
  intros Hi. unfold signal_post. destruct t.[i] as [p|] eqn:E; [|apply touched_refl]. destruct (bad_target p sig); [apply touched_refl|]. cbn [fst].
  set (t1 := if sig =? SIGCONT then _ else _). assert (H1 : touched (post_reach t i sig) t t1) by (unfold t1; destruct (Z.eqb_spec sig SIGCONT) as [->|]; [by apply post_cont_touched|apply touched_refl]).
  set (t2 := if sig =? SIGKILL then _ else _). assert (H2 : touched (post_reach t i sig) t t2).
  { unfold t2. destruct (sig =? SIGKILL); [|done]. eapply touched_trans; [exact H1|apply (touched_upd t1 i); [lia|apply post_kill_id]|]. intros j _ ->. by left. }
  eapply touched_trans; [exact H2|apply (touched_upd t2 i); [lia|intros q; apply post_id]|]. intros j _ ->. by left.
Qed.

(** [c] may send [sig] to the process of entry [j]. *)
Definition permitted (t : ptable) (c : process) (sig j : Z) : Prop :=
  ∃ q, t.[j] = Some q ∧ cred_may_signal (Some (p_id c)) (Some (p_id q)) sig = true.
(** What [c] can affect: permitted targets, and the parents SIGCONT notifies. *)
Definition reachable (t : ptable) (c : process) (sig j : Z) : Prop :=
  permitted t c sig j ∨ sig = SIGCONT ∧ ∃ i p, permitted t c sig i ∧ t.[i] = Some p ∧ has_pid t (ppid p) j.

Lemma signal_post_result t i sig : (signal_post t i sig).2 ≠ 0 → (signal_post t i sig).1 = t.
Proof. unfold signal_post. destruct t.[i]; [|done]. destruct (bad_target _ _); [done|]. done. Qed.

Lemma post_reach_reachable t0 t c i sig j : 0 ≤ i < zlen t0 → 0 ≤ j < zlen t0 → permitted t0 c sig i → touched (reachable t0 c sig) t0 t → post_reach t i sig j → reachable t0 c sig j.
Proof.
  intros Hi Hj Hp Ht [->|(-> & p & E & Hh)]; [by left|right]. split; [done|]. destruct Hp as (q & Eq & Hq). exists i, q. split; [by exists q|]. split; [done|].
  pose proof (to_id _ _ _ Ht i Hi) as Hs. rewrite Eq, E in Hs. destruct Hs as [_ Hs]. rewrite <- Hs. by apply (has_pid_same _ _ _ _ _ Ht).
Qed.

Lemma post_list_spec t0 c sig l : Forall (λ i, 0 ≤ i < zlen t0 ∧ permitted t0 c sig i) l → ∀ t n, touched (reachable t0 c sig) t0 t → 0 ≤ n → (n = 0 → t = t0) →
  let '(t', n') := foldl (λ '(t, n) i, let '(t, r) := signal_post t i sig in (t, if r =? 0 then n + 1 else n)) (t, n) l in
  touched (reachable t0 c sig) t0 t' ∧ 0 ≤ n' ∧ (n' = 0 → t' = t0).
Proof.
  induction 1 as [|i l [Hi Hp] Hl IH]; intros t n Ht Hn H0; [done|]. cbn [foldl]. pose proof (to_len _ _ _ Ht) as HL.
  pose proof (signal_post_touched t i sig ltac:(lia)) as Hpt. pose proof (signal_post_result t i sig) as Hr. destruct (signal_post t i sig) as [t1 r]. cbn [fst snd] in *.
  apply IH.
  - eapply touched_trans; [exact Ht|exact Hpt|]. intros j Hj. by apply post_reach_reachable.
  - destruct (r =? 0); lia.
  - destruct (Z.eqb_spec r 0); [lia|]. intros ->. rewrite Hr by done. by apply H0.
Qed.

Lemma collected_permitted t c g skip all sig :
  let ctx := process_foreach t pg_cb (mk_pg g [] skip all (Some c) sig 0) in Forall (λ i, 0 ≤ i < zlen t ∧ permitted t c sig i) (c_t ctx).
Proof.
  cbv zeta. unfold process_foreach. apply (zfor_inv (λ _ x, c_sender x = Some c ∧ c_sig x = sig ∧ Forall (λ i, 0 ≤ i < zlen t ∧ permitted t c sig i) (c_t x)) (length t) 0); [by split_and!|].
  intros j x Hj (H1 & H2 & H3). destruct t.[j] as [p|] eqn:E; [|done]. unfold pg_cb. destruct (_ || _); [done|]. destruct (negb (if c_all x then _ else _)); [done|]. rewrite H1, H2.
  destruct (cred_may_signal _ _ _) eqn:Em; cbn [negb]; [|done]. destruct (_ && _); [done|]. cbn [c_sender c_sig c_t]. split_and!; [done|done|]. apply Forall_app. split; [done|].
  constructor; [|constructor]. split; [lia|]. by exists p.
Qed.

(** C25. kill(2) follows the credential rules.  Whatever the target (a process,
    the caller's group, another group, everyone) and the signal, the only
    processes whose state changes are ones the sender may signal, and, for
    SIGCONT, the parents of those, which are told that their child resumed; no
    process appears, disappears or changes identity; and a call that fails
    changes nothing. *)
Theorem kill_permission t c pid_ sig : let '(t', r) := ksys_kill t (Some c) pid_ sig in
  touched (reachable t c sig) t t' ∧ (r ≠ 0 → t' = t).
Proof.
  unfold ksys_kill. destruct (_ || _); [split; [apply touched_refl|done]|]. destruct (pid_ <=? 0).
  - destruct (pid_ =? -2147483648); [split; [apply touched_refl|done]|]. unfold signal_post_checked.
    set (x := process_foreach _ _ _). pose proof (collected_permitted t c (if pid_ =? -1 then 0 else if pid_ =? 0 then pgid c else u32 (- pid_)) (if pid_ =? -1 then pid c else 0) (pid_ =? -1) sig) as Hc.
    cbv zeta in Hc. fold x in Hc. clearbody x. destruct (Z.eqb_spec sig 0); [split; [apply touched_refl|done]|].
    unfold post_collected. pose proof (post_list_spec t c sig (c_t x) Hc t 0 (touched_refl _ t) ltac:(lia) (λ _, eq_refl)) as H. destruct (foldl _ _ _) as [t' cnt]. destruct H as (H1 & H2 & H3).
    split; [done|]. destruct (Z.ltb_spec 0 cnt); [done|]. intros _. apply H3. lia.
  - destruct (process_find_by_pid t (u32 pid_)) as [i|] eqn:Ef; [|split; [apply touched_refl|done]]. apply find_by_pid_spec in Ef as (Hi & q & Eq & _). rewrite Eq.
    destruct (negb _ && _) eqn:Eg; [split; [apply touched_refl|done]|]. destruct (_ || _) eqn:Ez; [split; [apply touched_refl|done]|]. apply orb_false_iff in Ez as [_ Ez]. rewrite Ez in Eg. cbn in Eg. apply negb_false_iff in Eg.
    pose proof (signal_post_touched t i sig Hi) as Hp. pose proof (signal_post_result t i sig) as Hr. destruct (signal_post t i sig) as [t' r]. cbn [fst snd] in *. split.
    + eapply touched_weaken; [exact Hp|]. intros j Hj. apply post_reach_reachable; [done|done|by exists q|apply touched_refl].
    + destruct (Z.eqb_spec r 0); [done|]. intros _. by apply Hr.
Qed.

(** ** Forged frames *)

(** [ksys_sigreturn] takes the flags of the user's frame apart from IF: the I/O
    privilege level comes from the frame, and the return address is not checked,
    although the code says a forged frame cannot escalate. *)
Theorem sigreturn_forged_iopl :
  let forged := mk_tf 0 0 0 0 0 0 0 0 0 0 0 0 0 0 0 0 0 0x8000000000000000 0x1B 0x3202 0x300000000 0x23 in
  let bytes := sf_bytes (mk_sf SIGFRAME_MAGIC 0 forged (replicate 512 0)) in
  let m := λ a, if (0x300000000 <=? a) && (a <? 0x300000000 + 704) then bytes.[a - 0x300000000] else 0 in
  ∃ s fx r, ksys_sigreturn (λ _, false) 0xFFBF m demo_sigst (tf_of (λ k, if k =? 20 then 0x300000000 else 0)) = SrUser s forged fx r ∧
  Z.land (Z.shiftr (rflags forged) 12) 3 = 3 ∧ rip forged = 2 ^ 63.
Proof. do 3 eexists. split; [vm_compute; reflexivity|]. split; reflexivity. Qed.

(** A child under construction is parked in [PROC_BLOCKED] and already in the
    process table while its kernel stack is allocated ([process_fork]); a signal
    posted to its group then makes it runnable. *)
Theorem half_built_child_wakes :
  let child := mk_process demo_id 1 0 7 PROC_BLOCKED (mk_sigst 0 0 (replicate 32 0) 0 0 false false 0) (mk_waits (-1) (-1) 0 false 0) false false 0 (Some 0x100001000) in
  ∃ q, (signal_post_pgid [Some child] 7 SIGINT).1.[0] = Some q ∧ pstat q = PROC_READY.
Proof. eexists. split; [vm_compute; reflexivity|reflexivity]. Qed.
