(* ===== verification/Heap.v ===== *)
(** * The kernel heap

    [src/mm/heap.c] as the default build compiles it: poisoning, the periodic
    check and the membership walk are debug options and off.  The heap is one
    singly linked list of blocks in byte memory; a block is a 48-byte header
    sealed with a keyed hash, the payload, and a tail canary after the bytes
    asked for.  Headers are read and written field by field, in the order of
    the code.  A detected corruption is an outcome of the call: a panic that
    freezes the heap, or in the self test's expect mode a count.  Locking and
    printed text are not modelled; a report keeps the values it prints. *)

From stdpp Require Import strings.
From S2P Require Import Prelude.

(** ** Headers in memory *)

Definition HEAP_MAGIC_USED : Z := 0xA110CA7E.
Definition HEAP_MAGIC_FREE : Z := 0xF7EEB10C.
Definition HEAP_MAGIC_ALIGN : Z := 0xA1167ED0.
Definition HEAP_MAGIC_MERGED : Z := 0x3E46EDDD.
Definition HEAP_POISON_U32 : Z := 0xDEDEDEDE.
Definition HB_F_ALIGNED : Z := 0x1.
Definition HEAP_ALIGN : Z := 16.
Definition HEAP_TAIL : Z := 8.
Definition HEAP_MIN_SPLIT : Z := 32.
Definition HDR : Z := 48.
Definition PMM_FRAME_SIZE : Z := 4096.
Definition VMM_PHYSMAP_BASE : Z := 0xFFFF888000000000.

Record heap_block_t := mk_hb {
  hb_magic : Z;
  hb_flags : Z;
  hb_size : Z;
  hb_req : Z;
  hb_next : Z;
  hb_caller : Z;
  hb_check : Z
}.

(** Stores of [n] little-endian bytes. *)
Definition wr (n : Z) (m : mem) (a v : Z) : mem :=
  λ x, if (a <=? x) && (x <? a + n) then u8 (Z.shiftr v (8 * (x - a))) else m x.

Definition hb_load (m : mem) (b : Z) : heap_block_t :=
  mk_hb (rd32 m b) (rd32 m (b + 4)) (rd64 m (b + 8)) (rd64 m (b + 16)) (rd64 m (b + 24)) (rd64 m (b + 32)) (rd64 m (b + 40)).

Definition put_magic (m : mem) (b v : Z) : mem := wr 4 m b v.
Definition put_flags (m : mem) (b v : Z) : mem := wr 4 m (b + 4) v.
Definition put_size (m : mem) (b v : Z) : mem := wr 8 m (b + 8) v.
Definition put_req (m : mem) (b v : Z) : mem := wr 8 m (b + 16) v.
Definition put_next (m : mem) (b v : Z) : mem := wr 8 m (b + 24) v.
Definition put_caller (m : mem) (b v : Z) : mem := wr 8 m (b + 32) v.
Definition put_check (m : mem) (b v : Z) : mem := wr 8 m (b + 40) v.

Definition align_up (size alignment : Z) : Z := Z.land (u64 (size + alignment - 1)) (not64 (alignment - 1)).

(** ** Integrity primitives *)

Definition hb_mix (x : Z) : Z :=
  let x := Z.lxor x (Z.shiftr x 30) in let x := u64 (x * 0xBF58476D1CE4E5B9) in
  let x := Z.lxor x (Z.shiftr x 27) in let x := u64 (x * 0x94D049BB133111EB) in
  Z.lxor x (Z.shiftr x 31).

Definition hb_calc (secret b : Z) (h : heap_block_t) : Z :=
  let x := Z.lxor secret b in
  let x := hb_mix (Z.lxor x (Z.lor (Z.shiftl (hb_magic h) 32) (hb_flags h))) in
  let x := hb_mix (Z.lxor x (hb_size h)) in
  let x := hb_mix (Z.lxor x (hb_req h)) in
  let x := hb_mix (Z.lxor x (hb_next h)) in
  hb_mix (Z.lxor x (hb_caller h)).

Definition hb_seal (secret : Z) (m : mem) (b : Z) : mem := put_check m b (hb_calc secret b (hb_load m b)).

Definition hb_payload (b : Z) : Z := u64 (b + HDR).

Definition hb_tail_value (secret payload : Z) : Z := hb_mix (Z.lxor (Z.lxor secret payload) 0x7A11CA9A11).

Definition hb_tail_write (secret : Z) (m : mem) (b : Z) : mem :=
  let p := hb_payload b in
  let v := hb_tail_value secret p in
  let t := u64 (p + hb_req (hb_load m b)) in
  zfor 8 0 (λ i m, wr 1 m (t + i) (u8 (Z.shiftr v (8 * i)))) m.

Definition hb_tail_read (m : mem) (b : Z) : Z :=
  let t := u64 (hb_payload b + hb_req (hb_load m b)) in
  zfor 8 0 (λ i v, Z.lor v (Z.shiftl (rd8 m (t + i)) (8 * i))) 0.

(** [hb_init_free] and the fields of a header in their order. *)
Definition hb_init_free (secret : Z) (m : mem) (b size : Z) : mem :=
  let m := put_magic m b HEAP_MAGIC_FREE in
  let m := put_flags m b 0 in
  let m := put_size m b size in
  let m := put_req m b 0 in
  let m := put_next m b 0 in
  let m := put_caller m b 0 in
  hb_seal secret m b.

(** ** The heap and its outcomes

    The frames come from the physical allocator. *)

Class PageOps (A : Type) := {
  ps_frame : A → A * Z;
  ps_run : A → Z → A * Z
}.

Record report := mk_report {
  r_what : string;
  r_block : Z;
  r_expected : Z;
  r_found : Z;
  r_caller : Z;
  r_owner : Z
}.

Record heap (A : Type) := mk_heap {
  hmem : mem;
  heap_start : Z;
  total_allocated : Z;
  total_freed : Z;
  g_heap_secret : Z;
  heap_lo : Z;
  heap_hi : Z;
  g_heap_dead : bool;
  g_heap_expect : bool;
  g_heap_detected : Z;
  g_heap_last : option report;
  hpages : A
}.
Arguments mk_heap {A}.
Arguments hmem {A}.
Arguments heap_start {A}.
Arguments total_allocated {A}.
Arguments total_freed {A}.
Arguments g_heap_secret {A}.
Arguments heap_lo {A}.
Arguments heap_hi {A}.
Arguments g_heap_dead {A}.
Arguments g_heap_expect {A}.
Arguments g_heap_detected {A}.
Arguments g_heap_last {A}.
Arguments hpages {A}.

(** A call returns, panics, or follows a cyclic list for ever. *)
Inductive out (A X : Type) :=
  | Ret (x : X) (h : heap A)
  | Panic (r : report) (h : heap A)
  | Spin.
Arguments Ret {A X}.
Arguments Panic {A X}.
Arguments Spin {A X}.

Reserved Notation "'let*' x := c 'in' k" (at level 10, x name, c at level 99, k at level 200).
Reserved Notation "c ;;; k" (at level 100, k at level 200, right associativity).

Section heap.
Context {A : Type} {ops : PageOps A}.
Implicit Types h : heap A.

Definition hm (X : Type) : Type := heap A → out A X.

Definition hret {X} (x : X) : hm X := λ h, Ret x h.
Definition hbind {X Y} (c : hm X) (k : X → hm Y) : hm Y := λ h,
  match c h with Ret x h => k x h | Panic r h => Panic r h | Spin => Spin end.
#[local] Notation "'let*' x := c 'in' k" := (hbind c (λ x, k)).
#[local] Notation "c ;;; k" := (hbind c (λ _, k)).
Definition gets {X} (f : heap A → X) : hm X := λ h, Ret (f h) h.
Definition modify (f : heap A → heap A) : hm unit := λ h, Ret tt (f h).

Definition set_mem h (m : mem) : heap A :=
  mk_heap m (heap_start h) (total_allocated h) (total_freed h) (g_heap_secret h) (heap_lo h) (heap_hi h)
    (g_heap_dead h) (g_heap_expect h) (g_heap_detected h) (g_heap_last h) (hpages h).
Definition set_pages h (a : A) : heap A :=
  mk_heap (hmem h) (heap_start h) (total_allocated h) (total_freed h) (g_heap_secret h) (heap_lo h) (heap_hi h)
    (g_heap_dead h) (g_heap_expect h) (g_heap_detected h) (g_heap_last h) a.
Definition set_bounds h (lo hi : Z) : heap A :=
  mk_heap (hmem h) (heap_start h) (total_allocated h) (total_freed h) (g_heap_secret h) lo hi
    (g_heap_dead h) (g_heap_expect h) (g_heap_detected h) (g_heap_last h) (hpages h).
Definition set_totals h (al fr : Z) : heap A :=
  mk_heap (hmem h) (heap_start h) al fr (g_heap_secret h) (heap_lo h) (heap_hi h)
    (g_heap_dead h) (g_heap_expect h) (g_heap_detected h) (g_heap_last h) (hpages h).
Definition set_start h (start secret : Z) : heap A :=
  mk_heap (hmem h) start (total_allocated h) (total_freed h) secret (heap_lo h) (heap_hi h)
    (g_heap_dead h) (g_heap_expect h) (g_heap_detected h) (g_heap_last h) (hpages h).
Definition set_fault h (dead : bool) (detected : Z) (last : option report) : heap A :=
  mk_heap (hmem h) (heap_start h) (total_allocated h) (total_freed h) (g_heap_secret h) (heap_lo h) (heap_hi h)
    dead (g_heap_expect h) detected last (hpages h).

(** A store through the header [b]; a load of it. *)
Definition upd (f : mem → mem) : hm unit := modify (λ h, set_mem h (f (hmem h))).
Definition at_ (b : Z) : hm heap_block_t := gets (λ h, hb_load (hmem h) b).
Definition seal (b : Z) : hm unit := modify (λ h, set_mem h (hb_seal (g_heap_secret h) (hmem h) b)).

Definition heap_fault (r : report) : hm bool := λ h,
  if g_heap_expect h then Ret false (set_fault h (g_heap_dead h) (g_heap_detected h + 1) (Some r))
  else Panic r (set_fault h true (g_heap_detected h) (g_heap_last h)).

Definition hb_in_heap h (a : Z) : bool :=
  (Z.land a (HEAP_ALIGN - 1) =? 0) && (heap_lo h <=? a) && (u64 (a + HDR) <=? heap_hi h).

Definition hb_verify (b caller : Z) : hm bool := λ h,
  let x := hb_load (hmem h) b in
  if negb (hb_in_heap h b) then
    heap_fault (mk_report "block pointer outside the heap (corrupted next link)" b (heap_lo h) b caller 0) h
  else if negb (hb_magic x =? HEAP_MAGIC_USED) && negb (hb_magic x =? HEAP_MAGIC_FREE) then
    heap_fault (mk_report "corrupted block header (bad magic)" b HEAP_MAGIC_USED (hb_magic x) caller (hb_caller x)) h
  else
    let want := hb_calc (g_heap_secret h) b x in
    if negb (hb_check x =? want) then
      heap_fault (mk_report "corrupted block header (check mismatch)" b want (hb_check x) caller (hb_caller x)) h
    else if negb (hb_size x mod HEAP_ALIGN =? 0) || (heap_hi h <? u64 (hb_payload b + hb_size x)) then
      heap_fault (mk_report "corrupted block header (size out of range)" b (u64 (heap_hi h - hb_payload b)) (hb_size x) caller (hb_caller x)) h
    else if (hb_magic x =? HEAP_MAGIC_USED) && (hb_size x <? u64 (hb_req x + HEAP_TAIL)) then
      heap_fault (mk_report "corrupted block header (req > size)" b (hb_size x) (hb_req x) caller (hb_caller x)) h
    else Ret true h.

(** ** Initialisation and expansion *)

(** The time stamp, whether RDRAND exists, and its draws ([None]: not ready). *)
Definition heap_seed (tsc : Z) (rdrand : bool) (draws : list (option Z)) : Z :=
  let s := if rdrand then match omap id (take 10 draws) with r :: _ => Z.lxor tsc r | [] => tsc end else tsc in
  let s := hb_mix (Z.lxor s 0x5EC05EC05EC05EC0) in
  if ztrue s then s else 0x9E3779B97F4A7C15.

Definition phys_to_virt (phys : Z) : Z := u64 (VMM_PHYSMAP_BASE + phys).

Definition heap_track_region (base len : Z) : hm unit := modify (λ h,
  set_bounds h (if (heap_lo h =? 0) || (base <? heap_lo h) then base else heap_lo h)
               (if heap_hi h <? u64 (base + len) then u64 (base + len) else heap_hi h)).

Definition init_free (b size : Z) : hm unit := modify (λ h, set_mem h (hb_init_free (g_heap_secret h) (hmem h) b size)).

Definition heap_init (seed : Z) : hm unit := λ h,
  let '(a, frame) := ps_frame (hpages h) in
  let h := set_pages h a in
  if frame =? 0 then Ret tt (set_start h 0 (g_heap_secret h))
  else
    let start := phys_to_virt frame in
    (modify (λ h, set_start h start seed) ;;;
     heap_track_region start PMM_FRAME_SIZE ;;;
     init_free start (PMM_FRAME_SIZE - HDR)) h.

Definition take_run (frames : Z) : hm Z := λ h, let '(a, base) := ps_run (hpages h) frames in Ret base (set_pages h a).

Definition expand_heap (last need : Z) : hm Z :=
  let frames := u64 (need + HDR + PMM_FRAME_SIZE - 1) / PMM_FRAME_SIZE in
  let frames := if frames =? 0 then 1 else frames in
  let* base := take_run frames in
  if base =? 0 then hret 0
  else
    let nb := phys_to_virt base in
    heap_track_region nb (u64 (frames * PMM_FRAME_SIZE)) ;;;
    init_free nb (u64 (frames * PMM_FRAME_SIZE - HDR)) ;;;
    upd (λ m, put_next m last nb) ;;;
    seal last ;;;
    hret nb.

(** ** Allocation *)

(** A list that is not cyclic has at most one block per 16-byte slot. *)
Definition slots h : nat := Z.to_nat ((heap_hi h - heap_lo h) / HEAP_ALIGN + 1).

Inductive walked :=
  | Aborted
  | Stopped (cur last : Z).

(** First fit: stops at a free block that is large enough or at the end. *)
Fixpoint alloc_walk (fuel : nat) (cur last need caller : Z) : hm walked :=
  if cur =? 0 then hret (Stopped 0 last)
  else match fuel with
       | O => λ _, Spin
       | S fuel =>
           let* ok := hb_verify cur caller in
           if negb ok then hret Aborted
           else
             let* x := at_ cur in
             if (hb_magic x =? HEAP_MAGIC_FREE) && (need <=? hb_size x) then hret (Stopped cur last)
             else alloc_walk fuel (hb_next x) cur need caller
       end.

(** Splits [cur] if the rest is worth a header. *)
Definition alloc_split (cur need : Z) : hm unit :=
  let* x := at_ cur in
  let remaining := u64 (hb_size x - need) in
  if HDR + HEAP_MIN_SPLIT <=? remaining then
    let nb := u64 (hb_payload cur + need) in
    upd (λ m, put_magic m nb HEAP_MAGIC_FREE) ;;;
    upd (λ m, put_flags m nb 0) ;;;
    upd (λ m, put_size m nb (u64 (remaining - HDR))) ;;;
    upd (λ m, put_req m nb 0) ;;;
    upd (λ m, put_next m nb (hb_next (hb_load m cur))) ;;;
    upd (λ m, put_caller m nb (hb_caller (hb_load m cur))) ;;;
    seal nb ;;;
    upd (λ m, put_next m cur nb) ;;;
    upd (λ m, put_size m cur need)
  else hret tt.

Definition tail_write (b : Z) : hm unit := modify (λ h, set_mem h (hb_tail_write (g_heap_secret h) (hmem h) b)).

(** [cur] becomes the caller's block. *)
Definition alloc_take (cur req caller : Z) : hm unit :=
  upd (λ m, put_magic m cur HEAP_MAGIC_USED) ;;;
  upd (λ m, put_flags m cur 0) ;;;
  upd (λ m, put_req m cur req) ;;;
  upd (λ m, put_caller m cur caller) ;;;
  seal cur ;;;
  tail_write cur ;;;
  modify (λ h, set_totals h (u64 (total_allocated h + hb_size (hb_load (hmem h) cur))) (total_freed h)).

Definition heap_alloc_locked (req caller : Z) : hm Z :=
  let need := align_up (u64 (req + HEAP_TAIL)) HEAP_ALIGN in
  if need <? req then hret 0
  else
    let* start := gets heap_start in
    let* fuel := gets slots in
    let* w := alloc_walk fuel start 0 need caller in
    match w with
    | Aborted => hret 0
    | Stopped cur last =>
        let* cur := (if cur =? 0 then expand_heap last need else hret cur) in
        if cur =? 0 then hret 0
        else alloc_split cur need ;;; alloc_take cur req caller ;;; hret cur
    end.

Definition kmalloc (size caller : Z) : hm Z := λ h,
  if size =? 0 then Ret 0 h
  else if (heap_start h =? 0) || g_heap_dead h then Ret 0 h
  else (let* b := heap_alloc_locked size caller in hret (if b =? 0 then 0 else hb_payload b)) h.

(** The stub below the aligned pointer [r], and the owner [b] with its canary
    moved to the end of the aligned region. *)
Definition align_stub (b r size caller : Z) : hm unit :=
  let p := hb_payload b in
  let stub := u64 (r - HDR) in
  upd (λ m, put_magic m stub HEAP_MAGIC_ALIGN) ;;;
  upd (λ m, put_flags m stub 0) ;;;
  upd (λ m, put_size m stub size) ;;;
  upd (λ m, put_req m stub size) ;;;
  upd (λ m, put_next m stub b) ;;;
  upd (λ m, put_caller m stub caller) ;;;
  seal stub ;;;
  upd (λ m, put_flags m b (Z.lor (hb_flags (hb_load m b)) HB_F_ALIGNED)) ;;;
  upd (λ m, put_req m b (u64 (u64 (r - p) + size))) ;;;
  seal b ;;;
  tail_write b.

Definition kmalloc_aligned (size alignment caller : Z) : hm Z := λ h,
  if (size =? 0) || (alignment =? 0) || negb (Z.land alignment (alignment - 1) =? 0) then Ret 0 h
  else if (heap_start h =? 0) || g_heap_dead h then Ret 0 h
  else
    (if alignment <=? HEAP_ALIGN then
       let* b := heap_alloc_locked size caller in hret (if b =? 0 then 0 else hb_payload b)
     else
       let req := u64 (size + alignment + HDR) in
       let* b := (if size <? req then heap_alloc_locked req caller else hret 0) in
       if b =? 0 then hret 0
       else
         let r := align_up (u64 (hb_payload b + HDR)) alignment in
         align_stub b r size caller ;;; hret r) h.

(** ** Release *)

(** Reports and gives up. *)
Definition refuse (r : report) : hm Z := heap_fault r ;;; hret 0.

Definition heap_resolve_locked (p caller : Z) : hm Z := λ h,
  if negb (Z.land p (HEAP_ALIGN - 1) =? 0) then
    refuse (mk_report "invalid free (misaligned pointer, not a block start)" p (align_up p HEAP_ALIGN) p caller 0) h
  else if (p <? u64 (heap_lo h + HDR)) || (heap_hi h <? p) then
    refuse (mk_report "invalid free (pointer outside the heap)" p (heap_lo h) p caller 0) h
  else
    let a := u64 (p - HDR) in
    let x := hb_load (hmem h) a in
    let m := hb_magic x in
    let want := hb_calc (g_heap_secret h) a x in
    if m =? HEAP_MAGIC_ALIGN then
      if negb (hb_check x =? want) then
        refuse (mk_report "corrupted aligned-allocation stub (check mismatch)" a want (hb_check x) caller (hb_caller x)) h
      else
        let owner := hb_next x in
        (let* ok := hb_verify owner caller in
         if negb ok then hret 0
         else
           let* o := at_ owner in
           if hb_magic o =? HEAP_MAGIC_FREE then
             refuse (mk_report "double free (aligned allocation)" p HEAP_MAGIC_USED (hb_magic o) caller (hb_caller o))
           else
             let lo := u64 (hb_payload owner + HDR) in
             let hi := u64 (hb_payload owner + hb_req o) in
             if (Z.land (hb_flags o) HB_F_ALIGNED =? 0) || (p <? lo) || (hi <=? p) then
               refuse (mk_report "invalid free (aligned stub does not match its owner)" p owner p caller (hb_caller o))
             else hret owner) h
    else if (m =? HEAP_MAGIC_FREE) || (m =? HEAP_MAGIC_MERGED) then
      if hb_check x =? want then refuse (mk_report "double free" p HEAP_MAGIC_USED m caller (hb_caller x)) h
      else refuse (mk_report "corrupted block header (check mismatch)" a want (hb_check x) caller (hb_caller x)) h
    else if m =? HEAP_POISON_U32 then
      refuse (mk_report "double free (pointer into freed, poisoned memory)" p HEAP_MAGIC_USED m caller 0) h
    else if negb (m =? HEAP_MAGIC_USED) then
      refuse (mk_report "invalid free (not a heap block start, or header smashed)" p HEAP_MAGIC_USED m caller 0) h
    else
      (let* ok := hb_verify a caller in
       if negb ok then hret 0
       else
         let* y := at_ a in
         if negb (Z.land (hb_flags y) HB_F_ALIGNED =? 0) then
           refuse (mk_report "invalid free (raw block of an aligned allocation)" p 0 (hb_flags y) caller (hb_caller y))
         else hret a) h.

(** Merges free neighbours that touch, from [cur] (already checked) on. *)
Fixpoint coalesce (fuel : nat) (cur caller : Z) : hm unit :=
  let* x := at_ cur in
  if hb_next x =? 0 then hret tt
  else match fuel with
       | O => λ _, Spin
       | S fuel =>
           let nx := hb_next x in
           let* ok := hb_verify nx caller in
           if negb ok then hret tt
           else
             let* y := at_ nx in
             let cur_end := u64 (hb_payload cur + hb_size x) in
             if (hb_magic x =? HEAP_MAGIC_FREE) && (hb_magic y =? HEAP_MAGIC_FREE) && (cur_end =? nx) then
               upd (λ m, put_size m cur (u64 (hb_size (hb_load m cur) + (HDR + hb_size (hb_load m nx))))) ;;;
               upd (λ m, put_next m cur (hb_next (hb_load m nx))) ;;;
               seal cur ;;;
               upd (λ m, put_magic m nx HEAP_MAGIC_MERGED) ;;;
               seal nx ;;;
               coalesce fuel cur caller
             else coalesce fuel nx caller
       end.

(** The block's header says free again. *)
Definition free_mark (b caller : Z) : hm unit :=
  modify (λ h, set_totals h (total_allocated h) (u64 (total_freed h + hb_size (hb_load (hmem h) b)))) ;;;
  upd (λ m, put_magic m b HEAP_MAGIC_FREE) ;;;
  upd (λ m, put_flags m b 0) ;;;
  upd (λ m, put_req m b 0) ;;;
  upd (λ m, put_caller m b caller) ;;;
  seal b.

Definition heap_free_block_locked (b caller : Z) : hm unit := λ h,
  let want := hb_tail_value (g_heap_secret h) (hb_payload b) in
  let got := hb_tail_read (hmem h) b in
  if negb (got =? want) then
    (heap_fault (mk_report "heap buffer overflow (tail canary smashed)" b want got caller (hb_caller (hb_load (hmem h) b))) ;;; hret tt) h
  else
    (free_mark b caller ;;;
     let* cur := gets heap_start in
     let* fuel := gets slots in
     let* ok := hb_verify cur caller in
     if negb ok then hret tt else coalesce fuel cur caller) h.

Definition kfree (ptr caller : Z) : hm unit := λ h,
  if ptr =? 0 then Ret tt h
  else if (heap_start h =? 0) || g_heap_dead h then Ret tt h
  else (let* b := heap_resolve_locked ptr caller in if b =? 0 then hret tt else heap_free_block_locked b caller) h.

(** ** The validator *)

Record heap_walk_stats_t := mk_stats {
  s_blocks : Z;
  s_used_blocks : Z;
  s_free_blocks : Z;
  s_used_bytes : Z;
  s_free_bytes : Z;
  s_largest_free : Z
}.

(** The statistics are written only when the walk reaches the end. *)
Fixpoint check_walk (fuel : nat) (limit caller : Z) (b : Z) (s : heap_walk_stats_t) (errs : Z) : hm (Z * option heap_walk_stats_t) :=
  if b =? 0 then hret (errs, Some s)
  else match fuel with
       | O => λ _, Spin
       | S fuel =>
           let n := u64 (s_blocks s + 1) in
           if limit <? n then heap_fault (mk_report "block list cycle" b limit n caller 0) ;;; hret (errs + 1, None)
           else
             let* ok := hb_verify b caller in
             if negb ok then hret (errs + 1, None)
             else
               let* x := at_ b in
               let end_ := u64 (hb_payload b + hb_size x) in
               let nx := hb_next x in
               if ztrue nx && (b <? nx) && (nx <? end_) then
                 heap_fault (mk_report "blocks overlap" b end_ nx caller (hb_caller x)) ;;; hret (errs + 1, None)
               else if hb_magic x =? HEAP_MAGIC_USED then
                 let s := mk_stats n (u64 (s_used_blocks s + 1)) (s_free_blocks s)
                            (u64 (s_used_bytes s + hb_size x)) (s_free_bytes s) (s_largest_free s) in
                 let* want := gets (λ h, hb_tail_value (g_heap_secret h) (hb_payload b)) in
                 let* got := gets (λ h, hb_tail_read (hmem h) b) in
                 if negb (got =? want) then
                   heap_fault (mk_report "heap buffer overflow (tail canary smashed)" b want got caller (hb_caller x)) ;;;
                   check_walk fuel limit caller nx s (errs + 1)
                 else check_walk fuel limit caller nx s errs
               else
                 let s := mk_stats n (s_used_blocks s) (u64 (s_free_blocks s + 1)) (s_used_bytes s)
                            (u64 (s_free_bytes s + hb_size x))
                            (if s_largest_free s <? hb_size x then hb_size x else s_largest_free s) in
                 check_walk fuel limit caller nx s errs
       end.

Definition heap_check_locked (caller : Z) : hm (Z * option heap_walk_stats_t) := λ h,
  let limit := u64 (heap_hi h - heap_lo h) / HEAP_ALIGN + 1 in
  check_walk (S (slots h)) limit caller (heap_start h) (mk_stats 0 0 0 0 0 0) 0 h.

Definition heap_check (caller : Z) : hm Z := λ h,
  if (heap_start h =? 0) || g_heap_dead h then Ret (-1) h
  else (let* r := heap_check_locked caller in hret (fst r)) h.
End heap.
