(* ===== verification/HeapMem.v ===== *)
(** * Heap headers in byte memory

    What the field stores of [Heap] do to a header and to the rest of memory,
    the tail canary as one 64-bit word, and that the keyed check tells apart
    headers that differ in one field. *)

From stdpp Require Import strings.
From S2P Require Import Prelude Heap.

(** ** Words *)

Lemma wr_out n m a v x : ¬ (a ≤ x < a + n) → wr n m a v x = m x.
Proof. intros H. unfold wr. destruct (_ && _) eqn:E; [zbool; lia|done]. Qed.
Lemma wr_in n m a v x : a ≤ x < a + n → wr n m a v x = u8 (Z.shiftr v (8 * (x - a))).
Proof. intros H. unfold wr. destruct (_ && _) eqn:E; [done|zbool; lia]. Qed.

Lemma rd8_ext m m' a : m' a = m a → rd8 m' a = rd8 m a.
Proof. intros H. unfold rd8. by rewrite H. Qed.
Lemma rd32_ext m m' a : (∀ x, a ≤ x < a + 4 → m' x = m x) → rd32 m' a = rd32 m a.
Proof. intros H. unfold rd32, rd16. rewrite !(rd8_ext m m') by (apply H; lia). done. Qed.
Lemma rd64_ext m m' a : (∀ x, a ≤ x < a + 8 → m' x = m x) → rd64 m' a = rd64 m a.
Proof. intros H. unfold rd64. rewrite !(rd32_ext m m') by (intros; apply H; lia). done. Qed.

(** A word read back byte by byte. *)
Lemma rd32_bytes m a v : is_u32 v → (∀ i, 0 ≤ i < 4 → m (a + i) = u8 (Z.shiftr v (8 * i))) → rd32 m a = v.
Proof.
  intros Hv H. unfold rd32, rd16, rd8. rewrite <- !Z.add_assoc. cbn [Z.add Pos.add]. pose proof (H 0 ltac:(lia)) as H0. rewrite Z.add_0_r in H0.
  rewrite H0, !H by lia. rewrite !(u8_small (u8 _)) by apply u8_range. unfold u8, is_u32 in *. rewrite !Z.shiftr_div_pow2 by lia.
  Z.to_euclidean_division_equations. lia.
Qed.
Lemma rd64_bytes m a v : is_u64 v → (∀ i, 0 ≤ i < 8 → m (a + i) = u8 (Z.shiftr v (8 * i))) → rd64 m a = v.
Proof.
  intros Hv H. unfold rd64, rd32, rd16, rd8. rewrite <- !Z.add_assoc. cbn [Z.add Pos.add]. pose proof (H 0 ltac:(lia)) as H0. rewrite Z.add_0_r in H0.
  rewrite H0, !H by lia. rewrite !(u8_small (u8 _)) by apply u8_range. unfold u8, is_u64 in *. rewrite !Z.shiftr_div_pow2 by lia.
  Z.to_euclidean_division_equations. lia.
Qed.

Lemma rd32_wr m a v : is_u32 v → rd32 (wr 4 m a v) a = v.
Proof. intros. apply rd32_bytes; [done|]. intros i Hi. rewrite wr_in by lia. do 2 f_equal. lia. Qed.
Lemma rd64_wr m a v : is_u64 v → rd64 (wr 8 m a v) a = v.
Proof. intros. apply rd64_bytes; [done|]. intros i Hi. rewrite wr_in by lia. do 2 f_equal. lia. Qed.
Lemma rd32_wr_ne n m a v b : b + 4 ≤ a ∨ a + n ≤ b → rd32 (wr n m a v) b = rd32 m b.
Proof. intros. apply rd32_ext. intros. apply wr_out. lia. Qed.
Lemma rd64_wr_ne n m a v b : b + 8 ≤ a ∨ a + n ≤ b → rd64 (wr n m a v) b = rd64 m b.
Proof. intros. apply rd64_ext. intros. apply wr_out. lia. Qed.

Create Rewrite HintDb heap_mem.
#[export] Hint Rewrite rd32_wr rd64_wr using (first [assumption | done]) : heap_mem.
#[export] Hint Rewrite rd32_wr_ne rd64_wr_ne using lia : heap_mem.

(** ** Headers *)

Lemma hb_load_ext m m' b : (∀ x, b ≤ x < b + 48 → m' x = m x) → hb_load m' b = hb_load m b.
Proof.
  intros H. unfold hb_load. rewrite !(rd32_ext m m') by (intros; apply H; lia). rewrite !(rd64_ext m m') by (intros; apply H; lia). done.
Qed.

Ltac put_tac := intros; unfold hb_load, put_magic, put_flags, put_size, put_req, put_next, put_caller, put_check; cbn; autorewrite with heap_mem; reflexivity.

Section puts.
Context (m : mem) (b v : Z).
Let x := hb_load m b.

Lemma load_magic : is_u32 v → hb_load (put_magic m b v) b = mk_hb v (hb_flags x) (hb_size x) (hb_req x) (hb_next x) (hb_caller x) (hb_check x).
Proof. subst x. put_tac. Qed.
Lemma load_flags : is_u32 v → hb_load (put_flags m b v) b = mk_hb (hb_magic x) v (hb_size x) (hb_req x) (hb_next x) (hb_caller x) (hb_check x).
Proof. subst x. put_tac. Qed.
Lemma load_size : is_u64 v → hb_load (put_size m b v) b = mk_hb (hb_magic x) (hb_flags x) v (hb_req x) (hb_next x) (hb_caller x) (hb_check x).
Proof. subst x. put_tac. Qed.
Lemma load_req : is_u64 v → hb_load (put_req m b v) b = mk_hb (hb_magic x) (hb_flags x) (hb_size x) v (hb_next x) (hb_caller x) (hb_check x).
Proof. subst x. put_tac. Qed.
Lemma load_next : is_u64 v → hb_load (put_next m b v) b = mk_hb (hb_magic x) (hb_flags x) (hb_size x) (hb_req x) v (hb_caller x) (hb_check x).
Proof. subst x. put_tac. Qed.
Lemma load_caller : is_u64 v → hb_load (put_caller m b v) b = mk_hb (hb_magic x) (hb_flags x) (hb_size x) (hb_req x) (hb_next x) v (hb_check x).
Proof. subst x. put_tac. Qed.
Lemma load_check : is_u64 v → hb_load (put_check m b v) b = mk_hb (hb_magic x) (hb_flags x) (hb_size x) (hb_req x) (hb_next x) (hb_caller x) v.
Proof. subst x. put_tac. Qed.
End puts.

Lemma put_out m b v y : ¬ (b ≤ y < b + 48) →
  put_magic m b v y = m y ∧ put_flags m b v y = m y ∧ put_size m b v y = m y ∧ put_req m b v y = m y ∧
  put_next m b v y = m y ∧ put_caller m b v y = m y ∧ put_check m b v y = m y.
Proof. intros H. split_and!; apply wr_out; lia. Qed.

Lemma put_load_ne m b v c : c + 48 ≤ b ∨ b + 48 ≤ c →
  hb_load (put_magic m b v) c = hb_load m c ∧ hb_load (put_flags m b v) c = hb_load m c ∧ hb_load (put_size m b v) c = hb_load m c ∧
  hb_load (put_req m b v) c = hb_load m c ∧ hb_load (put_next m b v) c = hb_load m c ∧ hb_load (put_caller m b v) c = hb_load m c ∧
  hb_load (put_check m b v) c = hb_load m c.
Proof. intros H. split_and!; apply hb_load_ext; intros; apply put_out; lia. Qed.

(** ** The mixing function *)

Lemma lxor_cancel a b c : Z.lxor a c = Z.lxor b c → a = b.
Proof.
  intros H. apply (f_equal (λ x, Z.lxor x c)) in H. by rewrite !Z.lxor_assoc, !Z.lxor_nilpotent, !Z.lxor_0_r in H.
Qed.

Lemma lxor_cancel_l a b c : Z.lxor c a = Z.lxor c b → a = b.
Proof. rewrite !(Z.lxor_comm c). apply lxor_cancel. Qed.

Lemma xorshift_u64 k x : 0 ≤ k → is_u64 x → is_u64 (Z.lxor x (Z.shiftr x k)).
Proof.
  intros Hk Hx. apply is_u64_lxor; [done|]. unfold is_u64 in *. rewrite Z.shiftr_div_pow2 by done. split; [apply Z.div_pos; lia|].
  apply Z.le_lt_trans with x; [|lia]. apply Z.div_le_upper_bound; nia.
Qed.

Lemma xorshift_inj k x y : 0 < k → is_u64 x → is_u64 y → Z.lxor x (Z.shiftr x k) = Z.lxor y (Z.shiftr y k) → x = y.
Proof.
  intros Hk Hx Hy H. pose proof (is_u64_lxor x y Hx Hy) as Hd. set (d := Z.lxor x y) in *.
  assert (E : d = Z.shiftr d k).
  { unfold d. rewrite Z.shiftr_lxor. apply Z.bits_inj'. intros i Hi. apply (f_equal (λ z, Z.testbit z i)) in H.
    rewrite !Z.lxor_spec in *. by destruct (Z.testbit x i), (Z.testbit y i), (Z.testbit (Z.shiftr x k) i), (Z.testbit (Z.shiftr y k) i). }
  assert (d = 0) as Hz.
  { rewrite Z.shiftr_div_pow2 in E by lia. assert (2 ≤ 2 ^ k) by (change 2 with (2 ^ 1) at 1; apply Z.pow_le_mono_r; lia).
    destruct (decide (d = 0)); [done|]. assert (d / 2 ^ k < d); [|lia]. unfold is_u64 in Hd. apply Z.div_lt; lia. }
  by apply Z.lxor_eq.
Qed.

Lemma mul_inj c ci x y : (c * ci) mod 18446744073709551616 = 1 → is_u64 x → is_u64 y → u64 (x * c) = u64 (y * c) → x = y.
Proof.
  intros Hc Hx Hy H. unfold u64 in H. apply (f_equal (λ z, (z * ci) mod 18446744073709551616)) in H.
  rewrite !Z.mul_mod_idemp_l, <- !Z.mul_assoc in H by lia. rewrite <- !(Z.mul_mod_idemp_r _ (c * ci)), Hc, !Z.mul_1_r, !Z.mod_small in H by (done || lia). done.
Qed.

Lemma hb_mix_u64 x : is_u64 x → is_u64 (hb_mix x).
Proof. intros. unfold hb_mix. apply xorshift_u64; [lia|apply u64_range]. Qed.

Lemma hb_mix_inj x y : is_u64 x → is_u64 y → hb_mix x = hb_mix y → x = y.
Proof.
  intros Hx Hy H. unfold hb_mix in H. apply xorshift_inj in H; [|lia|apply u64_range..].
  apply (mul_inj _ 0x319642b2d24d8ec3) in H; [|done|apply xorshift_u64; [lia|apply u64_range]..].
  apply xorshift_inj in H; [|lia|apply u64_range..]. apply (mul_inj _ 0x96de1b173f119089) in H; [|done|by apply xorshift_u64; [lia|]..].
  by apply xorshift_inj in H.
Qed.

#[global] Opaque hb_mix.

(** Headers whose fields fit their types, and the words the check covers. *)
Record hb_wf (h : heap_block_t) : Prop := {
  hw_magic : is_u32 (hb_magic h);
  hw_flags : is_u32 (hb_flags h);
  hw_size : is_u64 (hb_size h);
  hw_req : is_u64 (hb_req h);
  hw_next : is_u64 (hb_next h);
  hw_caller : is_u64 (hb_caller h);
  hw_check : is_u64 (hb_check h)
}.

Lemma hb_load_wf m b : hb_wf (hb_load m b).
Proof. constructor; cbn; (apply rd32_range || apply rd64_range). Qed.

Definition word0 (h : heap_block_t) : Z := Z.lor (Z.shiftl (hb_magic h) 32) (hb_flags h).

Lemma word0_u64 h : hb_wf h → is_u64 (word0 h).
Proof.
  intros []. apply is_u64_lor; unfold is_u32, is_u64 in *; [|lia]. rewrite Z.shiftl_mul_pow2 by lia. lia.
Qed.

Lemma hb_calc_u64 s b h : is_u64 s → is_u64 b → hb_wf h → is_u64 (hb_calc s b h).
Proof.
  intros Hs Hb Hh. pose proof (word0_u64 h Hh). destruct Hh. unfold hb_calc. fold (word0 h). cbv zeta. repeat (apply hb_mix_u64, is_u64_lxor; [|done]). by apply is_u64_lxor.
Qed.

(** ** Sealed headers *)

(** The header [h] with the check the code computes for address [b]. *)
Definition sealed (secret b : Z) (h : heap_block_t) : heap_block_t :=
  mk_hb (hb_magic h) (hb_flags h) (hb_size h) (hb_req h) (hb_next h) (hb_caller h) (hb_calc secret b h).

Lemma load_seal s m b : is_u64 s → is_u64 b → hb_load (hb_seal s m b) b = sealed s b (hb_load m b).
Proof. intros. unfold hb_seal. rewrite load_check; [done|]. apply hb_calc_u64; [done..|apply hb_load_wf]. Qed.

Lemma seal_out s m b y : ¬ (b ≤ y < b + 48) → hb_seal s m b y = m y.
Proof. apply put_out. Qed.

Lemma seal_load_ne s m b c : c + 48 ≤ b ∨ b + 48 ≤ c → hb_load (hb_seal s m b) c = hb_load m c.
Proof. intros. apply hb_load_ext. intros. apply seal_out. lia. Qed.

Lemma sealed_calc s b h : hb_calc s b (sealed s b h) = hb_calc s b h.
Proof. unfold hb_calc. cbn [sealed hb_magic hb_flags hb_size hb_req hb_next hb_caller]. reflexivity. Qed.

Lemma init_free_load s m b size : is_u64 s → is_u64 b → is_u64 size →
  hb_load (hb_init_free s m b size) b = sealed s b (mk_hb HEAP_MAGIC_FREE 0 size 0 0 0 0).
Proof.
  intros Hs Hb Hz. unfold hb_init_free. rewrite load_seal, load_caller, load_next, load_req, load_size, load_flags, load_magic by done. reflexivity.
Qed.

Lemma init_free_out s m b size y : ¬ (b ≤ y < b + 48) → hb_init_free s m b size y = m y.
Proof.
  intros H. unfold hb_init_free. rewrite seal_out by done. etransitivity; [by apply put_out|]. etransitivity; [by apply put_out|].
  etransitivity; [by apply put_out|]. etransitivity; [by apply put_out|]. etransitivity; by apply put_out.
Qed.

(** ** The canary *)

Lemma lor_high k v b : 0 ≤ k → 0 ≤ v < 2 ^ k → 0 ≤ b → Z.lor v (Z.shiftl b k) = v + 2 ^ k * b.
Proof.
  intros Hk Hv Hb. apply Z.bits_inj'. intros i Hi. rewrite Z.lor_spec, Z.shiftl_spec, testbit_concat by done. destruct (Z.ltb_spec i k).
  - rewrite (Z.testbit_neg_r b) by lia. by rewrite orb_false_r.
  - by rewrite (testbit_high k v).
Qed.

(** Adds and multiplies constants. *)
Ltac zconst :=
  repeat match goal with
  | |- context [Z.add ?a ?b] => lazymatch a with Zpos _ => idtac | Z0 => idtac end; lazymatch b with Zpos _ => idtac end;
      let r := eval vm_compute in (Z.add a b) in change (Z.add a b) with r
  | |- context [Z.mul ?a ?b] => lazymatch a with Zpos _ => idtac end; lazymatch b with Zpos _ => idtac | Z0 => idtac end;
      let r := eval vm_compute in (Z.mul a b) in change (Z.mul a b) with r
  end.

Lemma tail_read_word m b : hb_tail_read m b = rd64 m (u64 (hb_payload b + hb_req (hb_load m b))).
Proof.
  unfold hb_tail_read. set (t := u64 _). clearbody t. cbn [zfor].
  unfold rd64, rd32, rd16. rewrite <- !Z.add_assoc. zconst. rewrite Z.add_0_r, Z.shiftl_0_r, Z.lor_0_l.
  assert (R : ∀ x, 0 ≤ rd8 m x < 256) by apply rd8_range.
  pose proof (R t). pose proof (R (t + 1)). pose proof (R (t + 2)). pose proof (R (t + 3)). pose proof (R (t + 4)). pose proof (R (t + 5)). pose proof (R (t + 6)).
  pose proof (R (t + 7)). rewrite (lor_high 8), (lor_high 16), (lor_high 24), (lor_high 32), (lor_high 40), (lor_high 48), (lor_high 56) by lia. lia.
Qed.

Lemma tail_write_spec s m b : let t := u64 (hb_payload b + hb_req (hb_load m b)) in
  (∀ i, 0 ≤ i < 8 → hb_tail_write s m b (t + i) = u8 (Z.shiftr (hb_tail_value s (hb_payload b)) (8 * i))) ∧
  (∀ x, ¬ (t ≤ x < t + 8) → hb_tail_write s m b x = m x).
Proof.
  intros t. unfold hb_tail_write. fold t. set (v := hb_tail_value _ _). clearbody t v.
  destruct (zfor_inv (λ i m', (∀ j, 0 ≤ j < i → m' (t + j) = u8 (Z.shiftr v (8 * j))) ∧ (∀ x, ¬ (t ≤ x < t + i) → m' x = m x))
    8 0 (λ i m', wr 1 m' (t + i) (u8 (Z.shiftr v (8 * i)))) m) as [H1 H2].
  - split; [lia|done].
  - intros i m' Hi [I1 I2]. split.
    + intros j Hj. destruct (decide (j = i)) as [->|]; [|rewrite wr_out by lia; apply I1; lia].
      rewrite wr_in by lia. replace (t + i - (t + i)) with 0 by lia. rewrite Z.mul_0_r, Z.shiftr_0_r. apply u8_small, u8_range.
    + intros x Hx. rewrite wr_out by lia. apply I2. lia.
  - split; [intros i Hi; apply H1; lia|intros x Hx; apply H2; lia].
Qed.

Lemma hb_tail_value_u64 s p : is_u64 s → is_u64 p → is_u64 (hb_tail_value s p).
Proof. intros. apply hb_mix_u64, is_u64_lxor; [by apply is_u64_lxor|done]. Qed.

(** ** What the check catches *)

(** [h'] differs from [h] in exactly one of the words the check covers, or in
    the check itself. *)
Inductive one_word (h h' : heap_block_t) : Prop :=
  | ow_head : word0 h ≠ word0 h' → hb_size h = hb_size h' → hb_req h = hb_req h' → hb_next h = hb_next h' → hb_caller h = hb_caller h' →
      hb_check h = hb_check h' → one_word h h'
  | ow_size : word0 h = word0 h' → hb_size h ≠ hb_size h' → hb_req h = hb_req h' → hb_next h = hb_next h' → hb_caller h = hb_caller h' →
      hb_check h = hb_check h' → one_word h h'
  | ow_req : word0 h = word0 h' → hb_size h = hb_size h' → hb_req h ≠ hb_req h' → hb_next h = hb_next h' → hb_caller h = hb_caller h' →
      hb_check h = hb_check h' → one_word h h'
  | ow_next : word0 h = word0 h' → hb_size h = hb_size h' → hb_req h = hb_req h' → hb_next h ≠ hb_next h' → hb_caller h = hb_caller h' →
      hb_check h = hb_check h' → one_word h h'
  | ow_caller : word0 h = word0 h' → hb_size h = hb_size h' → hb_req h = hb_req h' → hb_next h = hb_next h' → hb_caller h ≠ hb_caller h' →
      hb_check h = hb_check h' → one_word h h'
  | ow_check : word0 h = word0 h' → hb_size h = hb_size h' → hb_req h = hb_req h' → hb_next h = hb_next h' → hb_caller h = hb_caller h' →
      hb_check h ≠ hb_check h' → one_word h h'.

Lemma mix_step x y a b : is_u64 x → is_u64 y → is_u64 a → is_u64 b → hb_mix (Z.lxor x a) = hb_mix (Z.lxor y b) → Z.lxor x a = Z.lxor y b.
Proof. intros. apply hb_mix_inj; [by apply is_u64_lxor..|done]. Qed.

Lemma calc_one_word s b h h' : is_u64 s → is_u64 b → hb_wf h → hb_wf h' → one_word h h' → hb_check h = hb_calc s b h → hb_check h' ≠ hb_calc s b h'.
Proof.
  intros Hs Hb W W' Hd Hc E. pose proof (word0_u64 h W). pose proof (word0_u64 h' W'). destruct W, W'.
  unfold hb_calc in *. fold (word0 h) in Hc. fold (word0 h') in E. cbv zeta in *. pose proof (is_u64_lxor s b Hs Hb) as Hx.
  destruct Hd as [D E1 E2 E3 E4 E5|E0 D E2 E3 E4 E5|E0 E1 D E3 E4 E5|E0 E1 E2 D E4 E5|E0 E1 E2 E3 D E5|E0 E1 E2 E3 E4 D];
    rewrite ?E0, ?E1, ?E2, ?E3, ?E4 in Hc.
  6: by rewrite <- E in Hc.
  all: rewrite Hc, E in E5; apply D;
    repeat (apply mix_step in E5; [|auto 20 using hb_mix_u64, is_u64_lxor..]; first [apply lxor_cancel in E5 | apply lxor_cancel_l in E5]; try exact E5).
Qed.

(** ** Evaluating loads after a sequence of stores *)

Ltac hb_u := first [assumption | apply u64_range | apply hb_load_wf | done | unfold is_u64, is_u32 in *; lia].

(** One load of a header pushed below the last store. *)
Ltac load_step :=
  match goal with
  | |- context [hb_load (hb_seal ?s ?m ?b) ?b] => rewrite (load_seal s m b) by hb_u
  | |- context [hb_load (hb_seal ?s ?m ?b) ?c] => rewrite (seal_load_ne s m b c) by lia
  | |- context [hb_load (put_magic ?m ?b ?v) ?b] => rewrite (load_magic m b v) by hb_u
  | |- context [hb_load (put_flags ?m ?b ?v) ?b] => rewrite (load_flags m b v) by hb_u
  | |- context [hb_load (put_size ?m ?b ?v) ?b] => rewrite (load_size m b v) by hb_u
  | |- context [hb_load (put_req ?m ?b ?v) ?b] => rewrite (load_req m b v) by hb_u
  | |- context [hb_load (put_next ?m ?b ?v) ?b] => rewrite (load_next m b v) by hb_u
  | |- context [hb_load (put_caller ?m ?b ?v) ?b] => rewrite (load_caller m b v) by hb_u
  | |- context [hb_load (?f ?m ?b ?v) ?c] => rewrite (hb_load_ext m (f m b v) c) by (intros; apply put_out; lia)
  end.
Ltac hb_cbn := cbn [hb_magic hb_flags hb_size hb_req hb_next hb_caller hb_check].
Ltac load_eval := repeat (load_step; hb_cbn).

(** A byte outside the headers written. *)
Ltac byte_eval :=
  repeat match goal with
  | |- hb_seal ?s ?m ?b ?x = _ => rewrite (seal_out s m b x) by lia
  | |- ?f ?m ?b ?v ?x = _ => transitivity (m x); [apply put_out; lia|]
  end; try reflexivity.
