(* ===== verification/HeapInv.v ===== *)
(** * The heap's invariant

    The ghost state is the list of blocks; the invariant says that memory
    holds exactly that list: sealed headers, canaries and aligned stubs in
    place, blocks apart from each other, and together the frames the heap
    took.  What a block promises its owner is [live]. *)

From stdpp Require Import strings.
From S2P Require Import Prelude Frames Heap HeapMem.

(** ** What the physical allocator promises

    [ps_used a f] says frame [f] is in use; a run is taken from free frames. *)

Definition taken {A} (inv : A → Prop) (used : A → Z → Prop) (a a' : A) (p n : Z) : Prop :=
  0 < p ∧ (4096 | p) ∧ p + n * 4096 ≤ PHYS_TOP ∧ inv a' ∧
  (∀ f, p / 4096 ≤ f < p / 4096 + n → ¬ used a f) ∧ (∀ f, used a' f ↔ used a f ∨ p / 4096 ≤ f < p / 4096 + n).

Class PageLaws (A : Type) {ops : PageOps A} := {
  ps_inv : A → Prop;
  ps_used : A → Z → Prop;
  ps_frame_law a a' p : ps_inv a → ps_frame a = (a', p) → (p = 0 ∧ a' = a) ∨ taken ps_inv ps_used a a' p 1;
  ps_run_law a a' n p : ps_inv a → 0 < n → ps_run a n = (a', p) → (p = 0 ∧ a' = a) ∨ taken ps_inv ps_used a a' p n
}.

(** ** Blocks *)

Inductive kind :=
  | BFree
  | BUsed (n : Z)
  | BAligned (r n : Z).

Record block := mk_blk {
  b_addr : Z;
  b_size : Z;
  b_caller : Z;
  b_kind : kind
}.

#[export] Instance kind_eq : EqDecision kind.
Proof. solve_decision. Defined.
#[export] Instance block_eq : EqDecision block.
Proof. solve_decision. Defined.

Definition b_end (b : block) : Z := b_addr b + 48 + b_size b.
Definition b_req (b : block) : Z :=
  match b_kind b with BFree => 0 | BUsed n => n | BAligned r n => r - (b_addr b + 48) + n end.
Definition b_magic (b : block) : Z := match b_kind b with BFree => HEAP_MAGIC_FREE | _ => HEAP_MAGIC_USED end.
Definition b_flags (b : block) : Z := match b_kind b with BAligned _ _ => HB_F_ALIGNED | _ => 0 end.
Definition is_free (b : block) : bool := match b_kind b with BFree => true | _ => false end.

Definition hdr (b : block) (next : Z) : heap_block_t :=
  mk_hb (b_magic b) (b_flags b) (b_size b) (b_req b) next (b_caller b) 0.
Definition stub (b : block) (n : Z) : heap_block_t := mk_hb HEAP_MAGIC_ALIGN 0 n n (b_addr b) (b_caller b) 0.

Record block_rep (s : Z) (m : mem) (b : block) (next : Z) : Prop := {
  br_hdr : hb_load m (b_addr b) = sealed s (b_addr b) (hdr b next);
  br_tail : b_kind b ≠ BFree → rd64 m (b_addr b + 48 + b_req b) = hb_tail_value s (b_addr b + 48);
  br_stub : ∀ r n, b_kind b = BAligned r n → hb_load m (r - 48) = sealed s (r - 48) (stub b n)
}.

(** Shape and place of a block of a heap in [[lo, hi)]. *)
Record blk_ok (lo hi : Z) (b : block) : Prop := {
  bo_addr : (16 | b_addr b);
  bo_size : (16 | b_size b);
  bo_pos : 0 ≤ b_size b;
  bo_lo : lo ≤ b_addr b;
  bo_hi : b_end b ≤ hi;
  bo_caller : is_u64 (b_caller b);
  bo_kind : match b_kind b with
            | BFree => True
            | BUsed n => 0 < n ∧ n + 8 ≤ b_size b
            | BAligned r n => 0 < n ∧ (16 | r) ∧ b_addr b + 96 ≤ r ∧ r - (b_addr b + 48) + n + 8 ≤ b_size b
            end
}.

Definition in_blk (b : block) (x : Z) : Prop := b_addr b ≤ x < b_end b.
Definition in_ext (bl : list block) (x : Z) : Prop := ∃ b, b ∈ bl ∧ in_blk b x.

Definition apart (b c : block) : Prop := b_end b ≤ b_addr c ∨ b_end c ≤ b_addr b.
Fixpoint apart_all (bl : list block) : Prop :=
  match bl with
  | [] => True
  | b :: l => Forall (apart b) l ∧ apart_all l
  end.

(** The address a list starts at, [z] when it is empty. *)
Definition hd (bl : list block) (z : Z) : Z := match bl with [] => z | b :: _ => b_addr b end.

Fixpoint lseg (s : Z) (m : mem) (bl : list block) (z : Z) : Prop :=
  match bl with
  | [] => True
  | b :: l => block_rep s m b (hd l z) ∧ lseg s m l z
  end.

Definition used_size (b : block) : Z := if is_free b then 0 else b_size b.
Fixpoint used_bytes (bl : list block) : Z := match bl with [] => 0 | b :: l => used_size b + used_bytes l end.

(** The allocations: the pointer and the size its owner asked for. *)
Definition owned (b : block) : option (Z * Z) :=
  match b_kind b with
  | BFree => None
  | BUsed n => Some (b_addr b + 48, n)
  | BAligned r n => Some (r, n)
  end.
Definition live (bl : list block) : list (Z * Z) := omap owned bl.

(** Bytes an owner may write. *)
Definition user_byte (bl : list block) (x : Z) : Prop := ∃ p n, (p, n) ∈ live bl ∧ p ≤ x < p + n.

Definition frame_at (x : Z) : Z := (x - VMM_PHYSMAP_BASE) / 4096.

Record hinv {A} {ops : PageOps A} {laws : PageLaws A} (h : heap A) (fr : list Z) (bl : list block) : Prop := {
  hi_start : heap_start h = hd bl 0;
  hi_ne : bl ≠ [];
  hi_seg : lseg (g_heap_secret h) (hmem h) bl 0;
  hi_ok : Forall (blk_ok (heap_lo h) (heap_hi h)) bl;
  hi_apart : apart_all bl;
  hi_cover : ∀ x, in_ext bl x ↔ frame_at x ∈ fr;
  hi_lo : VMM_PHYSMAP_BASE ≤ heap_lo h ∧ (16 | heap_lo h);
  hi_hi : heap_hi h ≤ VMM_PHYSMAP_BASE + PHYS_TOP;
  hi_secret : is_u64 (g_heap_secret h);
  hi_alive : g_heap_dead h = false;
  hi_pages : ps_inv (hpages h);
  hi_used : ∀ f, f ∈ fr → ps_used (hpages h) f;
  hi_totals : u64 (total_allocated h - total_freed h) = u64 (used_bytes bl)
}.

(** [fr'] is [fr] and the frames that are in use in [a'] and were not in [a]. *)
Definition gained {A} {ops : PageOps A} {laws : PageLaws A} (a a' : A) (fr fr' : list Z) : Prop :=
  ∀ f, f ∈ fr' ↔ f ∈ fr ∨ (ps_used a' f ∧ ¬ ps_used a f).

(** ** Lists of blocks *)

Lemma hd_app l1 l2 z : hd (l1 ++ l2) z = hd l1 (hd l2 z).
Proof. by destruct l1. Qed.

Lemma lseg_app s m l1 l2 z : lseg s m (l1 ++ l2) z ↔ lseg s m l1 (hd l2 z) ∧ lseg s m l2 z.
Proof. induction l1 as [|b l IH]; cbn [app lseg]; [tauto|]. rewrite IH, hd_app. tauto. Qed.

Lemma apart_app l1 l2 : apart_all (l1 ++ l2) ↔ apart_all l1 ∧ apart_all l2 ∧ ∀ b c, b ∈ l1 → c ∈ l2 → apart b c.
Proof.
  induction l1 as [|b l IH]; cbn [app apart_all].
  - split; [|tauto]. intros. split_and!; try done. intros ?? []%elem_of_nil.
  - rewrite IH, Forall_app, !Forall_forall. split.
    + intros ([H1 H2] & H3 & H4 & H5). split_and!; try done. intros x c [->|Hx]%elem_of_cons Hc; auto.
    + intros ([H1 H2] & H3 & H4). split_and!; try done; intros; apply H4; try done; set_solver.
Qed.

Lemma used_bytes_app l1 l2 : used_bytes (l1 ++ l2) = used_bytes l1 + used_bytes l2.
Proof. induction l1 as [|b l IH]; cbn [app used_bytes]; lia. Qed.

Lemma in_ext_app l1 l2 x : in_ext (l1 ++ l2) x ↔ in_ext l1 x ∨ in_ext l2 x.
Proof. unfold in_ext. setoid_rewrite elem_of_app. naive_solver. Qed.
Lemma in_ext_cons b l x : in_ext (b :: l) x ↔ in_blk b x ∨ in_ext l x.
Proof. unfold in_ext. setoid_rewrite elem_of_cons. naive_solver. Qed.
Lemma in_ext_nil x : ¬ in_ext [] x.
Proof. intros (b & []%elem_of_nil & _). Qed.
Lemma in_ext_single b x : in_ext [b] x ↔ in_blk b x.
Proof. rewrite in_ext_cons. split; [intros [?|[]%in_ext_nil]; done|by left]. Qed.

Lemma live_app l1 l2 : live (l1 ++ l2) = live l1 ++ live l2.
Proof. apply omap_app. Qed.

Lemma req_bounds lo hi b : blk_ok lo hi b → 0 ≤ b_req b ∧ (b_kind b ≠ BFree → b_req b + 8 ≤ b_size b).
Proof. intros []. unfold b_req. destruct (b_kind b); split; try done; lia. Qed.

(** A block's representation reads only bytes of the block. *)
Lemma block_rep_frame s m m' b nx lo hi : blk_ok lo hi b → (∀ x, in_blk b x → m' x = m x) → block_rep s m b nx → block_rep s m' b nx.
Proof.
  intros Hok Hf [H1 H2 H3]. pose proof (req_bounds lo hi b Hok) as [R1 R2]. destruct Hok as [? ? K3 ? ? ? K]. unfold in_blk, b_end in *. constructor.
  - rewrite <- H1. apply hb_load_ext. intros. apply Hf. lia.
  - intros Hk. rewrite <- (H2 Hk). apply rd64_ext. intros. apply Hf. specialize (R2 Hk). lia.
  - intros r n E. rewrite <- (H3 r n E). rewrite E in K. apply hb_load_ext. intros. apply Hf. lia.
Qed.

(** The bytes of a block its owner does not write: header, stub and the rest
    after the canary. *)
Lemma block_rep_user s m m' b nx lo hi : blk_ok lo hi b →
  (∀ x, in_blk b x → (∀ p n, owned b = Some (p, n) → ¬ p ≤ x < p + n) → m' x = m x) → block_rep s m b nx → block_rep s m' b nx.
Proof.
  intros Hok Hf [H1 H2 H3]. pose proof (req_bounds lo hi b Hok) as [R1 R2]. destruct Hok as [? ? K3 ? ? ? K]. unfold in_blk, b_end, owned in *.
  constructor.
  - rewrite <- H1. apply hb_load_ext. intros x Hx. apply Hf; [lia|]. intros p n. destruct (b_kind b); [done|intros [= <- <-]; lia..].
  - intros Hk. rewrite <- (H2 Hk). apply rd64_ext. intros x Hx. specialize (R2 Hk). apply Hf; [lia|]. intros p n. unfold b_req in *.
    destruct (b_kind b); [done|intros [= <- <-]; lia..].
  - intros r n E. rewrite <- (H3 r n E). rewrite E in K, Hf. apply hb_load_ext. intros x Hx. apply Hf; [lia|]. intros p n' [= <- <-]. lia.
Qed.

Lemma lseg_frame s m m' bl z lo hi : Forall (blk_ok lo hi) bl → (∀ x, in_ext bl x → m' x = m x) → lseg s m bl z → lseg s m' bl z.
Proof.
  induction bl as [|b l IH]; cbn [lseg]; [done|]. intros [Hb Hl]%Forall_cons Hf [H1 H2]. split.
  - apply (block_rep_frame s m m' b _ lo hi Hb); [|done]. intros x Hx. apply Hf, in_ext_cons. by left.
  - apply IH; [done| |done]. intros x Hx. apply Hf, in_ext_cons. by right.
Qed.

Lemma lseg_user s m m' bl z lo hi : Forall (blk_ok lo hi) bl → apart_all bl →
  (∀ x, in_ext bl x → ¬ user_byte bl x → m' x = m x) → lseg s m bl z → lseg s m' bl z.
Proof.
  intros Hok Hap Hf. assert (G : ∀ l1 l2, bl = l1 ++ l2 → lseg s m l2 z → lseg s m' l2 z); [|apply (G [] bl eq_refl)].
  intros l1 l2. revert l1. induction l2 as [|b l IH]; intros l1 E; cbn [lseg]; [done|]. intros [H1 H2].
  split; [|apply (IH (l1 ++ [b])); [by rewrite <- (assoc_L (++))|done]].
  rewrite Forall_forall in Hok. assert (Hin : b ∈ bl) by (rewrite E; set_solver).
  apply (block_rep_user s m m' b _ _ _ (Hok b Hin)); [|done]. intros x Hx Hn. apply Hf; [by exists b|].
  intros (p & n & (c & Hc & Ho)%list_elem_of_omap & Hp). destruct (decide (c = b)) as [->|Hne]; [by apply (Hn p n)|].
  assert (apart c b ∨ apart b c) as Hcb.
  { rewrite E in Hc, Hap. apply apart_app in Hap as (_ & [A1 _] & A2). rewrite Forall_forall in A1.
    apply elem_of_app in Hc as [Hc|[?|Hc]%elem_of_cons]; [left; apply A2; set_solver|done|right; by apply A1]. }
  destruct (Hok c Hc) as [? ? ? ? ? ? K]. unfold in_blk, apart, owned, b_end in *. destruct (b_kind c); [done|injection Ho as <- <-; lia..].
Qed.

(** Taking a list of blocks out of the middle. *)
Lemma in_ext_ok lo hi bl x : Forall (blk_ok lo hi) bl → in_ext bl x → lo ≤ x < hi.
Proof. rewrite Forall_forall. intros H (b & Hb & Hx). destruct (H b Hb). unfold in_blk in *. lia. Qed.

Lemma apart_ext l1 l2 x : apart_all (l1 ++ l2) → in_ext l1 x → ¬ in_ext l2 x.
Proof.
  intros (_ & _ & H)%apart_app (b & Hb & Hx) (c & Hc & Hy). destruct (H b c Hb Hc); unfold in_blk, b_end in *; lia.
Qed.

(** Blocks inside [[lo, hi)] with their extent inside another list's are apart
    from what that list is apart from. *)
Lemma apart_inside (news olds l : list block) : (∀ b, b ∈ news → 0 ≤ b_size b) → (∀ x, in_ext news x → in_ext olds x) →
  (∀ b, b ∈ l → 0 ≤ b_size b) → (∀ b c, b ∈ l → c ∈ olds → apart b c) → ∀ b c, b ∈ l → c ∈ news → apart b c.
Proof.
  intros Hn Hin Hl Ha b c Hb Hc. unfold apart. pose proof (Hn c Hc). pose proof (Hl b Hb). unfold b_end.
  destruct (decide (b_addr b + 48 + b_size b ≤ b_addr c)); [by left|]. destruct (decide (b_addr c + 48 + b_size c ≤ b_addr b)); [by right|]. exfalso.
  set (x := Z.max (b_addr b) (b_addr c)). destruct (Hin x) as (o & Ho & Hx).
  { exists c. split; [done|]. unfold in_blk, b_end. lia. }
  destruct (Ha b o Hb Ho); unfold in_blk, b_end in *; lia.
Qed.

(** ** Room for the list *)

Lemma addr_nodup lo hi bl : Forall (blk_ok lo hi) bl → apart_all bl → NoDup ((λ b, (b_addr b - lo) / 16) <$> bl).
Proof.
  induction bl as [|b l IH]; cbn [apart_all]; [constructor|]. intros [Hb Hl]%Forall_cons [Ha Hr]. cbn [fmap list_fmap]. constructor; [|by apply IH].
  intros (c & E & Hc)%list_elem_of_fmap. rewrite Forall_forall in Ha, Hl. specialize (Ha c Hc). destruct (Hl c Hc), Hb.
  unfold apart, b_end in *. Z.to_euclidean_division_equations. lia.
Qed.

Lemma nodup_bound (l : list Z) n : NoDup l → (∀ x, x ∈ l → 0 ≤ x < Z.of_nat n) → (length l ≤ n)%nat.
Proof.
  intros Hn Hb. replace n with (length (seqZ 0 (Z.of_nat n))) by (rewrite length_seqZ; lia).
  apply submseteq_length, NoDup_submseteq; [done|]. intros x Hx. apply elem_of_seqZ. specialize (Hb x Hx). lia.
Qed.

Lemma list_room lo hi bl : (16 | lo) → Forall (blk_ok lo hi) bl → apart_all bl → Z.of_nat (length bl) ≤ Z.max 0 ((hi - lo) / 16).
Proof.
  intros Hlo Hok Hap. pose proof (nodup_bound ((λ b, (b_addr b - lo) / 16) <$> bl) (Z.to_nat ((hi - lo) / 16)) (addr_nodup _ _ _ Hok Hap)) as H.
  rewrite length_fmap in H. enough ((length bl ≤ Z.to_nat ((hi - lo) / 16))%nat) by lia. apply H. intros x (b & -> & Hb)%list_elem_of_fmap.
  rewrite Forall_forall in Hok. destruct (Hok b Hb). unfold b_end in *. Z.to_euclidean_division_equations. lia.
Qed.

(** ** Checks that pass *)

Lemma align16 a : (Z.land a 15 =? 0) = true ↔ (16 | a).
Proof.
  rewrite Z.eqb_eq. change 15 with (2 ^ 4 - 1). rewrite land_ones_mod by lia. change (2 ^ 4) with 16. split; [apply Z.mod_divide; lia|by intros ?%Z.mod_divide].
Qed.

Section verify.
Context {A : Type} {ops : PageOps A} {laws : PageLaws A}.
Implicit Types h : heap A.

Lemma verify_hdr h b nx caller : blk_ok (heap_lo h) (heap_hi h) b → VMM_PHYSMAP_BASE ≤ heap_lo h → heap_hi h ≤ VMM_PHYSMAP_BASE + PHYS_TOP →
  hb_load (hmem h) (b_addr b) = sealed (g_heap_secret h) (b_addr b) (hdr b nx) → hb_verify (b_addr b) caller h = Ret true h.
Proof.
  intros Hok Hlo Hhi E. pose proof (req_bounds _ _ b Hok) as [R1 R2]. destruct Hok as [Ha Hs Hp Hl Hh Hc _]. unfold VMM_PHYSMAP_BASE, PHYS_TOP, b_end in *.
  unfold hb_verify, hb_in_heap, hb_payload. rewrite E, sealed_calc. cbn [sealed hdr hb_magic hb_flags hb_size hb_req hb_next hb_caller hb_check]. cbv zeta.
  unfold HDR, HEAP_ALIGN, HEAP_TAIL. change (16 - 1) with 15. rewrite (proj2 (align16 _) Ha). rewrite (u64_small (b_addr b + 48)) by (unfold is_u64; lia).
  rewrite (u64_small (b_addr b + 48 + b_size b)) by (unfold is_u64; lia). rewrite (proj2 (Z.leb_le (heap_lo h) _)), (proj2 (Z.leb_le _ (heap_hi h))) by lia. cbn [andb negb].
  assert (negb (b_magic b =? HEAP_MAGIC_USED) && negb (b_magic b =? HEAP_MAGIC_FREE) = false) as -> by (unfold b_magic; by destruct (b_kind b)).
  rewrite Z.eqb_refl. cbn [negb]. rewrite (proj2 (Z.mod_divide _ 16 ltac:(lia)) Hs). rewrite (proj2 (Z.ltb_ge (heap_hi h) _)) by lia. cbn [negb orb Z.eqb].
  destruct (b_magic b =? HEAP_MAGIC_USED) eqn:Em; [|done]. cbn [andb]. rewrite u64_small.
  - rewrite (proj2 (Z.ltb_ge _ _)); [done|]. apply R2. intros Ek. unfold b_magic in Em. by rewrite Ek in Em.
  - assert (b_req b + 8 ≤ b_size b); [|unfold is_u64; lia]. apply R2. intros Ek. unfold b_magic in Em. by rewrite Ek in Em.
Qed.

Lemma verify_ok h b nx caller : blk_ok (heap_lo h) (heap_hi h) b → VMM_PHYSMAP_BASE ≤ heap_lo h → heap_hi h ≤ VMM_PHYSMAP_BASE + PHYS_TOP →
  block_rep (g_heap_secret h) (hmem h) b nx → hb_verify (b_addr b) caller h = Ret true h.
Proof. intros Hok Hlo Hhi [E _ _]. by apply (verify_hdr h b nx). Qed.

Lemma load_hdr h b nx : block_rep (g_heap_secret h) (hmem h) b nx →
  ∀ s, s = hb_load (hmem h) (b_addr b) → hb_magic s = b_magic b ∧ hb_flags s = b_flags b ∧ hb_size s = b_size b ∧ hb_req s = b_req b ∧
  hb_next s = nx ∧ hb_caller s = b_caller b.
Proof. intros [E _ _] s ->. by rewrite E. Qed.
End verify.
