(* ===== verification/HeapAlloc.v ===== *)
(** * Allocation keeps the heap's invariant

    What [heap_alloc_locked] and the two allocation calls do to the list of
    blocks: first fit with a split, or a new region at the end. *)

From stdpp Require Import strings.
From S2P Require Import Prelude Frames Heap HeapMem HeapInv.

Section alloc.
Context {A : Type} {ops : PageOps A} {laws : PageLaws A}.
Implicit Types h : heap A.

(** ** Replacing part of the list *)

Lemma hinv_replace h fr pre olds news post m' al fd : hinv h fr (pre ++ olds ++ post) → olds ≠ [] → news ≠ [] → hd news 0 = hd olds 0 →
  lseg (g_heap_secret h) m' news (hd post 0) → Forall (blk_ok (heap_lo h) (heap_hi h)) news → apart_all news →
  (∀ x, in_ext news x ↔ in_ext olds x) → (∀ x, ¬ in_ext olds x → m' x = hmem h x) →
  u64 (al - fd) = u64 (total_allocated h - total_freed h + used_bytes news - used_bytes olds) →
  hinv (set_totals (set_mem h m') al fd) fr (pre ++ news ++ post).
Proof.
  intros [H1 H2 H3 H4 H5 H6 H7 H8 H9 H10 H11 H12 H13] Ho Hn Hh Hs Hk Ha He Hf Ht.
  apply Forall_app in H4 as [K1 [K2 K3]%Forall_app]. apply apart_app in H5 as (A1 & A2 & A3). apply apart_app in A2 as (A2 & A4 & A5).
  apply lseg_app in H3 as [S1 [S2 S3]%lseg_app].
  assert (P : ∀ l b, Forall (blk_ok (heap_lo h) (heap_hi h)) l → b ∈ l → 0 ≤ b_size b) by (intros l b Hl Hb; rewrite Forall_forall in Hl; apply (Hl b Hb)).
  assert (Hd : hd (news ++ post) 0 = hd (olds ++ post) 0) by (rewrite !hd_app; destruct news, olds; done).
  constructor; cbn [set_totals set_mem heap_start g_heap_secret hmem heap_lo heap_hi g_heap_dead hpages total_allocated total_freed]; try done.
  - by rewrite H1, (hd_app pre), (hd_app pre), Hd.
  - destruct pre, news; done.
  - apply lseg_app. rewrite Hd. split; [|apply lseg_app; split; [done|]].
    + apply (lseg_frame _ (hmem h) m' _ _ _ _ K1); [|done]. intros x Hx. apply Hf. intros Hx'. destruct Hx as (b & Hb & Hx), Hx' as (c & Hc & Hx').
      destruct (A3 b c Hb); [set_solver|unfold in_blk in *; lia..].
    + apply (lseg_frame _ (hmem h) m' _ _ _ _ K3); [|done]. intros x Hx. apply Hf. intros Hx'. destruct Hx as (b & Hb & Hx), Hx' as (c & Hc & Hx').
      destruct (A5 c b Hc Hb); unfold in_blk in *; lia.
  - apply Forall_app; split; [done|by apply Forall_app].
  - apply apart_app. split; [done|]. split.
    + apply apart_app. split_and!; try done. intros b c Hb Hc. destruct (apart_inside news olds post) with (b := c) (c := b) as [?|?]; try done; [| | | |by right|by left].
      * intros; by apply (P news).
      * intros x. apply He.
      * intros; by apply (P post).
      * intros b' c' Hb' Hc'. destruct (A5 c' b' Hc' Hb'); [by right|by left].
    + intros b c Hb [Hc|Hc]%elem_of_app; [|apply A3; set_solver]. apply (apart_inside news olds pre); try done.
      * intros; by apply (P news).
      * intros x. apply He.
      * intros; by apply (P pre).
      * intros b' c' Hb' Hc'. apply A3; set_solver.
  - intros x. rewrite <- H6, !in_ext_app, He. done.
  - rewrite Ht. unfold u64 in *. rewrite !used_bytes_app in *. set (T := total_allocated h - total_freed h) in *. clearbody T.
    replace (T + used_bytes news - used_bytes olds) with (T + (used_bytes news - used_bytes olds)) by lia.
    rewrite <- Zplus_mod_idemp_l, H13, Zplus_mod_idemp_l. f_equal. lia.
Qed.

(** ** Splitting and taking a free block *)

Definition split_blocks (a sz c need req caller : Z) : list block :=
  if 80 <=? sz - need then [mk_blk a need caller (BUsed req); mk_blk (a + 48 + need) (sz - need - 48) c BFree]
  else [mk_blk a sz caller (BUsed req)].

Lemma bind_ret {X Y} (c : hm X) (k : X → hm Y) h x h' : c h = Ret x h' → hbind c k h = k x h'.
Proof. intros E. unfold hbind. by rewrite E. Qed.

Lemma bind_at {Y} b (k : heap_block_t → hm Y) h : hbind (at_ b) k h = k (hb_load (hmem h) b) h.
Proof. done. Qed.
Lemma bind_gets {X Y} (f : heap A → X) (k : X → hm Y) h : hbind (gets f) k h = k (f h) h.
Proof. done. Qed.
Lemma bind_hret {X Y} (x : X) (k : X → hm Y) h : hbind (hret x) k h = k x h.
Proof. done. Qed.

Definition in_heap_range (a n : Z) : Prop := VMM_PHYSMAP_BASE ≤ a ∧ 0 ≤ n ∧ a + n ≤ VMM_PHYSMAP_BASE + PHYS_TOP.

Lemma range_u64 a n : in_heap_range a n → is_u64 a ∧ is_u64 n ∧ is_u64 (a + n).
Proof. unfold in_heap_range, VMM_PHYSMAP_BASE, PHYS_TOP, is_u64. lia. Qed.

Lemma split_spec h a sz c nx need : in_heap_range a (48 + sz) → is_u64 (g_heap_secret h) → 0 ≤ need ≤ sz →
  hb_load (hmem h) a = sealed (g_heap_secret h) a (mk_hb HEAP_MAGIC_FREE 0 sz 0 nx c 0) →
  ∃ m' chk, alloc_split a need h = Ret tt (set_mem h m') ∧ (∀ x, ¬ (a ≤ x < a + 48 + sz) → m' x = hmem h x) ∧
  if 80 <=? sz - need then
    hb_load m' a = mk_hb HEAP_MAGIC_FREE 0 need 0 (a + 48 + need) c chk ∧
    hb_load m' (a + 48 + need) = sealed (g_heap_secret h) (a + 48 + need) (mk_hb HEAP_MAGIC_FREE 0 (sz - need - 48) 0 nx c 0)
  else hb_load m' a = mk_hb HEAP_MAGIC_FREE 0 sz 0 nx c chk.
Proof.
  intros Hr Hs Hn E. pose proof (hb_load_wf (hmem h) a) as W. rewrite E in W. destruct W as [_ _ _ _ Wn Wc Wk]. cbn in Wn, Wc, Wk.
  unfold in_heap_range, VMM_PHYSMAP_BASE, PHYS_TOP in Hr. unfold alloc_split. rewrite bind_at, E. cbn [sealed hb_size]. cbv zeta. rewrite (u64_small (sz - need)) by (unfold is_u64; lia). unfold HDR, HEAP_MIN_SPLIT. change (48 + 32) with 80.
  destruct (Z.leb_spec 80 (sz - need)) as [Hsp|Hns].
  - unfold hb_payload, HDR. rewrite (u64_small (a + 48)) by (unfold is_u64; lia). rewrite (u64_small (a + 48 + need)) by (unfold is_u64; lia).
    rewrite (u64_small (sz - need - 48)) by (unfold is_u64; lia). set (nb := a + 48 + need) in *. assert (Hnb : a + 48 ≤ nb) by (unfold nb; lia).
    eexists _, _. split; [reflexivity|]. split; [|split].
    + intros x Hx. cbn [hmem set_mem]. assert (nb + 48 ≤ a + 48 + sz) by (unfold nb; lia). byte_eval.
    + cbn [hmem set_mem g_heap_secret]. assert (is_u64 nb ∧ is_u64 a) as [? ?] by (unfold nb, is_u64; lia). load_eval. rewrite E. reflexivity.
    + cbn [hmem set_mem g_heap_secret]. assert (is_u64 nb ∧ is_u64 a) as [? ?] by (unfold nb, is_u64; lia). load_eval. rewrite E. reflexivity.
  - eexists (hmem h), _. split; [by destruct h|]. split; [done|]. rewrite E. reflexivity.
Qed.

(** The canary word after [hb_tail_write], and what it leaves alone. *)
Lemma tail_written s m b req : is_u64 s → is_u64 (b + 48) → is_u64 (b + 48 + req) → hb_req (hb_load m b) = req →
  rd64 (hb_tail_write s m b) (b + 48 + req) = hb_tail_value s (b + 48) ∧
  ∀ x, ¬ (b + 48 + req ≤ x < b + 48 + req + 8) → hb_tail_write s m b x = m x.
Proof.
  intros Hs Hb Ht E. destruct (tail_write_spec s m b) as [T1 T2]. unfold hb_payload, HDR in *. rewrite E, (u64_small (b + 48)), (u64_small (b + 48 + req)) in * by done.
  split; [|done]. apply rd64_bytes; [by apply hb_tail_value_u64|done].
Qed.

Lemma take_spec h a mg fl sz rq nx c chk req caller : in_heap_range a (48 + req + 8) → 0 ≤ req → is_u64 (g_heap_secret h) → is_u64 caller →
  hb_load (hmem h) a = mk_hb mg fl sz rq nx c chk →
  ∃ m', alloc_take a req caller h = Ret tt (set_totals (set_mem h m') (u64 (total_allocated h + sz)) (total_freed h)) ∧
  hb_load m' a = sealed (g_heap_secret h) a (mk_hb HEAP_MAGIC_USED 0 sz req nx caller 0) ∧
  rd64 m' (a + 48 + req) = hb_tail_value (g_heap_secret h) (a + 48) ∧
  ∀ x, ¬ (a ≤ x < a + 48) → ¬ (a + 48 + req ≤ x < a + 48 + req + 8) → m' x = hmem h x.
Proof.
  intros Hr Hq Hs Hc E. unfold in_heap_range, VMM_PHYSMAP_BASE, PHYS_TOP in Hr. assert (is_u64 a ∧ is_u64 req) as [Ha Hreq] by (unfold is_u64; lia).
  set (m1 := hb_seal (g_heap_secret h) (put_caller (put_req (put_flags (put_magic (hmem h) a HEAP_MAGIC_USED) a 0) a req) a caller) a).
  assert (L1 : hb_load m1 a = sealed (g_heap_secret h) a (mk_hb HEAP_MAGIC_USED 0 sz req nx caller 0)) by (unfold m1; load_eval; rewrite E; reflexivity).
  destruct (tail_written (g_heap_secret h) m1 a req Hs) as [T1 T2]; [unfold is_u64; lia..|by rewrite L1|].
  set (m2 := hb_tail_write (g_heap_secret h) m1 a) in *.
  assert (L2 : hb_load m2 a = hb_load m1 a) by (apply hb_load_ext; intros; apply T2; lia).
  exists m2. split_and!.
  - unfold alloc_take. cbv [hbind upd modify seal tail_write]. cbn [hmem set_mem g_heap_secret total_allocated total_freed]. fold m1. fold m2. by rewrite L2, L1.
  - by rewrite L2.
  - done.
  - intros x H1 H2. rewrite T2 by lia. unfold m1. byte_eval.
Qed.

Lemma split_blocks_ok lo hi a sz c need req caller : blk_ok lo hi (mk_blk a sz c BFree) → 0 < req → req + 8 ≤ need ≤ sz → (16 | need) → is_u64 caller →
  let bs := split_blocks a sz c need req caller in
  Forall (blk_ok lo hi) bs ∧ apart_all bs ∧ (∀ x, in_ext bs x ↔ in_ext [mk_blk a sz c BFree] x) ∧ hd bs 0 = a ∧ bs ≠ [] ∧ live bs = [(a + 48, req)] ∧
  used_bytes bs = if 80 <=? sz - need then need else sz.
Proof.
  intros [H1 H2 H3 H4 H5 H6 _] Hr Hn Hd Hc bs. unfold bs, split_blocks, b_end in *. cbn [b_addr b_size b_caller] in *. destruct (Z.leb_spec 80 (sz - need)).
  - split_and!; try done.
    + apply Forall_cons; split; [|apply Forall_singleton]; constructor; cbn; unfold b_end; cbn; try done; try lia.
      * apply Z.divide_add_r; [apply Z.divide_add_r; [done|by exists 3]|done].
      * apply Z.divide_sub_r; [by apply Z.divide_sub_r|by exists 3].
    + cbn [apart_all]. split; [apply Forall_singleton; left; unfold b_end; cbn; lia|]. split; [constructor|done].
    + intros x. rewrite in_ext_cons, !in_ext_single. unfold in_blk, b_end. cbn. lia.
    + cbn. unfold used_size. cbn. lia.
  - split_and!; try done.
    + apply Forall_singleton. constructor; cbn; unfold b_end; cbn; try done; lia.
    + intros x. by rewrite !in_ext_single.
    + cbn. unfold used_size. cbn. lia.
Qed.

(** A free block of the list is split and taken. *)
Lemma take_free h fr pre a sz c post need req caller : hinv h fr (pre ++ mk_blk a sz c BFree :: post) → 0 < req → req + 8 ≤ need ≤ sz → (16 | need) → is_u64 caller →
  ∃ h', hbind (alloc_split a need) (λ _, hbind (alloc_take a req caller) (λ _, hret a)) h = Ret a h' ∧
  hinv h' fr (pre ++ split_blocks a sz c need req caller ++ post) ∧ (∀ x, ¬ in_blk (mk_blk a sz c BFree) x → hmem h' x = hmem h x) ∧
  g_heap_expect h' = g_heap_expect h ∧ hpages h' = hpages h.
Proof.
  intros Hi Hr Hn Hd Hc. pose proof (hi_seg _ _ _ Hi) as [_ [Hrep _]]%lseg_app. pose proof (hi_ok _ _ _ Hi) as [_ [Hok _]%Forall_cons]%Forall_app.
  pose proof (hi_secret _ _ _ Hi) as Hs. assert (Hrg : in_heap_range a (48 + sz)).
  { destruct Hok, (hi_lo _ _ _ Hi). pose proof (hi_hi _ _ _ Hi). unfold in_heap_range, b_end in *. cbn in *. lia. }
  destruct (split_spec h a sz c (hd post 0) need Hrg Hs ltac:(lia) (br_hdr _ _ _ _ Hrep)) as (m1 & chk & E1 & F1 & L1).
  assert (∃ nx, hb_load m1 a = mk_hb HEAP_MAGIC_FREE 0 (if 80 <=? sz - need then need else sz) 0 nx c chk ∧
    nx = if 80 <=? sz - need then a + 48 + need else hd post 0) as (nx & L & Enx) by (destruct (80 <=? sz - need); eexists; naive_solver).
  destruct (take_spec (set_mem h m1) a _ _ _ _ _ _ _ req caller ltac:(unfold in_heap_range in *; lia) ltac:(lia) Hs Hc L) as (m2 & E2 & L2 & T2 & F2).
  cbn [hmem set_mem g_heap_secret total_allocated total_freed] in *.
  destruct (split_blocks_ok _ _ a sz c need req caller Hok Hr Hn Hd Hc) as (G1 & G2 & G3 & G4 & G5 & _ & G7).
  assert (Fx : ∀ x, ¬ in_blk (mk_blk a sz c BFree) x → m2 x = hmem h x) by (intros x Hx; unfold in_blk, b_end in Hx; cbn in Hx; rewrite F2 by lia; apply F1; lia).
  eexists. split; [|split; [apply (hinv_replace h fr pre [mk_blk a sz c BFree] (split_blocks a sz c need req caller) post m2
    (u64 (total_allocated h + (if 80 <=? sz - need then need else sz))) (total_freed h)); try done|]].
  - unfold hbind at 1. rewrite E1. unfold hbind. rewrite E2. reflexivity.
  - unfold split_blocks in *. destruct (80 <=? sz - need); cbn [lseg hd b_addr].
    + destruct L1 as [L1 L3]. split; [|split; [|done]]; constructor; try done.
      * cbn [b_addr]. rewrite L2, Enx. reflexivity.
      * cbn [b_addr]. etransitivity; [|exact L3]. apply hb_load_ext. intros x Hx. apply F2; lia.
    + split; [|done]. constructor; try done. cbn [b_addr]. rewrite L2, Enx. reflexivity.
  - intros x Hx. apply Fx. by rewrite <- in_ext_single.
  - rewrite G7. cbn. unfold used_size. cbn. unfold u64. rewrite Zminus_mod_idemp_l. f_equal. lia.
  - done.
Qed.

(** ** First fit *)

Definition fits (need : Z) (b : block) : bool := is_free b && (need <=? b_size b).

Lemma blk_nonnull h fr bl b : hinv h fr bl → b ∈ bl → b_addr b ≠ 0.
Proof.
  intros Hi Hb. pose proof (hi_ok _ _ _ Hi) as Hok. rewrite Forall_forall in Hok. destruct (Hok b Hb), (hi_lo _ _ _ Hi). unfold VMM_PHYSMAP_BASE in *. lia.
Qed.

Lemma verify_in h fr pre b post caller : hinv h fr (pre ++ b :: post) → hb_verify (b_addr b) caller h = Ret true h.
Proof.
  intros Hi. pose proof (hi_seg _ _ _ Hi) as [_ [Hrep _]]%lseg_app. pose proof (hi_ok _ _ _ Hi) as [_ [Hok _]%Forall_cons]%Forall_app.
  apply (verify_ok h b (hd post 0)); [done|apply (hi_lo _ _ _ Hi)|apply (hi_hi _ _ _ Hi)|done].
Qed.

Lemma rep_in h fr pre b post : hinv h fr (pre ++ b :: post) → block_rep (g_heap_secret h) (hmem h) b (hd post 0).
Proof. intros Hi. by pose proof (hi_seg _ _ _ Hi) as [_ [? _]]%lseg_app. Qed.

Lemma free_magic b : (b_magic b =? HEAP_MAGIC_FREE) = is_free b.
Proof. unfold b_magic, is_free. by destruct (b_kind b). Qed.

Definition last_addr (bl : list block) (z : Z) : Z := match last bl with Some b => b_addr b | None => z end.

Lemma walk_spec h fr need caller : ∀ post pre fuel lst, hinv h fr (pre ++ post) → (length post ≤ fuel)%nat →
  (∃ p b q, post = p ++ b :: q ∧ fits need b = true ∧ Forall (λ b, fits need b = false) p ∧
     ∃ l, alloc_walk fuel (hd post 0) lst need caller h = Ret (Stopped (b_addr b) l) h) ∨
  (Forall (λ b, fits need b = false) post ∧ alloc_walk fuel (hd post 0) lst need caller h = Ret (Stopped 0 (last_addr post lst)) h).
Proof.
  induction post as [|b post IH]; intros pre fuel lst Hi Hf.
  { right. split; [done|]. by destruct fuel. }
  destruct fuel as [|fuel]; cbn [length] in Hf; [lia|]. cbn [alloc_walk hd].
  rewrite (proj2 (Z.eqb_neq _ _)) by (apply (blk_nonnull h fr (pre ++ b :: post)); [done|set_solver]).
  rewrite (bind_ret _ _ h true h) by (by apply (verify_in h fr pre b post)). cbn [negb]. rewrite bind_at.
  destruct (load_hdr h b _ (rep_in h fr pre b post Hi) _ eq_refl) as (-> & _ & -> & _ & -> & _). rewrite free_magic. fold (fits need b).
  destruct (fits need b) eqn:Ef.
  - left. exists [], b, post. split_and!; try done. by eexists.
  - destruct (IH (pre ++ [b]) fuel (b_addr b)) as [(p & b' & q & -> & E1 & E2 & l & E3)|[E1 E2]]; [by rewrite <- (assoc_L (++))|lia|..].
    + left. exists (b :: p), b', q. split_and!; try done; [by constructor|]. by exists l.
    + right. split; [by constructor|]. rewrite E2. unfold last_addr. rewrite last_cons. by destruct (last post).
Qed.

Lemma fuel_room h fr bl : hinv h fr bl → (length bl < slots h)%nat.
Proof.
  intros Hi. pose proof (list_room _ _ bl (proj2 (hi_lo _ _ _ Hi)) (hi_ok _ _ _ Hi) (hi_apart _ _ _ Hi)) as H. unfold slots, HEAP_ALIGN.
  assert (heap_lo h ≤ heap_hi h).
  { pose proof (hi_ok _ _ _ Hi) as Hok. pose proof (hi_ne _ _ _ Hi). destruct bl as [|b bl]; [done|]. apply Forall_cons in Hok as [[] _]. unfold b_end in *. lia. }
  assert (0 ≤ (heap_hi h - heap_lo h) / 16) by (apply Z.div_pos; lia). lia.
Qed.

(** ** A new region *)

Definition HEAP_REQ_MAX : Z := 2 ^ 64 - 4166.

Lemma blk_ok_widen lo hi lo' hi' b : lo' ≤ lo → hi ≤ hi' → blk_ok lo hi b → blk_ok lo' hi' b.
Proof. intros ? ? []. constructor; try done; lia. Qed.

(** A block whose frames were free until now is apart from the list. *)
Lemma fresh_apart h fr bl nb (a' : A) : hinv h fr bl → 0 ≤ b_size nb → (∀ x, in_blk nb x → ¬ ps_used (hpages h) (frame_at x)) → ∀ b, b ∈ bl → apart b nb.
Proof.
  intros Hi Hz Hn b Hb. unfold apart. destruct (decide (b_end b ≤ b_addr nb)); [by left|]. destruct (decide (b_end nb ≤ b_addr b)); [by right|]. exfalso.
  pose proof (hi_ok _ _ _ Hi) as Hok. rewrite Forall_forall in Hok. destruct (Hok b Hb). unfold b_end in *.
  set (x := Z.max (b_addr b) (b_addr nb)). apply (Hn x); [unfold in_blk, b_end; lia|]. apply (hi_used _ _ _ Hi), (hi_cover _ _ _ Hi). exists b. split; [done|]. unfold in_blk, b_end. lia.
Qed.

(** Only the link of the last block changes. *)
Lemma relink s m m' b nx nx' lo hi : blk_ok lo hi b → block_rep s m b nx → hb_load m' (b_addr b) = sealed s (b_addr b) (hdr b nx') →
  (∀ x, in_blk b x → ¬ (b_addr b ≤ x < b_addr b + 48) → m' x = m x) → block_rep s m' b nx'.
Proof.
  intros Hok [_ H2 H3] H1 Hf. pose proof (req_bounds lo hi b Hok) as [R1 R2]. destruct Hok as [? ? ? ? ? ? K]. unfold in_blk, b_end in *. constructor; [done|..].
  - intros Hk. rewrite <- (H2 Hk). specialize (R2 Hk). apply rd64_ext. intros. apply Hf; lia.
  - intros r n E. rewrite <- (H3 r n E). rewrite E in K. apply hb_load_ext. intros. apply Hf; lia.
Qed.

Lemma hinv_append h fr pre b N m' a' lo' hi' frn : hinv h fr (pre ++ [b]) → VMM_PHYSMAP_BASE ≤ lo' ≤ heap_lo h → (16 | lo') →
  heap_hi h ≤ hi' ≤ VMM_PHYSMAP_BASE + PHYS_TOP → blk_ok lo' hi' N → b_kind N = BFree → (∀ c, c ∈ pre ++ [b] → apart c N) →
  (∀ x, in_blk N x ↔ frame_at x ∈ frn) → ps_inv a' → (∀ f, f ∈ fr ++ frn → ps_used a' f) →
  hb_load m' (b_addr N) = sealed (g_heap_secret h) (b_addr N) (hdr N 0) →
  hb_load m' (b_addr b) = sealed (g_heap_secret h) (b_addr b) (hdr b (b_addr N)) →
  (∀ x, ¬ (b_addr b ≤ x < b_addr b + 48) → ¬ (b_addr N ≤ x < b_addr N + 48) → m' x = hmem h x) →
  hinv (set_mem (set_bounds (set_pages h a') lo' hi') m') (fr ++ frn) (pre ++ [b; N]).
Proof.
  intros [H1 H2 H3 H4 H5 H6 [H7 _] H8 H9 H10 H11 H12 H13] Hlo Hd Hhi HN Hk Hap Hc Ha Hu LN LB F.
  replace (pre ++ [b; N]) with ((pre ++ [b]) ++ [N]) by (by rewrite <- (assoc_L (++))). pose proof H4 as [K1 [K2 _]%Forall_cons]%Forall_app.
  pose proof HN as [_ _ N3 _ _ _ _]. pose proof K2 as [_ _ B3 _ _ _ _].
  assert (S : ∀ c, c ∈ pre ++ [b] → ∀ x, in_blk c x → ¬ (b_addr N ≤ x < b_addr N + 48)).
  { intros c Hc' x Hx. destruct (Hap c Hc'); unfold in_blk, b_end in *; lia. }
  constructor; cbn [set_mem set_bounds set_pages heap_start g_heap_secret hmem heap_lo heap_hi g_heap_dead hpages total_allocated total_freed]; try done.
  - rewrite H1, !hd_app. by destruct pre.
  - by destruct pre.
  - apply lseg_app in H3 as [S1 [S2 _]]. apply apart_app in H5 as (_ & _ & A3). apply lseg_app. split; [apply lseg_app; split|].
    + apply (lseg_frame _ (hmem h) m' _ _ _ _ K1); [|done]. intros x (c & Hc' & Hx). apply F; [|apply (S c); [set_solver|done]].
      destruct (A3 c b Hc'); [set_solver|..]; unfold in_blk, b_end in *; lia.
    + split; [|done]. apply (relink _ (hmem h) m' b 0 _ _ _ K2 S2); [done|]. intros x Hx Hx'. apply F; [done|]. apply (S b); [set_solver|done].
    + split; [|done]. constructor; [done| |]; rewrite Hk; done.
  - apply Forall_app. split; [|by apply Forall_singleton]. eapply Forall_impl; [exact H4|]. intros c. apply blk_ok_widen; lia.
  - apply apart_app. split; [done|]. split; [split; [constructor|done]|]. intros c d Hc' ->%list_elem_of_singleton. by apply Hap.
  - intros x. rewrite in_ext_app, H6, in_ext_single, Hc, elem_of_app. done.
  - split; [lia|done].
  - lia.
  - rewrite H13, (used_bytes_app (pre ++ [b]) [N]). cbn [used_bytes]. assert (used_size N = 0) as -> by (unfold used_size, is_free; by rewrite Hk). f_equal. lia.
Qed.

Lemma expand_eq h lst need a' base : 0 ≤ need → need + 4143 < 2 ^ 64 → ps_run (hpages h) ((need + 4143) / 4096) = (a', base) →
  0 ≤ base → base + (need + 4143) / 4096 * 4096 ≤ PHYS_TOP →
  expand_heap lst need h =
    if base =? 0 then Ret 0 (set_pages h a')
    else
      let nb := VMM_PHYSMAP_BASE + base in let len := (need + 4143) / 4096 * 4096 in
      Ret nb (set_mem (set_bounds (set_pages h a') (if (heap_lo h =? 0) || (nb <? heap_lo h) then nb else heap_lo h) (Z.max (heap_hi h) (nb + len)))
               (hb_seal (g_heap_secret h) (put_next (hb_init_free (g_heap_secret h) (hmem h) nb (len - 48)) lst nb) lst)).
Proof.
  intros Hn Hmax Er Hb Ht. assert (1 ≤ (need + 4143) / 4096) by (Z.to_euclidean_division_equations; lia).
  unfold expand_heap, HDR, PMM_FRAME_SIZE. rewrite u64_small by (unfold is_u64; lia). replace (need + 48 + 4096 - 1) with (need + 4143) by lia.
  set (frames := (need + 4143) / 4096) in *. clearbody frames. cbv zeta. rewrite (proj2 (Z.eqb_neq frames 0)) by lia. unfold hbind at 1, take_run. rewrite Er.
  destruct (Z.eqb_spec base 0); [done|]. unfold PHYS_TOP in Ht. unfold phys_to_virt.
  rewrite (u64_small (VMM_PHYSMAP_BASE + base)) by (unfold VMM_PHYSMAP_BASE, is_u64; lia).
  rewrite (u64_small (frames * 4096)), (u64_small (frames * 4096 - 48)) by (unfold is_u64; lia). unfold heap_track_region, init_free, upd, seal, modify, hbind, hret.
  rewrite (u64_small (VMM_PHYSMAP_BASE + base + frames * 4096)) by (unfold VMM_PHYSMAP_BASE, is_u64; lia). cbn [set_pages set_bounds set_mem heap_lo heap_hi hmem g_heap_secret].
  set (e := VMM_PHYSMAP_BASE + base + frames * 4096). assert ((if heap_hi h <? e then e else heap_hi h) = Z.max (heap_hi h) e) as -> by (destruct (Z.ltb_spec (heap_hi h) e); lia).
  reflexivity.
Qed.

Lemma expand_spec h fr pre b need : hinv h fr (pre ++ [b]) → 0 ≤ need → need + 4143 < 2 ^ 64 →
  let frames := (need + 4143) / 4096 in
  (expand_heap (b_addr b) need h = Ret 0 h ∧ ∃ a', ps_run (hpages h) frames = (a', 0)) ∨
  ∃ h' base, let nb := VMM_PHYSMAP_BASE + base in
    expand_heap (b_addr b) need h = Ret nb h' ∧ nb ≠ 0 ∧ need ≤ frames * 4096 - 48 ∧
    hinv h' (fr ++ seqZ (base / 4096) frames) (pre ++ [b; mk_blk nb (frames * 4096 - 48) 0 BFree]) ∧
    (∀ x, ¬ (b_addr b ≤ x < b_addr b + 48) → ¬ (nb ≤ x < nb + 48) → hmem h' x = hmem h x) ∧ g_heap_expect h' = g_heap_expect h ∧
    gained (hpages h) (hpages h') fr (fr ++ seqZ (base / 4096) frames).
Proof.
  intros Hi Hn Hmax frames. assert (Hf : 1 ≤ frames ∧ need ≤ frames * 4096 - 48) by (unfold frames; Z.to_euclidean_division_equations; lia).
  destruct (ps_run (hpages h) frames) as [a' base] eqn:Er.
  destruct (ps_run_law _ _ frames base (hi_pages _ _ _ Hi) ltac:(lia) Er) as [[-> ->]|(P1 & P2 & P3 & P4 & P5 & P6)].
  { left. split; [|by exists (hpages h)]. unfold expand_heap, HDR, PMM_FRAME_SIZE. rewrite u64_small by (unfold is_u64; lia).
    replace (need + 48 + 4096 - 1) with (need + 4143) by lia. fold frames. cbv zeta. rewrite (proj2 (Z.eqb_neq frames 0)) by lia. unfold hbind, take_run. rewrite Er. by destruct h. }
  right. pose proof (expand_eq h (b_addr b) need a' base Hn Hmax Er ltac:(lia) P3) as EE. rewrite (proj2 (Z.eqb_neq base 0)) in EE by lia. cbv zeta in EE. fold frames in EE.
  unfold PHYS_TOP in P3. set (nb := VMM_PHYSMAP_BASE + base) in *. set (sz := frames * 4096 - 48) in *.
  set (N := mk_blk nb sz 0 BFree). set (s := g_heap_secret h).
  assert (Hfr : ∀ x, in_blk N x ↔ frame_at x ∈ seqZ (base / 4096) frames).
  { intros x. rewrite elem_of_seqZ. unfold in_blk, b_end, frame_at, N, sz, nb. cbn. destruct P2 as [q ->]. rewrite Z.div_mul by lia. Z.to_euclidean_division_equations. lia. }
  assert (Hap : ∀ c, c ∈ pre ++ [b] → apart c N).
  { apply (fresh_apart h fr _ N a' Hi); [unfold N, sz; cbn; lia|]. intros x Hx%Hfr. apply elem_of_seqZ in Hx. by apply P5. }
  pose proof (hi_lo _ _ _ Hi) as [L1 L2]. pose proof (hi_hi _ _ _ Hi) as L3. pose proof (hi_secret _ _ _ Hi) as Hs. fold s in Hs.
  pose proof (hi_ok _ _ _ Hi) as Hok. pose proof Hok as [_ [Hb _]%Forall_cons]%Forall_app. pose proof (rep_in h fr pre b [] Hi) as Hrep. cbn [hd] in Hrep. fold s in Hrep.
  assert (Hbn : b_addr b + 48 ≤ nb ∨ nb + 48 ≤ b_addr b) by (destruct (Hap b) as [H|H]; [set_solver|..]; unfold b_end, N, sz in H; cbn in H; destruct Hb; lia).
  assert (Hnb : is_u64 nb ∧ is_u64 (b_addr b) ∧ is_u64 sz).
  { destruct Hb. unfold b_end, nb, sz, VMM_PHYSMAP_BASE, PHYS_TOP, is_u64 in *. lia. }
  destruct Hnb as (Hnb & Hba & Hsz). set (m1 := hb_init_free s (hmem h) nb sz).
  set (m2 := hb_seal s (put_next m1 (b_addr b) nb) (b_addr b)).
  assert (LN : hb_load m2 nb = sealed s nb (hdr N 0)) by (unfold m2; load_eval; unfold m1; rewrite init_free_load by done; reflexivity).
  assert (LB : hb_load m2 (b_addr b) = sealed s (b_addr b) (hdr b nb)).
  { unfold m2. load_eval. assert (hb_load m1 (b_addr b) = hb_load (hmem h) (b_addr b)) as -> by (apply hb_load_ext; intros; apply init_free_out; lia).
    rewrite (br_hdr _ _ _ _ Hrep). reflexivity. }
  assert (F : ∀ x, ¬ (b_addr b ≤ x < b_addr b + 48) → ¬ (nb ≤ x < nb + 48) → m2 x = hmem h x).
  { intros x X1 X2. unfold m2. byte_eval. by apply init_free_out. }
  assert (Elo : (if (heap_lo h =? 0) || (nb <? heap_lo h) then nb else heap_lo h) = Z.min nb (heap_lo h)).
  { rewrite (proj2 (Z.eqb_neq (heap_lo h) 0)) by (unfold VMM_PHYSMAP_BASE in L1; lia). cbn [orb]. destruct (Z.ltb_spec nb (heap_lo h)); lia. }
  rewrite Elo in EE. assert (D16 : (16 | nb)) by (destruct P2 as [q ->]; exists (0xFFFF88800000000 + q * 256); unfold nb, VMM_PHYSMAP_BASE; lia).
  eexists _, base. fold nb. fold sz. fold N. split; [exact EE|]. split; [unfold nb, VMM_PHYSMAP_BASE; lia|]. split; [unfold sz; lia|]. split; [|split; [done|split; [done|]]].
  2: { intros f. cbn [hpages set_mem set_bounds set_pages]. rewrite elem_of_app, elem_of_seqZ, P6. specialize (P5 f). tauto. }
  apply (hinv_append h fr pre b N m2 a'); try done.
  - unfold nb. lia.
  - by destruct (Z.min_spec nb (heap_lo h)) as [[_ ->]|[_ ->]].
  - unfold nb, PHYS_TOP in *. lia.
  - constructor; unfold b_end, N, sz; cbn; try done; try lia. apply Z.divide_sub_r; [|by exists 3]. exists (frames * 256). lia.
  - intros f [Hf'|Hf']%elem_of_app; [apply P6; left; by apply (hi_used _ _ _ Hi)|]. apply elem_of_seqZ in Hf'. apply P6. by right.
Qed.
End alloc.
