(* ===== verification/HeapMalloc.v ===== *)
(** * The allocation calls

    [heap_alloc_locked], [kmalloc] and [kmalloc_aligned] on a heap that
    satisfies its invariant. *)

From stdpp Require Import strings.
From S2P Require Import Prelude Frames Heap HeapMem HeapInv HeapAlloc.

(** ** Rounding *)

Lemma align_up_pow2 x k : 0 ≤ k → 0 ≤ x → x + 2 ^ k - 1 < 2 ^ 64 → align_up x (2 ^ k) = (x + 2 ^ k - 1) / 2 ^ k * 2 ^ k.
Proof.
  intros Hk Hx Hm. assert (0 < 2 ^ k) by (by apply Z.pow_pos_nonneg). unfold align_up. rewrite u64_small by (unfold is_u64; lia). apply land_not64_ones; [done|]. unfold is_u64. lia.
Qed.

Lemma round_bounds x a : 0 < a → 0 ≤ x → x ≤ (x + a - 1) / a * a < x + a ∧ (a | (x + a - 1) / a * a).
Proof. intros Ha Hx. split; [|by exists ((x + a - 1) / a)]. pose proof (Z.div_mod (x + a - 1) a ltac:(lia)). pose proof (Z.mod_pos_bound (x + a - 1) a Ha). nia. Qed.

(** The payload a request needs. *)
Definition need_of (req : Z) : Z := (req + 8 + 16 - 1) / 16 * 16.

Lemma need_eq req : 0 < req < HEAP_REQ_MAX → align_up (u64 (req + 8)) 16 = need_of req ∧ req + 8 ≤ need_of req < req + 24 ∧ (16 | need_of req).
Proof.
  unfold HEAP_REQ_MAX. intros Hr. rewrite u64_small by (unfold is_u64; lia). pose proof (round_bounds (req + 8) 16 ltac:(lia) ltac:(lia)) as [R1 R2].
  split; [apply (align_up_pow2 (req + 8) 4); lia|]. unfold need_of. split; [lia|done].
Qed.

(** The code's test for a power of two. *)
Lemma pow2_test x : 0 < x → Z.land x (x - 1) = 0 → ∃ k, 0 ≤ k ∧ x = 2 ^ k.
Proof.
  intros Hx Hl. exists (Z.log2 x). split; [apply Z.log2_nonneg|]. destruct (Z.log2_spec x Hx) as [L1 L2].
  destruct (decide (x = 2 ^ Z.log2 x)); [done|]. exfalso. apply (f_equal (λ z, Z.testbit z (Z.log2 x))) in Hl. rewrite Z.land_spec, Z.bits_0, Z.bit_log2 in Hl by done.
  replace (Z.log2 x) with (Z.log2 (x - 1)) in Hl by (apply Z.log2_unique; [apply Z.log2_nonneg|lia]).
  pose proof (Z.log2_nonneg x). pose proof (Z.pow_pos_nonneg 2 (Z.log2 x)). rewrite Z.bit_log2 in Hl by lia. done.
Qed.

Section malloc.
Context {A : Type} {ops : PageOps A} {laws : PageLaws A}.
Implicit Types h : heap A.

(** ** Owners' bytes *)

Lemma user_outside lo hi bl x : Forall (blk_ok lo hi) bl → user_byte bl x → ∃ b, b ∈ bl ∧ in_blk b x ∧ b_addr b + 48 ≤ x ∧ is_free b = false.
Proof.
  intros Hok (p & n & (b & Hb & Ho)%list_elem_of_omap & Hx). rewrite Forall_forall in Hok. destruct (Hok b Hb) as [? ? ? ? ? ? K]. exists b.
  unfold owned, in_blk, b_end, is_free in *. destruct (b_kind b); [done|injection Ho as <- <-..]; split_and!; try done; lia.
Qed.

Lemma apart_in (bl : list block) b c : apart_all bl → b ∈ bl → c ∈ bl → b ≠ c → apart b c ∨ apart c b.
Proof.
  intros Ha (l1 & l2 & ->)%list_elem_of_split Hc Hne. apply apart_app in Ha as (_ & [A1 _] & A2). rewrite Forall_forall in A1.
  apply elem_of_app in Hc as [Hc|[?|Hc]%elem_of_cons]; [right; apply A2; set_solver|by subst|left; by apply A1].
Qed.

Lemma user_not_free h fr bl b x : hinv h fr bl → b ∈ bl → is_free b = true → user_byte bl x → ¬ in_blk b x.
Proof.
  intros Hi Hb Hf Hu Hx. destruct (user_outside _ _ _ x (hi_ok _ _ _ Hi) Hu) as (c & Hc & Hcx & _ & Hcf).
  destruct (apart_in bl b c (hi_apart _ _ _ Hi) Hb Hc) as [[?|?]|[?|?]]; [congruence|unfold in_blk in *; lia..].
Qed.

Lemma hdr_not_user h fr bl b x : hinv h fr bl → b ∈ bl → user_byte bl x → ¬ (b_addr b ≤ x < b_addr b + 48).
Proof.
  intros Hi Hb Hu Hx. destruct (user_outside _ _ _ x (hi_ok _ _ _ Hi) Hu) as (c & Hc & Hcx & H48 & _). destruct (decide (b = c)) as [<-|Hne]; [lia|].
  pose proof (hi_ok _ _ _ Hi) as Hok. rewrite Forall_forall in Hok. destruct (Hok b Hb).
  destruct (apart_in bl b c (hi_apart _ _ _ Hi) Hb Hc Hne) as [[?|?]|[?|?]]; unfold in_blk, b_end in *; lia.
Qed.

Lemma user_byte_app l1 l2 x : user_byte (l1 ++ l2) x ↔ user_byte l1 x ∨ user_byte l2 x.
Proof. unfold user_byte. rewrite live_app. setoid_rewrite elem_of_app. naive_solver. Qed.

(** ** The locked allocator *)

(** What a successful allocation of block [a] does. *)
Record allocated (h h' : heap A) (fr fr' : list Z) (bl bl' : list block) (a req caller : Z) : Prop := {
  al_inv : hinv h' fr' bl';
  al_block : ∃ pre sz post, bl' = pre ++ mk_blk a sz caller (BUsed req) :: post ∧ live (pre ++ post) ≡ₚ live bl;
  al_mem : ∀ x, user_byte bl x ∨ ¬ in_ext bl' x → hmem h' x = hmem h x;
  al_reuse : Exists (λ b, fits (need_of req) b = true) bl → fr' = fr;
  al_expect : g_heap_expect h' = g_heap_expect h;
  al_frames : gained (hpages h) (hpages h') fr fr'
}.

Lemma split_first a sz c need req caller : ∃ sz' l, split_blocks a sz c need req caller = mk_blk a sz' caller (BUsed req) :: l ∧ live l = [].
Proof. unfold split_blocks. destruct (80 <=? sz - need); by eexists _, _. Qed.

(** [take_free] as an allocation. *)
Lemma take_allocated h fr pre a sz c post req caller : hinv h fr (pre ++ mk_blk a sz c BFree :: post) → 0 < req < HEAP_REQ_MAX → need_of req ≤ sz → is_u64 caller →
  ∃ h', hbind (alloc_split a (need_of req)) (λ _, hbind (alloc_take a req caller) (λ _, hret a)) h = Ret a h' ∧
  allocated h h' fr fr (pre ++ mk_blk a sz c BFree :: post) (pre ++ split_blocks a sz c (need_of req) req caller ++ post) a req caller ∧ hpages h' = hpages h.
Proof.
  intros Hi Hr Hn Hc. destruct (need_eq req Hr) as (_ & N1 & N2).
  destruct (take_free h fr pre a sz c post (need_of req) req caller Hi ltac:(lia) ltac:(lia) N2 Hc) as (h' & E & Hi' & F & X & Y).
  exists h'. split; [exact E|]. split; [|done]. constructor; try done.
  - destruct (split_first a sz c (need_of req) req caller) as (sz' & l & -> & El). exists pre, sz', (l ++ post). split; [by rewrite <- app_comm_cons|].
    by rewrite !live_app, El.
  - intros x Hx. apply F. destruct Hx as [Hx|Hx].
    + apply (user_not_free h fr _ _ x Hi); [set_solver|done|done].
    + intros Hb. apply Hx, (hi_cover _ _ _ Hi'), (hi_cover _ _ _ Hi). rewrite in_ext_app, in_ext_cons. tauto.
  - rewrite Y. intros f. tauto.
Qed.

Lemma alloc_locked_spec h fr bl req caller : hinv h fr bl → 0 < req < HEAP_REQ_MAX → is_u64 caller →
  (heap_alloc_locked req caller h = Ret 0 h ∧ Forall (λ b, fits (need_of req) b = false) bl ∧
     ∃ a', ps_run (hpages h) ((need_of req + 4143) / 4096) = (a', 0)) ∨
  ∃ a h' fr' bl', heap_alloc_locked req caller h = Ret a h' ∧ a ≠ 0 ∧ allocated h h' fr fr' bl bl' a req caller.
Proof.
  intros Hi Hr Hc. destruct (need_eq req Hr) as (En & N1 & _). unfold heap_alloc_locked, HEAP_TAIL, HEAP_ALIGN. rewrite En. set (need := need_of req) in *. cbv zeta.
  rewrite (proj2 (Z.ltb_ge need req)) by lia. rewrite !bind_gets, (hi_start _ _ _ Hi).
  destruct (walk_spec h fr need caller bl [] (slots h) 0 Hi ltac:(pose proof (fuel_room h fr bl Hi); lia)) as [(p & b & q & -> & Ef & Hp & l & E)|[Hp E]].
  - right. rewrite !(bind_ret _ _ h _ h E). pose proof (blk_nonnull h fr _ b Hi ltac:(set_solver)) as H0. destruct b as [a sz c k]. cbn [b_addr] in *.
    unfold fits, is_free in Ef. cbn in Ef. destruct k; [|done..]. zbool. rewrite (proj2 (Z.eqb_neq a 0)) by done. rewrite bind_hret, (proj2 (Z.eqb_neq a 0)) by done.
    destruct (take_allocated h fr p a sz c q req caller Hi Hr ltac:(done) Hc) as (h' & E' & Hal & _). eauto 10.
  - rewrite !(bind_ret _ _ h _ h E). cbn [Z.eqb]. destruct (last bl) as [b|] eqn:El; [|by apply last_None in El; destruct (hi_ne _ _ _ Hi)].
    apply last_Some in El as [pre ->]. unfold last_addr. rewrite last_snoc. unfold HEAP_REQ_MAX in Hr.
    destruct (expand_spec h fr pre b need Hi ltac:(lia) ltac:(lia)) as [[E1 E2]|(h1 & base & E1 & Hnz & Hsz & Hi1 & F1 & X1 & Y1)].
    { left. rewrite (bind_ret _ _ h _ h E1). done. }
    right. rewrite (bind_ret _ _ h _ h1 E1). rewrite (proj2 (Z.eqb_neq _ 0)) by done. set (nb := VMM_PHYSMAP_BASE + base) in *. set (sz := (need + 4143) / 4096 * 4096 - 48) in *.
    assert (Er : pre ++ [b; mk_blk nb sz 0 BFree] = (pre ++ [b]) ++ mk_blk nb sz 0 BFree :: []) by (by rewrite <- (assoc_L (++))). rewrite Er in Hi1.
    destruct (take_allocated h1 _ (pre ++ [b]) nb sz 0 [] req caller Hi1 Hr Hsz Hc) as (h' & E' & [G1 G2 G3 G4 G5 _] & G6).
    eexists nb, h', _, _. split; [exact E'|]. split; [done|]. constructor; try done; [| | |by rewrite G5|].
    + destruct G2 as (p & z & q & -> & Hq). exists p, z, q. split; [done|]. by rewrite Hq, live_app, app_nil_r.
    + intros x Hx. assert (Hub : user_byte (pre ++ [b]) x → user_byte ((pre ++ [b]) ++ [mk_blk nb sz 0 BFree]) x) by (rewrite (user_byte_app (pre ++ [b])); by left).
      rewrite G3 by (destruct Hx; auto). destruct Hx as [Hx|Hx].
      * apply F1; [by apply (hdr_not_user h fr (pre ++ [b]) b x Hi); [set_solver|]|]. apply (hdr_not_user h1 _ _ (mk_blk nb sz 0 BFree) x Hi1); [set_solver|auto].
      * assert (Hn : ¬ in_ext ((pre ++ [b]) ++ [mk_blk nb sz 0 BFree]) x) by (by rewrite (hi_cover _ _ _ Hi1), <- (hi_cover _ _ _ G1)).
        rewrite in_ext_app, in_ext_app, !in_ext_single in Hn. unfold in_blk, b_end, sz in Hn. cbn [b_addr b_size] in Hn.
        pose proof (hi_ok _ _ _ Hi) as [_ [[] _]%Forall_cons]%Forall_app. apply F1; lia.
    + intros Hex. exfalso. apply Exists_exists in Hex as (c & Hc1 & Hc2). rewrite Forall_forall in Hp. by rewrite Hp in Hc2.
    + by rewrite G6.
Qed.

(** ** The calls *)

(** [n] bytes at [p] become the caller's. *)
Record granted (h h' : heap A) (fr fr' : list Z) (bl bl' : list block) (p n : Z) : Prop := {
  gr_inv : hinv h' fr' bl';
  gr_live : live bl' ≡ₚ (p, n) :: live bl;
  gr_mem : ∀ x, user_byte bl x ∨ ¬ in_ext bl' x → hmem h' x = hmem h x;
  gr_expect : g_heap_expect h' = g_heap_expect h;
  gr_frames : gained (hpages h) (hpages h') fr fr'
}.

(** No free block is large enough and the allocator has no run of frames. *)
Definition exhausted (h : heap A) (bl : list block) (req : Z) : Prop :=
  Forall (λ b, fits (need_of req) b = false) bl ∧ ∃ a', ps_run (hpages h) ((need_of req + 4143) / 4096) = (a', 0).

Lemma usable h fr bl : hinv h fr bl → (heap_start h =? 0) || g_heap_dead h = false.
Proof.
  intros Hi. rewrite (hi_alive _ _ _ Hi), orb_false_r, (hi_start _ _ _ Hi). pose proof (hi_ne _ _ _ Hi). destruct bl as [|b bl]; [done|].
  apply Z.eqb_neq, (blk_nonnull h fr (b :: bl)); [done|set_solver].
Qed.

(** Blocks start at multiples of 16 inside the physmap. *)
Lemma blk_range h fr bl b : hinv h fr bl → b ∈ bl → in_heap_range (b_addr b) (48 + b_size b) ∧ (16 | b_addr b).
Proof.
  intros Hi Hb. pose proof (hi_ok _ _ _ Hi) as Hok. rewrite Forall_forall in Hok. destruct (Hok b Hb), (hi_lo _ _ _ Hi). pose proof (hi_hi _ _ _ Hi).
  unfold in_heap_range, b_end in *. split; [lia|done].
Qed.

Lemma payload_eq h fr bl b : hinv h fr bl → b ∈ bl → hb_payload (b_addr b) = b_addr b + 48.
Proof.
  intros Hi Hb. destruct (blk_range h fr bl b Hi Hb) as [Hr _]. unfold in_heap_range, VMM_PHYSMAP_BASE, PHYS_TOP in Hr. unfold hb_payload, HDR. apply u64_small. unfold is_u64.
  pose proof (hi_ok _ _ _ Hi) as Hok. rewrite Forall_forall in Hok. destruct (Hok b Hb). lia.
Qed.

(** A plain allocation grants its payload. *)
Lemma plain_granted h fr bl size caller : hinv h fr bl → 0 < size < HEAP_REQ_MAX → is_u64 caller →
  let c := hbind (heap_alloc_locked size caller) (λ b, hret (if b =? 0 then 0 else hb_payload b)) in
  (c h = Ret 0 h ∧ exhausted h bl size) ∨ ∃ p h' fr' bl', c h = Ret p h' ∧ p ≠ 0 ∧ (16 | p) ∧ granted h h' fr fr' bl bl' p size.
Proof.
  intros Hi Hs Hc c. unfold c. destruct (alloc_locked_spec h fr bl size caller Hi Hs Hc) as [(E & H1 & H2)|(a & h' & fr' & bl' & E & Ha & [G1 G2 G3 _ G5 G6])].
  - left. by rewrite (bind_ret _ _ _ _ _ E).
  - right. destruct G2 as (pre & sz & post & -> & Hp). set (b := mk_blk a sz caller (BUsed size)) in *.
    assert (Hb : b ∈ pre ++ b :: post) by set_solver. pose proof (payload_eq h' fr' _ b G1 Hb) as Ep. destruct (blk_range h' fr' _ b G1 Hb) as [Hr Hd]. cbn [b b_addr] in Ep, Hr, Hd.
    exists (a + 48), h', fr', (pre ++ b :: post). rewrite (bind_ret _ _ _ _ _ E). unfold hret. rewrite (proj2 (Z.eqb_neq a 0)), Ep by done. split; [done|].
    split; [unfold in_heap_range, VMM_PHYSMAP_BASE in Hr; lia|]. split; [apply Z.divide_add_r; [done|by exists 3]|]. constructor; try done.
    rewrite <- Hp, !live_app. cbn. rewrite <- Permutation_middle. done.
Qed.

Lemma kmalloc_spec h fr bl size caller : hinv h fr bl → 0 < size < HEAP_REQ_MAX → is_u64 caller →
  (kmalloc size caller h = Ret 0 h ∧ exhausted h bl size) ∨
  ∃ p h' fr' bl', kmalloc size caller h = Ret p h' ∧ p ≠ 0 ∧ (16 | p) ∧ granted h h' fr fr' bl bl' p size.
Proof.
  intros Hi Hs Hc. unfold kmalloc. rewrite (proj2 (Z.eqb_neq size 0)) by lia. rewrite (usable h fr bl Hi). by apply (plain_granted h fr).
Qed.

(** *** Aligned allocations *)

Lemma align_stub_spec h fr pre a sz caller req post r n : hinv h fr (pre ++ mk_blk a sz caller (BUsed req) :: post) →
  0 < n → (16 | r) → a + 96 ≤ r → r - (a + 48) + n + 8 ≤ sz → is_u64 caller →
  ∃ h', align_stub a r n caller h = Ret tt h' ∧ hinv h' fr (pre ++ mk_blk a sz caller (BAligned r n) :: post) ∧
  (∀ x, ¬ (a ≤ x < a + 48 + sz) → hmem h' x = hmem h x) ∧ g_heap_expect h' = g_heap_expect h ∧ hpages h' = hpages h.
Proof.
  intros Hi Hn Hd Hr Hz Hc. set (o := mk_blk a sz caller (BUsed req)) in *. set (b := mk_blk a sz caller (BAligned r n)).
  assert (Ho : o ∈ pre ++ o :: post) by set_solver. pose proof (payload_eq h fr _ o Hi Ho) as Ep. destruct (blk_range h fr _ o Hi Ho) as [Hrg _]. cbn [o b_addr b_size] in Ep, Hrg.
  unfold in_heap_range, VMM_PHYSMAP_BASE, PHYS_TOP in Hrg. set (s := g_heap_secret h). pose proof (hi_secret _ _ _ Hi) as Hs. fold s in Hs.
  pose proof (br_hdr _ _ _ _ (rep_in h fr pre o post Hi)) as Lo. fold s in Lo. cbn [o b_addr] in Lo.
  assert (is_u64 a ∧ is_u64 n ∧ is_u64 (r - 48) ∧ is_u64 (r - (a + 48) + n)) as (Ha & Hn' & Hr' & Hq) by (unfold is_u64; lia).
  set (t := r - 48) in *. set (q := r - (a + 48) + n) in *. assert (Ht : a + 48 ≤ t) by (unfold t; lia).
  set (m1 := hb_seal s (put_caller (put_next (put_req (put_size (put_flags (put_magic (hmem h) t HEAP_MAGIC_ALIGN) t 0) t n) t n) t a) t caller) t).
  assert (L1 : hb_load m1 t = sealed s t (stub b n)) by (unfold m1; load_eval; reflexivity).
  assert (L2 : hb_load m1 a = sealed s a (hdr o (hd post 0))) by (unfold m1; load_eval; exact Lo).
  set (m2 := hb_seal s (put_req (put_flags m1 a (Z.lor (hb_flags (hb_load m1 a)) HB_F_ALIGNED)) a q) a).
  assert (L3 : hb_load m2 a = sealed s a (hdr b (hd post 0))) by (unfold m2; rewrite L2; cbn [sealed hdr hb_flags b_flags o b_kind]; load_eval; rewrite L2; reflexivity).
  assert (F2 : ∀ x, ¬ (t ≤ x < t + 48) → ¬ (a ≤ x < a + 48) → m2 x = hmem h x) by (intros x X1 X2; unfold m2; byte_eval; unfold m1; byte_eval).
  destruct (tail_written s m2 a q Hs ltac:(unfold is_u64; lia) ltac:(unfold q, is_u64; lia) ltac:(by rewrite L3)) as [T1 T2].
  set (m3 := hb_tail_write s m2 a) in *.
  assert (F3 : ∀ x, ¬ (a ≤ x < a + 48 + sz) → m3 x = hmem h x) by (intros x X; rewrite T2 by (unfold q; lia); apply F2; unfold t; lia).
  exists (set_mem h m3). split; [|split; [|split; [exact F3|done]]].
  - unfold align_stub, HDR. rewrite Ep. rewrite (u64_small (r - 48)), (u64_small (r - (a + 48))) by (unfold is_u64; lia). fold t q. rewrite (u64_small q) by done. reflexivity.
  - replace (set_mem h m3) with (set_totals (set_mem h m3) (total_allocated h) (total_freed h)) by done.
    apply (hinv_replace h fr pre [o] [b] post); try done.
    + split; [|done]. constructor; cbn [b b_addr b_kind].
      * etransitivity; [|exact L3]. apply hb_load_ext. intros x Hx. apply T2. unfold q. lia.
      * intros _. exact T1.
      * intros r' n' [= <- <-]. fold t. etransitivity; [|exact L1]. transitivity (hb_load m2 t); [apply hb_load_ext; intros x Hx; apply T2; unfold q, t in *; lia|].
        unfold m2. rewrite seal_load_ne by lia. apply hb_load_ext. intros x Hx. byte_eval.
    + apply Forall_singleton. pose proof (hi_ok _ _ _ Hi) as [_ [[] _]%Forall_cons]%Forall_app. constructor; cbn in *; done.
    + intros x. by rewrite !in_ext_single.
    + intros x Hx. apply F3. rewrite in_ext_single in Hx. unfold in_blk, b_end in Hx. cbn in Hx. lia.
    + f_equal. cbn. unfold used_size. cbn. lia.
Qed.

(** What the call asks the list for. *)
Definition aligned_req (size alignment : Z) : Z := if alignment <=? 16 then size else size + alignment + 48.

Lemma kmalloc_aligned_spec h fr bl size alignment caller : hinv h fr bl → 0 < size → 0 < alignment → Z.land alignment (alignment - 1) = 0 →
  size + alignment + 48 < HEAP_REQ_MAX → is_u64 caller →
  (kmalloc_aligned size alignment caller h = Ret 0 h ∧ exhausted h bl (aligned_req size alignment)) ∨
  ∃ p h' fr' bl', kmalloc_aligned size alignment caller h = Ret p h' ∧ p ≠ 0 ∧ (alignment | p) ∧ (16 | p) ∧ granted h h' fr fr' bl bl' p size.
Proof.
  intros Hi Hs Hal Hl Hm Hc. destruct (pow2_test alignment Hal Hl) as (k & Hk & Ek). unfold kmalloc_aligned, aligned_req, HEAP_ALIGN, HDR.
  rewrite (proj2 (Z.eqb_neq size 0)), (proj2 (Z.eqb_neq alignment 0)), Hl, (usable h fr bl Hi) by lia. cbn [orb negb Z.eqb]. cbv iota.
  destruct (Z.leb_spec alignment 16) as [H16|H16].
  { destruct (plain_granted h fr bl size caller Hi ltac:(lia) Hc) as [H|(p & h' & fr' & bl' & E & H0 & Hd & G)]; [by left|]. right. exists p, h', fr', bl'. split_and!; try done.
    apply Z.divide_trans with 16; [|done]. rewrite Ek. assert (k ≤ 4) by (apply (Z.pow_le_mono_r_iff 2); lia). exists (2 ^ (4 - k)). rewrite <- Z.pow_add_r by lia. by replace (4 - k + k) with 4 by lia. }
  set (req := size + alignment + 48) in *. assert (Hr : 0 < req < HEAP_REQ_MAX) by lia. rewrite u64_small by (unfold HEAP_REQ_MAX, is_u64 in *; lia).
  rewrite (proj2 (Z.ltb_lt size req)) by lia. cbv zeta.
  destruct (alloc_locked_spec h fr bl req caller Hi Hr Hc) as [(E & H1 & H2)|(a & h1 & fr' & bl1 & E & Ha & [G1 G2 G3 _ G5 G6])].
  { left. by rewrite (bind_ret _ _ _ _ _ E). }
  right. rewrite (bind_ret _ _ _ _ _ E), (proj2 (Z.eqb_neq a 0)) by done. destruct G2 as (pre & sz & post & -> & Hp). set (o := mk_blk a sz caller (BUsed req)) in *.
  assert (Ho : o ∈ pre ++ o :: post) by set_solver. pose proof (payload_eq h1 fr' _ o G1 Ho) as Ep. destruct (blk_range h1 fr' _ o G1 Ho) as [Hrg Hd].
  pose proof (hi_ok _ _ _ G1) as [_ [[_ _ _ _ _ _ [_ Hsz]] _]%Forall_cons]%Forall_app. cbn [o b_addr b_size b_kind] in Ep, Hrg, Hd, Hsz. unfold in_heap_range, VMM_PHYSMAP_BASE, PHYS_TOP in Hrg.
  rewrite Ep, (u64_small (a + 48 + 48)) by (unfold is_u64; lia). rewrite Ek, align_up_pow2, <- Ek by lia. pose proof (round_bounds (a + 48 + 48) alignment Hal ltac:(lia)) as [R1 R2].
  set (r := (a + 48 + 48 + alignment - 1) / alignment * alignment) in *. assert (R3 : (16 | r)).
  { apply Z.divide_trans with alignment; [|done]. rewrite Ek in H16 |- *. assert (4 < k) by (apply (Z.pow_lt_mono_r_iff 2); lia). exists (2 ^ (k - 4)).
    change 16 with (2 ^ 4). rewrite <- Z.pow_add_r by lia. by replace (k - 4 + 4) with k by lia. }
  destruct (align_stub_spec h1 fr' pre a sz caller req post r size G1 Hs R3 ltac:(lia) ltac:(lia) Hc) as (h' & E' & Hi' & F' & X' & Y').
  exists r, h', fr', (pre ++ mk_blk a sz caller (BAligned r size) :: post). rewrite (bind_ret _ _ _ _ _ E'). split; [done|]. split; [lia|]. split; [done|]. split; [done|]. constructor; [done| | |by rewrite X'|by rewrite Y'].
  - rewrite <- Hp, !live_app. cbn. rewrite <- Permutation_middle. done.
  - assert (Hext : ∀ x, in_ext (pre ++ o :: post) x ↔ in_ext (pre ++ mk_blk a sz caller (BAligned r size) :: post) x) by (intros x; by rewrite (hi_cover _ _ _ G1), (hi_cover _ _ _ Hi')).
    intros x Hx. rewrite F', G3; [done| |].
    + destruct Hx; [by left|right; by rewrite Hext].
    + intros Hb. assert (Hbx : in_blk o x) by done. destruct Hx as [Hx|Hx]; [|by apply Hx, Hext; exists o].
      assert (Hu : user_byte (pre ++ post) x) by (destruct Hx as (u & n & Hu & ?); exists u, n; by rewrite Hp).
      pose proof (hi_ok _ _ _ G1) as [K1 [_ K2]%Forall_cons]%Forall_app. destruct (user_outside _ _ (pre ++ post) x ltac:(by apply Forall_app) Hu) as (c & Hcin & Hcx & _).
      pose proof (hi_apart _ _ _ G1) as (_ & [B1 _] & B2)%apart_app. rewrite Forall_forall in B1.
      assert (apart c o ∨ apart o c) as [[?|?]|[?|?]] by (apply elem_of_app in Hcin as [?|?]; [left; apply B2; set_solver|right; by apply B1]); unfold in_blk in *; lia.
Qed.
End malloc.
