(* ===== verification/HeapFree.v ===== *)
(** * Release

    [kfree] of a live pointer finds its block, marks it free and merges
    neighbours; [merge] is the list-level account of the loop. *)

From stdpp Require Import strings.
From S2P Require Import Prelude Frames Heap HeapMem HeapInv HeapAlloc HeapMalloc.

Definition touching (b c : block) : bool := is_free b && is_free c && (b_end b =? b_addr c).

Fixpoint merge (cur : block) (l : list block) : list block :=
  match l with
  | [] => [cur]
  | nx :: l =>
      if touching cur nx then merge (mk_blk (b_addr cur) (b_size cur + (48 + b_size nx)) (b_caller cur) BFree) l
      else cur :: merge nx l
  end.

(** No two free blocks that touch are neighbours in the list. *)
Fixpoint coalesced (l : list block) : Prop :=
  match l with
  | b :: (c :: _) as l' => touching b c = false ∧ coalesced l'
  | _ => True
  end.

Lemma merge_head l : ∀ cur, ∃ c l', merge cur l = c :: l' ∧ b_addr c = b_addr cur ∧ is_free c = is_free cur.
Proof.
  induction l as [|nx l IH]; intros cur; cbn [merge]; [by eexists _, _|]. destruct (touching cur nx) eqn:E; [|by eexists _, _].
  destruct (IH (mk_blk (b_addr cur) (b_size cur + (48 + b_size nx)) (b_caller cur) BFree)) as (c & l' & -> & E1 & E2). exists c, l'. split_and!; try done.
  unfold touching in E. zbool. rewrite E2. by symmetry.
Qed.

Lemma merge_coalesced l : ∀ cur, coalesced (merge cur l).
Proof.
  induction l as [|nx l IH]; intros cur; cbn [merge]; [done|]. destruct (touching cur nx) eqn:E; [apply IH|]. pose proof (IH nx) as H.
  destruct (merge_head l nx) as (c & l' & Em & E1 & E2). rewrite Em in *. split; [|done]. unfold touching in *. by rewrite E1, E2.
Qed.

Lemma free_not_owned b : is_free b = true → owned b = None.
Proof. unfold is_free, owned. by destruct (b_kind b). Qed.

Lemma live_cons b l : live (b :: l) = match owned b with Some x => x :: live l | None => live l end.
Proof. reflexivity. Qed.

Lemma merge_live l : ∀ cur, live (merge cur l) = live (cur :: l).
Proof.
  induction l as [|nx l IH]; intros cur; cbn [merge]; [done|]. destruct (touching cur nx) eqn:E.
  - rewrite IH. unfold touching in E. zbool. rewrite !live_cons, (free_not_owned cur), (free_not_owned nx) by done. done.
  - rewrite (live_cons cur), (live_cons cur), IH. done.
Qed.

(** A header [kfree] recognises as freed. *)
Definition dead_hdr (s : Z) (m : mem) (a : Z) : Prop :=
  let x := hb_load m a in (hb_magic x = HEAP_MAGIC_FREE ∨ hb_magic x = HEAP_MAGIC_MERGED) ∧ hb_check x = hb_calc s a x.

Lemma dead_ext s m m' a : (∀ x, a ≤ x < a + 48 → m' x = m x) → dead_hdr s m a → dead_hdr s m' a.
Proof. intros H. unfold dead_hdr. by rewrite (hb_load_ext m m' a H). Qed.

Lemma free_kind b : is_free b = true → b = mk_blk (b_addr b) (b_size b) (b_caller b) BFree.
Proof. destruct b as [a sz c k]. unfold is_free. cbn. by destruct k. Qed.

Section free.
Context {A : Type} {ops : PageOps A} {laws : PageLaws A}.
Implicit Types h : heap A.

(** Bytes of headers of free blocks. *)
Definition free_hdr (bl : list block) (x : Z) : Prop := ∃ b, b ∈ bl ∧ is_free b = true ∧ b_addr b ≤ x < b_addr b + 48.

(** ** Merging two blocks *)

Lemma merge_step h fr pre cur nx post : hinv h fr (pre ++ cur :: nx :: post) → touching cur nx = true →
  let cur' := mk_blk (b_addr cur) (b_size cur + (48 + b_size nx)) (b_caller cur) BFree in
  ∃ m', (∀ k : hm unit, hbind (upd (λ m, put_size m (b_addr cur) (u64 (hb_size (hb_load m (b_addr cur)) + (HDR + hb_size (hb_load m (b_addr nx)))))))
          (λ _, hbind (upd (λ m, put_next m (b_addr cur) (hb_next (hb_load m (b_addr nx)))))
          (λ _, hbind (seal (b_addr cur))
          (λ _, hbind (upd (λ m, put_magic m (b_addr nx) HEAP_MAGIC_MERGED))
          (λ _, hbind (seal (b_addr nx)) (λ _, k))))) h = k (set_mem h m')) ∧
  hinv (set_mem h m') fr (pre ++ cur' :: post) ∧ dead_hdr (g_heap_secret h) m' (b_addr nx) ∧
  (∀ x, ¬ (b_addr cur ≤ x < b_addr cur + 48) → ¬ (b_addr nx ≤ x < b_addr nx + 48) → m' x = hmem h x).
Proof.
  intros Hi Ht cur'. unfold touching in Ht. zbool. set (s := g_heap_secret h).
  pose proof (hi_ok _ _ _ Hi) as [_ [K1 [K2 _]%Forall_cons]%Forall_cons]%Forall_app. pose proof (hi_secret _ _ _ Hi) as Hs. fold s in Hs.
  destruct (blk_range h fr _ cur Hi ltac:(set_solver)) as [R1 D1]. destruct (blk_range h fr _ nx Hi ltac:(set_solver)) as [R2 D2].
  pose proof (br_hdr _ _ _ _ (rep_in h fr pre cur (nx :: post) Hi)) as L1. fold s in L1. cbn [hd] in L1.
  assert (Hi2 : hinv h fr ((pre ++ [cur]) ++ nx :: post)) by (by rewrite <- (assoc_L (++))). pose proof (br_hdr _ _ _ _ (rep_in h fr _ nx post Hi2)) as L2. fold s in L2.
  pose proof (bo_pos _ _ _ K1). pose proof (bo_pos _ _ _ K2). unfold in_heap_range, VMM_PHYSMAP_BASE, PHYS_TOP, b_end in *.
  assert (Hu : is_u64 (b_addr cur) ∧ is_u64 (b_addr nx) ∧ is_u64 (b_size cur + (48 + b_size nx))) by (unfold is_u64; lia). destruct Hu as (U1 & U2 & U3).
  set (a := b_addr cur) in *. set (n := b_addr nx) in *. assert (Han : a + 48 ≤ n) by lia.
  set (m1 := put_size (hmem h) a (u64 (hb_size (hb_load (hmem h) a) + (HDR + hb_size (hb_load (hmem h) n))))).
  set (m2 := put_next m1 a (hb_next (hb_load m1 n))). set (m3 := hb_seal s m2 a). set (m4 := put_magic m3 n HEAP_MAGIC_MERGED). set (m5 := hb_seal s m4 n).
  assert (E1 : m1 = put_size (hmem h) a (b_size cur + (48 + b_size nx))) by (unfold m1; rewrite L1, L2; cbn [sealed hdr hb_size]; unfold HDR; by rewrite u64_small).
  assert (L3 : hb_load m3 a = sealed s a (hdr cur' (hd post 0))).
  { unfold m3, m2. rewrite E1. load_eval. rewrite L1, L2. rewrite (free_kind cur) by done. reflexivity. }
  assert (L4 : hb_load m3 n = sealed s n (hdr nx (hd post 0))) by (unfold m3, m2; rewrite E1; load_eval; exact L2).
  assert (L5 : hb_load m5 a = sealed s a (hdr cur' (hd post 0))) by (unfold m5, m4; load_eval; exact L3).
  assert (F : ∀ x, ¬ (a ≤ x < a + 48) → ¬ (n ≤ x < n + 48) → m5 x = hmem h x).
  { intros x X1 X2. unfold m5, m4, m3, m2. rewrite E1. byte_eval. }
  exists m5. split; [intros k; reflexivity|]. split; [|split; [|exact F]].
  - replace (set_mem h m5) with (set_totals (set_mem h m5) (total_allocated h) (total_freed h)) by done.
    apply (hinv_replace h fr pre [cur; nx] [cur'] post); try done.
    + apply Forall_singleton. destruct K1, K2. constructor; unfold b_end in *; cbn; try done; try lia. apply Z.divide_add_r; [done|]. apply Z.divide_add_r; [by exists 3|done].
    + intros x. rewrite (in_ext_cons cur [nx]), !in_ext_single. unfold in_blk, b_end. cbn. fold a n. lia.
    + intros x Hx. rewrite in_ext_cons, in_ext_single in Hx. unfold in_blk, b_end in Hx. fold a n in Hx. apply F; lia.
    + f_equal. cbn. unfold used_size. cbn. destruct (is_free cur), (is_free nx); try done. lia.
  - unfold dead_hdr, m5, m4. rewrite load_seal by done. cbn zeta. split; [|apply (eq_sym (sealed_calc _ _ _))]. right. load_eval. done.
Qed.

(** ** The loop *)

Lemma hdr_apart h fr bl b c x : hinv h fr bl → b ∈ bl → c ∈ bl → b ≠ c → b_addr b ≤ x < b_addr b + 48 → ¬ (b_addr c ≤ x < b_addr c + 48).
Proof.
  intros Hi Hb Hc Hne Hx Hx'. pose proof (hi_ok _ _ _ Hi) as Hok. rewrite Forall_forall in Hok. destruct (Hok b Hb), (Hok c Hc).
  destruct (apart_in bl b c (hi_apart _ _ _ Hi) Hb Hc Hne) as [[?|?]|[?|?]]; unfold b_end in *; lia.
Qed.

Lemma free_dead h fr pre b post : hinv h fr (pre ++ b :: post) → is_free b = true → dead_hdr (g_heap_secret h) (hmem h) (b_addr b).
Proof.
  intros Hi Hb. unfold dead_hdr. cbv zeta. rewrite (br_hdr _ _ _ _ (rep_in h fr pre b post Hi)), sealed_calc. split; [|done]. left. rewrite (free_kind b Hb). done.
Qed.

(** A list of blocks that are apart has no duplicates. *)
Lemma split_notin h fr pre b post : hinv h fr (pre ++ b :: post) → (b ∉ pre) ∧ (b ∉ post).
Proof.
  intros Hi. pose proof (hi_ok _ _ _ Hi) as Hok. rewrite Forall_forall in Hok. destruct (Hok b ltac:(set_solver)). pose proof (hi_apart _ _ _ Hi) as (_ & [A1 _] & A2)%apart_app.
  rewrite Forall_forall in A1. split; intros Hb; [destruct (A2 b b Hb ltac:(set_solver))|destruct (A1 b Hb)]; unfold b_end in *; lia.
Qed.

Lemma coalesce_spec fr caller : ∀ post pre cur fuel h, hinv h fr (pre ++ cur :: post) → (length post ≤ fuel)%nat →
  ∃ m', coalesce fuel (b_addr cur) caller h = Ret tt (set_mem h m') ∧ hinv (set_mem h m') fr (pre ++ merge cur post) ∧
  (∀ b, b ∈ cur :: post → is_free b = true → dead_hdr (g_heap_secret h) m' (b_addr b)) ∧
  (∀ x, ¬ free_hdr (cur :: post) x → m' x = hmem h x).
Proof.
  induction post as [|nx post IH]; intros pre cur fuel h Hi Hf; pose proof (load_hdr h cur _ (rep_in h fr pre cur _ Hi) _ eq_refl) as (Em & _ & Es & _ & En & _).
  - exists (hmem h). assert (set_mem h (hmem h) = h) as -> by (by destruct h). split; [|split; [done|split; [|done]]].
    + destruct fuel; cbn [coalesce]; rewrite bind_at, En; done.
    + intros b ->%list_elem_of_singleton Hb. by apply (free_dead h fr pre cur []).
  - destruct fuel as [|fuel]; cbn [length] in Hf; [lia|]. cbn [hd] in En.
    assert (Hi2 : hinv h fr ((pre ++ [cur]) ++ nx :: post)) by (by rewrite <- (assoc_L (++))).
    destruct (load_hdr h nx _ (rep_in h fr _ nx post Hi2) _ eq_refl) as (Em2 & _).
    assert (Ee : u64 (hb_payload (b_addr cur) + b_size cur) = b_end cur).
    { rewrite (payload_eq h fr _ cur Hi) by set_solver. destruct (blk_range h fr _ cur Hi ltac:(set_solver)) as [R _]. unfold in_heap_range, VMM_PHYSMAP_BASE, PHYS_TOP in R.
      unfold b_end. apply u64_small. unfold is_u64. lia. }
    cbn [coalesce]. rewrite bind_at, En. rewrite (proj2 (Z.eqb_neq _ 0)) by (apply (blk_nonnull h fr _ nx Hi); set_solver). cbv zeta.
    rewrite (bind_ret _ _ h true h) by (by apply (verify_in h fr (pre ++ [cur]) nx post)). cbn [negb]. rewrite bind_at, Em, Em2, Es, Ee, !free_magic. fold (touching cur nx).
    destruct (split_notin h fr _ _ _ Hi) as [_ N1]. destruct (split_notin h fr _ _ _ Hi2) as [N2 N3]. cbn [merge]. destruct (touching cur nx) eqn:Et.
    + destruct (merge_step h fr pre cur nx post Hi Et) as (m1 & Ek & Hi1 & Hd & F1). rewrite Ek. set (cur' := mk_blk _ _ _ _) in *.
      destruct (IH pre cur' fuel (set_mem h m1) Hi1 ltac:(lia)) as (m' & E' & Hi' & Hd' & F'). cbn [set_mem g_heap_secret hmem] in *.
      exists m'. split; [exact E'|]. split; [exact Hi'|].
      assert (Hfr : ∀ x, free_hdr (cur' :: post) x → (b_addr cur ≤ x < b_addr cur + 48) ∨ free_hdr post x).
      { intros x (b & [->|Hb]%elem_of_cons & Hb' & Hx); [by left|]. right. by exists b. }
      assert (Hfree : is_free cur = true ∧ is_free nx = true ∧ b_addr cur + 48 ≤ b_addr nx).
      { pose proof (hi_ok _ _ _ Hi) as [_ [[] _]%Forall_cons]%Forall_app. unfold touching, b_end in *. zbool. split_and!; try done. lia. }
      destruct Hfree as (Hfc & Hfn & Hlt). split.
      * intros b [->|[->|Hb]%elem_of_cons]%elem_of_cons Hbf; [by apply (Hd' cur'); [set_solver|]| |by apply Hd'; [set_solver|]].
        apply (dead_ext _ m1); [|done]. intros x Hx. apply F'. intros [?|(c & Hc & _ & Hcx)]%Hfr; [lia|].
        apply (hdr_apart h fr _ nx c x Hi); try done; [set_solver..|]. by intros <-.
      * intros x Hx. rewrite F'; [apply F1|].
        -- intros Hx'. apply Hx. exists cur. split; [set_solver|done].
        -- intros Hx'. apply Hx. exists nx. split; [set_solver|done].
        -- intros [Hx'|(c & Hc & Hc')]%Hfr; apply Hx; [exists cur; split; [set_solver|done]|exists c; split; [set_solver|done]].
    + destruct (IH (pre ++ [cur]) nx fuel h Hi2 ltac:(lia)) as (m' & E' & Hi' & Hd' & F'). exists m'. split; [exact E'|]. split; [by rewrite <- (assoc_L (++)) in Hi'|]. split.
      * intros b [->|Hb]%elem_of_cons Hbf; [|by apply Hd']. apply (dead_ext _ (hmem h)); [|by apply (free_dead h fr pre cur (nx :: post))].
        intros x Hx. apply F'. intros (c & Hc & _ & Hcx). apply (hdr_apart h fr _ cur c x Hi); try done; [set_solver..|]. by intros <-.
      * intros x Hx. apply F'. intros (c & Hc & Hc'). apply Hx. exists c. split; [set_solver|done].
Qed.

(** ** From the pointer to the block *)

Lemma owner_bounds lo hi b p n : blk_ok lo hi b → owned b = Some (p, n) → (16 | p) ∧ b_addr b + 48 ≤ p ∧ 0 < n ∧ p + n + 8 ≤ b_end b ∧ b_addr b + 48 + b_req b = p + n.
Proof.
  intros [H1 H2 H3 H4 H5 H6 K] Ho. unfold owned, b_req, b_end in *. destruct (b_kind b); [done|injection Ho as <- <-..].
  - split; [apply Z.divide_add_r; [done|by exists 3]|]. lia.
  - destruct K as (K1 & K2 & K3 & K4). split; [done|]. lia.
Qed.

Lemma resolve_hdr h b nx p n caller : blk_ok (heap_lo h) (heap_hi h) b → VMM_PHYSMAP_BASE ≤ heap_lo h → heap_hi h ≤ VMM_PHYSMAP_BASE + PHYS_TOP →
  hb_load (hmem h) (b_addr b) = sealed (g_heap_secret h) (b_addr b) (hdr b nx) →
  (∀ r k, b_kind b = BAligned r k → hb_load (hmem h) (r - 48) = sealed (g_heap_secret h) (r - 48) (stub b k)) →
  owned b = Some (p, n) → heap_resolve_locked p caller h = Ret (b_addr b) h.
Proof.
  intros Hok Hlo Hhi L1 L3 Ho. destruct (owner_bounds _ _ b p n Hok Ho) as (D & B1 & B2 & B3 & B4). pose proof (verify_hdr h b nx caller Hok Hlo Hhi L1) as V.
  pose proof Hok as [_ _ K3 K4 K5 _ K]. unfold b_end, VMM_PHYSMAP_BASE, PHYS_TOP in *.
  assert (Ep : hb_payload (b_addr b) = b_addr b + 48) by (unfold hb_payload, HDR; apply u64_small; unfold is_u64; lia).
  unfold heap_resolve_locked, HEAP_ALIGN, HDR. change (16 - 1) with 15. rewrite (proj2 (align16 p) D). cbn [negb]. rewrite (u64_small (heap_lo h + 48)) by (unfold is_u64; lia).
  rewrite (proj2 (Z.ltb_ge p (heap_lo h + 48))), (proj2 (Z.ltb_ge (heap_hi h) p)) by lia. cbn [orb]. rewrite (u64_small (p - 48)) by (unfold is_u64; lia). cbv zeta.
  unfold owned in Ho. destruct (b_kind b) as [|q|r q] eqn:Ek; [done|injection Ho as <- <-..].
  - replace (b_addr b + 48 - 48) with (b_addr b) by lia. rewrite L1, sealed_calc. cbn [sealed hdr hb_magic]. unfold b_magic. rewrite Ek. cbn [Z.eqb Pos.eqb HEAP_MAGIC_USED HEAP_MAGIC_ALIGN HEAP_MAGIC_FREE HEAP_MAGIC_MERGED HEAP_POISON_U32 orb negb].
    rewrite (bind_ret _ _ h true h V). cbn [negb]. rewrite bind_at, L1. cbn [sealed hdr hb_flags]. unfold b_flags. by rewrite Ek.
  - rewrite (L3 r q eq_refl), sealed_calc. cbn [sealed stub hb_magic hb_check hb_next]. rewrite !Z.eqb_refl. cbn [negb].
    rewrite (bind_ret _ _ h true h V). cbn [negb]. rewrite bind_at, L1. cbn [sealed hdr hb_magic hb_flags hb_req]. unfold b_magic, b_flags. rewrite Ek, Ep.
    cbn [Z.eqb Pos.eqb HEAP_MAGIC_USED HEAP_MAGIC_FREE]. rewrite (u64_small (b_addr b + 48 + 48)), (u64_small (b_addr b + 48 + b_req b)) by (unfold is_u64; lia).
    rewrite (proj2 (Z.ltb_ge r _)), (proj2 (Z.leb_gt _ r)) by lia. done.
Qed.

Lemma resolve_spec h fr pre b post p n caller : hinv h fr (pre ++ b :: post) → owned b = Some (p, n) → heap_resolve_locked p caller h = Ret (b_addr b) h.
Proof.
  intros Hi Ho. pose proof (hi_ok _ _ _ Hi) as [_ [Hok _]%Forall_cons]%Forall_app. pose proof (rep_in h fr pre b post Hi) as [L1 _ L3].
  apply (resolve_hdr h b (hd post 0) p n); try done; [apply (hi_lo _ _ _ Hi)|apply (hi_hi _ _ _ Hi)].
Qed.

(** ** Marking the block *)

Definition freed (b : block) (caller : Z) : block := mk_blk (b_addr b) (b_size b) caller BFree.

Lemma free_mark_spec h fr pre b post caller : hinv h fr (pre ++ b :: post) → is_free b = false → is_u64 caller →
  ∃ h', free_mark (b_addr b) caller h = Ret tt h' ∧ hinv h' fr (pre ++ freed b caller :: post) ∧
  (∀ x, ¬ (b_addr b ≤ x < b_addr b + 48) → hmem h' x = hmem h x) ∧ g_heap_expect h' = g_heap_expect h ∧ g_heap_secret h' = g_heap_secret h ∧ hpages h' = hpages h.
Proof.
  intros Hi Hb Hc. pose proof (br_hdr _ _ _ _ (rep_in h fr pre b post Hi)) as L. set (s := g_heap_secret h) in *. pose proof (hi_secret _ _ _ Hi) as Hs. fold s in Hs.
  destruct (blk_range h fr _ b Hi ltac:(set_solver)) as [R _]. unfold in_heap_range, VMM_PHYSMAP_BASE, PHYS_TOP in R. pose proof (hi_ok _ _ _ Hi) as [_ [Hok _]%Forall_cons]%Forall_app.
  assert (Ha : is_u64 (b_addr b)) by (unfold is_u64; lia). set (a := b_addr b) in *.
  set (m1 := hb_seal s (put_caller (put_req (put_flags (put_magic (hmem h) a HEAP_MAGIC_FREE) a 0) a 0) a caller) a).
  assert (L1 : hb_load m1 a = sealed s a (hdr (freed b caller) (hd post 0))) by (unfold m1; load_eval; rewrite L; reflexivity).
  assert (F : ∀ x, ¬ (a ≤ x < a + 48) → m1 x = hmem h x) by (intros x Hx; unfold m1; byte_eval).
  exists (set_totals (set_mem h m1) (total_allocated h) (u64 (total_freed h + b_size b))). split; [|split; [|done]].
  - unfold free_mark. cbv [hbind upd modify seal]. cbn [hmem set_mem set_totals g_heap_secret total_allocated total_freed]. fold s. fold m1. by rewrite L.
  - apply (hinv_replace h fr pre [b] [freed b caller] post); try done.
    + apply Forall_singleton. destruct Hok. constructor; done.
    + intros x. by rewrite !in_ext_single.
    + intros x Hx. apply F. rewrite in_ext_single in Hx. destruct Hok. unfold in_blk, b_end in *. fold a in Hx. lia.
    + cbn. unfold used_size. rewrite Hb. cbn. unfold u64. rewrite Zminus_mod_idemp_r. f_equal. lia.
Qed.

(** ** The call *)

(** Payload bytes are in no header, before and after the block is marked. *)
Lemma payload_not_hdr h fr pre b post caller c x : hinv h fr (pre ++ b :: post) → c ∈ pre ++ b :: post → in_blk c x → b_addr c + 48 ≤ x →
  ¬ free_hdr (pre ++ freed b caller :: post) x.
Proof.
  intros Hi Hc Hx H48 (d & Hd & _ & Hdx). assert (∃ d', d' ∈ pre ++ b :: post ∧ b_addr d' = b_addr d) as (d' & Hd' & Ea).
  { apply elem_of_app in Hd as [?|[->|?]%elem_of_cons]; [exists d|exists b|exists d]; (split; [set_solver|done]). }
  rewrite <- Ea in Hdx. pose proof (hi_ok _ _ _ Hi) as Hok. rewrite Forall_forall in Hok. pose proof (bo_pos _ _ _ (Hok d' Hd')).
  destruct (decide (c = d')) as [<-|Hne]; [lia|]. destruct (apart_in _ c d' (hi_apart _ _ _ Hi) Hc Hd' Hne) as [[?|?]|[?|?]]; unfold in_blk, b_end in *; lia.
Qed.

(** The list after [b] was freed: merged from its start. *)
Definition after_free (pre : list block) (b : block) (post : list block) (caller : Z) : list block :=
  match pre ++ freed b caller :: post with [] => [] | c :: l => merge c l end.

Lemma owned_used b x : owned b = Some x → is_free b = false.
Proof. unfold owned, is_free. by destruct (b_kind b). Qed.

Lemma tail_rep lo hi s m b nx : blk_ok lo hi b → VMM_PHYSMAP_BASE ≤ lo → hi ≤ VMM_PHYSMAP_BASE + PHYS_TOP → block_rep s m b nx → is_free b = false →
  hb_tail_read m (b_addr b) = hb_tail_value s (b_addr b + 48).
Proof.
  intros Hok Hlo Hhi [L T _] Hb. assert (Hk : b_kind b ≠ BFree) by (unfold is_free in Hb; by destruct (b_kind b)). pose proof (req_bounds _ _ b Hok) as [R1 R2]. specialize (R2 Hk).
  destruct Hok. unfold VMM_PHYSMAP_BASE, PHYS_TOP, b_end in *. rewrite tail_read_word, L. unfold hb_payload, HDR. cbn [sealed hdr hb_req].
  rewrite (u64_small (b_addr b + 48)), (u64_small (b_addr b + 48 + b_req b)) by (unfold is_u64; lia). by apply T.
Qed.

Lemma tail_intact h fr pre b post : hinv h fr (pre ++ b :: post) → is_free b = false →
  hb_tail_read (hmem h) (b_addr b) = hb_tail_value (g_heap_secret h) (hb_payload (b_addr b)).
Proof.
  intros Hi Hb. rewrite (payload_eq h fr _ b Hi) by set_solver. pose proof (hi_ok _ _ _ Hi) as [_ [Hok _]%Forall_cons]%Forall_app.
  apply (tail_rep _ _ _ _ b _ Hok (proj1 (hi_lo _ _ _ Hi)) (hi_hi _ _ _ Hi) (rep_in h fr pre b post Hi) Hb).
Qed.

Lemma kfree_spec h fr pre b post p n caller : hinv h fr (pre ++ b :: post) → owned b = Some (p, n) → is_u64 caller →
  ∃ h', kfree p caller h = Ret tt h' ∧ hinv h' fr (after_free pre b post caller) ∧
  (∀ x, ¬ free_hdr (pre ++ freed b caller :: post) x → hmem h' x = hmem h x) ∧
  dead_hdr (g_heap_secret h') (hmem h') (b_addr b) ∧ g_heap_secret h' = g_heap_secret h ∧ g_heap_expect h' = g_heap_expect h ∧ hpages h' = hpages h.
Proof.
  intros Hi Ho Hc. pose proof (owned_used b _ Ho) as Hb. pose proof (hi_ok _ _ _ Hi) as [_ [Hok _]%Forall_cons]%Forall_app.
  destruct (owner_bounds _ _ b p n Hok Ho) as (_ & B1 & _). pose proof (blk_nonnull h fr _ b Hi ltac:(set_solver)) as H0. destruct (hi_lo _ _ _ Hi) as [Hlo _].
  pose proof (bo_lo _ _ _ Hok). unfold VMM_PHYSMAP_BASE in Hlo.
  destruct (free_mark_spec h fr pre b post caller Hi Hb Hc) as (h1 & E1 & Hi1 & F1 & X1 & S1 & Y1).
  destruct (pre ++ freed b caller :: post) as [|c l] eqn:El; [by destruct pre|].
  destruct (coalesce_spec fr caller l [] c (slots h1) h1) as (m' & E2 & Hi2 & Hd & F2); [done|pose proof (fuel_room h1 fr _ Hi1); cbn [length] in *; lia|].
  exists (set_mem h1 m'). split; [|split; [unfold after_free; by rewrite El|split; [|split; [|done]]]].
  - unfold kfree. rewrite (proj2 (Z.eqb_neq p 0)) by lia. rewrite (usable h fr _ Hi), (bind_ret _ _ h _ h (resolve_spec h fr pre b post p n caller Hi Ho)).
    rewrite (proj2 (Z.eqb_neq _ 0)) by done. unfold heap_free_block_locked. rewrite (tail_intact h fr pre b post Hi Hb), Z.eqb_refl. cbn [negb]. cbv zeta.
    rewrite (bind_ret _ _ h _ h1 E1). rewrite !bind_gets, (hi_start _ _ _ Hi1). cbn [hd]. rewrite (bind_ret _ _ h1 true h1) by (by apply (verify_in h1 fr [] c l)). exact E2.
  - intros x Hx. cbn [set_mem hmem]. rewrite F2 by done. apply F1. intros Hx'. apply Hx. exists (freed b caller). split; [rewrite <- El; set_solver|done].
  - cbn [set_mem hmem g_heap_secret]. apply (Hd (freed b caller)); [rewrite <- El; set_solver|done].
Qed.
End free.
