(* ===== verification/HeapCheck.v ===== *)
(** * The validator and the detection of corruption

    [heap_check] accepts every heap that satisfies the invariant and counts
    its blocks; a header changed in one word, a canary overwritten and a
    pointer freed twice are reported. *)

From stdpp Require Import strings.
From S2P Require Import Prelude Frames Heap HeapMem HeapInv HeapAlloc HeapMalloc HeapFree.

(** The statistics after one more block. *)
Definition stat (s : heap_walk_stats_t) (b : block) : heap_walk_stats_t :=
  let n := u64 (s_blocks s + 1) in
  if is_free b then
    mk_stats n (s_used_blocks s) (u64 (s_free_blocks s + 1)) (s_used_bytes s) (u64 (s_free_bytes s + b_size b))
      (if s_largest_free s <? b_size b then b_size b else s_largest_free s)
  else
    mk_stats n (u64 (s_used_blocks s + 1)) (s_free_blocks s) (u64 (s_used_bytes s + b_size b)) (s_free_bytes s) (s_largest_free s).

Definition stats (bl : list block) : heap_walk_stats_t := fold_left stat bl (mk_stats 0 0 0 0 0 0).

Lemma stats_used bl : ∀ s, u64 (s_used_bytes (fold_left stat bl s)) = u64 (s_used_bytes s + used_bytes bl).
Proof.
  induction bl as [|b l IH]; intros s; cbn [fold_left used_bytes]; [by rewrite Z.add_0_r|]. rewrite IH. unfold stat, used_size. destruct (is_free b); cbn [s_used_bytes].
  - f_equal.
  - unfold u64. rewrite Zplus_mod_idemp_l. f_equal. lia.
Qed.

Lemma stats_blocks bl : ∀ s, 0 ≤ s_blocks s → s_blocks s + zlen bl < 2 ^ 64 → s_blocks (fold_left stat bl s) = s_blocks s + zlen bl.
Proof.
  induction bl as [|b l IH]; intros s H0 Hb; cbn [fold_left length] in *; [lia|]. assert (E : s_blocks (stat s b) = s_blocks s + 1).
  { unfold stat. rewrite u64_small by (unfold is_u64; lia). by destruct (is_free b). }
  rewrite IH; rewrite ?E; lia.
Qed.

Section check.
Context {A : Type} {ops : PageOps A} {laws : PageLaws A}.
Implicit Types h : heap A.

(** The walk over a sound part of the list. *)
Lemma check_prefix h caller limit z : VMM_PHYSMAP_BASE ≤ heap_lo h → heap_hi h ≤ VMM_PHYSMAP_BASE + PHYS_TOP → limit < 2 ^ 64 →
  ∀ l s fuel errs, Forall (blk_ok (heap_lo h) (heap_hi h)) l → lseg (g_heap_secret h) (hmem h) l z → 0 ≤ s_blocks s → s_blocks s + zlen l ≤ limit →
  (∀ l1 b l2, l = l1 ++ b :: l2 → hd l2 z = 0 ∨ b_end b ≤ hd l2 z ∨ hd l2 z ≤ b_addr b) →
  check_walk (length l + fuel) limit caller (hd l z) s errs h = check_walk fuel limit caller z (fold_left stat l s) errs h.
Proof.
  intros Hlo Hhi Hlim. induction l as [|b l IH]; intros s fuel errs Hok Hseg H0 Hs Hov; [done|]. apply Forall_cons in Hok as [Hb Hl]. destruct Hseg as [Hrep Hseg]. cbn [length hd] in *.
  pose proof Hb as [_ _ P3 P4 P5 _ _]. unfold VMM_PHYSMAP_BASE, PHYS_TOP, b_end in *. pose proof (load_hdr h b _ Hrep _ eq_refl) as (E1 & _ & E3 & _ & E5 & _).
  assert (Hp : hb_payload (b_addr b) = b_addr b + 48) by (unfold hb_payload, HDR; apply u64_small; unfold is_u64; lia).
  cbn [plus check_walk]. rewrite (proj2 (Z.eqb_neq (b_addr b) 0)) by lia. rewrite (u64_small (s_blocks s + 1)) by (unfold is_u64; lia). cbv zeta.
  rewrite (proj2 (Z.ltb_ge limit _)) by lia. rewrite (bind_ret _ _ h true h) by (by apply (verify_ok h b (hd l z))). cbn [negb]. rewrite bind_at, E1, E3, E5, Hp.
  rewrite (u64_small (b_addr b + 48 + b_size b)) by (unfold is_u64; lia).
  assert (ztrue (hd l z) && (b_addr b <? hd l z) && (hd l z <? b_addr b + 48 + b_size b) = false) as ->.
  { destruct (Hov [] b l eq_refl) as [->|Ho]; [done|]. apply andb_false_iff. destruct (Z.ltb_spec (hd l z) (b_addr b + 48 + b_size b)); [left|by right]. apply andb_false_iff. right. apply Z.ltb_ge. lia. }
  assert (IH' : ∀ s', s_blocks s' = s_blocks s + 1 → check_walk (length l + fuel) limit caller (hd l z) s' errs h = check_walk fuel limit caller z (fold_left stat l s') errs h).
  { intros s' Es. apply IH; try done; [lia..|]. intros l1 c l2 ->. apply (Hov (b :: l1)). done. }
  unfold b_magic. cbn [fold_left]. unfold stat at 2. rewrite (u64_small (s_blocks s + 1)) by (unfold is_u64; lia). unfold is_free. destruct (b_kind b) eqn:Ek.
  1: by apply IH'.
  all: cbn [Z.eqb Pos.eqb HEAP_MAGIC_USED]; rewrite !bind_gets; cbv beta; rewrite (tail_rep _ _ _ _ b _ Hb Hlo Hhi Hrep) by (unfold is_free; by rewrite Ek); rewrite Z.eqb_refl; by apply IH'.
Qed.

Lemma next_clear h fr pre b post : hinv h fr (pre ++ b :: post) → hd post 0 = 0 ∨ b_end b ≤ hd post 0 ∨ hd post 0 ≤ b_addr b.
Proof.
  intros Hi. destruct post as [|c post]; [by left|right]. pose proof (hi_apart _ _ _ Hi) as (_ & [[A1 _]%Forall_cons _] & _)%apart_app.
  pose proof (hi_ok _ _ _ Hi) as [_ [_ [[] _]%Forall_cons]%Forall_cons]%Forall_app. destruct A1; unfold b_end in *; cbn [hd]; lia.
Qed.

Lemma check_room h fr bl : hinv h fr bl → zlen bl ≤ u64 (heap_hi h - heap_lo h) / HEAP_ALIGN + 1 < 2 ^ 64.
Proof.
  intros Hi. pose proof (list_room _ _ bl (proj2 (hi_lo _ _ _ Hi)) (hi_ok _ _ _ Hi) (hi_apart _ _ _ Hi)) as H. destruct (hi_lo _ _ _ Hi) as [L1 _]. pose proof (hi_hi _ _ _ Hi).
  assert (heap_lo h ≤ heap_hi h).
  { pose proof (hi_ok _ _ _ Hi) as Hok. pose proof (hi_ne _ _ _ Hi). destruct bl as [|b bl]; [done|]. apply Forall_cons in Hok as [[] _]. unfold b_end in *. lia. }
  unfold VMM_PHYSMAP_BASE, PHYS_TOP, HEAP_ALIGN in *. rewrite u64_small by (unfold is_u64; lia). Z.to_euclidean_division_equations. lia.
Qed.

Lemma heap_check_spec h fr bl caller : hinv h fr bl → heap_check_locked caller h = Ret (0, Some (stats bl)) h.
Proof.
  intros Hi. unfold heap_check_locked. rewrite (hi_start _ _ _ Hi). pose proof (check_room h fr bl Hi) as Hr. pose proof (fuel_room h fr bl Hi) as Hf.
  replace (S (slots h)) with (length bl + S (slots h - length bl))%nat by lia.
  rewrite (check_prefix h caller _ 0); [done|apply (hi_lo _ _ _ Hi)|apply (hi_hi _ _ _ Hi)|lia|apply (hi_ok _ _ _ Hi)|apply (hi_seg _ _ _ Hi)|done|cbn [s_blocks]; lia|].
  intros l1 b l2 ->. by apply (next_clear h fr l1 b l2).
Qed.

(** ** A smashed header *)

Lemma verify_smashed h b m' caller x x' : is_u64 (g_heap_secret h) → is_u64 b → g_heap_expect h = false → hb_in_heap h b = true →
  hb_load (hmem h) b = sealed (g_heap_secret h) b x → hb_load m' b = x' → one_word (sealed (g_heap_secret h) b x) x' →
  ∃ r, hb_verify b caller (set_mem h m') = Panic r (set_fault (set_mem h m') true (g_heap_detected h) (g_heap_last h)) ∧
  r_block r = b ∧ (r_what r = "corrupted block header (bad magic)"%string ∨ r_what r = "corrupted block header (check mismatch)"%string).
Proof.
  intros Hs Hb He Hin L L' Hw. pose proof (hb_load_wf (hmem h) b) as W. rewrite L in W. pose proof (hb_load_wf m' b) as W'. rewrite L' in W'.
  pose proof (calc_one_word _ b _ _ Hs Hb W W' Hw) as Hc. rewrite sealed_calc in Hc. specialize (Hc eq_refl).
  unfold hb_verify. unfold hb_in_heap in *. cbn [set_mem heap_lo heap_hi hmem g_heap_secret] in *. rewrite Hin, L'. cbn [negb]. cbv zeta.
  unfold heap_fault. cbn [set_mem g_heap_expect g_heap_detected g_heap_last]. rewrite He.
  destruct (negb (hb_magic x' =? HEAP_MAGIC_USED) && negb (hb_magic x' =? HEAP_MAGIC_FREE)); [eexists; split; [reflexivity|]; split; [done|by left]|].
  rewrite (proj2 (Z.eqb_neq _ _)) by exact Hc. eexists. split; [reflexivity|]. split; [done|by right].
Qed.

Lemma in_heap_ok h fr pre b post : hinv h fr (pre ++ b :: post) → hb_in_heap h (b_addr b) = true.
Proof.
  intros Hi. pose proof (hi_ok _ _ _ Hi) as [_ [[] _]%Forall_cons]%Forall_app. pose proof (payload_eq h fr _ b Hi ltac:(set_solver)) as Ep. unfold hb_payload, HDR in Ep.
  unfold hb_in_heap, HDR, HEAP_ALIGN, b_end in *. change (16 - 1) with 15. rewrite Ep, (proj2 (align16 _)) by done. cbn [andb]. apply andb_true_iff. split; apply Z.leb_le; lia.
Qed.

Lemma smash_spec h fr pre b post m' caller : hinv h fr (pre ++ b :: post) → g_heap_expect h = false →
  (∀ x, ¬ (b_addr b ≤ x < b_addr b + 48) → m' x = hmem h x) → one_word (hb_load (hmem h) (b_addr b)) (hb_load m' (b_addr b)) →
  ∃ r h', heap_check caller (set_mem h m') = Panic r h' ∧ r_block r = b_addr b ∧ g_heap_dead h' = true.
Proof.
  intros Hi He Hf Hw. pose (h1 := set_mem h m'). pose proof (check_room h fr _ Hi) as Hr. pose proof (fuel_room h fr _ Hi) as Hfu.
  pose proof (hi_ok _ _ _ Hi) as [K1 [K2 _]%Forall_cons]%Forall_app. pose proof (hi_seg _ _ _ Hi) as [S1 [S2 _]]%lseg_app. cbn [hd] in S1.
  pose proof (hi_apart _ _ _ Hi) as (_ & _ & A3)%apart_app. rewrite length_app in Hr, Hfu. cbn [length] in Hr, Hfu.
  destruct (verify_smashed h (b_addr b) m' caller (hdr b (hd post 0)) (hb_load m' (b_addr b)) (hi_secret _ _ _ Hi)) as (r & Ev & Hb & Hw'); try done.
  { destruct (blk_range h fr _ b Hi ltac:(set_solver)) as [R _]. unfold in_heap_range, VMM_PHYSMAP_BASE, PHYS_TOP in R. destruct K2. unfold is_u64. lia. }
  { by apply (in_heap_ok h fr pre b post). }
  { apply S2. }
  { by rewrite <- (br_hdr _ _ _ _ S2). }
  exists r, (set_fault h1 true (g_heap_detected h) (g_heap_last h)). split; [|done].
  unfold heap_check. cbn [set_mem heap_start g_heap_dead]. rewrite (usable h fr _ Hi). unfold hbind. unfold heap_check_locked. cbn [set_mem heap_hi heap_lo heap_start].
  rewrite (hi_start _ _ _ Hi), hd_app. cbn [hd]. change (slots (set_mem h m')) with (slots h). replace (S (slots h)) with (length pre + S (slots h - length pre))%nat by lia.
  rewrite (check_prefix h1 caller _ (b_addr b)); try apply (hi_lo _ _ _ Hi); try apply (hi_hi _ _ _ Hi); try done; try lia.
  - cbn [check_walk]. rewrite (proj2 (Z.eqb_neq _ 0)) by (apply (blk_nonnull h fr _ b Hi); set_solver).
    rewrite stats_blocks by (cbn [s_blocks]; lia). cbn [s_blocks]. rewrite (u64_small (0 + zlen pre + 1)) by (unfold is_u64; lia). cbv zeta. rewrite (proj2 (Z.ltb_ge _ _)) by lia. unfold hbind. fold h1 in Ev. by rewrite Ev.
  - apply (lseg_frame _ (hmem h) m' _ _ _ _ K1); [|done]. intros x (c & Hc & Hx). apply Hf. destruct K2, (A3 c b Hc ltac:(set_solver)); unfold in_blk, b_end in *; lia.
  - cbn [s_blocks]. lia.
  - intros l1 c l2 ->. rewrite <- (assoc_L (++)), <- app_comm_cons in Hi. pose proof (next_clear h fr l1 c (l2 ++ b :: post) Hi) as Hn. by rewrite hd_app in Hn.
Qed.

(** ** An overwritten canary *)

Lemma overflow_spec h fr pre b post p n m' caller : hinv h fr (pre ++ b :: post) → owned b = Some (p, n) → g_heap_expect h = false →
  (∀ x, ¬ (p ≤ x < p + n + 8) → m' x = hmem h x) → rd64 m' (p + n) ≠ rd64 (hmem h) (p + n) →
  ∃ r h', kfree p caller (set_mem h m') = Panic r h' ∧ r_what r = "heap buffer overflow (tail canary smashed)"%string ∧ r_block r = b_addr b ∧
  g_heap_dead h' = true.
Proof.
  intros Hi Ho He Hf Hne. pose proof (hi_ok _ _ _ Hi) as [_ [Hok _]%Forall_cons]%Forall_app. pose proof (rep_in h fr pre b post Hi) as [L1 L2 L3].
  destruct (owner_bounds _ _ b p n Hok Ho) as (D & B1 & B2 & B3 & B4). pose proof (owned_used b _ Ho) as Hb.
  assert (Hk : b_kind b ≠ BFree) by (unfold is_free in Hb; by destruct (b_kind b)).
  assert (L1' : hb_load m' (b_addr b) = hb_load (hmem h) (b_addr b)) by (apply hb_load_ext; intros; apply Hf; lia).
  pose proof (hi_lo _ _ _ Hi) as [Hlo _]. pose proof (hi_hi _ _ _ Hi) as Hhi.
  assert (R : heap_resolve_locked p caller (set_mem h m') = Ret (b_addr b) (set_mem h m')).
  { apply (resolve_hdr (set_mem h m') b (hd post 0) p n); try done; [exact (eq_trans L1' L1)|]. intros r k E. cbn [set_mem hmem g_heap_secret]. rewrite <- (L3 r k E).
    apply hb_load_ext. intros x Hx. apply Hf. unfold owned in Ho. rewrite E in Ho. injection Ho as <- <-. lia. }
  assert (Ep : hb_payload (b_addr b) = p + n - b_req b) by (rewrite (payload_eq h fr _ b Hi) by set_solver; lia).
  unfold kfree. rewrite (proj2 (Z.eqb_neq p 0)) by (pose proof (bo_lo _ _ _ Hok); unfold VMM_PHYSMAP_BASE in *; lia). cbn [set_mem heap_start g_heap_dead].
  rewrite (usable h fr _ Hi), (bind_ret _ _ _ _ _ R), (proj2 (Z.eqb_neq _ 0)) by (apply (blk_nonnull h fr _ b Hi); set_solver).
  unfold heap_free_block_locked. cbn [set_mem hmem g_heap_secret]. cbv zeta. rewrite tail_read_word, L1', L1. cbn [sealed hdr hb_req].
  rewrite (payload_eq h fr _ b Hi) by set_solver. rewrite B4, (u64_small (p + n)) by (pose proof (bo_hi _ _ _ Hok); pose proof (bo_lo _ _ _ Hok); unfold VMM_PHYSMAP_BASE, PHYS_TOP, is_u64 in *; lia).
  rewrite <- (L2 Hk), B4, (proj2 (Z.eqb_neq _ _)) by done. cbn [negb]. unfold hbind, heap_fault. cbn [set_mem g_heap_expect]. rewrite He. by eexists _, _.
Qed.

(** ** A pointer freed twice *)

Lemma freed_hdr h a p caller : g_heap_expect h = false → (heap_start h =? 0) || g_heap_dead h = false → p = a + 48 → p ≠ 0 → (16 | p) →
  heap_lo h + 48 ≤ p ≤ heap_hi h → VMM_PHYSMAP_BASE ≤ heap_lo h → heap_hi h ≤ VMM_PHYSMAP_BASE + PHYS_TOP → dead_hdr (g_heap_secret h) (hmem h) a →
  ∃ r h', kfree p caller h = Panic r h' ∧ r_what r = "double free"%string ∧ g_heap_dead h' = true.
Proof.
  intros He Hu -> H0 Hd Hr Hlo Hhi [Hm Hc]. unfold VMM_PHYSMAP_BASE, PHYS_TOP in *. unfold kfree. rewrite (proj2 (Z.eqb_neq _ 0)), Hu by done. unfold hbind, heap_resolve_locked, HEAP_ALIGN, HDR.
  change (16 - 1) with 15. rewrite (proj2 (align16 _) Hd). cbn [negb]. rewrite (u64_small (heap_lo h + 48)) by (unfold is_u64; lia).
  rewrite (proj2 (Z.ltb_ge _ (heap_lo h + 48))), (proj2 (Z.ltb_ge (heap_hi h) _)) by lia. cbn [orb]. rewrite (u64_small (a + 48 - 48)) by (unfold is_u64; lia).
  replace (a + 48 - 48) with a by lia. cbv zeta. rewrite Hc, Z.eqb_refl. unfold refuse, hbind, heap_fault. rewrite He. destruct Hm as [-> | ->]; by eexists _, _.
Qed.

(** Out of expect mode a check passes or panics; it does not pass on a header
    that is neither used nor free. *)
Lemma verify_cases h b caller : g_heap_expect h = false →
  (hb_verify b caller h = Ret true h ∧ (hb_magic (hb_load (hmem h) b) = HEAP_MAGIC_USED ∨ hb_magic (hb_load (hmem h) b) = HEAP_MAGIC_FREE)) ∨
  ∃ r h', hb_verify b caller h = Panic r h' ∧ g_heap_dead h' = true.
Proof.
  intros He. unfold hb_verify, heap_fault. rewrite He. cbv zeta. set (x := hb_load (hmem h) b). split_if; [right; by eexists _, _|].
  destruct (Z.eqb_spec (hb_magic x) HEAP_MAGIC_USED) as [E|]; [|destruct (Z.eqb_spec (hb_magic x) HEAP_MAGIC_FREE) as [E|]]; cbn [negb andb]; [| |right; by eexists _, _].
  all: repeat (split_if; [right; by eexists _, _|]); left; split; [done|]; by auto.
Qed.

(** The stub of a freed aligned allocation leads to a freed owner. *)
Lemma freed_stub h b r n caller : g_heap_expect h = false → (heap_start h =? 0) || g_heap_dead h = false → r ≠ 0 → (16 | r) →
  heap_lo h + 48 ≤ r ≤ heap_hi h → VMM_PHYSMAP_BASE ≤ heap_lo h → heap_hi h ≤ VMM_PHYSMAP_BASE + PHYS_TOP →
  hb_load (hmem h) (r - 48) = sealed (g_heap_secret h) (r - 48) (stub b n) → dead_hdr (g_heap_secret h) (hmem h) (b_addr b) →
  ∃ rp h', kfree r caller h = Panic rp h' ∧ g_heap_dead h' = true.
Proof.
  intros He Hu H0 Hd Hr Hlo Hhi Ls [Hm _]. unfold VMM_PHYSMAP_BASE, PHYS_TOP in *. unfold kfree. rewrite (proj2 (Z.eqb_neq r 0)), Hu by done. unfold hbind at 1. unfold heap_resolve_locked, HEAP_ALIGN, HDR.
  change (16 - 1) with 15. rewrite (proj2 (align16 _) Hd). cbn [negb]. rewrite (u64_small (heap_lo h + 48)) by (unfold is_u64; lia).
  rewrite (proj2 (Z.ltb_ge _ (heap_lo h + 48))), (proj2 (Z.ltb_ge (heap_hi h) _)) by lia. cbn [orb]. rewrite (u64_small (r - 48)) by (unfold is_u64; lia). cbv zeta.
  rewrite Ls, sealed_calc. cbn [sealed stub hb_magic hb_check hb_next]. rewrite !Z.eqb_refl. cbn [negb]. unfold hbind at 1.
  destruct (verify_cases h (b_addr b) caller He) as [[-> Hv]|(rp & h' & -> & Hd')]; [|by eexists _, _]. cbn [negb]. rewrite bind_at.
  assert (E : hb_magic (hb_load (hmem h) (b_addr b)) = HEAP_MAGIC_FREE).
  { cbv zeta in Hm. destruct Hm as [E|E]; [done|]. rewrite E in Hv. by destruct Hv. }
  rewrite E, Z.eqb_refl. unfold refuse, hbind, heap_fault. rewrite He. by eexists _, _.
Qed.

Lemma double_free_spec h fr pre b post p n caller caller' : hinv h fr (pre ++ b :: post) → owned b = Some (p, n) → g_heap_expect h = false → is_u64 caller →
  ∃ h1 r h2, kfree p caller h = Ret tt h1 ∧ kfree p caller' h1 = Panic r h2 ∧ g_heap_dead h2 = true ∧ (b_kind b = BUsed n → r_what r = "double free"%string).
Proof.
  intros Hi Ho He Hc. destruct (kfree_spec h fr pre b post p n caller Hi Ho Hc) as (h1 & E1 & Hi1 & F1 & Hd & Es & Ee & _).
  pose proof (usable h1 fr _ Hi1) as Hu. pose proof (hi_lo _ _ _ Hi1) as [Hlo _]. pose proof (hi_hi _ _ _ Hi1) as Hhi.
  pose proof (hi_ok _ _ _ Hi) as [_ [Hok _]%Forall_cons]%Forall_app. destruct (owner_bounds _ _ b p n Hok Ho) as (D & B1 & B2 & B3 & _).
  assert (Hb : heap_lo h1 + 48 ≤ p ≤ heap_hi h1).
  { assert (Hx : ∀ x, in_blk b x → heap_lo h1 ≤ x < heap_hi h1).
    { intros x Hx. apply (in_ext_ok _ _ _ _ (hi_ok _ _ _ Hi1)), (hi_cover _ _ _ Hi1), (hi_cover _ _ _ Hi). exists b. split; [set_solver|done]. }
    pose proof (Hx (b_addr b)). pose proof (Hx p). unfold in_blk, b_end in *. lia. }
  exists h1. unfold VMM_PHYSMAP_BASE in Hlo. destruct (b_kind b) as [|k|r k] eqn:Ek; unfold owned in Ho; rewrite Ek in Ho; [done|injection Ho as <- <-..].
  - destruct (freed_hdr h1 (b_addr b) (b_addr b + 48) caller') as (r & h2 & E2 & Hw & Hd2); try done; [by rewrite Ee|lia|]. by eexists _, _.
  - destruct (freed_stub h1 b r k caller') as (rp & h2 & E2 & Hd2); try done; [by rewrite Ee|lia| |by eexists _, _].
    rewrite Es, <- (br_stub _ _ _ _ (rep_in h fr pre b post Hi) r k Ek). apply hb_load_ext. intros x Hx. apply F1.
    pose proof (bo_kind _ _ _ Hok) as K. rewrite Ek in K. unfold b_end in B3. apply (payload_not_hdr h fr pre b post caller b x Hi); [set_solver|unfold in_blk, b_end; lia|lia].
Qed.
End check.
