(* ===== verification/HeapProps.v ===== *)
(** * The kernel heap: what it promises

    The physical allocator as the heap's source of frames, the heap as a
    transition system with its clients, the abstract allocator it refines,
    and what the hardening detects. *)

From stdpp Require Import strings.
From S2P Require Import Prelude PmmRange PmmSection Pmm PmmRef Frames Heap HeapMem HeapInv HeapAlloc HeapMalloc HeapFree HeapCheck.

(** ** The physical allocator as a source of runs *)

#[export] Instance pmm_page_ops : PageOps pmm := {
  ps_frame := pmm_alloc_frame;
  ps_run := pmm_alloc_contiguous
}.

(** A frame the allocator will not hand out. *)
Definition pmm_used (st : pmm) (f : Z) : Prop := ¬ (0 ≤ f ∧ frame_free st f = true).

Lemma pmm_taken st st' n limit p : pmm_client_inv st → 0 < n → zoned_alloc st st' n limit p →
  (p = 0 ∧ st' = st) ∨ taken pmm_client_inv pmm_used st st' p n.
Proof.
  intros Hc Hn [(Hp & Hd & _ & ((Hst' & Hsec & Hff) & Ho & Hfr) & _)|(-> & -> & _)]; [right|by left].
  assert (H0 : 0 ≤ p / 4096) by (apply Z.div_pos; lia). split; [done|]. split; [done|]. split; [|split; [|split]].
  - pose proof (Hfr (p / 4096 + n - 1) ltac:(lia)) as Hl. pose proof (has_section_bound st (p / 4096 + n - 1) ltac:(lia) (frame_free_has_section _ _ Hl)). pose proof (pc_reach st Hc).
    unfold PHYS_TOP. destruct Hd as [q ->]. rewrite Z.div_mul in * by lia. lia.
  - apply (frames_only_client st st' Hc); try done. intros g Hg E. rewrite Hff in E by done. unfold in_range in E. destruct (_ && _) eqn:Er; [done|by left].
  - intros f Hf Hu. apply Hu. split; [lia|]. by apply Hfr.
  - intros f. unfold pmm_used. destruct (decide (0 ≤ f)) as [Hf|Hf]; [|split; [intros _; left; lia|lia]]. rewrite Hff by done. unfold in_range.
    destruct (_ && _) eqn:Er; zbool; [split; [intros _; right; lia|intros _ []; done]|split; [by left|]]. intros [H|H]; [done|]. destruct Er; lia.
Qed.

Lemma pmm_run_taken st st' n p : pmm_client_inv st → 0 < n → pmm_alloc_contiguous st n = (st', p) →
  (p = 0 ∧ st' = st) ∨ taken pmm_client_inv pmm_used st st' p n.
Proof.
  intros Hc Hn E. pose proof Hc as [[Hst Hsd H0 _] _ _ _]. unfold pmm_alloc_contiguous, pmm_alloc_contiguous_below in E. rewrite (proj2 (Z.eqb_neq n 0)) in E by lia.
  destruct (Z.eqb_spec n 1) as [->|].
  - apply (pmm_taken st st' 1 ALL_ONES p Hc Hn). apply alloc_frame_spec; try done. by right.
  - destruct (Z.ltb_spec PMM_SECTION_FRAMES n) as [Hbig|Hok].
    + left. unfold alloc_run_nolock_below in E. rewrite (proj2 (Z.eqb_neq n 0)), (proj2 (Z.ltb_lt _ n)) in E by lia. by injection E as <- <-.
    + apply (pmm_taken st st' n ALL_ONES p Hc Hn). apply alloc_run_spec; try done. by right.
Qed.

Lemma pmm_frame_taken st st' p : pmm_client_inv st → pmm_alloc_frame st = (st', p) → (p = 0 ∧ st' = st) ∨ taken pmm_client_inv pmm_used st st' p 1.
Proof.
  intros Hc E. pose proof Hc as [[Hst Hsd H0 _] _ _ _]. apply (pmm_taken st st' 1 ALL_ONES p Hc ltac:(lia)). apply alloc_frame_spec; try done. by right.
Qed.

#[export] Instance pmm_page_laws : PageLaws pmm := {
  ps_inv := pmm_client_inv;
  ps_used := pmm_used;
  ps_frame_law := pmm_frame_taken;
  ps_run_law := pmm_run_taken
}.

(** ** Start of day *)

Section system.
Context {A : Type} {ops : PageOps A} {laws : PageLaws A}.
Implicit Types h : heap A.

(** The heap's variables before [heap_init]. *)
Record fresh h : Prop := {
  fh_lo : heap_lo h = 0;
  fh_hi : heap_hi h = 0;
  fh_totals : total_allocated h = 0 ∧ total_freed h = 0;
  fh_alive : g_heap_dead h = false;
  fh_pages : ps_inv (hpages h)
}.

Lemma heap_init_spec h seed : fresh h → is_u64 seed → ∃ h', heap_init seed h = Ret tt h' ∧
  (heap_start h' = 0 ∨ ∃ fr bl, hinv h' fr bl ∧ live bl = [] ∧ gained (hpages h) (hpages h') [] fr).
Proof.
  intros [F1 F2 [F3 F4] F5 F6] Hs. unfold heap_init. destruct (ps_frame (hpages h)) as [a' frame] eqn:Ef. destruct (ps_frame_law _ _ _ F6 Ef) as [[-> ->]|(P1 & P2 & P3 & P4 & P5 & P6)].
  { eexists. split; [reflexivity|]. by left. }
  rewrite (proj2 (Z.eqb_neq frame 0)) by lia. unfold PHYS_TOP in P3. unfold phys_to_virt. rewrite (u64_small (VMM_PHYSMAP_BASE + frame)) by (unfold VMM_PHYSMAP_BASE, is_u64; lia).
  set (nb := VMM_PHYSMAP_BASE + frame). cbv zeta. unfold heap_track_region, init_free, modify, hbind, PMM_FRAME_SIZE, HDR.
  cbn [set_pages set_start set_bounds set_mem heap_lo heap_hi g_heap_secret hmem]. rewrite F1, F2. cbn [Z.eqb orb]. rewrite (u64_small (nb + 4096)) by (unfold nb, VMM_PHYSMAP_BASE, is_u64; lia).
  rewrite (proj2 (Z.ltb_lt 0 (nb + 4096))) by (unfold nb, VMM_PHYSMAP_BASE; lia). change (4096 - 48) with 4048. eexists. split; [reflexivity|]. right.
  exists [frame / 4096], [mk_blk nb 4048 0 BFree]. destruct P2 as [q Eq]. assert (Hq : frame / 4096 = q) by (rewrite Eq; by apply Z.div_mul). split; [|split; [done|]].
  2: { intros f. cbn [hpages set_mem set_bounds set_start set_pages]. rewrite list_elem_of_singleton, P6. specialize (P5 f). split; [intros ->; right; split; [right; lia|apply P5; lia]|].
       intros [[]%elem_of_nil|[[?|?] ?]]; [done|lia]. }
  constructor; cbn [set_pages set_start set_bounds set_mem heap_start heap_lo heap_hi g_heap_secret g_heap_dead hmem hpages total_allocated total_freed]; try done.
  - split; [|done]. constructor; [|done|done]. cbn [b_addr]. rewrite init_free_load by (try done; unfold nb, VMM_PHYSMAP_BASE, is_u64; lia). done.
  - apply Forall_singleton. constructor; unfold b_end; cbn [b_addr b_size b_caller b_kind]; try done; try lia; [|by exists 253].
    exists (0xFFFF88800000000 + q * 256). unfold nb, VMM_PHYSMAP_BASE. lia.
  - intros x. rewrite in_ext_single, list_elem_of_singleton, Hq. unfold in_blk, b_end, frame_at, nb. cbn [b_addr b_size]. rewrite Eq. Z.to_euclidean_division_equations. lia.
  - split; [unfold nb; lia|]. exists (0xFFFF88800000000 + q * 256). unfold nb, VMM_PHYSMAP_BASE. lia.
  - unfold nb, PHYS_TOP. lia.
  - intros f ->%list_elem_of_singleton. apply P6. right. lia.
  - by rewrite F3, F4.
Qed.

(** ** The heap and its clients *)

Inductive hcall :=
  | HMalloc (size caller : Z)
  | HAligned (size alignment caller : Z)
  | HFree (ptr caller : Z).

Definition hexec (c : hcall) : hm Z :=
  match c with
  | HMalloc size caller => kmalloc size caller
  | HAligned size alignment caller => kmalloc_aligned size alignment caller
  | HFree ptr caller => hbind (kfree ptr caller) (λ _, hret 0)
  end.

(** What a client may ask: a size the code can round up, a power of two, a
    pointer it holds. *)
Definition legal (L : list (Z * Z)) (c : hcall) : Prop :=
  match c with
  | HMalloc size caller => 0 < size < HEAP_REQ_MAX ∧ is_u64 caller
  | HAligned size alignment caller =>
      0 < size ∧ 0 < alignment ∧ Z.land alignment (alignment - 1) = 0 ∧ size + alignment + 48 < HEAP_REQ_MAX ∧ is_u64 caller
  | HFree ptr caller => ptr ∈ L.*1 ∧ is_u64 caller
  end.

(** The allocations held after the call answered [v]. *)
Definition held (L : list (Z * Z)) (c : hcall) (v : Z) : list (Z * Z) :=
  match c with
  | HMalloc size _ | HAligned size _ _ => if v =? 0 then L else (v, size) :: L
  | HFree ptr _ => filter (λ x, x.1 ≠ ptr) L
  end.

Definition in_held (L : list (Z * Z)) (x : Z) : Prop := ∃ p n, (p, n) ∈ L ∧ p ≤ x < p + n.

(** The abstract allocator: allocations that do not overlap, whose bytes no
    call on another allocation changes. *)
Inductive heap_spec (L : list (Z * Z)) (m : mem) : hcall → Z → mem → Prop :=
  | hsp_malloc size caller p m' : p ≠ 0 → (16 | p) → (∀ q k, (q, k) ∈ L → p + size ≤ q ∨ q + k ≤ p) →
      (∀ x, in_held L x → m' x = m x) → heap_spec L m (HMalloc size caller) p m'
  | hsp_malloc_fail size caller : heap_spec L m (HMalloc size caller) 0 m
  | hsp_aligned size alignment caller p m' : p ≠ 0 → (alignment | p) → (∀ q k, (q, k) ∈ L → p + size ≤ q ∨ q + k ≤ p) →
      (∀ x, in_held L x → m' x = m x) → heap_spec L m (HAligned size alignment caller) p m'
  | hsp_aligned_fail size alignment caller : heap_spec L m (HAligned size alignment caller) 0 m
  | hsp_free p caller m' : p ∈ L.*1 → (∀ x, in_held (held L (HFree p caller) 0) x → m' x = m x) → heap_spec L m (HFree p caller) 0 m'.

(** The heap, the frames it took and the allocations its clients hold. *)
Record hsys := mk_hs {
  hs_heap : heap A;
  hs_frames : list Z;
  hs_live : list (Z * Z)
}.

(** Clients call, write to what they hold and to memory that is not the
    heap's; the rest of the kernel allocates and frees other frames. *)
Inductive hstep : hsys → hsys → Prop :=
  | hst_call h fr L c v h' fr' : legal L c → hexec c h = Ret v h' → gained (hpages h) (hpages h') fr fr' →
      hstep (mk_hs h fr L) (mk_hs h' fr' (held L c v))
  | hst_write h fr L m' : (∀ x, m' x ≠ hmem h x → in_held L x ∨ frame_at x ∉ fr) → hstep (mk_hs h fr L) (mk_hs (set_mem h m') fr L)
  | hst_pages h fr L a' : ps_inv a' → (∀ f, f ∈ fr → ps_used a' f) → hstep (mk_hs h fr L) (mk_hs (set_pages h a') fr L).

Definition booted (s : hsys) : Prop := ∃ h0 seed, fresh h0 ∧ is_u64 seed ∧ heap_init seed h0 = Ret tt (hs_heap s) ∧
  heap_start (hs_heap s) ≠ 0 ∧ hs_live s = [] ∧ gained (hpages h0) (hpages (hs_heap s)) [] (hs_frames s).

Definition hsys_ok (s : hsys) : Prop := ∃ bl, hinv (hs_heap s) (hs_frames s) bl ∧ live bl ≡ₚ hs_live s.

(** ** The invariant of the system *)

Lemma hinv_frames h fr fr' bl : (∀ f, f ∈ fr ↔ f ∈ fr') → hinv h fr bl → hinv h fr' bl.
Proof. intros E []. constructor; try done; intros; [by rewrite <- E|]. by apply hi_used, E. Qed.

Lemma gained_same (a a' : A) fr f1 f2 : gained a a' fr f1 → gained a a' fr f2 → ∀ f, f ∈ f1 ↔ f ∈ f2.
Proof. intros H1 H2 f. by rewrite (H1 f), (H2 f). Qed.

Lemma booted_ok s : booted s → hsys_ok s.
Proof.
  intros (h0 & seed & Hf & Hs & E & Hn & Hl & Hg). destruct (heap_init_spec h0 seed Hf Hs) as (h' & E' & H). rewrite E in E'. injection E' as <-.
  destruct H as [?|(fr & bl & Hi & El & Hg')]; [done|]. exists bl. rewrite El, Hl. split; [|done]. apply (hinv_frames _ fr); [|done]. by apply (gained_same _ _ [] _ _ Hg').
Qed.

Lemma held_user bl L x : live bl ≡ₚ L → user_byte bl x ↔ in_held L x.
Proof. intros E. unfold user_byte, in_held. by setoid_rewrite E. Qed.

(** Owners of different blocks are clear of each other. *)
Lemma live_apart lo hi bl b p n q k : Forall (blk_ok lo hi) (b :: bl) → Forall (apart b) bl → owned b = Some (p, n) → (q, k) ∈ live bl → p + n ≤ q ∨ q + k ≤ p.
Proof.
  intros [Hb Hl]%Forall_cons Ha Ho (c & Hc & Hq)%list_elem_of_omap. rewrite Forall_forall in Ha, Hl. specialize (Ha c Hc).
  destruct (owner_bounds _ _ b p n Hb Ho) as (_ & ? & ? & ? & _). destruct (owner_bounds _ _ c q k (Hl c Hc) Hq) as (_ & ? & ? & ? & _).
  destruct Ha; lia.
Qed.

(** The block of a held pointer, and what the others hold. *)
Lemma live_split h fr bl p n : hinv h fr bl → (p, n) ∈ live bl → ∃ pre b post, bl = pre ++ b :: post ∧ owned b = Some (p, n) ∧
  ∀ q k, (q, k) ∈ live (pre ++ post) → p + n ≤ q ∨ q + k ≤ p.
Proof.
  intros Hi (b & Hb & Ho)%list_elem_of_omap. apply list_elem_of_split in Hb as (pre & post & ->). exists pre, b, post. split; [done|]. split; [done|].
  pose proof (hi_ok _ _ _ Hi) as [K1 [K2 K3]%Forall_cons]%Forall_app. pose proof (hi_apart _ _ _ Hi) as (_ & [A1 _] & A2)%apart_app. intros q k Hq.
  apply (live_apart (heap_lo h) (heap_hi h) (pre ++ post) b); try done; [apply Forall_cons; split; [done|by apply Forall_app]|].
  apply Forall_app. split; [|done]. rewrite Forall_forall. intros c Hc. destruct (A2 c b Hc ltac:(set_solver)); [by right|by left].
Qed.

Lemma owned_pos h fr bl q k : hinv h fr bl → (q, k) ∈ live bl → 0 < k.
Proof.
  intros Hi (b & Hb & Ho)%list_elem_of_omap. pose proof (hi_ok _ _ _ Hi) as Hok. rewrite Forall_forall in Hok. by destruct (owner_bounds _ _ b q k (Hok b Hb) Ho) as (_ & _ & ? & _).
Qed.

(** A grant as a step of the abstract allocator. *)
Lemma granted_clear h h' fr fr' bl bl' p n : hinv h fr bl → granted h h' fr fr' bl bl' p n → ∀ q k, (q, k) ∈ live bl → p + n ≤ q ∨ q + k ≤ p.
Proof.
  intros Hi [G1 G2 _ _ _] q k Hq. destruct (live_split h' fr' bl' p n G1) as (pre & b & post & -> & Ho & Hc); [rewrite G2; set_solver|]. apply Hc.
  assert (Ep : live (pre ++ b :: post) ≡ₚ (p, n) :: live (pre ++ post)).
  { rewrite !live_app, live_cons, Ho. by rewrite Permutation_middle. }
  rewrite Ep in G2. apply Permutation_cons_inv in G2. by rewrite G2.
Qed.

Lemma filter_id {X} (P : X → Prop) `{!∀ x, Decision (P x)} (l : list X) : (∀ x, x ∈ l → P x) → filter P l = l.
Proof.
  induction l as [|y l IH]; intros Hall; [done|]. rewrite filter_cons_True by (apply Hall; set_solver). f_equal. apply IH. intros x Hx. apply Hall. set_solver.
Qed.

(** Releasing a held pointer. *)
Lemma free_step h fr bl p caller : hinv h fr bl → p ∈ (live bl).*1 → is_u64 caller → ∃ h' bl', kfree p caller h = Ret tt h' ∧ hinv h' fr bl' ∧
  live bl' = filter (λ x, x.1 ≠ p) (live bl) ∧ coalesced bl' ∧ (∀ x, user_byte bl' x ∨ ¬ in_ext bl x → hmem h' x = hmem h x) ∧
  g_heap_expect h' = g_heap_expect h ∧ hpages h' = hpages h.
Proof.
  intros Hi Hp Hc. apply list_elem_of_fmap in Hp as ([p' n] & -> & Hp). cbn [fst]. destruct (live_split h fr bl p' n Hi Hp) as (pre & b & post & -> & Ho & Hcl).
  destruct (kfree_spec h fr pre b post p' n caller Hi Ho Hc) as (h' & E & Hi' & F & _ & _ & Ee & Ep). exists h', (after_free pre b post caller).
  assert (Hl : live (after_free pre b post caller) = live (pre ++ post)).
  { unfold after_free. destruct (pre ++ freed b caller :: post) as [|c l] eqn:El; [by destruct pre|]. rewrite merge_live, <- El, !live_app. done. }
  assert (Hco : coalesced (after_free pre b post caller)) by (unfold after_free; destruct (pre ++ freed b caller :: post); [done|apply merge_coalesced]).
  split; [done|]. split; [done|]. split; [|split; [done|split; [|done]]].
  - rewrite Hl. pose proof (owned_pos h fr _ p' n Hi Hp) as Hn. assert (Hne : ∀ x, x ∈ live (pre ++ post) → x.1 ≠ p').
    { intros [q k] Hq. cbn. intros ->. pose proof (owned_pos h fr (pre ++ b :: post) p' k Hi) as Hk. destruct (Hcl p' k Hq); [lia|]. rewrite live_app in Hq. rewrite live_app, live_cons, Ho in Hk. specialize (Hk ltac:(set_solver)). lia. }
    rewrite !live_app, live_cons, Ho, filter_app, filter_cons_False by (cbn; tauto). rewrite live_app in Hne.
    rewrite !filter_id; [done|..]; intros x Hx; apply Hne; set_solver.
  - intros x Hx. apply F. destruct Hx as [Hx|Hx].
    + assert (Hu : user_byte (pre ++ post) x) by (unfold user_byte in *; by rewrite Hl in Hx). pose proof (hi_ok _ _ _ Hi) as [K1 [_ K3]%Forall_cons]%Forall_app.
      destruct (user_outside _ _ (pre ++ post) x ltac:(by apply Forall_app) Hu) as (c & Hc' & Hcx & H48 & _). apply (payload_not_hdr h fr pre b post caller c x Hi); [set_solver|done|done].
    + intros (c & Hc' & _ & Hcx). apply Hx. assert (∃ c', c' ∈ pre ++ b :: post ∧ b_addr c' = b_addr c ∧ b_size c' = b_size c) as (c' & H1 & H2 & H3).
      { apply elem_of_app in Hc' as [?|[->|?]%elem_of_cons]; [exists c|exists b|exists c]; (split; [set_solver|done]). }
      exists c'. split; [done|]. pose proof (hi_ok _ _ _ Hi) as Hok. rewrite Forall_forall in Hok. pose proof (bo_pos _ _ _ (Hok c' H1)). unfold in_blk, b_end. lia.
Qed.

(** What a grant and a refusal mean for the clients. *)
Lemma grant_step h fr bl L h' fr1 bl' p n : hinv h fr bl → live bl ≡ₚ L → p ≠ 0 → granted h h' fr fr1 bl bl' p n →
  (∀ q k, (q, k) ∈ L → p + n ≤ q ∨ q + k ≤ p) ∧ (∀ x, in_held L x → hmem h' x = hmem h x) ∧
  ∀ fr', gained (hpages h) (hpages h') fr fr' → hsys_ok (mk_hs h' fr' (if p =? 0 then L else (p, n) :: L)).
Proof.
  intros Hi Hl H0 G. split; [|split].
  - intros q k Hq. apply (granted_clear h h' fr fr1 bl bl' p n Hi G). by rewrite Hl.
  - intros x Hx. apply (gr_mem _ _ _ _ _ _ _ _ G). left. by apply (held_user bl L).
  - intros fr' Hg. rewrite (proj2 (Z.eqb_neq p 0)) by done. exists bl'. cbn [hs_heap hs_frames hs_live]. split; [|by rewrite (gr_live _ _ _ _ _ _ _ _ G), Hl].
    apply (hinv_frames _ fr1); [|apply G]. by apply (gained_same _ _ fr _ _ (gr_frames _ _ _ _ _ _ _ _ G)).
Qed.

Lemma same_pages_ok h fr bl L fr' : hinv h fr bl → live bl ≡ₚ L → gained (hpages h) (hpages h) fr fr' → hsys_ok (mk_hs h fr' L).
Proof. intros Hi Hl Hg. exists bl. split; [|done]. apply (hinv_frames _ fr); [|done]. intros f. specialize (Hg f). tauto. Qed.

(** Every legal call of a sound system returns, keeps it sound and does what
    the abstract allocator may do. *)
Lemma call_step h fr L c : hsys_ok (mk_hs h fr L) → legal L c → ∃ v h', hexec c h = Ret v h' ∧ heap_spec L (hmem h) c v (hmem h') ∧
  ∀ fr', gained (hpages h) (hpages h') fr fr' → hsys_ok (mk_hs h' fr' (held L c v)).
Proof.
  intros (bl & Hi & Hl) Hc. cbn [hs_heap hs_frames hs_live] in *. destruct c as [size caller|size alignment caller|p caller]; cbn [hexec legal held] in *.
  - destruct Hc as [Hs Hc]. destruct (kmalloc_spec h fr bl size caller Hi Hs Hc) as [[E _]|(p & h' & fr1 & bl' & E & H0 & Hd & G)].
    + exists 0, h. split; [done|]. split; [apply hsp_malloc_fail|]. intros fr'. by apply (same_pages_ok h fr bl).
    + exists p, h'. destruct (grant_step h fr bl L h' fr1 bl' p size Hi Hl H0 G) as (G1 & G2 & G3). split; [done|]. split; [by apply hsp_malloc|done].
  - destruct Hc as (Hs & Hal & Hp2 & Hm & Hc). destruct (kmalloc_aligned_spec h fr bl size alignment caller Hi Hs Hal Hp2 Hm Hc) as [[E _]|(p & h' & fr1 & bl' & E & H0 & Hd & _ & G)].
    + exists 0, h. split; [done|]. split; [apply hsp_aligned_fail|]. intros fr'. by apply (same_pages_ok h fr bl).
    + exists p, h'. destruct (grant_step h fr bl L h' fr1 bl' p size Hi Hl H0 G) as (G1 & G2 & G3). split; [done|]. split; [by apply hsp_aligned|done].
  - destruct Hc as [Hp Hc]. destruct (free_step h fr bl p caller Hi) as (h' & bl' & E & Hi' & Hl' & _ & F & _ & Ep); [by rewrite Hl|done|].
    exists 0, h'. rewrite (bind_ret _ _ _ _ _ E). split; [done|]. assert (Hf : live bl' ≡ₚ filter (λ x, x.1 ≠ p) L) by (by rewrite Hl', Hl). split.
    + constructor; [done|]. intros x Hx. apply F. left. by apply (held_user bl' _ x Hf).
    + intros fr' Hg. rewrite <- Ep in Hg. by apply (same_pages_ok h' fr bl').
Qed.

Lemma hstep_ok s s' : hsys_ok s → hstep s s' → hsys_ok s'.
Proof.
  intros Hs St. destruct St as [h fr L c v h' fr' Hc E Hg|h fr L m' Hw|h fr L a' Ha Hu].
  - destruct (call_step h fr L c Hs Hc) as (v1 & h1 & E1 & _ & H). rewrite E in E1. injection E1 as <- <-. by apply H.
  - destruct Hs as (bl & Hi & Hl). cbn [hs_heap hs_frames hs_live] in *. exists bl. split; [|done]. cbn [hs_heap hs_frames]. pose proof Hi as [].
    constructor; cbn [set_mem heap_start g_heap_secret hmem heap_lo heap_hi g_heap_dead hpages total_allocated total_freed]; try done.
    apply (lseg_user _ (hmem h) m' _ _ _ _ hi_ok hi_apart); [|done]. intros x Hx Hn. destruct (decide (m' x = hmem h x)) as [|Hne]; [done|exfalso].
    destruct (Hw x Hne) as [Hu|Hf]; [apply Hn; by apply (held_user bl L)|]. apply Hf. by apply hi_cover.
  - destruct Hs as (bl & Hi & Hl). cbn [hs_heap hs_frames hs_live] in *. exists bl. split; [|done]. destruct Hi. constructor; done.
Qed.

Lemma reach_ok s s' : booted s → rtc hstep s s' → hsys_ok s'.
Proof. intros Hb%booted_ok H. induction H as [|s s1 s2 H1 _ IH]; [done|]. apply IH. by apply (hstep_ok s). Qed.
End system.

(** ** A heap on the physical allocator *)

Definition demo_h0 : heap pmm := mk_heap (λ _, 0) 0 0 0 0 0 0 false false 0 None pmm_demo.
Definition heap_of {X} (o : out pmm X) (d : heap pmm) : heap pmm := match o with Ret _ h => h | _ => d end.
Definition demo_h1 : heap pmm := heap_of (heap_init 77 demo_h0) demo_h0.
Definition demo_h2 : heap pmm := heap_of (kmalloc 100 5 demo_h1) demo_h1.
Definition demo_p : Z := VMM_PHYSMAP_BASE + 0x10003c030.

Definition returned {X} (o : out pmm X) : option X := match o with Ret x _ => Some x | _ => None end.

Lemma returned_eq {X} (o : out pmm X) d x : returned o = Some x → o = Ret x (heap_of o d).
Proof. destruct o; cbn; congruence. Qed.

Lemma ret_inj {X} (x x' : X) (h h' : heap pmm) : Ret x h = Ret x' h' → x = x' ∧ h = h'.
Proof. by intros [= -> ->]. Qed.

Lemma demo_fresh : fresh demo_h0.
Proof. constructor; try done. apply pmm_demo_client. Qed.

Lemma demo_init : heap_init 77 demo_h0 = Ret tt demo_h1.
Proof.
  assert (E : returned (heap_init 77 demo_h0) = Some tt) by (vm_compute; reflexivity). exact (returned_eq _ demo_h0 tt E).
Qed.

Lemma demo_start : heap_start demo_h1 = VMM_PHYSMAP_BASE + 0x10003c000.
Proof. vm_compute. reflexivity. Qed.

Lemma demo_malloc : kmalloc 100 5 demo_h1 = Ret demo_p demo_h2.
Proof.
  assert (E : returned (kmalloc 100 5 demo_h1) = Some demo_p) by (vm_compute; reflexivity). exact (returned_eq _ demo_h1 demo_p E).
Qed.

#[local] Opaque demo_h1 demo_h2.

Lemma demo_h1_ok : ∃ fr bl, hinv demo_h1 fr bl ∧ live bl = [] ∧ gained pmm_demo (hpages demo_h1) [] fr.
Proof.
  destruct (heap_init_spec demo_h0 77 demo_fresh ltac:(unfold is_u64; lia)) as (h' & E & H). rewrite demo_init in E. apply ret_inj in E as [_ <-].
  destruct H as [H|H]; [|exact H]. rewrite demo_start in H. discriminate.
Qed.

Lemma demo_granted fr bl : hinv demo_h1 fr bl → ∃ fr' bl', granted demo_h1 demo_h2 fr fr' bl bl' demo_p 100.
Proof.
  intros Hi. destruct (kmalloc_spec demo_h1 fr bl 100 5 Hi) as [[E _]|(p & h' & fr' & bl' & E & _ & _ & G)];
    [unfold HEAP_REQ_MAX; lia|unfold is_u64; lia|rewrite demo_malloc in E; by apply ret_inj in E as [? _]|].
  rewrite demo_malloc in E. apply ret_inj in E as [<- <-]. by exists fr', bl'.
Qed.

Lemma demo_expect : g_heap_expect demo_h1 = false.
Proof. vm_compute. reflexivity. Qed.

Lemma demo_h2_ok : ∃ fr bl, hinv demo_h2 fr bl ∧ (demo_p, 100) ∈ live bl ∧ g_heap_expect demo_h2 = false.
Proof.
  destruct demo_h1_ok as (fr & bl & Hi & _). destruct (demo_granted fr bl Hi) as (fr' & bl' & [G1 G2 _ G4 _]). exists fr', bl'. split; [exact G1|].
  split; [rewrite G2; apply elem_of_cons; by left|]. rewrite G4. apply demo_expect.
Qed.

(** ** The properties *)

(** C11. The heap refines the abstract allocator.  From [heap_init] on, after
    any sequence of legal calls, of writes by clients to what they hold and by
    others outside the heap, and of frames allocated and freed elsewhere, the
    next legal call returns: it neither panics nor runs for ever.  An
    allocation is aligned and overlaps none that is held; a call changes no
    byte of an allocation that stays held. *)
Theorem heap_refines (s s' : hsys (A := pmm)) (c : hcall) : booted s → rtc hstep s s' → legal (hs_live s') c →
  ∃ v h', hexec c (hs_heap s') = Ret v h' ∧ heap_spec (hs_live s') (hmem (hs_heap s')) c v (hmem h').
Proof.
  intros Hb Hr Hc. destruct s' as [h fr L]. destruct (call_step h fr L c (reach_ok s _ Hb Hr) Hc) as (v & h' & E & Hs & _). by exists v, h'.
Qed.

(** An allocation, then its release. *)
Lemma heap_refines_witness : ∃ v h', hexec (HFree demo_p 9) demo_h2 = Ret v h' ∧ heap_spec [(demo_p, 100)] (hmem demo_h2) (HFree demo_p 9) v (hmem h').
Proof.
  destruct demo_h1_ok as (fr & bl & Hi & _ & Hg). destruct (demo_granted fr bl Hi) as (fr' & bl' & G).
  apply (heap_refines (mk_hs demo_h1 fr []) (mk_hs demo_h2 fr' [(demo_p, 100)]) (HFree demo_p 9)).
  - exists demo_h0, 77. split; [apply demo_fresh|]. split; [unfold is_u64; lia|]. split; [apply demo_init|]. split; [cbn [hs_heap]; rewrite demo_start; discriminate|]. split; [reflexivity|]. exact Hg.
  - apply rtc_once. apply (hst_call demo_h1 fr [] (HMalloc 100 5) demo_p demo_h2 fr'); [split; [unfold HEAP_REQ_MAX; lia|unfold is_u64; lia]|exact demo_malloc|exact (gr_frames _ _ _ _ _ _ _ _ G)].
  - split; [apply list_elem_of_singleton; reflexivity|unfold is_u64; lia].
Defined.

(** [kmalloc] on a sound heap grants [size] bytes at a 16-byte aligned
    address: the heap stays sound, the allocations are the old ones and the
    new one, and no owned byte and no byte outside the heap changes.  It
    answers NULL, changing nothing, only when no free block is large enough
    and the physical allocator has no run for a new region. *)
Theorem kmalloc_correct (h : heap pmm) fr bl size caller : hinv h fr bl → 0 < size < HEAP_REQ_MAX → is_u64 caller →
  (kmalloc size caller h = Ret 0 h ∧ exhausted h bl size) ∨
  ∃ p h' fr' bl', kmalloc size caller h = Ret p h' ∧ p ≠ 0 ∧ (16 | p) ∧ granted h h' fr fr' bl bl' p size.
Proof. apply kmalloc_spec. Qed.

Lemma kmalloc_correct_witness : ∃ fr bl, (kmalloc 100 5 demo_h1 = Ret 0 demo_h1 ∧ exhausted demo_h1 bl 100) ∨
  ∃ p h' fr' bl', kmalloc 100 5 demo_h1 = Ret p h' ∧ p ≠ 0 ∧ (16 | p) ∧ granted demo_h1 h' fr fr' bl bl' p 100.
Proof.
  destruct demo_h1_ok as (fr & bl & Hi & _). exists fr, bl. apply (kmalloc_correct demo_h1 fr bl 100 5 Hi); [unfold HEAP_REQ_MAX; lia|unfold is_u64; lia].
Defined.

(** [kfree] of a held pointer on a sound heap: the heap stays sound on the
    same frames, exactly that allocation is gone, no two free blocks that
    touch are left as neighbours, and no byte of another allocation or
    outside the heap changes. *)
Theorem kfree_correct (h : heap pmm) fr bl p caller : hinv h fr bl → p ∈ (live bl).*1 → is_u64 caller →
  ∃ h' bl', kfree p caller h = Ret tt h' ∧ hinv h' fr bl' ∧ live bl' = filter (λ x, x.1 ≠ p) (live bl) ∧ coalesced bl' ∧
  ∀ x, user_byte bl' x ∨ ¬ in_ext bl x → hmem h' x = hmem h x.
Proof. intros Hi Hp Hc. destruct (free_step h fr bl p caller Hi Hp Hc) as (h' & bl' & E & Hi' & Hl & Hco & F & _). by exists h', bl'. Qed.

Lemma kfree_correct_witness : ∃ h' bl', kfree demo_p 9 demo_h2 = Ret tt h' ∧ coalesced bl'.
Proof.
  destruct demo_h2_ok as (fr & bl & Hi & Hp & _).
  destruct (kfree_correct demo_h2 fr bl demo_p 9 Hi) as (h' & bl' & E & _ & _ & Hco & _); [apply list_elem_of_fmap; exists (demo_p, 100); split; [reflexivity|exact Hp]|unfold is_u64; lia|].
  exists h', bl'. split; [exact E|exact Hco].
Defined.

(** C23. What [kfree] detects on a heap that was sound: a client that wrote past
    the bytes it asked for and changed the canary panics the kernel when it
    frees the block, with the block named; freeing a pointer twice panics,
    aligned allocations included. *)
Theorem kfree_detects (h : heap pmm) fr bl p n m' caller caller' : hinv h fr bl → (p, n) ∈ live bl → g_heap_expect h = false → is_u64 caller →
  (∀ x, ¬ (p ≤ x < p + n + 8) → m' x = hmem h x) → rd64 m' (p + n) ≠ rd64 (hmem h) (p + n) →
  (∃ r h', kfree p caller (set_mem h m') = Panic r h' ∧ r_what r = "heap buffer overflow (tail canary smashed)"%string ∧ g_heap_dead h' = true) ∧
  (∃ h1 r h2, kfree p caller h = Ret tt h1 ∧ kfree p caller' h1 = Panic r h2 ∧ g_heap_dead h2 = true).
Proof.
  intros Hi Hp He Hc Hf Hne. destruct (live_split h fr bl p n Hi Hp) as (pre & b & post & -> & Ho & _). split.
  - destruct (overflow_spec h fr pre b post p n m' caller Hi Ho He Hf Hne) as (r & h' & E & Hw & _ & Hd). by exists r, h'.
  - destruct (double_free_spec h fr pre b post p n caller caller' Hi Ho He Hc) as (h1 & r & h2 & E1 & E2 & Hd & _). by exists h1, r, h2.
Qed.

(** One byte past the 100 asked for. *)
Lemma kfree_detects_witness : let m' := λ x, if x =? demo_p + 100 then hmem demo_h2 x + 1 else hmem demo_h2 x in
  (∃ r h', kfree demo_p 9 (set_mem demo_h2 m') = Panic r h' ∧ r_what r = "heap buffer overflow (tail canary smashed)"%string ∧ g_heap_dead h' = true) ∧
  (∃ h1 r h2, kfree demo_p 9 demo_h2 = Ret tt h1 ∧ kfree demo_p 9 h1 = Panic r h2 ∧ g_heap_dead h2 = true).
Proof.
  intros m'. destruct demo_h2_ok as (fr & bl & Hi & Hp & He). apply (kfree_detects demo_h2 fr bl demo_p 100 m' 9 9 Hi Hp He); [unfold is_u64; lia| |].
  - intros x Hx. unfold m'. rewrite (proj2 (Z.eqb_neq x _)) by lia. reflexivity.
  - apply Z.eqb_neq. vm_compute. reflexivity.
Defined.

(** C24. The keyed check of a header has no blind spot for a single field: if
    one word of the header of any block of a sound heap (magic and flags,
    size, request, link, caller, or the check itself) is overwritten with
    another value, [heap_check] panics and names that block. *)
Theorem header_smash_detected (h : heap pmm) fr bl b m' caller : hinv h fr bl → b ∈ bl → g_heap_expect h = false →
  (∀ x, ¬ (b_addr b ≤ x < b_addr b + 48) → m' x = hmem h x) → one_word (hb_load (hmem h) (b_addr b)) (hb_load m' (b_addr b)) →
  ∃ r h', heap_check caller (set_mem h m') = Panic r h' ∧ r_block r = b_addr b ∧ g_heap_dead h' = true.
Proof. intros Hi (pre & post & ->)%list_elem_of_split. by apply (smash_spec h fr pre b post). Qed.

(** The size field of the first block, as the boot self test smashes it. *)
Lemma header_smash_detected_witness : let a := VMM_PHYSMAP_BASE + 0x10003c000 in
  ∃ r h', heap_check 9 (set_mem demo_h2 (put_size (hmem demo_h2) a 0x10070)) = Panic r h' ∧ r_block r = a ∧ g_heap_dead h' = true.
Proof.
  intros a. destruct demo_h2_ok as (fr & bl & Hi & Hp & He). destruct bl as [|b l]; [by destruct (hi_ne _ _ _ Hi)|].
  assert (Ea : b_addr b = a) by (rewrite <- (hi_start _ _ _ Hi : heap_start demo_h2 = b_addr b); vm_compute; reflexivity).
  rewrite <- Ea.
  apply (header_smash_detected demo_h2 fr (b :: l) b); [exact Hi|apply elem_of_cons; by left|exact He| |].
  - intros x Hx. apply put_out. lia.
  - rewrite Ea. apply ow_size; vm_compute; congruence.
Defined.

(** [heap_check] accepts every sound heap: it walks the whole list, finds
    no problem and changes nothing; it counts the blocks, and the bytes in
    use it finds are what the two running totals say. *)
Theorem heap_check_correct (h : heap pmm) fr bl caller : hinv h fr bl →
  heap_check caller h = Ret 0 h ∧
  ∃ st, heap_check_locked caller h = Ret (0, Some st) h ∧ s_blocks st = zlen bl ∧
  u64 (s_used_bytes st) = u64 (used_bytes bl) ∧ u64 (s_used_bytes st) = u64 (total_allocated h - total_freed h).
Proof.
  intros Hi. pose proof (heap_check_spec h fr bl caller Hi) as E. split.
  - unfold heap_check. rewrite (usable h fr bl Hi), (bind_ret _ _ _ _ _ E). done.
  - exists (stats bl). pose proof (check_room h fr bl Hi). unfold stats. rewrite stats_used, stats_blocks, (hi_totals _ _ _ Hi) by (cbn [s_blocks]; lia). done.
Qed.

Lemma heap_check_correct_witness : heap_check 9 demo_h2 = Ret 0 demo_h2.
Proof. destruct demo_h2_ok as (fr & bl & Hi & _). apply (heap_check_correct demo_h2 fr bl 9 Hi). Defined.

(** ** A request the rounding does not cover

    For sizes within 4166 bytes of the top of the address space the number
    of frames wraps around: a region of one frame is taken for a request of
    almost 2^64 bytes, the call succeeds, and the header of the rest is
    written over the block's own. *)
Lemma kmalloc_wraps : ∃ p h', kmalloc (2 ^ 64 - 41) 5 demo_h2 = Ret p h' ∧ p ≠ 0 ∧ ∃ r h2, heap_check 9 h' = Panic r h2.
Proof.
  assert (E : match kmalloc (2 ^ 64 - 41) 5 demo_h2 with Ret p h => negb (p =? 0) && match heap_check 9 h with Panic _ _ => true | _ => false end | _ => false end = true)
    by (vm_compute; reflexivity).
  destruct (kmalloc (2 ^ 64 - 41) 5 demo_h2) as [p h'| |]; [|done..]. zbool. exists p, h'. split; [done|]. split; [done|]. destruct (heap_check 9 h') as [|r h2|]; [done| |done]. by exists r, h2.
Qed.
