(* ===== verification/NetBase.v ===== *)
(** * Tables, wire bytes and the Internet checksum

    What the layers of the network stack share: the search of a fixed table for
    its first entry of a kind, big-endian and octet-order fields, and
    [net_checksum] of [src/net/net_core.c] with its law, that a message which
    carries its checksum sums to zero. *)

From S2P Require Import Prelude.

(** ** Tables *)

Fixpoint search {A} (P : Z → A → bool) (l : list A) (i : Z) : option Z :=
  match l with
  | [] => None
  | x :: l => if P i x then Some i else search P l (i + 1)
  end.

(** [for (i = 0; i < N; i++) if (P(&t[i])) ...; break;] *)
Definition first {A} (P : A → bool) (l : list A) : option Z := search (λ _, P) l 0.

Definition count {A} (P : A → bool) (l : list A) : Z := zlen (filter P l).

Section tables.
Context {A : Type} `{Inhabited A}.
Implicit Types (P : A → bool) (l : list A).

Lemma search_some Q l i j : search Q l i = Some j →
  i ≤ j < i + zlen l ∧ Q j l.[j - i] = true ∧ ∀ k, i ≤ k < j → Q k l.[k - i] = false.
Proof.
  revert i. induction l as [|x l IH]; intros i; [done|]. cbn [search length]. destruct (Q i x) eqn:E.
  - intros [= <-]. rewrite Z.sub_diag. split_and!; [lia | lia | done | lia].
  - intros (Hj & HQ & Hk)%IH. assert (Hc : ∀ k, i < k → (x :: l).[k - i] = l.[k - (i + 1)]).
    { intros k Hk'. unfold aget. replace (Z.to_nat (k - i)) with (S (Z.to_nat (k - (i + 1)))) by lia. done. }
    split_and!; [lia | lia | rewrite Hc by lia; done |]. intros k Hk'. destruct (decide (k = i)) as [->|].
    + by rewrite Z.sub_diag.
    + rewrite Hc by lia. apply Hk. lia.
Qed.

Lemma search_none Q l i k : search Q l i = None → i ≤ k < i + zlen l → Q k l.[k - i] = false.
Proof.
  revert i. induction l as [|x l IH]; intros i; cbn [search length]; [lia|]. destruct (Q i x) eqn:E; [done|].
  intros Hn Hk. destruct (decide (k = i)) as [->|]; [by rewrite Z.sub_diag|].
  pose proof (IH _ Hn ltac:(lia)) as Hf. unfold aget in *. replace (Z.to_nat (k - i)) with (S (Z.to_nat (k - (i + 1)))) by lia. done.
Qed.

Lemma first_some P l j : first P l = Some j → 0 ≤ j < zlen l ∧ P l.[j] = true ∧ ∀ k, 0 ≤ k < j → P l.[k] = false.
Proof.
  intros (Hj & HP & Hk)%search_some. rewrite Z.sub_0_r in HP. split_and!; [lia | lia | done |].
  intros k Hk'. specialize (Hk k ltac:(lia)). by rewrite Z.sub_0_r in Hk.
Qed.

Lemma first_none P l k : first P l = None → 0 ≤ k < zlen l → P l.[k] = false.
Proof. intros Hn Hk. pose proof (search_none _ _ _ k Hn ltac:(lia)) as Hf. by rewrite Z.sub_0_r in Hf. Qed.

Lemma first_intro P l j : 0 ≤ j < zlen l → P l.[j] = true → (∀ k, 0 ≤ k < j → P l.[k] = false) → first P l = Some j.
Proof.
  intros Hj HP Hk. destruct (first P l) as [i|] eqn:E.
  - apply first_some in E as (Hi & HPi & Hki). destruct (Z.lt_total i j) as [Hlt|[->|Hgt]]; [|done|].
    + rewrite Hk in HPi by lia. done.
    + rewrite Hki in HP by lia. done.
  - rewrite (first_none _ _ _ E Hj) in HP. done.
Qed.

(** The entry when it is the only one of its kind. *)
Lemma first_unique P l j : 0 ≤ j < zlen l → P l.[j] = true →
  (∀ k, 0 ≤ k < zlen l → P l.[k] = true → k = j) → first P l = Some j.
Proof.
  intros Hj HP Hu. apply first_intro; [done..|]. intros k Hk. destruct (P l.[k]) eqn:E; [|done].
  apply Hu in E; lia.
Qed.

Lemma count_pos P l k : 0 ≤ k < zlen l → P l.[k] = true → 0 < count P l.
Proof.
  intros Hk HP. unfold count. assert (Hin : l.[k] ∈ filter P l).
  { apply list_elem_of_filter. split; [by rewrite HP|]. eapply list_elem_of_lookup_2, aget_lookup, Hk. }
  destruct (filter P l); [by apply not_elem_of_nil in Hin | cbn; lia].
Qed.

Lemma count_zcount P l : count P l = zcount (λ i, P l.[i]) (length l).
Proof.
  unfold count. induction l as [|x l IH] using rev_ind; [done|]. rewrite filter_app, !length_app, Nat.add_1_r.
  cbn [zcount]. rewrite Nat2Z.inj_add, IH. f_equal.
  - apply zcount_ext. intros i Hi. by rewrite aget_app_l.
  - rewrite aget_app_r by lia. rewrite Z.sub_diag. change ([x].[0]) with x. rewrite filter_cons, filter_nil.
    destruct (P x) eqn:E; case_decide; simpl; done.
Qed.

(** A table entry replaced by one that is no longer (or newly) of the kind. *)
Lemma count_set P l j x : 0 ≤ j < zlen l → count P l.[j <- x] = count P l - b2z (P l.[j]) + b2z (P x).
Proof.
  intros Hj. rewrite !count_zcount, aset_length. destruct (P l.[j]) eqn:E1, (P x) eqn:E2; cbn [b2z].
  1,4: rewrite Z.sub_add || rewrite Z.sub_0_r, Z.add_0_r; apply zcount_ext; intros i Hi; rewrite aget_aset by lia; destruct (Z.eqb_spec j i) as [<-|]; congruence.
  - rewrite Z.add_0_r. apply (zcount_remove _ _ _ j); [lia | done |]. intros i Hi. rewrite aget_aset, Z.eqb_sym by lia.
    destruct (Z.eqb_spec i j) as [->|]; [rewrite E2; by rewrite andb_false_r | by rewrite andb_true_r].
  - rewrite Z.sub_0_r. pose proof (zcount_remove (λ i, P (l.[j <- x]).[i]) (λ i, P l.[i]) (length l) j) as Hr.
    rewrite Hr; [lia | lia | by rewrite aget_aset_eq |]. intros i Hi. rewrite aget_aset, Z.eqb_sym by lia.
    destruct (Z.eqb_spec i j) as [->|]; [rewrite E1; by rewrite andb_false_r | by rewrite andb_true_r].
Qed.
End tables.

(** ** Wire bytes *)

Definition bytes (l : list Z) : Prop := Forall is_u8 l.

(** [(uint8_t)(x >> 8), (uint8_t)x] *)
Definition be16 (x : Z) : list Z := [u8 (Z.shiftr x 8); u8 x].
(** [(uint8_t)(x >> 24), ..., (uint8_t)x] *)
Definition be32 (x : Z) : list Z := [u8 (Z.shiftr x 24); u8 (Z.shiftr x 16); u8 (Z.shiftr x 8); u8 x].
(** An address: its octets in memory order. *)
Definition ip_octets (x : Z) : list Z := [u8 x; u8 (Z.shiftr x 8); u8 (Z.shiftr x 16); u8 (Z.shiftr x 24)].

Definition rd_be16 (l : list Z) (i : Z) : Z := u16 (Z.lor (Z.shiftl l.[i] 8) l.[i + 1]).
Definition rd_be32 (l : list Z) (i : Z) : Z :=
  Z.lor (Z.lor (Z.lor (u32 (Z.shiftl l.[i] 24)) (u32 (Z.shiftl l.[i + 1] 16))) (u32 (Z.shiftl l.[i + 2] 8))) l.[i + 3].
Definition rd_ip (l : list Z) (i : Z) : Z :=
  Z.lor (Z.lor (Z.lor l.[i] (u32 (Z.shiftl l.[i + 1] 8))) (u32 (Z.shiftl l.[i + 2] 16))) (u32 (Z.shiftl l.[i + 3] 24)).

(** ** The checksum *)

(** [while (len > 1) ...; if (len) ...] *)
Fixpoint sum_words (p : list Z) (sum : Z) : Z :=
  match p with
  | a :: b :: p => sum_words p (u32 (sum + Z.lor (Z.shiftl a 8) b))
  | [a] => u32 (sum + Z.shiftl a 8)
  | [] => sum
  end.

(** [while (sum >> 16) ...]: a 32-bit sum has at most two carries to fold. *)
Fixpoint fold_carry (fuel : nat) (sum : Z) : Z :=
  if Z.shiftr sum 16 =? 0 then sum
  else match fuel with
       | O => sum
       | S fuel => fold_carry fuel (u32 (Z.land sum 0xFFFF + Z.shiftr sum 16))
       end.

Definition net_checksum (data : list Z) : Z := u16 (Z.land (not32 (fold_carry 2 (sum_words data 0))) 0xFFFF).

(** ** Fields *)

Lemma lor_add k a b : 0 ≤ k → 0 ≤ b < 2 ^ k → Z.lor (Z.shiftl a k) b = a * 2 ^ k + b.
Proof.
  intros Hk Hb. rewrite Z.shiftl_mul_pow2 by done. symmetry. rewrite <- Z.lor_comm. rewrite Z.add_comm. apply Z.bits_inj'. intros i Hi.
  rewrite (Z.mul_comm a), testbit_concat, Z.lor_spec by done. rewrite Z.mul_comm, Z.mul_pow2_bits by done.
  destruct (Z.ltb_spec i k).
  - rewrite (Z.testbit_neg_r a) by lia. by rewrite orb_false_r.
  - rewrite (testbit_high k b) by lia. done.
Qed.

Lemma rd_be16_eq l i : is_u8 l.[i] → is_u8 l.[i + 1] → rd_be16 l i = l.[i] * 256 + l.[i + 1].
Proof. intros Ha Hb. unfold rd_be16. rewrite (lor_add 8) by (unfold_uint; lia). apply u16_small. unfold_uint. lia. Qed.

(** The terms of a sum in descending powers of two do not overlap. *)
Lemma lor_bytes a b c d : is_u8 a → is_u8 b → is_u8 c → is_u8 d →
  Z.lor (Z.lor (Z.lor (u32 (Z.shiftl a 24)) (u32 (Z.shiftl b 16))) (u32 (Z.shiftl c 8))) d = a * 16777216 + b * 65536 + c * 256 + d.
Proof.
  intros Ha Hb Hc Hd. rewrite !u32_small by (rewrite Z.shiftl_mul_pow2 by lia; unfold_uint; lia). unfold_uint.
  assert (E : ∀ x k, 0 ≤ k → Z.shiftl x k = x * 2 ^ k) by (intros; by apply Z.shiftl_mul_pow2).
  rewrite (lor_add 24 a) by (rewrite ?E; lia).
  replace (a * 2 ^ 24 + Z.shiftl b 16) with (Z.shiftl (a * 256 + b) 16) by (rewrite !E; lia).
  rewrite (lor_add 16) by (rewrite ?E; lia).
  replace ((a * 256 + b) * 2 ^ 16 + Z.shiftl c 8) with (Z.shiftl ((a * 256 + b) * 256 + c) 8) by (rewrite !E; lia).
  rewrite (lor_add 8) by lia. lia.
Qed.

Lemma rd_be32_eq l i : is_u8 l.[i] → is_u8 l.[i + 1] → is_u8 l.[i + 2] → is_u8 l.[i + 3] →
  rd_be32 l i = l.[i] * 16777216 + l.[i + 1] * 65536 + l.[i + 2] * 256 + l.[i + 3].
Proof. apply lor_bytes. Qed.

Lemma rd_ip_eq l i : is_u8 l.[i] → is_u8 l.[i + 1] → is_u8 l.[i + 2] → is_u8 l.[i + 3] →
  rd_ip l i = l.[i] + l.[i + 1] * 256 + l.[i + 2] * 65536 + l.[i + 3] * 16777216.
Proof.
  intros Ha Hb Hc Hd. unfold rd_ip. transitivity (l.[i + 3] * 16777216 + l.[i + 2] * 65536 + l.[i + 1] * 256 + l.[i]); [|lia].
  rewrite <- lor_bytes by done. rewrite <- !Z.lor_assoc, (Z.lor_comm l.[i]), <- !Z.lor_assoc. apply Z.bits_inj'. intros k _. rewrite !Z.lor_spec.
  repeat match goal with |- context [Z.testbit ?x k] => destruct (Z.testbit x k) end; done.
Qed.

Lemma be16_bytes x : bytes (be16 x).
Proof. unfold bytes, be16. eauto with secos. Qed.
Lemma be32_bytes x : bytes (be32 x).
Proof. unfold bytes, be32. eauto 8 with secos. Qed.
Lemma ip_octets_bytes x : bytes (ip_octets x).
Proof. unfold bytes, ip_octets. eauto 8 with secos. Qed.

Lemma shiftr_div k x : 0 ≤ k → Z.shiftr x k = x / 2 ^ k.
Proof. apply Z.shiftr_div_pow2. Qed.

(** Reading back what was written. *)
Lemma be16_value x : is_u16 x → u8 (Z.shiftr x 8) * 256 + u8 x = x.
Proof. intros Hx. rewrite shiftr_div by lia. change (2 ^ 8) with 256. uint_lia. Qed.
Lemma be32_value x : is_u32 x →
  u8 (Z.shiftr x 24) * 16777216 + u8 (Z.shiftr x 16) * 65536 + u8 (Z.shiftr x 8) * 256 + u8 x = x.
Proof. intros Hx. rewrite !shiftr_div by lia. change (2 ^ 8) with 256. change (2 ^ 16) with 65536. change (2 ^ 24) with 16777216. uint_lia. Qed.

(** A field in place. *)
Lemma rd_be16_at l i x r : 0 ≤ i → drop (Z.to_nat i) l = be16 x ++ r → is_u16 x → rd_be16 l i = x.
Proof.
  intros Hi E Hx. assert (Hg : ∀ j, 0 ≤ j → l.[i + j] = (be16 x ++ r).[j]) by (intros; rewrite <- E, aget_drop by lia; f_equal; lia).
  pose proof (Hg 0 ltac:(lia)) as H0. rewrite Z.add_0_r in H0. pose proof (Hg 1 ltac:(lia)) as H1.
  rewrite rd_be16_eq; rewrite H0, H1 || rewrite H0 || rewrite H1; [exact (be16_value x Hx) | apply u8_range | apply u8_range].
Qed.

Lemma rd_be32_at l i x r : 0 ≤ i → drop (Z.to_nat i) l = be32 x ++ r → is_u32 x → rd_be32 l i = x.
Proof.
  intros Hi E Hx. assert (Hg : ∀ j, 0 ≤ j → l.[i + j] = (be32 x ++ r).[j]) by (intros; rewrite <- E, aget_drop by lia; f_equal; lia).
  pose proof (Hg 0 ltac:(lia)) as H0. rewrite Z.add_0_r in H0.
  rewrite rd_be32_eq; rewrite ?H0, ?Hg by lia; [exact (be32_value x Hx) | apply u8_range..].
Qed.

Lemma rd_ip_at l i x r : 0 ≤ i → drop (Z.to_nat i) l = ip_octets x ++ r → is_u32 x → rd_ip l i = x.
Proof.
  intros Hi E Hx. assert (Hg : ∀ j, 0 ≤ j → l.[i + j] = (ip_octets x ++ r).[j]) by (intros; rewrite <- E, aget_drop by lia; f_equal; lia).
  pose proof (Hg 0 ltac:(lia)) as H0. rewrite Z.add_0_r in H0.
  rewrite rd_ip_eq; rewrite ?H0, ?Hg by lia; [|apply u8_range..]. rewrite <- (be32_value x Hx) at 5. change (ip_octets x ++ r) with (u8 x :: u8 (Z.shiftr x 8) :: u8 (Z.shiftr x 16) :: u8 (Z.shiftr x 24) :: r).
  unfold aget. simpl. lia.
Qed.

(** ** The checksum *)

Fixpoint word_sum (p : list Z) : Z :=
  match p with
  | a :: b :: p => a * 256 + b + word_sum p
  | [a] => a * 256
  | [] => 0
  end.

(** Induction two bytes at a time. *)
Lemma pair_ind (P : list Z → Prop) : P [] → (∀ a, P [a]) → (∀ a b p, P p → P (a :: b :: p)) → ∀ p, P p.
Proof.
  intros H0 H1 H2. assert (H : ∀ n p, (length p ≤ n)%nat → P p); [|intros p; by apply (H (length p))].
  induction n as [|n IH]; intros [|a [|b p]] Hl; simpl in *; auto; [lia|]. apply H2, IH. lia.
Qed.

Lemma word_sum_bound p : bytes p → 0 ≤ word_sum p ≤ 65535 * ((zlen p + 1) / 2).
Proof.
  unfold bytes. induction p as [|a|a b p IH] using pair_ind; intros Hb.
  - done.
  - apply Forall_cons in Hb as [Ha _]. change (word_sum [a]) with (a * 256). change ((zlen [a] + 1) / 2) with 1. unfold_uint. lia.
  - apply Forall_cons in Hb as [Ha [Hb Hp]%Forall_cons]. specialize (IH Hp). cbn [word_sum length].
    replace (Z.of_nat (S (S (length p))) + 1) with (zlen p + 1 + 1 * 2) by lia. rewrite Z.div_add by lia. unfold_uint. lia.
Qed.

Lemma word_sum_app p q : Z.even (zlen p) = true → word_sum (p ++ q) = word_sum p + word_sum q.
Proof.
  induction p as [|a|a b p IH] using pair_ind; intros He; [done | done |]. cbn [app word_sum]. rewrite IH; [lia|].
  replace (zlen (a :: b :: p)) with (zlen p + 2) in He by (cbn [length]; lia). rewrite Z.even_add in He. by destruct (Z.even (zlen p)).
Qed.

Lemma sum_words_eq p s : bytes p → is_u32 (s + word_sum p) → 0 ≤ s → sum_words p s = s + word_sum p.
Proof.
  revert s. induction p as [|a|a b p IH] using pair_ind; intros s Hb Hs Hs0.
  - simpl. lia.
  - simpl in *. rewrite Z.shiftl_mul_pow2 by lia. change (2 ^ 8) with 256. by rewrite u32_small.
  - apply Forall_cons in Hb as [Ha [Hb Hp]%Forall_cons]. pose proof (word_sum_bound p Hp). cbn [word_sum sum_words] in *.
    rewrite (lor_add 8) by (unfold_uint; lia). change (2 ^ 8) with 256. rewrite u32_small by (unfold_uint; lia).
    rewrite IH; [lia | done | by replace (s + (a * 256 + b) + word_sum p) with (s + (a * 256 + b + word_sum p)) by lia | unfold_uint; lia].
Qed.

Lemma fold_step s : is_u32 s → u32 (Z.land s 0xFFFF + Z.shiftr s 16) = s mod 65536 + s / 65536.
Proof.
  intros Hs. change 0xFFFF with (2 ^ 16 - 1). rewrite land_ones_mod, shiftr_div by lia. change (2 ^ 16) with 65536.
  apply u32_small. uint_lia.
Qed.

(** Folding keeps the value modulo [2^16 - 1] and does not reach zero. *)
Lemma fold_carry_spec s : is_u32 s →
  is_u16 (fold_carry 2 s) ∧ fold_carry 2 s mod 65535 = s mod 65535 ∧ (fold_carry 2 s = 0 ↔ s = 0).
Proof.
  assert (Hd : ∀ x, Z.shiftr x 16 = x / 65536) by (intros; by apply (shiftr_div 16)).
  intros Hs. cbn [fold_carry]. rewrite fold_step, Hd by done.
  destruct (Z.eqb_spec (s / 65536) 0) as [E|E]; [split; [uint_lia | done]|].
  assert (Hs0 : 0 < s) by uint_lia. set (t := s mod 65536 + s / 65536). assert (Ht : is_u32 t) by (unfold t; uint_lia).
  assert (Etm : t mod 65535 = s mod 65535).
  { unfold t. rewrite (Z.div_mod s 65536) at 3 by lia. replace (65536 * (s / 65536) + s mod 65536) with (s mod 65536 + s / 65536 + s / 65536 * 65535) by lia.
    by rewrite Z.mod_add. }
  assert (Hb : t ≤ 131070 ∧ 0 < t) by (unfold t; uint_lia). clearbody t. rewrite fold_step, Hd by done.
  destruct (Z.eqb_spec (t / 65536) 0) as [E2|E2].
  { split; [uint_lia | split; [done | lia]]. }
  set (r := t mod 65536 + t / 65536).
  assert (Hr : 0 < r < 65536) by (unfold r; uint_lia).
  assert (Erm : r mod 65535 = t mod 65535).
  { unfold r. rewrite (Z.div_mod t 65536) at 3 by lia. replace (65536 * (t / 65536) + t mod 65536) with (t mod 65536 + t / 65536 + t / 65536 * 65535) by lia.
    by rewrite Z.mod_add. }
  clearbody r. case_match; (split; [unfold_uint; lia | split; [congruence | lia]]).
Qed.

Lemma net_checksum_eq p : bytes p → is_u32 (word_sum p) → net_checksum p = 65535 - fold_carry 2 (word_sum p).
Proof.
  intros Hb Hs. unfold net_checksum. rewrite sum_words_eq by (try done; lia). rewrite Z.add_0_l.
  destruct (fold_carry_spec _ Hs) as [Hr _]. set (r := fold_carry 2 (word_sum p)) in *. clearbody r.
  change 0xFFFF with (2 ^ 16 - 1). rewrite land_ones_mod by lia. change (2 ^ 16) with 65536. unfold not32. unfold Z.lnot. uint_lia.
Qed.

(** A message with its checksum in place sums to zero. *)
Lemma net_checksum_law pre post :
  Z.even (zlen pre) = true → bytes pre → bytes post → zlen pre + zlen post ≤ 65536 →
  let c := net_checksum (pre ++ [0; 0] ++ post) in
  is_u16 c ∧ net_checksum (pre ++ be16 c ++ post) = 0.
Proof.
  intros He Hpre Hpost Hlen c.
  assert (Hw : ∀ x y, word_sum (pre ++ [x; y] ++ post) = word_sum pre + (x * 256 + y) + word_sum post).
  { intros x y. rewrite word_sum_app by done. cbn [app word_sum]. lia. }
  assert (Hb : ∀ x y, is_u8 x → is_u8 y → bytes (pre ++ [x; y] ++ post)) by (intros; unfold bytes; rewrite !Forall_app, !Forall_cons; naive_solver).
  pose proof (word_sum_bound pre Hpre) as H1. pose proof (word_sum_bound post Hpost) as H2.
  assert (Hsum : word_sum pre + word_sum post ≤ 65535 * 32769) by (Z.to_euclidean_division_equations; lia).
  assert (Hu0 : is_u32 (word_sum (pre ++ [0; 0] ++ post))) by (rewrite Hw; unfold_uint; lia).
  assert (Ec : c = 65535 - fold_carry 2 (word_sum pre + word_sum post)).
  { unfold c. rewrite net_checksum_eq by (try done; apply Hb; unfold_uint; lia). rewrite Hw. do 2 f_equal. lia. }
  destruct (fold_carry_spec (word_sum pre + word_sum post)) as (Hr & Hm & Hz); [unfold_uint; lia|].
  set (r := fold_carry 2 (word_sum pre + word_sum post)) in *. clearbody r c. subst c.
  assert (Hc : is_u16 (65535 - r)) by (unfold_uint; lia). split; [done|].
  assert (Hv : word_sum (pre ++ be16 (65535 - r) ++ post) = word_sum pre + word_sum post + (65535 - r)).
  { unfold be16. rewrite Hw, be16_value by done. lia. }
  rewrite net_checksum_eq; [| apply Hb; apply u8_range | rewrite Hv; unfold_uint; lia]. rewrite Hv.
  destruct (fold_carry_spec (word_sum pre + word_sum post + (65535 - r))) as (Hr' & Hm' & Hz'); [unfold_uint; lia|].
  set (s' := fold_carry 2 _) in *. clearbody s'. unfold_uint.
  assert (s' mod 65535 = 0) as Hs'.
  { rewrite Hm', Z.add_mod, <- Hm, <- Z.add_mod by lia. by replace (r + (65535 - r)) with 65535 by lia. }
  destruct (decide (s' = 0)) as [->|]; [destruct Hz' as [Hz' _]; specialize (Hz' eq_refl); destruct Hz as [_ Hz]; rewrite Hz in *; lia|]. Z.to_euclidean_division_equations; lia.
Qed.
