(* ===== verification/Net.v ===== *)
(** * Ethernet, ARP, IPv4, ICMP and UDP

    [src/net/eth.c], [arp.c], [ipv4.c], [icmp.c], [udp.c] and the device side of
    [net_core.c].  A device is an index into the registry, [NULL] is [-1]; the
    driver's [transmit] is a parameter that may depend on everything sent before,
    and every frame given to it is recorded on [wire].  The stack lock makes each
    operation one step.  The static scratch buffers are the lists the functions
    build; [Net] shows what they hold fits. *)

From S2P Require Import Prelude NetBase.

(** ** Definitions *)

Definition NET_MTU : Z := 1500.
Definition NET_FRAME_MAX : Z := 1536.
Definition NULL_DEV : Z := -1.

Record net_dev := mk_dev {
  d_mac : list Z;
  d_ip : Z;
  d_netmask : Z;
  d_gateway : Z;
  d_transmit : bool       (** the driver has a [transmit] *)
}.

Record arp_entry := mk_arp { a_ip : Z; a_mac : list Z; a_valid : bool; a_age : Z }.
#[export] Instance arp_entry_inhabited : Inhabited arp_entry := populate (mk_arp 0 [] false 0).

(** The state below the transports. *)
Record l3 := mk_l3 {
  g_devs : list net_dev;
  g_cache : list arp_entry;
  g_ip_id : Z;
  g_tx_frames : Z;
  g_tx_errors : Z;
  wire : list (Z * list Z)   (** frames handed to drivers, oldest first *)
}.
Definition set_cache (n : l3) (c : list arp_entry) : l3 := mk_l3 (g_devs n) c (g_ip_id n) (g_tx_frames n) (g_tx_errors n) (wire n).
Definition set_ip_id (n : l3) (x : Z) : l3 := mk_l3 (g_devs n) (g_cache n) x (g_tx_frames n) (g_tx_errors n) (wire n).

(** A driver: what [transmit] returns for a frame, given all it sent before. *)
Class Nic := transmit : list (Z * list Z) → Z → list Z → Z.

Definition dev_at (n : l3) (dev : Z) : option net_dev := if dev <? 0 then None else g_devs n !! Z.to_nat dev.
Definition dev_ip (n : l3) (dev : Z) : Z := match dev_at n dev with Some d => d_ip d | None => 0 end.

(** A hardware address is an array of six bytes. *)
Definition mac6 (m : list Z) : list Z := resize 6 0 m.

Section net.
Context `{NIC : Nic}.

Definition net_dev_xmit (n : l3) (dev : Z) (frame : list Z) : l3 * Z :=
  match dev_at n dev with
  | Some d =>
      if negb (d_transmit d) then (n, -1)
      else
        let r := transmit (wire n) dev frame in
        let w := wire n ++ [(dev, frame)] in
        (if r <? 0 then mk_l3 (g_devs n) (g_cache n) (g_ip_id n) (g_tx_frames n) (u64 (g_tx_errors n + 1)) w
         else mk_l3 (g_devs n) (g_cache n) (g_ip_id n) (u64 (g_tx_frames n + 1)) (g_tx_errors n) w, r)
  | None => (n, -1)
  end.

(** The frame [eth_send] builds, padded to the minimum of 60 bytes. *)
Definition eth_frame (dst_mac src_mac : list Z) (ethertype : Z) (payload : list Z) : list Z :=
  let f := mac6 dst_mac ++ mac6 src_mac ++ be16 ethertype ++ payload in
  f ++ replicate (Z.to_nat (60 - zlen f)) 0.

Definition eth_send (n : l3) (dev : Z) (dst_mac : list Z) (ethertype : Z) (payload : list Z) : l3 * Z :=
  match dev_at n dev with
  | Some d =>
      if negb (d_transmit d) then (n, -1)
      else if NET_MTU <? zlen payload then (n, -1)
      else net_dev_xmit n dev (eth_frame dst_mac (d_mac d) ethertype payload)
  | None => (n, -1)
  end.

(** *** ARP *)

Definition ARP_HTYPE_ETH : Z := 1.
Definition ARP_PTYPE_IP : Z := 0x0800.
Definition ARP_OP_REQ : Z := 1.
Definition ARP_OP_REPLY : Z := 2.
Definition ETH_TYPE_ARP : Z := 0x0806.
Definition ETH_TYPE_IPV4 : Z := 0x0800.
Definition ARP_CACHE : Z := 16.
Definition BCAST : list Z := replicate 6 0xFF.

Definition arp_hit (ip : Z) (e : arp_entry) : bool := a_valid e && (a_ip e =? ip).

Definition cache_put (c : list arp_entry) (ip : Z) (mac : list Z) : list arp_entry :=
  let slot :=
    match first (arp_hit ip) c with
    | Some i => i
    | None => match first (λ e, negb (a_valid e)) c with Some i => i | None => 0 end
    end in
  c.[slot <- mk_arp ip (mac6 mac) true 0].

Definition arp_lookup (c : list arp_entry) (ip : Z) : option (list Z) :=
  match first (arp_hit ip) c with
  | Some i => Some (a_mac c.[i])
  | None => None
  end.

Definition arp_packet (op : Z) (d : net_dev) (tha : list Z) (tpa : Z) : list Z :=
  be16 ARP_HTYPE_ETH ++ be16 ARP_PTYPE_IP ++ [6; 4] ++ be16 op ++
  mac6 (d_mac d) ++ ip_octets (d_ip d) ++ mac6 tha ++ ip_octets tpa.

Definition arp_request (n : l3) (dev target_ip : Z) : l3 :=
  match dev_at n dev with
  | Some d => (eth_send n dev BCAST ETH_TYPE_ARP (arp_packet ARP_OP_REQ d (replicate 6 0) target_ip)).1
  | None => n
  end.

(** [None]: a request is out, the caller retries. *)
Definition arp_resolve (n : l3) (dev ip : Z) : l3 * option (list Z) :=
  match arp_lookup (g_cache n) ip with
  | Some mac => (n, Some mac)
  | None => (arp_request n dev ip, None)
  end.

Definition arp_input (n : l3) (dev : Z) (frame : list Z) : l3 :=
  match dev_at n dev with
  | Some d =>
      if zlen frame <? 14 + 28 then n
      else
        let a := drop 14 frame in
        let op := rd_be16 a 6 in
        let spa := rd_ip a 14 in
        let tpa := rd_ip a 24 in
        let sha := take 6 (drop 8 a) in
        let n1 := set_cache n (cache_put (g_cache n) spa sha) in
        if (op =? ARP_OP_REQ) && (tpa =? d_ip d) && negb (d_ip d =? 0) then
          (eth_send n1 dev sha ETH_TYPE_ARP (arp_packet ARP_OP_REPLY d sha spa)).1
        else n1
  | None => n
  end.

Definition arp_entries (c : list arp_entry) : Z := count a_valid c.

Definition arp_age_one (e : arp_entry) : arp_entry :=
  if a_valid e then
    let age := u32 (a_age e + 1) in
    mk_arp (a_ip e) (a_mac e) (negb (600000 <? age)) age
  else e.
Definition arp_tick (n : l3) : l3 := set_cache n (arp_age_one <$> g_cache n).

(** *** IPv4 *)

Definition IP_PROTO_ICMP : Z := 1.
Definition IP_PROTO_UDP : Z := 17.
Definition IP_PROTO_TCP : Z := 6.

(** [ipv4_input] up to its dispatch: the protocol, the sender and the payload. *)
Definition ipv4_parse (d : net_dev) (frame : list Z) : option (Z * Z * list Z) :=
  let len := zlen frame in
  if len <? 14 + 20 then None
  else
    let ip := drop 14 frame in
    let ihl := u8 (Z.land ip.[0] 0x0F * 4) in
    if ihl <? 20 then None
    else
      let tot := rd_be16 ip 2 in
      if (tot <? ihl) || (len <? 14 + tot) then None
      else
        let proto := ip.[9] in
        let dst := rd_ip ip 16 in
        let src := rd_ip ip 12 in
        if negb (d_ip d =? 0) && negb (dst =? d_ip d) && negb (dst =? 0xFFFFFFFF) then None
        else Some (proto, src, take (Z.to_nat (tot - ihl)) (drop (Z.to_nat ihl) ip)).

(** The header with checksum field [csum]. *)
Definition ipv4_header (tot id src dst proto : Z) (csum : list Z) : list Z :=
  [0x45; 0] ++ be16 tot ++ be16 id ++ [0x40; 0; 64; proto] ++ csum ++ ip_octets src ++ ip_octets dst.

Definition bcast (d : net_dev) : Z :=
  if ztrue (d_netmask d) then Z.lor (d_ip d) (not32 (d_netmask d)) else 0xFFFFFFFF.

(** The hardware address a packet goes to, resolved over the next hop. *)
Definition ipv4_route (n : l3) (dev : Z) (d : net_dev) (dst_ip : Z) : l3 * option (list Z) :=
  if (dst_ip =? 0xFFFFFFFF) || ztrue (d_netmask d) && (dst_ip =? bcast d) then (n, Some BCAST)
  else
    let nexthop := if Z.land dst_ip (d_netmask d) =? Z.land (d_ip d) (d_netmask d) then dst_ip else d_gateway d in
    arp_resolve n dev nexthop.

Definition ipv4_send (n : l3) (dev dst_ip proto : Z) (payload : list Z) : l3 * Z :=
  match dev_at n dev with
  | None => (n, -1)
  | Some d =>
      if NET_MTU - 20 <? zlen payload then (n, -1)
      else
        match ipv4_route n dev d dst_ip with
        | (n1, None) => (n1, -1)
        | (n1, Some dmac) =>
            let tot := u16 (20 + zlen payload) in
            let hdr := ipv4_header tot (g_ip_id n1) (d_ip d) dst_ip (u8 proto) in
            let csum := net_checksum (hdr [0; 0]) in
            eth_send (set_ip_id n1 (u16 (g_ip_id n1 + 1))) dev dmac ETH_TYPE_IPV4 (hdr (be16 csum) ++ payload)
        end
  end.

(** *** ICMP *)

Definition ICMP_ECHO_REQUEST : Z := 8.
Definition ICMP_ECHO_REPLY : Z := 0.

Definition icmp_input (n : l3) (replies : Z) (dev src_ip : Z) (pkt : list Z) : l3 * Z :=
  if zlen pkt <? 8 then (n, replies)
  else if pkt.[0] =? ICMP_ECHO_REPLY then (n, u32 (replies + 1))
  else if pkt.[0] =? ICMP_ECHO_REQUEST then
    if NET_FRAME_MAX <? zlen pkt then (n, replies)
    else
      let c := net_checksum ([ICMP_ECHO_REPLY; 0] ++ [0; 0] ++ drop 4 pkt) in
      ((ipv4_send n dev src_ip IP_PROTO_ICMP ([ICMP_ECHO_REPLY; 0] ++ be16 c ++ drop 4 pkt)).1, replies)
  else (n, replies).

Definition icmp_send_echo (n : l3) (dev dst_ip id seq : Z) : l3 * Z :=
  let body := be16 id ++ be16 seq ++ ((λ i, u8 (97 + i)) <$> seqZ 0 8) in
  let c := net_checksum ([ICMP_ECHO_REQUEST; 0] ++ [0; 0] ++ body) in
  ipv4_send n dev dst_ip IP_PROTO_ICMP ([ICMP_ECHO_REQUEST; 0] ++ be16 c ++ body).

(** *** UDP *)

Definition UDP_MAX_BIND : Z := 64.

(** A receive callback with its context: a socket's, or another client's. *)
Inductive udp_cb := CbSock (sock : Z) | CbOther (id : Z).

Record udp_binding := mk_bind { b_port : Z; b_cb : option udp_cb; b_used : bool }.
Record udp := mk_udp { g_bind : list udp_binding; g_ephemeral : Z }.

Definition bound (port : Z) (b : udp_binding) : bool := b_used b && (b_port b =? port).

Definition udp_bind (u : udp) (port : Z) (cb : option udp_cb) : udp * Z :=
  match first (bound port) (g_bind u) with
  | Some _ => (u, -2)
  | None =>
      match first (λ b, negb (b_used b)) (g_bind u) with
      | Some i => (mk_udp (g_bind u).[i <- mk_bind port cb true] (g_ephemeral u), 0)
      | None => (u, -1)
      end
  end.

Definition udp_unbind (u : udp) (port : Z) : udp :=
  mk_udp ((λ b, if bound port b then mk_bind (b_port b) (b_cb b) false else b) <$> g_bind u) (g_ephemeral u).

(** The next port of the dynamic range, as [g_ephemeral] and [g_eph] step. *)
Definition eph_next (p : Z) : Z := let q := u16 (p + 1) in if q =? 0 then 49152 else q.

Fixpoint eph_search (taken : Z → bool) (tries : nat) (p : Z) : Z * Z :=
  match tries with
  | O => (p, 0)
  | S tries => if taken p then eph_search taken tries (eph_next p) else (eph_next p, p)
  end.

Definition udp_ephemeral_port (u : udp) : udp * Z :=
  let '(e, p) := eph_search (λ p, bool_decide (is_Some (first (bound p) (g_bind u)))) (Z.to_nat 16384) (g_ephemeral u) in
  (mk_udp (g_bind u) e, p).

(** The callback [udp_input] calls, with its arguments. *)
Definition udp_input (u : udp) (src_ip : Z) (seg : list Z) : option (udp_cb * Z * Z * list Z) :=
  let len := zlen seg in
  if len <? 8 then None
  else
    let src_port := rd_be16 seg 0 in
    let dst_port := rd_be16 seg 2 in
    let ulen := rd_be16 seg 4 in
    if (ulen <? 8) || (len <? ulen) then None
    else
      match first (λ b, bound dst_port b && bool_decide (is_Some (b_cb b))) (g_bind u) with
      | Some i =>
          match g_bind u !! Z.to_nat i with
          | Some (mk_bind _ (Some cb) _) => Some (cb, src_ip, src_port, take (Z.to_nat (ulen - 8)) (drop 8 seg))
          | _ => None
          end
      | None => None
      end.

Definition udp_bind_count (u : udp) : Z := count b_used (g_bind u).

(** The segment with checksum field [csum], and the bytes the checksum covers. *)
Definition udp_segment (src_port dst_port : Z) (csum data : list Z) : list Z :=
  be16 src_port ++ be16 dst_port ++ be16 (u16 (8 + zlen data)) ++ csum ++ data.
Definition pseudo_header (src dst proto len : Z) : list Z := ip_octets src ++ ip_octets dst ++ [0; proto] ++ be16 len.

Definition udp_output (n : l3) (dev dst_ip src_port dst_port : Z) (data : list Z) : l3 * Z :=
  match dev_at n dev with
  | None => (n, -1)
  | Some d =>
      if NET_FRAME_MAX - 12 - 8 <? zlen data then (n, -1)
      else
        let ph := pseudo_header (d_ip d) dst_ip IP_PROTO_UDP (u16 (8 + zlen data)) in
        let c := net_checksum (ph ++ udp_segment src_port dst_port [0; 0] data) in
        let csum := if c =? 0 then 0xFFFF else c in
        ipv4_send n dev dst_ip IP_PROTO_UDP (udp_segment src_port dst_port (be16 csum) data)
  end.
End net.
