(* ===== verification/Tcp.v ===== *)
(** * TCP

    [src/net/tcp.c]: the table of control blocks and every operation of the
    non-blocking core, the receive path and the timer.  A control block is named
    by its slot.  The layer below is any [IpOps], the heap the buffers come from
    any [BufOps]; the time [timer_get_ticks] gives and the number [csprng_u32]
    gives are arguments of an operation.  The stack lock makes each operation one
    step.  [tcp_input] and [tcp_tick] work on one control block at a time: that
    work is [conn_input] and [conn_tick]. *)

From S2P Require Import Prelude NetBase Net.

(** ** The layers below *)

(** The network layer: the address of a device, and sending a packet. *)
Class IpOps (N : Type) := {
  ip_addr : N → Z → Z;
  ip_send : N → Z → Z → Z → list Z → N * Z
}.

(** The heap: [kmalloc] gives a pointer, 0 for none, and what the block holds. *)
Class BufOps (K : Type) := {
  kmalloc : K → Z → K * Z * list Z;
  kfree : K → Z → K
}.

(** ** Control blocks *)

Definition TCP_MAX_CONN : Z := 64.
Definition TCP_RXBUF : Z := 65536.
Definition TCP_TXBUF : Z := 65536.
Definition TCP_MSS : Z := 1460.
Definition TCP_RTO : Z := 600.
Definition TCP_MAX_RETX : Z := 6.
Definition TCP_TIMEWAIT : Z := 2000.
Definition TCP_MAX_BACKLOG : Z := 4.
Definition TCP_ORPHAN_MS : Z := 10000.
Definition TCP_ARP_RETRY : Z := 20.

Definition F_FIN : Z := 0x01.
Definition F_SYN : Z := 0x02.
Definition F_RST : Z := 0x04.
Definition F_PSH : Z := 0x08.
Definition F_ACK : Z := 0x10.

Inductive tcp_state_t :=
  | TCP_CLOSED | TCP_LISTEN | TCP_SYN_SENT | TCP_SYN_RCVD | TCP_ESTABLISHED
  | TCP_FIN_WAIT_1 | TCP_FIN_WAIT_2 | TCP_CLOSE_WAIT | TCP_CLOSING | TCP_LAST_ACK
  | TCP_TIME_WAIT.
#[export] Instance tcp_state_eq_dec : EqDecision tcp_state_t.
Proof. solve_decision. Defined.

Record tcp_conn := mk_conn {
  used : bool;
  state : tcp_state_t;
  c_dev : Z;
  remote_ip : Z;
  local_port : Z;
  remote_port : Z;
  iss : Z;
  snd_una : Z;
  snd_nxt : Z;
  rcv_nxt : Z;
  snd_wnd : Z;
  tx_ptr : Z; tx : list Z; tx_len : Z;               (** bytes from [snd_una] onward *)
  rx_ptr : Z; rx : list Z; rx_head : Z; rx_len : Z;  (** a ring *)
  fin_pending : bool;
  fin_sent : bool;
  reset : bool;
  rto_deadline : Z;
  retries : Z;
  tw_deadline : Z;
  listener : option Z;
  accepted : bool;
  orphan : bool;
  orphan_deadline : Z;
  syn_unsent : bool;
  syn_retry_at : Z;
  backlog : Z
}.

(** A control block of zeroes. *)
Definition conn_zero : tcp_conn :=
  mk_conn false TCP_CLOSED NULL_DEV 0 0 0 0 0 0 0 0 0 [] 0 0 [] 0 0 false false false 0 0 0 None false false 0 false 0 0.
#[export] Instance tcp_conn_inhabited : Inhabited tcp_conn := populate conn_zero.

(** Assignment to a field: the record rebuilt with one projection replaced. *)
Definition conn_eta (c : tcp_conn) : tcp_conn :=
  mk_conn (used c) (state c) (c_dev c) (remote_ip c) (local_port c) (remote_port c) (iss c) (snd_una c) (snd_nxt c) (rcv_nxt c) (snd_wnd c)
    (tx_ptr c) (tx c) (tx_len c) (rx_ptr c) (rx c) (rx_head c) (rx_len c) (fin_pending c) (fin_sent c) (reset c) (rto_deadline c) (retries c)
    (tw_deadline c) (listener c) (accepted c) (orphan c) (orphan_deadline c) (syn_unsent c) (syn_retry_at c) (backlog c).
Ltac assign eta proj x :=
  let e := eval cbv delta [conn_eta] in eta in
  lazymatch eval pattern proj in e with ?g _ => let t := eval cbv beta in (g (λ _, x)) in exact t end.

Definition set_used (x : bool) : tcp_conn → tcp_conn := ltac:(assign conn_eta used x).
Definition set_state (x : tcp_state_t) : tcp_conn → tcp_conn := ltac:(assign conn_eta state x).
Definition set_dev (x : Z) : tcp_conn → tcp_conn := ltac:(assign conn_eta c_dev x).
Definition set_remote_ip (x : Z) : tcp_conn → tcp_conn := ltac:(assign conn_eta remote_ip x).
Definition set_local_port (x : Z) : tcp_conn → tcp_conn := ltac:(assign conn_eta local_port x).
Definition set_remote_port (x : Z) : tcp_conn → tcp_conn := ltac:(assign conn_eta remote_port x).
Definition set_iss (x : Z) : tcp_conn → tcp_conn := ltac:(assign conn_eta iss x).
Definition set_snd_una (x : Z) : tcp_conn → tcp_conn := ltac:(assign conn_eta snd_una x).
Definition set_snd_nxt (x : Z) : tcp_conn → tcp_conn := ltac:(assign conn_eta snd_nxt x).
Definition set_rcv_nxt (x : Z) : tcp_conn → tcp_conn := ltac:(assign conn_eta rcv_nxt x).
Definition set_snd_wnd (x : Z) : tcp_conn → tcp_conn := ltac:(assign conn_eta snd_wnd x).
Definition set_tx_ptr (x : Z) : tcp_conn → tcp_conn := ltac:(assign conn_eta tx_ptr x).
Definition set_tx (x : list Z) : tcp_conn → tcp_conn := ltac:(assign conn_eta tx x).
Definition set_tx_len (x : Z) : tcp_conn → tcp_conn := ltac:(assign conn_eta tx_len x).
Definition set_rx_ptr (x : Z) : tcp_conn → tcp_conn := ltac:(assign conn_eta rx_ptr x).
Definition set_rx (x : list Z) : tcp_conn → tcp_conn := ltac:(assign conn_eta rx x).
Definition set_rx_head (x : Z) : tcp_conn → tcp_conn := ltac:(assign conn_eta rx_head x).
Definition set_rx_len (x : Z) : tcp_conn → tcp_conn := ltac:(assign conn_eta rx_len x).
Definition set_fin_pending (x : bool) : tcp_conn → tcp_conn := ltac:(assign conn_eta fin_pending x).
Definition set_fin_sent (x : bool) : tcp_conn → tcp_conn := ltac:(assign conn_eta fin_sent x).
Definition set_reset (x : bool) : tcp_conn → tcp_conn := ltac:(assign conn_eta reset x).
Definition set_rto_deadline (x : Z) : tcp_conn → tcp_conn := ltac:(assign conn_eta rto_deadline x).
Definition set_retries (x : Z) : tcp_conn → tcp_conn := ltac:(assign conn_eta retries x).
Definition set_tw_deadline (x : Z) : tcp_conn → tcp_conn := ltac:(assign conn_eta tw_deadline x).
Definition set_listener (x : option Z) : tcp_conn → tcp_conn := ltac:(assign conn_eta listener x).
Definition set_accepted (x : bool) : tcp_conn → tcp_conn := ltac:(assign conn_eta accepted x).
Definition set_orphan (x : bool) : tcp_conn → tcp_conn := ltac:(assign conn_eta orphan x).
Definition set_orphan_deadline (x : Z) : tcp_conn → tcp_conn := ltac:(assign conn_eta orphan_deadline x).
Definition set_syn_unsent (x : bool) : tcp_conn → tcp_conn := ltac:(assign conn_eta syn_unsent x).
Definition set_syn_retry_at (x : Z) : tcp_conn → tcp_conn := ltac:(assign conn_eta syn_retry_at x).
Definition set_backlog (x : Z) : tcp_conn → tcp_conn := ltac:(assign conn_eta backlog x).

Definition is_state (s : tcp_state_t) (c : tcp_conn) : bool := bool_decide (state c = s).
Definition in_states (l : list tcp_state_t) (c : tcp_conn) : bool := bool_decide (state c ∈ l).

(** ** Sequence numbers *)

Definition seq_lt (a b : Z) : bool := s32 (a - b) <? 0.
Definition seq_leq (a b : Z) : bool := s32 (a - b) <=? 0.
Definition seq_gt (a b : Z) : bool := 0 <? s32 (a - b).

(** ** Sending *)

Section tcp.
Context {N K : Type} `{IP : IpOps N} `{HEAP : BufOps K}.

(** The segment with checksum field [csum]. *)
Definition tcp_segment (c : tcp_conn) (flags : Z) (data : list Z) (seq : Z) (csum : list Z) : list Z :=
  let hdr := if ztrue (Z.land flags F_SYN) then 24 else 20 in
  let freerx := let f := u32 (TCP_RXBUF - rx_len c) in if 65535 <? f then 65535 else f in
  be16 (local_port c) ++ be16 (remote_port c) ++ be32 seq ++ be32 (rcv_nxt c) ++
  [u8 (Z.shiftl (hdr / 4) 4); u8 flags] ++ be16 freerx ++ csum ++ [0; 0] ++
  (if ztrue (Z.land flags F_SYN) then [2; 4] ++ be16 TCP_MSS else []) ++ data.

Definition tcp_xmit (n : N) (c : tcp_conn) (flags : Z) (data : list Z) (seq : Z) : N * Z :=
  let s0 := tcp_segment c flags data seq [0; 0] in
  let ph := pseudo_header (ip_addr n (c_dev c)) (remote_ip c) IP_PROTO_TCP (zlen s0) in
  let csum := net_checksum (ph ++ s0) in
  ip_send n (c_dev c) (remote_ip c) IP_PROTO_TCP (tcp_segment c flags data seq (be16 csum)).

Definition arm_rto (now : Z) (c : tcp_conn) : tcp_conn := set_retries 0 (set_rto_deadline (u64 (now + TCP_RTO)) c).

Fixpoint out_loop (fuel : nat) (now wnd sent_off : Z) (n : N) (c : tcp_conn) : N * tcp_conn :=
  match fuel with
  | O => (n, c)
  | S fuel =>
      if negb (sent_off <? tx_len c) then (n, c)
      else
        let avail := tx_len c - sent_off in
        if wnd <=? sent_off then (n, c)
        else
          let can := wnd - sent_off in
          let chunk := Z.min (Z.min avail TCP_MSS) can in
          if chunk =? 0 then (n, c)
          else
            let n1 := (tcp_xmit n c (Z.lor F_ACK F_PSH) (take (Z.to_nat chunk) (drop (Z.to_nat sent_off) (tx c))) (snd_nxt c)).1 in
            out_loop fuel now wnd (u32 (sent_off + chunk)) n1 (arm_rto now (set_snd_nxt (u32 (snd_nxt c + chunk)) c))
  end.

(** The loop sends at least a byte a turn. *)
Definition out_data (now : Z) (n : N) (c : tcp_conn) : N * tcp_conn :=
  let sent_off := u32 (snd_nxt c - snd_una c) in
  let wnd := if ztrue (snd_wnd c) then snd_wnd c else 1 in
  out_loop (Z.to_nat (tx_len c)) now wnd sent_off n c.

Definition out_fin (now : Z) (n : N) (c : tcp_conn) : N * tcp_conn :=
  if fin_pending c && negb (fin_sent c) && (u32 (snd_nxt c - snd_una c) =? tx_len c) then
    let n1 := (tcp_xmit n c (Z.lor F_ACK F_FIN) [] (snd_nxt c)).1 in
    let c1 := arm_rto now (set_snd_nxt (u32 (snd_nxt c + 1)) (set_fin_sent true c)) in
    (n1, if is_state TCP_ESTABLISHED c1 then set_state TCP_FIN_WAIT_1 c1
         else if is_state TCP_CLOSE_WAIT c1 then set_state TCP_LAST_ACK c1
         else c1)
  else (n, c).

Definition tcp_output (now : Z) (n : N) (c : tcp_conn) : N * tcp_conn :=
  let '(n1, c1) := out_data now n c in out_fin now n1 c1.

(** ** Releasing *)

Definition conn_free (k : K) (c : tcp_conn) : K * tcp_conn :=
  let '(k1, c1) := if ztrue (tx_ptr c) then (kfree k (tx_ptr c), set_tx_ptr 0 c) else (k, c) in
  let '(k2, c2) := if ztrue (rx_ptr c1) then (kfree k1 (rx_ptr c1), set_rx_ptr 0 c1) else (k1, c1) in
  (k2, set_state TCP_CLOSED (set_used false c2)).

Definition conn_closed (k : K) (c : tcp_conn) : K * tcp_conn :=
  let c1 := set_state TCP_CLOSED c in
  if orphan c1 || bool_decide (is_Some (listener c1)) && negb (accepted c1) then conn_free k c1 else (k, c1).

Definition conn_abort (n : N) (k : K) (c : tcp_conn) : N * K * tcp_conn :=
  let n1 := (tcp_xmit n c (Z.lor F_RST F_ACK) [] (snd_nxt c)).1 in
  let '(k1, c1) := conn_free k c in (n1, k1, c1).

(** ** The caller's operations on a control block *)

Definition conn_write (now : Z) (n : N) (c : tcp_conn) (data : list Z) : N * tcp_conn * Z :=
  if negb (in_states [TCP_ESTABLISHED; TCP_CLOSE_WAIT] c) then (n, c, -1)
  else
    let space := u32 (TCP_TXBUF - tx_len c) in
    let len := Z.min (zlen data) space in
    let c1 := set_tx_len (u32 (tx_len c + len)) (set_tx (zfor (Z.to_nat len) 0 (λ i b, b.[tx_len c + i <- data.[i]]) (tx c)) c) in
    let '(n1, c2) := tcp_output now n c1 in
    (n1, c2, s32 len).

(** The bytes stored in the caller's buffer come before the result. *)
Definition conn_read (n : N) (c : tcp_conn) (len : Z) : N * tcp_conn * list Z * Z :=
  if rx_len c =? 0 then
    (n, c, [], if in_states [TCP_CLOSE_WAIT; TCP_CLOSED; TCP_LAST_ACK; TCP_TIME_WAIT] c then -1 else 0)
  else
    let m := Z.min len (rx_len c) in
    let d := (λ i, (rx c).[(rx_head c + i) mod TCP_RXBUF]) <$> seqZ 0 m in
    let c1 := set_rx_len (rx_len c - m) (set_rx_head ((rx_head c + m) mod TCP_RXBUF) c) in
    let n1 := if in_states [TCP_ESTABLISHED; TCP_FIN_WAIT_1; TCP_FIN_WAIT_2] c1
              then (tcp_xmit n c1 F_ACK [] (snd_nxt c1)).1 else n in
    (n1, c1, d, s32 m).

Definition conn_start_close (now : Z) (n : N) (c : tcp_conn) : N * tcp_conn :=
  if in_states [TCP_ESTABLISHED; TCP_CLOSE_WAIT] c then tcp_output now n (set_fin_pending true c)
  else if in_states [TCP_SYN_SENT; TCP_LISTEN] c then (n, set_state TCP_CLOSED c)
  else (n, c).

(** [tcp_release] of a control block that does not listen. *)
Definition conn_release (now : Z) (n : N) (k : K) (c : tcp_conn) : N * K * tcp_conn :=
  if in_states [TCP_CLOSED; TCP_SYN_SENT; TCP_SYN_RCVD] c then let '(k1, c1) := conn_free k c in (n, k1, c1)
  else if (0 <? rx_len c) && negb (is_state TCP_TIME_WAIT c) then conn_abort n k c
  else
    let '(n1, c1) := conn_start_close now n (set_orphan_deadline (u64 (now + TCP_ORPHAN_MS)) (set_orphan true c)) in (n1, k, c1).

(** The active open, with local port [p] and initial sequence number [rnd]. *)
Definition conn_connect (now rnd : Z) (n : N) (c : tcp_conn) (p : Z) : N * tcp_conn :=
  let c1 := set_state TCP_SYN_SENT (set_rcv_nxt 0 (set_snd_nxt rnd (set_snd_una rnd (set_iss rnd (set_local_port p c))))) in
  let '(n1, r) := tcp_xmit n c1 F_SYN [] (iss c1) in
  (n1, arm_rto now (set_snd_nxt (u32 (iss c1 + 1)) (set_syn_retry_at (u64 (now + TCP_ARP_RETRY)) (set_syn_unsent (r <? 0) c1)))).

(** ** Receiving *)

Record tcp_hdr := mk_hdr { h_sport : Z; h_dport : Z; h_seq : Z; h_ack : Z; h_flags : Z; h_wnd : Z; h_data : list Z }.
Definition hflag (h : tcp_hdr) (f : Z) : bool := ztrue (Z.land (h_flags h) f).

Definition tcp_parse (seg : list Z) : option tcp_hdr :=
  let len := zlen seg in
  if len <? 20 then None
  else
    let doff := Z.shiftr seg.[12] 4 * 4 in
    if (doff <? 20) || (len <? doff) then None
    else Some (mk_hdr (rd_be16 seg 0) (rd_be16 seg 2) (rd_be32 seg 4) (rd_be32 seg 8) seg.[13] (rd_be16 seg 14) (drop (Z.to_nat doff) seg)).

Definition rx_accept (c : tcp_conn) (data : list Z) : tcp_conn * Z :=
  let space := u32 (TCP_RXBUF - rx_len c) in
  let len := Z.min (zlen data) space in
  let tail := (rx_head c + rx_len c) mod TCP_RXBUF in
  (set_rx_len (rx_len c + len) (set_rx (zfor (Z.to_nat len) 0 (λ i b, b.[(tail + i) mod TCP_RXBUF <- data.[i]]) (rx c)) c), len).

(** A segment with RST. *)
Definition in_rst (n : N) (k : K) (c : tcp_conn) (h : tcp_hdr) : N * K * tcp_conn :=
  let ok := if is_state TCP_SYN_SENT c then hflag h F_ACK && (h_ack h =? snd_nxt c) else h_seq h =? rcv_nxt c in
  if negb ok then
    let rwnd := TCP_RXBUF - rx_len c in
    if negb (is_state TCP_SYN_SENT c) && seq_gt (h_seq h) (rcv_nxt c) && seq_lt (h_seq h) (u32 (rcv_nxt c + rwnd))
    then ((tcp_xmit n c F_ACK [] (snd_nxt c)).1, k, c) else (n, k, c)
  else let '(k1, c1) := conn_closed k (set_reset true c) in (n, k1, c1).

Definition in_syn_sent (now : Z) (n : N) (c : tcp_conn) (h : tcp_hdr) : N * tcp_conn :=
  if hflag h F_SYN && hflag h F_ACK then
    if negb (h_ack h =? snd_nxt c) then (n, c)
    else
      let c1 := set_state TCP_ESTABLISHED (set_snd_una (h_ack h) (set_rcv_nxt (u32 (h_seq h + 1)) c)) in
      ((tcp_xmit n c1 F_ACK [] (snd_nxt c1)).1, set_rto_deadline 0 c1)
  else if hflag h F_SYN then
    let c1 := set_state TCP_SYN_RCVD (set_rcv_nxt (u32 (h_seq h + 1)) c) in
    ((tcp_xmit n c1 (Z.lor F_SYN F_ACK) [] (iss c1)).1, arm_rto now c1)
  else (n, c).

(** How many bytes of [tx] an acknowledgement covers. *)
Definition acked_bytes (c : tcp_conn) (ack : Z) : Z :=
  let acked := u32 (ack - snd_una c) in
  let d := if is_state TCP_SYN_RCVD c then (if 0 <? acked then acked - 1 else 0) else acked in
  let d := if fin_sent c && seq_leq (snd_nxt c) ack && (0 <? d) then d - 1 else d in
  if tx_len c <? d then tx_len c else d.

Definition trim_tx (c : tcp_conn) (d : Z) : tcp_conn :=
  if ztrue d then
    set_tx_len (tx_len c - d) (set_tx (zfor (Z.to_nat (tx_len c - d)) d (λ i b, b.[i - d <- b.[i]]) (tx c)) c)
  else c.

(** ACK processing; the flag tells that the connection closed. *)
Definition in_ack (now : Z) (k : K) (c : tcp_conn) (h : tcp_hdr) : K * tcp_conn * bool :=
  let ack := h_ack h in
  if hflag h F_ACK && (seq_gt ack (snd_una c) && seq_leq ack (snd_nxt c)) then
    let c1 := set_snd_una ack (trim_tx c (acked_bytes c ack)) in
    let all := snd_una c1 =? snd_nxt c1 in
    let c2 := if all then set_rto_deadline 0 c1 else arm_rto now c1 in
    match state c2 with
    | TCP_SYN_RCVD => (k, set_state TCP_ESTABLISHED c2, false)
    | TCP_FIN_WAIT_1 => (k, (if all then set_state TCP_FIN_WAIT_2 c2 else c2), false)
    | TCP_CLOSING => (k, (if all then set_tw_deadline (u64 (now + TCP_TIMEWAIT)) (set_state TCP_TIME_WAIT c2) else c2), false)
    | TCP_LAST_ACK => if all then let '(k1, c3) := conn_closed k c2 in (k1, c3, true) else (k, c2, false)
    | _ => (k, c2, false)
    end
  else (k, c, false).

Definition in_data (n : N) (c : tcp_conn) (h : tcp_hdr) : N * tcp_conn :=
  if (0 <? zlen (h_data h)) && in_states [TCP_ESTABLISHED; TCP_FIN_WAIT_1; TCP_FIN_WAIT_2] c then
    let c1 := if h_seq h =? rcv_nxt c
              then let '(c', got) := rx_accept c (h_data h) in set_rcv_nxt (u32 (rcv_nxt c' + got)) c'
              else c in
    ((tcp_xmit n c1 F_ACK [] (snd_nxt c1)).1, c1)
  else (n, c).

Definition in_fin (now : Z) (n : N) (c : tcp_conn) (h : tcp_hdr) : N * tcp_conn :=
  if hflag h F_FIN && (u32 (h_seq h + zlen (h_data h)) =? rcv_nxt c) then
    let c1 := set_rcv_nxt (u32 (rcv_nxt c + 1)) c in
    let c2 := match state c1 with
              | TCP_ESTABLISHED => set_state TCP_CLOSE_WAIT c1
              | TCP_FIN_WAIT_1 => set_state TCP_CLOSING c1
              | TCP_FIN_WAIT_2 => set_tw_deadline (u64 (now + TCP_TIMEWAIT)) (set_state TCP_TIME_WAIT c1)
              | _ => c1
              end in
    ((tcp_xmit n c2 F_ACK [] (snd_nxt c2)).1, c2)
  else (n, c).

(** [tcp_input] once the control block is found. *)
Definition conn_input (now : Z) (n : N) (k : K) (c : tcp_conn) (h : tcp_hdr) : N * K * tcp_conn :=
  if hflag h F_RST then in_rst n k c h
  else
    let c1 := set_snd_wnd (h_wnd h) c in
    if is_state TCP_SYN_SENT c1 then let '(n1, c2) := in_syn_sent now n c1 h in (n1, k, c2)
    else
      let '(k1, c2, closed) := in_ack now k c1 h in
      if closed : bool then (n, k1, c2)
      else if orphan c2 && (0 <? zlen (h_data h)) && in_states [TCP_FIN_WAIT_1; TCP_FIN_WAIT_2] c2 then conn_abort n k1 c2
      else
        let '(n1, c3) := in_data n c2 h in
        let '(n2, c4) := in_fin now n1 c3 h in
        let '(n3, c5) := tcp_output now n2 c4 in
        (n3, k1, c5).

(** ** The timer *)

(** Send the oldest unacknowledged unit again. *)
Definition retransmit (n : N) (c : tcp_conn) : N :=
  if is_state TCP_SYN_SENT c then (tcp_xmit n c F_SYN [] (iss c)).1
  else if is_state TCP_SYN_RCVD c then (tcp_xmit n c (Z.lor F_SYN F_ACK) [] (iss c)).1
  else
    let unacked := u32 (snd_nxt c - snd_una c) in
    let d := if fin_sent c && (0 <? unacked) then unacked - 1 else unacked in
    let d := if tx_len c <? d then tx_len c else d in
    if ztrue d then (tcp_xmit n c (Z.lor F_ACK F_PSH) (take (Z.to_nat (Z.min d TCP_MSS)) (tx c)) (snd_una c)).1
    else if fin_sent c then (tcp_xmit n c (Z.lor F_ACK F_FIN) [] (u32 (snd_nxt c - 1))).1
    else n.

(** The body of [tcp_tick]'s loop. *)
Definition conn_tick (now : Z) (n : N) (k : K) (c : tcp_conn) : N * K * tcp_conn :=
  if negb (used c) then (n, k, c)
  else if is_state TCP_TIME_WAIT c then
    if tw_deadline c <=? now then let '(k1, c1) := conn_closed k c in (n, k1, c1) else (n, k, c)
  else if orphan c && (is_state TCP_CLOSED c || (orphan_deadline c <=? now)) then
    let '(k1, c1) := conn_free k c in (n, k1, c1)
  else if is_state TCP_CLOSED c then (n, k, c)
  else if is_state TCP_SYN_SENT c && syn_unsent c then
    if syn_retry_at c <=? now then
      let '(n1, r) := tcp_xmit n c F_SYN [] (iss c) in
      (n1, k, if r =? 0 then arm_rto now (set_syn_unsent false c) else set_syn_retry_at (u64 (now + TCP_ARP_RETRY)) c)
    else (n, k, c)
  else if ztrue (rto_deadline c) && (rto_deadline c <=? now) && negb (snd_una c =? snd_nxt c) then
    let c1 := set_retries (retries c + 1) c in
    if TCP_MAX_RETX <? retries c1 then let '(k1, c2) := conn_closed k (set_reset true c1) in (n, k1, c2)
    else
      (retransmit n c1, k,
       set_rto_deadline (u64 (now + Z.shiftl TCP_RTO (if retries c1 <? 4 then retries c1 else 4))) c1)
  else (n, k, c).

(** ** The table *)

Record tcp := mk_tcp {
  g_conns : list tcp_conn;
  g_eph : Z;
  g_alloc_full : Z;
  g_alloc_nomem : Z;
  g_peak : Z;
  t_net : N;
  t_heap : K
}.
Definition put_conn (t : tcp) (i : Z) (n : N) (k : K) (c : tcp_conn) : tcp :=
  mk_tcp (g_conns t).[i <- c] (g_eph t) (g_alloc_full t) (g_alloc_nomem t) (g_peak t) n k.
Definition set_net (t : tcp) (n : N) : tcp := mk_tcp (g_conns t) (g_eph t) (g_alloc_full t) (g_alloc_nomem t) (g_peak t) n (t_heap t).
Definition set_eph (t : tcp) (e : Z) : tcp := mk_tcp (g_conns t) e (g_alloc_full t) (g_alloc_nomem t) (g_peak t) (t_net t) (t_heap t).
Definition set_stats (t : tcp) (full nomem peak : Z) : tcp := mk_tcp (g_conns t) (g_eph t) full nomem peak (t_net t) (t_heap t).

Definition eph_port (t : tcp) : tcp * Z :=
  let taken p := bool_decide (is_Some (first (λ c, used c && (local_port c =? p)) (g_conns t))) in
  let '(e, p) := eph_search taken (Z.to_nat 16384) (g_eph t) in
  (set_eph t e, p).

Definition tcp_count (t : tcp) : Z * Z := (count used (g_conns t), count (λ c, used c && orphan c) (g_conns t)).

(** The orphan in TIME-WAIT that expires first. *)
Definition reclaim_best (l : list tcp_conn) : Z :=
  zfor (length l) 0 (λ i best,
    let c := l.[i] in
    if used c && orphan c && is_state TCP_TIME_WAIT c && ((best <? 0) || (tw_deadline c <? tw_deadline l.[best])) then i else best) (-1).

Definition reclaim_time_wait (t : tcp) : tcp * Z :=
  let best := reclaim_best (g_conns t) in
  if 0 <=? best then
    let '(k, c) := conn_free (t_heap t) (g_conns t).[best] in (put_conn t best (t_net t) k c, best)
  else (t, best).

Definition tcp_alloc (t : tcp) : tcp * option Z :=
  let '(t1, slot) := match first (λ c, negb (used c)) (g_conns t) with
                     | Some i => (t, i)
                     | None => reclaim_time_wait t
                     end in
  if 0 <=? slot then
    let '(k1, p, b) := kmalloc (t_heap t1) TCP_TXBUF in
    let '(k2, q, d) := kmalloc k1 TCP_RXBUF in
    let c := set_rx d (set_rx_ptr q (set_tx b (set_tx_ptr p conn_zero))) in
    if negb (ztrue p) || negb (ztrue q) then
      let '(k3, c1) := conn_free k2 c in
      let t2 := put_conn t1 slot (t_net t1) k3 c1 in
      (set_stats t2 (g_alloc_full t2) (u64 (g_alloc_nomem t2 + 1)) (g_peak t2), None)
    else
      let t2 := put_conn t1 slot (t_net t1) k2 (set_state TCP_CLOSED (set_used true c)) in
      let u := (tcp_count t2).1 in
      (set_stats t2 (g_alloc_full t2) (g_alloc_nomem t2) (if g_peak t2 <? u then u else g_peak t2), Some slot)
  else (set_stats t1 (u64 (g_alloc_full t1 + 1)) (g_alloc_nomem t1) (g_peak t1), None).

Definition tcp_free (t : tcp) (i : Z) : tcp :=
  let '(k, c) := conn_free (t_heap t) (g_conns t).[i] in put_conn t i (t_net t) k c.

(** ** The non-blocking core *)

Definition tcp_start_connect (now rnd : Z) (t : tcp) (i dev dip dport : Z) : tcp * Z :=
  if dev =? NULL_DEV then (t, -1)
  else
    let c0 := set_remote_port dport (set_remote_ip dip (set_dev dev (g_conns t).[i])) in
    let '(t1, p) := eph_port (put_conn t i (t_net t) (t_heap t) c0) in
    let '(n, c1) := conn_connect now rnd (t_net t1) c0 p in
    (put_conn t1 i n (t_heap t1) c1, 0).

Definition listens_on (port : Z) (c : tcp_conn) : bool := used c && is_state TCP_LISTEN c && (local_port c =? port).

(** Give the buffers back; a listener carries no data. *)
Definition drop_buffers (k : K) (c : tcp_conn) : K * tcp_conn :=
  let '(k1, c1) := if ztrue (tx_ptr c) then (kfree k (tx_ptr c), set_tx_ptr 0 c) else (k, c) in
  if ztrue (rx_ptr c1) then (kfree k1 (rx_ptr c1), set_rx_ptr 0 c1) else (k1, c1).

Definition tcp_start_listen (t : tcp) (i dev port backlog : Z) : tcp * Z :=
  if (dev =? NULL_DEV) || (port =? 0) then (t, -1)
  else if bool_decide (is_Some (search (λ j c, negb (j =? i) && listens_on port c) (g_conns t) 0)) then (t, -1)
  else
    let b := if backlog <? 1 then 1 else backlog in
    let b := if TCP_MAX_BACKLOG <? b then TCP_MAX_BACKLOG else b in
    let '(k, c) := drop_buffers (t_heap t) (g_conns t).[i] in
    (put_conn t i (t_net t) k (set_backlog b (set_state TCP_LISTEN (set_local_port port (set_dev dev c)))), 0).

Definition queued (lc : Z) (c : tcp_conn) : bool := used c && bool_decide (listener c = Some lc) && negb (accepted c).
Definition ready (lc : Z) (c : tcp_conn) : bool := queued lc c && in_states [TCP_ESTABLISHED; TCP_CLOSE_WAIT] c.

Definition listener_queued (t : tcp) (lc : Z) (ready_only : bool) : Z :=
  count (if ready_only then ready lc else queued lc) (g_conns t).
Definition tcp_accept_pending (t : tcp) (lc : Z) : Z := listener_queued t lc true.

Definition tcp_accept_ready (t : tcp) (lc : Z) : tcp * option Z :=
  match first (ready lc) (g_conns t) with
  | Some i => (put_conn t i (t_net t) (t_heap t) (set_accepted true (g_conns t).[i]), Some i)
  | None => (t, None)
  end.

Definition tcp_write (now : Z) (t : tcp) (i : Z) (data : list Z) : tcp * Z :=
  let '(n, c, r) := conn_write now (t_net t) (g_conns t).[i] data in (put_conn t i n (t_heap t) c, r).

Definition tcp_read (t : tcp) (i len : Z) : tcp * list Z * Z :=
  let '(n, c, d, r) := conn_read (t_net t) (g_conns t).[i] len in (put_conn t i n (t_heap t) c, d, r).

Definition tcp_start_close (now : Z) (t : tcp) (i : Z) : tcp :=
  let '(n, c) := conn_start_close now (t_net t) (g_conns t).[i] in put_conn t i n (t_heap t) c.

(** Drop one child of the listener [lc]. *)
Definition release_child (lc j : Z) (t : tcp) : tcp :=
  let ch := (g_conns t).[j] in
  if used ch && bool_decide (listener ch = Some lc) then
    if negb (accepted ch) then
      let n := if negb (is_state TCP_CLOSED ch) then (tcp_xmit (t_net t) ch (Z.lor F_RST F_ACK) [] (snd_nxt ch)).1 else t_net t in
      let '(k, ch1) := conn_free (t_heap t) ch in put_conn t j n k ch1
    else put_conn t j (t_net t) (t_heap t) (set_listener None ch)
  else t.

Definition tcp_release (now : Z) (t : tcp) (i : Z) : tcp :=
  let c := (g_conns t).[i] in
  if negb (used c) then t
  else if is_state TCP_LISTEN c then tcp_free (zfor (length (g_conns t)) 0 (release_child i) t) i
  else let '(n, k, c1) := conn_release now (t_net t) (t_heap t) c in put_conn t i n k c1.

Definition tcp_tx_space (c : tcp_conn) : Z := s32 (TCP_TXBUF - tx_len c).

(** ** The stack's hooks *)

Definition matches (sip sport dport : Z) (c : tcp_conn) : bool :=
  used c && negb (is_state TCP_LISTEN c) && negb (is_state TCP_CLOSED c) &&
  (local_port c =? dport) && (remote_port c =? sport) && (remote_ip c =? sip).
Definition find_conn (t : tcp) (sip sport dport : Z) : option Z := first (matches sip sport dport) (g_conns t).
Definition find_listener (t : tcp) (dport : Z) : option Z := first (listens_on dport) (g_conns t).

(** A fresh control block [c] becomes a child of the listener [lc]. *)
Definition conn_passive (now rnd : Z) (n : N) (c : tcp_conn) (lc dev src_ip : Z) (h : tcp_hdr) : N * tcp_conn :=
  let c := set_local_port (h_dport h) (set_remote_port (h_sport h) (set_remote_ip src_ip (set_dev dev c))) in
  let c := set_iss rnd (set_listener (Some lc) c) in
  let c := set_snd_nxt rnd (set_snd_una rnd (set_rcv_nxt (u32 (h_seq h + 1)) c)) in
  let c := set_state TCP_SYN_RCVD (set_snd_wnd (h_wnd h) c) in
  ((tcp_xmit n c (Z.lor F_SYN F_ACK) [] (iss c)).1, arm_rto now (set_snd_nxt (u32 (iss c + 1)) c)).

(** A SYN for the listener [lc]. *)
Definition passive_open (now rnd : Z) (t : tcp) (lc dev src_ip : Z) (h : tcp_hdr) : tcp :=
  if backlog (g_conns t).[lc] <=? listener_queued t lc false then t
  else
    match tcp_alloc t with
    | (t1, None) => t1
    | (t1, Some i) => let '(n, c) := conn_passive now rnd (t_net t1) (g_conns t1).[i] lc dev src_ip h in put_conn t1 i n (t_heap t1) c
    end.

Definition tcp_input (now rnd : Z) (t : tcp) (dev src_ip : Z) (seg : list Z) : tcp :=
  match tcp_parse seg with
  | None => t
  | Some h =>
      match find_conn t src_ip (h_sport h) (h_dport h) with
      | None =>
          match find_listener t (h_dport h) with
          | Some lc => if hflag h F_SYN && negb (hflag h F_ACK) then passive_open now rnd t lc dev src_ip h else t
          | None => t
          end
      | Some i => let '(n, k, c) := conn_input now (t_net t) (t_heap t) (g_conns t).[i] h in put_conn t i n k c
      end
  end.

Definition tick_slot (now i : Z) (t : tcp) : tcp :=
  let '(n, k, c) := conn_tick now (t_net t) (t_heap t) (g_conns t).[i] in put_conn t i n k c.
Definition tcp_tick (now : Z) (t : tcp) : tcp := zfor (length (g_conns t)) 0 (tick_slot now) t.
End tcp.
Arguments tcp : clear implicits.
