(* ===== verification/TcpSeg.v ===== *)
(** * TCP segments on the wire

    What [tcp_xmit] builds, [tcp_parse] reads back field by field; the checksum
    of every segment verifies over the pseudo-header; and what the layer below
    promises ([IpLaws]): it carries the packets given to it and no others. *)

From S2P Require Import Prelude NetBase Net Tcp.

(** The header [tcp_xmit] writes for a control block. *)
Definition hdr_of (c : tcp_conn) (flags : Z) (data : list Z) (seq : Z) : tcp_hdr :=
  mk_hdr (local_port c) (remote_port c) seq (rcv_nxt c) flags (let f := u32 (TCP_RXBUF - rx_len c) in if 65535 <? f then 65535 else f) data.

(** The flag combinations the code sends. *)
Definition sends_flags (flags : Z) : Prop :=
  flags ∈ [F_SYN; Z.lor F_SYN F_ACK; F_ACK; Z.lor F_ACK F_PSH; Z.lor F_ACK F_FIN; Z.lor F_RST F_ACK].

Definition ports_ok (c : tcp_conn) : Prop := is_u16 (local_port c) ∧ is_u16 (remote_port c).

Lemma advertised_u16 x : is_u16 (let f := u32 x in if 65535 <? f then 65535 else f).
Proof. cbn. pose proof (u32_range x). case_match; zbool; unfold_uint; lia. Qed.

(** A segment laid out field by field, with a header of [20 + zlen opts] bytes. *)
Lemma parse_layout lp rp sq ak fl w c1 c2 opts data :
  is_u16 lp → is_u16 rp → is_u32 sq → is_u32 ak → is_u16 w → opts = [] ∨ length opts = 4%nat →
  tcp_parse (be16 lp ++ be16 rp ++ be32 sq ++ be32 ak ++ [u8 (Z.shiftl ((20 + zlen opts) / 4) 4); fl] ++ be16 w ++ [c1; c2] ++ [0; 0] ++ opts ++ data) =
  Some (mk_hdr lp rp sq ak fl w data).
Proof.
  intros Hlp Hrp Hsq Hak Hw Ho. set (l := be16 lp ++ _). unfold tcp_parse.
  assert (Hlen : zlen l = 20 + zlen opts + zlen data) by (unfold l; rewrite !length_app; cbn [length be16 be32]; lia).
  assert (Hoff : Z.shiftr l.[12] 4 * 4 = 20 + zlen opts).
  { change l.[12] with (u8 (Z.shiftl ((20 + zlen opts) / 4) 4)). destruct Ho as [->|Ho]; [done|]. by rewrite Ho. }
  rewrite Hoff, (rd_be16_at l 0 lp _ ltac:(lia) eq_refl Hlp), (rd_be16_at l 2 rp _ ltac:(lia) eq_refl Hrp),
    (rd_be32_at l 4 sq _ ltac:(lia) eq_refl Hsq), (rd_be32_at l 8 ak _ ltac:(lia) eq_refl Hak), (rd_be16_at l 14 w _ ltac:(lia) eq_refl Hw).
  change l.[13] with fl.
  assert (Hdrop : drop (Z.to_nat (20 + zlen opts)) l = data).
  { replace (Z.to_nat (20 + zlen opts)) with (20 + length opts)%nat by lia. rewrite <- drop_drop. change (drop 20 l) with (opts ++ data). apply drop_app_length. }
  rewrite Hdrop. rewrite Hlen. destruct (Z.ltb_spec (20 + zlen opts + zlen data) 20); [lia|]. destruct (Z.ltb_spec (20 + zlen opts) 20); [lia|]. by destruct (Z.ltb_spec (20 + zlen opts + zlen data) (20 + zlen opts)); [lia|].
Qed.

Lemma tcp_parse_segment c flags data seq csum :
  ports_ok c → is_u32 seq → is_u32 (rcv_nxt c) → sends_flags flags →
  tcp_parse (tcp_segment c flags data seq (be16 csum)) = Some (hdr_of c flags data seq).
Proof.
  intros [Hl Hr] Hs Hn Hf. unfold tcp_segment, hdr_of.
  pose proof (advertised_u16 (TCP_RXBUF - rx_len c)) as Hw. set (w := let f := u32 (TCP_RXBUF - rx_len c) in if 65535 <? f then 65535 else f) in *. clearbody w.
  assert (Hu : u8 flags = flags) by (unfold sends_flags in Hf; rewrite !elem_of_cons, elem_of_nil in Hf; naive_solver). rewrite Hu.
  destruct (ztrue (Z.land flags F_SYN)).
  - apply (parse_layout (local_port c) (remote_port c) seq (rcv_nxt c) flags w _ _ ([2; 4] ++ be16 TCP_MSS) data); auto.
  - apply (parse_layout (local_port c) (remote_port c) seq (rcv_nxt c) flags w _ _ [] data); auto.
Qed.

(** ** The checksum of a segment *)

Lemma segment_split c flags data seq : ∃ pre post, zlen pre = 16 ∧ bytes pre ∧ (bytes data → bytes post) ∧ zlen post ≤ 6 + zlen data ∧
  ∀ csum, tcp_segment c flags data seq csum = pre ++ csum ++ post.
Proof.
  unfold tcp_segment. cbv zeta. set (w := if 65535 <? _ then _ else _).
  exists (be16 (local_port c) ++ be16 (remote_port c) ++ be32 seq ++ be32 (rcv_nxt c) ++
    [u8 (Z.shiftl ((if ztrue (Z.land flags F_SYN) then 24 else 20) / 4) 4); u8 flags] ++ be16 w),
    ([0; 0] ++ (if ztrue (Z.land flags F_SYN) then [2; 4] ++ be16 TCP_MSS else []) ++ data).
  split_and!.
  - done.
  - unfold bytes, be16, be32. cbn [app]. repeat first [apply Forall_cons; split; [apply u8_range|] | apply Forall_nil; done].
  - intros Hd. unfold bytes. rewrite !Forall_app, !Forall_cons. split_and!; try done. case_match; [|done]. apply Forall_app. split; [|apply be16_bytes].
    repeat first [apply Forall_cons; split; [unfold_uint; lia|] | apply Forall_nil; done].
  - rewrite !length_app. case_match; cbn; lia.
  - intros csum. by rewrite <- !app_assoc.
Qed.

Lemma pseudo_header_bytes src dst proto len : is_u8 proto → bytes (pseudo_header src dst proto len) ∧ zlen (pseudo_header src dst proto len) = 12.
Proof.
  intros Hp. split; [|done]. unfold bytes, pseudo_header. rewrite !Forall_app. split_and!; [apply ip_octets_bytes.. | | apply be16_bytes].
  repeat first [apply Forall_cons; split; [unfold_uint; lia|] | apply Forall_nil; done].
Qed.

Lemma segment_checksum src dst c flags data seq : bytes data → zlen data ≤ 60000 →
  let s0 := tcp_segment c flags data seq [0; 0] in
  let ph := pseudo_header src dst IP_PROTO_TCP (zlen s0) in
  net_checksum (ph ++ tcp_segment c flags data seq (be16 (net_checksum (ph ++ s0)))) = 0.
Proof.
  intros Hd Hl s0 ph. destruct (segment_split c flags data seq) as (pre & post & Hpre & Hb & Hp & Hpl & Hs).
  destruct (pseudo_header_bytes src dst IP_PROTO_TCP (zlen s0)) as [Hph Hpz]; [unfold_uint; vm_compute; done|]. fold ph in Hph, Hpz.
  unfold s0. rewrite !Hs. rewrite !app_assoc. rewrite <- !(app_assoc (ph ++ pre)).
  apply (net_checksum_law (ph ++ pre) post).
  - rewrite length_app, Nat2Z.inj_add, Hpz, Hpre. done.
  - unfold bytes. by rewrite Forall_app.
  - by apply Hp.
  - rewrite length_app. lia.
Qed.

(** ** The promise of the layer below

    [carries n dst b]: a packet with the TCP segment [b] for [dst] has been handed
    to a driver.  Sending adds at most the segment sent. *)
Class IpLaws (N : Type) `{IpOps N} := {
  carries : N → Z → list Z → Prop;
  ip_send_carries n dev dst b d x :
    carries (ip_send n dev dst IP_PROTO_TCP b).1 d x → carries n d x ∨ x = b ∧ (u32 d = u32 dst ∨ u32 dst = 0xFFFFFFFF)
}.

Section xmit.
Context {N : Type} {IP : IpOps N} {IPL : IpLaws N}.

Lemma tcp_xmit_carries n c flags data seq d x :
  ports_ok c → is_u32 seq → is_u32 (rcv_nxt c) → sends_flags flags →
  carries (tcp_xmit n c flags data seq).1 d x →
  carries n d x ∨ tcp_parse x = Some (hdr_of c flags data seq) ∧ (u32 d = u32 (remote_ip c) ∨ u32 (remote_ip c) = 0xFFFFFFFF).
Proof.
  intros Hp Hs Hn Hf [?|[-> Hd]]%ip_send_carries; [by left|]. right. split; [by apply tcp_parse_segment | done].
Qed.
End xmit.
