(* ===== verification/TcpGhost.v ===== *)
(** * One end of a TCP connection

    What a control block knows of the two byte streams of its connection.  A
    [ghost] records the history of one end: the bytes its user wrote, how many of
    them were ever sent, whether a FIN was, how much of the peer's stream was
    received in order, whether its FIN was, and what was handed to the reader.
    [live] ties the sequence numbers, the send buffer and the receive ring of a
    control block to the histories of both ends, and every segment on the wire to
    the history of its sender; every operation keeps it. *)

From S2P Require Import Prelude NetBase Net Ring Tcp TcpSeg.

(** ** Histories *)

Record ghost := mk_ghost {
  g_iss : Z;        (** initial sequence number *)
  g_W : list Z;     (** bytes written *)
  g_S : Z;          (** bytes sent at least once *)
  g_F : bool;       (** FIN sent *)
  g_R : Z;          (** bytes received in order *)
  g_FR : bool;      (** FIN received *)
  g_D : list Z      (** bytes read *)
}.

(** Sequence numbers of one connection are compared within half the space. *)
Definition STREAM_MAX : Z := 2 ^ 31 - 3.

Record wf_snd (g : ghost) : Prop := {
  ws_iss : is_u32 (g_iss g);
  ws_S : 0 ≤ g_S g ≤ zlen (g_W g);
  ws_F : g_F g = true → g_S g = zlen (g_W g);
  ws_max : zlen (g_W g) ≤ STREAM_MAX
}.
Record wf_rcv (g p : ghost) : Prop := {
  wr_R : 0 ≤ g_R g ≤ g_S p;
  wr_FR : g_FR g = true → g_F p = true ∧ g_R g = zlen (g_W p)
}.

(** [g'] continues [g]. *)
Record ghost_le (g g' : ghost) : Prop := {
  gl_iss : g_iss g' = g_iss g;
  gl_W : g_W g `prefix_of` g_W g';
  gl_S : g_S g ≤ g_S g';
  gl_F : g_F g = true → g_F g' = true ∧ g_W g' = g_W g;
  gl_R : g_R g ≤ g_R g';
  gl_FR : g_FR g = true → g_FR g' = true ∧ g_R g' = g_R g
}.

Lemma ghost_le_refl g : ghost_le g g.
Proof. constructor; done. Qed.
Lemma ghost_le_trans g1 g2 g3 : ghost_le g1 g2 → ghost_le g2 g3 → ghost_le g1 g3.
Proof.
  intros [A1 A2 A3 A4 A5 A6] [B1 B2 B3 B4 B5 B6]. constructor.
  - congruence.
  - by transitivity (g_W g2).
  - lia.
  - intros H. destruct (A4 H) as [H1 E1]. destruct (B4 H1) as [H2 E2]. split; congruence.
  - lia.
  - intros H. destruct (A6 H) as [H1 E1]. destruct (B6 H1) as [H2 E2]. split; congruence.
Qed.

(** ** Segments *)

(** A segment of the end [g] to the end [p]. *)
Record hdr_ok (g p : ghost) (h : tcp_hdr) : Prop := {
  ho_syn : hflag h F_SYN = true → h_seq h = g_iss g ∧ h_data h = [] ∧ hflag h F_FIN = false;
  ho_ack : hflag h F_SYN = false → hflag h F_ACK = true;
  ho_data : h_data h ≠ [] → ∃ k, 0 ≤ k ∧ k + zlen (h_data h) ≤ g_S g ∧ h_seq h = u32 (g_iss g + 1 + k) ∧
    h_data h = take (length (h_data h)) (drop (Z.to_nat k) (g_W g));
  ho_fin : hflag h F_FIN = true → g_F g = true ∧ h_data h = [] ∧ h_seq h = u32 (g_iss g + 1 + zlen (g_W g));
  ho_acks : hflag h F_ACK = true → ∃ k (f : bool), 0 ≤ k ≤ g_R g ∧ h_ack h = u32 (g_iss p + 1 + k + b2z f) ∧
    (f = true → g_FR g = true ∧ k = g_R g)
}.

Lemma prefix_drop_take {A} (l l' : list A) (k m : nat) : l `prefix_of` l' → (k + m ≤ length l)%nat →
  take m (drop k l') = take m (drop k l).
Proof. intros [r ->] Hk. rewrite drop_app_le by lia. rewrite take_app_le; [done|]. rewrite length_drop. lia. Qed.

(** A sent segment stays right while both histories grow. *)
Lemma hdr_ok_mono g g' p p' h : wf_snd g → ghost_le g g' → ghost_le p p' → hdr_ok g p h → hdr_ok g' p' h.
Proof.
  intros Hw Hg Hp [H1 H2 H3 H4 H5]. constructor.
  - intros H. rewrite (gl_iss _ _ Hg). auto.
  - done.
  - intros H. destruct (H3 H) as (k & Hk & Hkl & Es & Ed). exists k. rewrite (gl_iss _ _ Hg). pose proof (gl_S _ _ Hg). pose proof (ws_S _ Hw).
    split_and!; [done | lia | done |]. rewrite (prefix_drop_take (g_W g)); [done | apply Hg | lia].
  - intros H. destruct (H4 H) as (Hf & Hd & Es). destruct (gl_F _ _ Hg Hf) as [Hf' EW]. rewrite (gl_iss _ _ Hg), EW. done.
  - intros H. destruct (H5 H) as (k & f & Hk & Ea & Hf). exists k, f. rewrite (gl_iss _ _ Hp). pose proof (gl_R _ _ Hg). split_and!; [lia | lia | done |].
    intros E. destruct (Hf E) as [HF ->]. destruct (gl_FR _ _ Hg HF). split; congruence.
Qed.

(** ** Control blocks *)

Definition sent_fin (s : tcp_state_t) : bool := bool_decide (s ∈ [TCP_FIN_WAIT_1; TCP_FIN_WAIT_2; TCP_CLOSING; TCP_LAST_ACK; TCP_TIME_WAIT]).
Definition got_fin (s : tcp_state_t) : bool := bool_decide (s ∈ [TCP_CLOSE_WAIT; TCP_CLOSING; TCP_LAST_ACK; TCP_TIME_WAIT]).
Definition opening (s : tcp_state_t) : bool := bool_decide (s ∈ [TCP_SYN_SENT; TCP_SYN_RCVD]).
Definition alive (c : tcp_conn) : bool := used c && negb (in_states [TCP_CLOSED; TCP_LISTEN] c).

Lemma alive_split c : alive c = true ↔ used c = true ∧ state c ≠ TCP_CLOSED ∧ state c ≠ TCP_LISTEN.
Proof.
  unfold alive, in_states. rewrite andb_true_iff, negb_true_iff, bool_decide_eq_false. set_solver.
Qed.

(** A control block as [tcp_alloc] gives it out. *)
Definition fresh (c : tcp_conn) : Prop :=
  ∃ p b q d, zlen b = TCP_TXBUF ∧ zlen d = TCP_RXBUF ∧
    c = set_state TCP_CLOSED (set_used true (set_rx d (set_rx_ptr q (set_tx b (set_tx_ptr p conn_zero))))).

(** How far the peer acknowledged: [tx] holds the bytes from there on. *)
Definition unacked (c : tcp_conn) (g : ghost) : Z := zlen (g_W g) - tx_len c.

Record snd_ok (c : tcp_conn) (g : ghost) : Prop := {
  so_iss : iss c = g_iss g;
  so_len : 0 ≤ tx_len c ≤ TCP_TXBUF;
  so_buf : zlen (tx c) = TCP_TXBUF;
  so_una : 0 ≤ unacked c g ≤ g_S g;
  so_tx : take (Z.to_nat (tx_len c)) (tx c) = drop (Z.to_nat (unacked c g)) (g_W g);
  so_nxt : snd_nxt c = u32 (g_iss g + 1 + g_S g + b2z (g_F g));
  so_fin : fin_sent c = g_F g;
  so_state : sent_fin (state c) = g_F g;
  so_open : opening (state c) = true → g_W g = [] ∧ fin_pending c = false ∧ snd_una c = g_iss g;
  so_sync : opening (state c) = false → ∃ fa : bool, snd_una c = u32 (g_iss g + 1 + unacked c g + b2z fa) ∧ (fa = true → g_F g = true ∧ tx_len c = 0)
}.

Record ring_ok (c : tcp_conn) (g p : ghost) : Prop := {
  ro_head : 0 ≤ rx_head c < TCP_RXBUF;
  ro_len : 0 ≤ rx_len c ≤ TCP_RXBUF;
  ro_buf : zlen (rx c) = TCP_RXBUF;
  ro_data : g_D g ++ ring TCP_RXBUF (rx c) (rx_head c) (rx_len c) = take (Z.to_nat (g_R g)) (g_W p)
}.

Record rcv_ok (c : tcp_conn) (g p : ghost) : Prop := {
  vo_state : got_fin (state c) = g_FR g;
  vo_first : state c = TCP_SYN_SENT → g_R g = 0;
  vo_nxt : state c ≠ TCP_SYN_SENT → rcv_nxt c = u32 (g_iss p + 1 + g_R g + b2z (g_FR g));
  vo_u32 : is_u32 (rcv_nxt c)
}.

Section ends.
Context {N K : Type} {IP : IpOps N} {IPL : IpLaws N} {HEAP : BufOps K}.
(** The connection: ports and the peer's address. *)
Context (lp rp dst : Z) (Hlp : is_u16 lp) (Hrp : is_u16 rp).

Record named (c : tcp_conn) : Prop := { nm_l : local_port c = lp; nm_r : remote_port c = rp; nm_ip : remote_ip c = dst }.

(** Every segment of this connection on the wire is right. *)
Definition net_ok (n : N) (g p : ghost) : Prop :=
  ∀ x h, carries n dst x → tcp_parse x = Some h → h_sport h = lp → h_dport h = rp → hdr_ok g p h.

Record live (n : N) (c : tcp_conn) (g p : ghost) : Prop := {
  lv_name : named c;
  lv_alive : alive c = true;
  lv_ws : wf_snd g;
  lv_wr : wf_rcv g p;
  lv_ring : ring_ok c g p;
  lv_snd : snd_ok c g;
  lv_rcv : rcv_ok c g p;
  lv_net : net_ok n g p
}.

(** The rest that holds of a control block that is closed or free. *)
Record dead (n : N) (c : tcp_conn) (g p : ghost) : Prop := {
  dd_name : named c;
  dd_ws : wf_snd g;
  dd_wr : wf_rcv g p;
  dd_ring : ring_ok c g p;
  dd_net : net_ok n g p
}.

(** A step that neither writes nor reads. *)
Definition quiet (g g' : ghost) : Prop := ghost_le g g' ∧ g_W g' = g_W g ∧ g_D g' = g_D g.

Lemma quiet_refl g : quiet g g.
Proof. split; [apply ghost_le_refl | done]. Qed.
Lemma quiet_trans g1 g2 g3 : quiet g1 g2 → quiet g2 g3 → quiet g1 g3.
Proof. intros (A & B & C) (A' & B' & C'). split_and!; [by eapply ghost_le_trans | congruence..]. Qed.

Lemma live_dead n c g p : live n c g p → dead n c g p.
Proof. intros []. by constructor. Qed.

Lemma net_ok_mono n g g' p p' : wf_snd g → ghost_le g g' → ghost_le p p' → net_ok n g p → net_ok n g' p'.
Proof. intros Hw Hg Hp Hn x h H1 H2 H3 H4. eapply hdr_ok_mono; [done..|]. by eapply Hn. Qed.

Lemma net_ok_xmit n c g p flags data seq : named c → is_u32 seq → is_u32 (rcv_nxt c) → sends_flags flags →
  net_ok n g p → hdr_ok g p (hdr_of c flags data seq) → net_ok (tcp_xmit n c flags data seq).1 g p.
Proof.
  intros [Hl Hr Hi] Hs Hv Hf Hn Hh x h Hc Hx Hsp Hdp.
  apply tcp_xmit_carries in Hc as [Hc|[E _]]; try done; [by eapply Hn | | by unfold ports_ok; rewrite Hl, Hr].
  rewrite E in Hx. by injection Hx as <-.
Qed.
End ends.
