(* ===== verification/TcpEnd.v ===== *)
(** * The operations keep the histories

    Each operation on a control block, from [tcp_output] to the timer, keeps
    [live]: the history of its end grows, and what it sends is right. *)

From S2P Require Import Prelude NetBase Net Ring Tcp TcpSeg TcpGhost.

(** ** Sequence arithmetic *)

Lemma u32_sub x y : 0 ≤ x - y < 4294967296 → u32 (u32 x - u32 y) = x - y.
Proof. intros. unfold u32. rewrite <- Zminus_mod. by apply Z.mod_small. Qed.
Lemma s32_sub x y : - 2147483648 ≤ x - y < 2147483648 → s32 (u32 x - u32 y) = x - y.
Proof.
  intros H. unfold s32, u32. rewrite <- Zminus_mod. destruct (decide (0 ≤ x - y)).
  - rewrite Z.mod_small by lia. case_match; lia.
  - assert ((x - y) mod 4294967296 = x - y + 4294967296) as -> by (symmetry; apply (Z.mod_unique _ _ (-1)); lia). case_match; lia.
Qed.
Lemma u32_inj x y : - 4294967296 < x - y < 4294967296 → u32 x = u32 y → x = y.
Proof. intros H E. unfold u32 in E. Z.to_euclidean_division_equations; lia. Qed.
Lemma u32_add_l x y : u32 (u32 x + y) = u32 (x + y).
Proof. unfold u32. by rewrite Zplus_mod_idemp_l. Qed.

Ltac conn_simpl := unfold unacked in *; cbn in *.
Ltac flags := match goal with |- sends_flags _ => unfold sends_flags; rewrite !elem_of_cons; tauto end.

Section ends.
Context {N K : Type} {IP : IpOps N} {IPL : IpLaws N} {HEAP : BufOps K}.
Context (lp rp dst : Z) (Hlp : is_u16 lp) (Hrp : is_u16 rp).
Local Abbreviation live := (live lp rp dst).
Local Abbreviation named := (named lp rp dst).
Local Abbreviation net_ok := (net_ok lp rp dst).
Local Abbreviation dead := (dead lp rp dst).

(** ** What the segments say *)

Lemma hdr_acks c g p flags data seq : rcv_ok c g p → wf_rcv g p → state c ≠ TCP_SYN_SENT →
  ∃ k (f : bool), 0 ≤ k ≤ g_R g ∧ h_ack (hdr_of c flags data seq) = u32 (g_iss p + 1 + k + b2z f) ∧ (f = true → g_FR g = true ∧ k = g_R g).
Proof.
  intros Hv Hw Hs. exists (g_R g), (g_FR g). pose proof (wr_R _ _ Hw). split_and!; [lia | lia | by apply Hv | done].
Qed.

Lemma hdr_pure c g p flags seq : flags = F_ACK ∨ flags = Z.lor F_RST F_ACK →
  rcv_ok c g p → wf_rcv g p → state c ≠ TCP_SYN_SENT → hdr_ok g p (hdr_of c flags [] seq).
Proof. intros Hf Hv Hw Hs. constructor; try (by destruct Hf as [->| ->]). intros _. by apply hdr_acks. Qed.

Lemma hdr_syn c g p : iss c = g_iss g → hdr_ok g p (hdr_of c F_SYN [] (iss c)).
Proof. intros Hi. by constructor. Qed.

Lemma hdr_synack c g p : iss c = g_iss g → rcv_ok c g p → wf_rcv g p → state c ≠ TCP_SYN_SENT →
  hdr_ok g p (hdr_of c (Z.lor F_SYN F_ACK) [] (iss c)).
Proof. intros Hi Hv Hw Hs. constructor; try done. intros _. by apply hdr_acks. Qed.

Lemma hdr_fin c g p seq : g_F g = true → seq = u32 (g_iss g + 1 + zlen (g_W g)) → rcv_ok c g p → wf_rcv g p → state c ≠ TCP_SYN_SENT →
  hdr_ok g p (hdr_of c (Z.lor F_ACK F_FIN) [] seq).
Proof. intros Hf -> Hv Hw Hs. constructor; try done. intros _. by apply hdr_acks. Qed.

Lemma hdr_data c g p k m : 0 ≤ k → 0 ≤ m → k + m ≤ g_S g → wf_snd g → rcv_ok c g p → wf_rcv g p → state c ≠ TCP_SYN_SENT →
  hdr_ok g p (hdr_of c (Z.lor F_ACK F_PSH) (take (Z.to_nat m) (drop (Z.to_nat k) (g_W g))) (u32 (g_iss g + 1 + k))).
Proof.
  intros Hk Hm Hkm Hws Hv Hw Hs. pose proof (ws_S _ Hws). constructor; try done.
  - intros _. exists k. cbn [hdr_of h_data h_seq]. rewrite length_take, length_drop. split_and!; [done | lia | done |].
    f_equal. lia.
  - intros _. by apply hdr_acks.
Qed.

(** ** Sending *)

Lemma sent_off_sync c g : snd_ok c g → wf_snd g → opening (state c) = false →
  ∃ fa : bool, u32 (snd_nxt c - snd_una c) = g_S g - unacked c g + b2z (g_F g) - b2z fa ∧ (fa = true → g_F g = true ∧ tx_len c = 0).
Proof.
  intros Hs Hw Ho. destruct (so_sync _ _ Hs Ho) as (fa & Hu & Hfa). exists fa. split; [|done].
  rewrite (so_nxt _ _ Hs), Hu. pose proof (so_una _ _ Hs). pose proof (ws_S _ Hw). pose proof (ws_max _ Hw). unfold STREAM_MAX in *.
  rewrite u32_sub; [lia|]. destruct fa, (g_F g) eqn:E; cbn [b2z]; lia.
Qed.

(** The control block with a longer sent part. *)
Definition more_sent (g : ghost) (S : Z) (F : bool) : ghost := mk_ghost (g_iss g) (g_W g) S F (g_R g) (g_FR g) (g_D g).

Lemma more_sent_quiet g S F : g_S g ≤ S → (g_F g = true → F = true) → quiet g (more_sent g S F).
Proof. intros HS HF. split; [|done]. constructor; cbn; try done. intros H. by split; [apply HF|]. Qed.

Lemma out_loop_live fuel now wnd sent n c g p : live n c g p → g_F g = false → opening (state c) = false →
  sent = g_S g - unacked c g →
  let '(n', c') := out_loop fuel now wnd sent n c in
  ∃ g', quiet g g' ∧ live n' c' g' p ∧ g_F g' = false ∧ state c' = state c ∧ fin_pending c' = fin_pending c.
Proof.
  revert sent n c g. induction fuel as [|fuel IH]; intros sent n c g HL HF Ho Hsent; cbn [out_loop].
  { exists g. split; [apply quiet_refl|]. done. }
  assert (Hstop : ∃ g', quiet g g' ∧ live n c g' p ∧ g_F g' = false ∧ state c = state c ∧ fin_pending c = fin_pending c).
  { exists g. split; [apply quiet_refl|]. done. }
  destruct (Z.ltb_spec sent (tx_len c)) as [Hlt|]; cbn [negb]; [|done]. destruct (Z.leb_spec wnd sent) as [|Hwn]; [done|].
  set (chunk := Z.min _ _). destruct (Z.eqb_spec chunk 0) as [|Hc0]; [done|].
  destruct HL as [Hnm Hlv Hws Hwr Hring Hsnd Hrcv Hnet].
  pose proof (so_una _ _ Hsnd) as Hu. pose proof (ws_S _ Hws) as HS. pose proof (ws_max _ Hws) as Hmax. unfold STREAM_MAX in Hmax.
  pose proof (so_len _ _ Hsnd) as Hlen. unfold TCP_TXBUF in Hlen.
  assert (Hch : 0 < chunk ∧ chunk ≤ tx_len c - sent) by (unfold chunk, TCP_MSS; lia). clearbody chunk.
  set (g1 := more_sent g (g_S g + chunk) false).
  assert (Hq : quiet g g1) by (apply more_sent_quiet; [lia | by rewrite HF]).
  assert (Hw1 : wf_snd g1) by (constructor; cbn; [apply Hws | unfold unacked in *; lia | done | apply Hws]).
  assert (Hdata : take (Z.to_nat chunk) (drop (Z.to_nat sent) (tx c)) = take (Z.to_nat chunk) (drop (Z.to_nat (g_S g)) (g_W g))).
  { transitivity (take (Z.to_nat chunk) (drop (Z.to_nat sent) (take (Z.to_nat (tx_len c)) (tx c)))).
    - rewrite skipn_firstn_comm, take_take. f_equal. lia.
    - rewrite (so_tx _ _ Hsnd), drop_drop. do 2 f_equal. lia. }
  rewrite u32_small by (unfold_uint; lia).
  assert (HL1 : live (tcp_xmit n c (Z.lor F_ACK F_PSH) (take (Z.to_nat chunk) (drop (Z.to_nat sent) (tx c))) (snd_nxt c)).1
    (arm_rto now (set_snd_nxt (u32 (snd_nxt c + chunk)) c)) g1 p).
  { constructor; [| done | done | by destruct Hwr; constructor | by destruct Hring; constructor | | by destruct Hrcv; constructor |].
    - by destruct Hnm; constructor.
    - constructor; unfold unacked in *; cbn; try apply Hsnd; try lia.
      + rewrite (so_nxt _ _ Hsnd), HF, u32_add_l. f_equal. cbn. lia.
      + rewrite (so_fin _ _ Hsnd). done.
      + rewrite (so_state _ _ Hsnd). done.
      + intros Ho'. destruct (so_sync _ _ Hsnd Ho') as (fa & E & Hfa). exists fa. by rewrite HF in Hfa.
    - apply net_ok_xmit; try done.
      + rewrite (so_nxt _ _ Hsnd). apply u32_range.
      + apply Hrcv.
      + unfold sends_flags. set_solver.
      + eapply net_ok_mono; [exact Hws | apply Hq | apply ghost_le_refl | done].
      + rewrite Hdata, (so_nxt _ _ Hsnd), HF. replace (g_iss g + 1 + g_S g + b2z false) with (g_iss g1 + 1 + g_S g) by (cbn; lia).
        change (g_W g) with (g_W g1). apply hdr_data; try done; cbn; [lia | lia | by destruct Hrcv; constructor | by destruct Hwr; constructor |].
        intros E. rewrite E in Ho. done. }
  specialize (IH (sent + chunk) _ _ g1 HL1 eq_refl Ho). cbn in IH. destruct (out_loop _ _ _ _ _ _) as [n' c'].
  destruct IH as (g' & Hq' & IH); [conn_simpl; lia|]. exists g'. split; [by eapply quiet_trans | done].
Qed.

Lemma opening_empty c g : snd_ok c g → opening (state c) = true → tx_len c = 0 ∧ g_F g = false.
Proof.
  intros Hs Ho. destruct (so_open _ _ Hs Ho) as (HW & _ & _). pose proof (so_una _ _ Hs) as Hu. pose proof (so_len _ _ Hs). unfold unacked in Hu. rewrite HW in Hu. cbn in Hu.
  split; [lia|]. rewrite <- (so_state _ _ Hs). by destruct (state c).
Qed.

Lemma out_data_live now n c g p : live n c g p →
  let '(n', c') := out_data now n c in
  ∃ g', quiet g g' ∧ live n' c' g' p ∧ g_F g' = g_F g ∧ state c' = state c ∧ fin_pending c' = fin_pending c.
Proof.
  intros HL. assert (Hsame : ∃ g', quiet g g' ∧ live n c g' p ∧ g_F g' = g_F g ∧ state c = state c ∧ fin_pending c = fin_pending c).
  { exists g. split; [apply quiet_refl | done]. }
  unfold out_data. destruct (opening (state c)) eqn:Ho.
  { destruct (opening_empty c g) as [-> _]; [apply HL | done |]. done. }
  destruct (sent_off_sync c g) as (fa & Es & Hfa); [apply HL.. | done |]. rewrite Es. destruct (g_F g) eqn:HF.
  - assert (Hge : tx_len c ≤ g_S g - unacked c g + b2z true - b2z fa).
    { pose proof (ws_F _ (lv_ws _ _ _ _ _ _ _ HL) HF). unfold unacked. destruct fa; cbn [b2z]; [destruct (Hfa eq_refl)|]; lia. }
    destruct (Z.to_nat (tx_len c)) as [|fuel]; [done|]. cbn [out_loop]. rewrite (proj2 (Z.ltb_ge _ _)) by done. done.
  - destruct fa; [by destruct (Hfa eq_refl)|]. cbn [b2z].
    pose proof (out_loop_live (Z.to_nat (tx_len c)) now (if ztrue (snd_wnd c) then snd_wnd c else 1) (g_S g - unacked c g + 0 - 0) n c g p HL HF Ho ltac:(lia)) as H.
    destruct (out_loop _ _ _ _ _ _) as [n' c']. done.
Qed.

Lemma out_fin_live now n c g p : live n c g p →
  let '(n', c') := out_fin now n c in ∃ g', quiet g g' ∧ live n' c' g' p.
Proof.
  intros HL. unfold out_fin. destruct (_ && _) eqn:E; [|exists g; split; [apply quiet_refl | done]]. zbool.
  destruct HL as [Hnm Hlv Hws Hwr Hring Hsnd Hrcv Hnet].
  assert (Ho : opening (state c) = false).
  { destruct (opening (state c)) eqn:Ho; [|done]. destruct (so_open _ _ Hsnd Ho) as (_ & Hp & _). congruence. }
  assert (HF : g_F g = false) by (rewrite <- (so_fin _ _ Hsnd); done).
  destruct (sent_off_sync c g Hsnd Hws Ho) as (fa & Es & Hfa). destruct fa; [destruct (Hfa eq_refl); congruence|].
  rewrite HF in Es. cbn in Es. assert (HS : g_S g = zlen (g_W g)) by (unfold unacked in *; lia).
  assert (Hst : state c = TCP_ESTABLISHED ∨ state c = TCP_CLOSE_WAIT).
  { pose proof (so_state _ _ Hsnd) as Hst. rewrite HF in Hst. apply alive_split in Hlv as (_ & ? & ?). destruct (state c); try done; auto. }
  set (g1 := more_sent g (g_S g) true). assert (Hq : quiet g g1) by (by apply more_sent_quiet).
  exists g1. split; [done|]. pose proof (ws_S _ Hws).
  assert (Hn1 : net_ok (tcp_xmit n c (Z.lor F_ACK F_FIN) [] (snd_nxt c)).1 g1 p).
  { apply net_ok_xmit; try done.
    - rewrite (so_nxt _ _ Hsnd). apply u32_range.
    - apply Hrcv.
    - unfold sends_flags. set_solver.
    - eapply net_ok_mono; [exact Hws | apply Hq | apply ghost_le_refl | done].
    - apply hdr_fin; try done; [| by destruct Hrcv; constructor | by destruct Hwr; constructor | intros E; by rewrite E in Ho].
      rewrite (so_nxt _ _ Hsnd), HF. f_equal. cbn. lia. }
  assert (Hw1 : wf_snd g1) by (constructor; cbn; [apply Hws | apply Hws | done | apply Hws]).
  unfold is_state. cbn [state arm_rto set_retries set_rto_deadline set_snd_nxt set_fin_sent].
  pose proof (vo_state _ _ _ Hrcv) as Hgf. pose proof (vo_nxt _ _ _ Hrcv) as Hrn. pose proof (vo_u32 _ _ _ Hrcv).
  destruct Hst as [Es2|Es2]; rewrite Es2 in *.
  all: rewrite ?bool_decide_true, ?bool_decide_false, ?bool_decide_true by done.
  all: constructor; [by destruct Hnm; constructor | | done | by destruct Hwr; constructor | by destruct Hring; constructor | | | done].
  all: try (apply alive_split in Hlv as (? & _); by apply alive_split).
  all: constructor; unfold unacked in *; cbn; try apply Hsnd; try done; try lia.
  all: try (rewrite (so_nxt _ _ Hsnd), HF, u32_add_l; f_equal; cbn; lia).
  all: try (intros _; destruct (so_sync _ _ Hsnd) as (fa & E & Hfa'); [by rewrite Es2|]; exists fa; split; [done|]; intros; split; [done|]; by apply Hfa').
  all: intros _; by rewrite Hrn.
Qed.

Lemma tcp_output_live now n c g p : live n c g p →
  let '(n', c') := tcp_output now n c in ∃ g', quiet g g' ∧ live n' c' g' p.
Proof.
  intros HL. unfold tcp_output. pose proof (out_data_live now n c g p HL) as H. destruct (out_data _ _ _) as [n1 c1].
  destruct H as (g1 & Hq1 & HL1 & _). pose proof (out_fin_live now n1 c1 g1 p HL1) as H2. destruct (out_fin _ _ _) as [n2 c2].
  destruct H2 as (g2 & Hq2 & HL2). exists g2. split; [by eapply quiet_trans | done].
Qed.

(** ** The user's operations *)

Definition more_written (g : ghost) (d : list Z) : ghost := mk_ghost (g_iss g) (g_W g ++ d) (g_S g) (g_F g) (g_R g) (g_FR g) (g_D g).

Lemma more_written_le g d : g_F g = false → ghost_le g (more_written g d).
Proof. intros HF. constructor; cbn; try done; [by apply prefix_app_r | by rewrite HF]. Qed.

Lemma queue_live n c g p data len : live n c g p → g_F g = false → opening (state c) = false →
  0 ≤ len ≤ zlen data → tx_len c + len ≤ TCP_TXBUF → zlen (g_W g) + len ≤ STREAM_MAX →
  live n (set_tx_len (tx_len c + len) (set_tx (zfor (Z.to_nat len) 0 (λ i b, b.[tx_len c + i <- data.[i]]) (tx c)) c))
    (more_written g (take (Z.to_nat len) data)) p.
Proof.
  intros [Hnm Hlv Hws Hwr Hring Hsnd Hrcv Hnet] HF Ho Hlen Hfit Hmax. pose proof (so_len _ _ Hsnd) as Hl. pose proof (so_buf _ _ Hsnd) as Hb. pose proof (so_una _ _ Hsnd) as Hu.
  assert (Htl : zlen (take (Z.to_nat len) data) = len) by (rewrite length_take; lia).
  assert (HW : zlen (g_W g ++ take (Z.to_nat len) data) = zlen (g_W g) + len) by (rewrite length_app, Nat2Z.inj_add, Htl; done).
  rewrite copy_loop by lia.
  constructor; [by destruct Hnm; constructor | done | | by destruct Hwr; constructor | by destruct Hring; constructor | | by destruct Hrcv; constructor |].
  - pose proof (ws_S _ Hws). constructor; cbn [g_iss g_W g_S g_F more_written]; rewrite ?HW; [apply Hws | lia | by rewrite HF | lia].
  - constructor; unfold unacked; cbn [iss tx_len tx snd_nxt fin_sent state fin_pending snd_una g_iss g_W g_S g_F more_written set_tx_len set_tx];
      rewrite ?HW; try apply Hsnd; unfold unacked in *; try lia.
    + rewrite !length_app, length_take, length_drop, Nat2Z.inj_add, Nat2Z.inj_add, Htl. lia.
    + replace (zlen (g_W g) + len - (tx_len c + len)) with (zlen (g_W g) - tx_len c) by lia. rewrite drop_app_le by lia.
      pose proof (so_tx _ _ Hsnd) as Htx. unfold unacked in Htx. rewrite <- Htx, app_assoc. apply take_app_length'. rewrite length_app, !length_take. lia.
    + by rewrite Ho.
    + intros _. destruct (so_sync _ _ Hsnd Ho) as (fa & E & Hfa). exists fa. split; [|intros E2; destruct (Hfa E2); congruence].
      rewrite E. unfold unacked. do 3 f_equal. lia.
  - eapply net_ok_mono; [exact Hws | by apply more_written_le | apply ghost_le_refl | done].
Qed.

Lemma conn_write_live now n c g p data : live n c g p → zlen (g_W g) + zlen data ≤ STREAM_MAX →
  let '(n', c', r) := conn_write now n c data in
  ∃ g', live n' c' g' p ∧ ghost_le g g' ∧ g_D g' = g_D g ∧ g_W g' = g_W g ++ take (Z.to_nat r) data.
Proof.
  intros HL Hmax. unfold conn_write. destruct (in_states [TCP_ESTABLISHED; TCP_CLOSE_WAIT] c) eqn:Est; cbn [negb].
  2: { exists g. split_and!; [done | apply ghost_le_refl | done |]. by rewrite app_nil_r. }
  unfold in_states in Est. apply bool_decide_eq_true in Est.
  assert (Hsh : opening (state c) = false ∧ sent_fin (state c) = false) by (rewrite !elem_of_cons, elem_of_nil in Est; destruct Est as [->|[->|[]]]; done).
  destruct Hsh as [Ho Hsf]. assert (HF : g_F g = false) by (rewrite <- (so_state _ _ (lv_snd _ _ _ _ _ _ _ HL)); done).
  pose proof (so_len _ _ (lv_snd _ _ _ _ _ _ _ HL)) as Hl. unfold TCP_TXBUF in *.
  rewrite (u32_small (65536 - tx_len c)) by (unfold_uint; lia). set (len := Z.min (zlen data) (65536 - tx_len c)).
  assert (Hlen : 0 ≤ len ≤ zlen data ∧ len ≤ 65536 - tx_len c) by lia. clearbody len. rewrite (u32_small (tx_len c + len)) by (unfold_uint; lia).
  pose proof (queue_live n c g p data len HL HF Ho ltac:(lia) ltac:(unfold TCP_TXBUF; lia) ltac:(lia)) as HL1.
  pose proof (tcp_output_live now _ _ _ _ HL1) as H. destruct (tcp_output now n _) as [n1 c2].
  destruct H as (g' & (Hle & HW & HD) & HL'). exists g'. split_and!; [done | | done |].
  - eapply ghost_le_trans; [|exact Hle]. by apply more_written_le.
  - rewrite HW. cbn. do 2 f_equal. f_equal. unfold s32. rewrite u32_small by (unfold_uint; lia). cbn. case_match; zbool; lia.
Qed.

Definition more_read (g : ghost) (d : list Z) : ghost := mk_ghost (g_iss g) (g_W g) (g_S g) (g_F g) (g_R g) (g_FR g) (g_D g ++ d).

Lemma more_read_le g d : ghost_le g (more_read g d).
Proof. constructor; done. Qed.

(** Taking [m] bytes off the ring. *)
Lemma ring_take c g p m : ring_ok c g p → 0 ≤ m ≤ rx_len c →
  ring_ok (set_rx_len (rx_len c - m) (set_rx_head ((rx_head c + m) mod TCP_RXBUF) c))
    (more_read g ((λ i, (rx c).[(rx_head c + i) mod TCP_RXBUF]) <$> seqZ 0 m)) p.
Proof.
  intros [Hh Hl Hb Hd] Hm. destruct (ring_pop TCP_RXBUF (rx c) (rx_head c) (rx_len c) m Hm) as [E1 E2].
  constructor; cbn [rx_head rx_len rx set_rx_len set_rx_head g_D g_R more_read]; [by apply Z.mod_pos_bound | lia | done |].
  rewrite E1, E2, <- app_assoc, take_drop. done.
Qed.

Lemma conn_read_ring n c g p len : ring_ok c g p → 0 ≤ len →
  let '(n', c', d, r) := conn_read n c len in ring_ok c' (more_read g d) p ∧ state c' = state c ∧ (named c → named c') ∧ used c' = used c.
Proof.
  intros Hr Hlen. unfold conn_read. destruct (Z.eqb_spec (rx_len c) 0).
  - split_and!; try done. destruct Hr. constructor; cbn; rewrite ?app_nil_r; done.
  - split_and!; try done; [|by intros []; constructor]. apply ring_take; [done|]. pose proof (ro_len _ _ _ Hr). lia.
Qed.

Lemma conn_read_live n c g p len : live n c g p → 0 ≤ len →
  let '(n', c', d, r) := conn_read n c len in live n' c' (more_read g d) p.
Proof.
  intros [Hnm Hlv Hws Hwr Hring Hsnd Hrcv Hnet] Hlen. pose proof (conn_read_ring n c g p len Hring Hlen) as H.
  unfold conn_read in *. destruct (Z.eqb_spec (rx_len c) 0) as [E|E].
  - destruct H as [H _]. constructor; try done; [by destruct Hws; constructor | by destruct Hwr; constructor | by destruct Hsnd; constructor | by destruct Hrcv; constructor |].
    eapply net_ok_mono; [exact Hws | apply more_read_le | apply ghost_le_refl | done].
  - set (d := (λ i : Z, _) <$> _) in *. clearbody d. set (c1 := set_rx_len _ _) in *. destruct H as (Hring' & Hst & Hnm' & _).
    assert (Hrcv1 : rcv_ok c1 (more_read g d) p) by (destruct Hrcv; by constructor).
    assert (Hwr1 : wf_rcv (more_read g d) p) by (by destruct Hwr; constructor).
    assert (Hnet1 : net_ok n (more_read g d) p) by (eapply net_ok_mono; [exact Hws | apply more_read_le | apply ghost_le_refl | done]).
    constructor; [by apply Hnm' | done | by destruct Hws; constructor | done | done | by destruct Hsnd; constructor | done |].
    destruct (in_states _ c1) eqn:Ei; [|done]. apply bool_decide_eq_true in Ei.
    apply net_ok_xmit; try done; [by apply Hnm' | | apply Hrcv | by unfold sends_flags; set_solver |].
    + cbn. rewrite (so_nxt _ _ Hsnd). apply u32_range.
    + apply hdr_pure; [by left | done | done |]. intros E2. rewrite E2 in Ei. by rewrite !elem_of_cons, elem_of_nil in Ei; destruct Ei as [|[|[|]]].
Qed.

(** ** Closing *)

Lemma conn_free_fields (k : K) c :
  let '(k', c') := conn_free k c in
  used c' = false ∧ state c' = TCP_CLOSED ∧ (named c → named c') ∧ (∀ g p, ring_ok c g p → ring_ok c' g p).
Proof.
  unfold conn_free. repeat case_match; simplify_eq; split_and!; try done; try (by intros []; constructor); intros ?? []; by constructor.
Qed.

Lemma conn_closed_fields (k : K) c :
  let '(k', c') := conn_closed k c in
  state c' = TCP_CLOSED ∧ (named c → named c') ∧ (∀ g p, ring_ok c g p → ring_ok c' g p).
Proof.
  unfold conn_closed. destruct (_ || _).
  - pose proof (conn_free_fields k (set_state TCP_CLOSED c)) as Hfr. destruct (conn_free _ _) as [k' c']. destruct Hfr as (_ & Hs & Hn & Hr).
    split_and!; [done | |].
    + intros []. apply Hn. by constructor.
    + intros g p []. apply Hr. by constructor.
  - split_and!; [done | by intros []; constructor |]. intros ?? []; by constructor.
Qed.

(** Both outcomes of an operation. *)
Definition ends (n : N) (c : tcp_conn) (g p : ghost) : Prop :=
  (alive c = true → live n c g p) ∧ (alive c = false → state c = TCP_CLOSED) ∧ dead n c g p.

Lemma live_ends n c g p : live n c g p → ends n c g p.
Proof.
  intros HL. split_and!; [done | | by apply live_dead]. by rewrite (lv_alive _ _ _ _ _ _ _ HL).
Qed.

Lemma dead_ends n c g p : dead n c g p → state c = TCP_CLOSED → ends n c g p.
Proof. intros HD Hs. split_and!; [|done|done]. unfold alive, in_states. rewrite Hs. by rewrite andb_false_r. Qed.

Lemma closed_ends n n' k c g p : dead n c g p → net_ok n' g p → let '(k', c') := conn_closed k c in ends n' c' g p.
Proof.
  intros [Hnm Hws Hwr Hring Hnet] Hn'. pose proof (conn_closed_fields k c) as H. destruct (conn_closed k c) as [k' c']. destruct H as (Hs & Hn & Hr).
  apply dead_ends; [|done]. constructor; auto.
Qed.
Lemma free_ends n n' k c g p : dead n c g p → net_ok n' g p → let '(k', c') := conn_free k c in ends n' c' g p.
Proof.
  intros [Hnm Hws Hwr Hring Hnet] Hn'. pose proof (conn_free_fields k c) as H. destruct (conn_free k c) as [k' c']. destruct H as (_ & Hs & Hn & Hr).
  apply dead_ends; [|done]. constructor; auto.
Qed.

(** Fields the histories do not speak of. *)
Definition same (c c' : tcp_conn) : Prop :=
  used c' = used c ∧ state c' = state c ∧ local_port c' = local_port c ∧ remote_port c' = remote_port c ∧ remote_ip c' = remote_ip c ∧
  iss c' = iss c ∧ snd_una c' = snd_una c ∧ snd_nxt c' = snd_nxt c ∧ rcv_nxt c' = rcv_nxt c ∧ tx c' = tx c ∧ tx_len c' = tx_len c ∧
  rx c' = rx c ∧ rx_head c' = rx_head c ∧ rx_len c' = rx_len c ∧ fin_pending c' = fin_pending c ∧ fin_sent c' = fin_sent c.

Lemma live_same n c c' g p : same c c' → live n c g p → live n c' g p.
Proof.
  intros (E1 & E2 & E3 & E4 & E5 & E6 & E7 & E8 & E9 & E10 & E11 & E12 & E13 & E14 & E15 & E16) [[] Hlv Hws Hwr [] [] [] Hnet].
  unfold alive, in_states, unacked in *.
  constructor; [constructor | unfold alive, in_states | | | constructor | constructor; unfold unacked in * | constructor |];
    rewrite ?E1, ?E2, ?E3, ?E4, ?E5, ?E6, ?E7, ?E8, ?E9, ?E10, ?E11, ?E12, ?E13, ?E14, ?E15, ?E16; done.
Qed.

Lemma fin_pending_live n c g p : live n c g p → opening (state c) = false → live n (set_fin_pending true c) g p.
Proof.
  intros [[] Hlv Hws Hwr [] [] [] Hnet] Ho. constructor; try done; try (by constructor). constructor; try done. cbn. by rewrite Ho.
Qed.

Lemma conn_start_close_ends now n c g p : live n c g p →
  let '(n', c') := conn_start_close now n c in ∃ g', quiet g g' ∧ ends n' c' g' p.
Proof.
  intros HL. unfold conn_start_close. destruct (in_states [TCP_ESTABLISHED; TCP_CLOSE_WAIT] c) eqn:E1.
  - apply bool_decide_eq_true in E1. assert (Ho : opening (state c) = false) by (rewrite !elem_of_cons, elem_of_nil in E1; by destruct E1 as [->|[->|[]]]).
    pose proof (tcp_output_live now n _ g p (fin_pending_live _ _ _ _ HL Ho)) as H. destruct (tcp_output _ _ _) as [n' c'].
    destruct H as (g' & Hq & HL'). exists g'. split; [done | by apply live_ends].
  - destruct (in_states [TCP_SYN_SENT; TCP_LISTEN] c).
    + exists g. split; [apply quiet_refl|]. apply dead_ends; [|done]. destruct HL as [[] ??? [] ???]. constructor; try done; by constructor.
    + exists g. split; [apply quiet_refl | by apply live_ends].
Qed.

Lemma synced c : alive c = true → in_states [TCP_CLOSED; TCP_SYN_SENT; TCP_SYN_RCVD] c = false → state c ≠ TCP_SYN_SENT ∧ opening (state c) = false.
Proof. intros _ E. apply bool_decide_eq_false in E. rewrite !not_elem_of_cons in E. destruct (state c); naive_solver. Qed.

Lemma ack_net n c g p flags : flags = F_ACK ∨ flags = Z.lor F_RST F_ACK → live n c g p → state c ≠ TCP_SYN_SENT →
  net_ok (tcp_xmit n c flags [] (snd_nxt c)).1 g p.
Proof.
  intros Hf [Hnm Hlv Hws Hwr Hring Hsnd Hrcv Hnet] Hs. apply net_ok_xmit; try done.
  - rewrite (so_nxt _ _ Hsnd). apply u32_range.
  - apply Hrcv.
  - unfold sends_flags. destruct Hf as [->| ->]; set_solver.
  - by apply hdr_pure.
Qed.

Lemma conn_abort_ends n k c g p : live n c g p → state c ≠ TCP_SYN_SENT →
  let '(n', k', c') := conn_abort n k c in ends n' c' g p.
Proof.
  intros HL Hs. unfold conn_abort. pose proof (free_ends n (tcp_xmit n c (Z.lor F_RST F_ACK) [] (snd_nxt c)).1 k c g p (live_dead _ _ _ _ _ _ _ HL)) as H.
  destruct (conn_free k c) as [k' c']. apply H. apply ack_net; auto.
Qed.

Lemma conn_release_ends now n k c g p : ends n c g p →
  let '(n', k', c') := conn_release now n k c in ∃ g', quiet g g' ∧ ends n' c' g' p.
Proof.
  intros (HL & Hc & HD). unfold conn_release. destruct (in_states [TCP_CLOSED; TCP_SYN_SENT; TCP_SYN_RCVD] c) eqn:E1.
  { pose proof (free_ends n n k c g p HD (dd_net _ _ _ _ _ _ _ HD)) as H. destruct (conn_free k c) as [k' c']. exists g. split; [apply quiet_refl | done]. }
  destruct (alive c) eqn:Ea; [|unfold in_states in E1; by rewrite (Hc eq_refl) in E1].
  specialize (HL eq_refl). destruct (synced c Ea E1) as [Hs Ho]. destruct (_ && _).
  { pose proof (conn_abort_ends n k c g p HL Hs) as H. destruct (conn_abort n k c) as [[n' k'] c']. exists g. split; [apply quiet_refl | done]. }
  pose proof (conn_start_close_ends now n (set_orphan_deadline (u64 (now + TCP_ORPHAN_MS)) (set_orphan true c)) g p) as H.
  destruct (conn_start_close _ _ _) as [n' c']. apply H. eapply live_same; [|exact HL]. done.
Qed.
End ends.
