(* ===== verification/TcpRecv.v ===== *)
(** * Segments and the timer keep the histories

    [conn_input] on any segment of the peer, and [conn_tick], keep what [live]
    says of a control block. *)

From S2P Require Import Prelude NetBase Net Ring Tcp TcpSeg TcpGhost TcpEnd.

(** Moving the unacknowledged rest to the front of the buffer. *)
Lemma shift_loop (b : list Z) d L : 0 < d ≤ L → L ≤ zlen b →
  let b' := zfor (Z.to_nat (L - d)) d (λ i b, b.[i - d <- b.[i]]) b in
  zlen b' = zlen b ∧ take (Z.to_nat (L - d)) b' = drop (Z.to_nat d) (take (Z.to_nat L) b).
Proof.
  intros Hd HL b'.
  destruct (zfor_inv (λ i x, zlen x = zlen b ∧ (∀ j, 0 ≤ j < i - d → x.[j] = b.[j + d]) ∧ (∀ j, i - d ≤ j → 0 ≤ j → x.[j] = b.[j]))
    (Z.to_nat (L - d)) d (λ i b, b.[i - d <- b.[i]]) b) as (Hl & H1 & _).
  - split_and!; [done | lia | done].
  - intros i x Hi (Hl & H1 & H2). split_and!; [by rewrite aset_length | |].
    + intros j Hj. rewrite aget_aset by lia. destruct (Z.eqb_spec (i - d) j) as [<-|].
      * rewrite H2 by lia. f_equal. lia.
      * apply H1. lia.
    + intros j Hj Hj0. rewrite aget_aset by lia. destruct (Z.eqb_spec (i - d) j); [lia|]. apply H2; lia.
  - fold b' in Hl, H1. rewrite Z2Nat.id in H1 by lia. split; [done|]. apply list_eq_aget.
    + rewrite length_drop, !length_take. lia.
    + intros j Hj. rewrite length_take in Hj. rewrite aget_take, aget_drop, aget_take by lia. rewrite H1 by lia. f_equal. lia.
Qed.

Section recv.
Context {N K : Type} {IP : IpOps N} {IPL : IpLaws N} {HEAP : BufOps K}.
Context (lp rp dst : Z) (Hlp : is_u16 lp) (Hrp : is_u16 rp).
Local Abbreviation live := (live lp rp dst).
Local Abbreviation named := (named lp rp dst).
Local Abbreviation net_ok := (net_ok lp rp dst).
Local Abbreviation dead := (dead lp rp dst).
Local Abbreviation ends := (ends lp rp dst).

(** ** Acknowledgements *)

(** What an acknowledgement of the peer names: [k] bytes and perhaps the FIN. *)
Lemma ack_names g p h : wf_snd g → wf_rcv p g → hdr_ok p g h → hflag h F_ACK = true →
  ∃ k (f : bool), 0 ≤ k ≤ g_S g ∧ h_ack h = u32 (g_iss g + 1 + k + b2z f) ∧ (f = true → g_F g = true ∧ k = zlen (g_W g)).
Proof.
  intros Hws Hwr Hh Ha. destruct (ho_acks _ _ _ Hh Ha) as (k & f & Hk & E & Hf). exists k, f. pose proof (wr_R _ _ Hwr).
  split_and!; [lia | lia | done |]. intros Ef. destruct (Hf Ef) as [HFR ->]. by apply (wr_FR _ _ Hwr).
Qed.

Lemma seq_cmp x y : - 2147483648 < x - y < 2147483648 →
  seq_gt (u32 x) (u32 y) = (y <? x) ∧ seq_leq (u32 x) (u32 y) = (x <=? y).
Proof. intros H. unfold seq_gt, seq_leq. rewrite s32_sub by lia. split; apply eq_true_iff_eq; rewrite ?Z.ltb_lt, ?Z.leb_le; lia. Qed.

Lemma acked_bytes_sync c g k (f fa : bool) : snd_ok c g → wf_snd g → opening (state c) = false →
  0 ≤ k ≤ g_S g → (f = true → g_F g = true ∧ k = zlen (g_W g)) →
  snd_una c = u32 (g_iss g + 1 + unacked c g + b2z fa) → (fa = true → g_F g = true ∧ tx_len c = 0) →
  unacked c g + b2z fa < k + b2z f →
  fa = false ∧ unacked c g ≤ k ∧ acked_bytes c (u32 (g_iss g + 1 + k + b2z f)) = k - unacked c g.
Proof.
  intros Hs Hw Ho Hk Hf Hu Hfa Hlt. pose proof (so_una _ _ Hs) as HU. pose proof (ws_S _ Hw) as HS. pose proof (ws_max _ Hw) as Hm. unfold STREAM_MAX in Hm.
  assert (fa = false) as ->.
  { destruct fa; [|done]. destruct (Hfa eq_refl) as [_ E]. unfold unacked in *. destruct f; cbn in *; [destruct (Hf eq_refl)|]; lia. }
  cbn [b2z] in *. split; [done|]. assert (HkU : unacked c g ≤ k) by (destruct f; cbn in *; [destruct (Hf eq_refl); unfold unacked in *; pose proof (so_len _ _ Hs)|]; lia).
  split; [done|]. unfold acked_bytes. rewrite Hu, u32_sub by (destruct f; cbn; lia).
  assert (Hst : is_state TCP_SYN_RCVD c = false) by (unfold is_state; apply bool_decide_eq_false; intros E; by rewrite E in Ho). rewrite Hst.
  rewrite (so_nxt _ _ Hs), (so_fin _ _ Hs). destruct (seq_cmp (g_iss g + 1 + g_S g + b2z (g_F g)) (g_iss g + 1 + k + b2z f)) as [_ Eq].
  { destruct f, (g_F g); cbn; lia. } rewrite Eq. clear Eq.
  pose proof (so_len _ _ Hs). unfold unacked in *. destruct f.
  - destruct (Hf eq_refl) as [HF ->]. rewrite HF in *. pose proof (ws_F _ Hw HF). cbn [b2z].
    rewrite (proj2 (Z.leb_le _ _)) by lia. rewrite (proj2 (Z.ltb_lt 0 _)) by lia. cbn [andb]. case_match; zbool; lia.
  - cbn [b2z]. assert (E : g_F g && (g_iss g + 1 + g_S g + b2z (g_F g) <=? g_iss g + 1 + k + 0) = false).
    { destruct (g_F g) eqn:HF; [|done]. cbn. lia. }
    rewrite E. cbn [andb]. case_match; zbool; lia.
Qed.

(** The control block once [k] bytes and, with [f], the FIN are acknowledged. *)
Lemma acked_live n c g p k (f : bool) : live n c g p → opening (state c) = false → unacked c g ≤ k ≤ g_S g →
  (f = true → g_F g = true ∧ k = zlen (g_W g)) →
  live n (set_snd_una (u32 (g_iss g + 1 + k + b2z f)) (trim_tx c (k - unacked c g))) g p.
Proof.
  intros [Hnm Hlv Hws Hwr Hring Hsnd Hrcv Hnet] Ho Hk Hf. pose proof (so_una _ _ Hsnd) as HU. pose proof (so_len _ _ Hsnd) as HL. pose proof (so_buf _ _ Hsnd) as HB.
  pose proof (so_tx _ _ Hsnd) as Htx. pose proof (ws_S _ Hws) as HS. unfold trim_tx, ztrue. destruct (Z.eqb_spec (k - unacked c g) 0) as [E|E]; cbn [negb].
  - constructor; try done; try (by destruct Hnm; constructor); try (by destruct Hring; constructor); try (by destruct Hrcv; constructor).
    constructor; try apply Hsnd; cbn [state set_snd_una]; [by rewrite Ho|]. intros _. exists f. unfold unacked in *. cbn. split; [do 3 f_equal; lia|].
    intros Ef. destruct (Hf Ef) as [? ->]. split; [done | lia].
  - set (d := k - unacked c g) in *.
    destruct (shift_loop (tx c) d (tx_len c)) as [Hzl Htk]; [unfold d, unacked in *; lia | lia |].
    set (b' := zfor _ _ _ _) in *. clearbody b'.
    constructor; try done; try (by destruct Hnm; constructor); try (by destruct Hring; constructor); try (by destruct Hrcv; constructor).
    constructor; unfold unacked in *; cbn; try apply Hsnd; try lia.
    + rewrite Htk, Htx, drop_drop. f_equal. lia.
    + by rewrite Ho.
    + intros _. exists f. split; [do 3 f_equal; lia|]. intros Ef. destruct (Hf Ef) as [? ->]. split; [done | lia].
Qed.

Lemma live_state n c g p s : live n c g p → opening (state c) = false → opening s = false →
  sent_fin s = sent_fin (state c) → got_fin s = got_fin (state c) → s ≠ TCP_CLOSED → s ≠ TCP_LISTEN → live n (set_state s c) g p.
Proof.
  intros [Hnm Hlv Hws Hwr Hring Hsnd Hrcv Hnet] Ho Ho' Hsf Hgf H1 H2. apply alive_split in Hlv as (Hu & _).
  constructor; try done; try (by destruct Hnm; constructor); try (by destruct Hring; constructor).
  - by apply alive_split.
  - constructor; try apply Hsnd; unfold unacked in *; cbn.
    + rewrite Hsf. apply Hsnd.
    + by rewrite Ho'.
    + intros _. by apply Hsnd.
  - constructor; cbn.
    + rewrite Hgf. apply Hrcv.
    + intros ->. done.
    + intros _. apply Hrcv. intros E. by rewrite E in Ho.
    + apply Hrcv.
Qed.

(** The third segment of the handshake. *)
Lemma handshake_live n c g p : live n c g p → state c = TCP_SYN_RCVD →
  live n (set_state TCP_ESTABLISHED (set_snd_una (u32 (g_iss g + 1)) c)) g p.
Proof.
  intros [Hnm Hlv Hws Hwr Hring Hsnd Hrcv Hnet] Hst. apply alive_split in Hlv as (Hu & _).
  constructor; try done; try (by destruct Hnm; constructor); try (by destruct Hring; constructor).
  - by apply alive_split.
  - destruct (so_open _ _ Hsnd) as (HW & _); [by rewrite Hst|]. destruct (opening_empty c g Hsnd) as [Ht HF]; [by rewrite Hst|].
    constructor; try apply Hsnd; cbn; [by rewrite HF | done |]. intros _. exists false. split; [|done]. unfold unacked. cbn. rewrite HW, Ht. cbn. f_equal. lia.
  - pose proof (vo_state _ _ _ Hrcv) as Hg. pose proof (vo_nxt _ _ _ Hrcv) as Hn. rewrite Hst in Hg, Hn. constructor; cbn; [done | done | | apply Hrcv].
    intros _. by apply Hn.
Qed.

Lemma ack_opening n c g p h : live n c g p → state c = TCP_SYN_RCVD → wf_rcv p g → hdr_ok p g h → hflag h F_ACK = true →
  h_ack h = u32 (g_iss g + 1) ∧ snd_nxt c = u32 (g_iss g + 1) ∧ seq_gt (h_ack h) (snd_una c) = true ∧ seq_leq (h_ack h) (snd_nxt c) = true ∧ acked_bytes c (h_ack h) = 0.
Proof.
  intros [Hnm Hlv Hws Hwr Hring Hsnd Hrcv Hnet] Hst Hpr Hh Ha.
  destruct (so_open _ _ Hsnd) as (HW & _ & Hu); [by rewrite Hst|]. destruct (opening_empty c g Hsnd) as [Ht HF]; [by rewrite Hst|].
  assert (HS : g_S g = 0) by (pose proof (ws_S _ Hws) as HS; rewrite HW in HS; cbn in HS; lia).
  destruct (ack_names g p h Hws Hpr Hh Ha) as (k & f & Hk & E & Hf).
  assert (k = 0 ∧ f = false) as [-> ->] by (split; [lia|]; destruct f; [destruct (Hf eq_refl); congruence | done]).
  cbn [b2z] in E. replace (g_iss g + 1 + 0 + 0) with (g_iss g + 1) in E by lia. rewrite E.
  assert (Hn : snd_nxt c = u32 (g_iss g + 1)) by (rewrite (so_nxt _ _ Hsnd), HS, HF; cbn; f_equal; lia).
  assert (Hiss : g_iss g = u32 (g_iss g)) by (symmetry; apply u32_small, Hws).
  destruct (seq_cmp (g_iss g + 1) (g_iss g)) as [C1 _]; [lia|]. destruct (seq_cmp (g_iss g + 1) (g_iss g + 1)) as [_ C2]; [lia|].
  split_and!; [done | done | | |].
  - rewrite Hu, Hiss, u32_add_l, C1. lia.
  - rewrite Hn, C2. lia.
  - unfold acked_bytes, is_state. rewrite Hst, Hu, (so_fin _ _ Hsnd), HF, Ht.
    assert (Ed : u32 (u32 (g_iss g + 1) - g_iss g) = 1) by (rewrite Hiss at 2; rewrite u32_sub by lia; lia). by rewrite Ed.
Qed.

(** The state change of an acknowledgement in a synchronized state. *)
Lemma ack_state_live now n k c (all : bool) g p : live n c g p → opening (state c) = false →
  let '(k', c', closed) :=
    match state c with
    | TCP_SYN_RCVD => (k, set_state TCP_ESTABLISHED c, false)
    | TCP_FIN_WAIT_1 => (k, (if all then set_state TCP_FIN_WAIT_2 c else c), false)
    | TCP_CLOSING => (k, (if all then set_tw_deadline (u64 (now + TCP_TIMEWAIT)) (set_state TCP_TIME_WAIT c) else c), false)
    | TCP_LAST_ACK => if all then let '(k1, c3) := conn_closed k c in (k1, c3, true) else (k, c, false)
    | _ => (k, c, false)
    end in
  (closed = true → ends n c' g p) ∧ (closed = false → live n c' g p ∧ opening (state c') = false).
Proof.
  intros HL Ho. destruct (state c) eqn:E; try (by vm_compute in Ho); try destruct all.
  all: try (split; [done | intros _; split; [done | by rewrite E]]).
  - split; [done|]. intros _. split; [|done]. apply live_state; rewrite ?E; done.
  - split; [done|]. intros _. split; [|done]. eapply live_same; [|apply (live_state n c g p TCP_TIME_WAIT); rewrite ?E; done]. done.
  - pose proof (closed_ends lp rp dst n n k c g p (live_dead _ _ _ _ _ _ _ HL) (lv_net _ _ _ _ _ _ _ HL)) as H. by destruct (conn_closed k c) as [k1 c3].
Qed.

Lemma in_ack_live now n k c g p h : live n c g p → state c ≠ TCP_SYN_SENT → wf_rcv p g → hdr_ok p g h →
  let '(k', c', closed) := in_ack now k c h in
  (closed = true → ends n c' g p) ∧
  (closed = false → live n c' g p ∧ state c' ≠ TCP_SYN_SENT ∧ (hflag h F_ACK = true → state c' ≠ TCP_SYN_RCVD)).
Proof.
  intros HL Hss Hpr Hh. unfold in_ack. destruct (hflag h F_ACK) eqn:Ha; [|done]. cbn [andb].
  pose proof (lv_snd _ _ _ _ _ _ _ HL) as Hsnd. pose proof (lv_ws _ _ _ _ _ _ _ HL) as Hws.
  destruct (decide (state c = TCP_SYN_RCVD)) as [Hst|Hst].
  { destruct (ack_opening n c g p h HL Hst Hpr Hh Ha) as (E & En & -> & -> & Eb). cbn [andb]. rewrite Eb.
    change (trim_tx c 0) with c. set (c2 := if (_ =? _) then set_rto_deadline 0 _ else _).
    assert (Hst2 : state c2 = TCP_SYN_RCVD) by (unfold c2; case_match; exact Hst). rewrite Hst2. split; [done|]. intros _. split; [|done].
    eapply live_same; [|apply handshake_live; [exact HL | done]]. unfold c2. rewrite E. case_match; done. }
  assert (Ho : opening (state c) = false) by (unfold opening; apply bool_decide_eq_false; set_solver).
  destruct (so_sync _ _ Hsnd Ho) as (fa & Eu & Hfa). destruct (ack_names g p h Hws Hpr Hh Ha) as (kk & f & Hk & E & Hf).
  pose proof (so_una _ _ Hsnd) as HU. pose proof (ws_S _ Hws) as HS. pose proof (ws_max _ Hws) as Hm. unfold STREAM_MAX in Hm.
  destruct (seq_cmp (g_iss g + 1 + kk + b2z f) (g_iss g + 1 + unacked c g + b2z fa)) as [C1 _]; [destruct f, fa; cbn; lia|].
  rewrite E, Eu, C1. destruct (Z.ltb_spec (g_iss g + 1 + unacked c g + b2z fa) (g_iss g + 1 + kk + b2z f)) as [Hlt|]; cbn [andb]; [|done].
  destruct (seq_leq _ _) eqn:C2; [|done].
  destruct (acked_bytes_sync c g kk f fa) as (-> & HkU & Eb); try done; [lia|]. rewrite Eb.
  pose proof (acked_live n c g p kk f HL Ho ltac:(lia) Hf) as HL1.
  set (c1 := set_snd_una _ _) in *. set (all := snd_una c1 =? snd_nxt c1). clearbody all.
  set (c2 := if all then _ else _). assert (HL2 : live n c2 g p) by (eapply live_same; [|exact HL1]; unfold c2; by destruct all).
  assert (Ho2 : opening (state c2) = false).
  { assert (state c2 = state c) as -> by (unfold c2, c1, trim_tx; destruct all, (ztrue _); done). done. }
  pose proof (ack_state_live now n k c2 all g p HL2 Ho2) as H.
  destruct (match state c2 with TCP_SYN_RCVD => _ | _ => _ end) as [[k' c'] closed]. destruct H as [H1 H2]. split; [done|].
  intros Hc. destruct (H2 Hc) as [HL' Ho']. split_and!; [done | |]; intros; intros Es; by rewrite Es in Ho'.
Qed.

(** ** Data *)

Definition more_rcvd (g : ghost) (m : Z) (FR : bool) : ghost := mk_ghost (g_iss g) (g_W g) (g_S g) (g_F g) (g_R g + m) FR (g_D g).

Lemma more_rcvd_quiet g m FR : 0 ≤ m → g_FR g = false → quiet g (more_rcvd g m FR).
Proof. intros Hm HF. split; [|done]. constructor; cbn; try done; [lia | by rewrite HF]. Qed.

Lemma rx_accept_ring c g p data : ring_ok c g p → wf_snd p → 0 ≤ g_R g → g_R g + zlen data ≤ zlen (g_W p) →
  data = take (length data) (drop (Z.to_nat (g_R g)) (g_W p)) →
  let '(c', got) := rx_accept c data in
  0 ≤ got ≤ zlen data ∧ ring_ok c' (more_rcvd g got (g_FR g)) p ∧
  c' = set_rx_len (rx_len c') (set_rx (rx c') c).
Proof.
  intros [Hh Hl Hb Hd] Hw HR Hlen Hdata. unfold rx_accept. cbv zeta. unfold TCP_RXBUF in *.
  rewrite (u32_small (65536 - rx_len c)) by (unfold_uint; lia). set (len := Z.min _ _). assert (Hle : 0 ≤ len ≤ zlen data ∧ len ≤ 65536 - rx_len c) by lia. clearbody len.
  set (d := take (Z.to_nat len) data). assert (Hd' : zlen d = len) by (unfold d; rewrite length_take; lia).
  set (buf' := zfor _ _ _ _).
  assert (Eb : buf' = zfor (length d) 0 (λ i b, b.[((rx_head c + rx_len c) mod 65536 + i) mod 65536 <- d.[i]]) (rx c)).
  { unfold buf'. replace (length d) with (Z.to_nat len) by lia. apply (zfor_rel eq); [done|]. intros j ?? Hj ->. unfold d. by rewrite aget_take by lia. }
  destruct (ring_push 65536 ltac:(lia) (rx c) (rx_head c) (rx_len c) d Hb ltac:(lia) ltac:(lia)) as [Hz Hr].
  rewrite <- Eb in Hz, Hr. clearbody buf'. split_and!; [lia | lia | | done].
  constructor; cbn [rx_head rx_len rx set_rx_len set_rx g_D g_R more_rcvd]; [done | unfold TCP_RXBUF; lia | done |].
  unfold TCP_RXBUF. replace (rx_len c + len) with (rx_len c + zlen d) by lia. rewrite Hr, app_assoc, Hd.
  rewrite Z2Nat.inj_add by lia. rewrite <- take_take_drop. f_equal. unfold d. rewrite Hdata at 1. rewrite take_take. f_equal. lia.
Qed.

Lemma got_fin_open c : in_states [TCP_ESTABLISHED; TCP_FIN_WAIT_1; TCP_FIN_WAIT_2] c = true → got_fin (state c) = false ∧ state c ≠ TCP_SYN_SENT.
Proof. intros E. apply bool_decide_eq_true in E. rewrite !elem_of_cons, elem_of_nil in E. by destruct E as [->|[->|[->|[]]]]. Qed.

Lemma in_data_live n c g p h : live n c g p → wf_snd p → hdr_ok p g h →
  let '(n', c') := in_data n c h in ∃ g', quiet g g' ∧ live n' c' g' p ∧ state c' = state c.
Proof.
  intros HL Hwp Hh. unfold in_data. destruct (_ && _) eqn:E; [|exists g; split; [apply quiet_refl | done]]. zbool.
  destruct (got_fin_open c) as [Hg Hss]; [done|]. pose proof HL as [Hnm Hlv Hws Hwr Hring Hsnd Hrcv Hnet].
  assert (HFR : g_FR g = false) by (rewrite <- (vo_state _ _ _ Hrcv); done).
  destruct (Z.eqb_spec (h_seq h) (rcv_nxt c)) as [Es|].
  2: { exists g. split; [apply quiet_refl|]. split; [|done]. constructor; try done. by apply ack_net; [| |left | |]. }
  destruct (ho_data _ _ _ Hh) as (kk & Hk0 & Hk & Ek & Ed); [intros E0; rewrite E0 in *; cbn in *; lia|].
  pose proof (wr_R _ _ Hwr) as HR. pose proof (ws_S _ Hwp) as HSp. pose proof (ws_max _ Hwp) as Hm. unfold STREAM_MAX in Hm.
  assert (kk = g_R g) as ->.
  { rewrite Ek, (vo_nxt _ _ _ Hrcv Hss), HFR in Es. apply u32_inj in Es; cbn [b2z] in *; lia. }
  pose proof (rx_accept_ring c g p (h_data h) Hring Hwp ltac:(lia) ltac:(lia) Ed) as Hacc.
  destruct (rx_accept c (h_data h)) as [c' got]. destruct Hacc as (Hgot & Hring' & Ec').
  set (g1 := more_rcvd g got (g_FR g)) in *. assert (Hq : quiet g g1) by (apply more_rcvd_quiet; [lia | done]).
  set (c1 := set_rcv_nxt _ _). exists g1. split; [done|].
  assert (Hst1 : state c1 = state c) by (unfold c1; rewrite Ec'; done). split; [|done].
  assert (Hnm1 : named c1) by (unfold c1; rewrite Ec'; destruct Hnm; by constructor).
  assert (Hrcv1 : rcv_ok c1 g1 p).
  { constructor; rewrite ?Hst1; [apply Hrcv | done | |].
    - intros _. unfold c1. cbn. rewrite Ec'. cbn. rewrite (vo_nxt _ _ _ Hrcv Hss), u32_add_l. f_equal. lia.
    - unfold c1. cbn. apply u32_range. }
  assert (Hw1 : wf_rcv g1 p) by (constructor; cbn; [lia | by rewrite HFR]).
  assert (Hnet1 : net_ok n g1 p) by (eapply net_ok_mono; [exact Hws | apply Hq | apply ghost_le_refl | done]).
  assert (HL1 : live n c1 g1 p).
  { constructor; try done.
    - unfold alive, in_states. rewrite Hst1. unfold c1. rewrite Ec'. exact Hlv.
    - by destruct Hws; constructor.
    - destruct Hring'. constructor; unfold c1; done.
    - destruct Hsnd. unfold c1. rewrite Ec'. constructor; done. }
  constructor; try done; try apply HL1. apply ack_net; auto. congruence.
Qed.

(** ** FIN *)

Lemma rcvd_fin_live n c g p s : live n c g p → g_FR g = false → g_F p = true → g_R g = zlen (g_W p) →
  opening (state c) = false → sent_fin s = sent_fin (state c) → got_fin s = true →
  live n (set_state s (set_rcv_nxt (u32 (rcv_nxt c + 1)) c)) (more_rcvd g 0 true) p.
Proof.
  intros [Hnm Hlv Hws Hwr Hring Hsnd Hrcv Hnet] HFR HFp HR Ho Hsf Hgf. apply alive_split in Hlv as (Hu & _).
  assert (Ho' : opening s = false) by (by destruct s). assert (Hs : s ≠ TCP_CLOSED ∧ s ≠ TCP_LISTEN ∧ s ≠ TCP_SYN_SENT) by (by destruct s). destruct Hs as (? & ? & Hs).
  constructor; [by destruct Hnm; constructor | by apply alive_split | by destruct Hws; constructor | | | | |].
  - pose proof (wr_R _ _ Hwr). constructor; cbn; [lia|]. intros _. split; [done | lia].
  - destruct Hring. constructor; try done. cbn. by rewrite Z.add_0_r.
  - constructor; try apply Hsnd; unfold unacked in *; cbn; [rewrite Hsf; apply Hsnd | by rewrite Ho' | intros _; by apply Hsnd].
  - constructor; cbn; [done | done | | apply u32_range]. intros _. rewrite (vo_nxt _ _ _ Hrcv), HFR, u32_add_l; [f_equal; cbn; lia|].
    intros E. by rewrite E in Ho.
  - eapply net_ok_mono; [exact Hws | by apply (more_rcvd_quiet g 0 true) | apply ghost_le_refl | done].
Qed.

Lemma in_fin_live now n c g p h : live n c g p → wf_snd p → hdr_ok p g h → state c ≠ TCP_SYN_SENT →
  (hflag h F_ACK = true → state c ≠ TCP_SYN_RCVD) →
  let '(n', c') := in_fin now n c h in ∃ g', quiet g g' ∧ live n' c' g' p.
Proof.
  intros HL Hwp Hh Hss Hsr. unfold in_fin. destruct (hflag h F_FIN) eqn:Hf; [|exists g; split; [apply quiet_refl | done]].
  destruct (ho_fin _ _ _ Hh Hf) as (HFp & Hd & Es). rewrite Hd. cbn [andb length].
  assert (Ha : hflag h F_ACK = true).
  { apply (ho_ack _ _ _ Hh). destruct (hflag h F_SYN) eqn:E; [|done]. destruct (ho_syn _ _ _ Hh E) as (_ & _ & ?). congruence. }
  destruct (Z.eqb_spec (u32 (h_seq h + Z.of_nat 0)) (rcv_nxt c)) as [E|]; [|exists g; split; [apply quiet_refl | done]].
  pose proof HL as [Hnm Hlv Hws Hwr Hring Hsnd Hrcv Hnet]. pose proof (wr_R _ _ Hwr) as HR. pose proof (ws_S _ Hwp) as HSp. pose proof (ws_max _ Hwp) as Hm. unfold STREAM_MAX in Hm.
  rewrite Es, u32_add_l, (vo_nxt _ _ _ Hrcv Hss) in E. apply u32_inj in E; [|destruct (g_FR g); cbn; lia].
  assert (HFR : g_FR g = false) by (destruct (g_FR g) eqn:HFR; [|done]; destruct (wr_FR _ _ Hwr HFR); cbn in E; lia).
  rewrite HFR in E. cbn in E. assert (HRW : g_R g = zlen (g_W p)) by lia.
  assert (Ho : opening (state c) = false) by (unfold opening; apply bool_decide_eq_false; specialize (Hsr Ha); set_solver).
  exists (more_rcvd g 0 true). assert (Hq : quiet g (more_rcvd g 0 true)) by (by apply more_rcvd_quiet). split; [done|].
  set (c1 := set_rcv_nxt _ c). set (c2 := match state c1 with TCP_ESTABLISHED => _ | _ => _ end).
  assert (HL2 : live n c2 (more_rcvd g 0 true) p).
  { pose proof (vo_state _ _ _ Hrcv) as Hst. rewrite HFR in Hst. apply alive_split in Hlv as (_ & ? & ?).
    unfold c2. change (state c1) with (state c). destruct (state c) eqn:Est; try done.
    all: try (apply rcvd_fin_live; rewrite ?Est; done).
    eapply live_same; [|apply (rcvd_fin_live n c g p TCP_TIME_WAIT); rewrite ?Est; done]. done. }
  constructor; try apply HL2. apply ack_net; auto. intros Ec. pose proof (vo_state _ _ _ (lv_rcv _ _ _ _ _ _ _ HL2)) as Hst. by rewrite Ec in Hst.
Qed.

(** ** RST and the handshake *)

Lemma in_rst_ends n k c g p h : live n c g p → let '(n', k', c') := in_rst n k c h in ends n' c' g p.
Proof.
  intros HL. unfold in_rst. destruct (negb _).
  - destruct (_ && _) eqn:E; [|by apply live_ends]. zbool. apply live_ends. destruct HL. constructor; try done. apply ack_net; auto; [by constructor|].
    intros Es. unfold is_state in *. by rewrite Es in *.
  - pose proof (closed_ends lp rp dst n n k (set_reset true c) g p) as H. destruct (conn_closed _ _) as [k1 c1]. apply H; [|apply HL].
    destruct HL as [[] ??? [] ???]. constructor; try done; by constructor.
Qed.

Lemma in_syn_sent_live now n c g p h : live n c g p → wf_snd p → hdr_ok p g h → state c = TCP_SYN_SENT →
  let '(n', c') := in_syn_sent now n c h in live n' c' g p.
Proof.
  intros HL Hwp Hh Hst. unfold in_syn_sent. destruct (hflag h F_SYN) eqn:Hsyn; [|done]. cbn [andb].
  destruct (ho_syn _ _ _ Hh Hsyn) as (Es & Hd & _). pose proof HL as [Hnm Hlv Hws Hwr Hring Hsnd Hrcv Hnet]. apply alive_split in Hlv as (Hu & _).
  destruct (so_open _ _ Hsnd) as (HW & Hfp & Eu); [by rewrite Hst|]. destruct (opening_empty c g Hsnd) as [Ht HF]; [by rewrite Hst|].
  pose proof (vo_first _ _ _ Hrcv Hst) as HR. pose proof (vo_state _ _ _ Hrcv) as HFR. rewrite Hst in HFR. change (got_fin TCP_SYN_SENT) with false in HFR.
  assert (HS : g_S g = 0) by (pose proof (ws_S _ Hws) as HS; rewrite HW in HS; cbn in HS; lia).
  assert (Hrn : u32 (h_seq h + 1) = u32 (g_iss p + 1 + g_R g + b2z (g_FR g))) by (rewrite Es, HR, <- HFR; cbn; f_equal; lia).
  destruct (hflag h F_ACK) eqn:Ha.
  - destruct (Z.eqb_spec (h_ack h) (snd_nxt c)) as [Ea|]; cbn [negb]; [|done]. set (c1 := set_state _ _).
    assert (HL1 : live n c1 g p).
    { constructor; try done; try (by destruct Hnm; constructor); try (by destruct Hring; constructor).
      - by apply alive_split.
      - constructor; try apply Hsnd; unfold unacked in *; cbn; [by rewrite HF | done |]. intros _. exists false. split; [|done].
        rewrite Ea, (so_nxt _ _ Hsnd), HW, Ht, HS, HF. done.
      - constructor; cbn; [done | done | by intros _ | apply u32_range]. }
    eapply live_same; [|constructor; try apply HL1; apply ack_net; auto]; done.
  - set (c1 := set_state _ _).
    assert (HL1 : live n c1 g p).
    { constructor; try done; try (by destruct Hnm; constructor); try (by destruct Hring; constructor).
      - by apply alive_split.
      - constructor; try apply Hsnd; unfold unacked in *; cbn; [by rewrite HF | done | done].
      - constructor; cbn; [done | done | by intros _ | apply u32_range]. }
    eapply live_same; [|constructor; try apply HL1]; [done|].
    pose proof (so_iss _ _ Hsnd) as Hi. apply net_ok_xmit; try done; [apply HL1 | | | by unfold sends_flags; set_solver |].
    + cbn. rewrite Hi. apply Hws.
    + apply (vo_u32 _ _ _ (lv_rcv _ _ _ _ _ _ _ HL1)).
    + apply hdr_synack; [done | apply HL1 | done | done].
Qed.

(** Any segment of the peer. *)
Lemma conn_input_ends now n k c g p h : live n c g p → wf_snd p → wf_rcv p g → hdr_ok p g h →
  let '(n', k', c') := conn_input now n k c h in ∃ g', quiet g g' ∧ ends n' c' g' p.
Proof.
  intros HL Hwp Hpr Hh. unfold conn_input. destruct (hflag h F_RST).
  { pose proof (in_rst_ends n k c g p h HL) as H. destruct (in_rst n k c h) as [[n' k'] c']. exists g. split; [apply quiet_refl | done]. }
  set (c1 := set_snd_wnd _ c). assert (HL1 : live n c1 g p) by (eapply live_same; [|exact HL]; done).
  destruct (is_state TCP_SYN_SENT c1) eqn:Ess.
  { apply bool_decide_eq_true in Ess. pose proof (in_syn_sent_live now n c1 g p h HL1 Hwp Hh Ess) as H. destruct (in_syn_sent _ _ _ _) as [n1 c2].
    exists g. split; [apply quiet_refl | by apply live_ends]. }
  apply bool_decide_eq_false in Ess. pose proof (in_ack_live now n k c1 g p h HL1 Ess Hpr Hh) as H. destruct (in_ack _ _ _ _) as [[k1 c2] closed].
  destruct H as [H1 H2]. destruct closed; [exists g; split; [apply quiet_refl | by apply H1]|]. destruct (H2 eq_refl) as (HL2 & Hs2 & Hr2).
  destruct (_ && _).
  { pose proof (conn_abort_ends lp rp dst Hlp Hrp n k1 c2 g p HL2 Hs2) as H. destruct (conn_abort _ _ _) as [[n' k'] c']. exists g. split; [apply quiet_refl | done]. }
  pose proof (in_data_live n c2 g p h HL2 Hwp Hh) as H. destruct (in_data _ _ _) as [n1 c3]. destruct H as (g1 & Hq1 & HL3 & Es3).
  pose proof (in_fin_live now n1 c3 g1 p h HL3 Hwp) as H. destruct (in_fin _ _ _ _) as [n2 c4].
  destruct H as (g2 & Hq2 & HL4); [eapply hdr_ok_mono; [exact Hwp | apply ghost_le_refl | apply Hq1 | done] | by rewrite Es3 | by rewrite Es3 |].
  pose proof (tcp_output_live lp rp dst Hlp Hrp now n2 c4 g2 p HL4) as H. destruct (tcp_output _ _ _) as [n3 c5]. destruct H as (g3 & Hq3 & HL5).
  exists g3. split; [|by apply live_ends]. eapply quiet_trans; [exact Hq1|]. by eapply quiet_trans.
Qed.

(** ** The timer *)

Lemma retransmit_net n c g p : live n c g p → snd_una c ≠ snd_nxt c → net_ok (retransmit n c) g p.
Proof.
  intros HL Hne. pose proof HL as [Hnm Hlv Hws Hwr Hring Hsnd Hrcv Hnet]. pose proof (so_iss _ _ Hsnd) as Hi.
  assert (Hiss : is_u32 (iss c)) by (rewrite Hi; apply Hws). assert (Hvn : is_u32 (rcv_nxt c)) by apply Hrcv.
  unfold retransmit. destruct (is_state TCP_SYN_SENT c) eqn:E1; [|apply bool_decide_eq_false in E1; destruct (is_state TCP_SYN_RCVD c) eqn:E2].
  - apply net_ok_xmit; try done; try (by apply hdr_syn); try flags.
  - apply net_ok_xmit; try done; try (by apply hdr_synack); try flags.
  - apply bool_decide_eq_false in E2. assert (Ho : opening (state c) = false) by (unfold opening; apply bool_decide_eq_false; set_solver).
    destruct (so_sync _ _ Hsnd Ho) as (fa & Eu & Hfa). pose proof (so_una _ _ Hsnd) as HU. pose proof (ws_S _ Hws) as HS. pose proof (so_len _ _ Hsnd) as Hlen.
    assert (fa = false) as ->.
    { destruct fa; [|done]. destruct (Hfa eq_refl) as [HF Ht]. destruct Hne. rewrite Eu, (so_nxt _ _ Hsnd), HF, (ws_F _ Hws HF). unfold unacked. rewrite Ht. f_equal. lia. }
    pose proof (ws_max _ Hws) as Hm. unfold STREAM_MAX in Hm.
    assert (Eun : u32 (snd_nxt c - snd_una c) = g_S g - unacked c g + b2z (g_F g)).
    { rewrite (so_nxt _ _ Hsnd), Eu, u32_sub by (cbn; destruct (g_F g); cbn; lia). cbn [b2z]. lia. }
    rewrite (so_fin _ _ Hsnd), Eun. cbv zeta. set (un := _ + b2z (g_F g)).
    assert (Ed : (if g_F g && (0 <? un) then un - 1 else un) = g_S g - unacked c g).
    { unfold un. destruct (g_F g); cbn [andb b2z]; [|lia]. case_match; zbool; lia. }
    rewrite Ed. assert (Hmin : (if tx_len c <? g_S g - unacked c g then tx_len c else g_S g - unacked c g) = g_S g - unacked c g) by (clear un Ed; unfold unacked in *; destruct (Z.ltb_spec (tx_len c) (g_S g - (zlen (g_W g) - tx_len c))); lia).
    rewrite Hmin. unfold ztrue. destruct (Z.eqb_spec (g_S g - unacked c g) 0) as [Ez|Ez]; cbn [negb].
    + destruct (g_F g) eqn:HF; [|done]. pose proof (ws_F _ Hws HF). apply net_ok_xmit; try done; try apply u32_range; try flags.
      apply hdr_fin; try done. rewrite (so_nxt _ _ Hsnd), HF. unfold u32. rewrite Zminus_mod_idemp_l. f_equal. cbn. lia.
    + set (m := Z.min _ TCP_MSS). assert (Hmb : 0 < m ≤ g_S g - unacked c g) by (unfold m, TCP_MSS; lia). clearbody m.
      apply net_ok_xmit; try done; try (rewrite Eu; apply u32_range); try flags.
      assert (Hdat : take (Z.to_nat m) (tx c) = take (Z.to_nat m) (drop (Z.to_nat (unacked c g)) (g_W g))).
      { rewrite <- (so_tx _ _ Hsnd), take_take. f_equal. unfold unacked in *. lia. }
      rewrite Hdat, Eu. cbn [b2z]. rewrite Z.add_0_r. apply hdr_data; try done; lia.
Qed.

Lemma conn_tick_ends now n k c g p : ends n c g p → let '(n', k', c') := conn_tick now n k c in ends n' c' g p.
Proof.
  intros HE. pose proof HE as (HL & Hc & HD). unfold conn_tick. destruct (used c) eqn:Hu; cbn [negb]; [|done].
  assert (Hcl : let '(k', c') := conn_closed k c in ends n c' g p) by (apply (closed_ends lp rp dst n); [done | apply HD]).
  assert (Hfr : let '(k', c') := conn_free k c in ends n c' g p) by (apply (free_ends lp rp dst n); [done | apply HD]).
  destruct (is_state TCP_TIME_WAIT c); [destruct (_ <=? _); [by destruct (conn_closed k c)|done]|].
  destruct (orphan c && _); [by destruct (conn_free k c)|]. destruct (is_state TCP_CLOSED c) eqn:Ecl; [done|].
  apply bool_decide_eq_false in Ecl. destruct (alive c) eqn:Ea; [|by destruct (Ecl (Hc eq_refl))]. specialize (HL eq_refl).
  assert (Hx : net_ok (tcp_xmit n c F_SYN [] (iss c)).1 g p).
  { destruct HL as [Hnm Hlv Hws Hwr Hring Hsnd Hrcv Hnet]. pose proof (so_iss _ _ Hsnd) as Hi. apply net_ok_xmit; try done; try (rewrite Hi; apply Hws); try apply Hrcv; try (by apply hdr_syn); try flags. }
  destruct (is_state TCP_SYN_SENT c && _).
  { destruct (_ <=? _); [|done]. destruct (tcp_xmit n c F_SYN [] (iss c)) as [n1 r]. apply live_ends.
    apply (live_same lp rp dst n1 c); [by destruct (r =? 0)|]. destruct HL. by constructor. }
  destruct (_ && _ && _) eqn:Er; [|done]. zbool. destruct (_ <? _).
  { pose proof (closed_ends lp rp dst n n k (set_reset true (set_retries (retries c + 1) c)) g p) as Hce. destruct (conn_closed k (set_reset true (set_retries (retries c + 1) c))) as [k1 c1]. apply Hce; [|apply HD].
    destruct HD as [[] ?? [] ?]. constructor; try done; by constructor. }
  apply live_ends. set (c1 := set_retries _ c). assert (HL1 : live n c1 g p) by (eapply live_same; [|exact HL]; done).
  eapply (live_same lp rp dst _ c1); [done|]. constructor; try apply HL1. by apply retransmit_net.
Qed.
End recv.
