(* ===== verification/TcpStream.v ===== *)
(** * TCP is a pair of byte streams

    Two control blocks at the ends of a connection, over a network that loses,
    repeats and reorders: at any step one end may take any segment of this
    connection that its peer ever handed to a driver.  Whatever their users do
    and whatever the timers say, what one user reads is a prefix of what the
    other wrote, and end of file comes after all of it.  The runs are those that
    carry at most [STREAM_MAX] bytes in a direction, half the sequence space, and
    start with no segment of an earlier connection between the same ports about. *)

From S2P Require Import Prelude NetBase Net Ring Tcp TcpSeg TcpGhost TcpEnd TcpRecv.

Section stream.
Context {N K : Type} {IP : IpOps N} {IPL : IpLaws N} {HEAP : BufOps K}.

(** ** The system *)

(** One end: its host's network and heap, the control block, and what its user
    wrote and read. *)
Record side := mk_side { s_net : N; s_heap : K; s_conn : tcp_conn; s_wrote : list Z; s_read : list Z }.

(** Ports and address of the peer, as the end's control block has them. *)
Record addr := mk_addr { ad_l : Z; ad_r : Z; ad_ip : Z }.

(** A segment of the connection of [e], on its way from an end with network [n]. *)
Definition in_flight (e : addr) (n : N) (h : tcp_hdr) : Prop :=
  ∃ x, carries n (ad_ip e) x ∧ tcp_parse x = Some h ∧ h_sport h = ad_l e ∧ h_dport h = ad_r e.

(** What an end does, when the segments in [inc] may arrive. *)
Inductive side_step (e : addr) (inc : tcp_hdr → Prop) : side → side → Prop :=
  | side_write now s data n c r : conn_write now (s_net s) (s_conn s) data = (n, c, r) → zlen (s_wrote s) + zlen data ≤ STREAM_MAX →
      side_step e inc s (mk_side n (s_heap s) c (s_wrote s ++ take (Z.to_nat r) data) (s_read s))
  | side_read s len n c d r : conn_read (s_net s) (s_conn s) len = (n, c, d, r) → 0 ≤ len →
      side_step e inc s (mk_side n (s_heap s) c (s_wrote s) (s_read s ++ d))
  | side_close now s n c : alive (s_conn s) = true → conn_start_close now (s_net s) (s_conn s) = (n, c) →
      side_step e inc s (mk_side n (s_heap s) c (s_wrote s) (s_read s))
  | side_release now s n k c : conn_release now (s_net s) (s_heap s) (s_conn s) = (n, k, c) →
      side_step e inc s (mk_side n k c (s_wrote s) (s_read s))
  | side_input now s h n k c : alive (s_conn s) = true → inc h → conn_input now (s_net s) (s_heap s) (s_conn s) h = (n, k, c) →
      side_step e inc s (mk_side n k c (s_wrote s) (s_read s))
  | side_tick now s n k c : conn_tick now (s_net s) (s_heap s) (s_conn s) = (n, k, c) →
      side_step e inc s (mk_side n k c (s_wrote s) (s_read s))
  | side_other s n k : (∀ h, in_flight e n h → in_flight e (s_net s) h) →
      side_step e inc s (mk_side n k (s_conn s) (s_wrote s) (s_read s)).

(** The second end opens on a SYN of the first. *)
Inductive sys_step (a b : addr) : side * option side → side * option side → Prop :=
  | sys_first s t s' : side_step a (λ h, from_option (λ t, in_flight b (s_net t) h) False t) s s' → sys_step a b (s, t) (s', t)
  | sys_second s t t' : side_step b (in_flight a (s_net s)) t t' → sys_step a b (s, Some t) (s, Some t')
  | sys_open s now rnd n k c lc dev h n' c' : in_flight a (s_net s) h → hflag h F_SYN && negb (hflag h F_ACK) = true →
      fresh c → (∀ h, ¬ in_flight b n h) → is_u32 rnd →
      conn_passive now rnd n c lc dev (ad_ip b) h = (n', c') →
      sys_step a b (s, None) (s, Some (mk_side n' k c' [] [])).

(** The first end has connected from a fresh control block. *)
Definition sys_start (a : addr) (s : side * option side) : Prop :=
  ∃ now rnd n k c dev n' c', fresh c ∧ (∀ h, ¬ in_flight a n h) ∧ is_u32 rnd ∧
    conn_connect now rnd n (set_remote_port (ad_r a) (set_remote_ip (ad_ip a) (set_dev dev c))) (ad_l a) = (n', c') ∧
    s = (mk_side n' k c' [] [], None).

(** The two ends name each other. *)
Definition peers (a b : addr) : Prop := is_u16 (ad_l a) ∧ is_u16 (ad_r a) ∧ ad_l b = ad_r a ∧ ad_r b = ad_l a.

(** ** The invariant *)

Definition blank (i : Z) : ghost := mk_ghost i [] 0 false 0 false [].

Definition side_ok (e : addr) (s : side) (g p : ghost) : Prop :=
  ends (ad_l e) (ad_r e) (ad_ip e) (s_net s) (s_conn s) g p ∧ g_W g = s_wrote s ∧ g_D g = s_read s.

Lemma in_flight_ok e n g p h : net_ok (ad_l e) (ad_r e) (ad_ip e) n g p → in_flight e n h → hdr_ok g p h.
Proof. intros Hn (x & Hc & Hp & Hs & Hd). by eapply Hn. Qed.

(** A step of one end, seen by both histories. *)
Lemma side_step_ok e inc s s' g p : is_u16 (ad_l e) → is_u16 (ad_r e) → wf_snd p → wf_rcv p g →
  (∀ h, inc h → hdr_ok p g h) → side_ok e s g p → side_step e inc s s' →
  ∃ g', ghost_le g g' ∧ side_ok e s' g' p.
Proof.
  intros Hl Hr Hwp Hpr Hinc (HE & HW & HD) Hstep. pose proof HE as (HL & Hc & HDe).
  assert (Hq : ∀ n c, (∃ g', quiet g g' ∧ ends (ad_l e) (ad_r e) (ad_ip e) n c g' p) → ∀ k, ∃ g', ghost_le g g' ∧ side_ok e (mk_side n k c (s_wrote s) (s_read s)) g' p).
  { intros n c (g' & (Hle & HW' & HD') & HE') k. exists g'. split; [done|]. split_and!; cbn; [done | congruence | congruence]. }
  destruct Hstep as [now s data n c r E Hmax | s len n c d r E Hlen | now s n c Ha E | now s n k c E | now s h n k c Ha Hh E | now s n k c E | s n k Hoth].
  - destruct (alive (s_conn s)) eqn:Ea.
    + pose proof (conn_write_live _ _ _ Hl Hr now (s_net s) (s_conn s) g p data (HL eq_refl) ltac:(by rewrite HW)) as H. rewrite E in H.
      destruct H as (g' & HL' & Hle & HD' & HW'). exists g'. split; [done|]. split_and!; [by apply live_ends | by rewrite HW', HW | by rewrite HD'].
    + assert (n = s_net s ∧ c = s_conn s ∧ r = -1) as (-> & -> & ->).
      { unfold conn_write, in_states in E. rewrite (Hc eq_refl) in E. by injection E. }
      exists g. split; [apply ghost_le_refl|]. split_and!; [done | by rewrite app_nil_r | done].
  - exists (more_read g d). split; [apply more_read_le|]. destruct (alive (s_conn s)) eqn:Ea.
    + pose proof (conn_read_live _ _ _ Hl Hr (s_net s) (s_conn s) g p len (HL eq_refl) Hlen) as H. rewrite E in H.
      split_and!; [by apply live_ends | done | cbn; by rewrite HD].
    + pose proof (conn_read_ring (ad_l e) (ad_r e) (ad_ip e) (s_net s) (s_conn s) g p len (dd_ring _ _ _ _ _ _ _ HDe) Hlen) as H. rewrite E in H. destruct H as (Hrg & Hst & Hnm & _).
      assert (n = s_net s) as ->.
      { unfold conn_read in E. destruct (rx_len (s_conn s) =? 0); [by injection E|]. unfold in_states in E. cbn in E. rewrite (Hc eq_refl) in E. by injection E. }
      destruct HDe as [Hn Hws Hwr Hrg0 Hnet]. split_and!; [|done|cbn; by rewrite HD]. apply dead_ends; [|cbn; by rewrite Hst, Hc]. constructor; cbn; auto.
      * by destruct Hws; constructor.
      * by destruct Hwr; constructor.
      * eapply net_ok_mono; [exact Hws | apply more_read_le | apply ghost_le_refl | done].
  - apply Hq. pose proof (conn_start_close_ends _ _ _ Hl Hr now (s_net s) (s_conn s) g p (HL Ha)) as H. by rewrite E in H.
  - apply Hq. pose proof (conn_release_ends _ _ _ Hl Hr now (s_net s) (s_heap s) (s_conn s) g p HE) as H. by rewrite E in H.
  - apply Hq. pose proof (conn_input_ends _ _ _ Hl Hr now (s_net s) (s_heap s) (s_conn s) g p h (HL Ha) Hwp Hpr (Hinc h Hh)) as H. by rewrite E in H.
  - apply Hq. pose proof (conn_tick_ends _ _ _ Hl Hr now (s_net s) (s_heap s) (s_conn s) g p HE) as H. rewrite E in H. exists g. split; [apply quiet_refl | done].
  - exists g. split; [apply ghost_le_refl|].
    assert (Hn : net_ok (ad_l e) (ad_r e) (ad_ip e) n g p).
    { intros x h Hx Hp Hs Hd. destruct (Hoth h) as (x' & ? & ? & ? & ?); [by exists x|]. by eapply (dd_net _ _ _ _ _ _ _ HDe). }
    split_and!; [|done|done]. split_and!; cbn.
    + intros Ha. destruct (HL Ha). by constructor.
    + done.
    + destruct HDe. by constructor.
Qed.

(** A step of the peer leaves an end as it was. *)
Lemma wf_rcv_peer g p p' : ghost_le p p' → wf_rcv g p → wf_rcv g p'.
Proof.
  intros Hp [HR HF]. constructor; [pose proof (gl_S _ _ Hp); lia|]. intros E. destruct (HF E) as [Hf ER]. destruct (gl_F _ _ Hp Hf) as [? EW]. by rewrite EW.
Qed.
Lemma ring_peer c g p p' : wf_snd p → wf_rcv g p → ghost_le p p' → ring_ok c g p → ring_ok c g p'.
Proof.
  intros Hw Hr Hp [H1 H2 H3 H4]. constructor; try done. rewrite H4. pose proof (wr_R _ _ Hr). pose proof (ws_S _ Hw).
  symmetry. apply (prefix_drop_take (g_W p) (g_W p') 0); [apply Hp | lia].
Qed.
Lemma side_ok_peer e s g p p' : wf_snd p → ghost_le p p' → side_ok e s g p → side_ok e s g p'.
Proof.
  intros Hwp Hp ((HL & Hc & [D1 D2 D3 D4 D5]) & HW & HD). split; [|done]. pose proof (wf_rcv_peer g p p' Hp D3). pose proof (ring_peer _ g p p' Hwp D3 Hp D4).
  pose proof (net_ok_mono _ _ _ _ g g p p' D2 (ghost_le_refl g) Hp D5). split_and!; [|done|by constructor].
  intros Ha. destruct (HL Ha) as [? ? ? ? ? ? [V1 V2 V3 V4] ?]. constructor; try done. constructor; try done. intros Hs. by rewrite (gl_iss _ _ Hp), V3.
Qed.

(** ** Opening *)

Lemma blank_wf i g : is_u32 i → wf_snd g → wf_snd (blank i) ∧ wf_rcv (blank i) g.
Proof. intros Hi Hw. pose proof (ws_S _ Hw). split; constructor; cbn; try done; unfold STREAM_MAX; lia. Qed.

Lemma opened_live e n c i g : is_u32 i → wf_snd g → named (ad_l e) (ad_r e) (ad_ip e) c → alive c = true → opening (state c) = true →
  iss c = i → snd_una c = i → snd_nxt c = u32 (i + 1) → tx_len c = 0 → zlen (tx c) = TCP_TXBUF → fin_sent c = false → fin_pending c = false →
  rx_head c = 0 → rx_len c = 0 → zlen (rx c) = TCP_RXBUF → is_u32 (rcv_nxt c) → (state c = TCP_SYN_RCVD → rcv_nxt c = u32 (g_iss g + 1)) →
  net_ok (ad_l e) (ad_r e) (ad_ip e) n (blank i) g → live (ad_l e) (ad_r e) (ad_ip e) n c (blank i) g.
Proof.
  intros Hi Hw Hnm Ha Ho E1 E2 E3 E4 E5 E6 E7 E8 E9 E10 E11 E12 Hn. destruct (blank_wf i g Hi Hw) as [Hwb Hrb].
  assert (Hst : state c = TCP_SYN_SENT ∨ state c = TCP_SYN_RCVD) by (destruct (state c); by auto || by vm_compute in Ho).
  constructor; try done.
  - constructor; rewrite ?E8, ?E9; unfold TCP_RXBUF in *; cbn; lia || done.
  - constructor; unfold unacked; rewrite ?E1, ?E2, ?E3, ?E4, ?E6; cbn; unfold TCP_TXBUF; try done; try lia.
    + f_equal. lia.
    + by destruct Hst as [->| ->].
    + rewrite Ho. done.
  - constructor; cbn; [by destruct Hst as [->| ->] | done | | done]. intros Hs. destruct Hst as [|Hst]; [done|]. rewrite (E12 Hst). f_equal. lia.
Qed.

Lemma net_ok_none e n g p : (∀ h, ¬ in_flight e n h) → net_ok (ad_l e) (ad_r e) (ad_ip e) n g p.
Proof. intros H x h Hc Hp Hs Hd. destruct (H h). by exists x. Qed.

Lemma start_ok a s : is_u16 (ad_l a) → is_u16 (ad_r a) → sys_start a s → s.2 = None ∧ ∃ i, is_u32 i ∧ ∀ g, wf_snd g → side_ok a s.1 (blank i) g.
Proof.
  intros Hl Hr (now & rnd & n & k & c & dev & n' & c' & (p & b & q & d & Hb & Hd & ->) & Hn & Hi & E & ->). split; [done|]. exists rnd. split; [done|]. intros g Hw.
  split; [|done]. apply live_ends. unfold conn_connect in E. set (c1 := set_state TCP_SYN_SENT _) in E.
  assert (Hnet : net_ok (ad_l a) (ad_r a) (ad_ip a) (tcp_xmit n c1 F_SYN [] (iss c1)).1 (blank rnd) g).
  { apply net_ok_xmit; try done; try flags; by apply net_ok_none. }
  destruct (tcp_xmit n c1 F_SYN [] (iss c1)) as [n1 r]. injection E as <- <-. by apply opened_live.
Qed.

Lemma open_ok b n c now rnd lc dev h g n' c' k : is_u16 (ad_l b) → is_u16 (ad_r b) → wf_snd g →
  fresh c → (∀ h, ¬ in_flight b n h) → is_u32 rnd → h_dport h = ad_l b → h_sport h = ad_r b → h_seq h = g_iss g →
  conn_passive now rnd n c lc dev (ad_ip b) h = (n', c') → side_ok b (mk_side n' k c' [] []) (blank rnd) g.
Proof.
  intros Hl Hr Hw (p & bf & q & d & Hb & Hd & ->) Hn Hi Edp Esp Es E. split; [|done]. apply live_ends. unfold conn_passive in E. cbv zeta in E.
  set (c1 := set_state TCP_SYN_RCVD _) in E. injection E as <- <-. pose proof (blank_wf rnd g Hi Hw) as [? ?].
  assert (Hnet : net_ok (ad_l b) (ad_r b) (ad_ip b) (tcp_xmit n c1 (Z.lor F_SYN F_ACK) [] (iss c1)).1 (blank rnd) g).
  { apply net_ok_xmit; try done; try flags; try (cbn; apply u32_range); try (by apply net_ok_none).
    apply hdr_synack; try done. constructor; cbn; [done | done | | apply u32_range]. intros _. rewrite Es. f_equal. lia. }
  apply opened_live; try done; cbn; try apply u32_range.
  intros _. by rewrite Es.
Qed.

Definition sys_inv (a b : addr) (x : side * option side) : Prop :=
  match x with
  | (s, None) => ∀ j, is_u32 j → ∃ g, side_ok a s g (blank j)
  | (s, Some t) => ∃ g h, side_ok a s g h ∧ side_ok b t h g
  end.

Lemma side_ok_wf e s g p : side_ok e s g p → wf_snd g ∧ wf_rcv g p ∧ net_ok (ad_l e) (ad_r e) (ad_ip e) (s_net s) g p.
Proof. intros ((_ & _ & [? ? ? ? ?]) & _). done. Qed.

Lemma sys_step_inv a b x y : peers a b → sys_inv a b x → sys_step a b x y → sys_inv a b y.
Proof.
  intros (Hla & Hra & El & Er) HI Hs. assert (Hlb : is_u16 (ad_l b)) by (by rewrite El). assert (Hrb : is_u16 (ad_r b)) by (by rewrite Er).
  destruct Hs as [s t s' Hs | s t t' Hs | s now rnd n k c lc dev h n' c' Hf Hsyn Hfr Hn Hi E].
  - destruct t as [t|]; cbn in HI |- *.
    + destruct HI as (g & h & Ha & Hb). destruct (side_ok_wf _ _ _ _ Ha) as (Hwg & Hrg & Hng). destruct (side_ok_wf _ _ _ _ Hb) as (Hwh & Hrh & Hnh).
      destruct (side_step_ok a _ s s' g h Hla Hra Hwh Hrh (λ x H, in_flight_ok _ _ _ _ x Hnh H) Ha Hs) as (g' & Hle & Ha').
      exists g', h. split; [done|]. exact (side_ok_peer b t h g g' Hwg Hle Hb).
    + intros j Hj. destruct (HI j Hj) as (g & Ha). destruct (side_ok_wf _ _ _ _ Ha) as (Hwg & Hrg & Hng). destruct (blank_wf j g Hj Hwg) as [Hwb Hrb'].
      destruct (side_step_ok a _ s s' g (blank j) Hla Hra Hwb Hrb' (λ x H, False_ind _ H) Ha Hs) as (g' & _ & Ha'). by exists g'.
  - destruct HI as (g & h & Ha & Hb). destruct (side_ok_wf _ _ _ _ Ha) as (Hwg & Hrg & Hng). destruct (side_ok_wf _ _ _ _ Hb) as (Hwh & Hrh & Hnh).
    destruct (side_step_ok b _ t t' h g Hlb Hrb Hwg Hrg (λ x H, in_flight_ok _ _ _ _ x Hng H) Hb Hs) as (h' & Hle & Hb').
    exists g, h'. split; [|done]. exact (side_ok_peer a s g h h' Hwh Hle Ha).
  - destruct (HI rnd Hi) as (g & Ha). destruct (side_ok_wf _ _ _ _ Ha) as (Hwg & Hrg & Hng). exists g, (blank rnd). split; [done|].
    pose proof (in_flight_ok _ _ _ _ _ Hng Hf) as Hh. apply andb_true_iff in Hsyn as [Hsyn _]. destruct (ho_syn _ _ _ Hh Hsyn) as (Es & _ & _).
    destruct Hf as (x & _ & _ & Esp & Edp). eapply open_ok; try done; congruence.
Qed.

Lemma sys_reach_inv a b x y : peers a b → sys_start a x → rtc (sys_step a b) x y → sys_inv a b y.
Proof.
  intros Hp Hx Hr. assert (HI : sys_inv a b x).
  { destruct (start_ok a x) as (E & i & Hi & H); [apply Hp | apply Hp | done |]. destruct x as [s t]. cbn in E. subst t. intros j Hj. exists (blank i). apply H.
    by destruct (blank_wf j (blank j) Hj) as [Hw _]; [constructor; cbn; unfold STREAM_MAX; lia || done|]. }
  clear Hx. induction Hr as [|x y z Hs Hr IH]; [done|]. apply IH. by eapply sys_step_inv.
Qed.

(** What [y] reads is what [x] wrote. *)
Definition delivers (x y : side) : Prop :=
  s_read y `prefix_of` s_wrote x ∧
  ∀ len n c d, 0 ≤ len → conn_read (s_net y) (s_conn y) len = (n, c, d, -1) → state (s_conn y) ≠ TCP_CLOSED → s_read y = s_wrote x.

Lemma side_delivers e s g p (x : side) : side_ok e s g p → g_W p = s_wrote x → delivers x s.
Proof.
  intros ((HL & Hc & [D1 D2 D3 D4 D5]) & HW & HD) Hx. split.
  - rewrite <- HD, <- Hx. transitivity (take (Z.to_nat (g_R g)) (g_W p)); [|apply prefix_take]. rewrite <- (ro_data _ _ _ D4). by apply prefix_app_r.
  - intros len n c d Hlen E Hs. destruct (alive (s_conn s)) eqn:Ea; [|by destruct (Hs (Hc eq_refl))]. destruct (HL eq_refl) as [_ _ _ _ _ _ Hrcv _].
    unfold conn_read in E. destruct (Z.eqb_spec (rx_len (s_conn s)) 0) as [E0|E0].
    + destruct (in_states _ _) eqn:Ei; [|done]. apply bool_decide_eq_true in Ei. rewrite !elem_of_cons, elem_of_nil in Ei.
      assert (HFR : g_FR g = true) by (rewrite <- (vo_state _ _ _ Hrcv); destruct Ei as [->|[?|[->|[->|[]]]]]; done).
      destruct (wr_FR _ _ D3 HFR) as [_ HR]. pose proof (ro_data _ _ _ D4) as Hd. rewrite E0 in Hd. cbn in Hd. rewrite app_nil_r in Hd.
      rewrite <- HD, <- Hx, Hd, HR, Nat2Z.id. by apply take_ge.
    + pose proof (ro_len _ _ _ D4) as Hrl. unfold TCP_RXBUF in Hrl. injection E as _ _ _ E. revert E. unfold s32. rewrite u32_small by (unfold_uint; lia). case_match; lia.
Qed.
End stream.
