(* ===== verification/NetProps.v ===== *)
(** * What the layers below the transports do

    A packet [ipv4_send] hands to a driver is read back by the receiver's
    [ipv4_input] unchanged, whatever padding the frame got; its header checksum
    verifies; a packet that cannot be routed yet puts an ARP request on the wire
    and nothing else.  So the layer keeps the promise [IpLaws] TCP relies on.
    The ARP cache is a bounded map; ephemeral ports are free ports. *)

From S2P Require Import Prelude NetBase Net Tcp TcpSeg.

(** ** Frames *)

(** What a device's IPv4 input makes of a frame. *)
Definition ip_payload (d : net_dev) (f : list Z) : option (Z * Z * list Z) :=
  if (14 <=? zlen f) && (rd_be16 f 12 =? ETH_TYPE_IPV4) then ipv4_parse d f else None.

Lemma mac6_length m : length (mac6 m) = 6%nat.
Proof. apply length_resize. Qed.

Lemma mac6_cons m : ∃ a b c d e f, mac6 m = [a; b; c; d; e; f].
Proof. pose proof (mac6_length m). destruct (mac6 m) as [|a [|b [|c [|d [|e [|f [|]]]]]]]; try done. by exists a, b, c, d, e, f. Qed.

Lemma rd_ip_octets l i x r : 0 ≤ i → drop (Z.to_nat i) l = ip_octets x ++ r → rd_ip l i = u32 x.
Proof.
  intros Hi E. apply (rd_ip_at l i (u32 x) r Hi); [|apply u32_range]. rewrite E. f_equal. unfold ip_octets. rewrite !shiftr_div by lia.
  change (2 ^ 8) with 256. change (2 ^ 16) with 65536. change (2 ^ 24) with 16777216. repeat (f_equal; [uint_lia|]). f_equal. uint_lia.
Qed.

Lemma eth_type_frame dm sm ty payload : is_u16 ty → rd_be16 (eth_frame dm sm ty payload) 12 = ty ∧ 14 ≤ zlen (eth_frame dm sm ty payload).
Proof.
  intros Hty. unfold eth_frame. destruct (mac6_cons dm) as (a & b & c & d & e & f & ->). destruct (mac6_cons sm) as (a' & b' & c' & d' & e' & f' & ->).
  split; [|rewrite !length_app; cbn; lia]. rewrite <- !app_assoc. by eapply rd_be16_at.
Qed.

Lemma ipv4_parse_frame d dm sm tot id src dst proto c1 c2 payload : zlen payload ≤ 1480 → tot = 20 + zlen payload →
  ip_payload d (eth_frame dm sm ETH_TYPE_IPV4 (ipv4_header tot id src dst proto [c1; c2] ++ payload)) =
  (if negb (d_ip d =? 0) && negb (u32 dst =? d_ip d) && negb (u32 dst =? 0xFFFFFFFF) then None else Some (proto, u32 src, payload)).
Proof.
  intros Hp Ht. set (body := ipv4_header _ _ _ _ _ _ ++ payload). unfold ip_payload.
  destruct (eth_type_frame dm sm ETH_TYPE_IPV4 body) as [-> Hl]; [by unfold is_u16, ETH_TYPE_IPV4|]. rewrite (proj2 (Z.leb_le _ _)) by done. rewrite Z.eqb_refl. cbn [andb].
  unfold ipv4_parse. set (pad := replicate (Z.to_nat (60 - zlen (mac6 dm ++ mac6 sm ++ be16 ETH_TYPE_IPV4 ++ body))) 0).
  assert (Hd : drop 14 (eth_frame dm sm ETH_TYPE_IPV4 body) = body ++ pad).
  { unfold eth_frame. fold pad. rewrite <- !app_assoc. destruct (mac6_cons dm) as (a & b & c & d' & e & f & ->). by destruct (mac6_cons sm) as (a' & b' & c' & d'' & e' & f' & ->). }
  assert (Hz : zlen (eth_frame dm sm ETH_TYPE_IPV4 body) = 14 + zlen body + zlen pad).
  { unfold eth_frame. fold pad. rewrite !length_app, !mac6_length. cbn [length be16]. lia. }
  assert (Hb : zlen body = 20 + zlen payload) by (unfold body; rewrite length_app; cbn; lia).
  rewrite Hd, Hz. clearbody pad. rewrite Hb. rewrite (proj2 (Z.ltb_ge _ _)) by lia.
  change (u8 (Z.land (body ++ pad).[0] 15 * 4)) with 20. change (20 <? 20) with false. cbv iota.
  assert (Htot : rd_be16 (body ++ pad) 2 = tot) by (apply (rd_be16_at (body ++ pad) 2 tot _ ltac:(lia) eq_refl); unfold_uint; lia). rewrite Htot.
  rewrite (proj2 (Z.ltb_ge tot 20)), (proj2 (Z.ltb_ge _ (14 + tot))) by lia. cbn [orb].
  change (body ++ pad).[9] with proto.
  rewrite (rd_ip_octets (body ++ pad) 16 dst _ ltac:(lia) eq_refl), (rd_ip_octets (body ++ pad) 12 src _ ltac:(lia) eq_refl).
  assert (Hpl : take (Z.to_nat (tot - 20)) (drop (Z.to_nat 20) (body ++ pad)) = payload).
  { change (drop (Z.to_nat 20) (body ++ pad)) with (payload ++ pad). rewrite Ht. apply take_app_length'. lia. }
  by rewrite Hpl.
Qed.

(** The checksum of an IPv4 header verifies. *)
Lemma ipv4_header_checksum tot id src dst proto : is_u8 proto →
  let hdr := ipv4_header tot id src dst proto in net_checksum (hdr (be16 (net_checksum (hdr [0; 0])))) = 0.
Proof.
  intros Hp hdr. apply (net_checksum_law ([0x45; 0] ++ be16 tot ++ be16 id ++ [0x40; 0; 64; proto]) (ip_octets src ++ ip_octets dst)); try done.
  - unfold bytes. rewrite !Forall_app. split_and!; try apply be16_bytes; repeat first [apply Forall_cons; split; [unfold_uint; lia|] | apply Forall_nil; done].
  - unfold bytes. rewrite Forall_app. split; apply ip_octets_bytes.
Qed.

Section l3.
Context {NIC : Nic}.

Lemma eth_send_wire n dev mac ty payload :
  let '(n', r) := eth_send n dev mac ty payload in
  (n' = n ∧ r = -1 ∨ ∃ d, dev_at n dev = Some d ∧ zlen payload ≤ NET_MTU ∧ wire n' = wire n ++ [(dev, eth_frame mac (d_mac d) ty payload)]) ∧
  g_devs n' = g_devs n ∧ g_cache n' = g_cache n.
Proof.
  unfold eth_send, net_dev_xmit. destruct (dev_at n dev) as [d|] eqn:E; [|by split; [left|]].
  destruct (d_transmit d); cbn [negb]; [|by split; [left|]]. destruct (Z.ltb_spec NET_MTU (zlen payload)); [by split; [left|]|].
  split; [|by destruct (_ <? 0)]. right. exists d. split_and!; [done | done |]. by destruct (_ <? 0).
Qed.

Lemma arp_request_wire n dev ip :
  g_devs (arp_request n dev ip) = g_devs n ∧ g_cache (arp_request n dev ip) = g_cache n ∧
  (wire (arp_request n dev ip) = wire n ∨ ∃ d, dev_at n dev = Some d ∧
     wire (arp_request n dev ip) = wire n ++ [(dev, eth_frame BCAST (d_mac d) ETH_TYPE_ARP (arp_packet ARP_OP_REQ d (replicate 6 0) ip))]).
Proof.
  unfold arp_request. destruct (dev_at n dev) as [d|] eqn:E; [|by auto].
  pose proof (eth_send_wire n dev BCAST ETH_TYPE_ARP (arp_packet ARP_OP_REQ d (replicate 6 0) ip)) as H.
  destruct (eth_send _ _ _ _ _) as [n' r]. destruct H as ([[-> _]|(d' & Ed & _ & Hw)] & H1 & H2); split_and!; try done; [by left|].
  right. exists d. split; [done|]. rewrite E in Ed. by injection Ed as <-.
Qed.

(** Sending puts on the wire nothing, an ARP request, or the packet. *)
Lemma ipv4_send_wire n dev dst proto payload :
  let '(n', r) := ipv4_send n dev dst proto payload in
  wire n' = wire n ∨
  (∃ d ip, dev_at n dev = Some d ∧ r = -1 ∧ wire n' = wire n ++ [(dev, eth_frame BCAST (d_mac d) ETH_TYPE_ARP (arp_packet ARP_OP_REQ d (replicate 6 0) ip))]) ∨
  (∃ d mac id, dev_at n dev = Some d ∧ zlen payload ≤ NET_MTU - 20 ∧
     let hdr := ipv4_header (20 + zlen payload) id (d_ip d) dst (u8 proto) in
     wire n' = wire n ++ [(dev, eth_frame mac (d_mac d) ETH_TYPE_IPV4 (hdr (be16 (net_checksum (hdr [0; 0]))) ++ payload))]).
Proof.
  unfold ipv4_send. destruct (dev_at n dev) as [d|] eqn:E; [|by left]. destruct (Z.ltb_spec (NET_MTU - 20) (zlen payload)) as [|Hl]; [by left|].
  unfold NET_MTU in Hl. assert (Hn1 : ∀ n1 mac, ipv4_route n dev d dst = (n1, Some mac) → n1 = n).
  { unfold ipv4_route, arp_resolve. intros n1 mac. repeat case_match; intros; by simplify_eq. }
  destruct (ipv4_route n dev d dst) as [n1 [mac|]] eqn:Er.
  - rewrite (Hn1 _ _ eq_refl). rewrite (u16_small (20 + zlen payload)) by (unfold_uint; lia). set (pk := _ ++ payload).
    pose proof (eth_send_wire (set_ip_id n (u16 (g_ip_id n + 1))) dev mac ETH_TYPE_IPV4 pk) as H. destruct (eth_send _ _ _ _ _) as [n' r].
    destruct H as ([[-> _]|(d' & Ed & _ & Hw)] & _); [by left|]. right; right. exists d, mac, (g_ip_id n).
    change (dev_at (set_ip_id n (u16 (g_ip_id n + 1))) dev) with (dev_at n dev) in Ed. rewrite E in Ed. injection Ed as <-. by split_and!.
  - unfold ipv4_route, arp_resolve in Er. destruct (_ || _); [done|]. destruct (arp_lookup _ _); [done|]. injection Er as <-.
    destruct (arp_request_wire n dev (if Z.land dst (d_netmask d) =? Z.land (d_ip d) (d_netmask d) then dst else d_gateway d)) as (_ & _ & [Hw|(d' & Ed & Hw)]); [by left|].
    right; left. rewrite E in Ed. injection Ed as <-. by exists d, (if Z.land dst (d_netmask d) =? Z.land (d_ip d) (d_netmask d) then dst else d_gateway d).
Qed.

(** ** The promise to TCP *)

#[export] Instance l3_ip_ops : IpOps l3 := {| ip_addr := dev_ip; ip_send := ipv4_send |}.

(** A frame on the wire that a host with address [dst] takes in as a TCP packet. *)
Definition l3_carries (n : l3) (dst : Z) (x : list Z) : Prop :=
  ∃ dev f d src, (dev, f) ∈ wire n ∧ d_ip d = u32 dst ∧ u32 dst ≠ 0 ∧ ip_payload d f = Some (IP_PROTO_TCP, src, x).

Lemma arp_not_ip d dm sm ty payload : is_u16 ty → ty ≠ ETH_TYPE_IPV4 → ip_payload d (eth_frame dm sm ty payload) = None.
Proof.
  intros Hty Hne. unfold ip_payload. destruct (eth_type_frame dm sm ty payload Hty) as [-> _]. rewrite (proj2 (Z.eqb_neq _ _)) by done. by rewrite andb_false_r.
Qed.

Lemma l3_send_carries n dev dst b d x :
  l3_carries (ipv4_send n dev dst IP_PROTO_TCP b).1 d x → l3_carries n d x ∨ x = b ∧ (u32 d = u32 dst ∨ u32 dst = 0xFFFFFFFF).
Proof.
  intros (dv & f & e & src & Hin & Hip & Hnz & Hp). pose proof (ipv4_send_wire n dev dst IP_PROTO_TCP b) as H. destruct (ipv4_send _ _ _ _ _) as [n' r]. cbn in Hin.
  assert (Hold : (dv, f) ∈ wire n → l3_carries n d x ∨ x = b ∧ (u32 d = u32 dst ∨ u32 dst = 0xFFFFFFFF)) by (intros; left; by exists dv, f, e, src).
  destruct H as [Hw|[(d1 & ip & E & _ & Hw)|(d1 & mac & id & E & Hl & Hw)]]; cbv zeta in Hw; rewrite Hw in Hin; [by apply Hold|..].
  all: apply elem_of_app in Hin as [Hin|Hin%list_elem_of_singleton]; [by apply Hold|]; apply (f_equal snd) in Hin; cbn [snd] in Hin; rewrite Hin in Hp.
  - rewrite arp_not_ip in Hp by (by unfold is_u16, ETH_TYPE_ARP). done.
  - unfold NET_MTU in Hl. set (cs := net_checksum _) in Hp. change (be16 cs) with [u8 (Z.shiftr cs 8); u8 cs] in Hp. rewrite ipv4_parse_frame in Hp by lia. destruct (negb _ && _ && _) eqn:Ec; [done|]. injection Hp as _ Hx. right. split; [done|].
    rewrite !andb_false_iff, !negb_false_iff, !Z.eqb_eq in Ec. destruct Ec as [[Ec|Ec]|Ec]; [congruence | left; congruence | by right].
Qed.

#[export] Instance l3_ip_laws : IpLaws l3 := {| carries := l3_carries; ip_send_carries := l3_send_carries |}.

(** A packet with a known next hop. *)
Lemma ipv4_send_routed n dev d dst proto payload mac : dev_at n dev = Some d → d_transmit d = true → zlen payload ≤ NET_MTU - 20 →
  ipv4_route n dev d dst = (n, Some mac) →
  let hdr := ipv4_header (20 + zlen payload) (g_ip_id n) (d_ip d) dst (u8 proto) in
  wire (ipv4_send n dev dst proto payload).1 = wire n ++ [(dev, eth_frame mac (d_mac d) ETH_TYPE_IPV4 (hdr (be16 (net_checksum (hdr [0; 0]))) ++ payload))].
Proof.
  intros Hd Ht Hl Hr. unfold NET_MTU in Hl. unfold ipv4_send. rewrite Hd. destruct (Z.ltb_spec (NET_MTU - 20) (zlen payload)); [unfold NET_MTU in *; lia|].
  rewrite Hr. rewrite (u16_small (20 + zlen payload)) by (unfold_uint; lia). set (pk := _ ++ payload). cbv zeta.
  assert (Hpk : zlen pk = 20 + zlen payload) by (unfold pk; rewrite length_app; cbn; lia).
  unfold eth_send, net_dev_xmit. change (dev_at (set_ip_id n (u16 (g_ip_id n + 1))) dev) with (dev_at n dev). rewrite Hd, Ht. cbn [negb].
  destruct (Z.ltb_spec NET_MTU (zlen pk)); [unfold NET_MTU in *; lia|]. by destruct (_ <? 0).
Qed.
End l3.

Lemma eth_frame_length dm sm ty payload : zlen (eth_frame dm sm ty payload) = Z.max 60 (14 + zlen payload).
Proof.
  unfold eth_frame. cbv zeta. set (f := mac6 dm ++ _). assert (Hf : zlen f = 14 + zlen payload) by (unfold f; rewrite !length_app, !mac6_length; cbn [length be16]; lia).
  rewrite length_app, length_replicate. lia.
Qed.

Lemma eth_frame_body dm sm ty payload k : (k ≤ length payload)%nat → take k (drop 14 (eth_frame dm sm ty payload)) = take k payload.
Proof.
  intros Hk. unfold eth_frame. rewrite <- !app_assoc. destruct (mac6_cons dm) as (a & b & c & d' & e & f & ->). destruct (mac6_cons sm) as (a' & b' & c' & d'' & e' & f' & ->).
  match goal with |- take k (drop 14 (_ ++ _ ++ _ ++ _ ++ ?pad)) = _ => change (take k (payload ++ pad) = take k payload) end. by rewrite take_app_le.
Qed.

(** ** Frames and packets, end to end *)

(** C16. A packet with a known next hop reaches the driver as one frame, addressed
    to the next hop's hardware address, within the frame buffer and at least the
    minimum size; its header checksum verifies; the host the packet is for takes
    out of it the protocol, the sender's address and the payload unchanged, and a
    host with another address drops it. *)
Theorem ipv4_roundtrip `{NIC : Nic} n dev d dst proto payload mac :
  dev_at n dev = Some d → d_transmit d = true → is_u32 dst → is_u32 (d_ip d) → is_u8 proto →
  zlen payload ≤ NET_MTU - 20 → ipv4_route n dev d dst = (n, Some mac) →
  ∃ f, wire (ipv4_send n dev dst proto payload).1 = wire n ++ [(dev, f)] ∧
    60 ≤ zlen f ≤ NET_FRAME_MAX ∧ take 6 f = mac6 mac ∧ net_checksum (take 20 (drop 14 f)) = 0 ∧
    (∀ rcv, d_ip rcv = dst → ip_payload rcv f = Some (proto, d_ip d, payload)) ∧
    (∀ rcv, d_ip rcv ≠ 0 → d_ip rcv ≠ dst → dst ≠ 0xFFFFFFFF → ip_payload rcv f = None).
Proof.
  intros Hd Ht Hdst Hsrc Hp Hl Hr. pose proof (ipv4_send_routed n dev d dst proto payload mac Hd Ht Hl Hr) as Hw. cbv zeta in Hw. rewrite (u8_small proto Hp) in Hw.
  unfold NET_MTU in Hl. set (hdr := ipv4_header _ _ _ _ _) in *. set (cs := net_checksum (hdr [0; 0])) in *.
  eexists. split; [exact Hw|]. split_and!.
  - rewrite eth_frame_length. lia.
  - rewrite eth_frame_length, length_app. unfold NET_FRAME_MAX. cbn. lia.
  - unfold eth_frame. rewrite <- !app_assoc. apply take_app_length'. by rewrite mac6_length.
  - rewrite eth_frame_body by (rewrite length_app; cbn; lia). change (take 20 (hdr (be16 cs) ++ payload)) with (hdr (be16 cs)). by apply ipv4_header_checksum.
  - intros rcv E. change (be16 cs) with [u8 (Z.shiftr cs 8); u8 cs]. unfold hdr. rewrite ipv4_parse_frame by lia. rewrite (u32_small dst), (u32_small (d_ip d)), E, Z.eqb_refl by done. cbn. by rewrite andb_false_r.
  - intros rcv H0 H1 H2. change (be16 cs) with [u8 (Z.shiftr cs 8); u8 cs]. unfold hdr. rewrite ipv4_parse_frame by lia. rewrite (u32_small dst) by done.
    rewrite !(proj2 (Z.eqb_neq _ _)) by (try done; congruence). done.
Qed.

(** A host on 10.0.2.0/24 that knows its neighbour 10.0.2.2. *)
Definition demo_nic : Nic := λ _ _ _, 0.
Definition demo_dev : net_dev := mk_dev [82; 84; 0; 18; 52; 86] 251789322 16777215 33685514 true.
Definition demo_l3 : l3 := mk_l3 [demo_dev] (mk_arp 33685514 [82; 85; 10; 0; 2; 2] true 0 :: replicate 15 (mk_arp 0 [] false 0)) 1 0 0 [].

Lemma ipv4_roundtrip_witness :
  ∃ f, wire (@ipv4_send demo_nic demo_l3 0 33685514 17 [1; 2; 3]).1 = [(0, f)] ∧ take 6 f = [82; 85; 10; 0; 2; 2].
Proof.
  destruct (@ipv4_roundtrip demo_nic demo_l3 0 demo_dev 33685514 17 [1; 2; 3] [82; 85; 10; 0; 2; 2] eq_refl eq_refl) as (f & Hw & _ & Hm & _).
  - unfold_uint. lia.
  - unfold_uint. cbn. lia.
  - unfold_uint. lia.
  - vm_compute. discriminate.
  - vm_compute. reflexivity.
  - exists f. split; [exact Hw | rewrite Hm; reflexivity].
Defined.

(** ** The ARP cache *)

Record cache_wf (c : list arp_entry) : Prop := {
  cw_len : zlen c = ARP_CACHE;
  cw_mac i : 0 ≤ i < ARP_CACHE → a_valid c.[i] = true → length (a_mac c.[i]) = 6%nat;
  cw_uniq i j : 0 ≤ i < ARP_CACHE → 0 ≤ j < ARP_CACHE → a_valid c.[i] = true → a_valid c.[j] = true → a_ip c.[i] = a_ip c.[j] → i = j
}.

Lemma arp_hit_spec ip e : arp_hit ip e = true ↔ a_valid e = true ∧ a_ip e = ip.
Proof. unfold arp_hit. by rewrite andb_true_iff, Z.eqb_eq. Qed.

Lemma arp_lookup_some c ip i : cache_wf c → 0 ≤ i < ARP_CACHE → a_valid c.[i] = true → a_ip c.[i] = ip → arp_lookup c ip = Some (a_mac c.[i]).
Proof.
  intros Hc Hi Hv Ha. pose proof (cw_len _ Hc) as Hl. unfold arp_lookup. rewrite (first_unique _ _ i); [done | lia | by apply arp_hit_spec |].
  intros k Hk [Hvk Hak]%arp_hit_spec. apply (cw_uniq _ Hc); try done; [lia | congruence].
Qed.

Lemma arp_lookup_none c ip : zlen c = ARP_CACHE → (∀ i, 0 ≤ i < ARP_CACHE → a_valid c.[i] = true → a_ip c.[i] ≠ ip) → arp_lookup c ip = None.
Proof.
  intros Hl H. unfold arp_lookup. destruct (first (arp_hit ip) c) as [i|] eqn:E; [|done]. apply first_some in E as (Hi & [Hv Ha]%arp_hit_spec & _).
  by destruct (H i ltac:(lia) Hv).
Qed.

(** The slot an address goes to: its own, a free one, or the first. *)
Lemma cache_put_slot c ip mac : zlen c = ARP_CACHE → ∃ s, 0 ≤ s < ARP_CACHE ∧ cache_put c ip mac = c.[s <- mk_arp ip (mac6 mac) true 0] ∧
  (∀ i, 0 ≤ i < ARP_CACHE → a_valid c.[i] = true → a_ip c.[i] = ip → first (arp_hit ip) c = Some s) ∧
  (a_valid c.[s] = true → a_ip c.[s] = ip ∨ s = 0 ∧ ∀ i, 0 ≤ i < ARP_CACHE → a_valid c.[i] = true).
Proof.
  intros Hl. unfold cache_put. destruct (first (arp_hit ip) c) as [s|] eqn:E.
  - exists s. apply first_some in E as (Hs & [Hv Ha]%arp_hit_spec & _). split_and!; try done; [lia | lia | auto].
  - assert (Hno : ∀ i, 0 ≤ i < ARP_CACHE → a_valid c.[i] = true → a_ip c.[i] = ip → False).
    { intros i Hi Hv Ha. pose proof (first_none _ _ i E ltac:(lia)) as Hn. assert (Ht : arp_hit ip c.[i] = true) by (by apply arp_hit_spec). congruence. }
    destruct (first (λ e, negb (a_valid e)) c) as [s|] eqn:E2.
    + exists s. apply first_some in E2 as (Hs & Hv%negb_true_iff & _). split_and!; try done; [lia | lia | naive_solver | congruence].
    + exists 0. split_and!; try done; [naive_solver|]. intros _. right. split; [done|]. intros i Hi. pose proof (first_none _ _ i E2 ltac:(lia)) as Hv. by apply negb_false_iff in Hv.
Qed.

(** The ARP cache is a map of at most sixteen addresses: learning an address
    keeps it well formed, the next lookup of that address gives the hardware
    address learnt, and every other address keeps its entry, except that when the
    cache is full and the address is new the entry of the first slot is lost. *)
Theorem arp_learn_correct c ip mac : cache_wf c →
  let c' := cache_put c ip mac in
  cache_wf c' ∧ arp_lookup c' ip = Some (mac6 mac) ∧
  ∀ ip', ip' ≠ ip → arp_lookup c' ip' = arp_lookup c ip' ∨
    arp_lookup c' ip' = None ∧ a_ip c.[0] = ip' ∧ arp_lookup c ip = None ∧ arp_entries c = ARP_CACHE.
Proof.
  intros Hc c'. pose proof (cw_len _ Hc) as Hl. destruct (cache_put_slot c ip mac Hl) as (s & Hs & E & Hin & Hv). fold c' in E.
  assert (Hg : ∀ i, 0 ≤ i < ARP_CACHE → c'.[i] = if s =? i then mk_arp ip (mac6 mac) true 0 else c.[i]) by (intros; rewrite E; apply aget_aset; lia).
  assert (Hown : ∀ i, 0 ≤ i < ARP_CACHE → i ≠ s → a_valid c.[i] = true → a_ip c.[i] ≠ ip).
  { intros i Hi Hne Hvi Ha. specialize (Hin i Hi Hvi Ha). apply first_some in Hin as (_ & [Hvs Has]%arp_hit_spec & _). apply Hne, (cw_uniq _ Hc); try done. congruence. }
  assert (Hl' : zlen c' = ARP_CACHE) by (rewrite E, aset_length; done).
  assert (Hwf : cache_wf c').
  { constructor; [done | |].
    - intros i Hi. rewrite Hg by done. destruct (Z.eqb_spec s i); [intros _; apply mac6_length | by apply Hc].
    - intros i j Hi Hj. rewrite !Hg by done. destruct (Z.eqb_spec s i) as [<-|], (Z.eqb_spec s j) as [<-|]; cbn; [done | | | by apply Hc].
      + intros _ Hvj Ea. by destruct (Hown j Hj).
      + intros Hvi _ Ea. by destruct (Hown i Hi). }
  split; [done|]. split.
  { rewrite (arp_lookup_some c' ip s Hwf Hs); rewrite Hg, Z.eqb_refl by done; done. }
  intros ip' Hne. destruct (decide (a_valid c.[s] = true ∧ a_ip c.[s] = ip')) as [[Hvs Has]|Hns].
  - right. destruct (Hv Hvs) as [?|[-> Hall]]; [congruence|]. split_and!; [| done | |].
    + apply arp_lookup_none; [done|]. intros i Hi. rewrite Hg by done. destruct (Z.eqb_spec 0 i) as [<-|]; cbn; [congruence|].
      intros Hvi Ha. assert (i = 0) by (apply (cw_uniq _ Hc); try done; congruence). lia.
    + apply arp_lookup_none; [done|]. intros i Hi Hvi Ha. destruct (decide (i = 0)) as [->|]; [congruence | by destruct (Hown i Hi)].
    + unfold arp_entries. rewrite count_zcount, zcount_all; [done|]. intros i Hi. apply Hall. lia.
  - left. destruct (arp_lookup c ip') as [m|] eqn:El.
    + unfold arp_lookup in El. destruct (first (arp_hit ip') c) as [i|] eqn:Ef; [|done]. apply first_some in Ef as (Hi & [Hvi Hai]%arp_hit_spec & _). injection El as <-.
      assert (Hsi : s ≠ i) by (intros ->; by apply Hns). rewrite (arp_lookup_some c' ip' i Hwf); rewrite ?Hg, ?(proj2 (Z.eqb_neq _ _) Hsi) by lia; try done; lia.
    + apply arp_lookup_none; [done|]. intros i Hi. rewrite Hg by done. destruct (Z.eqb_spec s i); cbn; [congruence|]. intros Hvi Hai.
      by rewrite (arp_lookup_some c ip' i Hc Hi Hvi Hai) in El.
Qed.

Lemma demo_cache_wf : cache_wf (g_cache demo_l3).
Proof.
  assert (H0 : ∀ k, 0 ≤ k < ARP_CACHE → a_valid (g_cache demo_l3).[k] = true → k = 0).
  { intros k Hk Hv. pose proof (forall_below 16 (λ k, negb (a_valid (g_cache demo_l3).[k]) || (k =? 0)) eq_refl k Hk) as H. cbn beta in H. rewrite Hv in H. cbn in H. zbool. done. }
  constructor; [done | |].
  - intros i Hi Hv. by rewrite (H0 i Hi Hv).
  - intros i j Hi Hj Hvi Hvj _. by rewrite (H0 i Hi Hvi), (H0 j Hj Hvj).
Qed.

Lemma arp_learn_correct_witness : arp_lookup (cache_put (g_cache demo_l3) 7 [1; 2; 3; 4; 5; 6]) 7 = Some [1; 2; 3; 4; 5; 6].
Proof. apply (arp_learn_correct (g_cache demo_l3) 7 [1; 2; 3; 4; 5; 6] demo_cache_wf). Defined.

(** ** Ephemeral ports *)

Definition dynamic (p : Z) : Prop := 49152 ≤ p < 65536.

Lemma eph_next_eq p : dynamic p → eph_next p = 49152 + (p - 49152 + 1) mod 16384.
Proof. unfold dynamic, eph_next, u16. intros Hp. Z.to_euclidean_division_equations. case_match; zbool; lia. Qed.
Lemma eph_next_dynamic p : dynamic p → dynamic (eph_next p).
Proof. intros Hp. rewrite eph_next_eq by done. pose proof (Z.mod_pos_bound (p - 49152 + 1) 16384). unfold dynamic. lia. Qed.

Lemma eph_search_spec taken tries p : dynamic p →
  let '(e, r) := eph_search taken tries p in
  dynamic e ∧ (dynamic r ∧ taken r = false ∨ r = 0 ∧ ∀ k, 0 ≤ k < Z.of_nat tries → taken (49152 + (p - 49152 + k) mod 16384) = true).
Proof.
  revert p. induction tries as [|tries IH]; intros p Hp; cbn [eph_search].
  - split; [done|]. right. split; [done | lia].
  - destruct (taken p) eqn:E; [|by split; [apply eph_next_dynamic | left]]. specialize (IH (eph_next p) (eph_next_dynamic p Hp)).
    destruct (eph_search taken tries (eph_next p)) as [e r]. destruct IH as [He [Hr|[Hr Hall]]]; (split; [done|]); [by left|]. right. split; [done|]. intros k Hk.
    destruct (decide (k = 0)) as [->|]; [rewrite Z.add_0_r, Z.mod_small by (unfold dynamic in Hp; lia); by replace (49152 + (p - 49152)) with p by lia|].
    specialize (Hall (k - 1) ltac:(lia)). rewrite eph_next_eq in Hall by done. replace (49152 + (p - 49152 + 1) mod 16384 - 49152 + (k - 1)) with ((p - 49152 + 1) mod 16384 + (k - 1)) in Hall by lia.
    rewrite Zplus_mod_idemp_l in Hall. by replace (p - 49152 + 1 + (k - 1)) with (p - 49152 + k) in Hall by lia.
Qed.

(** A small table does not hold every port. *)
Lemma table_not_full {A} `{Inhabited A} (l : list A) (P : Z → A → bool) : zlen l < 16384 →
  (∀ p q x, P p x = true → P q x = true → p = q) → ¬ ∀ p, dynamic p → is_Some (first (P p) l).
Proof.
  intros Hl Hu Hall. set (f p := default 0 (first (P p) l)).
  assert (Hf : ∀ p, dynamic p → 0 ≤ f p < zlen l ∧ P p l.[f p] = true).
  { intros p Hp. unfold f. destruct (Hall p Hp) as [i E]. rewrite E. apply first_some in E as (? & ? & _). done. }
  assert (Hd : ∀ p, p ∈ seqZ 49152 16384 → dynamic p) by (intros p Hp%elem_of_seqZ; unfold dynamic; lia).
  assert (Hnd : NoDup (f <$> seqZ 49152 16384)).
  { apply NoDup_fmap_2_strong; [|apply NoDup_seqZ]. intros p q Hp%Hd Hq%Hd E. destruct (Hf p Hp) as [_ H1]. destruct (Hf q Hq) as [_ H2]. rewrite E in H1. by eapply Hu. }
  assert (Hsub : f <$> seqZ 49152 16384 ⊆+ seqZ 0 (zlen l)).
  { apply NoDup_submseteq; [done|]. intros x (p & -> & Hp%Hd)%list_elem_of_fmap. apply elem_of_seqZ. destruct (Hf p Hp). lia. }
  apply submseteq_length in Hsub. rewrite length_fmap, !length_seqZ in Hsub. lia.
Qed.

(** The search of [eph_port] and [udp_ephemeral_port] finds a port no entry has. *)
Lemma eph_search_table {A} `{Inhabited A} (l : list A) (P : Z → A → bool) p : zlen l < 16384 → (∀ p q x, P p x = true → P q x = true → p = q) → dynamic p →
  let '(e, r) := eph_search (λ p, bool_decide (is_Some (first (P p) l))) (Z.to_nat 16384) p in
  dynamic e ∧ dynamic r ∧ ∀ i, 0 ≤ i < zlen l → P r l.[i] = false.
Proof.
  intros Hl Hu Hp. pose proof (eph_search_spec (λ p, bool_decide (is_Some (first (P p) l))) (Z.to_nat 16384) p Hp) as Hs. destruct (eph_search _ _ _) as [e r].
  destruct Hs as [He [[Hr Hf]|[_ Hall]]]; (split; [done|]).
  - split; [done|]. intros i Hi. apply bool_decide_eq_false in Hf. destruct (first (P r) l) eqn:E; [by destruct Hf|]. by apply (first_none _ _ _ E).
  - exfalso. apply (table_not_full l P Hl Hu). intros q Hq. specialize (Hall ((q - p) mod 16384) ltac:(pose proof (Z.mod_pos_bound (q - p) 16384); lia)).
    rewrite Zplus_mod_idemp_r in Hall. replace (p - 49152 + (q - p)) with (q - 49152) in Hall by lia. rewrite Z.mod_small in Hall by (unfold dynamic in Hq; lia).
    replace (49152 + (q - 49152)) with q in Hall by lia. by apply bool_decide_eq_true in Hall.
Qed.
