(* ===== verification/TcpTable.v ===== *)
(** * The table of TCP control blocks

    Who may free a control block, and what holds of the whole table after every
    operation: a control block some socket holds is never freed under it, a
    listener's queue is bounded by its backlog, a segment has at most one
    receiver, and the buffers taken from the heap are exactly those the control
    blocks hold. *)

From S2P Require Import Prelude NetBase Net Tcp NetProps TcpGhost.

(** ** One control block *)

(** The parts of a control block no segment and no timer changes. *)
Definition keeps (c c' : tcp_conn) : Prop :=
  used c' = used c ∧ local_port c' = local_port c ∧ remote_port c' = remote_port c ∧ remote_ip c' = remote_ip c ∧
  listener c' = listener c ∧ accepted c' = accepted c ∧ orphan c' = orphan c ∧ backlog c' = backlog c ∧
  tx_ptr c' = tx_ptr c ∧ rx_ptr c' = rx_ptr c ∧ (state c' = TCP_LISTEN ↔ state c = TCP_LISTEN) ∧ (state c = TCP_CLOSED → state c' = TCP_CLOSED).

#[export] Instance keeps_refl : Reflexive keeps.
Proof. intros c. by repeat split. Qed.
#[export] Instance keeps_trans : Transitive keeps.
Proof.
  intros c1 c2 c3 (A1 & A2 & A3 & A4 & A5 & A6 & A7 & A8 & A9 & A10 & A11 & A12) (B1 & B2 & B3 & B4 & B5 & B6 & B7 & B8 & B9 & B10 & B11 & B12).
  unfold keeps. split_and!; try congruence; tauto.
Qed.

(** Nobody but the stack refers to it: its socket is gone or has not come yet. *)
Definition droppable (c : tcp_conn) : bool := orphan c || bool_decide (is_Some (listener c)) && negb (accepted c).

Section conn.
Context {N K : Type} {IP : IpOps N} {HEAP : BufOps K}.

(** The control block and its buffers are given back. *)
Definition freed (k : K) (c : tcp_conn) (k' : K) (c' : tcp_conn) : Prop :=
  conn_free k c = (k', c').

Lemma conn_free_spec k c : let '(k', c') := conn_free k c in
  used c' = false ∧ state c' = TCP_CLOSED ∧ tx_ptr c' = 0 ∧ rx_ptr c' = 0 ∧
  k' = (let k1 := if ztrue (tx_ptr c) then kfree k (tx_ptr c) else k in if ztrue (rx_ptr c) then kfree k1 (rx_ptr c) else k1).
Proof.
  unfold conn_free, ztrue. destruct (Z.eqb_spec (tx_ptr c) 0), (Z.eqb_spec (rx_ptr c) 0); cbn.
  all: rewrite ?(proj2 (Z.eqb_eq (rx_ptr c) 0)), ?(proj2 (Z.eqb_neq (rx_ptr c) 0)) by done; by split_and!.
Qed.

Lemma keeps_state s c : s ≠ TCP_LISTEN → state c ≠ TCP_LISTEN → state c ≠ TCP_CLOSED → keeps c (set_state s c).
Proof. intros. unfold keeps. cbn. by split_and!. Qed.

Lemma out_loop_keeps fuel now wnd off n c : keeps c (out_loop fuel now wnd off n c).2.
Proof.
  revert off n c. induction fuel as [|fuel IH]; intros off n c; cbn [out_loop]; [done|]. do 3 (case_match; [done|]). etransitivity; [|apply IH]. done.
Qed.

Lemma tcp_output_keeps now n c : keeps c (tcp_output now n c).2.
Proof.
  unfold tcp_output. pose proof (out_loop_keeps (Z.to_nat (tx_len c)) now (if ztrue (snd_wnd c) then snd_wnd c else 1) (u32 (snd_nxt c - snd_una c)) n c) as H.
  change (out_loop _ _ _ _ _ _) with (out_data now n c) in H. destruct (out_data now n c) as [n1 c1]. etransitivity; [exact H|]. unfold out_fin. destruct (_ && _); [|done].
  cbn [snd]. unfold is_state. cbn [state arm_rto set_retries set_rto_deadline set_snd_nxt set_fin_sent]. repeat case_bool_decide; try done.
  all: (etransitivity; [|apply keeps_state; cbn; congruence]); done.
Qed.

Lemma conn_write_keeps now n c data : keeps c (conn_write now n c data).1.2.
Proof.
  unfold conn_write. case_match; [done|]. match goal with |- context [tcp_output now n ?c1] => pose proof (tcp_output_keeps now n c1) as Hk; destruct (tcp_output now n c1) end. exact Hk.
Qed.

Lemma conn_read_keeps n c len : keeps c (conn_read n c len).1.1.2.
Proof. unfold conn_read. by case_match. Qed.

Lemma conn_start_close_keeps now n c : state c ≠ TCP_LISTEN → keeps c (conn_start_close now n c).2.
Proof.
  intros Hs. unfold conn_start_close. case_match; [|case_match; [|done]].
  - etransitivity; [|apply tcp_output_keeps]. done.
  - unfold keeps. cbn. by split_and!.
Qed.

(** What a segment or a tick may do to a control block. *)
Definition evolves (k : K) (c : tcp_conn) (k' : K) (c' : tcp_conn) : Prop :=
  keeps c c' ∧ k' = k ∨ droppable c = true ∧ ∃ c0, keeps c c0 ∧ freed k c0 k' c'.

Lemma evolves_keeps k c c1 k' c' : keeps c c1 → evolves k c1 k' c' → evolves k c k' c'.
Proof.
  intros Hk [[H1 H2]|(Hd & c0 & H1 & H2)]; [left | right].
  - split; [by etransitivity | done].
  - destruct Hk as (E1 & E2 & E3 & E4 & E5 & E6 & E7 & E8). split; [unfold droppable in *; by rewrite <- E5, <- E6, <- E7|]. exists c0. split; [|done]. etransitivity; [|exact H1].
    unfold keeps. tauto.
Qed.

Lemma conn_closed_evolves k c : state c ≠ TCP_LISTEN → evolves k c (conn_closed k c).1 (conn_closed k c).2.
Proof.
  intros Hs. unfold conn_closed. cbv zeta. change (orphan (set_state TCP_CLOSED c) || bool_decide (is_Some (listener (set_state TCP_CLOSED c))) && negb (accepted (set_state TCP_CLOSED c))) with (droppable c).
  assert (Hk : keeps c (set_state TCP_CLOSED c)) by (unfold keeps; cbn; by split_and!). destruct (droppable c) eqn:Hd; [right | by left].
  split; [done|]. exists (set_state TCP_CLOSED c). split; [done|]. unfold freed. by destruct (conn_free k _).
Qed.

Lemma trim_keeps c d : keeps c (trim_tx c d).
Proof. unfold trim_tx. by case_match. Qed.

Lemma in_ack_evolves now k c h : state c ≠ TCP_LISTEN → state c ≠ TCP_CLOSED →
  let '(k', c', closed) := in_ack now k c h in evolves k c k' c' ∧ (closed = false → keeps c c' ∧ k' = k ∧ state c' ≠ TCP_CLOSED).
Proof.
  intros Hs Hc. unfold in_ack. destruct (_ && _); [|by split; [left|]].
  set (c1 := set_snd_una _ _). set (all := snd_una c1 =? snd_nxt c1). set (c2 := if all then set_rto_deadline 0 c1 else _).
  assert (Hk : keeps c c2) by (etransitivity; [apply (trim_keeps c (acked_bytes c (h_ack h)))|]; unfold c2; by destruct all).
  assert (Es : state c2 = state c) by (unfold c2, c1, trim_tx; destruct all, (ztrue _); done).
  assert (Hst : ∀ s, s ≠ TCP_LISTEN → keeps c (set_state s c2)) by (intros; etransitivity; [exact Hk | apply keeps_state; congruence]).
  rewrite Es. clearbody c2 all. destruct (state c) eqn:E; try done; try (split; [by left | intros _; split_and!; [done | done | congruence]]).
  - split; [left; split; [by apply Hst | done]|]. intros _. split; [by apply Hst | done].
  - destruct all; (split; [left; split; [first [by apply Hst | done] | done]|]); intros _; (split; [first [by apply Hst | done]|]); split; cbn; congruence.
  - destruct all.
    + assert (H : keeps c (set_tw_deadline (u64 (now + TCP_TIMEWAIT)) (set_state TCP_TIME_WAIT c2))) by (etransitivity; [by apply (Hst TCP_TIME_WAIT)|]; done). split; [by left|]. by intros _.
    + split; [by left|]. intros _. split; [done|]. split; congruence.
  - destruct all.
    + pose proof (conn_closed_evolves k c2 ltac:(congruence)) as H. destruct (conn_closed k c2) as [k1 c3]. split; [by eapply evolves_keeps | done].
    + split; [by left|]. intros _. split; [done|]. split; congruence.
Qed.

Lemma in_data_keeps n c h : keeps c (in_data n c h).2.
Proof. unfold in_data. destruct (_ && _); [|done]. cbn [snd]. by destruct (_ =? _). Qed.

Lemma in_fin_keeps now n c h : state c ≠ TCP_LISTEN → state c ≠ TCP_CLOSED → keeps c (in_fin now n c h).2.
Proof.
  intros Hl Hc. unfold in_fin. destruct (_ && _); [|done]. cbn [snd]. change (state (set_rcv_nxt _ c)) with (state c).
  assert (Hs : ∀ s, s ≠ TCP_LISTEN → keeps c (set_state s (set_rcv_nxt (u32 (rcv_nxt c + 1)) c))) by (intros; etransitivity; [|by apply keeps_state]; done).
  destruct (state c); try done; try (by apply Hs).
Qed.

Lemma in_data_state n c h : state (in_data n c h).2 = state c.
Proof. unfold in_data. destruct (_ && _); [|done]. cbn [snd]. by destruct (_ =? _). Qed.

Lemma in_syn_sent_keeps now n c h : state c = TCP_SYN_SENT → keeps c (in_syn_sent now n c h).2.
Proof.
  intros Hs. unfold in_syn_sent. repeat case_match; try done; cbn [snd].
  - etransitivity; [apply (keeps_state TCP_ESTABLISHED c); congruence|]. done.
  - etransitivity; [apply (keeps_state TCP_SYN_RCVD c); congruence|]. done.
Qed.

Lemma conn_input_evolves now n k c h : state c ≠ TCP_LISTEN → state c ≠ TCP_CLOSED →
  let '(n', k', c') := conn_input now n k c h in evolves k c k' c'.
Proof.
  intros Hl Hc. unfold conn_input. destruct (hflag h F_RST).
  { unfold in_rst. destruct (negb _); [destruct (_ && _); by left|]. pose proof (conn_closed_evolves k (set_reset true c) Hl) as H. destruct (conn_closed k _). by eapply evolves_keeps; [|exact H]. }
  set (c1 := set_snd_wnd _ c). assert (Hk1 : keeps c c1) by done. destruct (is_state TCP_SYN_SENT c1) eqn:E.
  { apply bool_decide_eq_true in E. pose proof (in_syn_sent_keeps now n c1 h E) as H. destruct (in_syn_sent _ _ _ _). left. split; [exact H | done]. }
  pose proof (in_ack_evolves now k c1 h Hl Hc) as H. destruct (in_ack _ _ _ _) as [[k1 c2] closed]. destruct H as [H1 H2].
  destruct closed; [by eapply evolves_keeps|]. destruct (H2 eq_refl) as (Hk2 & -> & Hc2).
  assert (Hl2 : state c2 ≠ TCP_LISTEN) by (destruct Hk2 as (_ & _ & _ & _ & _ & _ & _ & _ & _ & _ & HL & _); rewrite HL; done).
  destruct (_ && _) eqn:Eo.
  { zbool. unfold conn_abort. destruct (conn_free k c2) as [k' c'] eqn:Ef. right. split; [|exists c2; split; [by etransitivity|done]].
    destruct Hk2 as (_ & _ & _ & _ & _ & _ & Ho & _). unfold droppable. change (orphan c) with (orphan c1). rewrite <- Ho. by rewrite H. }
  pose proof (in_data_keeps n c2 h) as Hd. pose proof (in_data_state n c2 h) as Hds. destruct (in_data n c2 h) as [n1 c3]. cbn in Hd, Hds.
  pose proof (in_fin_keeps now n1 c3 h ltac:(congruence) ltac:(congruence)) as Hf. destruct (in_fin _ _ _ _) as [n2 c4].
  pose proof (tcp_output_keeps now n2 c4) as Ho. destruct (tcp_output _ _ _) as [n3 c5]. left. split; [|done].
  etransitivity; [exact Hk1|]. etransitivity; [exact Hk2|]. etransitivity; [exact Hd|]. by etransitivity.
Qed.

Lemma conn_tick_evolves now n k c : state c ≠ TCP_LISTEN → let '(n', k', c') := conn_tick now n k c in evolves k c k' c'.
Proof.
  intros Hl. unfold conn_tick. destruct (used c); cbn [negb]; [|by left].
  destruct (is_state TCP_TIME_WAIT c).
  { destruct (_ <=? _); [|by left]. pose proof (conn_closed_evolves k c Hl) as H. by destruct (conn_closed k c). }
  destruct (orphan c) eqn:Ho; cbn [andb].
  { destruct (_ || _). { destruct (conn_free k c) eqn:Ef. right. split; [unfold droppable; by rewrite Ho|]. by exists c. }
    destruct (is_state TCP_CLOSED c); [by left|]. destruct (_ && _). { destruct (_ <=? _); [|by left]. destruct (tcp_xmit _ _ _ _ _) as [n1 r]. left. by destruct (r =? 0). }
    destruct (_ && _); [|by left]. destruct (_ <? _); [|by left]. pose proof (conn_closed_evolves k (set_reset true (set_retries (retries c + 1) c)) Hl) as H.
    destruct (conn_closed k _). by eapply evolves_keeps; [|exact H]. }
  destruct (is_state TCP_CLOSED c); [by left|]. destruct (_ && _). { destruct (_ <=? _); [|by left]. destruct (tcp_xmit _ _ _ _ _) as [n1 r]. left. by destruct (r =? 0). }
  destruct (_ && _); [|by left]. destruct (_ <? _); [|by left]. pose proof (conn_closed_evolves k (set_reset true (set_retries (retries c + 1) c)) Hl) as H.
  destruct (conn_closed k _). by eapply evolves_keeps; [|exact H].
Qed.
End conn.

(** ** The table of control blocks *)

Definition slot (i : Z) : Prop := 0 ≤ i < TCP_MAX_CONN.
Definition is_lst (c : tcp_conn) : bool := used c && is_state TCP_LISTEN c.
Definition tuple (c : tcp_conn) : Z * Z * Z := (local_port c, remote_port c, remote_ip c).

Record slot_ok (c : tcp_conn) : Prop := {
  sl_free : used c = false → tx_ptr c = 0 ∧ rx_ptr c = 0;
  sl_list : is_lst c = true → tx_ptr c = 0 ∧ rx_ptr c = 0 ∧ listener c = None ∧ orphan c = false ∧ rto_deadline c = 0 ∧ 1 ≤ backlog c ≤ TCP_MAX_BACKLOG;
  sl_bufs : used c = true → state c ≠ TCP_LISTEN → tx_ptr c ≠ 0 ∧ rx_ptr c ≠ 0;
  sl_queue : used c = true → is_Some (listener c) → accepted c = false → orphan c = false
}.

Record cinv (l : list tcp_conn) : Prop := {
  ci_len : zlen l = TCP_MAX_CONN;
  ci_slot i : slot i → slot_ok l.[i];
  ci_lst i m : slot i → used l.[i] = true → listener l.[i] = Some m → slot m ∧ is_lst l.[m] = true;
  ci_port i j : slot i → slot j → is_lst l.[i] = true → is_lst l.[j] = true → local_port l.[i] = local_port l.[j] → i = j;
  ci_queue m : slot m → is_lst l.[m] = true → count (queued m) l ≤ backlog l.[m];
  ci_tuple i j : slot i → slot j → alive l.[i] = true → alive l.[j] = true → tuple l.[i] = tuple l.[j] → i = j
}.

Lemma is_lst_spec c : is_lst c = true ↔ used c = true ∧ state c = TCP_LISTEN.
Proof. unfold is_lst, is_state. by rewrite andb_true_iff, bool_decide_eq_true. Qed.
Lemma queued_spec m c : queued m c = true ↔ used c = true ∧ listener c = Some m ∧ accepted c = false.
Proof. unfold queued. rewrite !andb_true_iff, bool_decide_eq_true, negb_true_iff. tauto. Qed.

(** Replacing one control block. *)
Lemma cinv_put l i c : cinv l → slot i → slot_ok c →
  (∀ m, used c = true → listener c = Some m → m ≠ i ∧ slot m ∧ is_lst l.[m] = true) →
  (is_lst l.[i] = true → is_lst c = true ∨ ∀ j, slot j → used l.[j] = true → listener l.[j] ≠ Some i) →
  (is_lst c = true → (∀ j, slot j → j ≠ i → is_lst l.[j] = true → local_port l.[j] ≠ local_port c) ∧ count (queued i) l ≤ backlog c) →
  (∀ m, slot m → m ≠ i → is_lst l.[m] = true → queued m c = true → queued m l.[i] = true ∨ count (queued m) l < backlog l.[m]) →
  (alive c = true → ∀ j, slot j → j ≠ i → alive l.[j] = true → tuple l.[j] ≠ tuple c) →
  cinv l.[i <- c].
Proof.
  intros [C1 C2 C3 C4 C5 C6] Hi Hc Hl Hk Hn Hq Ht.
  assert (Hg : ∀ j, slot j → l.[i <- c].[j] = if i =? j then c else l.[j]) by (intros; apply aget_aset; unfold slot in *; lia).
  constructor.
  - by rewrite aset_length.
  - intros j Hj. rewrite Hg by done. destruct (Z.eqb_spec i j); [done | by apply C2].
  - intros j m Hj. rewrite (Hg j Hj). destruct (Z.eqb_spec i j) as [<-|Hne].
    + intros Hu Hm. destruct (Hl m Hu Hm) as (Hmi & Hsm & Hml). split; [done|]. rewrite Hg by done. by rewrite (proj2 (Z.eqb_neq i m)) by done.
    + intros Hu Hm. destruct (C3 j m Hj Hu Hm) as [Hsm Hml]. split; [done|]. rewrite Hg by done. destruct (Z.eqb_spec i m) as [<-|]; [|done].
      destruct (Hk Hml) as [|Hno]; [done|]. by destruct (Hno j Hj Hu).
  - intros j m Hj Hm. rewrite !Hg by done. destruct (Z.eqb_spec i j) as [<-|], (Z.eqb_spec i m) as [<-|]; intros H1 H2 E; [done | | | by apply C4].
    + destruct (Hn H1) as [Hn1 _]. exfalso. by apply (Hn1 m Hm).
    + destruct (Hn H2) as [Hn1 _]. exfalso. by apply (Hn1 j Hj).
  - intros m Hm. rewrite Hg by done. rewrite count_set by (unfold slot in *; lia). destruct (Z.eqb_spec i m) as [<-|Hne]; intros Hlm.
    + destruct (Hn Hlm) as [_ Hcnt]. assert (queued i c = false) as ->; [|unfold b2z; case_match; lia].
      destruct (queued i c) eqn:E; [|done]. apply queued_spec in E as (Hu & El & _). by destruct (Hl i Hu El).
    + specialize (C5 m Hm Hlm). destruct (queued m c) eqn:E; [|unfold b2z; case_match; lia]. destruct (Hq m Hm ltac:(done) Hlm E) as [->|?]; unfold b2z; [|case_match]; lia.
  - intros j m Hj Hm. rewrite !Hg by done. destruct (Z.eqb_spec i j) as [<-|], (Z.eqb_spec i m) as [<-|]; intros H1 H2 E; [done | | | by apply C6].
    + exfalso. by apply (Ht H1 m Hm).
    + exfalso. by apply (Ht H2 j Hj).
Qed.

Lemma keeps_alive c c' : keeps c c' → alive c' = true → alive c = true.
Proof. intros (Hu & _ & _ & _ & _ & _ & _ & _ & _ & _ & Hl & Hc) (H1 & H2 & H3)%alive_split. apply alive_split. split_and!; [congruence | naive_solver | naive_solver]. Qed.
Lemma keeps_tuple c c' : keeps c c' → tuple c' = tuple c.
Proof. intros (_ & H1 & H2 & H3 & _). unfold tuple. congruence. Qed.
Lemma keeps_lst c c' : keeps c c' → is_lst c' = is_lst c.
Proof.
  intros (Hu & _ & _ & _ & _ & _ & _ & _ & _ & _ & Hl & _). unfold is_lst, is_state. rewrite Hu. f_equal. by apply bool_decide_ext.
Qed.
Lemma keeps_queued m c c' : keeps c c' → queued m c' = queued m c.
Proof. intros (Hu & _ & _ & _ & Hl & Ha & _). unfold queued. by rewrite Hu, Hl, Ha. Qed.

Lemma cinv_keeps l i c : cinv l → slot i → keeps l.[i] c → is_lst l.[i] = false → cinv l.[i <- c].
Proof.
  intros Hc Hi Hk Hl. pose proof (ci_slot _ Hc i Hi) as Hs. pose proof (keeps_lst _ _ Hk) as El. rewrite Hl in El.
  pose proof Hk as (Hu & _ & _ & _ & Hli & Hac & Hor & Hbl & Htx & Hrx & Hst & _). apply cinv_put; try done.
  - destruct Hs as [S1 S2 S3 S4]. constructor; rewrite ?El, ?Hu, ?Htx, ?Hrx, ?Hli, ?Hac, ?Hor; try done. intros H1 H2. apply S3; [done|]. tauto.
  - intros m. rewrite Hu, Hli. intros Hu' Hm. destruct (ci_lst _ Hc i m Hi Hu' Hm) as [Hsm Hlm]. split_and!; try done. intros ->. congruence.
  - congruence.
  - congruence.
  - intros m _ _ _. rewrite (keeps_queued m _ _ Hk). by left.
  - intros Ha j Hj Hne Haj Et. apply Hne, (ci_tuple _ Hc); try done; [by eapply keeps_alive|]. by rewrite Et, (keeps_tuple _ _ Hk).
Qed.

Lemma cinv_free l i c : cinv l → slot i → used c = false → tx_ptr c = 0 → rx_ptr c = 0 →
  (is_lst l.[i] = true → ∀ j, slot j → used l.[j] = true → listener l.[j] ≠ Some i) → cinv l.[i <- c].
Proof.
  intros Hc Hi Hu Ht Hr Hl. assert (El : is_lst c = false) by (unfold is_lst; by rewrite Hu). assert (Ha : alive c = false) by (unfold alive; by rewrite Hu).
  apply cinv_put; try done; try congruence.
  - constructor; [done | congruence | congruence | congruence].
  - intros H. right. by apply Hl.
  - intros m _ _ _ Hq. apply queued_spec in Hq as (? & _). congruence.
Qed.

(** ** Buffers *)

(** The heap's promise, over the set of the blocks in use: a block handed out was
    free and stays allocated until it is given back. *)
Class BufLaws (K : Type) {HEAP : BufOps K} := {
  buf_rep : K → (Z → Prop) → Prop;
  buf_ext k P Q : (∀ q, P q ↔ Q q) → buf_rep k P → buf_rep k Q;
  kmalloc_law k P n : buf_rep k P → 0 < n ≤ 65536 → let '(k', p, b) := kmalloc k n in
    p = 0 ∧ buf_rep k' P ∨ p ≠ 0 ∧ ¬ P p ∧ zlen b = n ∧ buf_rep k' (λ q, P q ∨ q = p);
  kfree_law k P p : buf_rep k P → P p → buf_rep (kfree k p) (λ q, P q ∧ q ≠ p)
}.

Definition ptr (c : tcp_conn) (b : bool) : Z := if b then tx_ptr c else rx_ptr c.
Definition owns (l : list tcp_conn) (q : Z) : Prop := ∃ i b, slot i ∧ ptr l.[i] b = q ∧ q ≠ 0.

Section heap.
Context {K : Type} {HEAP : BufOps K} {LAWS : BufLaws K}.
Context (base : Z → Prop).   (** blocks of the rest of the kernel *)

Record hinv (k : K) (l : list tcp_conn) : Prop := {
  hi_live : buf_rep k (λ q, base q ∨ owns l q);
  hi_base q : owns l q → ¬ base q;
  hi_inj i j a b : slot i → slot j → ptr l.[i] a = ptr l.[j] b → ptr l.[i] a ≠ 0 → i = j ∧ a = b
}.

Lemma owns_put l i c q : zlen l = TCP_MAX_CONN → slot i →
  owns l.[i <- c] q ↔ (∃ b, ptr c b = q ∧ q ≠ 0) ∨ (∃ j b, slot j ∧ j ≠ i ∧ ptr l.[j] b = q ∧ q ≠ 0).
Proof.
  intros Hl Hi. assert (Hg : ∀ j, slot j → l.[i <- c].[j] = if i =? j then c else l.[j]) by (intros; apply aget_aset; unfold slot in *; lia). split.
  - intros (j & b & Hj & E & Hq). rewrite Hg in E by done. destruct (Z.eqb_spec i j) as [<-|]; [left; by exists b | right; exists j, b; by split_and!].
  - intros [(b & E & Hq)|(j & b & Hj & Hne & E & Hq)]; [exists i, b | exists j, b]; rewrite Hg by done.
    + by rewrite Z.eqb_refl.
    + by rewrite (proj2 (Z.eqb_neq i j)) by done.
Qed.

Lemma owns_split l i q : slot i → owns l q ↔ (∃ b, ptr l.[i] b = q ∧ q ≠ 0) ∨ (∃ j b, slot j ∧ j ≠ i ∧ ptr l.[j] b = q ∧ q ≠ 0).
Proof.
  intros Hi. split.
  - intros (j & b & Hj & E & Hq). destruct (decide (j = i)) as [->|]; [left; by exists b | right; exists j, b; by split_and!].
  - intros [(b & E & Hq)|(j & b & Hj & _ & E & Hq)]; [by exists i, b | by exists j, b].
Qed.

(** The same buffers in the slot. *)
Lemma hinv_same k l i c : zlen l = TCP_MAX_CONN → slot i → hinv k l → tx_ptr c = tx_ptr l.[i] → rx_ptr c = rx_ptr l.[i] → hinv k l.[i <- c].
Proof.
  intros Hl Hi [H1 H2 H3] Et Er. assert (Hp : ∀ b, ptr c b = ptr l.[i] b) by (intros []; done).
  assert (Hg : ∀ j b, slot j → ptr l.[i <- c].[j] b = ptr l.[j] b).
  { intros j b Hj. rewrite aget_aset by (unfold slot in *; lia). destruct (Z.eqb_spec i j) as [<-|]; [apply Hp | done]. }
  assert (Ho : ∀ q, owns l.[i <- c] q ↔ owns l q).
  { intros q. unfold owns. split; intros (j & b & Hj & E & Hq); exists j, b; (split; [done|]); [rewrite <- Hg by done | rewrite Hg by done]; done. }
  constructor; [|intros q; rewrite Ho; apply H2 | intros j m a b Hj Hm; rewrite !Hg by done; by apply H3].
  eapply buf_ext, H1. intros q. by rewrite Ho.
Qed.

Lemma free_rep k P p : buf_rep k P → (p ≠ 0 → P p) → buf_rep (if ztrue p then kfree k p else k) (λ q, P q ∧ (p = 0 ∨ q ≠ p)).
Proof.
  intros Hr Hp. unfold ztrue. destruct (Z.eqb_spec p 0) as [->|Hne]; cbn [negb].
  - eapply buf_ext, Hr. intros q. tauto.
  - eapply buf_ext, kfree_law, Hp, Hne; [|exact Hr]. intros q. cbv beta. tauto.
Qed.

(** No buffers in the slot any more: they were freed. *)
Lemma hinv_freed k l i c k' c' : zlen l = TCP_MAX_CONN → slot i → hinv k l → tx_ptr c = tx_ptr l.[i] → rx_ptr c = rx_ptr l.[i] →
  conn_free k c = (k', c') → hinv k' l.[i <- c'].
Proof.
  intros Hl Hi Hh Et Er E. pose proof (conn_free_spec k c) as Hs. rewrite E in Hs. destruct Hs as (_ & _ & Zt & Zr & Ek). destruct Hh as [H1 H2 H3].
  cbv zeta in Ek. rewrite Et, Er in Ek. set (k1 := if ztrue (tx_ptr l.[i]) then kfree k (tx_ptr l.[i]) else k) in Ek.
  pose proof (free_rep _ _ (tx_ptr l.[i]) H1 ltac:(intros; right; by exists i, true)) as Hk1. fold k1 in Hk1.
  pose proof (free_rep _ _ (rx_ptr l.[i]) Hk1) as Hk. rewrite <- Ek in Hk.
  assert (Hown : rx_ptr l.[i] ≠ 0 → (base (rx_ptr l.[i]) ∨ owns l (rx_ptr l.[i])) ∧ (tx_ptr l.[i] = 0 ∨ rx_ptr l.[i] ≠ tx_ptr l.[i])).
  { intros E0. split; [right; by exists i, false|]. destruct (decide (tx_ptr l.[i] = 0)); [by left | right]. intros E1. destruct (H3 i i true false Hi Hi) as [_ ?]; by cbn. }
  specialize (Hk Hown).
  assert (Hp : ∀ b, ptr c' b = 0) by (intros []; done).
  assert (Ho : ∀ q, owns l.[i <- c'] q ↔ ∃ j b, slot j ∧ j ≠ i ∧ ptr l.[j] b = q ∧ q ≠ 0).
  { intros q. rewrite owns_put by done. split; [|by right]. intros [(b & Eb & Hq)|]; [|done]. by rewrite Hp in Eb. }
  constructor.
  - eapply buf_ext, Hk. intros q. cbv beta. rewrite Ho, (owns_split l i q Hi). split.
    + intros [[[?|[(b & Eb & Hq)|?]] Hx] Hy]; [by left | | by right]. exfalso. destruct b; cbn in Eb; naive_solver.
    + intros [Hb|(j & b & Hj & Hne & Eb & Hq)].
      * assert (Hno : ∀ a, ptr l.[i] a ≠ 0 → q ≠ ptr l.[i] a) by (intros a Ha ->; apply (H2 (ptr l.[i] a)); [by exists i, a | done]).
        split_and!; [by left | destruct (decide (tx_ptr l.[i] = 0)); [by left | right; by apply (Hno true)] | destruct (decide (rx_ptr l.[i] = 0)); [by left | right; by apply (Hno false)]].
      * split_and!; [right; right; by exists j, b | right; intros Eq; destruct (H3 j i b true Hj Hi); cbn; congruence | right; intros Eq; destruct (H3 j i b false Hj Hi); cbn; congruence].
  - intros q. rewrite Ho. intros (j & b & Hj & _ & Eb & Hq). apply H2. by exists j, b.
  - intros j m a b Hj Hm. rewrite !aget_aset by (unfold slot in *; lia). destruct (Z.eqb_spec i j), (Z.eqb_spec i m); rewrite ?Hp; first [by apply H3 | congruence | done].
Qed.

(** Two fresh blocks in a slot that had none. *)
Lemma hinv_filled k l i c k1 p b k2 q d n m : zlen l = TCP_MAX_CONN → slot i → hinv k l → tx_ptr l.[i] = 0 → rx_ptr l.[i] = 0 →
  0 < n ≤ 65536 → 0 < m ≤ 65536 → kmalloc k n = (k1, p, b) → kmalloc k1 m = (k2, q, d) → p ≠ 0 → q ≠ 0 → tx_ptr c = p → rx_ptr c = q → hinv k2 l.[i <- c].
Proof.
  intros Hl Hi [H1 H2 H3] Zt Zr Hn Hm E1 E2 Hp Hq Et Er. pose proof (kmalloc_law k _ n H1 Hn) as L1. rewrite E1 in L1. destruct L1 as [[? _]|(_ & Np & _ & L1)]; [done|].
  pose proof (kmalloc_law k1 _ m L1 Hm) as L2. rewrite E2 in L2. destruct L2 as [[? _]|(_ & Nq & _ & L2)]; [done|].
  assert (Hz : ∀ b, ptr l.[i] b = 0) by (intros []; done).
  assert (Ho : ∀ x, owns l.[i <- c] x ↔ owns l x ∨ x = p ∨ x = q).
  { intros x. rewrite owns_put, (owns_split l i x) by done. split.
    - intros [([] & <- & ?)|?]; cbn; auto.
    - intros [[(a & Ea & Hx)|?]|[->| ->]]; [by rewrite Hz in Ea | by right | left; by exists true | left; by exists false]. }
  constructor.
  - eapply buf_ext, L2. intros x. cbv beta. rewrite Ho. tauto.
  - intros x [Hx|[->| ->]]%Ho; [by apply H2 | |]; intros Hb; tauto.
  - assert (Hnew : ∀ j a b', slot j → ptr l.[j] a ≠ 0 → ptr l.[j] a ≠ ptr c b').
    { intros j a b' Hj Hne Eq. assert (Hlv : owns l (ptr c b')) by (exists j, a; by rewrite Eq in *). destruct b'; cbn in Hlv; rewrite ?Et, ?Er in Hlv; tauto. }
    intros j m' a b' Hj Hm'. rewrite !aget_aset by (unfold slot in *; lia). destruct (Z.eqb_spec i j) as [<-|], (Z.eqb_spec i m') as [<-|].
    + intros Eq _. split; [done|]. destruct a, b'; cbn in Eq; try done; rewrite Et, Er in Eq; exfalso; apply Nq; right; congruence.
    + intros Eq Hne. rewrite Eq in Hne. by destruct (Hnew m' b' a Hm' Hne).
    + intros Eq Hne. by destruct (Hnew j a b' Hj Hne).
    + by apply H3.
Qed.

(** One of the two allocations failed: what was taken is given back. *)
Lemma hinv_unfilled k l i c k1 p b k2 q d n m k3 c' : zlen l = TCP_MAX_CONN → slot i → hinv k l → tx_ptr l.[i] = 0 → rx_ptr l.[i] = 0 →
  0 < n ≤ 65536 → 0 < m ≤ 65536 → kmalloc k n = (k1, p, b) → kmalloc k1 m = (k2, q, d) → p = 0 ∨ q = 0 → tx_ptr c = p → rx_ptr c = q → conn_free k2 c = (k3, c') → hinv k3 l.[i <- c'].
Proof.
  intros Hl Hi Hh Zt Zr Hn Hm E1 E2 Hz Et Er E. pose proof (hi_live _ _ Hh) as H1. set (P := λ q, base q ∨ owns l q) in H1.
  pose proof (conn_free_spec k2 c) as Hs. rewrite E in Hs. destruct Hs as (_ & _ & Z1 & Z2 & Ek). cbv zeta in Ek. rewrite Et, Er in Ek.
  assert (Hlive : buf_rep k3 P).
  { pose proof (kmalloc_law k P n H1 Hn) as L1. rewrite E1 in L1. rewrite Ek. unfold ztrue. destruct L1 as [[-> L1]|(Np & Hp & _ & L1)].
    all: pose proof (kmalloc_law k1 _ m L1 Hm) as L2; rewrite E2 in L2; destruct L2 as [[-> L2]|(Nq & Hq & _ & L2)]; cbn [Z.eqb negb].
    - done.
    - rewrite (proj2 (Z.eqb_neq q 0)) by done. cbn. eapply buf_ext, kfree_law; [|exact L2 | by right]. intros x. cbv beta. split; [tauto|]. intros Hx. split; [by left|]. by intros ->.
    - rewrite (proj2 (Z.eqb_neq p 0)) by done. cbn. eapply buf_ext, kfree_law; [|exact L2 | by right]. intros x. cbv beta. split; [tauto|]. intros Hx. split; [by left|]. by intros ->.
    - by destruct Hz. }
  pose proof (hinv_same k l i c' Hl Hi Hh ltac:(congruence) ltac:(congruence)) as [A1 A2 A3].
  assert (Ho : ∀ x, owns l.[i <- c'] x ↔ owns l x).
  { intros x. rewrite owns_put, (owns_split l i x) by done. split; (intros [([] & Eb & Hx)|?]; [| |by right]); cbn in Eb; congruence. }
  constructor; try done. eapply buf_ext, Hlive. intros x. unfold P. by rewrite Ho.
Qed.
End heap.
