(* ===== verification/TcpOps.v ===== *)
(** * Every operation keeps the table

    The table invariant of [TcpTable] under each operation of the core, the
    receive path and the timer, with what the operation leaves alone: control
    blocks that a socket holds. *)

From S2P Require Import Prelude NetBase Net Tcp NetProps TcpGhost TcpTable.

Section ops.
Context {N K : Type} {IP : IpOps N} {HEAP : BufOps K} {LAWS : BufLaws K}.
Context (base : Z → Prop).
Implicit Types (t : tcp N K) (n : N) (k : K) (c : tcp_conn).

Record tinv (t : tcp N K) : Prop := {
  ti_conns : cinv (g_conns t);
  ti_heap : hinv base (t_heap t) (g_conns t);
  ti_eph : dynamic (g_eph t)
}.

(** A control block in the hands of a socket. *)
Definition held (c : tcp_conn) : bool := used c && negb (droppable c).

(** It still is, and it is the same connection or listener. *)
Definition stays (c c' : tcp_conn) : Prop := held c' = true ∧ is_lst c' = is_lst c ∧ tuple c' = tuple c.

(** What is held stays held. *)
Definition safe (t t' : tcp N K) : Prop := ∀ j, slot j → held (g_conns t).[j] = true → stays (g_conns t).[j] (g_conns t').[j].
(** All but slot [i] is untouched. *)
Definition only (i : Z) (t t' : tcp N K) : Prop := ∀ j, slot j → j ≠ i → (g_conns t').[j] = (g_conns t).[j].

Lemma put_get t i n k c j : cinv (g_conns t) → slot i → slot j → (g_conns (put_conn t i n k c)).[j] = if i =? j then c else (g_conns t).[j].
Proof. intros Hc Hi Hj. cbn. apply aget_aset; [rewrite (ci_len _ Hc)|]; unfold slot in *; lia. Qed.
Lemma put_only t i n k c : cinv (g_conns t) → slot i → only i t (put_conn t i n k c).
Proof. intros Hc Hi j Hj Hne. rewrite put_get by done. by rewrite (proj2 (Z.eqb_neq i j)) by done. Qed.

Lemma held_spec c : held c = true ↔ used c = true ∧ orphan c = false ∧ (is_Some (listener c) → accepted c = true).
Proof.
  unfold held, droppable. rewrite andb_true_iff, negb_true_iff, orb_false_iff, andb_false_iff, bool_decide_eq_false, negb_false_iff.
  destruct (listener c) as [m|]; [|naive_solver]. split; [|naive_solver]. intros (H1 & H2 & [H3|H3]); split_and!; try done.
Qed.

Lemma keeps_held c c' : keeps c c' → held c' = held c.
Proof. intros (Hu & _ & _ & _ & Hl & Ha & Ho & _). unfold held, droppable. by rewrite Hu, Hl, Ha, Ho. Qed.

Lemma put_keeps t i n c : tinv t → slot i → keeps (g_conns t).[i] c → is_lst (g_conns t).[i] = false → tinv (put_conn t i n (t_heap t) c).
Proof.
  intros [Hc Hh He] Hi Hk Hl. constructor; cbn; [by apply cinv_keeps | | done]. apply hinv_same; try done; [apply Hc | apply Hk | apply Hk].
Qed.

Lemma keeps_stays c c' : keeps c c' → held c = true → stays c c'.
Proof. intros Hk Hh. split_and!; [by rewrite (keeps_held _ _ Hk) | by apply keeps_lst | by apply keeps_tuple]. Qed.
Lemma stays_refl c : held c = true → stays c c.
Proof. done. Qed.

(** A step of one control block, as the receive path and the timer make it. *)
Lemma put_evolves t i n k c : tinv t → slot i → is_lst (g_conns t).[i] = false → evolves (t_heap t) (g_conns t).[i] k c →
  tinv (put_conn t i n k c) ∧ safe t (put_conn t i n k c) ∧ only i t (put_conn t i n k c).
Proof.
  intros HT Hi Hl He. pose proof HT as [Hc Hh Hep]. split; [|split; [|by apply put_only]].
  - destruct He as [[Hk ->]|(Hd & c0 & Hk & Hf)]; [by apply put_keeps|]. unfold freed in Hf.
    pose proof (conn_free_spec (t_heap t) c0) as Hs. rewrite Hf in Hs. destruct Hs as (Hu & _ & Zt & Zr & _). constructor; cbn; [| |done].
    + apply cinv_free; try done. congruence.
    + eapply hinv_freed; [apply Hc | done | exact Hh | apply Hk | apply Hk | done].
  - intros j Hj Hheld. rewrite put_get by done. destruct (Z.eqb_spec i j) as [<-|]; [|by apply stays_refl]. destruct He as [[Hk _]|(Hd & _)]; [by apply keeps_stays|].
    unfold held in Hheld. rewrite Hd in Hheld. by rewrite andb_false_r in Hheld.
Qed.

Lemma safe_trans t1 t2 t3 : safe t1 t2 → safe t2 t3 → safe t1 t3.
Proof. intros H1 H2 j Hj Hh. destruct (H1 j Hj Hh) as (A1 & A2 & A3). destruct (H2 j Hj A1) as (B1 & B2 & B3). split_and!; congruence. Qed.
Lemma safe_refl t : safe t t.
Proof. intros j _ Hh. by apply stays_refl. Qed.

(** ** The timer *)

Lemma tick_slot_ok now i t : tinv t → slot i → tinv (tick_slot now i t) ∧ safe t (tick_slot now i t).
Proof.
  intros HT Hi. unfold tick_slot. destruct (is_lst (g_conns t).[i]) eqn:El.
  - pose proof (sl_list _ (ci_slot _ (ti_conns _ HT) i Hi) El) as (_ & _ & _ & Ho & Hr & _). apply is_lst_spec in El as [Hu Hs].
    assert (E : conn_tick now (t_net t) (t_heap t) (g_conns t).[i] = (t_net t, t_heap t, (g_conns t).[i])).
    { unfold conn_tick, is_state. rewrite Hu, Hs, Ho, Hr. done. }
    rewrite E. assert (Et : put_conn t i (t_net t) (t_heap t) (g_conns t).[i] = t).
    { unfold put_conn. rewrite aset_same by (rewrite (ci_len _ (ti_conns _ HT)); exact Hi). by destruct t. }
    rewrite Et. split; [done | apply safe_refl].
  - assert (Hs : used (g_conns t).[i] = true → state (g_conns t).[i] ≠ TCP_LISTEN) by (intros Hu Hs; assert (is_lst (g_conns t).[i] = true) by (by apply is_lst_spec); congruence).
    assert (He : let '(n, k, c) := conn_tick now (t_net t) (t_heap t) (g_conns t).[i] in evolves (t_heap t) (g_conns t).[i] k c).
    { destruct (used (g_conns t).[i]) eqn:Hu; [apply conn_tick_evolves; auto|]. unfold conn_tick. rewrite Hu. by left. }
    destruct (conn_tick now (t_net t) (t_heap t) (g_conns t).[i]) as [[n k] c]. destruct (put_evolves t i n k c HT Hi El He) as (? & ? & _). done.
Qed.

Lemma tcp_tick_ok now t : tinv t → tinv (tcp_tick now t) ∧ safe t (tcp_tick now t).
Proof.
  intros HT. unfold tcp_tick. pose proof (ci_len _ (ti_conns _ HT)) as Hl.
  apply (zfor_inv (λ _ t', tinv t' ∧ safe t t') (length (g_conns t)) 0 (tick_slot now) t); [split; [done | apply safe_refl]|].
  intros i t' Hi [HT' Hs']. destruct (tick_slot_ok now i t' HT') as [H1 H2]; [unfold slot; lia|]. split; [done | by eapply safe_trans].
Qed.

(** ** Taking a control block *)

Lemma reclaim_best_spec l : let b := reclaim_best l in
  b = -1 ∨ 0 ≤ b < zlen l ∧ used l.[b] = true ∧ orphan l.[b] = true ∧ state l.[b] = TCP_TIME_WAIT.
Proof.
  unfold reclaim_best. apply (zfor_inv (λ i b, b = -1 ∨ 0 ≤ b < zlen l ∧ used l.[b] = true ∧ orphan l.[b] = true ∧ state l.[b] = TCP_TIME_WAIT) (length l) 0); [by left|].
  intros i b Hi Hb. cbv beta zeta. destruct (_ && _) eqn:E; [|done]. zbool. right. unfold is_state in *. split_and!; try done; try lia. by eapply bool_decide_eq_true_1.
Qed.

Lemma reclaim_ok t : tinv t → let '(t', i) := reclaim_time_wait t in
  tinv t' ∧ safe t t' ∧ (i = -1 ∨ slot i ∧ only i t t' ∧ used (g_conns t').[i] = false) ∧ g_peak t' = g_peak t.
Proof.
  intros HT. unfold reclaim_time_wait. pose proof (ci_len _ (ti_conns _ HT)) as Hl. pose proof (reclaim_best_spec (g_conns t)) as Hb. set (b := reclaim_best _) in *. clearbody b. cbn in Hb.
  destruct (Z.leb_spec 0 b); [|split_and!; [done | apply safe_refl | left; lia | done]]. destruct Hb as [|(Hr & Hu & Ho & Hs)]; [lia|].
  assert (Hi : slot b) by (unfold slot; lia). assert (Hlst : is_lst (g_conns t).[b] = false).
  { destruct (is_lst (g_conns t).[b]) eqn:E; [|done]. apply is_lst_spec in E as [_ E]. congruence. }
  destruct (conn_free (t_heap t) (g_conns t).[b]) as [k c] eqn:Ef.
  destruct (put_evolves t b (t_net t) k c HT Hi Hlst) as (H1 & H2 & H3).
  { right. split; [unfold droppable; by rewrite Ho|]. by exists (g_conns t).[b]. }
  split_and!; try done. right. split_and!; try done. rewrite put_get, Z.eqb_refl by (try done; apply HT).
  pose proof (conn_free_spec (t_heap t) (g_conns t).[b]) as Hf. rewrite Ef in Hf. apply Hf.
Qed.

(** A control block that is closed and nobody's business. *)
Lemma cinv_idle l i c : cinv l → slot i → used l.[i] = false → slot_ok c → alive c = false → is_lst c = false → listener c = None → cinv l.[i <- c].
Proof.
  intros Hc Hi Hu Hs Ha Hl Hn. assert (El : is_lst l.[i] = false) by (unfold is_lst; by rewrite Hu).
  apply cinv_put; try done; try congruence. intros m _ _ _ Hq. apply queued_spec in Hq as (_ & ? & _). congruence.
Qed.

Lemma unused_ptrs t i : tinv t → slot i → used (g_conns t).[i] = false → tx_ptr (g_conns t).[i] = 0 ∧ rx_ptr (g_conns t).[i] = 0.
Proof. intros HT Hi Hu. by apply (sl_free _ (ci_slot _ (ti_conns _ HT) i Hi)). Qed.

Lemma unused_safe t t' i : slot i → only i t t' → held (g_conns t).[i] = false → safe t t'.
Proof. intros Hi Ho Hh j Hj Hheld. destruct (decide (j = i)) as [->|]; [congruence|]. rewrite Ho by done. by apply stays_refl. Qed.

Definition stats_of t t' : Prop := g_conns t' = g_conns t ∧ t_heap t' = t_heap t ∧ g_eph t' = g_eph t.
Lemma stats_tinv t full nomem peak : tinv t → tinv (set_stats t full nomem peak).
Proof. intros []. by constructor. Qed.

(** Filling an unused slot. *)
Lemma alloc_fill t i : tinv t → slot i → used (g_conns t).[i] = false →
  let '(k1, p, b) := kmalloc (t_heap t) TCP_TXBUF in
  let '(k2, q, d) := kmalloc k1 TCP_RXBUF in
  let c := set_rx d (set_rx_ptr q (set_tx b (set_tx_ptr p conn_zero))) in
  if negb (ztrue p) || negb (ztrue q) then let '(k3, c1) := conn_free k2 c in tinv (put_conn t i (t_net t) k3 c1)
  else tinv (put_conn t i (t_net t) k2 (set_state TCP_CLOSED (set_used true c))) ∧ fresh (set_state TCP_CLOSED (set_used true c)).
Proof.
  intros HT Hi Hu. pose proof HT as [Hc Hh He]. destruct (unused_ptrs t i HT Hi Hu) as [Zt Zr]. pose proof (ci_len _ Hc) as Hl.
  pose proof (kmalloc_law (t_heap t) _ TCP_TXBUF (hi_live _ _ _ Hh) ltac:(by unfold TCP_TXBUF)) as L1. destruct (kmalloc (t_heap t) TCP_TXBUF) as [[k1 p] b] eqn:E1.
  pose proof (λ P H, kmalloc_law k1 P TCP_RXBUF H ltac:(by unfold TCP_RXBUF)) as L2. destruct (kmalloc k1 TCP_RXBUF) as [[k2 q] d] eqn:E2. cbv zeta. set (c := set_rx d _). unfold ztrue. rewrite !negb_involutive.
  destruct (_ || _) eqn:Ez.
  - destruct (conn_free k2 c) as [k3 c1] eqn:Ef. pose proof (conn_free_spec k2 c) as Hs. rewrite Ef in Hs. destruct Hs as (Hu1 & _ & Z1 & Z2 & _). constructor; cbn; [| |done].
    + apply cinv_free; try done. unfold is_lst. by rewrite Hu.
    + eapply (hinv_unfilled base (t_heap t) _ i c _ _ _ _ _ _ TCP_TXBUF TCP_RXBUF); try done. apply orb_true_iff in Ez. rewrite !Z.eqb_eq in Ez. done.
  - zbool. destruct L1 as [[? _]|(_ & _ & Hb & L1)]; [done|]. destruct (L2 _ L1) as [[? _]|(_ & _ & Hd & _)]; [done|]. split; [|by exists p, b, q, d].
    constructor; cbn; [| |done].
    + by apply cinv_idle.
    + by eapply (hinv_filled base (t_heap t) _ i _ _ _ _ _ _ _ TCP_TXBUF TCP_RXBUF).
Qed.

Lemma tcp_alloc_ok t : tinv t → let '(t', r) := tcp_alloc t in
  tinv t' ∧ safe t t' ∧
  match r with
  | Some i => slot i ∧ only i t t' ∧ fresh (g_conns t').[i] ∧ held (g_conns t).[i] = false ∧ ∀ m, queued m (g_conns t).[i] = false
  | None => True
  end.
Proof.
  intros HT. unfold tcp_alloc. pose proof (ci_len _ (ti_conns _ HT)) as Hl.
  assert (Hpick : let '(t1, i) := match first (λ c, negb (used c)) (g_conns t) with Some i => (t, i) | None => reclaim_time_wait t end in
    tinv t1 ∧ safe t t1 ∧ (i = -1 ∨ slot i ∧ only i t t1 ∧ used (g_conns t1).[i] = false ∧ held (g_conns t).[i] = false ∧ ∀ m, queued m (g_conns t).[i] = false)).
  { destruct (first (λ c, negb (used c)) (g_conns t)) as [i|] eqn:Ef.
    - apply first_some in Ef as (Hi & Hu%negb_true_iff & _). split_and!; [done | apply safe_refl|]. right. split; [unfold slot, TCP_MAX_CONN in *; lia|]. split; [done|]. split; [done|]. split.
      + unfold held. by rewrite Hu.
      + intros m. unfold queued. by rewrite Hu.
    - pose proof (reclaim_ok t HT) as H. unfold reclaim_time_wait in H |- *. pose proof (reclaim_best_spec (g_conns t)) as Hb. cbv zeta in Hb. set (b := reclaim_best _) in *. clearbody b.
      destruct (Z.leb_spec 0 b); [|destruct H as (? & ? & ? & _); split_and!; try done; left; lia]. destruct Hb as [|(Hr & Hu & Ho & Hs)]; [lia|].
      destruct (conn_free (t_heap t) (g_conns t).[b]) as [k c]. destruct H as (H1 & H2 & [|(H3 & H4 & H5)] & _); [lia|]. split_and!; try done. right. split; [done|]. split; [done|]. split; [done|]. split.
      + unfold held, droppable. by rewrite Ho, andb_false_r.
      + intros m. destruct (queued m (g_conns t).[b]) eqn:Eq; [|done]. apply queued_spec in Eq as (_ & El & Ea).
        pose proof (sl_queue _ (ci_slot _ (ti_conns _ HT) b H3) Hu ltac:(by rewrite El) Ea). congruence. }
  destruct (match first _ _ with Some i => (t, i) | None => reclaim_time_wait t end) as [t1 i]. destruct Hpick as (HT1 & Hs1 & Hi).
  destruct (Z.leb_spec 0 i); [|split_and!; [by apply stats_tinv | done | done]]. destruct Hi as [|(Hi & Ho1 & Hu1 & Hh & Hq)]; [lia|].
  assert (Hput : ∀ n k c, only i t (put_conn t1 i n k c)) by (intros n k c j Hj Hne; rewrite (put_only t1 i n k c (ti_conns _ HT1) Hi j Hj Hne); by apply Ho1).
  pose proof (alloc_fill t1 i HT1 Hi Hu1) as Hfill. destruct (kmalloc (t_heap t1) TCP_TXBUF) as [[k1 p] b]. destruct (kmalloc k1 TCP_RXBUF) as [[k2 q] d]. cbv zeta in Hfill.
  set (c := set_rx d _) in *. destruct (_ || _).
  - destruct (conn_free k2 c) as [k3 c1]. split_and!; [by apply stats_tinv | | done]. apply (unused_safe _ _ i); try done. intros j Hj Hne. by apply (Hput (t_net t1) k3 c1).
  - destruct Hfill as [H1 H2]. split; [by apply stats_tinv|]. split; [|split; [done|split; [|split; [|done]]]].
    + apply (unused_safe _ _ i); try done. intros j Hj Hne. by apply (Hput (t_net t1) k2 _).
    + intros j Hj Hne. by apply (Hput (t_net t1) k2 _).
    + cbn. rewrite aget_aset_eq; [done|]. rewrite (ci_len _ (ti_conns _ HT1)). apply Hi.
Qed.

(** ** Opening *)

Lemma put_put t i n k c n' k' c' : put_conn (put_conn t i n k c) i n' k' c' = put_conn t i n' k' c'.
Proof. unfold put_conn. cbn. f_equal. apply list_insert_insert_eq. Qed.

Lemma fresh_spec c : fresh c → used c = true ∧ state c = TCP_CLOSED ∧ listener c = None ∧ accepted c = false ∧ orphan c = false ∧ rto_deadline c = 0.
Proof. intros (p & b & q & d & _ & _ & ->). done. Qed.

Lemma not_lst_unref l i j : cinv l → is_lst l.[i] = false → slot j → used l.[j] = true → listener l.[j] ≠ Some i.
Proof. intros Hc Hl Hj Hu E. destruct (ci_lst _ Hc j i Hj Hu E). congruence. Qed.

Lemma not_lst_queue l i : cinv l → is_lst l.[i] = false → count (queued i) l = 0.
Proof.
  intros Hc Hl. rewrite count_zcount. apply zcount_none. intros j Hj. destruct (queued i l.[j]) eqn:E; [|done]. apply queued_spec in E as (Hu & El & _).
  destruct (not_lst_unref l i j Hc Hl); try done. pose proof (ci_len _ Hc). unfold slot. lia.
Qed.

Lemma tcp_free_ok t i : tinv t → slot i → is_lst (g_conns t).[i] = false →
  tinv (tcp_free t i) ∧ only i t (tcp_free t i) ∧ used (g_conns (tcp_free t i)).[i] = false.
Proof.
  intros [Hc Hh He] Hi Hl. unfold tcp_free. destruct (conn_free (t_heap t) (g_conns t).[i]) as [k c] eqn:Ef.
  pose proof (conn_free_spec (t_heap t) (g_conns t).[i]) as Hs. rewrite Ef in Hs. destruct Hs as (Hu & _ & Zt & Zr & _). split_and!; [|by apply put_only | by rewrite put_get, Z.eqb_refl].
  constructor; cbn; [| |done].
  - apply cinv_free; try done. congruence.
  - eapply hinv_freed; [apply Hc | done | exact Hh | done | done | done].
Qed.

(** An active open on a fresh control block. *)
Lemma start_connect_ok now rnd t i dev dip dport : tinv t → slot i → fresh (g_conns t).[i] → dev ≠ NULL_DEV →
  let '(t', r) := tcp_start_connect now rnd t i dev dip dport in
  r = 0 ∧ tinv t' ∧ only i t t' ∧ held (g_conns t').[i] = true ∧ is_lst (g_conns t').[i] = false.
Proof.
  intros HT Hi Hf Hd. pose proof HT as [Hc Hh He]. pose proof (ci_len _ Hc) as Hl. destruct (fresh_spec _ Hf) as (Fu & Fs & Fl & Fa & Fo & Fr).
  unfold tcp_start_connect. rewrite (proj2 (Z.eqb_neq dev NULL_DEV)) by done. set (c0 := set_remote_port _ _). unfold eph_port.
  pose proof (eph_search_table (g_conns (put_conn t i (t_net t) (t_heap t) c0)) (λ p c, used c && (local_port c =? p)) (g_eph t)) as Hs.
  change (g_eph (put_conn t i (t_net t) (t_heap t) c0)) with (g_eph t). destruct (eph_search _ _ _) as [e p].
  destruct Hs as (He' & Hp & Hfree); [cbn; rewrite aset_length, Hl; unfold TCP_MAX_CONN; lia | intros p1 p2 x [_ E1]%andb_true_iff [_ E2]%andb_true_iff; zbool; congruence | done |].
  set (t1 := set_eph _ e). destruct (conn_connect now rnd (t_net t1) c0 p) as [n c1] eqn:Ec.
  assert (Hc1 : used c1 = true ∧ state c1 = TCP_SYN_SENT ∧ listener c1 = None ∧ accepted c1 = false ∧ orphan c1 = false ∧ local_port c1 = p ∧
    tx_ptr c1 = tx_ptr (g_conns t).[i] ∧ rx_ptr c1 = rx_ptr (g_conns t).[i]).
  { unfold conn_connect in Ec. destruct (tcp_xmit _ _ _ _ _) as [n1 r1]. injection Ec as _ <-. by split_and!. }
  destruct Hc1 as (Cu & Cs & Cl & Ca & Co & Cp & Ct & Cr). assert (Lst : is_lst c1 = false) by (unfold is_lst, is_state; by rewrite Cs, andb_false_r).
  assert (Lsti : is_lst (g_conns t).[i] = false) by (unfold is_lst, is_state; by rewrite Fs, andb_false_r).
  set (t2 := put_conn t1 i n (t_heap t1) c1). assert (Econ : g_conns t2 = (g_conns t).[i <- c1]) by (unfold t2, t1; cbn; apply list_insert_insert_eq).
  split; [done|]. split; [|split_and!].
  - constructor; [rewrite Econ | | exact He'].
    + pose proof (sl_bufs _ (ci_slot _ Hc i Hi) Fu ltac:(congruence)) as [B1 B2]. apply cinv_put; try done; try congruence.
      * constructor; [congruence | congruence | rewrite Ct, Cr; done | rewrite Cl; by intros _ [? ?]].
      * intros m _ _ _ Hq. apply queued_spec in Hq as (_ & ? & _). congruence.
      * intros _ j Hj Hne Ha Et. unfold tuple in Et. injection Et as Ep _ _. specialize (Hfree j). cbn in Hfree. rewrite aset_length, aget_aset_ne in Hfree by (unfold slot in *; lia).
        rewrite Hl in Hfree. specialize (Hfree Hj). rewrite Ep, Cp, Z.eqb_refl, andb_true_r in Hfree. apply alive_split in Ha as (? & _). congruence.
    + change (t_heap t2) with (t_heap t). rewrite Econ. by apply hinv_same.
  - intros j Hj Hne. rewrite Econ. apply aget_aset_ne; unfold slot in *; lia.
  - rewrite Econ, aget_aset_eq by (rewrite Hl; exact Hi). apply held_spec. rewrite Cl. split_and!; try done.
  - rewrite Econ, aget_aset_eq by (rewrite Hl; exact Hi). done.
Qed.

Lemma drop_buffers_free k c : let '(k', c') := drop_buffers k c in
  conn_free k c = (k', set_state TCP_CLOSED (set_used false c')) ∧ tx_ptr c' = 0 ∧ rx_ptr c' = 0 ∧
  listener c' = listener c ∧ orphan c' = orphan c ∧ rto_deadline c' = rto_deadline c ∧ used c' = used c ∧ accepted c' = accepted c.
Proof.
  unfold drop_buffers, conn_free, ztrue. destruct (Z.eqb_spec (tx_ptr c) 0), (Z.eqb_spec (rx_ptr c) 0); cbn.
  all: rewrite ?(proj2 (Z.eqb_eq (rx_ptr c) 0)), ?(proj2 (Z.eqb_neq (rx_ptr c) 0)) by done; by split_and!.
Qed.

(** A passive open. *)
Lemma start_listen_ok t i dev port bl : tinv t → slot i → fresh (g_conns t).[i] →
  let '(t', r) := tcp_start_listen t i dev port bl in
  r = -1 ∧ t' = t ∨ r = 0 ∧ tinv t' ∧ only i t t' ∧ held (g_conns t').[i] = true ∧ is_lst (g_conns t').[i] = true.
Proof.
  intros HT Hi Hf. pose proof HT as [Hc Hh He]. pose proof (ci_len _ Hc) as Hl. destruct (fresh_spec _ Hf) as (Fu & Fs & Fl & Fa & Fo & Fr).
  unfold tcp_start_listen. destruct (_ || _); [by left|]. destruct (bool_decide _) eqn:Es; [by left|]. apply bool_decide_eq_false in Es. cbv zeta.
  set (b := if TCP_MAX_BACKLOG <? _ then _ else _).
  assert (Hb : 1 ≤ b ≤ TCP_MAX_BACKLOG) by (unfold b, TCP_MAX_BACKLOG; repeat case_match; zbool; lia). clearbody b.
  pose proof (drop_buffers_free (t_heap t) (g_conns t).[i]) as Hd. destruct (drop_buffers (t_heap t) (g_conns t).[i]) as [k c].
  destruct Hd as (Ef & D1 & D2 & D3 & D4 & D5 & D6 & D7). set (c1 := set_backlog b _). right.
  assert (Lsti : is_lst (g_conns t).[i] = false) by (unfold is_lst, is_state; by rewrite Fs, andb_false_r).
  assert (Lst : is_lst c1 = true) by (apply is_lst_spec; split; [exact (eq_trans D6 Fu) | done]).
  split; [done|]. split; [|split_and!].
  - constructor; cbn; [| |done].
    + apply cinv_put; try done.
      * constructor; [cbn; congruence | intros _; cbn; split_and!; try congruence; apply Hb | cbn; congruence | cbn; rewrite D3, Fl; by intros _ [? ?]].
      * cbn. rewrite D3, Fl. done.
      * congruence.
      * intros _. split; [|rewrite (not_lst_queue _ i Hc Lsti); cbn; lia]. intros j Hj Hne Lj Ep. apply Es.
        destruct (search _ _ 0) eqn:Esr; [by eexists|]. exfalso. pose proof (search_none _ _ _ j Esr ltac:(unfold slot in *; lia)) as Hn. cbn beta in Hn. rewrite Z.sub_0_r in Hn.
        unfold listens_on in Hn. change (used (g_conns t).[j] && is_state TCP_LISTEN (g_conns t).[j]) with (is_lst (g_conns t).[j]) in Hn. rewrite Lj in Hn. cbn in Ep.
        rewrite Ep, Z.eqb_refl, (proj2 (Z.eqb_neq j i)) in Hn by done. done.
      * intros m _ _ _ Hq. apply queued_spec in Hq as (_ & ? & _). cbn in *. congruence.
      * intros Ha. apply alive_split in Ha as (_ & _ & Hs). done.
    + pose proof (hinv_freed base _ _ i _ _ _ Hl Hi Hh eq_refl eq_refl Ef) as H1. replace ((g_conns t).[i <- c1]) with ((g_conns t).[i <- set_state TCP_CLOSED (set_used false c)].[i <- c1]) by apply list_insert_insert_eq.
      apply hinv_same; try done; [by rewrite aset_length | rewrite aget_aset_eq by (rewrite Hl; exact Hi); done..].
  - by apply put_only.
  - rewrite put_get, Z.eqb_refl by done. apply held_spec. cbn. rewrite D3, D4, D6. split_and!; [congruence | congruence | rewrite Fl; by intros [? ?]].
  - by rewrite put_get, Z.eqb_refl by done.
Qed.

(** ** Accepting *)

Lemma accept_ready_ok t lc : tinv t → let '(t', r) := tcp_accept_ready t lc in
  match r with
  | Some i => tinv t' ∧ slot i ∧ only i t t' ∧ held (g_conns t).[i] = false ∧ held (g_conns t').[i] = true ∧ is_lst (g_conns t').[i] = false
  | None => t' = t
  end.
Proof.
  intros HT. pose proof HT as [Hc Hh He]. pose proof (ci_len _ Hc) as Hl. unfold tcp_accept_ready. destruct (first (ready lc) (g_conns t)) as [i|] eqn:E; [|done].
  apply first_some in E as (Hr & Hrd & _). assert (Hi : slot i) by (unfold slot; lia). unfold ready in Hrd. apply andb_true_iff in Hrd as [Hq Hst]. apply queued_spec in Hq as (Qu & Ql & Qa).
  apply bool_decide_eq_true in Hst. assert (Hns : state (g_conns t).[i] ≠ TCP_LISTEN) by (rewrite !elem_of_cons, elem_of_nil in Hst; by destruct Hst as [->|[->|[]]]).
  pose proof (ci_slot _ Hc i Hi) as Hs. pose proof (sl_queue _ Hs Qu ltac:(by rewrite Ql) Qa) as Qo.
  assert (Lst : is_lst (g_conns t).[i] = false) by (unfold is_lst, is_state; rewrite bool_decide_false by done; by rewrite andb_false_r).
  set (c := set_accepted true (g_conns t).[i]). destruct (ci_lst _ Hc i lc Hi Qu Ql) as [Hlc Llc].
  split; [|split; [done|split; [by apply put_only|split; [|split]]]].
  - constructor; cbn; [| |done].
    + apply cinv_put; try done.
      * destruct Hs as [S1 S2 S3 S4]. constructor; [exact S1 | exact S2 | exact S3 | done].
      * intros m _ Em. change (listener c) with (listener (g_conns t).[i]) in Em. rewrite Ql in Em. injection Em as <-. split_and!; try done. intros ->. congruence.
      * intros H. change (is_lst (g_conns t).[i] = true) in H. congruence.
      * intros H. change (is_lst (g_conns t).[i] = true) in H. congruence.
      * intros m _ _ _ Hq. apply queued_spec in Hq as (_ & _ & ?). done.
      * intros Ha j Hj Hne Haj Et. apply Hne, (ci_tuple _ Hc); done.
    + by apply hinv_same.
  - destruct (held (g_conns t).[i]) eqn:Eh; [|done]. apply held_spec in Eh as (_ & _ & Eh). rewrite Eh in Qa; [done | by rewrite Ql].
  - rewrite put_get, Z.eqb_refl by done. apply held_spec. by split_and!.
  - by rewrite put_get, Z.eqb_refl by done.
Qed.

(** ** Reading and writing *)

Lemma write_ok now t i data : tinv t → slot i → held (g_conns t).[i] = true → is_lst (g_conns t).[i] = false →
  tinv (tcp_write now t i data).1 ∧ safe t (tcp_write now t i data).1.
Proof.
  intros HT Hi Hh Hl. unfold tcp_write. pose proof (conn_write_keeps now (t_net t) (g_conns t).[i] data) as Hk. destruct (conn_write _ _ _ _) as [[n c] r].
  destruct (put_evolves t i n (t_heap t) c HT Hi Hl ltac:(by left)) as (? & ? & _). done.
Qed.

Lemma read_ok t i len : tinv t → slot i → is_lst (g_conns t).[i] = false →
  tinv (tcp_read t i len).1.1 ∧ safe t (tcp_read t i len).1.1.
Proof.
  intros HT Hi Hl. unfold tcp_read. pose proof (conn_read_keeps (t_net t) (g_conns t).[i] len) as Hk. destruct (conn_read _ _ _) as [[[n c] d] r].
  destruct (put_evolves t i n (t_heap t) c HT Hi Hl ltac:(by left)) as (? & ? & _). done.
Qed.

(** ** Releasing *)

(** The socket gives its control block up; the timer will free it. *)
Lemma orphan_ok t i c n : tinv t → slot i → held (g_conns t).[i] = true → is_lst (g_conns t).[i] = false →
  keeps (set_orphan true (g_conns t).[i]) c → tinv (put_conn t i n (t_heap t) c).
Proof.
  intros [Hc Hh He] Hi Hheld Hl Hk. apply held_spec in Hheld as (Hu & Ho & Ha). pose proof (ci_len _ Hc) as Hlen. set (co := set_orphan true (g_conns t).[i]) in *.
  assert (Hco : cinv (g_conns t).[i <- co]).
  { apply cinv_put; try done.
    - destruct (ci_slot _ Hc i Hi) as [S1 S2 S3 S4]. constructor; [exact S1 | change (is_lst co) with (is_lst (g_conns t).[i]); congruence | exact S3 |].
      intros _ Hs Hacc. change (listener co) with (listener (g_conns t).[i]) in Hs. change (accepted co) with (accepted (g_conns t).[i]) in Hacc. rewrite Ha in Hacc by done. done.
    - intros m _ Em. destruct (ci_lst _ Hc i m Hi Hu Em) as [? ?]. split_and!; try done. intros ->. congruence.
    - congruence.
    - change (is_lst co) with (is_lst (g_conns t).[i]). congruence.
    - intros m _ _ _ Hq. by left.
    - intros Hal j Hj Hne Haj Et. apply Hne, (ci_tuple _ Hc); done. }
  constructor; cbn; [| |done].
  - replace ((g_conns t).[i <- c]) with ((g_conns t).[i <- co].[i <- c]) by apply list_insert_insert_eq.
    apply cinv_keeps; rewrite ?aget_aset_eq by (rewrite Hlen; exact Hi); done.
  - apply hinv_same; try done; apply Hk.
Qed.

Lemma conn_release_ok now t i : tinv t → slot i → held (g_conns t).[i] = true → is_lst (g_conns t).[i] = false →
  let '(n, k, c) := conn_release now (t_net t) (t_heap t) (g_conns t).[i] in tinv (put_conn t i n k c).
Proof.
  intros HT Hi Hheld Hl. pose proof HT as [Hc Hh He]. assert (Hns : state (g_conns t).[i] ≠ TCP_LISTEN).
  { intros E. apply held_spec in Hheld as (Hu & _). assert (is_lst (g_conns t).[i] = true) by (by apply is_lst_spec). congruence. }
  assert (Hfree : ∀ n k c, conn_free (t_heap t) (g_conns t).[i] = (k, c) → tinv (put_conn t i n k c)).
  { intros n k c Ef. destruct (tcp_free_ok t i HT Hi Hl) as [[A1 A2 A3] _]. unfold tcp_free in *. rewrite Ef in *. by constructor. }
  unfold conn_release. destruct (in_states _ _); [destruct (conn_free _ _) eqn:Ef; by apply Hfree|]. destruct (_ && _).
  { unfold conn_abort. destruct (conn_free _ _) eqn:Ef. by apply Hfree. }
  set (co := set_orphan_deadline _ _). pose proof (conn_start_close_keeps now (t_net t) co Hns) as Hk. destruct (conn_start_close now (t_net t) co) as [n c].
  apply orphan_ok; try done.
Qed.

(** A listener's children: dropped, or left to their sockets. *)
Lemma release_child_ok lc j t : tinv t → slot j →
  let t' := release_child lc j t in
  tinv t' ∧ safe t t' ∧ only j t t' ∧ (used (g_conns t').[j] = true → listener (g_conns t').[j] ≠ Some lc).
Proof.
  intros HT Hj. pose proof HT as [Hc Hh He]. pose proof (ci_len _ Hc) as Hlen. unfold release_child. destruct (_ && _) eqn:E.
  2: { split; [done|]. split; [apply safe_refl|]. split; [done|]. intros Hu El. rewrite Hu, El in E. by rewrite bool_decide_true in E by done. }
  apply andb_true_iff in E as [Hu El%bool_decide_eq_true].
  assert (Lst : is_lst (g_conns t).[j] = false).
  { destruct (is_lst (g_conns t).[j]) eqn:L; [|done]. pose proof (sl_list _ (ci_slot _ Hc j Hj) L) as (_ & _ & ? & _). congruence. }
  destruct (accepted (g_conns t).[j]) eqn:Ha; cbn [negb].
  - set (c := set_listener None (g_conns t).[j]). assert (Hget : (g_conns (put_conn t j (t_net t) (t_heap t) c)).[j] = c) by (by rewrite put_get, Z.eqb_refl).
    split; [|split; [|split; [by apply put_only | by rewrite Hget]]].
    + constructor; cbn; [| by apply hinv_same | done]. apply cinv_put; try done.
      * destruct (ci_slot _ Hc j Hj) as [S1 S2 S3 S4]. constructor; [exact S1 | change (is_lst c) with (is_lst (g_conns t).[j]); congruence | exact S3 | cbn; congruence].
      * congruence.
      * change (is_lst c) with (is_lst (g_conns t).[j]). congruence.
      * intros m _ _ _ Hq. apply queued_spec in Hq as (_ & ? & _). done.
      * intros Hal m Hm Hne Ham Et. apply Hne, (ci_tuple _ Hc); done.
    + intros m Hm Hheld. destruct (decide (m = j)) as [->|Hne]; [|rewrite put_only by done; by apply stays_refl]. rewrite Hget. apply held_spec in Hheld as (_ & Ho & _).
      split_and!; [apply held_spec; split_and!; try done | done | done].
  - destruct (conn_free (t_heap t) (g_conns t).[j]) as [k c] eqn:Ef. set (n := if negb _ then _ else _).
    destruct (put_evolves t j n k c HT Hj Lst) as (H1 & H2 & H3).
    { right. split; [unfold droppable; rewrite El, Ha; apply orb_true_r|]. by exists (g_conns t).[j]. }
    split_and!; try done. rewrite put_get, Z.eqb_refl by done. pose proof (conn_free_spec (t_heap t) (g_conns t).[j]) as Hs. rewrite Ef in Hs. destruct Hs as (Hu' & _). congruence.
Qed.

Lemma release_listener_ok t i : tinv t → slot i → is_lst (g_conns t).[i] = true →
  let t' := tcp_free (zfor (length (g_conns t)) 0 (release_child i) t) i in
  tinv t' ∧ ∀ j, slot j → j ≠ i → held (g_conns t).[j] = true → stays (g_conns t).[j] (g_conns t').[j].
Proof.
  intros HT Hi Lst. pose proof (ci_len _ (ti_conns _ HT)) as Hlen.
  destruct (zfor_inv (λ m t', tinv t' ∧ safe t t' ∧ ∀ j, slot j → j < m → used (g_conns t').[j] = true → listener (g_conns t').[j] ≠ Some i)
    (length (g_conns t)) 0 (release_child i) t) as (H1 & H2 & H3).
  - split_and!; [done | apply safe_refl | unfold slot; lia].
  - intros j t' Hj (A1 & A2 & A3). assert (Hsj : slot j) by (unfold slot; lia). destruct (release_child_ok i j t' A1 Hsj) as (B1 & B2 & B3 & B4).
    split_and!; [done | by eapply safe_trans |]. intros m Hm Hmj. destruct (decide (m = j)) as [->|Hne]; [done|]. rewrite B3 by done. apply A3; [done | lia].
  - set (t1 := zfor _ _ _ _) in *. clearbody t1. rewrite Hlen, Z.add_0_l in H3.
    cbv zeta. unfold tcp_free. destruct (conn_free (t_heap t1) (g_conns t1).[i]) as [k c] eqn:Ef.
    pose proof (conn_free_spec (t_heap t1) (g_conns t1).[i]) as Hs. rewrite Ef in Hs. destruct Hs as (Hu & _ & Zt & Zr & _). destruct H1 as [Hc Hh He]. split.
    + constructor; cbn; [| |done].
      * apply cinv_free; try done. intros _ j Hj. apply H3; [done|]. apply Hj.
      * eapply hinv_freed; [apply Hc | done | exact Hh | done | done | done].
    + intros j Hj Hne Hheld. rewrite put_only by done. by apply H2.
Qed.

Lemma release_ok now t i : tinv t → slot i → held (g_conns t).[i] = true →
  tinv (tcp_release now t i) ∧ ∀ j, slot j → j ≠ i → held (g_conns t).[j] = true → stays (g_conns t).[j] (g_conns (tcp_release now t i)).[j].
Proof.
  intros HT Hi Hheld. pose proof Hheld as (Hu & _)%held_spec. unfold tcp_release. rewrite Hu. cbn [negb]. destruct (is_state TCP_LISTEN (g_conns t).[i]) eqn:Es.
  - apply release_listener_ok; try done. apply is_lst_spec. split; [done|]. by eapply bool_decide_eq_true_1.
  - assert (Lst : is_lst (g_conns t).[i] = false) by (unfold is_lst; by rewrite Es, andb_false_r).
    pose proof (conn_release_ok now t i HT Hi Hheld Lst) as H. destruct (conn_release _ _ _ _) as [[n k] c]. split; [done|].
    intros j Hj Hne Hh. rewrite put_only by (try done; apply HT). by apply stays_refl.
Qed.

(** ** Receiving *)

Lemma passive_open_ok now rnd t lc dev src h : tinv t → slot lc → is_lst (g_conns t).[lc] = true → local_port (g_conns t).[lc] = h_dport h →
  find_conn t src (h_sport h) (h_dport h) = None →
  tinv (passive_open now rnd t lc dev src h) ∧ safe t (passive_open now rnd t lc dev src h).
Proof.
  intros HT Hlc Llc Hport Hnone. pose proof (ci_len _ (ti_conns _ HT)) as Hlen. unfold passive_open. destruct (Z.leb_spec (backlog (g_conns t).[lc]) (listener_queued t lc false)) as [|Hroom]; [split; [done | apply safe_refl]|].
  pose proof (tcp_alloc_ok t HT) as Ha. destruct (tcp_alloc t) as [t1 [i|]]; [|destruct Ha as (? & ? & _); done].
  destruct Ha as (HT1 & Hs1 & Hi & Ho1 & Hf & Hnh & Hnq). pose proof HT1 as [Hc1 Hh1 He1]. destruct (fresh_spec _ Hf) as (Fu & Fs & Fl & Fa & Fo & Fr). pose proof (ci_len _ Hc1) as Hlen1.
  assert (Hlci : lc ≠ i).
  { intros ->. assert (held (g_conns t).[i] = true); [|congruence]. pose proof (sl_list _ (ci_slot _ (ti_conns _ HT) i Hlc) Llc) as (_ & _ & Hln & Hor & _). apply is_lst_spec in Llc as [? _].
    apply held_spec. split_and!; try done. rewrite Hln. by intros [? ?]. }
  destruct (conn_passive now rnd (t_net t1) (g_conns t1).[i] lc dev src h) as [n c] eqn:Ec.
  assert (Hc : used c = true ∧ state c = TCP_SYN_RCVD ∧ listener c = Some lc ∧ accepted c = false ∧ orphan c = false ∧ tuple c = (h_dport h, h_sport h, src) ∧
    tx_ptr c = tx_ptr (g_conns t1).[i] ∧ rx_ptr c = rx_ptr (g_conns t1).[i]) by (unfold conn_passive in Ec; injection Ec as _ <-; by split_and!).
  destruct Hc as (Cu & Cs & Cl & Ca & Co & Ct & Cx & Cr). assert (Lst : is_lst c = false) by (unfold is_lst, is_state; by rewrite Cs, andb_false_r).
  assert (Lsti : is_lst (g_conns t1).[i] = false) by (unfold is_lst, is_state; by rewrite Fs, andb_false_r).
  assert (Ecnt : count (queued lc) (g_conns t1) = count (queued lc) (g_conns t)).
  { rewrite !count_zcount. replace (length (g_conns t1)) with (length (g_conns t)) by lia. apply zcount_ext. intros j Hj. assert (Hsj : slot j) by (unfold slot; lia).
    destruct (decide (j = i)) as [->|]; [|by rewrite Ho1]. rewrite Hnq. destruct (queued lc (g_conns t1).[i]) eqn:Eq; [|done]. apply queued_spec in Eq as (_ & ? & _). congruence. }
  split.
  - constructor; cbn; [| by apply hinv_same | done]. pose proof (sl_bufs _ (ci_slot _ Hc1 i Hi) Fu ltac:(congruence)) as [B1 B2]. apply cinv_put; try done; try congruence.
    + constructor; [congruence | congruence | rewrite Cx, Cr; done | done].
    + intros m _ Em. rewrite Cl in Em. injection Em as <-. split; [done|]. split; [done|]. by rewrite Ho1.
    + intros m Hm Hne Lm Hq. right. apply queued_spec in Hq as (_ & El & _). rewrite Cl in El. injection El as <-. rewrite Ecnt, Ho1 by done. exact Hroom.
    + intros _ j Hj Hne Haj Et. rewrite Ho1 in Et, Haj by done. rewrite Ct in Et. unfold tuple in Et. injection Et as E1 E2 E3. unfold find_conn in Hnone.
      pose proof (first_none _ _ j Hnone ltac:(unfold slot in *; lia)) as Hm. unfold matches in Hm. rewrite E1, E2, E3, !Z.eqb_refl, !andb_true_r in Hm.
      apply alive_split in Haj as (Hu & Hcl & Hli). rewrite Hu in Hm. unfold is_state in Hm. by rewrite !bool_decide_false in Hm by done.
  - apply (unused_safe t _ i); try done. intros j Hj Hne. rewrite put_only by done. by apply Ho1.
Qed.

Lemma tcp_input_ok now rnd t dev src seg : tinv t → tinv (tcp_input now rnd t dev src seg) ∧ safe t (tcp_input now rnd t dev src seg).
Proof.
  intros HT. pose proof (ci_len _ (ti_conns _ HT)) as Hlen. unfold tcp_input. destruct (tcp_parse seg) as [h|]; [|split; [done | apply safe_refl]].
  destruct (find_conn t src (h_sport h) (h_dport h)) as [i|] eqn:Ef.
  - unfold find_conn in Ef. apply first_some in Ef as (Hi & Hm & _). assert (Hs : slot i) by (unfold slot; lia). unfold matches in Hm. rewrite !andb_true_iff, !negb_true_iff in Hm.
    destruct Hm as [[[[[Hu Hl] Hc] _] _] _]. apply bool_decide_eq_false in Hl. apply bool_decide_eq_false in Hc.
    assert (Lst : is_lst (g_conns t).[i] = false) by (unfold is_lst, is_state; rewrite bool_decide_false by done; by rewrite andb_false_r).
    pose proof (conn_input_evolves now (t_net t) (t_heap t) (g_conns t).[i] h Hl Hc) as He. destruct (conn_input _ _ _ _ _) as [[n k] c].
    destruct (put_evolves t i n k c HT Hs Lst He) as (? & ? & _). done.
  - destruct (find_listener t (h_dport h)) as [lc|] eqn:El; [|split; [done | apply safe_refl]]. destruct (_ && _); [|split; [done | apply safe_refl]].
    unfold find_listener in El. apply first_some in El as (Hi & Hm & _). unfold listens_on in Hm. apply andb_true_iff in Hm as [Hm Hp%Z.eqb_eq]. apply passive_open_ok; try done; unfold slot; lia.
Qed.
End ops.
