(* ===== verification/TcpHeap.v ===== *)
(** * The network stack's buffers on the kernel heap

    [tcp_alloc] and [conn_free] take their buffers from [kmalloc] and [kfree]:
    the verified heap, on the verified frame allocator, keeps the promise the
    connection table is proved against. *)

From S2P Require Import Prelude Pmm Heap HeapInv HeapMalloc HeapProps NetBase Net Tcp TcpTable.

(** The bytes at [p]; from here on they are the connection's, which the heap
    does not touch. *)
Definition bytes_at (m : mem) (p n : Z) : list Z := (λ i, m (p + i)) <$> seqZ 0 n.

Section heap.
Context {A : Type} {ops : PageOps A} {laws : PageLaws A}.
Context (caller : Z) (Hcaller : is_u64 caller).   (** the return address the heap records *)

Definition heap_malloc (h : heap A) (n : Z) : heap A * Z * list Z :=
  match Heap.kmalloc n caller h with
  | Ret p h' => (h', p, bytes_at (hmem h') p n)
  | _ => (h, 0, [])
  end.
Definition heap_free (h : heap A) (p : Z) : heap A :=
  match Heap.kfree p caller h with
  | Ret _ h' => h'
  | _ => h
  end.
Local Instance heap_buf_ops : BufOps (heap A) := { kmalloc := heap_malloc; kfree := heap_free }.

(** The heap is sound and [P] is the set of the pointers its clients hold. *)
Definition heap_rep (h : heap A) (P : Z → Prop) : Prop :=
  ∃ fr bl, HeapInv.hinv h fr bl ∧ ∀ q, P q ↔ q ∈ (live bl).*1.

Lemma heap_rep_ext h P Q : (∀ q, P q ↔ Q q) → heap_rep h P → heap_rep h Q.
Proof. intros E (fr & bl & Hi & Hp). exists fr, bl. split; [done|]. intros q. by rewrite <- E. Qed.

Lemma heap_malloc_law h P n : heap_rep h P → 0 < n ≤ 65536 → let '(h', p, b) := heap_malloc h n in
  p = 0 ∧ heap_rep h' P ∨ p ≠ 0 ∧ ¬ P p ∧ zlen b = n ∧ heap_rep h' (λ q, P q ∨ q = p).
Proof.
  intros (fr & bl & Hi & Hp) Hn. unfold heap_malloc.
  destruct (kmalloc_spec h fr bl n caller Hi ltac:(unfold HeapAlloc.HEAP_REQ_MAX; lia) Hcaller) as [[-> _]|(p & h' & fr' & bl' & -> & H0 & _ & G)].
  { left. split; [done|]. by exists fr, bl. }
  right. split; [done|]. split; [|split].
  - intros Hlive. apply Hp, list_elem_of_fmap in Hlive as ([q k] & -> & Hq). pose proof (owned_pos h fr bl q k Hi Hq). destruct (granted_clear h h' fr fr' bl bl' _ _ Hi G q k Hq); cbn in *; lia.
  - unfold bytes_at. rewrite length_fmap, length_seqZ. lia.
  - exists fr', bl'. split; [apply G|]. intros q. rewrite Hp, (gr_live _ _ _ _ _ _ _ _ G). cbn. rewrite elem_of_cons. tauto.
Qed.

Lemma heap_free_law h P p : heap_rep h P → P p → heap_rep (heap_free h p) (λ q, P q ∧ q ≠ p).
Proof.
  intros (fr & bl & Hi & Hp) Hlive. destruct (free_step h fr bl p caller Hi) as (h' & bl' & E & Hi' & Hl' & _); [by apply Hp | done |].
  unfold heap_free. rewrite E. exists fr, bl'. split; [done|]. intros q. rewrite Hl', Hp, !list_elem_of_fmap. split.
  - intros [(y & -> & Hy) Hne]. exists y. split; [done|]. apply list_elem_of_filter. done.
  - intros (y & -> & [Hne Hy]%list_elem_of_filter). split; [by exists y | done].
Qed.

Local Instance heap_buf_laws : BufLaws (heap A) := {
  buf_rep := heap_rep;
  buf_ext := heap_rep_ext;
  kmalloc_law := heap_malloc_law;
  kfree_law := heap_free_law
}.
End heap.
