(* ===== verification/TcpProps.v ===== *)
(** * TCP: what it promises, and what it leaves out

    The stream theorem of [TcpStream] with a run over the real network layer,
    the loop of [tcp_output], and three things the receive path does not do. *)

From S2P Require Import Prelude NetBase Net Ring Tcp TcpSeg NetProps TcpGhost TcpEnd TcpRecv TcpStream TcpTable.

(** ** Streams *)


(** A client at 10.0.2.15 and a server at 10.0.2.2, port 80. *)
Definition demo_unit : BufOps unit := {| kmalloc k _ := (k, 0, []); kfree k _ := k |}.
#[local] Existing Instance demo_nic.
#[local] Existing Instance demo_unit.
Definition ip_a : Z := 251789322.
Definition ip_b : Z := 33685514.
Definition demo_host (me you : Z) (mac : list Z) : l3 :=
  mk_l3 [mk_dev mac me 16777215 33685514 true] (mk_arp you [82; 85; 10; 0; 2; 2] true 0 :: replicate 15 (mk_arp 0 [] false 0)) 1 0 0 [].
Definition demo_conn : tcp_conn :=
  set_state TCP_CLOSED (set_used true (set_rx (replicate (Z.to_nat TCP_RXBUF) 0) (set_rx_ptr 2 (set_tx (replicate (Z.to_nat TCP_TXBUF) 0) (set_tx_ptr 1 conn_zero))))).
Definition demo_a : addr := mk_addr 49152 80 ip_b.
Definition demo_b : addr := mk_addr 80 49152 ip_a.

(** The segment in the [i]-th frame of the host's wire. *)
Definition seg_at (n : l3) (i : nat) : option tcp_hdr :=
  match wire n !! i with
  | Some (_, f) => match ip_payload (mk_dev [] (if bool_decide (d_ip <$> dev_at n 0 = Some ip_a) then ip_b else ip_a) 0 0 true) f with
                   | Some (p, _, y) => if p =? IP_PROTO_TCP then tcp_parse y else None
                   | None => None
                   end
  | None => None
  end.

Lemma seg_in_flight e n i h : seg_at n i = Some h → (if bool_decide (d_ip <$> dev_at n 0 = Some ip_a) then ip_b else ip_a) = ad_ip e →
  is_u32 (ad_ip e) → ad_ip e ≠ 0 → h_sport h = ad_l e → h_dport h = ad_r e → in_flight e n h.
Proof.
  unfold seg_at. intros E Ei Hu H0 Hs Hd. rewrite Ei in E. destruct (wire n !! i) as [[dev f]|] eqn:Ew; [|done]. destruct (ip_payload _ f) as [[[p src] y]|] eqn:Ep; [|done].
  destruct (Z.eqb_spec p IP_PROTO_TCP) as [->|]; [|done]. exists y. split; [|done]. exists dev, f, (mk_dev [] (ad_ip e) 0 0 true), src.
  rewrite (u32_small _ Hu). split; [by eapply list_elem_of_lookup_2 | done].
Qed.

Local Abbreviation side := (TcpStream.side (N := l3) (K := unit)).
Definition side_in (h : tcp_hdr) (s : side) : side :=
  let '(n, k, c) := conn_input 5 (s_net s) (s_heap s) (s_conn s) h in mk_side n k c (s_wrote s) (s_read s).
Definition side_wr (data : list Z) (s : side) : side :=
  let '(n, c, r) := conn_write 5 (s_net s) (s_conn s) data in mk_side n (s_heap s) c (s_wrote s ++ take (Z.to_nat r) data) (s_read s).
Definition side_rd (len : Z) (s : side) : side :=
  let '(n, c, d, r) := conn_read (s_net s) (s_conn s) len in mk_side n (s_heap s) c (s_wrote s) (s_read s ++ d).
Lemma side_in_step e (inc : tcp_hdr → Prop) h s : alive (s_conn s) = true → inc h → side_step e inc s (side_in h s).
Proof. intros Ha Hi. unfold side_in. destruct (conn_input _ _ _ _ _) as [[n k] c] eqn:E. by eapply side_input. Qed.
Lemma side_wr_step e (inc : tcp_hdr → Prop) data s : zlen (s_wrote s) + zlen data ≤ STREAM_MAX → side_step e inc s (side_wr data s).
Proof. intros Hm. unfold side_wr. destruct (conn_write _ _ _ _) as [[n c] r] eqn:E. by eapply side_write. Qed.
Lemma side_rd_step e (inc : tcp_hdr → Prop) len s : 0 ≤ len → side_step e inc s (side_rd len s).
Proof. intros Hm. unfold side_rd. destruct (conn_read _ _ _) as [[[n c] d] r] eqn:E. by eapply side_read. Qed.

Definition no_hdr : tcp_hdr := mk_hdr 0 0 0 0 0 0 [].
Definition hdr_at (s : side) (i : nat) : tcp_hdr := default no_hdr (seg_at (s_net s) i).

(** The handshake, two bytes from the client, of which the second segment arrives twice, read by the server. *)
Definition demo_dial : l3 * tcp_conn := conn_connect 5 1000 (demo_host ip_a ip_b [2]) (set_remote_port (ad_r demo_a) (set_remote_ip (ad_ip demo_a) (set_dev 0 demo_conn))) (ad_l demo_a).
Definition demo_a0 : side := mk_side demo_dial.1 tt demo_dial.2 [] [].
Definition demo_pass : l3 * tcp_conn := conn_passive 5 7000 (demo_host ip_b ip_a [4]) demo_conn 9 0 (ad_ip demo_b) (hdr_at demo_a0 0).
Definition demo_b0 : side := mk_side demo_pass.1 tt demo_pass.2 [] [].
Definition demo_a1 : side := side_in (hdr_at demo_b0 0) demo_a0.
Definition demo_a2 : side := side_wr [104; 105] demo_a1.
Definition demo_b1 : side := side_in (hdr_at demo_a2 1) demo_b0.
Definition demo_b2 : side := side_in (hdr_at demo_a2 2) demo_b1.
Definition demo_b3 : side := side_in (hdr_at demo_a2 2) demo_b2.
Definition demo_b4 : side := side_rd 100 demo_b3.
#[local] Strategy expand [demo_dial demo_pass demo_a0 demo_a1 demo_a2 demo_b0 demo_b1 demo_b2 demo_b3 demo_b4].

Definition flies (e : addr) (s : side) (i : nat) : bool :=
  match seg_at (s_net s) i with
  | Some h => (h_sport h =? ad_l e) && (h_dport h =? ad_r e) && ((if bool_decide (d_ip <$> dev_at (s_net s) 0 = Some ip_a) then ip_b else ip_a) =? ad_ip e)
  | None => false
  end.
Lemma flies_in_flight e s i : is_u32 (ad_ip e) → ad_ip e ≠ 0 → flies e s i = true → in_flight e (s_net s) (hdr_at s i).
Proof.
  intros Hu H0. unfold flies, hdr_at. destruct (seg_at (s_net s) i) as [h|] eqn:E; [|done]. rewrite !andb_true_iff, !Z.eqb_eq. intros [[E1 E2] E3]. by eapply seg_in_flight.
Qed.
Lemma demo_quiet e me you mac h : ¬ in_flight e (demo_host me you mac) h.
Proof. intros (y & (dev & f & d & src & []%elem_of_nil & _) & _). Qed.
Lemma demo_fresh_conn : fresh demo_conn.
Proof. eexists 1, _, 2, _. split; [|split; [|reflexivity]]; rewrite length_replicate; apply Z2Nat.id; unfold TCP_TXBUF, TCP_RXBUF; lia. Qed.

Lemma demo_dial_start : sys_start demo_a (demo_a0, None).
Proof.
  exists 5, 1000, (demo_host ip_a ip_b [2]), tt, demo_conn, 0, demo_dial.1, demo_dial.2. split; [apply demo_fresh_conn|]. split; [intros h; apply demo_quiet|]. split; [unfold is_u32; lia|].
  split; [exact (surjective_pairing demo_dial) | reflexivity].
Qed.

Lemma demo_reach : rtc (sys_step demo_a demo_b) (demo_a0, None) (demo_a2, Some demo_b4).
Proof.
  assert (Hua : is_u32 (ad_ip demo_a)) by (cbn; unfold is_u32, ip_b; lia). assert (Hub : is_u32 (ad_ip demo_b)) by (cbn; unfold is_u32, ip_a; lia).
  apply (rtc_l _ _ (demo_a0, Some demo_b0)).
  { eapply (sys_open _ _ _ 5 7000 (demo_host ip_b ip_a [4]) tt demo_conn 9 0 (hdr_at demo_a0 0)); [apply flies_in_flight; [done | done | vm_compute; reflexivity] | vm_compute; reflexivity | apply demo_fresh_conn | intros h; apply demo_quiet | unfold is_u32; lia | exact (surjective_pairing demo_pass)]. }
  apply (rtc_l _ _ (demo_a1, Some demo_b0)).
  { apply sys_first, (side_in_step demo_a _ (hdr_at demo_b0 0)); [vm_compute; reflexivity|]. apply (flies_in_flight demo_b demo_b0 0); [done | done | vm_compute; reflexivity]. }
  apply (rtc_l _ _ (demo_a2, Some demo_b0)).
  { apply sys_first, (side_wr_step demo_a _ [104; 105]). vm_compute. discriminate. }
  apply (rtc_l _ _ (demo_a2, Some demo_b1)).
  { apply sys_second, (side_in_step demo_b _ (hdr_at demo_a2 1)); [vm_compute; reflexivity|]. apply (flies_in_flight demo_a demo_a2 1); [done | done | vm_compute; reflexivity]. }
  apply (rtc_l _ _ (demo_a2, Some demo_b2)).
  { apply sys_second, (side_in_step demo_b _ (hdr_at demo_a2 2)); [vm_compute; reflexivity|]. apply (flies_in_flight demo_a demo_a2 2); [done | done | vm_compute; reflexivity]. }
  apply (rtc_l _ _ (demo_a2, Some demo_b3)).
  { apply sys_second, (side_in_step demo_b _ (hdr_at demo_a2 2)); [vm_compute; reflexivity|]. apply (flies_in_flight demo_a demo_a2 2); [done | done | vm_compute; reflexivity]. }
  apply rtc_once, sys_second, (side_rd_step demo_b _ 100). lia.
Qed.


(** ** The sending loop *)

Section gaps.
Context {N K : Type} {IP : IpOps N} {HEAP : BufOps K}.

(** [tx_len] turns are enough for [out_loop]: more change nothing. *)
Lemma out_loop_enough fuel fuel' now wnd off (n : N) c : 0 ≤ off → tx_len c ≤ TCP_TXBUF → tx_len c - off ≤ Z.of_nat fuel → (fuel ≤ fuel')%nat →
  out_loop fuel' now wnd off n c = out_loop fuel now wnd off n c.
Proof.
  intros Ho Ht. revert fuel' off n c Ho Ht. induction fuel as [|fuel IH]; intros fuel' off n c Ho Ht Hf Hle.
  - destruct fuel'; [done|]. cbn. rewrite (proj2 (Z.ltb_ge off _)) by lia. done.
  - destruct fuel' as [|fuel']; [lia|]. cbn [out_loop]. destruct (Z.ltb_spec off (tx_len c)) as [Hlt|]; [|done]. cbn [negb]. destruct (Z.leb_spec wnd off); [done|].
    destruct (Z.eqb_spec (Z.min (Z.min (tx_len c - off) TCP_MSS) (wnd - off)) 0) as [|Hc]; [done|]. unfold TCP_TXBUF, TCP_MSS in *. rewrite u32_small by (unfold_uint; lia). apply IH; cbn; try lia.
Qed.
Lemma out_data_enough fuel now (n : N) c : tx_len c ≤ TCP_TXBUF → (Z.to_nat (tx_len c) ≤ fuel)%nat →
  out_loop fuel now (if ztrue (snd_wnd c) then snd_wnd c else 1) (u32 (snd_nxt c - snd_una c)) n c = out_data now n c.
Proof. intros Ht Hf. apply out_loop_enough; try done; pose proof (u32_range (snd_nxt c - snd_una c)) as []; lia. Qed.

(** ** What the receive path does not do *)

(** The checksum of a received segment is not looked at. *)
Lemma tcp_parse_ignores_checksum seg i b : i = 16 ∨ i = 17 → tcp_parse seg.[i <- b] = tcp_parse seg.
Proof.
  intros Hi. unfold tcp_parse. rewrite aset_length. destruct (Z.ltb_spec (zlen seg) 20); [done|]. assert (Hg : ∀ j, 0 ≤ j < 16 → seg.[i <- b].[j] = seg.[j]) by (intros; apply aget_aset_ne; lia).
  rewrite Hg by lia. destruct (_ || _) eqn:E; [done|]. apply orb_false_iff in E as [E _]. zbool. f_equal. unfold rd_be16, rd_be32. rewrite !Hg by lia. f_equal.
  unfold aset. rewrite drop_insert_lt by lia. done.
Qed.

(** An acknowledged end with nothing to send: the state of a connection in
    TIME-WAIT, or of one whose user is idle. *)
Definition drained (c : tcp_conn) : Prop := tx_len c = 0 ∧ snd_una c = snd_nxt c ∧ fin_pending c = fin_sent c ∧ orphan c = false.

Lemma drained_output now (n : N) c : drained c → tcp_output now n c = (n, c).
Proof.
  intros (Ht & Hs & Hf & _). unfold tcp_output, out_data. rewrite Ht. change (Z.to_nat 0) with 0%nat. cbn [out_loop]. cbv beta iota. unfold out_fin. rewrite Hf. by rewrite andb_negb_r.
Qed.

(** Such an end does not answer a segment without new data: neither a FIN of
    the peer again, whose acknowledgement was lost, nor its SYN|ACK again. *)
Lemma repeated_unanswered now (n : N) (k : K) c h : drained c → state c ∈ [TCP_ESTABLISHED; TCP_CLOSE_WAIT; TCP_TIME_WAIT] → hflag h F_RST = false →
  h_data h = [] → h_ack h = snd_una c → u32 (h_seq h) ≠ rcv_nxt c → conn_input now n k c h = (n, k, set_snd_wnd (h_wnd h) c).
Proof.
  intros Hd Hs Hr Hdt Ha Hq. unfold conn_input. rewrite Hr. cbv zeta. set (c1 := set_snd_wnd (h_wnd h) c).
  assert (Hn : is_state TCP_SYN_SENT c1 = false) by (apply bool_decide_eq_false; change (state c1) with (state c); intros E; rewrite E in Hs; set_solver). rewrite Hn.
  assert (Ei : in_ack now k c1 h = (k, c1, false)).
  { unfold in_ack. change (snd_una c1) with (snd_una c). rewrite Ha. unfold seq_gt at 1. rewrite Z.sub_diag. change (0 <? s32 0) with false. cbn [andb]. by rewrite andb_false_r. }
  assert (Ed : in_data n c1 h = (n, c1)) by (unfold in_data; by rewrite Hdt).
  assert (Ef : in_fin now n c1 h = (n, c1)).
  { unfold in_fin. rewrite Hdt. change (zlen []) with 0. rewrite Z.add_0_r. change (rcv_nxt c1) with (rcv_nxt c). rewrite (proj2 (Z.eqb_neq (u32 (h_seq h)) (rcv_nxt c))) by done. by rewrite andb_false_r. }
  rewrite Ei, Ed, Ef, Hdt. change (0 <? zlen []) with false. rewrite andb_false_r. cbn [andb].
  rewrite drained_output; [done|]. exact Hd.
Qed.

(** The receive path frees an orphan: the peer acknowledged its FIN. *)
Lemma input_frees_orphan now (n : N) (k : K) c h : state c = TCP_LAST_ACK → orphan c = true → hflag h F_RST = false → hflag h F_ACK = true →
  h_ack h = snd_nxt c → seq_gt (snd_nxt c) (snd_una c) = true → used (conn_input now n k c h).2 = false.
Proof.
  intros Hs Ho Hr Ha He Hg. unfold conn_input. rewrite Hr. cbv zeta. set (c1 := set_snd_wnd (h_wnd h) c). unfold is_state. change (state c1) with (state c). rewrite Hs. cbn [bool_decide decide decide_rel].
  rewrite bool_decide_false by done. unfold in_ack. change (snd_una c1) with (snd_una c). change (snd_nxt c1) with (snd_nxt c). rewrite Ha, He, Hg. unfold seq_leq. rewrite Z.sub_diag. change (s32 0 <=? 0) with true. cbn [andb].
  set (c2 := set_snd_una (snd_nxt c) _). assert (E2 : (snd_una c2 =? snd_nxt c2) = true) by (apply Z.eqb_eq; unfold c2, trim_tx; by destruct (ztrue _)). rewrite E2.
  assert (S2 : state (set_rto_deadline 0 c2) = TCP_LAST_ACK) by (unfold c2, trim_tx; by destruct (ztrue _)). rewrite S2.
  assert (O2 : orphan (set_rto_deadline 0 c2) = true) by (unfold c2, trim_tx; by destruct (ztrue _)).
  unfold conn_closed. change (orphan (set_state TCP_CLOSED (set_rto_deadline 0 c2))) with (orphan (set_rto_deadline 0 c2)). rewrite O2. cbn [orb].
  pose proof (conn_free_spec k (set_state TCP_CLOSED (set_rto_deadline 0 c2))) as H. destruct (conn_free k _) as [k1 c3]. apply H.
Qed.
End gaps.
