(* ===== verification/Socket.v ===== *)
(** * Sockets, and the stack they sit on

    [src/net/socket.c] over the transports, and the receive path and tick of
    [src/net/net_core.c], [eth.c] and [ipv4.c] that tie the layers together.  A
    socket is named by its index; its connection by the slot of the control
    block.  Every entry point takes the stack lock, so each is one step. *)

From S2P Require Import Prelude NetBase Net Tcp NetProps.

(** ** Definitions *)

Definition SOCK_STREAM : Z := 1.
Definition SOCK_DGRAM : Z := 2.
Definition MAX_SOCK : Z := 64.
Definition SOCK_DGRAM_MAX : Z := 1024.
Definition SOCK_DQ : Z := 6.
Definition SOCK_CONNECT_MS : Z := 20000.

Definition E_AGAIN : Z := -11.
Definition E_BADF : Z := -9.
Definition E_INVAL : Z := -22.
Definition E_PIPE : Z := -32.
Definition E_NOBUFS : Z := -105.
Definition E_NOTCONN : Z := -107.
Definition E_CONNREFUSED : Z := -111.
Definition E_ADDRINUSE : Z := -98.
Definition E_NETDOWN : Z := -100.
Definition E_OPNOTSUPP : Z := -95.
Definition E_ISCONN : Z := -106.
Definition E_TIMEDOUT : Z := -110.
Definition E_ALREADY : Z := -114.
Definition E_INPROGRESS : Z := -115.

Definition SOCK_POLLIN : Z := 0x001.
Definition SOCK_POLLOUT : Z := 0x004.
Definition SOCK_POLLERR : Z := 0x008.
Definition SOCK_POLLHUP : Z := 0x010.
Definition SOCK_POLLNVAL : Z := 0x020.

(** A queued datagram; [dg_data] is the part of the array in use. *)
Record dgram := mk_dgram { dg_ip : Z; dg_port : Z; dg_data : list Z }.
#[export] Instance dgram_inhabited : Inhabited dgram := populate (mk_dgram 0 0 []).

Record sock := mk_sock {
  sk_used : bool;
  sk_type : Z;
  sk_refs : Z;
  sk_port : Z;
  sk_tcp : option Z;
  sk_listening : bool;
  sk_connecting : bool;
  sk_deadline : Z;
  sk_bound : bool;
  sk_dq : list dgram; sk_head : Z; sk_count : Z;
  sk_peer_ip : Z; sk_peer_port : Z
}.
Definition sock_zero : sock :=
  mk_sock false 0 0 0 None false false 0 false (replicate 6 (mk_dgram 0 0 [])) 0 0 0 0.
#[export] Instance sock_inhabited : Inhabited sock := populate sock_zero.

Definition sock_eta (s : sock) : sock :=
  mk_sock (sk_used s) (sk_type s) (sk_refs s) (sk_port s) (sk_tcp s) (sk_listening s) (sk_connecting s) (sk_deadline s) (sk_bound s)
    (sk_dq s) (sk_head s) (sk_count s) (sk_peer_ip s) (sk_peer_port s).
Ltac sassign proj x :=
  let e := eval cbv delta [sock_eta] in sock_eta in
  lazymatch eval pattern proj in e with ?g _ => let t := eval cbv beta in (g (λ _, x)) in exact t end.
Definition set_sk_used (x : bool) : sock → sock := ltac:(sassign sk_used x).
Definition set_sk_type (x : Z) : sock → sock := ltac:(sassign sk_type x).
Definition set_sk_refs (x : Z) : sock → sock := ltac:(sassign sk_refs x).
Definition set_sk_port (x : Z) : sock → sock := ltac:(sassign sk_port x).
Definition set_sk_tcp (x : option Z) : sock → sock := ltac:(sassign sk_tcp x).
Definition set_sk_listening (x : bool) : sock → sock := ltac:(sassign sk_listening x).
Definition set_sk_connecting (x : bool) : sock → sock := ltac:(sassign sk_connecting x).
Definition set_sk_deadline (x : Z) : sock → sock := ltac:(sassign sk_deadline x).
Definition set_sk_bound (x : bool) : sock → sock := ltac:(sassign sk_bound x).
Definition set_sk_dq (x : list dgram) : sock → sock := ltac:(sassign sk_dq x).
Definition set_sk_head (x : Z) : sock → sock := ltac:(sassign sk_head x).
Definition set_sk_count (x : Z) : sock → sock := ltac:(sassign sk_count x).
Definition set_sk_peer (ip port : Z) (s : sock) : sock := (ltac:(sassign sk_peer_port port) : sock → sock) ((ltac:(sassign sk_peer_ip ip) : sock → sock) s).

Section stack.
Context {NIC : Nic} {K : Type} {HEAP : BufOps K}.

(** The whole stack. *)
Record stack := mk_stack {
  st_tcp : tcp l3 K;
  st_udp : udp;
  g_sock : list sock;
  g_echo_replies : Z;
  g_rx_frames : Z;
  upcalls : list (Z * Z * Z * list Z)   (** datagrams for UDP clients other than sockets *)
}.
Definition net_of (x : stack) : l3 := t_net (st_tcp x).
Definition set_tcp (x : stack) (t : tcp l3 K) : stack := mk_stack t (st_udp x) (g_sock x) (g_echo_replies x) (g_rx_frames x) (upcalls x).
Definition set_l3 (x : stack) (n : l3) : stack := set_tcp x (set_net (st_tcp x) n).
Definition set_udp (x : stack) (u : udp) : stack := mk_stack (st_tcp x) u (g_sock x) (g_echo_replies x) (g_rx_frames x) (upcalls x).
Definition put_sock (x : stack) (i : Z) (s : sock) : stack := mk_stack (st_tcp x) (st_udp x) (g_sock x).[i <- s] (g_echo_replies x) (g_rx_frames x) (upcalls x).

Definition net_primary (n : l3) : Z := if 0 <? zlen (g_devs n) then 0 else NULL_DEV.

Definition sock_count_used (x : stack) : Z := count sk_used (g_sock x).

(** [sk]: the socket, if the index names one. *)
Definition sk (x : stack) (idx : Z) : option sock :=
  if (idx <? 0) || (MAX_SOCK <=? idx) || negb (sk_used (g_sock x).[idx]) then None else Some (g_sock x).[idx].

Definition sock_udp_cb (x : stack) (i src_ip src_port : Z) (data : list Z) : stack :=
  let s := (g_sock x).[i] in
  if negb (sk_used s) || (SOCK_DQ <=? sk_count s) then x
  else
    let len := if SOCK_DGRAM_MAX <? zlen data then SOCK_DGRAM_MAX else zlen data in
    let slot := (sk_head s + sk_count s) mod SOCK_DQ in
    put_sock x i (set_sk_count (sk_count s + 1) (set_sk_dq (sk_dq s).[slot <- mk_dgram src_ip src_port (take (Z.to_nat len) data)] s)).

Definition l_create (x : stack) (type : Z) : stack * Z :=
  if negb (type =? SOCK_STREAM) && negb (type =? SOCK_DGRAM) then (x, E_INVAL)
  else
    match first (λ s, negb (sk_used s)) (g_sock x) with
    | Some i => (put_sock x i (set_sk_refs 1 (set_sk_type type (set_sk_used true sock_zero))), i)
    | None => (x, E_NOBUFS)
    end.

Definition sock_release (now : Z) (x : stack) (i : Z) : stack :=
  let s := (g_sock x).[i] in
  let x1 := if (sk_type s =? SOCK_DGRAM) && sk_bound s then set_udp x (udp_unbind (st_udp x) (sk_port s)) else x in
  let '(x2, s2) := if sk_type s =? SOCK_STREAM
                   then match sk_tcp s with Some c => (set_tcp x1 (tcp_release now (st_tcp x1) c), set_sk_tcp None s) | None => (x1, s) end
                   else (x1, s) in
  put_sock x2 i (set_sk_used false s2).

Definition l_ref (x : stack) (idx : Z) : stack :=
  match sk x idx with
  | Some s => put_sock x idx (set_sk_refs (sk_refs s + 1) s)
  | None => x
  end.

Definition l_unref (now : Z) (x : stack) (idx : Z) : stack :=
  match sk x idx with
  | Some s =>
      let s1 := set_sk_refs (sk_refs s - 1) s in
      let x1 := put_sock x idx s1 in
      if sk_refs s1 <=? 0 then sock_release now x1 idx else x1
  | None => x
  end.

Definition udp_autobind (x : stack) (i : Z) : stack * Z :=
  let s := (g_sock x).[i] in
  if sk_bound s then (x, 0)
  else
    let '(u1, ep) := udp_ephemeral_port (st_udp x) in
    let '(u2, r) := udp_bind u1 ep (Some (CbSock i)) in
    if negb (r =? 0) then (set_udp x u2, E_NOBUFS)
    else (put_sock (set_udp x u2) i (set_sk_bound true (set_sk_port ep s)), 0).

Definition l_bind (x : stack) (idx port : Z) : stack * Z :=
  match sk x idx with
  | None => (x, E_BADF)
  | Some s =>
      if sk_type s =? SOCK_DGRAM then
        let u1 := if sk_bound s then udp_unbind (st_udp x) (sk_port s) else st_udp x in
        let s1 := set_sk_bound false s in
        let '(u2, r) := udp_bind u1 port (Some (CbSock idx)) in
        if negb (r =? 0) then (put_sock (set_udp x u2) idx s1, E_ADDRINUSE)
        else (put_sock (set_udp x u2) idx (set_sk_bound true (set_sk_port port s1)), 0)
      else if bool_decide (is_Some (sk_tcp s)) then (x, E_INVAL)
      else (put_sock x idx (set_sk_port port s), 0)
  end.

(** The first call of [connect] on a stream socket. *)
Definition start_connect (now rnd : Z) (x : stack) (idx : Z) (s : sock) (dev ip port : Z) : stack * Z :=
  match tcp_alloc (st_tcp x) with
  | (t1, None) => (set_tcp x t1, E_NOBUFS)
  | (t1, Some c) =>
      let '(t2, r) := tcp_start_connect now rnd t1 c dev ip port in
      if negb (r =? 0) then (set_tcp x (tcp_free t2 c), E_CONNREFUSED)
      else (put_sock (set_tcp x t2) idx (set_sk_deadline (u64 (now + SOCK_CONNECT_MS)) (set_sk_connecting true (set_sk_tcp (Some c) s))), E_INPROGRESS)
  end.

Definition l_connect (now rnd : Z) (x : stack) (idx ip port : Z) : stack * Z :=
  match sk x idx with
  | None => (x, E_BADF)
  | Some s =>
      let dev := net_primary (net_of x) in
      if dev =? NULL_DEV then (x, E_NETDOWN)
      else if sk_type s =? SOCK_DGRAM then udp_autobind (put_sock x idx (set_sk_peer ip port s)) idx
      else if sk_listening s then (x, E_INVAL)
      else
        match sk_tcp s with
        | None => start_connect now rnd x idx s dev ip port
        | Some c =>
            if negb (sk_connecting s) then (x, E_ISCONN)
            else
              let cb := (g_conns (st_tcp x)).[c] in
              if in_states [TCP_ESTABLISHED; TCP_CLOSE_WAIT] cb then (put_sock x idx (set_sk_connecting false s), 0)
              else
                let rst := reset cb || is_state TCP_CLOSED cb in
                if rst || (sk_deadline s <=? now) then
                  (put_sock (set_tcp x (tcp_release now (st_tcp x) c)) idx (set_sk_connecting false (set_sk_tcp None s)),
                   if rst then E_CONNREFUSED else E_TIMEDOUT)
                else (x, E_ALREADY)
        end
  end.

Definition l_listen (x : stack) (idx backlog : Z) : stack * Z :=
  match sk x idx with
  | None => (x, E_OPNOTSUPP)
  | Some s =>
      if negb (sk_type s =? SOCK_STREAM) then (x, E_OPNOTSUPP)
      else if sk_listening s then (x, 0)
      else if bool_decide (is_Some (sk_tcp s)) || (sk_port s =? 0) then (x, E_INVAL)
      else
        let dev := net_primary (net_of x) in
        if dev =? NULL_DEV then (x, E_NETDOWN)
        else
          match tcp_alloc (st_tcp x) with
          | (t1, None) => (set_tcp x t1, E_NOBUFS)
          | (t1, Some c) =>
              let '(t2, r) := tcp_start_listen t1 c dev (sk_port s) backlog in
              if negb (r =? 0) then (set_tcp x (tcp_free t2 c), E_ADDRINUSE)
              else (put_sock (set_tcp x t2) idx (set_sk_listening true (set_sk_tcp (Some c) s)), 0)
          end
  end.

Definition l_accept (x : stack) (idx : Z) : stack * Z :=
  match sk x idx with
  | None => (x, E_INVAL)
  | Some s =>
      if negb (sk_listening s) then (x, E_INVAL)
      else
        match sk_tcp s with
        | None => (x, E_AGAIN)
        | Some lc =>
            if tcp_accept_pending (st_tcp x) lc =? 0 then (x, E_AGAIN)
            else
              let '(x1, nidx) := l_create x SOCK_STREAM in
              if nidx <? 0 then (x1, nidx)
              else
                match tcp_accept_ready (st_tcp x1) lc with
                | (t, None) => (put_sock (set_tcp x1 t) nidx (set_sk_used false (g_sock x1).[nidx]), E_AGAIN)
                | (t, Some ch) => (put_sock (set_tcp x1 t) nidx (set_sk_tcp (Some ch) (g_sock x1).[nidx]), nidx)
                end
        end
  end.

(** Send a datagram from socket [idx], bound first if it is not. *)
Definition dgram_send (x : stack) (idx dev ip port : Z) (buf : list Z) : stack * Z :=
  let '(x1, r) := udp_autobind x idx in
  if negb (r =? 0) then (x1, r)
  else
    let '(n, q) := udp_output (net_of x1) dev ip (sk_port (g_sock x1).[idx]) port buf in
    (set_l3 x1 n, if q =? 0 then zlen buf else E_NOBUFS).

Definition l_send (now : Z) (x : stack) (idx : Z) (buf : list Z) : stack * Z :=
  match sk x idx with
  | None => (x, E_BADF)
  | Some s =>
      let dev := net_primary (net_of x) in
      if dev =? NULL_DEV then (x, E_NETDOWN)
      else if sk_type s =? SOCK_STREAM then
        match sk_tcp s, sk_listening s with
        | Some c, false =>
            if negb (in_states [TCP_ESTABLISHED; TCP_CLOSE_WAIT] (g_conns (st_tcp x)).[c]) then (x, E_PIPE)
            else if zlen buf =? 0 then (x, 0)
            else
              let '(t, n) := tcp_write now (st_tcp x) c buf in
              (set_tcp x t, if n <? 0 then E_PIPE else if 0 <? n then n else E_AGAIN)
        | _, _ => (x, E_NOTCONN)
        end
      else if sk_peer_ip s =? 0 then (x, E_NOTCONN)
      else dgram_send x idx dev (sk_peer_ip s) (sk_peer_port s) buf
  end.

Definition l_sendto (x : stack) (idx ip port : Z) (buf : list Z) : stack * Z :=
  match sk x idx with
  | None => (x, E_INVAL)
  | Some s =>
      if negb (sk_type s =? SOCK_DGRAM) then (x, E_INVAL)
      else
        let dev := net_primary (net_of x) in
        if dev =? NULL_DEV then (x, E_NETDOWN) else dgram_send x idx dev ip port buf
  end.

(** The state, the bytes, the sender, the result. *)
Definition l_recv (x : stack) (idx len : Z) : stack * list Z * (Z * Z) * Z :=
  match sk x idx with
  | None => (x, [], (0, 0), E_INVAL)
  | Some s =>
      if len <=? 0 then (x, [], (0, 0), E_INVAL)
      else if sk_type s =? SOCK_STREAM then
        match sk_tcp s, sk_listening s with
        | Some c, false =>
            let '(t, d, n) := tcp_read (st_tcp x) c len in
            (set_tcp x t, d, (0, 0), if 0 <? n then n else if n <? 0 then 0 else E_AGAIN)
        | _, _ => (x, [], (0, 0), E_NOTCONN)
        end
      else if 0 <? sk_count s then
        let d := (sk_dq s).[sk_head s] in
        let n := if len <? zlen (dg_data d) then len else zlen (dg_data d) in
        (put_sock x idx (set_sk_count (sk_count s - 1) (set_sk_head ((sk_head s + 1) mod SOCK_DQ) s)),
         take (Z.to_nat n) (dg_data d), (dg_ip d, dg_port d), n)
      else (x, [], (0, 0), E_AGAIN)
  end.

Definition l_poll (x : stack) (idx : Z) : Z :=
  match sk x idx with
  | None => SOCK_POLLNVAL
  | Some s =>
      if sk_type s =? SOCK_DGRAM then Z.lor (if 0 <? sk_count s then SOCK_POLLIN else 0) SOCK_POLLOUT
      else
        match sk_tcp s with
        | None => 0
        | Some c =>
            let cb := (g_conns (st_tcp x)).[c] in
            if sk_listening s then (if ztrue (tcp_accept_pending (st_tcp x) c) then SOCK_POLLIN else 0)
            else if is_state TCP_SYN_SENT cb then 0
            else
              let ev := if 0 <? s32 (rx_len cb) then SOCK_POLLIN else 0 in
              let ev := if in_states [TCP_ESTABLISHED; TCP_CLOSE_WAIT] cb && (0 <? tcp_tx_space cb) then Z.lor ev SOCK_POLLOUT else ev in
              let ev := if in_states [TCP_CLOSE_WAIT; TCP_CLOSING; TCP_LAST_ACK; TCP_TIME_WAIT; TCP_CLOSED] cb then Z.lor ev SOCK_POLLIN else ev in
              let ev := if is_state TCP_CLOSED cb || reset cb then Z.lor ev (Z.lor SOCK_POLLHUP SOCK_POLLOUT) else ev in
              if reset cb then Z.lor ev SOCK_POLLERR else ev
        end
  end.

(** [getsockname] and [getpeername]: the result, the address, the port. *)
Definition l_name (x : stack) (idx : Z) (peer : bool) : Z * Z * Z :=
  match sk x idx with
  | None => (E_BADF, 0, 0)
  | Some s =>
      if sk_type s =? SOCK_DGRAM then
        if peer then (if sk_peer_ip s =? 0 then (E_NOTCONN, 0, 0) else (0, sk_peer_ip s, sk_peer_port s))
        else (0, dev_ip (net_of x) (net_primary (net_of x)), sk_port s)
      else
        match sk_tcp s with
        | None => if peer then (E_NOTCONN, 0, 0) else (0, 0, sk_port s)
        | Some c =>
            let cb := (g_conns (st_tcp x)).[c] in
            if peer then (if sk_listening s then (E_NOTCONN, 0, 0) else (0, remote_ip cb, remote_port cb))
            else (0, dev_ip (net_of x) (c_dev cb), local_port cb)
        end
  end.

(** ** Receiving frames, and the tick *)

Definition ipv4_input (now rnd : Z) (x : stack) (dev : Z) (d : net_dev) (frame : list Z) : stack :=
  match ipv4_parse d frame with
  | None => x
  | Some (proto, src, payload) =>
      if proto =? IP_PROTO_ICMP then
        let '(n, r) := icmp_input (net_of x) (g_echo_replies x) dev src payload in
        let x1 := set_l3 x n in mk_stack (st_tcp x1) (st_udp x1) (g_sock x1) r (g_rx_frames x1) (upcalls x1)
      else if proto =? IP_PROTO_UDP then
        match udp_input (st_udp x) src payload with
        | Some (CbSock i, sip, sport, data) => sock_udp_cb x i sip sport data
        | Some (CbOther id, sip, sport, data) =>
            mk_stack (st_tcp x) (st_udp x) (g_sock x) (g_echo_replies x) (g_rx_frames x) (upcalls x ++ [(id, sip, sport, data)])
        | None => x
        end
      else if proto =? IP_PROTO_TCP then set_tcp x (tcp_input now rnd (st_tcp x) dev src payload)
      else x
  end.

Definition eth_input (now rnd : Z) (x : stack) (dev : Z) (d : net_dev) (frame : list Z) : stack :=
  if zlen frame <? 14 then x
  else
    let type := rd_be16 frame 12 in
    if type =? ETH_TYPE_ARP then set_l3 x (arp_input (net_of x) dev frame)
    else if type =? ETH_TYPE_IPV4 then ipv4_input now rnd x dev d frame
    else x.

Definition net_rx (now rnd : Z) (x : stack) (dev : Z) (frame : list Z) : stack :=
  match dev_at (net_of x) dev with
  | None => x
  | Some d =>
      if (zlen frame <? 14) || (NET_FRAME_MAX <? zlen frame) then x
      else
        let x1 := mk_stack (st_tcp x) (st_udp x) (g_sock x) (g_echo_replies x) (u64 (g_rx_frames x + 1)) (upcalls x) in
        eth_input now rnd x1 dev d frame
  end.

(** The protocol timers of [net_tick]. *)
Definition net_tick (now : Z) (x : stack) : stack :=
  let x1 := set_l3 x (arp_tick (net_of x)) in set_tcp x1 (tcp_tick now (st_tcp x1)).
End stack.
Arguments stack : clear implicits.
