(* ===== verification/SocketInv.v ===== *)
(** * Sockets and what they hold

    The invariant of the whole stack: a stream socket's control block is in use,
    belongs to no other socket and cannot be freed by the receive path or the
    timer; a UDP binding of a socket leads to that socket while it is open.  It
    holds after every socket call, every received frame and every tick. *)

From S2P Require Import Prelude NetBase Net Tcp NetProps TcpGhost TcpTable TcpOps Socket.

Definition sidx (i : Z) : Prop := 0 ≤ i < MAX_SOCK.

(** ** Streams *)

Record thold (l : list tcp_conn) (ss : list sock) : Prop := {
  th_conn i c : sidx i → sk_used ss.[i] = true → sk_tcp ss.[i] = Some c →
    slot c ∧ held l.[c] = true ∧ is_lst l.[c] = sk_listening ss.[i] ∧ sk_type ss.[i] = SOCK_STREAM;
  th_uniq i j c : sidx i → sidx j → sk_used ss.[i] = true → sk_used ss.[j] = true → sk_tcp ss.[i] = Some c → sk_tcp ss.[j] = Some c → i = j;
  th_listen i : sidx i → sk_used ss.[i] = true → sk_listening ss.[i] = true → is_Some (sk_tcp ss.[i])
}.

(** A change of the table that leaves what is held alone. *)
Lemma thold_safe l l' ss : thold l ss → (∀ j, slot j → held l.[j] = true → stays l.[j] l'.[j]) → thold l' ss.
Proof.
  intros [H1 H2 H3] Hs. constructor; try done. intros i c Hi Hu Ht. destruct (H1 i c Hi Hu Ht) as (A1 & A2 & A3 & A4). destruct (Hs c A1 A2) as (B1 & B2 & _).
  split_and!; try done; try apply A1. congruence.
Qed.

(** A change of one socket. *)
Lemma thold_put l l' ss i s : zlen ss = MAX_SOCK → sidx i → thold l ss →
  (∀ c, sk_used s = true → sk_tcp s = Some c → slot c ∧ held l'.[c] = true ∧ is_lst l'.[c] = sk_listening s ∧ sk_type s = SOCK_STREAM ∧
     ∀ j, sidx j → j ≠ i → sk_used ss.[j] = true → sk_tcp ss.[j] ≠ Some c) →
  (sk_used s = true → sk_listening s = true → is_Some (sk_tcp s)) →
  (∀ j c, sidx j → j ≠ i → sk_used ss.[j] = true → sk_tcp ss.[j] = Some c → stays l.[c] l'.[c]) →
  thold l' ss.[i <- s].
Proof.
  intros Hl Hi [H1 H2 H3] Hs Hli Hst.
  assert (Hg : ∀ j, sidx j → ss.[i <- s].[j] = if i =? j then s else ss.[j]) by (intros; apply aget_aset; unfold sidx in *; lia). constructor.
  - intros j c Hj. rewrite Hg by done. destruct (Z.eqb_spec i j) as [<-|Hne]; intros Hu Ht.
    + destruct (Hs c Hu Ht) as (A1 & A2 & A3 & A4 & _). done.
    + destruct (H1 j c Hj Hu Ht) as (A1 & A2 & A3 & A4). destruct (Hst j c Hj ltac:(done) Hu Ht) as (B1 & B2 & _). split; [done|]. split_and!; try done. congruence.
  - intros j m c Hj Hm. rewrite !Hg by done. destruct (Z.eqb_spec i j) as [<-|], (Z.eqb_spec i m) as [<-|]; intros Hu Hu' Ht Ht'; [done | | | by eapply H2].
    + destruct (Hs c Hu Ht) as (_ & _ & _ & _ & Hno). by destruct (Hno m Hm).
    + destruct (Hs c Hu' Ht') as (_ & _ & _ & _ & Hno). by destruct (Hno j Hj).
  - intros j Hj. rewrite Hg by done. destruct (Z.eqb_spec i j) as [<-|]; [done | by apply H3].
Qed.

(** ** Datagrams *)

Definition bidx (b : Z) : Prop := 0 ≤ b < UDP_MAX_BIND.
#[export] Instance udp_binding_inhabited : Inhabited udp_binding := populate (mk_bind 0 None false).

Record uhold (u : udp) (ss : list sock) : Prop := {
  uh_len : zlen (g_bind u) = UDP_MAX_BIND;
  uh_eph : dynamic (g_ephemeral u);
  uh_port a b : bidx a → bidx b → b_used (g_bind u).[a] = true → b_used (g_bind u).[b] = true → b_port (g_bind u).[a] = b_port (g_bind u).[b] → a = b;
  uh_sock b j : bidx b → b_used (g_bind u).[b] = true → b_cb (g_bind u).[b] = Some (CbSock j) →
    sidx j ∧ sk_used ss.[j] = true ∧ sk_type ss.[j] = SOCK_DGRAM ∧ sk_bound ss.[j] = true ∧ sk_port ss.[j] = b_port (g_bind u).[b];
  uh_bound j : sidx j → sk_used ss.[j] = true → sk_type ss.[j] = SOCK_DGRAM → sk_bound ss.[j] = true →
    ∃ b, bidx b ∧ b_used (g_bind u).[b] = true ∧ b_cb (g_bind u).[b] = Some (CbSock j) ∧ b_port (g_bind u).[b] = sk_port ss.[j]
}.

(** No binding leads to a socket that is not a bound datagram socket. *)
Lemma unbound_free u ss j b : uhold u ss → bidx b → b_used (g_bind u).[b] = true →
  sk_used ss.[j] && (sk_type ss.[j] =? SOCK_DGRAM) && sk_bound ss.[j] = false → b_cb (g_bind u).[b] ≠ Some (CbSock j).
Proof.
  intros Hu Hb Hub Hn E. destruct (uh_sock _ _ Hu b j Hb Hub E) as (_ & E1 & E2 & E3 & _). by rewrite E1, E2, E3 in Hn.
Qed.

(** A change of a socket no binding leads to. *)
Lemma uhold_put u ss i s : zlen ss = MAX_SOCK → sidx i → uhold u ss →
  (∀ b, bidx b → b_used (g_bind u).[b] = true → b_cb (g_bind u).[b] ≠ Some (CbSock i)) →
  sk_used s && (sk_type s =? SOCK_DGRAM) && sk_bound s = false → uhold u ss.[i <- s].
Proof.
  intros Hl Hi [H1 H2 H3 H4 H5] Hno Hs. assert (Hg : ∀ j, sidx j → ss.[i <- s].[j] = if i =? j then s else ss.[j]) by (intros; apply aget_aset; unfold sidx in *; lia).
  constructor; try done.
  - intros b j Hb Hub E. destruct (H4 b j Hb Hub E) as (A & B). split; [done|]. rewrite Hg by done. destruct (Z.eqb_spec i j) as [<-|]; [by destruct (Hno b Hb Hub) | done].
  - intros j Hj. rewrite Hg by done. destruct (Z.eqb_spec i j) as [<-|]; [|by apply H5]. intros A B C. rewrite A, B, C in Hs. done.
Qed.

(** A change of a socket that keeps its binding. *)
Lemma uhold_same u ss i s : zlen ss = MAX_SOCK → sidx i → uhold u ss →
  sk_used s = sk_used ss.[i] → sk_type s = sk_type ss.[i] → sk_bound s = sk_bound ss.[i] → sk_port s = sk_port ss.[i] ∨ sk_type s ≠ SOCK_DGRAM → uhold u ss.[i <- s].
Proof.
  intros Hl Hi [H1 H2 H3 H4 H5] E1 E2 E3 E4. assert (Hg : ∀ j, sidx j → ss.[i <- s].[j] = if i =? j then s else ss.[j]) by (intros; apply aget_aset; unfold sidx in *; lia).
  constructor; try done.
  - intros b j Hb Hub E. destruct (H4 b j Hb Hub E) as (A & B & C & D & F). split; [done|]. rewrite Hg by done. destruct (Z.eqb_spec i j) as [<-|]; [|done].
    split_and!; try congruence. destruct E4; congruence.
  - intros j Hj. rewrite Hg by done. destruct (Z.eqb_spec i j) as [<-|]; [|by apply H5]. intros A B C. destruct (H5 i Hi) as (b & B1 & B2 & B3 & B4); try congruence.
    exists b. split_and!; try done; try apply B1. destruct E4; congruence.
Qed.

(** Bindings change, but not those of sockets. *)
Lemma unbind_get u port b : zlen (g_bind u) = UDP_MAX_BIND → bidx b →
  (g_bind (udp_unbind u port)).[b] = if bound port (g_bind u).[b] then mk_bind (b_port (g_bind u).[b]) (b_cb (g_bind u).[b]) false else (g_bind u).[b].
Proof. intros Hl Hb. unfold udp_unbind. cbn. rewrite aget_fmap; [done|]. rewrite Hl. exact Hb. Qed.

(** A port is given back, with the socket that had it, if any. *)
Lemma uhold_unbind u ss i s : zlen ss = MAX_SOCK → sidx i → uhold u ss → sk_used ss.[i] = true → sk_type ss.[i] = SOCK_DGRAM → sk_bound ss.[i] = true →
  sk_used s && (sk_type s =? SOCK_DGRAM) && sk_bound s = false →
  let u' := udp_unbind u (sk_port ss.[i]) in
  uhold u' ss.[i <- s] ∧ ∀ b, bidx b → b_used (g_bind u').[b] = true → b_cb (g_bind u').[b] ≠ Some (CbSock i).
Proof.
  intros Hl Hi Hu Ui Ti Bi Hs u'. pose proof Hu as [H1 H2 H3 H4 H5].
  assert (Hub : ∀ b, bidx b → b_used (g_bind u').[b] = true → b_used (g_bind u).[b] = true ∧ (g_bind u').[b] = (g_bind u).[b] ∧ b_port (g_bind u).[b] ≠ sk_port ss.[i]).
  { intros b Hb. unfold u'. rewrite unbind_get by done. destruct (bound _ _) eqn:E; [done|]. intros Hub. split_and!; try done. intros Ep. unfold bound in E. rewrite Hub, Ep, Z.eqb_refl in E. done. }
  assert (Hno : ∀ b, bidx b → b_used (g_bind u').[b] = true → b_cb (g_bind u').[b] ≠ Some (CbSock i)).
  { intros b Hb Hb'. destruct (Hub b Hb Hb') as (A & E & Hp). rewrite E. intros Ec. destruct (H4 b i Hb A Ec) as (_ & _ & _ & _ & Ep). congruence. }
  assert (Hg : ∀ j, sidx j → ss.[i <- s].[j] = if i =? j then s else ss.[j]) by (intros; apply aget_aset; unfold sidx in *; lia).
  split; [|exact Hno]. constructor.
  - unfold u', udp_unbind. cbn. by rewrite length_fmap.
  - exact H2.
  - intros a b Ha Hb Ua Ub. destruct (Hub a Ha Ua) as (A1 & -> & _), (Hub b Hb Ub) as (A2 & -> & _). by apply H3.
  - intros b j Hb Ub. pose proof (Hno b Hb Ub) as Hni. destruct (Hub b Hb Ub) as (A & E & _). rewrite E in Hni |- *. intros Ec. destruct (H4 b j Hb A Ec) as (Hj & B).
    split; [done|]. rewrite Hg by done. destruct (Z.eqb_spec i j) as [<-|]; [done | exact B].
  - intros j Hj. rewrite Hg by done. destruct (Z.eqb_spec i j) as [<-|Hne]; [intros A B C; by rewrite A, B, C in Hs|].
    intros A B C. destruct (H5 j Hj A B C) as (b & Hb & Ub & Cb & Pb). exists b. split; [done|]. unfold u'. rewrite unbind_get by done.
    destruct (bound _ _) eqn:Eb; [exfalso | done]. apply andb_true_iff in Eb as [_ Ep%Z.eqb_eq]. destruct (H5 i Hi Ui Ti Bi) as (b' & Hb' & Ub' & Cb' & Pb').
    assert (b = b') as -> by (apply H3; try done; congruence). congruence.
Qed.

(** The port is one no binding has, or nothing changes. *)
Lemma udp_bind_spec u port cb : zlen (g_bind u) = UDP_MAX_BIND → let '(u', r) := udp_bind u port cb in
  r ≠ 0 ∧ u' = u ∨
  r = 0 ∧ ∃ a, bidx a ∧ b_used (g_bind u).[a] = false ∧ (∀ b, bidx b → b_used (g_bind u).[b] = true → b_port (g_bind u).[b] ≠ port) ∧
    g_ephemeral u' = g_ephemeral u ∧ zlen (g_bind u') = UDP_MAX_BIND ∧ ∀ b, bidx b → (g_bind u').[b] = if a =? b then mk_bind port cb true else (g_bind u).[b].
Proof.
  intros Hl. unfold udp_bind. destruct (first (bound port) _) eqn:Ef; [cbv beta iota; by left|]. destruct (first (λ b, negb (b_used b)) (g_bind u)) as [a|] eqn:Ea; cbv beta iota; [|by left]. right. split; [done|].
  apply first_some in Ea as (Ha & Ua%negb_true_iff & _). exists a. split; [unfold bidx; lia|]. split_and!; try done.
  - intros b Hb Ub Ep. pose proof (first_none _ _ b Ef ltac:(unfold bidx in Hb; lia)) as Hn. unfold bound in Hn. by rewrite Ub, Ep, Z.eqb_refl in Hn.
  - cbn. by rewrite aset_length.
  - intros b Hb. cbn. apply aget_aset; unfold bidx in *; lia.
Qed.

(** A free port is taken, for a socket no binding leads to yet. *)
Lemma uhold_bind u ss i s port : zlen ss = MAX_SOCK → sidx i → uhold u ss →
  (∀ b, bidx b → b_used (g_bind u).[b] = true → b_cb (g_bind u).[b] ≠ Some (CbSock i)) →
  sk_used s = true → sk_type s = SOCK_DGRAM → sk_bound s = true → sk_port s = port →
  let '(u', r) := udp_bind u port (Some (CbSock i)) in r ≠ 0 ∧ u' = u ∨ r = 0 ∧ uhold u' ss.[i <- s].
Proof.
  intros Hl Hi [H1 H2 H3 H4 H5] Hno Us Ts Bs Ps. pose proof (udp_bind_spec u port (Some (CbSock i)) H1) as Hs. destruct (udp_bind _ _ _) as [u' r].
  destruct Hs as [?|(-> & a & Ha & Ua & Hp & Ee & El & Hb)]; [by left|]. right. split; [done|].
  assert (Hg : ∀ j, sidx j → ss.[i <- s].[j] = if i =? j then s else ss.[j]) by (intros; apply aget_aset; unfold sidx in *; lia). constructor; [done | by rewrite Ee | | |].
  - intros b c Hb' Hc'. rewrite !Hb by done. destruct (Z.eqb_spec a b) as [<-|], (Z.eqb_spec a c) as [<-|]; cbn; try done.
    + intros _ Uc E. by destruct (Hp c Hc' Uc).
    + intros Ub _ E. by destruct (Hp b Hb' Ub).
    + by apply H3.
  - intros b j Hb'. rewrite !Hb by done. destruct (Z.eqb_spec a b) as [<-|]; cbn.
    + intros _ [= <-]. split; [done|]. rewrite Hg, Z.eqb_refl by done. done.
    + intros Ub Ec. destruct (H4 b j Hb' Ub Ec) as [Hj B]. split; [done|]. rewrite Hg by done. destruct (Z.eqb_spec i j) as [<-|]; [by destruct (Hno b Hb' Ub) | done].
  - intros j Hj. rewrite Hg by done. destruct (Z.eqb_spec i j) as [<-|].
    + intros _ _ _. exists a. rewrite Hb, Z.eqb_refl by done. done.
    + intros A B C. destruct (H5 j Hj A B C) as (b & Hb' & Ub & Cb & Pb). exists b. rewrite Hb by done. destruct (Z.eqb_spec a b) as [<-|]; [congruence | done].
Qed.

(** The other clients of UDP take and return ports of their own. *)
Lemma uhold_bind_other u ss port id : uhold u ss → uhold (udp_bind u port (Some (CbOther id))).1 ss.
Proof.
  intros [H1 H2 H3 H4 H5]. pose proof (udp_bind_spec u port (Some (CbOther id)) H1) as Hs. destruct (udp_bind _ _ _) as [u' r]. cbn [fst].
  destruct Hs as [[_ ->]|(-> & a & Ha & Ua & Hp & Ee & El & Hb)]; [done|]. constructor; [done | by rewrite Ee | | |].
  - intros b c Hb' Hc'. rewrite !Hb by done. destruct (Z.eqb_spec a b) as [<-|], (Z.eqb_spec a c) as [<-|]; cbn; try done.
    + intros _ Uc E. by destruct (Hp c Hc' Uc).
    + intros Ub _ E. by destruct (Hp b Hb' Ub).
    + by apply H3.
  - intros b j Hb'. rewrite !Hb by done. destruct (Z.eqb_spec a b) as [<-|]; [done | by apply H4].
  - intros j Hj A B C. destruct (H5 j Hj A B C) as (b & Hb' & Ub & Cb & Pb). exists b. rewrite Hb by done. destruct (Z.eqb_spec a b) as [<-|]; [congruence | done].
Qed.

Lemma uhold_unbind_other u ss port : uhold u ss → (∀ b j, bidx b → bound port (g_bind u).[b] = true → b_cb (g_bind u).[b] ≠ Some (CbSock j)) → uhold (udp_unbind u port) ss.
Proof.
  intros [H1 H2 H3 H4 H5] Hno. assert (Hub : ∀ b, bidx b → b_used (g_bind (udp_unbind u port)).[b] = true → b_used (g_bind u).[b] = true ∧ (g_bind (udp_unbind u port)).[b] = (g_bind u).[b]).
  { intros b Hb. rewrite unbind_get by done. by destruct (bound _ _). }
  constructor.
  - unfold udp_unbind. cbn. by rewrite length_fmap.
  - exact H2.
  - intros a b Ha Hb Ua Ub. destruct (Hub a Ha Ua) as (A1 & ->), (Hub b Hb Ub) as (A2 & ->). by apply H3.
  - intros b j Hb Ub. destruct (Hub b Hb Ub) as (A & ->). by apply H4.
  - intros j Hj A B C. destruct (H5 j Hj A B C) as (b & Hb & Ub & Cb & Pb). exists b. rewrite unbind_get by done. destruct (bound _ _) eqn:E; [by destruct (Hno b j Hb E) | done].
Qed.

Lemma uhold_eph u ss e : uhold u ss → dynamic e → uhold (mk_udp (g_bind u) e) ss.
Proof. by intros [H1 H2 H3 H4 H5] He. Qed.

(** The port [udp_ephemeral_port] finds is one the bind then gets. *)
Lemma ephemeral_ok u : zlen (g_bind u) = UDP_MAX_BIND → dynamic (g_ephemeral u) → let '(u1, ep) := udp_ephemeral_port u in
  g_bind u1 = g_bind u ∧ dynamic (g_ephemeral u1) ∧ dynamic ep ∧ ∀ b, bidx b → bound ep (g_bind u).[b] = false.
Proof.
  intros Hl He. unfold udp_ephemeral_port. pose proof (eph_search_table (g_bind u) bound (g_ephemeral u)) as H. destruct (eph_search _ _ _) as [e p].
  destruct H as (A & B & C); [rewrite Hl; done | | done |].
  { intros p0 q0 x E1 E2. unfold bound in *. zbool. lia. }
  split_and!; try done; try apply B. intros b Hb. apply C. rewrite Hl. exact Hb.
Qed.

(** ** The stack *)

Definition sock_ok (s : sock) : Prop :=
  (sk_type s = SOCK_STREAM ∨ sk_type s = SOCK_DGRAM) ∧
  zlen (sk_dq s) = SOCK_DQ ∧ 0 ≤ sk_head s < SOCK_DQ ∧ 0 ≤ sk_count s ≤ SOCK_DQ ∧ Forall (λ d, zlen (dg_data d) ≤ SOCK_DGRAM_MAX) (sk_dq s).

Section stack.
Context {NIC : Nic} {K : Type} {HEAP : BufOps K} {LAWS : BufLaws K} (base : Z → Prop).
Implicit Types (x : stack K) (s : sock).

Record sinv x : Prop := {
  si_tcp : tinv base (st_tcp x);
  si_len : zlen (g_sock x) = MAX_SOCK;
  si_thold : thold (g_conns (st_tcp x)) (g_sock x);
  si_uhold : uhold (st_udp x) (g_sock x);
  si_queue i : sidx i → sk_used (g_sock x).[i] = true → sock_ok (g_sock x).[i]
}.

Lemma sk_some x idx s : sk x idx = Some s → sidx idx ∧ s = (g_sock x).[idx] ∧ sk_used s = true.
Proof.
  unfold sk. destruct (_ || _) eqn:E; [done|]. intros [= <-]. rewrite !orb_false_iff, negb_false_iff in E. destruct E as [[? ?] ?]. zbool. split; [unfold sidx; lia | done].
Qed.

Lemma sinv_tcp x t : sinv x → tinv base t → safe (st_tcp x) t → sinv (set_tcp x t).
Proof. intros [H1 H2 H3 H4 H5] Ht Hs. constructor; try done. by eapply thold_safe. Qed.

Lemma sinv_l3 x n : sinv x → sinv (set_l3 x n).
Proof. intros H. pose proof H as [[A B C] _ _ _ _]. apply sinv_tcp; [done | done |]. intros j Hj Hh. by apply stays_refl. Qed.

(** What a socket holds stays the same. *)
Definition same_hold (s s' : sock) : Prop :=
  sk_used s' = sk_used s ∧ sk_type s' = sk_type s ∧ sk_tcp s' = sk_tcp s ∧ sk_listening s' = sk_listening s ∧ sk_bound s' = sk_bound s ∧
  (sk_port s' = sk_port s ∨ sk_type s ≠ SOCK_DGRAM).

Lemma queue_put x i s : sinv x → sidx i → (sk_used s = true → sock_ok s) → ∀ j, sidx j → sk_used (g_sock x).[i <- s].[j] = true → sock_ok (g_sock x).[i <- s].[j].
Proof.
  intros Hx Hi Hq j Hj. rewrite aget_aset by (rewrite ?(si_len _ Hx); unfold sidx in *; lia). destruct (_ =? _); [done | by apply si_queue].
Qed.

Lemma sinv_put x i s : sinv x → sidx i → same_hold (g_sock x).[i] s → (sk_used s = true → sock_ok s) → sinv (put_sock x i s).
Proof.
  intros Hx Hi (E1 & E2 & E3 & E4 & E5 & E6) Hq. pose proof Hx as [H1 H2 H3 H4 H5]. constructor; cbn; [done | by rewrite aset_length | | | by apply queue_put].
  - pose proof H3 as [T1 T2 T3]. eapply thold_put; try done.
    + rewrite E1, E3, E4, E2. intros c Hu Ht. destruct (T1 i c Hi Hu Ht) as (A & B & C & D). split; [done|]. split_and!; try done. intros j Hj Hne Uj Tj. apply Hne. by eapply T2.
    + rewrite E1, E3, E4. by apply T3.
    + intros j c Hj Hne Uj Tj. apply stays_refl. by destruct (T1 j c Hj Uj Tj) as (A & B & _).
  - apply uhold_same; try done. rewrite E2. done.
Qed.

Lemma same_hold_refl s : same_hold s s.
Proof. unfold same_hold. auto 10. Qed.

(** The binding of a datagram socket changes. *)
Lemma sinv_udp x i s u : sinv x → sidx i → sk_used (g_sock x).[i] = true → sk_tcp s = sk_tcp (g_sock x).[i] → sk_listening s = sk_listening (g_sock x).[i] →
  sk_used s = true → sk_type s = sk_type (g_sock x).[i] → sock_ok s → uhold u (g_sock x).[i <- s] → sinv (put_sock (set_udp x u) i s).
Proof.
  intros Hx Hi Ui E3 E4 Us E2 Hq Hu. pose proof Hx as [H1 H2 H3 H4 H5]. constructor; cbn; [done | by rewrite aset_length | | done | by apply queue_put].
  pose proof H3 as [T1 T2 T3]. eapply thold_put; try done.
  - rewrite E3, E4, E2. intros c _ Ht. destruct (T1 i c Hi Ui Ht) as (A & B & C & D). split; [done|]. split_and!; try done. intros j Hj Hne Uj Tj. apply Hne. by eapply T2.
  - rewrite E3, E4. intros _. by apply T3.
  - intros j c Hj Hne Uj Tj. apply stays_refl. by destruct (T1 j c Hj Uj Tj) as (A & B & _).
Qed.

(** The control block of a stream socket changes, with the table. *)
Lemma sinv_stream x i s t : sinv x → sidx i → tinv base t → sk_type s = SOCK_STREAM → sk_used s = true → sk_used (g_sock x).[i] = true → sk_type (g_sock x).[i] = SOCK_STREAM →
  sock_ok s → (sk_listening s = true → is_Some (sk_tcp s)) →
  (∀ c, sk_tcp s = Some c → slot c ∧ held (g_conns t).[c] = true ∧ is_lst (g_conns t).[c] = sk_listening s ∧
     ∀ j, sidx j → j ≠ i → sk_used (g_sock x).[j] = true → sk_tcp (g_sock x).[j] ≠ Some c) →
  (∀ j c, sidx j → j ≠ i → sk_used (g_sock x).[j] = true → sk_tcp (g_sock x).[j] = Some c → stays (g_conns (st_tcp x)).[c] (g_conns t).[c]) →
  sinv (put_sock (set_tcp x t) i s).
Proof.
  intros Hx Hi Ht Ts Us Ui Ti Hq Hl Hc Hst. pose proof Hx as [H1 H2 H3 H4 H5]. constructor; cbn; [done | by rewrite aset_length | | | by apply queue_put].
  - eapply thold_put; try done. + intros c _ E. destruct (Hc c E) as (A & B & C & D). done.
  - apply uhold_put; try done.
    + intros b Hb Ub. eapply unbound_free; try done. by rewrite Ti, andb_false_r.
    + by rewrite Ts, andb_false_r.
Qed.
End stack.
