(* ===== verification/SocketOps.v ===== *)
(** * Every entry point keeps the stack's invariant

    The calls of [src/net/socket.c], the receive path and the tick, each over
    the invariant of [SocketInv] and the table lemmas of [TcpOps]. *)

From S2P Require Import Prelude NetBase Net Tcp NetProps TcpGhost TcpTable TcpOps Socket SocketInv.

Section stack.
Context {NIC : Nic} {K : Type} {HEAP : BufOps K} {LAWS : BufLaws K} (base : Z → Prop).
Implicit Types (x : stack K) (s : sock).
Local Abbreviation sinv := (sinv base).

(** ** Creating and releasing *)

(** A socket is closed: what it held is given back with it. *)
Lemma sinv_gone x i t u s : sinv x → sidx i → sk_used s = false → tinv base t → uhold u (g_sock x).[i <- s] →
  (∀ j c, sidx j → j ≠ i → sk_used (g_sock x).[j] = true → sk_tcp (g_sock x).[j] = Some c → stays (g_conns (st_tcp x)).[c] (g_conns t).[c]) →
  sinv (put_sock (set_udp (set_tcp x t) u) i s).
Proof.
  intros Hx Hi Us Ht Hu Hst. pose proof Hx as [H1 H2 H3 H4 H5]. constructor; cbn; [done | by rewrite aset_length | | done | by eapply queue_put; [| |rewrite Us]].
  eapply thold_put; try done; by rewrite Us.
Qed.

Lemma sinv_fresh x i s : sinv x → sidx i → sk_used (g_sock x).[i] = false → sk_tcp s = None → sk_listening s = false → sk_bound s = false → sock_ok s → sinv (put_sock x i s).
Proof.
  intros Hx Hi Ui Et El Eb Hq. pose proof Hx as [H1 H2 H3 H4 H5]. constructor; cbn; [done | by rewrite aset_length | | | by eapply queue_put].
  - pose proof H3 as [T1 T2 T3]. eapply thold_put; try done; rewrite ?Et, ?El; try done. intros j c Hj Hne Uj Tj. apply stays_refl. by destruct (T1 j c Hj Uj Tj) as (A & B & _).
  - apply uhold_put; try done.
    + intros b Hb Ub. eapply unbound_free; try done. by rewrite Ui.
    + by rewrite Eb, andb_false_r.
Qed.

Lemma created_ok type : type = SOCK_STREAM ∨ type = SOCK_DGRAM → sock_ok (set_sk_refs 1 (set_sk_type type (set_sk_used true sock_zero))).
Proof. intros Ht. unfold sock_ok. cbn. split_and!; try lia; try done. repeat constructor; done. Qed.

Lemma l_create_ok x type : sinv x → let '(x', r) := l_create x type in
  sinv x' ∧ (r < 0 ∧ x' = x ∨ sidx r ∧ sk_used (g_sock x).[r] = false ∧ x' = put_sock x r (set_sk_refs 1 (set_sk_type type (set_sk_used true sock_zero)))).
Proof.
  intros Hx. unfold l_create. destruct (_ && _) eqn:Et. { split; [done|]. by left. }
  destruct (first _ _) as [i|] eqn:E; cbv beta iota; [|split; [done|]; by left]. apply first_some in E as (Hi & Hu%negb_true_iff & _). rewrite (si_len _ _ Hx) in Hi.
  split; [|by right]. apply sinv_fresh; try done. apply created_ok. rewrite andb_false_iff, !negb_false_iff, !Z.eqb_eq in Et. exact Et.
Qed.

Lemma stays_others x i (t : tcp l3 K) : sinv x → sidx i → (∀ j, slot j → held (g_conns (st_tcp x)).[j] = true → sk_tcp (g_sock x).[i] ≠ Some j → stays (g_conns (st_tcp x)).[j] (g_conns t).[j]) → sk_used (g_sock x).[i] = true →
  ∀ j c, sidx j → j ≠ i → sk_used (g_sock x).[j] = true → sk_tcp (g_sock x).[j] = Some c → stays (g_conns (st_tcp x)).[c] (g_conns t).[c].
Proof.
  intros Hx Hi Hs Ui j c Hj Hne Uj Tj. destruct (th_conn _ _ (si_thold _ _ Hx) j c Hj Uj Tj) as (A & B & _). apply Hs; try done.
  intros E. apply Hne. by eapply (th_uniq _ _ (si_thold _ _ Hx)).
Qed.

Lemma sock_release_ok now x i : sinv x → sidx i → sk_used (g_sock x).[i] = true → sinv (sock_release now x i).
Proof.
  intros Hx Hi Ui. pose proof Hx as [H1 H2 H3 H4 H5]. unfold sock_release. set (s := (g_sock x).[i]) in *.
  assert (Hrefl : ∀ j, slot j → held (g_conns (st_tcp x)).[j] = true → stays (g_conns (st_tcp x)).[j] (g_conns (st_tcp x)).[j]) by (intros; by apply stays_refl).
  destruct (Z.eqb_spec (sk_type s) SOCK_DGRAM) as [Td|Td]; cbn [andb].
  - rewrite Td. cbn [Z.eqb SOCK_STREAM SOCK_DGRAM Pos.eqb]. destruct (sk_bound s) eqn:Bs.
    + apply (sinv_gone x i (st_tcp x) _ (set_sk_used false s)); try done; [|apply stays_others; try done; auto]. by apply uhold_unbind.
    + apply (sinv_gone x i (st_tcp x) (st_udp x) (set_sk_used false s)); try done; [|apply stays_others; try done; auto].
      apply uhold_put; try done. intros b Hb Ub. eapply unbound_free; try done. by rewrite (Bs : sk_bound (g_sock x).[i] = false), andb_false_r.
  - assert (Hu : ∀ s', sk_used s' = false → uhold (st_udp x) (g_sock x).[i <- s']).
    { intros s' Us'. apply uhold_put; try done; [|by rewrite Us']. intros b Hb Ub. eapply unbound_free; try done. rewrite (proj2 (Z.eqb_neq _ _)) by exact Td. by rewrite andb_false_r. }
    destruct (sk_type s =? SOCK_STREAM); [|by apply (sinv_gone x i (st_tcp x) (st_udp x) (set_sk_used false s)); try done; [apply Hu | apply stays_others; try done; auto]].
    destruct (sk_tcp s) as [c|] eqn:Ec; [|by apply (sinv_gone x i (st_tcp x) (st_udp x) (set_sk_used false s)); try done; [apply Hu | apply stays_others; try done; auto]].
    destruct (th_conn _ _ H3 i c Hi Ui Ec) as (Hc & Hh & _). destruct (release_ok base now (st_tcp x) c H1 Hc Hh) as [Ht Hs].
    apply (sinv_gone x i _ (st_udp x) (set_sk_used false (set_sk_tcp None s))); try done; [by apply Hu|]. apply stays_others; try done.
    intros j Hj Hjh Hne. apply Hs; try done. intros ->. by apply Hne.
Qed.

Lemma l_ref_ok x idx : sinv x → sinv (l_ref x idx).
Proof.
  intros Hx. unfold l_ref. destruct (sk x idx) as [s|] eqn:E; [|done]. apply sk_some in E as (Hi & -> & Hu). apply sinv_put; try done; [by unfold same_hold; auto 10|].
  intros _. by apply (si_queue _ _ Hx).
Qed.

Lemma l_unref_ok now x idx : sinv x → sinv (l_unref now x idx).
Proof.
  intros Hx. unfold l_unref. destruct (sk x idx) as [s|] eqn:E; [|done]. apply sk_some in E as (Hi & -> & Hu). cbv zeta.
  set (s1 := set_sk_refs _ _). assert (Hx1 : sinv (put_sock x idx s1)).
  { apply sinv_put; try done; [by unfold same_hold; auto 10|]. intros _. by apply (si_queue _ _ Hx). }
  destruct (_ <=? _); [|done]. apply sock_release_ok; try done. cbn. rewrite aget_aset_eq by (rewrite (si_len _ _ Hx); exact Hi). exact Hu.
Qed.

(** ** Names and datagrams *)

Lemma sinv_set_udp x u : sinv x → uhold u (g_sock x) → sinv (set_udp x u).
Proof. by intros [H1 H2 H3 H4 H5] Hu. Qed.

Lemma udp_autobind_ok x i : sinv x → sidx i → sk_used (g_sock x).[i] = true → sk_type (g_sock x).[i] = SOCK_DGRAM → sinv (udp_autobind x i).1.
Proof.
  intros Hx Hi Ui Ti. pose proof Hx as [H1 H2 H3 H4 H5]. unfold udp_autobind. destruct (sk_bound (g_sock x).[i]) eqn:Bi; [done|].
  pose proof (ephemeral_ok (st_udp x) (uh_len _ _ H4) (uh_eph _ _ H4)) as He. destruct (udp_ephemeral_port _) as [u1 ep]. destruct He as (Eb & Ee & _).
  assert (Hu1 : uhold u1 (g_sock x)) by (destruct u1 as [b e]; cbn in Eb, Ee; subst b; by apply uhold_eph).
  pose proof (uhold_bind u1 (g_sock x) i (set_sk_bound true (set_sk_port ep (g_sock x).[i])) ep H2 Hi Hu1) as Hb. destruct (udp_bind _ _ _) as [u2 r].
  destruct Hb as [[Hr ->]|[-> Hu2]]; try done.
  - intros b Hb Ub. eapply unbound_free; try done. by rewrite Bi, andb_false_r.
  - rewrite (proj2 (Z.eqb_neq r 0)) by done. cbn [negb fst]. by apply sinv_set_udp.
  - cbn [Z.eqb negb fst]. apply sinv_udp; try done. by apply H5.
Qed.

Lemma l_bind_ok x idx port : sinv x → sinv (l_bind x idx port).1.
Proof.
  intros Hx. unfold l_bind. destruct (sk x idx) as [s|] eqn:E; [|done]. apply sk_some in E as (Hi & -> & Hu). pose proof Hx as [H1 H2 H3 H4 H5].
  destruct (Z.eqb_spec (sk_type (g_sock x).[idx]) SOCK_DGRAM) as [Td|Td].
  - set (s := (g_sock x).[idx]) in *. set (u1 := if sk_bound s then _ else _). set (s1 := set_sk_bound false s).
    assert (Hs1 : sk_used s1 && (sk_type s1 =? SOCK_DGRAM) && sk_bound s1 = false) by (cbn; by rewrite andb_false_r).
    assert (Hu1 : uhold u1 (g_sock x).[idx <- s1] ∧ ∀ b, bidx b → b_used (g_bind u1).[b] = true → b_cb (g_bind u1).[b] ≠ Some (CbSock idx)).
    { unfold u1. destruct (sk_bound s) eqn:Bs; [by apply uhold_unbind|].
      assert (Hno : ∀ b, bidx b → b_used (g_bind (st_udp x)).[b] = true → b_cb (g_bind (st_udp x)).[b] ≠ Some (CbSock idx)).
      { intros b Hb Ub. eapply unbound_free; try done. by rewrite (Bs : sk_bound (g_sock x).[idx] = false), andb_false_r. }
      split; [by apply uhold_put | done]. }
    destruct Hu1 as [Hu1 Hno]. assert (Hq : sock_ok s) by (by apply H5).
    pose proof (uhold_bind u1 (g_sock x).[idx <- s1] idx (set_sk_bound true (set_sk_port port s1)) port ltac:(by rewrite aset_length) Hi Hu1 Hno) as Hb.
    destruct (udp_bind _ _ _) as [u2 r]. destruct Hb as [[Hr ->]|[-> Hu2]]; try done.
    + rewrite (proj2 (Z.eqb_neq r 0)) by done. cbn [negb fst]. by apply sinv_udp.
    + cbn [Z.eqb negb fst]. unfold aset in Hu2. rewrite list_insert_insert_eq in Hu2. by apply sinv_udp.
  - destruct (bool_decide _); [done|]. cbn [fst]. apply sinv_put; try done; [|by intros _; apply H5]. unfold same_hold. cbn. auto 10.
Qed.

Lemma dgram_send_ok x idx dev ip port buf : sinv x → sidx idx → sk_used (g_sock x).[idx] = true → sk_type (g_sock x).[idx] = SOCK_DGRAM →
  sinv (dgram_send x idx dev ip port buf).1.
Proof.
  intros Hx Hi Ui Ti. unfold dgram_send. pose proof (udp_autobind_ok x idx Hx Hi Ui Ti) as Ha. destruct (udp_autobind x idx) as [x1 r]. cbn [fst] in Ha.
  destruct (negb _); [done|]. destruct (udp_output _ _ _ _ _ _). by apply sinv_l3.
Qed.

Lemma sock_udp_cb_ok x i sip sport data : sinv x → sidx i → sinv (sock_udp_cb x i sip sport data).
Proof.
  intros Hx Hi. unfold sock_udp_cb. destruct (sk_used (g_sock x).[i]) eqn:Ui; [|done]. cbn [negb orb]. zbool. destruct (Z.leb_spec SOCK_DQ (sk_count (g_sock x).[i])); [done|].
  apply sinv_put; try done; [by unfold same_hold; auto 10|]. intros _. destruct (si_queue _ _ Hx i Hi Ui) as (T & A & B & C & D). unfold sock_ok. cbn [sk_dq sk_head sk_count set_sk_count set_sk_dq].
  split_and!; try lia; [done | by rewrite aset_length|]. apply Forall_insert; [done|]. cbn [dg_data]. rewrite length_take. destruct (Z.ltb_spec SOCK_DGRAM_MAX (zlen data)); unfold SOCK_DGRAM_MAX in *; lia.
Qed.

(** ** Connections *)

(** The slot [tcp_alloc] returns is no socket's. *)
Lemma unheld_free x i c : sinv x → sidx i → held (g_conns (st_tcp x)).[c] = false → ∀ j, sidx j → j ≠ i → sk_used (g_sock x).[j] = true → sk_tcp (g_sock x).[j] ≠ Some c.
Proof. intros Hx Hi Hh j Hj _ Uj Tj. destruct (th_conn _ _ (si_thold _ _ Hx) j c Hj Uj Tj) as (_ & B & _). congruence. Qed.

Lemma only_stays x c (t1 t2 : tcp l3 K) : slot c → held (g_conns (st_tcp x)).[c] = false → safe (st_tcp x) t1 → only c t1 t2 → safe (st_tcp x) t2.
Proof.
  intros Hc Hh Hs Ho j Hj Hjh. rewrite Ho; [by apply Hs | done |]. intros ->. congruence.
Qed.

Lemma safe_others x i (t : tcp l3 K) : sinv x → sidx i → sk_used (g_sock x).[i] = true → safe (st_tcp x) t →
  ∀ j c, sidx j → j ≠ i → sk_used (g_sock x).[j] = true → sk_tcp (g_sock x).[j] = Some c → stays (g_conns (st_tcp x)).[c] (g_conns t).[c].
Proof. intros Hx Hi Ui Hs. apply stays_others; auto. Qed.

Lemma start_connect_sinv now rnd x idx dev ip port : sinv x → sidx idx → sk_used (g_sock x).[idx] = true → sk_type (g_sock x).[idx] = SOCK_STREAM →
  sk_listening (g_sock x).[idx] = false → dev ≠ NULL_DEV → sinv (start_connect now rnd x idx (g_sock x).[idx] dev ip port).1.
Proof.
  intros Hx Hi Ui Ti Li Hd. pose proof Hx as [H1 H2 H3 H4 H5]. unfold start_connect. pose proof (tcp_alloc_ok base (st_tcp x) H1) as Ha. destruct (tcp_alloc _) as [t1 [c|]]; [|destruct Ha as (? & ? & _); by apply sinv_tcp].
  destruct Ha as (Ht1 & Hs1 & Hc & Ho1 & Hf & Hnh & _). pose proof (start_connect_ok base now rnd t1 c dev ip port Ht1 Hc Hf Hd) as Hs. destruct (tcp_start_connect _ _ _ _ _ _ _) as [t2 r].
  destruct Hs as (-> & Ht2 & Ho2 & Hh2 & Hl2). cbn [Z.eqb negb fst]. pose proof (only_stays x c t1 t2 Hc Hnh Hs1 Ho2) as Hs2.
  apply sinv_stream; try done; [by apply H5 | | by apply safe_others].
  cbn. intros ? [= <-]. split; [done|]. split_and!; try done; [congruence|]. by apply unheld_free.
Qed.

Lemma l_connect_ok now rnd x idx ip port : sinv x → sinv (l_connect now rnd x idx ip port).1.
Proof.
  intros Hx. unfold l_connect. destruct (sk x idx) as [s|] eqn:E; [|done]. apply sk_some in E as (Hi & -> & Ui). cbv zeta. set (dev := net_primary _). pose proof Hx as [H1 H2 H3 H4 H5].
  destruct (Z.eqb_spec dev NULL_DEV); [done|]. destruct (Z.eqb_spec (sk_type (g_sock x).[idx]) SOCK_DGRAM) as [Td|Td].
  { set (x1 := put_sock x idx _). assert (Eg : (g_sock x1).[idx] = set_sk_peer ip port (g_sock x).[idx]) by (apply aget_aset_eq; rewrite H2; exact Hi).
    apply udp_autobind_ok; try done; rewrite ?Eg; try done. apply sinv_put; try done; [by unfold same_hold; auto 10|]. intros _. by apply (H5 idx). }
  destruct (sk_listening (g_sock x).[idx]) eqn:Li; [done|]. destruct (sk_tcp (g_sock x).[idx]) as [c|] eqn:Tc.
  2: { apply start_connect_sinv; try done. by destruct (H5 idx Hi Ui) as ([?|?] & _). }
  assert (Hput : sinv (put_sock x idx (set_sk_connecting false (g_sock x).[idx]))).
  { apply sinv_put; try done; [by unfold same_hold; auto 10|]. intros _. by apply (H5 idx). }
  destruct (negb _); [done|]. destruct (in_states _ _); [done|]. destruct (_ || (_ <=? _)); [|done]. cbn [fst].
  destruct (th_conn _ _ H3 idx c Hi Ui Tc) as (Hc & Hh & _ & Ts). destruct (release_ok base now (st_tcp x) c H1 Hc Hh) as [Ht Hs].
  apply sinv_stream; try done; [by apply (H5 idx) | cbn; by rewrite Li |]. apply stays_others; try done. intros j Hj Hjh Hne. apply Hs; try done. intros ->. by apply Hne.
Qed.

Lemma l_listen_ok x idx backlog : sinv x → sinv (l_listen x idx backlog).1.
Proof.
  intros Hx. unfold l_listen. destruct (sk x idx) as [s|] eqn:E; [|done]. apply sk_some in E as (Hi & -> & Ui). cbv zeta. set (dev := net_primary _). pose proof Hx as [H1 H2 H3 H4 H5].
  destruct (Z.eqb_spec (sk_type (g_sock x).[idx]) SOCK_STREAM) as [Ts|]; [|done]. cbn [negb]. destruct (sk_listening (g_sock x).[idx]) eqn:Li; [done|]. destruct (_ || _); [done|].
  destruct (Z.eqb_spec dev NULL_DEV); [done|]. pose proof (tcp_alloc_ok base (st_tcp x) H1) as Ha. destruct (tcp_alloc _) as [t1 [c|]]; [|destruct Ha as (? & ? & _); by apply sinv_tcp].
  destruct Ha as (Ht1 & Hs1 & Hc & Ho1 & Hf & Hnh & _). destruct (fresh_spec _ Hf) as (Fu & Fs & Fl & _).
  pose proof (start_listen_ok base t1 c dev (sk_port (g_sock x).[idx]) backlog Ht1 Hc Hf) as Hs. destruct (tcp_start_listen _ _ _ _ _) as [t2 r].
  destruct Hs as [[-> ->]|(-> & Ht2 & Ho2 & Hh2 & Hl2)]; cbn [Z.eqb negb fst].
  - destruct (tcp_free_ok base t1 c Ht1 Hc) as (Ht2 & Ho2 & _); [unfold is_lst, is_state; rewrite Fs; by rewrite andb_false_r|]. apply sinv_tcp; try done. by eapply only_stays.
  - pose proof (only_stays x c t1 t2 Hc Hnh Hs1 Ho2) as Hs2. apply sinv_stream; try done; [by apply (H5 idx) | | by apply safe_others].
    cbn. intros ? [= <-]. split; [done|]. split_and!; try done. by apply unheld_free.
Qed.

Lemma l_accept_ok x idx : sinv x → sinv (l_accept x idx).1.
Proof.
  intros Hx. unfold l_accept. destruct (sk x idx) as [s|] eqn:E; [|done]. destruct (negb _); [done|]. destruct (sk_tcp s) as [lc|]; [|done]. destruct (_ =? _); [done|].
  pose proof (l_create_ok x SOCK_STREAM Hx) as Hc. destruct (l_create x SOCK_STREAM) as [x1 r]. destruct Hc as [Hx1 [[Hr ->]|(Hr & Ur & Ex)]].
  { rewrite (proj2 (Z.ltb_lt r 0)) by done. done. }
  rewrite (proj2 (Z.ltb_ge r 0)) by apply Hr. set (s1 := set_sk_refs 1 _) in Ex. assert (Es : (g_sock x1).[r] = s1) by (rewrite Ex; apply aget_aset_eq; rewrite (si_len _ _ Hx); exact Hr). rewrite Es.
  pose proof (accept_ready_ok base (st_tcp x1) lc (si_tcp _ _ Hx1)) as Ha. destruct (tcp_accept_ready _ _) as [t [ch|]]; cbn [fst].
  - destruct Ha as (Ht & Hch & Ho & Hn & Hh & Hl). assert (Hs : safe (st_tcp x1) t) by (eapply only_stays; try done; by apply safe_refl).
    apply sinv_stream; rewrite ?Es; try done; [by apply created_ok; left | | by apply safe_others; rewrite ?Es].
    cbn. intros ? [= <-]. split; [done|]. split_and!; try done. by apply unheld_free.
  - subst t. apply (sinv_gone x1 r (st_tcp x1) (st_udp x1)); try done; [apply si_tcp, Hx1 | |].
    + apply (uhold_put _ _ _ _ (si_len _ _ Hx1) Hr (si_uhold _ _ Hx1)); [|done]. intros b Hb Ub. eapply (unbound_free _ _ _ _ (si_uhold _ _ Hx1)); try done. by rewrite Es.
    + apply safe_others; try done; first [by rewrite Es | apply safe_refl].
Qed.

(** ** Data *)

Lemma l_send_ok now x idx buf : sinv x → sinv (l_send now x idx buf).1.
Proof.
  intros Hx. unfold l_send. destruct (sk x idx) as [s|] eqn:E; [|done]. apply sk_some in E as (Hi & -> & Ui). cbv zeta. destruct (_ =? NULL_DEV); [done|].
  destruct (Z.eqb_spec (sk_type (g_sock x).[idx]) SOCK_STREAM) as [Ts|Ts].
  - destruct (sk_tcp (g_sock x).[idx]) as [c|] eqn:Tc; [|done]. destruct (sk_listening (g_sock x).[idx]) eqn:Li; [done|]. destruct (negb _); [done|]. destruct (_ =? 0); [done|].
    destruct (th_conn _ _ (si_thold _ _ Hx) idx c Hi Ui Tc) as (Hc & Hh & Hl & _). destruct (write_ok base now (st_tcp x) c buf (si_tcp _ _ Hx) Hc Hh ltac:(congruence)) as [Ht Hs].
    destruct (tcp_write _ _ _ _) as [t n]. by apply sinv_tcp.
  - destruct (_ =? 0); [done|]. apply dgram_send_ok; try done. by destruct (si_queue _ _ Hx idx Hi Ui) as ([?|?] & _).
Qed.

Lemma l_sendto_ok x idx ip port buf : sinv x → sinv (l_sendto x idx ip port buf).1.
Proof.
  intros Hx. unfold l_sendto. destruct (sk x idx) as [s|] eqn:E; [|done]. apply sk_some in E as (Hi & -> & Ui).
  destruct (Z.eqb_spec (sk_type (g_sock x).[idx]) SOCK_DGRAM); [|done]. cbn [negb]. destruct (_ =? _); [done|]. by apply dgram_send_ok.
Qed.

Lemma l_recv_ok x idx len : sinv x → sinv (l_recv x idx len).1.1.1.
Proof.
  intros Hx. unfold l_recv. destruct (sk x idx) as [s|] eqn:E; [|done]. apply sk_some in E as (Hi & -> & Ui). destruct (_ <=? _); [done|]. destruct (_ =? SOCK_STREAM).
  - destruct (sk_tcp (g_sock x).[idx]) as [c|] eqn:Tc; [|done]. destruct (sk_listening (g_sock x).[idx]) eqn:Li; [done|].
    destruct (th_conn _ _ (si_thold _ _ Hx) idx c Hi Ui Tc) as (Hc & Hh & Hl & _). destruct (read_ok base (st_tcp x) c len (si_tcp _ _ Hx) Hc ltac:(congruence)) as [Ht Hs].
    destruct (tcp_read _ _ _) as [[t d] n]. by apply sinv_tcp.
  - destruct (Z.ltb_spec 0 (sk_count (g_sock x).[idx])); [|done]. cbn [fst]. apply sinv_put; try done; [by unfold same_hold; auto 10|].
    intros _. destruct (si_queue _ _ Hx idx Hi Ui) as (T & A & B & C & D). unfold sock_ok. cbn [sk_type sk_dq sk_head sk_count set_sk_count set_sk_head].
    pose proof (Z.mod_pos_bound (sk_head (g_sock x).[idx] + 1) SOCK_DQ ltac:(done)). split_and!; try done; lia.
Qed.

(** ** Frames and ticks *)

Lemma ipv4_input_ok now rnd x dev d frame : sinv x → sinv (ipv4_input now rnd x dev d frame).
Proof.
  intros Hx. unfold ipv4_input. destruct (ipv4_parse d frame) as [[[proto src] payload]|]; [|done]. destruct (_ =? IP_PROTO_ICMP).
  { destruct (icmp_input _ _ _ _ _) as [n r]. pose proof (sinv_l3 base x n Hx) as [H1 H2 H3 H4 H5]. by constructor. }
  destruct (_ =? IP_PROTO_UDP).
  - destruct (udp_input _ _ _) as [[[[[i|id] sip] sport] data]|] eqn:E; [|by destruct Hx|done]. apply sock_udp_cb_ok; [done|].
    unfold udp_input in E. destruct (_ <? 8); [done|]. destruct (_ || _); [done|]. destruct (first _ (g_bind (st_udp x))) as [b|] eqn:Ef; [|done].
    apply first_some in Ef as (Hb & [Hbd _]%andb_true_iff & _). rewrite aget_lookup in E by done. destruct (g_bind (st_udp x)).[b] as [p [cb|] u] eqn:Eb; [|done]. injection E as -> _ _ _.
    destruct (uh_sock _ _ (si_uhold _ _ Hx) b i) as [Hi _]; rewrite ?Eb; try done; [unfold bidx; by rewrite <- (uh_len _ _ (si_uhold _ _ Hx))|].
    unfold bound in Hbd. by apply andb_true_iff in Hbd as [? _].
  - destruct (_ =? IP_PROTO_TCP); [|done]. destruct (tcp_input_ok base now rnd (st_tcp x) dev src payload (si_tcp _ _ Hx)). by apply sinv_tcp.
Qed.

Lemma net_rx_ok now rnd x dev frame : sinv x → sinv (net_rx now rnd x dev frame).
Proof.
  intros Hx. unfold net_rx. destruct (dev_at _ _) as [d|]; [|done]. destruct (_ || _); [done|]. cbv zeta. set (x1 := mk_stack _ _ _ _ _ _).
  assert (Hx1 : sinv x1) by (by destruct Hx). unfold eth_input. destruct (_ <? _); [done|]. destruct (_ =? _); [by apply sinv_l3|]. destruct (_ =? _); [by apply ipv4_input_ok | done].
Qed.

Lemma net_tick_ok now x : sinv x → sinv (net_tick now x).
Proof.
  intros Hx. unfold net_tick. set (x1 := set_l3 _ _). assert (Hx1 : sinv x1) by (by apply sinv_l3). destruct (tcp_tick_ok base now (st_tcp x1) (si_tcp _ _ Hx1)). by apply sinv_tcp.
Qed.
End stack.
