(* ===== verification/SocketProps.v ===== *)
(** * What the stack promises

    The stack as a transition system: socket calls, received frames, ticks and
    the other clients of the layers below, in any order.  What holds in every
    state it reaches. *)

From S2P Require Import Prelude Pmm Heap HeapInv HeapProps NetBase Net Tcp NetProps TcpSeg TcpGhost TcpTable TcpHeap TcpOps Socket SocketInv SocketOps.

(** ** Definitions *)

Section system.
Context {NIC : Nic} {K : Type} {HEAP : BufOps K}.
Implicit Types (x : stack K).

(** The static tables at start of day, over the devices and the heap. *)
Definition net_boot (n : l3) (k : K) : stack K :=
  mk_stack (mk_tcp (replicate 64 conn_zero) 49152 0 0 0 n k) (mk_udp (replicate 64 (mk_bind 0 None false)) 49152) (replicate 64 sock_zero) 0 0 [].

(** The calls of processes, the driver's frames and the timer.  Below the
    transports anything may happen between them: devices come up, are
    configured and send.  Other UDP clients take ports and return their own. *)
Inductive net_step : stack K → stack K → Prop :=
  | ns_create x type : net_step x (l_create x type).1
  | ns_ref x idx : net_step x (l_ref x idx)
  | ns_unref now x idx : net_step x (l_unref now x idx)
  | ns_bind x idx port : net_step x (l_bind x idx port).1
  | ns_connect now rnd x idx ip port : net_step x (l_connect now rnd x idx ip port).1
  | ns_listen x idx backlog : net_step x (l_listen x idx backlog).1
  | ns_accept x idx : net_step x (l_accept x idx).1
  | ns_send now x idx buf : net_step x (l_send now x idx buf).1
  | ns_sendto x idx ip port buf : net_step x (l_sendto x idx ip port buf).1
  | ns_recv x idx len : net_step x (l_recv x idx len).1.1.1
  | ns_rx now rnd x dev frame : net_step x (net_rx now rnd x dev frame)
  | ns_tick now x : net_step x (net_tick now x)
  | ns_l3 x n : net_step x (set_l3 x n)
  | ns_client_bind x port id : net_step x (set_udp x (udp_bind (st_udp x) port (Some (CbOther id))).1)
  | ns_client_unbind x port : (∀ b j, bidx b → bound port (g_bind (st_udp x)).[b] = true → b_cb (g_bind (st_udp x)).[b] ≠ Some (CbSock j)) →
      net_step x (set_udp x (udp_unbind (st_udp x) port)).
End system.

(** ** The invariant *)

Section inv.
Context {NIC : Nic} {K : Type} {HEAP : BufOps K} {LAWS : BufLaws K}.
Implicit Types (x : stack K).

Lemma conn_zero_get i : (replicate 64 conn_zero).[i] = conn_zero.
Proof.
  unfold aget. rewrite list_lookup_total_alt. destruct (replicate 64 conn_zero !! Z.to_nat i) eqn:E; [|done]. by apply lookup_replicate in E as [-> _].
Qed.
Lemma sock_zero_get i : (replicate 64 sock_zero).[i] = sock_zero.
Proof.
  unfold aget. rewrite list_lookup_total_alt. destruct (replicate 64 sock_zero !! Z.to_nat i) eqn:E; [|done]. by apply lookup_replicate in E as [-> _].
Qed.
Lemma bind_zero_get i : (replicate 64 (mk_bind 0 None false)).[i] = mk_bind 0 None false.
Proof.
  unfold aget. rewrite list_lookup_total_alt. destruct (replicate 64 _ !! Z.to_nat i) eqn:E; [|done]. by apply lookup_replicate in E as [-> _].
Qed.

Lemma boot_sinv n k (P : Z → Prop) : buf_rep k P → sinv P (net_boot n k).
Proof.
  intros Hk. constructor.
  - constructor; cbn [st_tcp net_boot g_conns t_heap g_eph].
    + constructor; [done|..]; intros *; rewrite ?conn_zero_get; done.
    + assert (Hno : ∀ q, ¬ owns (replicate 64 conn_zero) q) by (intros q (i & b & _ & E & Hq); rewrite conn_zero_get in E; by destruct b).
      constructor; [eapply buf_ext, Hk | |]; [intros q; specialize (Hno q); tauto | by intros q []%Hno |]. intros i j a b _ _. rewrite !conn_zero_get. by destruct a.
    + done.
  - done.
  - constructor; intros *; cbn [g_sock net_boot]; by rewrite ?sock_zero_get.
  - constructor; cbn [st_udp net_boot g_bind g_ephemeral g_sock]; [done | done |..]; intros *; by rewrite ?bind_zero_get, ?sock_zero_get.
  - intros i _. cbn [g_sock net_boot]. by rewrite sock_zero_get.
Qed.

Lemma net_step_ok base x y : sinv base x → net_step x y → sinv base y.
Proof.
  intros Hx St. destruct St.
  - pose proof (l_create_ok base x type Hx) as H. destruct (l_create x type). apply H.
  - by apply l_ref_ok.
  - by apply l_unref_ok.
  - by apply l_bind_ok.
  - by apply l_connect_ok.
  - by apply l_listen_ok.
  - by apply l_accept_ok.
  - by apply l_send_ok.
  - by apply l_sendto_ok.
  - by apply l_recv_ok.
  - by apply net_rx_ok.
  - by apply net_tick_ok.
  - by apply sinv_l3.
  - apply sinv_set_udp; [done|]. apply uhold_bind_other, Hx.
  - apply sinv_set_udp; [done|]. apply uhold_unbind_other; [apply Hx | done].
Qed.

Lemma net_reach n k P x : buf_rep k P → rtc net_step (net_boot n k) x → sinv P x.
Proof. intros Hk H. assert (Hb := boot_sinv n k P Hk). induction H as [|x y z H1 _ IH]; [done|]. apply IH. by eapply net_step_ok. Qed.
(** What the lookups of the receive path return. *)
Lemma udp_input_sock u src seg i sip sport data : udp_input u src seg = Some (CbSock i, sip, sport, data) →
  ∃ b, 0 ≤ b < zlen (g_bind u) ∧ bound (rd_be16 seg 2) (g_bind u).[b] = true ∧ b_cb (g_bind u).[b] = Some (CbSock i).
Proof.
  unfold udp_input. destruct (_ <? 8); [done|]. destruct (_ || _); [done|]. destruct (first _ (g_bind u)) as [b|] eqn:Ef; [|done].
  apply first_some in Ef as (Hb & [Hbd _]%andb_true_iff & _). rewrite aget_lookup by done. destruct (g_bind u).[b] as [p [cb|] w] eqn:Eb; [|done]. intros [= -> _ _ _]. exists b. rewrite Eb in *. done.
Qed.

Lemma matches_alive sip sport dport c : matches sip sport dport c = true → alive c = true ∧ tuple c = (dport, sport, sip).
Proof.
  unfold matches. rewrite !andb_true_iff, !negb_true_iff, !Z.eqb_eq. intros [[[[[Hu Hl] Hc] <-] <-] <-]. split; [|done]. apply alive_split. split; [done|].
  split; [by eapply bool_decide_eq_false_1 | by eapply bool_decide_eq_false_1].
Qed.
Lemma listens_lst port c : listens_on port c = true → is_lst c = true ∧ local_port c = port.
Proof. unfold listens_on, is_lst. rewrite !andb_true_iff, Z.eqb_eq. tauto. Qed.
End inv.

(** ** A run to look at *)

(** A heap that hands out the numbers 1, 2, ... *)
Definition demo_buf : BufOps (list Z) := {|
  kmalloc l n := let p := foldr Z.max 0 l + 1 in (p :: l, p, replicate (Z.to_nat n) 0);
  kfree l p := filter (λ q, q ≠ p) l
|}.
Definition demo_rep (l : list Z) (P : Z → Prop) : Prop := (∀ q, P q ↔ q ∈ l) ∧ ∀ q, q ∈ l → 0 < q.

Lemma max_above (l : list Z) q : q ∈ l → q ≤ foldr Z.max 0 l.
Proof. induction l as [|x l IH]; [by intros []%elem_of_nil|]. intros [->|Hq]%elem_of_cons; cbn; [lia|]. specialize (IH Hq). lia. Qed.

Lemma demo_malloc_law (l : list Z) P n : demo_rep l P → 0 < n ≤ 65536 → let '(l', p, b) := @kmalloc _ demo_buf l n in
  p = 0 ∧ demo_rep l' P ∨ p ≠ 0 ∧ ¬ P p ∧ zlen b = n ∧ demo_rep l' (λ q, P q ∨ q = p).
Proof.
  intros [Hp Hpos] Hn. cbn. right. set (p := foldr Z.max 0 l + 1). assert (H0 : 0 < p) by (unfold p; clear; induction l; cbn; lia). split_and!; [lia | | rewrite length_replicate; lia | split].
  - intros Hl%Hp%max_above. unfold p in *. lia.
  - intros q. rewrite elem_of_cons, Hp. tauto.
  - intros q [->|Hq]%elem_of_cons; [done | by apply Hpos].
Qed.
Lemma demo_free_law (l : list Z) P p : demo_rep l P → P p → demo_rep (@kfree _ demo_buf l p) (λ q, P q ∧ q ≠ p).
Proof.
  intros [Hp Hpos] _. split; cbn.
  - intros q. rewrite list_elem_of_filter, Hp. tauto.
  - intros q [_ Hq]%list_elem_of_filter. by apply Hpos.
Qed.
Lemma demo_rep_ext (l : list Z) P Q : (∀ q, P q ↔ Q q) → demo_rep l P → demo_rep l Q.
Proof. intros E [Hp Hpos]. split; [|done]. intros q. by rewrite <- E. Qed.
Definition demo_laws : @BufLaws (list Z) demo_buf := @Build_BufLaws _ demo_buf demo_rep demo_rep_ext demo_malloc_law demo_free_law.

Lemma demo_rep_nil : demo_rep [] (λ _, False).
Proof. split; intros q; [by rewrite elem_of_nil | by intros []%elem_of_nil]. Qed.

(** A listening stream socket on port 80 and a datagram socket on port 53. *)
Definition demo_run {K} {B : BufOps K} (k : K) : stack K :=
  (@l_bind K (@l_create K (@l_listen K B (@l_bind K (@l_create K (@net_boot K demo_l3 k) SOCK_STREAM).1 0 80).1 0 2).1 SOCK_DGRAM).1 1 53).1.
Lemma demo_run_reach {K} {B : BufOps K} (k : K) : rtc (@net_step demo_nic K B) (net_boot demo_l3 k) (demo_run k).
Proof.
  unfold demo_run. eapply rtc_r; [|apply ns_bind]. eapply rtc_r; [|apply ns_create]. eapply rtc_r; [|apply ns_listen]. eapply rtc_r; [|apply ns_bind]. eapply rtc_r; [|apply ns_create]. apply rtc_refl.
Qed.

(** ** Properties *)

Section props.
Context {NIC : Nic} {K : Type} {HEAP : BufOps K} {LAWS : BufLaws K}.

(** C7. Nothing the receive path or the timer can reach dangles.  In every state
    the stack reaches, by socket calls, frames from the wire and ticks in any
    order, the control block of an open stream socket is in use, is not an
    orphan, listens exactly if the socket does and is no other socket's; and
    the socket a UDP datagram is delivered to is open and bound to the
    datagram's port, with room in its ring for what the counters say. *)
Theorem sockets_hold (n : l3) (k : K) P (x : stack K) : buf_rep k P → rtc net_step (net_boot n k) x →
  (∀ i c, sidx i → sk_used (g_sock x).[i] = true → sk_tcp (g_sock x).[i] = Some c →
     let cb := (g_conns (st_tcp x)).[c] in
     slot c ∧ used cb = true ∧ orphan cb = false ∧ is_state TCP_LISTEN cb = sk_listening (g_sock x).[i] ∧
     ∀ j, sidx j → sk_used (g_sock x).[j] = true → sk_tcp (g_sock x).[j] = Some c → j = i) ∧
  (∀ src seg i sip sport data, udp_input (st_udp x) src seg = Some (CbSock i, sip, sport, data) →
     sidx i ∧ sk_used (g_sock x).[i] = true ∧ sk_type (g_sock x).[i] = SOCK_DGRAM ∧ sk_bound (g_sock x).[i] = true ∧ sk_port (g_sock x).[i] = rd_be16 seg 2 ∧ sock_ok (g_sock x).[i]).
Proof.
  intros Hk Hr. pose proof (net_reach n k P x Hk Hr) as Hx. split.
  - intros i c Hi Ui Tc cb. destruct (th_conn _ _ (si_thold _ _ Hx) i c Hi Ui Tc) as (Hc & Hh & Hl & _). apply (held_spec P) in Hh as (Hu & Ho & _). fold cb in Hu, Ho, Hl. split; [done|]. split_and!; try done.
    + unfold is_lst in Hl. by rewrite Hu in Hl.
    + intros j Hj Uj Tj. by eapply (th_uniq _ _ (si_thold _ _ Hx)).
  - intros src seg i sip sport data E. destruct (udp_input_sock (st_udp x) src seg i sip sport data E) as (b & Hb & Hbd & Ec).
    apply andb_true_iff in Hbd as [Hbu Hbp%Z.eqb_eq]. rewrite (uh_len _ _ (si_uhold _ _ Hx)) in Hb. destruct (uh_sock _ _ (si_uhold _ _ Hx) b i Hb Hbu Ec) as (Hi & Ui & Ti & Bi & Pi).
    split; [done|]. rewrite Pi, Hbp. split_and!; try done; by apply (si_queue _ _ Hx).
Qed.

(** C13. The connection table demultiplexes without ambiguity and respects the
    backlog.  In every state reached: no two control blocks in use match the same
    segment; no two listeners share a port; a listener has at most its backlog
    of connections not yet accepted, and the backlog is at most four; a
    connection not yet accepted belongs to a listener that is still open. *)
Theorem tcp_table_sound (n : l3) (k : K) P (x : stack K) : buf_rep k P → rtc net_step (net_boot n k) x →
  let l := g_conns (st_tcp x) in
  (∀ i j src sport dport, slot i → slot j → matches src sport dport l.[i] = true → matches src sport dport l.[j] = true → i = j) ∧
  (∀ i j port, slot i → slot j → listens_on port l.[i] = true → listens_on port l.[j] = true → i = j) ∧
  (∀ m, slot m → is_lst l.[m] = true → listener_queued (st_tcp x) m false ≤ backlog l.[m] ≤ TCP_MAX_BACKLOG) ∧
  (∀ i m, slot i → used l.[i] = true → listener l.[i] = Some m → slot m ∧ is_lst l.[m] = true).
Proof.
  intros Hk Hr l. pose proof (net_reach n k P x Hk Hr) as Hx. pose proof (ti_conns _ _ (si_tcp _ _ Hx)) as Hc. fold l in Hc. split_and!.
  - intros i j src sport dport Hi Hj Mi Mj. apply matches_alive in Mi as [Ai Ti], Mj as [Aj Tj]. apply (ci_tuple _ Hc); try done. congruence.
  - intros i j port Hi Hj Li Lj. apply listens_lst in Li as [Ai Ti], Lj as [Aj Tj]. apply (ci_port _ Hc); try done. congruence.
  - intros m Hm Hl. split; [by apply (ci_queue _ Hc)|]. by destruct (sl_list _ (ci_slot _ Hc m Hm) Hl) as (_ & _ & _ & _ & _ & _ & ?).
  - apply (ci_lst _ Hc).
Qed.
End props.

Lemma sockets_hold_witness : let x := @demo_run _ demo_buf [] in
  sk_tcp (g_sock x).[0] = Some 0 ∧ is_state TCP_LISTEN (g_conns (st_tcp x)).[0] = true ∧
  udp_input (st_udp x) 7 [0; 9; 0; 53; 0; 9; 0; 0; 42] = Some (CbSock 1, 7, 9, [42]) ∧ sk_port (g_sock x).[1] = 53.
Proof.
  intros x. destruct (@sockets_hold demo_nic _ demo_buf demo_laws demo_l3 [] (λ _, False) x demo_rep_nil (@demo_run_reach _ demo_buf [])) as [H1 H2].
  assert (E0 : sk_tcp (g_sock x).[0] = Some 0) by (vm_compute; reflexivity). assert (U0 : sk_used (g_sock x).[0] = true) by (vm_compute; reflexivity).
  assert (E1 : udp_input (st_udp x) 7 [0; 9; 0; 53; 0; 9; 0; 0; 42] = Some (CbSock 1, 7, 9, [42])) by (vm_compute; reflexivity).
  destruct (H1 0 0 ltac:(unfold sidx, MAX_SOCK; lia) U0 E0) as (_ & _ & _ & Hl & _). destruct (H2 _ _ _ _ _ _ E1) as (_ & _ & _ & _ & Hp & _).
  split; [exact E0|]. split; [rewrite Hl; vm_compute; reflexivity|]. split; [exact E1|]. rewrite Hp. vm_compute. reflexivity.
Defined.

Lemma tcp_table_sound_witness : let x := @demo_run _ demo_buf [] in
  is_lst (g_conns (st_tcp x)).[0] = true ∧ backlog (g_conns (st_tcp x)).[0] = 2 ∧ listener_queued (st_tcp x) 0 false ≤ backlog (g_conns (st_tcp x)).[0].
Proof.
  intros x. destruct (@tcp_table_sound demo_nic _ demo_buf demo_laws demo_l3 [] (λ _, False) x demo_rep_nil (@demo_run_reach _ demo_buf [])) as (_ & _ & H & _).
  assert (E0 : is_lst (g_conns (st_tcp x)).[0] = true) by (vm_compute; reflexivity). split; [exact E0|]. split; [vm_compute; reflexivity|].
  apply (H 0); [unfold slot, TCP_MAX_CONN; lia | exact E0].
Defined.

(** C12. Buffers are never leaked, shared or used after they were freed, over the
    real heap.  In every state the stack reaches from a sound heap whose clients
    hold the blocks [P], the heap is sound and its clients hold [P] and exactly
    the buffers of the connection table: every open connection has its two, no
    block has two owners, none is one of [P], and a free slot or a listener has
    none.  When no control block is in use the heap's clients hold [P] again. *)
Theorem tcp_buffers_exact caller (Hc : is_u64 caller) (NIC : Nic) (n : l3) (h : heap pmm) P (x : stack (heap pmm)) :
  heap_rep h P → rtc (@net_step NIC _ (heap_buf_ops caller)) (net_boot n h) x →
  let l := g_conns (st_tcp x) in
  heap_rep (t_heap (st_tcp x)) (λ q, P q ∨ owns l q) ∧
  (∀ i, slot i → used l.[i] = true → state l.[i] ≠ TCP_LISTEN → tx_ptr l.[i] ≠ 0 ∧ rx_ptr l.[i] ≠ 0) ∧
  (∀ i, slot i → used l.[i] = false ∨ state l.[i] = TCP_LISTEN → tx_ptr l.[i] = 0 ∧ rx_ptr l.[i] = 0) ∧
  (∀ i j a b, slot i → slot j → ptr l.[i] a = ptr l.[j] b → ptr l.[i] a ≠ 0 → i = j ∧ a = b) ∧
  (∀ q, owns l q → ¬ P q) ∧
  (tcp_count (st_tcp x) = (0, 0) → heap_rep (t_heap (st_tcp x)) P).
Proof.
  intros Hh Hr l. pose proof (@net_reach NIC _ (heap_buf_ops caller) (heap_buf_laws caller Hc) n h P x Hh Hr) as Hx. pose proof (si_tcp _ _ Hx) as [Hci [H1 H2 H3] _]. fold l in Hci, H1, H2, H3.
  assert (Hfree : ∀ i, slot i → used l.[i] = false → tx_ptr l.[i] = 0 ∧ rx_ptr l.[i] = 0) by (intros i Hi; apply (sl_free _ (ci_slot _ Hci i Hi))).
  split; [exact H1|]. split_and!; try done.
  - intros i Hi. apply (sl_bufs _ (ci_slot _ Hci i Hi)).
  - intros i Hi Hu. destruct (used l.[i]) eqn:Eu; [|by apply Hfree]. destruct Hu as [?|Hs]; [done|].
    destruct (sl_list _ (ci_slot _ Hci i Hi)) as (? & ? & _); [|done]. apply is_lst_spec. done.
  - intros [= Hz _]. fold l in Hz. eapply heap_rep_ext, H1. intros q. split; [|by left]. intros [?|(i & b & Hi & E & Hq)]; [done|]. exfalso. apply Hq. rewrite <- E.
    destruct (Hfree i Hi) as [? ?]; [|by destruct b]. destruct (used l.[i]) eqn:Eu; [|done]. pose proof (count_pos used l i) as Hp. rewrite Hz in Hp. pose proof (ci_len _ Hci). specialize (Hp ltac:(unfold slot in Hi; lia) Eu). lia.
Qed.

Lemma tcp_buffers_exact_witness : heap_rep (t_heap (st_tcp (@demo_run _ (heap_buf_ops 5) demo_h1))) (λ q, False ∨ owns (g_conns (st_tcp (@demo_run _ (heap_buf_ops 5) demo_h1))) q).
Proof.
  destruct demo_h1_ok as (fr & bl & Hi & Hl & _). apply (tcp_buffers_exact 5 ltac:(unfold is_u64; lia) demo_nic demo_l3 demo_h1 (λ _, False) (@demo_run _ (heap_buf_ops 5) demo_h1)).
  - exists fr, bl. split; [exact Hi|]. intros q. rewrite Hl. split; [intros [] | intros []%elem_of_nil].
  - apply demo_run_reach.
Defined.
