(* ===== verification/UdpProps.v ===== *)
(** * A datagram from socket to socket

    [sendto] on one host, the frame on the wire, the receive path of another
    host and [recv] there. *)

From S2P Require Import Prelude NetBase Net Tcp NetProps TcpTable Socket SocketInv SocketOps SocketProps.

(** The receiver's view of a segment [udp_output] built. *)
Lemma udp_input_segment u ss src sport dport cs data b cb : uhold u ss → is_u16 sport → is_u16 dport → length cs = 2%nat → zlen data ≤ NET_MTU - 28 →
  bidx b → bound dport (g_bind u).[b] = true → b_cb (g_bind u).[b] = Some cb →
  udp_input u src (udp_segment sport dport cs data) = Some (cb, src, sport, data).
Proof.
  intros Hu Hs Hd Hcs Hl Hb Hbd Hcb. unfold NET_MTU in Hl. destruct cs as [|c1 [|c2 []]]; try done.
  assert (Hlen : zlen (udp_segment sport dport [c1; c2] data) = 8 + zlen data) by (unfold udp_segment; rewrite !length_app; cbn [length be16]; lia).
  unfold udp_input. cbv zeta. rewrite Hlen. rewrite (proj2 (Z.ltb_ge _ 8)) by lia. set (seg := udp_segment _ _ _ _).
  assert (E0 : rd_be16 seg 0 = sport) by (apply (rd_be16_at seg 0 sport _ ltac:(lia) eq_refl Hs)).
  assert (E2 : rd_be16 seg 2 = dport) by (apply (rd_be16_at seg 2 dport _ ltac:(lia) eq_refl Hd)).
  assert (E4 : rd_be16 seg 4 = 8 + zlen data).
  { rewrite <- (u16_small (8 + zlen data)) by (unfold_uint; lia). apply (rd_be16_at seg 4 _ ([c1; c2] ++ data) ltac:(lia)); [reflexivity | apply u16_range]. }
  rewrite E0, E2, E4. rewrite (proj2 (Z.ltb_ge (8 + zlen data) 8)), (proj2 (Z.ltb_ge (8 + zlen data) (8 + zlen data))) by lia. cbn [orb].
  rewrite (first_unique _ _ b); [| rewrite (uh_len _ _ Hu); exact Hb | rewrite Hbd, Hcb; done |].
  - rewrite aget_lookup by (rewrite (uh_len _ _ Hu); exact Hb). destruct (g_bind u).[b] as [p c w] eqn:Eb. cbn in Hcb. subst c.
    change (drop 8 seg) with data. rewrite take_ge by lia. done.
  - intros k Hk [Hkb _]%andb_true_iff. rewrite (uh_len _ _ Hu) in Hk. unfold bound in *. rewrite andb_true_iff, Z.eqb_eq in Hkb, Hbd. apply (uh_port _ _ Hu); try done; [apply Hkb | apply Hbd |]. destruct Hkb, Hbd. congruence.
Qed.

Section datagram.
Context {NIC : Nic} {K : Type} {HEAP : BufOps K}.

(** The frame of a datagram, taken in by the host it is for. *)
Lemma datagram_rx now rnd (y : stack K) dev d' mac smac id src dst sport dport cs data hc j :
  uhold (st_udp y) (g_sock y) → dev_at (net_of y) dev = Some d' → d_ip d' = dst → is_u32 dst → is_u32 src → is_u16 sport → length cs = 2%nat → length hc = 2%nat → zlen data ≤ NET_MTU - 28 →
  sidx j → sk_used (g_sock y).[j] = true → sk_type (g_sock y).[j] = SOCK_DGRAM → sk_bound (g_sock y).[j] = true → sk_port (g_sock y).[j] = dport → is_u16 dport →
  let seg := udp_segment sport dport cs data in
  let f := eth_frame mac smac ETH_TYPE_IPV4 (ipv4_header (20 + zlen seg) id src dst IP_PROTO_UDP hc ++ seg) in
  net_rx now rnd y dev f = sock_udp_cb (mk_stack (st_tcp y) (st_udp y) (g_sock y) (g_echo_replies y) (u64 (g_rx_frames y + 1)) (upcalls y)) j src sport data.
Proof.
  intros Hu Hdev Hip Hd32 Hs32 Hsp Hcs Hhc Hl Hj Uj Tj Bj Pj Hdp seg f. pose proof Hl as Hl'. unfold NET_MTU in Hl'.
  assert (Hseg : zlen seg = 8 + zlen data) by (unfold seg, udp_segment; destruct cs as [|? [|? []]]; try done; rewrite !length_app; cbn [length be16]; lia).
  assert (Hf : zlen f = Z.max 60 (14 + (20 + zlen seg))) by (unfold f; rewrite eth_frame_length; destruct hc as [|? [|? []]]; try done; rewrite length_app; cbn; lia).
  unfold net_rx. rewrite Hdev. rewrite (proj2 (Z.ltb_ge (zlen f) 14)), (proj2 (Z.ltb_ge NET_FRAME_MAX (zlen f))) by (unfold NET_FRAME_MAX; lia). cbn [orb]. cbv zeta. unfold eth_input.
  rewrite (proj2 (Z.ltb_ge (zlen f) 14)) by lia. destruct (eth_type_frame mac smac ETH_TYPE_IPV4 (ipv4_header (20 + zlen seg) id src dst IP_PROTO_UDP hc ++ seg) ltac:(by unfold is_u16, ETH_TYPE_IPV4)) as [Et _]. fold f in Et. rewrite Et. cbn [Z.eqb ETH_TYPE_IPV4 ETH_TYPE_ARP Pos.eqb].
  assert (Hp : ipv4_parse d' f = Some (IP_PROTO_UDP, src, seg)).
  { destruct hc as [|h1 [|h2 []]]; try done. pose proof (ipv4_parse_frame d' mac smac (20 + zlen seg) id src dst IP_PROTO_UDP h1 h2 seg ltac:(lia) eq_refl) as H. fold f in H.
    rewrite (u32_small dst), (u32_small src), Hip, Z.eqb_refl in H by done. cbn [negb] in H. rewrite andb_false_r in H. cbn [andb] in H. rewrite <- H. unfold ip_payload. rewrite Et, Z.eqb_refl, (proj2 (Z.leb_le 14 (zlen f))) by lia. done. }
  unfold ipv4_input. rewrite Hp. cbn [Z.eqb IP_PROTO_UDP IP_PROTO_ICMP Pos.eqb st_udp].
  destruct (uh_bound _ _ Hu j Hj Uj Tj Bj) as (b & Hb & Ub & Cb & Pb). unfold seg. rewrite (udp_input_segment (st_udp y) (g_sock y) src sport dport cs data b (CbSock j)); try done.
  unfold bound. rewrite Ub, Pb, Pj, Z.eqb_refl. done.
Qed.

End datagram.

(** A datagram from port 53 of one host to port 53 of its neighbour. *)
Definition demo_neighbour : l3 := mk_l3 [mk_dev [82; 85; 10; 0; 2; 2] 33685514 16777215 0 true] (replicate 16 (mk_arp 0 [] false 0)) 1 0 0 [].
Definition demo_there : stack (list Z) :=
  (@l_bind (list Z) (@l_create (list Z) (@net_boot (list Z) demo_neighbour []) SOCK_DGRAM).1 0 53).1.
Lemma demo_there_reach : rtc (@net_step demo_nic _ demo_buf) (net_boot demo_neighbour []) demo_there.
Proof. eapply rtc_r; [|apply ns_bind]. apply rtc_once, ns_create. Qed.

