(* ===== verification/PageCache.v ===== *)
(** * The page cache

    [src/mm/pagecache.c]: pages of files kept in frames of the physical
    allocator, read by [read(2)] and by the demand pager.  The frames come from
    any [FrameOps]; the files are any [Files].  The cache's lock makes each
    call one step. *)

From S2P Require Import Prelude Pmm Frames Vma Vmm VmmWf Ring NetBase.

(** ** Definitions *)

Definition PC_ENTRIES : Z := 128.

(** What the cache uses of an inode: its size, its file system ([ops], 0 for
    none), whether that has a [read], and the bytes [read] stores in a buffer. *)
Class Files (F : Type) := {
  f_size : F → Z → Z;
  f_ops : F → Z → Z;
  f_reads : F → Z → bool;
  f_read : F → Z → Z → Z → list Z
}.

Record pc_entry := mk_pce { e_inode : Z; e_ops : Z; e_off : Z; e_phys : Z; e_valid : bool }.
#[export] Instance pc_entry_inhabited : Inhabited pc_entry := populate (mk_pce 0 0 0 0 false).

Local Abbreviation pc_hit ino off := (λ e, e_valid e && (e_inode e =? ino) && (e_off e =? off)).

Section cache.
Context {A F : Type} {ops : FrameOps A} {FS : Files F}.

(** The cache, the frame allocator and physical memory by byte. *)
Record pcache := mk_pcache { pc : list pc_entry; pc_clock : Z; pc_frames : A; pc_mem : mem }.
Definition put_entry (x : pcache) (i : Z) (e : pc_entry) (a : A) (m : mem) : pcache := mk_pcache (pc x).[i <- e] (pc_clock x) a m.

Definition put_bytes (m : mem) (a : Z) (l : list Z) : mem := λ y, if (a <=? y) && (y <? a + zlen l) then l.[y - a] else m y.

Definition pc_fill (f : F) (ino off phys : Z) (m : mem) : mem :=
  let m1 := put_bytes m phys (replicate 4096 0) in
  if f_reads f ino && (off <? f_size f ino) then
    let avail := f_size f ino - off in
    let n := if avail <? 4096 then avail else 4096 in
    if ztrue n then put_bytes m1 phys (f_read f ino off n) else m1
  else m1.

(** The page of an entry goes back to the allocator. *)
Definition pc_drop (x : pcache) (i : Z) : pcache :=
  let e := (pc x).[i] in
  put_entry x i (mk_pce (e_inode e) (e_ops e) (e_off e) 0 false) (if ztrue (e_phys e) then fa_free (pc_frames x) (e_phys e) else pc_frames x) (pc_mem x).

(** The slot a miss takes. *)
Definition pc_slot (x : pcache) : pcache * Z :=
  match first (λ e, negb (e_valid e)) (pc x) with
  | Some i => (x, i)
  | None =>
      let i := pc_clock x mod PC_ENTRIES in
      let x1 := pc_drop x i in (mk_pcache (pc x1) (u32 (pc_clock x1 + 1)) (pc_frames x1) (pc_mem x1), i)
  end.

Definition pagecache_get_phys_nolock (f : F) (x : pcache) (ino off : Z) : pcache * Z :=
  if ino =? 0 then (x, 0)
  else
    let off := Z.land off (not64 0xFFF) in
    match first (pc_hit ino off) (pc x) with
    | Some i => (x, e_phys (pc x).[i])
    | None =>
        let '(x1, i) := pc_slot x in
        let '(a, fr) := fa_alloc (pc_frames x1) in
        if fr =? 0 then (mk_pcache (pc x1) (pc_clock x1) a (pc_mem x1), 0)
        else
          let phys := Z.land fr ADDRESS_MASK in
          (put_entry x1 i (mk_pce ino (f_ops f ino) off phys true) a (pc_fill f ino off phys (pc_mem x1)), phys)
    end.

(** The loop of [pagecache_read]; [out] is what is in the caller's buffer. *)
Fixpoint read_loop (fuel : nat) (f : F) (ino offset len : Z) (x : pcache) (out : list Z) : pcache * list Z :=
  match fuel with
  | O => (x, out)
  | S fuel =>
      let done := zlen out in
      if len <=? done then (x, out)
      else
        let off := offset + done in
        let pgoff := Z.land off (not64 0xFFF) in
        let in_pg := off - pgoff in
        let '(x1, phys) := pagecache_get_phys_nolock f x ino pgoff in
        if phys =? 0 then (x1, out)
        else
          let chunk := if len - done <? 4096 - in_pg then len - done else 4096 - in_pg in
          read_loop fuel f ino offset len x1 (out ++ ((λ i, pc_mem x1 (phys + in_pg + i)) <$> seqZ 0 chunk))
  end.

(** The loop copies at least a byte a turn. *)
Definition pagecache_read (f : F) (x : pcache) (ino offset len : Z) : pcache * list Z * Z :=
  if ino =? 0 then (x, [], -1)
  else if f_size f ino <=? offset then (x, [], 0)
  else
    let len := if f_size f ino <? u64 (offset + len) then f_size f ino - offset else len in
    let '(x1, out) := read_loop (Z.to_nat len) f ino offset len x [] in
    (x1, out, s32 (zlen out)).

Definition pagecache_invalidate (x : pcache) (ino offset len : Z) : pcache :=
  if ino =? 0 then x
  else
    let end_ := u64 (offset + len) in
    zfor (length (pc x)) 0 (λ i x,
      let e := (pc x).[i] in
      if e_valid e && (e_inode e =? ino) && (e_off e <? end_) && (offset <? u64 (e_off e + 4096)) then pc_drop x i else x) x.

Definition pagecache_invalidate_fs (x : pcache) (o : Z) : pcache :=
  if o =? 0 then x
  else zfor (length (pc x)) 0 (λ i x, let e := (pc x).[i] in if e_valid e && (e_ops e =? o) then pc_drop x i else x) x.
End cache.
Arguments pcache : clear implicits.

(** ** Files *)

(** A file is a sequence of bytes, and [read] returns them; what a short read
    leaves out reads as zero. *)
Class FileLaws (F : Type) `{Files F} := {
  f_byte : F → Z → Z → Z;
  f_size_range f ino : 0 ≤ f_size f ino < 2 ^ 62;
  f_read_law f ino off n : f_reads f ino = true → 0 ≤ off → 0 ≤ n → off + n ≤ f_size f ino → let l := f_read f ino off n in
    zlen l ≤ n ∧ ∀ i, 0 ≤ i < n → f_byte f ino (off + i) = if i <? zlen l then l.[i] else 0
}.

Section laws.
Context {A F : Type} {ops : FrameOps A} {laws : FrameLaws A} {FS : Files F} {FL : FileLaws F}.
Implicit Types (f : F) (x : pcache A).

(** What a page of the file shows at offset [k]. *)
Definition shown f (ino k : Z) : Z := if f_reads f ino && (k <? f_size f ino) then f_byte f ino k else 0.

Definition eidx (i : Z) : Prop := 0 ≤ i < PC_ENTRIES.

(** The cache owns the frames of its valid entries. *)
Record entry_wf (a : A) (e : pc_entry) : Prop := {
  ew_ino : e_inode e ≠ 0;
  ew_off : 0 ≤ e_off e < 2 ^ 63 ∧ (4096 | e_off e);
  ew_ref : fa_ref a (e_phys e) = 1
}.

Record pc_wf x : Prop := {
  pw_len : zlen (pc x) = PC_ENTRIES;
  pw_frames : fa_inv (pc_frames x);
  pw_entry i : eidx i → e_valid (pc x).[i] = true → entry_wf (pc_frames x) (pc x).[i];
  pw_key i j : eidx i → eidx j → e_valid (pc x).[i] = true → e_valid (pc x).[j] = true →
    e_inode (pc x).[i] = e_inode (pc x).[j] → e_off (pc x).[i] = e_off (pc x).[j] → i = j;
  pw_phys i j : eidx i → eidx j → e_valid (pc x).[i] = true → e_valid (pc x).[j] = true → e_phys (pc x).[i] = e_phys (pc x).[j] → i = j
}.

(** An entry shows its page of the file as it is now. *)
Definition holds f (m : mem) (e : pc_entry) : Prop :=
  e_ops e = f_ops f (e_inode e) ∧ ∀ b, 0 ≤ b < 4096 → m (e_phys e + b) = shown f (e_inode e) (e_off e + b).

Definition coherent f x : Prop := ∀ i, eidx i → e_valid (pc x).[i] = true → holds f (pc_mem x) (pc x).[i].

(** ** Dropping and filling *)

Lemma page_apart p q b c : (4096 | p) → (4096 | q) → p ≠ q → 0 ≤ b < 4096 → 0 ≤ c < 4096 → p + b ≠ q + c.
Proof. intros [k ->] [l ->] Hne Hb Hc E. apply Hne. f_equal. lia. Qed.

Lemma ew_phys x e : pc_wf x → entry_wf (pc_frames x) e → 0 < e_phys e < PHYS_TOP ∧ (4096 | e_phys e).
Proof. intros Hx He. apply (fa_ref_page (pc_frames x)); [apply Hx|]. rewrite (ew_ref _ _ He). lia. Qed.

(** Frames only move between the cache and the allocator; those of others, and
    what they hold, are left alone. *)
Definition pool x : Z := fa_avail (pc_frames x) + count e_valid (pc x).
Definition same_others x x' : Prop := pool x' = pool x ∧ ∀ q, fa_ref (pc_frames x) q ≠ 0 → (∀ i, eidx i → e_valid (pc x).[i] = true → e_phys (pc x).[i] ≠ q) →
  fa_ref (pc_frames x') q = fa_ref (pc_frames x) q ∧ (∀ b, 0 ≤ b < 4096 → pc_mem x' (q + b) = pc_mem x (q + b)) ∧
  ∀ i, eidx i → e_valid (pc x').[i] = true → e_phys (pc x').[i] ≠ q.

Lemma same_others_refl x : same_others x x.
Proof. by split. Qed.
Lemma same_others_trans x y z : same_others x y → same_others y z → same_others x z.
Proof.
  intros [P1 H1] [P2 H2]. split; [congruence|]. intros q Hq Hn. destruct (H1 q Hq Hn) as (A1 & A2 & A3). destruct (H2 q ltac:(by rewrite A1) A3) as (B1 & B2 & B3). split_and!; [congruence | | done]. intros b Hb. by rewrite B2, A2.
Qed.

(** Entries only go away. *)
Definition shrinks x x' : Prop := ∀ i, eidx i → (pc x').[i] = (pc x).[i] ∨ e_valid (pc x').[i] = false.

Lemma pc_drop_ok x i : pc_wf x → eidx i → e_valid (pc x).[i] = true → let x' := pc_drop x i in
  pc_wf x' ∧ same_others x x' ∧ e_valid (pc x').[i] = false ∧ (∀ j, eidx j → j ≠ i → (pc x').[j] = (pc x).[j]) ∧ pc_mem x' = pc_mem x ∧ fa_avail (pc_frames x') = fa_avail (pc_frames x) + 1.
Proof.
  intros Hx Hi Hv x'. pose proof Hx as [W1 W2 W3 W4 W5]. pose proof (W3 i Hi Hv) as He. destruct (ew_phys x _ Hx He) as [Hp _].
  assert (Ea : pc_frames x' = fa_free (pc_frames x) (e_phys (pc x).[i])) by (unfold x', pc_drop, ztrue; cbn; by rewrite (proj2 (Z.eqb_neq _ _)) by lia).
  destruct (fa_free_law (pc_frames x) (e_phys (pc x).[i]) W2 (ew_ref _ _ He)) as [Hinv Href]. rewrite <- Ea in Hinv, Href.
  assert (Hg : ∀ j, eidx j → (pc x').[j] = if i =? j then mk_pce (e_inode (pc x).[i]) (e_ops (pc x).[i]) (e_off (pc x).[i]) 0 false else (pc x).[j]).
  { intros j Hj. unfold x', pc_drop, put_entry. cbn [pc]. apply aget_aset; unfold eidx in *; lia. }
  assert (Hne : ∀ j, eidx j → j ≠ i → (pc x').[j] = (pc x).[j]) by (intros j Hj Hne; rewrite Hg, (proj2 (Z.eqb_neq i j)) by done; done).
  assert (Hvi : ∀ j, eidx j → e_valid (pc x').[j] = true → j ≠ i ∧ (pc x').[j] = (pc x).[j]).
  { intros j Hj. rewrite Hg by done. destruct (Z.eqb_spec i j) as [<-|]; [done|]. by split. }
  split_and!.
  - constructor; [unfold x', pc_drop, put_entry; cbn [pc]; by rewrite aset_length | done | | |].
    + intros j Hj Hjv. destruct (Hvi j Hj Hjv) as [Hji Ej]. rewrite Ej in *. destruct (W3 j Hj Hjv) as [E1 E2 E3]. constructor; try done. rewrite Href.
      destruct (Z.eqb_spec (e_phys (pc x).[j]) (e_phys (pc x).[i])); [|done]. destruct Hji. by apply W5.
    + intros j m Hj Hm Hjv Hmv. destruct (Hvi j Hj Hjv) as [_ Ej], (Hvi m Hm Hmv) as [_ Em]. rewrite Ej, Em in *. by apply W4.
    + intros j m Hj Hm Hjv Hmv. destruct (Hvi j Hj Hjv) as [_ Ej], (Hvi m Hm Hmv) as [_ Em]. rewrite Ej, Em in *. by apply W5.
  - split; [unfold pool; rewrite Ea, fa_avail_free by (done || apply He); unfold x', pc_drop, put_entry; cbn [pc]; rewrite count_set, Hv by (unfold eidx in Hi; lia); cbn; lia|].
    intros q Hq Hn. split_and!; [|done|].
    + rewrite Href. destruct (Z.eqb_spec q (e_phys (pc x).[i])) as [->|]; [|done]. by destruct (Hn i Hi Hv).
    + intros j Hj Hjv. destruct (Hvi j Hj Hjv) as [_ Ej]. rewrite Ej in *. by apply Hn.
  - by rewrite Hg, Z.eqb_refl by done.
  - done.
  - done.
  - rewrite Ea. apply fa_avail_free; [done | apply He].
Qed.

Lemma get_put_bytes m a l y : put_bytes m a l y = if (a <=? y) && (y <? a + zlen l) then l.[y - a] else m y.
Proof. done. Qed.

(** A fresh page shows the file; nothing else in memory changes. *)
Lemma pc_fill_ok f ino off phys m : 0 ≤ off → (∀ b, 0 ≤ b < 4096 → pc_fill f ino off phys m (phys + b) = shown f ino (off + b)) ∧
  ∀ y, y < phys ∨ phys + 4096 ≤ y → pc_fill f ino off phys m y = m y.
Proof.
  intros Hoff. pose proof (f_size_range f ino) as Hs. set (m1 := put_bytes m phys (replicate 4096 0)).
  assert (Hz : (∀ b, 0 ≤ b < 4096 → m1 (phys + b) = 0) ∧ ∀ y, y < phys ∨ phys + 4096 ≤ y → m1 y = m y).
  { split; intros; unfold m1; rewrite get_put_bytes, length_replicate; change (Z.of_nat 4096) with 4096.
    - rewrite (proj2 (Z.leb_le _ _)), (proj2 (Z.ltb_lt _ _)) by lia. cbn [andb]. apply aget_replicate. lia.
    - destruct (Z.leb_spec phys y), (Z.ltb_spec y (phys + 4096)); cbn [andb]; done || lia. }
  destruct Hz as [Hz1 Hz2]. unfold pc_fill. fold m1. cbv zeta. unfold shown. destruct (f_reads f ino) eqn:Er; cbn [andb]; [|done].
  destruct (Z.ltb_spec off (f_size f ino)) as [Hlt|Hge]; [|split; [|done]; intros b Hb; rewrite (proj2 (Z.ltb_ge (off + b) _)) by lia; by apply Hz1].
  set (n := if _ <? 4096 then _ else _). assert (Hn : 0 < n ≤ 4096 ∧ off + n ≤ f_size f ino ∧ (n = 4096 ∨ off + n = f_size f ino)) by (unfold n; destruct (Z.ltb_spec (f_size f ino - off) 4096); lia).
  unfold ztrue. rewrite (proj2 (Z.eqb_neq n 0)) by lia. cbn [negb]. destruct (f_read_law f ino off n Er) as [Hl Hr]; [lia..|]. set (l := f_read f ino off n) in *. split.
  - intros b Hb. rewrite get_put_bytes, (proj2 (Z.leb_le phys (phys + b))) by lia. cbn [andb]. destruct (Z.ltb_spec (off + b) (f_size f ino)).
    + rewrite Hr by lia. destruct (Z.ltb_spec (phys + b) (phys + zlen l)), (Z.ltb_spec b (zlen l)); try lia; [f_equal; lia | by apply Hz1].
    + destruct (Z.ltb_spec (phys + b) (phys + zlen l)); [lia | by apply Hz1].
  - intros y Hy. rewrite get_put_bytes. destruct (Z.leb_spec phys y), (Z.ltb_spec y (phys + zlen l)); cbn [andb]; try lia; by apply Hz2.
Qed.

(** ** Looking up *)

Definition page_of (off : Z) : Z := off / 4096 * 4096.

Lemma pc_slot_ok x : pc_wf x → let '(x', i) := pc_slot x in
  pc_wf x' ∧ same_others x x' ∧ shrinks x x' ∧ eidx i ∧ e_valid (pc x').[i] = false ∧ pc_mem x' = pc_mem x ∧ (x' = x ∨ fa_avail (pc_frames x') = fa_avail (pc_frames x) + 1).
Proof.
  intros Hx. pose proof (pw_len _ Hx) as Hl. unfold pc_slot. destruct (first (λ e, negb (e_valid e)) (pc x)) as [i|] eqn:E; cbv beta iota.
  - apply first_some in E as (Hi & Hv%negb_true_iff & _). split; [done|]. split; [apply same_others_refl|]. split; [by intros j Hj; left|]. split; [unfold eidx; lia|]. split; [done|]. split; [done | by left].
  - set (i := pc_clock x mod PC_ENTRIES). assert (Hi : eidx i) by (apply Z.mod_pos_bound; done).
    assert (Hv : e_valid (pc x).[i] = true) by (pose proof (first_none _ _ i E ltac:(unfold eidx in Hi; lia)) as H; by apply negb_false_iff in H).
    destruct (pc_drop_ok x i Hx Hi Hv) as (A1 & A2 & A3 & A4 & A5 & A6). split; [by destruct A1|]. split; [exact A2|]. split; [|split; [done|]; split; [done|]; split; [done | by right]].
    intros j Hj. destruct (decide (j = i)) as [->|Hne]; [by right | left; by apply A4].
Qed.

Lemma get_phys_ok f x ino off : pc_wf x → coherent f x → ino ≠ 0 → 0 ≤ off < 2 ^ 63 → let '(x', p) := pagecache_get_phys_nolock f x ino off in
  pc_wf x' ∧ coherent f x' ∧ same_others x x' ∧
  (p = 0 ∧ fa_avail (pc_frames x') = 0 ∨
   ∃ i, eidx i ∧ e_valid (pc x').[i] = true ∧ e_inode (pc x').[i] = ino ∧ e_off (pc x').[i] = page_of off ∧ e_phys (pc x').[i] = p ∧ p ≠ 0).
Proof.
  intros Hx Hc Hino Hoff. pose proof (pw_len _ Hx) as Hl. unfold pagecache_get_phys_nolock. rewrite (proj2 (Z.eqb_neq ino 0)) by done. rewrite land_not_page by (unfold is_u64; lia). fold (page_of off). cbv zeta.
  assert (Hpo : 0 ≤ page_of off < 2 ^ 63 ∧ (4096 | page_of off)) by (unfold page_of; split; [Z.to_euclidean_division_equations; lia | by exists (off / 4096)]).
  destruct (first (pc_hit ino (page_of off)) (pc x)) as [i|] eqn:E.
  { apply first_some in E as (Hi & Hh & _). cbv beta in Hh. rewrite !andb_true_iff, !Z.eqb_eq in Hh. destruct Hh as [[Hv Ei] Eo]. assert (Hei : eidx i) by (unfold eidx; lia).
    split; [done|]. split; [done|]. split; [apply same_others_refl|]. right. exists i. pose proof (ew_phys x _ Hx (pw_entry _ Hx i Hei Hv)). split_and!; try done; try apply Hei. lia. }
  pose proof (pc_slot_ok x Hx) as Hsl. destruct (pc_slot x) as [x1 i]. destruct Hsl as (Hx1 & Hso & Hsh & Hi & Hiv & Hm1 & Hav).
  assert (Hc1 : coherent f x1) by (intros j Hj Hjv; destruct (Hsh j Hj) as [Ej|Ej]; [rewrite Hm1; rewrite Ej in *; by apply Hc | congruence]).
  destruct (fa_alloc (pc_frames x1)) as [a fr] eqn:Ea. pose proof (fa_avail_alloc _ _ _ (pw_frames _ Hx1) Ea) as Hav1. destruct (Z.eqb_spec fr 0) as [->|Hfr].
  { destruct (fa_alloc_law _ _ _ (pw_frames _ Hx1) Ea) as [[_ ->]|(Hia & _ & Hr)].
    - split; [by destruct Hx1|]. split; [exact Hc1|]. split; [exact Hso|]. by left.
    - destruct (fa_ref_page a 0 Hia) as [? _]; [by rewrite Hr|lia]. }
  destruct (fa_alloc_law _ _ _ (pw_frames _ Hx1) Ea) as [[? _]|(Hia & Hr0 & Hr)]; [done|]. assert (Hpa : page_addr fr) by (apply (fa_ref_page a fr Hia); by rewrite Hr, Z.eqb_refl).
  rewrite (page_addr_mask fr Hpa). set (e := mk_pce ino (f_ops f ino) (page_of off) fr true). set (x2 := put_entry _ _ _ _ _).
  destruct (pc_fill_ok f ino (page_of off) fr (pc_mem x1) ltac:(lia)) as [Hf1 Hf2].
  assert (Hg : ∀ j, eidx j → (pc x2).[j] = if i =? j then e else (pc x1).[j]).
  { intros j Hj. unfold x2, put_entry. cbn [pc]. pose proof (pw_len _ Hx1). apply aget_aset; unfold eidx in *; lia. }
  assert (Hold : ∀ j, eidx j → e_valid (pc x1).[j] = true → e_phys (pc x1).[j] ≠ fr).
  { intros j Hj Hjv Ej. pose proof (ew_ref _ _ (pw_entry _ Hx1 j Hj Hjv)) as H1. rewrite Ej in H1. congruence. }
  assert (Hmem : ∀ q b, (4096 | q) → q ≠ fr → 0 ≤ b < 4096 → pc_mem x2 (q + b) = pc_mem x1 (q + b)).
  { intros q b Hq Hne Hb. apply Hf2. destruct Hpa as [_ [k ->]], Hq as [l ->]. assert (k < l ∨ l < k) by lia. lia. }
  assert (Hnew : ∀ j, eidx j → e_valid (pc x1).[j] = true → ¬ (e_inode (pc x1).[j] = ino ∧ e_off (pc x1).[j] = page_of off)).
  { intros j Hj Hjv [Ei Eo]. destruct (Hsh j Hj) as [Ej|Ej]; [|congruence]. pose proof (first_none _ _ j E ltac:(unfold eidx in Hj; lia)) as Hn. cbv beta in Hn. rewrite <- Ej, Hjv, Ei, Eo, !Z.eqb_refl in Hn. done. }
  split; [|split; [|split]].
  - constructor; [unfold x2, put_entry; cbn [pc]; rewrite aset_length; apply Hx1 | exact Hia | | |].
    + intros j Hj. rewrite Hg by done. destruct (Z.eqb_spec i j) as [<-|Hne].
      * intros _. constructor; try done; cbn. by rewrite Hr, Z.eqb_refl.
      * intros Hjv. destruct (pw_entry _ Hx1 j Hj Hjv) as [E1 E2 E3]. constructor; try done. cbn. rewrite Hr, (proj2 (Z.eqb_neq _ fr)) by (by apply Hold). done.
    + intros j m Hj Hm. rewrite !Hg by done. destruct (Z.eqb_spec i j) as [<-|], (Z.eqb_spec i m) as [<-|]; try done; cbn.
      * intros _ Hmv E1 E2. by destruct (Hnew m Hm Hmv).
      * intros Hjv _ E1 E2. by destruct (Hnew j Hj Hjv).
      * by apply (pw_key _ Hx1).
    + intros j m Hj Hm. rewrite !Hg by done. destruct (Z.eqb_spec i j) as [<-|], (Z.eqb_spec i m) as [<-|]; try done; cbn.
      * intros _ Hmv E1. by destruct (Hold m Hm Hmv).
      * intros Hjv _ E1. by destruct (Hold j Hj Hjv).
      * by apply (pw_phys _ Hx1).
  - intros j Hj. rewrite Hg by done. destruct (Z.eqb_spec i j) as [<-|Hne]; [by intros _; split|]. intros Hjv. destruct (Hc1 j Hj Hjv) as [E1 E2]. split; [done|]. intros b Hb. rewrite <- E2 by done.
    apply Hmem; [|by apply Hold | done]. apply (ew_phys x1 _ Hx1 (pw_entry _ Hx1 j Hj Hjv)).
  - eapply same_others_trans; [exact Hso|]. split; [unfold pool, x2, put_entry; cbn [pc pc_frames]; pose proof (pw_len _ Hx1); rewrite count_set, Hiv by (unfold eidx in Hi; lia); cbn; lia|]. intros q Hq Hn. assert (Hqf : q ≠ fr) by (intros ->; done). split_and!.
    + cbn. by rewrite Hr, (proj2 (Z.eqb_neq q fr)).
    + intros b Hb. apply Hmem; try done. apply (fa_ref_page (pc_frames x1) q (pw_frames _ Hx1) Hq).
    + intros j Hj. rewrite Hg by done. destruct (Z.eqb_spec i j); [by intros _ ?; apply Hqf|]. by apply Hn.
  - right. exists i. rewrite Hg, Z.eqb_refl by done. done.
Qed.

(** ** Reading *)

(** The [n] bytes of the file from [o] on. *)
Definition span f (ino o n : Z) : list Z := (λ i, shown f ino (o + i)) <$> seqZ 0 n.

Lemma span_length f ino o n : 0 ≤ n → zlen (span f ino o n) = n.
Proof. intros Hn. unfold span. rewrite length_fmap, length_seqZ. lia. Qed.

Lemma span_app f ino o n m : 0 ≤ n → 0 ≤ m → span f ino o n ++ span f ino (o + n) m = span f ino o (n + m).
Proof.
  intros Hn Hm. unfold span. rewrite seqZ_app, fmap_app by done. f_equal. rewrite <- (Z.add_0_r (0 + n)), <- fmap_add_seqZ, <- list_fmap_compose. apply list_fmap_ext. intros _ i _. cbn. f_equal. lia.
Qed.

Lemma read_loop_ok fuel f ino offset len x out : pc_wf x → coherent f x → ino ≠ 0 → 0 ≤ offset → 0 ≤ len → offset + len < 2 ^ 63 →
  out = span f ino offset (zlen out) → zlen out ≤ len → len - zlen out ≤ Z.of_nat fuel →
  let '(x', out') := read_loop fuel f ino offset len x out in
  pc_wf x' ∧ coherent f x' ∧ same_others x x' ∧ out' = span f ino offset (zlen out') ∧ zlen out' ≤ len ∧ (zlen out' = len ∨ fa_avail (pc_frames x') = 0).
Proof.
  intros Hx Hc Hino Hoff Hlen Hmax. revert x out Hx Hc. induction fuel as [|fuel IH]; intros x out Hx Hc Hout Hle Hfuel; cbn [read_loop].
  { split_and!; try done; try apply same_others_refl; left; lia. }
  destruct (Z.leb_spec len (zlen out)) as [|Hlt]; [split_and!; try done; try apply same_others_refl; left; lia|].
  set (off := offset + zlen out). rewrite land_not_page by (unfold is_u64; lia). set (pg := off / 4096 * 4096). cbv zeta.
  assert (Hpg : pg ≤ off < pg + 4096 ∧ 0 ≤ pg ∧ page_of pg = pg) by (unfold page_of, pg; rewrite Z.div_mul by lia; Z.to_euclidean_division_equations; lia).
  pose proof (get_phys_ok f x ino pg Hx Hc Hino ltac:(lia)) as Hg. destruct (pagecache_get_phys_nolock f x ino pg) as [x1 p]. destruct Hg as (Hx1 & Hc1 & Hso & [[-> Hav]|(i & Hi & Hv & Ei & Eo & Ep & Hp)]).
  { split_and!; try done. by right. }
  rewrite (proj2 (Z.eqb_neq p 0)) by done. set (ch := if _ <? _ then _ else _). assert (Hch : 0 < ch ∧ ch ≤ len - zlen out ∧ off - pg + ch ≤ 4096) by (unfold ch; destruct (Z.ltb_spec (len - zlen out) (4096 - (off - pg))); lia).
  assert (Hspan : ((λ i, pc_mem x1 (p + (off - pg) + i)) <$> seqZ 0 ch) = span f ino off ch).
  { apply list_fmap_ext. intros k y [-> Hk]%lookup_seqZ. destruct (Hc1 i Hi Hv) as [_ Hpage]. specialize (Hpage (off - pg + (0 + Z.of_nat k)) ltac:(lia)). rewrite Ep, Ei, Eo in Hpage.
    rewrite Z.add_assoc in Hpage. rewrite Hpage. f_equal. destruct Hpg as (_ & _ & ->). lia. }
  rewrite Hspan. assert (Hlen2 : zlen (out ++ span f ino off ch) = zlen out + ch) by (rewrite length_app, Nat2Z.inj_add, span_length by lia; done).
  specialize (IH x1 (out ++ span f ino off ch) Hx1 Hc1). destruct (read_loop fuel f ino offset len x1 _) as [x' out']. destruct IH as (I1 & I2 & I3 & I4 & I5 & I6).
  - rewrite Hlen2, <- span_app by lia. by rewrite <- Hout.
  - lia.
  - lia.
  - split_and!; try done. by eapply same_others_trans.
Qed.

(** ** Dropping what a write or a mount made stale *)

(** One pass over the entries that drops those [P] selects. *)
Lemma sweep_ok x (P : pc_entry → bool) : pc_wf x → let x' := zfor (length (pc x)) 0 (λ i x, if e_valid (pc x).[i] && P (pc x).[i] then pc_drop x i else x) x in
  pc_wf x' ∧ same_others x x' ∧ pc_mem x' = pc_mem x ∧ ∀ i, eidx i → e_valid (pc x').[i] = true → (pc x').[i] = (pc x).[i] ∧ P (pc x).[i] = false.
Proof.
  intros Hx. pose proof (pw_len _ Hx) as Hl. set (x' := zfor _ _ _ _).
  assert (H : pc_wf x' ∧ same_others x x' ∧ pc_mem x' = pc_mem x ∧ (∀ i, eidx i → Z.of_nat (length (pc x)) ≤ i → (pc x').[i] = (pc x).[i]) ∧
    ∀ i, eidx i → i < Z.of_nat (length (pc x)) → e_valid (pc x').[i] = true → (pc x').[i] = (pc x).[i] ∧ P (pc x).[i] = false).
  { unfold x'. rewrite <- (Z.add_0_l (Z.of_nat (length (pc x)))).
    apply (zfor_inv (λ m y, pc_wf y ∧ same_others x y ∧ pc_mem y = pc_mem x ∧ (∀ i, eidx i → m ≤ i → (pc y).[i] = (pc x).[i]) ∧
      ∀ i, eidx i → i < m → e_valid (pc y).[i] = true → (pc y).[i] = (pc x).[i] ∧ P (pc x).[i] = false)).
    - split; [done|]. split; [apply same_others_refl|]. split; [done|]. split; [done|]. intros i [? _] ?. lia.
    - intros m y Hm (Y1 & Y2 & Y3 & Y4 & Y5). assert (Hem : eidx m) by (unfold eidx; lia). rewrite (Y4 m Hem) by lia. destruct (_ && _) eqn:E.
      + apply andb_true_iff in E as [Ev EP]. destruct (pc_drop_ok y m Y1 Hem ltac:(by rewrite Y4 by (done || lia))) as (A1 & A2 & A3 & A4 & A5 & _).
        split; [done|]. split; [by eapply same_others_trans|]. split; [congruence|]. split.
        * intros i Hi Hle. rewrite A4 by (done || lia). apply Y4; [done | lia].
        * intros i Hi Hlt Hv. destruct (decide (i = m)) as [->|]; [congruence|]. rewrite A4 in * by done. apply Y5; [done | lia | done].
      + split; [done|]. split; [done|]. split; [done|]. split; [intros; apply Y4; [done | lia]|].
        intros i Hi Hlt Hv. destruct (decide (i = m)) as [->|]; [|apply Y5; [done | lia | done]]. rewrite Y4 in * by (done || lia). rewrite Hv in E. by split. }
  destruct H as (H1 & H2 & H3 & _ & H5). split_and!; try done. intros i Hi. apply H5; [done|]. unfold eidx in Hi. lia.
Qed.

(** The part of a file outside [lo, hi) is as before. *)
Definition same_but f f' (ino lo hi : Z) : Prop :=
  (∀ j, f_ops f' j = f_ops f j) ∧ (∀ j k, j ≠ ino → 0 ≤ k → shown f' j k = shown f j k) ∧ ∀ k, 0 ≤ k → k < lo ∨ hi ≤ k → shown f' ino k = shown f ino k.

Lemma invalidate_ok f f' x ino off len : pc_wf x → coherent f x → 0 ≤ off → 0 ≤ len → off + len < 2 ^ 63 → ino ≠ 0 → same_but f f' ino off (off + len) →
  let x' := pagecache_invalidate x ino off len in pc_wf x' ∧ coherent f' x' ∧ same_others x x'.
Proof.
  intros Hx Hc Hoff Hlen Hmax Hino (Hops & Hoth & Hsame). unfold pagecache_invalidate. rewrite (proj2 (Z.eqb_neq ino 0)) by done.
  cbv zeta. rewrite u64_small by (unfold is_u64; lia). set (P := λ e, (e_inode e =? ino) && (e_off e <? off + len) && (off <? u64 (e_off e + 4096))).
  pose proof (sweep_ok x P Hx) as Hs. cbv zeta in Hs.
  replace (zfor (length (pc x)) 0 _ x) with (zfor (length (pc x)) 0 (λ i x, if e_valid (pc x).[i] && P (pc x).[i] then pc_drop x i else x) x) by (apply (zfor_rel eq); [done|]; intros j y ? _ <-; unfold P; by rewrite !andb_assoc).
  destruct Hs as (A1 & A2 & A3 & A4). split; [done|]. split; [|done]. intros i Hi Hv. destruct (A4 i Hi Hv) as [Ei HP]. rewrite Ei in *. rewrite A3.
  destruct (Hc i Hi Hv) as [E1 E2]. destruct (pw_entry _ Hx i Hi Hv) as [_ [Ho _] _]. split; [by rewrite Hops|]. intros b Hb. rewrite E2 by done.
  destruct (decide (e_inode (pc x).[i] = ino)) as [En|]; [|symmetry; apply Hoth; [done | lia]]. unfold P in HP. rewrite En, Z.eqb_refl, u64_small in HP by (unfold is_u64; lia). cbn [andb] in HP. apply andb_false_iff in HP.
  rewrite En. symmetry. apply Hsame; [lia|]. zbool. destruct HP; zbool; lia.
Qed.

(** A file system is mounted or unmounted: its inodes may be other files now. *)
Lemma invalidate_fs_ok f f' x o : pc_wf x → coherent f x → o ≠ 0 → (∀ j, f_ops f j ≠ o → f_ops f' j = f_ops f j ∧ ∀ k, 0 ≤ k → shown f' j k = shown f j k) →
  let x' := pagecache_invalidate_fs x o in pc_wf x' ∧ coherent f' x' ∧ same_others x x'.
Proof.
  intros Hx Hc Ho Hf. unfold pagecache_invalidate_fs. rewrite (proj2 (Z.eqb_neq o 0)) by done. destruct (sweep_ok x (λ e, e_ops e =? o) Hx) as (A1 & A2 & A3 & A4). split; [done|]. split; [|done].
  intros i Hi Hv. destruct (A4 i Hi Hv) as [Ei HP]. rewrite Ei in *. rewrite A3. destruct (Hc i Hi Hv) as [E1 E2]. cbn in HP. apply Z.eqb_neq in HP. rewrite E1 in HP. destruct (Hf _ HP) as [F1 F2].
  split; [by rewrite F1|]. intros b Hb. destruct (pw_entry _ Hx i Hi Hv) as [_ [Hoff _] _]. by rewrite F2, E2 by lia.
Qed.

(** ** Everything that happens to the cache *)

(** The cache at boot. *)
Definition pc_boot (a : A) (m : mem) : pcache A := mk_pcache (replicate 128 (mk_pce 0 0 0 0 false)) 0 a m.

(** Reads and faults; a write, truncation or removal followed by the
    invalidation of its range; a mount or unmount followed by the invalidation
    of its file system; the rest of the kernel, which leaves the cache's frames
    alone. *)
Inductive cstep : F * pcache A → F * pcache A → Prop :=
  | cs_read f x ino off len : 0 ≤ off < 2 ^ 64 → 0 ≤ len < 2 ^ 31 → cstep (f, x) (f, (pagecache_read f x ino off len).1.1)
  | cs_fault f x ino off : 0 ≤ off < 2 ^ 63 → cstep (f, x) (f, (pagecache_get_phys_nolock f x ino off).1)
  | cs_write f f' x ino off len : ino ≠ 0 → 0 ≤ off → 0 ≤ len → off + len < 2 ^ 63 → same_but f f' ino off (off + len) → cstep (f, x) (f', pagecache_invalidate x ino off len)
  | cs_mount f f' x o : o ≠ 0 → (∀ j, f_ops f j ≠ o → f_ops f' j = f_ops f j ∧ ∀ k, 0 ≤ k → shown f' j k = shown f j k) → cstep (f, x) (f', pagecache_invalidate_fs x o)
  | cs_other f x a m : fa_inv a →
      (∀ i, eidx i → e_valid (pc x).[i] = true → fa_ref a (e_phys (pc x).[i]) = 1 ∧ ∀ b, 0 ≤ b < 4096 → m (e_phys (pc x).[i] + b) = pc_mem x (e_phys (pc x).[i] + b)) →
      cstep (f, x) (f, mk_pcache (pc x) (pc_clock x) a m).

Lemma pagecache_read_ok f x ino off len : pc_wf x → coherent f x → ino ≠ 0 → 0 ≤ off < 2 ^ 64 → 0 ≤ len < 2 ^ 31 → let '(x', out, r) := pagecache_read f x ino off len in
  pc_wf x' ∧ coherent f x' ∧ same_others x x' ∧ r = zlen out ∧ out = span f ino off r ∧ r ≤ Z.max 0 (Z.min len (f_size f ino - off)) ∧
  (r = Z.max 0 (Z.min len (f_size f ino - off)) ∨ fa_avail (pc_frames x') = 0).
Proof.
  intros Hx Hc Hino Hoff Hlen. pose proof (f_size_range f ino) as Hs. unfold pagecache_read. rewrite (proj2 (Z.eqb_neq ino 0)) by done.
  destruct (Z.leb_spec (f_size f ino) off) as [Hge|Hlt].
  { split; [done|]. split; [done|]. split; [apply same_others_refl|]. split; [done|]. split; [done|]. split; [lia | left; lia]. }
  rewrite u64_small by (unfold is_u64; lia). set (n := if _ <? _ then _ else _). assert (Hn : n = Z.min len (f_size f ino - off)) by (unfold n; destruct (Z.ltb_spec (f_size f ino) (off + len)); lia). cbv zeta.
  pose proof (read_loop_ok (Z.to_nat n) f ino off n x [] Hx Hc Hino ltac:(lia) ltac:(lia) ltac:(lia) eq_refl ltac:(cbn; lia) ltac:(cbn; lia)) as H.
  destruct (read_loop _ f ino off n x []) as [x' out]. destruct H as (H1 & H2 & H3 & H4 & H5 & H6). rewrite s32_small by lia.
  replace (Z.max 0 (Z.min len (f_size f ino - off))) with n by lia. done.
Qed.

Lemma cstep_ok s s' : cstep s s' → pc_wf s.2 ∧ coherent s.1 s.2 → pc_wf s'.2 ∧ coherent s'.1 s'.2.
Proof.
  intros Hs [Hx Hc]. destruct Hs as [f x ino off len Ho Hl|f x ino off Ho|f f' x ino off len Hi Ho Hl Hm Hb|f f' x o Ho Hf|f x a m Ha Hk]; cbn [fst snd] in *.
  - destruct (decide (ino = 0)) as [->|Hi]; [done|]. pose proof (pagecache_read_ok f x ino off len Hx Hc Hi Ho Hl) as H. destruct (pagecache_read f x ino off len) as [[x' out] r]. by destruct H as (? & ? & _).
  - destruct (decide (ino = 0)) as [->|Hi]; [done|]. pose proof (get_phys_ok f x ino off Hx Hc Hi Ho) as H. destruct (pagecache_get_phys_nolock f x ino off) as [x' p]. by destruct H as (? & ? & _).
  - destruct (invalidate_ok f f' x ino off len Hx Hc Ho Hl Hm Hi Hb) as (? & ? & _). done.
  - destruct (invalidate_fs_ok f f' x o Hx Hc Ho Hf) as (? & ? & _). done.
  - split.
    + destruct Hx as [W1 W2 W3 W4 W5]. constructor; try done. intros i Hi Hv. destruct (W3 i Hi Hv) as [E1 E2 E3]. constructor; try done. by apply Hk.
    + intros i Hi Hv. destruct (Hc i Hi Hv) as [E1 E2]. split; [done|]. intros b Hb. cbn in *. rewrite <- E2 by done. by apply Hk.
Qed.

Lemma boot_ok f a m : fa_inv a → pc_wf (pc_boot a m) ∧ coherent f (pc_boot a m).
Proof.
  intros Ha. assert (Hv : ∀ i, eidx i → e_valid (pc (pc_boot a m)).[i] = false) by (intros i Hi; unfold pc_boot; cbn [pc]; rewrite aget_replicate by (unfold eidx, PC_ENTRIES in Hi; lia); done).
  split; [constructor; try done|]; intros i; intros; rewrite Hv in *; done.
Qed.

Lemma reached_ok f0 a m f x : fa_inv a → rtc cstep (f0, pc_boot a m) (f, x) → pc_wf x ∧ coherent f x.
Proof.
  intros Ha Hr. change (pc_wf (f, x).2 ∧ coherent (f, x).1 (f, x).2). remember (f, x) as s eqn:E. clear E. revert Hr. apply (rtc_ind_r (λ s, pc_wf s.2 ∧ coherent s.1 s.2)); [by apply boot_ok|].
  intros y z _ Hs IH. by eapply cstep_ok.
Qed.

(** The page a fault copies. *)
Definition cached_page f x (ino off : Z) : option (list Z) :=
  let '(x', p) := pagecache_get_phys_nolock f x ino off in if p =? 0 then None else Some ((λ b, pc_mem x' (p + b)) <$> seqZ 0 4096).

Lemma cached_page_ok f x ino off : pc_wf x → coherent f x → ino ≠ 0 → 0 ≤ off < 2 ^ 63 →
  cached_page f x ino off = Some (span f ino (page_of off) 4096) ∨
  cached_page f x ino off = None ∧ fa_avail (pc_frames (pagecache_get_phys_nolock f x ino off).1) = 0.
Proof.
  intros Hx Hc Hi Ho. unfold cached_page. pose proof (get_phys_ok f x ino off Hx Hc Hi Ho) as H. destruct (pagecache_get_phys_nolock f x ino off) as [x' q]. destruct H as (Hx' & Hc' & _ & [[-> Hav]|(i & Hei & Hv & Ei & Eo & Ep & Hq)]); [by right|].
  rewrite (proj2 (Z.eqb_neq q 0)) by done. left. apply (f_equal Some). unfold span. apply list_fmap_ext. intros k y [-> Hk]%lookup_seqZ. destruct (Hc' i Hei Hv) as [_ H]. rewrite Ep, Ei, Eo in H. apply H. lia.
Qed.

Lemma mapped_page f x img v pg : pc_wf x → coherent f x → v_type v = VMA_TYPE_FILE → file_inode v ≠ 0 → let off := file_voff v + (pg - v_start v) in 0 ≤ off < 2 ^ 63 → (4096 | off) →
  vma_fault_fill img (cached_page f x) v pg = span f (file_inode v) off 4096 ∨ fa_avail (pc_frames (pagecache_get_phys_nolock f x (file_inode v) off).1) = 0.
Proof.
  intros Hx Hc Ht Hi off Ho [k Hk]. assert (Hp : page_of off = off) by (unfold page_of; rewrite Hk, Z.div_mul; lia). unfold vma_fault_fill. rewrite Ht, (proj2 (Z.eqb_neq _ 0)) by done. fold off. cbn [negb].
  rewrite u64_small by (unfold is_u64; lia). rewrite land_not_page by (unfold is_u64; lia). fold (page_of off). cbv zeta.
  rewrite Hp. destruct (cached_page_ok f x (file_inode v) off Hx Hc Hi Ho) as [-> |[_ ?]]; [left; by rewrite Hp | by right].
Qed.

End laws.

(** ** A file that is rewritten *)

(** Inode 1, before and after a write of two bytes at 4095. *)
#[local] Instance demo_files : Files bool := {
  f_size _ _ := 5000; f_ops _ _ := 1; f_reads _ _ := true;
  f_read f ino off n := (λ i, if f && (ino =? 1) && (4095 <=? off + i) && (off + i <? 4097) then 7 else (off + i) mod 256) <$> seqZ 0 n
}.
#[local] Program Instance demo_file_laws : FileLaws bool := { f_byte f ino k := if f && (ino =? 1) && (4095 <=? k) && (k <? 4097) then 7 else k mod 256 }.
Next Obligation. intros. cbn. lia. Qed.
Next Obligation.
  intros f ino off n _ Ho Hn _. cbn [f_read demo_files]. rewrite length_fmap, length_seqZ. split; [lia|]. intros i Hi. rewrite (proj2 (Z.ltb_lt i _)) by lia.
  rewrite aget_fmap by (rewrite length_seqZ; lia). by rewrite seqZ_get by lia.
Qed.

Definition demo_pc0 : pcache pmm := pc_boot pmm_demo (λ _, 0).
Definition demo_pc1 : pcache pmm := (pagecache_read false demo_pc0 1 4000 200).1.1.
Definition demo_pc2 : pcache pmm := pagecache_invalidate demo_pc1 1 4095 2.

